(* ===== verification/_CoqProject ===== *)
-Q . S2P
Prelude.v
SplitLayout.v
SplitState.v
SessionTypes.v
MultiExec.v
Instances.v
CloseDecision.v
SessionTabs.v
ItemClose.v
ShellSplit.v
ClosePaths.v
Snapshot.v
SnapshotCodec.v
Restore.v
SnapshotLifecycle.v
ShortcutKeys.v
Shortcuts.v
Actions.v
ActionExecutor.v
BatchConnect.v
BatchExecutor.v
BatchController.v
JsString.v
TerminalOutput.v
RemotePaths.v
Osc7.v
TarArchive.v
Transfers.v
TerminalDirectory.v
PromptDirectory.v
ConnectionGroups.v
JumpPlan.v
Settings.v
ConnectionInput.v
ConnectionStore.v
GroupCatalog.v
SecretVault.v
Monitor.v
RemoteEditor.v
ConnectionErrors.v
ConnectionSteps.v
DesktopText.v
RemoteDesktop.v
VncSessions.v
TransferTasks.v
CommandLibrary.v
CommandSender.v
