(* ===== verification/Prelude.v ===== *)
(** * NexaTerm: a verification library of the workspace (root file)

    NexaTerm is a desktop client for remote sessions: terminals over SSH, local shells,
    remote desktops, remote files, all shown in one window. The window is a React program
    in TypeScript, below [src/src/]; the sessions themselves live in a Rust backend, below
    [src/src-tauri/], which the window calls. This library models the logic of the window:
    what it keeps, what its handlers and hooks do with that, what it asks of the backend and
    what it stores and loads. Paths below are relative to [src/src/features/].

    ** Parts and their files

    The arrangement of the window.
    - [SplitLayout]: [terminal/terminalSplitLayout.ts], the tree of at most four panes with
      its geometry and edits. [SplitState]: [workspace/split/], the reducer of the split
      group, its selectors and its controller, over those trees.
    - [SessionTypes]: [workspace/sessionTabs/types.ts], the records of terminals, local
      shells, remote desktops and files that the window holds, and their instance ids.
      [Instances]: [workspace/sessionTabs/instances.ts], the items of the top bar that are
      made of those, of the split group and of the order table.
    - [CloseDecision], [SessionTabs], [ItemClose]: [workspace/sessionTabs/], what becomes
      active when something closes, the reducer of the active pointers with its controller,
      and the requests, plans and confirmations of closing.
    - [ShellSplit], [ClosePaths], [RemoteEditor], [ConnectionSteps], [RemoteDesktop],
      [VncSessions], [TransferTasks], [TarArchive], [CommandLibrary], [CommandSender], and parts
      of [MultiExec], [Transfers] and [Restore]: the handlers of [layout/WorkspaceShell.tsx],
      the component that owns all this state and calls the backend.
    - [MultiExec]: [workspace/multiExec/], input that is sent to several terminals.

    What is stored.
    - [Snapshot], [SnapshotCodec], [Restore], [SnapshotLifecycle]: [workspace/restore/], the
      snapshot of a workspace, its decoder, what a launch makes of it, and the hook that loads
      it once and then saves what is shown.
    - [Settings]: [settings/], the stored settings as typed values.

    Commands.
    - [ShortcutKeys], [Shortcuts], [Actions], [ActionExecutor]: [shortcuts/], key bindings,
      the table of actions with its recorder, which action applies to what, and the executor
      that runs one at a time for each id.
    - [CommandLibrary], [CommandSender]: [commands/] and the shell, snippets and the history of
      commands, and sending one to several terminals.

    Connections.
    - [ConnectionInput], [ConnectionStore], [GroupCatalog], [ConnectionGroups], [JumpPlan],
      [ConnectionErrors]: [connections/], the form of a connection and what is sent of it,
      the hooks that keep connections, credentials and groups, the tree of groups, the chain
      of jump hosts, and what an error says.
    - [ConnectionSteps]: the wizard of the shell that tests and opens a terminal, asks for
      host keys and credentials, and hands the warm output over.
    - [BatchConnect], [BatchExecutor], [BatchController]: [connections/batchConnect*.ts] and
      [useBatchConnectController.ts], connecting a whole group with a pool of workers.

    Sessions.
    - [TerminalOutput]: [terminal/terminalOutputFlow.ts], the queue in front of a terminal.
    - [JsString], [TerminalDirectory], [PromptDirectory], [Osc7]: the three ways to know the
      directory of a shell, from what is typed, from the prompts and from its announcements.
    - [RemotePaths], [Transfers], [RemoteEditor]: [files/], paths, the queue of transfers,
      and the tabs of the file editor with their dialogs. [TransferTasks] has the uploads and
      downloads that the queue runs, with their conflicts and temporary files, and
      [TarArchive] the archive that an uploaded directory becomes.
    - [DesktopText], [RemoteDesktop], [VncSessions]: the sessions of remote desktops, with
      their texts and files, their launches, and the window that hosts a VNC session.
    - [SecretVault]: [security/useSecretVault.ts], the gate in front of the workspace.
    - [Monitor]: [monitor/useRemoteMonitor.ts], the polling of a connection.

    ** How the code is translated

    A definition has the name of the function it translates where there is one. A pure
    function is a function. A handler of the window is a function from the state it runs in
    to the next one, with what it calls as a log or as records of calls in flight; it reads
    the rendered state, so a handler that goes on after an answer keeps what it had read when
    that matters ([RemoteEditor.FileCall], [ClosePaths]). An asynchronous function is cut at
    its awaits, and a component with several of them is a machine whose events are the
    commands of the user, the answers of the backend in any order, the timers and the
    renders with their effects ([SnapshotLifecycle], [BatchExecutor], [ActionExecutor],
    [Transfers], [ConnectionStore], [GroupCatalog], [SecretVault], [Monitor],
    [RemoteEditor], [ConnectionSteps], [RemoteDesktop], [VncSessions], [TransferTasks],
    [CommandSender]); a theorem about such a machine holds for every list
    of events.

    An absent, null or undefined value is [None], and a JavaScript condition on a nullable
    string is [truthy]. A number is an integer where the code only has integers, and an exact
    rational where it has others: the rounding of doubles is not modelled. A string is a
    byte string where the code compares, splits and joins ASCII, with [trim] and the change of
    case as they act on ASCII; the terminal code, which cuts strings by their length, has
    lists of UTF-16 code units ([JsString]). An object used as a map is an association list in
    order of insertion ([jsmap]) or a finite map where the order is not read. JSON is an
    inductive type ([SnapshotCodec.json]). Objects are values: the reference equality by which
    React skips a render is not modelled, and neither is the batching of its updates.

    Code outside the sources is a parameter of the definitions that use it: translations
    ([tr]), the backend's answers (in the events), the creation of ids and dates, the
    printing of numbers, [JSON.parse] and [JSON.stringify], the order of a locale. The
    theorems that need something of a parameter name it as a hypothesis and have a witness.

    Recursion that is not structural has fuel, and the theorems show that the fuel is enough
    or that the result is the fixed point: the tree has at most four panes
    ([ShellSplit.fill_bindings], 4) and a stored tree is read to depth 9
    ([SnapshotCodec.parsePane], as the code bounds it); walks up or down groups mark what they
    have seen, so they take at most one step for each group and one more ([BatchConnect],
    [ConnectionGroups]); the chain of jump hosts has the code's own limit
    ([JumpPlan.preview_loop]) and its cycle test one step for each connection; the loops over
    text take one step for each code unit ([TerminalOutput.take_loop], [Osc7.extract_loop],
    [Osc7.decode_loop]), the chunks of a file one for each byte ([TarArchive.chunk_loop]), and
    the reader of archives one for each member ([TarArchive.read_archive]). No machine has fuel: a list of events is finite, and
    [BatchExecutor.batch_terminates] bounds the events of a run.

    ** What the theorems show

    - Invariants of what is kept: the panes tile the window, every pane and item shows a
      session that exists and shows it once, the order table lists what is open, receivers of
      broadcast input are terminals that are open, transfers stay within their limits.
    - Exact results: the items of the top bar, the plan of a close request and its execution,
      the resolution of paths and of typed commands, jump plans, bindings of keys, errors, the
      command and the connection file that a remote desktop shows.
    - What is stored comes back: a snapshot through its decoder, which accepts nothing else
      than valid snapshots; what a whole workspace saves of its own state, saved again by the
      workspace restored from it ([Restore.save_restore_save]); the settings; an archive; a
      snippet through its form.
    - Concurrency: whatever the order of answers, an action runs once at a time, a batch ends
      within its limit, output arrives whole and in order, a late answer never brings back
      what was closed, every session that was opened is shown or closed, a file is written
      only with the text of its tab and the version it was read at, a transfer overwrites
      only when its own settings or an answer about it say so, and a command goes once to
      each of its targets that is connected at its turn, and to nothing else. Where an order
      of answers does break what the code means to keep (a lock that settles late, a file
      renamed onto an open one), the theorem names the condition and a lemma shows the case.
    - Errors: the class, the stage and the step of every code, and the host keys they carry.

    Lemmas that are not listed as properties show where the code does less than it means to;
    they are named in the findings of the manifest.

    ** What is not modelled

    The markup and the style of every component; the terminal emulator and the code editor
    (libraries); the drag and drop of the browser; the panels for containers, databases,
    tunnels, migration and the assistant, which show what the backend lists; the
    branches of the code that run in a browser without the backend and show demonstration
    data; the translations; and the backend itself, which is another language. *)

From stdpp Require Export base tactics option list strings gmap.
From Stdlib Require Export QArith.QArith_base QArith.Qminmax.
From Stdlib Require Import Lia.

#[global] Open Scope nat_scope.
#[global] Set Default Goal Selector "!".
#[global] Set Warnings "-clear-no-such-hyp".

(** Lemmas that automate the common cases of every component. *)
Create HintDb nexa.

Declare Scope js_scope.
Delimit Scope js_scope with js.

(** Closed decidable goals, by evaluation. *)
Ltac vm_decide := apply (bool_decide_unpack _); vm_compute; exact I.

(** ** Truthiness of strings

    A TypeScript condition [if (s)] on a [string | null | undefined] is false for
    the absent value and for the empty string. *)

Definition truthy (o : option string) : bool :=
  match o with
  | Some s => negb (String.eqb s "")
  | None => false
  end.

(** [a || b] on nullable strings. *)
Definition js_or (a b : option string) : option string := if truthy a then a else b.

(** [a ?? b] on nullable values. *)
Definition nullish {A} (a b : option A) : option A :=
  match a with Some _ => a | None => b end.

Infix "||?" := js_or (at level 50, left associativity) : js_scope.
Infix "?:" := nullish (at level 50, left associativity) : js_scope.
Open Scope js_scope.

(** The nullable string of a possibly empty id: what [x.id || null] gives. *)
Definition nonempty (s : string) : option string := js_or (Some s) None.

Lemma truthy_Some s : truthy (Some s) = true ↔ s ≠ "".
Proof. simpl. rewrite negb_true_iff. apply String.eqb_neq. Qed.

Lemma truthy_true o : truthy o = true ↔ ∃ s, o = Some s ∧ s ≠ "".
Proof.
  split; [destruct o as [s|]; [|done]|intros (s & -> & Hs)].
  - intros H%truthy_Some. eauto.
  - by apply truthy_Some.
Qed.

Lemma nonempty_Some s t : nonempty s = Some t ↔ t = s ∧ s ≠ "".
Proof.
  unfold nonempty, js_or. destruct (truthy (Some s)) eqn:E.
  - apply truthy_Some in E. split; [by intros [= <-]|by intros [-> _]].
  - split; [done|]. intros [-> Hs]. apply truthy_Some in Hs. congruence.
Qed.

Lemma nonempty_or s d : s ≠ "" → (nonempty s ||? d) = Some s.
Proof. intros Hs. unfold nonempty, js_or. apply truthy_Some in Hs. by rewrite Hs, Hs. Qed.

(** ** [Array.prototype.find] with a decidable predicate *)

Definition js_find {A} (P : A → Prop) `{∀ x, Decision (P x)} (l : list A) : option A :=
  snd <$> list_find P l.

Section find.
Context {A : Type} (P : A → Prop) `{!∀ x, Decision (P x)}.
Implicit Types (l : list A) (x : A).

Lemma js_find_Some l x : js_find P l = Some x → x ∈ l ∧ P x.
Proof.
  unfold js_find. intros ([i y] & Hf & ->)%fmap_Some.
  apply list_find_Some in Hf as (Hl & HP & _). split; [|done].
  by eapply list_elem_of_lookup_2.
Qed.

Lemma js_find_None l : js_find P l = None ↔ ∀ x, x ∈ l → ¬ P x.
Proof. unfold js_find. by rewrite fmap_None, list_find_None, Forall_forall. Qed.

Lemma js_find_is_Some l x : x ∈ l → P x → is_Some (js_find P l).
Proof.
  intros Hx HP. destruct (js_find P l) eqn:E; [by eexists|].
  rewrite js_find_None in E. by destruct (E x).
Qed.

Lemma js_find_elem l x : js_find P l = Some x → x ∈ l.
Proof. by intros [? _]%js_find_Some. Qed.

Lemma js_find_sat l x : js_find P l = Some x → P x.
Proof. by intros [_ ?]%js_find_Some. Qed.

Lemma js_find_cons x l : js_find P (x :: l) = if decide (P x) then Some x else js_find P l.
Proof. unfold js_find. cbn. case_decide; [done|]. by destruct (list_find P l) as [[]|]. Qed.

Lemma js_find_app l1 l2 : js_find P (l1 ++ l2) = match js_find P l1 with Some x => Some x | None => js_find P l2 end.
Proof. induction l1 as [|x l1 IH]; [done|]. cbn [app]. rewrite !js_find_cons. by case_decide. Qed.
End find.

Lemma head_elem {A} (l : list A) x : head l = Some x → x ∈ l.
Proof. destruct l; intros; simplify_eq/=. left. Qed.

Lemma head_None {A} (l : list A) : head l = None ↔ l = [].
Proof. by destruct l. Qed.

#[export] Hint Resolve js_find_elem head_elem : nexa.

(** ** Stable sorting

    [Array.prototype.sort] is stable. [gt x y] is [comparator(x, y) > 0]; for a
    comparator that is a total preorder every stable sort gives this list. *)

Section sort.
Context {A : Type} (gt : A → A → bool).

Fixpoint sort_insert (x : A) (l : list A) : list A :=
  match l with
  | [] => [x]
  | y :: l' => if gt x y then y :: sort_insert x l' else x :: l
  end.

Definition js_sort (l : list A) : list A := foldr sort_insert [] l.

Lemma sort_insert_Permutation x l : sort_insert x l ≡ₚ x :: l.
Proof.
  induction l as [|y l IH]; simpl; [done|].
  destruct (gt x y); [|done]. rewrite IH. apply Permutation_swap.
Qed.

Lemma js_sort_Permutation l : js_sort l ≡ₚ l.
Proof.
  induction l as [|x l IH]; simpl; [done|].
  by rewrite sort_insert_Permutation, IH.
Qed.

Lemma js_sort_length l : length (js_sort l) = length l.
Proof. by rewrite js_sort_Permutation. Qed.

Lemma elem_of_js_sort l x : x ∈ js_sort l ↔ x ∈ l.
Proof. by rewrite js_sort_Permutation. Qed.

Lemma js_sort_nil_inv l : js_sort l = [] → l = [].
Proof. intros H. apply (f_equal length) in H. rewrite js_sort_length in H. by destruct l. Qed.
End sort.

(** ** Ordered maps

    A JS [Map] iterates in insertion order and [set] on a present key keeps its
    position, so it is an association list. *)

Abbreviation jsmap V := (list (string * V)).

Section jsmap.
Context {V : Type}.
Implicit Types (m : jsmap V) (k : string) (v : V).

Fixpoint jsmap_get k m : option V :=
  match m with
  | [] => None
  | (k', v) :: m' => if decide (k = k') then Some v else jsmap_get k m'
  end.

Fixpoint jsmap_set k v m : jsmap V :=
  match m with
  | [] => [(k, v)]
  | (k', v') :: m' => if decide (k = k') then (k', v) :: m' else (k', v') :: jsmap_set k v m'
  end.

Lemma jsmap_get_set k v m k' :
  jsmap_get k' (jsmap_set k v m) = if decide (k' = k) then Some v else jsmap_get k' m.
Proof.
  induction m as [|[k1 v1] m IH]; simpl; [done|].
  repeat (case_decide; simplify_eq/=; try done).
Qed.

Lemma jsmap_set_keys_old k v m : k ∈ m.*1 → (jsmap_set k v m).*1 = m.*1.
Proof.
  induction m as [|[k1 v1] m IH]; simpl; [by intros ?%not_elem_of_nil|].
  case_decide; simplify_eq/=; [done|].
  intros [?|?]%elem_of_cons; [done|]. f_equal. auto.
Qed.

Lemma jsmap_set_keys_new k v m : k ∉ m.*1 → (jsmap_set k v m).*1 = m.*1 ++ [k].
Proof.
  induction m as [|[k1 v1] m IH]; simpl; [done|].
  intros [? ?]%not_elem_of_cons. rewrite decide_False by done. simpl. f_equal. auto.
Qed.

Lemma jsmap_set_NoDup k v m : NoDup m.*1 → NoDup (jsmap_set k v m).*1.
Proof.
  intros Hnd. destruct (decide (k ∈ m.*1)) as [Hk|Hk].
  - by rewrite jsmap_set_keys_old.
  - rewrite jsmap_set_keys_new by done.
    apply NoDup_app. split; [done|]. split; [|apply NoDup_singleton].
    by intros x Hx ->%list_elem_of_singleton.
Qed.

Lemma jsmap_get_elem k m v : jsmap_get k m = Some v → (k, v) ∈ m.
Proof.
  induction m as [|[k1 v1] m IH]; simpl; [done|].
  case_decide; intros; simplify_eq; [left|right; auto].
Qed.

Lemma jsmap_get_is_Some k m : is_Some (jsmap_get k m) ↔ k ∈ m.*1.
Proof.
  induction m as [|[k1 v1] m IH]; simpl.
  - split; [by intros [??]|by intros ?%not_elem_of_nil].
  - rewrite elem_of_cons, <- IH. case_decide; naive_solver eauto.
Qed.

Lemma jsmap_get_None k m : jsmap_get k m = None ↔ k ∉ m.*1.
Proof. by rewrite <- jsmap_get_is_Some, eq_None_not_Some. Qed.

Lemma jsmap_elem_get k m v : NoDup m.*1 → (k, v) ∈ m → jsmap_get k m = Some v.
Proof.
  induction m as [|[k1 v1] m IH]; simpl; [by intros _ ?%not_elem_of_nil|].
  intros [Hk1 Hnd]%NoDup_cons [Heq|Hin]%elem_of_cons; simplify_eq.
  - by rewrite decide_True.
  - rewrite decide_False; [auto|]. intros ->. apply Hk1.
    apply list_elem_of_fmap. by exists (k1, v).
Qed.

(** [new Map(entries)]. *)
Definition jsmap_of_entries (es : list (string * V)) : jsmap V :=
  foldl (λ m e, jsmap_set e.1 e.2 m) [] es.

Lemma jsmap_set_new k v m : k ∉ m.*1 → jsmap_set k v m = m ++ [(k, v)].
Proof.
  induction m as [|[k1 v1] m IH]; simpl; [done|].
  intros [? ?]%not_elem_of_cons. rewrite decide_False by done. f_equal. auto.
Qed.

Lemma jsmap_foldl_id m es :
  NoDup (m ++ es).*1 → foldl (λ m e, jsmap_set e.1 e.2 m) m es = m ++ es.
Proof.
  revert m. induction es as [|[k v] es IH]; intros m; simpl; [by rewrite app_nil_r|].
  intros Hnd. rewrite jsmap_set_new.
  - rewrite IH; rewrite <- app_assoc; done.
  - intros Hk. rewrite fmap_app in Hnd. apply NoDup_app in Hnd as (_ & Hd & _).
    apply (Hd _ Hk). left.
Qed.

Lemma jsmap_of_entries_id es : NoDup es.*1 → jsmap_of_entries es = es.
Proof. apply (jsmap_foldl_id []). Qed.
End jsmap.

(** ** Pairwise relations on lists *)

Section pairwise.
Context {A : Type} (R : A → A → Prop).

Fixpoint pairwise (l : list A) : Prop :=
  match l with
  | [] => True
  | x :: l' => Forall (R x) l' ∧ pairwise l'
  end.

Lemma pairwise_app l k :
  pairwise (l ++ k) ↔ pairwise l ∧ pairwise k ∧ Forall (λ x, Forall (R x) k) l.
Proof.
  induction l as [|x l IH]; simpl; [naive_solver|].
  rewrite Forall_app, IH, Forall_cons. naive_solver.
Qed.

Lemma pairwise_Permutation `{!Symmetric R} l k : l ≡ₚ k → pairwise l → pairwise k.
Proof.
  induction 1 as [|x l k Hlk IH|x y l|l k m _ IH1 _ IH2]; simpl; [done| | |auto].
  - intros [Hx Hl]. split; [by rewrite <- Hlk|auto].
  - rewrite !Forall_cons. intros ([Hyx ?] & ? & ?). split_and!; auto.
Qed.
End pairwise.

Lemma sort_insert_pairwise {A} (gt : A → A → bool) (R : A → A → Prop) `{!Transitive R} x l :
  (∀ x y, if gt x y then R y x else R x y) → pairwise R l → pairwise R (sort_insert gt x l).
Proof.
  intros Hgt. induction l as [|y l IH]; [done|]. cbn [pairwise sort_insert]. intros [Hy Hl]. specialize (Hgt x y) as Hxy.
  destruct (gt x y); cbn [pairwise].
  - split; [|by apply IH]. rewrite sort_insert_Permutation. by apply Forall_cons.
  - split; [|done]. apply Forall_cons. split; [done|]. eapply Forall_impl; [exact Hy|]. intros z Hz. by trans y.
Qed.

Lemma js_sort_pairwise {A} (gt : A → A → bool) (R : A → A → Prop) `{!Transitive R} l :
  (∀ x y, if gt x y then R y x else R x y) → pairwise R (js_sort gt l).
Proof. intros Hgt. induction l as [|x l IH]; [done|]. by apply sort_insert_pairwise. Qed.

(** ** String prefixes

    [s.startsWith(p)] and [s.slice(n)]. *)

Definition starts_with (p s : string) : bool := String.prefix p s.

Fixpoint drop_chars (n : nat) (s : string) : string :=
  match n, s with
  | 0, _ => s
  | S n, String _ s => drop_chars n s
  | S _, EmptyString => ""
  end.

Lemma starts_with_app p s : starts_with p (p +:+ s) = true.
Proof.
  unfold starts_with. induction p as [|c p IH]; simpl; [by destruct s|].
  by destruct (Ascii.ascii_dec c c).
Qed.

Lemma starts_with_inv p s : starts_with p s = true → ∃ r, s = p +:+ r.
Proof.
  unfold starts_with. revert s. induction p as [|c p IH]; intros [|d s]; simpl; try done.
  - by exists "".
  - by eexists.
  - destruct (Ascii.ascii_dec c d) as [->|]; [|done]. intros (r & ->)%IH. by exists r.
Qed.

Lemma drop_chars_app p s : drop_chars (String.length p) (p +:+ s) = s.
Proof. by induction p. Qed.

Lemma string_app_inj p s t : p +:+ s = p +:+ t → s = t.
Proof. induction p as [|c p IH]; simpl; [done|]. intros [= ?]. auto. Qed.

(** ** Small facts on strings, lists and sets *)

Lemma NoDup_filter_fmap {A B} (f : A → B) (P : A → Prop) `{∀ x, Decision (P x)} (l : list A) :
  NoDup (f <$> l) → NoDup (f <$> filter P l).
Proof.
  induction l as [|x l IH]; simpl; [done|]. intros [Hx Hl]%NoDup_cons.
  rewrite filter_cons. case_decide; simpl; [|auto].
  apply NoDup_cons. split; [|auto]. intros (y & Hy & Hin)%list_elem_of_fmap.
  apply Hx, list_elem_of_fmap. exists y. split; [done|].
  by apply list_elem_of_filter in Hin as [_ ?].
Qed.

Lemma filter_all {A} (P : A → Prop) `{∀ x, Decision (P x)} (l : list A) :
  (∀ x, x ∈ l → P x) → filter P l = l.
Proof.
  induction l as [|x l IH]; intros Hall; [done|].
  rewrite filter_cons_True; [|apply Hall; left]. f_equal. apply IH. intros. apply Hall. by right.
Qed.

Lemma filter_length_eq {A} (P : A → Prop) `{∀ x, Decision (P x)} l :
  length (filter P l) = length l → filter P l = l.
Proof.
  intros Hlen. induction l as [|x l IH]; [done|]. rewrite filter_cons in *. case_decide.
  - f_equal. apply IH. by injection Hlen.
  - pose proof (length_filter P l). simpl in Hlen. lia.
Qed.

Lemma NoDup_fmap_inj_elem {A B} (f : A → B) (l : list A) x y :
  NoDup (f <$> l) → x ∈ l → y ∈ l → f x = f y → x = y.
Proof.
  intros Hnd [i Hi]%list_elem_of_lookup [j Hj]%list_elem_of_lookup Heq.
  assert (i = j) as ->; [|congruence].
  apply (NoDup_lookup (f <$> l) i j (f x) Hnd); rewrite list_lookup_fmap.
  - by rewrite Hi.
  - rewrite Hj. simpl. congruence.
Qed.

Lemma list_filter_ext_in {A} (P Q : A → Prop) `{∀ x, Decision (P x), ∀ x, Decision (Q x)} (l : list A) :
  (∀ x, x ∈ l → P x ↔ Q x) → filter P l = filter Q l.
Proof.
  induction l as [|x l IH]; intros HPQ; [done|].
  assert (P x ↔ Q x) by (apply HPQ; left).
  assert (filter P l = filter Q l) as Heq by (apply IH; intros; apply HPQ; by right).
  rewrite !filter_cons, Heq. repeat case_decide; naive_solver.
Qed.
