(* ===== verification/SplitLayout.v ===== *)
(** * Terminal split layout ([features/terminal/terminalSplitLayout.ts])

    The binary tree of panes: data, geometry, and every edit of the tree. Ratios
    and bounds are exact rationals; the rounding of JS doubles is not modelled. *)

From S2P Require Import Prelude.
From Stdlib Require Import Lqa Lia.

(** ** Bindings *)

Inductive PaneKind := PaneSsh | PaneLocal.

#[export] Instance PaneKind_eq_dec : EqDecision PaneKind.
Proof. solve_decision. Defined.

Record TerminalPaneBinding := mkBinding {
  binding_kind : PaneKind;
  binding_tabId : string;
}.

#[export] Instance TerminalPaneBinding_eq_dec : EqDecision TerminalPaneBinding.
Proof. solve_decision. Defined.

Definition pane_kind_name (k : PaneKind) : string :=
  match k with PaneSsh => "ssh" | PaneLocal => "local" end.

Definition terminalPaneBindingKey (b : TerminalPaneBinding) : string :=
  pane_kind_name (binding_kind b) +:+ ":" +:+ binding_tabId b.

Definition terminalPaneBindingsEqual (first second : option TerminalPaneBinding) : Prop :=
  match first, second with
  | Some a, Some b => terminalPaneBindingKey a = terminalPaneBindingKey b
  | _, _ => False
  end.

#[export] Instance terminalPaneBindingsEqual_dec a b : Decision (terminalPaneBindingsEqual a b).
Proof. destruct a, b; simpl; apply _. Defined.

(** ** The tree *)

Inductive SplitDirection := SplitRow | SplitColumn.

#[export] Instance SplitDirection_eq_dec : EqDecision SplitDirection.
Proof. solve_decision. Defined.

#[export] Instance Q_eq_dec : EqDecision Q.
Proof. solve_decision. Defined.

Inductive TerminalSplitNode :=
  | Leaf (binding : option TerminalPaneBinding) (id : string)
  | Branch (direction : SplitDirection) (first : TerminalSplitNode) (id : string) (ratio : Q)
      (second : TerminalSplitNode).

#[export] Instance TerminalSplitNode_eq_dec : EqDecision TerminalSplitNode.
Proof. solve_decision. Defined.

Record TerminalSplitBounds := mkBounds {
  b_height : Q;
  b_left : Q;
  b_top : Q;
  b_width : Q;
}.

Record TerminalSplitPane := mkPane {
  pane_binding : option TerminalPaneBinding;
  pane_bounds : TerminalSplitBounds;
  pane_id : string;
}.

Record TerminalSplitResizer := mkResizer {
  rs_bounds : TerminalSplitBounds;
  rs_direction : SplitDirection;
  rs_id : string;
  rs_ratio : Q;
}.

Definition terminalSplitMinRatio : Q := 1 # 5.
Definition terminalSplitMaxRatio : Q := 4 # 5.
Definition terminalSplitMaxPanes : nat := 4.

Definition clampTerminalSplitRatio (ratio : Q) : Q :=
  Qmin terminalSplitMaxRatio (Qmax terminalSplitMinRatio ratio).

Definition emptyTerminalSplitBounds : TerminalSplitBounds := mkBounds 1 0 0 1.

(** ** Geometry

    The two output arrays are the accumulators the code pushes to. *)

Definition split_bounds (direction : SplitDirection) (bounds : TerminalSplitBounds) (ratio : Q) :
    TerminalSplitBounds * TerminalSplitBounds :=
  match direction with
  | SplitRow =>
      let firstWidth := (b_width bounds * ratio)%Q in
      (mkBounds (b_height bounds) (b_left bounds) (b_top bounds) firstWidth,
       mkBounds (b_height bounds) (b_left bounds + firstWidth)%Q (b_top bounds)
         (b_width bounds - firstWidth)%Q)
  | SplitColumn =>
      let firstHeight := (b_height bounds * ratio)%Q in
      (mkBounds firstHeight (b_left bounds) (b_top bounds) (b_width bounds),
       mkBounds (b_height bounds - firstHeight)%Q (b_left bounds)
         (b_top bounds + firstHeight)%Q (b_width bounds))
  end.

Fixpoint collectTerminalSplitGeometry (node : TerminalSplitNode) (bounds : TerminalSplitBounds)
    (acc : list TerminalSplitPane * list TerminalSplitResizer) :
    list TerminalSplitPane * list TerminalSplitResizer :=
  match node with
  | Leaf binding id => (acc.1 ++ [mkPane binding bounds id], acc.2)
  | Branch direction first id ratio second =>
      let ratio := clampTerminalSplitRatio ratio in
      let '(firstBounds, secondBounds) := split_bounds direction bounds ratio in
      let acc := (acc.1, acc.2 ++ [mkResizer bounds direction id ratio]) in
      let acc := collectTerminalSplitGeometry first firstBounds acc in
      collectTerminalSplitGeometry second secondBounds acc
  end.

(** [comparator(first, second) > 0] *)
Definition compareTerminalSplitPanePosition_gt (first second : TerminalSplitPane) : bool :=
  let verticalDelta := (b_top (pane_bounds first) - b_top (pane_bounds second))%Q in
  if negb (Qle_bool (Qmax verticalDelta (- verticalDelta)) (1 # 10000))
  then negb (Qle_bool verticalDelta 0)
  else negb (Qle_bool (b_left (pane_bounds first) - b_left (pane_bounds second)) 0).

Definition collectTerminalSplitPanes (layout : TerminalSplitNode) : list TerminalSplitPane :=
  js_sort compareTerminalSplitPanePosition_gt
    (collectTerminalSplitGeometry layout emptyTerminalSplitBounds ([], [])).1.

Definition collectTerminalSplitResizers (layout : TerminalSplitNode) : list TerminalSplitResizer :=
  (collectTerminalSplitGeometry layout emptyTerminalSplitBounds ([], [])).2.

Definition findTerminalSplitPaneByBinding (layout : TerminalSplitNode)
    (binding : TerminalPaneBinding) : option TerminalSplitPane :=
  js_find (λ pane, terminalPaneBindingsEqual (pane_binding pane) (Some binding))
    (collectTerminalSplitPanes layout).

(** ** Edits *)

Definition createTerminalSplitLayout (paneId : string) (binding : TerminalPaneBinding) :
    TerminalSplitNode := Leaf (Some binding) paneId.

Fixpoint splitTerminalPane (layout : TerminalSplitNode) (paneId : string)
    (direction : SplitDirection) (splitId newPaneId : string)
    (newBinding : option TerminalPaneBinding) : TerminalSplitNode :=
  match layout with
  | Leaf _ id =>
      if decide (id = paneId)
      then Branch direction layout splitId (1 # 2) (Leaf newBinding newPaneId)
      else layout
  | Branch d first id ratio second =>
      Branch d (splitTerminalPane first paneId direction splitId newPaneId newBinding) id ratio
        (splitTerminalPane second paneId direction splitId newPaneId newBinding)
  end.

Record FourPaneIds := mkFourPaneIds {
  fp_bottomLeft : string;
  fp_bottomRight : string;
  fp_leftSplit : string;
  fp_rightSplit : string;
  fp_root : string;
  fp_topLeft : string;
  fp_topRight : string;
}.

Definition createTerminalFourPaneLayout (bindings : list TerminalPaneBinding) (ids : FourPaneIds) :
    TerminalSplitNode :=
  Branch SplitRow
    (Branch SplitColumn (Leaf (bindings !! 0) (fp_topLeft ids)) (fp_leftSplit ids) (1 # 2)
       (Leaf (bindings !! 2) (fp_bottomLeft ids)))
    (fp_root ids) (1 # 2)
    (Branch SplitColumn (Leaf (bindings !! 1) (fp_topRight ids)) (fp_rightSplit ids) (1 # 2)
       (Leaf (bindings !! 3) (fp_bottomRight ids))).

Fixpoint equalizeTerminalSplitLayout (layout : TerminalSplitNode) : TerminalSplitNode :=
  match layout with
  | Leaf _ _ => layout
  | Branch d first id _ second =>
      Branch d (equalizeTerminalSplitLayout first) id (1 # 2) (equalizeTerminalSplitLayout second)
  end.

Fixpoint replaceTerminalSplitPane (layout : TerminalSplitNode) (paneId : string)
    (replacement : TerminalSplitNode) : TerminalSplitNode :=
  match layout with
  | Leaf _ id => if decide (id = paneId) then replacement else layout
  | Branch d first id ratio second =>
      Branch d (replaceTerminalSplitPane first paneId replacement) id ratio
        (replaceTerminalSplitPane second paneId replacement)
  end.

Fixpoint updateTerminalSplitRatio (layout : TerminalSplitNode) (splitId : string) (ratio : Q) :
    TerminalSplitNode :=
  match layout with
  | Leaf _ _ => layout
  | Branch d first id r second =>
      if decide (id = splitId) then Branch d first id (clampTerminalSplitRatio ratio) second
      else Branch d (updateTerminalSplitRatio first splitId ratio) id r
             (updateTerminalSplitRatio second splitId ratio)
  end.

Fixpoint moveTerminalSplitBinding (layout : TerminalSplitNode) (paneId : string)
    (binding : TerminalPaneBinding) : TerminalSplitNode :=
  match layout with
  | Leaf b id =>
      if decide (id = paneId) then Leaf (Some binding) id
      else if decide (terminalPaneBindingsEqual b (Some binding)) then Leaf None id
      else layout
  | Branch d first id ratio second =>
      Branch d (moveTerminalSplitBinding first paneId binding) id ratio
        (moveTerminalSplitBinding second paneId binding)
  end.

Fixpoint closeTerminalSplitPane (layout : TerminalSplitNode) (paneId : string) :
    option TerminalSplitNode :=
  match layout with
  | Leaf _ id => if decide (id = paneId) then None else Some layout
  | Branch d first id ratio second =>
      match closeTerminalSplitPane first paneId, closeTerminalSplitPane second paneId with
      | None, second' => second'
      | first', None => first'
      | Some first', Some second' =>
          if decide (first' = first ∧ second' = second) then Some layout
          else Some (Branch d first' id ratio second')
      end
  end.

Definition binding_key_in (keys : gset string) (b : option TerminalPaneBinding) : Prop :=
  match b with Some b => terminalPaneBindingKey b ∈ keys | None => False end.

#[export] Instance binding_key_in_dec keys b : Decision (binding_key_in keys b).
Proof. destruct b; simpl; apply _. Defined.

Definition removeTerminalSplitBindings (layout : TerminalSplitNode) (bindings : gset string) :
    option TerminalSplitNode :=
  let paneIds :=
    pane_id <$> filter (λ pane, binding_key_in bindings (pane_binding pane))
      (collectTerminalSplitPanes layout) in
  foldl (λ nextLayout paneId, nextLayout ≫= λ l, closeTerminalSplitPane l paneId)
    (Some layout) paneIds.

(** ** Leaves: the abstract view of a layout *)

Abbreviation leaf_view := (option TerminalPaneBinding * string)%type.

Fixpoint leaves (n : TerminalSplitNode) : list leaf_view :=
  match n with
  | Leaf b id => [(b, id)]
  | Branch _ first _ _ second => leaves first ++ leaves second
  end.

Definition leaf_ids (n : TerminalSplitNode) : list string := (leaves n).*2.
Definition leaves_opt (n : option TerminalSplitNode) : list leaf_view := from_option leaves [] n.
Definition pane_view (p : TerminalSplitPane) : leaf_view := (pane_binding p, pane_id p).

Fixpoint ratios_ok (n : TerminalSplitNode) : Prop :=
  match n with
  | Leaf _ _ => True
  | Branch _ first _ ratio second =>
      (terminalSplitMinRatio <= ratio <= terminalSplitMaxRatio)%Q ∧ ratios_ok first ∧ ratios_ok second
  end.

Lemma terminalPaneBindingKey_inj : Inj (=) (=) terminalPaneBindingKey.
Proof.
  intros [[] t1] [[] t2] H; unfold terminalPaneBindingKey in H; simpl in H; simplify_eq; done.
Qed.
#[export] Existing Instance terminalPaneBindingKey_inj.

Lemma terminalPaneBindingsEqual_spec a b :
  terminalPaneBindingsEqual a b ↔ ∃ x, a = Some x ∧ b = Some x.
Proof.
  destruct a as [x|], b as [y|]; simpl; naive_solver.
Qed.

Lemma leaves_nonempty n : leaves n ≠ [].
Proof. induction n as [|d f IH id r s _]; simpl; [done|]. by intros [? _]%app_nil. Qed.

Lemma clampTerminalSplitRatio_bounds r :
  (terminalSplitMinRatio <= clampTerminalSplitRatio r <= terminalSplitMaxRatio)%Q.
Proof.
  unfold clampTerminalSplitRatio. split.
  - apply Q.min_glb; [done|]. apply Q.le_max_l.
  - apply Q.le_min_l.
Qed.

Lemma clampTerminalSplitRatio_id r :
  (terminalSplitMinRatio <= r <= terminalSplitMaxRatio)%Q → (clampTerminalSplitRatio r == r)%Q.
Proof.
  intros [H1 H2]. unfold clampTerminalSplitRatio.
  rewrite (Q.max_r _ _ H1). by apply Q.min_r.
Qed.

(** *** Geometry in terms of the leaves *)

Lemma geometry_acc node bounds acc :
  collectTerminalSplitGeometry node bounds acc =
    (acc.1 ++ (collectTerminalSplitGeometry node bounds ([], [])).1,
     acc.2 ++ (collectTerminalSplitGeometry node bounds ([], [])).2).
Proof.
  revert bounds acc. induction node as [b id|d f IHf id r s IHs]; intros bounds acc; simpl.
  - by rewrite app_nil_r.
  - destruct (split_bounds _ _ _) as [fb sb].
    set (R := mkResizer _ _ _ _).
    rewrite (IHs sb (collectTerminalSplitGeometry f fb (acc.1, acc.2 ++ [R]))).
    rewrite (IHf fb (acc.1, acc.2 ++ [R])).
    rewrite (IHs sb (collectTerminalSplitGeometry f fb ([], [R]))), (IHf fb ([], [R])).
    simpl. by rewrite <- !(assoc_L (++)).
Qed.

Definition geom_panes (node : TerminalSplitNode) (bounds : TerminalSplitBounds) :
    list TerminalSplitPane := (collectTerminalSplitGeometry node bounds ([], [])).1.

Lemma geom_panes_branch d f id r s bounds :
  geom_panes (Branch d f id r s) bounds =
    geom_panes f (split_bounds d bounds (clampTerminalSplitRatio r)).1 ++
    geom_panes s (split_bounds d bounds (clampTerminalSplitRatio r)).2.
Proof.
  unfold geom_panes. simpl. destruct (split_bounds _ _ _) as [fb sb].
  rewrite geometry_acc, (geometry_acc f). done.
Qed.

Lemma geom_panes_leaves node bounds : pane_view <$> geom_panes node bounds = leaves node.
Proof.
  revert bounds. induction node as [b id|d f IHf id r s IHs]; intros bounds; [done|].
  by rewrite geom_panes_branch, fmap_app, IHf, IHs.
Qed.

Lemma collect_Permutation layout :
  pane_view <$> collectTerminalSplitPanes layout ≡ₚ leaves layout.
Proof.
  unfold collectTerminalSplitPanes. rewrite js_sort_Permutation.
  by rewrite <- (geom_panes_leaves layout emptyTerminalSplitBounds).
Qed.

Lemma collect_length layout : length (collectTerminalSplitPanes layout) = length (leaves layout).
Proof. by rewrite <- (collect_Permutation layout), length_fmap. Qed.

Lemma collect_nonempty layout : collectTerminalSplitPanes layout ≠ [].
Proof.
  intros H. apply (leaves_nonempty layout), length_zero_iff_nil.
  by rewrite <- collect_length, H.
Qed.

Lemma elem_of_collect_view layout b id :
  (∃ p, p ∈ collectTerminalSplitPanes layout ∧ pane_binding p = b ∧ pane_id p = id) ↔
  (b, id) ∈ leaves layout.
Proof.
  rewrite <- collect_Permutation, list_elem_of_fmap. unfold pane_view. split.
  - intros (p & Hp & <- & <-). eauto.
  - intros (p & [= -> ->] & Hp). eauto.
Qed.

Lemma collect_view layout p : p ∈ collectTerminalSplitPanes layout → pane_view p ∈ leaves layout.
Proof. intros Hp. apply elem_of_collect_view. eauto. Qed.

(** *** Closing panes *)

Lemma closeTerminalSplitPane_leaves layout paneId :
  leaves_opt (closeTerminalSplitPane layout paneId) = filter (λ l, l.2 ≠ paneId) (leaves layout).
Proof.
  induction layout as [b id|d f IHf id r s IHs]; simpl.
  - rewrite filter_cons. simpl. repeat case_decide; naive_solver.
  - rewrite filter_app, <- IHf, <- IHs.
    destruct (closeTerminalSplitPane f paneId), (closeTerminalSplitPane s paneId); simpl.
    + case_decide as Heq; [by destruct Heq as [-> ->]|done].
    + by rewrite app_nil_r.
    + done.
    + done.
Qed.

Lemma closeTerminalSplitPane_ratios layout paneId layout' :
  ratios_ok layout → closeTerminalSplitPane layout paneId = Some layout' → ratios_ok layout'.
Proof.
  revert layout'. induction layout as [b id|d f IHf id r s IHs]; simpl; intros layout' Hr Hc.
  - case_decide; by simplify_eq.
  - destruct Hr as (Hr & Hf & Hs).
    destruct (closeTerminalSplitPane f paneId), (closeTerminalSplitPane s paneId); simplify_eq; auto.
    case_decide; simplify_eq; simpl; auto.
Qed.

Lemma leaves_opt_nil o : leaves_opt o = [] ↔ o = None.
Proof.
  destruct o as [n|]; simpl; [|done]. split; [|done]. intros H. by destruct (leaves_nonempty n).
Qed.

Lemma fold_close_leaves paneIds o :
  leaves_opt (foldl (λ nl paneId, nl ≫= λ l, closeTerminalSplitPane l paneId) o paneIds) =
  filter (λ l, l.2 ∉ paneIds) (leaves_opt o).
Proof.
  revert o. induction paneIds as [|p ps IH]; intros o; simpl.
  - symmetry. apply filter_all. intros. apply not_elem_of_nil.
  - rewrite IH. destruct o as [n|]; simpl; [|done].
    rewrite closeTerminalSplitPane_leaves, list_filter_filter.
    apply list_filter_iff. intros l. rewrite not_elem_of_cons. naive_solver.
Qed.

Definition removed_ids (layout : TerminalSplitNode) (keys : gset string) : list string :=
  pane_id <$> filter (λ pane, binding_key_in keys (pane_binding pane))
    (collectTerminalSplitPanes layout).

Lemma elem_of_removed_ids layout keys id :
  id ∈ removed_ids layout keys ↔ ∃ b, (b, id) ∈ leaves layout ∧ binding_key_in keys b.
Proof.
  unfold removed_ids. rewrite list_elem_of_fmap. split.
  - intros (p & -> & [Hb Hp]%list_elem_of_filter). apply collect_view in Hp. eauto.
  - intros (b & Hl & Hb). apply elem_of_collect_view in Hl as (p & Hp & <- & <-).
    exists p. split; [done|]. by apply list_elem_of_filter.
Qed.

Lemma removeTerminalSplitBindings_view layout keys :
  leaves_opt (removeTerminalSplitBindings layout keys) =
  filter (λ l, l.2 ∉ removed_ids layout keys) (leaves layout).
Proof. apply (fold_close_leaves (removed_ids layout keys) (Some layout)). Qed.

Lemma removeTerminalSplitBindings_leaves layout keys :
  NoDup (leaf_ids layout) →
  leaves_opt (removeTerminalSplitBindings layout keys) =
  filter (λ l, ¬ binding_key_in keys l.1) (leaves layout).
Proof.
  intros Hnd. rewrite removeTerminalSplitBindings_view.
  apply list_filter_ext_in. intros [b id] Hl. simpl.
  rewrite elem_of_removed_ids. split; intros H Hin; apply H.
  - eauto.
  - destruct Hin as (b' & Hl' & Hb').
    by assert ((b, id) = (b', id)) as [= ->] by by eapply NoDup_fmap_inj_elem.
Qed.

Lemma removeTerminalSplitBindings_elem layout keys l :
  l ∈ leaves_opt (removeTerminalSplitBindings layout keys) →
  l ∈ leaves layout ∧ ¬ binding_key_in keys l.1.
Proof.
  rewrite removeTerminalSplitBindings_view. intros [Hn Hl]%list_elem_of_filter.
  split; [done|]. intros Hb. apply Hn, elem_of_removed_ids. destruct l; eauto.
Qed.

Lemma removeTerminalSplitBindings_none layout keys :
  (∀ l, l ∈ leaves layout → ¬ binding_key_in keys l.1) →
  removeTerminalSplitBindings layout keys = Some layout.
Proof.
  intros H. unfold removeTerminalSplitBindings.
  replace (filter _ _) with (@nil TerminalSplitPane); [done|]. symmetry.
  destruct (filter _ _) as [|p ps] eqn:E; [done|].
  assert (p ∈ p :: ps) as Hp by left. rewrite <- E in Hp.
  apply list_elem_of_filter in Hp as [Hb Hp]. apply collect_view in Hp.
  by apply H in Hp.
Qed.

Lemma removeTerminalSplitBindings_ratios layout keys layout' :
  ratios_ok layout → removeTerminalSplitBindings layout keys = Some layout' → ratios_ok layout'.
Proof.
  unfold removeTerminalSplitBindings. fold (removed_ids layout keys).
  generalize (removed_ids layout keys) as ids. intros ids. revert layout. induction ids as [|p ps IH]; intros layout Hr; simpl; [by intros [= <-]|].
  destruct (closeTerminalSplitPane layout p) as [l|] eqn:E.
  - apply IH. by eapply closeTerminalSplitPane_ratios.
  - intros H. exfalso. revert H. clear. by induction ps.
Qed.

(** *** Moving a binding, splitting, replacing: effect on the leaves *)

Definition move_leaf (paneId : string) (binding : TerminalPaneBinding) (l : leaf_view) : leaf_view :=
  if decide (l.2 = paneId) then (Some binding, l.2)
  else if decide (l.1 = Some binding) then (None, l.2) else l.

Lemma moveTerminalSplitBinding_leaves layout paneId binding :
  leaves (moveTerminalSplitBinding layout paneId binding) = move_leaf paneId binding <$> leaves layout.
Proof.
  induction layout as [b id|d f IHf id r s IHs]; simpl.
  - unfold move_leaf; simpl. case_decide; [done|].
    destruct (decide (terminalPaneBindingsEqual b (Some binding))) as [Hb|Hb].
    + apply terminalPaneBindingsEqual_spec in Hb as (x & -> & [= ->]). by rewrite decide_True.
    + rewrite decide_False; [done|]. intros ->. apply Hb. apply terminalPaneBindingsEqual_spec. eauto.
  - by rewrite fmap_app, IHf, IHs.
Qed.

Definition split_leaf (paneId : string) (new l : leaf_view) : list leaf_view :=
  if decide (l.2 = paneId) then [l; new] else [l].

Lemma splitTerminalPane_leaves layout paneId d splitId newId nb :
  leaves (splitTerminalPane layout paneId d splitId newId nb) =
  leaves layout ≫= split_leaf paneId (nb, newId).
Proof.
  induction layout as [b id|d' f IHf id r s IHs]; simpl.
  - unfold split_leaf; simpl. case_decide; by simplify_eq.
  - by rewrite bind_app, IHf, IHs.
Qed.

Lemma split_leaf_notin paneId new ls : paneId ∉ ls.*2 → ls ≫= split_leaf paneId new = ls.
Proof.
  induction ls as [|l ls IH]; [done|]. rewrite fmap_cons, not_elem_of_cons, bind_cons.
  intros [? ?]. rewrite IH by done. unfold split_leaf. by rewrite decide_False.
Qed.

Lemma splitTerminalPane_ids layout paneId d splitId newId nb :
  NoDup (leaf_ids layout) → paneId ∈ leaf_ids layout →
  leaf_ids (splitTerminalPane layout paneId d splitId newId nb) ≡ₚ newId :: leaf_ids layout.
Proof.
  unfold leaf_ids. rewrite splitTerminalPane_leaves. generalize (leaves layout) as ls.
  intros ls. induction ls as [|[b i] ls IH]; [by intros _ ?%not_elem_of_nil|].
  rewrite fmap_cons, bind_cons. intros [Hi Hnd]%NoDup_cons [->|Hp]%elem_of_cons.
  - rewrite split_leaf_notin by done. unfold split_leaf. rewrite decide_True by done.
    simpl. apply Permutation_swap.
  - rewrite fmap_app, IH by done. unfold split_leaf.
    rewrite decide_False by (simpl; intros ->; done). simpl. apply Permutation_swap.
Qed.

Lemma equalizeTerminalSplitLayout_leaves layout :
  leaves (equalizeTerminalSplitLayout layout) = leaves layout.
Proof. induction layout; simpl; congruence. Qed.

Lemma updateTerminalSplitRatio_leaves layout splitId ratio :
  leaves (updateTerminalSplitRatio layout splitId ratio) = leaves layout.
Proof. induction layout; simpl; [done|]. case_decide; simpl; congruence. Qed.

Lemma updateTerminalSplitRatio_ratios layout splitId ratio :
  ratios_ok layout → ratios_ok (updateTerminalSplitRatio layout splitId ratio).
Proof.
  induction layout; simpl; [done|]. intros (? & ? & ?).
  case_decide; simpl; auto using clampTerminalSplitRatio_bounds.
Qed.

Lemma createTerminalFourPaneLayout_leaves bindings ids :
  leaves (createTerminalFourPaneLayout bindings ids) =
  [(bindings !! 0, fp_topLeft ids); (bindings !! 2, fp_bottomLeft ids);
   (bindings !! 1, fp_topRight ids); (bindings !! 3, fp_bottomRight ids)].
Proof. done. Qed.

(** ** The panes tile the unit square *)

Local Open Scope Q_scope.

Definition area (b : TerminalSplitBounds) : Q := b_width b * b_height b.
Definition total_area (ps : list TerminalSplitPane) : Q :=
  foldr (λ p a, area (pane_bounds p) + a) 0 ps.

Definition within (outer b : TerminalSplitBounds) : Prop :=
  (0 < b_width b ∧ 0 < b_height b) ∧
  (b_left outer <= b_left b ∧ b_left b + b_width b <= b_left outer + b_width outer) ∧
  (b_top outer <= b_top b ∧ b_top b + b_height b <= b_top outer + b_height outer).

(** Two rectangles whose interiors do not meet. *)
Definition apart (a b : TerminalSplitBounds) : Prop :=
  b_left a + b_width a <= b_left b ∨ b_left b + b_width b <= b_left a ∨
  b_top a + b_height a <= b_top b ∨ b_top b + b_height b <= b_top a.

Definition panes_apart (p q : TerminalSplitPane) : Prop := apart (pane_bounds p) (pane_bounds q).

#[export] Instance panes_apart_sym : Symmetric panes_apart.
Proof. intros p q. unfold panes_apart, apart. tauto. Qed.

Lemma total_area_app ps qs : total_area (ps ++ qs) == total_area ps + total_area qs.
Proof. induction ps as [|p ps IH]; simpl; [lra|]. rewrite IH. lra. Qed.

#[export] Instance total_area_Proper : Proper ((≡ₚ) ==> Qeq) total_area.
Proof.
  induction 1 as [|x l k _ IH|x y l|l k m _ IH1 _ IH2]; simpl; [lra|lra|lra|].
  by rewrite IH1.
Qed.

Lemma scale_bounds (w r : Q) : 0 < w → 1 # 5 <= r <= 4 # 5 → 0 < w * r ∧ 0 < w - w * r.
Proof. intros Hw [H1 H2]. split; nra. Qed.

Lemma split_bounds_within d bounds r :
  0 < b_width bounds → 0 < b_height bounds → 1 # 5 <= r <= 4 # 5 →
  within bounds (split_bounds d bounds r).1 ∧ within bounds (split_bounds d bounds r).2 ∧
  area (split_bounds d bounds r).1 + area (split_bounds d bounds r).2 == area bounds.
Proof.
  intros Hw Hh Hr. unfold within, area.
  destruct d; simpl.
  - destruct (scale_bounds _ _ Hw Hr). repeat split; lra.
  - destruct (scale_bounds _ _ Hh Hr). repeat split; lra.
Qed.

Lemma within_trans a b c : within a b → within b c → within a c.
Proof. unfold within. intros (_ & ? & ?) (? & ? & ?). repeat split; lra. Qed.

Lemma split_bounds_apart d bounds r b1 b2 :
  within (split_bounds d bounds r).1 b1 → within (split_bounds d bounds r).2 b2 → apart b1 b2.
Proof.
  unfold within, apart. destruct d; simpl; intros (_ & ? & ?) (_ & ? & ?).
  - left. lra.
  - right; right; left. lra.
Qed.

Lemma geom_panes_tile node bounds :
  0 < b_width bounds → 0 < b_height bounds →
  Forall (λ p, within bounds (pane_bounds p)) (geom_panes node bounds) ∧
  pairwise panes_apart (geom_panes node bounds) ∧
  total_area (geom_panes node bounds) == area bounds.
Proof.
  revert bounds. induction node as [b id|d f IHf id r s IHs]; intros bounds Hw Hh.
  - unfold geom_panes. simpl. rewrite !Forall_singleton. unfold within. simpl.
    repeat split; try done; try apply Forall_nil_2; lra.
  - rewrite geom_panes_branch.
    pose proof (clampTerminalSplitRatio_bounds r) as Hr.
    set (c := clampTerminalSplitRatio r) in *.
    destruct (split_bounds_within d bounds c Hw Hh Hr) as (H1 & H2 & Harea).
    destruct (IHf (split_bounds d bounds c).1) as (Hf1 & Hf2 & Hf3); [apply H1..|].
    destruct (IHs (split_bounds d bounds c).2) as (Hs1 & Hs2 & Hs3); [apply H2..|].
    split_and!.
    + apply Forall_app. split; (eapply Forall_impl; [eassumption|]); eauto using within_trans.
    + rewrite pairwise_app. split_and!; [done..|].
      eapply Forall_impl; [exact Hf1|]. intros p Hp.
      eapply Forall_impl; [exact Hs1|]. intros q Hq. by apply (split_bounds_apart d bounds c).
    + rewrite total_area_app. lra.
Qed.

Local Close Scope Q_scope.

(** ** Properties *)

(** C1: the rendered panes of any layout are exactly its leaves, and their
    rectangles tile the unit square: each has positive size and lies inside it,
    no two overlap, and their areas add up to 1. *)
Theorem panes_tile_unit_square layout :
  let ps := collectTerminalSplitPanes layout in
  pane_view <$> ps ≡ₚ leaves layout ∧
  Forall (λ p, within emptyTerminalSplitBounds (pane_bounds p)) ps ∧
  pairwise panes_apart ps ∧
  (total_area ps == 1)%Q.
Proof.
  simpl. destruct (geom_panes_tile layout emptyTerminalSplitBounds) as (Hw & Hp & Ha); [done..|].
  assert (collectTerminalSplitPanes layout ≡ₚ geom_panes layout emptyTerminalSplitBounds) as Hperm
    by apply js_sort_Permutation.
  split_and!.
  - apply collect_Permutation.
  - by rewrite Hperm.
  - refine (pairwise_Permutation _ _ _ _ Hp). by rewrite Hperm.
  - rewrite Hperm, Ha. unfold area. simpl. lra.
Qed.

(** With distinct pane ids, removing a set of bindings keeps exactly the
    panes whose binding is not in the set, in their order, keeps every ratio in
    range, and gives no layout exactly when nothing remains. *)
Theorem remove_bindings_exact layout keys :
  NoDup (leaf_ids layout) →
  let kept := filter (λ l, ¬ binding_key_in keys l.1) (leaves layout) in
  leaves_opt (removeTerminalSplitBindings layout keys) = kept ∧
  (removeTerminalSplitBindings layout keys = None ↔ kept = []) ∧
  (∀ layout', removeTerminalSplitBindings layout keys = Some layout' →
    ratios_ok layout → ratios_ok layout').
Proof.
  simpl. intros Hnd. rewrite <- removeTerminalSplitBindings_leaves by done. split_and!.
  - done.
  - by rewrite leaves_opt_nil.
  - intros layout' H Hr. by eapply removeTerminalSplitBindings_ratios.
Qed.

Lemma remove_bindings_exact_witness :
  let a := mkBinding PaneSsh "a" in let b := mkBinding PaneLocal "b" in
  let layout := Branch SplitRow (Leaf (Some a) "p1") "s" (1 # 2) (Leaf (Some b) "p2") in
  NoDup (leaf_ids layout) ∧
  leaves_opt (removeTerminalSplitBindings layout {["ssh:a"]}) = [(Some b, "p2")].
Proof.
  intros a b layout. assert (NoDup (leaf_ids layout)) as H.
  { vm_decide. }
  split; [exact H|].
  destruct (remove_bindings_exact layout {["ssh:a"]} H) as [-> _]. by vm_compute.
Defined.

(** After a binding is moved to a pane, the target pane shows it and no other
    pane does; every other pane keeps its own binding. *)
Theorem move_binding_exact layout paneId binding b id :
  (b, id) ∈ leaves (moveTerminalSplitBinding layout paneId binding) ↔
  (id = paneId ∧ b = Some binding ∧ paneId ∈ leaf_ids layout) ∨
  (id ≠ paneId ∧ b ≠ Some binding ∧
    ((b, id) ∈ leaves layout ∨ (b = None ∧ (Some binding, id) ∈ leaves layout))).
Proof.
  rewrite moveTerminalSplitBinding_leaves. unfold leaf_ids. rewrite !list_elem_of_fmap. split.
  - intros ([b' id'] & Heq & Hl). unfold move_leaf in Heq; simpl in Heq.
    case_decide; [simplify_eq; left; split_and!; [done..|]; by eexists (_, _)|].
    case_decide; simplify_eq; right; naive_solver.
  - intros [(-> & -> & [b' id'] & -> & Hl)|(Hid & Hb & [Hl|[-> Hl]])].
    + eexists (_, _). split; [|done]. unfold move_leaf. simpl. by rewrite decide_True.
    + eexists (_, _). split; [|done]. unfold move_leaf. simpl. by rewrite !decide_False.
    + eexists (_, _). split; [|done]. unfold move_leaf. simpl.
      by rewrite decide_False, decide_True.
Qed.
