(* ===== verification/SplitState.v ===== *)
(** * Split state ([features/workspace/split/])

    Actions, reducer and selectors of the split group, the id allocation of the
    controller and the normalisation that keeps the layout in step with the
    terminals that exist. *)

From S2P Require Import Prelude SplitLayout.
From stdpp Require Import pretty.
From Stdlib Require Import Lia.

Abbreviation TerminalSplitHost := TerminalPaneBinding.

Record TerminalSplitPickerOpenRequest := mkPicker {
  picker_key : Z;
  picker_paneId : string;
}.

#[export] Instance picker_eq_dec : EqDecision TerminalSplitPickerOpenRequest.
Proof. solve_decision. Defined.

(** [allocateIds] is a thunk: ids are drawn only when a layout is rebuilt. *)
Inductive SplitAction :=
  | SplitSetLayout (layout : option TerminalSplitNode)
  | SplitSetLayoutFn (f : option TerminalSplitNode → option TerminalSplitNode)
  | SplitSetHost (host : option TerminalSplitHost)
  | SplitSetTabActive (active : bool)
  | SplitFocusPane (paneId : option string)
  | SplitBumpRevision
  | SplitSetAutoCreateSameSession (enabled : bool)
  | SplitSetPicker (request : option TerminalSplitPickerOpenRequest)
  | SplitSetConfirmClose (isOpen : bool)
  | SplitAvailableBindingsChanged (availableKeys : gset string)
      (fallbackBinding : option TerminalPaneBinding) (allocateIds : unit → FourPaneIds)
  | SplitCollapseHandled.

Record SplitState := mkSplitState {
  autoCreateSameSession : bool;
  collapsedTo : option TerminalPaneBinding;
  confirmCloseOpen : bool;
  focusedPaneId : option string;
  host : option TerminalSplitHost;
  layout : option TerminalSplitNode;
  picker : option TerminalSplitPickerOpenRequest;
  revision : Z;
  tabActive : bool;
}.

Definition initialSplitState : SplitState :=
  mkSplitState true None false None None None None 0 false.

(** [{ ...state, field: value }] *)
Definition with_layout (s : SplitState) (l : option TerminalSplitNode) : SplitState :=
  mkSplitState (autoCreateSameSession s) (collapsedTo s) (confirmCloseOpen s) (focusedPaneId s)
    (host s) l (picker s) (revision s) (tabActive s).
Definition with_host (s : SplitState) (h : option TerminalSplitHost) : SplitState :=
  mkSplitState (autoCreateSameSession s) (collapsedTo s) (confirmCloseOpen s) (focusedPaneId s)
    h (layout s) (picker s) (revision s) (tabActive s).
Definition with_focus (s : SplitState) (f : option string) : SplitState :=
  mkSplitState (autoCreateSameSession s) (collapsedTo s) (confirmCloseOpen s) f
    (host s) (layout s) (picker s) (revision s) (tabActive s).

(** The state after the whole layout is cleared. *)
Definition cleared (s : SplitState) (c : option TerminalPaneBinding) : SplitState :=
  mkSplitState (autoCreateSameSession s) c (confirmCloseOpen s) None None None None (revision s) false.

Definition pane_bound (p : TerminalSplitPane) : Prop := is_Some (pane_binding p).

#[export] Instance pane_bound_dec p : Decision (pane_bound p).
Proof. unfold pane_bound. apply _. Defined.

Record FourPane := mkFourPane {
  fpr_emptyPaneId : option string;
  fpr_focusedPaneId : string;
  fpr_layout : TerminalSplitNode;
}.

Definition createFourPane (bindings : list TerminalPaneBinding) (ids : FourPaneIds) : FourPane :=
  let layout := createTerminalFourPaneLayout bindings ids in
  let panes := collectTerminalSplitPanes layout in
  let emptyPane := js_find (λ pane, ¬ pane_bound pane) panes in
  let focusedPane :=
    emptyPane
    ?: js_find (λ pane, terminalPaneBindingsEqual (pane_binding pane) (bindings !! 0)) panes
    ?: head panes in
  {| fpr_emptyPaneId := (pane_id <$> emptyPane) ||? None;
     fpr_focusedPaneId := default (fp_topLeft ids) ((pane_id <$> focusedPane) ||? None);
     fpr_layout := layout |}.

Definition resolveHost (host : option TerminalSplitHost) (panes : list TerminalSplitPane) :
    option TerminalSplitHost :=
  let firstBound := js_find pane_bound panes ≫= pane_binding in
  match host with
  | Some h =>
      if decide (Exists (λ pane, terminalPaneBindingsEqual (pane_binding pane) (Some h)) panes)
      then Some h else firstBound
  | None => firstBound
  end.

Definition optionalBindingsEqual (first second : option TerminalSplitHost) : Prop :=
  (first = None ∧ second = None) ∨ terminalPaneBindingsEqual first second.

#[export] Instance optionalBindingsEqual_dec a b : Decision (optionalBindingsEqual a b).
Proof. unfold optionalBindingsEqual. apply _. Defined.

Definition pane_exists (panes : list TerminalSplitPane) (id : string) : Prop :=
  Exists (λ pane, pane_id pane = id) panes.

#[export] Instance pane_exists_dec panes id : Decision (pane_exists panes id).
Proof. unfold pane_exists. apply _. Defined.

(** [if (!focused || !panes.some(id)) focused = panes[0]?.id || null] *)
Definition refocus (focused : option string) (panes : list TerminalSplitPane) : option string :=
  match focused with
  | Some f =>
      if decide (truthy focused = true ∧ pane_exists panes f) then Some f
      else (pane_id <$> head panes) ||? None
  | None => (pane_id <$> head panes) ||? None
  end.

(** The rebuild into four panes when there are more than the maximum. *)
Definition rebuild_binding (panes : list TerminalSplitPane) (focused : option string)
    (fallbackBinding : option TerminalPaneBinding) : option TerminalPaneBinding :=
  let focusedBinding :=
    js_find (λ pane, Some (pane_id pane) = focused) panes ≫= pane_binding in
  focusedBinding ?: (js_find pane_bound panes ≫= pane_binding) ?: fallbackBinding.

Definition rebuild_bindings (binding : TerminalPaneBinding) (panes : list TerminalSplitPane) :
    list TerminalPaneBinding :=
  take terminalSplitMaxPanes
    (binding :: filter (λ b, ¬ terminalPaneBindingsEqual (Some b) (Some binding))
                  (omap pane_binding panes)).

(** [if (panes.length > terminalSplitMaxPanes) ...]: layout, focus, panes and host after it. *)
Definition rebuild_oversized (layout : TerminalSplitNode) (panes : list TerminalSplitPane)
    (focused : option string) (host : option TerminalSplitHost)
    (fallbackBinding : option TerminalPaneBinding) (allocateIds : unit → FourPaneIds) :
    TerminalSplitNode * option string * list TerminalSplitPane * option TerminalSplitHost :=
  if decide (terminalSplitMaxPanes < length panes) then
    match rebuild_binding panes focused fallbackBinding with
    | Some binding =>
        let four := createFourPane (rebuild_bindings binding panes) (allocateIds ()) in
        let panes := collectTerminalSplitPanes (fpr_layout four) in
        (fpr_layout four, Some (fpr_focusedPaneId four), panes, resolveHost host panes)
    | None => (layout, focused, panes, host)
    end
  else (layout, focused, panes, host).

Definition normalize (state : SplitState) (availableKeys : gset string)
    (fallbackBinding : option TerminalPaneBinding) (allocateIds : unit → FourPaneIds) : SplitState :=
  match layout state with
  | None => state
  | Some layout0 =>
    let currentPanes := collectTerminalSplitPanes layout0 in
    let unavailable : gset string :=
      list_to_set (filter (.∉ availableKeys)
        (terminalPaneBindingKey <$> omap pane_binding currentPanes)) in
    match removeTerminalSplitBindings layout0 unavailable with
    | None => cleared state None
    | Some layout1 =>
      let panes1 := collectTerminalSplitPanes layout1 in
      let host1 := resolveHost (host state) panes1 in
      let focused1 := refocus (focusedPaneId state) panes1 in
      let '(layout2, focused2, panes2, host2) :=
        rebuild_oversized layout1 panes1 focused1 host1 fallbackBinding allocateIds in
      if decide (length panes2 = 1) then cleared state (head panes2 ≫= pane_binding)
      else if decide (layout2 = layout0 ∧ focused2 = focusedPaneId state ∧
                      optionalBindingsEqual host2 (host state))
      then state
      else with_layout (with_host (with_focus state focused2) host2) (Some layout2)
    end
  end.

Definition splitReducer (state : SplitState) (action : SplitAction) : SplitState :=
  match action with
  | SplitSetLayout l => if decide (l = layout state) then state else with_layout state l
  | SplitSetLayoutFn f =>
      let l := f (layout state) in
      if decide (l = layout state) then state else with_layout state l
  | SplitSetHost h => if decide (optionalBindingsEqual h (host state)) then state else with_host state h
  | SplitSetTabActive a =>
      mkSplitState (autoCreateSameSession state) (collapsedTo state) (confirmCloseOpen state)
        (focusedPaneId state) (host state) (layout state) (picker state) (revision state) a
  | SplitFocusPane p => with_focus state p
  | SplitBumpRevision =>
      mkSplitState (autoCreateSameSession state) (collapsedTo state) (confirmCloseOpen state)
        (focusedPaneId state) (host state) (layout state) (picker state) (revision state + 1)%Z
        (tabActive state)
  | SplitSetAutoCreateSameSession e =>
      mkSplitState e (collapsedTo state) (confirmCloseOpen state)
        (focusedPaneId state) (host state) (layout state) (picker state) (revision state) (tabActive state)
  | SplitSetPicker r =>
      mkSplitState (autoCreateSameSession state) (collapsedTo state) (confirmCloseOpen state)
        (focusedPaneId state) (host state) (layout state) r (revision state) (tabActive state)
  | SplitSetConfirmClose o =>
      mkSplitState (autoCreateSameSession state) (collapsedTo state) o
        (focusedPaneId state) (host state) (layout state) (picker state) (revision state) (tabActive state)
  | SplitAvailableBindingsChanged keys fallback allocate => normalize state keys fallback allocate
  | SplitCollapseHandled =>
      mkSplitState (autoCreateSameSession state) None (confirmCloseOpen state)
        (focusedPaneId state) (host state) (layout state) (picker state) (revision state) (tabActive state)
  end.

(** ** Selectors *)

Definition selectSplitPanes (layout : option TerminalSplitNode) : list TerminalSplitPane :=
  from_option collectTerminalSplitPanes [] layout.

Definition selectPaneByBinding (panes : list TerminalSplitPane) : jsmap TerminalSplitPane :=
  foldl (λ m pane,
    match pane_binding pane with
    | Some b => jsmap_set (terminalPaneBindingKey b) pane m
    | None => m
    end) [] panes.

Definition selectMemberKeys (panes : list TerminalSplitPane) : gset string :=
  list_to_set (terminalPaneBindingKey <$> omap pane_binding panes).

Definition selectSplitExists (layout : option TerminalSplitNode) (panes : list TerminalSplitPane) : bool :=
  bool_decide (is_Some layout) && bool_decide (1 < length panes).

Definition selectCanAddPane (panes : list TerminalSplitPane) : bool :=
  bool_decide (length panes < terminalSplitMaxPanes).

(** [split/anchor.ts] *)
Fixpoint splitGroupInsertionIndex_loop (tabs : list string) (kind : PaneKind)
    (h : TerminalPaneBinding) (memberKeys : gset string) (visibleIndex : nat) : nat :=
  match tabs with
  | [] => visibleIndex
  | tab :: tabs' =>
      if decide (tab = binding_tabId h) then visibleIndex
      else
        let key := terminalPaneBindingKey (mkBinding kind tab) in
        splitGroupInsertionIndex_loop tabs' kind h memberKeys
          (if decide (key ∈ memberKeys) then visibleIndex else S visibleIndex)
  end.

Definition splitGroupInsertionIndex (tabs : list string) (kind : PaneKind)
    (host : option TerminalPaneBinding) (memberKeys : gset string) : nat :=
  match host with
  | None => length tabs
  | Some h =>
      if decide (binding_kind h = kind) then splitGroupInsertionIndex_loop tabs kind h memberKeys 0
      else length tabs
  end.

(** ** The controller's id counter *)

(** [nextTerminalSplitId]: the counter is advanced, then printed. *)
Definition nextTerminalSplitId (counter : nat) (prefix : string) : string * nat :=
  let counter := S counter in (prefix +:+ "-" +:+ pretty counter, counter).

Definition allocateFourPaneIds (counter : nat) : FourPaneIds * nat :=
  let '(bottomLeft, c) := nextTerminalSplitId counter "terminal-pane" in
  let '(bottomRight, c) := nextTerminalSplitId c "terminal-pane" in
  let '(leftSplit, c) := nextTerminalSplitId c "terminal-split" in
  let '(rightSplit, c) := nextTerminalSplitId c "terminal-split" in
  let '(root, c) := nextTerminalSplitId c "terminal-split" in
  let '(topLeft, c) := nextTerminalSplitId c "terminal-pane" in
  let '(topRight, c) := nextTerminalSplitId c "terminal-pane" in
  (mkFourPaneIds bottomLeft bottomRight leftSplit rightSplit root topLeft topRight, c).

(** ** Lemmas *)

Lemma bound_pane_elem panes b :
  js_find pane_bound panes ≫= pane_binding = Some b → ∃ p, p ∈ panes ∧ pane_binding p = Some b.
Proof.
  intros (p & Hf & Hb)%bind_Some. apply js_find_Some in Hf as [Hp _]. eauto.
Qed.

Lemma bound_pane_none panes :
  js_find pane_bound panes ≫= pane_binding = None → ∀ p, p ∈ panes → pane_binding p = None.
Proof.
  destruct (js_find pane_bound panes) as [q|] eqn:E; simpl.
  - apply js_find_Some in E as [_ [b ->]]. done.
  - intros _ p Hp. rewrite js_find_None in E. apply E in Hp. unfold pane_bound in Hp.
    by destruct (pane_binding p); [destruct Hp|].
Qed.

Lemma resolveHost_bound h panes b :
  resolveHost h panes = Some b → ∃ p, p ∈ panes ∧ pane_binding p = Some b.
Proof.
  unfold resolveHost. destruct h as [h|]; [|apply bound_pane_elem].
  case_decide as He; [|apply bound_pane_elem]. intros [= ->].
  apply Exists_exists in He as (p & Hp & Hb).
  apply terminalPaneBindingsEqual_spec in Hb as (x & Hx & [= ->]). eauto.
Qed.

Lemma resolveHost_keep panes b :
  (∃ p, p ∈ panes ∧ pane_binding p = Some b) → resolveHost (Some b) panes = Some b.
Proof.
  intros (p & Hp & Hb). unfold resolveHost. rewrite decide_True; [done|].
  apply Exists_exists. exists p. split; [done|]. rewrite Hb. done.
Qed.

Lemma resolveHost_None h panes :
  resolveHost h panes = None → ∀ p, p ∈ panes → pane_binding p = None.
Proof.
  unfold resolveHost. destruct h as [h|]; [case_decide; [done|]|]; apply bound_pane_none.
Qed.

Lemma resolveHost_idemp h panes : resolveHost (resolveHost h panes) panes = resolveHost h panes.
Proof.
  destruct (resolveHost h panes) as [b|] eqn:E.
  - apply resolveHost_keep. by eapply resolveHost_bound.
  - apply eq_None_not_Some. intros [b Hb]. apply resolveHost_bound in Hb as (p & Hp & Hb).
    apply (resolveHost_None _ _ E) in Hp. congruence.
Qed.

Lemma refocus_exists f panes g :
  refocus f panes = Some g → g ≠ "" ∧ ∃ p, p ∈ panes ∧ pane_id p = g.
Proof.
  assert (∀ g, (pane_id <$> head panes) ||? None = Some g →
    g ≠ "" ∧ ∃ p, p ∈ panes ∧ pane_id p = g) as Hhead.
  { clear g. intros g. destruct (head panes) as [p|] eqn:E; simpl; [|done].
    intros [-> Hg]%nonempty_Some. split; [done|]. exists p. eauto with nexa. }
  unfold refocus. destruct f as [f|]; [|apply Hhead].
  case_decide as Hd; [|apply Hhead]. intros [= ->]. destruct Hd as [Ht He].
  apply truthy_Some in Ht. split; [done|]. by apply Exists_exists in He.
Qed.

Lemma refocus_keep panes g :
  g ≠ "" → (∃ p, p ∈ panes ∧ pane_id p = g) → refocus (Some g) panes = Some g.
Proof.
  intros Hg He. unfold refocus. rewrite decide_True; [done|].
  split; [by apply truthy_Some|]. by apply Exists_exists.
Qed.

Lemma refocus_idemp f panes : refocus (refocus f panes) panes = refocus f panes.
Proof.
  destruct (refocus f panes) as [g|] eqn:E.
  - apply refocus_exists in E as [? ?]. by apply refocus_keep.
  - unfold refocus in E. destruct f; [case_decide; [done|]|]; done.
Qed.

Lemma refocus_is_Some f panes :
  panes ≠ [] → (∀ p, p ∈ panes → pane_id p ≠ "") → is_Some (refocus f panes).
Proof.
  intros Hne Hid. destruct (refocus f panes) as [g|] eqn:E; [done|]. exfalso.
  assert ((pane_id <$> head panes) ||? None = None) as H.
  { unfold refocus in E. destruct f; [case_decide; [done|]|]; done. }
  destruct panes as [|p ps]; [done|]. simpl in H.
  unfold js_or in H. destruct (truthy (Some (pane_id p))) eqn:Et; [done|].
  assert (pane_id p ≠ "") as Hp by (apply Hid; left).
  apply truthy_Some in Hp. congruence.
Qed.

(** *** The rebuilt four panes *)

Definition pane_ids_nonempty (ids : FourPaneIds) : Prop :=
  fp_topLeft ids ≠ "" ∧ fp_bottomLeft ids ≠ "" ∧ fp_topRight ids ≠ "" ∧ fp_bottomRight ids ≠ "".

Lemma createFourPane_bindings bindings ids b id :
  (Some b, id) ∈ leaves (fpr_layout (createFourPane bindings ids)) → b ∈ bindings.
Proof.
  simpl. rewrite !elem_of_cons, elem_of_nil.
  intros H. assert (∃ i : nat, bindings !! i = Some b) as [i Hi].
  { destruct H as [[= ->] | [[= ->] | [[= ->] | [[= ->] | []]]]]; eauto. }
  by eapply list_elem_of_lookup_2.
Qed.

Lemma four_pane_ids bindings ids p :
  p ∈ collectTerminalSplitPanes (createTerminalFourPaneLayout bindings ids) →
  pane_id p ∈ [fp_topLeft ids; fp_bottomLeft ids; fp_topRight ids; fp_bottomRight ids].
Proof.
  intros Hp%collect_view. apply (list_elem_of_fmap_2 snd) in Hp. exact Hp.
Qed.

Lemma createFourPane_focus bindings ids :
  pane_ids_nonempty ids →
  let four := createFourPane bindings ids in
  refocus (Some (fpr_focusedPaneId four)) (collectTerminalSplitPanes (fpr_layout four)) =
  Some (fpr_focusedPaneId four).
Proof.
  intros (H1 & H2 & H3 & H4). unfold createFourPane. cbv zeta. cbn [fpr_focusedPaneId fpr_layout].
  set (panes := collectTerminalSplitPanes (createTerminalFourPaneLayout bindings ids)).
  set (focused := _ ?: _).
  assert (∃ p, focused = Some p ∧ p ∈ panes) as (p & -> & Hp).
  { unfold focused, nullish.
    destruct (js_find (λ pane, ¬ pane_bound pane) panes) eqn:E1; [eauto with nexa|].
    destruct (js_find (λ pane, terminalPaneBindingsEqual (pane_binding pane) (bindings !! 0)) panes)
      eqn:E2; [eauto with nexa|].
    destruct (head panes) eqn:E3; [eauto with nexa|].
    apply head_None in E3. by destruct (collect_nonempty (createTerminalFourPaneLayout bindings ids)). }
  assert (pane_id p ≠ "") as Hne.
  { pose proof (four_pane_ids _ _ _ Hp) as Hin.
    rewrite !elem_of_cons, elem_of_nil in Hin. intros He.
    destruct Hin as [Hi|[Hi|[Hi|[Hi|[]]]]]; congruence. }
  simpl. unfold js_or. rewrite (proj2 (truthy_Some _) Hne). simpl.
  apply refocus_keep; [done|]. eauto.
Qed.

Lemma rebuild_binding_available panes f fallback b :
  rebuild_binding panes f fallback = Some b →
  (∃ p, p ∈ panes ∧ pane_binding p = Some b) ∨ fallback = Some b.
Proof.
  unfold rebuild_binding, nullish.
  destruct (js_find (λ pane, Some (pane_id pane) = f) panes ≫= pane_binding) as [b1|] eqn:E1.
  { apply bind_Some in E1 as (p & Hp & Hb). intros [= ->]. left. exists p. eauto with nexa. }
  destruct (js_find pane_bound panes ≫= pane_binding) as [b2|] eqn:E2.
  { intros [= ->]. left. by apply bound_pane_elem. }
  auto.
Qed.

Lemma rebuild_binding_None panes f fallback :
  rebuild_binding panes f fallback = None →
  (∀ p, p ∈ panes → pane_binding p = None) ∧ fallback = None.
Proof.
  unfold rebuild_binding, nullish.
  destruct (js_find (λ pane, Some (pane_id pane) = f) panes ≫= pane_binding); [done|].
  destruct (js_find pane_bound panes ≫= pane_binding) eqn:E2; [done|].
  intros ->. split; [|done]. by apply bound_pane_none.
Qed.

Lemma rebuild_bindings_elem b panes x :
  x ∈ rebuild_bindings b panes → x = b ∨ ∃ p, p ∈ panes ∧ pane_binding p = Some x.
Proof.
  unfold rebuild_bindings. intros Hx. apply elem_of_take in Hx as (i & Hi & _).
  apply list_elem_of_lookup_2 in Hi. apply elem_of_cons in Hi as [->|Hi]; [by left|right].
  apply list_elem_of_filter in Hi as [_ Hi]. by apply list_elem_of_omap in Hi.
Qed.

(** *** Settled layouts: what normalisation establishes *)

Lemma optionalBindingsEqual_eq a b : optionalBindingsEqual a b ↔ a = b.
Proof.
  unfold optionalBindingsEqual. rewrite terminalPaneBindingsEqual_spec.
  split; [intros [[-> ->]|(x & -> & ->)]; done|]. intros ->. destruct b; eauto.
Qed.

Section settled.
Context (availableKeys : gset string) (fallbackBinding : option TerminalPaneBinding).

Record split_settled (l : TerminalSplitNode) (f : option string)
    (h : option TerminalSplitHost) : Prop := {
  settled_available : ∀ b id, (Some b, id) ∈ leaves l → terminalPaneBindingKey b ∈ availableKeys;
  settled_size : length (leaves l) ≤ terminalSplitMaxPanes ∨
    ((∀ x, x ∈ leaves l → x.1 = None) ∧ fallbackBinding = None);
  settled_host : resolveHost h (collectTerminalSplitPanes l) = h;
  settled_focus : refocus f (collectTerminalSplitPanes l) = f;
}.

Lemma pane_available l b p :
  (∀ b id, (Some b, id) ∈ leaves l → terminalPaneBindingKey b ∈ availableKeys) →
  p ∈ collectTerminalSplitPanes l → pane_binding p = Some b →
  terminalPaneBindingKey b ∈ availableKeys.
Proof.
  intros Hav Hp%collect_view Hb. unfold pane_view in Hp. rewrite Hb in Hp. by eapply Hav.
Qed.

(** The bindings that survive the removal step are available. *)
Lemma removal_available l0 l1 :
  removeTerminalSplitBindings l0 (list_to_set (filter (.∉ availableKeys)
    (terminalPaneBindingKey <$> omap pane_binding (collectTerminalSplitPanes l0)))) = Some l1 →
  ∀ b id, (Some b, id) ∈ leaves l1 → terminalPaneBindingKey b ∈ availableKeys.
Proof.
  intros Hrm b id Hin.
  assert ((Some b, id) ∈ leaves_opt (removeTerminalSplitBindings l0 (list_to_set
    (filter (.∉ availableKeys)
      (terminalPaneBindingKey <$> omap pane_binding (collectTerminalSplitPanes l0))))))
    as Hin' by by rewrite Hrm.
  apply removeTerminalSplitBindings_elem in Hin' as [Hl0 Hkey]. simpl in Hkey.
  destruct (decide (terminalPaneBindingKey b ∈ availableKeys)) as [|Hno]; [done|].
  destruct Hkey. rewrite elem_of_list_to_set, list_elem_of_filter. split; [done|].
  apply list_elem_of_fmap_2, list_elem_of_omap.
  apply elem_of_collect_view in Hl0 as (p & Hp & Hb & _). eauto.
Qed.

Lemma rebuild_settled l1 f1 h1 b ids :
  (∀ b id, (Some b, id) ∈ leaves l1 → terminalPaneBindingKey b ∈ availableKeys) →
  (∀ b, fallbackBinding = Some b → terminalPaneBindingKey b ∈ availableKeys) →
  pane_ids_nonempty ids →
  rebuild_binding (collectTerminalSplitPanes l1) f1 fallbackBinding = Some b →
  let four := createFourPane (rebuild_bindings b (collectTerminalSplitPanes l1)) ids in
  split_settled (fpr_layout four) (Some (fpr_focusedPaneId four))
    (resolveHost h1 (collectTerminalSplitPanes (fpr_layout four))).
Proof.
  intros Hav Hfb Hids Hb four. split.
  - intros x id Hx%createFourPane_bindings%rebuild_bindings_elem.
    destruct Hx as [->|(p & Hp & Hpb)]; [|by eapply pane_available].
    apply rebuild_binding_available in Hb as [(p & Hp & Hpb)|Hb]; [|auto].
    by eapply pane_available.
  - left. simpl. unfold terminalSplitMaxPanes. lia.
  - apply resolveHost_idemp.
  - by apply createFourPane_focus.
Qed.

Context (allocateIds : unit → FourPaneIds).
Hypothesis fallback_available :
  ∀ b, fallbackBinding = Some b → terminalPaneBindingKey b ∈ availableKeys.
Hypothesis allocated_nonempty : pane_ids_nonempty (allocateIds ()).

Lemma rebuild_oversized_settled l1 f h :
  (∀ b id, (Some b, id) ∈ leaves l1 → terminalPaneBindingKey b ∈ availableKeys) →
  let panes1 := collectTerminalSplitPanes l1 in
  ∃ l2 f2 h2, split_settled l2 f2 h2 ∧
    rebuild_oversized l1 panes1 (refocus f panes1) (resolveHost h panes1)
      fallbackBinding allocateIds = (l2, f2, collectTerminalSplitPanes l2, h2).
Proof using fallback_available allocated_nonempty.
  intros Hav panes1. unfold rebuild_oversized.
  case_decide as Hlen; [destruct (rebuild_binding _ _ _) as [b|] eqn:Eb|].
  - do 3 eexists. split; [|reflexivity]. apply (rebuild_settled l1 (refocus f panes1)); auto.
  - do 3 eexists. split; [|done]. apply rebuild_binding_None in Eb as [Hnone Hfb].
    split; [done| |apply resolveHost_idemp|apply refocus_idemp].
    right. split; [|done]. intros [b id] Hx.
    apply elem_of_collect_view in Hx as (p & Hp & <- & _). by apply Hnone.
  - do 3 eexists. split; [|done].
    split; [done| |apply resolveHost_idemp|apply refocus_idemp].
    left. rewrite <- collect_length. fold panes1. lia.
Qed.

Lemma normalize_cases state :
  (layout state = None ∧ normalize state availableKeys fallbackBinding allocateIds = state) ∨
  (∃ c, normalize state availableKeys fallbackBinding allocateIds = cleared state c) ∨
  (∃ l f h, normalize state availableKeys fallbackBinding allocateIds =
      with_layout (with_host (with_focus state f) h) (Some l) ∧
    split_settled l f h ∧ length (leaves l) ≠ 1).
Proof using fallback_available allocated_nonempty.
  unfold normalize. destruct (layout state) as [l0|] eqn:El; [|by left]. right.
  destruct (removeTerminalSplitBindings l0 _) as [l1|] eqn:Erm; [|left; eauto].
  destruct (rebuild_oversized_settled l1 (focusedPaneId state) (host state)
    (removal_available _ _ Erm)) as (l2 & f2 & h2 & Hs & ->).
  case_decide as H1; [left; eauto|]. right. rewrite collect_length in H1.
  exists l2, f2, h2. split; [|done].
  case_decide as Heq; [|done]. destruct Heq as (-> & -> & ->%optionalBindingsEqual_eq).
  destruct state; simpl in *. by rewrite El.
Qed.

Lemma rebuild_oversized_id l f h :
  split_settled l f h →
  rebuild_oversized l (collectTerminalSplitPanes l) f h fallbackBinding allocateIds =
  (l, f, collectTerminalSplitPanes l, h).
Proof.
  intros [_ Hsize _ _]. unfold rebuild_oversized. case_decide as Hgt; [|done].
  destruct (rebuild_binding _ _ _) as [b|] eqn:Eb; [|done]. exfalso.
  rewrite collect_length in Hgt. destruct Hsize as [?|[Hnone Hfb]]; [lia|].
  apply rebuild_binding_available in Eb as [(p & Hp & Hb)|]; [|congruence].
  apply collect_view, Hnone in Hp. simpl in Hp. congruence.
Qed.

(** A settled state is a fixed point. *)
Lemma normalize_settled state l :
  layout state = Some l → split_settled l (focusedPaneId state) (host state) →
  length (leaves l) ≠ 1 →
  normalize state availableKeys fallbackBinding allocateIds = state.
Proof.
  intros El Hset Hlen. pose proof Hset as [Hav Hsize Hh Hf]. unfold normalize. rewrite El.
  rewrite removeTerminalSplitBindings_none.
  - rewrite Hh, Hf, rebuild_oversized_id by done.
    rewrite decide_False by by rewrite collect_length.
    rewrite decide_True; [done|]. split_and!; [done..|]. by apply optionalBindingsEqual_eq.
  - intros [b id] Hx Hin. destruct b as [b|]; [|done]. simpl in Hin.
    apply elem_of_list_to_set, list_elem_of_filter in Hin as [Hno _].
    by apply Hav in Hx.
Qed.
End settled.

(** *** Allocated ids *)

Lemma nextTerminalSplitId_spec c prefix :
  nextTerminalSplitId c prefix = (prefix +:+ "-" +:+ pretty (S c), S c).
Proof. done. Qed.

Lemma split_id_inj prefix m n :
  prefix +:+ "-" +:+ pretty (A := nat) m = prefix +:+ "-" +:+ pretty (A := nat) n → m = n.
Proof. intros H%string_app_inj%(string_app_inj "-"). by apply (inj pretty) in H. Qed.

Lemma allocateFourPaneIds_nonempty c : pane_ids_nonempty (allocateFourPaneIds c).1.
Proof. by split_and!. Qed.

(** ** Properties *)

(** C2: after the set of available terminals changes, either the split group is
    gone, or every bound pane shows an available terminal, there are between two
    and four panes (more only when no pane is bound and there is no fallback to
    rebuild with), the host is shown by some pane (absent only when every pane is
    empty) and the focus is one of the panes. *)
Theorem available_bindings_settle state keys fallback allocate :
  (∀ b, fallback = Some b → terminalPaneBindingKey b ∈ keys) →
  pane_ids_nonempty (allocate ()) →
  let next := splitReducer state (SplitAvailableBindingsChanged keys fallback allocate) in
  layout next = None ∨
  ∃ l, layout next = Some l ∧
    (∀ b id, (Some b, id) ∈ leaves l → terminalPaneBindingKey b ∈ keys) ∧
    2 ≤ length (leaves l) ∧
    (length (leaves l) ≤ terminalSplitMaxPanes ∨
      ((∀ x, x ∈ leaves l → x.1 = None) ∧ fallback = None)) ∧
    match host next with
    | Some h => ∃ id, (Some h, id) ∈ leaves l
    | None => ∀ x, x ∈ leaves l → x.1 = None
    end ∧
    (∀ f, focusedPaneId next = Some f → f ∈ leaf_ids l) ∧
    ("" ∉ leaf_ids l → is_Some (focusedPaneId next)).
Proof.
  intros Hfb Hids. simpl.
  destruct (normalize_cases keys fallback allocate Hfb Hids state)
    as [[El ->]|[[c ->]|(l & f & h & -> & [Hav Hsize Hh Hf] & Hlen)]]; [by left..|right].
  exists l. simpl.
  assert (∀ p, p ∈ collectTerminalSplitPanes l → pane_id p ∈ leaf_ids l) as Hpid.
  { intros p Hp. apply (list_elem_of_fmap_2 snd _ _ (collect_view _ _ Hp)). }
  split_and!; try done.
  - pose proof (leaves_nonempty l). destruct (leaves l) as [|? [|]]; simpl in *; lia || done.
  - destruct h as [h|].
    + apply resolveHost_bound in Hh as (p & Hp & Hb). exists (pane_id p). rewrite <- Hb.
      by apply collect_view.
    + intros [b id] (p & Hp & <- & _)%elem_of_collect_view. by eapply resolveHost_None.
  - intros g ->. apply refocus_exists in Hf as (_ & p & Hp & <-). auto.
  - intros Hne. rewrite <- Hf. apply refocus_is_Some; [apply collect_nonempty|].
    intros p Hp Heq. apply Hne. rewrite <- Heq. auto.
Qed.

Lemma available_bindings_settle_witness :
  let a := mkBinding PaneSsh "a" in
  let state := with_layout initialSplitState
    (Some (Branch SplitRow (Leaf (Some a) "p1") "s" (1 # 2) (Leaf None "p2"))) in
  let next := splitReducer state (SplitAvailableBindingsChanged {["ssh:a"]} (Some a)
                (λ _, (allocateFourPaneIds 0).1)) in
  layout next = None ∨ ∃ l, layout next = Some l ∧ 2 ≤ length (leaves l).
Proof.
  intros a state next.
  destruct (available_bindings_settle state {["ssh:a"]} (Some a) (λ _, (allocateFourPaneIds 0).1))
    as [H|(l & H & _ & Hl & _)].
  - intros b [= <-]. vm_decide.
  - apply allocateFourPaneIds_nonempty.
  - by left.
  - right. by exists l.
Defined.

(** The normalisation effect converges: dispatching the same availability a
    second time changes nothing, so the effect that re-runs on every layout or
    focus change reaches a fixed point after one dispatch. *)
Theorem available_bindings_idempotent state keys fallback allocate allocate' :
  (∀ b, fallback = Some b → terminalPaneBindingKey b ∈ keys) →
  pane_ids_nonempty (allocate ()) →
  let next := splitReducer state (SplitAvailableBindingsChanged keys fallback allocate) in
  splitReducer next (SplitAvailableBindingsChanged keys fallback allocate') = next.
Proof.
  intros Hfb Hids. simpl.
  destruct (normalize_cases keys fallback allocate Hfb Hids state)
    as [[El ->]|[[c ->]|(l & f & h & -> & Hset & Hlen)]].
  - unfold normalize. by rewrite El.
  - done.
  - by apply (normalize_settled _ _ _ _ l).
Qed.

Lemma available_bindings_idempotent_witness :
  let a := mkBinding PaneSsh "a" in let b := mkBinding PaneLocal "b" in
  let state := with_layout initialSplitState
    (Some (Branch SplitRow (Leaf (Some a) "p1") "s" (1 # 2) (Leaf (Some b) "p2"))) in
  let act := SplitAvailableBindingsChanged {["ssh:a"; "local:b"]} None (λ _, (allocateFourPaneIds 0).1) in
  splitReducer (splitReducer state act) act = splitReducer state act ∧
  host (splitReducer state act) = Some a.
Proof.
  intros a b state act. split; [|by vm_compute].
  apply (available_bindings_idempotent state); [done|apply allocateFourPaneIds_nonempty].
Defined.

Definition leaf_available (keys : gset string) (l : leaf_view) : Prop :=
  match l.1 with Some b => terminalPaneBindingKey b ∈ keys | None => True end.

#[export] Instance leaf_available_dec keys l : Decision (leaf_available keys l).
Proof. unfold leaf_available. destruct l.1; apply _. Defined.

Lemma unavailable_leaf l0 keys x :
  x ∈ leaves l0 →
  ¬ binding_key_in (list_to_set (filter (.∉ keys)
      (terminalPaneBindingKey <$> omap pane_binding (collectTerminalSplitPanes l0)))) x.1 ↔
  leaf_available keys x.
Proof.
  destruct x as [[b|] id]; unfold leaf_available; simpl; [|naive_solver]. intros Hx.
  rewrite elem_of_list_to_set, list_elem_of_filter.
  destruct (decide (terminalPaneBindingKey b ∈ keys)); [naive_solver|].
  split; [|done]. intros Hn. destruct Hn. split; [done|].
  apply list_elem_of_fmap_2, list_elem_of_omap.
  apply elem_of_collect_view in Hx as (p & Hp & Hb & _). eauto.
Qed.

(** For a layout of at most four panes with distinct ids, the panes that
    remain after an availability change are exactly the empty ones and those
    whose terminal is still available; with none left the group is cleared, and
    with a single one left the group collapses and hands its terminal back. *)
Theorem available_bindings_collapse state l keys fallback allocate :
  layout state = Some l → NoDup (leaf_ids l) → length (leaves l) ≤ terminalSplitMaxPanes →
  let next := splitReducer state (SplitAvailableBindingsChanged keys fallback allocate) in
  match filter (leaf_available keys) (leaves l) with
  | [] => next = cleared state None
  | [x] => next = cleared state x.1
  | kept => leaves_opt (layout next) = kept ∧ collapsedTo next = collapsedTo state
  end.
Proof.
  intros El Hnd Hlen. simpl. unfold normalize. rewrite El.
  set (unav := list_to_set _). pose proof (removeTerminalSplitBindings_leaves l unav Hnd) as Hrm.
  rewrite (list_filter_ext_in _ (leaf_available keys)) in Hrm
    by (intros x Hx; by apply unavailable_leaf).
  destruct (removeTerminalSplitBindings l unav) as [l1|]; simpl in Hrm; [|by rewrite <- Hrm].
  assert (length (leaves l1) ≤ terminalSplitMaxPanes) as Hlen1.
  { rewrite Hrm. etrans; [apply length_filter|done]. }
  unfold rebuild_oversized. rewrite decide_False by (rewrite collect_length; lia).
  rewrite <- Hrm. pose proof (collect_Permutation l1) as Hp.
  destruct (leaves l1) as [|x [|y xs]] eqn:El1.
  - by destruct (leaves_nonempty l1).
  - rewrite decide_True by by rewrite collect_length, El1.
    apply Permutation_singleton_r in Hp.
    destruct (collectTerminalSplitPanes l1) as [|p [|]]; simplify_eq/=. done.
  - rewrite decide_False by by rewrite collect_length, El1.
    case_decide as Heq; simpl; [|by rewrite El1].
    destruct Heq as [-> _]. by rewrite El; simpl; rewrite El1.
Qed.

Lemma available_bindings_collapse_witness :
  let a := mkBinding PaneSsh "a" in let b := mkBinding PaneSsh "b" in
  let l := Branch SplitRow (Leaf (Some a) "p1") "s" (1 # 2) (Leaf (Some b) "p2") in
  let state := with_layout initialSplitState (Some l) in
  splitReducer state (SplitAvailableBindingsChanged {["ssh:a"]} None (λ _, (allocateFourPaneIds 0).1))
  = cleared state (Some a).
Proof.
  intros a b l state.
  assert (filter (leaf_available {["ssh:a"]}) (leaves l) = [(Some a, "p1")]) as E by vm_decide.
  assert (NoDup (leaf_ids l)) as Hnd by vm_decide.
  pose proof (available_bindings_collapse state l {["ssh:a"]} None
    (λ _, (allocateFourPaneIds 0).1) eq_refl Hnd ltac:(vm_compute; lia)) as H.
  cbv zeta in H. rewrite E in H. exact H.
Defined.
