(* ===== verification/SessionTypes.v ===== *)
(** * Session data ([sessionTabs/types.ts], [closeDecision.ts] data, instance ids)

    The terminals and remote desktops of the workspace. The source types its
    functions structurally ([T extends { connectionId: string; id: string }]);
    here the two fields are the classes [HasId] and [HasConnection]. *)

From S2P Require Import Prelude SplitLayout.

(** ** Structural interfaces *)

Class HasId (T : Type) := item_id : T → string.
Class HasConnection (T : Type) := item_connection : T → string.

(** ** Instance kinds and ids *)

Inductive InstanceKind := KLocal | KRdp | KSsh | KVnc.

#[export] Instance InstanceKind_eq_dec : EqDecision InstanceKind.
Proof. solve_decision. Defined.

Definition instance_kind_name (k : InstanceKind) : string :=
  match k with KLocal => "local" | KRdp => "rdp" | KSsh => "ssh" | KVnc => "vnc" end.

Definition HOME_ITEM_ID : string := "home".
Definition SPLIT_ITEM_ID : string := "split".

Definition instanceItemId (kind : InstanceKind) (rawId : string) : string :=
  instance_kind_name kind +:+ ":" +:+ rawId.

Definition kind_of_pane (k : PaneKind) : InstanceKind :=
  match k with PaneSsh => KSsh | PaneLocal => KLocal end.

Lemma instanceItemId_inj k1 k2 r1 r2 :
  instanceItemId k1 r1 = instanceItemId k2 r2 → k1 = k2 ∧ r1 = r2.
Proof. unfold instanceItemId. destruct k1, k2; simpl; intros H; by simplify_eq. Qed.

#[export] Instance instanceItemId_inj' k : Inj (=) (=) (instanceItemId k).
Proof. by intros x y [_ ?]%instanceItemId_inj. Qed.

Lemma instanceItemId_not_home k r : instanceItemId k r ≠ HOME_ITEM_ID.
Proof. by destruct k. Qed.

Lemma instanceItemId_not_split k r : instanceItemId k r ≠ SPLIT_ITEM_ID.
Proof. by destruct k. Qed.

Lemma instanceItemId_nonempty k r : instanceItemId k r ≠ "".
Proof. by destruct k. Qed.

Lemma terminalPaneBindingKey_instance b :
  terminalPaneBindingKey b = instanceItemId (kind_of_pane (binding_kind b)) (binding_tabId b).
Proof. by destruct b as [[] t]. Qed.

#[export] Hint Resolve instanceItemId_not_home instanceItemId_not_split instanceItemId_nonempty : nexa.

(** ** Session tabs *)

Inductive TabType := TabConnecting | TabTerminal.

#[export] Instance TabType_eq_dec : EqDecision TabType.
Proof. solve_decision. Defined.

(** The part of the connection wizard state that the workspace reads. *)
Record ConnectionStep := mkStep {
  step_error : option string;
  step_status : option string;
}.

Record TerminalTab := mkTerminalTab {
  tt_connectionStep : option ConnectionStep;
  tt_error : option string;
  tt_id : string;
  tt_connectionId : string;
  tt_ordinal : Z;
  tt_requestId : option string;
  tt_sessionId : option string;
  tt_status : string;
  tt_temporaryContextRef : option string;
  tt_title : string;
  tt_type : TabType;
  tt_warmupOutput : list Z;
}.

Inductive LocalTerminalSource := SrcLocal | SrcTelnet | SrcSerial.

#[export] Instance LocalTerminalSource_eq_dec : EqDecision LocalTerminalSource.
Proof. solve_decision. Defined.

Record LocalTerminalTab := mkLocalTab {
  lt_id : string;
  lt_source : option LocalTerminalSource;
  lt_profileId : string;
  lt_profileKind : string;
  lt_ordinal : Z;
  lt_title : string;
  lt_requestId : option string;
  lt_sessionId : option string;
  lt_status : string;
  lt_error : option string;
  lt_warmupOutput : list Z;
}.

(** A reference to a session of a saved connection: the fields that the close
    decisions and the item projection read of RDP, VNC and file tabs. *)
Record SessionRef := mkRef {
  ref_connectionId : string;
  ref_id : string;
}.

#[export] Instance SessionRef_eq_dec : EqDecision SessionRef.
Proof. solve_decision. Defined.

#[export] Instance SessionRef_id : HasId SessionRef := ref_id.
#[export] Instance SessionRef_connection : HasConnection SessionRef := ref_connectionId.
#[export] Instance TerminalTab_id : HasId TerminalTab := tt_id.
#[export] Instance TerminalTab_connection : HasConnection TerminalTab := tt_connectionId.
#[export] Instance LocalTerminalTab_id : HasId LocalTerminalTab := lt_id.

Inductive WorkspaceMode := ModeHome | ModeSsh | ModeLocal | ModeRdp | ModeVnc.

#[export] Instance WorkspaceMode_eq_dec : EqDecision WorkspaceMode.
Proof. solve_decision. Defined.

Inductive WorkbenchTabKind := WbTerminal | WbFile.

#[export] Instance WorkbenchTabKind_eq_dec : EqDecision WorkbenchTabKind.
Proof. solve_decision. Defined.

Record UnifiedWorkbenchTab := mkUnified {
  uw_id : string;
  uw_kind : WorkbenchTabKind;
}.

#[export] Instance UnifiedWorkbenchTab_eq_dec : EqDecision UnifiedWorkbenchTab.
Proof. solve_decision. Defined.

(** [CloseSnapshot]: the collections after the removal. Local terminals are
    given by their ids. *)
Record CloseSnapshot := mkSnapshot {
  cs_localTerminalTabs : list string;
  cs_rdpSessions : list SessionRef;
  cs_remoteFileTabs : list SessionRef;
  cs_terminalTabs : list SessionRef;
  cs_vncSessions : list SessionRef;
}.
