(* ===== verification/MultiExec.v ===== *)
(** * MultiExec ([features/workspace/multiExec/])

    The set of terminals that receive broadcast input, its reducer, the target
    projection and the two delivery loops. *)

From S2P Require Import Prelude SplitLayout SessionTypes.
From Stdlib Require Import Lia.

(** ** State *)

Inductive MultiExecMode := MxOff | MxLive | MxSend.

#[export] Instance MultiExecMode_eq_dec : EqDecision MultiExecMode.
Proof. solve_decision. Defined.

Inductive MultiExecAction :=
  | MxSetMode (mode : MultiExecMode)
  | MxSetLive (enabled : bool)
  | MxSetTargets (targets : gset string)
  | MxSetTargetsFn (f : gset string → gset string)
  | MxSetError (error : option string)
  | MxTargetsAvailable (availableKeys : gset string) (focusedKey : option string)
      (splitActive : option bool).

Record MultiExecState := mkMultiExec {
  mx_error : option string;
  mx_mode : MultiExecMode;
  mx_targets : gset string;
}.

Definition initialMultiExecState : MultiExecState := mkMultiExec None MxOff ∅.

(** Replace the targets; live stops with the last one. *)
Definition mx_retarget (state : MultiExecState) (next : gset string) : MultiExecState :=
  let mode := if decide (mx_mode state = MxLive ∧ next = ∅) then MxOff else mx_mode state in
  mkMultiExec (mx_error state) mode next.

Definition multiExecReducer (state : MultiExecState) (action : MultiExecAction) : MultiExecState :=
  match action with
  | MxSetMode mode => mkMultiExec (mx_error state) mode (mx_targets state)
  | MxSetLive enabled =>
      mkMultiExec (mx_error state) (if enabled then MxLive else MxOff) (mx_targets state)
  | MxSetTargets targets => mx_retarget state targets
  | MxSetTargetsFn f => mx_retarget state (f (mx_targets state))
  | MxSetError error => mkMultiExec error (mx_mode state) (mx_targets state)
  | MxTargetsAvailable availableKeys _ _ =>
      mx_retarget state (filter (.∈ availableKeys) (mx_targets state))
  end.

(** ** Targets *)

Inductive MultiExecTargetKind := TkSsh | TkLocal | TkTelnet | TkSerial.

Record MultiExecTarget := mkTarget {
  mt_binding : TerminalPaneBinding;
  mt_key : string;
  mt_kind : MultiExecTargetKind;
  mt_ownerId : string;
  mt_sessionId : string;
  mt_tabId : string;
  mt_title : string;
}.

Definition sshTarget (tab : TerminalTab) : list MultiExecTarget :=
  if decide (tt_type tab = TabTerminal) then
    match tt_sessionId tab with
    | Some sessionId =>
        if truthy (Some sessionId) then
          let binding := mkBinding PaneSsh (tt_id tab) in
          [mkTarget binding (terminalPaneBindingKey binding) TkSsh (tt_connectionId tab) sessionId
             (tt_id tab) (tt_title tab)]
        else []
    | None => []
    end
  else [].

Definition characterTarget (tab : LocalTerminalTab) : list MultiExecTarget :=
  match lt_sessionId tab with
  | Some sessionId =>
      if truthy (Some sessionId) then
        let binding := mkBinding PaneLocal (lt_id tab) in
        let kind := match lt_source tab with
                    | Some SrcTelnet => TkTelnet
                    | Some SrcSerial => TkSerial
                    | _ => TkLocal
                    end in
        [mkTarget binding (terminalPaneBindingKey binding) kind (lt_profileId tab) sessionId
           (lt_id tab) (lt_title tab)]
      else []
  | None => []
  end.

Definition buildMultiExecTargets (localTabs : list LocalTerminalTab) (sshTabs : list TerminalTab) :
    list MultiExecTarget :=
  (sshTabs ≫= sshTarget) ++ (localTabs ≫= characterTarget).

Definition selectExplicitMultiExecTargets (targets : list MultiExecTarget)
    (selectedKeys : gset string) : list MultiExecTarget :=
  filter (λ target, mt_key target ∈ selectedKeys) targets.

Definition selectLiveFanoutTargets (targets : list MultiExecTarget) (selectedKeys : gset string)
    (sourceKey : option string) : list MultiExecTarget :=
  filter (λ target, Some (mt_key target) ≠ sourceKey)
    (selectExplicitMultiExecTargets targets selectedKeys).

Definition multiExecAvailableKeys (targets : list MultiExecTarget) : gset string :=
  list_to_set (mt_key <$> targets).

(** ** Delivery

    [write] is the terminal backend: it maps the state of the world to the outcome
    of the write and the world at its completion, which includes everything else
    that happened while the loop awaited it. *)

Inductive DeliveryStatus := DsWritten | DsFailed | DsDisconnected.

#[export] Instance DeliveryStatus_eq_dec : EqDecision DeliveryStatus.
Proof. solve_decision. Defined.

Section delivery.
Context {W Err : Type}.
Context (write : W → string → string → option Err * W).
Context (data : string).

Record MultiExecDelivery := mkDelivery {
  d_error : option Err;
  d_key : string;
  d_status : DeliveryStatus;
}.

(** [writeMultiExecCommand]: one target after the other, each resolved at its turn. *)
Section send.
Context (resolveTarget : W → string → option MultiExecTarget).

Fixpoint writeMultiExecCommand (targetKeys : list string) (w : W) : list MultiExecDelivery * W :=
  match targetKeys with
  | [] => ([], w)
  | key :: keys =>
      match resolveTarget w key with
      | None =>
          let '(ds, w') := writeMultiExecCommand keys w in
          (mkDelivery None key DsDisconnected :: ds, w')
      | Some target =>
          let '(outcome, w1) := write w (mt_sessionId target) data in
          let '(ds, w') := writeMultiExecCommand keys w1 in
          (match outcome with
           | None => mkDelivery None key DsWritten
           | Some error => mkDelivery (Some error) key DsFailed
           end :: ds, w')
      end
  end.
End send.

(** [Promise.allSettled(targets.map(write))]: all writes are issued in order. *)
Fixpoint settle_all (targets : list MultiExecTarget) (w : W) : list (option Err) * W :=
  match targets with
  | [] => ([], w)
  | target :: targets =>
      let '(outcome, w1) := write w (mt_sessionId target) data in
      let '(outcomes, w') := settle_all targets w1 in (outcome :: outcomes, w')
  end.

Context (missing_result : Err).

Definition liveDelivery (results : list (option Err)) (index : nat) (target : MultiExecTarget) :
    MultiExecDelivery :=
  match results !! index with
  | Some None => mkDelivery None (mt_key target) DsWritten
  | Some (Some reason) => mkDelivery (Some reason) (mt_key target) DsFailed
  | None => mkDelivery (Some missing_result) (mt_key target) DsFailed
  end.

Definition writeMultiExecLiveInput (selectedKeys : gset string) (sourceKey : string)
    (targets : list MultiExecTarget) (w : W) : list MultiExecDelivery * W :=
  let targets := selectLiveFanoutTargets targets selectedKeys (Some sourceKey) in
  let '(results, w') := settle_all targets w in
  (imap (liveDelivery results) targets, w').
End delivery.

Arguments MultiExecDelivery : clear implicits.

(** ** The workspace's MultiExec events ([layout/WorkspaceShell.tsx])

    Each event is the sequence of reducer actions its handler dispatches. Live
    mode is entered only by [setTerminalSplitSyncState]. *)

Definition dispatch_all (s : MultiExecState) (acts : list MultiExecAction) : MultiExecState :=
  foldl multiExecReducer s acts.

Section shell.
Context (chooseTarget : string) (writeFailed : nat → string).

Definition setTerminalSplitSyncState (enabled : bool) (s : MultiExecState) : MultiExecState :=
  let s := multiExecReducer s (MxSetError None) in
  if enabled then
    if decide (mx_targets s = ∅)
    then dispatch_all s [MxSetMode MxOff; MxSetError (Some chooseTarget)]
    else multiExecReducer s (MxSetMode MxLive)
  else multiExecReducer s (MxSetMode MxOff).

Definition setTerminalSplitSyncParticipant (key : string) (participant : bool)
    (s : MultiExecState) : MultiExecState :=
  dispatch_all s
    [MxSetTargetsFn (λ current, if participant then {[key]} ∪ current else current ∖ {[key]});
     MxSetError None].

(** The [.then] of a live write: failed targets are dropped. *)
Definition liveWriteSettled {Err} (deliveries : list (MultiExecDelivery Err)) (s : MultiExecState) :
    MultiExecState :=
  let failedKeys : gset string :=
    list_to_set (d_key <$> filter (λ d, d_status d = DsFailed) deliveries) in
  if decide (failedKeys = ∅) then s
  else dispatch_all s
    [MxSetTargetsFn (λ current, current ∖ failedKeys);
     MxSetError (Some (writeFailed (size failedKeys)))].

(** [handleMultiExecUserInput]: [None] when the input is not broadcast. *)
Definition handleMultiExecUserInput {W Err} (write : W → string → string → option Err * W)
    (missing : Err) (s : MultiExecState) (activeTerminalToolbarTabId : option string)
    (runtimeTargets : list MultiExecTarget) (tabId data : string) (w : W) :
    option (list (MultiExecDelivery Err) * W) :=
  if decide (mx_mode s ≠ MxLive ∨ activeTerminalToolbarTabId ≠ Some tabId) then None
  else match js_find (λ target, mt_tabId target = tabId) runtimeTargets with
       | None => None
       | Some source =>
           Some (writeMultiExecLiveInput write data missing (mx_targets s) (mt_key source)
                   runtimeTargets w)
       end.

Inductive mx_event :=
  | EvSyncState (enabled : bool)
  | EvParticipant (key : string) (participant : bool)
  | EvStop
  | EvSendMode
  | EvLiveSettled (deliveries : list (MultiExecDelivery string))
  | EvDisconnected (keys : gset string)
  | EvTargetsAvailable (availableKeys : gset string)
  | EvRestored.

Definition mx_step (s : MultiExecState) (e : mx_event) : MultiExecState :=
  match e with
  | EvSyncState enabled => setTerminalSplitSyncState enabled s
  | EvParticipant key participant => setTerminalSplitSyncParticipant key participant s
  | EvStop => multiExecReducer s (MxSetMode MxOff)
  | EvSendMode => multiExecReducer s (MxSetMode MxSend)
  | EvLiveSettled deliveries => liveWriteSettled deliveries s
  | EvDisconnected keys => multiExecReducer s (MxSetTargetsFn (λ current, current ∖ keys))
  | EvTargetsAvailable keys => multiExecReducer s (MxTargetsAvailable keys None None)
  | EvRestored => dispatch_all s [MxSetMode MxOff; MxSetTargets ∅; MxSetError None]
  end.

(** *** Invariant: live mode has a receiver *)

Definition live_ok (s : MultiExecState) : Prop := mx_mode s = MxLive → mx_targets s ≠ ∅.

Lemma mx_retarget_live_ok s next : live_ok (mx_retarget s next).
Proof. unfold live_ok, mx_retarget. cbn [mx_mode mx_targets]. case_decide; [done|tauto]. Qed.

Lemma error_live_ok s e : live_ok s → live_ok (multiExecReducer s (MxSetError e)).
Proof. done. Qed.

Lemma setTerminalSplitSyncState_live_ok enabled s : live_ok (setTerminalSplitSyncState enabled s).
Proof.
  unfold setTerminalSplitSyncState. destruct enabled; [|by intros ?].
  case_decide; [by intros ?|]. by intros _.
Qed.

Lemma liveWriteSettled_live_ok {Err} (ds : list (MultiExecDelivery Err)) s :
  live_ok s → live_ok (liveWriteSettled ds s).
Proof. unfold liveWriteSettled. case_decide; [done|]. intros _. apply error_live_ok, mx_retarget_live_ok. Qed.

Lemma mx_step_live_ok s e : live_ok s → live_ok (mx_step s e).
Proof.
  intros Hs. destruct e; cbn [mx_step];
    eauto using setTerminalSplitSyncState_live_ok, liveWriteSettled_live_ok; try by intros ?.
  - apply error_live_ok, mx_retarget_live_ok.
  - apply mx_retarget_live_ok.
  - apply mx_retarget_live_ok.
Qed.
End shell.

(** ** Properties *)

Definition explicit_retarget (a : MultiExecAction) : Prop :=
  match a with MxSetTargets _ | MxSetTargetsFn _ => True | _ => False end.

Lemma reducer_shrinks s a :
  ¬ explicit_retarget a → mx_targets (multiExecReducer s a) ⊆ mx_targets s.
Proof. destruct a; simpl; intros Ha; try done; set_solver. Qed.

Lemma dispatch_shrinks s acts :
  Forall (λ a, ¬ explicit_retarget a) acts → mx_targets (dispatch_all s acts) ⊆ mx_targets s.
Proof.
  revert s. induction acts as [|a acts IH]; intros s; [done|].
  intros [Ha Hacts]%Forall_cons. simpl. etrans; [by apply IH|]. by apply reducer_shrinks.
Qed.

(** C3: only an explicit selection adds a receiver. Over any sequence of mode
    changes, errors and availability changes the receivers can only shrink, and
    a receiver that was unavailable at one availability change stays out however
    the terminals change afterwards: reconnecting does not rejoin it. *)
Theorem targets_never_rejoin s acts1 keys focused splitActive acts2 :
  Forall (λ a, ¬ explicit_retarget a) (acts1 ++ acts2) →
  let final := dispatch_all s (acts1 ++ MxTargetsAvailable keys focused splitActive :: acts2) in
  mx_targets final ⊆ filter (.∈ keys) (mx_targets s).
Proof.
  intros [H1 H2]%Forall_app. simpl. unfold dispatch_all. rewrite foldl_app. simpl.
  pose proof (dispatch_shrinks s acts1 H1) as Hs1.
  etrans; [by apply dispatch_shrinks|]. unfold dispatch_all in Hs1. simpl. set_solver.
Qed.

Lemma targets_never_rejoin_witness :
  let s := mkMultiExec None MxLive {["ssh:a"; "ssh:b"]} in
  mx_targets (dispatch_all s [MxTargetsAvailable {["ssh:a"]} None None;
                              MxTargetsAvailable {["ssh:a"; "ssh:b"]} (Some "ssh:b") None])
  ⊆ filter (.∈ ({["ssh:a"]} : gset string)) (mx_targets s).
Proof.
  intros s.
  apply (targets_never_rejoin s [] {["ssh:a"]} None None
    [MxTargetsAvailable {["ssh:a"; "ssh:b"]} (Some "ssh:b") None]).
  constructor; [simpl; tauto|constructor].
Defined.

(** From the initial state, over any sequence of workspace events, live mode
    always has at least one receiver: it is refused with an error while nothing is
    selected and stops by itself when the last receiver goes. *)
Theorem live_always_has_receiver chooseTarget writeFailed events :
  let s := foldl (mx_step chooseTarget writeFailed) initialMultiExecState events in
  mx_mode s = MxLive → mx_targets s ≠ ∅.
Proof.
  assert (∀ s, live_ok s → live_ok (foldl (mx_step chooseTarget writeFailed) s events)) as H.
  { induction events as [|e events IH]; intros s Hs; simpl; [done|].
    by apply IH, mx_step_live_ok. }
  apply H. by intros ?.
Qed.

Lemma live_always_has_receiver_witness :
  mx_targets (foldl (mx_step "" (λ _, "")) initialMultiExecState
    [EvParticipant "ssh:a" true; EvSyncState true]) ≠ ∅.
Proof.
  apply (live_always_has_receiver "" (λ _, "") [EvParticipant "ssh:a" true; EvSyncState true]).
  by vm_compute.
Defined.

Section delivery_properties.
Context {W Err : Type} (write : W → string → string → option Err * W) (missing : Err).

Lemma settle_all_length data targets w :
  length (settle_all write data targets w).1 = length targets.
Proof.
  revert w. induction targets as [|t ts IH]; intros w; simpl; [done|].
  destruct (write w (mt_sessionId t) data) as [o w1].
  specialize (IH w1). destruct (settle_all write data ts w1). simpl in *. by f_equal.
Qed.

(** Live input typed in the focused terminal is delivered once to every
    other selected terminal, in target order, and to nobody else: never back to
    its source, never to an unselected terminal, never when live mode is off;
    and every delivery reports the outcome of its own write. *)
Theorem live_input_fanout s active targets tabId data w ds w' :
  handleMultiExecUserInput write missing s active targets tabId data w = Some (ds, w') →
  mx_mode s = MxLive ∧ active = Some tabId ∧
  ∃ source, source ∈ targets ∧ mt_tabId source = tabId ∧
    let receivers := filter (λ t, mt_key t ∈ mx_targets s ∧ mt_key t ≠ mt_key source) targets in
    d_key <$> ds = mt_key <$> receivers ∧
    (settle_all write data receivers w).2 = w' ∧
    (λ d, (d_status d, d_error d)) <$> ds =
      (λ o, (match o with None => DsWritten | Some _ => DsFailed end, o))
        <$> (settle_all write data receivers w).1.
Proof.
  unfold handleMultiExecUserInput. case_decide as Hg; [done|].
  destruct (js_find _ targets) as [source|] eqn:Es; [|done]. intros [= Hw].
  apply js_find_Some in Es as [Hin Htab].
  split; [destruct (decide (mx_mode s = MxLive)); tauto|].
  split; [destruct (decide (active = Some tabId)); tauto|].
  exists source. split; [done|]. split; [done|]. cbv zeta.
  unfold writeMultiExecLiveInput, selectLiveFanoutTargets, selectExplicitMultiExecTargets in Hw.
  rewrite list_filter_filter in Hw.
  rewrite (list_filter_ext_in _ (λ t, mt_key t ∈ mx_targets s ∧ mt_key t ≠ mt_key source)) in Hw
    by naive_solver congruence.
  set (receivers := filter _ targets) in *.
  pose proof (settle_all_length data receivers w) as Hlen.
  destruct (settle_all write data receivers w) as [results w1]. simpl in *.
  injection Hw as <- <-. split_and!; [|done|].
  - clear Hlen. revert results. generalize receivers as rs. intros rs results.
    apply list_eq. intros i. rewrite !list_lookup_fmap, list_lookup_imap.
    destruct (rs !! i) as [t|]; simpl; [|done]. unfold liveDelivery.
    by destruct (results !! i) as [[]|].
  - apply list_eq. intros i. rewrite !list_lookup_fmap, list_lookup_imap.
    destruct (receivers !! i) as [t|] eqn:Er; simpl.
    + apply lookup_lt_Some in Er. rewrite <- Hlen in Er.
      apply lookup_lt_is_Some in Er as [o Ho]. unfold liveDelivery. rewrite Ho. by destruct o.
    + apply lookup_ge_None in Er. rewrite <- Hlen in Er.
      by apply lookup_ge_None in Er as ->.
Qed.
End delivery_properties.

Definition log_write (outcome : string → option string) (w : list (string * string))
    (sessionId data : string) : option string * list (string * string) :=
  (outcome sessionId, w ++ [(sessionId, data)]).

Lemma live_input_fanout_witness :
  let mk k := mkTarget (mkBinding PaneSsh k) ("ssh:" +:+ k) TkSsh "c" ("s" +:+ k) k k in
  let s := mkMultiExec None MxLive {["ssh:a"; "ssh:b"]} in
  ∃ ds w', handleMultiExecUserInput (log_write (λ _, None)) "" s (Some "a")
      [mk "a"; mk "b"; mk "c"] "a" "ls" [] = Some (ds, w') ∧ mx_mode s = MxLive.
Proof.
  intros mk s. eexists _, _.
  assert (handleMultiExecUserInput (log_write (λ _, None)) "" s (Some "a")
      [mk "a"; mk "b"; mk "c"] "a" "ls" [] = Some ([mkDelivery None "ssh:b" DsWritten], [("sb", "ls")]))
    as E by by vm_compute.
  split; [exact E|]. exact (proj1 (live_input_fanout _ _ _ _ _ _ _ _ _ _ E)).
Defined.

(** The delivery of one command to one key. *)
Definition sent_delivery (resolve : string → option MultiExecTarget)
    (outcome : string → option string) (key : string) : MultiExecDelivery string :=
  match resolve key with
  | None => mkDelivery None key DsDisconnected
  | Some t =>
      match outcome (mt_sessionId t) with
      | None => mkDelivery None key DsWritten
      | Some e => mkDelivery (Some e) key DsFailed
      end
  end.

(** Sending a command reports one delivery per requested key, in order, and
    writes to exactly the sessions that resolve, in order: neither a vanished
    terminal nor a failed write stops the ones after it. *)
Theorem send_command_delivers_all resolve outcome data keys log :
  writeMultiExecCommand (log_write outcome) data (λ _ k, resolve k) keys log =
    (sent_delivery resolve outcome <$> keys,
     log ++ ((λ t, (mt_sessionId t, data)) <$> omap resolve keys)).
Proof.
  revert log. induction keys as [|k keys IH]; intros log; simpl.
  - by rewrite app_nil_r.
  - unfold sent_delivery at 1. destruct (resolve k) as [t|]; simpl.
    + rewrite IH, <- (assoc_L (++)). by destruct (outcome (mt_sessionId t)).
    + by rewrite IH.
Qed.
