(* ===== verification/Instances.v ===== *)
(** * Workspace items ([features/workspace/sessionTabs/instances.ts])

    Projection of the four session collections onto the items of the top bar, in
    the order of the registration table, with the split group folded into one
    item; titles; the active item. *)

From S2P Require Import Prelude SplitLayout SessionTypes.
From Stdlib Require Import Lia.

(** ** Items *)

Inductive InstanceItem :=
  | ItemSsh (id connectionId : string) (ordinal : Z) (tabId : string)
  | ItemLocal (id : string) (ordinal : Z) (profileId : string) (source : LocalTerminalSource)
      (tabId : string)
  | ItemRdp (id connectionId sessionId : string)
  | ItemVnc (id connectionId sessionId : string).

Definition instance_id (i : InstanceItem) : string :=
  match i with
  | ItemSsh id _ _ _ | ItemLocal id _ _ _ _ | ItemRdp id _ _ | ItemVnc id _ _ => id
  end.

Definition is_terminal_item (i : InstanceItem) : bool :=
  match i with ItemSsh _ _ _ _ | ItemLocal _ _ _ _ _ => true | _ => false end.

Inductive WorkspaceItem :=
  | HomeItem
  | InstItem (i : InstanceItem)
  | SplitItem (host : InstanceItem) (memberIds : list string).

Definition workspace_item_id (w : WorkspaceItem) : string :=
  match w with
  | HomeItem => HOME_ITEM_ID
  | InstItem i => instance_id i
  | SplitItem _ _ => SPLIT_ITEM_ID
  end.

Record SshInstance := mkSshInstance {
  si_connectionId : string;
  si_id : string;
  si_ordinal : Z;
}.

Record LocalInstance := mkLocalInstance {
  li_id : string;
  li_ordinal : Z;
  li_profileId : string;
  li_source : option LocalTerminalSource;
}.

Record InstanceCollections := mkCollections {
  ic_localTerminalTabs : list LocalInstance;
  ic_rdpSessions : list SessionRef;
  ic_terminalTabs : list SshInstance;
  ic_vncSessions : list SessionRef;
}.

Record SplitGroupInput := mkSplitGroup {
  sg_bindings : list TerminalPaneBinding;
  sg_host : TerminalPaneBinding;
}.

(** ** Ordinals *)

Definition nextOrdinal (ordinals : list Z) : Z := (foldr Z.max (-1) ordinals + 1)%Z.

Definition displayOrdinal (ordinal : Z) : option Z :=
  if decide (ordinal = 0%Z) then None else Some (ordinal + 1)%Z.

(** ** Projection *)

Definition collection_ids (c : InstanceCollections) : list string :=
  (instanceItemId KSsh ∘ si_id <$> ic_terminalTabs c) ++
  (instanceItemId KLocal ∘ li_id <$> ic_localTerminalTabs c) ++
  (instanceItemId KRdp ∘ ref_id <$> ic_rdpSessions c) ++
  (instanceItemId KVnc ∘ ref_id <$> ic_vncSessions c).

Definition unregisteredInstanceIds (collections : InstanceCollections) (order : list string) :
    list string :=
  filter (.∉ order) (collection_ids collections).

Definition ssh_item (tab : SshInstance) : InstanceItem :=
  ItemSsh (instanceItemId KSsh (si_id tab)) (si_connectionId tab) (si_ordinal tab) (si_id tab).
Definition local_item (tab : LocalInstance) : InstanceItem :=
  ItemLocal (instanceItemId KLocal (li_id tab)) (li_ordinal tab) (li_profileId tab)
    (default SrcLocal (li_source tab)) (li_id tab).
Definition rdp_item (s : SessionRef) : InstanceItem :=
  ItemRdp (instanceItemId KRdp (ref_id s)) (ref_connectionId s) (ref_id s).
Definition vnc_item (s : SessionRef) : InstanceItem :=
  ItemVnc (instanceItemId KVnc (ref_id s)) (ref_connectionId s) (ref_id s).

Definition collection_items (c : InstanceCollections) : list InstanceItem :=
  (ssh_item <$> ic_terminalTabs c) ++ (local_item <$> ic_localTerminalTabs c) ++
  (rdp_item <$> ic_rdpSessions c) ++ (vnc_item <$> ic_vncSessions c).

Definition collectInstances (collections : InstanceCollections) : jsmap InstanceItem :=
  foldl (λ m item, jsmap_set (instance_id item) item m) [] (collection_items collections).

Definition buildSplitGroup (split : SplitGroupInput) (instances : jsmap InstanceItem) :
    option WorkspaceItem :=
  let members :=
    filter (λ item, is_terminal_item item = true)
      (omap (λ binding, jsmap_get (terminalPaneBindingKey binding) instances) (sg_bindings split)) in
  match members with
  | [] => None
  | first :: _ =>
      let hostId := terminalPaneBindingKey (sg_host split) in
      let host := default first (js_find (λ item, instance_id item = hostId) members) in
      Some (SplitItem host (instance_id <$> members))
  end.

Definition group_members (group : option WorkspaceItem) : list string :=
  match group with Some (SplitItem _ memberIds) => memberIds | _ => [] end.

(** The final loop: members are replaced by the group at the first of them. *)
Fixpoint place_items (group : option WorkspaceItem) (groupPlaced : bool)
    (ordered : list InstanceItem) : list WorkspaceItem :=
  match ordered with
  | [] => []
  | item :: rest =>
      if decide (instance_id item ∈ group_members group) then
        match group, groupPlaced with
        | Some g, false => g :: place_items group true rest
        | _, _ => place_items group groupPlaced rest
        end
      else InstItem item :: place_items group groupPlaced rest
  end.

Definition ordered_instances (instances : jsmap InstanceItem) (order : list string) :
    list InstanceItem :=
  let ordered := omap (λ id, jsmap_get id instances) order in
  let placed := filter (λ id, is_Some (jsmap_get id instances)) order in
  ordered ++ (filter (λ e, e.1 ∉ placed) instances).*2.

Definition selectWorkspaceItems (collections : InstanceCollections) (order : list string)
    (split : option SplitGroupInput) : list WorkspaceItem :=
  let instances := collectInstances collections in
  let ordered := ordered_instances instances order in
  let group := split ≫= λ s, buildSplitGroup s instances in
  HomeItem :: place_items group false ordered.

(** ** Titles *)

Record ItemTitleLookups := mkTitleLookups {
  tl_connectionName : string → option string;
  tl_localProfileName : string → option string;
}.

Inductive WorkspaceItemTitle :=
  | TitleHome
  | TitleLocal (name : option string) (ordinal : Z)
  | TitleRdp (name : option string)
  | TitleSsh (name : option string) (ordinal : Z)
  | TitleVnc (name : option string).

Definition instance_title (item : InstanceItem) (lookups : ItemTitleLookups) : WorkspaceItemTitle :=
  match item with
  | ItemSsh _ connectionId ordinal _ => TitleSsh (tl_connectionName lookups connectionId) ordinal
  | ItemLocal _ ordinal profileId source _ =>
      TitleLocal
        (match source with
         | SrcLocal => tl_localProfileName lookups profileId
         | _ => tl_connectionName lookups profileId
         end) ordinal
  | ItemRdp _ connectionId _ => TitleRdp (tl_connectionName lookups connectionId)
  | ItemVnc _ connectionId _ => TitleVnc (tl_connectionName lookups connectionId)
  end.

Definition itemTitle (item : WorkspaceItem) (lookups : ItemTitleLookups) : WorkspaceItemTitle :=
  match item with
  | HomeItem => TitleHome
  | InstItem i => instance_title i lookups
  | SplitItem host _ => instance_title host lookups
  end.

(** ** The active item *)

Record ActiveInstanceRefs := mkActive {
  ar_localTerminalTabId : option string;
  ar_mode : WorkspaceMode;
  ar_rdpSessionId : option string;
  ar_showingHome : bool;
  ar_splitActive : bool;
  ar_terminalTabId : option string;
  ar_vncSessionId : option string;
}.

Definition truthy_item (kind : InstanceKind) (id : option string) : option string :=
  match id with
  | Some s => if truthy id then Some (instanceItemId kind s) else None
  | None => None
  end.

Definition activeInstanceId (active : ActiveInstanceRefs) : option string :=
  match ar_mode active with
  | ModeSsh => truthy_item KSsh (ar_terminalTabId active)
  | ModeLocal => truthy_item KLocal (ar_localTerminalTabId active)
  | ModeRdp => truthy_item KRdp (ar_rdpSessionId active)
  | ModeVnc => truthy_item KVnc (ar_vncSessionId active)
  | ModeHome => None
  end.

Definition find_split (items : list WorkspaceItem) : option (list string) :=
  head (omap (λ w, match w with SplitItem _ ms => Some ms | _ => None end) items).

Definition selectActiveItemId (active : ActiveInstanceRefs) (items : list WorkspaceItem) :
    option string :=
  if ar_showingHome active then Some HOME_ITEM_ID
  else
    let split := find_split items in
    let terminalMode := bool_decide (ar_mode active = ModeSsh ∨ ar_mode active = ModeLocal) in
    if bool_decide (is_Some split) && terminalMode && ar_splitActive active
    then Some SPLIT_ITEM_ID
    else
      match activeInstanceId active with
      | None => None
      | Some instanceId =>
          if decide (instanceId ∈ default [] split) then Some SPLIT_ITEM_ID
          else if decide (instanceId ∈ workspace_item_id <$> items) then Some instanceId
          else None
      end.

(** ** Instances that survive a close *)

Definition kept (closing : option (gset string)) (connectionId : string) : Prop :=
  match closing with Some c => connectionId ∉ c | None => True end.

#[export] Instance kept_dec closing c : Decision (kept closing c).
Proof. unfold kept. destruct closing; apply _. Defined.

Definition liveInstanceIds (snapshot : CloseSnapshot) (closing : option (gset string)) : gset string :=
  let kept_refs := filter (λ r, kept closing (ref_connectionId r)) in
  list_to_set
    ((instanceItemId KSsh ∘ ref_id <$> kept_refs (cs_terminalTabs snapshot)) ++
     (instanceItemId KLocal <$> cs_localTerminalTabs snapshot) ++
     (instanceItemId KRdp ∘ ref_id <$> kept_refs (cs_rdpSessions snapshot)) ++
     (instanceItemId KVnc ∘ ref_id <$> kept_refs (cs_vncSessions snapshot))).

(** ** Ordinals: lemmas *)

Lemma nextOrdinal_fresh ordinals o : o ∈ ordinals → (o < nextOrdinal ordinals)%Z.
Proof.
  unfold nextOrdinal. induction ordinals as [|p l IH]; simpl; [by intros ?%not_elem_of_nil|].
  intros [->|?%IH]%elem_of_cons; lia.
Qed.

Lemma nextOrdinal_nonneg ordinals : (0 ≤ nextOrdinal ordinals)%Z.
Proof.
  unfold nextOrdinal. enough (-1 ≤ foldr Z.max (-1) ordinals)%Z by lia.
  induction ordinals; simpl; lia.
Qed.

Lemma displayOrdinal_inj a b :
  (0 ≤ a)%Z → (0 ≤ b)%Z → displayOrdinal a = displayOrdinal b → a = b.
Proof. unfold displayOrdinal. repeat case_decide; intros; simplify_eq; lia. Qed.

(** ** The instance map: lemmas *)

Lemma collection_items_ids c : instance_id <$> collection_items c = collection_ids c.
Proof.
  unfold collection_items, collection_ids. rewrite !fmap_app, <- !list_fmap_compose. done.
Qed.

Lemma fold_set_keys (l : list InstanceItem) m :
  NoDup (m.*1 ++ (instance_id <$> l)) →
  foldl (λ m item, jsmap_set (instance_id item) item m) m l = m ++ ((λ i, (instance_id i, i)) <$> l).
Proof.
  revert m. induction l as [|x l IH]; intros m; simpl; [intros _; by rewrite app_nil_r|].
  intros Hnd.
  assert (instance_id x ∉ m.*1) as Hx.
  { intros Hin. apply NoDup_app in Hnd as (_ & Hd & _). apply (Hd _ Hin). left. }
  assert (jsmap_set (instance_id x) x m = m ++ [(instance_id x, x)]) as ->.
  { clear IH Hnd. induction m as [|[k v] m IHm]; [done|]. simpl in *.
    apply not_elem_of_cons in Hx as [? ?]. rewrite decide_False by done. f_equal. auto. }
  rewrite IH.
  - by rewrite <- app_assoc.
  - rewrite fmap_app, <- app_assoc. done.
Qed.

(** When session ids are unique the map lists the items in collection order. *)
Lemma collectInstances_eq c :
  NoDup (collection_ids c) →
  collectInstances c = (λ i, (instance_id i, i)) <$> collection_items c.
Proof.
  intros Hnd. unfold collectInstances. rewrite fold_set_keys; [done|].
  simpl. by rewrite collection_items_ids.
Qed.

Definition keyed (m : jsmap InstanceItem) : Prop := ∀ k i, (k, i) ∈ m → instance_id i = k.

Lemma collectInstances_keyed c : NoDup (collection_ids c) → keyed (collectInstances c).
Proof.
  intros Hnd k i. rewrite collectInstances_eq by done.
  by intros (? & [= -> ->] & _)%list_elem_of_fmap.
Qed.

Lemma collectInstances_keys c :
  NoDup (collection_ids c) → (collectInstances c).*1 = collection_ids c.
Proof.
  intros Hnd. rewrite collectInstances_eq, <- list_fmap_compose by done.
  by rewrite <- collection_items_ids.
Qed.

Lemma keyed_filter_ids (P : string → Prop) `{∀ x, Decision (P x)}
    `{∀ e : string * InstanceItem, Decision (P e.1)} m :
  keyed m → instance_id <$> (filter (λ e, P e.1) m).*2 = filter P m.*1.
Proof.
  induction m as [|[k i] m IH]; intros Hk; [done|].
  assert (keyed m) as Hm by (intros k' i' ?; apply Hk; by right).
  assert (instance_id i = k) as Hi by (apply Hk; left).
  rewrite fmap_cons, !filter_cons. cbn [fst].
  do 2 case_decide; try done; [|by apply IH]. rewrite !fmap_cons. cbn [snd]. rewrite Hi. f_equal. by apply IH.
Qed.

Lemma ordered_instances_ids m order :
  keyed m →
  instance_id <$> ordered_instances m order =
    filter (.∈ m.*1) order ++ filter (.∉ order) m.*1.
Proof.
  intros Hk. unfold ordered_instances. rewrite fmap_app. f_equal.
  - induction order as [|id order IH]; [done|]. simpl. rewrite filter_cons.
    destruct (jsmap_get id m) as [i|] eqn:E.
    + simpl. rewrite decide_True by (apply jsmap_get_is_Some; eauto).
      f_equal; [|done]. by apply Hk, jsmap_get_elem.
    + rewrite decide_False; [done|]. by apply jsmap_get_None.
  - etrans; [apply (keyed_filter_ids (.∉ filter (λ id, is_Some (jsmap_get id m)) order)); exact Hk|].
    apply list_filter_ext_in. intros x Hx. rewrite list_elem_of_filter.
    apply jsmap_get_is_Some in Hx. tauto.
Qed.

Definition displayed_ids (items : list WorkspaceItem) : list string := workspace_item_id <$> items.

Lemma place_items_none l placed : place_items None placed l = InstItem <$> l.
Proof.
  induction l as [|i l IH]; simpl; [done|].
  by rewrite IH.
Qed.

Lemma place_items_placed h ms l :
  displayed_ids (place_items (Some (SplitItem h ms)) true l) = filter (.∉ ms) (instance_id <$> l).
Proof.
  induction l as [|i l IH]; [done|].
  cbn [place_items group_members]. rewrite fmap_cons, filter_cons.
  repeat case_decide; try done. unfold displayed_ids in *. rewrite fmap_cons. by rewrite IH.
Qed.

(** The fold of a group into an id list: [ids] with the group at its first member. *)
Definition folded_at (ms ids shown : list string) : Prop :=
  ∃ pre m post, ids = pre ++ m :: post ∧ m ∈ ms ∧ Forall (.∉ ms) pre ∧
    shown = pre ++ SPLIT_ITEM_ID :: filter (.∉ ms) post.

Lemma place_items_group h ms l :
  Exists (.∈ ms) (instance_id <$> l) →
  folded_at ms (instance_id <$> l) (displayed_ids (place_items (Some (SplitItem h ms)) false l)).
Proof.
  induction l as [|i l IH]; [by intros ?%Exists_nil|].
  rewrite fmap_cons. cbn [place_items group_members]. intros Hex. case_decide as Hi.
  - exists [], (instance_id i), (instance_id <$> l). split_and!; [done|done|constructor|].
    unfold displayed_ids. rewrite fmap_cons. apply (f_equal (cons SPLIT_ITEM_ID)).
    apply place_items_placed.
  - apply Exists_cons in Hex as [?|Hex]; [done|].
    destruct (IH Hex) as (pre & m & post & Hids & Hm & Hpre & Hs).
    exists (instance_id i :: pre), m, post. rewrite Hids.
    split_and!; [done|done|by constructor|].
    unfold displayed_ids in *. rewrite fmap_cons, Hs. done.
Qed.

Lemma buildSplitGroup_spec split m g :
  buildSplitGroup split m = Some g →
  ∃ h ms, g = SplitItem h ms ∧ ms ≠ [] ∧ instance_id h ∈ ms ∧
    (keyed m → ∀ id, id ∈ ms ↔ ∃ b i, b ∈ sg_bindings split ∧ terminalPaneBindingKey b = id ∧
       jsmap_get id m = Some i ∧ is_terminal_item i = true).
Proof.
  unfold buildSplitGroup.
  set (members := filter _ _). destruct members as [|f r] eqn:E; [done|]. intros [= <-].
  exists (default f (js_find (λ item, instance_id item = terminalPaneBindingKey (sg_host split)) (f :: r))),
    (instance_id <$> f :: r).
  split_and!; [done|done| |].
  - destruct (js_find _ (f :: r)) as [h|] eqn:Hf; simpl.
    + apply (list_elem_of_fmap_2 instance_id (f :: r)). by eapply js_find_elem.
    + left.
  - intros Hk id. rewrite <- E. unfold members. rewrite list_elem_of_fmap. split.
    + intros (i & -> & [Ht (b & Hb & Hg)%list_elem_of_omap]%list_elem_of_filter).
      assert (instance_id i = terminalPaneBindingKey b) as Hid by (by apply Hk, jsmap_get_elem).
      exists b, i. rewrite Hid. done.
    + intros (b & i & Hb & <- & Hg & Ht). exists i. split; [by rewrite (Hk _ _ (jsmap_get_elem _ _ _ Hg))|].
      apply list_elem_of_filter. split; [done|]. apply list_elem_of_omap. eauto.
Qed.

(** The ids in display order before the split group is folded: the live part of
    the order table, then the instances that it lacks. *)
Definition display_order (c : InstanceCollections) (order : list string) : list string :=
  filter (.∈ collection_ids c) order ++ unregisteredInstanceIds c order.

Lemma elem_of_display_order c order id : id ∈ display_order c order ↔ id ∈ collection_ids c.
Proof.
  unfold display_order, unregisteredInstanceIds. rewrite elem_of_app, !list_elem_of_filter.
  destruct (decide (id ∈ order)); tauto.
Qed.

Lemma display_order_NoDup c order :
  NoDup order → NoDup (collection_ids c) → NoDup (display_order c order).
Proof.
  intros Ho Hc. apply NoDup_app. split_and!; [by apply NoDup_filter| |by apply NoDup_filter].
  intros x [_ ?]%list_elem_of_filter [? _]%list_elem_of_filter. done.
Qed.

Lemma collection_ids_kind c id : id ∈ collection_ids c → ∃ k r, id = instanceItemId k r.
Proof.
  unfold collection_ids. rewrite !elem_of_app, !list_elem_of_fmap.
  intros [(x & -> & _)|[(x & -> & _)|[(x & -> & _)|(x & -> & _)]]]; eexists _, _; done.
Qed.

Definition split_group (c : InstanceCollections) (split : option SplitGroupInput) :=
  split ≫= (λ s, buildSplitGroup s (collectInstances c)).

Lemma split_group_members c split g :
  NoDup (collection_ids c) → split_group c split = Some g →
  ∃ h ms, g = SplitItem h ms ∧ instance_id h ∈ ms ∧ ∀ id, id ∈ ms → id ∈ collection_ids c.
Proof.
  intros Hnd Hg. destruct split as [s|]; [|done]. simpl in Hg.
  destruct (buildSplitGroup_spec _ _ _ Hg) as (h & ms & -> & _ & Hh & Hms).
  exists h, ms. split_and!; [done|done|]. intros id Hid.
  apply (Hms (collectInstances_keyed _ Hnd)) in Hid as (b & i & _ & _ & Hget & _).
  rewrite <- (collectInstances_keys _ Hnd). apply jsmap_get_is_Some. eauto.
Qed.

Lemma ordered_instances_display c order :
  NoDup (collection_ids c) →
  instance_id <$> ordered_instances (collectInstances c) order = display_order c order.
Proof.
  intros Hnd. rewrite ordered_instances_ids by by apply collectInstances_keyed.
  by rewrite collectInstances_keys.
Qed.

Lemma folded_at_NoDup ms ids shown :
  NoDup ids → SPLIT_ITEM_ID ∉ ids → HOME_ITEM_ID ∉ ids → folded_at ms ids shown →
  NoDup (HOME_ITEM_ID :: shown).
Proof.
  intros Hnd Hs Hh (pre & m & post & -> & Hm & Hpre & ->).
  rewrite elem_of_app, elem_of_cons in Hs, Hh.
  apply NoDup_app in Hnd as (Hnd1 & Hd & [Hm' Hnd2]%NoDup_cons).
  apply NoDup_cons. split.
  { rewrite elem_of_app, elem_of_cons, list_elem_of_filter. intros [?|[?|[_ ?]]]; [tauto|done|tauto]. }
  apply NoDup_app. split_and!; [done| |].
  - intros x Hx. rewrite elem_of_cons, list_elem_of_filter. intros [->|[_ ?]]; [tauto|].
    apply (Hd x Hx). by right.
  - apply NoDup_cons. split; [rewrite list_elem_of_filter; tauto|by apply NoDup_filter].
Qed.

Lemma display_order_reserved c order :
  (SPLIT_ITEM_ID ∉ display_order c order) ∧ (HOME_ITEM_ID ∉ display_order c order).
Proof.
  rewrite !elem_of_display_order.
  split; intros (k & r & Heq)%collection_ids_kind; by destruct k.
Qed.

(** What the bar displays, by cases on the split group. *)
Lemma selectWorkspaceItems_ids c order split :
  NoDup (collection_ids c) →
  ∃ shown, displayed_ids (selectWorkspaceItems c order split) = HOME_ITEM_ID :: shown ∧
    match split_group c split with
    | None => shown = display_order c order
    | Some g => folded_at (group_members (Some g)) (display_order c order) shown
    end.
Proof.
  intros Hnd. unfold selectWorkspaceItems. fold (split_group c split). cbv zeta.
  exists (displayed_ids (place_items (split_group c split) false
    (ordered_instances (collectInstances c) order))).
  split; [done|]. destruct (split_group c split) as [g|] eqn:Hg.
  - destruct (split_group_members _ _ _ Hnd Hg) as (h & ms & -> & Hh & Hms).
    rewrite <- (ordered_instances_display _ _ Hnd). apply place_items_group.
    rewrite ordered_instances_display by done. apply Exists_exists.
    exists (instance_id h). split; [|done]. apply elem_of_display_order. auto.
  - rewrite place_items_none, <- (ordered_instances_display _ _ Hnd).
    unfold displayed_ids. by rewrite <- list_fmap_compose.
Qed.

(** C4: the top bar shows every live instance exactly once. With unique session
    ids and a duplicate-free order table, the items are the home item followed by
    the live part of the order table and then the instances it lacks (in
    collection order); when the split has a live member, the group item stands at
    the place of its first member and the other members are removed, and no two
    items share an id. *)
Theorem workspace_items_exact c order split :
  NoDup order → NoDup (collection_ids c) →
  let shown := displayed_ids (selectWorkspaceItems c order split) in
  NoDup shown ∧ head shown = Some HOME_ITEM_ID ∧
  match split_group c split with
  | None => tail shown = filter (.∈ collection_ids c) order ++ unregisteredInstanceIds c order
  | Some g =>
      ∃ pre m post,
        filter (.∈ collection_ids c) order ++ unregisteredInstanceIds c order = pre ++ m :: post ∧
        m ∈ group_members (Some g) ∧ Forall (.∉ group_members (Some g)) pre ∧
        tail shown = pre ++ SPLIT_ITEM_ID :: filter (.∉ group_members (Some g)) post
  end.
Proof.
  intros Ho Hnd. cbv zeta.
  destruct (selectWorkspaceItems_ids c order split Hnd) as (shown & -> & Hs).
  destruct (display_order_reserved c order) as [Hsp Hhm].
  split_and!; [|done|by destruct (split_group c split)].
  destruct (split_group c split) as [g|].
  - eapply folded_at_NoDup; [by apply (display_order_NoDup c order)|done|done|done].
  - subst. apply NoDup_cons. split; [done|by apply display_order_NoDup].
Qed.

Definition items_collections : InstanceCollections :=
  mkCollections [mkLocalInstance "l1" 0 "p" None] [mkRef "c2" "r1"]
    [mkSshInstance "c1" "a" 0; mkSshInstance "c1" "b" 1] [].
Definition items_order : list string := ["rdp:r1"; "ssh:gone"; "ssh:b"].
Definition items_split : option SplitGroupInput :=
  Some (mkSplitGroup [mkBinding PaneSsh "a"; mkBinding PaneLocal "l1"] (mkBinding PaneLocal "l1")).

Lemma workspace_items_exact_witness :
  displayed_ids (selectWorkspaceItems items_collections items_order items_split) =
    ["home"; "rdp:r1"; "ssh:b"; "split"] ∧
  NoDup (displayed_ids (selectWorkspaceItems items_collections items_order items_split)).
Proof.
  split; [vm_compute; reflexivity|].
  apply (workspace_items_exact items_collections items_order items_split); vm_decide.
Defined.

(** ** The active item: lemmas *)

Lemma elem_of_displayed w items : w ∈ items → workspace_item_id w ∈ displayed_ids items.
Proof. apply list_elem_of_fmap_2. Qed.

Lemma find_split_Some items ms :
  find_split items = Some ms → ∃ h, SplitItem h ms ∈ items.
Proof.
  unfold find_split. intros (w & Hw & Hin)%head_elem%list_elem_of_omap.
  destruct w as [| |h ms']; simplify_eq. by exists h.
Qed.

Lemma find_split_place g placed l :
  find_split (HomeItem :: place_items g placed l) = Some (group_members g) ∨
  find_split (HomeItem :: place_items g placed l) = None.
Proof.
  unfold find_split. simpl. revert placed. induction l as [|i l IH]; intros placed; simpl; [by right|].
  case_decide as Hi; [|apply IH].
  destruct g as [[| |h ms]|], placed; try apply IH; try (by apply not_elem_of_nil in Hi). by left.
Qed.

Lemma elem_of_place_items i g placed l :
  InstItem i ∈ place_items g placed l → i ∈ l ∨ g = Some (InstItem i).
Proof.
  revert placed. induction l as [|j l IH]; intros placed; simpl; [by intros ?%not_elem_of_nil|].
  rewrite elem_of_cons. case_decide.
  - destruct g as [g|], placed; try (intros ?%IH; tauto).
    intros [->|?%IH]%elem_of_cons; tauto.
  - intros [[= ->]|?%IH]%elem_of_cons; tauto.
Qed.

Lemma displayed_instance c order split i :
  NoDup (collection_ids c) → InstItem i ∈ selectWorkspaceItems c order split →
  instance_id i ∈ collection_ids c.
Proof.
  intros Hnd [?|Hin]%elem_of_cons; [done|].
  apply elem_of_place_items in Hin as [Hin|Hg].
  - apply (elem_of_display_order c order). rewrite <- ordered_instances_display by done.
    by apply list_elem_of_fmap_2.
  - destruct (split_group_members c split _ Hnd Hg) as (? & ? & ? & _). done.
Qed.

Lemma find_split_group c order split :
  NoDup (collection_ids c) →
  find_split (selectWorkspaceItems c order split) =
    (λ g, group_members (Some g)) <$> split_group c split.
Proof.
  intros Hnd. unfold selectWorkspaceItems. cbv zeta. fold (split_group c split).
  destruct (selectWorkspaceItems_ids c order split Hnd) as (shown & Hd & Hs).
  unfold selectWorkspaceItems in Hd. cbv zeta in Hd. fold (split_group c split) in Hd.
  destruct (split_group c split) as [g|] eqn:Hg; simpl.
  - destruct (find_split_place (Some g) false (ordered_instances (collectInstances c) order))
      as [->|Hno]; [done|].
    exfalso. destruct Hs as (pre & m & post & _ & _ & _ & ->).
    assert (SPLIT_ITEM_ID ∈ displayed_ids (HomeItem :: place_items (Some g) false
      (ordered_instances (collectInstances c) order))) as Hin.
    { rewrite Hd. rewrite elem_of_cons, elem_of_app, elem_of_cons. tauto. }
    apply list_elem_of_fmap in Hin as (w & Hw & Hin).
    unfold find_split in Hno. apply head_None in Hno.
    destruct w as [|i|h ms]; [done| |].
    { assert (instance_id i ∈ collection_ids c) as Hi by (apply (displayed_instance c order split i Hnd);
        unfold selectWorkspaceItems; cbv zeta; fold (split_group c split); by rewrite Hg).
      apply collection_ids_kind in Hi as (k & r & Hi). simpl in Hw. rewrite Hi in Hw. by destruct k. }
    eapply not_elem_of_nil. rewrite <- Hno. apply list_elem_of_omap.
    exists (SplitItem h ms). done.
  - destruct (find_split_place None false (ordered_instances (collectInstances c) order))
      as [Hf|Hf]; [|done].
    apply find_split_Some in Hf as (h & Hin). rewrite place_items_none in Hin.
    apply elem_of_cons in Hin as [?|Hin]; [done|].
    by apply list_elem_of_fmap in Hin as (? & ? & _).
Qed.

Lemma displayed_standalone c order split id :
  NoDup (collection_ids c) → id ∈ collection_ids c →
  id ∉ default [] ((λ g, group_members (Some g)) <$> split_group c split) →
  id ∈ displayed_ids (selectWorkspaceItems c order split).
Proof.
  intros Hnd Hid Hm. destruct (selectWorkspaceItems_ids c order split Hnd) as (shown & -> & Hs).
  apply (elem_of_display_order c order) in Hid. right.
  destruct (split_group c split) as [g|]; [|by subst]. simpl in Hm.
  destruct Hs as (pre & m & post & Heq & Hin & Hpre & ->). rewrite Heq in Hid.
  apply elem_of_app in Hid as [?|[->|?]%elem_of_cons]; [|done|].
  - apply elem_of_app. by left.
  - apply elem_of_app. right. right. by apply list_elem_of_filter.
Qed.

Lemma displayed_split c order split :
  NoDup (collection_ids c) → is_Some (split_group c split) →
  SPLIT_ITEM_ID ∈ displayed_ids (selectWorkspaceItems c order split).
Proof.
  intros Hnd [g Hg]. destruct (selectWorkspaceItems_ids c order split Hnd) as (shown & -> & Hs).
  rewrite Hg in Hs. destruct Hs as (pre & m & post & _ & _ & _ & ->).
  rewrite elem_of_cons, elem_of_app, elem_of_cons. tauto.
Qed.

Lemma displayed_home c order split :
  HOME_ITEM_ID ∈ displayed_ids (selectWorkspaceItems c order split).
Proof. unfold selectWorkspaceItems, displayed_ids. cbv zeta. rewrite fmap_cons. left. Qed.

(** The highlighted item is always one of the items the top bar displays, and
    a live active instance is never without a highlighted item: outside the home
    page it is its own item, or the split group (only when it is a member or the
    split view is showing in a terminal mode). *)
Theorem active_item_displayed active c order split :
  NoDup (collection_ids c) →
  let items := selectWorkspaceItems c order split in
  (∀ id, selectActiveItemId active items = Some id → id ∈ displayed_ids items) ∧
  (∀ i, ar_showingHome active = false → activeInstanceId active = Some i →
    i ∈ collection_ids c →
    (selectActiveItemId active items = Some i ∨
     selectActiveItemId active items = Some SPLIT_ITEM_ID ∧
       ∃ g, split_group c split = Some g ∧
         (i ∈ group_members (Some g) ∨
          ar_splitActive active = true ∧ ar_mode active ∈ [ModeSsh; ModeLocal]))).
Proof.
  intros Hnd. unfold selectActiveItemId. cbv zeta. rewrite find_split_group by done.
  destruct (ar_showingHome active) eqn:Hh.
  { split; [intros id [= <-]; apply displayed_home|done]. }
  destruct (bool_decide (is_Some _) && _ && _) eqn:Hsp.
  - rewrite !andb_true_iff, !bool_decide_eq_true, fmap_is_Some in Hsp.
    destruct Hsp as [[Hg Hmode] Hact]. split.
    + intros id [= <-]. by apply displayed_split.
    + intros i _ _ _. right. split; [done|]. destruct Hg as [g Hg]. exists g. split; [done|]. right.
      split; [done|]. destruct Hmode as [->| ->]; vm_decide.
  - clear Hsp. destruct (activeInstanceId active) as [a|] eqn:Ha; [|by split].
    pose proof (displayed_standalone c order split a Hnd) as Hst.
    case_decide as Hm; [|case_decide as Hin].
    + destruct (split_group c split) as [g|] eqn:Hg; [|by apply not_elem_of_nil in Hm].
      split; [intros id [= <-]; apply displayed_split; [done|by rewrite Hg]|].
      intros ? _ [= <-] _. right. split; [done|]. exists g. split; [done|]. by left.
    + split; [by intros id [= <-]|]. intros ? _ [= <-] _. by left.
    + split; [done|]. intros ? _ [= <-] Hc. by destruct Hin; apply Hst.
Qed.

Lemma active_item_displayed_witness :
  let active := mkActive None ModeSsh None false false (Some "a") None in
  let items := selectWorkspaceItems items_collections items_order items_split in
  selectActiveItemId active items = Some "split" ∧ "split" ∈ displayed_ids items.
Proof.
  cbv zeta. split; [vm_compute; reflexivity|].
  refine (proj1 (active_item_displayed (mkActive None ModeSsh None false false (Some "a") None)
    items_collections items_order items_split _) "split" _); [vm_decide|vm_compute; reflexivity].
Defined.

(** Survival of a close, as membership in the collections. *)
Lemma elem_of_liveInstanceIds s closing id :
  id ∈ liveInstanceIds s closing ↔
    (∃ r, r ∈ cs_terminalTabs s ∧ kept closing (ref_connectionId r) ∧ id = instanceItemId KSsh (ref_id r)) ∨
    (∃ t, t ∈ cs_localTerminalTabs s ∧ id = instanceItemId KLocal t) ∨
    (∃ r, r ∈ cs_rdpSessions s ∧ kept closing (ref_connectionId r) ∧ id = instanceItemId KRdp (ref_id r)) ∨
    (∃ r, r ∈ cs_vncSessions s ∧ kept closing (ref_connectionId r) ∧ id = instanceItemId KVnc (ref_id r)).
Proof.
  unfold liveInstanceIds. rewrite elem_of_list_to_set, !elem_of_app, !list_elem_of_fmap.
  setoid_rewrite list_elem_of_filter. split.
  - intros [(r & -> & ? & ?)|[(t & -> & ?)|[(r & -> & ? & ?)|(r & -> & ? & ?)]]]; eauto 10.
  - intros [(r & ? & ? & ->)|[(t & ? & ->)|[(r & ? & ? & ->)|(r & ? & ? & ->)]]]; eauto 10.
Qed.
