(* ===== verification/CloseDecision.v ===== *)
(** * Close decisions ([features/workspace/sessionTabs/closeDecision.ts])

    The pointer state of the session tabs and the pure decisions of what becomes
    active when terminals, connections, local terminals or remote desktops are
    closed, with what they promise: a follow-up activation always names a session
    of the snapshot. *)

From S2P Require Import Prelude SplitLayout SessionTypes.

(** ** Data *)

Inductive FollowUp :=
  | FuLocal (tabId : string)
  | FuRdp (connectionId sessionId : string)
  | FuTerminal (connectionId tabId : string)
  | FuVnc (connectionId sessionId : string).

#[export] Instance FollowUp_eq_dec : EqDecision FollowUp.
Proof. solve_decision. Defined.

Inductive ActiveView := ViewWorkspace | ViewSettings.

#[export] Instance ActiveView_eq_dec : EqDecision ActiveView.
Proof. solve_decision. Defined.

(** [SessionPointerState] ([reducer.ts]). The two memory tables are JS objects. *)
Record SessionPointerState := mkPointers {
  activeConnectionId : option string;
  activeLocalTerminalTabId : option string;
  activeRdpSessionId : option string;
  activeRemoteFileTabId : option string;
  activeTabByConnectionId : gmap string string;
  activeTabId : option string;
  activeUnifiedTabByConnectionId : gmap string UnifiedWorkbenchTab;
  activeView : ActiveView;
  activeVncSessionId : option string;
  followUp : option FollowUp;
  homeActive : bool;
  mode : WorkspaceMode;
  order : list string;
}.

(** [PointerPatch]: a key is absent or present with a value. *)
Record PointerPatch := mkPatch {
  pp_activeConnectionId : option (option string);
  pp_activeLocalTerminalTabId : option (option string);
  pp_activeRdpSessionId : option (option string);
  pp_activeRemoteFileTabId : option (option string);
  pp_activeTabId : option (option string);
  pp_activeVncSessionId : option (option string);
  pp_homeActive : option bool;
  pp_mode : option WorkspaceMode;
}.

Record CloseDecision := mkDecision {
  cd_followUp : option FollowUp;
  cd_forget : option (list string);
  cd_patch : PointerPatch;
  cd_remember : option (string * string);
}.

Definition empty_patch : PointerPatch := mkPatch None None None None None None None None.

Definition HOME_PATCH : PointerPatch :=
  mkPatch (Some None) None None None (Some None) None (Some true) (Some ModeHome).

Definition RETURN_HOME_PATCH : PointerPatch :=
  mkPatch (Some None) (Some None) (Some None) None (Some None) (Some None) (Some true)
    (Some ModeHome).

(** Writing a key of a patch. *)
Definition patch_tab (t : option string) (p : PointerPatch) : PointerPatch :=
  mkPatch (pp_activeConnectionId p) (pp_activeLocalTerminalTabId p) (pp_activeRdpSessionId p)
    (pp_activeRemoteFileTabId p) (Some t) (pp_activeVncSessionId p) (pp_homeActive p) (pp_mode p).
Definition patch_connection (c : option string) (p : PointerPatch) : PointerPatch :=
  mkPatch (Some c) (pp_activeLocalTerminalTabId p) (pp_activeRdpSessionId p)
    (pp_activeRemoteFileTabId p) (pp_activeTabId p) (pp_activeVncSessionId p) (pp_homeActive p)
    (pp_mode p).
Definition patch_file (f : option string) (p : PointerPatch) : PointerPatch :=
  mkPatch (pp_activeConnectionId p) (pp_activeLocalTerminalTabId p) (pp_activeRdpSessionId p)
    (Some f) (pp_activeTabId p) (pp_activeVncSessionId p) (pp_homeActive p) (pp_mode p).
Definition patch_local (l : option string) (p : PointerPatch) : PointerPatch :=
  mkPatch (pp_activeConnectionId p) (Some l) (pp_activeRdpSessionId p)
    (pp_activeRemoteFileTabId p) (pp_activeTabId p) (pp_activeVncSessionId p) (pp_homeActive p)
    (pp_mode p).
Definition patch_mode (m : WorkspaceMode) (p : PointerPatch) : PointerPatch :=
  mkPatch (pp_activeConnectionId p) (pp_activeLocalTerminalTabId p) (pp_activeRdpSessionId p)
    (pp_activeRemoteFileTabId p) (pp_activeTabId p) (pp_activeVncSessionId p) (pp_homeActive p)
    (Some m).
Definition patch_home (h : bool) (p : PointerPatch) : PointerPatch :=
  mkPatch (pp_activeConnectionId p) (pp_activeLocalTerminalTabId p) (pp_activeRdpSessionId p)
    (pp_activeRemoteFileTabId p) (pp_activeTabId p) (pp_activeVncSessionId p) (Some h) (pp_mode p).

(** ** Follow-ups *)

Definition is_nil {A} (l : list A) : bool := match l with [] => true | _ => false end.

Definition workspaceEmpty (s : CloseSnapshot) : bool :=
  is_nil (cs_terminalTabs s) && is_nil (cs_remoteFileTabs s) && is_nil (cs_localTerminalTabs s) &&
  is_nil (cs_rdpSessions s) && is_nil (cs_vncSessions s).

Definition rdpFollowUp (session : option SessionRef) : option FollowUp :=
  (λ s, FuRdp (ref_connectionId s) (ref_id s)) <$> session.
Definition vncFollowUp (session : option SessionRef) : option FollowUp :=
  (λ s, FuVnc (ref_connectionId s) (ref_id s)) <$> session.
Definition terminalFollowUp (tab : option SessionRef) : option FollowUp :=
  (λ t, FuTerminal (ref_connectionId t) (ref_id t)) <$> tab.
Definition localFollowUp (tab : option string) : option FollowUp := FuLocal <$> tab.

Definition fallbackRdpVncLocal (s : CloseSnapshot) : option FollowUp :=
  rdpFollowUp (head (cs_rdpSessions s)) ?: vncFollowUp (head (cs_vncSessions s))
    ?: localFollowUp (head (cs_localTerminalTabs s)).

(** [list.find((tab) => tab.connectionId === connectionId)]. *)
Definition find_connection (connectionId : string) (l : list SessionRef) : option SessionRef :=
  js_find (λ r, ref_connectionId r = connectionId) l.

Definition opt_truthy_find {A} (key : option string) (find : string → option A) : option A :=
  match key with
  | Some k => if truthy key then find k else None
  | None => None
  end.

(** ** [decideTerminalClose] *)

Definition decideTerminalClose (pointers : SessionPointerState) (closingTabs : list SessionRef)
    (snapshot : CloseSnapshot) : CloseDecision :=
  let nextTabs := cs_terminalTabs snapshot in
  let files := cs_remoteFileTabs snapshot in
  let activeClosingTab :=
    opt_truthy_find (activeTabId pointers) (λ id, js_find (λ tab, ref_id tab = id) closingTabs) in
  let closingActiveConnectionTab :=
    activeClosingTab ?:
      opt_truthy_find (activeConnectionId pointers) (λ c, find_connection c closingTabs) in
  let patch := if workspaceEmpty snapshot then HOME_PATCH else empty_patch in
  match activeClosingTab with
  | Some tab =>
      let nextActiveTab := find_connection (ref_connectionId tab) nextTabs ?: head nextTabs in
      let nextActiveFile := find_connection (ref_connectionId tab) files ?: head files in
      let patch := patch_tab (ref_id <$> nextActiveTab) patch in
      let patch := patch_connection ((ref_connectionId <$> nextActiveTab)
        ?: (ref_connectionId <$> nextActiveFile)) patch in
      let patch :=
        match nextActiveFile, nextActiveTab with
        | Some file, None => patch_file (Some (ref_id file)) patch
        | _, _ => patch
        end in
      match nextActiveTab with
      | Some next => mkDecision None None patch (Some (ref_connectionId next, ref_id next))
      | None =>
          mkDecision (match nextActiveFile with Some _ => None | None => fallbackRdpVncLocal snapshot end)
            (Some [ref_connectionId tab]) patch None
      end
  | None =>
      match closingActiveConnectionTab with
      | Some tab =>
          if bool_decide (activeConnectionId pointers = Some (ref_connectionId tab)) &&
             negb (bool_decide (Exists (λ t, ref_connectionId t = ref_connectionId tab) nextTabs))
          then
            let nextActiveFile := find_connection (ref_connectionId tab) files ?: head files in
            let patch := patch_connection ((ref_connectionId <$> head nextTabs)
              ?: (ref_connectionId <$> nextActiveFile)) patch in
            mkDecision
              (match head nextTabs, nextActiveFile with
               | None, None => fallbackRdpVncLocal snapshot
               | _, _ => None
               end) (Some [ref_connectionId tab]) patch None
          else mkDecision None None patch None
      | None => mkDecision None None patch None
      end
  end.

(** ** [decideConnectionClose] *)

Inductive CloseVariant := VariantDelete | VariantSessions.

#[export] Instance CloseVariant_eq_dec : EqDecision CloseVariant.
Proof. solve_decision. Defined.

Definition decideConnectionClose (pointers : SessionPointerState)
    (closingConnectionIds : list string) (snapshot : CloseSnapshot) (variant : CloseVariant) :
    CloseDecision :=
  let not_closing := λ r, ref_connectionId r ∉ closingConnectionIds in
  let nextTabs := filter not_closing (cs_terminalTabs snapshot) in
  let files := cs_remoteFileTabs snapshot in
  let rdp := filter not_closing (cs_rdpSessions snapshot) in
  let vnc := filter not_closing (cs_vncSessions snapshot) in
  let local := cs_localTerminalTabs snapshot in
  let patch :=
    if is_nil nextTabs && is_nil files && is_nil local && is_nil rdp && is_nil vnc
    then HOME_PATCH else empty_patch in
  let active_closing :=
    match activeConnectionId pointers with
    | Some c => truthy (Some c) && bool_decide (c ∈ closingConnectionIds)
    | None => false
    end in
  if active_closing then
    let nextActiveTab := head nextTabs in
    let nextActiveFile :=
      match variant with
      | VariantSessions => js_find not_closing files ?: head files
      | VariantDelete => head files
      end in
    let patch := patch_tab (ref_id <$> nextActiveTab) patch in
    let patch := patch_connection ((ref_connectionId <$> nextActiveTab)
      ?: (ref_connectionId <$> nextActiveFile)) patch in
    match nextActiveFile, nextActiveTab, variant with
    | Some file, _, VariantSessions | Some file, None, _ =>
        mkDecision None None (patch_file (Some (ref_id file)) patch) None
    | _, None, _ =>
        mkDecision (rdpFollowUp (head rdp) ?: vncFollowUp (head vnc) ?: localFollowUp (head local))
          None patch None
    | _, Some _, _ => mkDecision None None patch None
    end
  else if bool_decide (variant = VariantDelete) &&
          negb (bool_decide (Exists (λ tab, Some (ref_id tab) = activeTabId pointers) nextTabs))
  then mkDecision None None (patch_tab (ref_id <$> head nextTabs) patch) None
  else mkDecision None None patch None.

(** ** [decideLocalClose] *)

Definition decideLocalClose (pointers : SessionPointerState) (closingIds : list string)
    (snapshot : CloseSnapshot) : CloseDecision :=
  let active_closed :=
    match activeLocalTerminalTabId pointers with
    | Some id => truthy (Some id) && bool_decide (id ∈ closingIds)
    | None => false
    end in
  if negb active_closed then mkDecision None None empty_patch None
  else
    let nextActive := head (cs_localTerminalTabs snapshot) in
    let patch := patch_local nextActive empty_patch in
    match nextActive with
    | Some _ => mkDecision None None patch None
    | None =>
        if workspaceEmpty snapshot
        then mkDecision None None (patch_mode ModeHome (patch_home true patch)) None
        else if negb (is_nil (cs_terminalTabs snapshot))
        then mkDecision None None (patch_mode ModeSsh patch) None
        else if negb (is_nil (cs_rdpSessions snapshot))
        then mkDecision (rdpFollowUp (head (cs_rdpSessions snapshot))) None patch None
        else if negb (is_nil (cs_vncSessions snapshot))
        then mkDecision (vncFollowUp (head (cs_vncSessions snapshot))) None patch None
        else mkDecision None None patch None
    end.

(** ** [decideRemoteDesktopRemove] *)

Inductive RemoteKind := RemoteRdp | RemoteVnc.

Definition remote_mode (k : RemoteKind) : WorkspaceMode :=
  match k with RemoteRdp => ModeRdp | RemoteVnc => ModeVnc end.

(** The computed key [[idKey]: value]. *)
Definition patch_remote (k : RemoteKind) (v : option string) (p : PointerPatch) : PointerPatch :=
  match k with
  | RemoteRdp =>
      mkPatch (pp_activeConnectionId p) (pp_activeLocalTerminalTabId p) (Some v)
        (pp_activeRemoteFileTabId p) (pp_activeTabId p) (pp_activeVncSessionId p) (pp_homeActive p)
        (pp_mode p)
  | RemoteVnc =>
      mkPatch (pp_activeConnectionId p) (pp_activeLocalTerminalTabId p) (pp_activeRdpSessionId p)
        (pp_activeRemoteFileTabId p) (pp_activeTabId p) (Some v) (pp_homeActive p) (pp_mode p)
  end.

Definition remote_active (k : RemoteKind) (pointers : SessionPointerState) : option string :=
  match k with
  | RemoteRdp => activeRdpSessionId pointers
  | RemoteVnc => activeVncSessionId pointers
  end.

Definition remote_sessions (k : RemoteKind) (snapshot : CloseSnapshot) : list SessionRef :=
  match k with RemoteRdp => cs_rdpSessions snapshot | RemoteVnc => cs_vncSessions snapshot end.

Definition remote_active_closed (kind : RemoteKind) (pointers : SessionPointerState)
    (closingIds : list string) : bool :=
  let activeId := remote_active kind pointers in
  if truthy activeId then bool_decide (default "" activeId ∈ closingIds)
  else bool_decide (mode pointers = remote_mode kind).

Definition decideRemoteDesktopRemove (kind : RemoteKind) (pointers : SessionPointerState)
    (closingIds : list string) (snapshot : CloseSnapshot) : CloseDecision :=
  if negb (remote_active_closed kind pointers closingIds)
  then mkDecision None None empty_patch None
  else
    let nextSessions := remote_sessions kind snapshot in
    let sameConnection :=
      opt_truthy_find (activeConnectionId pointers) (λ c, find_connection c nextSessions) in
    match sameConnection ?: head nextSessions with
    | Some nextSession =>
        mkDecision None None
          (patch_remote kind (Some (ref_id nextSession))
            (patch_connection (Some (ref_connectionId nextSession))
              (patch_home false (patch_mode (remote_mode kind) empty_patch)))) None
    | None =>
        let other :=
          match kind with
          | RemoteRdp => vncFollowUp (head (cs_vncSessions snapshot))
          | RemoteVnc => rdpFollowUp (head (cs_rdpSessions snapshot))
          end in
        let followUp :=
          other ?: terminalFollowUp (head (cs_terminalTabs snapshot))
            ?: localFollowUp (head (cs_localTerminalTabs snapshot)) in
        match followUp with
        | Some f => mkDecision (Some f) None (patch_remote kind None empty_patch) None
        | None => mkDecision None None (patch_remote kind None RETURN_HOME_PATCH) None
        end
    end.

Definition decideRdpRemove := decideRemoteDesktopRemove RemoteRdp.
Definition decideVncRemove := decideRemoteDesktopRemove RemoteVnc.

(** ** What a decision promises *)

Definition followup_live (s : CloseSnapshot) (f : FollowUp) : Prop :=
  match f with
  | FuLocal t => t ∈ cs_localTerminalTabs s
  | FuRdp c i => mkRef c i ∈ cs_rdpSessions s
  | FuTerminal c i => mkRef c i ∈ cs_terminalTabs s
  | FuVnc c i => mkRef c i ∈ cs_vncSessions s
  end.

(** The instance item a follow-up activates. *)
Definition followup_item (f : FollowUp) : string :=
  match f with
  | FuLocal t => instanceItemId KLocal t
  | FuRdp _ i => instanceItemId KRdp i
  | FuTerminal _ i => instanceItemId KSsh i
  | FuVnc _ i => instanceItemId KVnc i
  end.

Definition followup_connection (f : FollowUp) : option string :=
  match f with FuLocal _ => None | FuRdp c _ | FuTerminal c _ | FuVnc c _ => Some c end.

Lemma nullish_Some {A} (a b : option A) x : (a ?: b) = Some x ↔ a = Some x ∨ a = None ∧ b = Some x.
Proof. destruct a; simpl; naive_solver. Qed.

Lemma nullish_None {A} (a b : option A) : (a ?: b) = None ↔ a = None ∧ b = None.
Proof. destruct a; simpl; naive_solver. Qed.

Lemma rdpFollowUp_live s f : rdpFollowUp (head (cs_rdpSessions s)) = Some f → followup_live s f.
Proof. intros ([] & Hr%head_elem & ->)%fmap_Some. done. Qed.
Lemma vncFollowUp_live s f : vncFollowUp (head (cs_vncSessions s)) = Some f → followup_live s f.
Proof. intros ([] & Hr%head_elem & ->)%fmap_Some. done. Qed.
Lemma terminalFollowUp_live s f :
  terminalFollowUp (head (cs_terminalTabs s)) = Some f → followup_live s f.
Proof. intros ([] & Hr%head_elem & ->)%fmap_Some. done. Qed.
Lemma localFollowUp_live s f :
  localFollowUp (head (cs_localTerminalTabs s)) = Some f → followup_live s f.
Proof. intros (t & Hr%head_elem & ->)%fmap_Some. done. Qed.

#[export] Hint Resolve rdpFollowUp_live vncFollowUp_live terminalFollowUp_live localFollowUp_live : nexa.

Lemma fallbackRdpVncLocal_live s f : fallbackRdpVncLocal s = Some f → followup_live s f.
Proof.
  unfold fallbackRdpVncLocal. rewrite !nullish_Some. intros [[?|[_ ?]]|[_ ?]]; eauto with nexa.
Qed.

#[export] Hint Resolve fallbackRdpVncLocal_live : nexa.

Lemma fallbackRdpVncLocal_None s :
  fallbackRdpVncLocal s = None →
  cs_rdpSessions s = [] ∧ cs_vncSessions s = [] ∧ cs_localTerminalTabs s = [].
Proof.
  unfold fallbackRdpVncLocal, rdpFollowUp, vncFollowUp, localFollowUp.
  rewrite !nullish_None, !fmap_None, !head_None. tauto.
Qed.

Lemma is_nil_true {A} (l : list A) : is_nil l = true ↔ l = [].
Proof. by destruct l. Qed.

Lemma workspaceEmpty_true s :
  workspaceEmpty s = true ↔ cs_terminalTabs s = [] ∧ cs_remoteFileTabs s = [] ∧
    cs_localTerminalTabs s = [] ∧ cs_rdpSessions s = [] ∧ cs_vncSessions s = [].
Proof. unfold workspaceEmpty. rewrite !andb_true_iff, !is_nil_true. tauto. Qed.

(** The first of the same connection, else the first: [find(...) ?? list[0]]. *)
Definition prefer_connection (c : string) (l : list SessionRef) : option SessionRef :=
  find_connection c l ?: head l.

Lemma prefer_connection_Some c l r :
  prefer_connection c l = Some r →
  r ∈ l ∧ (Exists (λ t, ref_connectionId t = c) l → ref_connectionId r = c).
Proof.
  unfold prefer_connection, find_connection. rewrite nullish_Some.
  intros [[Hin Hr]%js_find_Some|[Hno Hr%head_elem]]; [done|]. split; [done|].
  rewrite Exists_exists. intros (t & Ht & Hc). rewrite js_find_None in Hno. by destruct (Hno t).
Qed.

Lemma prefer_connection_None c l : prefer_connection c l = None ↔ l = [].
Proof.
  unfold prefer_connection. rewrite nullish_None, head_None. split; [tauto|].
  intros ->. by split.
Qed.

Lemma opt_truthy_find_Some {A} key (find : string → option A) x :
  opt_truthy_find key find = Some x → ∃ k, key = Some k ∧ k ≠ "" ∧ find k = Some x.
Proof.
  unfold opt_truthy_find. destruct key as [k|]; [|done].
  destruct (truthy (Some k)) eqn:E; [|done]. apply truthy_Some in E. eauto.
Qed.

Lemma decideTerminalClose_live p closing s f :
  cd_followUp (decideTerminalClose p closing s) = Some f → followup_live s f.
Proof.
  unfold decideTerminalClose. cbv zeta.
  repeat (case_match; simpl); intros ?; simplify_eq; eauto with nexa.
Qed.

Lemma decideLocalClose_live p closing s f :
  cd_followUp (decideLocalClose p closing s) = Some f → followup_live s f.
Proof.
  unfold decideLocalClose. cbv zeta.
  repeat (case_match; simpl); intros ?; simplify_eq; eauto with nexa.
Qed.

Lemma decideRemoteDesktopRemove_live k p closing s f :
  cd_followUp (decideRemoteDesktopRemove k p closing s) = Some f → followup_live s f.
Proof.
  unfold decideRemoteDesktopRemove. cbv zeta.
  destruct (negb _); [done|]. destruct (_ ?: head _); [done|].
  destruct (_ ?: localFollowUp _) as [g|] eqn:E; [|done]. intros [= <-].
  apply nullish_Some in E as [[E|[_ E]]%nullish_Some|[_ E]]; [destruct k| |]; eauto with nexa.
Qed.

Lemma head_filter_elem {A} (P : A → Prop) `{∀ x, Decision (P x)} l x :
  head (filter P l) = Some x → P x ∧ x ∈ l.
Proof. by intros ?%head_elem%list_elem_of_filter. Qed.

(** After closing connections, the target is of a connection that stays. *)
Lemma decideConnectionClose_live p closing s v f :
  cd_followUp (decideConnectionClose p closing s v) = Some f →
  followup_live s f ∧ ∀ c, followup_connection f = Some c → c ∉ closing.
Proof.
  unfold decideConnectionClose. cbv zeta.
  repeat (case_match; simpl); try done; rewrite !nullish_Some; unfold rdpFollowUp, vncFollowUp;
    rewrite !fmap_Some;
    intros [[(r & [? ?]%head_filter_elem & ->)|(_ & r & [? ?]%head_filter_elem & ->)]|[_ ?]];
    try (destruct r; split; [done|by intros ? [= <-]]);
    (split; [by eapply localFollowUp_live|]);
    match goal with H : localFollowUp _ = _ |- _ => apply fmap_Some in H as (? & _ & ->) end; done.
Qed.
