(* ===== verification/SessionTabs.v ===== *)
(** * Session tab pointers ([features/workspace/sessionTabs/{actions,reducer,selectors}.ts],
      [useSessionTabsController.ts])

    The reducer over the active pointers, the per-connection memory tables and
    the order table of the top bar; the selectors; the effects of the controller
    (registration of new instances, file layout memory). *)

From S2P Require Import Prelude SplitLayout SessionTypes Instances CloseDecision.

(** ** State updates

    [set] returns the same object when the value does not change, which only
    matters to React; as values both branches are the update. *)

Definition initialSessionPointerState : SessionPointerState :=
  mkPointers None None None None ∅ None ∅ ViewWorkspace None None false ModeHome [].

Definition set_connection v s := mkPointers v (activeLocalTerminalTabId s) (activeRdpSessionId s)
  (activeRemoteFileTabId s) (activeTabByConnectionId s) (activeTabId s)
  (activeUnifiedTabByConnectionId s) (activeView s) (activeVncSessionId s) (followUp s)
  (homeActive s) (mode s) (order s).
Definition set_local v s := mkPointers (activeConnectionId s) v (activeRdpSessionId s)
  (activeRemoteFileTabId s) (activeTabByConnectionId s) (activeTabId s)
  (activeUnifiedTabByConnectionId s) (activeView s) (activeVncSessionId s) (followUp s)
  (homeActive s) (mode s) (order s).
Definition set_rdp v s := mkPointers (activeConnectionId s) (activeLocalTerminalTabId s) v
  (activeRemoteFileTabId s) (activeTabByConnectionId s) (activeTabId s)
  (activeUnifiedTabByConnectionId s) (activeView s) (activeVncSessionId s) (followUp s)
  (homeActive s) (mode s) (order s).
Definition set_file v s := mkPointers (activeConnectionId s) (activeLocalTerminalTabId s)
  (activeRdpSessionId s) v (activeTabByConnectionId s) (activeTabId s)
  (activeUnifiedTabByConnectionId s) (activeView s) (activeVncSessionId s) (followUp s)
  (homeActive s) (mode s) (order s).
Definition set_tab_memory v s := mkPointers (activeConnectionId s) (activeLocalTerminalTabId s)
  (activeRdpSessionId s) (activeRemoteFileTabId s) v (activeTabId s)
  (activeUnifiedTabByConnectionId s) (activeView s) (activeVncSessionId s) (followUp s)
  (homeActive s) (mode s) (order s).
Definition set_tab v s := mkPointers (activeConnectionId s) (activeLocalTerminalTabId s)
  (activeRdpSessionId s) (activeRemoteFileTabId s) (activeTabByConnectionId s) v
  (activeUnifiedTabByConnectionId s) (activeView s) (activeVncSessionId s) (followUp s)
  (homeActive s) (mode s) (order s).
Definition set_unified_memory v s := mkPointers (activeConnectionId s) (activeLocalTerminalTabId s)
  (activeRdpSessionId s) (activeRemoteFileTabId s) (activeTabByConnectionId s) (activeTabId s) v
  (activeView s) (activeVncSessionId s) (followUp s) (homeActive s) (mode s) (order s).
Definition set_view v s := mkPointers (activeConnectionId s) (activeLocalTerminalTabId s)
  (activeRdpSessionId s) (activeRemoteFileTabId s) (activeTabByConnectionId s) (activeTabId s)
  (activeUnifiedTabByConnectionId s) v (activeVncSessionId s) (followUp s) (homeActive s) (mode s)
  (order s).
Definition set_vnc v s := mkPointers (activeConnectionId s) (activeLocalTerminalTabId s)
  (activeRdpSessionId s) (activeRemoteFileTabId s) (activeTabByConnectionId s) (activeTabId s)
  (activeUnifiedTabByConnectionId s) (activeView s) v (followUp s) (homeActive s) (mode s) (order s).
Definition set_followUp v s := mkPointers (activeConnectionId s) (activeLocalTerminalTabId s)
  (activeRdpSessionId s) (activeRemoteFileTabId s) (activeTabByConnectionId s) (activeTabId s)
  (activeUnifiedTabByConnectionId s) (activeView s) (activeVncSessionId s) v (homeActive s) (mode s)
  (order s).
Definition set_home v s := mkPointers (activeConnectionId s) (activeLocalTerminalTabId s)
  (activeRdpSessionId s) (activeRemoteFileTabId s) (activeTabByConnectionId s) (activeTabId s)
  (activeUnifiedTabByConnectionId s) (activeView s) (activeVncSessionId s) (followUp s) v (mode s)
  (order s).
Definition set_mode v s := mkPointers (activeConnectionId s) (activeLocalTerminalTabId s)
  (activeRdpSessionId s) (activeRemoteFileTabId s) (activeTabByConnectionId s) (activeTabId s)
  (activeUnifiedTabByConnectionId s) (activeView s) (activeVncSessionId s) (followUp s)
  (homeActive s) v (order s).
Definition set_order v s := mkPointers (activeConnectionId s) (activeLocalTerminalTabId s)
  (activeRdpSessionId s) (activeRemoteFileTabId s) (activeTabByConnectionId s) (activeTabId s)
  (activeUnifiedTabByConnectionId s) (activeView s) (activeVncSessionId s) (followUp s)
  (homeActive s) (mode s) v.

Definition rememberActive (state : SessionPointerState) (connectionId tabId : string) :=
  set_tab_memory (<[connectionId := tabId]> (activeTabByConnectionId state)) state.

Definition rememberUnified (state : SessionPointerState) (connectionId : string)
    (tab : UnifiedWorkbenchTab) :=
  set_unified_memory (<[connectionId := tab]> (activeUnifiedTabByConnectionId state)) state.

Definition enterWorkspace (state : SessionPointerState) (m : WorkspaceMode) :=
  set_home false (set_mode m (set_view ViewWorkspace state)).

Definition forget_keys {V} (connectionIds : list string) (m : gmap string V) : gmap string V :=
  foldl (λ m id, delete id m) m connectionIds.

Definition forgetConnections (connectionIds : list string) (state : SessionPointerState) :=
  set_tab_memory (forget_keys connectionIds (activeTabByConnectionId state)) state.

(** ** Applying a decision *)

Definition apply_key {A} (f : A → SessionPointerState → SessionPointerState) (v : option A)
    (s : SessionPointerState) : SessionPointerState :=
  match v with Some x => f x s | None => s end.

Definition applyPatch (p : PointerPatch) (s : SessionPointerState) : SessionPointerState :=
  apply_key set_mode (pp_mode p)
  (apply_key set_home (pp_homeActive p)
  (apply_key set_vnc (pp_activeVncSessionId p)
  (apply_key set_tab (pp_activeTabId p)
  (apply_key set_file (pp_activeRemoteFileTabId p)
  (apply_key set_rdp (pp_activeRdpSessionId p)
  (apply_key set_local (pp_activeLocalTerminalTabId p)
  (apply_key set_connection (pp_activeConnectionId p) s))))))).

Definition applyDecision (state : SessionPointerState) (decision : CloseDecision) :
    SessionPointerState :=
  let next := applyPatch (cd_patch decision) state in
  let next :=
    match cd_remember decision with
    | Some (c, t) => rememberActive next c t
    | None => next
    end in
  let next :=
    match cd_forget decision with
    | Some ids => forgetConnections ids next
    | None => next
    end in
  set_followUp (cd_followUp decision) next.

Definition pruneOrder (state : SessionPointerState) (snapshot : CloseSnapshot)
    (closingConnectionIds : option (gset string)) : SessionPointerState :=
  let live := liveInstanceIds snapshot closingConnectionIds in
  set_order (filter (.∈ live) (order state)) state.

Definition applyClose (state : SessionPointerState) (decision : CloseDecision)
    (snapshot : CloseSnapshot) (closingConnectionIds : option (gset string)) :=
  pruneOrder (applyDecision state decision) snapshot closingConnectionIds.

(** ** Actions *)

Inductive SplitHost := HostSsh (connectionId : string) | HostLocal.

Inductive SessionTabsAction :=
  | ActivateTerminal (connectionId tabId : string) (remember_unified : bool)
  | ActivateLocal (tabId : string)
  | ActivateRdp (connectionId sessionId : string)
  | ActivateVnc (connectionId sessionId : string)
  | ActivateFile (connectionId fileTabId : string) (remember_unified : bool)
      (terminalTabId : option string)
  | ActivateSplitHost (host : SplitHost)
  | FocusPaneBinding (binding : TerminalPaneBinding)
  | StartConnecting (connectionId tabId : string)
  | OpenSettings
  | CloseSettings
  | ClearActiveFile
  | CloseTerminals (closingTabs : list SessionRef) (snapshot : CloseSnapshot)
  | CloseConnections (connectionIds : list string) (snapshot : CloseSnapshot) (v : CloseVariant)
  | CloseLocalTerminals (closingIds : list string) (snapshot : CloseSnapshot)
  | RemoveRdp (closingIds : list string) (snapshot : CloseSnapshot)
  | RemoveVnc (closingIds : list string) (snapshot : CloseSnapshot)
  | ItemOpened (itemId : string)
  | ConsumeFollowUp
  | GoHome
  | ReturnHomeIfEmpty (local rdp ssh vnc : nat)
  | FallbackHomeKeepPointers
  | RememberActive (connectionId tabId : string)
  | ForgetConnections (connectionIds : list string)
  | RememberUnified (connectionId : string) (tab : UnifiedWorkbenchTab)
  | ForgetUnified (connectionIds : list string)
  | NormalizeUnified (fileTabs terminalTabs : list SessionRef)
  | SetActiveRemoteFileTabId (value : option string).

(** ** [tabs/normalizeUnified]: one entry of the memory table *)

Definition normalize_entry (fileTabs terminalTabs : list SessionRef) (connectionId : string)
    (activeTab : UnifiedWorkbenchTab) : option UnifiedWorkbenchTab :=
  let same := λ tab, ref_connectionId tab = connectionId ∧ ref_id tab = uw_id activeTab in
  let terminalTab := js_find same terminalTabs in
  let fileTab := js_find same fileTabs in
  if (bool_decide (uw_kind activeTab = WbTerminal) && bool_decide (is_Some terminalTab)) ||
     (bool_decide (uw_kind activeTab = WbFile) && bool_decide (is_Some fileTab))
  then Some activeTab
  else
    match find_connection connectionId fileTabs with
    | Some file => Some (mkUnified (ref_id file) WbFile)
    | None =>
        (λ tab, mkUnified (ref_id tab) WbTerminal) <$> find_connection connectionId terminalTabs
    end.

(** ** The reducer *)

Definition sessionPointerReducer (state : SessionPointerState) (action : SessionTabsAction) :
    SessionPointerState :=
  match action with
  | ActivateTerminal connectionId tabId remember_unified =>
      let next := set_tab (Some tabId) (set_connection (Some connectionId)
        (enterWorkspace state ModeSsh)) in
      let next := rememberActive next connectionId tabId in
      if remember_unified then rememberUnified next connectionId (mkUnified tabId WbTerminal)
      else next
  | ActivateLocal tabId => set_local (Some tabId) (enterWorkspace state ModeLocal)
  | ActivateRdp connectionId sessionId =>
      set_rdp (Some sessionId) (set_connection (Some connectionId) (enterWorkspace state ModeRdp))
  | ActivateVnc connectionId sessionId =>
      set_vnc (Some sessionId) (set_connection (Some connectionId) (enterWorkspace state ModeVnc))
  | ActivateFile connectionId fileTabId remember_unified terminalTabId =>
      let next := set_file (Some fileTabId) (set_connection (Some connectionId)
        (set_mode ModeSsh (set_home false state))) in
      let next :=
        if remember_unified then rememberUnified next connectionId (mkUnified fileTabId WbFile)
        else next in
      match terminalTabId with
      | Some t =>
          if truthy (Some t) then rememberActive (set_tab (Some t) next) connectionId t else next
      | None => next
      end
  | ActivateSplitHost (HostSsh connectionId) =>
      set_connection (Some connectionId) (enterWorkspace state ModeSsh)
  | ActivateSplitHost HostLocal => enterWorkspace state ModeLocal
  | FocusPaneBinding binding =>
      match binding_kind binding with
      | PaneSsh => set_tab (Some (binding_tabId binding)) state
      | PaneLocal => set_local (Some (binding_tabId binding)) state
      end
  | StartConnecting connectionId tabId =>
      rememberActive (set_tab (Some tabId) (set_connection (Some connectionId)
        (set_home false (set_mode ModeSsh state)))) connectionId tabId
  | OpenSettings => set_view ViewSettings state
  | CloseSettings => set_view ViewWorkspace state
  | ClearActiveFile => set_file None state
  | CloseTerminals closingTabs snapshot =>
      applyClose state (decideTerminalClose state closingTabs snapshot) snapshot None
  | CloseConnections connectionIds snapshot v =>
      applyClose state (decideConnectionClose state connectionIds snapshot v) snapshot
        (Some (list_to_set connectionIds))
  | CloseLocalTerminals closingIds snapshot =>
      applyClose state (decideLocalClose state closingIds snapshot) snapshot None
  | RemoveRdp closingIds snapshot =>
      applyClose state (decideRdpRemove state closingIds snapshot) snapshot None
  | RemoveVnc closingIds snapshot =>
      applyClose state (decideVncRemove state closingIds snapshot) snapshot None
  | ItemOpened itemId =>
      if decide (itemId ∈ order state) then state else set_order (order state ++ [itemId]) state
  | ConsumeFollowUp => set_followUp None state
  | GoHome => set_home true (set_mode ModeHome (set_view ViewWorkspace state))
  | ReturnHomeIfEmpty local rdp ssh vnc =>
      if negb ((ssh =? 0) && (local =? 0) && (rdp =? 0) && (vnc =? 0)) then state
      else set_home true (set_mode ModeHome (set_local None (set_vnc None (set_rdp None
        (set_tab None (set_connection None state))))))
  | FallbackHomeKeepPointers => set_home true (set_mode ModeHome (set_connection None state))
  | RememberActive connectionId tabId => rememberActive state connectionId tabId
  | ForgetConnections connectionIds => forgetConnections connectionIds state
  | RememberUnified connectionId tab => rememberUnified state connectionId tab
  | ForgetUnified connectionIds =>
      set_unified_memory (forget_keys connectionIds (activeUnifiedTabByConnectionId state)) state
  | NormalizeUnified fileTabs terminalTabs =>
      set_unified_memory (map_imap (normalize_entry fileTabs terminalTabs)
        (activeUnifiedTabByConnectionId state)) state
  | SetActiveRemoteFileTabId value => set_file value state
  end.

(** ** Selectors *)

(** [groupByConnection]: a [Map] in insertion order; each group keeps the item order. *)
Definition groupByConnection {T} `{HasConnection T} (items : list T) : jsmap (list T) :=
  foldl (λ groups item,
    jsmap_set (item_connection item)
      (default [] (jsmap_get (item_connection item) groups) ++ [item]) groups) [] items.

Definition selectActiveSession {T} `{HasId T, HasConnection T} (sessions : list T)
    (sessionsByConnection : jsmap (list T)) (activeSessionId activeConnectionId : option string) :
    option T :=
  let byId := opt_truthy_find activeSessionId (λ id,
    js_find (λ session, item_id session = id ∧
      (truthy activeConnectionId = false ∨
       Some (item_connection session) = activeConnectionId)) sessions) in
  match byId with
  | Some session => Some session
  | None =>
      head (default [] (opt_truthy_find activeConnectionId
        (λ c, jsmap_get c sessionsByConnection)))
  end.

Definition selectActiveTerminalTab {T} `{HasId T} (tabs : list T) (activeTabId : option string) :
    option T :=
  opt_truthy_find activeTabId (λ id, js_find (λ tab, item_id tab = id) tabs).

Definition selectActiveConnectedTerminalTab (activeTab : option TerminalTab) : option TerminalTab :=
  match activeTab with
  | Some tab =>
      if bool_decide (tt_type tab = TabTerminal) && truthy (tt_sessionId tab) then Some tab else None
  | None => None
  end.

Definition selectActiveTerminalSplitBinding (m : WorkspaceMode)
    (activeTerminalTab activeLocalTerminalTab : option string) : option TerminalPaneBinding :=
  match m, activeTerminalTab, activeLocalTerminalTab with
  | ModeLocal, _, Some t => Some (mkBinding PaneLocal t)
  | ModeSsh, Some t, _ => Some (mkBinding PaneSsh t)
  | _, _, _ => None
  end.

(** ** Effects of the controller *)

(** The follow-up effect: the pending target is consumed and handed over once. *)
Definition followUp_effect (state : SessionPointerState) : SessionPointerState * option FollowUp :=
  match followUp state with
  | Some f => (sessionPointerReducer state ConsumeFollowUp, Some f)
  | None => (state, None)
  end.

(** Registration of the instances that the order table lacks. *)
Definition registration_effect (collections : InstanceCollections) (state : SessionPointerState) :
    SessionPointerState :=
  foldl (λ st itemId, sessionPointerReducer st (ItemOpened itemId)) state
    (unregisteredInstanceIds collections (order state)).

(** The file layout memory: [liveConnectionIds] are the connections with a
    terminal or a file tab, [fileConnectionIds] those with a file tab. *)
Inductive RemoteFileOpenMode := OpenSplit | OpenUnified.

Definition normalizeFileLayouts (defaultMode : RemoteFileOpenMode)
    (terminalConnections fileConnections : list string) (layouts : gmap string RemoteFileOpenMode) :
    gmap string RemoteFileOpenMode :=
  let live := terminalConnections ++ fileConnections in
  let nextLayouts := filter (λ e, e.1 ∈ live) layouts in
  foldl (λ m connectionId,
    match m !! connectionId with
    | Some _ => m
    | None => <[connectionId := defaultMode]> m
    end) nextLayouts fileConnections.

Lemma normalizeFileLayouts_lookup d terms files layouts c :
  normalizeFileLayouts d terms files layouts !! c =
    if decide (c ∈ files) then Some (default d (layouts !! c))
    else if decide (c ∈ terms) then layouts !! c else None.
Proof.
  unfold normalizeFileLayouts. cbv zeta.
  set (base := filter _ layouts).
  assert (∀ (l : list string) m, foldl (λ m connectionId, match m !! connectionId with
      | Some _ => m | None => <[connectionId := d]> m end) m l !! c =
    if decide (c ∈ l) then Some (default d (m !! c)) else m !! c) as ->.
  { induction l as [|x l IH]; intros m; simpl; [done|].
    rewrite IH. destruct (decide (c = x)) as [->|Hne].
    - rewrite (decide_True _ _ (list_elem_of_here x l)).
      case_decide; destruct (m !! x) eqn:E; simpl; rewrite ?E, ?lookup_insert_eq; done.
    - destruct (decide (c ∈ l)) as [Hin|Hin].
      + rewrite decide_True by by right. destruct (m !! x); [done|]. by rewrite lookup_insert_ne.
      + rewrite decide_False by (rewrite elem_of_cons; tauto).
        destruct (m !! x); [done|]. by rewrite lookup_insert_ne. }
  assert (base !! c = if decide (c ∈ terms ++ files) then layouts !! c else None) as ->.
  { unfold base. rewrite map_lookup_filter.
    destruct (layouts !! c) as [v|]; simpl; [|by destruct (decide _)].
    case_guard; simpl in *; by repeat case_decide. }
  repeat case_decide; rewrite ?elem_of_app in *; tauto || done.
Qed.

(** ** The order table: lemmas *)

Lemma applyPatch_order p s : order (applyPatch p s) = order s.
Proof. destruct p as [[] [] [] [] [] [] [] []]; reflexivity. Qed.

Lemma applyDecision_order s d : order (applyDecision s d) = order s.
Proof. unfold applyDecision. destruct d as [? [?|] ? [[]|]]; simpl; by rewrite applyPatch_order. Qed.

Lemma applyClose_order s d snap closing :
  order (applyClose s d snap closing) = filter (.∈ liveInstanceIds snap closing) (order s).
Proof. unfold applyClose, pruneOrder, set_order. cbn [order]. by rewrite applyDecision_order. Qed.

Lemma applyClose_followUp s d snap closing :
  followUp (applyClose s d snap closing) = cd_followUp d.
Proof. done. Qed.

(** The close actions, with their snapshot and the connections they close. *)
Definition close_action (a : SessionTabsAction) : option (CloseSnapshot * list string) :=
  match a with
  | CloseTerminals _ s | CloseLocalTerminals _ s | RemoveRdp _ s | RemoveVnc _ s => Some (s, [])
  | CloseConnections ids s _ => Some (s, ids)
  | _ => None
  end.

(** How an action changes the order table. *)
Lemma reducer_order s a :
  order (sessionPointerReducer s a) =
    match a with
    | ItemOpened id => if decide (id ∈ order s) then order s else order s ++ [id]
    | _ =>
        match close_action a with
        | Some (snap, ids) =>
            filter (.∈ liveInstanceIds snap
              (match a with CloseConnections _ _ _ => Some (list_to_set ids) | _ => None end)) (order s)
        | None => order s
        end
    end.
Proof.
  destruct a; cbn [sessionPointerReducer close_action]; rewrite ?applyClose_order; try done.
  - by destruct remember_unified.
  - destruct terminalTabId as [t|]; [destruct (truthy (Some t))|]; by destruct remember_unified.
  - by destruct host.
  - by destruct (binding_kind binding).
  - by destruct (decide _).
  - by destruct (negb _).
Qed.

Definition run (actions : list SessionTabsAction) : SessionPointerState :=
  foldl sessionPointerReducer initialSessionPointerState actions.

Lemma run_snoc actions a : run (actions ++ [a]) = sessionPointerReducer (run actions) a.
Proof. unfold run. by rewrite foldl_snoc. Qed.

Lemma liveInstanceIds_nil snap :
  liveInstanceIds snap (Some (list_to_set [])) = liveInstanceIds snap None.
Proof.
  unfold liveInstanceIds. cbv zeta.
  assert (∀ l : list SessionRef, filter (λ r, kept (Some (list_to_set [])) (ref_connectionId r)) l =
    filter (λ r, kept None (ref_connectionId r)) l) as Heq.
  { intros l. apply list_filter_ext_in. intros x _. unfold kept. set_solver. }
  by rewrite !Heq.
Qed.

Lemma run_order acts :
  NoDup (order (run acts)) ∧ ∀ id, id ∈ order (run acts) → ItemOpened id ∈ acts.
Proof.
  induction acts as [|b acts [IH1 IH2]] using rev_ind.
  { split; [constructor|by intros ? ?%not_elem_of_nil]. }
  rewrite run_snoc, reducer_order.
  assert (∀ snap c id, id ∈ filter (.∈ liveInstanceIds snap c) (order (run acts)) →
    ItemOpened id ∈ acts ++ [b]) as Hf.
  { intros snap c id [_ ?%IH2]%list_elem_of_filter. apply elem_of_app. by left. }
  destruct b; cbn [close_action];
    try (split; [by apply NoDup_filter|by intros; eapply Hf]);
    try (split; [done|intros id ?%IH2; apply elem_of_app; by left]).
  case_decide; [split; [done|intros id ?%IH2; apply elem_of_app; by left]|].
  split.
  - apply NoDup_app. split_and!; [done|set_solver|apply NoDup_singleton].
  - intros id [?%IH2| ->%list_elem_of_singleton]%elem_of_app; apply elem_of_app; [by left|right; left].
Qed.

(** C5: at every point of every session the order table has no duplicates, holds
    only ids that were registered, and right after a close it holds only instances
    that survived the close. *)
Theorem order_table_invariant actions a :
  let before := run actions in
  let after := run (actions ++ [a]) in
  NoDup (order after) ∧
  (∀ id, id ∈ order after → ItemOpened id ∈ actions ++ [a]) ∧
  match close_action a with
  | Some (snap, ids) =>
      order after `sublist_of` order before ∧
      ∀ id, id ∈ order after ↔ id ∈ order before ∧ id ∈ liveInstanceIds snap (Some (list_to_set ids))
  | None => order before `prefix_of` order after
  end.
Proof.
  cbv zeta. split_and!; [apply run_order|apply run_order|]. rewrite run_snoc, reducer_order.
  destruct a; cbn [close_action]; try done;
    try (rewrite ?liveInstanceIds_nil;
      split; [apply sublist_filter|intros; rewrite list_elem_of_filter; tauto]).
  case_decide; [done|]. by eexists.
Qed.

(** ** Closing: what becomes active *)

Definition snapshot_items (snap : CloseSnapshot) (closing : list string) : gset string :=
  liveInstanceIds snap (Some (list_to_set closing)).

Lemma followup_live_item snap ids f :
  followup_live snap f → (∀ c, followup_connection f = Some c → c ∉ ids) →
  followup_item f ∈ snapshot_items snap ids.
Proof.
  unfold snapshot_items. rewrite elem_of_liveInstanceIds. unfold kept.
  intros Hf Hc. destruct f as [t|c i|c i|c i]; simpl in *.
  1: right; left; eauto.
  1: right; right; left. 2: left. 3: right; right; right.
  all: eexists; split_and!; [exact Hf| |done]; rewrite elem_of_list_to_set; by apply Hc.
Qed.

(** C6: a follow-up activation written by any close action names a session that
    survives the close (of a connection that is not being closed), its item stays
    displayable, and the controller hands it to the shell exactly once. *)
Theorem close_followup_live st a snap ids f :
  close_action a = Some (snap, ids) →
  followUp (sessionPointerReducer st a) = Some f →
  followup_live snap f ∧ followup_item f ∈ snapshot_items snap ids ∧
  ∃ st', followUp_effect (sessionPointerReducer st a) = (st', Some f) ∧
    followUp_effect st' = (st', None).
Proof.
  intros Ha Hf.
  assert (followup_live snap f ∧ ∀ c, followup_connection f = Some c → c ∉ ids) as [Hl Hc].
  { destruct a; simplify_eq/=; try (split; [|intros; apply not_elem_of_nil]).
    - by eapply decideTerminalClose_live.
    - by eapply decideConnectionClose_live.
    - by eapply decideLocalClose_live.
    - by eapply decideRemoteDesktopRemove_live.
    - by eapply decideRemoteDesktopRemove_live. }
  split_and!; [done|by apply followup_live_item|].
  unfold followUp_effect. rewrite Hf. by eexists.
Qed.

Definition tabs_snapshot : CloseSnapshot :=
  mkSnapshot ["l1"] [mkRef "c2" "r1"] [] [] [].
Definition tabs_state : SessionPointerState :=
  run [ItemOpened "ssh:a"; ItemOpened "local:l1"; ItemOpened "rdp:r1"; ActivateTerminal "c1" "a" true].

Lemma close_followup_live_witness :
  let a := CloseTerminals [mkRef "c1" "a"] tabs_snapshot in
  followUp (sessionPointerReducer tabs_state a) = Some (FuRdp "c2" "r1") ∧
  followup_live tabs_snapshot (FuRdp "c2" "r1").
Proof.
  cbv zeta. split; [vm_compute; reflexivity|].
  apply (close_followup_live tabs_state (CloseTerminals [mkRef "c1" "a"] tabs_snapshot)
    tabs_snapshot [] (FuRdp "c2" "r1")); vm_compute; reflexivity.
Defined.

(** The active pointers, for the statements below. *)
Definition at_home (st : SessionPointerState) : Prop :=
  mode st = ModeHome ∧ homeActive st = true ∧ activeConnectionId st = None ∧ activeTabId st = None.

Lemma js_find_ids (l : list SessionRef) id r :
  js_find (λ tab, ref_id tab = id) l = Some r → r ∈ l ∧ ref_id r = id.
Proof. apply (js_find_Some (λ tab, ref_id tab = id)). Qed.

(** Closing the active terminal never strands the user. The next active
    terminal is one of the same connection if one is left, else the first one, and
    it is remembered for its connection; with no terminal left a file tab (again of
    the same connection first) is activated and the connection is forgotten; with
    neither, a live remote desktop or local terminal is activated; and the home
    page is entered when nothing at all is left, and only then. *)
Theorem terminal_close_next st closing snap tab :
  tab ∈ closing → ref_id tab ≠ "" → activeTabId st = Some (ref_id tab) →
  NoDup (ref_id <$> closing) →
  let st' := sessionPointerReducer st (CloseTerminals closing snap) in
  let c := ref_connectionId tab in
  (∃ next, prefer_connection c (cs_terminalTabs snap) = Some next ∧
     activeTabId st' = Some (ref_id next) ∧ activeConnectionId st' = Some (ref_connectionId next) ∧
     activeTabByConnectionId st' !! ref_connectionId next = Some (ref_id next) ∧
     mode st' = mode st ∧ followUp st' = None) ∨
  (∃ file, cs_terminalTabs snap = [] ∧ prefer_connection c (cs_remoteFileTabs snap) = Some file ∧
     activeTabId st' = None ∧ activeRemoteFileTabId st' = Some (ref_id file) ∧
     activeConnectionId st' = Some (ref_connectionId file) ∧
     activeTabByConnectionId st' !! c = None ∧ mode st' = mode st ∧ followUp st' = None) ∨
  (cs_terminalTabs snap = [] ∧ cs_remoteFileTabs snap = [] ∧
     activeTabByConnectionId st' !! c = None ∧
     if workspaceEmpty snap then at_home st' ∧ followUp st' = None
     else activeTabId st' = None ∧ mode st' = mode st ∧
       ∃ f, followUp st' = Some f ∧ followup_live snap f).
Proof.
  intros Hin Hne Hact Hnd. cbv zeta. cbn [sessionPointerReducer].
  unfold decideTerminalClose. cbv zeta. rewrite Hact.
  assert (opt_truthy_find (Some (ref_id tab)) (λ id, js_find (λ t, ref_id t = id) closing) = Some tab)
    as ->.
  { unfold opt_truthy_find. apply truthy_Some in Hne as ->.
    destruct (js_find_is_Some (λ t, ref_id t = ref_id tab) closing tab Hin eq_refl) as [t Ht].
    rewrite Ht. apply js_find_ids in Ht as [Ht Heq].
    by rewrite (NoDup_fmap_inj_elem ref_id closing t tab). }
  change (find_connection ?c ?l ?: head ?l) with (prefer_connection c l).
  destruct (prefer_connection _ (cs_terminalTabs snap)) as [next|] eqn:Hn.
  - left. exists next.
    assert (workspaceEmpty snap = false) as ->.
    { apply not_true_iff_false. rewrite workspaceEmpty_true. intros [Hnil _].
      apply prefer_connection_None with (c := ref_connectionId tab) in Hnil. congruence. }
    destruct (prefer_connection _ (cs_remoteFileTabs snap)); split_and!; try done;
      apply lookup_insert_eq.
  - apply prefer_connection_None in Hn as Hnil. right.
    destruct (prefer_connection _ (cs_remoteFileTabs snap)) as [file|] eqn:Hf.
    + left. exists file. assert (workspaceEmpty snap = false) as ->.
      { apply not_true_iff_false. rewrite workspaceEmpty_true. intros (_ & Hfn & _).
        apply prefer_connection_None with (c := ref_connectionId tab) in Hfn. congruence. }
      split_and!; try done. apply lookup_delete_eq.
    + apply prefer_connection_None in Hf as Hfnil. right.
      destruct (workspaceEmpty snap) eqn:Hw.
      * apply workspaceEmpty_true in Hw as (_ & _ & Hl & Hr & Hv).
        split_and!; try done; [apply lookup_delete_eq|].
        unfold fallbackRdpVncLocal. by rewrite Hl, Hr, Hv.
      * split_and!; try done; [apply lookup_delete_eq|].
        destruct (fallbackRdpVncLocal snap) as [f|] eqn:Hfb.
        -- exists f. split; [done|]. eauto with nexa.
        -- apply fallbackRdpVncLocal_None in Hfb as (? & ? & ?).
           apply not_true_iff_false in Hw. destruct Hw. by apply workspaceEmpty_true.
Qed.

Lemma terminal_close_next_witness :
  let st' := sessionPointerReducer tabs_state (CloseTerminals [mkRef "c1" "a"] tabs_snapshot) in
  activeTabId st' = None ∧ followUp st' = Some (FuRdp "c2" "r1").
Proof.
  pose proof (terminal_close_next tabs_state [mkRef "c1" "a"] tabs_snapshot (mkRef "c1" "a")
    ltac:(vm_decide) ltac:(vm_decide) ltac:(vm_compute; reflexivity) ltac:(vm_decide)) as H.
  vm_compute in H |- *. by destruct H as [(? & ? & _)|[(? & _ & ? & _)|(_ & _ & _ & ? & _ & f & ? & _)]].
Defined.

(** The sessions of a snapshot that stay when the connections [ids] are closed. *)
Definition staying (ids : list string) (l : list SessionRef) : list SessionRef :=
  filter (λ r, ref_connectionId r ∉ ids) l.

Lemma head_is_nil {A} (l : list A) x : head l = Some x → is_nil l = false.
Proof. by destruct l. Qed.

Lemma js_find_staying ids l : js_find (λ r, ref_connectionId r ∉ ids) l = head (staying ids l).
Proof.
  unfold js_find, staying. induction l as [|x l IH]; [done|]. simpl.
  rewrite filter_cons. case_decide; [done|]. rewrite <- IH. by destruct (list_find _ l) as [[]|].
Qed.

(** Closing (or deleting) the connections that include the active one moves
    to a terminal of a remaining connection, else to a file tab (on a plain close
    one of a remaining connection is preferred), else to a live remote desktop of a
    remaining connection or a local terminal, else home. *)
Theorem connection_close_next st ids snap v c :
  activeConnectionId st = Some c → c ≠ "" → c ∈ ids →
  let st' := sessionPointerReducer st (CloseConnections ids snap v) in
  let terminals := staying ids (cs_terminalTabs snap) in
  let file := match v with
    | VariantSessions => head (staying ids (cs_remoteFileTabs snap)) ?: head (cs_remoteFileTabs snap)
    | VariantDelete => head (cs_remoteFileTabs snap)
    end in
  match head terminals, file with
  | Some next, _ =>
      activeTabId st' = Some (ref_id next) ∧ activeConnectionId st' = Some (ref_connectionId next) ∧
      (ref_connectionId next ∉ ids) ∧ mode st' = mode st ∧ followUp st' = None
  | None, Some f =>
      activeTabId st' = None ∧ activeConnectionId st' = Some (ref_connectionId f) ∧
      activeRemoteFileTabId st' = Some (ref_id f) ∧ mode st' = mode st ∧ followUp st' = None
  | None, None =>
      if is_nil (staying ids (cs_rdpSessions snap)) && is_nil (staying ids (cs_vncSessions snap)) &&
         is_nil (cs_localTerminalTabs snap)
      then at_home st' ∧ followUp st' = None
      else activeTabId st' = None ∧ mode st' = mode st ∧
        ∃ f, followUp st' = Some f ∧ followup_item f ∈ snapshot_items snap ids
  end.
Proof.
  intros Hact Hne Hc. cbv zeta. cbn [sessionPointerReducer].
  pose proof (decideConnectionClose_live st ids snap v) as Hlive. revert Hlive.
  unfold decideConnectionClose. cbv zeta. rewrite Hact.
  apply truthy_Some in Hne as ->. rewrite bool_decide_eq_true_2 by done. cbn [andb].
  fold (staying ids (cs_terminalTabs snap)) (staying ids (cs_rdpSessions snap))
    (staying ids (cs_vncSessions snap)).
  rewrite (js_find_staying ids).
  set (file := match v with VariantSessions => _ | VariantDelete => _ end).
  assert (file = None ↔ cs_remoteFileTabs snap = []) as Hfile.
  { unfold file. destruct v; rewrite ?nullish_None, !head_None; [done|].
    split; [tauto|]. intros ->. done. }
  destruct (head (staying ids (cs_terminalTabs snap))) as [next|] eqn:Ht.
  - intros _. assert (ref_connectionId next ∉ ids) by (by apply head_filter_elem in Ht as [? _]).
    rewrite (head_is_nil _ _ Ht). cbn [andb].
    destruct file, v; split_and!; done.
  - apply head_None in Ht as ->. cbn [is_nil andb]. destruct file as [f|].
    + intros _. assert (is_nil (cs_remoteFileTabs snap) = false) as ->.
      { destruct (cs_remoteFileTabs snap); [|done]. discriminate (proj2 Hfile eq_refl). }
      destruct v; split_and!; done.
    + rewrite (proj1 Hfile eq_refl). cbn [is_nil andb].
      assert (is_nil (cs_localTerminalTabs snap) && is_nil (staying ids (cs_rdpSessions snap)) &&
        is_nil (staying ids (cs_vncSessions snap)) =
        is_nil (staying ids (cs_rdpSessions snap)) && is_nil (staying ids (cs_vncSessions snap)) &&
        is_nil (cs_localTerminalTabs snap)) as -> by (by rewrite <- andb_assoc, andb_comm).
      set (fu := rdpFollowUp _ ?: _ ?: _).
      assert (fu = None ↔ is_nil (staying ids (cs_rdpSessions snap)) &&
        is_nil (staying ids (cs_vncSessions snap)) && is_nil (cs_localTerminalTabs snap) = true) as Hfu.
      { unfold fu, rdpFollowUp, vncFollowUp, localFollowUp.
        rewrite !nullish_None, !fmap_None, !head_None, !andb_true_iff, !is_nil_true. done. }
      destruct (_ && is_nil (cs_localTerminalTabs snap)).
      * intros _. by rewrite (proj2 Hfu eq_refl); destruct v.
      * destruct fu as [f|]; [|discriminate (proj1 Hfu eq_refl)].
        intros Hlive. assert (followup_item f ∈ snapshot_items snap ids).
        { apply followup_live_item; apply Hlive; by destruct v. }
        destruct v; split_and!; eauto.
Qed.

Definition connection_snapshot : CloseSnapshot :=
  mkSnapshot [] [mkRef "c1" "r1"; mkRef "c2" "r2"] [] [mkRef "c1" "a"] [].

Lemma connection_close_next_witness :
  let st' := sessionPointerReducer tabs_state
    (CloseConnections ["c1"] connection_snapshot VariantSessions) in
  activeTabId st' = None ∧ mode st' = ModeSsh ∧
  ∃ f, followUp st' = Some f ∧ followup_item f ∈ snapshot_items connection_snapshot ["c1"].
Proof.
  exact (connection_close_next tabs_state ["c1"] connection_snapshot VariantSessions "c1"
    eq_refl ltac:(discriminate) ltac:(vm_decide)).
Defined.

Definition remote_action (k : RemoteKind) (ids : list string) (snap : CloseSnapshot) :
    SessionTabsAction :=
  match k with RemoteRdp => RemoveRdp ids snap | RemoteVnc => RemoveVnc ids snap end.

(** [set_order] with the pruned table: the pointers an untouched close leaves. *)
Definition pruned (snap : CloseSnapshot) (st : SessionPointerState) : SessionPointerState :=
  set_followUp None (pruneOrder st snap None).

(** Removing remote desktops. When the active one of that kind is not removed
    nothing but the order table changes. Otherwise a session of the same kind is
    selected (of the active connection first) and its mode entered; with none left
    a live session of another kind is handed over and the pointer cleared; and with
    no session at all the home page is entered with all five pointers cleared. *)
Theorem remote_remove_next k st ids snap :
  let st' := sessionPointerReducer st (remote_action k ids snap) in
  let same := opt_truthy_find (activeConnectionId st)
    (λ c, find_connection c (remote_sessions k snap)) in
  if remote_active_closed k st ids then
    match same ?: head (remote_sessions k snap) with
    | Some s =>
        s ∈ remote_sessions k snap ∧ remote_active k st' = Some (ref_id s) ∧
        activeConnectionId st' = Some (ref_connectionId s) ∧ mode st' = remote_mode k ∧
        homeActive st' = false ∧ followUp st' = None
    | None =>
        remote_active k st' = None ∧
        match followUp st' with
        | Some f => followup_live snap f ∧ mode st' = mode st
        | None =>
            cs_rdpSessions snap = [] ∧ cs_vncSessions snap = [] ∧ cs_terminalTabs snap = [] ∧
            cs_localTerminalTabs snap = [] ∧ at_home st' ∧
            activeRdpSessionId st' = None ∧ activeVncSessionId st' = None ∧
            activeLocalTerminalTabId st' = None
        end
    end
  else st' = pruned snap st.
Proof.
  cbv zeta.
  assert (sessionPointerReducer st (remote_action k ids snap) =
    applyClose st (decideRemoteDesktopRemove k st ids snap) snap None) as -> by (by destruct k).
  pose proof (decideRemoteDesktopRemove_live k st ids snap) as Hlive. revert Hlive.
  unfold decideRemoteDesktopRemove. cbv zeta.
  destruct (remote_active_closed k st ids); cbn [negb]; [|by intros _].
  set (same := opt_truthy_find _ _).
  destruct (same ?: head (remote_sessions k snap)) as [s|] eqn:Hs.
  - intros _. assert (s ∈ remote_sessions k snap).
    { apply nullish_Some in Hs as [Hs|[_ Hs]]; [|by apply head_elem].
      apply opt_truthy_find_Some in Hs as (c & _ & _ & Hs). unfold find_connection in Hs.
      by eapply js_find_elem. }
    destruct k; split_and!; done.
  - apply nullish_None in Hs as [_ Hs%head_None].
    destruct (_ ?: _ ?: localFollowUp _) as [f|] eqn:Hf.
    + intros Hlive. specialize (Hlive f eq_refl). destruct k; split_and!; done.
    + intros _. rewrite !nullish_None in Hf. unfold localFollowUp, terminalFollowUp in Hf.
      destruct Hf as [[Ho Ht%fmap_None%head_None] Hl%fmap_None%head_None].
      destruct k; apply fmap_None, head_None in Ho; split_and!; done.
Qed.

(** Closing local terminals. If the active one is not closed, only the order
    table changes. Otherwise the first remaining local terminal is active; with
    none left the SSH view is entered when a terminal is left, else a live remote
    desktop is handed over, and the home page is entered exactly when nothing at
    all is left. The mode stays local only when a local terminal is active, a
    hand-over is pending, or file tabs are all that is left. *)
Theorem local_close_next st ids snap :
  let st' := sessionPointerReducer st (CloseLocalTerminals ids snap) in
  let active_closed := match activeLocalTerminalTabId st with
    | Some id => id ≠ "" ∧ id ∈ ids | None => False end in
  (¬ active_closed ∧ st' = pruned snap st) ∨
  (active_closed ∧ activeLocalTerminalTabId st' = head (cs_localTerminalTabs snap) ∧
   (mode st' = mode st ∧
      (cs_localTerminalTabs snap ≠ [] ∨
       (∃ f, followUp st' = Some f ∧ followup_live snap f ∧ cs_terminalTabs snap = []) ∨
       (cs_terminalTabs snap = [] ∧ cs_rdpSessions snap = [] ∧ cs_vncSessions snap = [] ∧
        cs_remoteFileTabs snap ≠ [])) ∨
    mode st' = ModeSsh ∧ cs_terminalTabs snap ≠ [] ∧ cs_localTerminalTabs snap = [] ∨
    mode st' = ModeHome ∧ homeActive st' = true ∧ workspaceEmpty snap = true)).
Proof.
  cbv zeta. cbn [sessionPointerReducer].
  pose proof (decideLocalClose_live st ids snap) as Hlive. revert Hlive.
  unfold decideLocalClose. cbv zeta. destruct (activeLocalTerminalTabId st) as [id|] eqn:Hact.
  2: { intros _. left. split; [tauto|]. done. }
  destruct (truthy (Some id) && bool_decide (id ∈ ids)) eqn:Hc; cbn [negb].
  2: { intros _. left. split; [|done]. rewrite <- (bool_decide_spec (id ∈ ids)), <- truthy_Some.
       intros [Ht Hb%Is_true_true]. rewrite Ht, Hb in Hc. done. }
  apply andb_true_iff in Hc as [Ht%truthy_Some Hi%bool_decide_eq_true].
  intros Hlive. right. split; [done|]. revert Hlive.
  destruct (cs_localTerminalTabs snap) as [|l ls] eqn:Hl; cbn [head].
  2: { intros _. split; [done|]. left. split; [done|]. by left. }
  destruct (workspaceEmpty snap) eqn:Hw.
  { intros _. split; [done|]. do 2 right. done. }
  destruct (cs_terminalTabs snap) as [|t ts] eqn:Hterm; cbn [is_nil negb].
  2: { intros _. split; [done|]. right; left. done. }
  destruct (cs_rdpSessions snap) as [|r rs] eqn:Hr; cbn [is_nil negb].
  - destruct (cs_vncSessions snap) as [|w ws] eqn:Hv; cbn [is_nil negb].
    + intros _. split; [done|]. left. split; [done|]. do 2 right. split_and!; try done.
      intros Hf. apply not_true_iff_false in Hw. apply Hw, workspaceEmpty_true. done.
    + intros Hlive. split; [done|]. left. split; [done|]. right; left.
      eexists. split_and!; [done|by apply Hlive|done].
  - intros Hlive. split; [done|]. left. split; [done|]. right; left.
    eexists. split_and!; [done|by apply Hlive|done].
Qed.

(** ** The unified tab memory *)

(** A memory entry names a tab of its kind and connection. *)
Definition unified_valid (files terminals : list SessionRef) (c : string)
    (t : UnifiedWorkbenchTab) : Prop :=
  mkRef c (uw_id t) ∈ (match uw_kind t with WbTerminal => terminals | WbFile => files end).

Lemma js_find_ref (l : list SessionRef) c i :
  is_Some (js_find (λ tab, ref_connectionId tab = c ∧ ref_id tab = i) l) ↔ mkRef c i ∈ l.
Proof.
  split.
  - intros [[c' i'] [Hin [? ?]]%js_find_Some]. simpl in *. by subst.
  - intros Hin. by apply (js_find_is_Some _ _ (mkRef c i)).
Qed.

Lemma normalize_entry_spec files terminals c t :
  normalize_entry files terminals c t =
    if decide (mkRef c (uw_id t) ∈ (match uw_kind t with WbTerminal => terminals | WbFile => files end))
    then Some t
    else match find_connection c files with
      | Some f => Some (mkUnified (ref_id f) WbFile)
      | None => (λ tab, mkUnified (ref_id tab) WbTerminal) <$> find_connection c terminals
      end.
Proof.
  unfold normalize_entry. cbv zeta.
  rewrite !(bool_decide_ext (is_Some _) _ (js_find_ref _ _ _)).
  destruct t as [i []]; cbn [uw_kind uw_id]; case_decide as Hd.
  all: rewrite ?(bool_decide_eq_true_2 (WbTerminal = WbTerminal)) by done.
  all: rewrite ?(bool_decide_eq_false_2 (WbTerminal = WbFile)) by done.
  all: rewrite ?(bool_decide_eq_false_2 (WbFile = WbTerminal)) by done.
  all: rewrite ?(bool_decide_eq_true_2 (WbFile = WbFile)) by done.
  all: rewrite ?(bool_decide_eq_true_2 _ Hd), ?(bool_decide_eq_false_2 _ Hd), ?orb_false_r; done.
Qed.

Lemma find_connection_Some c l r : find_connection c l = Some r → mkRef c (ref_id r) ∈ l.
Proof.
  unfold find_connection. intros [Hin Hc]%js_find_Some. destruct r. simpl in *. by subst.
Qed.

Lemma find_connection_None c l : find_connection c l = None ↔ ∀ i, mkRef c i ∉ l.
Proof.
  unfold find_connection. rewrite js_find_None. split.
  - intros Hno i Hin. by apply (Hno _ Hin).
  - intros Hno [c' i] Hin. simpl. intros ->. by apply (Hno i).
Qed.

Lemma normalize_entry_valid files terminals c t u :
  normalize_entry files terminals c t = Some u → unified_valid files terminals c u.
Proof.
  rewrite normalize_entry_spec. case_decide as Hv; [by intros [= <-]|].
  destruct (find_connection c files) as [f|] eqn:Hf.
  - intros [= <-]. by apply find_connection_Some.
  - intros (tab & Ht & ->)%fmap_Some. by apply find_connection_Some in Ht.
Qed.

(** After normalisation the unified tab memory never dangles: every entry
    names an existing tab of its kind and connection; a valid entry is kept, an
    invalid one falls back to a file tab of the connection when there is one; an
    entry disappears exactly when its connection has no tab; and normalising again
    changes nothing. *)
Theorem normalizeUnified_correct st files terminals :
  let st' := sessionPointerReducer st (NormalizeUnified files terminals) in
  (∀ c u, activeUnifiedTabByConnectionId st' !! c = Some u → unified_valid files terminals c u) ∧
  (∀ c t, activeUnifiedTabByConnectionId st !! c = Some t →
    (unified_valid files terminals c t → activeUnifiedTabByConnectionId st' !! c = Some t) ∧
    (¬ unified_valid files terminals c t → (∃ i, mkRef c i ∈ files) →
      ∃ u, activeUnifiedTabByConnectionId st' !! c = Some u ∧ uw_kind u = WbFile) ∧
    (activeUnifiedTabByConnectionId st' !! c = None ↔ ∀ i, (mkRef c i ∉ files) ∧ (mkRef c i ∉ terminals))) ∧
  sessionPointerReducer st' (NormalizeUnified files terminals) = st'.
Proof.
  cbv zeta. cbn [sessionPointerReducer set_unified_memory activeUnifiedTabByConnectionId].
  set (m := activeUnifiedTabByConnectionId st).
  split_and!.
  - intros c u. rewrite map_lookup_imap. intros (t & _ & Hu)%bind_Some.
    by eapply normalize_entry_valid.
  - intros c t Ht. rewrite map_lookup_imap, Ht. cbn [mbind option_bind].
    rewrite normalize_entry_spec. fold (unified_valid files terminals c t). split_and!.
    + intros Hv. by rewrite decide_True.
    + intros Hv [i Hi]. rewrite decide_False by done.
      destruct (find_connection c files) eqn:Hf; [by eexists|].
      apply find_connection_None with (i := i) in Hf. done.
    + case_decide as Hv.
      * split; [done|]. intros Hno. destruct (Hno (uw_id t)) as [? ?].
        by destruct t as [? []].
      * destruct (find_connection c files) as [f|] eqn:Hf.
        -- split; [done|]. intros Hno. by destruct (proj1 (Hno (ref_id f)) (find_connection_Some _ _ _ Hf)).
        -- rewrite fmap_None, find_connection_None. rewrite find_connection_None in Hf. naive_solver.
  - unfold set_unified_memory. cbn. f_equal. apply map_eq. intros c.
    rewrite map_lookup_imap. destruct (map_imap _ m !! c) as [u|] eqn:Hu; [|done]. simpl.
    rewrite map_lookup_imap in Hu. apply bind_Some in Hu as (t & _ & Hu).
    apply normalize_entry_valid in Hu. rewrite normalize_entry_spec. by rewrite decide_True.
Qed.

(** ** Registration *)

Lemma register_all ids st :
  NoDup ids → (∀ id, id ∈ ids → id ∉ order st) →
  foldl (λ st itemId, sessionPointerReducer st (ItemOpened itemId)) st ids =
    set_order (order st ++ ids) st.
Proof.
  revert st. induction ids as [|id ids IH]; intros st Hnd Hnew; cbn [foldl].
  - rewrite app_nil_r. by destruct st.
  - apply NoDup_cons in Hnd as [Hid Hnd]. cbn [sessionPointerReducer].
    rewrite decide_False by (apply Hnew; left). rewrite IH; [|done|].
    + unfold set_order. cbn. by rewrite <- app_assoc.
    + intros x Hx. cbn. rewrite elem_of_app, list_elem_of_singleton. intros [Ho| ->]; [|done].
      apply (Hnew x); [by right|done].
Qed.

Lemma ordered_instances_by_id m order :
  NoDup m.*1 → keyed m →
  ordered_instances m order =
    omap (λ id, jsmap_get id m) (filter (.∈ m.*1) order ++ filter (.∉ order) m.*1).
Proof.
  intros Hnd Hk. rewrite <- (ordered_instances_ids m order Hk).
  assert (∀ i, i ∈ ordered_instances m order → jsmap_get (instance_id i) m = Some i) as Hget.
  { intros i. unfold ordered_instances. cbv zeta.
    intros [(id & _ & Hg)%list_elem_of_omap|((k & i') & -> & [_ Hin]%list_elem_of_filter)%list_elem_of_fmap]%elem_of_app.
    - by rewrite (Hk _ _ (jsmap_get_elem _ _ _ Hg)).
    - simpl. rewrite (Hk _ _ Hin). by apply jsmap_elem_get. }
  induction (ordered_instances m order) as [|i l IH]; [done|]. cbn.
  rewrite Hget by left. f_equal. apply IH. intros. apply Hget. by right.
Qed.

(** The registration effect appends exactly the instances that the order
    table lacks, after it nothing is unregistered, and it never changes what the
    top bar shows; after a registration the table of a pruned state lists exactly
    the live instances. *)
Theorem registration_stable collections st split :
  NoDup (order st) → NoDup (collection_ids collections) →
  let st' := registration_effect collections st in
  order st' = order st ++ unregisteredInstanceIds collections (order st) ∧
  unregisteredInstanceIds collections (order st') = [] ∧
  registration_effect collections st' = st' ∧
  selectWorkspaceItems collections (order st') split = selectWorkspaceItems collections (order st) split ∧
  ((∀ id, id ∈ order st → id ∈ collection_ids collections) →
    order st' ≡ₚ collection_ids collections).
Proof.
  intros Ho Hc. cbv zeta. unfold registration_effect.
  rewrite register_all; [|by apply NoDup_filter|by intros id [? _]%list_elem_of_filter].
  cbn [order set_order].
  set (new := unregisteredInstanceIds collections (order st)).
  assert (unregisteredInstanceIds collections (order st ++ new) = []) as Hdone.
  { apply elem_of_nil_inv. intros id [Hid Hin]%list_elem_of_filter.
    apply Hid, elem_of_app. destruct (decide (id ∈ order st)); [by left|right].
    by apply list_elem_of_filter. }
  assert (display_order collections (order st ++ new) = display_order collections (order st)) as Hd.
  { unfold display_order. rewrite Hdone, app_nil_r, filter_app. f_equal.
    apply filter_all. by intros id [_ ?]%list_elem_of_filter. }
  split_and!; [done|done|by rewrite Hdone| |].
  - unfold selectWorkspaceItems. cbv zeta.
    assert (∀ o, ordered_instances (collectInstances collections) o =
      omap (λ id, jsmap_get id (collectInstances collections)) (display_order collections o)) as Hoi.
    { intros o. rewrite ordered_instances_by_id;
        rewrite ?collectInstances_keys by done; [done|done|by apply collectInstances_keyed]. }
    by rewrite !Hoi, Hd.
  - intros Hlive. apply NoDup_Permutation; [|done|].
    + apply NoDup_app. split_and!; [done| |by apply NoDup_filter].
      by intros x ? [? _]%list_elem_of_filter.
    + intros id. rewrite elem_of_app. unfold new, unregisteredInstanceIds.
      rewrite list_elem_of_filter. destruct (decide (id ∈ order st)); naive_solver.
Qed.

Lemma registration_stable_witness :
  unregisteredInstanceIds items_collections
    (order (registration_effect items_collections tabs_state)) = [].
Proof. apply (registration_stable items_collections tabs_state None); vm_decide. Defined.
