(* ===== verification/ItemClose.v ===== *)
(** * Close plans ([features/workspace/sessionTabs/itemClose.ts], [useCloseRequest.ts],
      [features/files/remoteFileTransferClosePolicy.ts])

    From the items the user selects to a request, from a request and the current
    collections to a plan, and the confirmation machine that decides when a plan
    runs. *)

From S2P Require Import Prelude SplitLayout SessionTypes Instances.

(** ** Scopes and requests *)

Inductive CloseScope := ScopeAll | ScopeOthers | ScopeRight | ScopeSelf.

#[export] Instance InstanceItem_eq_dec : EqDecision InstanceItem.
Proof. solve_decision. Defined.
#[export] Instance WorkspaceItem_eq_dec : EqDecision WorkspaceItem.
Proof. solve_decision. Defined.

Definition closeScopeItemIds (items : list WorkspaceItem) (targetId : string) (scope : CloseScope) :
    list string :=
  let closable := workspace_item_id <$> filter (λ w, w ≠ HomeItem) items in
  match scope with
  | ScopeSelf => if decide (targetId ∈ closable) then [targetId] else []
  | ScopeOthers => filter (λ id, id ≠ targetId) closable
  | ScopeRight =>
      match list_find (λ id, id = targetId) closable with
      | Some (index, _) => drop (S index) closable
      | None => []
      end
  | ScopeAll => closable
  end.

Record CloseRequest := mkRequest {
  rq_instanceIds : list string;
  rq_splitPaneIds : list string;
  rq_splitGroup : bool;
}.

Definition closeRequestFromItems (itemIds : list string) (items : list WorkspaceItem) : CloseRequest :=
  foldl (λ r item,
    if decide (workspace_item_id item ∈ itemIds) then
      match item with
      | HomeItem => r
      | SplitItem _ _ => mkRequest (rq_instanceIds r) (rq_splitPaneIds r) true
      | InstItem i => mkRequest (rq_instanceIds r ++ [instance_id i]) (rq_splitPaneIds r) (rq_splitGroup r)
      end
    else r) (mkRequest [] [] false) items.

(** ** Transfers and their close policy *)

Inductive TransferStatus := TsQueued | TsRunning | TsSuccess | TsError | TsSkipped | TsCanceled.

#[export] Instance TransferStatus_eq_dec : EqDecision TransferStatus.
Proof. solve_decision. Defined.

Record TransferCandidate := mkTransfer {
  tc_connectionId : option string;
  tc_id : string;
  tc_status : TransferStatus;
}.

Inductive TransferClosePolicy := KeepRunning | ConfirmCancelActive.

#[export] Instance TransferClosePolicy_eq_dec : EqDecision TransferClosePolicy.
Proof. solve_decision. Defined.

Definition currentRemoteFileTransferClosePolicy : TransferClosePolicy := ConfirmCancelActive.

Record TransferCloseDecision := mkTransferDecision {
  td_activeTransferIds : list string;
  td_cancelTransferIds : list string;
  td_requiresConfirmation : bool;
}.

Definition active_transfer (closingConnectionIds : list string) (item : TransferCandidate) : Prop :=
  truthy (tc_connectionId item) = true ∧
  default "" (tc_connectionId item) ∈ closingConnectionIds ∧
  (tc_status item = TsQueued ∨ tc_status item = TsRunning).

#[export] Instance active_transfer_dec ids item : Decision (active_transfer ids item).
Proof. unfold active_transfer. apply _. Defined.

Definition planRemoteFileTransferClose (items : list TransferCandidate)
    (closingConnectionIds : list string) (policy : TransferClosePolicy) : TransferCloseDecision :=
  let activeTransferIds := tc_id <$> filter (active_transfer closingConnectionIds) items in
  let cancelActive := bool_decide (policy = ConfirmCancelActive) in
  mkTransferDecision activeTransferIds (if cancelActive then activeTransferIds else [])
    (cancelActive && bool_decide (0 < length activeTransferIds)).

(** ** Context *)

Record ContextFile := mkContextFile {
  cf_connectionId : string;
  cf_dirty : bool;
  cf_name : string;
}.

Record ContextPane := mkContextPane {
  cp_id : string;
  cp_instanceId : option string;
}.

Record CloseContext := mkContext {
  cx_localTerminalTabs : list string;
  cx_rdpSessions : list string;
  cx_remoteFileTabs : list ContextFile;
  cx_remoteFileTransfers : list TransferCandidate;
  cx_splitMemberIds : list string;
  cx_splitPanes : list ContextPane;
  cx_terminalTabs : list SessionRef;
  cx_vncSessions : list string;
}.

(** What the shell knows of an open remote file. *)
Record FileEditorTab := mkEditorTab {
  fe_id : string;
  fe_connectionId : string;
  fe_dirty : bool;
  fe_name : string;
}.

Definition buildCloseContext (localTerminalTabs : list string) (rdpSessions : list SessionRef)
    (remoteFileTabs : list FileEditorTab) (terminalSplitPanes : list TerminalSplitPane)
    (terminalTabs vncSessions : list SessionRef) (remoteFileTransfers : list TransferCandidate) :
    CloseContext :=
  mkContext localTerminalTabs (ref_id <$> rdpSessions)
    ((λ f, mkContextFile (fe_connectionId f) (fe_dirty f) (fe_name f)) <$> remoteFileTabs)
    remoteFileTransfers
    (omap (λ pane, terminalPaneBindingKey <$> pane_binding pane) terminalSplitPanes)
    ((λ pane, mkContextPane (pane_id pane) (terminalPaneBindingKey <$> pane_binding pane))
      <$> terminalSplitPanes)
    terminalTabs (ref_id <$> vncSessions).

(** ** Plans *)

Record CloseConfirmation := mkConfirmation {
  cc_activeTransferCount : option nat;
  cc_cascadeConnectionCount : nat;
  cc_dirtyFileNames : list string;
  cc_instanceCount : nat;
  cc_splitPaneCount : nat;
}.

Record ClosePlan := mkPlan {
  cl_confirmation : option CloseConfirmation;
  cl_connectionIds : list string;
  cl_localTabIds : list string;
  cl_rdpSessionIds : list string;
  cl_splitGroup : bool;
  cl_splitPaneIds : list string;
  cl_sshTabIds : list string;
  cl_transferIdsToCancel : list string;
  cl_vncSessionIds : list string;
}.

(** The ids a request selects: the set [closing]. *)
Definition closing_ids (request : CloseRequest) (context : CloseContext) : list string :=
  rq_instanceIds request ++
  omap (λ pane, if truthy (cp_instanceId pane) then cp_instanceId pane else None)
    (filter (λ pane, cp_id pane ∈ rq_splitPaneIds request) (cx_splitPanes context)) ++
  (if rq_splitGroup request then cx_splitMemberIds context else []).

Definition closing_ssh (closing : list string) (context : CloseContext) : list SessionRef :=
  filter (λ tab, instanceItemId KSsh (ref_id tab) ∈ closing) (cx_terminalTabs context).

(** Every terminal of the connection is being closed. *)
Definition all_closing (context : CloseContext) (closingSshIds : list string)
    (connectionId : string) : bool :=
  forallb (λ other, bool_decide (ref_id other ∈ closingSshIds))
    (filter (λ other, ref_connectionId other = connectionId) (cx_terminalTabs context)).

(** The loop over the closing terminals; it accumulates [releasedConnectionIds]
    and [connectionIds], both in insertion order. *)
Definition release_step (context : CloseContext) (closingSshIds filesByConnection : list string)
    (acc : list string * list string) (tab : SessionRef) : list string * list string :=
  let '(released, connectionIds) := acc in
  let c := ref_connectionId tab in
  if decide (c ∈ released) then acc
  else if all_closing context closingSshIds c
  then (released ++ [c],
        if decide (c ∈ filesByConnection) then connectionIds ++ [c] else connectionIds)
  else acc.

Definition released_connections (context : CloseContext) (closingSsh : list SessionRef) :
    list string * list string :=
  foldl (release_step context (ref_id <$> closingSsh) (cf_connectionId <$> cx_remoteFileTabs context))
    ([], []) closingSsh.

Definition planClose (request : CloseRequest) (context : CloseContext)
    (transferClosePolicy : TransferClosePolicy) : ClosePlan :=
  let splitPaneIds :=
    cp_id <$> filter (λ pane, cp_id pane ∈ rq_splitPaneIds request) (cx_splitPanes context) in
  let closing := closing_ids request context in
  let closingSsh := closing_ssh closing context in
  let '(released, connectionIds) := released_connections context closingSsh in
  let localTabIds := filter (λ id, instanceItemId KLocal id ∈ closing) (cx_localTerminalTabs context) in
  let rdpSessionIds := filter (λ id, instanceItemId KRdp id ∈ closing) (cx_rdpSessions context) in
  let vncSessionIds := filter (λ id, instanceItemId KVnc id ∈ closing) (cx_vncSessions context) in
  let splitPaneCount := if rq_splitGroup request then length (cx_splitMemberIds context) else 0 in
  let dirtyFileNames :=
    cf_name <$> filter (λ tab, cf_dirty tab = true ∧ cf_connectionId tab ∈ connectionIds)
      (cx_remoteFileTabs context) in
  let transferDecision :=
    planRemoteFileTransferClose (cx_remoteFileTransfers context) released transferClosePolicy in
  mkPlan
    (if bool_decide (0 < length dirtyFileNames) || bool_decide (1 < splitPaneCount) ||
        td_requiresConfirmation transferDecision
     then Some (mkConfirmation
       (if td_requiresConfirmation transferDecision
        then Some (length (td_activeTransferIds transferDecision)) else None)
       (length connectionIds) dirtyFileNames
       (length closingSsh + length localTabIds + length rdpSessionIds + length vncSessionIds)
       splitPaneCount)
     else None)
    connectionIds localTabIds rdpSessionIds (rq_splitGroup request) splitPaneIds
    (ref_id <$> filter (λ tab, ref_connectionId tab ∉ connectionIds) closingSsh)
    (td_cancelTransferIds transferDecision) vncSessionIds.

Definition closePlanIsEmpty (plan : ClosePlan) : bool :=
  negb (cl_splitGroup plan) && bool_decide (cl_splitPaneIds plan = []) &&
  bool_decide (cl_connectionIds plan = []) && bool_decide (cl_sshTabIds plan = []) &&
  bool_decide (cl_localTabIds plan = []) && bool_decide (cl_rdpSessionIds plan = []) &&
  bool_decide (cl_vncSessionIds plan = []).

(** ** The confirmation machine ([useCloseRequest])

    The planner and the executor are what the hook receives; the machine is
    independent of them. [plan] reads the shell at the moment of the call. *)

Section close_request.
Context {Ctx : Type} (plan : CloseRequest → Ctx → ClosePlan).

Record PendingClose := mkPending {
  pn_confirmation : CloseConfirmation;
  pn_request : CloseRequest;
}.

Inductive CloseEvent :=
  | EvRequest (request : CloseRequest) (now : Ctx)
  | EvConfirm (now : Ctx)
  | EvCancel.

(** The new pending close and the plan that is executed, if any. *)
Definition close_step (pending : option PendingClose) (event : CloseEvent) :
    option PendingClose * option ClosePlan :=
  match event with
  | EvRequest request now =>
      match pending with
      | Some _ => (pending, None)
      | None =>
          let p := plan request now in
          if closePlanIsEmpty p then (None, None)
          else
            match cl_confirmation p with
            | Some c => (Some (mkPending c request), None)
            | None => (None, Some p)
            end
      end
  | EvConfirm now =>
      match pending with
      | None => (None, None)
      | Some current =>
          let p := plan (pn_request current) now in
          (None, if closePlanIsEmpty p then None else Some p)
      end
  | EvCancel => (None, None)
  end.

(** Running events from no pending close: the final pending close and the
    executed plans, each with its event. *)
Definition close_run (events : list CloseEvent) : option PendingClose * list (CloseEvent * ClosePlan) :=
  foldl (λ acc event,
    let '(pending, log) := acc in
    let '(pending', executed) := close_step pending event in
    (pending', log ++ match executed with Some p => [(event, p)] | None => [] end))
    (None, []) events.
End close_request.

(** ** Plans: lemmas *)

Section release.
Context (context : CloseContext) (closingSsh : list SessionRef).
Let step := release_step context (ref_id <$> closingSsh) (cf_connectionId <$> cx_remoteFileTabs context).
Let all c := all_closing context (ref_id <$> closingSsh) c = true.
Let has_file c := c ∈ cf_connectionId <$> cx_remoteFileTabs context.

(** Invariant of the loop after the terminals [done]. *)
Let release_inv (seen : list SessionRef) (acc : list string * list string) : Prop :=
  NoDup acc.1 ∧ NoDup acc.2 ∧
  (∀ c, c ∈ acc.1 ↔ c ∈ ref_connectionId <$> seen ∧ all c) ∧
  (∀ c, c ∈ acc.2 ↔ c ∈ acc.1 ∧ has_file c).

Lemma release_step_inv seen acc tab :
  release_inv seen acc → release_inv (seen ++ [tab]) (step acc tab).
Proof.
  destruct acc as [rel conns]. unfold release_inv, step, release_step. cbn [fst snd].
  intros (Hr & Hc & Hrs & Hcs).
  assert (∀ c, c ∈ ref_connectionId <$> seen ++ [tab] ↔
    c ∈ ref_connectionId <$> seen ∨ c = ref_connectionId tab) as Hseen.
  { intros c. rewrite fmap_app, elem_of_app, <- (list_elem_of_singleton c (ref_connectionId tab)). done. }
  case_decide as Hin; cbn [fst snd].
  - split_and!; try done. intros c. rewrite Hseen, Hrs.
    split; [tauto|]. intros [[?| ->] ?]; [done|]. by apply Hrs.
  - destruct (all_closing _ _ _) eqn:Ha; cbn [fst snd].
    + assert (ref_connectionId tab ∉ conns) as Hnc by (rewrite Hcs; tauto).
      split_and!.
      * apply NoDup_app. split_and!; [done|set_solver|apply NoDup_singleton].
      * case_decide; [|done]. apply NoDup_app. split_and!; [done|set_solver|apply NoDup_singleton].
      * intros c. rewrite elem_of_app, list_elem_of_singleton, Hseen, Hrs.
        split; [intros [?| ->]; tauto|tauto].
      * intros c. rewrite elem_of_app, list_elem_of_singleton.
        case_decide as Hf; rewrite ?elem_of_app, ?list_elem_of_singleton, Hcs.
        -- split; [intros [?| ->]; tauto|tauto].
        -- split; [tauto|]. intros [[?| ->] ?]; [done|]. by destruct Hf.
    + split_and!; try done. intros c. rewrite Hseen, Hrs. unfold all.
      split; [tauto|]. intros [[?| ->] ?]; [done|congruence].
Qed.

Lemma released_connections_spec :
  release_inv closingSsh (released_connections context closingSsh).
Proof.
  unfold released_connections. fold step.
  assert (∀ l seen acc, release_inv seen acc → release_inv (seen ++ l) (foldl step acc l)) as Hl.
  { induction l as [|t l IH]; intros seen acc Hi; cbn; [by rewrite app_nil_r|].
    rewrite cons_middle, app_assoc. by apply IH, release_step_inv. }
  apply (Hl closingSsh [] ([], [])). split_and!; cbn; try constructor; try tauto; set_solver.
Qed.
End release.

Lemma all_closing_true context ids c :
  all_closing context ids c = true ↔
    ∀ tab, tab ∈ cx_terminalTabs context → ref_connectionId tab = c → ref_id tab ∈ ids.
Proof.
  unfold all_closing. rewrite forallb_forall. setoid_rewrite bool_decide_eq_true.
  split.
  - intros Ha tab Hin Hc. apply Ha. apply list_elem_of_In, list_elem_of_filter. done.
  - intros Ha tab [Hc Hin]%list_elem_of_In%list_elem_of_filter. by apply Ha.
Qed.

(** The item of a terminal is selected. *)
Definition selected_ssh (request : CloseRequest) (context : CloseContext) (tab : SessionRef) : Prop :=
  instanceItemId KSsh (ref_id tab) ∈ closing_ids request context.

(** The connection loses its last terminal. *)
Definition releases (request : CloseRequest) (context : CloseContext) (c : string) : Prop :=
  (∃ tab, tab ∈ cx_terminalTabs context ∧ ref_connectionId tab = c) ∧
  (∀ tab, tab ∈ cx_terminalTabs context → ref_connectionId tab = c → selected_ssh request context tab).

Lemma elem_of_closing_ssh closing context tab :
  tab ∈ closing_ssh closing context ↔
    instanceItemId KSsh (ref_id tab) ∈ closing ∧ tab ∈ cx_terminalTabs context.
Proof. unfold closing_ssh. by rewrite list_elem_of_filter. Qed.

Lemma closing_ssh_ids closing context id :
  id ∈ ref_id <$> closing_ssh closing context ↔
    instanceItemId KSsh id ∈ closing ∧ id ∈ ref_id <$> cx_terminalTabs context.
Proof.
  rewrite !list_elem_of_fmap. setoid_rewrite elem_of_closing_ssh. split.
  - intros (t & -> & ? & ?). eauto.
  - intros (? & t & -> & ?). eauto.
Qed.

Lemma released_iff request context c :
  c ∈ (released_connections context (closing_ssh (closing_ids request context) context)).1 ↔
    releases request context c.
Proof.
  destruct (released_connections_spec context (closing_ssh (closing_ids request context) context))
    as (_ & _ & -> & _).
  rewrite all_closing_true. setoid_rewrite closing_ssh_ids. rewrite list_elem_of_fmap.
  setoid_rewrite elem_of_closing_ssh. unfold releases, selected_ssh. split.
  - intros [(t & -> & ? & ?) Hall]. split; [by exists t|]. intros tab Hin Hc. by apply Hall.
  - intros [(t & Ht & <-) Hall]. split; [exists t; auto|].
    intros tab Hin Hc. split; [auto|]. by apply list_elem_of_fmap_2.
Qed.

Lemma plan_connectionIds request context policy c :
  c ∈ cl_connectionIds (planClose request context policy) ↔
    releases request context c ∧ c ∈ cf_connectionId <$> cx_remoteFileTabs context.
Proof.
  unfold planClose. pose proof (released_iff request context c) as Hr.
  destruct (released_connections_spec context (closing_ssh (closing_ids request context) context))
    as (_ & _ & _ & Hc).
  destruct (released_connections _ _) as [rel conns]. cbn in *. by rewrite Hc, Hr.
Qed.

Lemma plan_sshTabIds request context policy id :
  id ∈ cl_sshTabIds (planClose request context policy) ↔
    ∃ tab, id = ref_id tab ∧ tab ∈ cx_terminalTabs context ∧ selected_ssh request context tab ∧
      ref_connectionId tab ∉ cl_connectionIds (planClose request context policy).
Proof.
  unfold planClose. destruct (released_connections _ _) as [rel conns]. cbn.
  rewrite list_elem_of_fmap. setoid_rewrite list_elem_of_filter. setoid_rewrite elem_of_closing_ssh.
  unfold selected_ssh. naive_solver.
Qed.

Lemma plan_selected request context policy tab :
  NoDup (ref_id <$> cx_terminalTabs context) → tab ∈ cx_terminalTabs context →
  let plan := planClose request context policy in
  (selected_ssh request context tab ↔
    ref_id tab ∈ cl_sshTabIds plan ∨ ref_connectionId tab ∈ cl_connectionIds plan) ∧
  ¬ (ref_id tab ∈ cl_sshTabIds plan ∧ ref_connectionId tab ∈ cl_connectionIds plan).
Proof.
  intros Hnd Hin. cbv zeta. rewrite plan_sshTabIds. split; [split|].
  - intros Hs. destruct (decide (ref_connectionId tab ∈ cl_connectionIds (planClose request context policy)));
      [by right|left; eauto].
  - intros [(t & Heq & Ht & Hs & _)|Hc]; [by unfold selected_ssh in *; rewrite Heq|].
    apply plan_connectionIds in Hc as [[_ Hall] _]. by apply Hall.
  - intros [(t & Heq & Ht & _ & Hno) Hc]. apply Hno.
    by rewrite <- (NoDup_fmap_inj_elem ref_id _ tab t Hnd Hin Ht Heq).
Qed.

(** C7: a plan closes exactly what was selected. A terminal is selected iff it is
    closed by exactly one of the two paths (as a terminal or with its connection); a
    connection is closed as a whole iff it has open file tabs and every one of its
    terminals is selected, so no unselected terminal is ever closed; the other kinds
    are exactly the selected sessions that still exist. *)
Theorem plan_close_exact request context policy :
  NoDup (ref_id <$> cx_terminalTabs context) →
  let plan := planClose request context policy in
  (∀ tab, tab ∈ cx_terminalTabs context →
    (selected_ssh request context tab ↔
      ref_id tab ∈ cl_sshTabIds plan ∨ ref_connectionId tab ∈ cl_connectionIds plan) ∧
    ¬ (ref_id tab ∈ cl_sshTabIds plan ∧ ref_connectionId tab ∈ cl_connectionIds plan)) ∧
  (∀ c, c ∈ cl_connectionIds plan ↔
    releases request context c ∧ c ∈ cf_connectionId <$> cx_remoteFileTabs context) ∧
  NoDup (cl_connectionIds plan) ∧
  (∀ id, id ∈ cl_sshTabIds plan → id ∈ ref_id <$> cx_terminalTabs context) ∧
  (∀ id, (id ∈ cl_localTabIds plan ↔ id ∈ cx_localTerminalTabs context ∧
            instanceItemId KLocal id ∈ closing_ids request context) ∧
         (id ∈ cl_rdpSessionIds plan ↔ id ∈ cx_rdpSessions context ∧
            instanceItemId KRdp id ∈ closing_ids request context) ∧
         (id ∈ cl_vncSessionIds plan ↔ id ∈ cx_vncSessions context ∧
            instanceItemId KVnc id ∈ closing_ids request context)).
Proof.
  intros Hnd. cbv zeta. split_and!.
  - intros tab Hin. by apply plan_selected.
  - intros c. apply plan_connectionIds.
  - unfold planClose.
    destruct (released_connections_spec context (closing_ssh (closing_ids request context) context))
      as (_ & Hn & _ & _).
    by destruct (released_connections _ _).
  - intros id (tab & -> & ? & _)%plan_sshTabIds. by apply list_elem_of_fmap_2.
  - intros id. unfold planClose. destruct (released_connections _ _) as [rel conns]. cbn.
    rewrite !list_elem_of_filter. tauto.
Qed.

Definition close_context : CloseContext :=
  mkContext ["l1"] [] [mkContextFile "A" true "notes.txt"]
    [mkTransfer (Some "B") "t1" TsRunning; mkTransfer (Some "A") "t2" TsSuccess] [] []
    [mkRef "A" "a1"; mkRef "A" "a2"; mkRef "B" "b1"] [].
Definition close_all_A : CloseRequest := mkRequest ["ssh:a1"; "ssh:a2"; "local:l1"] [] false.

Lemma plan_close_exact_witness :
  let plan := planClose close_all_A close_context ConfirmCancelActive in
  cl_connectionIds plan = ["A"] ∧ cl_sshTabIds plan = [] ∧ NoDup (cl_connectionIds plan).
Proof.
  cbv zeta. split_and!; [vm_compute; reflexivity..|].
  apply (plan_close_exact close_all_A close_context ConfirmCancelActive). vm_decide.
Defined.

(** ** Confirmation: what a plan destroys *)

(** Files whose edits the plan discards, and transfers it cancels. *)
Definition discards_file (request : CloseRequest) (context : CloseContext) (f : ContextFile) : Prop :=
  f ∈ cx_remoteFileTabs context ∧ cf_dirty f = true ∧ releases request context (cf_connectionId f).

Definition interrupts (request : CloseRequest) (context : CloseContext) (t : TransferCandidate) : Prop :=
  t ∈ cx_remoteFileTransfers context ∧ (tc_status t = TsQueued ∨ tc_status t = TsRunning) ∧
  ∃ c, tc_connectionId t = Some c ∧ c ≠ "" ∧ releases request context c.

Lemma transfer_decision_ids items ids policy id :
  id ∈ td_cancelTransferIds (planRemoteFileTransferClose items ids policy) ↔
    policy = ConfirmCancelActive ∧ ∃ t, id = tc_id t ∧ active_transfer ids t ∧ t ∈ items.
Proof.
  unfold planRemoteFileTransferClose. cbv zeta. cbn [td_cancelTransferIds]. destruct policy.
  - rewrite bool_decide_eq_false_2 by done. split; [by intros ?%not_elem_of_nil|]. by intros [? _].
  - rewrite bool_decide_eq_true_2, list_elem_of_fmap by done.
    setoid_rewrite list_elem_of_filter. naive_solver.
Qed.

Lemma transfer_decision_confirms items ids policy :
  td_requiresConfirmation (planRemoteFileTransferClose items ids policy) =
    bool_decide (td_cancelTransferIds (planRemoteFileTransferClose items ids policy) ≠ []).
Proof.
  unfold planRemoteFileTransferClose. cbn. destruct policy; cbn; [done|].
  by destruct (tc_id <$> _).
Qed.

Lemma active_transfer_interrupts request context t :
  active_transfer (released_connections context (closing_ssh (closing_ids request context) context)).1 t ∧
    t ∈ cx_remoteFileTransfers context ↔ interrupts request context t.
Proof.
  unfold active_transfer, interrupts. rewrite released_iff, truthy_true. split.
  - intros [((c & -> & Hc) & Hr & Hs) Hin]. eauto 10.
  - intros (? & ? & c & -> & ? & ?). cbn. eauto 10.
Qed.

Lemma plan_cancels request context policy id :
  id ∈ cl_transferIdsToCancel (planClose request context policy) ↔
    policy = ConfirmCancelActive ∧ ∃ t, id = tc_id t ∧ interrupts request context t.
Proof.
  setoid_rewrite <- active_transfer_interrupts.
  unfold planClose. destruct (released_connections _ _) as [rel conns] eqn:E. cbn [cl_transferIdsToCancel fst].
  rewrite transfer_decision_ids. done.
Qed.

Definition plan_dirty (request : CloseRequest) (context : CloseContext) (policy : TransferClosePolicy) :
    list ContextFile :=
  filter (λ tab, cf_dirty tab = true ∧
    cf_connectionId tab ∈ cl_connectionIds (planClose request context policy)) (cx_remoteFileTabs context).

Lemma elem_of_plan_dirty request context policy f :
  f ∈ plan_dirty request context policy ↔ discards_file request context f.
Proof.
  unfold plan_dirty, discards_file. rewrite list_elem_of_filter, plan_connectionIds.
  split; [tauto|]. intros (? & ? & ?). split_and!; try done. by apply list_elem_of_fmap_2.
Qed.

Definition split_count (request : CloseRequest) (context : CloseContext) : nat :=
  if rq_splitGroup request then length (cx_splitMemberIds context) else 0.

Lemma plan_confirmation request context policy :
  let p := planClose request context policy in
  cl_confirmation p =
    if bool_decide (0 < length (cf_name <$> plan_dirty request context policy)) ||
       bool_decide (1 < split_count request context) ||
       bool_decide (cl_transferIdsToCancel p ≠ [])
    then Some (mkConfirmation
      (if bool_decide (cl_transferIdsToCancel p ≠ []) then Some (length (cl_transferIdsToCancel p)) else None)
      (length (cl_connectionIds p)) (cf_name <$> plan_dirty request context policy)
      (length (closing_ssh (closing_ids request context) context) + length (cl_localTabIds p) +
        length (cl_rdpSessionIds p) + length (cl_vncSessionIds p)) (split_count request context))
    else None.
Proof.
  cbv zeta. unfold plan_dirty, split_count, planClose.
  destruct (released_connections _ _) as [rel conns]. cbn - [planRemoteFileTransferClose bool_decide].
  rewrite transfer_decision_confirms.
  destruct policy; [done|].
  unfold planRemoteFileTransferClose. cbn - [bool_decide]. done.
Qed.

(** Nothing is destroyed without asking. A plan without a confirmation
    discards no unsaved file, cancels no transfer and takes apart no split of
    several members; and a confirmation names every file whose edits are lost,
    counts every transfer that will be cancelled and every split member, and cancels
    only queued or running transfers of connections that lose their last terminal. *)
Theorem plan_close_confirms request context policy :
  let plan := planClose request context policy in
  (cl_confirmation plan = None ↔
    (∀ f, ¬ discards_file request context f) ∧ split_count request context ≤ 1 ∧
    cl_transferIdsToCancel plan = []) ∧
  (∀ c, cl_confirmation plan = Some c →
    (∀ name, name ∈ cc_dirtyFileNames c ↔ ∃ f, name = cf_name f ∧ discards_file request context f) ∧
    cc_splitPaneCount c = split_count request context ∧
    default 0 (cc_activeTransferCount c) = length (cl_transferIdsToCancel plan)) ∧
  (∀ id, id ∈ cl_transferIdsToCancel plan ↔
    policy = ConfirmCancelActive ∧ ∃ t, id = tc_id t ∧ interrupts request context t).
Proof.
  cbv zeta. pose proof (plan_confirmation request context policy) as Hc. cbv zeta in Hc.
  set (p := planClose request context policy) in *.
  set (cond := _ || _) in Hc.
  assert (cond = false ↔ (∀ f, ¬ discards_file request context f) ∧ split_count request context ≤ 1 ∧
    cl_transferIdsToCancel p = []) as Hcond.
  { unfold cond. rewrite !orb_false_iff, !bool_decide_eq_false, length_fmap.
    assert (¬ 0 < length (plan_dirty request context policy) ↔ ∀ f, ¬ discards_file request context f) as ->.
    { setoid_rewrite <- (elem_of_plan_dirty request context policy).
      destruct (plan_dirty request context policy) as [|f l]; cbn.
      - split; [intros _ f; apply not_elem_of_nil|lia].
      - split; [lia|]. intros Hno. destruct (Hno f). left. }
    rewrite Nat.nlt_ge. destruct (decide (cl_transferIdsToCancel p = [])); tauto. }
  split_and!.
  - rewrite <- Hcond, Hc. by destruct cond.
  - intros c. rewrite Hc. destruct cond; [|done]. intros [= <-]. cbn [cc_dirtyFileNames cc_splitPaneCount cc_activeTransferCount].
    split_and!; [|done|].
    + intros name. rewrite list_elem_of_fmap. by setoid_rewrite elem_of_plan_dirty.
    + destruct (decide (cl_transferIdsToCancel p = [])) as [Ht|Ht].
      * rewrite bool_decide_eq_false_2 by tauto. by rewrite Ht.
      * by rewrite bool_decide_eq_true_2.
  - intros id. apply plan_cancels.
Qed.

(** ** The confirmation machine: lemmas *)

Local Ltac count := rewrite ?length_app; repeat case_decide; cbn in *; try done; lia.

Section close_machine.
Context {Ctx : Type} (plan : CloseRequest → Ctx → ClosePlan).

Definition is_request (e : CloseEvent (Ctx := Ctx)) : bool :=
  match e with EvRequest _ _ => true | _ => false end.

(** Why a plan was executed, given the events before it. *)
Definition justified (before : list (CloseEvent (Ctx := Ctx))) (e : CloseEvent) (p : ClosePlan) : Prop :=
  closePlanIsEmpty p = false ∧
  match e with
  | EvRequest r now => p = plan r now ∧ cl_confirmation p = None
  | EvConfirm now => ∃ r now0 c, p = plan r now ∧ EvRequest r now0 ∈ before ∧
      cl_confirmation (plan r now0) = Some c
  | EvCancel => False
  end.

Lemma close_run_snoc events e :
  close_run plan (events ++ [e]) =
    ((close_step plan (close_run plan events).1 e).1,
     (close_run plan events).2 ++
       match (close_step plan (close_run plan events).1 e).2 with Some p => [(e, p)] | None => [] end).
Proof.
  unfold close_run at 1. rewrite foldl_snoc. fold (close_run plan events).
  destruct (close_run plan events) as [pending log]. cbn. by destruct (close_step plan pending e).
Qed.

Definition pending_count {A} (o : option A) : nat := match o with Some _ => 1 | None => 0 end.

Lemma close_run_inv events :
  (∀ pn, (close_run plan events).1 = Some pn → ∃ now0, EvRequest (pn_request pn) now0 ∈ events ∧
    cl_confirmation (plan (pn_request pn) now0) = Some (pn_confirmation pn)) ∧
  (∀ e p, (e, p) ∈ (close_run plan events).2 → justified events e p) ∧
  length (close_run plan events).2 + pending_count (close_run plan events).1 ≤
    length (filter (λ e, is_request e = true) events).
Proof.
  induction events as [|e events IH] using rev_ind.
  { cbn. split_and!; [done|by intros ? ? ?%not_elem_of_nil|lia]. }
  destruct IH as (IHp & IHl & IHn). rewrite close_run_snoc, filter_app, !length_app. cbn [fst snd].
  assert (∀ e' p, justified events e' p → justified (events ++ [e]) e' p) as Hmono.
  { intros e' p [? Hj]. split; [done|]. destruct e' as [| |]; [done| |done].
    destruct Hj as (r & now0 & c & ? & ? & ?). exists r, now0, c. split_and!; try done.
    apply elem_of_app. by left. }
  assert (∀ o, (∀ p, o = Some p → justified events e p) → ∀ e' p,
    (e', p) ∈ (close_run plan events).2 ++ match o with Some p => [(e, p)] | None => [] end →
    justified (events ++ [e]) e' p) as Hlog.
  { intros o Ho e' p [?%IHl|Hin]%elem_of_app; [by apply Hmono|].
    destruct o; [|by apply not_elem_of_nil in Hin].
    apply list_elem_of_singleton in Hin as [= -> ->]. apply Hmono. by apply Ho. }
  destruct (close_run plan events) as [pending log]. cbn [fst snd] in *.
  destruct e as [r now|now|]; cbn [close_step is_request]; rewrite filter_cons, filter_nil; cbn.
  - destruct pending as [pn|]; cbn.
    + split_and!; [|apply (Hlog None); done|count].
      intros pn' [= <-]. destruct (IHp pn eq_refl) as (now0 & ? & ?). exists now0.
      split; [apply elem_of_app; by left|done].
    + destruct (closePlanIsEmpty (plan r now)) eqn:He; cbn.
      { split_and!; [done|apply (Hlog None); done|count]. }
      destruct (cl_confirmation (plan r now)) as [c|] eqn:Hc; cbn.
      * split_and!; [|apply (Hlog None); done|count].
        intros pn [= <-]. exists now. split; [|done]. apply elem_of_app. right. left.
      * split_and!; [done|apply (Hlog (Some _)); by intros ? [= <-]|count].
  - destruct pending as [pn|]; cbn.
    + destruct (IHp pn eq_refl) as (now0 & Hin & Hc).
      destruct (closePlanIsEmpty (plan (pn_request pn) now)) eqn:He; cbn.
      { split_and!; [done|apply (Hlog None); done|count]. }
      split_and!; [done| |count].
      apply (Hlog (Some _)). intros ? [= <-]. split; [done|]. by exists (pn_request pn), now0, (pn_confirmation pn).
    + split_and!; [done|apply (Hlog None); done|count].
  - split_and!; [done|apply (Hlog None); done|destruct pending; count].
Qed.
End close_machine.

(** Whatever the sequence of requests, confirmations and cancellations, and
    however the shell changes between them, a plan that runs without a confirmation
    discards no unsaved file and cancels no transfer; a plan that runs on a
    confirmation is the plan, at that moment, of a request that had been presented
    for confirmation; empty plans never run, at most one plan runs per request, and
    a request made while another is pending neither runs nor replaces it. *)
Theorem close_requests_safe events :
  let plan := λ r now, planClose r now currentRemoteFileTransferClosePolicy in
  let '(pending, log) := close_run plan events in
  (∀ e p, (e, p) ∈ log →
    closePlanIsEmpty p = false ∧
    match e with
    | EvRequest r now =>
        p = plan r now ∧ (∀ f, ¬ discards_file r now f) ∧ cl_transferIdsToCancel p = []
    | EvConfirm now => ∃ r now0, p = plan r now ∧ EvRequest r now0 ∈ events ∧
        cl_confirmation (plan r now0) ≠ None
    | EvCancel => False
    end) ∧
  length log ≤ length (filter (λ e, is_request e = true) events) ∧
  (∀ pn r now, pending = Some pn → close_step plan pending (EvRequest r now) = (pending, None)).
Proof.
  cbv zeta. set (plan := λ r now, planClose r now currentRemoteFileTransferClosePolicy).
  destruct (close_run_inv plan events) as (Hp & Hl & Hn).
  destruct (close_run plan events) as [pending log]. cbn [fst snd] in *. split_and!.
  - intros e p [He Hj]%Hl. split; [done|]. destruct e as [r now|now|]; [| |done].
    + destruct Hj as [-> Hc]. split; [done|].
      destruct (plan_close_confirms r now currentRemoteFileTransferClosePolicy) as (Hconf & _).
      apply Hconf in Hc as (? & _ & ?). done.
    + destruct Hj as (r & now0 & c & -> & ? & Hc). exists r, now0. by rewrite Hc.
  - lia.
  - by intros pn r now ->.
Qed.
