(* ===== verification/ShellSplit.v ===== *)
(** * The split commands of the shell ([features/layout/WorkspaceShell.tsx])

    Assigning a session to a pane (with its swap), starting a split or a four-pane
    layout, removing panes, resetting the group. A handler runs in one event, so
    what it reads of the rendered state is the state it starts from; opening a new
    terminal of the same session is the argument [create], since it opens a session
    in the backend. *)

From S2P Require Import Prelude SplitLayout SplitState SessionTypes MultiExec CloseDecision SessionTabs.
From stdpp Require Import pretty.
From Stdlib Require Import Lia.

Record ShellTabs := mkShellTabs {
  st_terminals : list SessionRef;
  st_locals : list string;
}.

Record SplitShell := mkSplitShell {
  ss_split : SplitState;
  ss_counter : nat;
  ss_pickerRequest : Z;
  ss_pendingPane : option string;
  ss_multi : MultiExecState;
  ss_pointers : SessionPointerState;
}.

Definition initialSplitShell : SplitShell :=
  mkSplitShell initialSplitState 0 0 None initialMultiExecState initialSessionPointerState.

(** ** Primitive updates *)

Definition dispatchSplit (a : SplitAction) (s : SplitShell) : SplitShell :=
  mkSplitShell (splitReducer (ss_split s) a) (ss_counter s) (ss_pickerRequest s) (ss_pendingPane s)
    (ss_multi s) (ss_pointers s).
Definition dispatchTabs (a : SessionTabsAction) (s : SplitShell) : SplitShell :=
  mkSplitShell (ss_split s) (ss_counter s) (ss_pickerRequest s) (ss_pendingPane s)
    (ss_multi s) (sessionPointerReducer (ss_pointers s) a).
Definition dispatchMulti (a : MultiExecAction) (s : SplitShell) : SplitShell :=
  mkSplitShell (ss_split s) (ss_counter s) (ss_pickerRequest s) (ss_pendingPane s)
    (multiExecReducer (ss_multi s) a) (ss_pointers s).
Definition set_counter (c : nat) (s : SplitShell) : SplitShell :=
  mkSplitShell (ss_split s) c (ss_pickerRequest s) (ss_pendingPane s) (ss_multi s) (ss_pointers s).
Definition set_pending (p : option string) (s : SplitShell) : SplitShell :=
  mkSplitShell (ss_split s) (ss_counter s) (ss_pickerRequest s) p (ss_multi s) (ss_pointers s).

Definition shell_layout (s : SplitShell) : option TerminalSplitNode := layout (ss_split s).
Definition shell_panes (s : SplitShell) : list TerminalSplitPane := selectSplitPanes (shell_layout s).

Definition requestTerminalSplitPicker (paneId : string) (removeOnCancel : bool) (s : SplitShell) :
    SplitShell :=
  let key := (ss_pickerRequest s + 1)%Z in
  dispatchSplit (SplitSetPicker (Some (mkPicker key paneId)))
    (mkSplitShell (ss_split s) (ss_counter s) key (if removeOnCancel then Some paneId else None)
      (ss_multi s) (ss_pointers s)).

Definition terminalSplitHostForBinding (tabs : ShellTabs) (binding : TerminalPaneBinding) :
    option TerminalSplitHost :=
  let exists_ :=
    match binding_kind binding with
    | PaneSsh => bool_decide (Exists (λ t, ref_id t = binding_tabId binding) (st_terminals tabs))
    | PaneLocal => bool_decide (binding_tabId binding ∈ st_locals tabs)
    end in
  if exists_ then Some binding else None.

Definition activateTerminalSplitHost (tabs : ShellTabs) (host : option TerminalSplitHost)
    (s : SplitShell) : SplitShell :=
  match host with
  | None => s
  | Some h =>
      match binding_kind h with
      | PaneSsh =>
          match js_find (λ t, ref_id t = binding_tabId h) (st_terminals tabs) with
          | Some tab => dispatchTabs (ActivateSplitHost (HostSsh (ref_connectionId tab))) s
          | None => s
          end
      | PaneLocal =>
          if decide (binding_tabId h ∈ st_locals tabs)
          then dispatchTabs (ActivateSplitHost HostLocal) s else s
      end
  end.

Definition focusTerminalSplitPane (tabs : ShellTabs) (paneId : string) (s : SplitShell) : SplitShell :=
  match js_find (λ pane, pane_id pane = paneId) (shell_panes s) with
  | None => s
  | Some pane =>
      let s := dispatchSplit (SplitFocusPane (Some (pane_id pane))) s in
      match pane_binding pane with
      | None => s
      | Some b =>
          let present :=
            match binding_kind b with
            | PaneSsh => bool_decide (Exists (λ t, ref_id t = binding_tabId b) (st_terminals tabs))
            | PaneLocal => bool_decide (binding_tabId b ∈ st_locals tabs)
            end in
          if present then dispatchTabs (FocusPaneBinding b) s else s
      end
  end.

Definition activateTerminalSplitTab (tabs : ShellTabs) (paneId : option string) (s : SplitShell) :
    SplitShell :=
  match shell_layout s, host (ss_split s) with
  | Some _, Some _ =>
      let panes := shell_panes s in
      let focused := opt_truthy_find (focusedPaneId (ss_split s))
        (λ id, js_find (λ pane, pane_id pane = id) panes) in
      let nextPane :=
        opt_truthy_find paneId (λ id, js_find (λ pane, pane_id pane = id) panes)
          ?: focused ?: head panes in
      let s := dispatchSplit (SplitSetTabActive true) s in
      let s := dispatchMulti (MxSetError None) s in
      let s := activateTerminalSplitHost tabs (host (ss_split s)) s in
      match nextPane with
      | Some p => focusTerminalSplitPane tabs (pane_id p) s
      | None => s
      end
  | _, _ => s
  end.

(** ** Assigning a session to a pane *)

Definition assign_layout (layout : TerminalSplitNode) (paneId : string)
    (binding : TerminalPaneBinding) : TerminalSplitNode :=
  let previousPane := findTerminalSplitPaneByBinding layout binding in
  let targetPane := js_find (λ pane, pane_id pane = paneId) (collectTerminalSplitPanes layout) in
  let nextLayout := moveTerminalSplitBinding layout paneId binding in
  match previousPane with
  | None => nextLayout
  | Some previous =>
      if decide (pane_id previous = paneId) then nextLayout
      else
        match targetPane ≫= pane_binding with
        | Some targetBinding =>
            if decide (terminalPaneBindingsEqual (Some targetBinding) (Some binding)) then nextLayout
            else moveTerminalSplitBinding nextLayout (pane_id previous) targetBinding
        | None => nextLayout
        end
  end.

Definition assignTerminalSplitBinding (paneId : string) (binding : TerminalPaneBinding)
    (s : SplitShell) : SplitShell :=
  dispatchSplit (SplitSetPicker None)
    (set_pending None
      (dispatchSplit (SplitFocusPane (Some paneId))
        (dispatchSplit (SplitSetLayoutFn (fmap (λ l, assign_layout l paneId binding))) s))).

(** ** Starting a split *)

Section start.
(** [create k b]: the binding of the [k]-th terminal that the handler opens for
    the session of [b], if one can be opened. *)
Context (create : nat → TerminalPaneBinding → option TerminalPaneBinding).

Definition startTerminalSplitForBinding (tabs : ShellTabs) (binding : TerminalPaneBinding)
    (direction : SplitDirection) (s : SplitShell) : SplitShell :=
  let same := if autoCreateSameSession (ss_split s) then create 0 binding else None in
  match shell_layout s with
  | None =>
      match terminalSplitHostForBinding tabs binding with
      | None => s
      | Some h =>
          let '(firstPaneId, c) := nextTerminalSplitId (ss_counter s) "terminal-pane" in
          let '(nextPaneId, c) := nextTerminalSplitId c "terminal-pane" in
          let '(splitId, c) := nextTerminalSplitId c "terminal-split" in
          let nextBinding := same in
          let nextLayout := splitTerminalPane (createTerminalSplitLayout firstPaneId binding)
            firstPaneId direction splitId nextPaneId nextBinding in
          let s := set_counter c s in
          let s := dispatchSplit (SplitSetHost (Some h)) s in
          let s := dispatchSplit (SplitSetTabActive true) s in
          let s := dispatchSplit (SplitSetLayout (Some nextLayout)) s in
          let s := dispatchSplit (SplitFocusPane (Some nextPaneId)) s in
          let s := activateTerminalSplitHost tabs (Some h) s in
          match nextBinding with
          | None => requestTerminalSplitPicker nextPaneId true s
          | Some _ => s
          end
      end
  | Some l =>
      if negb (selectCanAddPane (shell_panes s)) then s
      else
        let boundPane := findTerminalSplitPaneByBinding l binding in
        match (pane_id <$> boundPane) ||? focusedPaneId (ss_split s)
                ||? (pane_id <$> head (shell_panes s)) with
        | None => s
        | Some paneId =>
            if negb (truthy (Some paneId)) then s
            else
              let '(nextPaneId, c) := nextTerminalSplitId (ss_counter s) "terminal-pane" in
              let nextBinding := match boundPane with Some _ => same | None => Some binding end in
              let '(splitId, c) := nextTerminalSplitId c "terminal-split" in
              let h := host (ss_split s) in
              let s := set_counter c s in
              let s := dispatchSplit (SplitSetLayoutFn (fmap (λ l,
                splitTerminalPane l paneId direction splitId nextPaneId nextBinding))) s in
              let s := dispatchSplit (SplitSetTabActive true) s in
              let s := activateTerminalSplitHost tabs h s in
              let s := dispatchSplit (SplitFocusPane (Some nextPaneId)) s in
              match nextBinding with
              | None => requestTerminalSplitPicker nextPaneId true s
              | Some _ => s
              end
        end
  end.

(** The loop that opens terminals until the layout is full. *)
Fixpoint fill_bindings (fuel opened : nat) (auto : bool) (binding : TerminalPaneBinding)
    (bindings : list TerminalPaneBinding) : list TerminalPaneBinding :=
  match fuel with
  | 0 => bindings
  | S fuel =>
      if auto && bool_decide (length bindings < terminalSplitMaxPanes) then
        match create opened binding with
        | Some b => fill_bindings fuel (S opened) auto binding (bindings ++ [b])
        | None => bindings
        end
      else bindings
  end.

Definition startTerminalFourPaneForBinding (tabs : ShellTabs) (binding : TerminalPaneBinding)
    (s : SplitShell) : SplitShell :=
  match host (ss_split s) ?: terminalSplitHostForBinding tabs binding with
  | None => s
  | Some h =>
      let currentBindings := omap pane_binding (shell_panes s) in
      let bindings := match currentBindings with [] => [binding] | _ => currentBindings end in
      let bindings :=
        if decide (Exists (λ b, terminalPaneBindingsEqual (Some b) (Some binding)) bindings)
        then bindings else bindings ++ [binding] in
      let bindings := fill_bindings terminalSplitMaxPanes 0 (autoCreateSameSession (ss_split s))
        binding bindings in
      let '(ids, c) := allocateFourPaneIds (ss_counter s) in
      let nextLayout := createFourPane (take terminalSplitMaxPanes bindings) ids in
      let had_host := bool_decide (is_Some (host (ss_split s))) in
      let s := set_counter c s in
      let s := if had_host then s else dispatchSplit (SplitSetHost (Some h)) s in
      let s := dispatchSplit (SplitSetTabActive true) s in
      let s := dispatchSplit (SplitSetLayout (Some (fpr_layout nextLayout))) s in
      let s := dispatchSplit (SplitFocusPane (Some (fpr_focusedPaneId nextLayout))) s in
      let s := activateTerminalSplitHost tabs (Some h) s in
      match fpr_emptyPaneId nextLayout with
      | Some p => if truthy (Some p) then requestTerminalSplitPicker p false s else s
      | None => s
      end
  end.
End start.

(** ** Removing panes *)

Definition resetTerminalSplitState (s : SplitShell) : SplitShell :=
  let s := dispatchSplit (SplitSetLayout None) s in
  let s := dispatchSplit (SplitSetHost None) s in
  let s := dispatchSplit (SplitSetTabActive false) s in
  let s := dispatchSplit (SplitFocusPane None) s in
  let s := dispatchSplit (SplitSetPicker None) s in
  let s := set_pending None s in
  let s := dispatchMulti (MxSetMode MxOff) s in
  dispatchMulti (MxSetError None) s.

(** [rendered] is the state the handler closes over; it differs from the current
    one when several panes are removed in one event. *)
Definition removeTerminalSplitPaneLayout (rendered : SplitShell) (paneId : string) (s : SplitShell) :
    SplitShell :=
  match shell_layout rendered with
  | None => s
  | Some l =>
      match closeTerminalSplitPane l paneId with
      | None => resetTerminalSplitState s
      | Some nextLayout =>
          let nextPanes := collectTerminalSplitPanes nextLayout in
          let nextFocusedPane :=
            js_find (λ pane, Some (pane_id pane) = focusedPaneId (ss_split rendered)) nextPanes
              ?: head nextPanes in
          dispatchSplit (SplitFocusPane ((pane_id <$> nextFocusedPane) ||? None))
            (dispatchSplit (SplitSetLayout (Some nextLayout)) s)
      end
  end.

Definition closeTerminalSplitEmptyPane (paneId : string) (s : SplitShell) : SplitShell :=
  let panes := shell_panes s in
  let focused := focusedPaneId (ss_split s) in
  let s := dispatchSplit (SplitSetLayoutFn (λ l, l ≫= λ l, closeTerminalSplitPane l paneId)) s in
  if decide (focused = Some paneId) then
    dispatchSplit (SplitFocusPane
      ((pane_id <$> js_find (λ pane, pane_id pane ≠ paneId) panes) ||? None)) s
  else s.

Definition handleTerminalSplitPickerOpenChange (paneId : string) (isOpen : bool) (s : SplitShell) :
    SplitShell :=
  if isOpen || negb (bool_decide (ss_pendingPane s = Some paneId)) then s
  else closeTerminalSplitEmptyPane paneId (dispatchSplit (SplitSetPicker None) (set_pending None s)).

Definition equalizeTerminalSplitPanes (s : SplitShell) : SplitShell :=
  dispatchSplit SplitBumpRevision
    (dispatchSplit (SplitSetLayoutFn (fmap equalizeTerminalSplitLayout)) s).

Definition updateTerminalSplitPaneRatio (splitId : string) (ratio : Q) (s : SplitShell) : SplitShell :=
  dispatchSplit (SplitSetLayoutFn (fmap (λ l, updateTerminalSplitRatio l splitId ratio))) s.

(** ** Sequences of commands *)

Inductive SplitCommand :=
  | CmdStart (create : nat → TerminalPaneBinding → option TerminalPaneBinding) (tabs : ShellTabs)
      (binding : TerminalPaneBinding) (direction : SplitDirection)
  | CmdFourPane (create : nat → TerminalPaneBinding → option TerminalPaneBinding) (tabs : ShellTabs)
      (binding : TerminalPaneBinding)
  | CmdAssign (paneId : string) (binding : TerminalPaneBinding)
  | CmdRemovePane (paneId : string)
  | CmdPicker (paneId : string) (isOpen : bool)
  | CmdActivate (tabs : ShellTabs) (paneId : option string)
  | CmdFocus (tabs : ShellTabs) (paneId : string)
  | CmdRatio (splitId : string) (ratio : Q)
  | CmdEqualize
  | CmdReset
  | CmdAvailable (availableKeys : gset string) (fallbackBinding : option TerminalPaneBinding).

Definition split_command (s : SplitShell) (c : SplitCommand) : SplitShell :=
  match c with
  | CmdStart create tabs b d => startTerminalSplitForBinding create tabs b d s
  | CmdFourPane create tabs b => startTerminalFourPaneForBinding create tabs b s
  | CmdAssign p b => assignTerminalSplitBinding p b s
  | CmdRemovePane p => removeTerminalSplitPaneLayout s p s
  | CmdPicker p o => handleTerminalSplitPickerOpenChange p o s
  | CmdActivate tabs p => activateTerminalSplitTab tabs p s
  | CmdFocus tabs p => focusTerminalSplitPane tabs p s
  | CmdRatio i r => updateTerminalSplitPaneRatio i r s
  | CmdEqualize => equalizeTerminalSplitPanes s
  | CmdReset => resetTerminalSplitState s
  | CmdAvailable keys fallback =>
      let '(ids, c) := allocateFourPaneIds (ss_counter s) in
      let s' := dispatchSplit (SplitAvailableBindingsChanged keys fallback (λ _, ids)) s in
      (* the ids are drawn only when the layout is rebuilt *)
      if decide (terminalSplitMaxPanes < length (shell_panes s)) then set_counter c s' else s'
  end.

(** ** Lemmas *)

(** The ids of the layout were drawn from the counter. *)
Definition allocated (counter : nat) (id : string) : Prop :=
  ∃ n : nat, 1 ≤ n ≤ counter ∧ id = "terminal-pane" +:+ "-" +:+ pretty n.

Definition layout_ok (counter : nat) (l : TerminalSplitNode) : Prop :=
  NoDup (leaf_ids l) ∧ length (leaves l) ≤ terminalSplitMaxPanes ∧
  Forall (allocated counter) (leaf_ids l).

Definition shell_ok (s : SplitShell) : Prop :=
  from_option (layout_ok (ss_counter s)) True (shell_layout s).

Lemma allocated_mono c c' id : c ≤ c' → allocated c id → allocated c' id.
Proof. intros ? (n & ? & ->). exists n. split; [lia|done]. Qed.

Lemma layout_ok_mono c c' l : c ≤ c' → layout_ok c l → layout_ok c' l.
Proof.
  intros Hc (? & ? & Ha). split_and!; [done..|].
  eapply Forall_impl; [exact Ha|]. intros. by eapply allocated_mono.
Qed.

Lemma allocated_fresh c id : allocated c id → ∀ n, c < n → id ≠ "terminal-pane" +:+ "-" +:+ pretty (A := nat) n.
Proof. intros (m & Hm & ->) n Hn Heq%split_id_inj. lia. Qed.

(** Any layout whose leaves come from a good one is good. *)
Lemma layout_ok_sub c l ls :
  layout_ok c l → ls.*2 `sublist_of` leaf_ids l → ∀ l', leaves l' = ls → layout_ok c l'.
Proof.
  intros (Hnd & Hlen & Ha) Hsub l' <-. fold (leaf_ids l') in Hsub.
  split_and!.
  - by eapply sublist_NoDup.
  - apply sublist_length in Hsub. unfold leaf_ids in Hsub. rewrite !length_fmap in Hsub. lia.
  - rewrite Forall_forall in Ha |- *. intros id Hid. apply Ha.
    by eapply sublist_subseteq.
Qed.

Lemma layout_ok_same_ids c l l' : layout_ok c l → leaf_ids l' = leaf_ids l → layout_ok c l'.
Proof. intros Hl Heq. eapply layout_ok_sub; [exact Hl| |done]. by fold (leaf_ids l'); rewrite Heq. Qed.

Lemma filter_ids_sublist (P : leaf_view → Prop) `{∀ x, Decision (P x)} l :
  (filter P (leaves l)).*2 `sublist_of` leaf_ids l.
Proof. apply fmap_sublist. apply sublist_filter. Qed.

Lemma close_layout_ok c l p l' :
  layout_ok c l → closeTerminalSplitPane l p = Some l' → layout_ok c l'.
Proof.
  intros Hl Hc. eapply layout_ok_sub; [exact Hl|apply (filter_ids_sublist (λ x, x.2 ≠ p))|].
  rewrite <- closeTerminalSplitPane_leaves, Hc. done.
Qed.

Lemma move_leaf_ids l p b : leaf_ids (moveTerminalSplitBinding l p b) = leaf_ids l.
Proof.
  unfold leaf_ids. rewrite moveTerminalSplitBinding_leaves, <- list_fmap_compose.
  apply list_fmap_ext. intros _ [b' id] _. unfold move_leaf. simpl. by repeat case_decide.
Qed.

Lemma assign_leaf_ids l p b : leaf_ids (assign_layout l p b) = leaf_ids l.
Proof.
  unfold assign_layout. cbv zeta. repeat case_match; rewrite ?move_leaf_ids; done.
Qed.

Lemma shell_layout_tabs a s : shell_layout (dispatchTabs a s) = shell_layout s.
Proof. done. Qed.

Lemma activateTerminalSplitHost_split tabs h s :
  ss_split (activateTerminalSplitHost tabs h s) = ss_split s ∧
  ss_counter (activateTerminalSplitHost tabs h s) = ss_counter s.
Proof. unfold activateTerminalSplitHost. by repeat case_match. Qed.

Lemma set_layout_result st l : layout (splitReducer st (SplitSetLayout l)) = l.
Proof. simpl. by case_decide. Qed.

Lemma set_layout_fn_result st f : layout (splitReducer st (SplitSetLayoutFn f)) = f (layout st).
Proof. simpl. by case_decide. Qed.

Lemma set_host_layout st h : layout (splitReducer st (SplitSetHost h)) = layout st.
Proof. simpl. by case_decide. Qed.

Lemma split_layout_ok c l paneId d splitId newId nb :
  layout_ok c l → length (leaves l) < terminalSplitMaxPanes →
  newId = "terminal-pane" +:+ "-" +:+ pretty (A := nat) (S c) →
  layout_ok (S (S c)) (splitTerminalPane l paneId d splitId newId nb).
Proof.
  intros (Hnd & Hlen & Ha) Hlt ->.
  assert (Forall (allocated (S (S c))) (leaf_ids l)) as Ha'.
  { eapply Forall_impl; [exact Ha|]. intros. eapply allocated_mono; [|done]. lia. }
  destruct (decide (paneId ∈ leaf_ids l)) as [Hin|Hin].
  - pose proof (splitTerminalPane_ids l paneId d splitId ("terminal-pane" +:+ "-" +:+ pretty (S c)) nb Hnd Hin)
      as Hperm.
    assert (NoDup (("terminal-pane" +:+ "-" +:+ pretty (S c)) :: leaf_ids l)) as Hnd'.
    { apply NoDup_cons. split; [|done]. intros Hx. rewrite Forall_forall in Ha.
      by eapply (allocated_fresh c _ (Ha _ Hx) (S c)); [lia|]. }
    split_and!.
    + by rewrite Hperm.
    + apply Permutation_length in Hperm. unfold leaf_ids in Hperm. simpl in Hperm.
      rewrite !length_fmap in Hperm. rewrite Hperm. lia.
    + rewrite Hperm. apply Forall_cons. split; [|done]. exists (S c). split; [lia|done].
  - split_and!; unfold leaf_ids in *; rewrite splitTerminalPane_leaves, split_leaf_notin by done;
      [done|lia|done].
Qed.

Lemma four_pane_layout_ok c bindings :
  layout_ok (allocateFourPaneIds c).2 (fpr_layout (createFourPane bindings (allocateFourPaneIds c).1)).
Proof.
  assert (∀ n, c < n ≤ c + 7 → allocated (c + 7) ("terminal-pane" +:+ "-" +:+ pretty n)) as Ha.
  { intros n Hn. exists n. split; [lia|done]. }
  cbn - [pretty]. replace (S (S (S (S (S (S (S c))))))) with (c + 7) by lia. split_and!.
  - cbn - [pretty]. repeat (apply NoDup_cons; split); [| | | |by apply NoDup_nil];
      rewrite ?elem_of_cons, ?elem_of_nil; intros Heq; repeat destruct Heq as [Heq|Heq];
      try done; apply (split_id_inj "terminal-pane") in Heq; lia.
  - done.
  - cbn - [pretty]. repeat (apply Forall_cons; split); [apply Ha; lia..|by apply Forall_nil].
Qed.

Abbreviation opt_ok c o := (from_option (layout_ok c) True o).

Lemma normalize_layout_ok c st keys fallback alloc :
  opt_ok c (layout st) → opt_ok c (layout (normalize st keys fallback alloc)).
Proof.
  intros Hok. unfold normalize. destruct (layout st) as [l0|] eqn:El; [|by rewrite El].
  simpl in Hok. cbv zeta. set (unavailable := list_to_set _).
  destruct (removeTerminalSplitBindings l0 unavailable) as [l1|] eqn:E1; [|done].
  assert (layout_ok c l1) as Hl1.
  { eapply layout_ok_sub; [exact Hok|apply (filter_ids_sublist (λ x, x.2 ∉ removed_ids l0 unavailable))|].
    rewrite <- removeTerminalSplitBindings_view, E1. done. }
  unfold rebuild_oversized. rewrite decide_False.
  2: { rewrite collect_length. destruct Hl1 as (_ & ? & _). lia. }
  case_decide; [done|]. case_decide; [|done]. by rewrite El.
Qed.

Lemma opt_ok_mono c c' o : c ≤ c' → opt_ok c o → opt_ok c' o.
Proof. destruct o; [|done]. apply layout_ok_mono. Qed.

Lemma fmap_ok c c' (f : TerminalSplitNode → TerminalSplitNode) o :
  (∀ l, layout_ok c l → layout_ok c' (f l)) → opt_ok c o → opt_ok c' (f <$> o).
Proof. destruct o; [|done]. simpl. auto. Qed.

Lemma focus_layout tabs p s :
  shell_layout (focusTerminalSplitPane tabs p s) = shell_layout s ∧
  ss_counter (focusTerminalSplitPane tabs p s) = ss_counter s.
Proof. unfold focusTerminalSplitPane. cbv zeta. by repeat case_match. Qed.

Lemma activate_layout tabs p s :
  shell_layout (activateTerminalSplitTab tabs p s) = shell_layout s ∧
  ss_counter (activateTerminalSplitTab tabs p s) = ss_counter s.
Proof.
  unfold activateTerminalSplitTab. cbv zeta.
  destruct (shell_layout s) as [l|] eqn:El; [|by rewrite El].
  destruct (host (ss_split s)) as [h|]; [|by rewrite El].
  match goal with |- context [match ?o with Some p => _ | None => _ end] => destruct o as [q|] end;
    [rewrite !(proj1 (focus_layout _ _ _)), !(proj2 (focus_layout _ _ _))|];
    unfold shell_layout; rewrite !(proj1 (activateTerminalSplitHost_split _ _ _)),
      !(proj2 (activateTerminalSplitHost_split _ _ _)); done.
Qed.

Lemma start_ok create tabs b d s :
  shell_ok s → shell_ok (startTerminalSplitForBinding create tabs b d s).
Proof.
  intros Hok. unfold startTerminalSplitForBinding. cbv zeta.
  destruct (shell_layout s) as [l|] eqn:El.
  - unfold selectCanAddPane, shell_panes, selectSplitPanes. rewrite El. simpl from_option.
    case_bool_decide as Hlt; cbn [negb]; [|done]. rewrite collect_length in Hlt.
    destruct (_ ||? _) as [paneId|]; [|done]. destruct (negb _); [done|].
    unfold shell_ok in Hok. rewrite El in Hok. simpl in Hok.
    set (nb := match findTerminalSplitPaneByBinding _ _ with Some _ => _ | None => _ end).
    cbn [nextTerminalSplitId].
    assert (opt_ok (S (S (ss_counter s))) (Some (splitTerminalPane l paneId d
      ("terminal-split" +:+ "-" +:+ pretty (S (S (ss_counter s)))) ("terminal-pane" +:+ "-" +:+ pretty (S (ss_counter s))) nb)))
      as Hnew by by apply split_layout_ok.
    unfold shell_ok, shell_layout. destruct nb; cbn [dispatchSplit requestTerminalSplitPicker ss_split ss_counter splitReducer with_focus layout];
      rewrite (proj1 (activateTerminalSplitHost_split _ _ _)), (proj2 (activateTerminalSplitHost_split _ _ _));
      cbn [dispatchSplit ss_split ss_counter set_counter];
      (change (layout (splitReducer ?st (SplitSetTabActive true))) with (layout st));
      rewrite set_layout_fn_result; fold (shell_layout s); rewrite El; exact Hnew.
  - destruct (terminalSplitHostForBinding tabs b) as [h|]; [|done].
    set (nb := if autoCreateSameSession _ then _ else _). cbn [nextTerminalSplitId].
    assert (opt_ok (S (S (S (ss_counter s)))) (Some (splitTerminalPane
      (createTerminalSplitLayout ("terminal-pane" +:+ "-" +:+ pretty (S (ss_counter s))) b)
      ("terminal-pane" +:+ "-" +:+ pretty (S (ss_counter s))) d
      ("terminal-split" +:+ "-" +:+ pretty (S (S (S (ss_counter s)))))
      ("terminal-pane" +:+ "-" +:+ pretty (S (S (ss_counter s)))) nb))) as Hnew.
    { apply (split_layout_ok (S (ss_counter s))); [|simpl; unfold terminalSplitMaxPanes; lia|done].
      split_and!; [apply NoDup_singleton|simpl; unfold terminalSplitMaxPanes; lia|].
      apply Forall_cons. split; [|by apply Forall_nil]. exists (S (ss_counter s)). split; [lia|done]. }
    unfold shell_ok, shell_layout. destruct nb; cbn [dispatchSplit requestTerminalSplitPicker ss_split ss_counter splitReducer];
      rewrite (proj1 (activateTerminalSplitHost_split _ _ _)), (proj2 (activateTerminalSplitHost_split _ _ _));
      cbn [dispatchSplit ss_split ss_counter set_counter];
      (change (layout (splitReducer ?st (SplitFocusPane ?p))) with (layout st));
      rewrite set_layout_result; exact Hnew.
Qed.

Lemma four_ok create tabs b s :
  shell_ok s → shell_ok (startTerminalFourPaneForBinding create tabs b s).
Proof.
  intros Hok. unfold startTerminalFourPaneForBinding.
  destruct (_ ?: _) as [h|]; [|done]. cbv zeta.
  set (bindings := take _ _).
  pose proof (four_pane_layout_ok (ss_counter s) bindings) as Hnew.
  destruct (allocateFourPaneIds (ss_counter s)) as [ids c]. cbn [fst snd] in Hnew.
  set (four := createFourPane bindings ids) in *.
  set (s1 := if bool_decide _ then set_counter c s else _).
  assert (ss_counter s1 = c) as Hc by (unfold s1; by case_bool_decide).
  set (s2 := activateTerminalSplitHost _ _ _).
  assert (shell_layout s2 = Some (fpr_layout four) ∧ ss_counter s2 = c) as [Hl2 Hc2].
  { unfold s2, shell_layout.
    rewrite (proj1 (activateTerminalSplitHost_split _ _ _)), (proj2 (activateTerminalSplitHost_split _ _ _)).
    cbn [dispatchSplit ss_split ss_counter].
    split; [|done]. change (layout (splitReducer ?st (SplitFocusPane ?p))) with (layout st).
    apply set_layout_result. }
  assert (shell_ok s2) as Hs2 by (unfold shell_ok; rewrite Hl2, Hc2; exact Hnew).
  destruct (fpr_emptyPaneId four) as [p|]; [|done]. by destruct (truthy (Some p)).
Qed.

Lemma reset_layout s : shell_layout (resetTerminalSplitState s) = None.
Proof.
  unfold resetTerminalSplitState. cbv zeta. unfold shell_layout.
  cbn [dispatchSplit dispatchMulti set_pending ss_split].
  do 3 (change (layout (splitReducer ?st (SplitSetPicker ?p))) with (layout st) ||
    change (layout (splitReducer ?st (SplitFocusPane ?p))) with (layout st) ||
    change (layout (splitReducer ?st (SplitSetTabActive ?p))) with (layout st)).
  rewrite set_host_layout. apply set_layout_result.
Qed.

Lemma set_fn_ok c f s :
  shell_ok s → (∀ l, layout_ok (ss_counter s) l → layout_ok c (f l)) → c = ss_counter s →
  shell_ok (dispatchSplit (SplitSetLayoutFn (fmap f)) s).
Proof.
  intros Hok Hf ->. unfold shell_ok, shell_layout. cbn [dispatchSplit ss_split ss_counter].
  rewrite set_layout_fn_result. by apply (fmap_ok (ss_counter s)).
Qed.

Lemma remove_ok p s : shell_ok s → shell_ok (removeTerminalSplitPaneLayout s p s).
Proof.
  intros Hok. unfold removeTerminalSplitPaneLayout. destruct (shell_layout s) as [l|] eqn:El; [|done].
  unfold shell_ok in Hok. rewrite El in Hok.
  destruct (closeTerminalSplitPane l p) as [l'|] eqn:Ec.
  - unfold shell_ok, shell_layout. cbn [dispatchSplit ss_split ss_counter].
    change (layout (splitReducer ?st (SplitFocusPane ?q))) with (layout st).
    rewrite set_layout_result. by apply (close_layout_ok _ l p).
  - unfold shell_ok. by rewrite reset_layout.
Qed.

Lemma close_empty_ok p s : shell_ok s → shell_ok (closeTerminalSplitEmptyPane p s).
Proof.
  intros Hok. unfold closeTerminalSplitEmptyPane. cbv zeta.
  set (s1 := dispatchSplit (SplitSetLayoutFn _) s).
  assert (shell_ok s1) as Hs1.
  { unfold shell_ok, shell_layout, s1. cbn [dispatchSplit ss_split ss_counter].
    rewrite set_layout_fn_result. unfold shell_ok, shell_layout in Hok.
    destruct (layout (ss_split s)) as [l|]; [|done]. simpl in *.
    destruct (closeTerminalSplitPane l p) as [l'|] eqn:Ec; [|done]. by apply (close_layout_ok _ l p). }
  by case_decide.
Qed.

Lemma split_command_ok s c : shell_ok s → shell_ok (split_command s c).
Proof.
  intros Hok. destruct c as [create tabs b d|create tabs b|p b|p|p o|tabs p|tabs p|i r| | |keys fb];
    cbn [split_command].
  - by apply start_ok.
  - by apply four_ok.
  - apply (set_fn_ok (ss_counter s) (λ l, assign_layout l p b) s); [done| |done].
    intros l Hl. eapply layout_ok_same_ids; [exact Hl|]. apply assign_leaf_ids.
  - by apply remove_ok.
  - unfold handleTerminalSplitPickerOpenChange. destruct (_ || _); [done|]. by apply close_empty_ok.
  - unfold shell_ok. by rewrite (proj1 (activate_layout _ _ _)), (proj2 (activate_layout _ _ _)).
  - unfold shell_ok. by rewrite (proj1 (focus_layout _ _ _)), (proj2 (focus_layout _ _ _)).
  - apply (set_fn_ok (ss_counter s)); [done| |done]. intros l Hl.
    eapply layout_ok_same_ids; [exact Hl|]. unfold leaf_ids. by rewrite updateTerminalSplitRatio_leaves.
  - apply (set_fn_ok (ss_counter s) equalizeTerminalSplitLayout s); [done| |done]. intros l Hl.
    eapply layout_ok_same_ids; [exact Hl|]. unfold leaf_ids. by rewrite equalizeTerminalSplitLayout_leaves.
  - unfold shell_ok. by rewrite reset_layout.
  - destruct (allocateFourPaneIds (ss_counter s)) as [ids c] eqn:Ea.
    assert (c = ss_counter s + 7) as -> by (unfold allocateFourPaneIds in Ea; cbn in Ea; simplify_eq; lia).
    assert (opt_ok (ss_counter s) (shell_layout (dispatchSplit (SplitAvailableBindingsChanged keys fb (λ _, ids)) s))).
    { by apply normalize_layout_ok. }
    case_decide; [|done]. unfold shell_ok. apply (opt_ok_mono (ss_counter s)); [cbn; lia|done].
Qed.

(** C8: in every session that starts without a split, whatever sequence of split
    commands and terminal changes occurs, no two panes share an id, there are never
    more than four panes, every pane id was drawn from the counter (it is
    [terminal-pane-<n>] for some n the counter has already passed), and so the next
    id drawn is always new. *)
Theorem split_panes_unique commands l :
  let s := foldl split_command initialSplitShell commands in
  shell_layout s = Some l →
  NoDup (leaf_ids l) ∧ length (leaves l) ≤ terminalSplitMaxPanes ∧
  (∀ id, id ∈ leaf_ids l →
    ∃ n, 1 ≤ n ≤ ss_counter s ∧ id = "terminal-pane" +:+ "-" +:+ pretty (A := nat) n) ∧
  (nextTerminalSplitId (ss_counter s) "terminal-pane").1 ∉ leaf_ids l.
Proof.
  cbv zeta.
  assert (∀ s, shell_ok s → shell_ok (foldl split_command s commands)) as Hrun.
  { induction commands as [|c cs IH]; intros s Hs; [done|]. cbn. by apply IH, split_command_ok. }
  specialize (Hrun initialSplitShell I). intros El. unfold shell_ok in Hrun. rewrite El in Hrun.
  destruct Hrun as (Hnd & Hlen & Ha). rewrite Forall_forall in Ha.
  split; [done|split; [done|split; [intros id Hid; exact (Ha id Hid)|]]]. intros Hin. eapply (allocated_fresh _ _ (Ha _ Hin)); [|done]. lia.
Qed.

Definition demo_tabs : ShellTabs := mkShellTabs [mkRef "c" "a"; mkRef "c" "b"] ["l"].
Definition demo_commands : list SplitCommand :=
  [CmdStart (λ _ _, None) demo_tabs (mkBinding PaneSsh "a") SplitRow;
   CmdAssign "terminal-pane-2" (mkBinding PaneLocal "l");
   CmdStart (λ _ _, None) demo_tabs (mkBinding PaneSsh "b") SplitColumn].

Lemma split_panes_unique_witness :
  ∃ l, shell_layout (foldl split_command initialSplitShell demo_commands) = Some l ∧
    length (leaves l) = 3 ∧ NoDup (leaf_ids l).
Proof.
  eexists. split; [vm_compute; reflexivity|]. split; [reflexivity|].
  apply (split_panes_unique demo_commands). vm_compute; reflexivity.
Defined.

(** ** Assigning: the swap *)

(** No terminal is shown by two panes. *)
Definition bindings_unique (l : TerminalSplitNode) : Prop :=
  ∀ b i j, (Some b, i) ∈ leaves l → (Some b, j) ∈ leaves l → i = j.

(** What assigning does to one leaf, [t] being what the target pane showed. *)
Definition assigned_leaf (paneId : string) (binding : TerminalPaneBinding)
    (t : option TerminalPaneBinding) (x : leaf_view) : leaf_view :=
  if decide (x.2 = paneId) then (Some binding, x.2)
  else if decide (x.1 = Some binding) then (t, x.2) else x.

Lemma find_pane_Some l b p :
  findTerminalSplitPaneByBinding l b = Some p → (Some b, pane_id p) ∈ leaves l.
Proof.
  unfold findTerminalSplitPaneByBinding. intros [Hin Hb]%js_find_Some.
  apply terminalPaneBindingsEqual_spec in Hb as (x & Hx & [= ->]).
  apply elem_of_collect_view. eauto.
Qed.

Lemma find_pane_None l b : findTerminalSplitPaneByBinding l b = None → ∀ i, (Some b, i) ∉ leaves l.
Proof.
  unfold findTerminalSplitPaneByBinding. rewrite js_find_None. intros Hno i Hin.
  apply elem_of_collect_view in Hin as (p & Hp & Hb & _). apply (Hno p Hp). rewrite Hb. done.
Qed.

Lemma find_target l paneId t :
  NoDup (leaf_ids l) → (t, paneId) ∈ leaves l →
  js_find (λ pane, pane_id pane = paneId) (collectTerminalSplitPanes l) ≫= pane_binding = t.
Proof.
  intros Hnd Ht. destruct (js_find _ _) as [q|] eqn:Hq.
  - apply (js_find_Some (λ pane, pane_id pane = paneId)) in Hq as [Hq <-]. simpl.
    apply collect_view in Hq.
    assert (pane_view q = (t, pane_id q)) as [= ->]; [|done].
    by apply (NoDup_fmap_inj_elem snd (leaves l)).
  - rewrite js_find_None in Hq. apply elem_of_collect_view in Ht as (p & Hp & _ & Hid).
    by destruct (Hq p Hp).
Qed.

Lemma move_leaves_ext l paneId b (f : leaf_view → leaf_view) :
  (∀ x, x ∈ leaves l → move_leaf paneId b x = f x) →
  leaves (moveTerminalSplitBinding l paneId b) = f <$> leaves l.
Proof.
  intros Hf. rewrite moveTerminalSplitBinding_leaves. apply list_fmap_ext.
  intros i x Hx%list_elem_of_lookup_2. auto.
Qed.

Lemma assign_layout_leaves l paneId binding t :
  NoDup (leaf_ids l) → bindings_unique l → (t, paneId) ∈ leaves l →
  leaves (assign_layout l paneId binding) = assigned_leaf paneId binding t <$> leaves l.
Proof.
  intros Hnd Hu Ht. unfold assign_layout. cbv zeta. rewrite (find_target _ _ _ Hnd Ht).
  destruct (findTerminalSplitPaneByBinding l binding) as [prev|] eqn:Hp.
  - apply find_pane_Some in Hp as Hprev. case_decide as Hid.
    + apply move_leaves_ext. intros [b i] Hx. unfold move_leaf, assigned_leaf. simpl.
      repeat case_decide; try done. subst. by destruct (Hu _ _ _ Hx Hprev).
    + destruct t as [tb|].
      * rewrite decide_False.
        2: { intros (x & [= <-] & [= ->])%terminalPaneBindingsEqual_spec. apply Hid.
             by rewrite (Hu _ _ _ Hprev Ht). }
        rewrite moveTerminalSplitBinding_leaves, moveTerminalSplitBinding_leaves, <- list_fmap_compose.
        apply list_fmap_ext. intros k [b i] Hx%list_elem_of_lookup_2.
        unfold assigned_leaf, move_leaf, compose. simpl.
        assert (b = Some tb → i = paneId) as Htb by (intros ->; eapply Hu; done).
        assert (b = Some binding → i = pane_id prev) as Hpb by (intros ->; eapply Hu; done).
        assert (i = pane_id prev → b = Some binding).
        { intros ->. by pose proof (NoDup_fmap_inj_elem snd (leaves l) _ _ Hnd Hx Hprev eq_refl) as [= ->]. }
        repeat (case_decide; simplify_eq/=; try done); try naive_solver.
      * apply move_leaves_ext. intros [b i] Hx. unfold move_leaf, assigned_leaf. simpl.
        by repeat case_decide.
  - apply move_leaves_ext. intros [b i] Hx. unfold move_leaf, assigned_leaf. simpl.
    repeat case_decide; try done. subst. by destruct (find_pane_None _ _ Hp i).
Qed.

(** Assigning a terminal to a pane swaps: the pane shows the terminal, the pane
    that showed it (if another one did) now shows what the target showed, every
    other pane is untouched, the panes stay where they are, no terminal becomes
    visible twice, and the pane is focused with the picker closed. *)
Theorem assign_swaps s l paneId binding t :
  shell_layout s = Some l → NoDup (leaf_ids l) → bindings_unique l → (t, paneId) ∈ leaves l →
  let s' := assignTerminalSplitBinding paneId binding s in
  ∃ l', shell_layout s' = Some l' ∧
    leaf_ids l' = leaf_ids l ∧ bindings_unique l' ∧
    (Some binding, paneId) ∈ leaves l' ∧
    (∀ j, j ≠ paneId → (Some binding, j) ∈ leaves l → (t, j) ∈ leaves l') ∧
    (∀ b j, j ≠ paneId → b ≠ Some binding → (b, j) ∈ leaves l → (b, j) ∈ leaves l') ∧
    focusedPaneId (ss_split s') = Some paneId ∧ picker (ss_split s') = None ∧
    ss_pendingPane s' = None.
Proof.
  intros El Hnd Hu Ht. cbv zeta. exists (assign_layout l paneId binding).
  pose proof (assign_layout_leaves l paneId binding t Hnd Hu Ht) as Hl.
  assert (∀ x, x ∈ leaves l → assigned_leaf paneId binding t x ∈ leaves (assign_layout l paneId binding))
    as Hin by (intros; rewrite Hl; by apply list_elem_of_fmap_2).
  split_and!; try done.
  - unfold shell_layout, assignTerminalSplitBinding. cbn [dispatchSplit set_pending ss_split].
    change (layout (splitReducer ?st (SplitSetPicker ?q))) with (layout st).
    change (layout (splitReducer ?st (SplitFocusPane ?q))) with (layout st).
    rewrite set_layout_fn_result. unfold shell_layout in El. by rewrite El.
  - apply assign_leaf_ids.
  - intros b i j. rewrite Hl, !list_elem_of_fmap. unfold assigned_leaf.
    intros ([b1 i1] & H1 & Hx1) ([b2 i2] & H2 & Hx2). simpl in *.
    assert (∀ b j, t = Some b → (Some b, j) ∈ leaves l → j = paneId) as Hut
      by (intros b' j' -> Hj; by eapply Hu).
    repeat case_decide; simplify_eq; try done; try (by eapply Hu); naive_solver.
  - specialize (Hin _ Ht). unfold assigned_leaf in Hin. simpl in Hin. by rewrite decide_True in Hin.
  - intros j Hj Hx%Hin. unfold assigned_leaf in Hx. simpl in Hx.
    by rewrite decide_False, decide_True in Hx.
  - intros b j Hj Hb Hx%Hin. unfold assigned_leaf in Hx. simpl in Hx.
    by rewrite !decide_False in Hx.
Qed.

Lemma assign_swaps_witness :
  let s := foldl split_command initialSplitShell demo_commands in
  ∃ l', shell_layout (assignTerminalSplitBinding "terminal-pane-1" (mkBinding PaneLocal "l") s) = Some l' ∧
    (Some (mkBinding PaneSsh "a"), "terminal-pane-2") ∈ leaves l'.
Proof.
  cbv zeta. set (s := foldl split_command initialSplitShell demo_commands).
  assert (∃ l, shell_layout s = Some l ∧ NoDup (leaf_ids l) ∧ bindings_unique l ∧
    (Some (mkBinding PaneSsh "a"), "terminal-pane-1") ∈ leaves l ∧
    (Some (mkBinding PaneLocal "l"), "terminal-pane-2") ∈ leaves l) as (l & El & Hnd & Hu & Ha & Hb).
  { eexists. split; [vm_compute; reflexivity|]. split; [vm_decide|]. split.
    { intros b i j. cbn. rewrite !elem_of_cons, !elem_of_nil. naive_solver. }
    split; vm_decide. }
  destruct (assign_swaps s l "terminal-pane-1" (mkBinding PaneLocal "l") (Some (mkBinding PaneSsh "a"))
    El Hnd Hu Ha) as (l' & El' & _ & _ & _ & Hs & _).
  exists l'. split; [exact El'|]. by apply Hs.
Defined.
