(* ===== verification/ClosePaths.v ===== *)
(** * Running a close plan ([features/layout/WorkspaceShell.tsx]: [executeClosePlan] and
      the five close paths)

    The collections the shell keeps in refs, the ones it reads from the rendered
    state, and the handlers that remove sessions from them and dispatch the close
    actions. Backend calls are a log. *)

From S2P Require Import Prelude SplitLayout SplitState SessionTypes MultiExec Instances CloseDecision SessionTabs ItemClose ShellSplit.

(** ** State *)

Inductive ShellEffect :=
  | EffCancelTransfer (transferId : string)
  | EffDockerInvalidate (connectionId : string)
  | EffTunnelStop (connectionId : string)
  | EffTerminalClose (sessionId : string)
  | EffWarmupStop (tabId : string)
  | EffReleaseTemporary (contextRef : string)
  | EffRdpClose (backendSessionId : string)
  | EffVncClose (backendSessionId : string)
  | EffVncWindowClose (windowLabel sessionId : string).

(** An RDP or VNC session, with what closing it reads. *)
Record RemoteSession := mkRemoteSession {
  rm_connectionId : string;
  rm_id : string;
  rm_backend : option string;
  rm_windowLabel : option string;
}.

(** Dialogs and requests about remote files; the last four hold the connection. *)
Record FileDialogs := mkDialogs {
  fd_pendingClose : option string;
  fd_pendingConflict : option string;
  fd_deleteTarget : option string;
  fd_textAction : option string;
  fd_locate : option string;
  fd_refresh : option string;
}.

Record Shell := mkShell {
  sh_split : SplitShell;
  sh_terminals : list TerminalTab;
  sh_locals : list LocalTerminalTab;
  sh_rdp : list RemoteSession;
  sh_vnc : list RemoteSession;
  sh_files : list FileEditorTab;
  sh_directories : gmap string string;
  sh_warmup : gset string;
  sh_temporary : list string;
  sh_fileLayouts : gmap string RemoteFileOpenMode;
  sh_dialogs : FileDialogs;
  sh_vncPayloads : gset string;
  sh_effects : list ShellEffect;
}.

(** What the handlers close over: the state of the last render. *)
Record Rendered := mkRendered {
  rn_files : list FileEditorTab;
  rn_activeFile : option string;
  rn_textAction : option string;
}.

(** ** References and updates *)

Definition terminal_ref (t : TerminalTab) : SessionRef := mkRef (tt_connectionId t) (tt_id t).
Definition file_ref (f : FileEditorTab) : SessionRef := mkRef (fe_connectionId f) (fe_id f).
Definition remote_ref (r : RemoteSession) : SessionRef := mkRef (rm_connectionId r) (rm_id r).

(** [snapshotFromRefs]: refs for the sessions, the rendered state for the files. *)
Definition snapshotFromRefs (rn : Rendered) (sh : Shell) : CloseSnapshot :=
  mkSnapshot (lt_id <$> sh_locals sh) (remote_ref <$> sh_rdp sh) (file_ref <$> rn_files rn)
    (terminal_ref <$> sh_terminals sh) (remote_ref <$> sh_vnc sh).

Definition with_files_snapshot (files : list FileEditorTab) (s : CloseSnapshot) : CloseSnapshot :=
  mkSnapshot (cs_localTerminalTabs s) (cs_rdpSessions s) (file_ref <$> files) (cs_terminalTabs s)
    (cs_vncSessions s).

Definition sh_dispatch (a : SessionTabsAction) (sh : Shell) : Shell :=
  mkShell (dispatchTabs a (sh_split sh)) (sh_terminals sh) (sh_locals sh) (sh_rdp sh) (sh_vnc sh)
    (sh_files sh) (sh_directories sh) (sh_warmup sh) (sh_temporary sh) (sh_fileLayouts sh)
    (sh_dialogs sh) (sh_vncPayloads sh) (sh_effects sh).
Definition sh_with_split (f : SplitShell → SplitShell) (sh : Shell) : Shell :=
  mkShell (f (sh_split sh)) (sh_terminals sh) (sh_locals sh) (sh_rdp sh) (sh_vnc sh)
    (sh_files sh) (sh_directories sh) (sh_warmup sh) (sh_temporary sh) (sh_fileLayouts sh)
    (sh_dialogs sh) (sh_vncPayloads sh) (sh_effects sh).
Definition sh_emit (es : list ShellEffect) (sh : Shell) : Shell :=
  mkShell (sh_split sh) (sh_terminals sh) (sh_locals sh) (sh_rdp sh) (sh_vnc sh)
    (sh_files sh) (sh_directories sh) (sh_warmup sh) (sh_temporary sh) (sh_fileLayouts sh)
    (sh_dialogs sh) (sh_vncPayloads sh) (sh_effects sh ++ es).
Definition sh_set_terminals (ts : list TerminalTab) (sh : Shell) : Shell :=
  mkShell (sh_split sh) ts (sh_locals sh) (sh_rdp sh) (sh_vnc sh)
    (sh_files sh) (sh_directories sh) (sh_warmup sh) (sh_temporary sh) (sh_fileLayouts sh)
    (sh_dialogs sh) (sh_vncPayloads sh) (sh_effects sh).
Definition sh_set_locals (ls : list LocalTerminalTab) (sh : Shell) : Shell :=
  mkShell (sh_split sh) (sh_terminals sh) ls (sh_rdp sh) (sh_vnc sh)
    (sh_files sh) (sh_directories sh) (sh_warmup sh) (sh_temporary sh) (sh_fileLayouts sh)
    (sh_dialogs sh) (sh_vncPayloads sh) (sh_effects sh).
Definition sh_set_rdp (rs : list RemoteSession) (sh : Shell) : Shell :=
  mkShell (sh_split sh) (sh_terminals sh) (sh_locals sh) rs (sh_vnc sh)
    (sh_files sh) (sh_directories sh) (sh_warmup sh) (sh_temporary sh) (sh_fileLayouts sh)
    (sh_dialogs sh) (sh_vncPayloads sh) (sh_effects sh).
Definition sh_set_vnc (vs : list RemoteSession) (payloads : gset string) (sh : Shell) : Shell :=
  mkShell (sh_split sh) (sh_terminals sh) (sh_locals sh) (sh_rdp sh) vs
    (sh_files sh) (sh_directories sh) (sh_warmup sh) (sh_temporary sh) (sh_fileLayouts sh)
    (sh_dialogs sh) payloads (sh_effects sh).
Definition sh_set_directories (d : gmap string string) (sh : Shell) : Shell :=
  mkShell (sh_split sh) (sh_terminals sh) (sh_locals sh) (sh_rdp sh) (sh_vnc sh)
    (sh_files sh) d (sh_warmup sh) (sh_temporary sh) (sh_fileLayouts sh)
    (sh_dialogs sh) (sh_vncPayloads sh) (sh_effects sh).
Definition sh_set_temporary (t : list string) (sh : Shell) : Shell :=
  mkShell (sh_split sh) (sh_terminals sh) (sh_locals sh) (sh_rdp sh) (sh_vnc sh)
    (sh_files sh) (sh_directories sh) (sh_warmup sh) t (sh_fileLayouts sh)
    (sh_dialogs sh) (sh_vncPayloads sh) (sh_effects sh).
Definition sh_set_file_state (files : list FileEditorTab) (layouts : gmap string RemoteFileOpenMode)
    (dialogs : FileDialogs) (sh : Shell) : Shell :=
  mkShell (sh_split sh) (sh_terminals sh) (sh_locals sh) (sh_rdp sh) (sh_vnc sh)
    files (sh_directories sh) (sh_warmup sh) (sh_temporary sh) layouts
    dialogs (sh_vncPayloads sh) (sh_effects sh).

(** ** The handlers

    [tauri] is [hasTauriRuntime()]. *)

Section handlers.
Context (tauri : bool) (rn : Rendered).

(** A capture is stopped once: the stop function is removed first. *)
Definition stopTerminalWarmupCapture (tabId : string) (sh : Shell) : Shell :=
  if decide (tabId ∈ sh_warmup sh) then
    sh_emit [EffWarmupStop tabId]
      (mkShell (sh_split sh) (sh_terminals sh) (sh_locals sh) (sh_rdp sh) (sh_vnc sh)
        (sh_files sh) (sh_directories sh) (sh_warmup sh ∖ {[tabId]}) (sh_temporary sh)
        (sh_fileLayouts sh) (sh_dialogs sh) (sh_vncPayloads sh) (sh_effects sh))
  else sh.

Definition stop_warmups (tabIds : list string) (sh : Shell) : Shell :=
  foldl (λ sh id, stopTerminalWarmupCapture id sh) sh tabIds.

(** [new Set(...)] of the truthy values, in order. *)
Fixpoint js_unique (l : list string) : list string :=
  match l with
  | [] => []
  | x :: l => x :: filter (λ y, y ≠ x) (js_unique l)
  end.

Definition truthy_values (l : list (option string)) : list string :=
  omap (λ o, if truthy o then o else None) l.

Definition closeRuntimeTerminalSessions (sessions : list (option string)) (sh : Shell) : Shell :=
  sh_emit (EffTerminalClose <$> js_unique (truthy_values sessions)) sh.

Definition removeDirectoryState (directories : gmap string string) (tabIds : list string) :
    gmap string string := forget_keys tabIds directories.

Definition invalidateDockerExecConnection (connectionId : string) (sh : Shell) : Shell :=
  if tauri then sh_emit [EffDockerInvalidate connectionId] sh else sh.

Definition finalTemporaryContextRefs (closingTabs remainingTabs : list TerminalTab) : list string :=
  js_unique (filter (λ v, ¬ Exists (λ tab, tt_temporaryContextRef tab = Some v) remainingTabs)
    (truthy_values (tt_temporaryContextRef <$> closingTabs))).

Definition closeTerminalTabs (tabIds : list string) (sh : Shell) : Shell :=
  let closingTabs := filter (λ tab, tt_id tab ∈ tabIds) (sh_terminals sh) in
  let closingTabIds := tt_id <$> closingTabs in
  let sh := stop_warmups closingTabIds sh in
  let sh := closeRuntimeTerminalSessions (tt_sessionId <$> closingTabs) sh in
  let sh := sh_set_directories (removeDirectoryState (sh_directories sh) closingTabIds) sh in
  let nextTabs := filter (λ tab, tt_id tab ∉ tabIds) (sh_terminals sh) in
  let finalClosedConnectionIds :=
    js_unique (filter (λ c, ¬ Exists (λ tab, tt_connectionId tab = c) nextTabs)
      (tt_connectionId <$> closingTabs)) in
  let sh := foldl (λ sh c, invalidateDockerExecConnection c sh) sh finalClosedConnectionIds in
  let sh := sh_emit (EffReleaseTemporary <$> finalTemporaryContextRefs closingTabs nextTabs) sh in
  let sh := sh_set_temporary (filter (λ c, c ∉ finalClosedConnectionIds) (sh_temporary sh)) sh in
  let sh := sh_set_terminals nextTabs sh in
  sh_dispatch (CloseTerminals (terminal_ref <$> closingTabs) (snapshotFromRefs rn sh)) sh.

Definition closeLocalTerminalTabs (tabIds : list string) (sh : Shell) : Shell :=
  let sh := stop_warmups tabIds sh in
  let sh := closeRuntimeTerminalSessions
    (lt_sessionId <$> filter (λ tab, lt_id tab ∈ tabIds) (sh_locals sh)) sh in
  let sh := sh_set_locals (filter (λ tab, lt_id tab ∉ tabIds) (sh_locals sh)) sh in
  sh_dispatch (CloseLocalTerminals tabIds (snapshotFromRefs rn sh)) sh.

Definition removeRdpSessionsLocally (sessionIds : list string) (sh : Shell) : Shell :=
  if decide (sessionIds = []) then sh
  else
    let sh := sh_set_rdp (filter (λ s, rm_id s ∉ sessionIds) (sh_rdp sh)) sh in
    sh_dispatch (RemoveRdp sessionIds (snapshotFromRefs rn sh)) sh.

Definition closeRdpSessions (sessionIds : list string) (sh : Shell) : Shell :=
  if decide (sessionIds = []) then sh
  else
    let closingSessions := filter (λ s, rm_id s ∈ sessionIds) (sh_rdp sh) in
    let sh :=
      if tauri then sh_emit (EffRdpClose <$> truthy_values (rm_backend <$> closingSessions)) sh
      else sh in
    removeRdpSessionsLocally sessionIds sh.

Definition removeVncSessionsLocally (sessionIds : list string) (sh : Shell) : Shell :=
  if decide (sessionIds = []) then sh
  else
    let sh := sh_set_vnc (filter (λ s, rm_id s ∉ sessionIds) (sh_vnc sh)) (sh_vncPayloads sh) sh in
    sh_dispatch (RemoveVnc sessionIds (snapshotFromRefs rn sh)) sh.

Definition vnc_close_effects (s : RemoteSession) : list ShellEffect :=
  (EffVncClose <$> truthy_values [rm_backend s]) ++
  ((λ w, EffVncWindowClose w (rm_id s)) <$> truthy_values [rm_windowLabel s]).

Definition closeVncSessions (sessionIds : list string) (sh : Shell) : Shell :=
  if decide (sessionIds = []) then sh
  else
    let closingSessions := filter (λ s, rm_id s ∈ sessionIds) (sh_vnc sh) in
    let sh := sh_set_vnc (sh_vnc sh)
      (sh_vncPayloads sh ∖ list_to_set (rm_id <$> closingSessions)) sh in
    let sh := if tauri then sh_emit (closingSessions ≫= vnc_close_effects) sh else sh in
    removeVncSessionsLocally sessionIds sh.

(** A dialog of a file that is gone, or of a closing connection, is dismissed. *)
Definition keep_file (files : list FileEditorTab) (tabId : option string) : option string :=
  if truthy tabId && bool_decide (Exists (λ f, Some (fe_id f) = tabId) files) then tabId else None.
Definition keep_connection (closing : list string) (c : option string) : option string :=
  match c with Some c' => if decide (c' ∈ closing) then None else c | None => None end.

Definition clearRemoteFileSessionStateForConnections (closing : list string) (sh : Shell) :
    Shell * list FileEditorTab :=
  let next := filter (λ tab, fe_connectionId tab ∉ closing) (rn_files rn) in
  let files := if decide (length next = length (rn_files rn)) then sh_files sh else next in
  let clear_active :=
    truthy (rn_activeFile rn) &&
    negb (bool_decide (Exists (λ f, Some (fe_id f) = rn_activeFile rn) next)) in
  let d := sh_dialogs sh in
  let dialogs :=
    mkDialogs (keep_file next (fd_pendingClose d)) (keep_file next (fd_pendingConflict d))
      (keep_connection closing (fd_deleteTarget d))
      (match rn_textAction rn with
       | Some c => if decide (c ∈ closing) then None else fd_textAction d
       | None => fd_textAction d
       end)
      (keep_connection closing (fd_locate d)) (keep_connection closing (fd_refresh d)) in
  let layouts := filter (λ e, e.1 ∉ closing) (sh_fileLayouts sh) in
  let sh := if clear_active then sh_dispatch ClearActiveFile sh else sh in
  let sh := sh_set_file_state files layouts dialogs sh in
  (sh_dispatch (ForgetUnified closing) sh, next).

Definition closeConnectionSessions (connectionIds : list string) (sh : Shell) : Shell :=
  let '(sh, remainingRemoteFileTabs) :=
    clearRemoteFileSessionStateForConnections connectionIds sh in
  let sh := foldl (λ sh c,
    let sh := invalidateDockerExecConnection c sh in
    if tauri then sh_emit [EffTunnelStop c] sh else sh) sh connectionIds in
  let sh := closeRdpSessions
    (rm_id <$> filter (λ s, rm_connectionId s ∈ connectionIds) (sh_rdp sh)) sh in
  let sh := closeVncSessions
    (rm_id <$> filter (λ s, rm_connectionId s ∈ connectionIds) (sh_vnc sh)) sh in
  let closingTabs := filter (λ tab, tt_connectionId tab ∈ connectionIds) (sh_terminals sh) in
  let closingTabIds := tt_id <$> closingTabs in
  let sh := stop_warmups closingTabIds sh in
  let sh := closeRuntimeTerminalSessions (tt_sessionId <$> closingTabs) sh in
  let sh := sh_set_directories (removeDirectoryState (sh_directories sh) closingTabIds) sh in
  let sh := sh_dispatch (ForgetConnections connectionIds) sh in
  let sh := sh_set_terminals
    (filter (λ tab, tt_connectionId tab ∉ connectionIds) (sh_terminals sh)) sh in
  sh_dispatch (CloseConnections connectionIds
    (with_files_snapshot remainingRemoteFileTabs (snapshotFromRefs rn sh)) VariantSessions) sh.

Definition executeClosePlan (plan : ClosePlan) (sh : Shell) : Shell :=
  let sh := sh_emit (EffCancelTransfer <$> cl_transferIdsToCancel plan) sh in
  let sh := foldl (λ sh' paneId,
    sh_with_split (removeTerminalSplitPaneLayout (sh_split sh) paneId) sh') sh
    (cl_splitPaneIds plan) in
  let sh := if cl_splitGroup plan then sh_with_split resetTerminalSplitState sh else sh in
  let sh := if decide (cl_connectionIds plan = []) then sh
    else closeConnectionSessions (cl_connectionIds plan) sh in
  let sh := if decide (cl_sshTabIds plan = []) then sh
    else closeTerminalTabs (cl_sshTabIds plan) sh in
  let sh := if decide (cl_localTabIds plan = []) then sh
    else closeLocalTerminalTabs (cl_localTabIds plan) sh in
  closeVncSessions (cl_vncSessionIds plan) (closeRdpSessions (cl_rdpSessionIds plan) sh).

(** The context of a plan: [buildCloseContext] on the refs and the rendered state. *)
Definition shell_close_context (transfers : list TransferCandidate) (sh : Shell) : CloseContext :=
  buildCloseContext (lt_id <$> sh_locals sh) (remote_ref <$> sh_rdp sh) (rn_files rn)
    (shell_panes (sh_split sh)) (terminal_ref <$> sh_terminals sh) (remote_ref <$> sh_vnc sh)
    transfers.
End handlers.

(** ** Lemmas: what each path does to the collections *)

Record collections := mkColl {
  co_terminals : list TerminalTab;
  co_locals : list LocalTerminalTab;
  co_rdp : list RemoteSession;
  co_vnc : list RemoteSession;
  co_files : list FileEditorTab;
}.

Definition coll (sh : Shell) : collections :=
  mkColl (sh_terminals sh) (sh_locals sh) (sh_rdp sh) (sh_vnc sh) (sh_files sh).

Lemma coll_stop_warmups ids sh : coll (stop_warmups ids sh) = coll sh.
Proof.
  unfold stop_warmups. revert sh. induction ids as [|id ids IH]; intros sh; [done|]. cbn [foldl].
  rewrite IH. unfold stopTerminalWarmupCapture. by case_decide.
Qed.

Lemma coll_foldl {A} (f : Shell → A → Shell) (l : list A) sh :
  (∀ sh x, coll (f sh x) = coll sh) → coll (foldl f sh l) = coll sh.
Proof. intros Hf. revert sh. induction l as [|x l IH]; intros sh; [done|]. cbn. by rewrite IH, Hf. Qed.

Lemma coll_dispatch a sh : coll (sh_dispatch a sh) = coll sh.
Proof. done. Qed.

Lemma coll_closeTerminalTabs tauri rn ids sh :
  coll (closeTerminalTabs tauri rn ids sh) =
    mkColl (filter (λ t, tt_id t ∉ ids) (sh_terminals sh)) (sh_locals sh) (sh_rdp sh) (sh_vnc sh)
      (sh_files sh).
Proof.
  unfold closeTerminalTabs. cbv zeta. rewrite coll_dispatch.
  set (sh1 := sh_set_directories _ _).
  assert (coll sh1 = coll sh) as Hc by (unfold sh1; apply coll_stop_warmups).
  set (sh2 := foldl _ sh1 _).
  assert (coll sh2 = coll sh1) as Hc2.
  { apply coll_foldl. intros s c. unfold invalidateDockerExecConnection. by destruct tauri. }
  unfold coll. cbn. rewrite Hc in Hc2. unfold coll in Hc, Hc2.
  injection Hc as Ht _ _ _ _. injection Hc2 as _ Hl Hr Hv Hf.
  by rewrite Ht, Hl, Hr, Hv, Hf.
Qed.

Lemma coll_closeLocalTerminalTabs rn ids sh :
  coll (closeLocalTerminalTabs rn ids sh) =
    mkColl (sh_terminals sh) (filter (λ t, lt_id t ∉ ids) (sh_locals sh)) (sh_rdp sh) (sh_vnc sh)
      (sh_files sh).
Proof.
  unfold closeLocalTerminalTabs. cbv zeta. rewrite coll_dispatch.
  pose proof (coll_stop_warmups ids sh) as Hc. unfold coll in Hc |- *. cbn.
  injection Hc as -> -> -> -> ->. done.
Qed.

Lemma filter_true_nil {A} (f : A → string) (l : list A) : filter (λ x, f x ∉ []) l = l.
Proof. apply filter_all. intros. apply not_elem_of_nil. Qed.

Lemma coll_closeRdpSessions tauri rn ids sh :
  coll (closeRdpSessions tauri rn ids sh) =
    mkColl (sh_terminals sh) (sh_locals sh) (filter (λ s, rm_id s ∉ ids) (sh_rdp sh)) (sh_vnc sh)
      (sh_files sh).
Proof.
  unfold closeRdpSessions, removeRdpSessionsLocally. case_decide as Hn.
  - subst. by rewrite filter_true_nil.
  - by destruct tauri.
Qed.

Lemma coll_closeVncSessions tauri rn ids sh :
  coll (closeVncSessions tauri rn ids sh) =
    mkColl (sh_terminals sh) (sh_locals sh) (sh_rdp sh) (filter (λ s, rm_id s ∉ ids) (sh_vnc sh))
      (sh_files sh).
Proof.
  unfold closeVncSessions, removeVncSessionsLocally. case_decide as Hn.
  - subst. by rewrite filter_true_nil.
  - by destruct tauri.
Qed.

Lemma filter_connection_ids (ids : list string) (l : list RemoteSession) :
  NoDup (rm_id <$> l) →
  filter (λ s, rm_id s ∉ rm_id <$> filter (λ s, rm_connectionId s ∈ ids) l) l =
    filter (λ s, rm_connectionId s ∉ ids) l.
Proof.
  intros Hnd. apply list_filter_ext_in. intros s Hs. rewrite list_elem_of_fmap. split.
  - intros Hno Hc. apply Hno. exists s. by rewrite list_elem_of_filter.
  - intros Hno (s' & Heq & [Hc Hs']%list_elem_of_filter).
    by rewrite (NoDup_fmap_inj_elem rm_id l s s' Hnd Hs Hs' Heq) in Hno.
Qed.

Lemma coll_clearRemoteFile rn ids sh :
  sh_files sh = rn_files rn →
  coll (clearRemoteFileSessionStateForConnections rn ids sh).1 =
    mkColl (sh_terminals sh) (sh_locals sh) (sh_rdp sh) (sh_vnc sh)
      (filter (λ f, fe_connectionId f ∉ ids) (sh_files sh)) ∧
  (clearRemoteFileSessionStateForConnections rn ids sh).2 =
    filter (λ f, fe_connectionId f ∉ ids) (rn_files rn).
Proof.
  intros Hf. unfold clearRemoteFileSessionStateForConnections. cbv zeta. cbn [fst snd].
  split; [|done]. rewrite coll_dispatch. unfold coll. cbn. destruct (_ && _); cbn; f_equal;
    rewrite Hf; (case_decide as Hl; [|done]); symmetry; by apply filter_length_eq.
Qed.

Lemma coll_closeConnectionSessions tauri rn ids sh :
  sh_files sh = rn_files rn → NoDup (rm_id <$> sh_rdp sh) → NoDup (rm_id <$> sh_vnc sh) →
  coll (closeConnectionSessions tauri rn ids sh) =
    mkColl (filter (λ t, tt_connectionId t ∉ ids) (sh_terminals sh)) (sh_locals sh)
      (filter (λ s, rm_connectionId s ∉ ids) (sh_rdp sh))
      (filter (λ s, rm_connectionId s ∉ ids) (sh_vnc sh))
      (filter (λ f, fe_connectionId f ∉ ids) (sh_files sh)).
Proof.
  intros Hf Hr Hv. unfold closeConnectionSessions.
  destruct (coll_clearRemoteFile rn ids sh Hf) as [H1 H2].
  destruct (clearRemoteFileSessionStateForConnections rn ids sh) as [sh1 next]. cbn [fst snd] in *.
  cbv zeta. rewrite coll_dispatch.
  set (sh2 := foldl _ sh1 ids).
  assert (coll sh2 = coll sh1) as Hc2.
  { apply coll_foldl. intros s c. unfold invalidateDockerExecConnection. by destruct tauri. }
  rewrite H1 in Hc2. clear H1.
  pose proof (coll_closeRdpSessions tauri rn
    (rm_id <$> filter (λ s, rm_connectionId s ∈ ids) (sh_rdp sh2)) sh2) as Hc3.
  set (sh3 := closeRdpSessions _ _ _ sh2) in *.
  pose proof (coll_closeVncSessions tauri rn
    (rm_id <$> filter (λ s, rm_connectionId s ∈ ids) (sh_vnc sh3)) sh3) as Hc4.
  set (sh4 := closeVncSessions _ _ _ sh3) in *.
  set (sh5 := stop_warmups _ sh4).
  assert (coll sh5 = coll sh4) as Hc5 by apply coll_stop_warmups.
  unfold coll in *. cbn.
  injection Hc2 as T2 L2 R2 V2 F2. injection Hc3 as T3 L3 R3 V3 F3.
  injection Hc4 as T4 L4 R4 V4 F4. injection Hc5 as T5 L5 R5 V5 F5.
  rewrite T5, L5, R5, V5, F5, T4, L4, R4, V4, F4, T3, L3, R3, V3, F3, T2, L2, R2, V2, F2.
  by rewrite !filter_connection_ids.
Qed.

Lemma coll_executeClosePlan tauri rn plan sh :
  sh_files sh = rn_files rn → NoDup (rm_id <$> sh_rdp sh) → NoDup (rm_id <$> sh_vnc sh) →
  coll (executeClosePlan tauri rn plan sh) =
    mkColl
      (filter (λ t, tt_id t ∉ cl_sshTabIds plan)
        (filter (λ t, tt_connectionId t ∉ cl_connectionIds plan) (sh_terminals sh)))
      (filter (λ t, lt_id t ∉ cl_localTabIds plan) (sh_locals sh))
      (filter (λ s, rm_id s ∉ cl_rdpSessionIds plan)
        (filter (λ s, rm_connectionId s ∉ cl_connectionIds plan) (sh_rdp sh)))
      (filter (λ s, rm_id s ∉ cl_vncSessionIds plan)
        (filter (λ s, rm_connectionId s ∉ cl_connectionIds plan) (sh_vnc sh)))
      (filter (λ f, fe_connectionId f ∉ cl_connectionIds plan) (sh_files sh)).
Proof.
  intros Hf Hr Hv. unfold executeClosePlan. cbv zeta.
  set (sh1 := if cl_splitGroup plan then _ else _).
  assert (coll sh1 = coll sh) as H1.
  { unfold sh1. destruct (cl_splitGroup plan);
      (change (coll (sh_with_split ?f ?s)) with (coll s) || idtac);
      by rewrite coll_foldl. }
  set (sh2 := if decide (cl_connectionIds plan = []) then sh1 else _).
  assert (coll sh2 = mkColl (filter (λ t, tt_connectionId t ∉ cl_connectionIds plan) (sh_terminals sh1))
    (sh_locals sh1) (filter (λ s, rm_connectionId s ∉ cl_connectionIds plan) (sh_rdp sh1))
    (filter (λ s, rm_connectionId s ∉ cl_connectionIds plan) (sh_vnc sh1))
    (filter (λ f, fe_connectionId f ∉ cl_connectionIds plan) (sh_files sh1))) as H2.
  { unfold coll in H1. injection H1 as _ _ R V F. unfold sh2. case_decide as Hn.
    - rewrite Hn, !filter_true_nil. done.
    - apply coll_closeConnectionSessions; congruence. }
  set (sh3 := if decide (cl_sshTabIds plan = []) then sh2 else _).
  assert (coll sh3 = mkColl (filter (λ t, tt_id t ∉ cl_sshTabIds plan) (sh_terminals sh2))
    (sh_locals sh2) (sh_rdp sh2) (sh_vnc sh2) (sh_files sh2)) as H3.
  { unfold sh3. case_decide as Hn; [|apply coll_closeTerminalTabs]. by rewrite Hn, filter_true_nil. }
  set (sh4 := if decide (cl_localTabIds plan = []) then sh3 else _).
  assert (coll sh4 = mkColl (sh_terminals sh3) (filter (λ t, lt_id t ∉ cl_localTabIds plan) (sh_locals sh3))
    (sh_rdp sh3) (sh_vnc sh3) (sh_files sh3)) as H4.
  { unfold sh4. case_decide as Hn; [|apply coll_closeLocalTerminalTabs]. by rewrite Hn, filter_true_nil. }
  rewrite coll_closeVncSessions.
  pose proof (coll_closeRdpSessions tauri rn (cl_rdpSessionIds plan) sh4) as H5.
  set (sh5 := closeRdpSessions _ _ _ sh4) in *. unfold coll in H1, H2, H3, H4, H5.
  injection H1 as T1 L1 R1 V1 F1. injection H2 as T2 L2 R2 V2 F2. injection H3 as T3 L3 R3 V3 F3.
  injection H4 as T4 L4 R4 V4 F4. injection H5 as T5 L5 R5 V5 F5.
  rewrite T5, L5, R5, V5, F5, T4, L4, R4, V4, F4, T3, L3, R3, V3, F3, T2, L2, R2, V2, F2,
    T1, L1, R1, V1, F1. done.
Qed.

(** C9: running the plan of a request removes exactly what the request selected.
    The terminals and local terminals that remain are those not selected; the remote
    desktops that remain are those not selected whose connection is not closed as a
    whole; the file tabs that remain are those of connections that keep a terminal
    (or had none). *)
Theorem execute_plan_exact tauri rn request transfers policy sh :
  sh_files sh = rn_files rn →
  NoDup (tt_id <$> sh_terminals sh) → NoDup (rm_id <$> sh_rdp sh) → NoDup (rm_id <$> sh_vnc sh) →
  let context := shell_close_context rn transfers sh in
  let closing := closing_ids request context in
  let cascades c := releases request context c ∧ c ∈ fe_connectionId <$> sh_files sh in
  let sh' := executeClosePlan tauri rn (planClose request context policy) sh in
  sh_terminals sh' = filter (λ t, instanceItemId KSsh (tt_id t) ∉ closing) (sh_terminals sh) ∧
  sh_locals sh' = filter (λ t, instanceItemId KLocal (lt_id t) ∉ closing) (sh_locals sh) ∧
  (∀ s, s ∈ sh_rdp sh' ↔ s ∈ sh_rdp sh ∧ (instanceItemId KRdp (rm_id s) ∉ closing) ∧
    ¬ cascades (rm_connectionId s)) ∧
  (∀ s, s ∈ sh_vnc sh' ↔ s ∈ sh_vnc sh ∧ (instanceItemId KVnc (rm_id s) ∉ closing) ∧
    ¬ cascades (rm_connectionId s)) ∧
  (∀ f, f ∈ sh_files sh' ↔ f ∈ sh_files sh ∧ ¬ releases request context (fe_connectionId f)).
Proof.
  intros Hf Ht Hr Hv. cbv zeta.
  set (cx := shell_close_context rn transfers sh).
  set (plan := planClose request cx policy).
  pose proof (coll_executeClosePlan tauri rn plan sh Hf Hr Hv) as Hc.
  unfold coll in Hc. injection Hc as T L R V F.
  assert (cf_connectionId <$> cx_remoteFileTabs cx = fe_connectionId <$> sh_files sh) as Hfc.
  { unfold cx. rewrite Hf. cbn. by rewrite <- list_fmap_compose. }
  assert (∀ c, c ∈ cl_connectionIds plan ↔ releases request cx c ∧ c ∈ fe_connectionId <$> sh_files sh) as Hcon.
  { intros c. unfold plan. by rewrite plan_connectionIds, Hfc. }
  assert (NoDup (ref_id <$> cx_terminalTabs cx)) as Hnd.
  { unfold cx. cbn. by rewrite <- list_fmap_compose. }
  assert (∀ id, id ∈ cl_rdpSessionIds plan ↔ id ∈ rm_id <$> sh_rdp sh ∧ instanceItemId KRdp id ∈ closing_ids request cx) as Hrdp.
  { intros id. unfold plan, planClose. destruct (released_connections _ _). cbn.
    rewrite list_elem_of_filter, <- list_fmap_compose. tauto. }
  assert (∀ id, id ∈ cl_vncSessionIds plan ↔ id ∈ rm_id <$> sh_vnc sh ∧ instanceItemId KVnc id ∈ closing_ids request cx) as Hvnc.
  { intros id. unfold plan, planClose. destruct (released_connections _ _). cbn.
    rewrite list_elem_of_filter, <- list_fmap_compose. tauto. }
  assert (cl_localTabIds plan = filter (λ id, instanceItemId KLocal id ∈ closing_ids request cx) (lt_id <$> sh_locals sh)) as Hloc.
  { unfold plan, planClose. by destruct (released_connections _ _). }
  split_and!.
  - rewrite T, list_filter_filter. apply list_filter_ext_in. intros t Hin.
    assert (terminal_ref t ∈ cx_terminalTabs cx) as Hin' by (by apply list_elem_of_fmap_2).
    destruct (plan_selected request cx policy (terminal_ref t) Hnd Hin') as [Hs _].
    fold plan in Hs. unfold selected_ssh in Hs. cbn in Hs. tauto.
  - rewrite L, Hloc. apply list_filter_ext_in. intros t Hin. rewrite list_elem_of_filter.
    assert (lt_id t ∈ lt_id <$> sh_locals sh) by (by apply list_elem_of_fmap_2). tauto.
  - intros s. rewrite R, !list_elem_of_filter, Hrdp, Hcon.
    assert (s ∈ sh_rdp sh → rm_id s ∈ rm_id <$> sh_rdp sh) by (apply list_elem_of_fmap_2). tauto.
  - intros s. rewrite V, !list_elem_of_filter, Hvnc, Hcon.
    assert (s ∈ sh_vnc sh → rm_id s ∈ rm_id <$> sh_vnc sh) by (apply list_elem_of_fmap_2). tauto.
  - intros f. rewrite F, list_elem_of_filter, Hcon.
    assert (f ∈ sh_files sh → fe_connectionId f ∈ fe_connectionId <$> sh_files sh)
      by (apply list_elem_of_fmap_2). tauto.
Qed.

(** ** A concrete shell: two SSH connections, one of them with an open file *)

Definition demo_terminal (c id : string) : TerminalTab :=
  mkTerminalTab None None id c 0 None (Some ("session-" +:+ id)) "connected" None id TabTerminal [].

Definition demo_shell : Shell :=
  mkShell (mkSplitShell initialSplitState 0 0 None initialMultiExecState
      (run [ItemOpened "ssh:a1"; ItemOpened "ssh:b1"; ActivateTerminal "A" "a1" false]))
    [demo_terminal "A" "a1"; demo_terminal "B" "b1"] [] [] []
    [mkEditorTab "f1" "A" false "notes.txt"] ∅ ∅ [] ∅
    (mkDialogs None None None None None None) ∅ [].
Definition demo_rendered : Rendered := mkRendered (sh_files demo_shell) None None.
Definition demo_close_all : CloseRequest := mkRequest ["ssh:a1"; "ssh:b1"] [] false.

Definition demo_closed : Shell :=
  executeClosePlan true demo_rendered
    (planClose demo_close_all (shell_close_context demo_rendered [] demo_shell) ConfirmCancelActive)
    demo_shell.

Lemma execute_plan_exact_witness : sh_terminals demo_closed = [].
Proof.
  destruct (execute_plan_exact true demo_rendered demo_close_all [] ConfirmCancelActive demo_shell)
    as [H _]; [done|vm_decide|vm_decide|vm_decide|].
  etransitivity; [exact H|vm_compute; reflexivity].
Defined.

(** Closing everything at once, with one connection closed as a whole and a terminal
    of another closed on its own: the terminal path decides on the rendered file
    tabs, which still hold the files that the connection path has just closed. The
    workspace ends up empty, but not on the home page: SSH mode, with the active
    file tab and the active connection that were closed. *)
Lemma close_all_leaves_stale_pointers :
  let p := ss_pointers (sh_split demo_closed) in
  coll demo_closed = mkColl [] [] [] [] [] ∧
  mode p = ModeSsh ∧ homeActive p = false ∧
  activeConnectionId p = Some "A" ∧ activeRemoteFileTabId p = Some "f1" ∧ followUp p = None.
Proof. vm_compute. done. Qed.
