(* ===== verification/Snapshot.v ===== *)
(** * Workspace snapshots ([features/workspace/restore/snapshotTypes.ts])

    The data that is saved, and its projection from the running workspace. JS
    objects keyed by instance ids are insertion-ordered association lists (such
    keys contain a colon, so none is an integer key). *)

From S2P Require Import Prelude SplitLayout SessionTypes Instances.

(** ** Data *)

Inductive SidebarView := ViewSessions | ViewFiles.

#[export] Instance SidebarView_eq_dec : EqDecision SidebarView.
Proof. solve_decision. Defined.

Inductive WorkspaceSnapshotTargetRef :=
  | TargetProfile (profileId : string)
  | TargetTemporary (targetId : string).

#[export] Instance WorkspaceSnapshotTargetRef_eq_dec : EqDecision WorkspaceSnapshotTargetRef.
Proof. solve_decision. Defined.

Inductive WorkspaceSnapshotInstance :=
  | SnapSsh (id : string) (ordinal : Z) (target : WorkspaceSnapshotTargetRef)
  | SnapLocal (id : string) (ordinal : Z) (source : LocalTerminalSource)
      (target : WorkspaceSnapshotTargetRef)
  | SnapRdp (id : string) (target : WorkspaceSnapshotTargetRef)
  | SnapVnc (id : string) (target : WorkspaceSnapshotTargetRef).

#[export] Instance WorkspaceSnapshotInstance_eq_dec : EqDecision WorkspaceSnapshotInstance.
Proof. solve_decision. Defined.

Definition snap_id (i : WorkspaceSnapshotInstance) : string :=
  match i with SnapSsh id _ _ | SnapLocal id _ _ _ | SnapRdp id _ | SnapVnc id _ => id end.
Definition snap_kind (i : WorkspaceSnapshotInstance) : InstanceKind :=
  match i with
  | SnapSsh _ _ _ => KSsh | SnapLocal _ _ _ _ => KLocal | SnapRdp _ _ => KRdp | SnapVnc _ _ => KVnc
  end.
Definition snap_target (i : WorkspaceSnapshotInstance) : WorkspaceSnapshotTargetRef :=
  match i with SnapSsh _ _ t | SnapLocal _ _ _ t | SnapRdp _ t | SnapVnc _ t => t end.
Definition snap_ordinal (i : WorkspaceSnapshotInstance) : option Z :=
  match i with SnapSsh _ o _ | SnapLocal _ o _ _ => Some o | _ => None end.

Inductive WorkspaceSnapshotPaneNode :=
  | SnapLeaf (id : string) (instanceId : option string)
  | SnapSplit (direction : SplitDirection) (first : WorkspaceSnapshotPaneNode) (id : string)
      (ratio : Q) (second : WorkspaceSnapshotPaneNode).

Record WorkspaceSnapshotV1 := mkSnapshotV1 {
  sn_activeItemId : option string;
  sn_directories : jsmap string;
  sn_followActivePane : bool;
  sn_followTerminalDirectories : option (jsmap bool);
  sn_instances : list WorkspaceSnapshotInstance;
  sn_order : list string;
  sn_panes : option WorkspaceSnapshotPaneNode;
  sn_collapsed : bool;
  sn_view : SidebarView;
}.

Record WorkspaceSnapshotPointers := mkSnapshotPointers {
  sp_activeItemId : option string;
  sp_directories : jsmap (option string);
  sp_followActivePane : bool;
  sp_followTerminalDirectories : option (jsmap bool);
  sp_order : list string;
  sp_collapsed : bool;
  sp_view : SidebarView;
  sp_splitLayout : option TerminalSplitNode;
}.

Record SnapshotTargetRefs := mkTargetRefs {
  tr_connections : jsmap WorkspaceSnapshotTargetRef;
  tr_localProfiles : jsmap WorkspaceSnapshotTargetRef;
}.

Record WorkspaceSnapshotCollections := mkSnapshotCollections {
  sc_localTerminalTabs : list LocalInstance;
  sc_rdpSessions : list SessionRef;
  sc_targetRefs : option SnapshotTargetRefs;
  sc_terminalTabs : list SshInstance;
  sc_vncSessions : list SessionRef;
}.

(** ** Target references *)

Definition target_owner (t : WorkspaceSnapshotTargetRef) : string :=
  match t with TargetProfile p => p | TargetTemporary t => t end.

Definition snapshotTargetRefs (snapshot : WorkspaceSnapshotV1) : SnapshotTargetRefs :=
  foldl (λ refs instance,
    let target := snap_target instance in
    match snap_kind instance with
    | KLocal => mkTargetRefs (tr_connections refs)
        (jsmap_set (target_owner target) target (tr_localProfiles refs))
    | _ => mkTargetRefs (jsmap_set (target_owner target) target (tr_connections refs))
        (tr_localProfiles refs)
    end) (mkTargetRefs [] []) (sn_instances snapshot).

Definition target_for (refs : option (jsmap WorkspaceSnapshotTargetRef)) (owner : string) :
    WorkspaceSnapshotTargetRef :=
  default (TargetProfile owner) (refs ≫= jsmap_get owner).

(** ** Projection *)

Definition collectSnapshotInstances (c : WorkspaceSnapshotCollections) :
    list WorkspaceSnapshotInstance :=
  let connectionTargets := tr_connections <$> sc_targetRefs c in
  let localProfileTargets := tr_localProfiles <$> sc_targetRefs c in
  ((λ tab, SnapSsh (instanceItemId KSsh (si_id tab)) (si_ordinal tab)
      (target_for connectionTargets (si_connectionId tab))) <$> sc_terminalTabs c) ++
  ((λ tab, SnapLocal (instanceItemId KLocal (li_id tab)) (li_ordinal tab)
      (default SrcLocal (li_source tab)) (target_for localProfileTargets (li_profileId tab)))
    <$> sc_localTerminalTabs c) ++
  ((λ s, SnapRdp (instanceItemId KRdp (ref_id s)) (target_for connectionTargets (ref_connectionId s)))
    <$> sc_rdpSessions c) ++
  ((λ s, SnapVnc (instanceItemId KVnc (ref_id s)) (target_for connectionTargets (ref_connectionId s)))
    <$> sc_vncSessions c).

(** The loop that keeps the first occurrence of every live id; [seen] is the set. *)
Fixpoint keep_first (seen : list string) (l : list string) : list string :=
  match l with
  | [] => []
  | id :: l => if decide (id ∈ seen) then keep_first seen l else id :: keep_first (id :: seen) l
  end.

Definition snapshotOrder (order : list string) (instances : list WorkspaceSnapshotInstance) :
    list string :=
  let liveIds := snap_id <$> instances in
  let first := keep_first [] (filter (.∈ liveIds) order) in
  first ++ keep_first first liveIds.

Definition sanitizeActiveItemId (activeItemId : option string) (liveIds : list string)
    (hasSplitLayout : bool) : option string :=
  match activeItemId with
  | Some id =>
      if decide (id = HOME_ITEM_ID) then Some HOME_ITEM_ID
      else if decide (id = SPLIT_ITEM_ID) then if hasSplitLayout then Some SPLIT_ITEM_ID else None
      else if truthy (Some id) && bool_decide (id ∈ liveIds) then Some id else None
  | None => None
  end.

Definition snapshotDirectories (directories : jsmap (option string)) (sshIds : list string) :
    jsmap string :=
  foldl (λ result e,
    match e.2 with
    | Some path =>
        if bool_decide (e.1 ∈ sshIds) && truthy (Some path) then jsmap_set e.1 path result else result
    | None => result
    end) [] directories.

Fixpoint snapshotPaneNode (node : TerminalSplitNode) (liveIds : list string) :
    WorkspaceSnapshotPaneNode :=
  match node with
  | Leaf binding id =>
      SnapLeaf id
        (match binding with
         | Some b =>
             let instanceId := instanceItemId (kind_of_pane (binding_kind b)) (binding_tabId b) in
             if decide (instanceId ∈ liveIds) then Some instanceId else None
         | None => None
         end)
  | Branch direction first id ratio second =>
      SnapSplit direction (snapshotPaneNode first liveIds) id (clampTerminalSplitRatio ratio)
        (snapshotPaneNode second liveIds)
  end.

Definition is_snap_ssh (i : WorkspaceSnapshotInstance) : Prop := snap_kind i = KSsh.
#[export] Instance is_snap_ssh_dec i : Decision (is_snap_ssh i).
Proof. unfold is_snap_ssh. apply _. Defined.

Definition toSnapshot (pointers : WorkspaceSnapshotPointers)
    (collections : WorkspaceSnapshotCollections) : WorkspaceSnapshotV1 :=
  let instances := collectSnapshotInstances collections in
  let liveIds := snap_id <$> instances in
  let sshIds := snap_id <$> filter is_snap_ssh instances in
  mkSnapshotV1
    (sanitizeActiveItemId (sp_activeItemId pointers) liveIds
      (bool_decide (is_Some (sp_splitLayout pointers))))
    (snapshotDirectories (sp_directories pointers) sshIds)
    (sp_followActivePane pointers)
    ((λ states, jsmap_of_entries (filter (λ e, e.1 ∈ sshIds) states))
      <$> sp_followTerminalDirectories pointers)
    instances
    (snapshotOrder (sp_order pointers) instances)
    ((λ layout, snapshotPaneNode layout liveIds) <$> sp_splitLayout pointers)
    (sp_collapsed pointers) (sp_view pointers).

(** ** Valid snapshots *)

Definition MAX_INSTANCES : nat := 100.
Definition MAX_PANE_DEPTH : nat := 8.
Definition MAX_STRING : nat := 4096.

Definition short_string (s : string) : Prop := s ≠ "" ∧ String.length s ≤ MAX_STRING.

Definition instance_valid (i : WorkspaceSnapshotInstance) : Prop :=
  (∃ raw, raw ≠ "" ∧ snap_id i = instanceItemId (snap_kind i) raw) ∧
  short_string (snap_id i) ∧ short_string (target_owner (snap_target i)) ∧
  (∀ o, snap_ordinal i = Some o → (0 ≤ o)%Z).

Fixpoint pane_valid (liveIds : list string) (depth : nat) (p : WorkspaceSnapshotPaneNode) : Prop :=
  depth ≤ MAX_PANE_DEPTH ∧
  match p with
  | SnapLeaf id instanceId =>
      short_string id ∧ (∀ i, instanceId = Some i → i ∈ liveIds)
  | SnapSplit _ first id ratio second =>
      short_string id ∧ clampTerminalSplitRatio ratio = ratio ∧
      pane_valid liveIds (S depth) first ∧ pane_valid liveIds (S depth) second
  end.

Definition active_valid (s : WorkspaceSnapshotV1) : Prop :=
  match sn_activeItemId s with
  | Some id => id = HOME_ITEM_ID ∨ (id = SPLIT_ITEM_ID ∧ is_Some (sn_panes s)) ∨
      id ∈ snap_id <$> sn_instances s
  | None => True
  end.

Record snapshot_valid (s : WorkspaceSnapshotV1) : Prop := mkValid {
  sv_count : length (sn_instances s) ≤ MAX_INSTANCES;
  sv_instances : Forall instance_valid (sn_instances s);
  sv_ids : NoDup (snap_id <$> sn_instances s);
  sv_order : NoDup (sn_order s);
  sv_order_ids : ∀ id, id ∈ sn_order s ↔ id ∈ snap_id <$> sn_instances s;
  sv_panes : ∀ p, sn_panes s = Some p → pane_valid (snap_id <$> sn_instances s) 0 p;
  sv_active : active_valid s;
  sv_directory_keys : NoDup (sn_directories s).*1;
  sv_directories : Forall (λ e, e.1 ∈ snap_id <$> filter is_snap_ssh (sn_instances s) ∧ e.2 ≠ "")
    (sn_directories s);
  sv_follow : ∀ m, sn_followTerminalDirectories s = Some m → NoDup m.*1 ∧
    Forall (λ e, e.1 ∈ snap_id <$> filter is_snap_ssh (sn_instances s)) m;
}.

(** ** Lemmas *)

Lemma elem_of_keep_first seen l id : id ∈ keep_first seen l ↔ id ∈ l ∧ id ∉ seen.
Proof.
  revert seen. induction l as [|x l IH]; intros seen; simpl.
  - split; [by intros ?%not_elem_of_nil|by intros [?%not_elem_of_nil _]].
  - case_decide as Hx; rewrite ?elem_of_cons, IH, ?not_elem_of_cons.
    + split; [tauto|]. intros [[->|?] ?]; done.
    + destruct (decide (id = x)) as [->|]; tauto.
Qed.

Lemma keep_first_NoDup seen l : NoDup (keep_first seen l).
Proof.
  revert seen. induction l as [|x l IH]; intros seen; simpl; [constructor|].
  case_decide; [done|]. apply NoDup_cons. split; [|done]. rewrite elem_of_keep_first. set_solver.
Qed.

Lemma keep_first_id seen l : NoDup l → (∀ x, x ∈ l → x ∉ seen) → keep_first seen l = l.
Proof.
  revert seen. induction l as [|x l IH]; intros seen; simpl; [done|].
  intros [Hx Hnd]%NoDup_cons Hs. rewrite decide_False by (apply Hs; left). f_equal.
  apply IH; [done|]. intros y Hy. rewrite not_elem_of_cons. split; [by intros ->|]. apply Hs. by right.
Qed.

Lemma keep_first_all seen l : (∀ x, x ∈ l → x ∈ seen) → keep_first seen l = [].
Proof.
  intros H. apply elem_of_nil_inv. intros x [Hx Hn]%elem_of_keep_first. auto.
Qed.

Lemma snapshotOrder_spec order instances :
  NoDup (snap_id <$> instances) →
  NoDup (snapshotOrder order instances) ∧
  ∀ id, id ∈ snapshotOrder order instances ↔ id ∈ snap_id <$> instances.
Proof.
  intros Hnd. unfold snapshotOrder. cbv zeta. split.
  - apply NoDup_app. split_and!; [apply keep_first_NoDup| |apply keep_first_NoDup].
    intros x Hx [_ Hy]%elem_of_keep_first. done.
  - intros id. rewrite elem_of_app, !elem_of_keep_first, list_elem_of_filter.
    pose proof (not_elem_of_nil id).
    destruct (decide (id ∈ snap_id <$> instances)), (decide (id ∈ order)); tauto.
Qed.

Lemma snapshotOrder_id order instances :
  NoDup order → (∀ id, id ∈ order ↔ id ∈ snap_id <$> instances) →
  snapshotOrder order instances = order.
Proof.
  intros Hnd Heq. unfold snapshotOrder. cbv zeta.
  rewrite (filter_all _ order) by (intros; by apply Heq).
  rewrite (keep_first_id []) by (done || intros ? _; apply not_elem_of_nil).
  rewrite keep_first_all; [apply app_nil_r|]. intros x. by rewrite Heq.
Qed.

Lemma clampTerminalSplitRatio_idemp r :
  clampTerminalSplitRatio (clampTerminalSplitRatio r) = clampTerminalSplitRatio r.
Proof.
  unfold clampTerminalSplitRatio, terminalSplitMinRatio, terminalSplitMaxRatio.
  unfold Qmax, Qmin, GenericMinMax.gmax, GenericMinMax.gmin.
  destruct ((1 # 5) ?= r)%Q eqn:H1.
  - reflexivity.
  - destruct ((4 # 5) ?= r)%Q eqn:H2; [reflexivity|reflexivity|]. by rewrite H1, H2.
  - reflexivity.
Qed.

Fixpoint layout_bounded (depth : nat) (n : TerminalSplitNode) : Prop :=
  depth ≤ MAX_PANE_DEPTH ∧
  match n with
  | Leaf _ id => short_string id
  | Branch _ first id _ second =>
      short_string id ∧ layout_bounded (S depth) first ∧ layout_bounded (S depth) second
  end.

Lemma snapshotPaneNode_valid liveIds depth n :
  layout_bounded depth n → pane_valid liveIds depth (snapshotPaneNode n liveIds).
Proof.
  revert depth. induction n as [b id|d f IHf id r s IHs]; intros depth; simpl.
  - intros [? ?]. split_and!; try done. intros i. destruct b; [|done]. case_decide; [|done].
    by intros [= <-].
  - intros (? & ? & ? & ?). split_and!; auto. apply clampTerminalSplitRatio_idemp.
Qed.

(** What the bounds of the format ask of the running workspace. *)
Record workspace_bounded (p : WorkspaceSnapshotPointers) (c : WorkspaceSnapshotCollections) : Prop := {
  wb_count : length (collectSnapshotInstances c) ≤ MAX_INSTANCES;
  wb_ids : NoDup (snap_id <$> collectSnapshotInstances c);
  wb_instances : Forall instance_valid (collectSnapshotInstances c);
  wb_layout : ∀ l, sp_splitLayout p = Some l → layout_bounded 0 l;
}.

Lemma snapshotDirectories_valid directories sshIds :
  NoDup (snapshotDirectories directories sshIds).*1 ∧
  Forall (λ e, e.1 ∈ sshIds ∧ e.2 ≠ "") (snapshotDirectories directories sshIds).
Proof.
  unfold snapshotDirectories.
  assert (∀ acc : jsmap string, NoDup acc.*1 → Forall (λ e, e.1 ∈ sshIds ∧ e.2 ≠ "") acc →
    let r := foldl (λ result (e : string * option string), match e.2 with
      | Some path => if bool_decide (e.1 ∈ sshIds) && truthy (Some path)
          then jsmap_set e.1 path result else result
      | None => result end) acc directories in
    NoDup r.*1 ∧ Forall (λ e, e.1 ∈ sshIds ∧ e.2 ≠ "") r) as Hgen.
  { induction directories as [|[k [v|]] l IH]; intros acc Hnd Hall; simpl; [done| |by apply IH].
    destruct (bool_decide (k ∈ sshIds) && negb (v =? "")%string) eqn:E; [|by apply IH].
    apply andb_true_iff in E as [Hk%bool_decide_eq_true Hv%(truthy_Some v)].
    apply IH; [by apply jsmap_set_NoDup|].
    clear -Hall Hk Hv. induction acc as [|[k' v'] acc IH]; simpl.
    - by apply Forall_cons.
    - apply Forall_cons in Hall as [[? ?] Hall]. case_decide; subst; apply Forall_cons; auto. }
  by apply Hgen; [constructor|].
Qed.

Lemma jsmap_of_entries_keys {V} (es : list (string * V)) :
  NoDup (jsmap_of_entries es).*1 ∧ ∀ e, e ∈ jsmap_of_entries es → e.1 ∈ es.*1.
Proof.
  unfold jsmap_of_entries.
  assert (∀ acc : jsmap V, NoDup acc.*1 →
    let r := foldl (λ m e, jsmap_set e.1 e.2 m) acc es in
    NoDup r.*1 ∧ ∀ e, e ∈ r → e.1 ∈ acc.*1 ∨ e.1 ∈ es.*1) as Hgen.
  { induction es as [|[k v] es IH]; intros acc Hnd; simpl.
    - split; [done|]. intros e He. left. by apply list_elem_of_fmap_2.
    - destruct (IH (jsmap_set k v acc)) as [H1 H2]; [by apply jsmap_set_NoDup|].
      split; [done|]. intros e [He|He]%H2; [|by right; right].
      destruct (decide (k ∈ acc.*1)) as [Hk|Hk].
      + rewrite jsmap_set_keys_old in He by done. by left.
      + rewrite jsmap_set_keys_new, elem_of_app, list_elem_of_singleton in He by done.
        destruct He as [?| ->]; [by left|right; left]. }
  destruct (Hgen [] ltac:(constructor)) as [? H2]. split; [done|].
  intros e [?%not_elem_of_nil|?]%H2; done.
Qed.

Lemma sanitizeActiveItemId_valid active liveIds has id :
  sanitizeActiveItemId active liveIds has = Some id →
  id = HOME_ITEM_ID ∨ (id = SPLIT_ITEM_ID ∧ has = true) ∨ id ∈ liveIds.
Proof.
  unfold sanitizeActiveItemId. destruct active as [a|]; [|done].
  case_decide; [intros [= <-]; by left|]. case_decide; [destruct has; [intros [= <-]|done]; auto|].
  destruct (truthy (Some a) && _) eqn:E; [|done].
  apply andb_true_iff in E as [_ ?%bool_decide_eq_true]. intros [= <-]. auto.
Qed.

Lemma toSnapshot_valid p c : workspace_bounded p c → snapshot_valid (toSnapshot p c).
Proof.
  intros [Hn Hids Hi Hl]. unfold toSnapshot. cbv zeta.
  destruct (snapshotOrder_spec (sp_order p) (collectSnapshotInstances c) Hids) as [Ho1 Ho2].
  destruct (snapshotDirectories_valid (sp_directories p)
    (snap_id <$> filter is_snap_ssh (collectSnapshotInstances c))) as [Hd1 Hd2].
  constructor; cbn -[snapshotDirectories]; try done.
  - intros q (l & Hp & ->)%fmap_Some. apply snapshotPaneNode_valid. auto.
  - unfold active_valid. cbn. destruct (sanitizeActiveItemId _ _ _) as [id|] eqn:E; [|done].
    apply sanitizeActiveItemId_valid in E as [?|[[? ?%bool_decide_eq_true]|?]]; [auto| |auto].
    right; left. split; [done|]. by rewrite fmap_is_Some.
  - intros m (states & _ & ->)%fmap_Some.
    destruct (jsmap_of_entries_keys (filter (λ e, e.1 ∈ snap_id <$> filter is_snap_ssh (collectSnapshotInstances c)) states)) as [H1 H2].
    split; [done|]. apply Forall_forall. intros e He%H2.
    by apply list_elem_of_fmap in He as (e' & -> & [? _]%list_elem_of_filter).
Qed.
