(* ===== verification/SnapshotCodec.v ===== *)
(** * Snapshot codec ([features/workspace/restore/snapshotCodec.ts])

    JSON values, the decoder with its errors, the selection between the current
    and the backup snapshot. [to_json] is what [JSON.stringify] and [JSON.parse]
    give back of a snapshot; numbers are exact. Lengths are those of the byte
    string. *)

From S2P Require Import Prelude SplitLayout SessionTypes Instances Snapshot.
From Stdlib Require Import Lia QArith.Qreduction.

#[local] Open Scope nat_scope.

(** ** JSON values and errors *)

#[warnings="-register-all"]
Inductive json :=
  | JNull
  | JBool (b : bool)
  | JNum (q : Q)
  | JStr (s : string)
  | JArr (l : list json)
  | JObj (fields : list (string * json)).

Inductive DecodeError :=
  | InvalidField (label : string)
  | UnsupportedVersion (value : option json)
  | TooManyInstances
  | DuplicateInstanceId (id : string)
  | UnsupportedInstanceKind (value : option json)
  | InvalidInstanceId (kind : InstanceKind) (id : string)
  | UnsupportedTargetKind (value : option json)
  | PaneTreeTooDeep
  | UnsupportedPaneKind (value : option json)
  | InvalidOrdinal.

(** A thrown error or a result. *)
Definition decoded (A : Type) : Type := DecodeError + A.

Definition throw {A} (e : DecodeError) : decoded A := inl e.
Definition d_bind {A B} (f : A → decoded B) (m : decoded A) : decoded B :=
  match m with inl e => inl e | inr a => f a end.

Notation "'let?' x := m 'in' k" := (d_bind (λ x, k) m)
  (at level 10, x pattern, m at level 100, k at level 200) : js_scope.

Fixpoint d_map {A B} (f : A → decoded B) (l : list A) : decoded (list B) :=
  match l with
  | [] => inr []
  | x :: l => let? y := f x in let? ys := d_map f l in inr (y :: ys)
  end.

(** ** Reading values

    A missing property reads as [undefined], which is [None]. *)

Definition field (o : list (string * json)) (k : string) : option json := jsmap_get k o.

Definition record (value : option json) (label : string) : decoded (list (string * json)) :=
  match value with Some (JObj fields) => inr fields | _ => throw (InvalidField label) end.

Definition array (value : option json) (label : string) : decoded (list json) :=
  match value with Some (JArr l) => inr l | _ => throw (InvalidField label) end.

Definition number (value : option json) (label : string) : decoded Q :=
  match value with Some (JNum q) => inr q | _ => throw (InvalidField label) end.

Definition nonEmptyString (value : option json) (label : string) : decoded string :=
  match value with
  | Some (JStr s) =>
      if String.eqb s "" || bool_decide (MAX_STRING < String.length s)
      then throw (InvalidField label) else inr s
  | _ => throw (InvalidField label)
  end.

(** [Number.isInteger(q)], with the integer. *)
Definition q_integer (q : Q) : option Z :=
  let r := Qred q in if decide (Qden r = 1%positive) then Some (Qnum r) else None.

Definition ordinal (value : option json) : decoded Z :=
  let? parsed := number value "instance.ordinal" in
  match q_integer parsed with
  | Some z => if decide (z < 0)%Z then throw InvalidOrdinal else inr z
  | None => throw InvalidOrdinal
  end.

Definition is_str (value : option json) (s : string) : bool :=
  match value with Some (JStr t) => String.eqb t s | _ => false end.

(** [Boolean(value)] *)
Definition truthy_json (value : option json) : bool :=
  match value with
  | None | Some JNull => false
  | Some (JBool b) => b
  | Some (JNum q) => negb (Qeq_bool q 0)
  | Some (JStr s) => negb (String.eqb s "")
  | Some (JArr _) | Some (JObj _) => true
  end.

(** ** The decoder *)

Definition requireInstancePrefix (id : string) (kind : InstanceKind) : decoded unit :=
  let prefix := instance_kind_name kind +:+ ":" in
  if negb (starts_with prefix id) || (String.length id =? String.length prefix)
  then throw (InvalidInstanceId kind id) else inr ().

Definition parseTarget (value : option json) : decoded WorkspaceSnapshotTargetRef :=
  let? target := record value "instance.target" in
  if is_str (field target "kind") "profile" then
    let? p := nonEmptyString (field target "profileId") "profileId" in inr (TargetProfile p)
  else if is_str (field target "kind") "temporary" then
    let? t := nonEmptyString (field target "targetId") "targetId" in inr (TargetTemporary t)
  else throw (UnsupportedTargetKind (field target "kind")).

Definition parseInstance (value : json) : decoded WorkspaceSnapshotInstance :=
  let? item := record (Some value) "instance" in
  let? id := nonEmptyString (field item "id") "instance.id" in
  let? target := parseTarget (field item "target") in
  let kind := field item "kind" in
  if is_str kind "ssh" then
    let? _ := requireInstancePrefix id KSsh in
    let? o := ordinal (field item "ordinal") in inr (SnapSsh id o target)
  else if is_str kind "local" then
    let? _ := requireInstancePrefix id KLocal in
    let source :=
      if is_str (field item "source") "telnet" then SrcTelnet
      else if is_str (field item "source") "serial" then SrcSerial else SrcLocal in
    let? o := ordinal (field item "ordinal") in inr (SnapLocal id o source target)
  else if is_str kind "rdp" then
    let? _ := requireInstancePrefix id KRdp in inr (SnapRdp id target)
  else if is_str kind "vnc" then
    let? _ := requireInstancePrefix id KVnc in inr (SnapVnc id target)
  else throw (UnsupportedInstanceKind kind).

(** [remaining] is [MAX_PANE_DEPTH + 1 - depth]: at 0 the depth exceeds the maximum. *)
Fixpoint parsePane (remaining : nat) (value : option json) (liveIds : list string) :
    decoded WorkspaceSnapshotPaneNode :=
  match remaining with
  | 0 => throw PaneTreeTooDeep
  | S remaining =>
      let? node := record value "pane" in
      let? id := nonEmptyString (field node "id") "pane.id" in
      if is_str (field node "kind") "leaf" then
        inr (SnapLeaf id
          (match field node "instanceId" with
           | Some (JStr i) => if decide (i ∈ liveIds) then Some i else None
           | _ => None
           end))
      else if negb (is_str (field node "kind") "split") then
        throw (UnsupportedPaneKind (field node "kind"))
      else
        let direction := if is_str (field node "direction") "column" then SplitColumn else SplitRow in
        let? first := parsePane remaining (field node "first") liveIds in
        let? ratio := number (field node "ratio") "pane.ratio" in
        let? second := parsePane remaining (field node "second") liveIds in
        inr (SnapSplit direction first id (clampTerminalSplitRatio ratio) second)
  end.

Definition sanitizeActiveItem (value : option json) (liveIds : list string) (hasPanes : bool) :
    option string :=
  if is_str value HOME_ITEM_ID then Some HOME_ITEM_ID
  else if is_str value SPLIT_ITEM_ID then if hasPanes then Some SPLIT_ITEM_ID else None
  else match value with
       | Some (JStr s) => if decide (s ∈ liveIds) then Some s else None
       | _ => None
       end.

Definition dedupeStrings (values : list json) : list string :=
  keep_first [] (omap (λ v, match v with JStr s => Some s | _ => None end) values).

(** The first id that occurs again. *)
Fixpoint first_duplicate (seen : list string) (ids : list string) : option string :=
  match ids with
  | [] => None
  | id :: ids => if decide (id ∈ seen) then Some id else first_duplicate (id :: seen) ids
  end.

(** [for (instance of instances) if (!order.includes(id)) order.push(id)] *)
Definition push_missing (order ids : list string) : list string :=
  foldl (λ o id, if decide (id ∈ o) then o else o ++ [id]) order ids.

Definition decode_directories (sshIds : list string) (entries : list (string * json)) : jsmap string :=
  foldl (λ directories e,
    match e.2 with
    | JStr path =>
        if bool_decide (e.1 ∈ sshIds) && truthy (Some path)
        then jsmap_set e.1 path directories else directories
    | _ => directories
    end) [] entries.

Definition decode_follow (sshIds : list string) (entries : list (string * json)) : jsmap bool :=
  jsmap_of_entries
    (omap (λ e, match e.2 with
      | JBool b => if decide (e.1 ∈ sshIds) then Some (e.1, b) else None
      | _ => None
      end) entries).

Definition decodeWorkspaceSnapshot (value : json) : decoded WorkspaceSnapshotV1 :=
  let? root := record (Some value) "snapshot" in
  match field root "version" with
  | Some (JNum v) =>
    if negb (Qeq_bool v 1) then throw (UnsupportedVersion (field root "version")) else
    let? rawInstances := array (field root "instances") "instances" in
    if bool_decide (MAX_INSTANCES < length rawInstances) then throw TooManyInstances else
    let? instances := d_map parseInstance rawInstances in
    let ids := snap_id <$> instances in
    match first_duplicate [] ids with
    | Some id => throw (DuplicateInstanceId id)
    | None =>
      let sshIds := snap_id <$> filter is_snap_ssh instances in
      let? panes :=
        match field root "panes" with
        | None | Some JNull => inr None
        | p => let? p' := parsePane (S MAX_PANE_DEPTH) p ids in inr (Some p')
        end in
      let? rawOrder := array (field root "order") "order" in
      let order := push_missing (filter (.∈ ids) (dedupeStrings rawOrder)) ids in
      let? files := record (field root "files") "files" in
      let? rawDirectories := record (field files "directories") "files.directories" in
      let directories := decode_directories sshIds rawDirectories in
      let? sidebar := record (field root "sidebar") "sidebar" in
      let view := if is_str (field sidebar "view") "files" then ViewFiles else ViewSessions in
      let active := sanitizeActiveItem (field root "activeItemId") ids (bool_decide (is_Some panes)) in
      let? follow :=
        match field files "followTerminalDirectories" with
        | None => inr None
        | v =>
            let? entries := record v "files.followTerminalDirectories" in
            inr (Some (decode_follow sshIds entries))
        end in
      inr (mkSnapshotV1 active directories (truthy_json (field files "followActivePane")) follow
        instances order panes (truthy_json (field sidebar "collapsed")) view)
    end
  | v => throw (UnsupportedVersion v)
  end.

(** ** Choosing the snapshot *)

Inductive SnapshotSource := FromBackup | FromCurrent | FromNone.

Record WorkspaceSnapshotSelection := mkSelection {
  sel_currentError : option DecodeError;
  sel_snapshot : option WorkspaceSnapshotV1;
  sel_source : SnapshotSource;
}.

(** [x != null] *)
Definition present (v : option json) : option json :=
  match v with None | Some JNull => None | Some j => Some j end.

Definition selectWorkspaceSnapshot (backup current : option json) : WorkspaceSnapshotSelection :=
  match present current with
  | Some c =>
      match decodeWorkspaceSnapshot c with
      | inr s => mkSelection None (Some s) FromCurrent
      | inl currentError =>
          match present backup with
          | Some b =>
              match decodeWorkspaceSnapshot b with
              | inr s => mkSelection (Some currentError) (Some s) FromBackup
              | inl _ => mkSelection (Some currentError) None FromNone
              end
          | None => mkSelection (Some currentError) None FromNone
          end
      end
  | None =>
      match present backup with
      | Some b =>
          match decodeWorkspaceSnapshot b with
          | inr s => mkSelection None (Some s) FromBackup
          | inl _ => mkSelection None None FromNone
          end
      | None => mkSelection None None FromNone
      end
  end.

(** ** What is saved *)

Definition json_opt (o : option string) : json := match o with Some s => JStr s | None => JNull end.

Definition target_json (t : WorkspaceSnapshotTargetRef) : json :=
  match t with
  | TargetProfile p => JObj [("kind", JStr "profile"); ("profileId", JStr p)]
  | TargetTemporary t => JObj [("kind", JStr "temporary"); ("targetId", JStr t)]
  end.

Definition source_name (s : LocalTerminalSource) : string :=
  match s with SrcLocal => "local" | SrcTelnet => "telnet" | SrcSerial => "serial" end.

Definition ordinal_json (o : Z) : json := JNum (inject_Z o).

Definition instance_json (i : WorkspaceSnapshotInstance) : json :=
  match i with
  | SnapSsh id o t => JObj [("id", JStr id); ("kind", JStr "ssh"); ("ordinal", ordinal_json o);
      ("target", target_json t)]
  | SnapLocal id o s t => JObj [("id", JStr id); ("kind", JStr "local"); ("ordinal", ordinal_json o);
      ("source", JStr (source_name s)); ("target", target_json t)]
  | SnapRdp id t => JObj [("id", JStr id); ("kind", JStr "rdp"); ("target", target_json t)]
  | SnapVnc id t => JObj [("id", JStr id); ("kind", JStr "vnc"); ("target", target_json t)]
  end.

Definition direction_name (d : SplitDirection) : string :=
  match d with SplitRow => "row" | SplitColumn => "column" end.

Fixpoint pane_json (p : WorkspaceSnapshotPaneNode) : json :=
  match p with
  | SnapLeaf id i => JObj [("id", JStr id); ("instanceId", json_opt i); ("kind", JStr "leaf")]
  | SnapSplit d first id r second =>
      JObj [("direction", JStr (direction_name d)); ("first", pane_json first); ("id", JStr id);
        ("kind", JStr "split"); ("ratio", JNum r); ("second", pane_json second)]
  end.

Definition view_name (v : SidebarView) : string :=
  match v with ViewSessions => "sessions" | ViewFiles => "files" end.

Definition entries_json {V} (f : V → json) (m : jsmap V) : json := JObj ((λ e, (e.1, f e.2)) <$> m).

Definition files_json (s : WorkspaceSnapshotV1) : json :=
  JObj ([("directories", entries_json JStr (sn_directories s));
    ("followActivePane", JBool (sn_followActivePane s))] ++
    match sn_followTerminalDirectories s with
    | Some m => [("followTerminalDirectories", entries_json JBool m)]
    | None => []
    end).

Definition to_json (s : WorkspaceSnapshotV1) : json :=
  JObj [("activeItemId", json_opt (sn_activeItemId s));
    ("files", files_json s);
    ("instances", JArr (instance_json <$> sn_instances s));
    ("order", JArr (JStr <$> sn_order s));
    ("panes", match sn_panes s with Some p => pane_json p | None => JNull end);
    ("sidebar", JObj [("collapsed", JBool (sn_collapsed s)); ("view", JStr (view_name (sn_view s)))]);
    ("version", JNum 1)].

(** ** Lemmas *)

(** Reading a field of a literal object. *)
Ltac json_field o k :=
  lazymatch o with
  | (k, ?v) :: _ => constr:(Some v)
  | _ :: ?r => json_field r k
  | [] => constr:(@None json)
  end.
Ltac fields :=
  repeat match goal with
    |- context [field ?o ?k] => let v := json_field o k in change (field o k) with v
  end.

Lemma nonEmptyString_ok s label : short_string s → nonEmptyString (Some (JStr s)) label = inr s.
Proof.
  intros [Hne Hlen]. unfold nonEmptyString. apply String.eqb_neq in Hne as ->.
  by rewrite bool_decide_eq_false_2 by lia.
Qed.

Lemma q_integer_inject z : q_integer (inject_Z z) = Some z.
Proof.
  unfold q_integer, inject_Z, Qred. pose proof (Z.ggcd_gcd z 1) as Hg.
  pose proof (Z.ggcd_correct_divisors z 1) as Hd.
  destruct (Z.ggcd z 1) as [g [a b]]. simpl in *. rewrite Z.gcd_1_r in Hg. subst g.
  destruct Hd as [H1 H2]. rewrite Z.mul_1_l in H1, H2. subst. done.
Qed.

Lemma ordinal_ok o : (0 ≤ o)%Z → ordinal (Some (ordinal_json o)) = inr o.
Proof.
  intros Ho. unfold ordinal, ordinal_json. cbn [number d_bind]. rewrite q_integer_inject.
  rewrite decide_False by lia. done.
Qed.

Lemma string_length_app a b : String.length (a +:+ b) = String.length a + String.length b.
Proof. induction a as [|c a IH]; simpl; [done|]. by rewrite IH. Qed.

Lemma requireInstancePrefix_ok k raw : raw ≠ "" → requireInstancePrefix (instanceItemId k raw) k = inr ().
Proof.
  intros Hne. unfold requireInstancePrefix, instanceItemId. cbv zeta.
  replace (instance_kind_name k +:+ ":" +:+ raw) with ((instance_kind_name k +:+ ":") +:+ raw)
    by (by destruct k).
  rewrite starts_with_app, string_length_app. cbn [negb orb].
  destruct (Nat.eqb_spec (String.length (instance_kind_name k +:+ ":") + String.length raw)
    (String.length (instance_kind_name k +:+ ":"))) as [H|H]; [|done].
  destruct raw; [done|]. simpl in H. lia.
Qed.

Lemma parseTarget_ok t : short_string (target_owner t) → parseTarget (Some (target_json t)) = inr t.
Proof.
  intros Hs. unfold parseTarget.
  destruct t; cbn [target_json record d_bind target_owner] in *; fields;
    by rewrite (nonEmptyString_ok _ _ Hs).
Qed.

Lemma parseInstance_ok i : instance_valid i → parseInstance (instance_json i) = inr i.
Proof.
  intros ((raw & Hraw & Hid) & Hs & Ht & Ho). unfold parseInstance.
  destruct i as [id o t|id o s t|id t|id t]; cbn [snap_id snap_kind snap_target snap_ordinal] in *;
    cbn [instance_json record d_bind]; fields; rewrite (nonEmptyString_ok _ _ Hs); cbn [d_bind];
    rewrite (parseTarget_ok _ Ht); cbn [d_bind]; fields; subst id; cbn [is_str String.eqb];
    cbn -[requireInstancePrefix ordinal ordinal_json instanceItemId];
    rewrite requireInstancePrefix_ok by done; cbn [d_bind].
  - by rewrite ordinal_ok by auto.
  - rewrite ordinal_ok by auto. by destruct s.
  - done.
  - done.
Qed.

Lemma d_map_ok {A B} (f : A → decoded B) (g : B → A) l :
  (∀ x, x ∈ l → f (g x) = inr x) → d_map f (g <$> l) = inr l.
Proof.
  induction l as [|x l IH]; intros H; [done|]. cbn. rewrite H by left. cbn.
  change (list_fmap ?a ?b g l) with (g <$> l). rewrite IH; [done|]. intros. apply H. by right.
Qed.

Lemma parsePane_ok p liveIds depth :
  pane_valid liveIds depth p →
  parsePane (S MAX_PANE_DEPTH - depth) (Some (pane_json p)) liveIds = inr p.
Proof.
  revert depth. induction p as [id i|d f IHf id r s IHs]; intros depth; cbn [pane_valid];
    intros (Hd & Hv); rewrite Nat.sub_succ_l by done; cbn [parsePane pane_json record d_bind]; fields.
  - destruct Hv as [Hid Hi]. rewrite nonEmptyString_ok by done. cbn.
    destruct i as [i|]; [|done]. cbn. by rewrite decide_True by auto.
  - destruct Hv as (Hid & Hr & Hf & Hs). rewrite nonEmptyString_ok by done. cbn [d_bind is_str].
    cbn -[Nat.sub clampTerminalSplitRatio parsePane].
    replace (MAX_PANE_DEPTH - depth) with (S MAX_PANE_DEPTH - S depth) by lia.
    rewrite (IHf _ Hf). cbn [d_bind]. fields. cbn [number d_bind]. rewrite (IHs _ Hs).
    cbn [d_bind]. rewrite Hr. by destruct d.
Qed.

Lemma first_duplicate_None seen ids :
  NoDup ids → (∀ x, x ∈ ids → x ∉ seen) → first_duplicate seen ids = None.
Proof.
  revert seen. induction ids as [|id ids IH]; intros seen; simpl; [done|].
  intros [Hid Hnd]%NoDup_cons Hs. rewrite decide_False by (apply Hs; left). apply IH; [done|].
  intros x Hx. rewrite not_elem_of_cons. split; [by intros ->|]. apply Hs. by right.
Qed.

Lemma push_missing_id order ids : (∀ x, x ∈ ids → x ∈ order) → push_missing order ids = order.
Proof.
  unfold push_missing. induction ids as [|id ids IH]; intros H; [done|]. cbn.
  rewrite decide_True by (apply H; left). apply IH. intros. apply H. by right.
Qed.

Lemma decode_directories_ok sshIds (m : jsmap string) :
  NoDup m.*1 → Forall (λ e, e.1 ∈ sshIds ∧ e.2 ≠ "") m →
  decode_directories sshIds ((λ e, (e.1, JStr e.2)) <$> m) = m.
Proof.
  intros Hnd Hall. rewrite <- (jsmap_of_entries_id m Hnd) at 2.
  unfold decode_directories, jsmap_of_entries. generalize (@nil (string * string)) as acc. clear Hnd.
  induction m as [|[k v] m IH]; intros acc; [done|]. cbn.
  apply Forall_cons in Hall as [[Hk Hv] Hall]. simpl in *.
  rewrite bool_decide_eq_true_2 by done. apply truthy_Some in Hv. simpl in Hv. rewrite Hv. cbn.
  by apply IH.
Qed.

Lemma decode_follow_ok sshIds (m : jsmap bool) :
  NoDup m.*1 → Forall (λ e, e.1 ∈ sshIds) m →
  decode_follow sshIds ((λ e, (e.1, JBool e.2)) <$> m) = m.
Proof.
  intros Hnd Hall. unfold decode_follow.
  assert (omap (λ e : string * json, match e.2 with
    | JBool b => if decide (e.1 ∈ sshIds) then Some (e.1, b) else None | _ => None end)
    ((λ e, (e.1, JBool e.2)) <$> m) = m) as ->; [|by apply jsmap_of_entries_id].
  clear Hnd. induction m as [|[k b] m IH]; [done|]. apply Forall_cons in Hall as [Hk Hall]. cbn in *.
  rewrite decide_True by done. f_equal. by apply IH.
Qed.

Lemma sanitizeActiveItem_ok s :
  active_valid s → SPLIT_ITEM_ID ∉ snap_id <$> sn_instances s →
  sanitizeActiveItem (Some (json_opt (sn_activeItemId s))) (snap_id <$> sn_instances s)
    (bool_decide (is_Some (sn_panes s))) = sn_activeItemId s.
Proof.
  intros Hv Hns. revert Hv. unfold active_valid, sanitizeActiveItem. destruct (sn_activeItemId s) as [id|]; [|done].
  cbn [json_opt is_str].
  destruct (String.eqb_spec id HOME_ITEM_ID) as [->|Hh]; [done|].
  destruct (String.eqb_spec id SPLIT_ITEM_ID) as [->|Hs].
  - intros [?|[[_ Hp]|Hin]]; [done|by rewrite bool_decide_eq_true_2|].
    done.
  - intros [?|[[? _]|Hin]]; try done. by rewrite decide_True.
Qed.

Lemma instance_valid_reserved l : Forall instance_valid l → SPLIT_ITEM_ID ∉ snap_id <$> l.
Proof.
  rewrite Forall_forall. intros Hl (i & Heq & Hi)%list_elem_of_fmap.
  destruct (Hl i Hi) as ((raw & _ & Hid) & _). rewrite Hid in Heq. by destruct (snap_kind i).
Qed.

Lemma dedupe_order_ok (order ids : list string) :
  NoDup order → (∀ id, id ∈ order ↔ id ∈ ids) →
  push_missing (filter (.∈ ids) (dedupeStrings (JStr <$> order))) ids = order.
Proof.
  intros Hnd Heq. unfold dedupeStrings.
  assert (omap (λ v, match v with JStr s => Some s | _ => None end) (JStr <$> order) = order) as ->.
  { clear. induction order as [|x l IH]; [done|]. cbn in *. by rewrite IH. }
  rewrite keep_first_id by (done || intros ? _; apply not_elem_of_nil).
  rewrite filter_all by (intros; by apply Heq).
  apply push_missing_id. intros. by apply Heq.
Qed.

(** Decoding what was saved. *)
Lemma decode_to_json s : snapshot_valid s → decodeWorkspaceSnapshot (to_json s) = inr s.
Proof.
  intros [Hn Hi Hids Ho Hoi Hp Ha Hdk Hd Hf]. unfold decodeWorkspaceSnapshot, to_json.
  cbn [record d_bind]. fields. cbn [array d_bind]. change (Qeq_bool 1 1) with true. cbn [negb].
  rewrite length_fmap, bool_decide_eq_false_2 by lia.
  rewrite d_map_ok by (rewrite Forall_forall in Hi; intros; by apply parseInstance_ok, Hi).
  cbn [d_bind]. rewrite first_duplicate_None by (done || intros ? _; apply not_elem_of_nil).
  assert (match (match sn_panes s with Some p => pane_json p | None => JNull end) with
    | JNull => inr None
    | p => let? p' := parsePane (S MAX_PANE_DEPTH) (Some p) (snap_id <$> sn_instances s) in inr (Some p')
    end = inr (sn_panes s) :> decoded _) as Hpanes.
  { destruct (sn_panes s) as [p|]; [|done]. pose proof (parsePane_ok p _ 0 (Hp p eq_refl)) as Hok.
    rewrite Nat.sub_0_r in Hok. destruct p; cbn [pane_json] in *; by rewrite Hok. }
  match goal with |- d_bind _ ?m = _ => replace m with (inr (sn_panes s) : decoded (option WorkspaceSnapshotPaneNode)) end.
  cbn [d_bind]. rewrite dedupe_order_ok by done.
  unfold files_json. cbn [record d_bind app]. fields. unfold entries_json. cbn [record d_bind].
  rewrite decode_directories_ok by done. rewrite sanitizeActiveItem_ok by (done || by apply instance_valid_reserved).
  cbn [truthy_json]. fields.
  destruct (sn_followTerminalDirectories s) as [m|] eqn:Ef.
  - destruct (Hf m eq_refl) as [Hf1 Hf2]. cbn [app]. fields. cbn [record d_bind].
    rewrite decode_follow_ok by done. rewrite <- Ef. destruct s; cbn in *. by destruct sn_view.
  - cbn [app]. fields. cbn [d_bind]. rewrite <- Ef. destruct s; cbn in *. by destruct sn_view.
Qed.

(** *** What the decoder accepts is valid *)

Lemma d_bind_inr {A B} (f : A → decoded B) m b : d_bind f m = inr b → ∃ a, m = inr a ∧ f a = inr b.
Proof. destruct m; simpl; [done|]. eauto. Qed.

Lemma d_map_inr {A B} (f : A → decoded B) l ys :
  d_map f l = inr ys → length ys = length l ∧ ∀ y, y ∈ ys → ∃ x, f x = inr y.
Proof.
  revert ys. induction l as [|x l IH]; intros ys; cbn.
  - intros [= <-]. split; [done|]. by intros ? ?%not_elem_of_nil.
  - intros (y & Hy & (ys' & Hys & [= <-])%d_bind_inr)%d_bind_inr. destruct (IH _ Hys) as [Hl Hin].
    split; [simpl; lia|]. intros z [->|?]%elem_of_cons; eauto.
Qed.

Lemma nonEmptyString_inr v label s : nonEmptyString v label = inr s → short_string s.
Proof.
  unfold nonEmptyString. destruct v as [[| | |t| |]|]; try done.
  destruct (String.eqb_spec t ""); cbn; [done|]. case_bool_decide; [done|]. intros [= <-].
  split; [done|lia].
Qed.

Lemma ordinal_inr v z : ordinal v = inr z → (0 ≤ z)%Z.
Proof.
  unfold ordinal. intros (q & _ & H)%d_bind_inr. destruct (q_integer q); [|done].
  case_decide; [done|]. injection H as <-. lia.
Qed.

Lemma parseTarget_inr v t : parseTarget v = inr t → short_string (target_owner t).
Proof.
  unfold parseTarget. intros (o & _ & H)%d_bind_inr. destruct (is_str _ _); [|destruct (is_str _ _); [|done]];
    apply d_bind_inr in H as (s & Hs%nonEmptyString_inr & [= <-]); done.
Qed.

Lemma string_length_zero s : String.length s = 0 → s = "".
Proof. by destruct s. Qed.

Lemma requireInstancePrefix_inr id k u :
  requireInstancePrefix id k = inr u → ∃ raw, raw ≠ "" ∧ id = instanceItemId k raw.
Proof.
  unfold requireInstancePrefix. cbv zeta. destruct (starts_with _ id) eqn:E; cbn [negb orb]; [|done].
  apply starts_with_inv in E as [raw ->]. rewrite string_length_app.
  destruct (Nat.eqb_spec (String.length (instance_kind_name k +:+ ":") + String.length raw)
    (String.length (instance_kind_name k +:+ ":"))) as [H|H]; [done|].
  intros _. exists raw. split; [intros ->; simpl in H; lia|]. by destruct k.
Qed.

Lemma parseInstance_inr v i : parseInstance v = inr i → instance_valid i.
Proof.
  unfold parseInstance. intros (item & _ & (id & Hid%nonEmptyString_inr & (t & Ht%parseTarget_inr & H)%d_bind_inr)%d_bind_inr)%d_bind_inr.
  repeat (destruct (is_str _ _); [apply d_bind_inr in H as (u & (raw & Hraw & Hr)%requireInstancePrefix_inr & H)|]);
    try done; cbv zeta in H; try apply d_bind_inr in H as (o & Ho%ordinal_inr & H); injection H as <-.
  all: split_and!; [by exists raw|done|done|by intros ? [= <-]].
Qed.

Lemma parsePane_inr n v liveIds p :
  parsePane n v liveIds = inr p → n ≤ S MAX_PANE_DEPTH → pane_valid liveIds (S MAX_PANE_DEPTH - n) p.
Proof.
  revert v p. induction n as [|n IH]; intros v p; [done|]. cbn [parsePane].
  intros (node & _ & (id & Hid%nonEmptyString_inr & H)%d_bind_inr)%d_bind_inr Hn.
  destruct (is_str _ "leaf").
  - injection H as <-. split; [unfold MAX_PANE_DEPTH in *; lia|]. split; [done|].
    intros i. destruct (field node "instanceId") as [[| | |s| |]|]; try done. case_decide; [|done].
    by intros [= <-].
  - destruct (negb _); [done|]. cbv zeta in H.
    apply d_bind_inr in H as (f & Hf & (r & _ & (s & Hs & [= <-])%d_bind_inr)%d_bind_inr).
    cbn [pane_valid]. split; [unfold MAX_PANE_DEPTH in *; lia|].
    replace (S (S MAX_PANE_DEPTH - S n)) with (S MAX_PANE_DEPTH - n) by (unfold MAX_PANE_DEPTH in *; lia).
    split_and!; [done|apply clampTerminalSplitRatio_idemp|eapply IH|eapply IH]; try done; lia.
Qed.

Lemma first_duplicate_NoDup seen ids : first_duplicate seen ids = None → NoDup ids ∧ ∀ x, x ∈ ids → x ∉ seen.
Proof.
  revert seen. induction ids as [|id ids IH]; intros seen; simpl.
  - split; [constructor|]. by intros ? ?%not_elem_of_nil.
  - case_decide as Hid; [done|]. intros [Hnd Hs]%IH. split.
    + apply NoDup_cons. split; [|done]. intros Hin. apply (Hs _ Hin). left.
    + intros x [->|Hx]%elem_of_cons; [done|]. apply Hs in Hx. rewrite not_elem_of_cons in Hx. tauto.
Qed.

Lemma push_missing_spec order ids :
  NoDup order →
  NoDup (push_missing order ids) ∧ ∀ x, x ∈ push_missing order ids ↔ x ∈ order ∨ x ∈ ids.
Proof.
  unfold push_missing. revert order. induction ids as [|id ids IH]; intros order Hnd; cbn.
  - split; [done|]. intros x. pose proof (not_elem_of_nil x). tauto.
  - case_decide as Hid.
    + destruct (IH order Hnd) as [H1 H2]. split; [done|]. intros x. rewrite H2, elem_of_cons.
      split; [tauto|]. intros [?|[->|?]]; tauto.
    + destruct (IH (order ++ [id])) as [H1 H2].
      { apply NoDup_app. split_and!; [done|set_solver|apply NoDup_singleton]. }
      split; [done|]. intros x. rewrite H2, elem_of_app, list_elem_of_singleton, elem_of_cons. tauto.
Qed.

Lemma decode_directories_valid sshIds entries :
  NoDup (decode_directories sshIds entries).*1 ∧
  Forall (λ e, e.1 ∈ sshIds ∧ e.2 ≠ "") (decode_directories sshIds entries).
Proof.
  assert (decode_directories sshIds entries = snapshotDirectories
    ((λ e, (e.1, match e.2 with JStr s => Some s | _ => None end)) <$> entries) sshIds) as ->.
  { unfold decode_directories, snapshotDirectories. generalize (@nil (string * string)) as acc.
    induction entries as [|[k v] l IH]; intros acc; [done|]. cbn. by destruct v; rewrite <- IH. }
  apply snapshotDirectories_valid.
Qed.

Lemma decode_follow_valid sshIds entries :
  NoDup (decode_follow sshIds entries).*1 ∧ Forall (λ e, e.1 ∈ sshIds) (decode_follow sshIds entries).
Proof.
  unfold decode_follow. set (es := omap _ _). destruct (jsmap_of_entries_keys es) as [H1 H2].
  split; [done|]. apply Forall_forall. intros e (e' & -> & He)%H2%list_elem_of_fmap.
  unfold es in He. apply list_elem_of_omap in He as ((k & v) & _ & He). simpl in He.
  destruct v; try done. case_decide; [|done]. by injection He as <-.
Qed.

Lemma sanitizeActiveItem_valid v liveIds has id :
  sanitizeActiveItem v liveIds has = Some id →
  id = HOME_ITEM_ID ∨ (id = SPLIT_ITEM_ID ∧ has = true) ∨ id ∈ liveIds.
Proof.
  unfold sanitizeActiveItem. destruct (is_str v HOME_ITEM_ID); [intros [= <-]; by left|].
  destruct (is_str v SPLIT_ITEM_ID); [destruct has; [intros [= <-]; auto|done]|].
  destruct v as [[| | |s| |]|]; try done. case_decide; [|done]. intros [= <-]. auto.
Qed.

Lemma decode_inr_valid j s : decodeWorkspaceSnapshot j = inr s → snapshot_valid s.
Proof.
  unfold decodeWorkspaceSnapshot. intros (root & _ & H)%d_bind_inr.
  destruct (field root "version") as [[| |v| | |]|]; try done. destruct (negb _); [done|].
  apply d_bind_inr in H as (raw & _ & H). case_bool_decide as Hn; [done|].
  apply d_bind_inr in H as (instances & Hi & H). apply d_map_inr in Hi as [Hlen Hi].
  destruct (first_duplicate [] _) eqn:Hd; [done|]. apply first_duplicate_NoDup in Hd as [Hnd _].
  apply d_bind_inr in H as (panes & Hp & H). apply d_bind_inr in H as (order & _ & H).
  apply d_bind_inr in H as (files & _ & H). apply d_bind_inr in H as (dirs & _ & H).
  apply d_bind_inr in H as (sidebar & _ & H). cbv zeta in H. apply d_bind_inr in H as (follow & Hf & [= <-]).
  destruct (decode_directories_valid (snap_id <$> filter is_snap_ssh instances) dirs) as [Hd1 Hd2].
  destruct (push_missing_spec (filter (.∈ snap_id <$> instances) (dedupeStrings order)) (snap_id <$> instances))
    as [Ho1 Ho2]; [apply NoDup_filter, keep_first_NoDup|].
  constructor; cbn -[decode_directories push_missing sanitizeActiveItem]; try done.
  - lia.
  - apply Forall_forall. intros i Hin. apply Hi in Hin as [x Hx]. by eapply parseInstance_inr.
  - intros id. rewrite Ho2, list_elem_of_filter. tauto.
  - intros p ->. destruct (field root "panes") as [[]|]; try done;
      apply d_bind_inr in Hp as (p' & Hp & [= <-]);
      apply parsePane_inr in Hp; (done || by rewrite Nat.sub_diag in Hp).
  - unfold active_valid. cbn -[sanitizeActiveItem].
    destruct (sanitizeActiveItem _ _ _) as [id|] eqn:Ea; [|done].
    apply sanitizeActiveItem_valid in Ea as [?|[[? ?%bool_decide_eq_true]|?]]; auto.
  - intros m ->. destruct (field files "followTerminalDirectories") as [v'|]; [|done].
    apply d_bind_inr in Hf as (es & _ & [= <-]). apply decode_follow_valid.
Qed.

(** ** Properties *)

(** C10: what is saved is what is loaded. For every workspace within the bounds of
    the format (at most 100 instances, panes at depth at most 8, ids and targets
    non-empty and at most 4096 long, unique ids), decoding the saved snapshot gives
    back exactly the snapshot, whatever the backup is. *)
Theorem snapshot_roundtrip p c backup :
  workspace_bounded p c →
  decodeWorkspaceSnapshot (to_json (toSnapshot p c)) = inr (toSnapshot p c) ∧
  selectWorkspaceSnapshot backup (Some (to_json (toSnapshot p c))) =
    mkSelection None (Some (toSnapshot p c)) FromCurrent.
Proof.
  intros Hb%toSnapshot_valid%decode_to_json. split; [done|].
  unfold selectWorkspaceSnapshot. cbn [present to_json]. fold (to_json (toSnapshot p c)). by rewrite Hb.
Qed.

Definition snap_collections : WorkspaceSnapshotCollections :=
  mkSnapshotCollections [mkLocalInstance "l1" 1 "zsh" None] [mkRef "c2" "r1"]
    (Some (mkTargetRefs [("c1", TargetTemporary "tmp")] []))
    [mkSshInstance "c1" "a" 0] [].
Definition snap_pointers : WorkspaceSnapshotPointers :=
  mkSnapshotPointers (Some "split") [("ssh:a", Some "/srv"); ("ssh:gone", Some "/x")] true
    (Some [("ssh:a", true)]) ["rdp:r1"; "ssh:a"; "ssh:old"] false ViewFiles
    (Some (Branch SplitRow (Leaf (Some (mkBinding PaneSsh "a")) "terminal-pane-1") "terminal-split-3"
      (9 # 10) (Leaf (Some (mkBinding PaneLocal "l1")) "terminal-pane-2"))).

Ltac shortness := split; [done|vm_compute; lia].

Lemma snap_bounded : workspace_bounded snap_pointers snap_collections.
Proof.
  constructor.
  - vm_compute. lia.
  - vm_decide.
  - repeat (apply Forall_cons; split); [| | |by apply Forall_nil];
      (split; [eexists; split; [|reflexivity]; done|]);
      (split; [shortness|split; [shortness|by intros ? [= <-]]]).
  - intros l [= <-]. cbn. unfold MAX_PANE_DEPTH. repeat (split; [lia|]). split; [shortness|].
    split; (split; [lia|shortness]).
Qed.

Lemma snapshot_roundtrip_witness :
  decodeWorkspaceSnapshot (to_json (toSnapshot snap_pointers snap_collections)) =
    inr (toSnapshot snap_pointers snap_collections) ∧
  sn_order (toSnapshot snap_pointers snap_collections) = ["rdp:r1"; "ssh:a"; "local:l1"].
Proof.
  split; [|vm_compute; reflexivity].
  apply (snapshot_roundtrip snap_pointers snap_collections None snap_bounded).
Defined.

(** C11: the decoder is total and never lets a malformed snapshot through: whatever
    JSON value it is given it returns an error or a snapshot with unique well-formed
    instance ids, an order table that lists every instance once, panes that only
    show its instances with ratios in range and a bounded depth, an active item that
    exists and directories of its SSH instances only; and a decoded snapshot saves
    and loads unchanged. *)
Theorem decoded_snapshot_valid j s :
  decodeWorkspaceSnapshot j = inr s →
  snapshot_valid s ∧ decodeWorkspaceSnapshot (to_json s) = inr s.
Proof. intros H%decode_inr_valid. split; [done|]. by apply decode_to_json. Qed.

Lemma decoded_snapshot_valid_witness :
  snapshot_valid (toSnapshot snap_pointers snap_collections).
Proof.
  refine (proj1 (decoded_snapshot_valid (to_json (toSnapshot snap_pointers snap_collections)) _ _)).
  vm_compute. reflexivity.
Defined.

(** The value is present and decodes to the result. *)
Definition decodes_to (v : option json) (r : decoded WorkspaceSnapshotV1) : Prop :=
  match present v with Some j => decodeWorkspaceSnapshot j = r | None => False end.

(** Which snapshot is used. A snapshot is returned only if its source decodes to
    it, the current one wins whenever it decodes, the backup is used exactly when
    the current one is absent or malformed and the backup decodes, nothing is
    returned only when neither decodes, and the error reported is the one of a
    current snapshot that is present and malformed. *)
Theorem select_snapshot_exact backup current :
  let sel := selectWorkspaceSnapshot backup current in
  match sel_source sel with
  | FromCurrent =>
      ∃ s, sel_snapshot sel = Some s ∧ decodes_to current (inr s) ∧ sel_currentError sel = None
  | FromBackup =>
      ∃ s, sel_snapshot sel = Some s ∧ decodes_to backup (inr s) ∧ ∀ s', ¬ decodes_to current (inr s')
  | FromNone =>
      sel_snapshot sel = None ∧ (∀ s', ¬ decodes_to current (inr s')) ∧
      ∀ s', ¬ decodes_to backup (inr s')
  end ∧
  (∀ e, sel_currentError sel = Some e ↔ decodes_to current (inl e)).
Proof.
  cbv zeta. unfold decodes_to, selectWorkspaceSnapshot.
  destruct (present current) as [c|]; [destruct (decodeWorkspaceSnapshot c) as [e|s]|];
    (destruct (present backup) as [b|]; [destruct (decodeWorkspaceSnapshot b) as [e'|s']|]);
    cbn; (split; [|intros e0; split; congruence || done]);
    try (split_and!; [done|intros ? ?; congruence || done|intros ? ?; congruence || done]);
    eexists; split_and!; try done; intros ? ?; congruence || done.
Qed.
