(* ===== verification/Restore.v ===== *)
(** * Restoring a workspace ([features/workspace/restore/restorePlan.ts],
      [shellHydration.ts], [remoteFileSnapshotBridge.ts], [WorkspaceShell.tsx]:
      [restoreWorkspaceShell])

    From a decoded snapshot to tabs, layout and pointers, and from the running shell
    to the snapshot it saves. Restored sessions have no backend session; the ones that
    may reconnect are listed. Throwing is [None]; [tr] is the translation function. *)

From S2P Require Import Prelude SplitLayout SplitState SessionTypes MultiExec Instances CloseDecision SessionTabs ShellSplit Snapshot SnapshotCodec.

(** ** The restore plan *)

Inductive WorkspaceRestoreItemStatus := MissingProfile | Ready | TemporaryAuthRequired.

#[export] Instance WorkspaceRestoreItemStatus_eq_dec : EqDecision WorkspaceRestoreItemStatus.
Proof. solve_decision. Defined.

Record WorkspaceRestoreItem := mkRestoreItem {
  ri_autoReconnect : bool;
  ri_instance : WorkspaceSnapshotInstance;
  ri_status : WorkspaceRestoreItemStatus;
}.

(** The plan copies [activeItemId], [files], [order], [panes] and [sidebar] of the
    snapshot. *)
Record WorkspaceRestorePlan := mkRestorePlan {
  rp_snapshot : WorkspaceSnapshotV1;
  rp_items : list WorkspaceRestoreItem;
  rp_multiExecMode : MultiExecMode;
}.

Record WorkspaceRestoreAvailability := mkAvailability {
  av_autoReconnect : bool;
  av_profileIds : gset string;
  av_temporaryTargetIds : gset string;
}.

Definition restoreStatus (instance : WorkspaceSnapshotInstance)
    (profileIds temporaryTargetIds : gset string) : WorkspaceRestoreItemStatus :=
  match snap_target instance with
  | TargetProfile p => if decide (p ∈ profileIds) then Ready else MissingProfile
  | TargetTemporary t =>
      if decide (t ∈ temporaryTargetIds) then TemporaryAuthRequired else TemporaryAuthRequired
  end.

Definition restore_item (availability : WorkspaceRestoreAvailability)
    (instance : WorkspaceSnapshotInstance) : WorkspaceRestoreItem :=
  let status :=
    restoreStatus instance (av_profileIds availability) (av_temporaryTargetIds availability) in
  mkRestoreItem
    (bool_decide (status = Ready) && av_autoReconnect availability &&
     bool_decide (snap_kind instance = KSsh ∨ snap_kind instance = KLocal))
    instance status.

Definition buildWorkspaceRestorePlan (snapshot : WorkspaceSnapshotV1)
    (availability : WorkspaceRestoreAvailability) : WorkspaceRestorePlan :=
  mkRestorePlan snapshot (restore_item availability <$> sn_instances snapshot) MxOff.

(** ** Hydration *)

Record DesktopTab := mkDesktopTab {
  dt_connectionId : string;
  dt_error : option string;
  dt_id : string;
  dt_message : option string;
  dt_title : string;
}.

Inductive WorkspaceShellRestoreTarget :=
  | RestoreHome
  | RestoreSplit (host : TerminalPaneBinding)
  | RestoreSsh (connectionId tabId : string)
  | RestoreLocal (tabId : string)
  | RestoreRdp (connectionId sessionId : string)
  | RestoreVnc (connectionId sessionId : string).

Record WorkspaceShellRestoreLookups := mkLookups {
  lk_connectionName : string → option string;
  lk_localProfile : string → option (string * string);  (* kind, name *)
}.

Record WorkspaceShellHydration := mkHydration {
  hy_active : WorkspaceShellRestoreTarget;
  hy_focusedPaneId : option string;
  hy_localTerminalTabs : list LocalTerminalTab;
  hy_rdpSessions : list DesktopTab;
  hy_splitHost : option TerminalPaneBinding;
  hy_splitLayout : option TerminalSplitNode;
  hy_terminalTabs : list TerminalTab;
  hy_vncSessions : list DesktopTab;
}.

Definition rawInstanceId (instance : WorkspaceSnapshotInstance) : option string :=
  let prefix := instance_kind_name (snap_kind instance) +:+ ":" in
  if negb (starts_with prefix (snap_id instance)) ||
     (String.length (snap_id instance) =? String.length prefix)
  then None else Some (drop_chars (String.length prefix) (snap_id instance)).

Definition targetId (instance : WorkspaceSnapshotInstance) : string :=
  target_owner (snap_target instance).

Definition title_or (name : option string) (fallback : string) : string :=
  default fallback (name ||? None).

Definition restored_terminal (lookups : WorkspaceShellRestoreLookups)
    (instance : WorkspaceSnapshotInstance) : option TerminalTab :=
  match snap_ordinal instance, rawInstanceId instance with
  | Some o, Some tabId =>
      let connectionId := targetId instance in
      Some (mkTerminalTab None None tabId connectionId o None None "restored" None
        (title_or (lk_connectionName lookups connectionId) connectionId) TabTerminal [])
  | _, _ => None
  end.

Definition restored_local (lookups : WorkspaceShellRestoreLookups)
    (instance : WorkspaceSnapshotInstance) : option LocalTerminalTab :=
  match instance, rawInstanceId instance with
  | SnapLocal _ o source _, Some tabId =>
      let profileId := targetId instance in
      let profile := if decide (source = SrcLocal) then lk_localProfile lookups profileId else None in
      Some (mkLocalTab tabId (Some source) profileId
        (title_or (fst <$> profile) (source_name source)) o
        (title_or ((snd <$> profile) ||? lk_connectionName lookups profileId) profileId)
        None None "restored" None [])
  | _, _ => None
  end.

Definition restored_desktop (lookups : WorkspaceShellRestoreLookups)
    (instance : WorkspaceSnapshotInstance) : option DesktopTab :=
  match rawInstanceId instance with
  | Some sessionId =>
      let connectionId := targetId instance in
      Some (mkDesktopTab connectionId None sessionId (Some "workspace-restored")
        (title_or (lk_connectionName lookups connectionId) connectionId))
  | None => None
  end.

(** The instances of a kind, each turned into a tab; [None] when one throws. *)
Definition hydrate_kind {T} (k : InstanceKind) (f : WorkspaceSnapshotInstance → option T)
    (instances : list WorkspaceSnapshotInstance) : option (list T) :=
  mapM f (filter (λ i, snap_kind i = k) instances).

Definition instance_map (instances : list WorkspaceSnapshotInstance) :
    jsmap WorkspaceSnapshotInstance :=
  jsmap_of_entries ((λ i, (snap_id i, i)) <$> instances).

Definition restore_binding (i : WorkspaceSnapshotInstance) : option (option TerminalPaneBinding) :=
  match snap_kind i with
  | KSsh => (λ t, Some (mkBinding PaneSsh t)) <$> rawInstanceId i
  | KLocal => (λ t, Some (mkBinding PaneLocal t)) <$> rawInstanceId i
  | _ => Some None
  end.

Fixpoint restorePane (node : WorkspaceSnapshotPaneNode) (byId : jsmap WorkspaceSnapshotInstance) :
    option TerminalSplitNode :=
  match node with
  | SnapLeaf id instanceId =>
      let instance :=
        match instanceId with
        | Some i => if truthy (Some i) then jsmap_get i byId else None
        | None => None
        end in
      match instance with
      | Some i => (λ b, Leaf b id) <$> restore_binding i
      | None => Some (Leaf None id)
      end
  | SnapSplit direction first id ratio second =>
      match restorePane first byId, restorePane second byId with
      | Some f, Some s => Some (Branch direction f id ratio s)
      | _, _ => None
      end
  end.

Fixpoint firstBinding (node : TerminalSplitNode) : option TerminalPaneBinding :=
  match node with
  | Leaf b _ => b
  | Branch _ first _ _ second => firstBinding first ?: firstBinding second
  end.

Fixpoint firstBoundPaneId (node : TerminalSplitNode) : option string :=
  match node with
  | Leaf b id => match b with Some _ => Some id | None => None end
  | Branch _ first _ _ second => firstBoundPaneId first ||? firstBoundPaneId second
  end.

Definition restoreActive (activeItemId : option string) (byId : jsmap WorkspaceSnapshotInstance)
    (splitHost : option TerminalPaneBinding) : option WorkspaceShellRestoreTarget :=
  match activeItemId with
  | None => Some RestoreHome
  | Some a =>
      if String.eqb a HOME_ITEM_ID || negb (truthy (Some a)) then Some RestoreHome
      else
        match (if String.eqb a SPLIT_ITEM_ID then splitHost else None) with
        | Some h => Some (RestoreSplit h)
        | None =>
            match jsmap_get a byId with
            | None => Some RestoreHome
            | Some instance =>
                match rawInstanceId instance with
                | None => None
                | Some id =>
                    let ownerId := targetId instance in
                    Some (match snap_kind instance with
                    | KSsh => RestoreSsh ownerId id
                    | KLocal => RestoreLocal id
                    | KRdp => RestoreRdp ownerId id
                    | KVnc => RestoreVnc ownerId id
                    end)
                end
            end
        end
  end.

Definition buildWorkspaceShellHydration (snapshot : WorkspaceSnapshotV1)
    (lookups : WorkspaceShellRestoreLookups) : option WorkspaceShellHydration :=
  let instances := sn_instances snapshot in
  let byId := instance_map instances in
  match hydrate_kind KSsh (restored_terminal lookups) instances,
        hydrate_kind KLocal (restored_local lookups) instances,
        hydrate_kind KRdp (restored_desktop lookups) instances,
        hydrate_kind KVnc (restored_desktop lookups) instances,
        match sn_panes snapshot with
        | Some p => Some <$> restorePane p byId
        | None => Some None
        end with
  | Some ssh, Some locals, Some rdp, Some vnc, Some splitLayout =>
      let splitHost := splitLayout ≫= firstBinding in
      match restoreActive (sn_activeItemId snapshot) byId splitHost with
      | Some active =>
          Some (mkHydration active (splitLayout ≫= firstBoundPaneId) locals rdp splitHost splitLayout
            ssh vnc)
      | None => None
      end
  | _, _, _, _, _ => None
  end.

(** ** Applying the plan *)

Section translated.
Context (tr : string → string).

(** The new error and status of a terminal. *)
Definition terminalRestoreState (item : option WorkspaceRestoreItem) : option string * string :=
  match item with
  | None => (Some (tr "workspace.restore.missing"), tr "workspace.connection.failed")
  | Some item =>
      match ri_status item with
      | MissingProfile =>
          (Some (tr "workspace.restore.profileMissing"), tr "workspace.connection.failed")
      | TemporaryAuthRequired =>
          (Some (tr "workspace.restore.temporaryCredentials"), tr "workspace.connection.failed")
      | Ready =>
          if ri_autoReconnect item then (None, tr "workspace.restore.restoring")
          else (Some (tr "workspace.restore.manualRetry"), tr "workspace.connection.failed")
      end
  end.

(** The new error and message of a remote desktop; its status stays an error. *)
Definition desktopRestoreState (item : option WorkspaceRestoreItem) : option string * option string :=
  let error := (terminalRestoreState item).1 in
  (error ||? None, if truthy error then None else Some (tr "workspace.restore.desktopStopped")).

Definition item_map (plan : WorkspaceRestorePlan) : jsmap WorkspaceRestoreItem :=
  jsmap_of_entries ((λ item, (snap_id (ri_instance item), item)) <$> rp_items plan).

Definition with_terminal_state (st : option string * string) (tab : TerminalTab) : TerminalTab :=
  mkTerminalTab (tt_connectionStep tab) st.1 (tt_id tab) (tt_connectionId tab) (tt_ordinal tab)
    (tt_requestId tab) (tt_sessionId tab) st.2 (tt_temporaryContextRef tab) (tt_title tab)
    (tt_type tab) (tt_warmupOutput tab).
Definition with_local_state (st : option string * string) (tab : LocalTerminalTab) : LocalTerminalTab :=
  mkLocalTab (lt_id tab) (lt_source tab) (lt_profileId tab) (lt_profileKind tab) (lt_ordinal tab)
    (lt_title tab) (lt_requestId tab) (lt_sessionId tab) st.2 st.1 (lt_warmupOutput tab).
Definition with_desktop_state (st : option string * option string) (tab : DesktopTab) : DesktopTab :=
  mkDesktopTab (dt_connectionId tab) st.1 (dt_id tab) st.2 (dt_title tab).

Definition applyWorkspaceRestorePlanToHydration (hydration : WorkspaceShellHydration)
    (plan : WorkspaceRestorePlan) : WorkspaceShellHydration :=
  let byId := item_map plan in
  mkHydration (hy_active hydration) (hy_focusedPaneId hydration)
    ((λ tab, with_local_state
        (terminalRestoreState (jsmap_get (instanceItemId KLocal (lt_id tab)) byId)) tab)
      <$> hy_localTerminalTabs hydration)
    ((λ s, with_desktop_state
        (desktopRestoreState (jsmap_get (instanceItemId KRdp (dt_id s)) byId)) s)
      <$> hy_rdpSessions hydration)
    (hy_splitHost hydration) (hy_splitLayout hydration)
    ((λ tab, with_terminal_state
        (terminalRestoreState (jsmap_get (instanceItemId KSsh (tt_id tab)) byId)) tab)
      <$> hy_terminalTabs hydration)
    ((λ s, with_desktop_state
        (desktopRestoreState (jsmap_get (instanceItemId KVnc (dt_id s)) byId)) s)
      <$> hy_vncSessions hydration).
End translated.

(** ** Remote file navigation bridge ([remoteFileSnapshotBridge.ts]) *)

Record FileNavigation := mkNavigation {
  nav_path : string;
  nav_follow : bool;
}.

#[export] Instance FileNavigation_eq_dec : EqDecision FileNavigation.
Proof. solve_decision. Defined.

Record NavigationStore := mkNavStore {
  ns_map : jsmap FileNavigation;
  ns_revision : nat;
}.

Definition workspaceRemoteFileStateKey (tabId : string) : string := "ssh-file-panel:" +:+ tabId.

Definition getWorkspaceRemoteFileNavigation (stateKey : string) (st : NavigationStore) :
    option FileNavigation := jsmap_get stateKey (ns_map st).

Definition publishWorkspaceRemoteFileNavigation (stateKey path : string) (follow : bool)
    (st : NavigationStore) : NavigationStore :=
  if negb (truthy (Some stateKey)) || negb (truthy (Some path)) then st
  else if decide (jsmap_get stateKey (ns_map st) = Some (mkNavigation path follow)) then st
  else mkNavStore (jsmap_set stateKey (mkNavigation path follow) (ns_map st)) (S (ns_revision st)).

Definition seed_entry (follow : jsmap bool) (acc : jsmap FileNavigation * bool)
    (e : string * string) : jsmap FileNavigation * bool :=
  let '(m, changed) := acc in
  if negb (starts_with "ssh:" e.1) || negb (truthy (Some e.2)) then acc
  else
    let stateKey := workspaceRemoteFileStateKey (drop_chars 4 e.1) in
    let nav := mkNavigation e.2 (default false (jsmap_get e.1 follow)) in
    if decide (jsmap_get stateKey m = Some nav) then acc else (jsmap_set stateKey nav m, true).

Definition seedWorkspaceRemoteFileDirectories (directories : jsmap string) (follow : jsmap bool)
    (st : NavigationStore) : NavigationStore :=
  let '(m, changed) := foldl (seed_entry follow) (ns_map st, false) directories in
  mkNavStore m (if changed then S (ns_revision st) else ns_revision st).

Definition workspaceRemoteFileDirectories (tabIds : list string) (st : NavigationStore) : jsmap string :=
  foldl (λ directories tabId,
    match jsmap_get (workspaceRemoteFileStateKey tabId) (ns_map st) with
    | Some nav =>
        if truthy (Some (nav_path nav))
        then jsmap_set (instanceItemId KSsh tabId) (nav_path nav) directories else directories
    | None => directories
    end) [] tabIds.

Definition workspaceRemoteFileFollowStates (tabIds : list string) (st : NavigationStore) : jsmap bool :=
  foldl (λ states tabId,
    match jsmap_get (workspaceRemoteFileStateKey tabId) (ns_map st) with
    | Some nav => jsmap_set (instanceItemId KSsh tabId) (nav_follow nav) states
    | None => states
    end) [] tabIds.

(** ** The shell ([restoreWorkspaceShell]) *)

Record RestoredShell := mkRestored {
  rw_split : SplitShell;
  rw_terminals : list TerminalTab;
  rw_locals : list LocalTerminalTab;
  rw_rdp : list DesktopTab;
  rw_vnc : list DesktopTab;
  rw_targetRefs : SnapshotTargetRefs;
  rw_collapsed : bool;
  rw_view : SidebarView;
  rw_navigation : NavigationStore;
  rw_followsActive : bool;
  rw_reconnect : list string;
}.

(** The pointer actions of the active target. *)
Definition restore_active_actions (active : WorkspaceShellRestoreTarget) (terminals : list TerminalTab) :
    list SessionTabsAction :=
  match active with
  | RestoreSsh c t => [ActivateTerminal c t false]
  | RestoreLocal t => [ActivateLocal t]
  | RestoreRdp c i => [ActivateRdp c i]
  | RestoreVnc c i => [ActivateVnc c i]
  | RestoreSplit host =>
      let tab :=
        match binding_kind host with
        | PaneSsh => js_find (λ t, tt_id t = binding_tabId host) terminals
        | PaneLocal => None
        end in
      [ActivateSplitHost (match tab with Some t => HostSsh (tt_connectionId t) | None => HostLocal end);
       FocusPaneBinding host]
  | RestoreHome => [GoHome]
  end.

Definition restoreWorkspaceShell (tr : string → string) (lookups : WorkspaceShellRestoreLookups)
    (availability : WorkspaceRestoreAvailability) (snapshot : WorkspaceSnapshotV1)
    (sh : RestoredShell) : option RestoredShell :=
  let plan := buildWorkspaceRestorePlan snapshot availability in
  match buildWorkspaceShellHydration snapshot lookups with
  | None => None
  | Some built =>
      let hydration := applyWorkspaceRestorePlanToHydration tr built plan in
      let s := foldl (λ s itemId, dispatchTabs (ItemOpened itemId) s) (rw_split sh) (sn_order snapshot) in
      let s := dispatchSplit (SplitSetLayout (hy_splitLayout hydration)) s in
      let s := dispatchSplit (SplitSetHost (hy_splitHost hydration)) s in
      let s := dispatchSplit (SplitFocusPane (hy_focusedPaneId hydration)) s in
      let s := dispatchSplit (SplitSetTabActive
        (bool_decide (sn_activeItemId snapshot = Some SPLIT_ITEM_ID) &&
         bool_decide (is_Some (hy_splitLayout hydration)))) s in
      let s := dispatchMulti (MxSetMode MxOff) s in
      let s := dispatchMulti (MxSetTargets ∅) s in
      let s := dispatchMulti (MxSetError None) s in
      let s := foldl (λ s a, dispatchTabs a s) s
        (restore_active_actions (hy_active hydration) (hy_terminalTabs hydration)) in
      Some (mkRestored s (hy_terminalTabs hydration) (hy_localTerminalTabs hydration)
        (hy_rdpSessions hydration) (hy_vncSessions hydration) (snapshotTargetRefs snapshot)
        (sn_collapsed snapshot) (sn_view snapshot)
        (seedWorkspaceRemoteFileDirectories (sn_directories snapshot)
          (default [] (sn_followTerminalDirectories snapshot)) (rw_navigation sh))
        (sn_followActivePane snapshot)
        (snap_id ∘ ri_instance <$> filter (λ item, ri_autoReconnect item = true) (rp_items plan)))
  end.

(** ** What the shell saves (the render of [WorkspaceShell]) *)

#[export] Instance DesktopTab_id : HasId DesktopTab := dt_id.
#[export] Instance DesktopTab_connection : HasConnection DesktopTab := dt_connectionId.

Definition ssh_of_tab (t : TerminalTab) : SshInstance := mkSshInstance (tt_connectionId t) (tt_id t) (tt_ordinal t).
Definition local_of_tab (t : LocalTerminalTab) : LocalInstance :=
  mkLocalInstance (lt_id t) (lt_ordinal t) (lt_profileId t) (lt_source t).
Definition desktop_ref (d : DesktopTab) : SessionRef := mkRef (dt_connectionId d) (dt_id d).

Definition shell_collections (sh : RestoredShell) : InstanceCollections :=
  mkCollections (local_of_tab <$> rw_locals sh) (desktop_ref <$> rw_rdp sh)
    (ssh_of_tab <$> rw_terminals sh) (desktop_ref <$> rw_vnc sh).

(** [terminalSplitExists], [terminalSplitActive] and the group of the items. *)
Definition shell_splitExists (sh : RestoredShell) : bool :=
  selectSplitExists (shell_layout (rw_split sh)) (shell_panes (rw_split sh)).
Definition shell_splitActive (sh : RestoredShell) : bool :=
  shell_splitExists sh && tabActive (ss_split (rw_split sh)).

Definition shell_group (sh : RestoredShell) : option SplitGroupInput :=
  match shell_splitExists sh, host (ss_split (rw_split sh)) with
  | true, Some h => Some (mkSplitGroup (omap pane_binding (shell_panes (rw_split sh))) h)
  | _, _ => None
  end.

Definition shell_items (sh : RestoredShell) : list WorkspaceItem :=
  selectWorkspaceItems (shell_collections sh) (order (ss_pointers (rw_split sh))) (shell_group sh).

(** [activeRdpSession?.id], [activeVncSession?.id]. *)
Definition active_desktop (sessions : list DesktopTab) (activeSessionId activeConnectionId : option string) :
    option string :=
  dt_id <$> selectActiveSession sessions (groupByConnection sessions) activeSessionId activeConnectionId.

(** [files] is the number of open remote file tabs, which no snapshot holds. *)
Definition hasSessionWorkspace (files : nat) (sh : RestoredShell) : bool :=
  (0 <? length (rw_terminals sh)) || (0 <? files) || (0 <? length (rw_locals sh)) ||
  (0 <? length (rw_rdp sh)) || (0 <? length (rw_vnc sh)).

Definition showingHome (files : nat) (sh : RestoredShell) : bool :=
  let p := ss_pointers (rw_split sh) in
  bool_decide (mode p = ModeHome) || (negb (hasSessionWorkspace files sh) && homeActive p).

Definition shell_active (files : nat) (sh : RestoredShell) : ActiveInstanceRefs :=
  let p := ss_pointers (rw_split sh) in
  mkActive (activeLocalTerminalTabId p) (mode p)
    (active_desktop (rw_rdp sh) (activeRdpSessionId p) (activeConnectionId p))
    (showingHome files sh) (shell_splitActive sh) (activeTabId p)
    (active_desktop (rw_vnc sh) (activeVncSessionId p) (activeConnectionId p)).

Definition activeWorkspaceItemId (files : nat) (sh : RestoredShell) : option string :=
  selectActiveItemId (shell_active files sh) (shell_items sh).

Definition shell_pointers (files : nat) (sh : RestoredShell) : WorkspaceSnapshotPointers :=
  let tabIds := tt_id <$> rw_terminals sh in
  mkSnapshotPointers (activeWorkspaceItemId files sh)
    ((λ e, (e.1, Some e.2)) <$> workspaceRemoteFileDirectories tabIds (rw_navigation sh))
    (rw_followsActive sh)
    (Some (workspaceRemoteFileFollowStates tabIds (rw_navigation sh)))
    (order (ss_pointers (rw_split sh))) (rw_collapsed sh) (rw_view sh) (shell_layout (rw_split sh)).

(** The remembered targets with the connections that are temporary now. *)
Definition saved_targets (temporary : list string) (refs : SnapshotTargetRefs) : SnapshotTargetRefs :=
  mkTargetRefs (foldl (λ m id, jsmap_set id (TargetTemporary id) m) (tr_connections refs) temporary)
    (tr_localProfiles refs).

Definition saved_collections (terminals : list TerminalTab) (locals : list LocalTerminalTab)
    (rdp vnc : list DesktopTab) (refs : SnapshotTargetRefs) : WorkspaceSnapshotCollections :=
  mkSnapshotCollections (local_of_tab <$> locals) (desktop_ref <$> rdp) (Some refs)
    (ssh_of_tab <$> terminals) (desktop_ref <$> vnc).

Definition shell_saved (temporary : list string) (sh : RestoredShell) : WorkspaceSnapshotCollections :=
  saved_collections (rw_terminals sh) (rw_locals sh) (rw_rdp sh) (rw_vnc sh)
    (saved_targets temporary (rw_targetRefs sh)).

Definition workspaceSnapshot (temporary : list string) (files : nat) (sh : RestoredShell) :
    WorkspaceSnapshotV1 :=
  toSnapshot (shell_pointers files sh) (shell_saved temporary sh).

(** ** Lemmas *)

Lemma rawInstanceId_of k raw i :
  raw ≠ "" → snap_kind i = k → snap_id i = instanceItemId k raw → rawInstanceId i = Some raw.
Proof.
  intros Hne <- Hid. unfold rawInstanceId. rewrite Hid. unfold instanceItemId. cbv zeta.
  replace (instance_kind_name (snap_kind i) +:+ ":" +:+ raw)
    with ((instance_kind_name (snap_kind i) +:+ ":") +:+ raw) by (by destruct (snap_kind i)).
  rewrite starts_with_app, string_length_app, drop_chars_app. cbn [negb orb].
  destruct (Nat.eqb_spec (String.length (instance_kind_name (snap_kind i) +:+ ":") + String.length raw)
    (String.length (instance_kind_name (snap_kind i) +:+ ":"))) as [H|H]; [|done].
  destruct raw; [done|]. simpl in H. lia.
Qed.

Lemma rawInstanceId_valid i :
  instance_valid i → ∃ raw, rawInstanceId i = Some raw ∧ snap_id i = instanceItemId (snap_kind i) raw.
Proof.
  intros ((raw & Hne & Hid) & _). exists raw. split; [by eapply rawInstanceId_of|done].
Qed.

(** Each hydrated tab comes from its instance, in order. *)
Lemma hydrate_kind_Some {T} k (f : WorkspaceSnapshotInstance → option T) l :
  (∀ i, i ∈ l → snap_kind i = k → is_Some (f i)) →
  ∃ ts, hydrate_kind k f l = Some ts ∧
    Forall2 (λ i t, f i = Some t) (filter (λ i, snap_kind i = k) l) ts.
Proof.
  intros Hf. unfold hydrate_kind.
  assert (is_Some (mapM f (filter (λ i, snap_kind i = k) l))) as [ts Hts].
  { apply mapM_is_Some. apply Forall_forall. intros i [Hk Hi]%list_elem_of_filter. auto. }
  exists ts. split; [done|]. by apply mapM_Some.
Qed.

Lemma Forall2_fmap_inv {A B} (P : A → B → Prop) (g : B → A) l ts :
  Forall2 P l ts → (∀ x t, x ∈ l → P x t → g t = x) → g <$> ts = l.
Proof.
  induction 1 as [|x t l ts Hx Hl IH]; intros Hg; [done|].
  rewrite fmap_cons. f_equal; [apply Hg; [left|done]|]. apply IH. intros. apply Hg; [by right|done].
Qed.

(** Targets with the same owner agree, so that the owner identifies the target. *)
Definition targets_consistent (l : list WorkspaceSnapshotInstance) : Prop :=
  ∀ i j, i ∈ l → j ∈ l → (snap_kind i = KLocal ↔ snap_kind j = KLocal) →
    target_owner (snap_target i) = target_owner (snap_target j) → snap_target i = snap_target j.

Definition owner_table (refs : SnapshotTargetRefs) (i : WorkspaceSnapshotInstance) :=
  if decide (snap_kind i = KLocal) then tr_localProfiles refs else tr_connections refs.

Lemma snapshotTargetRefs_get s i :
  targets_consistent (sn_instances s) → i ∈ sn_instances s →
  jsmap_get (target_owner (snap_target i)) (owner_table (snapshotTargetRefs s) i) = Some (snap_target i).
Proof.
  unfold snapshotTargetRefs. set (step := λ _ _, _). intros Hc Hi.
  assert (∀ l refs, (∀ j, j ∈ l → j ∈ sn_instances s) →
    (i ∈ l ∨ jsmap_get (target_owner (snap_target i)) (owner_table refs i) = Some (snap_target i)) →
    jsmap_get (target_owner (snap_target i)) (owner_table (foldl step refs l) i) = Some (snap_target i)) as Hgen.
  { induction l as [|j l IH]; intros refs Hl H; cbn.
    { destruct H as [?%not_elem_of_nil|?]; done. }
    apply IH; [intros; apply Hl; by right|]. destruct H as [[->|?]%elem_of_cons|H]; [right|by left|right].
    - unfold owner_table, step. by case_decide as Hk; destruct (snap_kind j); try done; cbn;
        rewrite jsmap_get_set, decide_True.
    - specialize (Hc i j Hi (Hl j (list_elem_of_here j l))).
      unfold owner_table, step in *. case_decide as Hk; destruct (snap_kind j) eqn:Hj; try done; cbn;
        rewrite jsmap_get_set; case_decide as Ho; try done; f_equal; symmetry; apply Hc; done. }
  apply Hgen; auto.
Qed.

Lemma target_for_connection s i :
  targets_consistent (sn_instances s) → i ∈ sn_instances s → snap_kind i ≠ KLocal →
  target_for (Some (tr_connections (snapshotTargetRefs s))) (targetId i) = snap_target i.
Proof.
  intros Hc Hi Hk. pose proof (snapshotTargetRefs_get s i Hc Hi) as Hg.
  unfold owner_table in Hg. rewrite decide_False in Hg by done.
  unfold target_for, targetId. simpl. by rewrite Hg.
Qed.

Lemma target_for_local s i :
  targets_consistent (sn_instances s) → i ∈ sn_instances s → snap_kind i = KLocal →
  target_for (Some (tr_localProfiles (snapshotTargetRefs s))) (targetId i) = snap_target i.
Proof.
  intros Hc Hi Hk. pose proof (snapshotTargetRefs_get s i Hc Hi) as Hg.
  unfold owner_table in Hg. rewrite decide_True in Hg by done.
  unfold target_for, targetId. simpl. by rewrite Hg.
Qed.

(** *** The panes *)

Definition terminal_instance (l : list WorkspaceSnapshotInstance) (id : string) : Prop :=
  ∃ i, i ∈ l ∧ snap_id i = id ∧ (snap_kind i = KSsh ∨ snap_kind i = KLocal).

Fixpoint panes_terminal (l : list WorkspaceSnapshotInstance) (p : WorkspaceSnapshotPaneNode) : Prop :=
  match p with
  | SnapLeaf _ (Some i) => terminal_instance l i
  | SnapLeaf _ None => True
  | SnapSplit _ first _ _ second => panes_terminal l first ∧ panes_terminal l second
  end.

Lemma instance_map_get l i :
  NoDup (snap_id <$> l) → i ∈ l → jsmap_get (snap_id i) (instance_map l) = Some i.
Proof.
  intros Hnd Hi. unfold instance_map.
  assert (((λ i, (snap_id i, i)) <$> l).*1 = snap_id <$> l) as Hk by by rewrite <- list_fmap_compose.
  rewrite jsmap_of_entries_id by by rewrite Hk. apply jsmap_elem_get; [by rewrite Hk|].
  by apply (list_elem_of_fmap_2 (λ i, (snap_id i, i))).
Qed.

Lemma instance_map_inv l id i :
  NoDup (snap_id <$> l) → jsmap_get id (instance_map l) = Some i → i ∈ l ∧ snap_id i = id.
Proof.
  intros Hnd Hg. unfold instance_map in Hg.
  assert (((λ i, (snap_id i, i)) <$> l).*1 = snap_id <$> l) as Hk by by rewrite <- list_fmap_compose.
  rewrite jsmap_of_entries_id in Hg by by rewrite Hk. apply jsmap_get_elem in Hg.
  by apply list_elem_of_fmap in Hg as (j & [= -> ->] & Hj).
Qed.

Lemma restore_binding_valid i :
  instance_valid i → ∃ b, restore_binding i = Some b ∧
    match b with
    | Some b' => instanceItemId (kind_of_pane (binding_kind b')) (binding_tabId b') = snap_id i
    | None => snap_kind i ≠ KSsh ∧ snap_kind i ≠ KLocal
    end.
Proof.
  intros (raw & Hr & Hid)%rawInstanceId_valid. unfold restore_binding. rewrite Hr.
  destruct (snap_kind i); cbn; (eexists; split; [reflexivity|]); done.
Qed.

Lemma restorePane_ok l depth p :
  Forall instance_valid l → NoDup (snap_id <$> l) → pane_valid (snap_id <$> l) depth p →
  ∃ n, restorePane p (instance_map l) = Some n ∧
    (panes_terminal l p → snapshotPaneNode n (snap_id <$> l) = p).
Proof.
  intros Hv Hnd. revert depth.
  induction p as [id i|d f IHf id r s IHs]; intros depth; cbn [pane_valid restorePane].
  - intros (_ & _ & Hi). destruct i as [i|]; [|by eexists].
    specialize (Hi i eq_refl). apply list_elem_of_fmap in Hi as (j & -> & Hj).
    rewrite Forall_forall in Hv. specialize (Hv j Hj).
    assert (truthy (Some (snap_id j)) = true) as ->.
    { apply truthy_Some. by destruct Hv as (_ & [? _] & _). }
    rewrite (instance_map_get l j Hnd Hj).
    destruct (restore_binding_valid j Hv) as (b & -> & Hb). eexists. split; [reflexivity|].
    cbn. intros (j' & Hj' & Heq & Hk).
    assert (j' = j) as -> by (by apply (NoDup_fmap_inj_elem snap_id l)).
    destruct b as [b|]; [|tauto]. rewrite Hb.
    by rewrite decide_True by (by apply list_elem_of_fmap_2).
  - intros (_ & _ & Hr & Hf & Hs). destruct (IHf _ Hf) as (nf & -> & Hnf), (IHs _ Hs) as (ns & -> & Hns).
    eexists. split; [reflexivity|]. cbn. intros [??]. by rewrite Hnf, Hns, Hr.
Qed.

(** *** The tabs *)

(** The instances grouped by kind, as every saved snapshot has them. *)
Definition of_kind (k : InstanceKind) (l : list WorkspaceSnapshotInstance) :=
  filter (λ i, snap_kind i = k) l.
Definition grouped (l : list WorkspaceSnapshotInstance) : Prop :=
  l = of_kind KSsh l ++ of_kind KLocal l ++ of_kind KRdp l ++ of_kind KVnc l.

Lemma hydration_tabs s lookups :
  snapshot_valid s →
  ∃ ssh locals rdp vnc,
    hydrate_kind KSsh (restored_terminal lookups) (sn_instances s) = Some ssh ∧
    hydrate_kind KLocal (restored_local lookups) (sn_instances s) = Some locals ∧
    hydrate_kind KRdp (restored_desktop lookups) (sn_instances s) = Some rdp ∧
    hydrate_kind KVnc (restored_desktop lookups) (sn_instances s) = Some vnc ∧
    Forall2 (λ i t, restored_terminal lookups i = Some t) (of_kind KSsh (sn_instances s)) ssh ∧
    Forall2 (λ i t, restored_local lookups i = Some t) (of_kind KLocal (sn_instances s)) locals ∧
    Forall2 (λ i t, restored_desktop lookups i = Some t) (of_kind KRdp (sn_instances s)) rdp ∧
    Forall2 (λ i t, restored_desktop lookups i = Some t) (of_kind KVnc (sn_instances s)) vnc.
Proof.
  intros Hv. pose proof (sv_instances s Hv) as Hi. rewrite Forall_forall in Hi.
  assert (∀ i, i ∈ sn_instances s → is_Some (rawInstanceId i)) as Hraw.
  { intros i Hin. destruct (rawInstanceId_valid i (Hi i Hin)) as (raw & -> & _). done. }
  destruct (hydrate_kind_Some KSsh (restored_terminal lookups) (sn_instances s)) as (ssh & ? & ?).
  { intros i [raw Hr]%Hraw Hk. unfold restored_terminal. rewrite Hr. by destruct i. }
  destruct (hydrate_kind_Some KLocal (restored_local lookups) (sn_instances s)) as (locals & ? & ?).
  { intros i [raw Hr]%Hraw Hk. unfold restored_local. destruct i; try done. by rewrite Hr. }
  destruct (hydrate_kind_Some KRdp (restored_desktop lookups) (sn_instances s)) as (rdp & ? & ?).
  { intros i [raw Hr]%Hraw Hk. unfold restored_desktop. by rewrite Hr. }
  destruct (hydrate_kind_Some KVnc (restored_desktop lookups) (sn_instances s)) as (vnc & ? & ?).
  { intros i [raw Hr]%Hraw Hk. unfold restored_desktop. by rewrite Hr. }
  exists ssh, locals, rdp, vnc. done.
Qed.

(** Reading the tabs back as instances. *)
Lemma restored_collections_instances s lookups ssh locals rdp vnc :
  snapshot_valid s → targets_consistent (sn_instances s) →
  Forall2 (λ i t, restored_terminal lookups i = Some t) (of_kind KSsh (sn_instances s)) ssh →
  Forall2 (λ i t, restored_local lookups i = Some t) (of_kind KLocal (sn_instances s)) locals →
  Forall2 (λ i t, restored_desktop lookups i = Some t) (of_kind KRdp (sn_instances s)) rdp →
  Forall2 (λ i t, restored_desktop lookups i = Some t) (of_kind KVnc (sn_instances s)) vnc →
  collectSnapshotInstances (saved_collections ssh locals rdp vnc (snapshotTargetRefs s)) =
    of_kind KSsh (sn_instances s) ++ of_kind KLocal (sn_instances s) ++
    of_kind KRdp (sn_instances s) ++ of_kind KVnc (sn_instances s).
Proof.
  intros Hv Hc H1 H2 H3 H4. pose proof (sv_instances s Hv) as Hi. rewrite Forall_forall in Hi.
  unfold collectSnapshotInstances. cbn -[snapshotTargetRefs target_for].
  rewrite <- !list_fmap_compose.
  assert (∀ k i, i ∈ of_kind k (sn_instances s) → i ∈ sn_instances s ∧ snap_kind i = k ∧
    ∃ raw, rawInstanceId i = Some raw ∧ snap_id i = instanceItemId k raw) as Hof.
  { intros k i [<- Hin]%list_elem_of_filter. split_and!; try done. by apply rawInstanceId_valid, Hi. }
  assert (∀ i, i ∈ sn_instances s → snap_kind i ≠ KLocal →
    target_for (Some (tr_connections (snapshotTargetRefs s))) (targetId i) = snap_target i) as Hg
    by (intros; by apply target_for_connection).
  f_equal; [|f_equal; [|f_equal]].
  - eapply Forall2_fmap_inv; [exact H1|]. intros i t (Hin & Hk & raw & Hr & Hid)%Hof.
    specialize (Hg i Hin). cbn beta. unfold restored_terminal. rewrite Hr.
    destruct i; try done. intros [= <-]. unfold compose. cbn -[target_for snapshotTargetRefs targetId] in Hg, Hid |- *. by rewrite Hg, Hid.
  - eapply Forall2_fmap_inv; [exact H2|]. intros i t (Hin & Hk & raw & Hr & Hid)%Hof.
    pose proof (target_for_local s i Hc Hin Hk) as Hg'. cbn beta. unfold restored_local.
    destruct i; try done. rewrite Hr. intros [= <-].
    unfold compose. cbn -[target_for snapshotTargetRefs targetId] in Hg', Hid |- *. by rewrite Hg', Hid.
  - eapply Forall2_fmap_inv; [exact H3|]. intros i t (Hin & Hk & raw & Hr & Hid)%Hof.
    specialize (Hg i Hin). cbn beta. unfold restored_desktop. rewrite Hr.
    destruct i; try done. intros [= <-]. unfold compose. cbn -[target_for snapshotTargetRefs targetId] in Hg, Hid |- *. by rewrite Hg, Hid.
  - eapply Forall2_fmap_inv; [exact H4|]. intros i t (Hin & Hk & raw & Hr & Hid)%Hof.
    specialize (Hg i Hin). cbn beta. unfold restored_desktop. rewrite Hr.
    destruct i; try done. intros [= <-]. unfold compose. cbn -[target_for snapshotTargetRefs targetId] in Hg, Hid |- *. by rewrite Hg, Hid.
Qed.

Lemma restoreActive_total s host :
  snapshot_valid s → is_Some (restoreActive (sn_activeItemId s) (instance_map (sn_instances s)) host).
Proof.
  intros Hv. unfold restoreActive. destruct (sn_activeItemId s) as [a|]; [|by eexists].
  destruct (_ || _); [by eexists|]. destruct (if String.eqb a _ then host else None); [by eexists|].
  destruct (jsmap_get a _) as [i|] eqn:Hg; [|by eexists].
  apply instance_map_inv in Hg as [Hi _]; [|by apply sv_ids].
  pose proof (sv_instances s Hv) as Hall. rewrite Forall_forall in Hall.
  destruct (rawInstanceId_valid i (Hall i Hi)) as (raw & -> & _). by eexists.
Qed.

Lemma hydration_total s lookups :
  snapshot_valid s → ∃ h, buildWorkspaceShellHydration s lookups = Some h ∧
    Forall2 (λ i t, restored_terminal lookups i = Some t) (of_kind KSsh (sn_instances s)) (hy_terminalTabs h) ∧
    Forall2 (λ i t, restored_local lookups i = Some t) (of_kind KLocal (sn_instances s)) (hy_localTerminalTabs h) ∧
    Forall2 (λ i t, restored_desktop lookups i = Some t) (of_kind KRdp (sn_instances s)) (hy_rdpSessions h) ∧
    Forall2 (λ i t, restored_desktop lookups i = Some t) (of_kind KVnc (sn_instances s)) (hy_vncSessions h) ∧
    match sn_panes s with
    | Some p => restorePane p (instance_map (sn_instances s)) = hy_splitLayout h ∧ is_Some (hy_splitLayout h)
    | None => hy_splitLayout h = None
    end ∧
    hy_splitHost h = hy_splitLayout h ≫= firstBinding ∧
    restoreActive (sn_activeItemId s) (instance_map (sn_instances s)) (hy_splitHost h) = Some (hy_active h).
Proof.
  intros Hv. destruct (hydration_tabs s lookups Hv) as (ssh & locals & rdp & vnc & E1 & E2 & E3 & E4 & H1 & H2 & H3 & H4).
  unfold buildWorkspaceShellHydration. cbv zeta. rewrite E1, E2, E3, E4.
  destruct (sn_panes s) as [p|] eqn:Ep.
  - destruct (restorePane_ok (sn_instances s) 0 p (sv_instances s Hv) (sv_ids s Hv) (sv_panes s Hv p Ep))
      as (n & Hn & _). rewrite Hn. cbn [fmap option_fmap option_map].
    destruct (restoreActive_total s (Some n ≫= firstBinding) Hv) as [active Ha]. rewrite Ha.
    eexists. split; [reflexivity|]. by cbn -[firstBinding].
  - destruct (restoreActive_total s (None ≫= firstBinding) Hv) as [active Ha]. rewrite Ha.
    eexists. split; [reflexivity|]. by cbn -[firstBinding].
Qed.

(** *** Saved snapshots *)

Lemma filter_none {A} (P : A → Prop) `{∀ x, Decision (P x)} l : (∀ x, x ∈ l → ¬ P x) → filter P l = [].
Proof. intros Hn. apply elem_of_nil_inv. intros x [Hx Hin]%list_elem_of_filter. by apply (Hn x). Qed.

Lemma of_kind_fmap {T} (f : T → WorkspaceSnapshotInstance) k k' (l : list T) :
  (∀ x, snap_kind (f x) = k') → of_kind k (f <$> l) = if decide (k' = k) then f <$> l else [].
Proof.
  intros Hf. unfold of_kind. case_decide as Hk.
  - apply filter_all. intros i (x & -> & _)%list_elem_of_fmap. by rewrite Hf.
  - apply filter_none. intros i (x & -> & _)%list_elem_of_fmap. by rewrite Hf.
Qed.

Lemma collect_grouped c : grouped (collectSnapshotInstances c).
Proof.
  unfold grouped, collectSnapshotInstances. cbv zeta.
  set (f1 := λ tab, SnapSsh _ _ _). set (f2 := λ tab, SnapLocal _ _ _ _).
  set (f3 := λ r, SnapRdp _ _). set (f4 := λ r, SnapVnc _ _).
  assert (∀ k, of_kind k ((f1 <$> sc_terminalTabs c) ++ (f2 <$> sc_localTerminalTabs c) ++
      (f3 <$> sc_rdpSessions c) ++ (f4 <$> sc_vncSessions c)) =
    (if decide (KSsh = k) then f1 <$> sc_terminalTabs c else []) ++
    (if decide (KLocal = k) then f2 <$> sc_localTerminalTabs c else []) ++
    (if decide (KRdp = k) then f3 <$> sc_rdpSessions c else []) ++
    (if decide (KVnc = k) then f4 <$> sc_vncSessions c else [])) as Hk.
  { intros k. rewrite <- (of_kind_fmap f1 k KSsh), <- (of_kind_fmap f2 k KLocal),
      <- (of_kind_fmap f3 k KRdp), <- (of_kind_fmap f4 k KVnc) by done.
    unfold of_kind. by rewrite !filter_app. }
  rewrite !Hk. cbn. by rewrite !app_nil_r.
Qed.

Lemma instance_of_terminal c k t :
  (k = KSsh ∨ k = KLocal) → instanceItemId k t ∈ snap_id <$> collectSnapshotInstances c →
  terminal_instance (collectSnapshotInstances c) (instanceItemId k t).
Proof.
  intros Hk (i & Hid & Hi)%list_elem_of_fmap. exists i. split_and!; [done|done|].
  assert (∃ raw, snap_id i = instanceItemId (snap_kind i) raw) as [raw Hraw].
  { unfold collectSnapshotInstances in Hi. rewrite !elem_of_app, !list_elem_of_fmap in Hi.
    destruct Hi as [(x & -> & _)|[(x & -> & _)|[(x & -> & _)|(x & -> & _)]]]; by eexists. }
  rewrite Hraw in Hid. apply instanceItemId_inj in Hid as [<- _]. done.
Qed.

Lemma snapshotPaneNode_terminal c n :
  panes_terminal (collectSnapshotInstances c)
    (snapshotPaneNode n (snap_id <$> collectSnapshotInstances c)).
Proof.
  induction n as [b id|d f IHf id r s IHs]; cbn -[collectSnapshotInstances instanceItemId]; [|done].
  destruct b as [b|]; [|done]. case_decide as Hin; [|done].
  apply instance_of_terminal; [|done]. destruct (binding_kind b); [by left|by right].
Qed.

Lemma snapshotDirectories_id sshIds (m : jsmap string) :
  NoDup m.*1 → Forall (λ e, e.1 ∈ sshIds ∧ e.2 ≠ "") m →
  snapshotDirectories ((λ e, (e.1, Some e.2)) <$> m) sshIds = m.
Proof.
  intros Hnd Hall. rewrite <- (jsmap_of_entries_id m Hnd) at 2.
  unfold snapshotDirectories, jsmap_of_entries. generalize (@nil (string * string)) as acc. clear Hnd.
  induction m as [|[k v] m IH]; intros acc; [done|]. cbn.
  apply Forall_cons in Hall as [[Hk Hv] Hall]. simpl in *.
  rewrite bool_decide_eq_true_2 by done. apply truthy_Some in Hv. simpl in Hv. rewrite Hv. cbn.
  by apply IH.
Qed.

Lemma snapshotActive_id s :
  active_valid s → SPLIT_ITEM_ID ∉ snap_id <$> sn_instances s → Forall instance_valid (sn_instances s) →
  sanitizeActiveItemId (sn_activeItemId s) (snap_id <$> sn_instances s) (bool_decide (is_Some (sn_panes s))) =
    sn_activeItemId s.
Proof.
  intros Hv Hns Hall. revert Hv. unfold active_valid, sanitizeActiveItemId.
  destruct (sn_activeItemId s) as [id|]; [|done]. intros [->|[[-> Hp]|Hin]]; [done| |].
  - cbn. by rewrite bool_decide_eq_true_2.
  - case_decide; [by subst|]. case_decide; [by subst|].
    rewrite bool_decide_eq_true_2 by done. rewrite andb_true_r.
    assert (truthy (Some id) = true) as ->; [|done]. apply truthy_Some.
    apply list_elem_of_fmap in Hin as (i & -> & Hi). rewrite Forall_forall in Hall.
    by destruct (Hall i Hi) as (_ & [? _] & _).
Qed.

Definition no_lookups : WorkspaceShellRestoreLookups := mkLookups (λ _, None) (λ _, None).

(** ** The restored shell *)

Lemma foldl_dispatchTabs {A} (f : A → SessionTabsAction) l s :
  ss_pointers (foldl (λ s x, dispatchTabs (f x) s) s l) =
    foldl (λ p x, sessionPointerReducer p (f x)) (ss_pointers s) l ∧
  ss_split (foldl (λ s x, dispatchTabs (f x) s) s l) = ss_split s ∧
  ss_multi (foldl (λ s x, dispatchTabs (f x) s) s l) = ss_multi s ∧
  ss_counter (foldl (λ s x, dispatchTabs (f x) s) s l) = ss_counter s.
Proof. revert s. induction l as [|x l IH]; intros s; [done|]. cbn. apply (IH (dispatchTabs (f x) s)). Qed.

Lemma restore_active_order active terminals p :
  order (foldl sessionPointerReducer p (restore_active_actions active terminals)) = order p.
Proof.
  destruct active as [|host| | | |]; try done. cbn.
  destruct host as [[] t]; cbn; [|done]. by destruct (js_find _ terminals).
Qed.

(** The refs of [selectActiveItemId] for a mode whose active session is the pointer. *)
Definition pointer_refs (p : SessionPointerState) : ActiveInstanceRefs :=
  mkActive (activeLocalTerminalTabId p) (mode p) (activeRdpSessionId p)
    (match mode p with ModeHome => true | _ => false end) false (activeTabId p) (activeVncSessionId p).

Lemma restored_active s host h p terminals i :
  snapshot_valid s → i ∈ sn_instances s → sn_activeItemId s = Some (snap_id i) →
  restoreActive (sn_activeItemId s) (instance_map (sn_instances s)) host = Some h →
  activeInstanceId (pointer_refs (foldl sessionPointerReducer p (restore_active_actions h terminals))) =
    Some (snap_id i).
Proof.
  intros Hv Hi Ha Hr. rewrite Ha in Hr. unfold restoreActive in Hr.
  pose proof (sv_instances s Hv) as Hall. rewrite Forall_forall in Hall.
  destruct (Hall i Hi) as ((raw0 & Hne & Hraw0) & [Hne' _] & _).
  destruct (rawInstanceId_valid i (Hall i Hi)) as (raw & Hraw & Hid).
  rewrite Hid in Hraw0. apply instanceItemId_inj in Hraw0 as [_ ->].
  assert (String.eqb (snap_id i) HOME_ITEM_ID = false) as Hh
    by (apply String.eqb_neq; rewrite Hid; apply instanceItemId_not_home).
  assert (String.eqb (snap_id i) SPLIT_ITEM_ID = false) as Hs
    by (apply String.eqb_neq; rewrite Hid; apply instanceItemId_not_split).
  apply truthy_Some in Hne'. rewrite Hh, Hne', Hs in Hr. cbn [negb orb] in Hr.
  rewrite (instance_map_get _ _ (sv_ids s Hv) Hi), Hraw in Hr. cbv zeta in Hr. injection Hr as <-.
  apply truthy_Some in Hne. rewrite Hid.
  destruct (snap_kind i); cbn -[truthy instanceItemId]; unfold truthy_item; by rewrite Hne.
Qed.

Lemma restored_home s host h p terminals :
  snapshot_valid s → (sn_activeItemId s = None ∨ sn_activeItemId s = Some HOME_ITEM_ID) →
  restoreActive (sn_activeItemId s) (instance_map (sn_instances s)) host = Some h →
  let p' := foldl sessionPointerReducer p (restore_active_actions h terminals) in
  mode p' = ModeHome ∧ homeActive p' = true.
Proof. intros Hv [->| ->]; cbn; by intros [= <-]. Qed.

Lemma reconnect_ids s av id :
  id ∈ snap_id ∘ ri_instance <$> filter (λ item, ri_autoReconnect item = true)
    (rp_items (buildWorkspaceRestorePlan s av)) ↔
  av_autoReconnect av = true ∧ ∃ i pid, i ∈ sn_instances s ∧ snap_id i = id ∧
    (snap_kind i = KSsh ∨ snap_kind i = KLocal) ∧ snap_target i = TargetProfile pid ∧
    pid ∈ av_profileIds av.
Proof.
  rewrite list_elem_of_fmap. setoid_rewrite list_elem_of_filter. cbn. setoid_rewrite list_elem_of_fmap. split.
  - intros (item & -> & Hauto & i & -> & Hi). cbn in *.
    rewrite !andb_true_iff, !bool_decide_eq_true in Hauto. destruct Hauto as [[Hst Hav] Hk].
    split; [done|]. unfold restoreStatus in Hst. destruct (snap_target i) as [pid|t] eqn:Ht; case_decide; try done.
    by exists i, pid.
  - intros (Hav & i & pid & Hi & <- & Hk & Ht & Hp). exists (restore_item av i). split; [done|].
    split; [|by exists i]. cbn. unfold restoreStatus. rewrite Ht, decide_True by done.
    rewrite !bool_decide_eq_true_2 by done. by rewrite Hav.
Qed.

Lemma item_map_get s av i :
  NoDup (snap_id <$> sn_instances s) → i ∈ sn_instances s →
  jsmap_get (snap_id i) (item_map (buildWorkspaceRestorePlan s av)) = Some (restore_item av i).
Proof.
  intros Hnd Hi. unfold item_map. cbn [rp_items buildWorkspaceRestorePlan].
  rewrite <- list_fmap_compose.
  change ((λ item, (snap_id (ri_instance item), item)) ∘ restore_item av)
    with (λ i, (snap_id i, restore_item av i)).
  assert (((λ i, (snap_id i, restore_item av i)) <$> sn_instances s).*1 = snap_id <$> sn_instances s) as Hk
    by by rewrite <- list_fmap_compose.
  rewrite jsmap_of_entries_id by by rewrite Hk. apply jsmap_elem_get; [by rewrite Hk|].
  by apply (list_elem_of_fmap_2 (λ i, (snap_id i, restore_item av i))).
Qed.

Lemma terminal_error_None tr item :
  (terminalRestoreState tr (Some item)).1 = None ↔ ri_status item = Ready ∧ ri_autoReconnect item = true.
Proof. unfold terminalRestoreState. destruct (ri_status item), (ri_autoReconnect item); naive_solver. Qed.

(** C13: a restored shell shows what was saved and connects to nothing by itself. On
    a fresh controller the order table is the saved one; the saved active instance
    is the active one (home when home or nothing was active); multi-execution is off
    with no targets; no restored terminal has a backend session; the terminals and
    local terminals that are reconnected are exactly those whose saved profile still
    exists, and only when the setting allows it; and every SSH terminal that is not
    reconnected says why. *)
Theorem restore_shell_state tr lookups av s sh :
  snapshot_valid s → order (ss_pointers (rw_split sh)) = [] →
  ∃ sh', restoreWorkspaceShell tr lookups av s sh = Some sh' ∧
    let p := ss_pointers (rw_split sh') in
    order p = sn_order s ∧
    mx_mode (ss_multi (rw_split sh')) = MxOff ∧ mx_targets (ss_multi (rw_split sh')) = ∅ ∧
    (∀ i, i ∈ sn_instances s → sn_activeItemId s = Some (snap_id i) →
      activeInstanceId (pointer_refs p) = Some (snap_id i)) ∧
    (sn_activeItemId s = None ∨ sn_activeItemId s = Some HOME_ITEM_ID →
      mode p = ModeHome ∧ homeActive p = true) ∧
    (∀ id, id ∈ rw_reconnect sh' ↔ av_autoReconnect av = true ∧ ∃ i pid, i ∈ sn_instances s ∧
      snap_id i = id ∧ (snap_kind i = KSsh ∨ snap_kind i = KLocal) ∧
      snap_target i = TargetProfile pid ∧ pid ∈ av_profileIds av) ∧
    (∀ t, t ∈ rw_terminals sh' → tt_sessionId t = None ∧
      (tt_error t = None ↔ instanceItemId KSsh (tt_id t) ∈ rw_reconnect sh')).
Proof.
  intros Hv Ho. destruct (hydration_total s lookups Hv) as (h & Hh & H1 & _ & _ & _ & _ & _ & Hact).
  unfold restoreWorkspaceShell. cbv zeta. rewrite Hh.
  eexists. split; [reflexivity|]. cbn [rw_split rw_reconnect rw_terminals].
  set (terminals := hy_terminalTabs (applyWorkspaceRestorePlanToHydration tr h _)).
  set (s1 := foldl (λ s itemId, dispatchTabs (ItemOpened itemId) s) (rw_split sh) (sn_order s)).
  set (s2 := dispatchMulti (MxSetError None) _).
  assert (ss_pointers s2 = ss_pointers s1) as H2 by done.
  destruct (foldl_dispatchTabs (λ a, a) (restore_active_actions (hy_active h) terminals) s2) as (Hp & _ & Hm & _).
  change (hy_active (applyWorkspaceRestorePlanToHydration tr h _)) with (hy_active h).
  rewrite Hp, Hm, H2. clear Hp Hm.
  destruct (foldl_dispatchTabs ItemOpened (sn_order s) (rw_split sh)) as (Hs1 & _).
  split_and!.
  - rewrite restore_active_order. unfold s1. rewrite Hs1, register_all; [by cbn; rewrite Ho|apply Hv|].
    intros id _. rewrite Ho. apply not_elem_of_nil.
  - done.
  - done.
  - intros i Hi Ha. by eapply restored_active.
  - intros Hhome. by eapply restored_home.
  - intros id. apply reconnect_ids.
  - intros t Ht. rewrite (reconnect_ids s av). unfold terminals in Ht. cbn in Ht. apply list_elem_of_fmap in Ht as (t0 & -> & Ht0). cbn.
    apply list_elem_of_lookup in Ht0 as [k Hk].
    destruct (Forall2_lookup_r _ _ _ _ _ H1 Hk) as (i & Hik & Hrt).
    apply list_elem_of_lookup_2, list_elem_of_filter in Hik as [Hkind Hi].
    pose proof (sv_instances s Hv) as Hall. rewrite Forall_forall in Hall.
    destruct (rawInstanceId_valid i (Hall i Hi)) as (raw & Hraw & Hid).
    unfold restored_terminal in Hrt. rewrite Hraw in Hrt. destruct i; try done. injection Hrt as <-. cbn in *.
    split; [done|]. fold (instanceItemId KSsh raw). rewrite <- Hid.
    pose proof (item_map_get s av _ (sv_ids s Hv) Hi) as Hget. cbn in Hget. rewrite Hget, terminal_error_None.
    cbn. unfold restoreStatus. cbn. split.
    + rewrite !andb_true_iff, !bool_decide_eq_true. intros (Hst & (_ & Hav) & _). split; [done|].
      destruct target as [pid|tid]; case_decide; try done.
      exists (SnapSsh id ordinal (TargetProfile pid)), pid. auto.
    + intros (Hav & i' & pid & Hi' & Hid' & _ & Ht' & Hp').
      assert (i' = SnapSsh id ordinal target) as -> by (by apply (NoDup_fmap_inj_elem snap_id (sn_instances s)); [apply Hv|..]).
      cbn in Ht'. subst target. rewrite decide_True by done. rewrite !bool_decide_eq_true_2 by auto.
      by rewrite Hav.
Qed.

Definition fresh_restored : RestoredShell :=
  mkRestored initialSplitShell [] [] [] [] (mkTargetRefs [] []) true ViewFiles (mkNavStore [] 0) true [].

Definition demo_snapshot : WorkspaceSnapshotV1 := toSnapshot snap_pointers snap_collections.

Definition demo_availability : WorkspaceRestoreAvailability := mkAvailability true {["c2"; "zsh"]} ∅.

Lemma restore_shell_state_witness :
  order initialSessionPointerState = [] ∧
  ∃ sh', restoreWorkspaceShell (λ k, k) no_lookups demo_availability demo_snapshot fresh_restored = Some sh' ∧
    order (ss_pointers (rw_split sh')) = ["rdp:r1"; "ssh:a"; "local:l1"] ∧
    mx_mode (ss_multi (rw_split sh')) = MxOff ∧
    "ssh:a" ∉ rw_reconnect sh'.
Proof.
  split; [reflexivity|].
  destruct (restore_shell_state (λ k, k) no_lookups demo_availability demo_snapshot fresh_restored
    (toSnapshot_valid _ _ snap_bounded) eq_refl) as (sh' & Hr & Ho & Hm & _ & _ & _ & Hrec & _).
  exists sh'. split_and!; [exact Hr|exact Ho|exact Hm|].
  intros (_ & i & pid & Hi & Hid & _ & Ht & _)%Hrec.
  assert (sn_instances demo_snapshot =
    [SnapSsh "ssh:a" 0 (TargetTemporary "tmp"); SnapLocal "local:l1" 1 SrcLocal (TargetProfile "zsh");
     SnapRdp "rdp:r1" (TargetProfile "c2")]) as Hl by reflexivity.
  rewrite Hl, !elem_of_cons, elem_of_nil in Hi. by destruct Hi as [->|[->|[->|[]]]].
Defined.

(** ** Saving what was restored *)

(** *** The targets *)

(** Targets are remembered under their owner, as [snapshotTargetRefs] files them. *)
Definition targets_owned (m : jsmap WorkspaceSnapshotTargetRef) : Prop :=
  ∀ k t, jsmap_get k m = Some t → target_owner t = k.
Definition refs_owned (refs : SnapshotTargetRefs) : Prop :=
  targets_owned (tr_connections refs) ∧ targets_owned (tr_localProfiles refs).

Lemma targets_owned_set k t m : target_owner t = k → targets_owned m → targets_owned (jsmap_set k t m).
Proof. intros Ht Hm k' t'. rewrite jsmap_get_set. case_decide; [|by apply Hm]. naive_solver. Qed.

Lemma saved_targets_owned temporary refs : refs_owned refs → refs_owned (saved_targets temporary refs).
Proof.
  intros [Hc Hl]. split; [|done]. cbn. revert Hc. generalize (tr_connections refs) as m.
  induction temporary as [|id l IH]; intros m Hm; [done|]. by apply IH, targets_owned_set.
Qed.

Lemma saved_targets_nil refs : saved_targets [] refs = refs.
Proof. by destruct refs. Qed.

Lemma target_for_owner m owner : targets_owned m → target_owner (target_for (Some m) owner) = owner.
Proof.
  intros Hm. unfold target_for. cbn. destruct (jsmap_get owner m) as [t|] eqn:Ht; [|done]. by apply Hm.
Qed.

Lemma collect_targets_consistent terminals locals rdp vnc refs :
  refs_owned refs →
  targets_consistent (collectSnapshotInstances (saved_collections terminals locals rdp vnc refs)).
Proof.
  intros [Hc Hl].
  assert (∀ i, i ∈ collectSnapshotInstances (saved_collections terminals locals rdp vnc refs) →
    snap_target i = target_for (Some (owner_table refs i)) (target_owner (snap_target i))) as Ht.
  { intros i. unfold collectSnapshotInstances, owner_table. cbn -[target_for].
    rewrite !elem_of_app, !list_elem_of_fmap.
    intros [(x & -> & _)|[(x & -> & _)|[(x & -> & _)|(x & -> & _)]]]; cbn -[target_for];
      by rewrite target_for_owner. }
  intros i j Hi Hj Hk Ho. rewrite (Ht i Hi), (Ht j Hj), Ho. unfold owner_table.
  do 2 case_decide; tauto.
Qed.

Lemma snapshotTargetRefs_owned s : refs_owned (snapshotTargetRefs s).
Proof.
  unfold snapshotTargetRefs. assert (refs_owned (mkTargetRefs [] [])) as Hok by (by split; intros k t).
  revert Hok. generalize (mkTargetRefs [] []) as refs.
  induction (sn_instances s) as [|i l IH]; intros refs Hok; [done|]. cbn [foldl]. apply IH.
  destruct Hok as [Hc Hl]. destruct (snap_kind i); split; cbn; try done; by apply targets_owned_set.
Qed.

#[local] Instance ssh_key_inj :
  Inj (=) (=) (λ t, (instanceItemId KSsh (si_id t), Some (si_ordinal t), si_connectionId t)).
Proof.
  intros [c1 i1 o1] [c2 i2 o2] H. cbn [si_id si_ordinal si_connectionId] in H.
  apply pair_eq in H as [[Hi Ho]%pair_eq Hc]. apply (inj (instanceItemId KSsh)) in Hi. congruence.
Qed.

(** The terminals can be read back from their instances. *)
Lemma saved_terminals temporary sh :
  refs_owned (rw_targetRefs sh) →
  (λ i, (snap_id i, snap_ordinal i, target_owner (snap_target i))) <$>
    filter is_snap_ssh (collectSnapshotInstances (shell_saved temporary sh)) =
  (λ t, (instanceItemId KSsh (si_id t), Some (si_ordinal t), si_connectionId t)) <$>
    (ssh_of_tab <$> rw_terminals sh).
Proof.
  intros [Hc _]%(saved_targets_owned temporary). unfold collectSnapshotInstances. cbn -[target_for saved_targets].
  rewrite !filter_app.
  rewrite (filter_all is_snap_ssh (_ <$> (ssh_of_tab <$> _)))
    by (intros i (x & -> & _)%list_elem_of_fmap; done).
  rewrite !(filter_none is_snap_ssh) by (intros i (x & -> & _)%list_elem_of_fmap; done).
  rewrite !app_nil_r, <- !list_fmap_compose. apply list_fmap_ext. intros _ t _. unfold compose.
  cbn -[target_for saved_targets instanceItemId]. by rewrite target_for_owner.
Qed.

Lemma saved_ids temporary sh :
  snap_id <$> collectSnapshotInstances (shell_saved temporary sh) = collection_ids (shell_collections sh).
Proof.
  unfold collectSnapshotInstances, collection_ids. cbn -[target_for].
  by rewrite !fmap_app, <- !list_fmap_compose.
Qed.

Lemma saved_ssh_ids temporary sh :
  snap_id <$> filter is_snap_ssh (collectSnapshotInstances (shell_saved temporary sh)) =
    instanceItemId KSsh ∘ tt_id <$> rw_terminals sh.
Proof.
  unfold collectSnapshotInstances. cbn -[target_for]. rewrite !filter_app.
  rewrite (filter_all is_snap_ssh (_ <$> (ssh_of_tab <$> _)))
    by (intros i (x & -> & _)%list_elem_of_fmap; done).
  rewrite !(filter_none is_snap_ssh) by (intros i (x & -> & _)%list_elem_of_fmap; done).
  by rewrite !app_nil_r, <- !list_fmap_compose.
Qed.

(** *** The navigation of the terminals *)

Definition nav_of (st : NavigationStore) (tabId : string) : option FileNavigation :=
  jsmap_get (workspaceRemoteFileStateKey tabId) (ns_map st).

Lemma foldl_set_omap {V} (f : string → option V) (step : jsmap V → string → jsmap V) ids acc :
  (∀ m id, step m id = match f id with
    | Some v => jsmap_set (instanceItemId KSsh id) v m | None => m end) →
  NoDup ids → (∀ id, id ∈ ids → instanceItemId KSsh id ∉ acc.*1) →
  foldl step acc ids = acc ++ omap (λ id, (instanceItemId KSsh id,.) <$> f id) ids.
Proof.
  intros Hs. revert acc. induction ids as [|id ids IH]; intros acc; [by rewrite app_nil_r|].
  intros [Hid Hnd]%NoDup_cons Hacc. cbn [foldl]. rewrite Hs. cbn [omap list_omap].
  destruct (f id) as [v|]; cbn [fmap option_fmap option_map].
  - rewrite jsmap_set_new by (apply Hacc; left). rewrite IH, <- app_assoc; [done|done|].
    intros x Hx. rewrite fmap_app, elem_of_app. intros [?|Hx'%list_elem_of_singleton].
    + by apply (Hacc x); [right|].
    + apply (inj (instanceItemId KSsh)) in Hx' as ->. done.
  - apply IH; [done|]. intros x Hx. apply Hacc. by right.
Qed.

Definition nav_directory (st : NavigationStore) (tabId : string) : option string :=
  nav ← nav_of st tabId; if truthy (Some (nav_path nav)) then Some (nav_path nav) else None.

Lemma directories_omap ids st :
  NoDup ids →
  workspaceRemoteFileDirectories ids st =
    omap (λ id, (instanceItemId KSsh id,.) <$> nav_directory st id) ids.
Proof.
  intros Hnd. unfold workspaceRemoteFileDirectories.
  apply (foldl_set_omap (nav_directory st) _ ids []); [|done|intros; apply not_elem_of_nil].
  intros m id. unfold nav_directory, nav_of. destruct (jsmap_get _ _) as [nav|]; cbn -[truthy]; [|done].
  by destruct (truthy _).
Qed.

Lemma follow_omap ids st :
  NoDup ids →
  workspaceRemoteFileFollowStates ids st =
    omap (λ id, (instanceItemId KSsh id,.) <$> (nav_follow <$> nav_of st id)) ids.
Proof.
  intros Hnd. unfold workspaceRemoteFileFollowStates.
  apply (foldl_set_omap (λ id, nav_follow <$> nav_of st id) _ ids []); [|done|intros; apply not_elem_of_nil].
  intros m id. unfold nav_of. by destruct (jsmap_get _ _).
Qed.

Section keyed_by_tab.
Context {V : Type} (f : string → option V).
Let entries (ids : list string) : jsmap V := omap (λ id, (instanceItemId KSsh id,.) <$> f id) ids.

Lemma tab_entry ids e : e ∈ entries ids ↔ ∃ id, id ∈ ids ∧ e.1 = instanceItemId KSsh id ∧ f id = Some e.2.
Proof.
  unfold entries. rewrite list_elem_of_omap. destruct e as [k v]. cbn. split.
  - intros (id & Hid & (w & Hw & [= -> ->])%fmap_Some). eauto.
  - intros (id & Hid & -> & Hv). exists id. by rewrite Hv.
Qed.

Lemma tab_entries_NoDup ids : NoDup ids → NoDup (entries ids).*1.
Proof.
  unfold entries. induction 1 as [|id ids Hid Hnd IH]; cbn; [constructor|].
  destruct (f id) as [v|]; cbn; [|done]. apply NoDup_cons. split; [|done].
  intros (e & He & Hin)%list_elem_of_fmap. apply tab_entry in Hin as (id' & Hid' & He' & _).
  cbn [fst] in He. rewrite He' in He. apply (inj (instanceItemId KSsh)) in He as ->. done.
Qed.

Lemma tab_entries_get ids id :
  NoDup ids → id ∈ ids → jsmap_get (instanceItemId KSsh id) (entries ids) = f id.
Proof.
  intros Hnd Hid. destruct (f id) as [v|] eqn:Hf.
  - apply jsmap_elem_get; [by apply tab_entries_NoDup|]. apply tab_entry. eauto.
  - apply jsmap_get_None. intros (e & He & Hin)%list_elem_of_fmap.
    apply tab_entry in Hin as (id' & _ & He' & Hv). rewrite He' in He. apply (inj (instanceItemId KSsh)) in He as ->. congruence.
Qed.
End keyed_by_tab.

Lemma workspaceRemoteFileStateKey_inj a b :
  workspaceRemoteFileStateKey a = workspaceRemoteFileStateKey b → a = b.
Proof. unfold workspaceRemoteFileStateKey. cbn. intros H. by simplify_eq. Qed.

Lemma seed_fold_get follow directories acc id :
  NoDup directories.*1 →
  jsmap_get (workspaceRemoteFileStateKey id) (foldl (seed_entry follow) acc directories).1 =
    match jsmap_get (instanceItemId KSsh id) directories with
    | Some path =>
        if truthy (Some path)
        then Some (mkNavigation path (default false (jsmap_get (instanceItemId KSsh id) follow)))
        else jsmap_get (workspaceRemoteFileStateKey id) acc.1
    | None => jsmap_get (workspaceRemoteFileStateKey id) acc.1
    end.
Proof.
  revert acc. induction directories as [|[k path] l IH]; intros [m changed]; [done|].
  cbn [fmap list_fmap fst]. intros [Hk Hnd]%NoDup_cons. cbn [foldl]. rewrite IH by done. clear IH.
  assert (jsmap_get (workspaceRemoteFileStateKey id) (seed_entry follow (m, changed) (k, path)).1 =
    if decide (k = instanceItemId KSsh id) then
      if truthy (Some path)
      then Some (mkNavigation path (default false (jsmap_get (instanceItemId KSsh id) follow)))
      else jsmap_get (workspaceRemoteFileStateKey id) m
    else jsmap_get (workspaceRemoteFileStateKey id) m) as Hstep.
  { unfold seed_entry. cbn [fst snd].
    destruct (starts_with "ssh:" k) eqn:Hs; cbn [negb orb].
    - apply starts_with_inv in Hs as [r ->]. change 4 with (String.length "ssh:"). rewrite drop_chars_app.
      change (instanceItemId KSsh id) with ("ssh:" +:+ id).
      destruct (truthy (Some path)); cbn [negb]; [|by case_decide].
      destruct (decide (r = id)) as [->|Hr].
      + rewrite (decide_True (P := "ssh:" +:+ id = "ssh:" +:+ id)) by done.
        case_decide as Hsame; cbn [fst]; [done|]. by rewrite jsmap_get_set, decide_True.
      + rewrite (decide_False (P := "ssh:" +:+ r = "ssh:" +:+ id)) by (cbn; intros [=]; done).
        case_decide; cbn [fst]; [done|]. rewrite jsmap_get_set, decide_False; [done|].
        by intros ->%workspaceRemoteFileStateKey_inj.
    - rewrite decide_False; [done|]. intros ->. change (starts_with "ssh:" ("ssh:" +:+ id) = false) in Hs.
      by rewrite starts_with_app in Hs. }
  rewrite Hstep. clear Hstep. cbn [jsmap_get fst].
  destruct (decide (k = instanceItemId KSsh id)) as [->|Hne].
  - apply jsmap_get_None in Hk. rewrite Hk. by case_decide.
  - rewrite decide_False by done. by destruct (jsmap_get _ l) as [p|]; [destruct (truthy (Some p))|].
Qed.

Lemma omap_ext_in {A B} (f g : A → option B) (l : list A) : (∀ x, x ∈ l → f x = g x) → omap f l = omap g l.
Proof.
  induction l as [|x l IH]; intros Hfg; [done|]. cbn. rewrite Hfg by left.
  rewrite IH by (intros; apply Hfg; by right). done.
Qed.

(** No empty directory is published or seeded. *)
Definition navigation_ok (st : NavigationStore) : Prop :=
  ∀ k nav, jsmap_get k (ns_map st) = Some nav → nav_path nav ≠ "".

Lemma publish_navigation_ok k path follow st :
  navigation_ok st → navigation_ok (publishWorkspaceRemoteFileNavigation k path follow st).
Proof.
  intros Hok. unfold publishWorkspaceRemoteFileNavigation.
  destruct (negb (truthy (Some k)) || negb (truthy (Some path))) eqn:E; [done|]. case_decide; [done|].
  apply orb_false_iff in E as [_ Hp%negb_false_iff%truthy_Some].
  intros k' nav. cbn. rewrite jsmap_get_set. case_decide; [by intros [= <-]|]. apply Hok.
Qed.

Lemma seeded_navigation ids st0 st :
  NoDup ids → navigation_ok st0 → ns_map st = [] →
  let st' := seedWorkspaceRemoteFileDirectories (workspaceRemoteFileDirectories ids st0)
    (workspaceRemoteFileFollowStates ids st0) st in
  (∀ id, id ∈ ids → nav_of st' id = nav_of st0 id) ∧
  workspaceRemoteFileDirectories ids st' = workspaceRemoteFileDirectories ids st0 ∧
  workspaceRemoteFileFollowStates ids st' = workspaceRemoteFileFollowStates ids st0.
Proof.
  intros Hnd Hok Hst. cbv zeta.
  set (st' := seedWorkspaceRemoteFileDirectories _ _ _).
  assert (∀ id, id ∈ ids → nav_of st' id = nav_of st0 id) as Hnav.
  { intros id Hid. unfold st', seedWorkspaceRemoteFileDirectories. rewrite Hst.
    rewrite directories_omap, follow_omap by done.
    destruct (foldl _ _ _) as [m changed] eqn:Hf. unfold nav_of at 1. cbn [ns_map].
    change m with ((m, changed).1). rewrite <- Hf.
    rewrite seed_fold_get by (by apply tab_entries_NoDup).
    rewrite !tab_entries_get by done.
    unfold nav_directory. specialize (Hok (workspaceRemoteFileStateKey id)). fold (nav_of st0 id) in Hok.
    destruct (nav_of st0 id) as [nav|]; cbn -[truthy]; [|done].
    specialize (Hok nav eq_refl). apply truthy_Some in Hok. destruct nav as [p f]. cbn in Hok |- *. by rewrite !Hok. }
  rewrite !directories_omap, !follow_omap by done.
  split; [done|]. split; apply omap_ext_in; intros id Hid; unfold nav_directory; by rewrite Hnav.
Qed.

(** *** The panes *)

Definition kept_binding (liveIds : list string) (b : option TerminalPaneBinding) : option TerminalPaneBinding :=
  b ≫= λ b, if decide (terminalPaneBindingKey b ∈ liveIds) then Some b else None.

Lemma restored_leaves l n n' :
  Forall instance_valid l → NoDup (snap_id <$> l) →
  restorePane (snapshotPaneNode n (snap_id <$> l)) (instance_map l) = Some n' →
  leaves n' = prod_map (kept_binding (snap_id <$> l)) id <$> leaves n.
Proof.
  intros Hv Hnd. revert n'. induction n as [b id|d f IHf id r s IHs]; intros n'.
  - cbn [snapshotPaneNode restorePane leaves]. destruct b as [b|]; [|by intros [= <-]].
    rewrite <- (terminalPaneBindingKey_instance b). case_decide as Hin.
    + pose proof Hin as (i & Hid & Hi)%list_elem_of_fmap. rewrite Forall_forall in Hv.
      assert (truthy (Some (terminalPaneBindingKey b)) = true) as ->
        by (apply truthy_Some; rewrite terminalPaneBindingKey_instance; by destruct (binding_kind b)).
      rewrite Hid, (instance_map_get l i Hnd Hi).
      destruct (restore_binding_valid i (Hv i Hi)) as (b' & -> & Hb'). cbn. intros [= <-]. cbn.
      unfold kept_binding. cbn. rewrite decide_True by done. do 2 f_equal.
      destruct b' as [b'|].
      * rewrite <- terminalPaneBindingKey_instance, <- Hid in Hb'.
        by apply (inj terminalPaneBindingKey) in Hb' as ->.
      * exfalso. destruct (rawInstanceId_valid i (Hv i Hi)) as (raw & _ & Hraw).
        rewrite terminalPaneBindingKey_instance, Hraw in Hid. apply instanceItemId_inj in Hid as [Hk _].
        rewrite <- Hk in Hb'. destruct (binding_kind b), Hb'; done.
    + intros [= <-]. cbn. unfold kept_binding. cbn. by rewrite decide_False.
  - cbn [snapshotPaneNode restorePane leaves].
    destruct (restorePane _ _) as [nf|] eqn:Ef; [|done]. destruct (restorePane (snapshotPaneNode s _) _) as [ns|] eqn:Es; [|done].
    intros [= <-]. cbn [leaves]. by rewrite fmap_app, (IHf nf), (IHs ns).
Qed.

(** *** The group and the active item *)

Definition shell_group_item (sh : RestoredShell) : option WorkspaceItem :=
  split_group (shell_collections sh) (shell_group sh).

(** A live session that a pane of the layout shows. *)
Definition bound_session (sh : RestoredShell) (id : string) : Prop :=
  id ∈ collection_ids (shell_collections sh) ∧
  ∃ b paneId, (Some b, paneId) ∈ leaves_opt (shell_layout (rw_split sh)) ∧ terminalPaneBindingKey b = id.

Lemma pane_item_terminal c b i :
  NoDup (collection_ids c) → jsmap_get (terminalPaneBindingKey b) (collectInstances c) = Some i →
  is_terminal_item i = true.
Proof.
  intros Hnd. rewrite collectInstances_eq by done. intros Hg%jsmap_get_elem.
  apply list_elem_of_fmap in Hg as (j & [= Hid ->] & Hj). rewrite terminalPaneBindingKey_instance in Hid.
  unfold collection_items in Hj. rewrite !elem_of_app, !list_elem_of_fmap in Hj.
  destruct Hj as [(x & -> & _)|[(x & -> & _)|[(x & -> & _)|(x & -> & _)]]]; try done;
    apply instanceItemId_inj in Hid as [Hk _]; by destruct (binding_kind b).
Qed.

Lemma group_of_bindings c bs h :
  NoDup (collection_ids c) →
  let g := split_group c (Some (mkSplitGroup bs h)) in
  (is_Some g ↔ ∃ id, id ∈ collection_ids c ∧ ∃ b, b ∈ bs ∧ terminalPaneBindingKey b = id) ∧
  ∀ id, id ∈ group_members g ↔ id ∈ collection_ids c ∧ ∃ b, b ∈ bs ∧ terminalPaneBindingKey b = id.
Proof.
  intros Hnd. cbv zeta. cbn [split_group mbind option_bind].
  pose proof (collectInstances_keyed c Hnd) as Hkey. pose proof (collectInstances_keys c Hnd) as Hkeys.
  assert (∀ id, id ∈ collection_ids c ↔ is_Some (jsmap_get id (collectInstances c))) as Hin.
  { intros id. by rewrite jsmap_get_is_Some, Hkeys. }
  destruct (buildSplitGroup _ _) as [g|] eqn:Hg.
  - destruct (buildSplitGroup_spec _ _ _ Hg) as (x & ms & -> & _ & Hx & Hms). specialize (Hms Hkey).
    cbn [group_members sg_bindings] in *.
    assert (∀ id, id ∈ ms ↔ id ∈ collection_ids c ∧ ∃ b, b ∈ bs ∧ terminalPaneBindingKey b = id) as Hmem.
    { intros id. rewrite Hms, Hin. split.
      - intros (b & i & Hb & Hk & Hget & _). rewrite Hget. eauto.
      - intros ([i Hi] & b & Hb & Hk). exists b, i. split_and!; [done..|].
        apply (pane_item_terminal c b); [done|]. by rewrite Hk. }
    split; [|exact Hmem]. split; [|by eexists]. intros _. exists (instance_id x). by apply Hmem.
  - unfold buildSplitGroup in Hg. cbn [sg_bindings] in Hg.
    destruct (filter _ (omap _ bs)) as [|? ?] eqn:Hf; [|done].
    assert (∀ id, ¬ (id ∈ collection_ids c ∧ ∃ b, b ∈ bs ∧ terminalPaneBindingKey b = id)) as Hno.
    { intros id (Hid & b & Hb & Hk). apply Hin in Hid as [i Hi].
      apply (not_elem_of_nil i). rewrite <- Hf. apply list_elem_of_filter. split.
      - apply (pane_item_terminal c b); [done|]. by rewrite Hk.
      - apply list_elem_of_omap. exists b. by rewrite Hk. }
    split.
    + split; [by intros []|]. by intros (id & ?%Hno).
    + intros id. cbn. split; [by intros ?%not_elem_of_nil|by intros ?%Hno].
Qed.

(** The group has the live sessions of the panes as its members; it is shown when
    the split exists and has one. *)
Lemma shell_group_spec sh :
  NoDup (collection_ids (shell_collections sh)) →
  (shell_splitExists sh = true → is_Some (host (ss_split (rw_split sh))) ∨ ∀ id, ¬ bound_session sh id) →
  (is_Some (shell_group_item sh) ↔ shell_splitExists sh = true ∧ ∃ id, bound_session sh id) ∧
  ∀ id, id ∈ group_members (shell_group_item sh) ↔ shell_splitExists sh = true ∧ bound_session sh id.
Proof.
  intros Hnd Hh. unfold shell_group_item, shell_group.
  destruct (shell_splitExists sh) eqn:He.
  2:{ cbn. split; [split; [by intros []|by intros [? _]]|]. intros id. split; [by intros ?%not_elem_of_nil|by intros [? _]]. }
  assert (∀ id, bound_session sh id ↔ id ∈ collection_ids (shell_collections sh) ∧
    ∃ b, b ∈ omap pane_binding (shell_panes (rw_split sh)) ∧ terminalPaneBindingKey b = id) as Hb.
  { intros id. unfold bound_session, shell_panes, selectSplitPanes, leaves_opt.
    destruct (shell_layout (rw_split sh)) as [l|]; cbn -[terminalPaneBindingKey].
    - split; intros (Hid & H); (split; [done|]).
      + destruct H as (b & pid & (p & Hp & Hpb & _)%elem_of_collect_view & Hk). exists b. split; [|done].
        apply list_elem_of_omap. eauto.
      + destruct H as (b & (p & Hp & Hpb)%list_elem_of_omap & Hk). exists b, (pane_id p). split; [|done].
        apply elem_of_collect_view. eauto.
    - split; intros (Hid & H); (split; [done|]).
      + by destruct H as (b & pid & ?%not_elem_of_nil & _).
      + by destruct H as (b & ?%not_elem_of_nil & _). }
  destruct (host _) as [h|] eqn:Eh.
  - destruct (group_of_bindings (shell_collections sh) (omap pane_binding (shell_panes (rw_split sh))) h Hnd)
      as [H1 H2].
    setoid_rewrite Hb. rewrite H1. split; [naive_solver|]. intros id. rewrite H2. naive_solver.
  - destruct (Hh eq_refl) as [[]|Hno]; [done|]. cbn. split.
    + split; [by intros []|]. by intros (_ & id & ?%Hno).
    + intros id. split; [by intros ?%not_elem_of_nil|by intros [_ ?%Hno]].
Qed.

(** The active item, in terms of the group and the live sessions. *)
Lemma selectActiveItemId_eq active c order split :
  NoDup (collection_ids c) →
  let g := split_group c split in
  selectActiveItemId active (selectWorkspaceItems c order split) =
    if ar_showingHome active then Some HOME_ITEM_ID
    else if bool_decide (is_Some g) && bool_decide (ar_mode active = ModeSsh ∨ ar_mode active = ModeLocal) &&
            ar_splitActive active
    then Some SPLIT_ITEM_ID
    else match activeInstanceId active with
      | None => None
      | Some i =>
          if decide (i ∈ group_members g) then Some SPLIT_ITEM_ID
          else if decide (i ∈ collection_ids c) then Some i else None
      end.
Proof.
  intros Hnd. cbv zeta. unfold selectActiveItemId. cbv zeta. rewrite find_split_group by done.
  destruct (ar_showingHome active); [done|].
  assert (bool_decide (is_Some ((λ g, group_members (Some g)) <$> split_group c split)) =
    bool_decide (is_Some (split_group c split))) as ->.
  { apply bool_decide_ext. apply fmap_is_Some. }
  destruct (_ && _ && _); [done|].
  destruct (activeInstanceId active) as [i|] eqn:Hi; [|done].
  assert (default [] ((λ g, group_members (Some g)) <$> split_group c split) = group_members (split_group c split)) as Hm
    by (by destruct (split_group c split)).
  assert (i ≠ HOME_ITEM_ID ∧ i ≠ SPLIT_ITEM_ID) as [Hh Hs].
  { unfold activeInstanceId, truthy_item in Hi.
    destruct (ar_mode active); repeat case_match; simplify_eq;
      (split; [apply instanceItemId_not_home|apply instanceItemId_not_split]). }
  rewrite Hm. case_decide as Hg; [done|].
  assert (i ∈ workspace_item_id <$> selectWorkspaceItems c order split ↔ i ∈ collection_ids c) as Hd.
  { split.
    - intros (w & -> & Hw)%list_elem_of_fmap. destruct w as [|j|]; [done| |done].
      by apply (displayed_instance c order split).
    - intros Hin. apply displayed_standalone; [done..|]. by rewrite Hm. }
  do 2 case_decide; tauto.
Qed.

Lemma activeWorkspaceItemId_cases files sh a :
  NoDup (collection_ids (shell_collections sh)) →
  activeWorkspaceItemId files sh = Some a →
  a = HOME_ITEM_ID ∨ (a = SPLIT_ITEM_ID ∧ is_Some (shell_group_item sh)) ∨
  (a ∈ collection_ids (shell_collections sh) ∧ a ∉ group_members (shell_group_item sh)).
Proof.
  intros Hnd. unfold activeWorkspaceItemId, shell_items. rewrite selectActiveItemId_eq by done. cbv zeta.
  fold (shell_group_item sh).
  destruct (ar_showingHome _); [intros Ha; left; congruence|].
  destruct (_ && _ && _) eqn:E.
  { intros Ha. right. left. split; [congruence|]. rewrite !andb_true_iff, !bool_decide_eq_true in E. tauto. }
  clear E. destruct (activeInstanceId _) as [i|]; [|done]. case_decide as Hi.
  - intros Ha. right. left. split; [congruence|]. by destruct (shell_group_item sh); [|apply not_elem_of_nil in Hi].
  - case_decide; [|done]. intros [= <-]. auto.
Qed.

Lemma set_host_result st h : host (splitReducer st (SplitSetHost h)) = h.
Proof. simpl. case_decide as He; [|done]. by apply optionalBindingsEqual_eq in He. Qed.

(** What [restoreWorkspaceShell] leaves in every part of the shell. *)
Lemma restored_parts tr lookups av s sh h :
  snapshot_valid s → order (ss_pointers (rw_split sh)) = [] →
  buildWorkspaceShellHydration s lookups = Some h →
  ∃ sh' p, restoreWorkspaceShell tr lookups av s sh = Some sh' ∧
    ((ssh_of_tab <$> rw_terminals sh' = ssh_of_tab <$> hy_terminalTabs h) ∧
     (local_of_tab <$> rw_locals sh' = local_of_tab <$> hy_localTerminalTabs h) ∧
     (desktop_ref <$> rw_rdp sh' = desktop_ref <$> hy_rdpSessions h) ∧
     desktop_ref <$> rw_vnc sh' = desktop_ref <$> hy_vncSessions h) ∧
    rw_targetRefs sh' = snapshotTargetRefs s ∧
    (rw_collapsed sh' = sn_collapsed s ∧ rw_view sh' = sn_view s ∧
     rw_followsActive sh' = sn_followActivePane s) ∧
    rw_navigation sh' = seedWorkspaceRemoteFileDirectories (sn_directories s)
      (default [] (sn_followTerminalDirectories s)) (rw_navigation sh) ∧
    (shell_layout (rw_split sh') = hy_splitLayout h ∧ host (ss_split (rw_split sh')) = hy_splitHost h ∧
     tabActive (ss_split (rw_split sh')) =
       bool_decide (sn_activeItemId s = Some SPLIT_ITEM_ID) && bool_decide (is_Some (hy_splitLayout h))) ∧
    ss_pointers (rw_split sh') =
      foldl sessionPointerReducer p (restore_active_actions (hy_active h) (rw_terminals sh')) ∧
    order p = sn_order s.
Proof.
  intros Hv Ho Hh. unfold restoreWorkspaceShell. cbv zeta. rewrite Hh.
  set (s1 := foldl (λ s itemId, dispatchTabs (ItemOpened itemId) s) (rw_split sh) (sn_order s)).
  set (s2 := dispatchMulti (MxSetError None) _).
  eexists _, (ss_pointers s1). split; [reflexivity|].
  cbn [rw_split rw_terminals rw_locals rw_rdp rw_vnc rw_targetRefs rw_collapsed rw_view rw_navigation
    rw_followsActive]. unfold shell_layout.
  set (terminals := hy_terminalTabs (applyWorkspaceRestorePlanToHydration tr h _)).
  change (hy_active (applyWorkspaceRestorePlanToHydration tr h _)) with (hy_active h).
  destruct (foldl_dispatchTabs (λ a, a) (restore_active_actions (hy_active h) terminals) s2) as (Hp & Hs & _).
  rewrite Hp, Hs. split_and!; try done.
  - unfold terminals. cbn. by rewrite <- list_fmap_compose.
  - cbn. by rewrite <- list_fmap_compose.
  - cbn. by rewrite <- list_fmap_compose.
  - cbn. by rewrite <- list_fmap_compose.
  - transitivity (layout (splitReducer (splitReducer (ss_split s1) (SplitSetLayout (hy_splitLayout h)))
      (SplitSetHost (hy_splitHost h)))); [done|]. by rewrite set_host_layout, set_layout_result.
  - transitivity (host (splitReducer (splitReducer (ss_split s1) (SplitSetLayout (hy_splitLayout h)))
      (SplitSetHost (hy_splitHost h)))); [done|]. by rewrite set_host_result.
  - destruct (foldl_dispatchTabs ItemOpened (sn_order s) (rw_split sh)) as (Hs1 & _).
    unfold s1. rewrite Hs1, register_all; [by cbn; rewrite Ho|apply Hv|].
    intros id _. rewrite Ho. apply not_elem_of_nil.
Qed.

Lemma active_desktop_found sessions id connection :
  id ≠ "" → mkRef connection id ∈ desktop_ref <$> sessions →
  active_desktop sessions (Some id) (Some connection) = Some id.
Proof.
  intros Hne (d & [= Hc Hid] & Hd)%list_elem_of_fmap. unfold active_desktop, selectActiveSession, opt_truthy_find.
  apply truthy_Some in Hne. rewrite Hne.
  destruct (js_find _ sessions) as [x|] eqn:Hf.
  - apply js_find_Some in Hf as [_ [Hx _]]. cbn. f_equal. exact Hx.
  - exfalso. rewrite js_find_None in Hf. apply (Hf d Hd). cbn. unfold DesktopTab_id, DesktopTab_connection.
    split; [done|]. right. by rewrite Hc.
Qed.

(** *** The running shell *)

(** What is asked of a running shell: it fits the bounds of the format, what it
    remembers of restored targets is filed under their owners, its order table has no
    duplicate, a split of several panes has a host, and no empty directory was
    published. *)
Record running_ok (temporary : list string) (files : nat) (sh : RestoredShell) : Prop := {
  ro_bounded : workspace_bounded (shell_pointers files sh) (shell_saved temporary sh);
  ro_targets : refs_owned (rw_targetRefs sh);
  ro_order : NoDup (order (ss_pointers (rw_split sh)));
  ro_host : shell_splitExists sh = true → is_Some (host (ss_split (rw_split sh)));
  ro_navigation : navigation_ok (rw_navigation sh);
}.

(** The pointers of an instance that was active. *)
Lemma restored_instance_active lookups s h sh' p files i :
  snapshot_valid s →
  Forall2 (λ i t, restored_desktop lookups i = Some t) (of_kind KRdp (sn_instances s)) (hy_rdpSessions h) →
  Forall2 (λ i t, restored_desktop lookups i = Some t) (of_kind KVnc (sn_instances s)) (hy_vncSessions h) →
  (desktop_ref <$> rw_rdp sh' = desktop_ref <$> hy_rdpSessions h) ∧
    desktop_ref <$> rw_vnc sh' = desktop_ref <$> hy_vncSessions h →
  restoreActive (sn_activeItemId s) (instance_map (sn_instances s)) (hy_splitHost h) = Some (hy_active h) →
  ss_pointers (rw_split sh') =
    foldl sessionPointerReducer p (restore_active_actions (hy_active h) (rw_terminals sh')) →
  i ∈ sn_instances s → sn_activeItemId s = Some (snap_id i) →
  showingHome files sh' = false ∧ activeInstanceId (shell_active files sh') = Some (snap_id i).
Proof.
  intros Hv H3 H4 [Er Ev] Hact Hp Hi Ha. rewrite Ha in Hact. unfold restoreActive in Hact.
  pose proof (sv_instances s Hv) as Hall. rewrite Forall_forall in Hall.
  destruct (Hall i Hi) as ((raw0 & Hne & Hraw0) & [Hne' _] & _).
  destruct (rawInstanceId_valid i (Hall i Hi)) as (raw & Hraw & Hid).
  rewrite Hid in Hraw0. apply instanceItemId_inj in Hraw0 as [_ <-].
  assert (String.eqb (snap_id i) HOME_ITEM_ID = false) as Hh
    by (apply String.eqb_neq; rewrite Hid; apply instanceItemId_not_home).
  assert (String.eqb (snap_id i) SPLIT_ITEM_ID = false) as Hs
    by (apply String.eqb_neq; rewrite Hid; apply instanceItemId_not_split).
  apply truthy_Some in Hne'. rewrite Hh, Hne', Hs in Hact. cbn [negb orb] in Hact.
  rewrite (instance_map_get _ _ (sv_ids s Hv) Hi), Hraw in Hact. cbv zeta in Hact. injection Hact as Hact.
  assert (∀ k ds, snap_kind i = k → Forall2 (λ i t, restored_desktop lookups i = Some t) (of_kind k (sn_instances s)) ds →
    mkRef (targetId i) raw ∈ desktop_ref <$> ds) as Hdesk.
  { intros k ds Hk HF. assert (i ∈ of_kind k (sn_instances s)) as [n Hn]%list_elem_of_lookup
      by (by apply list_elem_of_filter).
    destruct (Forall2_lookup_l _ _ _ _ _ HF Hn) as (t & Ht & Hr). unfold restored_desktop in Hr.
    rewrite Hraw in Hr. injection Hr as <-. apply list_elem_of_fmap. eexists. split; [|by eapply list_elem_of_lookup_2].
    done. }
  assert (truthy (Some raw) = true) as Hraw' by by apply truthy_Some.
  unfold showingHome, shell_active, activeInstanceId. rewrite Hp, <- Hact, Hid.
  destruct (snap_kind i) eqn:Hk; cbn -[truthy instanceItemId active_desktop]; rewrite andb_false_r; (split; [done|]).
  - unfold truthy_item. by rewrite Hraw'.
  - rewrite active_desktop_found; [|done|rewrite Er; by apply (Hdesk KRdp)]. unfold truthy_item. by rewrite Hraw'.
  - unfold truthy_item. by rewrite Hraw'.
  - rewrite active_desktop_found; [|done|rewrite Ev; by apply (Hdesk KVnc)]. unfold truthy_item. by rewrite Hraw'.
Qed.

Lemma group_has_layout sh : is_Some (shell_group_item sh) → is_Some (shell_layout (rw_split sh)).
Proof.
  unfold shell_group_item, shell_group, shell_splitExists, selectSplitExists.
  destruct (bool_decide (is_Some (shell_layout _))) eqn:E; [by apply bool_decide_eq_true in E|].
  by intros [].
Qed.

(** The projection keeps the active item of the render. *)
Lemma sanitize_active files sh :
  NoDup (collection_ids (shell_collections sh)) →
  sanitizeActiveItemId (activeWorkspaceItemId files sh) (collection_ids (shell_collections sh))
    (bool_decide (is_Some (shell_layout (rw_split sh)))) = activeWorkspaceItemId files sh.
Proof.
  intros Hnd. unfold sanitizeActiveItemId.
  destruct (activeWorkspaceItemId files sh) as [a|] eqn:Ha; [|done].
  apply activeWorkspaceItemId_cases in Ha as [->|[[-> Hg]|[Hin _]]]; [done| | |done].
  - cbn. rewrite bool_decide_eq_true_2; [done|]. by apply group_has_layout.
  - apply collection_ids_kind in Hin as Hk. destruct Hk as (k & r & Hk).
    rewrite decide_False by (rewrite Hk; apply instanceItemId_not_home).
    rewrite decide_False by (rewrite Hk; apply instanceItemId_not_split).
    rewrite bool_decide_eq_true_2 by done. rewrite andb_true_r.
    assert (truthy (Some a) = true) as ->; [|done]. apply truthy_Some. rewrite Hk. by destruct k.
Qed.

Lemma firstBinding_leaves n :
  match firstBinding n with
  | Some b => ∃ id, (Some b, id) ∈ leaves n
  | None => ∀ b id, (Some b, id) ∉ leaves n
  end.
Proof.
  induction n as [b id|d f IHf id r s IHs]; cbn.
  - destruct b as [b|]; [exists id; left|]. intros b i. rewrite list_elem_of_singleton. done.
  - destruct (firstBinding f) as [b|]; cbn.
    + destruct IHf as [i Hi]. exists i. apply elem_of_app. by left.
    + destruct (firstBinding s) as [b|].
      * destruct IHs as [i Hi]. exists i. apply elem_of_app. by right.
      * intros b i [?%IHf|?%IHs]%elem_of_app; done.
Qed.

(** The same sessions are bound in the restored layout. *)
Lemma bound_session_kept sh0 sh' live :
  live = collection_ids (shell_collections sh0) →
  collection_ids (shell_collections sh') = collection_ids (shell_collections sh0) →
  leaves_opt (shell_layout (rw_split sh')) =
    prod_map (kept_binding live) id <$> leaves_opt (shell_layout (rw_split sh0)) →
  ∀ id, bound_session sh' id ↔ bound_session sh0 id.
Proof.
  intros -> Hids Hl key. unfold bound_session. rewrite Hids, Hl. split; intros (Hin & b & pid & Hb & <-); (split; [done|]).
  - apply list_elem_of_fmap in Hb as ([b0 pid0] & [= Hb ->] & Hb0). unfold kept_binding in Hb.
    destruct b0 as [b0|]; [|done]. cbn in Hb. case_decide; [|done]. injection Hb as ->. eauto.
  - exists b, pid. split; [|done]. apply list_elem_of_fmap. exists (Some b, pid). split; [|done].
    unfold kept_binding. cbn -[terminalPaneBindingKey]. by rewrite decide_True.
Qed.

Lemma splitExists_leaves sh0 sh' f :
  is_Some (shell_layout (rw_split sh')) ↔ is_Some (shell_layout (rw_split sh0)) →
  leaves_opt (shell_layout (rw_split sh')) = f <$> leaves_opt (shell_layout (rw_split sh0)) →
  shell_splitExists sh' = shell_splitExists sh0.
Proof.
  intros Hs Hl. unfold shell_splitExists, selectSplitExists. f_equal; apply bool_decide_ext; [done|].
  apply (f_equal length) in Hl. rewrite length_fmap in Hl. unfold shell_panes, selectSplitPanes, leaves_opt in *.
  destruct (shell_layout (rw_split sh')), (shell_layout (rw_split sh0)); cbn in *;
    rewrite ?collect_length; try done; rewrite Hl; done.
Qed.

(** What is saved of the navigation is what its store says of the terminals. *)
Lemma saved_navigation temporary files sh :
  NoDup (tt_id <$> rw_terminals sh) →
  sn_directories (workspaceSnapshot temporary files sh) =
    workspaceRemoteFileDirectories (tt_id <$> rw_terminals sh) (rw_navigation sh) ∧
  sn_followTerminalDirectories (workspaceSnapshot temporary files sh) =
    Some (workspaceRemoteFileFollowStates (tt_id <$> rw_terminals sh) (rw_navigation sh)).
Proof.
  intros Hnd. unfold workspaceSnapshot, toSnapshot. cbv zeta.
  cbn [sn_directories sn_followTerminalDirectories shell_pointers sp_directories sp_followTerminalDirectories].
  rewrite saved_ssh_ids, directories_omap, follow_omap, list_fmap_compose by done. split.
  - apply snapshotDirectories_id; [by apply tab_entries_NoDup|]. apply Forall_forall.
    intros e (id & Hid & He & Hd)%tab_entry. rewrite He. split; [by apply list_elem_of_fmap_2|].
    unfold nav_directory in Hd. apply bind_Some in Hd as (nav & _ & Hd).
    destruct (truthy _) eqn:Ht; [|done]. injection Hd as <-. by apply truthy_Some.
  - cbn [fmap option_fmap option_map]. f_equal. rewrite filter_all.
    + apply jsmap_of_entries_id. by apply tab_entries_NoDup.
    + intros e (id & Hid & He & _)%tab_entry. rewrite He. by apply list_elem_of_fmap_2.
Qed.

Lemma saved_terminals_NoDup temporary files sh :
  workspace_bounded (shell_pointers files sh) (shell_saved temporary sh) →
  NoDup (tt_id <$> rw_terminals sh).
Proof.
  intros Hb. pose proof (wb_ids _ _ Hb) as Hnd. rewrite saved_ids in Hnd. unfold collection_ids in Hnd.
  apply NoDup_app in Hnd as (Hnd & _ & _). cbn in Hnd. rewrite <- list_fmap_compose in Hnd.
  apply (NoDup_fmap_1 (instanceItemId KSsh)). by rewrite <- list_fmap_compose.
Qed.

(** The snapshot a resumed workspace saves: home is active where nothing was. *)
Definition resumed_snapshot (s : WorkspaceSnapshotV1) : WorkspaceSnapshotV1 :=
  mkSnapshotV1 (Some (default HOME_ITEM_ID (sn_activeItemId s))) (sn_directories s) (sn_followActivePane s)
    (sn_followTerminalDirectories s) (sn_instances s) (sn_order s) (sn_panes s) (sn_collapsed s) (sn_view s).

(** The active item of the restored shell, from that of the shell that was saved. *)
Lemma restored_active_item sh0 sh' files files' lookups s h p :
  snapshot_valid s →
  NoDup (collection_ids (shell_collections sh0)) →
  collection_ids (shell_collections sh0) = snap_id <$> sn_instances s →
  collection_ids (shell_collections sh') = collection_ids (shell_collections sh0) →
  sn_activeItemId s = activeWorkspaceItemId files sh0 →
  (is_Some (shell_group_item sh') ↔ is_Some (shell_group_item sh0)) →
  (∀ id, id ∈ group_members (shell_group_item sh') ↔ id ∈ group_members (shell_group_item sh0)) →
  (is_Some (shell_group_item sh0) → is_Some (hy_splitHost h) ∧ shell_splitExists sh' = true) →
  tabActive (ss_split (rw_split sh')) =
    bool_decide (sn_activeItemId s = Some SPLIT_ITEM_ID) && bool_decide (is_Some (shell_layout (rw_split sh'))) →
  Forall2 (λ i t, restored_desktop lookups i = Some t) (of_kind KRdp (sn_instances s)) (hy_rdpSessions h) →
  Forall2 (λ i t, restored_desktop lookups i = Some t) (of_kind KVnc (sn_instances s)) (hy_vncSessions h) →
  (desktop_ref <$> rw_rdp sh' = desktop_ref <$> hy_rdpSessions h) ∧
    desktop_ref <$> rw_vnc sh' = desktop_ref <$> hy_vncSessions h →
  restoreActive (sn_activeItemId s) (instance_map (sn_instances s)) (hy_splitHost h) = Some (hy_active h) →
  ss_pointers (rw_split sh') =
    foldl sessionPointerReducer p (restore_active_actions (hy_active h) (rw_terminals sh')) →
  activeWorkspaceItemId files' sh' = Some (default HOME_ITEM_ID (sn_activeItemId s)).
Proof.
  intros Hv Hnd Hlive Hids Ha Hg Hm Hsplit Hta H3 H4 Hdesk Hact Hp.
  unfold activeWorkspaceItemId, shell_items. rewrite selectActiveItemId_eq by (by rewrite Hids). cbv zeta.
  fold (shell_group_item sh').
  assert (sn_activeItemId s = None ∨ sn_activeItemId s = Some HOME_ITEM_ID →
    ar_showingHome (shell_active files' sh') = true) as Hhome.
  { intros Hnone. destruct (restored_home s (hy_splitHost h) (hy_active h) p (rw_terminals sh') Hv Hnone Hact) as [Hmode _].
    cbn. unfold showingHome. by rewrite Hp, Hmode. }
  destruct (sn_activeItemId s) as [a|] eqn:Ea; [|by rewrite Hhome by by left].
  symmetry in Ha. apply activeWorkspaceItemId_cases in Ha as [->|[[-> Hgi]|[Hin Hout]]]; [| | |done].
  - by rewrite Hhome by by right.
  - pose proof Hgi as Hgi'. apply Hg in Hgi'. destruct (Hsplit Hgi) as [[b Hb] Hex].
    rewrite (bool_decide_eq_true_2 (is_Some (shell_group_item sh'))) by done.
    rewrite Hb in Hact. cbn in Hact. injection Hact as Hact.
    assert (showingHome files' sh' = false ∧ (mode (ss_pointers (rw_split sh')) = ModeSsh ∨
      mode (ss_pointers (rw_split sh')) = ModeLocal)) as [Hsh Hmode].
    { unfold showingHome. rewrite Hp, <- Hact. cbn.
      destruct (binding_kind b); cbn; [destruct (js_find _ _)|]; cbn; rewrite andb_false_r; auto. }
    cbn [ar_showingHome ar_mode ar_splitActive shell_active]. rewrite Hsh, bool_decide_eq_true_2 by done.
    unfold shell_splitActive. rewrite Hex, Hta.
    by rewrite !bool_decide_eq_true_2 by (done || by apply group_has_layout).
  - assert (a ≠ SPLIT_ITEM_ID) as Hns.
    { apply collection_ids_kind in Hin as (k & r & ->). apply instanceItemId_not_split. }
    rewrite Hlive in Hin. apply list_elem_of_fmap in Hin as (i & -> & Hi).
    rewrite <- Ea in Hact.
    destruct (restored_instance_active lookups s h sh' p files' i Hv H3 H4 Hdesk Hact Hp Hi Ea) as [Hsh Hai].
    cbn [ar_showingHome ar_splitActive shell_active]. rewrite Hsh. unfold shell_splitActive. rewrite Hta.
    rewrite (bool_decide_eq_false_2 (Some (snap_id i) = _)) by congruence.
    cbn [andb]. rewrite !andb_false_r. rewrite Hai.
    rewrite decide_False by (by rewrite Hm). rewrite decide_True; [done|].
    rewrite Hids, Hlive. by apply list_elem_of_fmap_2.
Qed.

(** The layout that comes back is saved as before, with the same live panes. *)
Lemma resumed_layout s l0 l' :
  snapshot_valid s →
  sn_panes s = (λ l, snapshotPaneNode l (snap_id <$> sn_instances s)) <$> l0 →
  (∀ p, sn_panes s = Some p → panes_terminal (sn_instances s) p) →
  match sn_panes s with
  | Some p => restorePane p (instance_map (sn_instances s)) = l' ∧ is_Some l'
  | None => l' = None
  end →
  (is_Some l' ↔ is_Some l0) ∧
  leaves_opt l' = prod_map (kept_binding (snap_id <$> sn_instances s)) id <$> leaves_opt l0 ∧
  (λ l, snapshotPaneNode l (snap_id <$> sn_instances s)) <$> l' = sn_panes s.
Proof.
  intros Hv Hp Hterm Hl. destruct l0 as [l0|]; cbn in Hp; rewrite Hp in Hl |- *.
  - destruct Hl as [Hl [n Hn]]. rewrite Hn in Hl |- *. split_and!; [by split|..].
    + cbn. by apply restored_leaves; [apply Hv..|].
    + destruct (restorePane_ok _ 0 _ (sv_instances s Hv) (sv_ids s Hv) (sv_panes s Hv _ Hp)) as (n' & Hn' & Hs).
      cbn. rewrite Hl in Hn'. injection Hn' as <-. rewrite Hs; [done|]. by apply Hterm.
  - rewrite Hl. by split_and!; [split; intros []|..].
Qed.

(** The group that comes back has the same members. *)
Lemma resumed_group sh0 sh' :
  NoDup (collection_ids (shell_collections sh0)) →
  collection_ids (shell_collections sh') = collection_ids (shell_collections sh0) →
  (shell_splitExists sh0 = true → is_Some (host (ss_split (rw_split sh0)))) →
  (is_Some (shell_layout (rw_split sh')) ↔ is_Some (shell_layout (rw_split sh0))) →
  leaves_opt (shell_layout (rw_split sh')) =
    prod_map (kept_binding (collection_ids (shell_collections sh0))) id <$> leaves_opt (shell_layout (rw_split sh0)) →
  host (ss_split (rw_split sh')) = shell_layout (rw_split sh') ≫= firstBinding →
  (is_Some (shell_group_item sh') ↔ is_Some (shell_group_item sh0)) ∧
  (∀ id, id ∈ group_members (shell_group_item sh') ↔ id ∈ group_members (shell_group_item sh0)) ∧
  (is_Some (shell_group_item sh0) → is_Some (host (ss_split (rw_split sh'))) ∧ shell_splitExists sh' = true).
Proof.
  intros Hnd Hids Hh Hs Hl Hhost.
  pose proof (bound_session_kept sh0 sh' _ eq_refl Hids Hl) as Hb.
  pose proof (splitExists_leaves sh0 sh' _ Hs Hl) as He.
  assert (is_Some (host (ss_split (rw_split sh'))) ∨ ∀ id, ¬ bound_session sh' id) as Hh'.
  { rewrite Hhost. destruct (shell_layout (rw_split sh')) as [n|] eqn:El; cbn.
    - pose proof (firstBinding_leaves n) as Hf. destruct (firstBinding n) as [b|]; [by left; eexists|].
      right. intros id (_ & b & pid & Hin & _). rewrite El in Hin. by apply (Hf b pid).
    - right. intros id (_ & b & pid & Hin & _). rewrite El in Hin. by apply not_elem_of_nil in Hin. }
  destruct (shell_group_spec sh0 Hnd) as [G1 G2]; [by left; apply Hh|].
  destruct (shell_group_spec sh') as [G1' G2']; [by rewrite Hids|done|].
  setoid_rewrite Hb in G1'. setoid_rewrite Hb in G2'. rewrite He in G1', G2'.
  split; [by rewrite G1, G1'|]. split; [intros id; by rewrite G2, G2'|].
  intros [Hex [id Hid]]%G1. split; [|by rewrite He].
  destruct Hh' as [?|Hno]; [done|]. by apply Hb, Hno in Hid.
Qed.

Lemma snapshot_ext x y :
  sn_activeItemId x = sn_activeItemId y → sn_directories x = sn_directories y →
  sn_followActivePane x = sn_followActivePane y →
  sn_followTerminalDirectories x = sn_followTerminalDirectories y → sn_instances x = sn_instances y →
  sn_order x = sn_order y → sn_panes x = sn_panes y → sn_collapsed x = sn_collapsed y →
  sn_view x = sn_view y → x = y.
Proof. destruct x, y. cbn. by intros -> -> -> -> -> -> -> -> ->. Qed.

(** The sessions that come back are the ones that were saved. *)
Lemma resumed_instances temporary files sh0 lookups h sh' :
  let s := workspaceSnapshot temporary files sh0 in
  snapshot_valid s → refs_owned (rw_targetRefs sh0) →
  Forall2 (λ i t, restored_terminal lookups i = Some t) (of_kind KSsh (sn_instances s)) (hy_terminalTabs h) →
  Forall2 (λ i t, restored_local lookups i = Some t) (of_kind KLocal (sn_instances s)) (hy_localTerminalTabs h) →
  Forall2 (λ i t, restored_desktop lookups i = Some t) (of_kind KRdp (sn_instances s)) (hy_rdpSessions h) →
  Forall2 (λ i t, restored_desktop lookups i = Some t) (of_kind KVnc (sn_instances s)) (hy_vncSessions h) →
  shell_saved [] sh' = saved_collections (hy_terminalTabs h) (hy_localTerminalTabs h) (hy_rdpSessions h)
    (hy_vncSessions h) (snapshotTargetRefs s) →
  rw_targetRefs sh' = snapshotTargetRefs s →
  collectSnapshotInstances (shell_saved [] sh') = sn_instances s ∧
  collection_ids (shell_collections sh') = collection_ids (shell_collections sh0) ∧
  ssh_of_tab <$> rw_terminals sh' = ssh_of_tab <$> rw_terminals sh0 ∧
  tt_id <$> rw_terminals sh' = tt_id <$> rw_terminals sh0.
Proof.
  cbv zeta. set (s := workspaceSnapshot temporary files sh0). intros Hv Ht H1 H2 H3 H4 Hs Href.
  assert (targets_consistent (sn_instances s)) as Htc
    by (by apply collect_targets_consistent, saved_targets_owned).
  assert (collectSnapshotInstances (shell_saved [] sh') = sn_instances s) as HI.
  { rewrite Hs, (restored_collections_instances s lookups) by done.
    symmetry. apply (collect_grouped (shell_saved temporary sh0)). }
  split; [done|]. split; [by rewrite <- (saved_ids [] sh'), HI, <- (saved_ids temporary)|].
  assert (ssh_of_tab <$> rw_terminals sh' = ssh_of_tab <$> rw_terminals sh0) as Hssh.
  { apply (inj (fmap (λ t, (instanceItemId KSsh (si_id t), Some (si_ordinal t), si_connectionId t)))).
    rewrite <- (saved_terminals [] sh'), <- (saved_terminals temporary sh0), HI; [done..|].
    rewrite Href. apply snapshotTargetRefs_owned. }
  split; [done|]. apply (f_equal (fmap si_id)) in Hssh. by rewrite <- !list_fmap_compose in Hssh.
Qed.

Lemma keep_first_filter seen l : NoDup l → keep_first seen l = filter (.∉ seen) l.
Proof.
  revert seen. induction l as [|x l IH]; intros seen; [done|]. intros [Hx Hnd]%NoDup_cons. cbn [keep_first].
  rewrite filter_cons. case_decide as Hs.
  - rewrite decide_False by tauto. by apply IH.
  - rewrite decide_True by done. f_equal. rewrite IH by done. apply list_filter_ext_in.
    intros y Hy. rewrite not_elem_of_cons. split; [tauto|]. intros ?. split; [|done]. by intros ->.
Qed.

(** The same items in the same order. *)
Lemma place_items_same g g' placed l l' :
  instance_id <$> l = instance_id <$> l' →
  (∀ x, g = Some x → workspace_item_id x = SPLIT_ITEM_ID) →
  (∀ x, g' = Some x → workspace_item_id x = SPLIT_ITEM_ID) →
  (is_Some g ↔ is_Some g') → (∀ id, id ∈ group_members g ↔ id ∈ group_members g') →
  displayed_ids (place_items g placed l) = displayed_ids (place_items g' placed l').
Proof.
  intros Hl Hg Hg' Hs Hm. revert placed l' Hl. unfold displayed_ids.
  induction l as [|i l IH]; intros placed [|i' l'] Hl; try done.
  rewrite !fmap_cons in Hl. injection Hl as Hi Hl. cbn [place_items].
  destruct (decide (instance_id i ∈ group_members g)) as [Hin|Hin].
  - rewrite decide_True by (rewrite <- Hi; by apply Hm).
    destruct g as [x|], g' as [x'|]; try (by apply not_elem_of_nil in Hin); [|by destruct Hs as [[] _]].
    destruct placed; [by apply IH|]. rewrite !fmap_cons. rewrite (Hg x), (Hg' x') by done. f_equal. by apply IH.
  - rewrite decide_False by (rewrite <- Hi; by rewrite <- Hm). rewrite !fmap_cons. f_equal; [exact Hi|]. by apply IH.
Qed.

Lemma shell_group_id sh x :
  NoDup (collection_ids (shell_collections sh)) → shell_group_item sh = Some x →
  workspace_item_id x = SPLIT_ITEM_ID.
Proof. intros Hnd Hg. by destruct (split_group_members _ _ _ Hnd Hg) as (h & ms & -> & _). Qed.

Lemma resumed_items sh0 sh' instances :
  NoDup (collection_ids (shell_collections sh0)) → NoDup (order (ss_pointers (rw_split sh0))) →
  snap_id <$> instances = collection_ids (shell_collections sh0) →
  collection_ids (shell_collections sh') = collection_ids (shell_collections sh0) →
  order (ss_pointers (rw_split sh')) = snapshotOrder (order (ss_pointers (rw_split sh0))) instances →
  (is_Some (shell_group_item sh') ↔ is_Some (shell_group_item sh0)) →
  (∀ id, id ∈ group_members (shell_group_item sh') ↔ id ∈ group_members (shell_group_item sh0)) →
  displayed_ids (shell_items sh') = displayed_ids (shell_items sh0).
Proof.
  intros Hnd Hno Hlive Hids Ho Hg Hm. unfold shell_items, selectWorkspaceItems. cbv zeta.
  fold (shell_group_item sh') (shell_group_item sh0).
  unfold split_group in *. unfold displayed_ids. rewrite !fmap_cons. f_equal.
  apply place_items_same; [|by intros; apply (shell_group_id sh'); rewrite ?Hids|by intros; apply (shell_group_id sh0)|done..].
  rewrite !ordered_instances_display by (by rewrite ?Hids). unfold display_order, unregisteredInstanceIds.
  rewrite Hids, Ho. unfold snapshotOrder. cbv zeta. rewrite Hlive.
  set (ids := collection_ids (shell_collections sh0)) in *.
  set (o := order (ss_pointers (rw_split sh0))) in *.
  assert (keep_first [] (filter (.∈ ids) o) = filter (.∈ ids) o) as ->
    by (apply keep_first_id; [by apply NoDup_filter|intros ? _; apply not_elem_of_nil]).
  assert (keep_first (filter (.∈ ids) o) ids = filter (.∉ o) ids) as ->.
  { rewrite keep_first_filter by done. apply list_filter_ext_in. intros x Hx. rewrite list_elem_of_filter. tauto. }
  rewrite filter_app, (filter_all _ (filter (.∈ ids) o)) by (intros x [? _]%list_elem_of_filter; done).
  rewrite (filter_all _ (filter (.∉ o) ids)) by (intros x [_ ?]%list_elem_of_filter; done).
  assert (filter (.∉ filter (.∈ ids) o ++ filter (.∉ o) ids) ids = []) as ->; [|by rewrite app_nil_r].
  apply filter_none. intros x Hx Hn. apply Hn. rewrite elem_of_app, !list_elem_of_filter.
  destruct (decide (x ∈ o)); tauto.
Qed.

(** The directories and the follow states that come back. *)
Lemma resumed_navigation temporary files files' sh0 sh sh' :
  let s := workspaceSnapshot temporary files sh0 in
  NoDup (tt_id <$> rw_terminals sh0) → navigation_ok (rw_navigation sh0) → ns_map (rw_navigation sh) = [] →
  tt_id <$> rw_terminals sh' = tt_id <$> rw_terminals sh0 →
  rw_navigation sh' = seedWorkspaceRemoteFileDirectories (sn_directories s)
    (default [] (sn_followTerminalDirectories s)) (rw_navigation sh) →
  (∀ id, id ∈ tt_id <$> rw_terminals sh0 → nav_of (rw_navigation sh') id = nav_of (rw_navigation sh0) id) ∧
  sn_directories (workspaceSnapshot [] files' sh') = sn_directories s ∧
  sn_followTerminalDirectories (workspaceSnapshot [] files' sh') = sn_followTerminalDirectories s.
Proof.
  cbv zeta. intros Hnd Hn Hns Htabs Enav.
  destruct (saved_navigation temporary files sh0 Hnd) as [Hd Hf].
  destruct (saved_navigation [] files' sh') as [Hd' Hf']; [by rewrite Htabs|].
  destruct (seeded_navigation (tt_id <$> rw_terminals sh0) (rw_navigation sh0) (rw_navigation sh) Hnd Hn Hns)
    as (Hsn & Hsd & Hsf).
  rewrite Hd, Hf in Enav. cbn [default from_option] in Enav. change (id ?x) with x in Enav.
  split; [intros id Hid; rewrite Enav; by apply Hsn|].
  by rewrite Hd', Hf', Hd, Hf, Htabs, Enav, Hsd, Hsf.
Qed.

Lemma resumed_fields sh' files' s :
  snapshot_valid s → NoDup (collection_ids (shell_collections sh')) →
  collectSnapshotInstances (shell_saved [] sh') = sn_instances s →
  activeWorkspaceItemId files' sh' = Some (default HOME_ITEM_ID (sn_activeItemId s)) →
  order (ss_pointers (rw_split sh')) = sn_order s →
  (λ l, snapshotPaneNode l (snap_id <$> sn_instances s)) <$> shell_layout (rw_split sh') = sn_panes s →
  sn_directories (workspaceSnapshot [] files' sh') = sn_directories s →
  sn_followTerminalDirectories (workspaceSnapshot [] files' sh') = sn_followTerminalDirectories s →
  rw_collapsed sh' = sn_collapsed s → rw_view sh' = sn_view s →
  rw_followsActive sh' = sn_followActivePane s →
  workspaceSnapshot [] files' sh' = resumed_snapshot s.
Proof.
  intros Hv Hnd HI Ha Ho Hp Hd Hf Hc Hw Hfa.
  assert (sn_activeItemId (workspaceSnapshot [] files' sh') = activeWorkspaceItemId files' sh') as Ha'.
  { rewrite <- (sanitize_active files' sh') by done. by rewrite <- (saved_ids [] sh'). }
  apply snapshot_ext; try done.
  - by rewrite Ha'.
  - unfold workspaceSnapshot, toSnapshot. cbv zeta. cbn [sn_order sp_order shell_pointers resumed_snapshot].
    rewrite HI, Ho. apply snapshotOrder_id; apply Hv.
  - cbn [resumed_snapshot sn_panes]. by rewrite <- Hp, <- HI.
Qed.

(** C12: closing and reopening the application loses nothing. What a running shell
    saves is built from its own state (tabs, order table, split, pointers, navigation
    of the terminals, sidebar and remembered targets), as the render builds it. When
    that shell fits the bounds of the format, its order table has no duplicate, its
    split of several panes has a host, remembered targets are filed under their owners
    and no empty directory was published, the stored snapshot decodes and restoring it
    into a fresh shell succeeds. The restored shell shows the same items in the top
    bar, in the same order and with the same one active (home where nothing was), the
    same terminals with their ids, ordinals and connections, the same directory and
    follow state of each, and the same sidebar; and what it then saves from its own
    state is the same snapshot (instances, ordinals, targets, order, panes, ratios,
    active item, directories, follow states, sidebar), again with home for nothing.
    This holds for every restore plan, however many remote file tabs are open before
    and after, and with no connection temporary any more. *)
Theorem save_restore_save temporary files sh0 tr lookups availability sh files' :
  running_ok temporary files sh0 →
  order (ss_pointers (rw_split sh)) = [] → ns_map (rw_navigation sh) = [] →
  let s := workspaceSnapshot temporary files sh0 in
  ∃ loaded sh', decodeWorkspaceSnapshot (to_json s) = inr loaded ∧
    restoreWorkspaceShell tr lookups availability loaded sh = Some sh' ∧
    displayed_ids (shell_items sh') = displayed_ids (shell_items sh0) ∧
    activeWorkspaceItemId files' sh' = Some (default HOME_ITEM_ID (activeWorkspaceItemId files sh0)) ∧
    ssh_of_tab <$> rw_terminals sh' = ssh_of_tab <$> rw_terminals sh0 ∧
    (∀ id, id ∈ tt_id <$> rw_terminals sh0 →
      nav_of (rw_navigation sh') id = nav_of (rw_navigation sh0) id) ∧
    (rw_collapsed sh' = rw_collapsed sh0 ∧ rw_view sh' = rw_view sh0 ∧
     rw_followsActive sh' = rw_followsActive sh0) ∧
    workspaceSnapshot [] files' sh' = resumed_snapshot s.
Proof.
  intros [Hb Ht Hno Hh Hn] Ho Hns. cbv zeta. set (s := workspaceSnapshot temporary files sh0).
  pose proof (toSnapshot_valid _ _ Hb) as Hv. change (snapshot_valid s) in Hv.
  destruct (hydration_total s lookups Hv) as (h & Hbuild & H1 & H2 & H3 & H4 & Hl & Hhost & Hact).
  destruct (restored_parts tr lookups availability s sh h Hv Ho Hbuild) as
    (sh' & p & Hr & (E1 & E2 & E3 & E4) & Erefs & (Ec & Evw & Efa) & Enav & (El & Eh & Eta) & Ep & Eo).
  exists s, sh'. split; [by apply decode_to_json|]. split; [done|].
  destruct (resumed_instances temporary files sh0 lookups h sh') as (HI & Hids & Hssh & Htabs); [done..| |done|].
  { unfold shell_saved, saved_collections. rewrite E1, E2, E3, E4, Erefs. by rewrite saved_targets_nil. }
  assert (snap_id <$> sn_instances s = collection_ids (shell_collections sh0)) as Hlive
    by apply (saved_ids temporary).
  assert (NoDup (collection_ids (shell_collections sh0))) as Hnd by (rewrite <- Hlive; apply Hv).
  destruct (resumed_layout s (shell_layout (rw_split sh0)) (hy_splitLayout h) Hv) as (Hls & Hlv & Hlp);
    [done| |done|].
  { intros q (l & _ & ->)%fmap_Some. apply (snapshotPaneNode_terminal (shell_saved temporary sh0)). }
  rewrite <- El in Hls, Hlv, Hlp, Eta, Hhost. rewrite Hlive in Hlv. rewrite <- Eh in Hhost.
  destruct (resumed_group sh0 sh' Hnd Hids Hh Hls Hlv Hhost) as (Hg & Hm & Hgh).
  destruct (resumed_navigation temporary files files' sh0 sh sh') as (Hnav & Hd & Hf);
    [by eapply saved_terminals_NoDup|done..|].
  fold s in HI, Hd, Hf.
  assert (sn_activeItemId s = activeWorkspaceItemId files sh0) as Ha.
  { rewrite <- (sanitize_active files sh0 Hnd). by rewrite <- Hlive. }
  assert (activeWorkspaceItemId files' sh' = Some (default HOME_ITEM_ID (sn_activeItemId s))) as Ha'.
  { eapply (restored_active_item sh0 sh' files files' lookups s h p); try done. by rewrite <- Eh. }
  assert (order (ss_pointers (rw_split sh')) = sn_order s) as Hord by (by rewrite Ep, restore_active_order).
  split; [by apply (resumed_items sh0 sh' (sn_instances s))|]. split; [by rewrite <- Ha|].
  split; [done|]. split; [done|]. split; [done|].
  apply resumed_fields; try done. by rewrite Hids.
Qed.

(** A running shell: an SSH terminal of a temporary connection and a local one share
    a split that is active, and a remote desktop stands alone. *)
Definition running_shell : RestoredShell :=
  mkRestored
    (mkSplitShell
      (mkSplitState false None false (Some "terminal-pane-2") (Some (mkBinding PaneSsh "a"))
        (Some (Branch SplitRow (Leaf (Some (mkBinding PaneSsh "a")) "terminal-pane-1") "terminal-split-3"
          (9 # 10) (Leaf (Some (mkBinding PaneLocal "l1")) "terminal-pane-2"))) None 0 true)
      3 0 None initialMultiExecState
      (set_order ["rdp:r1"; "ssh:a"; "ssh:old"]
        (sessionPointerReducer initialSessionPointerState (ActivateTerminal "c1" "a" true))))
    [mkTerminalTab None None "a" "c1" 0 None (Some "backend-1") "connected" None "web" TabTerminal []]
    [mkLocalTab "l1" (Some SrcLocal) "zsh" "shell" 1 "zsh" None (Some "backend-2") "connected" None []]
    [mkDesktopTab "c2" None "r1" None "desk"] [] (mkTargetRefs [] [])
    false ViewSessions (mkNavStore [("ssh-file-panel:a", mkNavigation "/srv" true)] 1) true [].

Lemma running_shell_ok : running_ok ["c1"] 0 running_shell.
Proof.
  constructor.
  - constructor.
    + vm_compute. lia.
    + vm_decide.
    + repeat (apply Forall_cons; split); [| | |by apply Forall_nil];
        (split; [eexists; split; [|reflexivity]; done|]);
        (split; [shortness|split; [shortness|by intros ? [= <-]]]).
    + intros l [= <-]. cbn. unfold MAX_PANE_DEPTH. repeat (split; [lia|]). split; [shortness|].
      split; (split; [lia|shortness]).
  - by split; intros k t.
  - vm_decide.
  - intros _. by eexists.
  - intros k nav. cbn. case_decide; [|done]. by intros [= <-].
Qed.

Lemma save_restore_save_witness :
  order initialSessionPointerState = [] ∧
  sn_activeItemId (workspaceSnapshot ["c1"] 0 running_shell) = Some "split" ∧
  ∃ loaded sh', decodeWorkspaceSnapshot (to_json (workspaceSnapshot ["c1"] 0 running_shell)) = inr loaded ∧
    restoreWorkspaceShell (λ k, k) no_lookups (mkAvailability true ∅ ∅) loaded fresh_restored = Some sh' ∧
    displayed_ids (shell_items sh') = ["home"; "rdp:r1"; "split"] ∧
    workspaceSnapshot [] 2 sh' = resumed_snapshot (workspaceSnapshot ["c1"] 0 running_shell).
Proof.
  split; [reflexivity|]. split; [vm_compute; reflexivity|].
  destruct (save_restore_save ["c1"] 0 running_shell (λ k, k) no_lookups (mkAvailability true ∅ ∅)
    fresh_restored 2 running_shell_ok eq_refl eq_refl) as (loaded & sh' & Hd & Hr & Hi & _ & _ & _ & _ & Hs).
  exists loaded, sh'. split; [exact Hd|]. split; [exact Hr|]. split; [rewrite Hi; vm_compute; reflexivity|exact Hs].
Defined.

(** The layout keeps its saved pane ids but the counter that draws new ids starts
    again from zero, so the first split after a restart can give a new pane the id of
    a restored one: here [terminal-pane-1] twice, and closing the new pane
    closes both. *)
Lemma restored_pane_id_reused :
  let restored := restoreWorkspaceShell (λ k, k) no_lookups demo_availability demo_snapshot fresh_restored in
  let l := restored ≫= λ sh, shell_layout
    (startTerminalSplitForBinding (λ _ _, None) demo_tabs (mkBinding PaneSsh "a") SplitRow (rw_split sh)) in
  leaf_ids <$> l = Some ["terminal-pane-1"; "terminal-pane-1"; "terminal-pane-2"] ∧
  leaf_ids <$> (l ≫= λ l, closeTerminalSplitPane l "terminal-pane-1") = Some ["terminal-pane-2"].
Proof. split; vm_compute; reflexivity. Qed.
