(* ===== verification/SnapshotLifecycle.v ===== *)
(** * Snapshot lifecycle ([features/workspace/restore/useWorkspaceSnapshotLifecycle.ts])

    The hook that loads the saved workspace once at launch and then saves what is
    shown, as a machine whose events are the renders, the load that settles, the
    debounce timer and the saves that settle. [JSON.stringify] of a snapshot is a
    parameter; an effect runs when its dependencies differ from those it last ran
    with, after the cleanups. *)

From S2P Require Import Prelude SplitLayout SessionTypes Instances Snapshot SnapshotCodec.
From Stdlib Require Import Lia.

#[local] Open Scope nat_scope.

(** ** State *)

(** [li_runtime] is the identity of the runtime object, which may be null. *)
Record LifecycleInput := mkLifecycleInput {
  li_enabled : bool;
  li_restoreOnLaunch : bool;
  li_snapshot : WorkspaceSnapshotV1;
  li_runtime : option nat;
}.

(** The closure of a scheduled save. *)
Record SaveJob := mkSaveJob {
  sj_runtime : nat;
  sj_snapshot : WorkspaceSnapshotV1;
  sj_serialized : string;
}.

Inductive Operation := OpLoad | OpSave.

(** [lc_input] is [inputRef.current]; the dependencies are those of the last run of
    each effect. [lc_load] is the load that was not disposed, [lc_timer] the save that
    waits for the debounce, [lc_queue] the saves of the promise chain, the first of
    them in flight. What the outside sees: the restores, the calls of [runtime.save],
    how they settled, and the reported errors. *)
Record Lifecycle := mkLifecycle {
  lc_input : LifecycleInput;
  lc_mounted : bool;
  lc_restored : bool;
  lc_lastSaved : option string;
  lc_ready : bool;
  lc_load_deps : option (bool * bool * option nat);
  lc_save_deps : option (bool * option nat * bool * string);
  lc_load : option nat;
  lc_loads : list nat;
  lc_timer : option SaveJob;
  lc_queue : list SaveJob;
  lc_restores : list WorkspaceSnapshotV1;
  lc_calls : list SaveJob;
  lc_settled : list (SaveJob * bool);
  lc_errors : list Operation;
}.

Definition initialLifecycle (input : LifecycleInput) : Lifecycle :=
  mkLifecycle input true false None false None None None [] None [] [] [] [] [].

(** The parts of the state that a step replaces together. *)
Definition lc_with_refs (restored : bool) (lastSaved : option string) (ready : bool) (s : Lifecycle) : Lifecycle :=
  mkLifecycle (lc_input s) (lc_mounted s) restored lastSaved ready (lc_load_deps s) (lc_save_deps s) (lc_load s)
    (lc_loads s) (lc_timer s) (lc_queue s) (lc_restores s) (lc_calls s) (lc_settled s) (lc_errors s).

Definition lc_with_load (load : option nat) (loads : list nat) (s : Lifecycle) : Lifecycle :=
  mkLifecycle (lc_input s) (lc_mounted s) (lc_restored s) (lc_lastSaved s) (lc_ready s) (lc_load_deps s)
    (lc_save_deps s) load loads (lc_timer s) (lc_queue s) (lc_restores s) (lc_calls s) (lc_settled s) (lc_errors s).

Definition lc_with_saves (timer : option SaveJob) (queue calls : list SaveJob) (settled : list (SaveJob * bool))
    (s : Lifecycle) : Lifecycle :=
  mkLifecycle (lc_input s) (lc_mounted s) (lc_restored s) (lc_lastSaved s) (lc_ready s) (lc_load_deps s)
    (lc_save_deps s) (lc_load s) (lc_loads s) timer queue (lc_restores s) calls settled (lc_errors s).

Definition lc_with_log (restores : list WorkspaceSnapshotV1) (errors : list Operation) (s : Lifecycle) : Lifecycle :=
  mkLifecycle (lc_input s) (lc_mounted s) (lc_restored s) (lc_lastSaved s) (lc_ready s) (lc_load_deps s)
    (lc_save_deps s) (lc_load s) (lc_loads s) (lc_timer s) (lc_queue s) restores (lc_calls s) (lc_settled s) errors.

Definition lc_with_render (input : LifecycleInput) (load_deps : option (bool * bool * option nat))
    (save_deps : option (bool * option nat * bool * string)) (s : Lifecycle) : Lifecycle :=
  mkLifecycle input (lc_mounted s) (lc_restored s) (lc_lastSaved s) (lc_ready s) load_deps save_deps (lc_load s)
    (lc_loads s) (lc_timer s) (lc_queue s) (lc_restores s) (lc_calls s) (lc_settled s) (lc_errors s).

Section lifecycle.
(** [JSON.stringify]. *)
Context (stringify : WorkspaceSnapshotV1 → string).

(** ** Effects *)

(** The snapshot that is shown becomes what counts as saved. *)
Definition lc_baseline (s : Lifecycle) : Lifecycle :=
  lc_with_refs true (Some (stringify (li_snapshot (lc_input s)))) true s.

(** The first effect: load once, or take the present workspace as it is. *)
Definition restore_effect (s : Lifecycle) : Lifecycle :=
  let input := lc_input s in
  if negb (li_enabled input) || lc_restored s then s
  else
    match li_runtime input with
    | Some runtime =>
        if li_restoreOnLaunch input
        then lc_with_load (Some (length (lc_loads s))) (lc_loads s ++ [runtime]) s
        else lc_baseline s
    | None => lc_baseline s
    end.

(** The second effect: schedule a save of the snapshot of the render. [ready] and
    [serializedSnapshot] are those of the render. *)
Definition save_effect (ready : bool) (serializedSnapshot : string) (s : Lifecycle) : Lifecycle :=
  let input := lc_input s in
  match li_runtime input with
  | None => s
  | Some runtime =>
      if negb ready || negb (li_enabled input) then s
      else if decide (lc_lastSaved s = Some serializedSnapshot) then s
      else lc_with_saves (Some (mkSaveJob runtime (li_snapshot input) serializedSnapshot))
             (lc_queue s) (lc_calls s) (lc_settled s) s
  end.

(** The cleanups of the two effects. *)
Definition dispose_load (s : Lifecycle) : Lifecycle := lc_with_load None (lc_loads s) s.

Definition clear_timer (s : Lifecycle) : Lifecycle :=
  lc_with_saves None (lc_queue s) (lc_calls s) (lc_settled s) s.

(** What runs only when dependencies changed. *)
Definition run_if (changed : bool) (f : Lifecycle → Lifecycle) (s : Lifecycle) : Lifecycle :=
  if changed then f s else s.

(** A committed render: the cleanups of the effects whose dependencies changed, then
    these effects in order. *)
Definition lc_render (input : LifecycleInput) (s : Lifecycle) : Lifecycle :=
  if negb (lc_mounted s) then s
  else
    let ready := lc_ready s in
    let serializedSnapshot := stringify (li_snapshot input) in
    let load_deps := Some (li_enabled input, li_restoreOnLaunch input, li_runtime input) in
    let save_deps := Some (li_enabled input, li_runtime input, ready, serializedSnapshot) in
    let load_changed := bool_decide (lc_load_deps s ≠ load_deps) in
    let save_changed := bool_decide (lc_save_deps s ≠ save_deps) in
    let s := lc_with_render input load_deps save_deps s in
    let s := run_if save_changed clear_timer (run_if load_changed dispose_load s) in
    run_if save_changed (save_effect ready serializedSnapshot) (run_if load_changed restore_effect s).

(** How [runtime.load()] settles; [onRestore] may throw. *)
Inductive LoadResult :=
  | LoadRejected
  | LoadEnvelope (backup current : option json) (restoreThrows : bool).

Definition load_failed (s : Lifecycle) : Lifecycle :=
  lc_baseline (lc_with_log (lc_restores s) (lc_errors s ++ [OpLoad]) s).

Definition load_settled (load : nat) (result : LoadResult) (s : Lifecycle) : Lifecycle :=
  if decide (lc_load s ≠ Some load) then s
  else
    let s := lc_with_load None (lc_loads s) s in
    match result with
    | LoadRejected => load_failed s
    | LoadEnvelope backup current restoreThrows =>
        match sel_snapshot (selectWorkspaceSnapshot backup current) with
        | Some snapshot =>
            let s := lc_with_log (lc_restores s ++ [snapshot]) (lc_errors s) s in
            if restoreThrows then load_failed s
            else lc_with_refs true (Some (stringify snapshot)) true s
        | None => lc_baseline s
        end
    end.

(** The timer fires: the save joins the chain, and starts when nothing is in flight. *)
Definition timer_fired (s : Lifecycle) : Lifecycle :=
  match lc_timer s with
  | None => s
  | Some job =>
      lc_with_saves None (lc_queue s ++ [job])
        (if decide (lc_queue s = []) then lc_calls s ++ [job] else lc_calls s) (lc_settled s) s
  end.

(** The save in flight settles, and the next one of the chain starts. *)
Definition save_settled (ok : bool) (s : Lifecycle) : Lifecycle :=
  match lc_queue s with
  | [] => s
  | job :: rest =>
      let s :=
        if ok then lc_with_refs (lc_restored s) (Some (sj_serialized job)) (lc_ready s) s
        else lc_with_log (lc_restores s) (lc_errors s ++ [OpSave]) s in
      lc_with_saves (lc_timer s) rest (lc_calls s ++ take 1 rest) (lc_settled s ++ [(job, ok)]) s
  end.

(** The cleanups run; saves that joined the chain go on. *)
Definition lc_unmount (s : Lifecycle) : Lifecycle :=
  mkLifecycle (lc_input s) false (lc_restored s) (lc_lastSaved s) (lc_ready s) (lc_load_deps s) (lc_save_deps s) None
    (lc_loads s) None (lc_queue s) (lc_restores s) (lc_calls s) (lc_settled s) (lc_errors s).

Inductive LifecycleEvent :=
  | LcRender (input : LifecycleInput)
  | LcLoaded (load : nat) (result : LoadResult)
  | LcTimer
  | LcSaved (ok : bool)
  | LcUnmount.

Definition lifecycle_step (s : Lifecycle) (event : LifecycleEvent) : Lifecycle :=
  match event with
  | LcRender input => lc_render input s
  | LcLoaded load result => load_settled load result s
  | LcTimer => timer_fired s
  | LcSaved ok => save_settled ok s
  | LcUnmount => lc_unmount s
  end.

(** The hook is mounted with an input, then the events happen. *)
Definition lifecycle_run (input : LifecycleInput) (events : list LifecycleEvent) : Lifecycle :=
  foldl lifecycle_step (lc_render input (initialLifecycle input)) events.

(** ** Invariants *)

Definition job_ok (job : SaveJob) : Prop := sj_serialized job = stringify (sj_snapshot job).

(** The last save that succeeded. *)
Definition last_written (s : Lifecycle) : option SaveJob := fst <$> last (filter (λ e, e.2 = true) (lc_settled s)).

Record lifecycle_ok (s : Lifecycle) : Prop := {
  lk_ready : lc_ready s = lc_restored s;
  lk_before : lc_restored s = false →
    lc_restores s = [] ∧ lc_timer s = None ∧ lc_queue s = [] ∧ lc_calls s = [] ∧ lc_settled s = [];
  lk_load : lc_restored s = true → lc_load s = None;
  lk_restores : length (lc_restores s) ≤ 1 ∧ Forall snapshot_valid (lc_restores s);
  lk_calls : lc_calls s = (lc_settled s).*1 ++ take 1 (lc_queue s);
  lk_jobs : Forall job_ok (option_list (lc_timer s) ++ lc_queue s ++ (lc_settled s).*1);
  lk_last : ∀ job, last_written s = Some job → lc_lastSaved s = Some (sj_serialized job);
}.

(** After a render of a mounted hook the effects have run for what is rendered. *)
Record lifecycle_synced (s : Lifecycle) : Prop := {
  ls_load_deps : lc_mounted s = true → lc_load_deps s =
    Some (li_enabled (lc_input s), li_restoreOnLaunch (lc_input s), li_runtime (lc_input s));
  ls_save_deps : lc_mounted s = true → ∃ ready, lc_save_deps s =
    Some (li_enabled (lc_input s), li_runtime (lc_input s), ready, stringify (li_snapshot (lc_input s)));
  ls_pending : lc_mounted s = true → li_enabled (lc_input s) = true → lc_restored s = true ∨ is_Some (lc_load s);
  ls_unmounted : lc_mounted s = false → lc_timer s = None ∧ lc_load s = None;
}.

Lemma baseline_ok s : lifecycle_ok s → lc_restored s = false → lc_load s = None → lifecycle_ok (lc_baseline s).
Proof.
  intros [] Hr Hl. destruct (lk_before0 Hr) as (E1 & E2 & E3 & E4 & E5).
  split; cbn; [done|done|done|done|done|done|]. intros job. unfold last_written. cbn. rewrite E5. done.
Qed.

Lemma with_load_ok load loads s : lifecycle_ok s → lc_restored s = false ∨ load = None → lifecycle_ok (lc_with_load load loads s).
Proof. intros [] Hor. split; cbn; try done. intros Hr. destruct Hor; [congruence|done]. Qed.

Lemma restore_effect_ok s : lifecycle_ok s → lc_load s = None → lifecycle_ok (restore_effect s).
Proof.
  intros Hok Hl. unfold restore_effect. destruct (negb _ || lc_restored s) eqn:E; [done|].
  apply orb_false_iff in E as [_ Hr].
  destruct (li_runtime (lc_input s)); [|by apply baseline_ok]. destruct (li_restoreOnLaunch _); [|by apply baseline_ok].
  apply with_load_ok; auto.
Qed.

Lemma restore_effect_input s : lc_input (restore_effect s) = lc_input s.
Proof.
  unfold restore_effect. cbv zeta. repeat case_match; reflexivity.
Qed.

Lemma with_timer_ok timer s :
  lifecycle_ok s → (lc_restored s = false → timer = None) → Forall job_ok (option_list timer) →
  lifecycle_ok (lc_with_saves timer (lc_queue s) (lc_calls s) (lc_settled s) s).
Proof.
  intros [] Hn Ht. split; cbn; try done.
  - intros Hr. destruct (lk_before0 Hr) as (? & ? & ? & ? & ?). auto.
  - rewrite Forall_app in lk_jobs0 |- *. tauto.
Qed.

Lemma save_effect_ok ready s :
  lifecycle_ok s → (ready = true → lc_restored s = true) →
  lifecycle_ok (save_effect ready (stringify (li_snapshot (lc_input s))) s).
Proof.
  intros Hok Hready. unfold save_effect. destruct (li_runtime (lc_input s)) as [r|]; [|done].
  destruct ready; cbn; [|done]. destruct (li_enabled _); cbn; [|done]. case_decide; [done|].
  apply with_timer_ok; [done|rewrite Hready by done; done|by repeat constructor].
Qed.

Lemma run_if_ind (P : Lifecycle → Prop) b f s : (P s → P (f s)) → P s → P (run_if b f s).
Proof. destruct b; cbn; auto. Qed.

Lemma render_ok input s : lifecycle_ok s → lifecycle_ok (lc_render input s).
Proof.
  intros Hok. unfold lc_render. destruct (negb (lc_mounted s)); [done|]. cbv zeta.
  set (load_changed := bool_decide (lc_load_deps s ≠ _)). set (save_changed := bool_decide (lc_save_deps s ≠ _)).
  set (s0 := lc_with_render _ _ _ s).
  set (s1 := run_if save_changed clear_timer (run_if load_changed dispose_load s0)).
  assert (lifecycle_ok s1) as H1.
  { unfold s1. apply run_if_ind; [intros H; apply with_timer_ok; [done|done|constructor]|].
    apply run_if_ind; [intros H; apply with_load_ok; auto|]. destruct Hok. by split. }
  assert (lc_input s1 = input ∧ lc_restored s1 = lc_restored s ∧ (load_changed = true → lc_load s1 = None)) as (Hi & Hr & Hl)
    by (unfold s1; destruct save_changed, load_changed; done).
  assert (lifecycle_ok (run_if load_changed restore_effect s1)) as H2
    by (destruct load_changed; [apply restore_effect_ok; auto|done]).
  apply run_if_ind; [|done]. intros _.
  assert (lc_input (run_if load_changed restore_effect s1) = input) as Hi2.
  { rewrite <- Hi. destruct load_changed; [|done]. apply restore_effect_input. }
  rewrite <- Hi2 at 1. apply save_effect_ok; [done|]. intros Hready. rewrite (lk_ready _ Hok) in Hready.
  destruct load_changed; cbn; [|congruence]. unfold restore_effect. rewrite Hr, Hready, orb_true_r. congruence.
Qed.

Lemma log_ok restores errors s :
  lifecycle_ok s → lc_restored s = true ∨ restores = [] → length restores ≤ 1 → Forall snapshot_valid restores →
  lifecycle_ok (lc_with_log restores errors s).
Proof. intros [] Hor Hlen Hv. split; cbn; try done. intros Hr. destruct Hor; [congruence|]. naive_solver. Qed.

(** Leaving the launch phase: what was restored, and what counts as saved. *)
Lemma launched_ok restores errors lastSaved s :
  lifecycle_ok s → lc_restored s = false → length restores ≤ 1 → Forall snapshot_valid restores →
  lifecycle_ok (lc_with_refs true lastSaved true (lc_with_log restores errors (lc_with_load None (lc_loads s) s))).
Proof.
  intros [] Hr Hlen Hv. destruct (lk_before0 Hr) as (E1 & E2 & E3 & E4 & E5). split; cbn; try done.
  intros job. unfold last_written. cbn. rewrite E5. done.
Qed.

Lemma select_valid backup current snapshot :
  sel_snapshot (selectWorkspaceSnapshot backup current) = Some snapshot → snapshot_valid snapshot.
Proof.
  unfold selectWorkspaceSnapshot. repeat case_match; cbn; intros [= <-]; by eapply decode_inr_valid.
Qed.

Lemma load_settled_ok load result s : lifecycle_ok s → lifecycle_ok (load_settled load result s).
Proof.
  intros Hok. unfold load_settled. case_decide as Hl; [done|].
  assert (lc_restored s = false) as Hr.
  { destruct (lc_restored s) eqn:E; [|done]. pose proof (lk_load _ Hok E). congruence. }
  destruct (lk_before _ Hok Hr) as (E1 & _). cbv zeta.
  assert (length (lc_restores s) ≤ 1 ∧ Forall snapshot_valid (lc_restores s)) as [Hn Hv]
    by (rewrite E1; split; [cbn; lia|constructor]).
  destruct result as [|backup current throws]; [by apply launched_ok|].
  destruct (sel_snapshot _) as [snapshot|] eqn:Es; [|by apply (launched_ok (lc_restores s) (lc_errors s))].
  apply select_valid in Es.
  assert (Forall snapshot_valid (lc_restores s ++ [snapshot]) ∧ length (lc_restores s ++ [snapshot]) ≤ 1) as [Hv1 Hn1]
    by (rewrite E1; split; [apply Forall_cons; split; [done|constructor]|cbn; lia]).
  by destruct throws; apply launched_ok.
Qed.

Lemma timer_fired_ok s : lifecycle_ok s → lifecycle_ok (timer_fired s).
Proof.
  intros Hok. unfold timer_fired. destruct (lc_timer s) as [job|] eqn:Et; [|done].
  destruct Hok. rewrite Et in *. split; cbn; try done.
  - intros Hr. destruct (lk_before0 Hr) as (_ & ? & _). congruence.
  - rewrite lk_calls0. destruct (lc_queue s) as [|j l]; cbn; [by rewrite app_nil_r|done].
  - rewrite <- app_assoc. cbn in lk_jobs0. apply Forall_cons in lk_jobs0 as [? [??]%Forall_app].
    rewrite !Forall_app. split_and!; [done| |done]. by repeat constructor.
Qed.

Lemma last_written_snoc s s' job ok :
  lc_settled s' = lc_settled s ++ [(job, ok)] →
  last_written s' = if ok then Some job else last_written s.
Proof.
  intros E. unfold last_written. rewrite E, filter_app. destruct ok.
  - by rewrite filter_cons_True, filter_nil, last_snoc.
  - by rewrite filter_cons_False, filter_nil, app_nil_r.
Qed.

Lemma save_settled_ok ok s : lifecycle_ok s → lifecycle_ok (save_settled ok s).
Proof.
  intros Hok. unfold save_settled. destruct (lc_queue s) as [|job rest] eqn:Eq; [done|].
  destruct Hok. rewrite Eq in *.
  assert (lc_restored s = true) as Hr.
  { destruct (lc_restored s) eqn:E; [done|]. by destruct (lk_before0 eq_refl) as (_ & _ & ? & _). }
  assert (lc_calls s ++ take 1 rest = (lc_settled s ++ [(job, ok)]).*1 ++ take 1 rest) as Hcalls
    by (by rewrite lk_calls0, fmap_app).
  assert (Forall job_ok (option_list (lc_timer s) ++ rest ++ (lc_settled s ++ [(job, ok)]).*1)) as Hjobs.
  { rewrite !Forall_app, Forall_cons in lk_jobs0. rewrite fmap_app, !Forall_app. cbn. rewrite Forall_singleton. tauto. }
  assert (∀ s', lc_settled s' = lc_settled s ++ [(job, ok)] → ∀ job', last_written s' = Some job' →
    (if ok then Some (sj_serialized job) else lc_lastSaved s) = Some (sj_serialized job')) as Hlast.
  { intros s' E job' Hjob. rewrite (last_written_snoc s s' job ok E) in Hjob. destruct ok; [congruence|auto]. }
  destruct ok; (split; [..|by apply Hlast]); cbn; try done; intros ?; congruence.
Qed.

Lemma unmount_ok s : lifecycle_ok s → lifecycle_ok (lc_unmount s).
Proof.
  intros []. split; cbn; try done.
  - intros Hr. destruct (lk_before0 Hr) as (? & ? & ? & ? & ?). auto.
  - rewrite Forall_app in lk_jobs0. tauto.
Qed.

Lemma lifecycle_step_ok s e : lifecycle_ok s → lifecycle_ok (lifecycle_step s e).
Proof. destruct e; cbn; auto using render_ok, load_settled_ok, timer_fired_ok, save_settled_ok, unmount_ok. Qed.

Lemma initial_ok input : lifecycle_ok (initialLifecycle input).
Proof. split; cbn; try done. split; [lia|constructor]. Qed.

Lemma lifecycle_foldl_ok s events : lifecycle_ok s → lifecycle_ok (foldl lifecycle_step s events).
Proof. revert s. induction events as [|e es IH]; intros s Hs; [done|]. by apply IH, lifecycle_step_ok. Qed.

Lemma lifecycle_run_ok input events : lifecycle_ok (lifecycle_run input events).
Proof. apply lifecycle_foldl_ok, render_ok, initial_ok. Qed.

Lemma restore_effect_pending s :
  li_enabled (lc_input s) = true → lc_restored (restore_effect s) = true ∨ is_Some (lc_load (restore_effect s)).
Proof.
  intros He. unfold restore_effect. rewrite He. cbn. destruct (lc_restored s) eqn:Er; [by left|].
  destruct (li_runtime _); [|by left]. destruct (li_restoreOnLaunch _); [|by left]. right. by eexists.
Qed.

Lemma restore_effect_frame s :
  lc_mounted (restore_effect s) = lc_mounted s ∧ lc_load_deps (restore_effect s) = lc_load_deps s ∧
  lc_save_deps (restore_effect s) = lc_save_deps s ∧ lc_input (restore_effect s) = lc_input s.
Proof. unfold restore_effect. cbv zeta. repeat case_match; done. Qed.

Lemma save_effect_frame ready ser s :
  lc_mounted (save_effect ready ser s) = lc_mounted s ∧ lc_load_deps (save_effect ready ser s) = lc_load_deps s ∧
  lc_save_deps (save_effect ready ser s) = lc_save_deps s ∧ lc_input (save_effect ready ser s) = lc_input s ∧
  lc_restored (save_effect ready ser s) = lc_restored s ∧ lc_load (save_effect ready ser s) = lc_load s.
Proof. unfold save_effect. cbv zeta. repeat case_match; done. Qed.

Lemma render_synced input s :
  (lc_mounted s = false → lc_timer s = None ∧ lc_load s = None) →
  (lc_mounted s = true → lc_load_deps s = Some (li_enabled input, li_restoreOnLaunch input, li_runtime input) →
    li_enabled input = true → lc_restored s = true ∨ is_Some (lc_load s)) →
  lifecycle_synced (lc_render input s).
Proof.
  intros Hu Hp. unfold lc_render. destruct (lc_mounted s) eqn:Em; cbn [negb]; [|split; rewrite ?Em; try done; auto].
  cbv zeta. set (load_changed := bool_decide (lc_load_deps s ≠ _)). set (save_changed := bool_decide (lc_save_deps s ≠ _)).
  set (s0 := lc_with_render _ _ _ s).
  set (s1 := run_if save_changed clear_timer (run_if load_changed dispose_load s0)).
  assert (lc_mounted s1 = true ∧ lc_load_deps s1 = lc_load_deps s0 ∧ lc_save_deps s1 = lc_save_deps s0 ∧
    lc_input s1 = input ∧ lc_restored s1 = lc_restored s ∧ (load_changed = false → lc_load s1 = lc_load s)) as (Hm & Hd1 & Hd2 & Hi & Hr & Hl)
    by (unfold s1; destruct save_changed, load_changed; done).
  destruct (restore_effect_frame s1) as (F1 & F2 & F3 & F4).
  set (s2 := run_if load_changed restore_effect s1).
  assert (lc_mounted s2 = true ∧ lc_load_deps s2 = lc_load_deps s0 ∧ lc_save_deps s2 = lc_save_deps s0 ∧
    lc_input s2 = input) as (Hm2 & Hd12 & Hd22 & Hi2)
    by (unfold s2; destruct load_changed; cbn; rewrite ?F1, ?F2, ?F3, ?F4; done).
  assert (li_enabled input = true → lc_restored s2 = true ∨ is_Some (lc_load s2)) as Hp2.
  { unfold s2, load_changed in *. case_bool_decide as Hc; cbn; intros He.
    - apply restore_effect_pending. by rewrite Hi.
    - rewrite Hr, Hl by done. by apply Hp. }
  assert (∀ s3, lc_mounted s3 = lc_mounted s2 → lc_load_deps s3 = lc_load_deps s2 → lc_save_deps s3 = lc_save_deps s2 →
    lc_input s3 = lc_input s2 → lc_restored s3 = lc_restored s2 → lc_load s3 = lc_load s2 → lifecycle_synced s3) as Hall.
  { intros s3 E1 E2 E3 E4 E5 E6. split; intros Hm3; rewrite ?E1, ?E2, ?E3, ?E4, ?E5, ?E6, ?Hi2, ?Hd12, ?Hd22 in *; try done.
    - by eexists.
    - congruence. }
  destruct (save_effect_frame (lc_ready s) (stringify (li_snapshot input)) s2) as (G1 & G2 & G3 & G4 & G5 & G6).
  destruct save_changed; by apply Hall.
Qed.

Lemma load_settled_synced load result s : lifecycle_synced s → lifecycle_synced (load_settled load result s).
Proof.
  intros []. unfold load_settled, load_failed. case_decide; [done|].
  repeat case_match; split; cbn; try done; try (by left); naive_solver.
Qed.

Lemma lifecycle_step_synced s e : lifecycle_synced s → lifecycle_synced (lifecycle_step s e).
Proof.
  intros Hs. destruct e as [input|load result| |ok|]; cbn.
  - apply render_synced; [apply Hs|]. intros Hm Hd He. destruct Hs. rewrite (ls_load_deps0 Hm) in Hd.
    injection Hd as E1 E2 E3. apply ls_pending0; congruence.
  - by apply load_settled_synced.
  - unfold timer_fired. case_match; [|done]. destruct Hs. split; cbn; try done. naive_solver.
  - unfold save_settled. repeat case_match; destruct Hs; split; done.
  - destruct Hs. split; cbn; done.
Qed.

Lemma lifecycle_run_synced input events : lifecycle_synced (lifecycle_run input events).
Proof.
  unfold lifecycle_run. assert (lifecycle_synced (lc_render input (initialLifecycle input))) as H0
    by by apply render_synced. revert H0. generalize (lc_render input (initialLifecycle input)).
  induction events as [|e es IH]; intros s Hs; [done|]. by apply IH, lifecycle_step_synced.
Qed.

(** ** A changed snapshot is saved *)

(** Rendering a changed snapshot once the launch is over schedules its save, unless it
    is what was saved last. *)
Lemma render_schedules input s runtime ready :
  lc_mounted s = true → lc_restored s = true → lc_ready s = true →
  li_enabled input = true → li_runtime input = Some runtime →
  lc_save_deps s = Some (li_enabled (lc_input s), li_runtime (lc_input s), ready, stringify (li_snapshot (lc_input s))) →
  stringify (li_snapshot input) ≠ stringify (li_snapshot (lc_input s)) →
  let s' := lc_render input s in
  let serialized := stringify (li_snapshot input) in
  lc_timer s' = (if decide (lc_lastSaved s = Some serialized) then None
                 else Some (mkSaveJob runtime (li_snapshot input) serialized)) ∧
  lc_lastSaved s' = lc_lastSaved s ∧ lc_queue s' = lc_queue s ∧ lc_settled s' = lc_settled s.
Proof.
  intros Hm Hr Hready He Hrt Hd Hne. cbv zeta. unfold lc_render. rewrite Hm, Hready. cbn [negb]. cbv zeta.
  set (load_changed := bool_decide (lc_load_deps s ≠ _)).
  rewrite (bool_decide_true (lc_save_deps s ≠ _)) by (rewrite Hd; congruence). cbn [run_if].
  set (s0 := lc_with_render _ _ _ s). set (s1 := clear_timer (run_if load_changed dispose_load s0)).
  assert (lc_input s1 = input ∧ lc_restored s1 = true ∧ lc_lastSaved s1 = lc_lastSaved s ∧ lc_queue s1 = lc_queue s ∧
    lc_settled s1 = lc_settled s ∧ lc_timer s1 = None) as (Hi & Hr1 & Hl & Hq & Hs & Ht)
    by (unfold s1; destruct load_changed; done).
  assert (run_if load_changed restore_effect s1 = s1) as ->.
  { destruct load_changed; [|done]. cbn. unfold restore_effect. by rewrite Hr1, orb_true_r. }
  unfold save_effect. rewrite Hi, Hrt, He, Hl. cbn. case_decide; done.
Qed.

(** The saves of the chain succeed one after the other. *)
Lemma drain_saves n s :
  length (lc_queue s) ≤ n →
  let s' := foldl lifecycle_step s (replicate n (LcSaved true)) in
  lc_queue s' = [] ∧ lc_timer s' = lc_timer s ∧ lc_settled s' = lc_settled s ++ ((., true) <$> lc_queue s) ∧
  lc_lastSaved s' = match last (lc_queue s) with Some job => Some (sj_serialized job) | None => lc_lastSaved s end.
Proof.
  revert s. induction n as [|n IH]; intros s Hn; cbv zeta.
  { destruct (lc_queue s) eqn:E; [|cbn in Hn; lia]. cbn. by rewrite E, app_nil_r. }
  cbn [replicate foldl lifecycle_step]. destruct (lc_queue s) as [|job rest] eqn:Eq.
  - assert (save_settled true s = s) as -> by (unfold save_settled; by rewrite Eq).
    destruct (IH s) as (H1 & H2 & H3 & H4); [rewrite Eq; cbn; lia|]. cbv zeta in *. rewrite Eq in *. done.
  - assert (lc_queue (save_settled true s) = rest ∧ lc_timer (save_settled true s) = lc_timer s ∧
      lc_settled (save_settled true s) = lc_settled s ++ [(job, true)] ∧
      lc_lastSaved (save_settled true s) = Some (sj_serialized job)) as (E1 & E2 & E3 & E4)
      by (unfold save_settled; by rewrite Eq).
    destruct (IH (save_settled true s)) as (H1 & H2 & H3 & H4); [rewrite E1; cbn in Hn; lia|].
    cbv zeta in *. rewrite E1, E2, E3, E4 in *. split_and!; [done|done| |].
    + rewrite H3, <- app_assoc. done.
    + rewrite H4. rewrite last_cons. by destruct (last rest).
Qed.

(** The steps by which a snapshot that is shown gets saved: its render, the timer, and
    the saves of the chain. *)
Definition save_round (input : LifecycleInput) (s : Lifecycle) : list LifecycleEvent :=
  LcRender input :: LcTimer :: replicate (S (length (lc_queue s))) (LcSaved true).

Lemma save_round_saves input s runtime :
  lifecycle_ok s → lifecycle_synced s → lc_mounted s = true → lc_restored s = true →
  li_enabled input = true → li_runtime input = Some runtime →
  stringify (li_snapshot input) ≠ stringify (li_snapshot (lc_input s)) →
  lc_lastSaved s ≠ Some (stringify (li_snapshot input)) →
  let s' := foldl lifecycle_step s (save_round input s) in
  lc_timer s' = None ∧ lc_queue s' = [] ∧ lc_lastSaved s' = Some (stringify (li_snapshot input)) ∧
  last_written s' = Some (mkSaveJob runtime (li_snapshot input) (stringify (li_snapshot input))).
Proof.
  intros Hok Hsy Hm Hr He Hrt Hne Hl. cbv zeta.
  destruct (ls_save_deps _ Hsy Hm) as (ready & Hd). pose proof (lk_ready _ Hok) as Hready. rewrite Hr in Hready.
  destruct (render_schedules input s runtime ready Hm Hr Hready He Hrt Hd Hne) as (R1 & R2 & R3 & R4).
  cbv zeta in *. rewrite decide_False in R1 by done.
  unfold save_round. cbn [foldl lifecycle_step]. set (job := mkSaveJob _ _ _) in *.
  set (s1 := lc_render input s) in *.
  assert (lc_queue (timer_fired s1) = lc_queue s ++ [job] ∧ lc_timer (timer_fired s1) = None ∧
    lc_settled (timer_fired s1) = lc_settled s) as (T1 & T2 & T3)
    by (unfold timer_fired; rewrite R1; cbn; by rewrite R3, R4).
  destruct (drain_saves (S (length (lc_queue s))) (timer_fired s1)) as (D1 & D2 & D3 & D4);
    [rewrite T1, length_app; cbn; lia|].
  cbv zeta in *. rewrite T1, T2, T3, last_snoc in *. split_and!; [done..|].
  unfold last_written. rewrite D3, fmap_app. cbn. rewrite app_assoc, filter_app.
  by rewrite filter_cons_True, filter_nil, last_snoc.
Qed.

(** Showing what was saved last schedules nothing. *)
Lemma render_saved input s :
  lc_restored s = true → lc_timer s = None → lc_lastSaved s = Some (stringify (li_snapshot input)) →
  lc_timer (lc_render input s) = None.
Proof.
  intros Hr Ht Hl. unfold lc_render. destruct (negb (lc_mounted s)); [done|]. cbv zeta.
  set (load_changed := bool_decide (lc_load_deps s ≠ _)). set (save_changed := bool_decide (lc_save_deps s ≠ _)).
  set (s1 := run_if save_changed clear_timer _).
  assert (lc_restored s1 = true ∧ lc_timer s1 = None ∧ lc_lastSaved s1 = lc_lastSaved s) as (Hr1 & Ht1 & Hl1)
    by (unfold s1; destruct load_changed, save_changed; done).
  assert (run_if load_changed restore_effect s1 = s1) as ->.
  { destruct load_changed; [|done]. cbn. unfold restore_effect. by rewrite Hr1, orb_true_r. }
  apply run_if_ind; [|done]. intros _. unfold save_effect. rewrite Hl1, Hl. by repeat case_match.
Qed.

(** A launch that loads a valid snapshot restores it, and showing it saves nothing. *)
Lemma relaunch_restores input runtime backup snapshot :
  snapshot_valid snapshot → li_enabled input = true → li_restoreOnLaunch input = true → li_runtime input = Some runtime →
  let t := lifecycle_run input [LcLoaded 0 (LoadEnvelope backup (Some (to_json snapshot)) false)] in
  lc_restores t = [snapshot] ∧ lc_calls t = [] ∧
  ∀ shown, stringify (li_snapshot shown) = stringify snapshot → lc_timer (lc_render shown t) = None.
Proof.
  intros Hv He Hr Hrt. cbv zeta. unfold lifecycle_run. cbn [foldl lifecycle_step].
  set (s := lc_render input (initialLifecycle input)).
  assert (s = lc_with_load (Some 0) [runtime]
    (lc_with_render input (Some (true, true, Some runtime))
      (Some (true, Some runtime, false, stringify (li_snapshot input))) (initialLifecycle input))) as ->.
  { unfold s, lc_render. cbn [initialLifecycle lc_mounted negb lc_load_deps lc_save_deps]. cbv zeta.
    rewrite !bool_decide_true by done. destruct input. cbn in He, Hr, Hrt. by subst. }
  unfold load_settled. cbn [lc_load lc_with_load]. rewrite decide_False by (intros H; by apply H). cbv zeta.
  assert (sel_snapshot (selectWorkspaceSnapshot backup (Some (to_json snapshot))) = Some snapshot) as ->.
  { unfold selectWorkspaceSnapshot. cbn [present to_json]. fold (to_json snapshot). by rewrite (decode_to_json _ Hv). }
  split_and!; [done|done|]. intros shown Hshown. apply render_saved; [done|done|]. cbn. by rewrite Hshown.
Qed.

(** ** Properties *)

(** The launch. Whatever is rendered, loaded or thrown, the saved workspace is
    restored at most once and only as a valid snapshot; nothing is saved before that is
    settled, so a launch never overwrites the saved workspace with an empty one; a
    mounted and enabled hook has either settled the launch or a load that still counts;
    and an unmounted one neither loads nor waits to save. *)
Theorem lifecycle_launch_safe input events :
  let s := lifecycle_run input events in
  length (lc_restores s) ≤ 1 ∧ Forall snapshot_valid (lc_restores s) ∧
  (lc_restored s = false → lc_calls s = [] ∧ lc_timer s = None) ∧
  (lc_mounted s = true → li_enabled (lc_input s) = true → lc_restored s = true ∨ is_Some (lc_load s)) ∧
  (lc_mounted s = false → lc_timer s = None ∧ lc_load s = None).
Proof.
  cbv zeta. pose proof (lifecycle_run_ok input events) as [Hready Hbefore _ [Hn Hv] _ _ _].
  pose proof (lifecycle_run_synced input events) as [_ _ Hp Hu]. split_and!; [done..| |done|done].
  intros Hr. by destruct (Hbefore Hr) as (_ & ? & _ & ? & _).
Qed.

(** Saves are serial. The calls of the backend are the saves that settled, in the
    order in which they settled, and at most one more that is in flight, so an older
    layout never overwrites a newer one; each call passes the snapshot whose text it
    was compared by; and what counts as saved is the last save that succeeded. *)
Theorem lifecycle_saves_in_order input events :
  let s := lifecycle_run input events in
  lc_calls s = (lc_settled s).*1 ++ take 1 (lc_queue s) ∧
  Forall (λ job, sj_serialized job = stringify (sj_snapshot job)) (lc_calls s) ∧
  (∀ job, fst <$> last (filter (λ e, e.2 = true) (lc_settled s)) = Some job →
    lc_lastSaved s = Some (stringify (sj_snapshot job))).
Proof.
  cbv zeta. pose proof (lifecycle_run_ok input events) as [_ _ _ _ Hc Hj Hl]. set (s := lifecycle_run input events) in *.
  rewrite !Forall_app in Hj. destruct Hj as (_ & Hq & Hs). split_and!; [done| |].
  - rewrite Hc. apply Forall_app. split; [done|]. by apply Forall_take.
  - intros job Hjob. rewrite (Hl job Hjob). f_equal.
    destruct (last (filter (λ e, e.2 = true) (lc_settled s))) as [[j ok]|] eqn:El; [|done]. injection Hjob as ->.
    apply last_Some_elem_of, list_elem_of_filter in El as [_ El]. rewrite Forall_forall in Hs.
    apply (Hs job). apply list_elem_of_fmap. by exists (job, ok).
Qed.

(** C14: a workspace survives a restart. When a changed workspace within the bounds of
    the format is shown after the launch and is not what was saved last, then the timer
    and the settled saves leave it as the last one written and nothing to do; and a
    later launch that loads what was written restores exactly this workspace, saves
    nothing, and schedules no save when it is shown as it was. *)
Theorem workspace_survives_restart start events input runtime p c :
  let s := lifecycle_run start events in
  lc_mounted s = true → lc_restored s = true →
  li_enabled input = true → li_runtime input = Some runtime → li_snapshot input = toSnapshot p c →
  workspace_bounded p c →
  stringify (li_snapshot input) ≠ stringify (li_snapshot (lc_input s)) →
  lc_lastSaved s ≠ Some (stringify (li_snapshot input)) →
  let s' := foldl lifecycle_step s (save_round input s) in
  lc_timer s' = None ∧ lc_queue s' = [] ∧
  ∃ job, last_written s' = Some job ∧
    ∀ launch runtime' backup, li_enabled launch = true → li_restoreOnLaunch launch = true →
      li_runtime launch = Some runtime' →
      let t := lifecycle_run launch [LcLoaded 0 (LoadEnvelope backup (Some (to_json (sj_snapshot job))) false)] in
      lc_restores t = [toSnapshot p c] ∧ lc_calls t = [] ∧
      ∀ shown, stringify (li_snapshot shown) = stringify (toSnapshot p c) → lc_timer (lc_render shown t) = None.
Proof.
  cbv zeta. intros Hm Hr He Hrt Hsnap Hb Hne Hl.
  destruct (save_round_saves input _ runtime (lifecycle_run_ok start events) (lifecycle_run_synced start events)
    Hm Hr He Hrt Hne Hl) as (H1 & H2 & _ & H4).
  cbv zeta in *. split_and!; [done|done|]. eexists. split; [exact H4|]. cbn [sj_snapshot]. rewrite Hsnap.
  intros. eapply relaunch_restores; [by apply toSnapshot_valid|done..].
Qed.
End lifecycle.

(** ** Samples *)

Definition demo_stringify (s : WorkspaceSnapshotV1) : string := if sn_collapsed s then "collapsed" else "open".

Definition demo_snapshot (collapsed : bool) : WorkspaceSnapshotV1 :=
  mkSnapshotV1 (Some "home") [] true None [] [] None collapsed ViewSessions.

Definition demo_input (restore : bool) (snapshot : WorkspaceSnapshotV1) : LifecycleInput :=
  mkLifecycleInput true restore snapshot (Some 0).

Lemma workspace_survives_restart_witness :
  let s := lifecycle_run demo_stringify (demo_input false (demo_snapshot true)) [] in
  let input := demo_input false (toSnapshot snap_pointers snap_collections) in
  let s' := foldl (lifecycle_step demo_stringify) s (save_round input s) in
  lc_timer s' = None ∧ lc_queue s' = [].
Proof.
  edestruct (workspace_survives_restart demo_stringify (demo_input false (demo_snapshot true)) []
    (demo_input false (toSnapshot snap_pointers snap_collections)) 0 snap_pointers snap_collections)
    as (H1 & H2 & _); [reflexivity|reflexivity|reflexivity|reflexivity|reflexivity|exact snap_bounded| | |].
  - vm_compute. discriminate.
  - vm_compute. discriminate.
  - cbv zeta. split; [exact H1|exact H2].
Defined.

(** A save of an older snapshot that settles late counts as the last one although the
    newer one was shown again meanwhile; then what is stored is not what is shown, and
    showing it again schedules nothing. *)
Lemma late_save_wins :
  let shows x := LcRender (demo_input false (demo_snapshot x)) in
  let s := lifecycle_run demo_stringify (demo_input false (demo_snapshot false))
    [shows false; shows true; LcTimer; shows false; LcSaved true; shows false] in
  (li_snapshot (lc_input s), sj_snapshot <$> last_written s, lc_timer s, lc_queue s) =
  (demo_snapshot false, Some (demo_snapshot true), None, []).
Proof. vm_compute. reflexivity. Qed.
