(* ===== verification/ShortcutKeys.v ===== *)
(** * Shortcut keys ([features/shortcuts/shortcutKeys.ts])

    Parsing, normalising and matching key bindings. Strings are ASCII: case
    conversion and trimming act on the ASCII letters and blanks only. The plain
    objects that the source indexes inherit from [Object.prototype], so the two
    lower-case names it holds ([constructor], [__proto__]) are found as modifiers
    that set no flag of the binding. *)

From S2P Require Import Prelude.
From stdpp Require Import pretty.
From Stdlib Require Import Lia Strings.Ascii.

(** ** Strings *)

Definition js_is_space (c : Ascii.ascii) : bool :=
  let n := Ascii.nat_of_ascii c in (n =? 32) || (9 <=? n) && (n <=? 13).

Fixpoint trim_start (s : string) : string :=
  match s with
  | String c s' => if js_is_space c then trim_start s' else s
  | EmptyString => ""
  end.

Fixpoint trim_end (s : string) : string :=
  match s with
  | String c s' =>
      let r := trim_end s' in
      if js_is_space c && String.eqb r "" then "" else String c r
  | EmptyString => ""
  end.

Definition js_trim (s : string) : string := trim_end (trim_start s).

Definition lower_char (c : Ascii.ascii) : Ascii.ascii :=
  let n := Ascii.nat_of_ascii c in
  if (65 <=? n) && (n <=? 90) then Ascii.ascii_of_nat (n + 32) else c.
Definition upper_char (c : Ascii.ascii) : Ascii.ascii :=
  let n := Ascii.nat_of_ascii c in
  if (97 <=? n) && (n <=? 122) then Ascii.ascii_of_nat (n - 32) else c.

Fixpoint map_string (f : Ascii.ascii → Ascii.ascii) (s : string) : string :=
  match s with String c s' => String (f c) (map_string f s') | EmptyString => "" end.

Definition toLowerCase : string → string := map_string lower_char.
Definition toUpperCase : string → string := map_string upper_char.

(** [s.split(sep)] for a one-character separator. *)
Fixpoint js_split (sep : Ascii.ascii) (s : string) : list string :=
  match s with
  | EmptyString => [""]
  | String c s' =>
      if Ascii.eqb c sep then "" :: js_split sep s'
      else match js_split sep s' with
           | x :: xs => String c x :: xs
           | [] => [String c ""]
           end
  end.

(** ** Bindings *)

Record ParsedShortcutBinding := mkKeyBinding {
  kb_alt : bool;
  kb_ctrl : bool;
  kb_key : string;
  kb_meta : bool;
  kb_shift : bool;
}.

#[export] Instance ParsedShortcutBinding_eq_dec : EqDecision ParsedShortcutBinding.
Proof. solve_decision. Defined.

Inductive Modifier := ModAlt | ModCtrl | ModMeta | ModShift | ModInherited.

Definition modifier_table : jsmap Modifier :=
  [("alt", ModAlt); ("control", ModCtrl); ("ctrl", ModCtrl); ("cmd", ModMeta);
   ("command", ModMeta); ("meta", ModMeta); ("option", ModAlt); ("shift", ModShift);
   ("super", ModMeta); ("win", ModMeta);
   ("constructor", ModInherited); ("__proto__", ModInherited)].

Definition modifierAliases (key : string) : option Modifier := jsmap_get key modifier_table.

Definition key_alias_table : jsmap string :=
  [("arrowdown", "ArrowDown"); ("arrowleft", "ArrowLeft"); ("arrowright", "ArrowRight");
   ("arrowup", "ArrowUp"); ("backspace", "Backspace"); ("comma", ","); ("delete", "Delete");
   ("del", "Delete"); ("down", "ArrowDown"); ("enter", "Enter"); ("esc", "Escape");
   ("escape", "Escape"); ("left", "ArrowLeft"); ("minus", "-"); ("period", "."); ("plus", "+");
   ("right", "ArrowRight"); ("space", "Space"); ("tab", "Tab"); ("up", "ArrowUp")].

Definition keyAliases (key : string) : option string := jsmap_get key key_alias_table.

Definition keyboardModifierKeys : list string := ["Alt"; "AltGraph"; "Control"; "Meta"; "Shift"].

(** [/^f([1-9]|1[0-9]|2[0-4])$/i], on the lower-case name. *)
Definition function_keys : list string := (λ n : nat, "f" +:+ pretty n) <$> seq 1 24.

Definition normalizeShortcutKey (key : string) : string :=
  let trimmed := js_trim key in
  if String.eqb trimmed "" then ""
  else
    let lower := toLowerCase trimmed in
    match keyAliases lower with
    | Some alias => alias
    | None =>
        if bool_decide (lower ∈ function_keys) then toUpperCase trimmed
        else if String.length trimmed =? 1 then toUpperCase trimmed
        else trimmed
    end.

Definition set_modifier (m : Modifier) (b : ParsedShortcutBinding) : ParsedShortcutBinding :=
  match m with
  | ModAlt => mkKeyBinding true (kb_ctrl b) (kb_key b) (kb_meta b) (kb_shift b)
  | ModCtrl => mkKeyBinding (kb_alt b) true (kb_key b) (kb_meta b) (kb_shift b)
  | ModMeta => mkKeyBinding (kb_alt b) (kb_ctrl b) (kb_key b) true (kb_shift b)
  | ModShift => mkKeyBinding (kb_alt b) (kb_ctrl b) (kb_key b) (kb_meta b) true
  | ModInherited => b
  end.

Definition set_key (k : string) (b : ParsedShortcutBinding) : ParsedShortcutBinding :=
  mkKeyBinding (kb_alt b) (kb_ctrl b) k (kb_meta b) (kb_shift b).

(** The loop over the parts. *)
Fixpoint parse_parts (parts : list string) (b : ParsedShortcutBinding) :
    option ParsedShortcutBinding :=
  match parts with
  | [] => Some b
  | part :: parts =>
      match modifierAliases (toLowerCase part) with
      | Some m => parse_parts parts (set_modifier m b)
      | None =>
          if negb (String.eqb (kb_key b) "") then None
          else parse_parts parts (set_key (normalizeShortcutKey part) b)
      end
  end.

Definition shortcut_parts (value : string) : list string :=
  filter (λ part, part ≠ "") (js_trim <$> js_split "+"%char value).

Definition parseShortcutBinding (value : option string) : option ParsedShortcutBinding :=
  match value with
  | None => None
  | Some value =>
      let parts := shortcut_parts value in
      if bool_decide (parts = []) then None
      else match parse_parts parts (mkKeyBinding false false "" false false) with
           | Some b => if String.eqb (kb_key b) "" then None else Some b
           | None => None
           end
  end.

Definition modifier_labels (b : ParsedShortcutBinding) : list string :=
  (if kb_ctrl b then ["Ctrl"] else []) ++ (if kb_shift b then ["Shift"] else []) ++
  (if kb_alt b then ["Alt"] else []) ++ (if kb_meta b then ["Meta"] else []).

Definition serializeShortcutBinding (b : ParsedShortcutBinding) : string :=
  String.concat "+" (modifier_labels b ++ [kb_key b]).

Definition normalizeShortcutBinding (value : option string) : option string :=
  serializeShortcutBinding <$> parseShortcutBinding value.

(** [unset] is the label of a missing binding. *)
Definition formatShortcutBinding (unset : string) (value : option string) : string :=
  match normalizeShortcutBinding value with
  | Some normalized => String.concat " + " (js_split "+"%char normalized)
  | None => unset
  end.

Definition isPlainPrintableShortcut (value : option string) : bool :=
  match parseShortcutBinding value with
  | Some b =>
      negb (kb_alt b) && negb (kb_ctrl b) && negb (kb_meta b) && negb (kb_shift b) &&
      (String.length (kb_key b) =? 1)
  | None => false
  end.

(** ** Keyboard events *)

Record KeyboardEvent := mkKeyEvent {
  ke_altKey : bool;
  ke_ctrlKey : bool;
  ke_key : string;
  ke_metaKey : bool;
  ke_shiftKey : bool;
}.

Definition shortcutBindingFromKeyboardEvent (event : KeyboardEvent) : option string :=
  if bool_decide (ke_key event ∈ keyboardModifierKeys) then None
  else Some (serializeShortcutBinding
    (mkKeyBinding (ke_altKey event) (ke_ctrlKey event) (normalizeShortcutKey (ke_key event))
       (ke_metaKey event) (ke_shiftKey event))).

Definition keyboardEventMatchesShortcut (event : KeyboardEvent) (value : option string) : bool :=
  match parseShortcutBinding value with
  | None => false
  | Some b =>
      if bool_decide (ke_key event ∈ keyboardModifierKeys) then false
      else
        Bool.eqb (ke_altKey event) (kb_alt b) && Bool.eqb (ke_ctrlKey event) (kb_ctrl b) &&
        Bool.eqb (ke_metaKey event) (kb_meta b) && Bool.eqb (ke_shiftKey event) (kb_shift b) &&
        String.eqb (normalizeShortcutKey (ke_key event)) (kb_key b)
  end.

(** ** Lemmas: strings *)

Fixpoint no_char (c : ascii) (s : string) : bool :=
  match s with
  | EmptyString => true
  | String d s' => negb (Ascii.eqb d c) && no_char c s'
  end.

Lemma js_split_no_char c s : Forall (λ p, no_char c p = true) (js_split c s).
Proof.
  induction s as [|d s IH]; cbn; [by repeat constructor|].
  destruct (Ascii.eqb d c) eqn:E; [by constructor|].
  destruct (js_split c s) as [|p ps]; [by repeat constructor; cbn; rewrite E|].
  apply Forall_cons in IH as [Hp Hps]. constructor; [|done]. cbn. by rewrite E.
Qed.

Lemma js_split_id c s : no_char c s = true → js_split c s = [s].
Proof.
  induction s as [|d s IH]; cbn; [done|].
  intros [Hd Hs]%andb_true_iff. apply negb_true_iff in Hd. by rewrite Hd, IH.
Qed.

Lemma js_split_app c s t :
  no_char c s = true → js_split c (s +:+ String c t) = s :: js_split c t.
Proof.
  induction s as [|d s IH]; simpl; [by rewrite Ascii.eqb_refl|].
  intros [Hd Hs]%andb_true_iff. apply negb_true_iff in Hd. by rewrite Hd, IH.
Qed.

Lemma js_split_concat c l :
  l ≠ [] → Forall (λ p, no_char c p = true) l → js_split c (String.concat (String c "") l) = l.
Proof.
  induction l as [|s [|t l] IH]; intros Hne Hall; [done|..]; apply Forall_cons in Hall as [Hs Hall].
  - by apply js_split_id.
  - change (String.concat (String c "") (s :: t :: l))
      with (s +:+ String c (String.concat (String c "") (t :: l))).
    by rewrite js_split_app, IH.
Qed.

Lemma trim_end_no_char c s : no_char c s = true → no_char c (trim_end s) = true.
Proof.
  induction s as [|d s IH]; cbn; [done|]. intros [Hd Hs]%andb_true_iff.
  destruct (js_is_space d && String.eqb (trim_end s) ""); [done|]. cbn. by rewrite Hd, IH.
Qed.

Lemma js_trim_no_char c s : no_char c s = true → no_char c (js_trim s) = true.
Proof.
  intros Hs. apply trim_end_no_char. induction s as [|d s IH]; cbn; [done|].
  cbn in Hs. destruct (js_is_space d); [|done]. apply IH. by apply andb_true_iff in Hs as [_ ?].
Qed.

Lemma trim_end_idemp s : trim_end (trim_end s) = trim_end s.
Proof.
  induction s as [|d s IH]; cbn; [done|].
  destruct (js_is_space d && String.eqb (trim_end s) "") eqn:E; [done|]. cbn. by rewrite IH, E.
Qed.

Lemma trim_start_end s : trim_start (trim_end (trim_start s)) = trim_end (trim_start s).
Proof.
  induction s as [|d s IH]; cbn; [done|]. destruct (js_is_space d) eqn:E; [done|].
  cbn. by rewrite E; cbn; rewrite E.
Qed.

Lemma js_trim_idemp s : js_trim (js_trim s) = js_trim s.
Proof. unfold js_trim. by rewrite trim_start_end, trim_end_idemp. Qed.

Lemma map_string_ext f g s : (∀ c, f (g c) = f c) → map_string f (map_string g s) = map_string f s.
Proof. intros Hfg. induction s as [|c s IH]; cbn; [done|]. by rewrite Hfg, IH. Qed.

(** A property of every ASCII character, by evaluation. *)
Lemma all_chars (P : ascii → bool) :
  forallb (λ n, P (ascii_of_nat n)) (seq 0 256) = true → ∀ c, P c = true.
Proof.
  intros Hall c. rewrite forallb_forall in Hall. rewrite <- (ascii_nat_embedding c).
  apply Hall, in_seq. pose proof (nat_ascii_bounded c). lia.
Qed.

Lemma upper_lower c : upper_char (lower_char c) = upper_char c.
Proof.
  apply Ascii.eqb_eq, (all_chars (λ c, Ascii.eqb (upper_char (lower_char c)) (upper_char c))).
  by vm_compute.
Qed.

Lemma toUpperCase_lower s : toUpperCase (toLowerCase s) = toUpperCase s.
Proof. apply map_string_ext, upper_lower. Qed.

(** ** Lemmas: keys *)

(** A key that a serialised binding gives back: no separator in it, trimmed, not a
    modifier, already normal. *)
Definition key_ok (k : string) : bool :=
  negb (String.eqb k "") && no_char "+"%char k && String.eqb (js_trim k) k &&
  bool_decide (modifierAliases (toLowerCase k) = None) && String.eqb (normalizeShortcutKey k) k.

Lemma alias_ok k a : keyAliases k = Some a → a = "+" ∨ key_ok a = true.
Proof.
  intros Ha%jsmap_get_elem.
  assert (Forall (λ e, String.eqb e.2 "+" || key_ok e.2 = true) key_alias_table) as Hall
    by (repeat constructor).
  rewrite Forall_forall in Hall. specialize (Hall _ Ha). cbn in Hall.
  apply orb_true_iff in Hall as [?%String.eqb_eq|?]; auto.
Qed.

Lemma function_key_ok k : k ∈ function_keys → key_ok (toUpperCase k) = true.
Proof.
  assert (Forall (λ k, key_ok (toUpperCase k) = true) function_keys) as Hall by (repeat constructor).
  rewrite Forall_forall in Hall. apply Hall.
Qed.

Lemma char_key_ok c :
  js_is_space c = true ∨ c = "+"%char ∨ key_ok (toUpperCase (String c "")) = true.
Proof.
  assert (js_is_space c || Ascii.eqb c "+" || key_ok (toUpperCase (String c "")) = true) as Hc.
  { apply (all_chars (λ c, js_is_space c || Ascii.eqb c "+" || key_ok (toUpperCase (String c "")))).
    by vm_compute. }
  apply orb_true_iff in Hc as [[?|?%Ascii.eqb_eq]%orb_true_iff|?]; auto.
Qed.

Lemma normalize_key_ok k :
  k ≠ "" → js_trim k = k → no_char "+"%char k = true → modifierAliases (toLowerCase k) = None →
  normalizeShortcutKey k = "+" ∨ key_ok (normalizeShortcutKey k) = true.
Proof.
  intros Hne Htrim Hplus Hmod. unfold normalizeShortcutKey. cbv zeta. rewrite Htrim.
  apply String.eqb_neq in Hne. rewrite Hne.
  destruct (keyAliases (toLowerCase k)) as [a|] eqn:Ea; [by eapply alias_ok|].
  case_bool_decide as Hf; [right; rewrite <- toUpperCase_lower; by apply function_key_ok|].
  destruct (String.length k =? 1) eqn:El.
  - right. destruct k as [|c [|]]; try done. destruct (char_key_ok c) as [Hc|[->|?]]; [|done..].
    unfold js_trim in Htrim. cbn in Htrim. by rewrite Hc in Htrim.
  - right. unfold key_ok, normalizeShortcutKey. cbv zeta.
    rewrite Htrim, Hne, Hplus, Ea, El, String.eqb_refl, bool_decide_true by done.
    rewrite (bool_decide_false _ Hf). by rewrite String.eqb_refl.
Qed.

Lemma key_ok_inv k : key_ok k = true →
  k ≠ "" ∧ no_char "+"%char k = true ∧ js_trim k = k ∧ modifierAliases (toLowerCase k) = None ∧
  normalizeShortcutKey k = k.
Proof.
  unfold key_ok. rewrite !andb_true_iff, negb_true_iff, String.eqb_neq, !String.eqb_eq, bool_decide_eq_true.
  tauto.
Qed.

(** ** Lemmas: bindings *)

Lemma serialize_parts b :
  kb_key b ≠ "" → no_char "+"%char (kb_key b) = true → js_trim (kb_key b) = kb_key b →
  shortcut_parts (serializeShortcutBinding b) = modifier_labels b ++ [kb_key b].
Proof.
  intros Hne Hplus Htrim. unfold serializeShortcutBinding, shortcut_parts.
  rewrite (js_split_concat "+"%char); [| |].
  - assert (js_trim <$> modifier_labels b ++ [kb_key b] = modifier_labels b ++ [kb_key b]) as ->.
    { rewrite fmap_app. f_equal; [by destruct b as [[] [] k [] []]|]. cbn [fmap list_fmap]. by rewrite Htrim. }
    apply filter_all. intros p [Hp|Hp]%elem_of_app; [|apply list_elem_of_singleton in Hp; by subst p].
    intros ->. by destruct b as [[] [] k [] []]; cbn in Hp; rewrite ?elem_of_cons, elem_of_nil in Hp; naive_solver.
  - by destruct (modifier_labels b).
  - apply Forall_app. split; [|by repeat constructor].
    destruct b as [[] [] k [] []]; repeat constructor.
Qed.

(** Parsing reads the modifiers back, then the key. *)
Lemma parse_labels b rest :
  parse_parts (modifier_labels b ++ rest) (mkKeyBinding false false "" false false) =
  parse_parts rest (mkKeyBinding (kb_alt b) (kb_ctrl b) "" (kb_meta b) (kb_shift b)).
Proof. by destruct b as [[] [] k [] []]. Qed.

Lemma parse_serialize b :
  key_ok (kb_key b) = true → parseShortcutBinding (Some (serializeShortcutBinding b)) = Some b.
Proof.
  intros (Hne & Hplus & Htrim & Hmod & Hnorm)%key_ok_inv.
  unfold parseShortcutBinding. cbv zeta. rewrite serialize_parts by done.
  rewrite bool_decide_false by (by destruct (modifier_labels b)).
  rewrite parse_labels. cbn [parse_parts]. rewrite Hmod. cbn [kb_key]. rewrite Hnorm.
  apply String.eqb_neq in Hne. cbn [negb String.eqb set_key kb_key]. rewrite Hne. by destruct b.
Qed.

Lemma parse_serialize_modifier b :
  kb_key b ≠ "" → no_char "+"%char (kb_key b) = true → js_trim (kb_key b) = kb_key b →
  modifierAliases (toLowerCase (kb_key b)) ≠ None →
  parseShortcutBinding (Some (serializeShortcutBinding b)) = None.
Proof.
  intros Hne Hplus Htrim Hmod. unfold parseShortcutBinding. cbv zeta. rewrite serialize_parts by done.
  rewrite bool_decide_false by (by destruct (modifier_labels b)).
  rewrite parse_labels. cbn [parse_parts]. destruct (modifierAliases _) as [m|]; [|done]. by destruct m.
Qed.

Lemma parse_serialize_blank b :
  kb_key b = "+" ∨ kb_key b = "" → parseShortcutBinding (Some (serializeShortcutBinding b)) = None.
Proof. destruct b as [[] [] k [] []]; cbn; intros [-> | ->]; by vm_compute. Qed.

Lemma parse_parts_key parts b b' :
  Forall (λ p, p ≠ "" ∧ js_trim p = p ∧ no_char "+"%char p = true) parts →
  parse_parts parts b = Some b' →
  kb_key b' = kb_key b ∨ kb_key b' = "+" ∨ key_ok (kb_key b') = true.
Proof.
  revert b. induction parts as [|p parts IH]; intros b Hall Hp; cbn [parse_parts] in Hp; [simplify_eq; auto|].
  apply Forall_cons in Hall as [(Hne & Htrim & Hplus) Hall].
  destruct (modifierAliases (toLowerCase p)) as [m|] eqn:Em.
  - destruct (IH _ Hall Hp) as [Hk|Hk]; [left|by right]. rewrite Hk. by destruct m.
  - destruct (negb (String.eqb (kb_key b) "")); [done|].
    destruct (IH _ Hall Hp) as [Hk|Hk]; [|by right]. right. rewrite Hk. cbn. by apply normalize_key_ok.
Qed.

Lemma shortcut_parts_ok s :
  Forall (λ p, p ≠ "" ∧ js_trim p = p ∧ no_char "+"%char p = true) (shortcut_parts s).
Proof.
  unfold shortcut_parts. apply Forall_forall. intros p [Hne Hp]%list_elem_of_filter.
  apply list_elem_of_fmap in Hp as (q & -> & Hq). split; [done|]. split; [apply js_trim_idemp|].
  apply js_trim_no_char. pose proof (js_split_no_char "+"%char s) as Hall.
  rewrite Forall_forall in Hall. by apply Hall.
Qed.

Lemma parse_key value b :
  parseShortcutBinding value = Some b → kb_key b = "+" ∨ key_ok (kb_key b) = true.
Proof.
  destruct value as [s|]; [|done]. unfold parseShortcutBinding. cbv zeta.
  case_bool_decide; [done|].
  destruct (parse_parts _ _) as [b'|] eqn:Ep; [|done]. destruct (String.eqb (kb_key b') "") eqn:Ek; [done|].
  intros [= <-]. destruct (parse_parts_key _ _ _ (shortcut_parts_ok s) Ep) as [Hk|Hk]; [|done].
  by rewrite Hk in Ek.
Qed.

Lemma normalize_parsed value n :
  normalizeShortcutBinding value = Some n →
  ∃ b, parseShortcutBinding value = Some b ∧ n = serializeShortcutBinding b.
Proof. intros (b & Hb & ->)%fmap_Some. eauto. Qed.

(** ** Properties *)

(** A normalised binding is a normal form. Parsing it gives the same modifiers
    and the same key, so normalising again changes nothing; the one exception is the
    plus key, whose normal form is not a binding at all. *)
Theorem shortcut_normal_form value b :
  parseShortcutBinding value = Some b →
  normalizeShortcutBinding value = Some (serializeShortcutBinding b) ∧
  parseShortcutBinding (normalizeShortcutBinding value) =
    (if decide (kb_key b = "+") then None else Some b) ∧
  normalizeShortcutBinding (normalizeShortcutBinding value) =
    (if decide (kb_key b = "+") then None else normalizeShortcutBinding value).
Proof.
  intros Hb. unfold normalizeShortcutBinding. rewrite Hb. cbn [fmap option_fmap option_map].
  split; [done|]. case_decide as Hk.
  - by rewrite parse_serialize_blank by auto.
  - destruct (parse_key _ _ Hb) as [?|Hok]; [done|]. by rewrite parse_serialize.
Qed.

Lemma shortcut_normal_form_witness :
  parseShortcutBinding (normalizeShortcutBinding (Some " shift+CTRL +f12")) =
    Some (mkKeyBinding false true "F12" false true) ∧
  normalizeShortcutBinding (normalizeShortcutBinding (Some "Ctrl+Plus")) = None.
Proof.
  split.
  - by apply (shortcut_normal_form (Some " shift+CTRL +f12") (mkKeyBinding false true "F12" false true)).
  - by apply (shortcut_normal_form (Some "Ctrl+Plus") (mkKeyBinding false true "+" false false)).
Defined.

(** What a browser reports: one character, or the name of a key. *)
Definition dom_key (key : string) : Prop :=
  String.length key = 1 ∨ key ≠ "" ∧ js_trim key = key ∧ no_char "+"%char key = true.

Lemma dom_key_plain key :
  dom_key key → normalizeShortcutKey key ≠ "" → key ≠ "+" →
  key ≠ "" ∧ js_trim key = key ∧ no_char "+"%char key = true.
Proof.
  intros [Hl|?] Hn Hp; [|done]. destruct key as [|c [|]]; try done. split; [done|]. split.
  - unfold js_trim. cbn. destruct (js_is_space c) eqn:E; [|cbn; by rewrite E].
    destruct Hn. unfold normalizeShortcutKey, js_trim. cbn. by rewrite E.
  - cbn. rewrite andb_true_r, negb_true_iff. apply Ascii.eqb_neq. congruence.
Qed.

Lemma modifier_name_key key m :
  js_trim key = key → modifierAliases (toLowerCase key) = Some m → normalizeShortcutKey key = key.
Proof.
  intros Htrim Hm.
  assert (Forall (λ e, keyAliases e.1 = None ∧ bool_decide (e.1 ∈ function_keys) = false ∧
    String.length e.1 ≠ 1) modifier_table) as Hall by (repeat constructor; done).
  rewrite Forall_forall in Hall. destruct (Hall _ (jsmap_get_elem _ _ _ Hm)) as (Ha & Hf & Hl). cbn [fst] in *.
  unfold normalizeShortcutKey. cbv zeta. rewrite Htrim, Ha, Hf.
  assert (String.length (toLowerCase key) = String.length key) as Hlen
    by (unfold toLowerCase; clear; induction key; cbn; congruence).
  rewrite Hlen in Hl. apply Nat.eqb_neq in Hl. rewrite Hl.
  by destruct (String.eqb_spec key "") as [->|].
Qed.

Lemma recorded_parse b key :
  dom_key key → kb_key b = normalizeShortcutKey key →
  parseShortcutBinding (Some (serializeShortcutBinding b)) =
    (if decide (kb_key b ≠ "" ∧ kb_key b ≠ "+" ∧ modifierAliases (toLowerCase key) = None)
     then Some b else None).
Proof.
  intros Hdom Hk. case_decide as Hc.
  - destruct Hc as (Hn & Hp & Hm). rewrite Hk in *.
    destruct (dom_key_plain key) as (? & ? & ?); [done..|by intros ->|].
    destruct (normalize_key_ok key) as [?|Hok]; [done..|]. apply parse_serialize. by rewrite Hk.
  - destruct (decide (kb_key b = "" ∨ kb_key b = "+")) as [?|Hne]; [apply parse_serialize_blank; tauto|].
    destruct (modifierAliases (toLowerCase key)) as [m|] eqn:Hm; [|tauto].
    destruct (dom_key_plain key) as (? & ? & ?); [done|rewrite <- Hk; tauto|by intros ->|].
    rewrite (modifier_name_key key m) in Hk by done.
    apply parse_serialize_modifier; rewrite Hk; [done..|congruence].
Qed.

(** C15: a shortcut recorded from a key press fires on exactly the presses of the same
    key with the same modifiers. It never fires when the key is blank (the space bar),
    the plus key, or a key that is also the name of a modifier. *)
Theorem recorded_shortcut_fires recorded pressed :
  dom_key (ke_key recorded) → (ke_key recorded ∉ keyboardModifierKeys) →
  keyboardEventMatchesShortcut pressed (shortcutBindingFromKeyboardEvent recorded) = true ↔
  (normalizeShortcutKey (ke_key recorded) ≠ "" ∧ normalizeShortcutKey (ke_key recorded) ≠ "+" ∧
   modifierAliases (toLowerCase (ke_key recorded)) = None) ∧
  (ke_key pressed ∉ keyboardModifierKeys) ∧
  ke_altKey pressed = ke_altKey recorded ∧ ke_ctrlKey pressed = ke_ctrlKey recorded ∧
  ke_metaKey pressed = ke_metaKey recorded ∧ ke_shiftKey pressed = ke_shiftKey recorded ∧
  normalizeShortcutKey (ke_key pressed) = normalizeShortcutKey (ke_key recorded).
Proof.
  intros Hdom Hr. unfold shortcutBindingFromKeyboardEvent. rewrite (bool_decide_false _ Hr).
  unfold keyboardEventMatchesShortcut. erewrite recorded_parse by done. cbn [kb_key].
  case_decide as Hc; [|by split; [|tauto]].
  case_bool_decide as Hp; [by split; [|tauto]|]. cbn [kb_alt kb_ctrl kb_key kb_meta kb_shift].
  rewrite !andb_true_iff, !Bool.eqb_true_iff, String.eqb_eq. tauto.
Qed.

Lemma recorded_shortcut_fires_witness :
  dom_key " " ∧
  keyboardEventMatchesShortcut (mkKeyEvent false true "K" false false)
    (shortcutBindingFromKeyboardEvent (mkKeyEvent false true "k" false false)) = true ∧
  keyboardEventMatchesShortcut (mkKeyEvent false true " " false false)
    (shortcutBindingFromKeyboardEvent (mkKeyEvent false true " " false false)) ≠ true.
Proof.
  split; [by left|]. split.
  - apply recorded_shortcut_fires; [by left|vm_decide|]. split_and!; try done; vm_decide.
  - intros Hm. apply recorded_shortcut_fires in Hm; [|by left|vm_decide]. by destruct Hm as [[Hn _] _].
Defined.
