(* ===== verification/Shortcuts.v ===== *)
(** * The shortcut table ([features/shortcuts/shortcutRegistry.ts],
      [shortcutValidation.ts], [features/settings/ShortcutSettingsSection.tsx]:
      [commitBinding])

    The registered actions with their default bindings, validation of a binding,
    conflicts, the loading of a stored table and the recorder of the settings
    dialog. A table is an ordered map; [null] and [undefined] are [None]. *)

From S2P Require Import Prelude SessionTypes Snapshot SnapshotCodec ShortcutKeys.
From Stdlib Require Import Lia.

#[local] Open Scope nat_scope.

(** ** The registry *)

Inductive ShortcutCategoryId := CatGeneral | CatTerminal | CatSearch | CatTools.
Inductive ShortcutScope := ScopeGlobal | ScopeWorkspace | ScopeTerminal | ScopeTerminalSearch.
Inductive ShortcutDispatch := DispatchGlobal | DispatchLocal.

#[export] Instance ShortcutScope_eq_dec : EqDecision ShortcutScope.
Proof. solve_decision. Defined.
#[export] Instance ShortcutDispatch_eq_dec : EqDecision ShortcutDispatch.
Proof. solve_decision. Defined.

(** Labels and descriptions are display text and left out. *)
Record ShortcutAction := mkShortcut {
  sa_id : string;
  sa_dispatch : ShortcutDispatch;
  sa_category : ShortcutCategoryId;
  sa_defaultBinding : option string;
  sa_scope : ShortcutScope;
  sa_allowInTerminal : bool;
}.

Definition aiSendMessageShortcutActionId : string := "ai.sendMessage".

Definition shortcutActions : list ShortcutAction :=
  [mkShortcut "connection.quickOpen" DispatchGlobal CatGeneral (Some "Ctrl+Shift+O") ScopeGlobal true;
   mkShortcut "settings.open" DispatchGlobal CatGeneral (Some "Ctrl+,") ScopeGlobal true;
   mkShortcut "terminal.newTab" DispatchGlobal CatTerminal (Some "Ctrl+Shift+T") ScopeTerminal true;
   mkShortcut "terminal.closeTab" DispatchGlobal CatTerminal (Some "Ctrl+Shift+W") ScopeTerminal true;
   mkShortcut "terminal.search.toggle" DispatchGlobal CatSearch (Some "Ctrl+Shift+F") ScopeTerminal true;
   mkShortcut "terminal.search.next" DispatchGlobal CatSearch (Some "F3") ScopeTerminalSearch true;
   mkShortcut "terminal.search.previous" DispatchGlobal CatSearch (Some "Shift+F3") ScopeTerminalSearch true;
   mkShortcut aiSendMessageShortcutActionId DispatchLocal CatTools (Some "Enter") ScopeWorkspace false;
   mkShortcut "commandSender.toggle" DispatchGlobal CatTools (Some "Ctrl+Shift+K") ScopeWorkspace true].

Abbreviation shortcut_table := (jsmap (option string)).

Definition defaultShortcutBindings : shortcut_table :=
  jsmap_of_entries ((λ action, (sa_id action, sa_defaultBinding action)) <$> shortcutActions).

Definition getShortcutAction (actionId : string) : option ShortcutAction :=
  js_find (λ action, sa_id action = actionId) shortcutActions.

Definition resolveShortcutBinding (bindings : shortcut_table) (action : ShortcutAction) : option string :=
  match jsmap_get (sa_id action) bindings with
  | Some binding => binding
  | None => sa_defaultBinding action
  end.

Definition resolveShortcutBindingById (bindings : shortcut_table) (actionId : string) : option string :=
  match getShortcutAction actionId with
  | Some action => resolveShortcutBinding bindings action
  | None => None
  end.

Definition resolveGlobalShortcutBindings (bindings : shortcut_table) :
    list (ShortcutAction * option string) :=
  (λ action, (action, resolveShortcutBinding bindings action)) <$>
    filter (λ action, sa_dispatch action = DispatchGlobal) shortcutActions.

(** ** Validation *)

Inductive ValidationCode := CodeInvalid | CodePlainPrintable | CodeReserved.

Definition reservedBindings : list string :=
  ["Ctrl+A"; "Ctrl+C"; "Ctrl+E"; "Ctrl+L"; "Ctrl+R"; "Ctrl+V"; "Ctrl+W"; "Ctrl+X"].

(** [None] is a valid binding. *)
Definition validateShortcutBinding (value : option string) : option ValidationCode :=
  if negb (truthy value) then None
  else
    let normalized := normalizeShortcutBinding value in
    if negb (truthy normalized) || bool_decide (parseShortcutBinding normalized = None)
    then Some CodeInvalid
    else if isPlainPrintableShortcut normalized then Some CodePlainPrintable
    else if bool_decide (normalized ∈ Some <$> reservedBindings) then Some CodeReserved
    else None.

Record ShortcutConflict := mkConflict {
  sc_actionIds : list string;
  sc_binding : string;
}.

#[export] Instance ShortcutConflict_eq_dec : EqDecision ShortcutConflict.
Proof. solve_decision. Defined.

(** The loop body over [Object.entries(bindings)]. *)
Definition add_binding (actionIds : list string) (byBinding : jsmap (list string))
    (entry : string * option string) : jsmap (list string) :=
  if bool_decide (entry.1 ∉ actionIds) then byBinding
  else
    match normalizeShortcutBinding entry.2 with
    | Some normalized =>
        if negb (truthy (Some normalized)) then byBinding
        else jsmap_set normalized (default [] (jsmap_get normalized byBinding) ++ [entry.1]) byBinding
    | None => byBinding
    end.

Definition findShortcutConflicts (bindings : shortcut_table) (actions : list ShortcutAction) :
    list ShortcutConflict :=
  let byBinding := foldl (add_binding (sa_id <$> actions)) [] bindings in
  (λ e, mkConflict e.2 e.1) <$> filter (λ e, 1 < length e.2) byBinding.

(** The binding that is loaded for an action. *)
Definition load_binding (record : list (string * json)) (fallback : shortcut_table)
    (action : ShortcutAction) : option string :=
  match jsmap_get (sa_id action) record with
  | Some JNull => None
  | raw =>
      let normalized := match raw with Some (JStr s) => normalizeShortcutBinding (Some s) | _ => None end in
      if truthy normalized && bool_decide (validateShortcutBinding normalized = None) then normalized
      else mjoin (jsmap_get (sa_id action) fallback) ?: sa_defaultBinding action
  end.

Definition normalizeShortcutBindings (value : option json) (fallback : shortcut_table) : shortcut_table :=
  let record := match value with Some (JObj fields) => fields | _ => [] end in
  jsmap_of_entries ((λ action, (sa_id action, load_binding record fallback action)) <$> shortcutActions).

(** ** The recorder of the settings dialog *)

Inductive CommitResult :=
  | CommitInvalid (code : ValidationCode)
  | CommitConflict (other : option string)
  | Committed (bindings : shortcut_table).

Definition commitBinding (currentBindings : shortcut_table) (action : ShortcutAction) (rawBinding : string) :
    CommitResult :=
  let normalized := normalizeShortcutBinding (Some rawBinding) in
  match validateShortcutBinding normalized with
  | Some code => CommitInvalid code
  | None =>
      let nextBindings := jsmap_set (sa_id action) normalized currentBindings in
      match js_find (λ item, sa_id action ∈ sc_actionIds item)
              (findShortcutConflicts nextBindings shortcutActions) with
      | Some conflict =>
          CommitConflict (sa_id <$> js_find (λ item,
            sa_id item ≠ sa_id action ∧ sa_id item ∈ sc_actionIds conflict) shortcutActions)
      | None => Committed nextBindings
      end
  end.

Definition clearBinding (currentBindings : shortcut_table) (action : ShortcutAction) : shortcut_table :=
  jsmap_set (sa_id action) None currentBindings.

(** ** Lemmas *)

Lemma concat_nonempty sep l k : k ≠ "" → String.concat sep (l ++ [k]) ≠ "".
Proof.
  intros Hk. induction l as [|x l IH]; [done|]. destruct l as [|y l]; cbn in *.
  - destruct x; [|done]. cbn. destruct sep; [|done]. by destruct k.
  - destruct x; [|done]. cbn. destruct sep; [|done]. exact IH.
Qed.

Lemma normalized_truthy value n : normalizeShortcutBinding value = Some n → truthy (Some n) = true.
Proof.
  intros (b & Hb & ->)%normalize_parsed. apply truthy_Some, concat_nonempty.
  destruct (parse_key _ _ Hb) as [-> | (? & _)%key_ok_inv]; done.
Qed.

(** Validity and normal form: what is stored for a valid binding. *)
Lemma valid_normal value n :
  normalizeShortcutBinding value = Some n → validateShortcutBinding (Some n) = None →
  normalizeShortcutBinding (Some n) = Some n.
Proof.
  intros Hn Hv. destruct (normalize_parsed _ _ Hn) as (b & Hb & ->).
  unfold validateShortcutBinding in Hv. cbv zeta in Hv.
  rewrite (normalized_truthy _ _ Hn) in Hv. cbn [negb] in Hv.
  unfold normalizeShortcutBinding at 1.
  destruct (parse_key _ _ Hb) as [Hk|Hk].
  - unfold normalizeShortcutBinding in Hv. by rewrite parse_serialize_blank in Hv by auto.
  - by rewrite parse_serialize.
Qed.

Section conflicts.
Context (actionIds : list string).

(** The actions of a table whose binding has the given normal form, in order. *)
Definition bound_ids (bindings : shortcut_table) (n : string) : list string :=
  (filter (λ e, e.1 ∈ actionIds ∧ normalizeShortcutBinding e.2 = Some n) bindings).*1.

Lemma bound_ids_cons e bindings n :
  bound_ids (e :: bindings) n =
    (if decide (e.1 ∈ actionIds ∧ normalizeShortcutBinding e.2 = Some n) then [e.1] else []) ++
    bound_ids bindings n.
Proof. unfold bound_ids. rewrite filter_cons. by case_decide. Qed.

Lemma add_binding_get m e n :
  default [] (jsmap_get n (add_binding actionIds m e)) =
    default [] (jsmap_get n m) ++
    (if decide (e.1 ∈ actionIds ∧ normalizeShortcutBinding e.2 = Some n) then [e.1] else []).
Proof.
  unfold add_binding. case_bool_decide as Hin; [rewrite decide_False by tauto; by rewrite app_nil_r|].
  destruct (normalizeShortcutBinding e.2) as [n'|] eqn:En.
  - rewrite (normalized_truthy _ _ En). cbn [negb]. rewrite jsmap_get_set. case_decide as Hn.
    + subst n'. by rewrite decide_True by done.
    + rewrite decide_False by naive_solver. by rewrite app_nil_r.
  - rewrite decide_False by naive_solver. by rewrite app_nil_r.
Qed.

Lemma add_binding_keys m e :
  NoDup m.*1 → (∀ n l, jsmap_get n m = Some l → l ≠ []) →
  NoDup (add_binding actionIds m e).*1 ∧
  (∀ n l, jsmap_get n (add_binding actionIds m e) = Some l → l ≠ []).
Proof.
  intros Hnd Hne. unfold add_binding. case_bool_decide; [done|].
  destruct (normalizeShortcutBinding e.2) as [n'|]; [|done]. destruct (negb _); [done|].
  split; [by apply jsmap_set_NoDup|]. intros n l. rewrite jsmap_get_set. case_decide; [|apply Hne].
  intros [= <-]. by destruct (default _ _).
Qed.

Lemma add_bindings bindings m :
  NoDup m.*1 → (∀ n l, jsmap_get n m = Some l → l ≠ []) →
  let m' := foldl (add_binding actionIds) m bindings in
  NoDup m'.*1 ∧ (∀ n l, jsmap_get n m' = Some l → l ≠ []) ∧
  ∀ n, default [] (jsmap_get n m') = default [] (jsmap_get n m) ++ bound_ids bindings n.
Proof.
  cbv zeta. revert m. induction bindings as [|e bindings IH]; intros m Hnd Hne; cbn [foldl].
  - split_and!; [done..|]. intros n. unfold bound_ids. by rewrite app_nil_r.
  - destruct (add_binding_keys m e Hnd Hne) as [Hnd' Hne'].
    destruct (IH _ Hnd' Hne') as (? & ? & Hg). split_and!; [done..|].
    intros n. rewrite Hg, add_binding_get, bound_ids_cons. by rewrite app_assoc.
Qed.
End conflicts.

Lemma elem_of_conflicts bindings actions c :
  c ∈ findShortcutConflicts bindings actions ↔
  sc_actionIds c = bound_ids (sa_id <$> actions) bindings (sc_binding c) ∧ 1 < length (sc_actionIds c).
Proof.
  unfold findShortcutConflicts. cbv zeta. rewrite list_elem_of_fmap.
  destruct (add_bindings (sa_id <$> actions) bindings [] NoDup_nil_2 ltac:(done)) as (Hnd & Hne & Hg).
  setoid_rewrite list_elem_of_filter. split.
  - intros ([n l] & -> & Hl & Hin). cbn in *. split; [|done].
    specialize (Hg n). apply jsmap_elem_get in Hin; [|done]. by rewrite Hin in Hg.
  - destruct c as [l n]. cbn. intros [-> Hl]. specialize (Hg n). cbn [jsmap_get default app] in Hg.
    destruct (jsmap_get n (foldl _ _ bindings)) as [l|] eqn:E; cbn in Hg.
    + subst l. exists (n, bound_ids (sa_id <$> actions) bindings n). split; [done|].
      split; [done|]. by apply jsmap_get_elem.
    + by rewrite <- Hg in Hl; cbn in Hl; lia.
Qed.

Lemma conflict_bindings_NoDup bindings actions : NoDup (sc_binding <$> findShortcutConflicts bindings actions).
Proof.
  unfold findShortcutConflicts. cbv zeta. rewrite <- list_fmap_compose.
  destruct (add_bindings (sa_id <$> actions) bindings [] NoDup_nil_2 ltac:(done)) as (Hnd & _).
  apply (NoDup_filter_fmap fst). exact Hnd.
Qed.

Lemma elem_of_bound_ids actionIds bindings n id :
  id ∈ bound_ids actionIds bindings n ↔
  id ∈ actionIds ∧ ∃ b, (id, b) ∈ bindings ∧ normalizeShortcutBinding b = Some n.
Proof.
  unfold bound_ids. rewrite list_elem_of_fmap. setoid_rewrite list_elem_of_filter. split.
  - intros ([i b] & -> & [? ?] & ?). cbn in *. eauto.
  - intros (? & b & ? & ?). by exists (id, b).
Qed.

Lemma bound_ids_NoDup actionIds bindings n : NoDup bindings.*1 → NoDup (bound_ids actionIds bindings n).
Proof. apply (NoDup_filter_fmap fst). Qed.

(** A rebound action only leaves the groups it no longer belongs to. *)
Lemma bound_ids_set actionIds bindings id v n :
  (id ∉ bound_ids actionIds (jsmap_set id v bindings) n) →
  bound_ids actionIds (jsmap_set id v bindings) n `sublist_of` bound_ids actionIds bindings n.
Proof.
  induction bindings as [|[k w] bindings IH]; cbn [jsmap_set].
  - rewrite bound_ids_cons. case_decide; [|done]. intros []. by left.
  - case_decide as Hk; rewrite !bound_ids_cons.
    + cbn [fst snd]. subst k. intros Hn. case_decide as Hd; [destruct Hn; by left|]. cbn [app].
      by apply sublist_inserts_l.
    + intros Hn. apply sublist_app; [done|]. apply IH. intros Hin. apply Hn. apply elem_of_app. by right.
Qed.

Definition action_ids : list string := sa_id <$> shortcutActions.

Lemma action_ids_NoDup : NoDup action_ids.
Proof. vm_decide. Qed.

Definition table_of (f : ShortcutAction → option string) : shortcut_table :=
  (λ action, (sa_id action, f action)) <$> shortcutActions.

Lemma table_of_eq f :
  jsmap_of_entries ((λ action, (sa_id action, f action)) <$> shortcutActions) = table_of f.
Proof.
  apply jsmap_of_entries_id. exact action_ids_NoDup.
Qed.

Lemma table_of_get f action : action ∈ shortcutActions → jsmap_get (sa_id action) (table_of f) = Some (f action).
Proof.
  intros Ha. apply jsmap_elem_get.
  - exact action_ids_NoDup.
  - by apply (list_elem_of_fmap_2 (λ action, (sa_id action, f action))).
Qed.

Lemma default_get action :
  action ∈ shortcutActions → jsmap_get (sa_id action) defaultShortcutBindings = Some (sa_defaultBinding action).
Proof. intros Ha. unfold defaultShortcutBindings. rewrite table_of_eq. by apply table_of_get. Qed.

Definition binding_sound (b : option string) : Prop :=
  validateShortcutBinding b = None ∧ normalizeShortcutBinding b = b.

Lemma default_sound action : action ∈ shortcutActions → binding_sound (sa_defaultBinding action).
Proof.
  assert (Forall (λ a, validateShortcutBinding (sa_defaultBinding a) = None ∧
    bool_decide (normalizeShortcutBinding (sa_defaultBinding a) = sa_defaultBinding a) = true) shortcutActions) as Hall
    by (repeat constructor).
  rewrite Forall_forall in Hall. intros Ha. destruct (Hall _ Ha) as [? Hn]. split; [done|].
  by apply bool_decide_eq_true in Hn.
Qed.

Lemma normalized_sound value n :
  normalizeShortcutBinding value = Some n → validateShortcutBinding (Some n) = None → binding_sound (Some n).
Proof. intros Hn Hv. split; [done|by eapply valid_normal]. Qed.

Lemma load_binding_sound record action :
  action ∈ shortcutActions → binding_sound (load_binding record defaultShortcutBindings action).
Proof.
  intros Ha. unfold load_binding. rewrite (default_get _ Ha). cbn [mjoin option_join].
  pose proof (default_sound _ Ha) as Hd.
  assert (binding_sound (sa_defaultBinding action ?: sa_defaultBinding action)) as Hd'
    by (by destruct (sa_defaultBinding action)).
  destruct (jsmap_get (sa_id action) record) as [[| | |s| |]|]; cbn [truthy andb]; try done.
  destruct (normalizeShortcutBinding (Some s)) as [n|] eqn:En; [|done].
  rewrite (normalized_truthy _ _ En). cbn [andb]. case_bool_decide; [|done]. by eapply normalized_sound.
Qed.

(** What storing a table and reading it back gives. *)
Definition table_json (t : shortcut_table) : json :=
  JObj ((λ e, (e.1, match e.2 with Some s => JStr s | None => JNull end)) <$> t).

Lemma table_json_get (t : shortcut_table) id :
  jsmap_get id ((λ e, (e.1, match e.2 with Some s => JStr s | None => JNull end)) <$> t) =
  (λ b, match b with Some s => JStr s | None => JNull end) <$> jsmap_get id t.
Proof.
  induction t as [|[k b] t IH]; [done|]. rewrite fmap_cons. cbn [jsmap_get fst snd].
  by case_decide.
Qed.

Lemma load_stored t action b :
  jsmap_get (sa_id action) t = Some b → binding_sound b →
  load_binding ((λ e, (e.1, match e.2 with Some s => JStr s | None => JNull end)) <$> t)
    defaultShortcutBindings action = b.
Proof.
  intros Hg [Hv Hn]. unfold load_binding. rewrite table_json_get, Hg. cbn [fmap option_fmap option_map].
  destruct b as [s|]; [|done]. rewrite Hn, (normalized_truthy _ _ Hn), bool_decide_true by done. done.
Qed.

Lemma load_table value :
  normalizeShortcutBindings value defaultShortcutBindings =
  table_of (load_binding (match value with Some (JObj fields) => fields | _ => [] end) defaultShortcutBindings).
Proof. apply table_of_eq. Qed.

(** A table with one sound binding for every action. *)
Record table_ok (t : shortcut_table) : Prop := {
  tk_ids : t.*1 = action_ids;
  tk_bindings : ∀ id b, (id, b) ∈ t → binding_sound b;
}.

Lemma load_table_ok value : table_ok (normalizeShortcutBindings value defaultShortcutBindings).
Proof.
  rewrite load_table. split; [done|]. intros id b (action & [= -> ->] & Ha)%list_elem_of_fmap. by apply load_binding_sound.
Qed.

(** Storing such a table and loading it again changes nothing. *)
Lemma table_ok_stable t : table_ok t → normalizeShortcutBindings (Some (table_json t)) defaultShortcutBindings = t.
Proof.
  intros [Hk Hb]. rewrite load_table. cbn [table_json]. pose proof action_ids_NoDup as Hnd. rewrite <- Hk in Hnd.
  unfold table_of. apply list_eq. intros i. rewrite list_lookup_fmap.
  assert (fst <$> t !! i = sa_id <$> shortcutActions !! i) as Hi by (rewrite <- !list_lookup_fmap; by rewrite Hk).
  destruct (t !! i) as [[id b]|] eqn:Et, (shortcutActions !! i) as [action|]; try done. cbn in Hi. injection Hi as ->.
  cbn. do 2 f_equal. apply list_elem_of_lookup_2 in Et.
  apply load_stored; [by apply jsmap_elem_get|by eapply Hb].
Qed.

(** ** Properties *)

(** Conflicts are reported exactly. A conflict is reported for a normal form iff
    at least two of the registered actions of the table are bound to it; it lists all
    of them, in table order; and no normal form is reported twice. *)
Theorem shortcut_conflicts_exact bindings actions :
  (∀ c, c ∈ findShortcutConflicts bindings actions ↔
    sc_actionIds c = (filter (λ e, e.1 ∈ sa_id <$> actions ∧
      normalizeShortcutBinding e.2 = Some (sc_binding c)) bindings).*1 ∧
    2 ≤ length (sc_actionIds c)) ∧
  NoDup (sc_binding <$> findShortcutConflicts bindings actions).
Proof. split; [intros c; apply elem_of_conflicts|apply conflict_bindings_NoDup]. Qed.

(** Whatever was stored, loading the shortcut table gives one binding for every
    registered action, each absent or valid and in normal form; an explicit [null]
    stays unbound, a valid stored binding is kept in its normal form, anything else
    falls back to the default; and storing and loading the result changes nothing. *)
Theorem load_shortcuts_sound value :
  let t := normalizeShortcutBindings value defaultShortcutBindings in
  t.*1 = action_ids ∧
  (∀ id b, (id, b) ∈ t → binding_sound b) ∧
  normalizeShortcutBindings (Some (table_json t)) defaultShortcutBindings = t ∧
  (∀ action fields, action ∈ shortcutActions → value = Some (JObj fields) →
    resolveShortcutBinding t action =
      match jsmap_get (sa_id action) fields with
      | Some JNull => None
      | Some (JStr s) =>
          match normalizeShortcutBinding (Some s) with
          | Some n =>
              match validateShortcutBinding (Some n) with
              | None => Some n
              | Some _ => sa_defaultBinding action
              end
          | None => sa_defaultBinding action
          end
      | _ => sa_defaultBinding action
      end).
Proof.
  cbv zeta. rewrite !load_table.
  set (record := match value with Some (JObj fields) => fields | _ => [] end). set (t := table_of _).
  assert (∀ id b, (id, b) ∈ t → binding_sound b) as Hs.
  { intros id b (action & [= -> ->] & Ha)%list_elem_of_fmap. by apply load_binding_sound. }
  split_and!; [done|done|by apply table_ok_stable; split|].
  - intros action fields Ha ->. unfold resolveShortcutBinding, t. rewrite table_of_get by done.
    unfold load_binding, record. rewrite (default_get _ Ha). cbn [mjoin option_join].
    assert (sa_defaultBinding action ?: sa_defaultBinding action = sa_defaultBinding action) as ->
      by (by destruct (sa_defaultBinding action)).
    destruct (jsmap_get (sa_id action) fields) as [[| | |s| |]|]; try done.
    destruct (normalizeShortcutBinding (Some s)) as [n|] eqn:En; [|done].
    rewrite (normalized_truthy _ _ En). cbn [andb]. case_bool_decide as Hv; [by rewrite Hv|].
    by destruct (validateShortcutBinding (Some n)).
Qed.

(** A table that the recorder may store: one sound binding per key, no conflicts. *)
Definition table_sound (t : shortcut_table) : Prop :=
  NoDup t.*1 ∧ (∀ id b, (id, b) ∈ t → binding_sound b) ∧ findShortcutConflicts t shortcutActions = [].

Lemma normalize_sound raw :
  validateShortcutBinding (normalizeShortcutBinding (Some raw)) = None →
  binding_sound (normalizeShortcutBinding (Some raw)).
Proof.
  destruct (normalizeShortcutBinding (Some raw)) as [n|] eqn:En; [|done]. by eapply normalized_sound.
Qed.

Lemma set_sound t id b :
  NoDup t.*1 → (∀ id b, (id, b) ∈ t → binding_sound b) → binding_sound b →
  ∀ id' b', (id', b') ∈ jsmap_set id b t → binding_sound b'.
Proof.
  intros Hnd Hs Hb id' b' Hin. apply jsmap_elem_get in Hin; [|by apply jsmap_set_NoDup].
  rewrite jsmap_get_set in Hin. case_decide; [by simplify_eq|]. eapply Hs. by apply jsmap_get_elem.
Qed.

(** No group that misses the rebound action can be new. *)
Lemma rebind_no_conflict t id b :
  findShortcutConflicts t shortcutActions = [] →
  (∀ c, c ∈ findShortcutConflicts (jsmap_set id b t) shortcutActions → id ∉ sc_actionIds c) →
  findShortcutConflicts (jsmap_set id b t) shortcutActions = [].
Proof.
  intros Ht Hid. apply elem_of_nil_inv. intros c Hc. pose proof (Hid c Hc) as Hn.
  apply elem_of_conflicts in Hc as [Hl Hlen]. rewrite Hl in Hn, Hlen.
  pose proof (sublist_length _ _ (bound_ids_set action_ids t id b (sc_binding c) Hn)) as Hle.
  fold action_ids in Hlen.
  assert (mkConflict (bound_ids action_ids t (sc_binding c)) (sc_binding c) ∈ findShortcutConflicts t shortcutActions)
    as Hin by (apply elem_of_conflicts; cbn [sc_actionIds sc_binding]; fold action_ids; split; [done|lia]).
  rewrite Ht in Hin. by apply not_elem_of_nil in Hin.
Qed.

(** A conflict with the rebound action shows another action with the same binding. *)
Lemma rebind_conflict t id b c :
  NoDup t.*1 → c ∈ findShortcutConflicts (jsmap_set id b t) shortcutActions → id ∈ sc_actionIds c →
  normalizeShortcutBinding b = Some (sc_binding c) ∧
  ∃ action, action ∈ shortcutActions ∧ sa_id action ≠ id ∧ sa_id action ∈ sc_actionIds c.
Proof.
  intros Hnd [Hl Hlen]%elem_of_conflicts Hid. rewrite Hl in Hid, Hlen. fold action_ids in *.
  assert (NoDup (bound_ids action_ids (jsmap_set id b t) (sc_binding c))) as Hnd'
    by by apply bound_ids_NoDup, jsmap_set_NoDup.
  split.
  - apply elem_of_bound_ids in Hid as (_ & b' & Hin & Hb).
    apply jsmap_elem_get in Hin; [|by apply jsmap_set_NoDup].
    rewrite jsmap_get_set, decide_True in Hin by done. by simplify_eq.
  - assert (∃ o, o ∈ bound_ids action_ids (jsmap_set id b t) (sc_binding c) ∧ o ≠ id) as (o & Ho & Hne).
    { destruct (bound_ids action_ids (jsmap_set id b t) (sc_binding c)) as [|x [|y l]]; cbn in Hlen; [lia..|].
      destruct (decide (x = id)) as [->|]; [|exists x; split; [left|done]].
      exists y. split; [by right; left|]. intros ->. apply NoDup_cons in Hnd' as [Hx _]. apply Hx. left. }
    rewrite Hl. pose proof Ho as Ho'. apply elem_of_bound_ids in Ho' as [(a & -> & Ha)%list_elem_of_fmap _].
    exists a. by split_and!.
Qed.

(** The recorder keeps the table sound. A recorded binding is stored in its normal
    form, for that action only, and the table stays valid and free of conflicts; it is
    refused as invalid exactly with the code of its validation, and as a conflict
    only when another action of the table already has it. A key press that gives no
    binding at all (such as Ctrl with the space bar or the plus key) is not refused:
    it clears the binding. *)
Theorem commit_shortcut_sound t action raw :
  action ∈ shortcutActions → table_sound t →
  match commitBinding t action raw with
  | Committed t' =>
      table_sound t' ∧
      (∀ id, jsmap_get id t' =
        if decide (id = sa_id action) then Some (normalizeShortcutBinding (Some raw)) else jsmap_get id t)
  | CommitInvalid code => validateShortcutBinding (normalizeShortcutBinding (Some raw)) = Some code
  | CommitConflict other =>
      ∃ o b, other = Some o ∧ o ≠ sa_id action ∧ (o, b) ∈ t ∧ is_Some b ∧
        b = normalizeShortcutBinding (Some raw)
  end ∧
  (normalizeShortcutBinding (Some raw) = None →
    commitBinding t action raw = Committed (clearBinding t action)).
Proof.
  intros Ha (Hnd & Hs & Ht). unfold commitBinding. cbv zeta.
  destruct (validateShortcutBinding _) as [code|] eqn:Ev.
  { split; [done|]. intros Hn. by rewrite Hn in Ev. }
  pose proof (normalize_sound raw Ev) as Hb. set (b := normalizeShortcutBinding (Some raw)) in *.
  pose proof (jsmap_set_NoDup (sa_id action) b t Hnd) as Hnd'.
  destruct (js_find _ (findShortcutConflicts _ _)) as [c|] eqn:Ec.
  - apply js_find_Some in Ec as [Hc Hid].
    destruct (rebind_conflict t (sa_id action) b c Hnd Hc Hid) as (Hbc & a & Hain & Hane & Hac).
    split; [|intros Hn; destruct Hb as [_ Hb]; congruence].
    destruct (js_find_is_Some (λ item, sa_id item ≠ sa_id action ∧ sa_id item ∈ sc_actionIds c) _ a Hain)
      as [o Ho]; [done|]. rewrite Ho. apply js_find_Some in Ho as (Hoin & Hone & Hoc).
    apply elem_of_conflicts in Hc as [Hl _]. rewrite Hl in Hoc.
    apply elem_of_bound_ids in Hoc as (_ & b' & Hb' & Hbn).
    apply jsmap_elem_get in Hb'; [|done]. rewrite jsmap_get_set, decide_False in Hb' by done.
    apply jsmap_get_elem in Hb'. exists (sa_id o), b'. split_and!; [done..| |].
    + destruct b'; [done|]. done.
    + destruct (Hs _ _ Hb') as [_ Hbb]. destruct Hb as [_ Hb]. congruence.
  - rewrite js_find_None in Ec. split; [|by intros ->]. split; [|intros id; apply jsmap_get_set].
    split_and!; [done|by apply set_sound|by apply rebind_no_conflict].
Qed.

Lemma default_table_sound : table_sound defaultShortcutBindings.
Proof.
  split_and!; [vm_decide| |by vm_compute].
  intros id b. unfold defaultShortcutBindings. rewrite table_of_eq.
  intros (action & [= -> ->] & Ha)%list_elem_of_fmap. by apply default_sound.
Qed.

Definition open_settings : ShortcutAction :=
  mkShortcut "settings.open" DispatchGlobal CatGeneral (Some "Ctrl+,") ScopeGlobal true.

Lemma commit_shortcut_sound_witness :
  open_settings ∈ shortcutActions ∧ table_sound defaultShortcutBindings ∧
  (∃ t', commitBinding defaultShortcutBindings open_settings "alt+f2" = Committed t' ∧ table_sound t') ∧
  commitBinding defaultShortcutBindings open_settings "Ctrl++" =
    Committed (clearBinding defaultShortcutBindings open_settings).
Proof.
  split; [by right; left|]. split; [apply default_table_sound|]. split.
  - destruct (commit_shortcut_sound defaultShortcutBindings open_settings "alt+f2") as [Hc _];
      [by right; left|apply default_table_sound|].
    destruct (commitBinding defaultShortcutBindings open_settings "alt+f2") as [code|other|t'] eqn:E.
    + by vm_compute in E.
    + by vm_compute in E.
    + exists t'. split; [done|]. by destruct Hc.
  - apply (commit_shortcut_sound defaultShortcutBindings open_settings "Ctrl++");
      [by right; left|apply default_table_sound|by vm_compute].
Defined.
