(* ===== verification/Actions.v ===== *)
(** * Workspace actions ([features/shortcuts/actionContext.ts], [actionRegistry.ts],
      [useWorkspaceActionShortcuts.ts])

    The target an action applies to, the policy that enables or disables it with a
    reason, and the key presses that run actions. *)

From S2P Require Import Prelude SessionTypes ShortcutKeys Shortcuts.
From Stdlib Require Import Lia.

#[local] Open Scope nat_scope.

(** ** Context *)

Record ActionInstanceRef := mkActionInstance {
  ai_id : string;
  ai_kind : InstanceKind;
  ai_canCreateTerminal : option bool;
  ai_canSearch : option bool;
  ai_canSplit : option bool;
  ai_searchQuery : option string;
}.

Inductive ActionItemRef :=
  | ItemHome (id : string)
  | ItemInstance (id : string) (kind : InstanceKind)
  | ItemSplit (id : string) (memberIds : list string).

Definition action_item_id (item : ActionItemRef) : string :=
  match item with ItemHome id | ItemInstance id _ | ItemSplit id _ => id end.

Record ActionPaneRef := mkActionPane {
  ap_id : string;
  ap_itemId : string;
  ap_instanceId : option string;
}.

Record WorkspaceActionContext := mkActionContext {
  ac_workspaceVisible : bool;
  ac_activeItemId : option string;
  ac_activePaneId : option string;
  ac_items : list ActionItemRef;
  ac_instances : list ActionInstanceRef;
  ac_panes : list ActionPaneRef;
  ac_commandSenderTargetCount : Z;
  ac_canOpenTunnels : option bool;
}.

Inductive ActionTargetSelector :=
  | SelItem (itemId : string)
  | SelInstance (instanceId : string)
  | SelPane (itemId paneId : string).

Inductive ActionTargetKind := TkNone | TkItem | TkInstance | TkTerminal | TkPane | TkSplitGroup.

#[export] Instance ActionTargetKind_eq_dec : EqDecision ActionTargetKind.
Proof. solve_decision. Defined.

Inductive ActionTarget :=
  | TargetApplication
  | TargetItem (itemId : string)
  | TargetSplitGroup (itemId : string)
  | TargetInstance (instanceId : string) (instanceKind : InstanceKind)
  | TargetPane (itemId paneId : string) (instanceId : option string).

#[export] Instance ActionTarget_eq_dec : EqDecision ActionTarget.
Proof. solve_decision. Defined.

Inductive ActionDisabledReason :=
  | RsWorkspaceInactive | RsNoActiveSession | RsTargetMissing | RsWrongTargetKind
  | RsEmptyPane | RsTerminalRequired | RsTerminalUnavailable | RsSearchQueryEmpty
  | RsUnknownAction | RsLocalOnly | RsNoCommandTargets | RsNoMultiExecTargets
  | RsShortcutUnbound | RsInputFocus | RsHandlerUnavailable | RsActionPending
  | RsCapabilityUnavailable | RsSplitUnavailable | RsTunnelUnavailable.

#[export] Instance ActionDisabledReason_eq_dec : EqDecision ActionDisabledReason.
Proof. solve_decision. Defined.

(** A target or the reason why there is none. *)
Definition ActionTargetResolution : Type := ActionDisabledReason + ActionTarget.

Definition is_terminal_kind (k : InstanceKind) : bool :=
  match k with KSsh | KLocal => true | KRdp | KVnc => false end.

(** ** Resolving a target *)

Definition resolveInstance (context : WorkspaceActionContext) (instanceId : string)
    (kind : ActionTargetKind) (expectedKind : option InstanceKind) : ActionTargetResolution :=
  match js_find (λ candidate, ai_id candidate = instanceId) (ac_instances context) with
  | None => inl RsTargetMissing
  | Some i =>
      if bool_decide (is_Some expectedKind) && bool_decide (Some (ai_kind i) ≠ expectedKind)
      then inl RsTargetMissing
      else if bool_decide (kind = TkTerminal) && negb (is_terminal_kind (ai_kind i))
      then inl RsTerminalRequired
      else inr (TargetInstance instanceId (ai_kind i))
  end.

(** The part after the item is known to be a split group. *)
Definition resolve_in_split (context : WorkspaceActionContext) (kind : ActionTargetKind)
    (selector : option ActionTargetSelector) (itemId : string) (memberIds : list string) :
    ActionTargetResolution :=
  let paneId :=
    match selector with
    | Some (SelPane _ paneId) => Some paneId
    | _ => if bool_decide (Some itemId = ac_activeItemId context) then ac_activePaneId context else None
    end in
  match js_find (λ candidate, Some (ap_id candidate) = paneId ∧ ap_itemId candidate = itemId)
          (ac_panes context) with
  | None => inl RsTargetMissing
  | Some pane =>
      let checked : option ActionDisabledReason :=
        match ap_instanceId pane with
        | None => None
        | Some instanceId =>
            let member := js_find (λ candidate, ai_id candidate = instanceId) (ac_instances context) in
            match member with
            | Some m =>
                if bool_decide (instanceId ∉ memberIds) then Some RsTargetMissing
                else if negb (is_terminal_kind (ai_kind m)) then Some RsWrongTargetKind else None
            | None => Some RsTargetMissing
            end
        end in
      match checked with
      | Some reason => inl reason
      | None =>
          if decide (kind = TkPane) then inr (TargetPane itemId (ap_id pane) (ap_instanceId pane))
          else match ap_instanceId pane with
               | None => inl RsEmptyPane
               | Some instanceId => resolveInstance context instanceId kind None
               end
      end
  end.

Definition is_pane_selector (selector : option ActionTargetSelector) : bool :=
  match selector with Some (SelPane _ _) => true | _ => false end.

(** The part after the item is found. *)
Definition resolve_item (context : WorkspaceActionContext) (kind : ActionTargetKind)
    (selector : option ActionTargetSelector) (item : ActionItemRef) : ActionTargetResolution :=
  match item with
  | ItemHome _ => inl RsNoActiveSession
  | ItemInstance id itemKind =>
      if decide (kind = TkItem ∨ kind = TkSplitGroup) then
        if is_pane_selector selector || bool_decide (kind = TkSplitGroup) then inl RsWrongTargetKind
        else if bool_decide (Exists (λ i, ai_id i = id ∧ ai_kind i = itemKind) (ac_instances context))
        then inr (TargetItem id) else inl RsTargetMissing
      else if bool_decide (kind = TkPane) || is_pane_selector selector then inl RsWrongTargetKind
      else resolveInstance context id kind (Some itemKind)
  | ItemSplit id memberIds =>
      if decide (kind = TkItem ∨ kind = TkSplitGroup) then
        if is_pane_selector selector then inl RsWrongTargetKind
        else inr (if decide (kind = TkItem) then TargetItem id else TargetSplitGroup id)
      else resolve_in_split context kind selector id memberIds
  end.

Definition resolveActionTarget (context : WorkspaceActionContext) (kind : ActionTargetKind)
    (selector : option ActionTargetSelector) : ActionTargetResolution :=
  if decide (kind = TkNone) then
    match selector with Some _ => inl RsWrongTargetKind | None => inr TargetApplication end
  else if negb (ac_workspaceVisible context) then inl RsWorkspaceInactive
  else
    match selector with
    | Some (SelInstance instanceId) =>
        if decide (kind = TkInstance ∨ kind = TkTerminal)
        then resolveInstance context instanceId kind None
        else inl RsWrongTargetKind
    | _ =>
        let itemId :=
          match selector with
          | Some (SelItem itemId) | Some (SelPane itemId _) => Some itemId
          | _ => ac_activeItemId context
          end in
        match itemId with
        | None => inl RsNoActiveSession
        | Some itemId =>
            match js_find (λ candidate, action_item_id candidate = itemId) (ac_items context) with
            | None => inl RsTargetMissing
            | Some item => resolve_item context kind selector item
            end
        end
    end.

(** ** The action registry *)

Inductive FocusKind := FocusWorkspace | FocusEditable | FocusTerminal | FocusTerminalSearch | FocusMenu.

#[export] Instance FocusKind_eq_dec : EqDecision FocusKind.
Proof. solve_decision. Defined.

Record ActionFocusContext := mkFocus {
  af_kind : FocusKind;
  af_composing : option bool;
}.

Inductive ActionSource := SourceMenu | SourceToolbar | SourceContextMenu | SourceShortcut.

#[export] Instance ActionSource_eq_dec : EqDecision ActionSource.
Proof. solve_decision. Defined.

Record WorkspaceActionRequest := mkActionRequest {
  ar_actionId : string;
  ar_target : option ActionTargetSelector;
  ar_source : option ActionSource;
  ar_focus : option ActionFocusContext;
}.

Record WorkspaceActionState := mkActionState {
  as_actionId : string;
  as_binding : option string;
  as_enabled : bool;
  as_target : option ActionTarget;
  as_reason : option ActionDisabledReason;
}.

Inductive Capability :=
  | CapCreateTerminal | CapSearch | CapSearchResult | CapCommandTargets | CapMultiExec
  | CapSplit | CapTunnels.

#[export] Instance Capability_eq_dec : EqDecision Capability.
Proof. solve_decision. Defined.

Record ActionPolicy := mkPolicy {
  po_target : ActionTargetKind;
  po_capability : option Capability;
  po_deferred : option ActionDisabledReason;
}.

Definition shortcutPolicies : jsmap ActionPolicy :=
  [("connection.quickOpen", mkPolicy TkNone None None);
   ("settings.open", mkPolicy TkNone None None);
   ("terminal.newTab", mkPolicy TkTerminal (Some CapCreateTerminal) None);
   ("terminal.closeTab", mkPolicy TkInstance None None);
   ("terminal.search.toggle", mkPolicy TkTerminal (Some CapSearch) None);
   ("terminal.search.next", mkPolicy TkTerminal (Some CapSearchResult) None);
   ("terminal.search.previous", mkPolicy TkTerminal (Some CapSearchResult) None);
   ("ai.sendMessage", mkPolicy TkNone None (Some RsLocalOnly));
   ("commandSender.toggle", mkPolicy TkNone (Some CapCommandTargets) None)].

Definition entryPolicies : jsmap ActionPolicy :=
  [("view.toggleSidebar", mkPolicy TkNone None None);
   ("view.toggleTools", mkPolicy TkNone None None);
   ("terminal.splitRight", mkPolicy TkTerminal (Some CapSplit) None);
   ("terminal.splitDown", mkPolicy TkTerminal (Some CapSplit) None);
   ("terminal.splitFour", mkPolicy TkTerminal (Some CapSplit) None);
   ("tools.tunnels", mkPolicy TkNone (Some CapTunnels) None);
   ("tools.x11", mkPolicy TkNone None (Some RsCapabilityUnavailable));
   ("help.shortcuts", mkPolicy TkNone None None);
   ("help.about", mkPolicy TkNone None None);
   ("workspace.closeItem", mkPolicy TkItem None None);
   ("terminal.closePane", mkPolicy TkPane None None);
   ("terminal.closeSplitGroup", mkPolicy TkSplitGroup None None);
   ("terminal.multiExec", mkPolicy TkNone (Some CapMultiExec) None)].

Definition workspaceActionIds : list string := (sa_id <$> shortcutActions) ++ entryPolicies.*1.

Definition action_policy (actionId : string) : option ActionPolicy :=
  let policy := match getShortcutAction actionId with
                | Some _ => jsmap_get actionId shortcutPolicies
                | None => None
                end in
  match policy with Some p => Some p | None => jsmap_get actionId entryPolicies end.

(** The focus rules of a key press; [None] when it may run. *)
Definition shortcut_gate (shortcut : option ShortcutAction) (binding : option string)
    (focus : option ActionFocusContext) : option ActionDisabledReason :=
  match shortcut with
  | None => Some RsShortcutUnbound
  | Some shortcut =>
      if negb (truthy binding) then Some RsShortcutUnbound
      else
        match focus with
        | None => Some RsInputFocus
        | Some focus =>
            if default false (af_composing focus) || bool_decide (af_kind focus = FocusEditable) ||
               bool_decide (af_kind focus = FocusMenu) then Some RsInputFocus
            else if bool_decide (af_kind focus = FocusTerminal) && negb (sa_allowInTerminal shortcut)
            then Some RsInputFocus
            else if bool_decide (af_kind focus = FocusTerminalSearch) &&
                    negb (bool_decide (sa_scope shortcut = ScopeTerminal)) &&
                    negb (bool_decide (sa_scope shortcut = ScopeTerminalSearch))
            then Some RsInputFocus
            else None
        end
  end.

(** What the workspace must offer for an action; [None] when it does. *)
Definition capability_gate (context : WorkspaceActionContext) (capability : option Capability)
    (target : ActionTarget) : option ActionDisabledReason :=
  let noTargets := negb (bool_decide (ac_commandSenderTargetCount context > 0)%Z) in
  if bool_decide (capability = Some CapMultiExec) && negb (ac_workspaceVisible context)
  then Some RsWorkspaceInactive
  else if bool_decide (capability = Some CapCommandTargets) && noTargets then Some RsNoCommandTargets
  else if bool_decide (capability = Some CapMultiExec) && noTargets then Some RsNoMultiExecTargets
  else if bool_decide (capability = Some CapTunnels) && negb (default false (ac_canOpenTunnels context))
  then Some RsTunnelUnavailable
  else
    match target, capability with
    | TargetInstance instanceId _, Some cap =>
        let instance := js_find (λ i, ai_id i = instanceId) (ac_instances context) in
        let is_true (f : ActionInstanceRef → option bool) :=
          bool_decide ((instance ≫= f) = Some true) in
        match cap with
        | CapSplit => if is_true ai_canSplit then None else Some RsSplitUnavailable
        | CapCreateTerminal => if is_true ai_canCreateTerminal then None else Some RsTerminalUnavailable
        | CapSearch => if is_true ai_canSearch then None else Some RsTerminalUnavailable
        | CapSearchResult =>
            if negb (is_true ai_canSearch) then Some RsTerminalUnavailable
            else if negb (truthy (js_trim <$> (instance ≫= ai_searchQuery))) then Some RsSearchQueryEmpty
            else None
        | _ => None
        end
    | _, _ => None
    end.

Definition resolveWorkspaceAction (request : WorkspaceActionRequest) (context : WorkspaceActionContext)
    (bindings : shortcut_table) : WorkspaceActionState :=
  let actionId := ar_actionId request in
  let shortcut := getShortcutAction actionId in
  let binding := resolveShortcutBindingById bindings actionId in
  let disabled reason := mkActionState actionId binding false None (Some reason) in
  match action_policy actionId with
  | None => disabled RsUnknownAction
  | Some policy =>
      if bool_decide (sa_dispatch <$> shortcut = Some DispatchLocal) then disabled RsLocalOnly
      else
        match po_deferred policy with
        | Some reason => disabled reason
        | None =>
            let gate :=
              if decide (ar_source request = Some SourceShortcut)
              then shortcut_gate shortcut binding (ar_focus request) else None in
            match gate with
            | Some reason => disabled reason
            | None =>
                match resolveActionTarget context (po_target policy) (ar_target request) with
                | inl reason => disabled reason
                | inr target =>
                    match capability_gate context (po_capability policy) target with
                    | Some reason => disabled reason
                    | None => mkActionState actionId binding true (Some target) None
                    end
                end
            end
        end
  end.

(** ** Key presses ([useWorkspaceActionShortcuts.ts]) *)

(** What [focusKind] reads of the event target. *)
Record DomTarget := mkDomTarget {
  dt_inTerminalSearch : bool;
  dt_inTerminal : bool;
  dt_inMenu : bool;
  dt_isHtmlElement : bool;
  dt_isContentEditable : bool;
  dt_tagName : string;
}.

Definition isEditableTarget (target : option DomTarget) : bool :=
  match target with
  | None => false
  | Some t =>
      dt_isHtmlElement t &&
      (dt_isContentEditable t || bool_decide (toLowerCase (dt_tagName t) ∈ ["input"; "textarea"; "select"]))
  end.

Definition focusKind (target : option DomTarget) : FocusKind :=
  let test f := match target with Some t => f t | None => false end in
  if test dt_inTerminalSearch then FocusTerminalSearch
  else if test dt_inTerminal then FocusTerminal
  else if test dt_inMenu then FocusMenu
  else if isEditableTarget target then FocusEditable
  else FocusWorkspace.

Definition actionFocusContextForKeyboardEvent (target : option DomTarget) (isComposing : bool) :
    ActionFocusContext :=
  mkFocus (focusKind target) (if isComposing then Some true else None).

Definition shortcut_request (focus : ActionFocusContext) (action : ShortcutAction) : WorkspaceActionRequest :=
  mkActionRequest (sa_id action) None (Some SourceShortcut) (Some focus).

(** The loop of [handleKeyDown]: the request that is run, if any; [resolve] is the
    executor's. *)
Definition handleKeyDown (bindings : shortcut_table) (resolve : WorkspaceActionRequest → WorkspaceActionState)
    (event : KeyboardEvent) (focus : ActionFocusContext) : option WorkspaceActionRequest :=
  (shortcut_request focus ∘ fst) <$>
    js_find (λ item, truthy item.2 = true ∧ keyboardEventMatchesShortcut event item.2 = true ∧
                     as_enabled (resolve (shortcut_request focus item.1)) = true)
      (resolveGlobalShortcutBindings bindings).

(** ** What a target designates *)

Section designates.
Context (context : WorkspaceActionContext).

(** An open instance of that identity. *)
Definition live_instance (id : string) (kind : InstanceKind) : Prop :=
  ∃ i, i ∈ ac_instances context ∧ ai_id i = id ∧ ai_kind i = kind.

Definition session_kind (kind : ActionTargetKind) (k : InstanceKind) : Prop :=
  kind = TkInstance ∨ kind = TkTerminal ∧ is_terminal_kind k = true.

(** The item that a selector names: itself, or the active one without a selector. *)
Definition names_item (selector : option ActionTargetSelector) (itemId : string) : Prop :=
  selector = Some (SelItem itemId) ∨ selector = None ∧ ac_activeItemId context = Some itemId.

(** The pane: itself, or the active pane when the group is the active item. *)
Definition names_pane (selector : option ActionTargetSelector) (itemId paneId : string) : Prop :=
  selector = Some (SelPane itemId paneId) ∨
  names_item selector itemId ∧ ac_activeItemId context = Some itemId ∧ ac_activePaneId context = Some paneId.

(** A pane of a group, empty or showing an open terminal of the group. *)
Definition group_pane (itemId paneId : string) (instanceId : option string) : Prop :=
  (∃ memberIds, ItemSplit itemId memberIds ∈ ac_items context ∧
    ∀ id, instanceId = Some id → id ∈ memberIds ∧ ∃ k, live_instance id k ∧ is_terminal_kind k = true) ∧
  mkActionPane paneId itemId instanceId ∈ ac_panes context.

Inductive designates : ActionTargetKind → option ActionTargetSelector → ActionTarget → Prop :=
  | des_application : designates TkNone None TargetApplication
  | des_instance kind id k :
      session_kind kind k → live_instance id k →
      designates kind (Some (SelInstance id)) (TargetInstance id k)
  | des_standalone_item selector id k :
      names_item selector id → ItemInstance id k ∈ ac_items context → live_instance id k →
      designates TkItem selector (TargetItem id)
  | des_group_item selector id memberIds :
      names_item selector id → ItemSplit id memberIds ∈ ac_items context →
      designates TkItem selector (TargetItem id)
  | des_group selector id memberIds :
      names_item selector id → ItemSplit id memberIds ∈ ac_items context →
      designates TkSplitGroup selector (TargetSplitGroup id)
  | des_standalone kind selector id k :
      session_kind kind k → names_item selector id → ItemInstance id k ∈ ac_items context →
      live_instance id k → designates kind selector (TargetInstance id k)
  | des_pane selector itemId paneId instanceId :
      names_pane selector itemId paneId → group_pane itemId paneId instanceId →
      designates TkPane selector (TargetPane itemId paneId instanceId)
  | des_pane_instance kind selector itemId paneId id k :
      session_kind kind k → names_pane selector itemId paneId →
      group_pane itemId paneId (Some id) → live_instance id k →
      designates kind selector (TargetInstance id k).

Record context_ok : Prop := {
  co_items : NoDup (action_item_id <$> ac_items context);
  co_instances : NoDup (ai_id <$> ac_instances context);
  co_panes : NoDup ((λ p, (ap_id p, ap_itemId p)) <$> ac_panes context);
}.
End designates.

(** *** Lemmas *)

Lemma js_find_key {A K} (f : A → K) (P : A → Prop) `{∀ x, Decision (P x)} (l : list A) k x :
  NoDup (f <$> l) → (∀ y, P y → f y = k) → x ∈ l → P x → js_find P l = Some x.
Proof.
  intros Hnd HP Hx HPx. destruct (js_find_is_Some P l x Hx HPx) as [y Hy]. rewrite Hy. f_equal.
  apply js_find_Some in Hy as [Hyl Hyp].
  apply (NoDup_fmap_inj_elem f l y x); [done..|]. by rewrite (HP _ Hyp), (HP _ HPx).
Qed.

Section resolve.
Context (context : WorkspaceActionContext) (Hok : context_ok context).

Lemma find_instance id k :
  live_instance context id k ↔
  ∃ i, js_find (λ candidate, ai_id candidate = id) (ac_instances context) = Some i ∧ ai_kind i = k.
Proof.
  split.
  - intros (i & Hi & <- & <-). exists i. split; [|done].
    by apply (js_find_key ai_id _ _ (ai_id i)); [apply Hok|..].
  - intros (i & [Hi <-]%js_find_Some & <-). by exists i.
Qed.

Lemma find_instance_None id :
  js_find (λ candidate, ai_id candidate = id) (ac_instances context) = None → ∀ k, ¬ live_instance context id k.
Proof. intros Hn k (i & Hi & _)%find_instance. congruence. Qed.

Lemma live_instance_fun id k k' : live_instance context id k → live_instance context id k' → k = k'.
Proof. intros (i & Hi & <-)%find_instance (j & Hj & <-)%find_instance. congruence. Qed.

Lemma find_item item :
  item ∈ ac_items context ↔
  js_find (λ candidate, action_item_id candidate = action_item_id item) (ac_items context) = Some item.
Proof.
  split; [|by intros [? _]%js_find_Some].
  intros Hi. by apply (js_find_key action_item_id _ _ (action_item_id item)); [apply Hok|..].
Qed.

Lemma find_pane itemId paneId inst :
  mkActionPane paneId itemId inst ∈ ac_panes context ↔
  js_find (λ candidate, Some (ap_id candidate) = Some paneId ∧ ap_itemId candidate = itemId)
    (ac_panes context) = Some (mkActionPane paneId itemId inst).
Proof.
  split; [|by intros [? _]%js_find_Some].
  intros Hp. apply (js_find_key (λ p, (ap_id p, ap_itemId p)) _ _ (paneId, itemId)); [apply Hok| |done..].
  by intros y [[= ->] ->].
Qed.

Lemma resolveInstance_spec id kind expected target :
  kind = TkInstance ∨ kind = TkTerminal →
  resolveInstance context id kind expected = inr target ↔
  ∃ k, target = TargetInstance id k ∧ session_kind kind k ∧ live_instance context id k ∧
       (∀ e, expected = Some e → e = k).
Proof.
  intros Hkind. unfold resolveInstance. destruct (js_find _ _) as [i|] eqn:Ei.
  - assert (live_instance context id (ai_kind i)) as Hl by (apply find_instance; eauto).
    split.
    + destruct (bool_decide (is_Some expected) && _) eqn:E1; [done|].
      destruct (bool_decide (kind = TkTerminal) && _) eqn:E2; [done|]. intros [= <-].
      exists (ai_kind i). split; [done|]. split; [|split; [done|]].
      * destruct Hkind as [->| ->]; [by left|right]. by apply negb_false_iff in E2.
      * intros e ->. apply andb_false_iff in E1 as [E1|E1]; [done|]. apply bool_decide_eq_false in E1.
        apply dec_stable in E1. congruence.
    + intros (k & -> & Hs & Hl' & He). rewrite (live_instance_fun _ _ _ Hl' Hl) in *.
      assert (bool_decide (is_Some expected) && bool_decide (Some (ai_kind i) ≠ expected) = false) as ->.
      { destruct expected as [e|]; [|done]. rewrite (He e eq_refl).
        rewrite (bool_decide_false (Some _ ≠ _)) by auto. by rewrite andb_false_r. }
      assert (bool_decide (kind = TkTerminal) && negb (is_terminal_kind (ai_kind i)) = false) as ->; [|done].
      destruct Hs as [->|[-> ->]]; [done|]. by rewrite andb_false_r.
  - split; [done|]. intros (k & _ & _ & Hl & _). by destruct (find_instance_None _ Ei k).
Qed.

(** The pane that [resolve_in_split] looks up. *)
Definition chosen_pane (selector : option ActionTargetSelector) (itemId : string) : option string :=
  match selector with
  | Some (SelPane _ paneId) => Some paneId
  | _ => if bool_decide (Some itemId = ac_activeItemId context) then ac_activePaneId context else None
  end.

Lemma find_chosen_pane selector itemId pane :
  js_find (λ candidate, Some (ap_id candidate) = chosen_pane selector itemId ∧ ap_itemId candidate = itemId)
    (ac_panes context) = Some pane ↔
  chosen_pane selector itemId = Some (ap_id pane) ∧ ap_itemId pane = itemId ∧ pane ∈ ac_panes context.
Proof.
  split; [intros [? [? ?]]%js_find_Some; by split_and!|].
  intros (Hp & <- & Hin). rewrite Hp.
  by apply (js_find_key (λ p, (ap_id p, ap_itemId p)) _ _ (ap_id pane, ap_itemId pane));
    [apply Hok|intros y [[= ->] ->]|..].
Qed.

Lemma group_pane_checked itemId memberIds pane :
  ItemSplit itemId memberIds ∈ ac_items context → pane ∈ ac_panes context → ap_itemId pane = itemId →
  group_pane context itemId (ap_id pane) (ap_instanceId pane) ↔
  match ap_instanceId pane with
  | None => True
  | Some id => id ∈ memberIds ∧ ∃ i, js_find (λ candidate, ai_id candidate = id) (ac_instances context) = Some i ∧
                 is_terminal_kind (ai_kind i) = true
  end.
Proof.
  intros Hin Hp Hpi. split.
  - intros [(ms & Hms & Hall) _]. destruct (ap_instanceId pane) as [id|]; [|done].
    apply (find_item (ItemSplit itemId ms)) in Hms. apply (find_item (ItemSplit itemId memberIds)) in Hin.
    cbn in Hms, Hin. destruct (Hall id eq_refl) as [Hid (k & (i & Hi & <-)%find_instance & Hk)].
    split; [congruence|eauto].
  - intros Hc. split; [|destruct pane; cbn in *; by subst].
    exists memberIds. split; [done|]. intros id Hid. rewrite Hid in Hc. destruct Hc as [? (i & Hi & Hk)].
    split; [done|]. exists (ai_kind i). split; [apply find_instance; eauto|done].
Qed.

Lemma resolve_in_split_spec kind selector itemId memberIds target :
  ItemSplit itemId memberIds ∈ ac_items context → kind = TkPane ∨ kind = TkInstance ∨ kind = TkTerminal →
  resolve_in_split context kind selector itemId memberIds = inr target ↔
  ∃ paneId inst, chosen_pane selector itemId = Some paneId ∧ group_pane context itemId paneId inst ∧
    (kind = TkPane ∧ target = TargetPane itemId paneId inst ∨
     kind ≠ TkPane ∧ ∃ id k, inst = Some id ∧ target = TargetInstance id k ∧ session_kind kind k ∧
       live_instance context id k).
Proof.
  intros Hin Hkind. unfold resolve_in_split. cbv zeta. fold (chosen_pane selector itemId).
  destruct (js_find _ (ac_panes context)) as [pane|] eqn:Ep.
  - apply find_chosen_pane in Ep as (Hc & Hpi & Hp).
    pose proof (group_pane_checked itemId memberIds pane Hin Hp Hpi) as Hg.
    assert (∀ paneId inst, chosen_pane selector itemId = Some paneId → group_pane context itemId paneId inst →
      paneId = ap_id pane ∧ inst = ap_instanceId pane) as Huniq.
    { intros paneId inst Hc' [_ Hp']. assert (paneId = ap_id pane) as -> by congruence.
      assert (mkActionPane (ap_id pane) itemId inst = pane) as <-; [|done].
      eapply (NoDup_fmap_inj_elem (λ p, (ap_id p, ap_itemId p))); [apply Hok|done..|]. cbn. by rewrite Hpi. }
    destruct (ap_instanceId pane) as [id|] eqn:Einst.
    + destruct (js_find _ (ac_instances context)) as [m|] eqn:Em.
      2: { split; [done|]. intros (pid & inst & Hc' & Hg' & _). destruct (Huniq _ _ Hc' Hg') as [-> ->].
           apply Hg in Hg' as [_ (i & ? & _)]. congruence. }
      case_bool_decide as Hmem.
      { split; [done|]. intros (pid & inst & Hc' & Hg' & _). destruct (Huniq _ _ Hc' Hg') as [-> ->].
        by apply Hg in Hg' as [? _]. }
      destruct (is_terminal_kind (ai_kind m)) eqn:Ek; cbn [negb].
      2: { split; [done|]. intros (pid & inst & Hc' & Hg' & _). destruct (Huniq _ _ Hc' Hg') as [-> ->].
           apply Hg in Hg' as [_ (i & ? & ?)]. congruence. }
      assert (group_pane context itemId (ap_id pane) (Some id)) as Hgp by (apply Hg; eauto).
      case_decide as Hk.
      * split; [intros [= <-]; exists (ap_id pane), (Some id); by split_and!; [..|left]|].
        intros (pid & inst & Hc' & Hg' & [[_ ->]|[? _]]); [|done]. by destruct (Huniq _ _ Hc' Hg') as [-> ->].
      * rewrite resolveInstance_spec by tauto. split.
        -- intros (k & -> & Hs & Hl & _). exists (ap_id pane), (Some id). split_and!; [done..|].
           right. split; [done|]. by exists id, k.
        -- intros (pid & inst & Hc' & Hg' & [[? _]|[_ (id' & k & -> & -> & Hs & Hl)]]); [done|].
           destruct (Huniq _ _ Hc' Hg') as [_ [= ->]]. exists k. by split_and!.
    + assert (group_pane context itemId (ap_id pane) None) as Hgp by by apply Hg.
      case_decide as Hk.
      * split; [intros [= <-]; exists (ap_id pane), None; by split_and!; [..|left]|].
        intros (pid & inst & Hc' & Hg' & [[_ ->]|[? _]]); [|done]. by destruct (Huniq _ _ Hc' Hg') as [-> ->].
      * split; [done|]. intros (pid & inst & Hc' & Hg' & [[? _]|[_ (id' & k & -> & _)]]); [done|].
        by destruct (Huniq _ _ Hc' Hg').
  - split; [done|]. intros (pid & inst & Hc & [_ Hp] & _). rewrite js_find_None in Ep.
    destruct (Ep _ Hp). cbn. by rewrite Hc.
Qed.

(** The item a selector leads to. *)
Definition item_of (selector : option ActionTargetSelector) : option string :=
  match selector with
  | Some (SelItem itemId) | Some (SelPane itemId _) => Some itemId
  | Some (SelInstance _) => None
  | None => ac_activeItemId context
  end.

Lemma names_item_of selector itemId :
  names_item context selector itemId ↔ item_of selector = Some itemId ∧ is_pane_selector selector = false.
Proof. unfold names_item. destruct selector as [[i|i|i p]|]; cbn; naive_solver. Qed.

Lemma names_pane_of selector itemId paneId :
  names_pane context selector itemId paneId ↔
  item_of selector = Some itemId ∧ chosen_pane selector itemId = Some paneId.
Proof.
  unfold names_pane. rewrite names_item_of. unfold chosen_pane.
  destruct selector as [[i|i|i p]|]; cbn; try case_bool_decide; naive_solver.
Qed.

Lemma resolve_at kind selector item :
  kind ≠ TkNone → ac_workspaceVisible context = true → item ∈ ac_items context →
  item_of selector = Some (action_item_id item) →
  resolveActionTarget context kind selector = resolve_item context kind selector item.
Proof.
  intros Hk Hv Hin Hi. unfold resolveActionTarget. rewrite decide_False by done. rewrite Hv. cbn [negb].
  apply find_item in Hin.
  destruct selector as [[i|i|i p]|]; cbn in Hi; [injection Hi as ->| |injection Hi as ->|rewrite Hi];
    by rewrite ?Hin.
Qed.

Lemma resolve_at_inv kind selector target :
  kind ≠ TkNone → (∀ id, selector ≠ Some (SelInstance id)) →
  resolveActionTarget context kind selector = inr target →
  ac_workspaceVisible context = true ∧ ∃ item, item ∈ ac_items context ∧
    item_of selector = Some (action_item_id item) ∧ resolve_item context kind selector item = inr target.
Proof.
  intros Hk Hs. unfold resolveActionTarget. rewrite decide_False by done.
  destruct (ac_workspaceVisible context); cbn [negb]; [|done].
  assert (∀ o, (match o with
    | None => inl RsNoActiveSession
    | Some itemId => match js_find (λ candidate, action_item_id candidate = itemId) (ac_items context) with
                     | None => inl RsTargetMissing
                     | Some item => resolve_item context kind selector item end
    end = inr target :> ActionTargetResolution) → true = true ∧ ∃ item, item ∈ ac_items context ∧
      o = Some (action_item_id item) ∧ resolve_item context kind selector item = inr target) as Hfind.
  { intros [itemId|]; [|done]. destruct (js_find _ _) as [item|] eqn:E; [|done].
    apply js_find_Some in E as [Hin <-]. eauto. }
  destruct selector as [[i|i|i p]|]; [apply (Hfind (Some i))|by destruct (Hs i)|apply (Hfind (Some i))|apply Hfind].
Qed.
End resolve.

(** The standalone branch and the group branch against the specification. *)
Lemma resolve_item_spec context kind selector item target :
  context_ok context → kind ≠ TkNone → (∀ id, selector ≠ Some (SelInstance id)) →
  item ∈ ac_items context → item_of context selector = Some (action_item_id item) →
  resolve_item context kind selector item = inr target → designates context kind selector target.
Proof.
  intros Hok Hk Hs Hin Hi Hr. destruct item as [id|id k|id ms]; [done| |]; cbn in Hi.
  - cbn in Hr. case_decide as Hkind.
    + destruct (is_pane_selector selector) eqn:Ep; [done|]. case_bool_decide; [done|].
      case_bool_decide as Hl; [|done]. injection Hr as <-. destruct Hkind as [->|]; [|done].
      eapply des_standalone_item; [by apply names_item_of|done|].
      apply Exists_exists in Hl as (i & ? & ? & ?). by exists i.
    + case_bool_decide; [done|]. destruct (is_pane_selector selector) eqn:Ep; [done|].
      apply resolveInstance_spec in Hr as (k' & -> & Hsk & Hl & He); [|done|destruct kind; tauto].
      rewrite <- (He k eq_refl) in *. eapply des_standalone; [done|by apply names_item_of|done..].
  - cbn in Hr. case_decide as Hkind.
    + destruct (is_pane_selector selector) eqn:Ep; [done|]. injection Hr as <-.
      assert (names_item context selector id) by by apply names_item_of.
      case_decide; subst; [by eapply des_group_item|]. destruct Hkind as [| ->]; [done|]. by eapply des_group.
    + apply resolve_in_split_spec in Hr as (pid & inst & Hc & Hg & Ht); [|done..|destruct kind; tauto].
      assert (names_pane context selector id pid) by by apply names_pane_of.
      destruct Ht as [[-> ->]|(_ & i & k & -> & -> & ? & ?)]; [by apply des_pane|].
      by eapply des_pane_instance.
Qed.

Lemma designates_resolves context kind selector target :
  context_ok context → kind = TkNone ∨ ac_workspaceVisible context = true →
  designates context kind selector target → resolveActionTarget context kind selector = inr target.
Proof.
  intros Hok Hv Hd.
  assert (∀ kind' k, session_kind kind' k → kind' = TkInstance ∨ kind' = TkTerminal) as Hsk
    by (intros ?? [?|[? _]]; auto).
  assert (∀ itemId pid inst, names_pane context selector itemId pid → group_pane context itemId pid inst →
    kind ≠ TkNone → ∃ ms, ItemSplit itemId ms ∈ ac_items context ∧
    resolveActionTarget context kind selector = resolve_item context kind selector (ItemSplit itemId ms)) as Hgroup.
  { intros itemId pid inst [Hn _]%names_pane_of [(ms & Hms & _) _] Hk. exists ms. split; [done|].
    apply resolve_at; [done..|by destruct Hv| |]; done. }
  destruct Hd as [|kind id k Hs Hl|selector id k Hn Hi Hl|selector id ms Hn Hi|selector id ms Hn Hi
    |kind selector id k Hs Hn Hi Hl|selector itemId pid inst Hn Hg|kind selector itemId pid id k Hs Hn Hg Hl].
  - done.
  - destruct (Hsk _ _ Hs) as [->| ->], Hv as [|Hv]; try done; unfold resolveActionTarget; rewrite Hv; cbn;
      apply resolveInstance_spec; eauto; by exists k.
  - destruct Hv as [|Hv]; [done|]. apply names_item_of in Hn as [Hn Hp].
    rewrite (resolve_at _ Hok _ _ (ItemInstance id k)) by done. cbn. rewrite Hp. cbn.
    rewrite (bool_decide_true (Exists _ _)); [done|]. by apply Exists_exists.
  - destruct Hv as [|Hv]; [done|]. apply names_item_of in Hn as [Hn Hp].
    rewrite (resolve_at _ Hok _ _ (ItemSplit id ms)) by done. cbn. by rewrite Hp.
  - destruct Hv as [|Hv]; [done|]. apply names_item_of in Hn as [Hn Hp].
    rewrite (resolve_at _ Hok _ _ (ItemSplit id ms)) by done. cbn. by rewrite Hp.
  - apply names_item_of in Hn as [Hn Hp].
    assert (kind ≠ TkNone) by (by destruct (Hsk _ _ Hs) as [->| ->]). destruct Hv as [|Hv]; [done|].
    rewrite (resolve_at _ Hok _ _ (ItemInstance id k)) by done. cbn.
    rewrite decide_False by (destruct (Hsk _ _ Hs) as [->| ->]; naive_solver).
    rewrite bool_decide_false by (by destruct (Hsk _ _ Hs) as [->| ->]). rewrite Hp. cbn [orb].
    apply resolveInstance_spec; [done|eauto|]. exists k. split_and!; [done..|]. by intros e [= ->].
  - destruct Hv as [|Hv]; [done|]. destruct (Hgroup _ _ _ Hn Hg) as (ms & Hms & ->); [done|].
    apply names_pane_of in Hn as [Hn Hc]. cbn.
    apply resolve_in_split_spec; [done..|by left|]. exists pid, inst. auto.
  - assert (kind ≠ TkNone) by (by destruct (Hsk _ _ Hs) as [->| ->]).
    destruct (Hgroup _ _ _ Hn Hg) as (ms & Hms & ->); [done|]. apply names_pane_of in Hn as [Hn Hc]. cbn.
    rewrite decide_False by (destruct (Hsk _ _ Hs) as [->| ->]; naive_solver).
    apply resolve_in_split_spec; [done..|right; eauto|]. exists pid, (Some id). split_and!; [done..|].
    right. split; [by destruct (Hsk _ _ Hs) as [->| ->]|]. by exists id, k.
Qed.

Lemma resolve_designates context kind selector target :
  context_ok context → resolveActionTarget context kind selector = inr target →
  (kind = TkNone ∨ ac_workspaceVisible context = true) ∧ designates context kind selector target.
Proof.
  intros Hok. destruct (decide (kind = TkNone)) as [->|Hk].
  { destruct selector; [done|]. intros [= <-]. split; [by left|constructor]. }
  intros Hr. destruct selector as [[i|id|i p]|] eqn:Es; rewrite <- Es in *.
  2: { subst selector. unfold resolveActionTarget in Hr. rewrite decide_False in Hr by done.
       destruct (ac_workspaceVisible context); [|done]. cbn in Hr. case_decide as Hkind; [|done].
       apply resolveInstance_spec in Hr as (k & -> & ? & ? & _); [|done..].
       split; [by right|by apply des_instance]. }
  all: destruct (resolve_at_inv context kind selector target Hk) as (Hv & item & Hin & Hi & Hri);
    [by subst selector|done|]; split; [by right|eapply resolve_item_spec; eauto; by subst selector].
Qed.

(** ** Properties *)

(** An action applies to exactly the target its selector designates, or to none.
    A selector never falls back to the focus, the host of the group or a sibling: an
    item, instance or pane that is named is the one that is used, it is still open,
    and a pane shows a terminal of its own group; without a selector the active item
    and its active pane are named; and whatever is designated is found. *)
Theorem action_target_exact context kind selector target :
  context_ok context →
  resolveActionTarget context kind selector = inr target ↔
  (kind = TkNone ∨ ac_workspaceVisible context = true) ∧ designates context kind selector target.
Proof.
  intros Hok. split; [by apply resolve_designates|intros [? ?]; by apply designates_resolves].
Qed.

(** A group of an SSH terminal and a local terminal, with an RDP session apart. *)
Definition action_demo : WorkspaceActionContext :=
  mkActionContext true (Some "split") (Some "p2")
    [ItemHome "home"; ItemSplit "split" ["ssh:a"; "local:l"]; ItemInstance "rdp:r" KRdp]
    [mkActionInstance "ssh:a" KSsh (Some true) (Some true) (Some true) (Some "err");
     mkActionInstance "local:l" KLocal (Some true) (Some true) None None;
     mkActionInstance "rdp:r" KRdp None None None None]
    [mkActionPane "p1" "split" (Some "ssh:a"); mkActionPane "p2" "split" (Some "local:l")]
    0 (Some true).

Lemma action_demo_ok : context_ok action_demo.
Proof. split; vm_decide. Qed.

Lemma action_target_exact_witness :
  designates action_demo TkTerminal None (TargetInstance "local:l" KLocal) ∧
  designates action_demo TkPane (Some (SelPane "split" "p1")) (TargetPane "split" "p1" (Some "ssh:a")) ∧
  ¬ designates action_demo TkTerminal (Some (SelItem "rdp:r")) (TargetInstance "rdp:r" KRdp).
Proof.
  split_and!.
  - by apply (action_target_exact action_demo TkTerminal None (TargetInstance "local:l" KLocal) action_demo_ok).
  - by apply (action_target_exact action_demo TkPane (Some (SelPane "split" "p1"))
      (TargetPane "split" "p1" (Some "ssh:a")) action_demo_ok).
  - intros Hd. assert (resolveActionTarget action_demo TkTerminal (Some (SelItem "rdp:r")) =
      inr (TargetInstance "rdp:r" KRdp)) as Hr; [|by vm_compute in Hr].
    apply (action_target_exact action_demo TkTerminal (Some (SelItem "rdp:r"))
      (TargetInstance "rdp:r" KRdp) action_demo_ok). by split; [right|].
Defined.

(** What a capability asks of the workspace and of the instance acted on. *)
Definition capability_holds (context : WorkspaceActionContext) (cap : Capability) (target : ActionTarget) : Prop :=
  match cap with
  | CapCommandTargets => (0 < ac_commandSenderTargetCount context)%Z
  | CapMultiExec => ac_workspaceVisible context = true ∧ (0 < ac_commandSenderTargetCount context)%Z
  | CapTunnels => ac_canOpenTunnels context = Some true
  | CapCreateTerminal | CapSearch | CapSearchResult | CapSplit =>
      ∀ id k, target = TargetInstance id k → ∃ i, i ∈ ac_instances context ∧ ai_id i = id ∧
        match cap with
        | CapCreateTerminal => ai_canCreateTerminal i = Some true
        | CapSplit => ai_canSplit i = Some true
        | CapSearchResult => ai_canSearch i = Some true ∧ ∃ q, ai_searchQuery i = Some q ∧ js_trim q ≠ ""
        | _ => ai_canSearch i = Some true
        end
  end.



Lemma find_flag {A} (context : WorkspaceActionContext) (f : ActionInstanceRef → option A) id v :
  (js_find (λ i, ai_id i = id) (ac_instances context) ≫= f) = Some v →
  ∃ i, i ∈ ac_instances context ∧ ai_id i = id ∧ f i = Some v.
Proof. intros (i & [Hi Hid]%js_find_Some & Hf)%bind_Some. eauto. Qed.

Lemma instance_gate context (cap : Capability) id k :
  capability_gate context (Some cap) (TargetInstance id k) = None →
  match cap with
  | CapCreateTerminal => (js_find (λ i, ai_id i = id) (ac_instances context) ≫= ai_canCreateTerminal) = Some true
  | CapSearch => (js_find (λ i, ai_id i = id) (ac_instances context) ≫= ai_canSearch) = Some true
  | CapSplit => (js_find (λ i, ai_id i = id) (ac_instances context) ≫= ai_canSplit) = Some true
  | CapSearchResult =>
      (js_find (λ i, ai_id i = id) (ac_instances context) ≫= ai_canSearch) = Some true ∧
      truthy (js_trim <$> (js_find (λ i, ai_id i = id) (ac_instances context) ≫= ai_searchQuery)) = true
  | _ => True
  end.
Proof.
  unfold capability_gate. cbv zeta.
  destruct cap; try done; rewrite !(bool_decide_false (Some _ = Some _)) by done; cbn [andb].
  - by case_bool_decide.
  - by case_bool_decide.
  - case_bool_decide as Hs; cbn [negb]; [|done]. destruct (truthy _); [done|]. done.
  - by case_bool_decide.
Qed.

(** Evaluate the gate for one capability. *)
Ltac gate_eval c :=
  unfold capability_gate; cbv zeta;
  rewrite ?(bool_decide_true (Some c = Some c)) by done;
  rewrite ?(bool_decide_false (Some _ = Some _)) by done; cbn [andb].

Lemma capability_gate_None context cap target :
  capability_gate context (Some cap) target = None → capability_holds context cap target.
Proof.
  intros Hg. unfold capability_holds.
  assert (∀ id k, target = TargetInstance id k →
    capability_gate context (Some cap) (TargetInstance id k) = None) as Hi by (intros id k ->; done).
  destruct cap;
    try (intros id k Ht; specialize (Hi id k Ht); apply instance_gate in Hi).
  - exact (find_flag context ai_canCreateTerminal id true Hi).
  - exact (find_flag context ai_canSearch id true Hi).
  - destruct Hi as [(i & Hf & Hs)%bind_Some Hq]. rewrite Hf in Hq. apply js_find_Some in Hf as [Hin Hid].
    exists i. split_and!; [done..|]. cbn in Hq. destruct (ai_searchQuery i) as [q|]; [|done].
    exists q. split; [done|]. by apply truthy_Some.
  - revert Hg. gate_eval CapCommandTargets. case_bool_decide; [lia|done].
  - revert Hg. gate_eval CapMultiExec. destruct (ac_workspaceVisible context); [|done].
    cbn [negb]. case_bool_decide; [split; [done|lia]|done].
  - exact (find_flag context ai_canSplit id true Hi).
  - revert Hg. gate_eval CapTunnels. by destruct (ac_canOpenTunnels context) as [[]|].
Qed.

(** The focus a key press may run from. *)
Definition focus_allows (action : ShortcutAction) (focus : ActionFocusContext) : Prop :=
  af_composing focus ≠ Some true ∧
  match af_kind focus with
  | FocusWorkspace => True
  | FocusEditable | FocusMenu => False
  | FocusTerminal => sa_allowInTerminal action = true
  | FocusTerminalSearch => sa_scope action = ScopeTerminal ∨ sa_scope action = ScopeTerminalSearch
  end.

Lemma shortcut_gate_None shortcut binding focus :
  shortcut_gate shortcut binding focus = None →
  ∃ action f, shortcut = Some action ∧ truthy binding = true ∧ focus = Some f ∧ focus_allows action f.
Proof.
  unfold shortcut_gate. destruct shortcut as [action|]; [|done].
  destruct (truthy binding) eqn:Eb; [|done]. destruct focus as [[k comp]|]; [|done]. cbn [negb af_composing af_kind].
  intros Hg. exists action, (mkFocus k comp). split_and!; [done..|]. unfold focus_allows. cbn [af_composing af_kind].
  destruct comp as [[]|]; [done|split; [done|]..];
    destruct k; cbn in Hg; try done; try (by destruct (sa_allowInTerminal action)).
  all: destruct (sa_scope action); cbn in Hg; auto; done.
Qed.

(** C18: an action is only enabled when it can run. An enabled state names an open
    target that its selector designates, and everything its policy asks for holds:
    the workspace is shown, the instance offers the capability, there are receivers,
    the search has a query; from the keyboard it also needs a registered, bound,
    non-local action and a focus that allows it. A disabled state has a reason and no
    target. *)
Theorem action_enabled_sound request context bindings :
  context_ok context →
  let state := resolveWorkspaceAction request context bindings in
  as_actionId state = ar_actionId request ∧
  if as_enabled state then
    as_reason state = None ∧ ∃ policy target,
      action_policy (ar_actionId request) = Some policy ∧ as_target state = Some target ∧
      po_deferred policy = None ∧
      designates context (po_target policy) (ar_target request) target ∧
      (po_target policy = TkNone ∨ ac_workspaceVisible context = true) ∧
      (∀ cap, po_capability policy = Some cap → capability_holds context cap target) ∧
      (∀ action, getShortcutAction (ar_actionId request) = Some action → sa_dispatch action = DispatchGlobal) ∧
      (ar_source request = Some SourceShortcut → ∃ action f,
        getShortcutAction (ar_actionId request) = Some action ∧
        truthy (resolveShortcutBinding bindings action) = true ∧
        ar_focus request = Some f ∧ focus_allows action f)
  else is_Some (as_reason state) ∧ as_target state = None.
Proof.
  intros Hok. cbv zeta. unfold resolveWorkspaceAction. cbv zeta.
  destruct (action_policy _) as [policy|] eqn:Ep; [|by split_and!].
  case_bool_decide as Hl; [by split_and!|].
  destruct (po_deferred policy) eqn:Ed; [by split_and!|].
  destruct (if decide (ar_source request = Some SourceShortcut) then _ else _) eqn:Eg; [by split_and!|].
  destruct (resolveActionTarget _ _ _) as [reason|target] eqn:Er; [by split_and!|].
  destruct (capability_gate _ _ _) eqn:Ec; [by split_and!|].
  cbn [as_actionId as_enabled as_reason as_target]. split; [done|]. split; [done|]. exists policy, target.
  apply resolve_designates in Er as [Hv Hd]; [|done].
  split_and!; [done..| | |].
  - intros cap Hcap. rewrite Hcap in Ec. by apply capability_gate_None.
  - intros action Ha. rewrite Ha in Hl. cbn in Hl. by destruct (sa_dispatch action).
  - intros Hs. rewrite decide_True in Eg by done.
    apply shortcut_gate_None in Eg as (action & f & Ha & Hb & Hf & Hall). exists action, f.
    split_and!; [done| |done..]. unfold resolveShortcutBindingById in Hb. by rewrite Ha in Hb.
Qed.

Lemma action_enabled_sound_witness :
  let request := mkActionRequest "terminal.search.next" (Some (SelPane "split" "p1")) (Some SourceShortcut)
                   (Some (mkFocus FocusTerminal None)) in
  as_enabled (resolveWorkspaceAction request action_demo defaultShortcutBindings) = true ∧
  ∃ policy, action_policy "terminal.search.next" = Some policy ∧
    capability_holds action_demo CapSearchResult (TargetInstance "ssh:a" KSsh).
Proof.
  set (request := mkActionRequest _ _ _ _). cbv zeta.
  destruct (action_enabled_sound request action_demo defaultShortcutBindings action_demo_ok) as [_ Hs].
  assert (as_enabled (resolveWorkspaceAction request action_demo defaultShortcutBindings) = true) as He
    by (vm_compute; reflexivity).
  split; [exact He|]. rewrite He in Hs. destruct Hs as (_ & policy & target & Hp & Ht & _ & _ & _ & Hc & _).
  exists policy. split; [exact Hp|].
  assert (target = TargetInstance "ssh:a" KSsh) as -> by (vm_compute in Ht; congruence).
  apply Hc. vm_compute in Hp. by injection Hp as <-.
Defined.

(** ** Key presses *)

Definition event_binding (event : KeyboardEvent) : ParsedShortcutBinding :=
  mkKeyBinding (ke_altKey event) (ke_ctrlKey event) (normalizeShortcutKey (ke_key event))
    (ke_metaKey event) (ke_shiftKey event).

Lemma matches_normal event value :
  keyboardEventMatchesShortcut event value = true →
  truthy value = true ∧ normalizeShortcutBinding value = Some (serializeShortcutBinding (event_binding event)).
Proof.
  unfold keyboardEventMatchesShortcut, normalizeShortcutBinding.
  destruct (parseShortcutBinding value) as [b|] eqn:Eb; [|done]. case_bool_decide; [done|].
  rewrite !andb_true_iff, !Bool.eqb_true_iff, String.eqb_eq. intros ((((Ha & Hc) & Hm) & Hs) & Hk).
  split; [destruct value as [[|c s]|]; [|done|done]; by vm_compute in Eb|].
  cbn. do 2 f_equal. unfold event_binding. rewrite Ha, Hc, Hm, Hs, Hk. by destruct b.
Qed.

(** In a sound table a normal form belongs to one action. *)
Lemma sound_binding_owner bindings id1 id2 b1 b2 n :
  table_sound bindings → id1 ∈ action_ids → id2 ∈ action_ids →
  jsmap_get id1 bindings = Some b1 → jsmap_get id2 bindings = Some b2 →
  normalizeShortcutBinding b1 = Some n → normalizeShortcutBinding b2 = Some n → id1 = id2.
Proof.
  intros (Hnd & _ & Hc) Hi1 Hi2 H1%jsmap_get_elem H2%jsmap_get_elem Hn1 Hn2.
  assert (id1 ∈ bound_ids action_ids bindings n) as Hb1 by (apply elem_of_bound_ids; eauto).
  assert (id2 ∈ bound_ids action_ids bindings n) as Hb2 by (apply elem_of_bound_ids; eauto).
  destruct (decide (1 < length (bound_ids action_ids bindings n))) as [Hl|Hl].
  - assert (mkConflict (bound_ids action_ids bindings n) n ∈ findShortcutConflicts bindings shortcutActions)
      as Hin by (apply elem_of_conflicts; by split). rewrite Hc in Hin. by apply not_elem_of_nil in Hin.
  - destruct (bound_ids action_ids bindings n) as [|x [|]]; [by apply not_elem_of_nil in Hb1| |cbn in Hl; lia].
    apply list_elem_of_singleton in Hb1, Hb2. congruence.
Qed.

(** With a sound table a key press has at most one action, so the order of the
    registry never decides: the press runs the action whose binding it matches, if
    that action is global and enabled, and nothing otherwise. *)
Theorem key_press_unambiguous bindings resolve event focus request :
  table_sound bindings → (∀ action, action ∈ shortcutActions → sa_id action ∈ bindings.*1) →
  handleKeyDown bindings resolve event focus = Some request ↔
  ∃ action, action ∈ shortcutActions ∧ sa_dispatch action = DispatchGlobal ∧
    keyboardEventMatchesShortcut event (resolveShortcutBinding bindings action) = true ∧
    request = shortcut_request focus action ∧ as_enabled (resolve request) = true.
Proof.
  intros Hsound Hfull. unfold handleKeyDown. split.
  - intros ([action b] & Hf & ->)%fmap_Some. apply js_find_Some in Hf as [Hin (_ & Hm & He)].
    apply list_elem_of_fmap in Hin as (a & [= -> ->] & [Hd Ha]%list_elem_of_filter). cbn in *.
    exists a. by split_and!.
  - intros (action & Ha & Hd & Hm & -> & He).
    assert ((action, resolveShortcutBinding bindings action) ∈ resolveGlobalShortcutBindings bindings) as Hin.
    { apply (list_elem_of_fmap_2 (λ a, (a, resolveShortcutBinding bindings a))).
      by apply list_elem_of_filter. }
    destruct (js_find_is_Some (λ item : ShortcutAction * option string, truthy item.2 = true ∧
      keyboardEventMatchesShortcut event item.2 = true ∧ as_enabled (resolve (shortcut_request focus item.1)) = true)
      _ _ Hin) as [[a b] Hf]; [by split_and!; [eapply matches_normal|..]|].
    rewrite Hf. cbn.
    do 2 f_equal. apply js_find_Some in Hf as [Hina (_ & Hm' & _)].
    apply list_elem_of_fmap in Hina as (a' & [= -> ->] & [_ Ha']%list_elem_of_filter). cbn in Hm'.
    apply matches_normal in Hm as [_ Hm], Hm' as [_ Hm'].
    assert (∀ a, a ∈ shortcutActions → jsmap_get (sa_id a) bindings = Some (resolveShortcutBinding bindings a)) as Hget.
    { intros x Hx. unfold resolveShortcutBinding. specialize (Hfull x Hx).
      apply jsmap_get_is_Some in Hfull as [v Hv]. by rewrite Hv. }
    apply (NoDup_fmap_inj_elem sa_id shortcutActions); [apply action_ids_NoDup|done..|].
    eapply (sound_binding_owner bindings); [done|by apply list_elem_of_fmap_2|by apply list_elem_of_fmap_2|by apply Hget|by apply Hget|exact Hm'|exact Hm].
Qed.

Lemma key_press_unambiguous_witness :
  let resolve r := resolveWorkspaceAction r action_demo defaultShortcutBindings in
  handleKeyDown defaultShortcutBindings resolve (mkKeyEvent false true "o" false true) (mkFocus FocusTerminal None) =
    Some (mkActionRequest "connection.quickOpen" None (Some SourceShortcut) (Some (mkFocus FocusTerminal None))).
Proof.
  cbv zeta. apply key_press_unambiguous; [exact default_table_sound| |].
  - intros action Ha. unfold defaultShortcutBindings. rewrite table_of_eq.
    change ((table_of sa_defaultBinding).*1) with action_ids. by apply list_elem_of_fmap_2.
  - eexists. split; [left|]. split_and!; [done|by vm_compute|done|by vm_compute].
Defined.
