(* ===== verification/ActionExecutor.v ===== *)
(** * Running actions ([features/shortcuts/actionExecutor.ts])

    The executor keeps the ids of the actions that run. [run] is asynchronous: it
    resolves the request against one snapshot, adds the id and calls the handler; the
    rest runs when the handler settles. So an execution is a sequence of calls of
    [run] and of settled handlers in any order; the handlers themselves are not
    modelled, only whether they are there and how they end. *)

From S2P Require Import Prelude ShortcutKeys Shortcuts Actions.
From Stdlib Require Import Lia.

#[local] Open Scope nat_scope.

(** [sn_handlers] holds the ids with a function of their own. *)
Record WorkspaceActionSnapshot := mkActionSnapshot {
  sn_context : WorkspaceActionContext;
  sn_bindings : shortcut_table;
  sn_handlers : list string;
}.

(** [WorkspaceActionResult]; [Failed] carries what the handler threw. *)
Inductive WorkspaceActionResult :=
  | ResultDisabled (state : WorkspaceActionState)
  | ResultExecuted (state : WorkspaceActionState)
  | ResultFailed (state : WorkspaceActionState) (error : string).

(** A handler that runs: the action it was called for, with its target. *)
Record ActionCall := mkCall {
  ca_number : nat;
  ca_actionId : string;
  ca_state : WorkspaceActionState;
  ca_target : ActionTarget;
}.

Record Executor := mkExecutor {
  ex_pending : gset string;
  ex_calls : list ActionCall;
  ex_next : nat;
  ex_results : list (nat * WorkspaceActionResult);
}.

Definition createWorkspaceActionExecutor : Executor := mkExecutor ∅ [] 0 [].

Definition with_reason (reason : ActionDisabledReason) (state : WorkspaceActionState) : WorkspaceActionState :=
  mkActionState (as_actionId state) (as_binding state) false (as_target state) (Some reason).

Definition resolveWithSnapshot (ex : Executor) (request : WorkspaceActionRequest)
    (snapshot : WorkspaceActionSnapshot) : WorkspaceActionState :=
  let state := resolveWorkspaceAction request (sn_context snapshot) (sn_bindings snapshot) in
  if negb (as_enabled state) then state
  else if bool_decide (ar_actionId request ∉ sn_handlers snapshot)
  then with_reason RsHandlerUnavailable state
  else if bool_decide (ar_actionId request ∈ ex_pending ex) then with_reason RsActionPending state
  else state.

(** [run], up to the handler's first suspension. *)
Definition executor_run (request : WorkspaceActionRequest) (snapshot : WorkspaceActionSnapshot)
    (ex : Executor) : Executor :=
  let state := resolveWithSnapshot ex request snapshot in
  match as_enabled state, as_target state, bool_decide (ar_actionId request ∈ sn_handlers snapshot) with
  | true, Some target, true =>
      mkExecutor ({[ar_actionId request]} ∪ ex_pending ex)
        (ex_calls ex ++ [mkCall (ex_next ex) (ar_actionId request) state target])
        (S (ex_next ex)) (ex_results ex)
  | _, _, _ =>
      mkExecutor (ex_pending ex) (ex_calls ex) (S (ex_next ex))
        (ex_results ex ++ [(ex_next ex, ResultDisabled state)])
  end.

(** The rest of [run], when its handler settles; [error] is [None] when it succeeds. *)
Definition executor_settle (number : nat) (error : option string) (ex : Executor) : Executor :=
  match js_find (λ call, ca_number call = number) (ex_calls ex) with
  | None => ex
  | Some call =>
      let result := match error with
                    | None => ResultExecuted (ca_state call)
                    | Some e => ResultFailed (ca_state call) e
                    end in
      mkExecutor (ex_pending ex ∖ {[ca_actionId call]})
        (filter (λ c, ca_number c ≠ number) (ex_calls ex)) (ex_next ex)
        (ex_results ex ++ [(number, result)])
  end.

Inductive ExecutorEvent :=
  | ExRun (request : WorkspaceActionRequest) (snapshot : WorkspaceActionSnapshot)
  | ExSettle (number : nat) (error : option string).

Definition executor_step (ex : Executor) (event : ExecutorEvent) : Executor :=
  match event with
  | ExRun request snapshot => executor_run request snapshot ex
  | ExSettle number error => executor_settle number error ex
  end.

Definition executor_runs (events : list ExecutorEvent) : Executor :=
  foldl executor_step createWorkspaceActionExecutor events.

(** ** The invariant *)

Definition call_started (events : list ExecutorEvent) (call : ActionCall) : Prop :=
  ∃ request snapshot, ExRun request snapshot ∈ events ∧ ca_actionId call = ar_actionId request ∧
    ca_state call = resolveWorkspaceAction request (sn_context snapshot) (sn_bindings snapshot) ∧
    as_enabled (ca_state call) = true ∧ as_target (ca_state call) = Some (ca_target call) ∧
    ar_actionId request ∈ sn_handlers snapshot.

Record executor_ok (events : list ExecutorEvent) (ex : Executor) : Prop := {
  eo_pending : ∀ id, id ∈ ex_pending ex ↔ id ∈ ca_actionId <$> ex_calls ex;
  eo_single : NoDup (ca_actionId <$> ex_calls ex);
  eo_numbers : Permutation ((ca_number <$> ex_calls ex) ++ (ex_results ex).*1) (seq 0 (ex_next ex));
  eo_started : ∀ call, call ∈ ex_calls ex → call_started events call;
}.

Lemma call_started_mono events event call :
  call_started events call → call_started (events ++ [event]) call.
Proof.
  intros (r & s & Hin & Hrest). exists r, s. split; [|done]. apply elem_of_app. by left.
Qed.

Lemma enabled_unblocked ex request snapshot :
  as_enabled (resolveWithSnapshot ex request snapshot) = true →
  resolveWithSnapshot ex request snapshot =
    resolveWorkspaceAction request (sn_context snapshot) (sn_bindings snapshot) ∧
  ar_actionId request ∈ sn_handlers snapshot ∧ (ar_actionId request ∉ ex_pending ex).
Proof.
  unfold resolveWithSnapshot. cbv zeta.
  destruct (as_enabled (resolveWorkspaceAction _ _ _)) eqn:E; cbn [negb]; [|by rewrite E].
  repeat case_bool_decide; done.
Qed.

Lemma run_ok events ex request snapshot :
  executor_ok events ex →
  executor_ok (events ++ [ExRun request snapshot]) (executor_run request snapshot ex).
Proof.
  intros [Hp Hs Hn Hst]. unfold executor_run. cbv zeta.
  assert (∀ r, executor_ok (events ++ [ExRun request snapshot])
    (mkExecutor (ex_pending ex) (ex_calls ex) (S (ex_next ex)) (ex_results ex ++ [(ex_next ex, r)]))) as Hrefused.
  { intros r. constructor; cbn [ex_pending ex_calls ex_next ex_results]; [done..| |].
    - rewrite fmap_app, app_assoc, Hn, seq_S. done.
    - intros call Hc. by apply call_started_mono, Hst. }
  destruct (as_enabled (resolveWithSnapshot ex request snapshot)) eqn:Ee; [|apply Hrefused].
  destruct (as_target (resolveWithSnapshot ex request snapshot)) as [target|] eqn:Et; [|apply Hrefused].
  destruct (enabled_unblocked _ _ _ Ee) as (Hst' & Hh & Hfree). rewrite (bool_decide_true _ Hh).
  constructor; cbn [ex_pending ex_calls ex_next ex_results].
  - intros id. rewrite fmap_app, elem_of_app, elem_of_union, elem_of_singleton, Hp. cbn [fmap list_fmap ca_actionId].
    rewrite list_elem_of_singleton. tauto.
  - rewrite fmap_app. apply NoDup_app. split_and!; [done| |apply NoDup_singleton].
    intros id Hid Hnew. cbn in Hnew. apply list_elem_of_singleton in Hnew as ->. by apply Hfree, Hp.
  - rewrite fmap_app. cbn [fmap list_fmap ca_number]. rewrite seq_S, <- Hn.
    by rewrite <- !app_assoc, (Permutation_app_comm [ex_next ex]).
  - intros call [Hc|Hc]%elem_of_app; [by apply call_started_mono, Hst|].
    apply list_elem_of_singleton in Hc as ->. exists request, snapshot. cbn [ca_actionId ca_state ca_target].
    split_and!; [apply elem_of_app; right; left|done..].
Qed.

Lemma settle_ok events ex number error :
  executor_ok events ex →
  executor_ok (events ++ [ExSettle number error]) (executor_settle number error ex).
Proof.
  intros [Hp Hs Hn Hst]. unfold executor_settle.
  destruct (js_find _ _) as [call|] eqn:Ec.
  2: { constructor; [done..|]. intros call Hc. by apply call_started_mono, Hst. }
  apply js_find_Some in Ec as [Hc Hnum].
  assert (NoDup (ca_number <$> ex_calls ex)) as Hnd.
  { pose proof (NoDup_seq 0 (ex_next ex)) as Hseq. rewrite <- Hn in Hseq. by apply NoDup_app in Hseq as [? _]. }
  assert (ex_calls ex ≡ₚ call :: filter (λ c, ca_number c ≠ number) (ex_calls ex)) as Hperm.
  { clear - Hc Hnum Hnd. induction (ex_calls ex) as [|c l IH]; [by apply not_elem_of_nil in Hc|].
    rewrite fmap_cons in Hnd. apply NoDup_cons in Hnd as [Hni Hnd]. rewrite filter_cons.
    apply elem_of_cons in Hc as [<-|Hc].
    - rewrite decide_False by auto. rewrite filter_all; [done|].
      intros x Hx Heq. apply Hni, list_elem_of_fmap. exists x. split; [congruence|done].
    - rewrite decide_True. { rewrite (IH Hc Hnd) at 1. apply Permutation_swap. }
      intros Heq. apply Hni, list_elem_of_fmap. exists call. split; [congruence|done]. }
  assert (NoDup (ca_actionId <$> call :: filter (λ c, ca_number c ≠ number) (ex_calls ex))) as Hsd
    by by rewrite <- Hperm.
  rewrite fmap_cons in Hsd. apply NoDup_cons in Hsd as [Hni Hsd].
  constructor; cbn [ex_pending ex_calls ex_next ex_results].
  - intros id. rewrite elem_of_difference, elem_of_singleton, Hp, Hperm at 1. rewrite fmap_cons, elem_of_cons.
    split; [tauto|]. intros Hin. split; [by right|]. by intros ->.
  - done.
  - pose proof (fmap_Permutation ca_number _ _ Hperm) as Hpn. rewrite fmap_cons, Hnum in Hpn.
    rewrite <- Hn, Hpn, fmap_app. change ([(number, _)].*1) with [number].
    rewrite app_assoc. exact (Permutation_app_comm _ [number]).
  - intros c [_ Hin]%list_elem_of_filter. by apply call_started_mono, Hst.
Qed.

Lemma executor_runs_ok events : executor_ok events (executor_runs events).
Proof.
  induction events as [|event events IH] using rev_ind.
  - constructor; cbn; [|constructor|done|]; set_solver.
  - unfold executor_runs. rewrite foldl_app. cbn [foldl]. destruct event; [by apply run_ok|by apply settle_ok].
Qed.

Lemma settle_releases events ex call error :
  executor_ok events ex → call ∈ ex_calls ex →
  (ca_actionId call ∉ ex_pending (executor_settle (ca_number call) error ex)) ∧
  (∃ result, (ca_number call, result) ∈ ex_results (executor_settle (ca_number call) error ex)) ∧
  length (ex_calls (executor_settle (ca_number call) error ex)) < length (ex_calls ex).
Proof.
  intros [_ _ Hn _] Hc. unfold executor_settle.
  assert (NoDup (ca_number <$> ex_calls ex)) as Hnd.
  { pose proof (NoDup_seq 0 (ex_next ex)) as Hseq. rewrite <- Hn in Hseq. by apply NoDup_app in Hseq as [? _]. }
  destruct (js_find_is_Some (λ c, ca_number c = ca_number call) _ _ Hc eq_refl) as [c Hf].
  rewrite Hf. apply js_find_Some in Hf as [Hin Heq].
  assert (c = call) as -> by (by apply (NoDup_fmap_inj_elem ca_number (ex_calls ex))).
  cbn [ex_pending ex_results ex_calls]. split_and!.
  - set_solver.
  - eexists. apply elem_of_app. right. left.
  - by apply (length_filter_lt _ _ call); [|auto].
Qed.

(** C19: an action never runs twice at the same time, and none is lost. Whatever the
    order in which requests arrive and handlers settle, at most one handler of an
    action is running and its id is pending exactly then; each was called with the
    target that its own snapshot resolved, enabled and with a handler; every request
    is either running or has exactly one result. A handler that settles, with or
    without an error, is answered and frees its action; and when none is running the
    executor refuses only what a new one would refuse. *)
Theorem executor_single_flight events :
  let ex := executor_runs events in
  NoDup (ca_actionId <$> ex_calls ex) ∧
  (∀ id, id ∈ ex_pending ex ↔ ∃ call, call ∈ ex_calls ex ∧ ca_actionId call = id) ∧
  (∀ call, call ∈ ex_calls ex → call_started events call) ∧
  Permutation ((ca_number <$> ex_calls ex) ++ (ex_results ex).*1) (seq 0 (ex_next ex)) ∧
  (∀ call error, call ∈ ex_calls ex →
    let ex' := executor_settle (ca_number call) error ex in
    (ca_actionId call ∉ ex_pending ex') ∧ (∃ result, (ca_number call, result) ∈ ex_results ex') ∧
    length (ex_calls ex') < length (ex_calls ex)) ∧
  (ex_calls ex = [] → ∀ request snapshot, resolveWithSnapshot ex request snapshot =
    resolveWithSnapshot createWorkspaceActionExecutor request snapshot).
Proof.
  cbv zeta. pose proof (executor_runs_ok events) as Hok. pose proof Hok as [Hp Hs Hn Hst].
  split_and!; [done| |done|done| |].
  - intros id. rewrite Hp, list_elem_of_fmap. naive_solver.
  - intros call error Hc. by eapply settle_releases.
  - intros Hnil request snapshot. unfold resolveWithSnapshot.
    assert (ex_pending (executor_runs events) = ∅) as ->; [|done].
    apply set_eq. intros id. rewrite Hp, Hnil. cbn. set_solver.
Qed.
