(* ===== verification/BatchConnect.v ===== *)
(** * Batch connect: the plan and the run ([features/connections/batchConnectModel.ts])

    Which connections of a group (and of its descendants) are offered and selected,
    and the table of a run. Groups come from the backend; their parents may form a
    cycle, which the traversals guard against. *)

From S2P Require Import Prelude.
From Stdlib Require Import Lia.

#[local] Open Scope nat_scope.

Definition batchConnectMaxNewSessions : Z := 20.
Definition batchConnectMaxConcurrentAttempts : Z := 4.

Inductive BatchConnectItemStatus :=
  | BsQueued | BsConnecting | BsWaitingUser | BsSuccess | BsFailed | BsCancelled.

#[export] Instance BatchConnectItemStatus_eq_dec : EqDecision BatchConnectItemStatus.
Proof. solve_decision. Defined.

(** What the plan reads of a connection. [bp_rdp] is the pair of the security's
    credential mode and the gateway's credential source. *)
Record BatchConnectProfile := mkBatchProfile {
  bp_credential_mode : option string;
  bp_group_id : option string;
  bp_id : string;
  bp_name : string;
  bp_protocol : option string;
  bp_rdp : option (option string * option (option string));
  bp_vnc : option (option string);
}.

Record BatchConnectGroup := mkBatchGroup {
  bg_id : string;
  bg_name : string;
  bg_parentId : option string;
  bg_sortOrder : Z;
}.

Record BatchConnectCandidate := mkCandidate {
  bc_alreadyOpen : bool;
  bc_connectionId : string;
  bc_groupId : string;
  bc_groupPath : string;
  bc_name : string;
  bc_protocol : string;
  bc_requiresInteraction : bool;
}.

Record BatchConnectPreviewPlan := mkPreview {
  pp_candidates : list BatchConnectCandidate;
  pp_eligibleCount : nat;
  pp_selectedConnectionIds : list string;
  pp_selectionLimitReached : bool;
}.

Record BatchConnectRunItem := mkRunItem {
  bi_connectionId : string;
  bi_error : option string;
  bi_status : BatchConnectItemStatus;
}.

#[export] Instance BatchConnectRunItem_eq_dec : EqDecision BatchConnectRunItem.
Proof. solve_decision. Defined.

Record BatchConnectRun := mkRun {
  br_cancelRequested : bool;
  br_items : list BatchConnectRunItem;
}.

(** ** The groups of a selection *)

Section groups.
Context (groups : list BatchConnectGroup).

(** [new Map(groups.map((group, index) => [group.id, index]))]. *)
Definition originalIndex : jsmap nat :=
  jsmap_of_entries (imap (λ index group, (bg_id group, index)) groups).

Definition group_gt (left right : BatchConnectGroup) : bool :=
  let d := (bg_sortOrder left - bg_sortOrder right)%Z in
  if decide (d = 0%Z)
  then default 0 (jsmap_get (bg_id right) originalIndex) <? default 0 (jsmap_get (bg_id left) originalIndex)
  else bool_decide (0 < d)%Z.

(** The entry of [childrenByParent], sorted. *)
Definition children_of (parent : string) : list BatchConnectGroup :=
  js_sort group_gt (filter (λ group, truthy (bg_parentId group) = true ∧ bg_parentId group = Some parent) groups).

(** [visit], on the set of visited ids and the groups in order. *)
Fixpoint visit_group (fuel : nat) (includeDescendants : bool) (group : BatchConnectGroup)
    (st : gset string * list BatchConnectGroup) : gset string * list BatchConnectGroup :=
  match fuel with
  | 0 => st
  | S fuel =>
      if bool_decide (bg_id group ∈ st.1) then st
      else
        let st := ({[bg_id group]} ∪ st.1, st.2 ++ [group]) in
        if includeDescendants
        then foldl (λ st child, visit_group fuel includeDescendants child st) st (children_of (bg_id group))
        else st
  end.

Definition collectGroups (rootGroupId : string) (includeDescendants : bool) : list BatchConnectGroup :=
  match js_find (λ group, bg_id group = rootGroupId) groups with
  | None => []
  | Some root => (visit_group (S (length groups)) includeDescendants root (∅, [])).2
  end.

(** [new Map(groups.map((group) => [group.id, group]))]: the last group of an id. *)
Definition groups_by_id : jsmap BatchConnectGroup :=
  jsmap_of_entries ((λ group, (bg_id group, group)) <$> groups).

(** The loop of [resolveGroupPath]. *)
Fixpoint path_names (fuel : nat) (current : option BatchConnectGroup) (visited : gset string)
    (names : list string) : list string :=
  match fuel, current with
  | S fuel, Some group =>
      if bool_decide (bg_id group ∈ visited) then names
      else
        let parent :=
          if truthy (bg_parentId group)
          then bg_parentId group ≫= λ parentId, jsmap_get parentId groups_by_id else None in
        path_names fuel parent ({[bg_id group]} ∪ visited) (bg_name group :: names)
  | _, _ => names
  end.

Definition resolveGroupPath (groupId : string) : string :=
  String.concat " / " (path_names (S (length groups)) (jsmap_get groupId groups_by_id) ∅ []).
End groups.

(** ** The preview *)

Definition requiresInteractiveCredential (connection : BatchConnectProfile) : bool :=
  if bool_decide (bp_protocol connection = Some "rdp") then
    match bp_rdp connection with
    | Some (mode, gateway) =>
        bool_decide (mode = Some "prompt") || bool_decide (mjoin gateway = Some "prompt")
    | None => false
    end
  else if bool_decide (bp_protocol connection = Some "vnc") then
    bool_decide (mjoin (bp_vnc connection) = Some "prompt")
  else bool_decide (bp_credential_mode connection = Some "prompt").

Definition batch_candidate (openConnectionIds : gset string) (pathById : jsmap string)
    (group : BatchConnectGroup) (connection : BatchConnectProfile) : BatchConnectCandidate :=
  mkCandidate (bool_decide (bp_id connection ∈ openConnectionIds)) (bp_id connection) (bg_id group)
    (default "" (jsmap_get (bg_id group) pathById ||? Some (bg_name group)))
    (bp_name connection) (default "" (bp_protocol connection ||? Some "ssh"))
    (requiresInteractiveCredential connection).

Definition buildBatchConnectPreviewPlan (connections : list BatchConnectProfile)
    (groups : list BatchConnectGroup) (includeDescendants : bool) (openConnectionIds : gset string)
    (rootGroupId : string) (selectionLimit : Z) : BatchConnectPreviewPlan :=
  let orderedGroups := collectGroups groups rootGroupId includeDescendants in
  let pathById := jsmap_of_entries
    ((λ group, (bg_id group, resolveGroupPath groups (bg_id group))) <$> orderedGroups) in
  let candidates := orderedGroups ≫= λ group,
    batch_candidate openConnectionIds pathById group <$>
      filter (λ connection, bp_group_id connection = Some (bg_id group)) connections in
  let eligible := filter (λ candidate, bc_alreadyOpen candidate = false) candidates in
  let normalizedLimit := Z.to_nat (Z.max 0 selectionLimit) in
  mkPreview candidates (length eligible) (bc_connectionId <$> take normalizedLimit eligible)
    (normalizedLimit <? length eligible).

(** ** The table of a run *)

Definition isActiveStatus (status : BatchConnectItemStatus) : bool :=
  match status with BsConnecting | BsWaitingUser => true | _ => false end.

(** The ids not seen before, in order. *)
Fixpoint unique_ids (seen : gset string) (connectionIds : list string) : list string :=
  match connectionIds with
  | [] => []
  | id :: ids => if bool_decide (id ∈ seen) then unique_ids seen ids else id :: unique_ids ({[id]} ∪ seen) ids
  end.

Definition createBatchConnectRun (connectionIds : list string) : BatchConnectRun :=
  mkRun false ((λ id, mkRunItem id None BsQueued) <$> unique_ids ∅ connectionIds).

Definition batchConnectActiveCount (run : BatchConnectRun) : nat :=
  length (filter (λ item, isActiveStatus (bi_status item) = true) (br_items run)).

Definition nextBatchConnectConnectionIds (run : BatchConnectRun) (concurrencyLimit : Z) : list string :=
  if br_cancelRequested run then []
  else
    let availableSlots := Z.to_nat (Z.max 0 (concurrencyLimit - Z.of_nat (batchConnectActiveCount run))) in
    if availableSlots =? 0 then []
    else bi_connectionId <$> take availableSlots (filter (λ item, bi_status item = BsQueued) (br_items run)).

Definition updateBatchConnectItem (run : BatchConnectRun) (connectionId : string)
    (status : BatchConnectItemStatus) (error : option string) : BatchConnectRun :=
  let nextError := if decide (status = BsFailed) then error else None in
  mkRun (br_cancelRequested run)
    ((λ item, if decide (bi_connectionId item = connectionId)
              then mkRunItem (bi_connectionId item) nextError status else item) <$> br_items run).

Definition requestBatchConnectCancel (run : BatchConnectRun) : list string * BatchConnectRun :=
  (bi_connectionId <$> filter (λ item, isActiveStatus (bi_status item) = true) (br_items run),
   mkRun true ((λ item, if decide (bi_status item = BsQueued)
                        then mkRunItem (bi_connectionId item) (bi_error item) BsCancelled
                        else item) <$> br_items run)).

Definition retryFailedBatchConnectItems (run : BatchConnectRun) : BatchConnectRun :=
  let changed := br_cancelRequested run || bool_decide (Exists (λ item, bi_status item = BsFailed) (br_items run)) in
  if changed
  then mkRun false ((λ item, if decide (bi_status item = BsFailed)
                             then mkRunItem (bi_connectionId item) None BsQueued else item) <$> br_items run)
  else run.

Definition batchConnectSummary (run : BatchConnectRun) (status : BatchConnectItemStatus) : nat :=
  length (filter (λ item, bi_status item = status) (br_items run)).

(** ** Lemmas: the traversal *)

Section traversal.
Context (groups : list BatchConnectGroup).

(** The parent relation on ids, as the source reads it. *)
Definition group_child (parent child : string) : Prop :=
  parent ≠ "" ∧ ∃ group, group ∈ groups ∧ bg_id group = child ∧ bg_parentId group = Some parent.

Definition group_ids : gset string := list_to_set (bg_id <$> groups).

Lemma elem_of_children parent child :
  child ∈ children_of groups parent ↔ child ∈ groups ∧ bg_parentId child = Some parent ∧ parent ≠ "".
Proof.
  unfold children_of. rewrite elem_of_js_sort, list_elem_of_filter. split.
  - intros ((Ht & Hp) & Hin). rewrite Hp in Ht. apply truthy_Some in Ht. auto.
  - intros (Hin & Hp & Hne). rewrite Hp. split; [|done]. split; [by apply truthy_Some|done].
Qed.

Lemma children_group_child parent child :
  child ∈ children_of groups parent → group_child parent (bg_id child).
Proof. intros (? & ? & ?)%elem_of_children. split; [done|]. eauto. Qed.

(** What a traversal adds to the visited set [st.1] and to the list [st.2]. *)
Record extends (sources : gset string) (st st' : gset string * list BatchConnectGroup) : Prop := {
  xt_visited : st.1 ⊆ st'.1;
  xt_list : ∃ new, st'.2 = st.2 ++ new ∧ NoDup (bg_id <$> new) ∧
    (∀ x, x ∈ bg_id <$> new ↔ x ∈ st'.1 ∖ st.1) ∧ Forall (.∈ groups) new;
  xt_sources : sources ⊆ st'.1;
  xt_closed : ∀ x y, x ∈ st'.1 ∖ st.1 → group_child x y → y ∈ st'.1;
  xt_reached : ∀ x, x ∈ st'.1 ∖ st.1 → ∃ s, s ∈ sources ∧ rtc group_child s x;
}.

Lemma extends_refl st : extends ∅ st st.
Proof.
  constructor; [done| |set_solver..]. exists []. rewrite app_nil_r. split_and!; [done|constructor|set_solver|constructor].
Qed.

Lemma extends_trans s1 s2 st1 st2 st3 :
  extends s1 st1 st2 → extends s2 st2 st3 → extends (s1 ∪ s2) st1 st3.
Proof.
  intros [V1 (n1 & L1 & D1 & I1 & G1) S1 C1 R1] [V2 (n2 & L2 & D2 & I2 & G2) S2 C2 R2].
  assert (∀ x, x ∈ st3.1 ∖ st1.1 → x ∈ st2.1 ∖ st1.1 ∨ x ∈ st3.1 ∖ st2.1) as Hsplit.
  { intros x. rewrite !elem_of_difference. destruct (decide (x ∈ st2.1)); [left|right]; tauto. }
  constructor; [set_solver| |set_solver| |].
  - exists (n1 ++ n2). rewrite L2, L1, app_assoc, fmap_app. split_and!; [done| | |by apply Forall_app].
    + apply NoDup_app. split_and!; [done| |done]. intros x Hx1 Hx2. apply I1 in Hx1. apply I2 in Hx2. set_solver.
    + intros x. rewrite elem_of_app, I1, I2. set_solver.
  - intros x y Hx Hxy. apply Hsplit in Hx as [Hx|Hx]; [|by eapply C2]. apply V2. by eapply C1.
  - intros x Hx. apply Hsplit in Hx as [Hx|Hx].
    + destruct (R1 x Hx) as (s & Hs & Hr). exists s. set_solver.
    + destruct (R2 x Hx) as (s & Hs & Hr). exists s. set_solver.
Qed.

Lemma extends_sources s s' st st' : extends s st st' → s' ⊆ st'.1 → s ⊆ s' → extends s' st st'.
Proof.
  intros [V L S0 C R] H1 H2. constructor; [done|done|done|done|].
  intros x Hx. destruct (R x Hx) as (y & Hy & Hr). exists y. set_solver.
Qed.

(** Visiting a list of groups with a visitor that extends. *)
Lemma foldl_extends (visit : BatchConnectGroup → gset string * list BatchConnectGroup → gset string * list BatchConnectGroup) l st bound :
  (∀ g st, g ∈ l → bound ⊆ st.1 → extends {[bg_id g]} st (visit g st)) → bound ⊆ st.1 →
  extends (list_to_set (bg_id <$> l)) st (foldl (λ st g, visit g st) st l).
Proof.
  revert st. induction l as [|g l IH]; intros st Hv Hb; [apply extends_refl|]. cbn [foldl].
  assert (extends {[bg_id g]} st (visit g st)) as Hg by (apply Hv; [left|done]).
  rewrite fmap_cons, list_to_set_cons. eapply extends_trans; [exact Hg|].
  apply IH; [|destruct Hg; set_solver]. intros g' st' Hg' Hb'. apply Hv; [by right|done].
Qed.

Lemma visit_extends fuel g st :
  g ∈ groups → size (group_ids ∖ st.1) < fuel →
  extends {[bg_id g]} st (visit_group groups fuel true g st).
Proof.
  revert g st. induction fuel as [|fuel IH]; intros g st Hg Hf; [lia|]. cbn [visit_group].
  case_bool_decide as Hvis.
  - eapply (extends_sources ∅); [apply extends_refl|set_solver|set_solver].
  - set (st0 := ({[bg_id g]} ∪ st.1, st.2 ++ [g])).
    assert (bg_id g ∈ group_ids) as Hid by (apply elem_of_list_to_set; by apply list_elem_of_fmap_2).
    assert (size (group_ids ∖ st0.1) < size (group_ids ∖ st.1)) as Hlt.
    { apply subset_size. unfold st0. cbn. set_solver. }
    pose proof (foldl_extends (λ child st, visit_group groups fuel true child st) (children_of groups (bg_id g))
      st0 st0.1) as Hfold.
    destruct Hfold as [V (new & L & D & I & G) S0 C R]; [|done|].
    { intros c st' [Hc _]%elem_of_children Hb. apply IH; [done|].
      assert (size (group_ids ∖ st'.1) ≤ size (group_ids ∖ st0.1)) by (apply subseteq_size; set_solver). lia. }
    set (st' := foldl _ st0 (children_of groups (bg_id g))) in *. cbn in V.
    assert (∀ x, x ∈ st'.1 ∖ st.1 → x = bg_id g ∨ x ∈ st'.1 ∖ st0.1) as Hsplit.
    { intros x Hx. destruct (decide (x = bg_id g)); [by left|right]. unfold st0. cbn. set_solver. }
    constructor; [set_solver| |set_solver| |].
    + exists (g :: new). rewrite L. unfold st0 at 1. cbn [snd]. rewrite <- app_assoc, fmap_cons.
      split_and!; [done| | |by constructor].
      * constructor; [|done]. intros Hin. apply I in Hin. unfold st0 in Hin. cbn in Hin. set_solver.
      * intros x. rewrite elem_of_cons, I. split; [|by intros [->|]%Hsplit; auto].
        intros [->|Hx]; [set_solver|]. unfold st0 in Hx. cbn in Hx. set_solver.
    + intros x y [->|Hx]%Hsplit Hxy; [|by eapply C]. apply S0.
      apply elem_of_list_to_set. destruct Hxy as (Hne & c & Hc & <- & Hp).
      apply list_elem_of_fmap_2. by apply elem_of_children.
    + intros x [->|Hx]%Hsplit; [by exists (bg_id g); split; [set_solver|constructor]|].
      destruct (R x Hx) as (c & Hc & Hr). apply elem_of_list_to_set, list_elem_of_fmap in Hc as (cg & -> & Hc).
      exists (bg_id g). split; [set_solver|]. eapply rtc_l; [by apply children_group_child|done].
Qed.

Lemma visit_appends fuel b g st : ∃ l, (visit_group groups fuel b g st).2 = st.2 ++ l.
Proof.
  revert g st. induction fuel as [|fuel IH]; intros g st; cbn [visit_group]; [exists []; by rewrite app_nil_r|].
  case_bool_decide; [exists []; by rewrite app_nil_r|]. destruct b; [|by exists [g]].
  assert (∀ cs st, ∃ l, (foldl (λ st child, visit_group groups fuel true child st) st cs).2 = st.2 ++ l) as Hf.
  { induction cs as [|c cs IHcs]; intros st'; cbn [foldl]; [exists []; by rewrite app_nil_r|].
    destruct (IHcs (visit_group groups fuel true c st')) as [l Hl]. destruct (IH c st') as [l' Hl'].
    rewrite Hl, Hl', <- app_assoc. by eexists. }
  destruct (Hf (children_of groups (bg_id g)) ({[bg_id g]} ∪ st.1, st.2 ++ [g])) as [l Hl].
  rewrite Hl. cbn [snd]. rewrite <- app_assoc. by eexists.
Qed.

Lemma visit_head fuel g st :
  (bg_id g ∉ st.1) → ∃ l, (visit_group groups (S fuel) true g st).2 = st.2 ++ g :: l.
Proof.
  intros Hg. cbn [visit_group]. rewrite bool_decide_false by done.
  assert (∀ cs st, ∃ l, (foldl (λ st child, visit_group groups fuel true child st) st cs).2 = st.2 ++ l) as Hf.
  { induction cs as [|c cs IHcs]; intros st'; cbn [foldl]; [exists []; by rewrite app_nil_r|].
    destruct (IHcs (visit_group groups fuel true c st')) as [l Hl].
    destruct (visit_appends fuel true c st') as [l' Hl']. rewrite Hl, Hl', <- app_assoc. by eexists. }
  destruct (Hf (children_of groups (bg_id g)) ({[bg_id g]} ∪ st.1, st.2 ++ [g])) as [l Hl].
  rewrite Hl. cbn [snd]. rewrite <- app_assoc. by exists l.
Qed.

Lemma group_ids_size : size group_ids ≤ length groups.
Proof.
  unfold group_ids. induction groups as [|g gs IH]; [done|]. rewrite fmap_cons, list_to_set_cons.
  destruct (decide (bg_id g ∈ (list_to_set (bg_id <$> gs) : gset string))) as [Hin|Hni].
  - rewrite subseteq_union_1_L by set_solver. cbn. lia.
  - rewrite size_union by set_solver. rewrite size_singleton. cbn. lia.
Qed.
End traversal.

Lemma collect_spec groups rootGroupId :
  let collected := collectGroups groups rootGroupId in
  (rootGroupId ∉ bg_id <$> groups → ∀ b, collected b = []) ∧
  (rootGroupId ∈ bg_id <$> groups →
    (bg_id <$> collected false = [rootGroupId]) ∧
    head (bg_id <$> collected true) = Some rootGroupId ∧
    NoDup (bg_id <$> collected true) ∧
    (∀ group, group ∈ collected true → group ∈ groups) ∧
    (∀ id, id ∈ bg_id <$> collected true ↔ rtc (group_child groups) rootGroupId id)).
Proof.
  cbv zeta. unfold collectGroups. split.
  - intros Hni b. destruct (js_find _ _) as [g|] eqn:Ef; [|done]. apply js_find_Some in Ef as [Hg <-].
    destruct Hni. by apply list_elem_of_fmap_2.
  - intros (g0 & Hr & Hg0)%list_elem_of_fmap.
    destruct (js_find_is_Some (λ group, bg_id group = rootGroupId) groups g0 Hg0) as [g Hf]; [done|].
    rewrite Hf. apply js_find_Some in Hf as [Hg Hid].
    split.
    { cbn [visit_group]. rewrite bool_decide_false by apply not_elem_of_empty. cbn. by rewrite Hid. }
    destruct (visit_extends groups (S (length groups)) g (∅, []) Hg) as [V (new & L & D & I & G) S0 C R].
    { cbn. rewrite difference_empty_L. pose proof (group_ids_size groups). lia. }
    set (st := visit_group groups (S (length groups)) true g (∅, [])) in *. cbn [fst snd app] in L, I, C, R.
    rewrite L. cbn [app].
    assert (∀ id, id ∈ bg_id <$> new ↔ rtc (group_child groups) rootGroupId id) as Hreach.
    { intros id. rewrite I, difference_empty_L. split.
      - intros Hin. destruct (R id) as (s & Hs & Hrt); [by rewrite difference_empty_L|].
        apply elem_of_singleton in Hs. by rewrite Hs, Hid in Hrt.
      - rewrite <- Hid. intros Hrt.
        assert (∀ x z, rtc (group_child groups) x z → x ∈ st.1 → z ∈ st.1) as Hclosed.
        { intros x z Hxz. induction Hxz as [|x y z Hxy _ IH]; [done|]. intros Hx.
          apply IH, (C x); [set_solver|done]. }
        apply (Hclosed _ _ Hrt), S0. set_solver. }
    split_and!; [|done| |done].
    + destruct (visit_head groups (length groups) g (∅, [])) as [l Hl]; [apply not_elem_of_empty|].
      fold st in Hl. rewrite L in Hl. cbn [app snd] in Hl. rewrite Hl, fmap_cons. cbn. by rewrite Hid.
    + intros x Hx. rewrite Forall_forall in G. by apply G.
Qed.

Lemma collect_NoDup groups rootGroupId b : NoDup (bg_id <$> collectGroups groups rootGroupId b).
Proof.
  destruct (collect_spec groups rootGroupId) as [Hn Hi].
  destruct (decide (rootGroupId ∈ bg_id <$> groups)) as [Hin|Hni]; [|rewrite (Hn Hni); constructor].
  destruct (Hi Hin) as (Hf & _ & Ht & _). destruct b; [done|]. rewrite Hf. apply NoDup_singleton.
Qed.

(** The candidates, group by group. *)
Lemma candidates_ids (gs : list BatchConnectGroup) (connections : list BatchConnectProfile) f :
  (∀ g c, bc_connectionId (f g c) = bp_id c) →
  bc_connectionId <$> (gs ≫= λ g, f g <$> filter (λ c, bp_group_id c = Some (bg_id g)) connections) =
  gs ≫= λ g, bp_id <$> filter (λ c, bp_group_id c = Some (bg_id g)) connections.
Proof.
  intros Hf. induction gs as [|g gs IH]; [done|]. cbn [mbind list_bind]. rewrite fmap_app, IH. f_equal.
  rewrite <- list_fmap_compose. apply list_fmap_ext. intros i c _. apply Hf.
Qed.

Lemma grouped_NoDup (gs : list BatchConnectGroup) (connections : list BatchConnectProfile) :
  NoDup (bp_id <$> connections) → NoDup (bg_id <$> gs) →
  NoDup (gs ≫= λ g, bp_id <$> filter (λ c, bp_group_id c = Some (bg_id g)) connections).
Proof.
  intros Hc. induction gs as [|g gs IH]; [constructor|]. rewrite fmap_cons. intros [Hg Hgs]%NoDup_cons.
  cbn [mbind list_bind]. apply NoDup_app. split_and!; [by apply NoDup_filter_fmap| |by apply IH].
  intros id (c1 & -> & [Hg1 Hc1]%list_elem_of_filter)%list_elem_of_fmap (g2 & Hin2 & Hg2)%list_elem_of_bind.
  apply list_elem_of_fmap in Hin2 as (c2 & Hid & [Hgc2 Hc2]%list_elem_of_filter).
  assert (c1 = c2) as -> by (by apply (NoDup_fmap_inj_elem bp_id connections)).
  apply Hg. assert (bg_id g = bg_id g2) as -> by congruence. by apply list_elem_of_fmap_2.
Qed.

(** ** Properties *)

(** A group and its descendants. Collecting with descendants visits every group
    reachable from the root through parent links exactly once, starting with the root,
    also when the parents form a cycle; without descendants it is the root alone; an
    unknown root gives nothing. *)
Theorem collect_groups_exact groups rootGroupId :
  let collected := collectGroups groups rootGroupId in
  (rootGroupId ∉ bg_id <$> groups → ∀ b, collected b = []) ∧
  (rootGroupId ∈ bg_id <$> groups →
    (bg_id <$> collected false = [rootGroupId]) ∧
    head (bg_id <$> collected true) = Some rootGroupId ∧
    NoDup (bg_id <$> collected true) ∧
    (∀ group, group ∈ collected true → group ∈ groups) ∧
    (∀ id, id ∈ bg_id <$> collected true ↔ rtc (group_child groups) rootGroupId id)).
Proof. apply collect_spec. Qed.

(** What batch connect offers and selects. The candidates are exactly the
    connections of the collected groups, each once; the selection takes the first
    ones that are not open yet, as many as the limit allows and never more; and the
    limit is reported exactly when it leaves some out. *)
Theorem batch_preview_exact connections groups includeDescendants openIds rootGroupId limit :
  NoDup (bp_id <$> connections) →
  let plan := buildBatchConnectPreviewPlan connections groups includeDescendants openIds rootGroupId limit in
  let ids := bc_connectionId <$> pp_candidates plan in
  let eligible := filter (λ id, id ∉ openIds) ids in
  NoDup ids ∧
  (∀ id, id ∈ ids ↔ ∃ c g, c ∈ connections ∧ bp_id c = id ∧ bp_group_id c = Some g ∧
    g ∈ bg_id <$> collectGroups groups rootGroupId includeDescendants) ∧
  pp_selectedConnectionIds plan = take (Z.to_nat limit) eligible ∧
  pp_eligibleCount plan = length eligible ∧
  (pp_selectionLimitReached plan = true ↔ (Z.max 0 limit < Z.of_nat (length eligible))%Z).
Proof.
  intros Hnd. cbv zeta. unfold buildBatchConnectPreviewPlan. cbv zeta.
  cbn [pp_candidates pp_selectedConnectionIds pp_eligibleCount pp_selectionLimitReached].
  set (path := jsmap_of_entries _). set (gs := collectGroups groups rootGroupId includeDescendants).
  set (cands := gs ≫= _).
  assert (bc_connectionId <$> cands =
    gs ≫= λ g, bp_id <$> filter (λ c, bp_group_id c = Some (bg_id g)) connections) as Hids
    by by apply candidates_ids.
  assert (filter (λ id, id ∉ openIds) (bc_connectionId <$> cands) =
    bc_connectionId <$> filter (λ c, bc_alreadyOpen c = false) cands) as Hel.
  { assert (∀ c, c ∈ cands → bc_alreadyOpen c = bool_decide (bc_connectionId c ∈ openIds)) as Hopen.
    { intros c (g & Hc & _)%list_elem_of_bind. by apply list_elem_of_fmap in Hc as (c' & -> & _). }
    clear - Hopen. induction cands as [|c cs IH]; [done|].
    rewrite fmap_cons, !filter_cons, IH by (intros; apply Hopen; by right).
    rewrite (Hopen c) by left. case_bool_decide; repeat case_decide; try done; tauto. }
  rewrite Hel, length_fmap. replace (Z.to_nat (Z.max 0 limit)) with (Z.to_nat limit) by lia.
  split_and!; [rewrite Hids; apply grouped_NoDup; [done|apply collect_NoDup]| |by rewrite fmap_take|done|].
  - intros id. rewrite Hids, list_elem_of_bind. split.
    + intros (g & (c & -> & [Hg Hc]%list_elem_of_filter)%list_elem_of_fmap & Hgin).
      exists c, (bg_id g). split_and!; [done..|by apply list_elem_of_fmap_2].
    + intros (c & g & Hc & <- & Hg & (g' & -> & Hgin)%list_elem_of_fmap). exists g'. split; [|done].
      apply list_elem_of_fmap_2. by apply list_elem_of_filter.
  - rewrite Nat.ltb_lt. lia.
Qed.

(** Two groups that are each other's parent, and one open connection. *)
Definition batch_groups : list BatchConnectGroup :=
  [mkBatchGroup "g1" "One" (Some "g2") 0; mkBatchGroup "g2" "Two" (Some "g1") 0; mkBatchGroup "g3" "Three" None 1].
Definition batch_connections : list BatchConnectProfile :=
  [mkBatchProfile (Some "prompt") (Some "g2") "c1" "a" None None None;
   mkBatchProfile None (Some "g1") "c2" "b" (Some "ssh") None None;
   mkBatchProfile None (Some "g1") "c3" "c" (Some "ssh") None None;
   mkBatchProfile None (Some "g3") "c4" "d" (Some "ssh") None None].

Lemma batch_preview_exact_witness :
  NoDup (bp_id <$> batch_connections) ∧
  pp_selectedConnectionIds
    (buildBatchConnectPreviewPlan batch_connections batch_groups true {["c2"]} "g1" 1) = ["c3"].
Proof.
  split; [vm_decide|].
  destruct (batch_preview_exact batch_connections batch_groups true {["c2"]} "g1" 1) as (_ & _ & -> & _);
    [vm_decide|vm_compute; reflexivity].
Defined.
