(* ===== verification/BatchExecutor.v ===== *)
(** * Batch connect: the executor ([features/connections/batchConnectExecutor.ts])

    A pool of asynchronous workers takes connections from a queue. A worker runs
    from one [await] to the next without interruption, so the state of an execution
    is the shared variables with the point each worker waits at, and an execution is
    a sequence of settled promises, status reports and cancellations in any order.
    The adapter's calls and the callbacks are a log; what they return is in the
    events. *)

From S2P Require Import Prelude BatchConnect.
From Stdlib Require Import Lia.

#[local] Open Scope nat_scope.

Inductive ExecutionStatus := ExSuccess | ExFailed | ExCancelled.

#[export] Instance ExecutionStatus_eq_dec : EqDecision ExecutionStatus.
Proof. solve_decision. Defined.

Record BatchConnectExecutionResult := mkExecution {
  er_connectionId : string;
  er_error : option string;
  er_status : ExecutionStatus;
}.

#[export] Instance BatchConnectExecutionResult_eq_dec : EqDecision BatchConnectExecutionResult.
Proof. solve_decision. Defined.

Definition item_status (status : ExecutionStatus) : BatchConnectItemStatus :=
  match status with ExSuccess => BsSuccess | ExFailed => BsFailed | ExCancelled => BsCancelled end.

Section executor.
Context {Handle : Type}.

(** Callbacks and adapter calls, in the order they happen. *)
Inductive BatchEffect :=
  | EfStatus (connectionId : string) (status : BatchConnectItemStatus) (error : option string)
  | EfStart (connectionId : string)
  | EfWait (handle : Handle)
  | EfCancel (handle : Handle).

(** Where a worker waits. *)
Inductive BatchWorker :=
  | WStarting (connectionId : string)
  | WWaiting (connectionId : string) (handle : Handle)
  | WCancelling (connectionId : string) (handle : Handle)
  | WDone
  | WRejected.

Record BatchState := mkBatch {
  bs_queue : list string;
  bs_active : list (string * Handle);
  bs_results : gmap string BatchConnectExecutionResult;
  bs_started : gset string;
  bs_cancelRequested : bool;
  bs_nextIndex : nat;
  bs_workers : list BatchWorker;
  bs_log : list BatchEffect;
}.

(** ** Shared steps *)

Definition emit (effects : list BatchEffect) (s : BatchState) : BatchState :=
  mkBatch (bs_queue s) (bs_active s) (bs_results s) (bs_started s) (bs_cancelRequested s)
    (bs_nextIndex s) (bs_workers s) (bs_log s ++ effects).

Definition set_worker (w : nat) (worker : BatchWorker) (s : BatchState) : BatchState :=
  mkBatch (bs_queue s) (bs_active s) (bs_results s) (bs_started s) (bs_cancelRequested s)
    (bs_nextIndex s) (<[w := worker]> (bs_workers s)) (bs_log s).

Definition active_set (id : string) (h : Handle) (s : BatchState) : BatchState :=
  mkBatch (bs_queue s) (jsmap_set id h (bs_active s)) (bs_results s) (bs_started s)
    (bs_cancelRequested s) (bs_nextIndex s) (bs_workers s) (bs_log s).

Definition active_delete (id : string) (s : BatchState) : BatchState :=
  mkBatch (bs_queue s) (filter (λ e, e.1 ≠ id) (bs_active s)) (bs_results s) (bs_started s)
    (bs_cancelRequested s) (bs_nextIndex s) (bs_workers s) (bs_log s).

(** [results.set] followed by the callback. *)
Definition record_result (result : BatchConnectExecutionResult) (s : BatchState) : BatchState :=
  emit [EfStatus (er_connectionId result) (item_status (er_status result)) (er_error result)]
    (mkBatch (bs_queue s) (bs_active s) (<[er_connectionId result := result]> (bs_results s))
       (bs_started s) (bs_cancelRequested s) (bs_nextIndex s) (bs_workers s) (bs_log s)).

Definition cancelled_result (id : string) : BatchConnectExecutionResult := mkExecution id None ExCancelled.

Definition has_result (id : string) (s : BatchState) : bool := bool_decide (is_Some (bs_results s !! id)).

(** [results.get(id)?.status === "cancelled"]. *)
Definition is_cancelled (id : string) (s : BatchState) : bool :=
  bool_decide (er_status <$> bs_results s !! id = Some ExCancelled).

(** The scan of the loop: the next queued id without a result, and [nextIndex] after
    it. [rest] is the queue from [index] on. *)
Fixpoint next_item (results : gmap string BatchConnectExecutionResult) (rest : list string) (index : nat) :
    option string * nat :=
  match rest with
  | [] => (None, S index)
  | id :: rest =>
      if bool_decide (is_Some (results !! id)) then next_item results rest (S index) else (Some id, S index)
  end.

(** The head of the [while] loop, up to the call of [adapter.start]. *)
Definition worker_loop (w : nat) (s : BatchState) : BatchState :=
  if bs_cancelRequested s then set_worker w WDone s
  else
    match next_item (bs_results s) (drop (bs_nextIndex s) (bs_queue s)) (bs_nextIndex s) with
    | (None, next) =>
        set_worker w WDone
          (mkBatch (bs_queue s) (bs_active s) (bs_results s) (bs_started s) (bs_cancelRequested s)
             next (bs_workers s) (bs_log s))
    | (Some id, next) =>
        set_worker w (WStarting id)
          (emit [EfStatus id BsConnecting None; EfStart id]
             (mkBatch (bs_queue s) (bs_active s) (bs_results s) ({[id]} ∪ bs_started s)
                (bs_cancelRequested s) next (bs_workers s) (bs_log s)))
    end.

(** ** Events *)

Inductive BatchEvent :=
  | EvStarted (w : nat) (handle : Handle)
  | EvStartFailed (w : nat) (message : string)
  | EvCancelled (w : nat) (ok : bool)
  | EvReport (w : nat) (waitingUser : bool)
  | EvWaited (w : nat) (success : bool) (error : option string)
  | EvWaitFailed (w : nat) (message : string)
  | EvCancelRemaining.

(** The result of a [wait] that resolved. *)
Definition outcome_result (id : string) (success : bool) (error : option string) : BatchConnectExecutionResult :=
  if success then mkExecution id None ExSuccess
  else mkExecution id (error ||? Some "Connection failed.") ExFailed.

(** After [wait], in both cases: record unless it was cancelled, then [finally]. *)
Definition finish_wait (w : nat) (id : string) (result : BatchConnectExecutionResult) (s : BatchState) : BatchState :=
  let s := if bs_cancelRequested s && is_cancelled id s then s else record_result result s in
  worker_loop w (active_delete id s).

Definition cancel_queued (s : BatchState) : BatchState :=
  foldl (λ s id, if bool_decide (id ∈ bs_started s) || has_result id s then s
                 else record_result (cancelled_result id) s)
    s (drop (bs_nextIndex s) (bs_queue s)).

Definition cancel_active (s : BatchState) : BatchState :=
  foldl (λ s e, emit [EfCancel e.2] (if has_result e.1 s then s else record_result (cancelled_result e.1) s))
    s (bs_active s).

Definition cancelRemaining (s : BatchState) : BatchState :=
  if bs_cancelRequested s then s
  else
    cancel_active (cancel_queued
      (mkBatch (bs_queue s) (bs_active s) (bs_results s) (bs_started s) true (bs_nextIndex s)
         (bs_workers s) (bs_log s))).

Definition batch_step (s : BatchState) (event : BatchEvent) : BatchState :=
  match event with
  | EvStarted w h =>
      match bs_workers s !! w with
      | Some (WStarting id) =>
          let s := active_set id h s in
          if bs_cancelRequested s then set_worker w (WCancelling id h) (emit [EfCancel h] s)
          else set_worker w (WWaiting id h) (emit [EfWait h] s)
      | _ => s
      end
  | EvStartFailed w message =>
      match bs_workers s !! w with
      | Some (WStarting id) => worker_loop w (record_result (mkExecution id (Some message) ExFailed) s)
      | _ => s
      end
  | EvCancelled w ok =>
      match bs_workers s !! w with
      | Some (WCancelling id h) =>
          let s := active_delete id s in
          let s := if has_result id s then s else record_result (cancelled_result id) s in
          if ok then worker_loop w s else set_worker w WRejected s
      | _ => s
      end
  | EvReport w waitingUser =>
      match bs_workers s !! w with
      | Some (WWaiting id h) =>
          if negb (bs_cancelRequested s) && negb (has_result id s)
          then emit [EfStatus id (if waitingUser then BsWaitingUser else BsConnecting) None] s else s
      | _ => s
      end
  | EvWaited w success error =>
      match bs_workers s !! w with
      | Some (WWaiting id h) => finish_wait w id (outcome_result id success error) s
      | _ => s
      end
  | EvWaitFailed w message =>
      match bs_workers s !! w with
      | Some (WWaiting id h) => finish_wait w id (mkExecution id (Some message) ExFailed) s
      | _ => s
      end
  | EvCancelRemaining => cancelRemaining s
  end.

(** ** Creation *)

Definition uniqueConnectionIds (connectionIds : list string) : list string := unique_ids ∅ connectionIds.

Definition worker_count (queue : list string) (concurrencyLimit : Z) : nat :=
  Z.to_nat (Z.min (Z.of_nat (length queue)) (Z.max 1 concurrencyLimit)).

(** Every worker runs to its first [await] when it is created; a worker that has not
    been created yet is [WDone]. *)
Definition createBatchConnectExecution (connectionIds : list string) (concurrencyLimit : Z) : BatchState :=
  let queue := uniqueConnectionIds connectionIds in
  let count := worker_count queue concurrencyLimit in
  foldl (λ s w, worker_loop w s)
    (mkBatch queue [] ∅ ∅ false 0 (replicate count WDone)
       ((λ id, EfStatus id BsQueued None) <$> queue))
    (seq 0 count).

(** [done]: pending, rejected or the results in queue order. *)
Inductive BatchDone :=
  | DonePending
  | DoneRejected
  | DoneResolved (results : list BatchConnectExecutionResult).

Definition is_done (worker : BatchWorker) : bool := match worker with WDone => true | _ => false end.
Definition is_rejected (worker : BatchWorker) : bool := match worker with WRejected => true | _ => false end.

Definition batch_done (s : BatchState) : BatchDone :=
  if existsb is_rejected (bs_workers s) then DoneRejected
  else if forallb is_done (bs_workers s)
  then DoneResolved (omap (λ id, bs_results s !! id) (bs_queue s))
  else DonePending.

Definition batch_run (connectionIds : list string) (concurrencyLimit : Z) (events : list BatchEvent) : BatchState :=
  foldl batch_step (createBatchConnectExecution connectionIds concurrencyLimit) events.

(** ** What a log says *)

(** The connections that were started, in order. *)
Definition log_starts (log : list BatchEffect) : list string :=
  omap (λ e, match e with EfStart id => Some id | _ => None end) log.

(** The final statuses that were reported. *)
Definition log_finals (log : list BatchEffect) : list BatchConnectExecutionResult :=
  omap (λ e, match e with
             | EfStatus id BsSuccess err => Some (mkExecution id err ExSuccess)
             | EfStatus id BsFailed err => Some (mkExecution id err ExFailed)
             | EfStatus id BsCancelled err => Some (mkExecution id err ExCancelled)
             | _ => None
             end) log.

(** The last status that was reported for a connection. *)
Definition log_status (log : list BatchEffect) (id : string) : option (BatchConnectItemStatus * option string) :=
  foldl (λ acc e, match e with
                  | EfStatus id' st err => if decide (id' = id) then Some (st, err) else acc
                  | _ => acc
                  end) None log.

Lemma log_status_app log effects id :
  log_status (log ++ effects) id = log_status effects id ?: log_status log id.
Proof.
  unfold log_status. rewrite foldl_app. generalize (foldl (λ acc e, match e with
    | EfStatus id' st err => if decide (id' = id) then Some (st, err) else acc | _ => acc end) None log).
  induction effects as [|e es IH] using rev_ind; intros acc; [done|].
  rewrite !foldl_app. cbn. destruct e; try apply IH. case_decide; [done|apply IH].
Qed.

Definition worker_id (worker : BatchWorker) : option string :=
  match worker with
  | WStarting id | WWaiting id _ | WCancelling id _ => Some id
  | WDone | WRejected => None
  end.

Definition in_flight (workers : list BatchWorker) : list string := omap worker_id workers.

(** What always holds of an execution, also within [cancelRemaining]. *)
Record batch_core (s : BatchState) : Prop := {
  bo_queue : NoDup (bs_queue s);
  bo_started : bs_started s = list_to_set (take (bs_nextIndex s) (bs_queue s));
  bo_starts : log_starts (bs_log s) = take (bs_nextIndex s) (bs_queue s);
  bo_flight : NoDup (in_flight (bs_workers s));
  bo_flight_started : ∀ id, id ∈ in_flight (bs_workers s) → id ∈ bs_started s;
  bo_keys : NoDup (bs_active s).*1;
  bo_active : ∀ id h, (id, h) ∈ bs_active s ↔
    WWaiting id h ∈ bs_workers s ∨ WCancelling id h ∈ bs_workers s;
  bo_settled : ∀ id, id ∈ bs_started s → id ∈ in_flight (bs_workers s) ∨ is_Some (bs_results s !! id);
  bo_results : ∀ id r, bs_results s !! id = Some r → er_connectionId r = id ∧ id ∈ bs_queue s ∧
    (id ∈ bs_started s ∨ bs_cancelRequested s = true ∧ r = cancelled_result id);
  bo_flight_results : ∀ id r, id ∈ in_flight (bs_workers s) → bs_results s !! id = Some r →
    bs_cancelRequested s = true ∧ r = cancelled_result id ∧ (WStarting id ∉ bs_workers s);
  bo_finals : NoDup (er_connectionId <$> log_finals (bs_log s));
  bo_finals_results : ∀ r, r ∈ log_finals (bs_log s) ↔ bs_results s !! er_connectionId r = Some r;
  bo_status : ∀ id, id ∈ bs_queue s →
    match bs_results s !! id with
    | Some r => log_status (bs_log s) id = Some (item_status (er_status r), er_error r)
    | None => ∃ st, log_status (bs_log s) id = Some (st, None) ∧
                isActiveStatus st = bool_decide (id ∈ bs_started s) ∧
                (id ∉ bs_started s → st = BsQueued)
    end;
}.

(** The invariant of an execution. *)
Record batch_ok (s : BatchState) : Prop := {
  bo_core : batch_core s;
  bo_cancelled : bs_cancelRequested s = true → ∀ id, id ∈ bs_queue s →
    id ∈ bs_started s ∨ is_Some (bs_results s !! id);
  bo_cancels : bs_cancelRequested s = true → ∀ id h, (id, h) ∈ bs_active s → EfCancel h ∈ bs_log s;
}.

#[local] Ltac batch_cbn :=
  cbn [set_worker active_set active_delete record_result emit bs_queue bs_active bs_results bs_started
       bs_cancelRequested bs_nextIndex bs_log bs_workers].

(** ** Lemmas: one worker *)

Lemma workers_split (l : list BatchWorker) w wk :
  l !! w = Some wk → ∃ l1 l2, l = l1 ++ wk :: l2 ∧ ∀ x, <[w := x]> l = l1 ++ x :: l2.
Proof.
  intros Hw. exists (take w l), (drop (S w) l). split; [symmetry; by apply take_drop_middle|].
  intros x. apply insert_take_drop. by eapply lookup_lt_Some.
Qed.

(** A worker that runs nothing may be exchanged for another. *)
Lemma idle_in_flight l w wk x :
  l !! w = Some wk → worker_id wk = None → worker_id x = None →
  in_flight (<[w := x]> l) = in_flight l ∧
  ∀ y, is_Some (worker_id y) → y ∈ <[w := x]> l ↔ y ∈ l.
Proof.
  intros (l1 & l2 & Hl & Hi)%workers_split Hwk Hx. unfold in_flight.
  rewrite Hi, Hl, !omap_app. cbn [omap list_omap]. rewrite Hwk, Hx. split; [done|].
  intros y Hy. rewrite !elem_of_app, !elem_of_cons.
  assert (y ≠ x ∧ y ≠ wk) as [? ?] by (split; intros ->; rewrite ?Hwk, ?Hx in Hy; by destruct Hy). tauto.
Qed.

Lemma set_idle_ok s w wk x :
  batch_ok s → bs_workers s !! w = Some wk → worker_id wk = None → worker_id x = None →
  batch_ok (set_worker w x s).
Proof.
  intros [[] Hc1 Hc2] Hw Hwk Hx. destruct (idle_in_flight _ w wk x Hw Hwk Hx) as [Hf Hin].
  split; [|done..]. constructor; batch_cbn; rewrite ?Hf; try done.
  - intros id h. rewrite !Hin by done. done.
  - intros id r Hid Hr. rewrite Hin by done. by apply bo_flight_results0.
Qed.

(** Giving a free worker something to run. *)
Lemma busy_in_flight l w wk x id :
  l !! w = Some wk → worker_id wk = None → worker_id x = Some id →
  Permutation (in_flight (<[w := x]> l)) (id :: in_flight l) ∧
  ∀ y, is_Some (worker_id y) → y ∈ <[w := x]> l ↔ y = x ∨ y ∈ l.
Proof.
  intros (l1 & l2 & Hl & Hi)%workers_split Hwk Hx. unfold in_flight.
  rewrite Hi, Hl, !omap_app. cbn [omap list_omap]. rewrite Hwk, Hx. split.
  - symmetry. apply Permutation_middle.
  - intros y Hy. rewrite !elem_of_app, !elem_of_cons.
    assert (y ≠ wk) by (intros ->; rewrite Hwk in Hy; by destruct Hy). tauto.
Qed.

(** Taking its work from a worker. *)
Lemma free_in_flight l w wk x id :
  l !! w = Some wk → worker_id wk = Some id → worker_id x = None →
  Permutation (in_flight l) (id :: in_flight (<[w := x]> l)) ∧
  ∀ y, is_Some (worker_id y) → y ∈ l ↔ y = wk ∨ y ∈ <[w := x]> l.
Proof.
  intros (l1 & l2 & Hl & Hi)%workers_split Hwk Hx. unfold in_flight.
  rewrite Hi, Hl, !omap_app. cbn [omap list_omap]. rewrite Hwk, Hx. split.
  - symmetry. apply Permutation_middle.
  - intros y Hy. rewrite !elem_of_app, !elem_of_cons.
    assert (y ≠ x) by (intros ->; rewrite Hx in Hy; by destruct Hy). tauto.
Qed.

(** The same connection, from one phase to the next. *)
Lemma same_in_flight l w wk x id :
  l !! w = Some wk → worker_id wk = Some id → worker_id x = Some id →
  in_flight (<[w := x]> l) = in_flight l.
Proof.
  intros (l1 & l2 & Hl & Hi)%workers_split Hwk Hx. unfold in_flight.
  rewrite Hi, Hl, !omap_app. cbn [omap list_omap]. by rewrite Hwk, Hx.
Qed.

Lemma in_flight_elem l id : id ∈ in_flight l ↔ ∃ wk, wk ∈ l ∧ worker_id wk = Some id.
Proof. unfold in_flight. rewrite list_elem_of_omap. done. Qed.

(** No two workers run the same connection. *)
Lemma flight_unique l w wk x id :
  NoDup (in_flight l) → l !! w = Some wk → worker_id wk = Some id → x ∈ l → worker_id x = Some id → x = wk.
Proof.
  intros Hnd Hw Hwk Hx Hxid. destruct (free_in_flight l w wk WDone id Hw Hwk eq_refl) as [Hp Hin].
  rewrite Hp in Hnd. apply NoDup_cons in Hnd as [Hn _]. apply Hin in Hx as [?|Hx]; [done| |by rewrite Hxid].
  destruct Hn. apply in_flight_elem. eauto.
Qed.

(** ** Lemmas: the loop *)

Lemma take_S_cons {A} (l : list A) n x rest : drop n l = x :: rest → take (S n) l = take n l ++ [x].
Proof.
  intros Hd. apply take_S_r. rewrite <- (Nat.add_0_r n). by rewrite <- lookup_drop, Hd.
Qed.

Lemma drop_take_disjoint {A} (l : list A) n x : NoDup l → x ∈ take n l → x ∈ drop n l → False.
Proof. intros Hnd Ht Hd. rewrite <- (take_drop n l) in Hnd. apply NoDup_app in Hnd as (_ & Hn & _). by apply (Hn x). Qed.

Lemma next_item_fresh s :
  batch_ok s → bs_cancelRequested s = false →
  next_item (bs_results s) (drop (bs_nextIndex s) (bs_queue s)) (bs_nextIndex s) =
    (head (drop (bs_nextIndex s) (bs_queue s)), S (bs_nextIndex s)).
Proof.
  intros [[] _ _] Hc. destruct (drop (bs_nextIndex s) (bs_queue s)) as [|id rest] eqn:Ed; [done|]. cbn.
  rewrite bool_decide_false; [done|]. intros [r Hr]. destruct (bo_results0 _ _ Hr) as (_ & _ & [Hs|[? _]]); [|congruence].
  rewrite bo_started0 in Hs. apply elem_of_list_to_set in Hs.
  eapply drop_take_disjoint; [exact bo_queue0|exact Hs|]. rewrite Ed. left.
Qed.

Lemma worker_loop_ok s w wk :
  batch_ok s → bs_workers s !! w = Some wk → worker_id wk = None → batch_ok (worker_loop w s).
Proof.
  intros Hok Hw Hwk. unfold worker_loop. destruct (bs_cancelRequested s) eqn:Hc; [by eapply set_idle_ok|].
  rewrite (next_item_fresh _ Hok Hc).
  destruct (drop (bs_nextIndex s) (bs_queue s)) as [|id rest] eqn:Ed; cbn [head].
  - assert (take (S (bs_nextIndex s)) (bs_queue s) = take (bs_nextIndex s) (bs_queue s)) as Ht.
    { assert (length (bs_queue s) ≤ bs_nextIndex s) as Hl
        by (apply (f_equal length) in Ed; rewrite length_drop in Ed; cbn in Ed; lia).
      rewrite !take_ge by lia. done. }
    eapply (set_idle_ok _ w wk); [|done..].
    destruct Hok as [[] ? ?]. split; [constructor|..]; batch_cbn; rewrite ?Ht; try done; by rewrite <- Hc.
  - pose proof (take_S_cons _ _ _ _ Ed) as Ht. destruct Hok as [[] Hc1 Hc2].
    assert (id ∈ bs_queue s) as Hq
      by (rewrite <- (take_drop (bs_nextIndex s) (bs_queue s)), Ed; apply elem_of_app; right; left).
    assert (id ∉ bs_started s) as Hns.
    { rewrite bo_started0. intros Hs%elem_of_list_to_set. eapply drop_take_disjoint; [exact bo_queue0|exact Hs|].
      rewrite Ed. left. }
    assert (bs_results s !! id = None) as Hnr.
    { destruct (bs_results s !! id) as [r|] eqn:Er; [|done].
      destruct (bo_results0 _ _ Er) as (_ & _ & [?|[? _]]); [done|congruence]. }
    destruct (busy_in_flight _ w wk (WStarting id) id Hw Hwk eq_refl) as [Hf Hin].
    split; [constructor|..]; batch_cbn; [..|intros ?; congruence|intros ?; congruence].
    + done.
    + rewrite bo_started0, Ht, list_to_set_app_L. set_solver.
    + unfold log_starts. rewrite omap_app. cbn. rewrite Ht. by f_equal.
    + rewrite Hf. constructor; [|done]. intros Hi. by apply Hns, bo_flight_started0.
    + intros x. rewrite Hf, elem_of_cons. set_solver.
    + done.
    + intros x h. rewrite bo_active0, !Hin by done. naive_solver.
    + intros x. rewrite elem_of_union, elem_of_singleton, Hf, elem_of_cons. naive_solver.
    + intros x r Hr. destruct (bo_results0 _ _ Hr) as (? & ? & ?). set_solver.
    + intros x r Hx Hr. rewrite Hf in Hx. apply elem_of_cons in Hx as [->|Hx]; [congruence|].
      destruct (bo_flight_results0 _ _ Hx Hr) as (? & _). congruence.
    + unfold log_finals. rewrite omap_app. cbn. by rewrite app_nil_r.
    + intros r. unfold log_finals. rewrite omap_app. cbn. rewrite app_nil_r. apply bo_finals_results0.
    + intros x Hx. specialize (bo_status0 x Hx). rewrite log_status_app. cbn.
      destruct (decide (id = x)) as [->|Hne].
      * rewrite Hnr. exists BsConnecting. split; [done|]. rewrite bool_decide_true by set_solver. set_solver.
      * destruct (bs_results s !! x); [done|]. destruct bo_status0 as (st & ? & ? & ?).
        exists st. split; [done|]. split; [|set_solver].
        rewrite (bool_decide_ext _ (x ∈ bs_started s)); [done|set_solver].
Qed.

Lemma list_to_started s id : batch_core s → id ∈ bs_started s → id ∈ bs_queue s.
Proof.
  intros [] Hs. rewrite bo_started0 in Hs. apply elem_of_list_to_set in Hs.
  rewrite <- (take_drop (bs_nextIndex s) (bs_queue s)). apply elem_of_app. by left.
Qed.

(** ** Lemmas: recording a result *)

Lemma log_finals_result log r :
  log_finals (log ++ [EfStatus (er_connectionId r) (item_status (er_status r)) (er_error r)]) = log_finals log ++ [r].
Proof. unfold log_finals. rewrite omap_app. by destruct r as [? ? []]. Qed.

Lemma log_status_result log r id :
  log_status (log ++ [EfStatus (er_connectionId r) (item_status (er_status r)) (er_error r)]) id =
    if decide (er_connectionId r = id) then Some (item_status (er_status r), er_error r) else log_status log id.
Proof. rewrite log_status_app. cbn. by case_decide. Qed.

(** The parts of the invariant that do not name the workers, after a first result. *)
Lemma record_finals s r :
  batch_core s → bs_results s !! er_connectionId r = None →
  NoDup (er_connectionId <$> log_finals (bs_log (record_result r s))) ∧
  (∀ x, x ∈ log_finals (bs_log (record_result r s)) ↔ bs_results (record_result r s) !! er_connectionId x = Some x).
Proof.
  intros [] Hr. batch_cbn. rewrite log_finals_result. split.
  - rewrite fmap_app. apply NoDup_app. split; [done|]. split; [|apply NoDup_singleton].
    intros x Hx%list_elem_of_fmap Hin. destruct Hx as (y & -> & Hy). apply list_elem_of_singleton in Hin.
    apply bo_finals_results0 in Hy. congruence.
  - intros x. rewrite elem_of_app, list_elem_of_singleton, bo_finals_results0, lookup_insert.
    destruct (decide (er_connectionId r = er_connectionId x)) as [He|He].
    + rewrite <- He, Hr. naive_solver.
    + naive_solver.
Qed.

Lemma record_status s r :
  batch_core s → ∀ id, id ∈ bs_queue s →
    match bs_results (record_result r s) !! id with
    | Some r' => log_status (bs_log (record_result r s)) id = Some (item_status (er_status r'), er_error r')
    | None => ∃ st, log_status (bs_log (record_result r s)) id = Some (st, None) ∧
                isActiveStatus st = bool_decide (id ∈ bs_started s) ∧
                (id ∉ bs_started s → st = BsQueued)
    end.
Proof.
  intros [] id Hq. batch_cbn. rewrite log_status_result, lookup_insert.
  case_decide; [done|]. by apply bo_status0.
Qed.

Lemma log_starts_result log r :
  log_starts (log ++ [EfStatus (er_connectionId r) (item_status (er_status r)) (er_error r)]) = log_starts log.
Proof. unfold log_starts. rewrite omap_app. cbn. apply app_nil_r. Qed.

(** A worker lays down the connection it runs, which has a result from then on. *)
Lemma retire_ok s w wk id r :
  batch_ok s → bs_workers s !! w = Some wk → worker_id wk = Some id → er_connectionId r = id →
  batch_ok (set_worker w WRejected (active_delete id (if has_result id s then s else record_result r s))).
Proof.
  intros [Hcore Hc1 Hc2] Hw Hwk Hrid.
  destruct (free_in_flight _ w wk WRejected id Hw Hwk eq_refl) as [Hp Hin].
  pose proof (record_status s r Hcore) as Hst. pose proof (record_finals s r Hcore) as Hfin.
  pose proof Hcore as [].
  assert (NoDup (id :: in_flight (<[w := WRejected]> (bs_workers s)))) as [Hni Hnd]%NoDup_cons by by rewrite <- Hp.
  assert (∀ x, x ∈ in_flight (bs_workers s) → x = id ∨ x ∈ in_flight (<[w := WRejected]> (bs_workers s))) as Hsub
    by (intros x; rewrite Hp; apply elem_of_cons).
  assert (id ∈ bs_started s) as Hids by (apply bo_flight_started0; rewrite Hp; left).
  assert (id ∈ bs_queue s) as Hidq by by apply list_to_started.
  assert (∀ x h, (x, h) ∈ filter (λ e : string * Handle, e.1 ≠ id) (bs_active s) ↔
    WWaiting x h ∈ <[w := WRejected]> (bs_workers s) ∨ WCancelling x h ∈ <[w := WRejected]> (bs_workers s)) as Ha.
  { intros x h. rewrite list_elem_of_filter, bo_active0. cbn.
    assert (x ≠ id → WWaiting x h ≠ wk ∧ WCancelling x h ≠ wk) as Hne
      by (intros Hne; split; intros <-; cbn in Hwk; congruence).
    assert ((WWaiting x h ∈ <[w := WRejected]> (bs_workers s) ∨
      WCancelling x h ∈ <[w := WRejected]> (bs_workers s)) → x ≠ id) as Hne2
      by (intros [H|H] ->; apply Hni, in_flight_elem; eauto).
    rewrite !Hin by done. tauto. }
  assert (∀ x, x ∈ in_flight (<[w := WRejected]> (bs_workers s)) → x ∈ in_flight (bs_workers s) ∧ x ≠ id) as Hback.
  { intros x Hx. rewrite Hp. split; [by right|]. congruence. }
  assert (NoDup (filter (λ e : string * Handle, e.1 ≠ id) (bs_active s)).*1) as Hk.
  { eapply sublist_NoDup; [exact bo_keys0|]. apply fmap_sublist, sublist_filter. }
  unfold has_result. case_bool_decide as Hr.
  - split; [constructor|..]; batch_cbn; try done.
    + intros x Hx. apply bo_flight_started0. by apply Hback.
    + intros x Hx. destruct (bo_settled0 x Hx) as [[->|?]%Hsub|?]; auto.
    + intros x rx Hx Hrx. destruct (Hback x Hx) as [Hx' Hne].
      destruct (bo_flight_results0 x rx Hx' Hrx) as (? & ? & Hn). split_and!; [done..|].
      contradict Hn. apply Hin; [done|by right].
    + intros Hc x h [_ Hx]%list_elem_of_filter. by apply Hc2 with x.
  - apply eq_None_not_Some in Hr. rewrite <- Hrid in Hr. destruct (Hfin Hr) as [Hf1 Hf2].
    split; [constructor|..]; batch_cbn; try done; rewrite ?log_starts_result; try done.
    + intros x Hx. apply bo_flight_started0. by apply Hback.
    + intros x Hx. destruct (bo_settled0 x Hx) as [[->|?]%Hsub|?]; auto.
      * right. rewrite Hrid, lookup_insert_eq. eauto.
      * right. apply lookup_insert_is_Some'. by right.
    + intros x rx [[<- <-]|[Hne Hx]]%lookup_insert_Some; [rewrite Hrid; auto|]. by apply bo_results0.
    + intros x rx Hx Hrx. destruct (Hback x Hx) as [Hx' Hne].
      rewrite lookup_insert_ne in Hrx by congruence.
      destruct (bo_flight_results0 x rx Hx' Hrx) as (? & ? & Hn). split_and!; [done..|].
      contradict Hn. apply Hin; [done|by right].
    + intros Hc x Hx. destruct (Hc1 Hc x Hx); [by left|right]. apply lookup_insert_is_Some'. by right.
    + intros Hc x h [_ Hx]%list_elem_of_filter. apply elem_of_app. left. by apply Hc2 with x.
Qed.

Lemma worker_loop_set w x s : worker_loop w (set_worker w x s) = worker_loop w s.
Proof.
  unfold worker_loop. batch_cbn. destruct (bs_cancelRequested s).
  - unfold set_worker. batch_cbn. by rewrite list_insert_insert_eq.
  - destruct (next_item _ _ _) as [[]]; unfold set_worker; batch_cbn; by rewrite list_insert_insert_eq.
Qed.

(** What every branch that settles an attempt does before the next turn of the loop. *)
Lemma settle_attempt_ok s w wk id r :
  batch_ok s → bs_workers s !! w = Some wk → worker_id wk = Some id → er_connectionId r = id →
  batch_ok (worker_loop w (active_delete id (if has_result id s then s else record_result r s))).
Proof.
  intros Hok Hw Hwk Hr. rewrite <- (worker_loop_set w WRejected).
  apply worker_loop_ok with WRejected; [by eapply retire_ok| |done].
  assert (bs_workers (active_delete id (if has_result id s then s else record_result r s)) = bs_workers s) as Hws
    by by destruct (has_result id s).
  cbn [set_worker bs_workers]. rewrite Hws. apply list_lookup_insert_eq. by eapply lookup_lt_Some.
Qed.

Lemma finish_wait_ok s w id h r :
  batch_ok s → bs_workers s !! w = Some (WWaiting id h) → er_connectionId r = id →
  batch_ok (finish_wait w id r s).
Proof.
  intros Hok Hw Hr. unfold finish_wait.
  replace (bs_cancelRequested s && is_cancelled id s) with (has_result id s); [by eapply settle_attempt_ok|].
  destruct Hok as [[] _ _]. unfold has_result, is_cancelled.
  destruct (bs_results s !! id) as [x|] eqn:Ex; cbn.
  - destruct (bo_flight_results0 id x) as (Hc & -> & _); [|done|by rewrite Hc].
    apply in_flight_elem. exists (WWaiting id h). split; [by eapply list_elem_of_lookup_2|done].
  - by rewrite andb_false_r.
Qed.

(** A connection that is being started has neither a result nor a handle. *)
Lemma starting_fresh s w id :
  batch_core s → bs_workers s !! w = Some (WStarting id) →
  bs_results s !! id = None ∧ (id ∉ (bs_active s).*1) ∧ id ∈ in_flight (bs_workers s).
Proof.
  intros [] Hw. pose proof (list_elem_of_lookup_2 _ _ _ Hw) as Hin.
  assert (id ∈ in_flight (bs_workers s)) as Hf by (apply in_flight_elem; eauto). split_and!; [| |done].
  - destruct (bs_results s !! id) as [r|] eqn:Er; [|done].
    by destruct (bo_flight_results0 _ _ Hf Er) as (_ & _ & []).
  - intros Ha%list_elem_of_fmap. destruct Ha as ([x h] & -> & Hx). cbn in *. apply bo_active0 in Hx as [Hx|Hx];
      eapply flight_unique in Hx; try done; done.
Qed.

Lemma jsmap_delete_absent id (m : jsmap Handle) : id ∉ m.*1 → filter (λ e, e.1 ≠ id) m = m.
Proof.
  induction m as [|[k v] m IH]; [done|]. cbn. rewrite not_elem_of_cons. intros [Hne Hm].
  rewrite decide_True by (cbn; congruence). f_equal. by apply IH.
Qed.

Lemma start_failed_ok s w id message :
  batch_ok s → bs_workers s !! w = Some (WStarting id) →
  batch_ok (worker_loop w (record_result (mkExecution id (Some message) ExFailed) s)).
Proof.
  intros Hok Hw. destruct (starting_fresh s w id (bo_core s Hok) Hw) as (Hr & Ha & _).
  pose proof (settle_attempt_ok s w _ id (mkExecution id (Some message) ExFailed) Hok Hw eq_refl eq_refl) as H.
  unfold has_result in H. rewrite Hr in H. unfold active_delete in H. cbn in H.
  rewrite (jsmap_delete_absent id (bs_active s) Ha) in H. exact H.
Qed.

(** An adapter call is no status. *)
Definition is_call (e : BatchEffect) : bool :=
  match e with EfWait _ | EfCancel _ => true | _ => false end.

Lemma log_call log e id :
  is_call e = true →
  log_starts (log ++ [e]) = log_starts log ∧ log_finals (log ++ [e]) = log_finals log ∧
  log_status (log ++ [e]) id = log_status log id.
Proof.
  intros He. rewrite log_status_app. unfold log_starts, log_finals. rewrite !omap_app.
  by destruct e; cbn; rewrite ?app_nil_r.
Qed.

Lemma emit_call_core s e : batch_core s → is_call e = true → batch_core (emit [e] s).
Proof.
  intros [] He. constructor; batch_cbn; try done.
  1-3: destruct (log_call (bs_log s) e "" He) as (H1 & H2 & _); rewrite ?H1, ?H2; done.
  intros x Hx. destruct (log_call (bs_log s) e x He) as (_ & _ & ->). by apply bo_status0.
Qed.

Lemma emit_call_ok s e : batch_ok s → is_call e = true → batch_ok (emit [e] s).
Proof.
  intros [Hcore Hc1 Hc2] He. split; [by apply emit_call_core|done|]. batch_cbn.
  intros Hc x h Hx. apply elem_of_app. left. by apply Hc2 with x.
Qed.

(** The handle has arrived: the worker waits for the session, or for the handle's cancellation. *)
Lemma started_ok s w id h x :
  batch_ok s → bs_workers s !! w = Some (WStarting id) →
  (x = WWaiting id h ∨ x = WCancelling id h) → (bs_cancelRequested s = true → EfCancel h ∈ bs_log s) →
  batch_ok (set_worker w x (active_set id h s)).
Proof.
  intros [Hcore Hc1 Hc2] Hw Hx Hlog. destruct (starting_fresh s w id Hcore Hw) as (Hr & Ha & Hfl).
  assert (worker_id x = Some id) as Hxid by by destruct Hx as [-> | ->].
  pose proof (same_in_flight _ w _ x id Hw eq_refl Hxid) as Hf.
  destruct (free_in_flight _ w _ WDone id Hw eq_refl eq_refl) as [Hp1 Hin1].
  destruct Hcore. rewrite Hp1 in bo_flight0. apply NoDup_cons in bo_flight0 as [Hni Hnd].
  assert (w < length (bs_workers s)) as Hlt by by eapply lookup_lt_Some.
  destruct (busy_in_flight (<[w := WDone]> (bs_workers s)) w WDone x id) as [Hp2 Hin2];
    [by apply list_lookup_insert_eq|done..|]. rewrite list_insert_insert_eq in Hp2, Hin2.
  assert (∀ y, is_Some (worker_id y) → y ≠ WStarting id → y ∈ <[w := x]> (bs_workers s) ↔ y = x ∨ y ∈ bs_workers s) as Hin.
  { intros y Hy Hne. rewrite Hin2, (Hin1 y Hy) by done. tauto. }
  rewrite <- jsmap_get_None in Ha.
  split; [constructor|..]; batch_cbn; rewrite ?Hf; try done.
  - rewrite Hp1. by constructor.
  - by apply jsmap_set_NoDup.
  - intros y g. rewrite jsmap_set_new, elem_of_app, list_elem_of_singleton, bo_active0 by by apply jsmap_get_None.
    rewrite !Hin by done. destruct Hx as [-> | ->]; naive_solver.
  - intros y ry Hy Hry. destruct (bo_flight_results0 y ry Hy Hry) as (? & ? & Hn). split_and!; [done..|].
    rewrite Hin2 by done. intros [He|Hin']; [by destruct Hx as [-> | ->]|]. apply Hn. apply Hin1; [done|by right].
  - intros Hc y g. rewrite jsmap_set_new, elem_of_app, list_elem_of_singleton by by apply jsmap_get_None.
    intros [Hy|[= -> ->]]; [by apply Hc2 with y|by apply Hlog].
Qed.

Lemma report_ok s w id h (waitingUser : bool) :
  batch_ok s → bs_workers s !! w = Some (WWaiting id h) → has_result id s = false →
  batch_ok (emit [EfStatus id (if waitingUser then BsWaitingUser else BsConnecting) None] s).
Proof.
  intros [[] Hc1 Hc2] Hw Hr. unfold has_result in Hr. apply bool_decide_eq_false in Hr.
  apply eq_None_not_Some in Hr.
  assert (id ∈ bs_started s) as Hs
    by (apply bo_flight_started0, in_flight_elem; eexists; split; [by eapply list_elem_of_lookup_2|done]).
  assert (∀ log, log_starts (log ++ [EfStatus id (if waitingUser then BsWaitingUser else BsConnecting) None]) = log_starts log ∧
    log_finals (log ++ [EfStatus id (if waitingUser then BsWaitingUser else BsConnecting) None]) = log_finals log) as Hlog.
  { intros log. unfold log_starts, log_finals. rewrite !omap_app. by destruct waitingUser; cbn; rewrite !app_nil_r. }
  destruct (Hlog (bs_log s)) as [Hl1 Hl2].
  split; [constructor|..]; batch_cbn; rewrite ?Hl1, ?Hl2; try done.
  - intros x Hx. rewrite log_status_app. cbn. destruct (decide (id = x)) as [<-|Hne].
    + rewrite Hr. eexists. split; [done|]. rewrite bool_decide_true by done. by destruct waitingUser.
    + by apply bo_status0.
  - intros Hc x g Hx. apply elem_of_app. left. by apply Hc2 with x.
Qed.

(** ** Lemmas: cancellation *)

(** What marking connections as cancelled leaves alone. *)
Record cancel_frame (s s' : BatchState) : Prop := {
  cf_queue : bs_queue s' = bs_queue s;
  cf_active : bs_active s' = bs_active s;
  cf_started : bs_started s' = bs_started s;
  cf_cancel : bs_cancelRequested s' = bs_cancelRequested s;
  cf_next : bs_nextIndex s' = bs_nextIndex s;
  cf_workers : bs_workers s' = bs_workers s;
  cf_results : ∀ id r, bs_results s !! id = Some r → bs_results s' !! id = Some r;
  cf_log : ∀ e, e ∈ bs_log s → e ∈ bs_log s';
}.

#[local] Instance cancel_frame_preorder : PreOrder cancel_frame.
Proof. split; [by constructor|]. intros s1 s2 s3 [] []. constructor; try congruence; auto. Qed.

Lemma cancel_record_core s id :
  batch_core s → bs_cancelRequested s = true → id ∈ bs_queue s → (WStarting id ∉ bs_workers s) →
  batch_core (if has_result id s then s else record_result (cancelled_result id) s) ∧
  cancel_frame s (if has_result id s then s else record_result (cancelled_result id) s) ∧
  is_Some (bs_results (if has_result id s then s else record_result (cancelled_result id) s) !! id).
Proof.
  intros Hcore Hc Hq Hn. unfold has_result. case_bool_decide as Hr; [done|].
  apply eq_None_not_Some in Hr. pose proof (record_status s (cancelled_result id) Hcore) as Hst.
  destruct (record_finals s (cancelled_result id) Hcore Hr) as [Hf1 Hf2]. destruct Hcore. split_and!.
  - constructor; batch_cbn; try done; rewrite ?(log_starts_result _ (cancelled_result id)); try done.
    + intros x Hx. destruct (bo_settled0 x Hx); [by left|right]. apply lookup_insert_is_Some'. by right.
    + intros x rx [[<- <-]|[Hne Hx]]%lookup_insert_Some; [by auto|]. by apply bo_results0.
    + intros x rx Hx [[<- <-]|[Hne Hrx]]%lookup_insert_Some; [done|]. by apply bo_flight_results0.
  - constructor; batch_cbn; try done; [|intros; apply elem_of_app; by left].
    intros x r Hx. rewrite lookup_insert_ne; [done|cbn; congruence].
  - batch_cbn. cbn [cancelled_result er_connectionId]. rewrite lookup_insert_eq. eauto.
Qed.

Lemma cancel_queued_fold l s :
  batch_core s → bs_cancelRequested s = true → (∀ id, id ∈ l → id ∈ bs_queue s) →
  let s' := foldl (λ s id, if bool_decide (id ∈ bs_started s) || has_result id s then s
                           else record_result (cancelled_result id) s) s l in
  batch_core s' ∧ cancel_frame s s' ∧ ∀ id, id ∈ l → id ∈ bs_started s ∨ is_Some (bs_results s' !! id).
Proof.
  revert s. induction l as [|id l IH]; intros s Hcore Hc Hq.
  { split_and!; [done|reflexivity|]. by intros ? ?%not_elem_of_nil. }
  cbn [foldl]. set (s1 := if _ || _ then s else _).
  assert (batch_core s1 ∧ cancel_frame s s1 ∧ (id ∈ bs_started s ∨ is_Some (bs_results s1 !! id))) as (Hcore1 & Hfr & Hid).
  { unfold s1. case_bool_decide as Hs; [by split_and!; auto|]. cbn [orb].
    destruct (cancel_record_core s id) as (? & ? & ?); [done|done|apply Hq; left| |auto].
    intros Hw. apply Hs, bo_flight_started; [done|]. apply in_flight_elem. eauto. }
  pose proof Hfr as []. destruct (IH s1) as (H1 & H2 & H3);
    [done|congruence|intros x Hx; rewrite cf_queue0; apply Hq; by right|].
  split_and!; [done|by etrans|]. intros x [->|Hx]%elem_of_cons.
  - destruct Hid as [?|[r Hr]]; [by left|right]. exists r. by apply H2.
  - rewrite <- cf_started0. by apply H3.
Qed.

Lemma cancel_active_fold l s :
  batch_core s → bs_cancelRequested s = true → (∀ e, e ∈ l → e ∈ bs_active s) →
  let s' := foldl (λ s e, emit [EfCancel e.2] (if has_result e.1 s then s
                          else record_result (cancelled_result e.1) s)) s l in
  batch_core s' ∧ cancel_frame s s' ∧ ∀ e, e ∈ l → EfCancel e.2 ∈ bs_log s'.
Proof.
  revert s. induction l as [|[id h] l IH]; intros s Hcore Hc Ha.
  { split_and!; [done|reflexivity|]. by intros ? ?%not_elem_of_nil. }
  cbn [foldl fst snd].
  assert ((id, h) ∈ bs_active s) as Hidh by (apply Ha; left).
  assert (id ∈ in_flight (bs_workers s)) as Hfl.
  { apply in_flight_elem. apply (bo_active _ Hcore) in Hidh as [?|?]; eexists; by split. }
  destruct (cancel_record_core s id) as (H1 & H2 & _); [done|done| | |].
  { by apply list_to_started, bo_flight_started. }
  { intros Hw. apply list_elem_of_lookup in Hw as [w Hw]. destruct (starting_fresh s w id Hcore Hw) as (_ & [] & _).
    by apply (list_elem_of_fmap_2 fst) in Hidh. }
  revert H1 H2. generalize (if has_result id s then s else record_result (cancelled_result id) s).
  intros s1 H1 H2. pose proof H2 as [].
  assert (cancel_frame s1 (emit [EfCancel h] s1)) as Hfr1
    by (constructor; batch_cbn; try done; intros; apply elem_of_app; by left).
  destruct (IH (emit [EfCancel h] s1)) as (G1 & G2 & G3);
    [by apply emit_call_core|batch_cbn; congruence|intros e He; batch_cbn; rewrite cf_active0; apply Ha; by right|].
  split_and!; [done|by etrans; [|etrans]|]. intros e [->|He]%elem_of_cons; [|by apply G3].
  apply G2. batch_cbn. apply elem_of_app. right. left.
Qed.

Lemma cancelRemaining_ok s :
  batch_ok s → batch_ok (cancelRemaining s) ∧ bs_cancelRequested (cancelRemaining s) = true ∧
  bs_workers (cancelRemaining s) = bs_workers s ∧ bs_nextIndex (cancelRemaining s) = bs_nextIndex s ∧
  bs_queue (cancelRemaining s) = bs_queue s.
Proof.
  intros Hok. unfold cancelRemaining. destruct (bs_cancelRequested s) eqn:Hc; [done|]. pose proof Hok as [[] _ _].
  set (s0 := mkBatch _ _ _ _ true _ _ _).
  assert (batch_core s0) as Hcore0.
  { constructor; cbn; try done; try tauto.
    - intros id r Hr. destruct (bo_results0 id r Hr) as (? & ? & [?|[? ?]]); auto.
    - intros id r Hi Hr. destruct (bo_flight_results0 id r Hi Hr). congruence. }
  destruct (cancel_queued_fold (drop (bs_nextIndex s0) (bs_queue s0)) s0) as (G1 & G2 & G3); [done|done| |].
  { intros id Hid. rewrite <- (take_drop (bs_nextIndex s0) (bs_queue s0)). apply elem_of_app. by right. }
  fold (cancel_queued s0) in G1, G2, G3. pose proof G2 as [].
  destruct (cancel_active_fold (bs_active (cancel_queued s0)) (cancel_queued s0)) as (F1 & F2 & F3);
    [done|by rewrite cf_cancel0|done|]. fold (cancel_active (cancel_queued s0)) in F1, F2, F3.
  assert (cancel_frame s0 (cancel_active (cancel_queued s0))) as [] by by etrans.
  split_and!; [split; [done|..]|done..].
  - intros _ id. rewrite cf_queue1, cf_started1. intros Hid.
    change (bs_queue s0) with (bs_queue s) in Hid. rewrite <- (take_drop (bs_nextIndex s) (bs_queue s)) in Hid. apply elem_of_app in Hid as [Hid|Hid].
    + left. change (bs_started s0) with (bs_started s). rewrite bo_started0. by apply elem_of_list_to_set.
    + destruct (G3 id Hid) as [?|[r Hr]]; [by left|]. right. exists r. by apply F2.
  - intros _ id h. rewrite cf_active1, <- cf_active0. apply F3.
Qed.

Lemma batch_step_ok s e : batch_ok s → batch_ok (batch_step s e).
Proof.
  intros Hok. destruct e as [w h|w msg|w ok|w user|w success err|w msg|]; cbn [batch_step];
    [..|by apply cancelRemaining_ok];
    destruct (bs_workers s !! w) as [[id|id g|id g| |]|] eqn:Hw; try done.
  - cbv zeta. change (bs_cancelRequested (active_set id h s)) with (bs_cancelRequested s).
    destruct (bs_cancelRequested s) eqn:Hc.
    + change (emit [EfCancel h] (active_set id h s)) with (active_set id h (emit [EfCancel h] s)).
      apply started_ok; [by apply emit_call_ok|done|by right|]. intros _. batch_cbn. apply elem_of_app. right. left.
    + change (emit [EfWait h] (active_set id h s)) with (active_set id h (emit [EfWait h] s)).
      apply started_ok; [by apply emit_call_ok|done|by left|]. batch_cbn. congruence.
  - by apply start_failed_ok.
  - change (has_result id (active_delete id s)) with (has_result id s).
    assert ((if has_result id s then active_delete id s else record_result (cancelled_result id) (active_delete id s)) =
      active_delete id (if has_result id s then s else record_result (cancelled_result id) s)) as -> by by destruct (has_result id s).
    destruct ok; [by eapply settle_attempt_ok|by eapply retire_ok].
  - destruct (negb _ && _) eqn:Hg; [|done]. apply andb_true_iff in Hg as [_ Hg%negb_true_iff]. by eapply report_ok.
  - eapply finish_wait_ok; [done..|]. by destruct success.
  - by eapply finish_wait_ok.
Qed.

(** ** Lemmas: progress *)

Definition weight (worker : BatchWorker) : nat :=
  match worker with WStarting _ => 2 | WWaiting _ _ | WCancelling _ _ => 1 | WDone | WRejected => 0 end.

(** How many promises may still settle: two for each connection that is not started,
    the [start] and the [wait] (or [cancel]) of those that are. *)
Definition batch_work (s : BatchState) : nat :=
  2 * (length (bs_queue s) - bs_nextIndex s) + sum_list (weight <$> bs_workers s).

(** Whether an event settles the promise a worker waits for. *)
Definition settles (s : BatchState) (e : BatchEvent) : bool :=
  match e with
  | EvStarted w _ | EvStartFailed w _ =>
      match bs_workers s !! w with Some (WStarting _) => true | _ => false end
  | EvCancelled w _ => match bs_workers s !! w with Some (WCancelling _ _) => true | _ => false end
  | EvWaited w _ _ | EvWaitFailed w _ => match bs_workers s !! w with Some (WWaiting _ _) => true | _ => false end
  | EvReport _ _ | EvCancelRemaining => false
  end.

(** How many events of a sequence settle a promise. *)
Fixpoint settled_count (s : BatchState) (events : list BatchEvent) : nat :=
  match events with
  | [] => 0
  | e :: events => Nat.b2n (settles s e) + settled_count (batch_step s e) events
  end.

Lemma weight_insert l w wk x :
  l !! w = Some wk → sum_list (weight <$> <[w := x]> l) + weight wk = sum_list (weight <$> l) + weight x.
Proof.
  intros (l1 & l2 & -> & ->)%workers_split. rewrite !fmap_app, !fmap_cons, !sum_list_with_app. cbn. lia.
Qed.

Lemma next_item_index results rest index :
  match next_item results rest index with
  | (None, n) => n = S (index + length rest)
  | (Some id, n) => index < n ≤ index + length rest ∧ id ∈ rest
  end.
Proof.
  revert index. induction rest as [|id rest IH]; intros index; cbn [next_item]; [cbn; lia|].
  case_bool_decide; [|split; [cbn; lia|left]].
  specialize (IH (S index)). destruct (next_item results rest (S index)) as [[x|] n]; cbn; [|lia].
  split; [lia|right; tauto].
Qed.

(** What a turn of the loop leaves alone, and what it costs. *)
Lemma worker_loop_frame s w wk :
  bs_workers s !! w = Some wk →
  let s' := worker_loop w s in
  bs_queue s' = bs_queue s ∧ bs_cancelRequested s' = bs_cancelRequested s ∧
  length (bs_workers s') = length (bs_workers s) ∧ bs_nextIndex s ≤ bs_nextIndex s' ∧
  (∀ v, v ≠ w → bs_workers s' !! v = bs_workers s !! v) ∧
  (bs_workers s' !! w = Some WDone → bs_cancelRequested s = true ∨ length (bs_queue s) ≤ bs_nextIndex s') ∧
  bs_workers s' !! w ≠ Some WRejected ∧
  batch_work s' + weight wk ≤ batch_work s.
Proof.
  intros Hw. cbv zeta. unfold worker_loop, batch_work.
  assert (∀ x, <[w := x]> (bs_workers s) !! w = Some x) as Hself
    by (intros x; apply list_lookup_insert_eq; by eapply lookup_lt_Some).
  destruct (bs_cancelRequested s) eqn:Hc.
  { batch_cbn. rewrite length_insert, Hself. pose proof (weight_insert _ w wk WDone Hw). cbn [weight] in *.
    split_and!; try done; [|auto|lia]. intros v Hv. by rewrite list_lookup_insert_ne. }
  pose proof (next_item_index (bs_results s) (drop (bs_nextIndex s) (bs_queue s)) (bs_nextIndex s)) as Hn.
  rewrite length_drop in Hn.
  destruct (next_item _ _ _) as [[id|] n]; batch_cbn; rewrite length_insert, Hself.
  - pose proof (weight_insert _ w wk (WStarting id) Hw). cbn [weight] in *.
    split_and!; try done; [lia| |lia]. intros v Hv. by rewrite list_lookup_insert_ne.
  - pose proof (weight_insert _ w wk WDone Hw). cbn [weight] in *.
    split_and!; try done; [lia| |right; lia|lia]. intros v Hv. by rewrite list_lookup_insert_ne.
Qed.

(** A worker stops only when nothing is left for it. *)
Definition exhausted (s : BatchState) : Prop :=
  bs_cancelRequested s = true ∨ length (bs_queue s) ≤ bs_nextIndex s.

(** What a step does to the shape of an execution; [n] is what it uses of the work. *)
Record step_frame (rejects : Prop) (n : nat) (s s' : BatchState) : Prop := {
  sf_queue : bs_queue s' = bs_queue s;
  sf_length : length (bs_workers s') = length (bs_workers s);
  sf_cancel : bs_cancelRequested s = true → bs_cancelRequested s' = true;
  sf_next : bs_nextIndex s ≤ bs_nextIndex s';
  sf_work : batch_work s' + n ≤ batch_work s;
  sf_done : ∀ w, bs_workers s' !! w = Some WDone → bs_workers s !! w = Some WDone ∨ exhausted s';
  sf_rejected : WRejected ∈ bs_workers s' → WRejected ∈ bs_workers s ∨ rejects;
}.

Definition same_shape (s s1 : BatchState) : Prop :=
  bs_queue s1 = bs_queue s ∧ bs_workers s1 = bs_workers s ∧
  bs_cancelRequested s1 = bs_cancelRequested s ∧ bs_nextIndex s1 = bs_nextIndex s.

Lemma frame_loop (P : Prop) n s s1 w wk :
  same_shape s s1 → bs_workers s !! w = Some wk → n ≤ weight wk → step_frame P n s (worker_loop w s1).
Proof.
  intros (Hq & Hws & Hc & Hn) Hw Hle. rewrite <- Hws in Hw.
  destruct (worker_loop_frame s1 w wk Hw) as (G1 & G2 & G3 & G4 & G5 & G6 & G7 & G8).
  assert (batch_work s1 = batch_work s) as Hwork by (unfold batch_work; congruence).
  constructor; try congruence; try lia.
  - intros v. destruct (decide (v = w)) as [->|Hne].
    + intros Hd. right. unfold exhausted. rewrite G1, G2. auto.
    + rewrite G5, Hws by done. by left.
  - intros [v Hv]%list_elem_of_lookup. left. destruct (decide (v = w)) as [->|Hne]; [done|].
    rewrite G5, Hws in Hv by done. by eapply list_elem_of_lookup_2.
Qed.

Lemma frame_set (P : Prop) n s s1 w wk x :
  same_shape s s1 → bs_workers s !! w = Some wk → n + weight x ≤ weight wk → x ≠ WDone →
  (x = WRejected → P) → step_frame P n s (set_worker w x s1).
Proof.
  intros (Hq & Hws & Hc & Hn) Hw Hle Hx HP.
  pose proof (weight_insert _ w wk x Hw) as Hwt.
  constructor; unfold batch_work; batch_cbn; try congruence; try lia; rewrite ?Hws, ?Hq, ?Hn.
  - by rewrite length_insert.
  - lia.
  - intros v [(-> & [=] & _)|[_ Hv]]%list_lookup_insert_Some; [done|]. by left.
  - intros [v [(-> & ? & _)|[_ Hv]]%list_lookup_insert_Some]%list_elem_of_lookup; [right; auto|left].
    by eapply list_elem_of_lookup_2.
Qed.

Lemma frame_refl (P : Prop) s s1 : same_shape s s1 → step_frame P 0 s s1.
Proof.
  intros (Hq & Hws & Hc & Hn). constructor; unfold batch_work; try congruence; rewrite ?Hws, ?Hq, ?Hn; try lia; auto.
Qed.

Lemma batch_step_frame s e :
  batch_ok s → step_frame (∃ w, e = EvCancelled w false) (Nat.b2n (settles s e)) s (batch_step s e).
Proof.
  intros Hok. assert (same_shape s s) as Hrefl by done.
  destruct e as [w h|w msg|w ok|w user|w success err|w msg|]; cbn [batch_step settles];
    [destruct (bs_workers s !! w) as [[id|id g|id g| |]|] eqn:Hw; cbn [Nat.b2n]; try by apply frame_refl..|].
  - cbv zeta. destruct (bs_cancelRequested (active_set id h s));
      apply frame_set with (WStarting id); try done; cbn; lia.
  - apply frame_loop with (WStarting id); [done..|cbn; lia].
  - assert (same_shape s (if has_result id (active_delete id s) then active_delete id s
      else record_result (cancelled_result id) (active_delete id s))) by by destruct (has_result _ _).
    destruct ok; [apply frame_loop with (WCancelling id g); [done..|cbn; lia]|].
    apply frame_set with (WCancelling id g); [done|done|cbn; lia|done|]. intros _. by exists w.
  - apply frame_refl. by destruct (negb _ && _).
  - apply frame_loop with (WWaiting id g); [|done|cbn; lia]. by destruct (_ && _).
  - apply frame_loop with (WWaiting id g); [|done|cbn; lia]. by destruct (_ && _).
  - destruct (cancelRemaining_ok s Hok) as (_ & H1 & H2 & H3 & H4). cbn [Nat.b2n].
    constructor; unfold batch_work; rewrite ?H1, ?H2, ?H3, ?H4; try done; try lia; auto.
Qed.

Lemma frame_exhausted P n s s' : step_frame P n s s' → exhausted s → exhausted s'.
Proof. intros [] [Hc|Hl]; [left; auto|right]. rewrite sf_queue0. lia. Qed.

(** ** Lemmas: creation *)

(** The state before the workers are created. *)
Definition batch_init (queue : list string) (count : nat) : BatchState :=
  mkBatch queue [] ∅ ∅ false 0 (replicate count WDone) ((λ id, EfStatus id BsQueued None) <$> queue).

Lemma in_flight_replicate n : in_flight (replicate n WDone) = [].
Proof. unfold in_flight. by induction n. Qed.

Lemma elem_of_replicate_done (wk : BatchWorker) n : wk ∈ replicate n WDone → wk = WDone.
Proof. intros [? _]%elem_of_replicate. done. Qed.

Lemma log_status_queued queue id :
  id ∈ queue → log_status ((λ id, EfStatus id BsQueued None) <$> queue) id = Some (BsQueued, None).
Proof.
  induction queue as [|x queue IH] using rev_ind; [by intros ?%not_elem_of_nil|].
  rewrite fmap_app, log_status_app. cbn. case_decide as Hx; [done|].
  rewrite elem_of_app, list_elem_of_singleton. intros [?|?]; [auto|congruence].
Qed.

Lemma batch_init_ok queue count : NoDup queue → batch_ok (batch_init queue count).
Proof.
  intros Hnd. assert (∀ q, log_starts ((λ id, EfStatus id BsQueued None) <$> q) = [] ∧
    log_finals ((λ id, EfStatus id BsQueued None) <$> q) = []) as Hlog by (intros q; by induction q).
  destruct (Hlog queue) as [H1 H2].
  split; [constructor|..]; unfold batch_init; batch_cbn; rewrite ?H1, ?H2, ?in_flight_replicate; try done;
    try apply NoDup_nil_2; try set_solver.
  - intros id h. split; [by intros ?%not_elem_of_nil|].
    by intros [?%elem_of_replicate_done|?%elem_of_replicate_done].
  - intros id Hid. rewrite lookup_empty, (log_status_queued _ _ Hid). exists BsQueued.
    split_and!; [done|by rewrite bool_decide_false by set_solver|done].
Qed.

Lemma unique_ids_spec seen ids :
  NoDup (unique_ids seen ids) ∧ ∀ id, id ∈ unique_ids seen ids ↔ id ∈ ids ∧ id ∉ seen.
Proof.
  revert seen. induction ids as [|x ids IH]; intros seen; cbn [unique_ids].
  { split; [apply NoDup_nil_2|]. intros id. rewrite elem_of_nil. tauto. }
  case_bool_decide as Hx.
  - destruct (IH seen) as [Hnd Hin]. split; [done|]. intros id. rewrite Hin, elem_of_cons.
    split; [tauto|]. intros [[->|?] ?]; [done|tauto].
  - destruct (IH ({[x]} ∪ seen)) as [Hnd Hin]. split.
    + constructor; [|done]. rewrite Hin. set_solver.
    + intros id. rewrite !elem_of_cons, Hin. destruct (decide (id = x)); set_solver.
Qed.

(** What holds of an execution of a queue with [count] workers. *)
Record batch_good (queue : list string) (count : nat) (s : BatchState) : Prop := {
  bg_ok : batch_ok s;
  bg_queue : bs_queue s = queue;
  bg_length : length (bs_workers s) = count;
  bg_done : ∀ w, bs_workers s !! w = Some WDone → exhausted s;
}.

Lemma create_good ids limit :
  let s := createBatchConnectExecution ids limit in
  batch_good (uniqueConnectionIds ids) (worker_count (uniqueConnectionIds ids) limit) s ∧
  (WRejected ∉ bs_workers s) ∧ batch_work s ≤ 2 * length (uniqueConnectionIds ids).
Proof.
  cbv zeta. unfold createBatchConnectExecution. set (queue := uniqueConnectionIds ids).
  set (count := worker_count queue limit). fold (batch_init queue count).
  assert (NoDup queue) as Hnd by apply unique_ids_spec.
  assert (∀ k, k ≤ count → let s := foldl (λ s w, worker_loop w s) (batch_init queue count) (seq 0 k) in
    batch_ok s ∧ bs_queue s = queue ∧ length (bs_workers s) = count ∧
    (∀ w, k ≤ w < count → bs_workers s !! w = Some WDone) ∧
    (∀ w, w < k → bs_workers s !! w = Some WDone → exhausted s) ∧
    (WRejected ∉ bs_workers s) ∧ batch_work s ≤ 2 * length queue) as Hk.
  { induction k as [|k IH]; intros Hle.
    - cbn [seq foldl]. split_and!; [by apply batch_init_ok|done|apply length_replicate| |lia| |].
      + intros w Hw. apply lookup_replicate_2; lia.
      + by intros ?%elem_of_replicate_done.
      + unfold batch_work. cbn [bs_queue bs_nextIndex bs_workers batch_init].
        assert (∀ n, sum_list (weight <$> replicate n WDone) = 0) as -> by (intros n; by induction n). lia.
    - rewrite seq_S, foldl_app. cbn [foldl Nat.add].
      destruct (IH ltac:(lia)) as (H1 & H2 & H3 & H4 & H5 & H6 & H7). clear IH.
      set (s := foldl _ _ (seq 0 k)) in *.
      assert (bs_workers s !! k = Some WDone) as Hw by (apply H4; lia).
      destruct (frame_loop False 0 s s k WDone) as []; [done|done|cbn; lia|].
      destruct (worker_loop_frame s k WDone Hw) as (_ & _ & _ & _ & G5 & G6 & _).
      split_and!; [by apply worker_loop_ok with WDone|congruence|congruence| | | |lia].
      + intros w Hwk. rewrite G5 by lia. apply H4. lia.
      + intros w Hwk Hd. destruct (sf_done0 w Hd) as [Hd'|]; [|done]. destruct (decide (w = k)) as [->|Hne].
        * destruct (G6 Hd) as [Hc|Hl]; [left; auto|right]. by rewrite sf_queue0.
        * destruct (H5 w) as [Hc|Hl]; [lia|done|left; auto|right]. rewrite sf_queue0. lia.
      + intros []%sf_rejected0; done. }
  destruct (Hk count) as (H1 & H2 & H3 & _ & H5 & H6 & H7); [done|]. split_and!; [|done..].
  constructor; [done..|]. intros w Hw. apply (H5 w); [|done]. apply lookup_lt_Some in Hw. by rewrite <- H3.
Qed.

Lemma step_good queue count s e : batch_good queue count s → batch_good queue count (batch_step s e).
Proof.
  intros [Hok Hq Hl Hd]. pose proof (batch_step_frame s e Hok) as Hf. pose proof Hf as [].
  constructor; [by apply batch_step_ok|congruence|congruence|].
  intros w Hw. destruct (sf_done0 w Hw) as [Hw'|]; [|done]. eapply frame_exhausted; [exact Hf|]. by eapply Hd.
Qed.

Lemma run_good queue count s events : batch_good queue count s → batch_good queue count (foldl batch_step s events).
Proof. revert s. induction events as [|e es IH]; intros s Hs; [done|]. by apply IH, step_good. Qed.

Lemma batch_run_good ids limit events :
  batch_good (uniqueConnectionIds ids) (worker_count (uniqueConnectionIds ids) limit) (batch_run ids limit events).
Proof. apply run_good, create_good. Qed.

(** ** Lemmas: the end of an execution *)

Lemma run_rejected ids limit events :
  WRejected ∈ bs_workers (batch_run ids limit events) → ∃ w, EvCancelled w false ∈ events.
Proof.
  induction events as [|e es IH] using rev_ind; [by intros []%create_good|].
  unfold batch_run. rewrite foldl_app. cbn [foldl]. fold (batch_run ids limit es). intros Hr.
  destruct (batch_step_frame (batch_run ids limit es) e) as []; [eapply bg_ok, batch_run_good|].
  destruct (sf_rejected0 Hr) as [[w Hw]%IH|[w ->]]; exists w; apply elem_of_app; [by left|right; left].
Qed.

(** Every queued connection has been settled once no worker runs. *)
Lemma all_settled queue count s :
  batch_good queue count s → (queue ≠ [] → 0 < count) → Forall (λ wk, wk = WDone) (bs_workers s) →
  ∀ id, id ∈ queue → is_Some (bs_results s !! id).
Proof.
  intros [[Hcore Hc1 _] Hq Hl Hd] Hpos Hall id Hid. pose proof Hcore as [].
  assert (∀ x, x ∈ in_flight (bs_workers s) → False) as Hno.
  { intros x (wk & Hwk & Hx)%in_flight_elem. rewrite Forall_forall in Hall. by rewrite (Hall wk Hwk) in Hx. }
  assert (id ∈ bs_started s → is_Some (bs_results s !! id)) as Hst.
  { intros Hs. destruct (bo_settled0 id Hs) as [?%Hno|?]; done. }
  assert (0 < count) as Hc by (apply Hpos; by intros ->; apply not_elem_of_nil in Hid).
  destruct (bs_workers s !! 0) as [wk|] eqn:E0; [|apply lookup_ge_None in E0; lia].
  assert (wk = WDone) as -> by (rewrite Forall_forall in Hall; apply Hall; by eapply list_elem_of_lookup_2).
  rewrite <- Hq in Hid. destruct (Hd 0 E0) as [Hcn|Hn].
  - destruct (Hc1 Hcn id Hid); auto.
  - apply Hst. rewrite bo_started0, take_ge by done. by apply elem_of_list_to_set.
Qed.

Lemma worker_count_pos queue limit : queue ≠ [] → 0 < worker_count queue limit.
Proof. unfold worker_count. destruct queue; [done|]. cbn. lia. Qed.

Lemma existsb_rejected l : existsb is_rejected l = true ↔ WRejected ∈ l.
Proof.
  rewrite existsb_exists. split.
  - intros (x & Hx & Hr). destruct x; try done. by apply list_elem_of_In.
  - intros Hin. exists WRejected. split; [by apply list_elem_of_In|done].
Qed.

Lemma forallb_done l : forallb is_done l = true ↔ Forall (λ wk, wk = WDone) l.
Proof.
  rewrite forallb_forall, Forall_forall. setoid_rewrite list_elem_of_In.
  split; intros H x Hx; specialize (H x Hx); by destruct x.
Qed.

(** What the results of a whole queue are. *)
Lemma results_of_queue s :
  batch_core s → (∀ id, id ∈ bs_queue s → is_Some (bs_results s !! id)) →
  let rs := omap (λ id, bs_results s !! id) (bs_queue s) in
  er_connectionId <$> rs = bs_queue s ∧ Permutation rs (log_finals (bs_log s)).
Proof.
  intros [] Hall. cbv zeta.
  assert (∀ q : list string, (∀ id, id ∈ q → is_Some (bs_results s !! id)) →
    er_connectionId <$> omap (λ id, bs_results s !! id) q = q) as Hids.
  { induction q as [|id q IH]; intros Hq; [done|]. destruct (Hq id) as [r Hr]; [left|]. cbn. rewrite Hr. cbn.
    destruct (bo_results0 id r Hr) as (-> & _). f_equal. apply IH. intros x Hx. apply Hq. by right. }
  specialize (Hids _ Hall). split; [done|]. apply NoDup_Permutation.
  - apply (NoDup_fmap_1 er_connectionId). by rewrite Hids.
  - by apply (NoDup_fmap_1 er_connectionId).
  - intros r. rewrite list_elem_of_omap, bo_finals_results0. split.
    + intros (id & Hid & Hr). destruct (bo_results0 id r Hr) as (-> & _). done.
    + intros Hr. exists (er_connectionId r). split; [|done]. by destruct (bo_results0 _ _ Hr) as (_ & ? & _).
Qed.

(** ** Lemmas: after a cancellation *)

Definition quiet (e : BatchEffect) : Prop :=
  match e with EfStart _ | EfWait _ => False | EfStatus _ _ _ | EfCancel _ => True end.

(** The log grows by effects that satisfy [P]. *)
Definition log_grows (P : BatchEffect → Prop) (s s' : BatchState) : Prop :=
  ∃ new, bs_log s' = bs_log s ++ new ∧ Forall P new.

Definition log_quiet : BatchState → BatchState → Prop := log_grows quiet.

#[export] Instance log_grows_preorder P : PreOrder (log_grows P).
Proof.
  split; [intros s; exists []; by rewrite app_nil_r|]. intros s1 s2 s3 (l1 & H1 & F1) (l2 & H2 & F2).
  exists (l1 ++ l2). rewrite H2, H1, app_assoc. split; [done|by apply Forall_app].
Qed.

Lemma grows_emit (P : BatchEffect → Prop) s e : P e → log_grows P s (emit [e] s).
Proof. intros He. exists [e]. split; [done|by constructor]. Qed.

Lemma grows_record (P : BatchEffect → Prop) s s1 r :
  P (EfStatus (er_connectionId r) (item_status (er_status r)) (er_error r)) →
  log_grows P s s1 → log_grows P s (record_result r s1).
Proof. intros He Hs. etrans; [exact Hs|]. eexists [_]. split; [reflexivity|by constructor]. Qed.

Lemma step_cancelled s e :
  bs_cancelRequested s = true →
  bs_cancelRequested (batch_step s e) = true ∧ log_quiet s (batch_step s e).
Proof.
  intros Hc.
  assert (∀ w s1, bs_cancelRequested s1 = true → log_quiet s s1 →
    bs_cancelRequested (worker_loop w s1) = true ∧ log_quiet s (worker_loop w s1)) as Hloop
    by (intros w s1 Hc1 Hl; unfold worker_loop; by rewrite Hc1).
  assert (log_quiet s s) as Hrefl by apply log_grows_preorder.
  assert (∀ r s1, log_quiet s s1 → log_quiet s (record_result r s1)) as Hrec
    by (intros r s1 H1; by apply grows_record).
  destruct e as [w h|w msg|w ok|w user|w success err|w msg|]; cbn [batch_step];
    [destruct (bs_workers s !! w) as [[id|id g|id g| |]|] eqn:Hw; try done..|].
  - cbv zeta. batch_cbn. rewrite Hc. split; [done|]. by apply (grows_emit quiet s (EfCancel h)).
  - apply Hloop; [done|]. by apply Hrec.
  - assert (∀ s1, s1 = (if has_result id (active_delete id s) then active_delete id s
      else record_result (cancelled_result id) (active_delete id s)) →
      bs_cancelRequested s1 = true ∧ log_quiet s s1) as H1.
    { intros s1 ->. destruct (has_result _ _); [done|]. split; [done|]. by apply Hrec. }
    destruct (H1 _ eq_refl). destruct ok; [by apply Hloop|done].
  - by rewrite Hc.
  - apply Hloop; destruct (_ && _); try done. by apply Hrec.
  - apply Hloop; destruct (_ && _); try done. by apply Hrec.
  - unfold cancelRemaining. by rewrite Hc.
Qed.

Lemma run_cancelled s events :
  bs_cancelRequested s = true →
  bs_cancelRequested (foldl batch_step s events) = true ∧ log_quiet s (foldl batch_step s events).
Proof.
  revert s. induction events as [|e es IH]; intros s Hc; [split; [done|apply log_grows_preorder]|]. cbn [foldl].
  destruct (step_cancelled s e Hc) as [Hc1 Hl1]. destruct (IH _ Hc1). split; [done|]. unfold log_quiet in *. by etrans.
Qed.

Lemma quiet_starts s s' : log_quiet s s' → log_starts (bs_log s') = log_starts (bs_log s).
Proof.
  intros (new & -> & Hnew). unfold log_starts. rewrite omap_app.
  assert (omap (λ e : BatchEffect, match e with EfStart id => Some id | _ => None end) new = []) as ->; [|apply app_nil_r].
  induction Hnew as [|[] ? ? ? IH]; try done.
Qed.

Lemma length_in_flight l : length (in_flight l) ≤ length l.
Proof. unfold in_flight. induction l as [|wk l IH]; [done|]. cbn. destruct (worker_id wk); cbn; lia. Qed.

(** ** Properties *)

(** What the promise [done] of a batch says. Pending, some connection is still
    being handled; rejected, the cancellation of a handle failed; resolved, it holds
    exactly one result per distinct connection, in the order of the queue, the same
    results the callbacks reported, and unless the batch was cancelled every
    connection was started. *)
Theorem batch_done_exact ids limit events :
  let s := batch_run ids limit events in
  match batch_done s with
  | DonePending => ∃ id, id ∈ in_flight (bs_workers s)
  | DoneRejected => ∃ w, EvCancelled w false ∈ events
  | DoneResolved rs =>
      er_connectionId <$> rs = uniqueConnectionIds ids ∧
      Permutation rs (log_finals (bs_log s)) ∧
      (bs_cancelRequested s = true ∨ log_starts (bs_log s) = uniqueConnectionIds ids)
  end.
Proof.
  cbv zeta. pose proof (batch_run_good ids limit events) as Hgood. pose proof Hgood as [[Hcore _ _] Hq Hl Hd].
  unfold batch_done. destruct (existsb is_rejected _) eqn:Er.
  { apply existsb_rejected in Er. by eapply run_rejected. }
  destruct (forallb is_done _) eqn:Ed.
  - apply forallb_done in Ed. pose proof (all_settled _ _ _ Hgood (worker_count_pos _ _) Ed) as Hall.
    rewrite <- Hq in Hall |- *. destruct (results_of_queue _ Hcore Hall) as [H1 H2]. split_and!; [done..|].
    destruct (bs_workers _) as [|wk wks] eqn:Ew.
    + right. destruct (decide (uniqueConnectionIds ids = [])) as [He|He].
      * rewrite (bo_starts _ Hcore), Hq, He. by rewrite take_nil.
      * pose proof (worker_count_pos _ limit He). cbn in Hl. lia.
    + apply Forall_cons in Ed as [-> _]. destruct (Hd 0) as [?|Hn]; [done|by left|right].
      rewrite (bo_starts _ Hcore). by apply take_ge.
  - apply not_true_iff_false in Ed, Er. rewrite forallb_done in Ed. rewrite existsb_rejected in Er.
    apply not_Forall_Exists in Ed; [|intros wk; destruct wk; try (by right); by left].
    apply Exists_exists in Ed as (wk & Hwk & Hnd). destruct (worker_id wk) as [id|] eqn:Hid.
    + exists id. apply in_flight_elem. eauto.
    + destruct wk; try done. by destruct Hnd.
Qed.

(** Batch safety. However the promises settle and whenever the batch is cancelled,
    connections are started in queue order, each at most once, never more than the
    concurrency limit (and at least one) at a time and no two of them the same; a final
    status is reported at most once per connection; and the last status reported for a
    connection is its result, or, while it has none, queued before its start and
    active after it. *)
Theorem batch_run_safe ids limit events :
  let s := batch_run ids limit events in
  let queue := uniqueConnectionIds ids in
  NoDup queue ∧ (∀ id, id ∈ queue ↔ id ∈ ids) ∧
  log_starts (bs_log s) `prefix_of` queue ∧
  NoDup (in_flight (bs_workers s)) ∧
  (Z.of_nat (length (in_flight (bs_workers s))) ≤ Z.max 1 limit)%Z ∧
  NoDup (er_connectionId <$> log_finals (bs_log s)) ∧
  (∀ id, id ∈ queue → ∃ st err, log_status (bs_log s) id = Some (st, err) ∧
    match bs_results s !! id with
    | Some r => (st, err) = (item_status (er_status r), er_error r)
    | None => if decide (id ∈ log_starts (bs_log s)) then isActiveStatus st = true else st = BsQueued
    end).
Proof.
  cbv zeta. pose proof (batch_run_good ids limit events) as [[Hcore _ _] Hq Hl _]. destruct Hcore.
  split_and!; [apply unique_ids_spec| | |done| |done|].
  - intros id. destruct (unique_ids_spec ∅ ids) as [_ Hin]. unfold uniqueConnectionIds. rewrite Hin. set_solver.
  - rewrite bo_starts0, Hq. eexists. symmetry. apply take_drop.
  - pose proof (length_in_flight (bs_workers (batch_run ids limit events))). rewrite Hl in H.
    unfold worker_count in H. lia.
  - intros id Hid. rewrite <- Hq in Hid. specialize (bo_status0 id Hid). rewrite bo_starts0.
    destruct (bs_results _ !! id) as [r|]; [eauto|]. destruct bo_status0 as (st & Hst & Ha & Hn).
    exists st, None. split; [done|]. rewrite bo_started0 in Ha, Hn. destruct (decide (id ∈ take _ _)) as [Hin|Hin].
    + rewrite Ha. apply bool_decide_eq_true_2. by apply elem_of_list_to_set.
    + apply Hn. by intros ?%elem_of_list_to_set.
Qed.

(** Cancelling a batch. From the cancellation on no connection is started and none
    is waited for; the connections that were not started are reported as cancelled;
    and the handle of every session that was open or still arrives is cancelled. *)
Theorem batch_cancel_stops ids limit before after :
  let s := batch_run ids limit before in
  let s' := batch_run ids limit (before ++ EvCancelRemaining :: after) in
  log_starts (bs_log s') = log_starts (bs_log s) ∧
  log_quiet (cancelRemaining s) s' ∧
  (∀ id, id ∈ uniqueConnectionIds ids → id ∉ log_starts (bs_log s) →
    bs_results s' !! id = Some (cancelled_result id) ∧ log_status (bs_log s') id = Some (BsCancelled, None)) ∧
  (∀ id h, (id, h) ∈ bs_active s → EfCancel h ∈ bs_log s') ∧
  (∀ id h, (id, h) ∈ bs_active s' → EfCancel h ∈ bs_log s').
Proof.
  cbv zeta. pose proof (batch_run_good ids limit before) as [Hok Hq _ _].
  pose proof (batch_run_good ids limit (before ++ EvCancelRemaining :: after)) as [[Hcore' Hc1 Hc2] Hq' _ _].
  destruct (cancelRemaining_ok _ Hok) as ([Hcore1 _ Hcc1] & Hcr & Hws & Hnx & Hq1).
  assert (batch_run ids limit (before ++ EvCancelRemaining :: after) =
    foldl batch_step (cancelRemaining (batch_run ids limit before)) after) as Heq
    by (unfold batch_run at 1; rewrite foldl_app; done).
  destruct (run_cancelled _ after Hcr) as [Hcr' Hquiet]. rewrite <- Heq in Hcr', Hquiet.
  assert (log_starts (bs_log (batch_run ids limit (before ++ EvCancelRemaining :: after))) =
    log_starts (bs_log (batch_run ids limit before))) as Hst.
  { rewrite (quiet_starts _ _ Hquiet), (bo_starts _ Hcore1), (bo_starts _ (bo_core _ Hok)), Hnx, Hq1. done. }
  split_and!; [done|done| | |by apply Hc2].
  - intros id Hid Hns. rewrite <- Hst, (bo_starts _ Hcore') in Hns. rewrite <- Hq' in Hid.
    assert (id ∉ bs_started (batch_run ids limit (before ++ EvCancelRemaining :: after))) as Hns'
      by (rewrite (bo_started _ Hcore'); by intros ?%elem_of_list_to_set).
    destruct (Hc1 Hcr' id Hid) as [?|[r Hr]]; [done|].
    destruct (bo_results _ Hcore' id r Hr) as (_ & _ & [?|[_ ->]]); [done|].
    pose proof (bo_status _ Hcore' id Hid) as Hs. rewrite Hr in Hs. done.
  - intros id h Hh. destruct Hquiet as (new & -> & _). apply elem_of_app. left. apply (Hcc1 Hcr id).
    apply (bo_active _ Hcore1). rewrite Hws. by apply (bo_active _ (bo_core _ Hok)).
Qed.

(** C20: a batch ends. While it is pending some adapter promise can settle, and over
    any sequence of events at most two promises settle per distinct connection. *)
Theorem batch_terminates ids limit events :
  let s := batch_run ids limit events in
  (batch_done s = DonePending → ∃ w, (∀ h, settles s (EvStarted w h) = true) ∨
    (∀ ok, settles s (EvCancelled w ok) = true) ∨ (∀ success err, settles s (EvWaited w success err) = true)) ∧
  settled_count (createBatchConnectExecution ids limit) events ≤ 2 * length (uniqueConnectionIds ids).
Proof.
  cbv zeta. split.
  - unfold batch_done. destruct (existsb is_rejected _) eqn:Er; [done|]. destruct (forallb is_done _) eqn:Ed; [done|].
    intros _. apply not_true_iff_false in Ed, Er. rewrite forallb_done in Ed. rewrite existsb_rejected in Er.
    apply not_Forall_Exists in Ed; [|intros wk; destruct wk; try (by right); by left].
    apply Exists_exists in Ed as (wk & [w Hw]%list_elem_of_lookup & Hnd). exists w. cbn [settles]. rewrite Hw.
    destruct wk; [by left|by right; right|by right; left|by destruct Hnd|].
    destruct Er. by eapply list_elem_of_lookup_2.
  - destruct (create_good ids limit) as (Hg & _ & Hw). etrans; [|exact Hw]. clear Hw.
    revert Hg. generalize (createBatchConnectExecution ids limit). induction events as [|e es IH]; intros s Hg; cbn [settled_count]; [lia|].
    pose proof (batch_step_frame s e (bg_ok _ _ _ Hg)) as []. specialize (IH _ (step_good _ _ _ e Hg)). lia.
Qed.
End executor.

(** Three connections, two at a time; the third is cancelled while it starts. *)
Definition batch_sample : list (BatchEvent (Handle := nat)) :=
  [EvStarted 0 10; EvReport 0 true; EvStartFailed 1 "refused"; EvWaited 0 true None; EvCancelRemaining;
   EvStarted 1 12; EvCancelled 1 true].

Example batch_sample_done :
  batch_done (batch_run ["a"; "b"; "a"; "c"] 2 batch_sample) =
    DoneResolved [mkExecution "a" None ExSuccess; mkExecution "b" (Some "refused") ExFailed; mkExecution "c" None ExCancelled].
Proof. vm_compute. reflexivity. Qed.
