(* ===== verification/BatchController.v ===== *)
(** * Batch connect: the controller and the workspace adapter

    [features/connections/useBatchConnectController.ts], the hook that owns the table of
    a run and launches the executions of [BatchExecutor], and
    [features/connections/batchConnectWorkspaceRuntime.ts], what the state of a
    connection is, seen from the tabs of the workspace. *)

From S2P Require Import Prelude SessionTypes Instances ItemClose ClosePaths BatchConnect BatchExecutor.
From Stdlib Require Import Lia.

#[local] Open Scope nat_scope.

(** ** The workspace adapter *)

Inductive HandleKind := HCharacter | HRdp | HSsh | HVnc.

#[export] Instance HandleKind_eq_dec : EqDecision HandleKind.
Proof. solve_decision. Defined.

Record BatchWorkspaceHandle := mkHandle { hd_kind : HandleKind; hd_id : string }.

Inductive BatchSshType := SshConnecting | SshTerminal.

#[export] Instance BatchSshType_eq_dec : EqDecision BatchSshType.
Proof. solve_decision. Defined.

(** [bt_step] is the error and the status of the connection step. *)
Record BatchSshTab := mkBatchSsh {
  bt_connectionId : string;
  bt_step : option (option string * option string);
  bt_error : option string;
  bt_id : string;
  bt_sessionId : option string;
  bt_type : BatchSshType;
}.

Inductive CharacterSource := SourceLocal | SourceSerial | SourceTelnet.

#[export] Instance CharacterSource_eq_dec : EqDecision CharacterSource.
Proof. solve_decision. Defined.

Record BatchCharacterTab := mkBatchCharacter {
  bh_error : option string;
  bh_id : string;
  bh_profileId : string;
  bh_sessionId : option string;
  bh_source : option CharacterSource;
  bh_status : string;
}.

Record BatchRemoteSession := mkBatchRemote {
  bm_connectionId : string;
  bm_error : option string;
  bm_id : string;
  bm_status : string;
}.

Record BatchWorkspaceSnapshot := mkBatchSnapshot {
  bw_localTerminalTabs : list BatchCharacterTab;
  bw_rdpSessions : list BatchRemoteSession;
  bw_terminalTabs : list BatchSshTab;
  bw_vncSessions : list BatchRemoteSession;
}.

(** [BatchHandleRuntimeState]: the status is connecting, waiting for the user, success
    or failed, with an error for the last only. *)
Inductive BatchHandleRuntimeState :=
  | RtConnecting
  | RtWaitingUser
  | RtSuccess
  | RtFailed (error : option string).

#[export] Instance BatchHandleRuntimeState_eq_dec : EqDecision BatchHandleRuntimeState.
Proof. solve_decision. Defined.

Definition is_failed (state : BatchHandleRuntimeState) : bool :=
  match state with RtFailed _ => true | _ => false end.

Section runtime.
(** The translation function. *)
Context (tr : string → string).

Definition step_error (tab : BatchSshTab) : option string := bt_step tab ≫= λ step, step.1.
Definition step_status (tab : BatchSshTab) : option string := bt_step tab ≫= λ step, step.2.

Definition sshTabRuntimeState (tab : BatchSshTab) : BatchHandleRuntimeState :=
  if bool_decide (bt_type tab = SshTerminal) && truthy (bt_sessionId tab) then RtSuccess
  else
    let stepStatus := step_status tab ||? None in
    if bool_decide (stepStatus = Some "prompt") || bool_decide (stepStatus = Some "waiting_host_key")
    then RtWaitingUser
    else if bool_decide (stepStatus = Some "error") || truthy (bt_error tab)
    then RtFailed (step_error tab ||? bt_error tab ||? Some (tr "batch.error.ssh"))
    else RtConnecting.

Definition characterTabRuntimeState (tab : BatchCharacterTab) : BatchHandleRuntimeState :=
  if truthy (bh_sessionId tab) then RtSuccess
  else if truthy (bh_error tab) || bool_decide (bh_status tab = "连接失败")
  then RtFailed (bh_error tab ||? Some (tr "batch.error.terminal"))
  else RtConnecting.

Definition remoteSessionRuntimeState (session : BatchRemoteSession) : BatchHandleRuntimeState :=
  if decide (bm_status session = "error") then RtFailed (bm_error session ||? Some (tr "batch.error.remote"))
  else if decide (bm_status session ≠ "launching") then RtSuccess
  else RtConnecting.

Definition is_telnet_or_serial (tab : BatchCharacterTab) : bool :=
  bool_decide (bh_source tab = Some SourceSerial) || bool_decide (bh_source tab = Some SourceTelnet).

Definition collectBatchOpenConnectionIds (snapshot : BatchWorkspaceSnapshot) : gset string :=
  list_to_set (
    (bt_connectionId <$> filter (λ tab, is_failed (sshTabRuntimeState tab) = false) (bw_terminalTabs snapshot)) ++
    (bh_profileId <$> filter (λ tab, is_telnet_or_serial tab = true ∧
      is_failed (characterTabRuntimeState tab) = false) (bw_localTerminalTabs snapshot)) ++
    (bm_connectionId <$> filter (λ s, is_failed (remoteSessionRuntimeState s) = false) (bw_rdpSessions snapshot)) ++
    (bm_connectionId <$> filter (λ s, is_failed (remoteSessionRuntimeState s) = false) (bw_vncSessions snapshot))).

Definition handle_item_kind (kind : HandleKind) : InstanceKind :=
  match kind with HCharacter => KLocal | HRdp => KRdp | HSsh => KSsh | HVnc => KVnc end.

Definition batchWorkspaceItemId (handle : BatchWorkspaceHandle) : string :=
  instanceItemId (handle_item_kind (hd_kind handle)) (hd_id handle).

Definition only_kind (kind : HandleKind) (handle : BatchWorkspaceHandle) : list string :=
  if decide (hd_kind handle = kind) then [hd_id handle] else [].

Definition batchWorkspaceClosePlan (handle : BatchWorkspaceHandle) : ClosePlan :=
  mkPlan None [] (only_kind HCharacter handle) (only_kind HRdp handle) false [] (only_kind HSsh handle) []
    (only_kind HVnc handle).

Definition batchWorkspaceHandleState (handle : BatchWorkspaceHandle) (snapshot : BatchWorkspaceSnapshot) :
    BatchHandleRuntimeState :=
  match hd_kind handle with
  | HSsh =>
      match js_find (λ tab, bt_id tab = hd_id handle) (bw_terminalTabs snapshot) with
      | Some tab => sshTabRuntimeState tab
      | None => RtFailed (Some (tr "batch.error.sshClosed"))
      end
  | HCharacter =>
      match js_find (λ tab, bh_id tab = hd_id handle) (bw_localTerminalTabs snapshot) with
      | Some tab => characterTabRuntimeState tab
      | None => RtFailed (Some (tr "batch.error.terminalClosed"))
      end
  | kind =>
      match js_find (λ s, bm_id s = hd_id handle)
              (if decide (kind = HRdp) then bw_rdpSessions snapshot else bw_vncSessions snapshot) with
      | Some s => remoteSessionRuntimeState s
      | None => RtFailed (Some (tr "batch.error.remoteClosed"))
      end
  end.

(** What [wait] resolves to. *)
Inductive WaitOutcome := WaitSuccess | WaitFailed (error : string).

(** [waitForBatchWorkspaceHandle] over the snapshots it reads, one every 100 ms: the
    statuses it reports ([true] is waiting for the user) and its outcome, [None] when
    the snapshots end before it does. *)
Fixpoint waitForBatchWorkspaceHandle (handle : BatchWorkspaceHandle) (lastStatus : option bool)
    (snapshots : list BatchWorkspaceSnapshot) : list bool * option WaitOutcome :=
  match snapshots with
  | [] => ([], None)
  | snapshot :: rest =>
      match batchWorkspaceHandleState handle snapshot with
      | RtSuccess => ([], Some WaitSuccess)
      | RtFailed error => ([], Some (WaitFailed (default "" (error ||? Some (tr "batch.error.connection")))))
      | state =>
          let status := bool_decide (state = RtWaitingUser) in
          let '(reports, outcome) := waitForBatchWorkspaceHandle handle (Some status) rest in
          (if decide (lastStatus = Some status) then reports else status :: reports, outcome)
      end
  end.
End runtime.

(** ** The controller *)

Section controller.
Context {Handle : Type}.

(** [bct_executions] are all launched executions with the generation of their launch,
    [bct_current] is the index of the one in [executionRef]. *)
Record BatchController := mkBatchController {
  bct_groupId : option string;
  bct_run : option BatchConnectRun;
  bct_executions : list (nat * BatchState (Handle := Handle));
  bct_current : option nat;
  bct_generation : nat;
  bct_handles : jsmap Handle;
}.

Definition initialBatchController : BatchController := mkBatchController None None [] None 0 [].

(** [onItemStatus], for a list of callbacks. *)
Definition onItemStatus (generation : nat) (effects : list (BatchEffect (Handle := Handle))) (c : BatchController) :
    BatchController :=
  if decide (generation = bct_generation c) then
    mkBatchController (bct_groupId c)
      (foldl (λ current e, match e with
                           | EfStatus id status error => (λ run, updateBatchConnectItem run id status error) <$> current
                           | _ => current
                           end) (bct_run c) effects)
      (bct_executions c) (bct_current c) (bct_generation c) (bct_handles c)
  else c.

Definition launch (connectionIds : list string) (generation : nat) (c : BatchController) : BatchController :=
  let execution := createBatchConnectExecution connectionIds batchConnectMaxConcurrentAttempts in
  let c := onItemStatus generation (bs_log execution) c in
  mkBatchController (bct_groupId c) (bct_run c) (bct_executions c ++ [(generation, execution)])
    (Some (length (bct_executions c))) (bct_generation c) (bct_handles c).

Definition batch_start (groupId : string) (connectionIds : list string) (c : BatchController) : BatchController :=
  if decide (bct_current c ≠ None ∨ connectionIds = []) then c
  else
    let generation := S (bct_generation c) in
    launch connectionIds generation
      (mkBatchController (Some groupId) (Some (createBatchConnectRun connectionIds)) (bct_executions c)
         (bct_current c) generation []).

Definition failed_ids (run : BatchConnectRun) : list string :=
  bi_connectionId <$> filter (λ item, bi_status item = BsFailed) (br_items run).

(** [retryFailed], with the rendered run up to date. *)
Definition batch_retry (c : BatchController) : BatchController :=
  match bct_current c, bct_run c with
  | None, Some run =>
      let failedIds := failed_ids run in
      if decide (failedIds = []) then c
      else
        let generation := S (bct_generation c) in
        launch failedIds generation
          (mkBatchController (bct_groupId c) (Some (retryFailedBatchConnectItems run)) (bct_executions c)
             (bct_current c) generation (bct_handles c))
  | _, _ => c
  end.

Definition batch_dismiss (c : BatchController) : BatchController :=
  match bct_current c with
  | Some _ => c
  | None => mkBatchController None None (bct_executions c) None (S (bct_generation c)) []
  end.

(** An event reaches an execution: the wrapper of [start] notes the handle, then the
    executor goes on and calls back. *)
Definition batch_event (index : nat) (event : BatchEvent (Handle := Handle)) (c : BatchController) : BatchController :=
  match bct_executions c !! index with
  | None => c
  | Some (generation, s) =>
      let handles :=
        match event with
        | EvStarted w h =>
            match bs_workers s !! w with
            | Some (WStarting id) =>
                if decide (generation = bct_generation c) then jsmap_set id h (bct_handles c) else bct_handles c
            | _ => bct_handles c
            end
        | _ => bct_handles c
        end in
      let s' := batch_step s event in
      onItemStatus generation (drop (length (bs_log s)) (bs_log s'))
        (mkBatchController (bct_groupId c) (bct_run c) (<[index := (generation, s')]> (bct_executions c))
           (bct_current c) (bct_generation c) handles)
  end.

(** [execution.done.finally]. *)
Definition batch_finally (index : nat) (c : BatchController) : BatchController :=
  match bct_executions c !! index with
  | Some (generation, s) =>
      match batch_done s with
      | DonePending => c
      | _ =>
          if decide (generation = bct_generation c ∧ bct_current c = Some index)
          then mkBatchController (bct_groupId c) (bct_run c) (bct_executions c) None (bct_generation c) (bct_handles c)
          else c
      end
  | None => c
  end.

(** What happens to a controller: the calls of the interface, the promises of the
    adapter and the settled [done]s, in any order. Executions are cancelled only
    through the controller. *)
Inductive ControllerEvent :=
  | CtStart (groupId : string) (connectionIds : list string)
  | CtRetry
  | CtCancel
  | CtDismiss
  | CtAdapter (index : nat) (event : BatchEvent (Handle := Handle))
  | CtFinally (index : nat).

Definition controller_step (c : BatchController) (event : ControllerEvent) : BatchController :=
  match event with
  | CtStart groupId connectionIds => batch_start groupId connectionIds c
  | CtRetry => batch_retry c
  | CtCancel => match bct_current c with Some index => batch_event index EvCancelRemaining c | None => c end
  | CtDismiss => batch_dismiss c
  | CtAdapter _ EvCancelRemaining => c
  | CtAdapter index event => batch_event index event c
  | CtFinally index => batch_finally index c
  end.

Definition controller_run (events : list ControllerEvent) : BatchController :=
  foldl controller_step initialBatchController events.

(** The rendered value [active]. *)
Definition batch_active (c : BatchController) : bool :=
  match bct_run c with
  | Some run => bool_decide (Exists (λ item, bi_status item = BsQueued ∨ isActiveStatus (bi_status item) = true) (br_items run))
  | None => false
  end.

(** ** Lemmas: what an execution reports *)

#[local] Abbreviation Effect := (BatchEffect (Handle := Handle)).
#[local] Abbreviation State := (BatchState (Handle := Handle)).

(** Statuses are reported for connections of [queue] only. *)
Definition effect_in (queue : list string) (e : Effect) : Prop :=
  match e with EfStatus id _ _ => id ∈ queue | _ => True end.

Lemma grows_worker_loop queue (s0 s : State) w :
  bs_queue s = queue → log_grows (effect_in queue) s0 s → log_grows (effect_in queue) s0 (worker_loop w s).
Proof.
  intros <- Hg. etrans; [exact Hg|]. unfold worker_loop.
  destruct (bs_cancelRequested s); [exists []; by rewrite app_nil_r|].
  pose proof (next_item_index (bs_results s) (drop (bs_nextIndex s) (bs_queue s)) (bs_nextIndex s)) as Hn.
  destruct (next_item _ _ _) as [[id|] n]; [|exists []; by rewrite app_nil_r].
  exists [EfStatus id BsConnecting None; EfStart id]. split; [done|]. repeat constructor. cbn.
  rewrite <- (take_drop (bs_nextIndex s) (bs_queue s)). apply elem_of_app. right. tauto.
Qed.

Lemma grows_foldl {A} P (f : State → A → State) l (s0 s : State) :
  (∀ s x, x ∈ l → log_grows P s0 s → log_grows P s0 (f s x)) → log_grows P s0 s → log_grows P s0 (foldl f s l).
Proof.
  revert s. induction l as [|x l IH]; intros s Hf Hs; [done|]. cbn. apply IH.
  - intros s' y Hy. apply Hf. by right.
  - apply Hf; [left|done].
Qed.

(** A worker only runs connections of the queue. *)
Lemma worker_queue (s : State) w wk id :
  batch_core s → bs_workers s !! w = Some wk → worker_id wk = Some id → id ∈ bs_queue s.
Proof.
  intros Hc Hw Hid. apply list_to_started; [done|]. apply (bo_flight_started _ Hc), in_flight_elem.
  exists wk. split; [by eapply list_elem_of_lookup_2|done].
Qed.

Lemma grows_cancel (s : State) : batch_ok s → log_grows (effect_in (bs_queue s)) s (cancelRemaining s).
Proof.
  intros [Hcore _ _]. unfold cancelRemaining. destruct (bs_cancelRequested s); [apply log_grows_preorder|].
  set (s0 := mkBatch _ _ _ _ true _ _ _).
  assert (log_grows (effect_in (bs_queue s)) s s0) as H0 by (exists []; by rewrite app_nil_r).
  assert (∀ l s1, l ⊆ bs_queue s → log_grows (effect_in (bs_queue s)) s s1 →
    bs_active (foldl (λ s id, if bool_decide (id ∈ bs_started s) || has_result id s then s
      else record_result (cancelled_result id) s) s1 l) = bs_active s1) as Hact.
  { intros l. induction l as [|x l IH]; intros s1 Hl H1; [done|]. cbn. rewrite IH; [|set_solver|].
    - by destruct (_ || _).
    - destruct (_ || _); [done|]. apply grows_record; [cbn; set_solver|done]. }
  unfold cancel_active. apply grows_foldl.
  - intros s1 [id h] Hin H1. cbn. unfold cancel_queued in Hin. rewrite Hact in Hin; [|by apply subseteq_drop|done].
    assert (id ∈ bs_queue s) as Hq.
    { apply (bo_active _ Hcore) in Hin as [Hin|Hin]; apply list_elem_of_lookup in Hin as [w Hw];
        by eapply worker_queue. }
    assert (∀ s2, log_grows (effect_in (bs_queue s)) s s2 → log_grows (effect_in (bs_queue s)) s (emit [EfCancel h] s2)) as He
      by (intros s2 H2; etrans; [exact H2|by apply grows_emit]).
    destruct (has_result id s1); apply He; [done|]. by apply grows_record.
  - apply grows_foldl; [|done]. intros s1 id Hin H1. destruct (_ || _); [done|].
    apply grows_record; [|done]. apply subseteq_drop in Hin. exact Hin.
Qed.

Lemma step_grows (s : State) e : batch_ok s → log_grows (effect_in (bs_queue s)) s (batch_step s e).
Proof.
  intros Hok. assert (log_grows (effect_in (bs_queue s)) s s) as Hrefl by apply log_grows_preorder.
  assert (∀ s2 x, log_grows (effect_in (bs_queue s)) s s2 → effect_in (bs_queue s) x →
    log_grows (effect_in (bs_queue s)) s (emit [x] s2)) as He
    by (intros s2 x H2 Hx; etrans; [exact H2|by apply grows_emit]).
  pose proof (λ w wk id, worker_queue s w wk id (bo_core _ Hok)) as Hq.
  destruct e as [w h|w msg|w ok|w user|w success err|w msg|]; cbn [batch_step];
    [destruct (bs_workers s !! w) as [[id|id g|id g| |]|] eqn:Hw; try done; specialize (Hq w _ id Hw eq_refl)..|].
  - cbv zeta. destruct (bs_cancelRequested _); by apply He.
  - apply grows_worker_loop; [done|]. by apply grows_record.
  - cbv zeta. set (s1 := if has_result id _ then _ else _).
    assert (bs_queue s1 = bs_queue s) as Hs1 by (unfold s1; by destruct (has_result _ _)).
    assert (log_grows (effect_in (bs_queue s)) s s1) as H1
      by (unfold s1; destruct (has_result _ _); [done|by apply grows_record]).
    destruct ok; [by apply grows_worker_loop|done].
  - destruct (_ && _); [by apply He|done].
  - apply grows_worker_loop; [by destruct (_ && _)|]. destruct (_ && _); [done|].
    apply grows_record; [by destruct success|done].
  - apply grows_worker_loop; [by destruct (_ && _)|]. destruct (_ && _); [done|]. by apply grows_record.
  - by apply grows_cancel.
Qed.

(** Every status in the log of an execution is about its queue. *)
Lemma create_effects ids limit : Forall (effect_in (uniqueConnectionIds ids)) (bs_log (createBatchConnectExecution ids limit)).
Proof.
  set (q := uniqueConnectionIds ids).
  assert (log_grows (effect_in q) (batch_init q (worker_count q limit)) (createBatchConnectExecution ids limit))
    as (new & Hnew & Hall).
  { assert (∀ l s, bs_queue s = q → log_grows (effect_in q) (batch_init q (worker_count q limit)) s →
      log_grows (effect_in q) (batch_init q (worker_count q limit)) (foldl (λ s w, worker_loop w s) s l)) as Hf.
    { induction l as [|w l IH]; intros s Hs Hg; [done|]. cbn. apply IH; [|by apply grows_worker_loop].
      unfold worker_loop. destruct (bs_cancelRequested s); [done|]. by destruct (next_item _ _ _) as [[]]. }
    apply Hf; [done|apply log_grows_preorder]. }
  rewrite Hnew. apply Forall_app. split; [|done]. cbn. apply Forall_forall. intros e (id & -> & Hid)%list_elem_of_fmap.
  exact Hid.
Qed.

(** ** Lemmas: the table *)

(** What the callbacks of a log leave in the row of a connection. *)
Definition row_after (item : BatchConnectRunItem) (status : option (BatchConnectItemStatus * option string)) :
    BatchConnectRunItem :=
  match status with
  | Some (st, err) => mkRunItem (bi_connectionId item) (if decide (st = BsFailed) then err else None) st
  | None => item
  end.

Definition update_run (run : BatchConnectRun) (effects : list Effect) : BatchConnectRun :=
  mkRun (br_cancelRequested run) ((λ item, row_after item (log_status effects (bi_connectionId item))) <$> br_items run).

Lemma callbacks_update run effects :
  foldl (λ current (e : Effect), match e with
    | EfStatus id status error => (λ run, updateBatchConnectItem run id status error) <$> current
    | _ => current
    end) (Some run) effects = Some (update_run run effects).
Proof.
  induction effects as [|e es IH] using rev_ind.
  { cbn. f_equal. unfold update_run. destruct run as [b items]. cbn. by rewrite list_fmap_id. }
  rewrite foldl_app, IH. cbn [foldl].
  assert (∀ f, (∀ item, item ∈ br_items run → f (row_after item (log_status es (bi_connectionId item))) =
      row_after item (log_status (es ++ [e]) (bi_connectionId item))) →
    mkRun (br_cancelRequested run) (f <$> br_items (update_run run es)) = update_run run (es ++ [e])) as Hf.
  { intros f Hf. unfold update_run. cbn. f_equal. rewrite <- list_fmap_compose. apply list_fmap_ext.
    intros i x Hx. apply Hf. by eapply list_elem_of_lookup_2. }
  assert (∀ item o, bi_connectionId (row_after item o) = bi_connectionId item) as Hid by by intros item [[]|].
  destruct e as [id st err|id|h|h]; cbn [fmap option_fmap option_map]; f_equal.
  - unfold updateBatchConnectItem. apply Hf. intros item _. cbv beta. rewrite Hid, log_status_app. cbn.
    destruct (decide (bi_connectionId item = id)) as [<-|Hne]; [by rewrite (decide_True _ _ eq_refl)|].
    by rewrite decide_False.
  - rewrite <- Hf with (λ x, x); [by rewrite list_fmap_id; destruct run|]. intros item _. by rewrite log_status_app.
  - rewrite <- Hf with (λ x, x); [by rewrite list_fmap_id; destruct run|]. intros item _. by rewrite log_status_app.
  - rewrite <- Hf with (λ x, x); [by rewrite list_fmap_id; destruct run|]. intros item _. by rewrite log_status_app.
Qed.

Definition settled_status (status : BatchConnectItemStatus) : Prop := status = BsSuccess ∨ status = BsCancelled.

(** The table [run] shows what the execution [s] has reported. *)
Record table_ok (run : BatchConnectRun) (s : State) : Prop := {
  to_ids : NoDup (bi_connectionId <$> br_items run);
  to_queue : ∀ id, id ∈ bs_queue s → id ∈ bi_connectionId <$> br_items run;
  to_rows : ∀ item, item ∈ br_items run →
    match log_status (bs_log s) (bi_connectionId item) with
    | Some o => item = row_after item (Some o)
    | None => settled_status (bi_status item)
    end;
}.

(** What holds of a launched execution whose cancellations all succeeded. *)
Record launched_ok (s : State) : Prop := {
  lo_good : batch_good (bs_queue s) (worker_count (bs_queue s) batchConnectMaxConcurrentAttempts) s;
  lo_effects : Forall (effect_in (bs_queue s)) (bs_log s);
  lo_rejected : WRejected ∉ bs_workers s;
}.

Definition no_rejection (e : BatchEvent (Handle := Handle)) : Prop := ∀ w, e ≠ EvCancelled w false.

Lemma create_launched ids : launched_ok (createBatchConnectExecution (Handle := Handle) ids batchConnectMaxConcurrentAttempts).
Proof.
  destruct (create_good (Handle := Handle) ids batchConnectMaxConcurrentAttempts) as (Hg & Hr & _).
  pose proof (bg_queue _ _ _ Hg) as Hq. constructor; rewrite ?Hq; [done|apply create_effects|done].
Qed.

Lemma step_launched s e : launched_ok s → no_rejection e → launched_ok (batch_step s e).
Proof.
  intros [Hg He Hr] Hno. pose proof (bg_ok _ _ _ Hg) as Hok. pose proof (batch_step_frame s e Hok) as Hf.
  pose proof (sf_rejected _ _ _ _ Hf) as Hrej. constructor; rewrite ?(sf_queue _ _ _ _ Hf); [by apply step_good| |].
  - destruct (step_grows s e Hok) as (new & -> & Hnew). by apply Forall_app.
  - intros [?|[w ->]]%Hrej; [done|by destruct (Hno w)].
Qed.

Lemma log_status_in queue log id o : Forall (effect_in queue) log → log_status log id = Some o → id ∈ queue.
Proof.
  induction log as [|e log IH] using rev_ind; [done|]. rewrite log_status_app. intros [Hl He]%Forall_app.
  rewrite Forall_singleton in He. destruct e as [x st err|x|h|h]; cbn; try by apply IH.
  case_decide as Hx; [subst; intros _; exact He|by apply IH].
Qed.

Lemma row_after_id item o : bi_connectionId (row_after item o) = bi_connectionId item.
Proof. by destruct o as [[]|]. Qed.

Lemma row_after_twice item o o' : row_after (row_after item o) o' = row_after item (o' ?: o).
Proof. destruct o as [[]|], o' as [[]|]; done. Qed.

Lemma update_run_ids run effects : bi_connectionId <$> br_items (update_run run effects) = bi_connectionId <$> br_items run.
Proof. cbn. rewrite <- list_fmap_compose. apply list_fmap_ext. intros. apply row_after_id. Qed.

(** The table of a fresh execution. *)
Lemma table_launch run s :
  launched_ok s → NoDup (bi_connectionId <$> br_items run) →
  (∀ id, id ∈ bs_queue s → id ∈ bi_connectionId <$> br_items run) →
  (∀ item, item ∈ br_items run → bi_connectionId item ∈ bs_queue s ∨ settled_status (bi_status item)) →
  table_ok (update_run run (bs_log s)) s.
Proof.
  intros [Hg He _] Hnd Hq Hrows. constructor; rewrite ?update_run_ids; [done..|].
  intros item (x & -> & Hx)%list_elem_of_fmap. rewrite row_after_id.
  destruct (log_status (bs_log s) (bi_connectionId x)) as [o|] eqn:Eo; [by rewrite row_after_twice|].
  destruct (Hrows x Hx) as [Hin|?]; [|done].
  pose proof (bo_status _ (bo_core _ (bg_ok _ _ _ Hg)) _ Hin) as Hs. rewrite Eo in Hs.
  destruct (bs_results s !! bi_connectionId x); [done|]. by destruct Hs as (? & ? & _).
Qed.

(** The table follows a step. *)
Lemma table_step run s e :
  batch_ok s → table_ok run s →
  table_ok (update_run run (drop (length (bs_log s)) (bs_log (batch_step s e)))) (batch_step s e).
Proof.
  intros Hok [Hnd Hq Hrows]. destruct (step_grows s e Hok) as (new & Hnew & _). rewrite Hnew, drop_app_length.
  constructor; rewrite ?update_run_ids; [done| |].
  - by rewrite (sf_queue _ _ _ _ (batch_step_frame s e Hok)).
  - intros item (x & -> & Hx)%list_elem_of_fmap. rewrite row_after_id, Hnew, log_status_app.
    specialize (Hrows x Hx). destruct (log_status new _) as [[]|]; [done|]. cbn [union union_with option_union option_union_with].
    by destruct (log_status (bs_log s) _).
Qed.

(** ** Lemmas: the invariant of a controller *)

Record controller_ok (c : BatchController) : Prop := {
  co_launched : Forall (λ e, launched_ok e.2) (bct_executions c);
  co_run : match bct_run c with
    | None => bct_current c = None ∧ Forall (λ e, e.1 < bct_generation c) (bct_executions c)
    | Some run => ∃ old s, bct_executions c = old ++ [(bct_generation c, s)] ∧
        Forall (λ e, e.1 < bct_generation c) old ∧ table_ok run s ∧
        (bct_current c = Some (length old) ∨
         bct_current c = None ∧ Forall (λ wk, wk = WDone) (bs_workers s))
    end;
}.

Lemma controller_old c e :
  controller_ok c → e ∈ bct_executions c → e.1 ≤ bct_generation c.
Proof.
  intros [_ Hr] He. destruct (bct_run c).
  - destruct Hr as (old & s & Heq & Hold & _). rewrite Heq in He.
    apply elem_of_app in He as [He|He%list_elem_of_singleton]; [|by subst].
    rewrite Forall_forall in Hold. specialize (Hold e He). lia.
  - destruct Hr as (_ & Hall). rewrite Forall_forall in Hall. specialize (Hall e He). lia.
Qed.

(** A launch whose queue covers the rows that are not settled. *)
Lemma launch_ok ids run c groupId handles :
  controller_ok c → NoDup (bi_connectionId <$> br_items run) →
  (∀ id, id ∈ ids → id ∈ bi_connectionId <$> br_items run) →
  (∀ item, item ∈ br_items run → bi_connectionId item ∈ ids ∨ settled_status (bi_status item)) →
  controller_ok (launch ids (S (bct_generation c))
    (mkBatchController groupId (Some run) (bct_executions c) (bct_current c) (S (bct_generation c)) handles)).
Proof.
  intros Hok Hnd Hids Hrows. pose proof (create_launched ids) as Hl.
  pose proof (bg_queue _ _ _ (proj1 (create_good (Handle := Handle) ids batchConnectMaxConcurrentAttempts))) as Hq.
  assert (∀ id, id ∈ uniqueConnectionIds ids ↔ id ∈ ids) as Hu
    by (intros id; unfold uniqueConnectionIds; rewrite (proj2 (unique_ids_spec ∅ ids) id); set_solver).
  unfold launch, onItemStatus. cbn [bct_generation bct_run bct_executions]. rewrite decide_True by done.
  rewrite callbacks_update. constructor; cbn [bct_executions bct_run bct_generation bct_current].
  - apply Forall_app. split; [apply Hok|by apply Forall_singleton].
  - exists (bct_executions c), (createBatchConnectExecution ids batchConnectMaxConcurrentAttempts).
    split_and!; [done| | |by left].
    + apply Forall_forall. intros e He. pose proof (controller_old c e Hok He). lia.
    + apply table_launch; [done|done| |]; rewrite Hq.
      * intros id Hid. by apply Hids, Hu.
      * intros item Hitem. rewrite Hu. by apply Hrows.
Qed.

Lemma step_idle (s : State) e :
  Forall (λ wk, wk = WDone) (bs_workers s) → e ≠ EvCancelRemaining → batch_step s e = s.
Proof.
  intros Hall He. rewrite Forall_forall in Hall.
  assert (∀ w wk, bs_workers s !! w = Some wk → wk = WDone) as Hw
    by (intros w wk Hwk; apply Hall; by eapply list_elem_of_lookup_2).
  destruct e as [w h|w msg|w ok|w user|w success err|w msg|]; cbn [batch_step]; try done;
    by destruct (bs_workers s !! w) as [wk|] eqn:E; [rewrite (Hw w wk E)|].
Qed.

Lemma event_ok index e c :
  controller_ok c → no_rejection e → (e = EvCancelRemaining → bct_current c = Some index) →
  controller_ok (batch_event index e c).
Proof.
  intros [Hl Hr] Hno Hcan. unfold batch_event.
  destruct (bct_executions c !! index) as [[g s]|] eqn:Ex; [|by constructor].
  assert (launched_ok s) as Hs by (eapply (Forall_lookup_1 _ _ index (g, s)) in Hl; [exact Hl|done]).
  assert (Forall (λ e, launched_ok e.2) (<[index := (g, batch_step s e)]> (bct_executions c))) as Hl'
    by (apply Forall_insert; [done|by apply step_launched]).
  pose proof (bg_ok _ _ _ (lo_good _ Hs)) as Hok. cbv zeta. unfold onItemStatus. cbn [bct_generation bct_run].
  destruct (bct_run c) as [run|] eqn:Erun.
  - destruct Hr as (old & s0 & Heq & Hold & Ht & Hcur). rewrite Heq in Ex, Hl' |- *.
    apply lookup_app_Some in Ex as [Ex|[Hge Ex]].
    + pose proof (Forall_lookup_1 _ _ _ _ Hold Ex) as Hg. cbn in Hg. rewrite decide_False by lia.
      rewrite insert_app_l in Hl' |- * by by eapply lookup_lt_Some.
      constructor; cbn [bct_executions bct_run bct_generation bct_current]; [done|].
      eexists _, s0. split; [done|]. rewrite length_insert. split_and!; [|done..]. by apply Forall_insert.
    + apply list_lookup_singleton_Some in Ex as [Hi [= <- <-]]. rewrite decide_True by done.
      rewrite callbacks_update. assert (index = length old + 0) as -> by lia.
      rewrite insert_app_r in Hl' |- *. cbn [insert list_insert] in Hl' |- *.
      constructor; cbn [bct_executions bct_run bct_generation bct_current]; [done|].
      exists old, (batch_step s0 e). split_and!; [done..|by apply table_step|].
      destruct Hcur as [?|[Hn Hd]]; [by left|right]. split; [done|]. rewrite step_idle; [done..|].
      intros ?%Hcan. congruence.
  - destruct Hr as [Hcur Hlt]. pose proof (Forall_lookup_1 _ _ _ _ Hlt Ex) as Hg. cbn in Hg.
    rewrite decide_False by lia.
    constructor; cbn [bct_executions bct_run bct_generation bct_current]; rewrite ?Erun; [done|].
    split; [done|]. by apply Forall_insert.
Qed.

Lemma finally_ok index c : controller_ok c → controller_ok (batch_finally index c).
Proof.
  intros Hc. pose proof Hc as [Hl Hr]. unfold batch_finally. destruct (bct_executions c !! index) as [[g s]|] eqn:Ex; [|done].
  assert (launched_ok s) as [_ _ Hnr] by (eapply (Forall_lookup_1 _ _ index (g, s)) in Hl; [exact Hl|done]).
  assert (batch_done s = DonePending ∨ Forall (λ wk, wk = WDone) (bs_workers s)) as [->|Hd]; [|done|].
  { unfold batch_done. destruct (existsb _ _) eqn:Er; [by apply existsb_rejected in Er|].
    destruct (forallb _ _) eqn:Ed; [right; by apply forallb_done|by left]. }
  assert (∀ c', c' = (if decide (g = bct_generation c ∧ bct_current c = Some index)
    then mkBatchController (bct_groupId c) (bct_run c) (bct_executions c) None (bct_generation c) (bct_handles c)
    else c) → controller_ok c') as H; [|by destruct (batch_done s); [|apply H|apply H]].
  intros c' ->. case_decide as Hcur; [|done]. destruct Hcur as [-> Hcur].
  constructor; cbn [bct_executions bct_run bct_generation bct_current]; [done|].
  destruct (bct_run c) as [run|]; [|by destruct Hr].
  destruct Hr as (old & s0 & Heq & Hold & Ht & Hor). exists old, s0. split_and!; [done..|]. right. split; [done|].
  destruct Hor as [Hlen|[Hn _]]; [|congruence]. rewrite Hcur in Hlen. injection Hlen as ->.
  rewrite Heq, lookup_app_r, Nat.sub_diag in Ex by done. by injection Ex as ->.
Qed.

Lemma dismiss_ok c : controller_ok c → controller_ok (batch_dismiss c).
Proof.
  intros Hc. unfold batch_dismiss. destruct (bct_current c); [done|]. pose proof Hc as [Hl _].
  constructor; cbn [bct_executions bct_run bct_generation bct_current]; [done|]. split; [done|].
  apply Forall_forall. intros e He. pose proof (controller_old c e Hc He). lia.
Qed.

Lemma batch_start_ok groupId ids c : controller_ok c → controller_ok (batch_start groupId ids c).
Proof.
  intros Hc. unfold batch_start. case_decide as Hd; [done|].
  assert (∀ id, id ∈ uniqueConnectionIds ids ↔ id ∈ ids) as Hu
    by (intros id; unfold uniqueConnectionIds; rewrite (proj2 (unique_ids_spec ∅ ids) id); set_solver).
  assert (bi_connectionId <$> br_items (createBatchConnectRun ids) = uniqueConnectionIds ids) as Hids.
  { cbn. rewrite <- list_fmap_compose. apply list_fmap_id. }
  apply launch_ok; rewrite ?Hids; [done|apply unique_ids_spec| |].
  - intros id. apply Hu.
  - intros item Hitem. left. apply Hu. rewrite <- Hids. by apply list_elem_of_fmap_2.
Qed.

(** The rows of a run that nothing handles any more. *)
Lemma rows_final run s item :
  launched_ok s → table_ok run s → Forall (λ wk, wk = WDone) (bs_workers s) → item ∈ br_items run →
  settled_status (bi_status item) ∨ bi_status item = BsFailed.
Proof.
  intros [Hg He _] [_ _ Hrows] Hd Hitem. specialize (Hrows item Hitem).
  destruct (log_status (bs_log s) (bi_connectionId item)) as [[st err]|] eqn:Es; [|by left].
  pose proof (log_status_in _ _ _ _ He Es) as Hq.
  destruct (all_settled _ _ s Hg (worker_count_pos _ _) Hd _ Hq) as [r Hr].
  pose proof (bo_status _ (bo_core _ (bg_ok _ _ _ Hg)) _ Hq) as Hst. rewrite Hr, Es in Hst. injection Hst as -> _.
  rewrite Hrows. cbn. unfold settled_status. destruct (er_status r); cbn; auto.
Qed.

Lemma retry_ok c : controller_ok c → controller_ok (batch_retry c).
Proof.
  intros Hc. unfold batch_retry. destruct (bct_current c) eqn:Ec; [done|]. destruct (bct_run c) as [run|] eqn:Er; [|done].
  case_decide as Hf; [done|]. pose proof Hc as [Hl Hr]. rewrite Er in Hr.
  destruct Hr as (old & s & Heq & _ & Ht & [?|[_ Hd]]); [congruence|].
  assert (launched_ok s) as Hs by (rewrite Heq in Hl; apply Forall_app in Hl as [_ Hl]; by rewrite Forall_singleton in Hl).
  assert (br_items (retryFailedBatchConnectItems run) = (λ item, if decide (bi_status item = BsFailed)
    then mkRunItem (bi_connectionId item) None BsQueued else item) <$> br_items run) as Hitems.
  { unfold retryFailedBatchConnectItems. destruct (_ || _) eqn:Ech; [done|].
    apply orb_false_iff in Ech as [_ Hex%bool_decide_eq_false]. symmetry. rewrite <- (list_fmap_id (br_items run)) at 2.
    apply list_fmap_ext. intros i x Hx. rewrite decide_False; [done|]. intros Hxf. apply Hex. apply Exists_exists.
    exists x. split; [by eapply list_elem_of_lookup_2|done]. }
  assert (bi_connectionId <$> br_items (retryFailedBatchConnectItems run) = bi_connectionId <$> br_items run) as Hids.
  { rewrite Hitems, <- list_fmap_compose. apply list_fmap_ext. intros i x _. cbn. by case_decide. }
  rewrite <- Ec. apply launch_ok; rewrite ?Hids; [done|apply Ht| |].
  - intros id (x & -> & [_ Hx]%list_elem_of_filter)%list_elem_of_fmap. by apply list_elem_of_fmap_2.
  - intros item. rewrite Hitems. intros (x & -> & Hx)%list_elem_of_fmap. case_decide as Hxf.
    + left. cbn. apply list_elem_of_fmap_2. by apply list_elem_of_filter.
    + right. by destruct (rows_final run s x Hs Ht Hd Hx).
Qed.

(** Every cancellation of a handle succeeds. *)
Definition cancels_succeed (events : list ControllerEvent) : Prop :=
  ∀ index w, CtAdapter index (EvCancelled w false) ∉ events.

Lemma controller_run_ok events : cancels_succeed events → controller_ok (controller_run events).
Proof.
  induction events as [|e es IH] using rev_ind; intros Hcan.
  { constructor; cbn; [done|]. by split. }
  unfold controller_run. rewrite foldl_app. cbn [foldl]. fold (controller_run es).
  assert (controller_ok (controller_run es)) as Hc.
  { apply IH. intros i w Hin. apply (Hcan i w), elem_of_app. by left. }
  destruct e as [groupId ids| | | |index e|index]; cbn [controller_step].
  - by apply batch_start_ok.
  - by apply retry_ok.
  - destruct (bct_current _) as [index|] eqn:Ec; [|done]. by apply event_ok.
  - by apply dismiss_ok.
  - assert (no_rejection e) as Hno
      by (intros w ->; apply (Hcan index w), elem_of_app; right; left).
    destruct e; try done; by apply event_ok.
  - by apply finally_ok.
Qed.

(** ** Properties *)

(** C21: the table of a batch run. Whatever the user and the sessions do, as long as the
    cancellation of a handle does not fail, the table that is shown has one row per
    connection; a row of the running execution shows the result of its connection, or
    queued or active while it has none; every other row is settled; never more rows
    are active than the concurrency limit; and while a row is queued or active an
    execution is current, so that starting, retrying and dismissing are refused. *)
Theorem batch_table_faithful events :
  cancels_succeed events →
  let c := controller_run events in
  match bct_run c with
  | None => bct_current c = None
  | Some run =>
      NoDup (bi_connectionId <$> br_items run) ∧
      (Z.of_nat (batchConnectActiveCount run) ≤ batchConnectMaxConcurrentAttempts)%Z ∧
      ∃ old s, bct_executions c = old ++ [(bct_generation c, s)] ∧
        (∀ id, id ∈ bs_queue s → id ∈ bi_connectionId <$> br_items run) ∧
        (∀ item, item ∈ br_items run →
          if decide (bi_connectionId item ∈ bs_queue s) then
            match bs_results s !! bi_connectionId item with
            | Some r => bi_status item = item_status (er_status r) ∧
                (bi_status item = BsFailed → bi_error item = er_error r)
            | None => bi_status item = BsQueued ∨
                isActiveStatus (bi_status item) = true ∧ bi_connectionId item ∈ in_flight (bs_workers s)
            end
          else settled_status (bi_status item)) ∧
        (batch_active c = true → bct_current c = Some (length old))
  end.
Proof.
  intros Hcan. cbv zeta. pose proof (controller_run_ok events Hcan) as [Hl Hr]. unfold batch_active.
  destruct (bct_run (controller_run events)) as [run|]; [|by destruct Hr].
  destruct Hr as (old & s & Heq & _ & Ht & Hcur).
  assert (launched_ok s) as Hs by (rewrite Heq in Hl; apply Forall_app in Hl as [_ Hl]; by rewrite Forall_singleton in Hl).
  pose proof Hs as [Hg He _]. pose proof Ht as [Hnd Hq Hrows]. pose proof (bo_core _ (bg_ok _ _ _ Hg)) as Hcore.
  assert (∀ item, item ∈ br_items run →
    if decide (bi_connectionId item ∈ bs_queue s) then
      match bs_results s !! bi_connectionId item with
      | Some r => bi_status item = item_status (er_status r) ∧
          (bi_status item = BsFailed → bi_error item = er_error r)
      | None => bi_status item = BsQueued ∨
          isActiveStatus (bi_status item) = true ∧ bi_connectionId item ∈ in_flight (bs_workers s)
      end
    else settled_status (bi_status item)) as Hshow.
  { intros item Hitem. specialize (Hrows item Hitem). case_decide as Hin.
    - pose proof (bo_status _ Hcore _ Hin) as Hst. pose proof (bo_settled _ Hcore (bi_connectionId item)) as Hset.
      destruct (bs_results s !! bi_connectionId item) as [r|].
      + rewrite Hst in Hrows. rewrite Hrows. cbn. split; [done|]. intros Hf. by rewrite decide_True.
      + destruct Hst as (st & Hst & Ha & Hn). rewrite Hst in Hrows. rewrite Hrows. cbn.
        case_bool_decide as Hstarted; [right|left; auto]. split; [done|]. by destruct (Hset Hstarted) as [?|[]].
    - destruct (log_status _ _) as [o|] eqn:Eo; [|done]. by apply (log_status_in _ _ _ _ He) in Eo. }
  split_and!; [done| |exists old, s; split_and!; try done].
  - assert ((bi_connectionId <$> filter (λ item, isActiveStatus (bi_status item) = true) (br_items run))
      ⊆+ in_flight (bs_workers s)) as Hsub%submseteq_length.
    { apply NoDup_submseteq; [by apply NoDup_filter_fmap|].
      intros id (item & -> & [Hact Hitem]%list_elem_of_filter)%list_elem_of_fmap.
      specialize (Hshow item Hitem). case_decide as Hin.
      - destruct (bs_results s !! bi_connectionId item) as [r|]; [|by destruct Hshow as [Hqd|[]]; [rewrite Hqd in Hact|]].
        destruct Hshow as [Hst _]. rewrite Hst in Hact. by destruct (er_status r).
      - by destruct Hshow as [Hst|Hst]; rewrite Hst in Hact. }
    rewrite length_fmap in Hsub. pose proof (length_in_flight (bs_workers s)) as Hlen.
    rewrite (bg_length _ _ _ Hg) in Hlen. unfold batchConnectActiveCount, worker_count, batchConnectMaxConcurrentAttempts in *. lia.
  - rewrite bool_decide_eq_true, Exists_exists. intros (item & Hitem & Hact).
    destruct Hcur as [?|[_ Hd]]; [done|]. exfalso.
    destruct (rows_final run s item Hs Ht Hd Hitem) as [[Hst|Hst]|Hst]; rewrite Hst in Hact; naive_solver.
Qed.

End controller.

(** Cancelling a connection of a batch closes its session and nothing else: the
    plan removes exactly the tab or the session of the handle from the workspace, and
    no file tab. *)
Theorem batch_cancel_closes_one tauri rn handle sh :
  sh_files sh = rn_files rn → NoDup (rm_id <$> sh_rdp sh) → NoDup (rm_id <$> sh_vnc sh) →
  let sh' := executeClosePlan tauri rn (batchWorkspaceClosePlan handle) sh in
  let kept kind id := instanceItemId kind id ≠ batchWorkspaceItemId handle in
  sh_terminals sh' = filter (λ t, kept KSsh (tt_id t)) (sh_terminals sh) ∧
  sh_locals sh' = filter (λ t, kept KLocal (lt_id t)) (sh_locals sh) ∧
  sh_rdp sh' = filter (λ s, kept KRdp (rm_id s)) (sh_rdp sh) ∧
  sh_vnc sh' = filter (λ s, kept KVnc (rm_id s)) (sh_vnc sh) ∧
  sh_files sh' = sh_files sh.
Proof.
  intros Hf Hr Hv. cbv zeta.
  pose proof (coll_executeClosePlan tauri rn (batchWorkspaceClosePlan handle) sh Hf Hr Hv) as Hc.
  unfold coll in Hc. injection Hc as -> -> -> -> ->.
  cbn [batchWorkspaceClosePlan cl_sshTabIds cl_connectionIds cl_localTabIds cl_rdpSessionIds cl_vncSessionIds].
  rewrite !filter_true_nil.
  assert (∀ kind id k, handle_item_kind kind = k → id ∉ only_kind kind handle ↔ instanceItemId k id ≠ batchWorkspaceItemId handle) as H.
  { intros kind id k <-. unfold only_kind, batchWorkspaceItemId. case_decide as Hk.
    - rewrite Hk, list_elem_of_singleton. split; [intros Hne [_ ?]%instanceItemId_inj; done|by intros Hne ->].
    - split; [|intros _; apply not_elem_of_nil]. intros _ [Hkk _]%instanceItemId_inj. apply Hk.
      by destruct (hd_kind handle), kind. }
  split_and!; [apply list_filter_ext_in; intros x _; by apply H..|done].
Qed.

(** Two connections, of which the second fails and is retried. *)
Definition controller_sample : list (ControllerEvent (Handle := nat)) :=
  [CtStart "g" ["a"; "b"]; CtAdapter 0 (EvStarted 0 10); CtAdapter 0 (EvStartFailed 1 "refused");
   CtRetry; CtAdapter 0 (EvWaited 0 true None); CtFinally 0; CtRetry; CtAdapter 1 (EvStarted 0 11)].

Lemma batch_table_faithful_witness :
  bct_run (controller_run controller_sample) =
    Some (mkRun false [mkRunItem "a" None BsSuccess; mkRunItem "b" None BsConnecting]) ∧
  NoDup ["a"; "b"].
Proof.
  assert (bct_run (controller_run controller_sample) =
    Some (mkRun false [mkRunItem "a" None BsSuccess; mkRunItem "b" None BsConnecting])) as E
    by (vm_compute; reflexivity).
  assert (cancels_succeed controller_sample) as H.
  { intros i w Hin. unfold controller_sample in Hin. repeat (apply elem_of_cons in Hin as [[=]|Hin]).
    by apply not_elem_of_nil in Hin. }
  split; [exact E|]. pose proof (batch_table_faithful controller_sample H) as Ht. cbv zeta in Ht. rewrite E in Ht.
  exact (proj1 Ht).
Defined.

Lemma batch_cancel_closes_one_witness :
  tt_id <$> sh_terminals (executeClosePlan true demo_rendered
    (batchWorkspaceClosePlan (mkHandle HSsh (default "" (head (tt_id <$> sh_terminals demo_shell))))) demo_shell) =
  tail (tt_id <$> sh_terminals demo_shell).
Proof.
  set (handle := mkHandle HSsh (default "" (head (tt_id <$> sh_terminals demo_shell)))).
  destruct (batch_cancel_closes_one true demo_rendered handle demo_shell) as [H _]; [done|vm_decide|vm_decide|].
  etransitivity; [exact (f_equal (fmap tt_id) H)|vm_compute; reflexivity].
Defined.
