(* ===== verification/JsString.v ===== *)
(** * Strings as lists of UTF-16 code units

    What the terminal code uses of JavaScript strings: white space, trimming, splitting,
    joining and searching, with the lemmas that its components share. *)

From S2P Require Import Prelude.
From Stdlib Require Import Lia.

#[local] Open Scope nat_scope.

Abbreviation jsstr := (list Z).

(** A literal of ASCII characters. *)
Definition js (s : string) : jsstr := (λ a, Z.of_N (Ascii.N_of_ascii a)) <$> String.list_ascii_of_string s.

(** [/\s/] and the white space of [trim]. *)
Definition is_white (c : Z) : bool :=
  bool_decide (c ∈ ([9; 10; 11; 12; 13; 32; 0xa0; 0x1680; 0x2028; 0x2029; 0x202f; 0x205f; 0x3000; 0xfeff] : jsstr)%Z) ||
  ((0x2000 <=? c) && (c <=? 0x200a))%Z.

Fixpoint units_trim_start (s : jsstr) : jsstr :=
  match s with
  | c :: rest => if is_white c then units_trim_start rest else s
  | [] => []
  end.

Definition units_trim_end (s : jsstr) : jsstr := rev (units_trim_start (rev s)).

(** [s.trim()]. *)
Definition units_trim (s : jsstr) : jsstr := units_trim_end (units_trim_start s).

(** [s.startsWith(p)]. *)
Definition units_starts_with (p s : jsstr) : bool := bool_decide (take (length p) s = p).

(** [s.split(c)] for one code unit. *)
Fixpoint split_on (sep : Z) (s : jsstr) : list jsstr :=
  match s with
  | [] => [[]]
  | c :: rest =>
      if decide (c = sep) then [] :: split_on sep rest
      else match split_on sep rest with
           | [] => [[c]]
           | part :: parts => (c :: part) :: parts
           end
  end.

(** [parts.join(c)] for one code unit. *)
Fixpoint join_with (sep : Z) (parts : list jsstr) : jsstr :=
  match parts with
  | [] => []
  | [part] => part
  | part :: parts => part ++ sep :: join_with sep parts
  end.

(** [s.replace(/a/g, b)] for code units. *)
Definition replace_unit (a b : Z) (s : jsstr) : jsstr := (λ c, if decide (c = a) then b else c) <$> s.

(** The truthy nullable string: neither null nor empty. *)
Definition units_truthy (s : option jsstr) : bool :=
  match s with Some (_ :: _) => true | _ => false end.

(** ** Lemmas *)

Lemma split_on_nonnil sep s : split_on sep s ≠ [].
Proof. destruct s as [|c s]; cbn; [done|]. case_decide; [done|]. by destruct (split_on sep s). Qed.

Lemma split_on_app sep a b : split_on sep (a ++ sep :: b) = split_on sep a ++ split_on sep b.
Proof.
  induction a as [|c a IH]; cbn; [by rewrite decide_True|]. rewrite IH. case_decide; [done|].
  pose proof (split_on_nonnil sep a). by destruct (split_on sep a).
Qed.

Lemma split_on_part sep s : sep ∉ s → split_on sep s = [s].
Proof.
  induction s as [|c s IH]; cbn; [done|]. intros [Hc Hs]%not_elem_of_cons.
  rewrite decide_False by congruence. by rewrite IH.
Qed.

Lemma split_on_join sep parts : Forall (λ part, sep ∉ part) parts → parts ≠ [] → split_on sep (join_with sep parts) = parts.
Proof.
  induction 1 as [|part parts Hp Hps IH]; [done|]. intros _.
  destruct parts as [|q parts]; cbn [join_with]; [by apply split_on_part|].
  rewrite split_on_app, split_on_part by done. cbn [app]. f_equal. by apply IH.
Qed.

Lemma split_on_parts sep s : Forall (λ part, (sep ∉ part) ∧ part ⊆ s) (split_on sep s).
Proof.
  induction s as [|c s IH]; cbn.
  { constructor; [|done]. split; [by apply not_elem_of_nil|done]. }
  case_decide as Hc.
  - constructor; [split; [by apply not_elem_of_nil|by intros ? ?%elem_of_nil]|].
    eapply Forall_impl; [exact IH|]. intros p [? Hp]. split; [done|]. intros x Hx. right. by apply Hp.
  - destruct (split_on sep s) as [|p ps].
    + constructor; [|done]. split; [|by intros x ->%list_elem_of_singleton; left].
      intros ->%list_elem_of_singleton. done.
    + apply Forall_cons in IH as [[H1 H2] IH]. constructor.
      * split; [|intros x [->|Hx]%elem_of_cons; [left|right; by apply H2]].
        intros [->|?]%elem_of_cons; done.
      * eapply Forall_impl; [exact IH|]. intros q [? Hq]. split; [done|]. intros x Hx. right. by apply Hq.
Qed.

Lemma units_starts_with_app p s : units_starts_with p (p ++ s) = true.
Proof. apply bool_decide_eq_true. by rewrite take_app_length. Qed.

(** Trimming leaves alone what has no white space at its ends. *)
Lemma units_trim_start_id s : match head s with Some c => is_white c = false | None => True end → units_trim_start s = s.
Proof. destruct s as [|c s]; cbn; [done|]. by intros ->. Qed.

Lemma units_trim_id s :
  match head s with Some c => is_white c = false | None => True end →
  match last s with Some c => is_white c = false | None => True end → units_trim s = s.
Proof.
  intros Hh Hl. unfold units_trim, units_trim_end. rewrite (units_trim_start_id s) by done.
  rewrite units_trim_start_id; [apply rev_involutive|].
  rewrite rev_alt. change (rev_append s []) with (reverse s). by rewrite head_reverse.
Qed.

Lemma units_starts_with_inv p s : units_starts_with p s = true → ∃ r, s = p ++ r.
Proof. intros H%bool_decide_eq_true. exists (drop (length p) s). by rewrite <- H at 1; rewrite take_drop. Qed.

Lemma units_starts_with_absent p s c : c ∈ p → c ∉ s → units_starts_with p s = false.
Proof.
  intros Hp Hs. destruct (units_starts_with p s) eqn:E; [|done]. apply units_starts_with_inv in E as (r & ->).
  rewrite not_elem_of_app in Hs. tauto.
Qed.

(** A one-unit prefix is the first unit. *)
Lemma units_starts_with_head c s : units_starts_with [c] s = bool_decide (head s = Some c).
Proof. destruct s as [|d s]; cbn; apply bool_decide_ext; naive_solver. Qed.
