(* ===== verification/TerminalOutput.v ===== *)
(** * Terminal output flow ([features/terminal/terminalOutputFlow.ts])

    The queue between the output of a session and the terminal: chunks are cut into
    batches of bounded size, one write is in flight at a time, and the next batch is
    scheduled for the next animation frame or a timeout. A JavaScript string is the
    list of its UTF-16 code units. *)

From S2P Require Import Prelude JsString.
From Stdlib Require Import Lia.

#[local] Open Scope nat_scope.

Definition is_high (c : Z) : bool := ((0xd800 <=? c) && (c <=? 0xdbff))%Z.
Definition is_low (c : Z) : bool := ((0xdc00 <=? c) && (c <=? 0xdfff))%Z.

Definition splitsSurrogatePair (value : jsstr) (index : nat) : bool :=
  if (index <=? 0) || (length value <=? index) then false
  else
    match value !! (index - 1), value !! index with
    | Some l, Some r => is_high l && is_low r
    | _, _ => false
    end.

(** ** The queue *)

(** [oq_schedules] says for every call of [schedule] whether its callback may still run,
    [oq_scheduledCancel] is the call whose cancellation is kept; [oq_completed] is the
    [completed] flag of every write, and [oq_written] what was written. *)
Record TerminalOutputQueue := mkOutput {
  oq_chunks : list jsstr;
  oq_chunkIndex : nat;
  oq_disposed : bool;
  oq_pendingChars : Z;
  oq_scheduledCancel : option nat;
  oq_writing : bool;
  oq_schedules : list bool;
  oq_completed : list bool;
  oq_written : list jsstr;
}.

(** The constructor throws on a limit below two. *)
Definition newTerminalOutputQueue (maxBatchChars : Z) : option TerminalOutputQueue :=
  if (maxBatchChars <? 2)%Z then None else Some (mkOutput [] 0 false 0 None false [] [] []).

Definition oq_set_chunks (chunks : list jsstr) (index : nat) (pending : Z) (q : TerminalOutputQueue) : TerminalOutputQueue :=
  mkOutput chunks index (oq_disposed q) pending (oq_scheduledCancel q) (oq_writing q) (oq_schedules q)
    (oq_completed q) (oq_written q).

Definition oq_set_schedule (cancel : option nat) (schedules : list bool) (q : TerminalOutputQueue) : TerminalOutputQueue :=
  mkOutput (oq_chunks q) (oq_chunkIndex q) (oq_disposed q) (oq_pendingChars q) cancel (oq_writing q) schedules
    (oq_completed q) (oq_written q).

Definition oq_set_write (writing : bool) (completed : list bool) (written : list jsstr) (q : TerminalOutputQueue) :
    TerminalOutputQueue :=
  mkOutput (oq_chunks q) (oq_chunkIndex q) (oq_disposed q) (oq_pendingChars q) (oq_scheduledCancel q) writing
    (oq_schedules q) completed written.

Definition oq_set_disposed (q : TerminalOutputQueue) : TerminalOutputQueue :=
  mkOutput (oq_chunks q) (oq_chunkIndex q) true (oq_pendingChars q) (oq_scheduledCancel q) (oq_writing q)
    (oq_schedules q) (oq_completed q) (oq_written q).

Definition scheduleNext (q : TerminalOutputQueue) : TerminalOutputQueue :=
  if oq_disposed q || oq_writing q || (oq_pendingChars q =? 0)%Z || bool_decide (is_Some (oq_scheduledCancel q)) then q
  else oq_set_schedule (Some (length (oq_schedules q))) (oq_schedules q ++ [true]) q.

Definition output_enqueue (data : jsstr) (q : TerminalOutputQueue) : TerminalOutputQueue :=
  if oq_disposed q || bool_decide (data = []) then q
  else
    scheduleNext (oq_set_chunks (oq_chunks q ++ [data]) (oq_chunkIndex q)
      (oq_pendingChars q + Z.of_nat (length data)) q).

Definition output_clear (q : TerminalOutputQueue) : TerminalOutputQueue :=
  let q :=
    match oq_scheduledCancel q with
    | Some k => oq_set_schedule None (<[k := false]> (oq_schedules q)) q
    | None => q
    end in
  oq_set_chunks [] 0 0 q.

Definition output_dispose (q : TerminalOutputQueue) : TerminalOutputQueue := output_clear (oq_set_disposed q).

(** The loop of [takeBatch]: the parts taken, the chunks and the index after it. *)
Fixpoint take_loop (fuel : nat) (chunks : list jsstr) (index remaining : nat) (parts : list jsstr) :
    list jsstr * list jsstr * nat :=
  match fuel with
  | 0 => (parts, chunks, index)
  | S fuel =>
      if (0 <? remaining) && (index <? length chunks) then
        let chunk := default [] (chunks !! index) in
        if length chunk <=? remaining
        then take_loop fuel chunks (S index) (remaining - length chunk) (parts ++ [chunk])
        else
          let t := if splitsSurrogatePair chunk remaining then remaining - 1 else remaining in
          if t =? 0 then (parts, chunks, index)
          else take_loop fuel (<[index := drop t chunk]> chunks) index (remaining - t) (parts ++ [take t chunk])
      else (parts, chunks, index)
  end.

Definition takeBatch (maxBatchChars : nat) (q : TerminalOutputQueue) : jsstr * TerminalOutputQueue :=
  let '(parts, chunks, index) :=
    take_loop (length (oq_chunks q) - oq_chunkIndex q + 2) (oq_chunks q) (oq_chunkIndex q) maxBatchChars [] in
  let batch := concat parts in
  let pending := (oq_pendingChars q - Z.of_nat (length batch))%Z in
  (batch,
   if index =? length chunks then oq_set_chunks [] 0 pending q
   else if 64 <=? index then oq_set_chunks (drop index chunks) 0 pending q
   else oq_set_chunks chunks index pending q).

(** The callback of write [n]. *)
Definition onParsed (n : nat) (q : TerminalOutputQueue) : TerminalOutputQueue :=
  match oq_completed q !! n with
  | Some false => scheduleNext (oq_set_write false (<[n := true]> (oq_completed q)) (oq_written q) q)
  | _ => q
  end.

(** How [write] and [onBatch] go: whether the parsed callback runs before they return,
    and whether one of them throws. *)
Record WriteOutcome := mkOutcome { wo_sync : bool; wo_throws : bool }.

Definition flushNext (maxBatchChars : nat) (outcome : WriteOutcome) (q : TerminalOutputQueue) : TerminalOutputQueue :=
  if oq_disposed q || oq_writing q || (oq_pendingChars q =? 0)%Z then q
  else
    let '(batch, q) := takeBatch maxBatchChars q in
    let n := length (oq_completed q) in
    let q := oq_set_write true (oq_completed q ++ [false]) (oq_written q ++ [batch]) q in
    let q := if wo_sync outcome then onParsed n q else q in
    if wo_throws outcome
    then output_clear (oq_set_disposed (oq_set_write false (<[n := true]> (oq_completed q)) (oq_written q) q))
    else q.

(** [run] of schedule [k], by the frame or by the timer, whichever is first. *)
Definition schedule_run (maxBatchChars : nat) (k : nat) (outcome : WriteOutcome) (q : TerminalOutputQueue) :
    TerminalOutputQueue :=
  match oq_schedules q !! k with
  | Some true => flushNext maxBatchChars outcome (oq_set_schedule None (<[k := false]> (oq_schedules q)) q)
  | _ => q
  end.

Inductive OutputEvent :=
  | OutEnqueue (data : jsstr)
  | OutClear
  | OutDispose
  | OutRun (k : nat) (outcome : WriteOutcome)
  | OutParsed (n : nat).

Definition output_step (maxBatchChars : nat) (q : TerminalOutputQueue) (event : OutputEvent) : TerminalOutputQueue :=
  match event with
  | OutEnqueue data => output_enqueue data q
  | OutClear => output_clear q
  | OutDispose => output_dispose q
  | OutRun k outcome => schedule_run maxBatchChars k outcome q
  | OutParsed n => onParsed n q
  end.

Definition output_run (maxBatchChars : nat) (events : list OutputEvent) : TerminalOutputQueue :=
  foldl (output_step maxBatchChars) (mkOutput [] 0 false 0 None false [] [] []) events.

(** ** Specification *)

(** What is still to be written. *)
Definition output_content (q : TerminalOutputQueue) : jsstr := concat (drop (oq_chunkIndex q) (oq_chunks q)).

(** An unbounded text, whether a write is in flight, what was written (the write in
    flight is the last of it), the run that is due, and how many runs there have been. *)
Record OutputSpec := mkSpec {
  os_pending : jsstr;
  os_writing : bool;
  os_disposed : bool;
  os_written : list jsstr;
  os_due : option nat;
  os_scheduled : nat;
}.

Definition output_abs (q : TerminalOutputQueue) : OutputSpec :=
  mkSpec (output_content q) (oq_writing q) (oq_disposed q) (oq_written q) (oq_scheduledCancel q)
    (length (oq_schedules q)).

(** A text that waits with no write in flight has a run due for it. *)
Definition spec_schedule (s : OutputSpec) : OutputSpec :=
  if os_disposed s || os_writing s || bool_decide (os_pending s = []) || bool_decide (is_Some (os_due s)) then s
  else mkSpec (os_pending s) (os_writing s) (os_disposed s) (os_written s) (Some (os_scheduled s)) (S (os_scheduled s)).

Definition spec_enqueue (data : jsstr) (s : OutputSpec) : OutputSpec :=
  spec_schedule (mkSpec (os_pending s ++ data) (os_writing s) (os_disposed s) (os_written s) (os_due s) (os_scheduled s)).

Definition spec_clear (s : OutputSpec) : OutputSpec :=
  mkSpec [] (os_writing s) (os_disposed s) (os_written s) None (os_scheduled s).

Definition spec_dispose (s : OutputSpec) : OutputSpec :=
  mkSpec [] (os_writing s) true (os_written s) None (os_scheduled s).

Definition spec_parse (s : OutputSpec) : OutputSpec :=
  spec_schedule (mkSpec (os_pending s) false (os_disposed s) (os_written s) (os_due s) (os_scheduled s)).

Definition spec_write (batch rest : jsstr) (outcome : WriteOutcome) (s : OutputSpec) : OutputSpec :=
  let s := mkSpec rest true (os_disposed s) (os_written s ++ [batch]) None (os_scheduled s) in
  let s := if wo_sync outcome then spec_parse s else s in
  if wo_throws outcome then mkSpec [] false true (os_written s) None (os_scheduled s) else s.

(** [batch] is the longest the limit allows: all of the text, or as many units as the
    limit, or one less where the limit falls inside a surrogate pair. *)
Definition longest_batch (maxBatchChars : nat) (batch rest : jsstr) : Prop :=
  rest = [] ∨ length batch = maxBatchChars ∨
  S (length batch) = maxBatchChars ∧ splitsSurrogatePair (batch ++ rest) maxBatchChars = true.

(** The write in flight is write [n]. *)
Definition in_flight (n : nat) (s : OutputSpec) : Prop := os_writing s = true ∧ S n = length (os_written s).

Inductive output_spec (maxBatchChars : nat) (s : OutputSpec) : OutputEvent → OutputSpec → Prop :=
  | step_enqueue data :
      os_disposed s = false → output_spec maxBatchChars s (OutEnqueue data) (spec_enqueue data s)
  | step_enqueue_disposed data : os_disposed s = true → output_spec maxBatchChars s (OutEnqueue data) s
  | step_clear : output_spec maxBatchChars s OutClear (spec_clear s)
  | step_dispose : output_spec maxBatchChars s OutDispose (spec_dispose s)
  | step_write batch rest k outcome :
      os_due s = Some k → os_writing s = false → os_disposed s = false →
      os_pending s = batch ++ rest → batch ≠ [] → length batch ≤ maxBatchChars → longest_batch maxBatchChars batch rest →
      output_spec maxBatchChars s (OutRun k outcome) (spec_write batch rest outcome s)
  | step_stale_run k outcome : os_due s ≠ Some k → output_spec maxBatchChars s (OutRun k outcome) s
  | step_parsed n : in_flight n s → output_spec maxBatchChars s (OutParsed n) (spec_parse s)
  | step_stale_parsed n : ¬ in_flight n s → output_spec maxBatchChars s (OutParsed n) s.

(** Every surrogate is half of a pair. *)
Fixpoint well_formed (text : jsstr) : bool :=
  match text with
  | [] => true
  | c :: rest =>
      if is_low c then false
      else if is_high c then match rest with d :: rest' => is_low d && well_formed rest' | [] => false end
      else well_formed rest
  end.

(** ** Lemmas: strings *)

(** Induction two units at a time. *)
Lemma text_ind (P : jsstr → Prop) :
  P [] → (∀ c, P [c]) → (∀ c d l, P l → P (d :: l) → P (c :: d :: l)) → ∀ l, P l.
Proof.
  intros H0 H1 H2 l. assert (P l ∧ ∀ c, P (c :: l)) as []; [|done].
  induction l as [|c l [IH1 IH2]]; [by split|]. split; [apply IH2|]. intros d. by apply H2.
Qed.

Lemma well_formed_app a b : well_formed a = true → well_formed b = true → well_formed (a ++ b) = true.
Proof.
  intros Ha Hb. revert Ha. induction a as [|c|c d a IH1 IH2] using text_ind; [done| |].
  - cbn. by destruct (is_low c), (is_high c).
  - cbn [well_formed app]. destruct (is_low c); [done|]. destruct (is_high c); [|exact IH2].
    rewrite !andb_true_iff. intros [? ?]. split; [done|by apply IH1].
Qed.

Lemma well_formed_concat l : Forall (λ s, well_formed s = true) l → well_formed (concat l) = true.
Proof. induction 1 as [|s l Hs _ IH]; [done|]. by apply well_formed_app. Qed.

Lemma splits_cons c l k : 0 < k → splitsSurrogatePair (c :: l) (S k) = splitsSurrogatePair l k.
Proof.
  intros Hk. unfold splitsSurrogatePair. cbn [length]. destruct k as [|k]; [lia|]. cbn [Nat.leb orb].
  replace (S (S k) - 1) with (S k) by lia. replace (S k - 1) with k by lia. done.
Qed.

(** A cut that splits no pair leaves two well-formed halves. *)
Lemma well_formed_cut l k :
  well_formed l = true → splitsSurrogatePair l k = false →
  well_formed (take k l) = true ∧ well_formed (drop k l) = true.
Proof.
  revert k. induction l as [|c|c d l IH1 IH2] using text_ind; intros k Hwf Hs.
  - by rewrite take_nil, drop_nil.
  - destruct k as [|k]; [done|]. cbn [take drop]. by rewrite take_nil, drop_nil.
  - destruct k as [|[|k]]; [done| |].
    + cbn [take drop]. cbn in Hs. cbn [well_formed] in Hwf |- *.
      destruct (is_low c); [done|]. destruct (is_high c); [|done]. apply andb_true_iff in Hwf as [Hd _].
      by rewrite Hd in Hs.
    + rewrite splits_cons in Hs by lia. cbn [take drop].
      cbn [well_formed] in Hwf. destruct (is_low c) eqn:Hl; [done|]. destruct (is_high c) eqn:Hh.
      * apply andb_true_iff in Hwf as [Hd Hwf]. cbn [well_formed]. rewrite Hl, Hh, Hd. cbn [andb].
        destruct k as [|k]; [done|]. rewrite splits_cons in Hs by lia. by apply IH1.
      * destruct (IH2 (S k) Hwf Hs) as [H1 H2]. split; [|done]. cbn [well_formed]. rewrite Hl, Hh. exact H1.
Qed.

(** Two places in a row cannot both split a pair. *)
Lemma split_before l k : splitsSurrogatePair l k = true → splitsSurrogatePair l (k - 1) = false.
Proof.
  unfold splitsSurrogatePair. destruct (_ || _) eqn:Hk; [done|]. apply orb_false_iff in Hk as [Hk%Nat.leb_gt Hl%Nat.leb_gt].
  destruct (l !! (k - 1)) as [c|] eqn:Ec; [|done]. destruct (l !! k) as [d|]; [|done]. intros [Hh _]%andb_true_iff.
  destruct (_ || _); [done|]. destruct (l !! (k - 1 - 1)); [|done].
  assert (is_low c = false) as ->; [|by rewrite andb_false_r].
  unfold is_high, is_low in *. apply andb_true_iff in Hh as [_ Hh%Z.leb_le]. apply andb_false_iff. left. apply Z.leb_gt. lia.
Qed.

Lemma splits_app_l a b k : splitsSurrogatePair a k = true → splitsSurrogatePair (a ++ b) k = true.
Proof.
  unfold splitsSurrogatePair. destruct (_ || _) eqn:Hk; [done|].
  apply orb_false_iff in Hk as [Hk%Nat.leb_gt Hl%Nat.leb_gt].
  assert ((k <=? 0) || (length (a ++ b) <=? k) = false) as ->
    by (apply orb_false_iff; split; apply Nat.leb_gt; [lia|rewrite length_app; lia]).
  by rewrite !lookup_app_l by lia.
Qed.

Lemma splits_app_r a b k : 0 < k → splitsSurrogatePair b k = true → splitsSurrogatePair (a ++ b) (length a + k) = true.
Proof. intros Hk Hs. induction a as [|c a IH]; [done|]. cbn [app length Nat.add]. rewrite splits_cons by lia. exact IH. Qed.

Lemma splits_pos l k : splitsSurrogatePair l k = true → 0 < k.
Proof. unfold splitsSurrogatePair. destruct k; [done|lia]. Qed.

Lemma spec_schedule_pending s : os_pending (spec_schedule s) = os_pending s.
Proof. unfold spec_schedule. by destruct (_ || _). Qed.

Lemma spec_write_pending batch rest outcome s :
  os_pending (spec_write batch rest outcome s) = if wo_throws outcome then [] else rest.
Proof.
  unfold spec_write. cbv zeta. destruct (wo_throws outcome); [done|]. destruct (wo_sync outcome); [|done].
  apply spec_schedule_pending.
Qed.

(** ** Lemmas: taking a batch *)

(** What the loop takes is a prefix of the content, as long as the limit allows; a
    limit that is not reached is missed by the half of a pair. *)
Record take_result (chunks : list jsstr) (index remaining : nat) (taken : list jsstr) (chunks' : list jsstr)
    (index' : nat) : Prop := {
  tr_index : index' ≤ length chunks';
  tr_content : concat taken ++ concat (drop index' chunks') = concat (drop index chunks);
  tr_bound : length (concat taken) ≤ remaining;
  tr_chunks : Forall (λ c, c ≠ []) (drop index' chunks');
  tr_maximal : drop index' chunks' = [] ∨ length (concat taken) = remaining ∨
    S (length (concat taken)) = remaining ∧ splitsSurrogatePair (concat (drop index chunks)) remaining = true;
  tr_well_formed : Forall (λ c, well_formed c = true) (drop index chunks) →
    Forall (λ c, well_formed c = true) taken ∧ Forall (λ c, well_formed c = true) (drop index' chunks');
}.

Lemma take_loop_spec fuel chunks index remaining parts :
  length chunks - index + min remaining 2 ≤ fuel → index ≤ length chunks → Forall (λ c, c ≠ []) (drop index chunks) →
  ∃ taken chunks' index', take_loop fuel chunks index remaining parts = (parts ++ taken, chunks', index') ∧
    take_result chunks index remaining taken chunks' index'.
Proof.
  revert chunks index remaining parts.
  assert (∀ chunks index remaining, index ≤ length chunks → Forall (λ c, c ≠ []) (drop index chunks) →
    drop index chunks = [] ∨ remaining = 0 ∨ remaining = 1 ∧ splitsSurrogatePair (concat (drop index chunks)) 1 = true →
    take_result chunks index remaining [] chunks index) as Hstop.
  { intros chunks index remaining Hi Hc Hm. constructor; cbn; try done; [lia|]. destruct Hm as [|[->|[-> ?]]]; auto. }
  induction fuel as [|fuel IH]; intros chunks index remaining parts Hf Hi Hc; cbn [take_loop].
  { exists [], chunks, index. rewrite app_nil_r. split; [done|]. apply Hstop; [done..|right; left; lia]. }
  destruct (_ && _) eqn:Hgo; cbn zeta iota.
  2: { exists [], chunks, index. rewrite app_nil_r. split; [done|]. apply Hstop; [done..|].
       apply andb_false_iff in Hgo as [H%Nat.ltb_ge|H%Nat.ltb_ge]; [right; left; lia|left; by apply drop_ge]. }
  apply andb_true_iff in Hgo as [Hrem%Nat.ltb_lt Hlt%Nat.ltb_lt].
  destruct (lookup_lt_is_Some_2 chunks index Hlt) as [chunk Hchunk]. rewrite Hchunk. change (default [] (Some chunk)) with chunk.
  rewrite (drop_S _ _ _ Hchunk) in Hc. apply Forall_cons in Hc as [Hne Hc].
  assert (0 < length chunk) as Hlen by (destruct chunk; [done|cbn; lia]).
  destruct (length chunk <=? remaining) eqn:Hfit; [apply Nat.leb_le in Hfit|apply Nat.leb_gt in Hfit].
  - destruct (IH chunks (S index) (remaining - length chunk) (parts ++ [chunk])) as (taken & chunks' & index' & -> & []);
      [lia|lia|done|].
    exists (chunk :: taken), chunks', index'. rewrite <- app_assoc. split; [done|].
    constructor; [done| | |done| |].
    + rewrite (drop_S _ _ _ Hchunk). cbn [concat]. by rewrite <- app_assoc, tr_content0.
    + cbn [concat]. rewrite length_app. lia.
    + rewrite (drop_S _ _ _ Hchunk). cbn [concat]. rewrite length_app.
      destruct tr_maximal0 as [|[|[? Hs]]]; [by left|right; left; lia|right; right; split; [lia|]].
      pose proof (splits_pos _ _ Hs). replace remaining with (length chunk + (remaining - length chunk)) by lia.
      by apply splits_app_r.
    + rewrite (drop_S _ _ _ Hchunk). intros [Hw Hws]%Forall_cons. destruct (tr_well_formed0 Hws). by split; [constructor|].
  - set (t := if splitsSurrogatePair chunk remaining then remaining - 1 else remaining).
    assert (t ≤ remaining ∧ remaining ≤ S t) as [Ht1 Ht2] by (unfold t; destruct (splitsSurrogatePair _ _); lia).
    assert (t = 0 → remaining = 1 ∧ splitsSurrogatePair chunk 1 = true) as Htake0.
    { unfold t. destruct (splitsSurrogatePair chunk remaining) eqn:Hsp; [|lia].
      intros ?. assert (remaining = 1) as Hr1 by lia. by rewrite Hr1 in Hsp. }
    destruct (t =? 0) eqn:Ht0; [apply Nat.eqb_eq in Ht0|apply Nat.eqb_neq in Ht0].
    { exists [], chunks, index. rewrite app_nil_r. split; [done|]. destruct (Htake0 Ht0) as [Hr1 Hsp].
      apply Hstop; [done| |right; right; split; [done|]]; rewrite (drop_S _ _ _ Hchunk); [by constructor|].
      by apply splits_app_l. }
    assert (drop index (<[index := drop t chunk]> chunks) = drop t chunk :: drop (S index) chunks) as Hd.
    { erewrite drop_S by by apply list_lookup_insert_eq. f_equal. by rewrite drop_insert_lt by lia. }
    destruct (IH (<[index := drop t chunk]> chunks) index (remaining - t) (parts ++ [take t chunk]))
      as (taken & chunks' & index' & -> & []).
    { rewrite length_insert. unfold t. destruct (splitsSurrogatePair _ _); lia. }
    { rewrite length_insert. lia. }
    { rewrite Hd. constructor; [|done]. intros He%(f_equal length). rewrite length_drop in He. cbn in He. lia. }
    exists (take t chunk :: taken), chunks', index'. rewrite <- app_assoc. split; [done|].
    assert (length (take t chunk) = t) as Hlt' by (rewrite length_take; lia).
    constructor; [done| | |done| |].
    + rewrite (drop_S _ _ _ Hchunk). cbn [concat]. rewrite <- app_assoc, tr_content0, Hd. cbn [concat].
      by rewrite app_assoc, take_drop.
    + cbn [concat]. rewrite length_app. lia.
    + cbn [concat]. rewrite length_app, (drop_S _ _ _ Hchunk).
      destruct tr_maximal0 as [|[|[? Hs]]]; [by left|right; left; lia|right; right; split; [lia|]].
      rewrite Hd in Hs. cbn [concat] in Hs |- *. replace remaining with (length (take t chunk) + (remaining - t)) by lia.
      rewrite <- (take_drop t chunk) at 1. rewrite <- app_assoc. apply splits_app_r; [lia|done].
    + rewrite (drop_S _ _ _ Hchunk). intros [Hw Hws]%Forall_cons.
      assert (well_formed (take t chunk) = true ∧ well_formed (drop t chunk) = true) as [Hw1 Hw2].
      { destruct (splitsSurrogatePair chunk remaining) eqn:Hsp; apply well_formed_cut; try done.
        unfold t. by apply split_before. }
      rewrite Hd in tr_well_formed0. destruct tr_well_formed0 as [? ?]; [by constructor|]. by split; [constructor|].
Qed.

(** ** Lemmas: the invariant *)

Section queue.
Context (maxBatchChars : nat) (Hmax : 2 ≤ maxBatchChars).

(** What holds of a queue, also before the next batch is scheduled. *)
Record output_core (q : TerminalOutputQueue) : Prop := {
  qc_index : oq_chunkIndex q ≤ length (oq_chunks q);
  qc_chunks : Forall (λ c, c ≠ []) (drop (oq_chunkIndex q) (oq_chunks q));
  qc_pending : oq_pendingChars q = Z.of_nat (length (output_content q));
  qc_schedules : ∀ k, oq_schedules q !! k = Some true ↔ oq_scheduledCancel q = Some k;
  qc_idle : is_Some (oq_scheduledCancel q) → oq_writing q = false ∧ oq_disposed q = false ∧ output_content q ≠ [];
  qc_writes : ∀ n, oq_completed q !! n = Some false ↔ oq_writing q = true ∧ S n = length (oq_completed q);
  qc_nonempty : oq_writing q = true → oq_completed q ≠ [];
  qc_written : length (oq_written q) = length (oq_completed q);
  qc_disposed : oq_disposed q = true → output_content q = [];
}.

(** A text that is pending is being written or scheduled. *)
Record output_ok (q : TerminalOutputQueue) : Prop := {
  qo_core : output_core q;
  qo_live : output_content q ≠ [] → oq_writing q = true ∨ is_Some (oq_scheduledCancel q);
}.

#[local] Ltac output_cbn :=
  cbn [oq_set_schedule oq_set_chunks oq_set_write oq_set_disposed oq_chunkIndex oq_chunks oq_pendingChars oq_schedules
       oq_scheduledCancel oq_writing oq_disposed oq_completed oq_written].

Lemma pending_zero q : output_core q → (oq_pendingChars q =? 0)%Z = true ↔ output_content q = [].
Proof.
  intros []. rewrite Z.eqb_eq, qc_pending0. destruct (output_content q); cbn; split; intros; try done; lia.
Qed.

Lemma scheduleNext_abs q : output_core q → output_abs (scheduleNext q) = spec_schedule (output_abs q).
Proof.
  intros Hq. pose proof (pending_zero q Hq) as Hz. unfold scheduleNext, spec_schedule. cbn [output_abs os_disposed os_writing os_pending os_due].
  assert (bool_decide (output_content q = []) = (oq_pendingChars q =? 0)%Z) as ->.
  { case_bool_decide as Hc; [by rewrite (proj2 Hz Hc)|]. symmetry. apply not_true_iff_false. by rewrite Hz. }
  destruct (_ || _); [done|]. unfold output_abs. cbn. rewrite length_app. cbn. by rewrite Nat.add_1_r.
Qed.

Lemma scheduleNext_ok q : output_core q → output_ok (scheduleNext q).
Proof.
  intros Hq. pose proof (pending_zero q Hq) as Hz. unfold scheduleNext.
  destruct (_ || _) eqn:Hg.
  - constructor; [done|]. intros Hne. apply orb_true_iff in Hg as [Hg|Hs%bool_decide_eq_true]; [|by right].
    apply orb_true_iff in Hg as [Hg|Hg]; [|by apply Hz in Hg].
    apply orb_true_iff in Hg as [Hd|Hw]; [|by left]. by apply qc_disposed in Hd.
  - apply orb_false_iff in Hg as [Hg Hs%bool_decide_eq_false]. apply orb_false_iff in Hg as [Hg Hp].
    apply orb_false_iff in Hg as [Hd Hw]. apply eq_None_not_Some in Hs.
    constructor; [|right; cbn; eauto]. destruct Hq. constructor; output_cbn; try done.
    + intros k. split.
      * intros [Hk|[Hge Hk]]%lookup_app_Some; [apply qc_schedules0 in Hk; congruence|].
        apply list_lookup_singleton_Some in Hk as [Hk _]. f_equal. lia.
      * intros [= <-]. by rewrite lookup_app_r, Nat.sub_diag.
    + intros _. split_and!; [done..|]. intros He. rewrite <- Hz in He. congruence.
Qed.

(** A queue that is live has nothing to schedule. *)
Lemma spec_schedule_live q : output_ok q → spec_schedule (output_abs q) = output_abs q.
Proof.
  intros Hq. unfold spec_schedule. destruct (_ || _) eqn:Hg; [done|].
  apply orb_false_iff in Hg as [Hg Hs%bool_decide_eq_false]. apply orb_false_iff in Hg as [Hg Hp%bool_decide_eq_false].
  apply orb_false_iff in Hg as [_ Hw]. cbn in *. destruct (qo_live _ Hq Hp); [congruence|done].
Qed.

Lemma enqueue_ok data q :
  output_ok q → output_ok (output_enqueue data q) ∧
  output_abs (output_enqueue data q) = if oq_disposed q then output_abs q else spec_enqueue data (output_abs q).
Proof.
  intros Hq. unfold output_enqueue. destruct (oq_disposed q) eqn:Hd; cbn [orb]; [done|].
  case_bool_decide as Hne.
  { split; [done|]. subst data. unfold spec_enqueue. rewrite app_nil_r. symmetry. by apply spec_schedule_live. }
  set (q1 := oq_set_chunks _ _ _ q). destruct Hq as [Hcore _].
  assert (output_content q1 = output_content q ++ data) as Hc.
  { unfold q1, output_content. output_cbn. rewrite drop_app_le by apply Hcore. rewrite concat_app. cbn. by rewrite app_nil_r. }
  assert (output_core q1) as Hcore1.
  { destruct Hcore. constructor; try done.
    + unfold q1. output_cbn. rewrite length_app. lia.
    + unfold q1. output_cbn. rewrite drop_app_le by done. apply Forall_app. split; [done|]. by apply Forall_singleton.
    + rewrite Hc, length_app. unfold q1. output_cbn. lia.
    + unfold q1 at 1 2 3. output_cbn. rewrite Hc. intros (? & ? & ?)%qc_idle0. split_and!; [done..|].
      by intros [? ?]%app_eq_nil.
    + unfold q1 at 1. output_cbn. congruence. }
  split; [by apply scheduleNext_ok|]. rewrite scheduleNext_abs by done. unfold output_abs at 1. by rewrite Hc.
Qed.

Lemma clear_ok q :
  output_core q → output_ok (output_clear q) ∧
  output_abs (output_clear q) = spec_clear (output_abs q).
Proof.
  intros []. unfold output_clear. destruct (oq_scheduledCancel q) as [k|] eqn:Ek.
  - split; [|by unfold output_abs, spec_clear; cbn; rewrite length_insert]. constructor; [|done]. constructor; output_cbn; try done; try apply Forall_nil_2; try by intros [].
    intros j. split; [|done]. intros [(-> & [=] & _)|[Hne Hj]]%list_lookup_insert_Some.
    apply qc_schedules0 in Hj. congruence.
  - split; [|by unfold output_abs, spec_clear; cbn; rewrite Ek]. constructor; [|done].
    constructor; output_cbn; try done; try apply Forall_nil_2; rewrite ?Ek; try by intros [].
Qed.

(** The queue is disposed of with nothing left in it. *)
Lemma clear_disposed_ok q :
  output_core (output_clear q) → oq_disposed q = false →
  output_ok (output_clear (oq_set_disposed q)) ∧
  output_abs (output_clear (oq_set_disposed q)) = spec_dispose (output_abs q).
Proof.
  intros Hcore Hd.
  assert (output_clear (oq_set_disposed q) = oq_set_disposed (output_clear q)) as ->
    by (unfold output_clear; output_cbn; by destruct (oq_scheduledCancel q)).
  assert (oq_scheduledCancel (output_clear q) = None ∧ output_content (output_clear q) = [] ∧
    oq_writing (output_clear q) = oq_writing q ∧ oq_written (output_clear q) = oq_written q ∧
    length (oq_schedules (output_clear q)) = length (oq_schedules q)) as (Hs & Hc & Hw & Hn & Hl)
    by (unfold output_clear; destruct (oq_scheduledCancel q) eqn:E; output_cbn; by rewrite ?E, ?length_insert).
  split.
  - constructor; [|intros Hne; by destruct (Hne Hc)]. destruct Hcore. constructor; output_cbn; try done. rewrite Hs. by intros [].
  - unfold output_abs. change (output_content (oq_set_disposed ?x)) with (output_content x).
    output_cbn. by rewrite Hc, Hw, Hn, Hs, Hl.
Qed.

Lemma dispose_ok q :
  output_ok q → output_ok (output_dispose q) ∧ output_abs (output_dispose q) = spec_dispose (output_abs q).
Proof.
  intros Hq. unfold output_dispose. destruct (clear_ok q (qo_core q Hq)) as [[Hcore _] _].
  destruct (oq_disposed q) eqn:Hd; [|by apply clear_disposed_ok].
  assert (oq_set_disposed q = q) as -> by (destruct q; cbn in *; by subst).
  destruct (clear_ok q (qo_core q Hq)) as [Hok ->]. split; [done|]. unfold spec_clear, spec_dispose. cbn. by rewrite Hd.
Qed.

Lemma onParsed_ok n q :
  output_core q → (output_content q ≠ [] → oq_writing q = true ∨ is_Some (oq_scheduledCancel q)) →
  output_ok (onParsed n q) ∧
  output_abs (onParsed n q) =
    if decide (oq_completed q !! n = Some false) then spec_parse (output_abs q) else output_abs q.
Proof.
  intros Hcore Hlive. unfold onParsed. destruct (oq_completed q !! n) as [[]|] eqn:En.
  1,3: by rewrite decide_False.
  rewrite decide_True by done. set (q1 := oq_set_write _ _ _ q).
  assert (output_core q1) as Hcore1; [|split; [by apply scheduleNext_ok|by rewrite scheduleNext_abs]].
  unfold q1. destruct Hcore. apply qc_writes0 in En as [Hw Hn].
  constructor; output_cbn; try done.
  - intros [Hno _]%qc_idle0. congruence.
  - intros m. split; [|by intros []]. intros [(-> & [=] & _)|[Hne Hm]]%list_lookup_insert_Some.
    apply qc_writes0 in Hm as [_ Hm]. lia.
  - by rewrite length_insert.
Qed.

(** Taking a batch cuts the content. *)
Lemma takeBatch_spec q :
  output_core q → output_content q ≠ [] →
  ∃ batch chunks index pending, takeBatch maxBatchChars q = (batch, oq_set_chunks chunks index pending q) ∧
    output_content q = batch ++ concat (drop index chunks) ∧ batch ≠ [] ∧ length batch ≤ maxBatchChars ∧
    longest_batch maxBatchChars batch (concat (drop index chunks)) ∧
    index ≤ length chunks ∧ Forall (λ c, c ≠ []) (drop index chunks) ∧
    pending = Z.of_nat (length (concat (drop index chunks))) ∧
    (Forall (λ c, well_formed c = true) (drop (oq_chunkIndex q) (oq_chunks q)) →
      well_formed batch = true ∧ Forall (λ c, well_formed c = true) (drop index chunks)).
Proof.
  intros [] Hne. unfold takeBatch.
  destruct (take_loop_spec (length (oq_chunks q) - oq_chunkIndex q + 2) (oq_chunks q) (oq_chunkIndex q) maxBatchChars [])
    as (taken & chunks & index & -> & []); [lia|done|done|]. cbn [app].
  fold (output_content q) in tr_content0. set (rest := drop index chunks) in *.
  assert (concat taken ≠ []) as Hb.
  { intros Hb. rewrite Hb in *. cbn in *. destruct tr_maximal0 as [Hr|[|[]]]; [|lia..]. rewrite Hr in tr_content0. by apply Hne. }
  assert (oq_pendingChars q - Z.of_nat (length (concat taken)) = Z.of_nat (length (concat rest)))%Z as Hp
    by (rewrite qc_pending0, <- tr_content0, length_app; lia).
  assert (Forall (λ c, well_formed c = true) (drop (oq_chunkIndex q) (oq_chunks q)) →
    well_formed (concat taken) = true ∧ Forall (λ c, well_formed c = true) rest) as Hwf.
  { intros [H1 H2]%tr_well_formed0. split; [by apply well_formed_concat|done]. }
  assert (∀ chunks' index', drop index' chunks' = rest → index' ≤ length chunks' →
    ∃ batch c i pending, (concat taken, oq_set_chunks chunks' index' (oq_pendingChars q - Z.of_nat (length (concat taken))) q) =
      (batch, oq_set_chunks c i pending q) ∧
    output_content q = batch ++ concat (drop i c) ∧ batch ≠ [] ∧ length batch ≤ maxBatchChars ∧
    longest_batch maxBatchChars batch (concat (drop i c)) ∧
    i ≤ length c ∧ Forall (λ x, x ≠ []) (drop i c) ∧ pending = Z.of_nat (length (concat (drop i c))) ∧
    (Forall (λ x, well_formed x = true) (drop (oq_chunkIndex q) (oq_chunks q)) →
      well_formed batch = true ∧ Forall (λ x, well_formed x = true) (drop i c))) as Hgen.
  { intros c i Hd Hi. eexists _, c, i, _. split; [done|]. rewrite Hd. split_and!; try done.
    unfold longest_batch. rewrite tr_content0. destruct tr_maximal0 as [Hr|]; [left; by rewrite Hr|by right]. }
  destruct (index =? length chunks) eqn:Hi; [apply Nat.eqb_eq in Hi|].
  - apply Hgen; [|done]. symmetry. apply drop_ge. lia.
  - destruct (64 <=? index); apply Hgen; [done|cbn; lia|done|done].
Qed.

Lemma flush_ok outcome q :
  output_core q → oq_scheduledCancel q = None → (output_content q ≠ [] → oq_disposed q = false ∧ oq_writing q = false) →
  output_content q ≠ [] →
  ∃ batch rest, output_content q = batch ++ rest ∧ batch ≠ [] ∧ length batch ≤ maxBatchChars ∧
    longest_batch maxBatchChars batch rest ∧
    output_ok (flushNext maxBatchChars outcome q) ∧
    output_abs (flushNext maxBatchChars outcome q) = spec_write batch rest outcome (output_abs q).
Proof.
  intros Hq Hs Hidle Hne. destruct (Hidle Hne) as [Hd Hw].
  destruct (takeBatch_spec q Hq Hne) as (batch & chunks & index & pending & Htake & Hcut & Hb & Hlen & Hmaxl & Hi & Hc & Hp & _).
  exists batch, (concat (drop index chunks)). do 4 (split; [done|]). unfold flushNext.
  assert ((oq_pendingChars q =? 0)%Z = false) as Hz
    by (apply not_true_iff_false; rewrite pending_zero by done; done).
  rewrite Hd, Hw, Hz. cbn [orb]. rewrite Htake. output_cbn.
  set (q1 := oq_set_write true _ _ _).
  assert (output_core q1 ∧ output_content q1 = concat (drop index chunks)) as [Hcore Hq1].
  { split; [|done]. destruct Hq. constructor; unfold q1; output_cbn; try done.
    - rewrite Hs. by intros [].
    - intros n. rewrite length_app. cbn. split.
      + intros [Hn|[Hge Hn]]%lookup_app_Some; [by apply qc_writes0 in Hn as [? _]; congruence|].
        apply list_lookup_singleton_Some in Hn as [Hn _]. split; [done|lia].
      + intros [_ Hn]. assert (n = length (oq_completed q)) as -> by lia. by rewrite lookup_app_r, Nat.sub_diag.
    - by intros _ [_ ?]%app_eq_nil.
    - rewrite !length_app. cbn. lia.
    - congruence. }
  set (n := length (oq_completed q)).
  assert (oq_completed q1 !! n = Some false) as Hn.
  { unfold q1, n. output_cbn. by rewrite lookup_app_r, Nat.sub_diag. }
  assert (output_abs q1 = mkSpec (concat (drop index chunks)) true (oq_disposed q) (oq_written q ++ [batch]) None
    (length (oq_schedules q))) as Habs1 by (unfold output_abs; rewrite Hq1; unfold q1; output_cbn; by rewrite Hs).
  destruct (onParsed_ok n q1 Hcore) as [Hok2 Habs2]; [by left|]. rewrite decide_True in Habs2 by done.
  set (q2 := if wo_sync outcome then onParsed n q1 else q1).
  assert (output_ok q2 ∧ output_abs q2 = if wo_sync outcome then spec_parse (output_abs q1) else output_abs q1) as [Hok Habs].
  { unfold q2. destruct (wo_sync outcome); [done|]. split; [constructor; [done|by left]|done]. }
  unfold spec_write. cbn [output_abs os_disposed os_written os_scheduled]. rewrite <- Habs1, <- Habs.
  destruct (wo_throws outcome); [|done].
  assert (oq_written q2 = oq_written q ++ [batch]) as Ha4.
  { apply (f_equal os_written) in Habs. rewrite Habs1 in Habs. change (oq_written q2) with (os_written (output_abs q2)).
    rewrite Habs. destruct (wo_sync outcome); [|done]. unfold spec_parse, spec_schedule. by destruct (_ || _). }
  set (q3 := oq_set_write false (<[n := true]> (oq_completed q2)) (oq_written q2) q2).
  assert (output_core (output_clear (oq_set_disposed q3))) as Hcore3.
  { destruct Hok as [[] _].
    assert (∀ m, <[n := true]> (oq_completed q2) !! m ≠ Some false) as Hno.
    { intros m [(_ & [=] & _)|[Hne' Hm]]%list_lookup_insert_Some. apply qc_writes0 in Hm as [_ Hm].
      assert (length (oq_completed q2) = S n) as Hl; [|lia].
      rewrite <- qc_written0, Ha4, length_app, (qc_written _ Hq). cbn. unfold n. lia. }
    unfold output_clear, q3. output_cbn. destruct (oq_scheduledCancel q2) as [k|] eqn:Ek;
      constructor; output_cbn; try done; try apply Forall_nil_2; rewrite ?Ek; try (by intros []);
      try (intros m; split; [intros Hm; by apply Hno in Hm|by intros []]); rewrite ?length_insert; try done.
    intros j. split; [|done]. intros [(-> & [=] & _)|[Hnej Hj]]%list_lookup_insert_Some.
    apply qc_schedules0 in Hj. congruence. }
  split; [constructor; [done|]|]; unfold output_clear, q3; output_cbn; destruct (oq_scheduledCancel q2) eqn:Ek; try by intros [].
  - unfold output_abs. cbn. by rewrite length_insert.
  - unfold output_abs. cbn. by rewrite Ek.
Qed.

Lemma schedule_run_ok k outcome q :
  output_ok q →
  output_ok (schedule_run maxBatchChars k outcome q) ∧
  (oq_scheduledCancel q ≠ Some k ∧ schedule_run maxBatchChars k outcome q = q ∨
   oq_scheduledCancel q = Some k ∧ oq_writing q = false ∧ oq_disposed q = false ∧
   ∃ batch rest, output_content q = batch ++ rest ∧ batch ≠ [] ∧ length batch ≤ maxBatchChars ∧
    longest_batch maxBatchChars batch rest ∧
    output_abs (schedule_run maxBatchChars k outcome q) = spec_write batch rest outcome (output_abs q)).
Proof.
  intros Hq. pose proof (qo_core q Hq) as Hcore. unfold schedule_run.
  destruct (oq_schedules q !! k) as [[]|] eqn:Ek.
  2,3: split; [done|left; split; [|done]]; intros Hk; apply (qc_schedules _ Hcore) in Hk; congruence.
  apply (qc_schedules _ Hcore) in Ek. destruct (qc_idle _ Hcore) as (Hw & Hd & Hne); [eauto|].
  set (q1 := oq_set_schedule None _ q).
  destruct (flush_ok outcome q1) as (batch & rest & Hcut & Hb & Hlen & Hmx & Hok & Habs); [|done..|].
  { destruct Hcore. constructor; unfold q1; output_cbn; try done.
    intros j. split; [|done]. intros [(-> & [=] & _)|[Hnej Hj]]%list_lookup_insert_Some.
    apply qc_schedules0 in Hj. congruence. }
  split; [done|]. right. do 3 (split; [done|]). exists batch, rest. do 4 (split; [done|]).
  rewrite Habs. unfold spec_write, q1. cbn. by rewrite length_insert.
Qed.

Lemma output_step_ok q e :
  output_ok q → output_ok (output_step maxBatchChars q e) ∧
  output_spec maxBatchChars (output_abs q) e (output_abs (output_step maxBatchChars q e)).
Proof.
  intros Hq. destruct e as [data| | |k outcome|n]; cbn [output_step].
  - destruct (enqueue_ok data q Hq) as [Hok ->]. split; [done|]. destruct (oq_disposed q) eqn:Hd; by constructor.
  - destruct (clear_ok q (qo_core q Hq)) as [Hok ->]. split; [done|]. constructor.
  - destruct (dispose_ok q Hq) as [Hok ->]. split; [done|]. constructor.
  - destruct (schedule_run_ok k outcome q Hq) as [Hok [[? ->]|(? & Hw & Hd & batch & rest & Hcut & Hb & Hlen & Hmx & ->)]].
    + split; [done|]. by apply step_stale_run.
    + split; [done|]. by apply step_write with (k := k).
  - destruct (onParsed_ok n q (qo_core q Hq) (qo_live q Hq)) as [Hok ->]. split; [done|].
    assert (oq_completed q !! n = Some false ↔ in_flight n (output_abs q)) as Hn.
    { rewrite (qc_writes _ (qo_core q Hq)). unfold in_flight. cbn. by rewrite (qc_written _ (qo_core q Hq)). }
    case_decide as Hd; [apply step_parsed|apply step_stale_parsed]; by rewrite <- Hn.
Qed.

Lemma output_run_ok events : output_ok (output_run maxBatchChars events).
Proof.
  unfold output_run. assert (output_ok (mkOutput [] 0 false 0 None false [] [] [])) as H0.
  { constructor; [|done]. constructor; cbn; try done; try apply Forall_nil_2; try (by intros []). by intros n; split; [|intros []]. }
  revert H0. generalize (mkOutput [] 0 false 0 None false [] [] []). induction events as [|e es IH]; intros q Hq; [done|].
  cbn. apply IH. by apply output_step_ok.
Qed.

(** ** Lemmas: text *)

(** The chunks that wait and the batches that were written are well-formed. *)
Definition output_text_ok (q : TerminalOutputQueue) : Prop :=
  Forall (λ c, well_formed c = true) (drop (oq_chunkIndex q) (oq_chunks q)) ∧
  Forall (λ c, well_formed c = true) (oq_written q).

Lemma scheduleNext_text q : output_text_ok q → output_text_ok (scheduleNext q).
Proof. unfold scheduleNext. by destruct (_ || _). Qed.

Lemma clear_text q : Forall (λ c, well_formed c = true) (oq_written q) → output_text_ok (output_clear q).
Proof. unfold output_clear. destruct (oq_scheduledCancel q); by split; [apply Forall_nil_2|]. Qed.

Lemma parsed_text n q : output_text_ok q → output_text_ok (onParsed n q).
Proof.
  intros Hq. unfold onParsed. destruct (oq_completed q !! n) as [[]|]; try done. by apply scheduleNext_text.
Qed.

Lemma output_step_text q e :
  output_ok q → (∀ data, e = OutEnqueue data → well_formed data = true) → output_text_ok q →
  output_text_ok (output_step maxBatchChars q e).
Proof.
  intros Hq He [Hc Hw]. destruct e as [data| | |k outcome|n]; cbn [output_step].
  - unfold output_enqueue. destruct (_ || _); [done|]. apply scheduleNext_text. split; [|done]. cbn.
    rewrite drop_app_le by apply Hq. apply Forall_app. split; [done|]. apply Forall_singleton. by apply He.
  - by apply clear_text.
  - by apply clear_text.
  - unfold schedule_run. destruct (oq_schedules q !! k) as [[]|] eqn:Ek; try done.
    set (q1 := oq_set_schedule None _ q). unfold flushNext. destruct (_ || _) eqn:Hg; [done|].
    apply orb_false_iff in Hg as [_ Hz].
    assert (output_core q1) as Hcore1.
    { destruct Hq as [[] _]. apply qc_schedules0 in Ek. constructor; unfold q1; output_cbn; try done.
      intros j. split; [|done]. intros [(-> & [=] & _)|[Hnej Hj]]%list_lookup_insert_Some.
      apply qc_schedules0 in Hj. congruence. }
    assert (output_content q1 ≠ []) as Hne by (intros Hne; apply (pending_zero q1 Hcore1) in Hne; congruence).
    destruct (takeBatch_spec q1 Hcore1 Hne) as (batch & chunks & index & pending & -> & _ & _ & _ & _ & _ & _ & _ & Hwf).
    destruct (Hwf Hc) as [Hb Hrest]. cbv zeta.
    set (q2 := oq_set_write true _ _ _).
    assert (output_text_ok q2) as H2.
    { split; [done|]. apply Forall_app. split; [done|]. by apply Forall_singleton. }
    set (q3 := if wo_sync outcome then _ else q2).
    assert (output_text_ok q3) as H3 by (unfold q3; destruct (wo_sync outcome); [by apply parsed_text|done]).
    destruct (wo_throws outcome); [|done]. apply clear_text. apply H3.
  - by apply parsed_text.
Qed.

(** ** Properties *)

(** A batch never tears a character. When every chunk that arrives is well-formed
    UTF-16, so is every batch that is written. *)
Theorem output_batches_well_formed events :
  (∀ data, OutEnqueue data ∈ events → well_formed data = true) →
  Forall (λ batch, well_formed batch = true) (oq_written (output_run maxBatchChars events)).
Proof.
  intros He. assert (output_text_ok (output_run maxBatchChars events)) as [_ H]; [|done].
  induction events as [|e es IH] using rev_ind; [by split; apply Forall_nil_2|].
  unfold output_run. rewrite foldl_app. cbn. apply output_step_text; [apply output_run_ok| |].
  - intros data ->. apply He, elem_of_app. right. left.
  - apply IH. intros data Hd. apply He, elem_of_app. by left.
Qed.

(** C22: the output queue against its specification. Every operation of the queue, with
    its chunks, index, callbacks and flags, does what the specification says of a text
    that is pending, and the specification leaves it nothing to choose: data is appended;
    when text waits and no write is in flight exactly one run is due; that run, and no
    other, writes the longest prefix the limit allows (one unit less only where the limit
    falls inside a surrogate pair) and is then in flight; only the callback of the write
    in flight ends it, and makes the next run due; clearing drops what is pending and the
    run, disposing stops the queue. So nothing is lost, repeated or reordered, writes
    never overlap, text that is pending is always being written or due, and when every
    chunk that arrived is well-formed UTF-16, so is every batch written. *)
Theorem output_refines_spec events event :
  let q := output_run maxBatchChars events in
  output_spec maxBatchChars (output_abs q) event (output_abs (output_run maxBatchChars (events ++ [event]))) ∧
  (os_pending (output_abs q) ≠ [] → os_writing (output_abs q) = true ∨ is_Some (os_due (output_abs q))) ∧
  (∀ k, oq_schedules q !! k = Some true ↔ os_due (output_abs q) = Some k) ∧
  ((∀ data, OutEnqueue data ∈ events → well_formed data = true) →
    Forall (λ batch, well_formed batch = true) (os_written (output_abs q))).
Proof.
  cbv zeta. pose proof (output_run_ok events) as Hq.
  split; [|split; [apply Hq|split; [apply Hq|apply output_batches_well_formed]]].
  unfold output_run. rewrite foldl_app. cbn. by apply output_step_ok.
Qed.

(** The output never stalls. While text is pending and the queue is not disposed of,
    either the last write is still to be parsed, and its callback resumes the queue, or
    exactly one run is scheduled, and running it writes at least one unit; and what is
    pending is what the counter says. *)
Theorem output_never_stalls events :
  let q := output_run maxBatchChars events in
  oq_pendingChars q = Z.of_nat (length (output_content q)) ∧
  (oq_disposed q = true → output_content q = [] ∧ oq_scheduledCancel q = None) ∧
  (output_content q ≠ [] →
    (∃ n, oq_completed q !! n = Some false ∧ is_Some (oq_scheduledCancel (onParsed n q))) ∨
    (∃ k, (∀ j, oq_schedules q !! j = Some true ↔ j = k) ∧
      ∀ outcome, length (output_content (schedule_run maxBatchChars k outcome q)) < length (output_content q))).
Proof.
  cbv zeta. pose proof (output_run_ok events) as Hq. revert Hq. generalize (output_run maxBatchChars events). intros q Hq.
  pose proof Hq as [Hcore Hlive]. split_and!; [apply Hcore| |].
  - intros Hd. split; [by apply Hcore|]. apply eq_None_not_Some. intros Hs. apply (qc_idle _ Hcore) in Hs as (_ & ? & _). congruence.
  - intros Hne. destruct (Hlive Hne) as [Hw|[k Hk]].
    + left. exists (length (oq_completed q) - 1). pose proof (qc_nonempty _ Hcore Hw) as Hn.
      assert (oq_completed q !! (length (oq_completed q) - 1) = Some false) as Hl.
      { apply (qc_writes _ Hcore). split; [done|]. destruct (oq_completed q); [done|cbn; lia]. }
      split; [done|]. unfold onParsed. rewrite Hl. unfold scheduleNext. output_cbn.
      assert (oq_disposed q = false) as -> by (apply not_true_iff_false; intros ?%(qc_disposed _ Hcore); done).
      assert ((oq_pendingChars q =? 0)%Z = false) as -> by (apply not_true_iff_false; by rewrite pending_zero).
      assert (oq_scheduledCancel q = None) as ->; [|by cbn; eauto].
      apply eq_None_not_Some. intros (? & _)%(qc_idle _ Hcore). congruence.
    + right. exists k. split.
      * intros j. rewrite (qc_schedules _ Hcore), Hk. naive_solver.
      * intros outcome. destruct (schedule_run_ok k outcome q Hq) as [_ [[? _]|(_ & _ & _ & batch & rest & Hcut & Hb & _ & _ & Habs)]];
          [congruence|]. apply (f_equal os_pending) in Habs. rewrite spec_write_pending in Habs. cbn in Habs. rewrite Habs, Hcut, length_app.
        destruct batch; [done|]. destruct (wo_throws outcome); cbn; lia.
Qed.
End queue.

(** A pair in the middle, a limit of three, and a write that is parsed late. *)
Definition output_sample : list OutputEvent :=
  [OutEnqueue [1; 2; 0xd83d; 0xde00; 5]%Z; OutRun 0 (mkOutcome false false); OutEnqueue [6]%Z; OutParsed 0;
   OutRun 1 (mkOutcome true false)].

Lemma output_refines_spec_witness :
  2 ≤ 3 ∧
  output_spec 3 (mkSpec [0xd83d; 0xde00; 5; 6]%Z false false [[1; 2]%Z] (Some 1) 2) (OutRun 1 (mkOutcome true false))
    (mkSpec [6]%Z false false [[1; 2]; [0xd83d; 0xde00; 5]]%Z (Some 2) 3) ∧
  Forall (λ batch, well_formed batch = true) [[1; 2]]%Z.
Proof.
  assert (2 ≤ 3) as H by lia. split; [exact H|].
  destruct (output_refines_spec 3 H (take 4 output_sample) (OutRun 1 (mkOutcome true false))) as (Hstep & _ & _ & Hwf).
  split; [exact Hstep|]. refine (Hwf _). intros data Hd.
  assert (Forall (λ e, match e with OutEnqueue d => well_formed d = true | _ => True end) (take 4 output_sample)) as Hall
    by repeat constructor.
  rewrite Forall_forall in Hall. exact (Hall _ Hd).
Defined.

Lemma output_batches_well_formed_witness :
  Forall (λ batch, well_formed batch = true) [[1; 2]; [0xd83d; 0xde00; 5]]%Z.
Proof.
  assert (2 ≤ 3) as H by lia.
  refine (output_batches_well_formed 3 H output_sample _).
  intros data Hd.
  assert (Forall (λ e, match e with OutEnqueue d => well_formed d = true | _ => True end) output_sample) as Hall
    by repeat constructor.
  rewrite Forall_forall in Hall. exact (Hall _ Hd).
Defined.

Lemma output_never_stalls_witness :
  oq_pendingChars (output_run 3 output_sample) = 1%Z ∧ length (output_content (output_run 3 output_sample)) = 1.
Proof.
  assert (2 ≤ 3) as H by lia. destruct (output_never_stalls 3 H output_sample) as [Hp _].
  split; [vm_compute; reflexivity|]. apply Nat2Z.inj. rewrite <- Hp. vm_compute. reflexivity.
Defined.
