(* ===== verification/RemotePaths.v ===== *)
(** * Remote paths ([features/files/remoteFilePaths.ts])

    Normal form, parent, ancestors and the descendant test of remote paths. A path is a
    list of characters; [trim] removes the ASCII white space of JavaScript's. *)

From S2P Require Import Prelude.
From Stdlib Require Import Lia Strings.Ascii.

#[local] Open Scope nat_scope.

Abbreviation chars := (list ascii).

Definition slash : ascii := "/"%char.
Definition backslash : ascii := "\"%char.

(** ** String primitives *)

Definition is_space (c : ascii) : bool :=
  let n := nat_of_ascii c in (n =? 32) || ((9 <=? n) && (n <=? 13)).

Fixpoint trim_start (s : chars) : chars :=
  match s with
  | c :: s' => if is_space c then trim_start s' else s
  | [] => []
  end.

Definition trim_end (s : chars) : chars := rev (trim_start (rev s)).

Definition js_trim (s : chars) : chars := trim_end (trim_start s).

(** [s.trim()] of a string. *)
Definition trim_string (s : string) : string := String.string_of_list_ascii (js_trim (String.list_ascii_of_string s)).

(** [replace(/\/+/g, "/")]. *)
Fixpoint collapse (s : chars) : chars :=
  match s with
  | c :: (d :: _) as s' => if bool_decide (c = slash ∧ d = slash) then collapse s' else c :: collapse s'
  | [c] => [c]
  | [] => []
  end.

(** [replace(/\/$/, "")]. *)
Definition drop_slash (s : chars) : chars :=
  match rev s with
  | c :: r => if decide (c = slash) then rev r else s
  | [] => []
  end.

(** [split("/").filter(Boolean)]: the non-empty segments. *)
Fixpoint segments_from (acc : chars) (s : chars) : list chars :=
  match s with
  | [] => if decide (acc = []) then [] else [acc]
  | c :: s' =>
      if decide (c = slash)
      then if decide (acc = []) then segments_from [] s' else acc :: segments_from [] s'
      else segments_from (acc ++ [c]) s'
  end.

Definition segments (s : chars) : list chars := segments_from [] s.

(** ** Paths *)

Definition normalizeRemotePath (path : option chars) : chars :=
  let s := match path with Some (c :: s) => c :: s | _ => [slash] end in
  let normalized := collapse ((λ c, if decide (c = backslash) then slash else c) <$> js_trim s) in
  if decide (normalized = []) then [slash]
  else if decide (normalized = [slash]) then [slash]
  else drop_slash normalized.

(** [slice(0, lastIndexOf("/"))]: without any slash the index is -1, which drops the
    last character. *)
Fixpoint until_last_slash (s : chars) : option chars :=
  match s with
  | [] => None
  | c :: s' =>
      match until_last_slash s' with
      | Some p => Some (c :: p)
      | None => if decide (c = slash) then Some [] else None
      end
  end.

Definition remotePathParent (path : option chars) : chars :=
  let normalizedPath := normalizeRemotePath path in
  if decide (normalizedPath = [slash]) then [slash]
  else
    let parentPath := default (removelast normalizedPath) (until_last_slash normalizedPath) in
    if decide (parentPath = []) then [slash] else parentPath.

Fixpoint join_segments (segs : list chars) : chars :=
  match segs with
  | [] => []
  | [s] => s
  | s :: rest => s ++ slash :: join_segments rest
  end.

Definition remotePathAncestors (path : option chars) : list chars :=
  let normalizedPath := normalizeRemotePath path in
  if decide (normalizedPath = [slash]) then []
  else
    let segs := segments normalizedPath in
    imap (λ index _, if decide (index = 0) then [slash] else slash :: join_segments (take index segs)) segs.

Definition isRemotePathStrictDescendant (path ancestor : option chars) : bool :=
  let normalizedPath := normalizeRemotePath path in
  let normalizedAncestor := normalizeRemotePath ancestor in
  if decide (normalizedPath = normalizedAncestor) then false
  else if decide (normalizedAncestor = [slash]) then bool_decide (normalizedPath ≠ [slash])
  else bool_decide (take (S (length normalizedAncestor)) normalizedPath = normalizedAncestor ++ [slash]).

(** ** Normal forms *)

Definition no_double_slash (s : chars) : Prop := ∀ i, s !! i = Some slash → s !! S i ≠ Some slash.

Record path_ok (s : chars) : Prop := {
  pa_nonempty : s ≠ [];
  pa_slashes : no_double_slash s;
  pa_backslash : backslash ∉ s;
  pa_end : s = [slash] ∨ last s ≠ Some slash;
}.

Lemma collapse_elem x s : x ∈ collapse s ↔ x ∈ s.
Proof.
  induction s as [|c [|d s] IH]; [done..|]. cbn [collapse] in *. case_bool_decide as Hcd.
  - destruct Hcd as [-> ->]. rewrite IH. set_solver.
  - rewrite !elem_of_cons, IH, elem_of_cons. done.
Qed.

Lemma collapse_head c s : head (collapse (c :: s)) = Some c.
Proof.
  revert c. induction s as [|d s IH]; intros c; [done|]. cbn [collapse]. case_bool_decide as Hcd; [|done].
  destruct Hcd as [-> ->]. apply IH.
Qed.

Lemma collapse_double s : no_double_slash (collapse s).
Proof.
  induction s as [|c [|d s] IH]; [by intros []| |].
  - by intros [|[]].
  - cbn [collapse]. case_bool_decide as Hcd; [exact IH|]. intros [|i]; [|apply IH].
    intros [= ->] Hd. apply Hcd. split; [done|].
    change (collapse (d :: s) !! 0 = Some slash) in Hd. rewrite <- head_lookup, collapse_head in Hd. by injection Hd.
Qed.

Lemma drop_slash_spec s :
  (∃ r, s = r ++ [slash] ∧ drop_slash s = r) ∨ (last s ≠ Some slash ∧ drop_slash s = s).
Proof.
  unfold drop_slash. destruct s as [|c s _] using rev_ind; [by right|]. rewrite rev_unit, rev_involutive, last_snoc.
  case_decide as Hc; [left; subst; eauto|right]. split; [congruence|done].
Qed.

(** The result is in normal form, whatever the path. *)
Lemma normalize_ok path : path_ok (normalizeRemotePath path).
Proof.
  assert (path_ok [slash]) as Hroot.
  { constructor; [done|by intros [|[]]| |by left]. by intros ?%list_elem_of_singleton. }
  unfold normalizeRemotePath. set (s := collapse _). case_decide as Hnil; [done|]. case_decide as Hs; [done|].
  assert (no_double_slash s) as Hd by apply collapse_double.
  assert (backslash ∉ s) as Hb.
  { unfold s. rewrite collapse_elem. intros (c & Hc & _)%list_elem_of_fmap. by case_decide. }
  destruct (drop_slash_spec s) as [(r & Hr & ->)|[Hl ->]]; [|constructor; auto].
  rewrite Hr in Hd, Hb, Hs. constructor.
  - by intros ->.
  - intros i Hi Hsi. apply (Hd i); apply lookup_app_l_Some; done.
  - intros Hin. apply Hb, elem_of_app. by left.
  - right. rewrite last_lookup. intros Hl. destruct (length r) as [|n] eqn:En; [by apply nil_length_inv in En as ->|].
    cbn in Hl. apply (Hd n).
    + by apply lookup_app_l_Some.
    + rewrite lookup_app_r, En, Nat.sub_diag by lia. done.
Qed.

(** A path without slashes at either end or in a row, and without white space at the
    ends, is its own normal form. *)
Lemma collapse_id s : no_double_slash s → collapse s = s.
Proof.
  induction s as [|c [|d s] IH]; intros Hs; [done..|]. cbn [collapse]. rewrite bool_decide_false.
  - f_equal. apply IH. intros i. apply (Hs (S i)).
  - intros [-> ->]. by apply (Hs 0).
Qed.

Lemma normalize_id s : path_ok s → js_trim s = s → normalizeRemotePath (Some s) = s.
Proof.
  intros [Hne Hd Hb He] Ht. unfold normalizeRemotePath.
  assert ((match s with c :: s' => c :: s' | [] => [slash] end) = s) as Hs by by destruct s.
  replace (match Some s with Some (c :: s') => c :: s' | _ => [slash] end) with s by by destruct s.
  rewrite Ht.
  assert ((λ c, if decide (c = backslash) then slash else c) <$> s = s) as ->.
  { rewrite <- (list_fmap_id s) at 2. apply list_fmap_ext. intros i c Hc. rewrite decide_False; [done|].
    intros ->. apply Hb. by eapply list_elem_of_lookup_2. }
  rewrite collapse_id by done. rewrite decide_False by done. case_decide as Hr; [done|].
  destruct He as [?|He]; [done|]. destruct (drop_slash_spec s) as [(r & Hr' & _)|[_ ->]]; [|done].
  by rewrite Hr', last_snoc in He.
Qed.

(** ** Paths as lists of segments *)

(** A segment that survives the normal form. *)
Record segment_ok (s : chars) : Prop := {
  sg_nonempty : s ≠ [];
  sg_slash : slash ∉ s;
  sg_backslash : backslash ∉ s;
  sg_end : ∀ c, last s = Some c → is_space c = false;
}.

Definition slashed (segs : list chars) : chars := concat (cons slash <$> segs).

(** The absolute path of a list of segments. *)
Definition path_of (segs : list chars) : chars := match segs with [] => [slash] | _ => slashed segs end.

Lemma slashed_app a b : slashed (a ++ b) = slashed a ++ slashed b.
Proof. unfold slashed. by rewrite fmap_app, concat_app. Qed.

Lemma slashed_snoc a s : slashed (a ++ [s]) = slashed a ++ slash :: s.
Proof. rewrite slashed_app. unfold slashed at 2. cbn. by rewrite app_nil_r. Qed.

Lemma join_slashed segs : segs ≠ [] → slash :: join_segments segs = slashed segs.
Proof.
  induction segs as [|s [|t segs] IH]; intros Hne; [done|unfold slashed; cbn; by rewrite app_nil_r|].
  change (join_segments (s :: t :: segs)) with (s ++ slash :: join_segments (t :: segs)). by rewrite IH.
Qed.

Lemma segments_free acc l s : (slash ∉ l) → segments_from acc (l ++ s) = segments_from (acc ++ l) s.
Proof.
  revert acc. induction l as [|c l IH]; intros acc Hl; [by rewrite app_nil_r|]. apply not_elem_of_cons in Hl as [Hc Hl].
  cbn. rewrite decide_False by congruence. rewrite IH by done. by rewrite <- app_assoc.
Qed.

Lemma segments_slashed acc segs :
  Forall segment_ok segs → segments_from acc (slashed segs) = (if decide (acc = []) then [] else [acc]) ++ segs.
Proof.
  intros Hs. revert acc. induction Hs as [|a segs [Hne Hsl _ _] _ IH]; intros acc; [cbn; by case_decide|].
  unfold slashed. cbn [fmap list_fmap concat app segments_from]. rewrite decide_True by done.
  fold (slashed segs).
  case_decide; rewrite segments_free by done; cbn [app]; by rewrite IH, (decide_False (P := a = [])).
Qed.

Lemma until_last_app a l : (slash ∉ l) → until_last_slash (a ++ slash :: l) = Some a.
Proof.
  intros Hl. assert (until_last_slash l = None) as Hn.
  { induction l as [|c l IH]; [done|]. apply not_elem_of_cons in Hl as [Hc Hl]. cbn. rewrite IH by done.
    by rewrite decide_False by congruence. }
  induction a as [|c a IH]; cbn; [rewrite Hn; by rewrite decide_True|]. by rewrite IH.
Qed.

Lemma slashed_lookup_slash segs i :
  Forall segment_ok segs → slashed segs !! i = Some slash → slashed segs !! S i ≠ Some slash.
Proof.
  intros Hs. revert i. induction Hs as [|a segs [Hne Hsl _ _] _ IH]; intros i; [done|].
  unfold slashed. cbn [fmap list_fmap concat app]. fold (slashed segs).
  destruct i as [|i]; intros Hi Hsi.
  - destruct a as [|c a]; [done|]. injection Hsi as ->. apply Hsl. left.
  - change ((a ++ slashed segs) !! i = Some slash) in Hi. change ((a ++ slashed segs) !! S i = Some slash) in Hsi.
    apply lookup_app_Some in Hi as [Hi|[Hge Hi]]; [by apply list_elem_of_lookup_2 in Hi|].
    rewrite lookup_app_r in Hsi by lia. replace (S i - length a) with (S (i - length a)) in Hsi by lia. by apply (IH _ Hi).
Qed.

Lemma elem_of_slashed x segs : x ∈ slashed segs → x = slash ∨ ∃ s, s ∈ segs ∧ x ∈ s.
Proof.
  induction segs as [|s segs IH]; [by intros ?%not_elem_of_nil|]. unfold slashed. cbn [fmap list_fmap concat app].
  fold (slashed segs). rewrite elem_of_cons, elem_of_app. intros [?|[?|[?|(t & ? & ?)]%IH]]; [by left| |by left|];
    right; eexists; split; try done; [left|by right].
Qed.

Lemma trim_start_head c s : is_space c = false → trim_start (c :: s) = c :: s.
Proof. intros Hc. cbn. by rewrite Hc. Qed.

(** ** Trimming *)

Definition ends_ok (o : option ascii) : Prop := match o with Some c => is_space c = false | None => True end.

Lemma trim_start_suffix s : ∃ w, s = w ++ trim_start s.
Proof.
  induction s as [|c s [w IH]]; [by exists []|]. cbn. destruct (is_space c); [|by exists []].
  exists (c :: w). by rewrite IH at 1.
Qed.

Lemma trim_start_ends s : ends_ok (head (trim_start s)).
Proof. induction s as [|c s IH]; [done|]. cbn. by destruct (is_space c) eqn:E. Qed.

Lemma trim_start_id s : ends_ok (head s) → trim_start s = s.
Proof. destruct s as [|c s]; [done|]. cbn. by intros ->. Qed.

Lemma trim_end_prefix s : ∃ w, s = trim_end s ++ w.
Proof.
  unfold trim_end. destruct (trim_start_suffix (rev s)) as [w Hw]. exists (rev w).
  rewrite <- rev_app_distr, <- Hw. by rewrite rev_involutive.
Qed.

Lemma head_rev (s : chars) : head (rev s) = last s.
Proof. rewrite rev_alt. change (rev_append s []) with (reverse s). apply head_reverse. Qed.

Lemma last_rev (s : chars) : last (rev s) = head s.
Proof. by rewrite <- head_rev, rev_involutive. Qed.

Lemma js_trim_ends s : ends_ok (head (js_trim s)) ∧ ends_ok (last (js_trim s)).
Proof.
  unfold js_trim. split.
  - destruct (trim_end_prefix (trim_start s)) as [w Hw]. pose proof (trim_start_ends s) as H. rewrite Hw in H.
    by destruct (trim_end (trim_start s)).
  - unfold trim_end. rewrite last_rev. apply trim_start_ends.
Qed.

Lemma js_trim_id s : ends_ok (head s) → ends_ok (last s) → js_trim s = s.
Proof.
  intros Hh Hl. unfold js_trim, trim_end. rewrite (trim_start_id s) by done.
  rewrite trim_start_id; [apply rev_involutive|]. by rewrite head_rev.
Qed.

Lemma js_trim_idem s : js_trim (js_trim s) = js_trim s.
Proof. destruct (js_trim_ends s). by apply js_trim_id. Qed.

Lemma js_trim_sublist s : sublist (js_trim s) s.
Proof.
  destruct (trim_start_suffix s) as [w Hw], (trim_end_prefix (trim_start s)) as [w' Hw'].
  unfold js_trim. set (t := trim_end (trim_start s)) in *. clearbody t. rewrite Hw, Hw'.
  by apply sublist_inserts_l, sublist_inserts_r.
Qed.

Lemma trim_string_idem s : trim_string (trim_string s) = trim_string s.
Proof. unfold trim_string. by rewrite String.list_ascii_of_string_of_list_ascii, js_trim_idem. Qed.

(** Such a path is in normal form. *)
Lemma path_of_normal segs : Forall segment_ok segs → normalizeRemotePath (Some (path_of segs)) = path_of segs.
Proof.
  intros Hs. destruct segs as [|s segs _] using rev_ind; [by vm_compute|].
  assert (path_of (segs ++ [s]) = slashed (segs ++ [s])) as -> by by destruct segs.
  pose proof Hs as [_ Hlast]%Forall_app. apply Forall_singleton in Hlast as [Hne Hsl Hb Hend].
  destruct s as [|c s _] using rev_ind; [done|].
  assert (last (slashed (segs ++ [s ++ [c]])) = Some c) as Hl.
  { rewrite slashed_snoc. change (slash :: s ++ [c]) with ((slash :: s) ++ [c]). by rewrite app_assoc, last_snoc. }
  apply normalize_id.
  - constructor.
    + by destruct segs.
    + intros i. by apply slashed_lookup_slash.
    + intros [?|(y & Hy & Hx)]%elem_of_slashed; [done|]. rewrite Forall_forall in Hs.
      by destruct (Hs y Hy) as [_ _ [] _].
    + right. rewrite Hl. intros [= ->]. apply Hsl, elem_of_app. right. left.
  - unfold js_trim. assert (trim_start (slashed (segs ++ [s ++ [c]])) = slashed (segs ++ [s ++ [c]])) as ->.
    { destruct segs; by unfold slashed; cbn [app fmap list_fmap concat]; rewrite trim_start_head. }
    unfold trim_end. apply last_Some in Hl as [l ->]. rewrite rev_unit, trim_start_head; [by rewrite <- rev_unit, rev_involutive|].
    apply Hend. by rewrite last_snoc.
Qed.

Lemma slashed_prefix a b :
  Forall segment_ok a → Forall segment_ok b →
  (∃ t, slashed a = slashed b ++ slash :: t) ↔ ∃ rest, rest ≠ [] ∧ a = b ++ rest.
Proof.
  intros Ha Hb. revert a Ha. induction Hb as [|y b [Hy Hysl _ _] Hb IH]; intros a Ha.
  - split.
    + intros (t & Ht). exists a. split; [by intros ->|done].
    + intros (rest & Hne & ->). destruct rest as [|x rest]; [done|]. by eexists.
  - unfold slashed. cbn [fmap list_fmap concat app]. fold (slashed b). split.
    + intros (t & Ht). destruct Ha as [|x a [Hx Hxsl _ _] Ha]; [done|]. cbn [fmap list_fmap concat app] in Ht.
      fold (slashed a) in Ht. injection Ht as Ht. rewrite <- app_assoc in Ht.
      assert (∀ (x y u v : chars), (slash ∉ x) → (slash ∉ y) → (u = [] ∨ head u = Some slash) → head v = Some slash →
        x ++ u = y ++ v → x = y ∧ u = v) as Hcut.
      { clear. intros x y u v Hx. revert y. induction x as [|c x IH]; intros y Hy Hu Hv Heq.
        - destruct y as [|d y]; [done|]. cbn in Heq. subst u. destruct Hu as [?|[= ->]]; [done|]. destruct Hy. left.
        - apply not_elem_of_cons in Hx as [Hc Hx]. destruct y as [|d y].
          + cbn in Heq. subst v. injection Hv as ->. done.
          + injection Heq as -> Heq. apply not_elem_of_cons in Hy as [_ Hy]. by destruct (IH Hx y Hy Hu Hv Heq) as [-> ->]. }
      destruct (Hcut x y (slashed a) (slashed b ++ slash :: t)) as [-> Hrest]; [done|done| | |done|].
      * destruct a; [by left|by right].
      * by destruct b.
      * destruct (proj1 (IH a Ha)) as (rest & Hne & ->); [by exists t|]. by exists rest.
    + intros (rest & Hne & ->). apply Forall_cons in Ha as [_ Ha].
      destruct (proj2 (IH (b ++ rest) Ha)) as (t & Ht); [by exists rest|]. exists t.
      cbn [fmap list_fmap concat app]. fold (slashed (b ++ rest)). rewrite Ht. cbn. by rewrite <- app_assoc.
Qed.

Lemma path_of_slashed segs : segs ≠ [] → path_of segs = slashed segs.
Proof. by destruct segs. Qed.

Lemma path_of_root segs : Forall segment_ok segs → path_of segs = [slash] → segs = [].
Proof. intros [|s l [Hne _ _ _] _]; [done|]. unfold path_of, slashed. cbn. by destruct s. Qed.

Lemma descendant_prefix a b :
  Forall segment_ok a → Forall segment_ok b →
  isRemotePathStrictDescendant (Some (path_of a)) (Some (path_of b)) = true ↔ ∃ rest, rest ≠ [] ∧ a = b ++ rest.
Proof.
  intros Ha Hb. unfold isRemotePathStrictDescendant. rewrite !path_of_normal by done. case_decide as Heq.
  { split; [done|]. intros (rest & Hne & ->). exfalso. destruct b as [|y b].
    - symmetry in Heq. cbn [app] in Heq. by rewrite (path_of_root rest Ha) in Hne.
    - rewrite !path_of_slashed in Heq by done. apply (f_equal length) in Heq. rewrite slashed_app, length_app in Heq.
      destruct rest as [|[] rest]; [done|unfold slashed in Heq; cbn in Heq; lia..]. }
  destruct (decide (path_of b = [slash])) as [Hroot|Hroot].
  - rewrite bool_decide_eq_true. apply path_of_root in Hroot as ->; [|done]. split.
    + intros Hne. exists a. split; [by intros ->|done].
    + intros (rest & Hne & ->) Hr. by apply path_of_root in Hr.
  - assert (b ≠ []) as Hbne by by intros ->. rewrite bool_decide_eq_true.
    destruct (decide (a = [])) as [->|Hane].
    { split; [|by intros (rest & Hne & [-> ->]%eq_sym%app_eq_nil)].
      intros Ht%(f_equal length). rewrite length_take, length_app in Ht. destruct b; [done|]. cbn in Ht. lia. }
    rewrite (path_of_slashed a), (path_of_slashed b), <- slashed_prefix by done. split.
    + intros Ht. exists (drop (S (length (slashed b))) (slashed a)).
      rewrite <- (take_drop (S (length (slashed b))) (slashed a)) at 1. rewrite Ht. by rewrite <- app_assoc.
    + intros (t & ->). rewrite take_app, take_ge by lia. f_equal. by replace (S _ - _) with 1 by lia.
Qed.

(** ** Properties *)

(** Remote paths are lists of segments. On the path of any list of segments (none
    empty, none with a slash or a backslash, none ending in white space) the string
    functions compute the list operations: the normal form is the path itself, the
    parent drops the last segment, the ancestors are the paths of the proper prefixes
    from the root down, and the descendant test holds exactly for a proper extension
    of the list, never for a mere common prefix of the text. *)
Theorem remote_paths_exact segs other :
  Forall segment_ok segs → Forall segment_ok other →
  let path := path_of segs in
  normalizeRemotePath (Some path) = path ∧
  remotePathParent (Some path) = path_of (removelast segs) ∧
  remotePathAncestors (Some path) = (λ n, path_of (take n segs)) <$> seq 0 (length segs) ∧
  (isRemotePathStrictDescendant (Some path) (Some (path_of other)) = true ↔ ∃ rest, rest ≠ [] ∧ segs = other ++ rest).
Proof.
  intros Hs Ho. cbv zeta. split_and!; [by apply path_of_normal| | |by apply descendant_prefix].
  - unfold remotePathParent. rewrite path_of_normal by done.
    destruct segs as [|s segs _] using rev_ind; [done|]. rewrite removelast_last, decide_False.
    + rewrite path_of_slashed, slashed_snoc by by destruct segs. apply Forall_app in Hs as [Hs Hl].
      apply Forall_cons in Hl as [[_ Hsl _ _] _]. rewrite until_last_app by done. cbn [default from_option].
      destruct segs as [|x segs]; [done|]. by rewrite decide_False.
    + intros Hr%path_of_root; [|done]. by destruct segs.
  - unfold remotePathAncestors. rewrite path_of_normal by done. case_decide as Hr.
    { by rewrite (path_of_root segs Hs Hr). }
    assert (segs ≠ []) as Hne by by intros ->. rewrite path_of_slashed by done.
    unfold segments. rewrite segments_slashed by done. cbn [app]. rewrite decide_True by done. cbn [app].
    apply list_eq. intros i. rewrite list_lookup_imap, list_lookup_fmap.
    destruct (segs !! i) as [s|] eqn:Ei; cbn.
    + pose proof (lookup_lt_Some _ _ _ Ei) as Hlt. rewrite lookup_seq_lt by done. cbn. f_equal.
      case_decide as Hi; [by subst|]. rewrite join_slashed, path_of_slashed; [done| |];
        intros Ht%(f_equal length); rewrite length_take in Ht; cbn in Ht; lia.
    + apply lookup_ge_None in Ei. by rewrite lookup_seq_ge.
Qed.

Lemma remote_paths_exact_witness :
  remotePathParent (Some (String.list_ascii_of_string "/srv/app")) = String.list_ascii_of_string "/srv".
Proof.
  assert (∀ s, s = String.list_ascii_of_string "srv" ∨ s = String.list_ascii_of_string "app" → segment_ok s) as Hok.
  { intros s [-> | ->]; (constructor; [done|vm_decide|vm_decide|by intros c [= <-]]). }
  destruct (remote_paths_exact [String.list_ascii_of_string "srv"; String.list_ascii_of_string "app"] []) as (_ & H & _).
  - repeat constructor; apply Hok; auto.
  - constructor.
  - exact H.
Defined.

(** A segment that ends in white space is lost at the end of a path: the path of a
    directory named with a trailing blank normalises to another directory. *)
Lemma trailing_blank_lost :
  normalizeRemotePath (Some (String.list_ascii_of_string "/srv/app ")) = String.list_ascii_of_string "/srv/app" ∧
  isRemotePathStrictDescendant (Some (String.list_ascii_of_string "/srv/app /log")) (Some (String.list_ascii_of_string "/srv/app ")) = false.
Proof. by vm_compute. Qed.
