(* ===== verification/Osc7.v ===== *)
(** * Directories announced by the shell ([features/terminal/osc7.ts])

    The sequences [ESC ] 7 ; url (BEL or ESC \)] of a stream of chunks, over UTF-16 code
    units, with the percent decoding of their paths ([decodeURIComponent]), and the part
    of [writeDecodedOutput] of the terminal panel that feeds them. *)

From S2P Require Import Prelude JsString.
From Stdlib Require Import Lia.

#[local] Open Scope nat_scope.

(** ** Percent decoding *)

Definition hex_unit (c : Z) : option Z :=
  if ((48 <=? c) && (c <=? 57))%Z then Some (c - 48)%Z
  else if ((65 <=? c) && (c <=? 70))%Z then Some (c - 55)%Z
  else if ((97 <=? c) && (c <=? 102))%Z then Some (c - 87)%Z
  else None.

(** The byte of [%XY] at the head. *)
Definition percent_byte (s : jsstr) : option (Z * jsstr) :=
  match s with
  | p :: a :: b :: rest =>
      if decide (p = 37%Z) then
        match hex_unit a, hex_unit b with Some x, Some y => Some ((16 * x + y)%Z, rest) | _, _ => None end
      else None
  | _ => None
  end.

(** [n] continuation bytes, added to the bits read so far. *)
Fixpoint continuation (n : nat) (bits : Z) (s : jsstr) : option (Z * jsstr) :=
  match n with
  | 0 => Some (bits, s)
  | S n =>
      match percent_byte s with
      | Some (b, rest) => if ((128 <=? b) && (b <? 192))%Z then continuation n (64 * bits + (b - 128))%Z rest else None
      | None => None
      end
  end.

(** A leading byte: the continuation bytes it asks for, its bits, and the least code
    point that may take so many. *)
Definition leading_byte (b : Z) : option (nat * Z * Z) :=
  if (b <? 128)%Z then Some (0, b, 0%Z)
  else if ((192 <=? b) && (b <? 224))%Z then Some (1, (b - 192)%Z, 0x80%Z)
  else if ((224 <=? b) && (b <? 240))%Z then Some (2, (b - 224)%Z, 0x800%Z)
  else if ((240 <=? b) && (b <? 248))%Z then Some (3, (b - 240)%Z, 0x10000%Z)
  else None.

(** A code point that is not a surrogate. *)
Definition scalar_value (cp : Z) : bool :=
  ((0 <=? cp) && (cp <? 0xd800) || (0xe000 <=? cp) && (cp <=? 0x10ffff))%Z.

(** The code units of a code point. *)
Definition utf16 (cp : Z) : jsstr :=
  if (cp <? 0x10000)%Z then [cp]
  else [(0xd800 + (cp - 0x10000) / 1024)%Z; (0xdc00 + (cp - 0x10000) mod 1024)%Z].

(** The code point of the escapes at the head. *)
Definition percent_point (s : jsstr) : option (Z * jsstr) :=
  match percent_byte s with
  | None => None
  | Some (b, rest) =>
      match leading_byte b with
      | None => None
      | Some (n, bits, least) =>
          match continuation n bits rest with
          | Some (cp, rest) => if ((least <=? cp)%Z && scalar_value cp) then Some (cp, rest) else None
          | None => None
          end
      end
  end.

(** Each round reads at least one unit, so there are at most as many as units. *)
Fixpoint decode_loop (fuel : nat) (s : jsstr) : option jsstr :=
  match fuel, s with
  | _, [] => Some []
  | 0, _ :: _ => None
  | S fuel, c :: rest =>
      if decide (c = 37%Z) then
        match percent_point s with
        | Some (cp, rest) => app (utf16 cp) <$> decode_loop fuel rest
        | None => None
        end
      else cons c <$> decode_loop fuel rest
  end.

(** [None] stands for the error that is thrown. *)
Definition decodeURIComponent (s : jsstr) : option jsstr := decode_loop (length s) s.

(** ** Sequences *)

Definition osc7Prefix : jsstr := [27; 93; 55; 59]%Z.
Definition bell : jsstr := [7]%Z.
Definition stTerminator : jsstr := [27; 92]%Z.
Definition maxOscBufferLength : nat := 2048.

(** What is before and after the first occurrence of [p] ([indexOf]). *)
Fixpoint cut (p s : jsstr) : option (jsstr * jsstr) :=
  if units_starts_with p s then Some ([], drop (length p) s)
  else
    match s with
    | [] => None
    | c :: s' => (λ r, (c :: r.1, r.2)) <$> cut p s'
    end.

(** [chooseOscEnd], with the payload and what follows its terminator. *)
Definition chooseOscEnd (bellEnd stEnd : option (jsstr * jsstr)) : option (jsstr * jsstr) :=
  match bellEnd, stEnd with
  | None, _ => stEnd
  | _, None => bellEnd
  | Some b, Some s => if length b.1 <? length s.1 then Some b else Some s
  end.

Definition osc_end (s : jsstr) : option (jsstr * jsstr) := chooseOscEnd (cut bell s) (cut stTerminator s).

(** [.replace(/^[^/]+/, "")]: the host goes. *)
Fixpoint drop_host (s : jsstr) : jsstr :=
  match s with
  | c :: rest => if decide (c = 47%Z) then s else drop_host rest
  | [] => []
  end.

Definition file_scheme : jsstr := js "file://".

Definition osc7PayloadToPath (payload : jsstr) : option jsstr :=
  let value := units_trim payload in
  match value with
  | [] => None
  | _ =>
      let path := if units_starts_with file_scheme value then drop_host (drop (length file_scheme) value) else value in
      Some (default path (decodeURIComponent path))
  end.

(** [if (path) paths.push(path)]. *)
Definition pushed (path : option jsstr) : list jsstr := if units_truthy path then [default [] path] else [].

(** The loop of [extractOsc7Directories]: the paths, and the sequence that is still open.
    Each round takes a whole prefix from the input. *)
Fixpoint extract_loop (fuel : nat) (input : jsstr) : list jsstr * jsstr :=
  match fuel with
  | 0 => ([], [])
  | S fuel =>
      match cut osc7Prefix input with
      | None => ([], [])
      | Some (_, after) =>
          match osc_end after with
          | None => ([], osc7Prefix ++ after)
          | Some (payload, rest) =>
              let r := extract_loop fuel rest in (pushed (osc7PayloadToPath payload) ++ r.1, r.2)
          end
      end
  end.

(** [buffer.slice(-maxOscBufferLength)] when it is too long. *)
Definition extractOsc7Directories (input : jsstr) : list jsstr * jsstr :=
  let r := extract_loop (S (length input)) input in
  (r.1, if maxOscBufferLength <? length r.2 then drop (length r.2 - maxOscBufferLength) r.2 else r.2).

(** ** Chunks ([writeDecodedOutput]) *)

(** The buffer, the directory of the input and the directories that were reported. *)
Record OscState := mkOsc {
  ob_buffer : jsstr;
  ob_directory : option jsstr;
  ob_reported : list jsstr;
}.

Definition osc_chunk (st : OscState) (decoded : jsstr) : OscState :=
  let r := extractOsc7Directories (ob_buffer st ++ decoded) in
  mkOsc r.2 (match last r.1 with Some path => Some path | None => ob_directory st end) (ob_reported st ++ r.1).

(** ** Cutting *)

Lemma cut_Some p s x y : cut p s = Some (x, y) → s = x ++ p ++ y.
Proof.
  revert x. induction s as [|c s IH]; intros x; cbn [cut].
  - destruct (units_starts_with p []) eqn:E; [|done]. apply units_starts_with_inv in E as [r E].
    symmetry in E. apply app_nil in E as [-> ->]. by intros [= <- <-].
  - destruct (units_starts_with p (c :: s)) eqn:E.
    + apply units_starts_with_inv in E as [r ->]. rewrite drop_app_length. by intros [= <- <-].
    + destruct (cut p s) as [[a b]|] eqn:Ec; [|done]. intros [= <- <-]. cbn. f_equal. by apply IH.
Qed.

Lemma cut_here p s : cut p (p ++ s) = Some ([], s).
Proof. destruct (p ++ s) as [|c t] eqn:E; cbn [cut]; by rewrite <- E, units_starts_with_app, drop_app_length. Qed.

Lemma starts_with_prefix p s : units_starts_with p s = true ↔ p `prefix_of` s.
Proof.
  split; [intros [r ->]%units_starts_with_inv; by exists r|]. intros [r ->]. apply units_starts_with_app.
Qed.

Lemma cut_None p s : p ≠ [] → cut p s = None ↔ ∀ x y, s ≠ x ++ p ++ y.
Proof.
  intros Hp. split.
  - induction s as [|c s IH]; intros Hc x y Hs.
    + symmetry in Hs. apply app_nil in Hs as [-> Hs]. by apply app_nil in Hs as [-> _].
    + cbn [cut] in Hc. destruct (units_starts_with p (c :: s)) eqn:E; [done|].
      destruct x as [|d x]; cbn in Hs.
      * by rewrite Hs, units_starts_with_app in E.
      * injection Hs as -> Hs. apply (IH) with x y; [|done]. by destruct (cut p s).
  - intros Hn. destruct (cut p s) as [[x y]|] eqn:E; [|done]. apply cut_Some in E. by destruct (Hn x y).
Qed.

Lemma prefix_app_short (p a b : jsstr) : length p ≤ length a → p `prefix_of` a ++ b → p `prefix_of` a.
Proof.
  intros Hl [r Hr]. exists (drop (length p) a). rewrite <- (take_drop (length p) a) at 1. f_equal.
  assert (take (length p) (a ++ b) = take (length p) (p ++ r)) as Ht by by rewrite Hr.
  rewrite take_app_le in Ht by done. by rewrite take_app_length in Ht.
Qed.

Lemma prefix_app_long (p a b : jsstr) : length a ≤ length p → p `prefix_of` a ++ b → a `prefix_of` p.
Proof.
  intros Hl [r Hr]. exists (drop (length a) p). rewrite <- (take_drop (length a) p) at 1. f_equal.
  assert (take (length a) (a ++ b) = take (length a) (p ++ r)) as Ht by by rewrite Hr.
  rewrite take_app_length, take_app_le in Ht by done. done.
Qed.

Lemma cut_app p a b x y : cut p a = Some (x, y) → cut p (a ++ b) = Some (x, y ++ b).
Proof.
  revert x. induction a as [|c a IH]; intros x Hc.
  - apply cut_Some in Hc as Hs. symmetry in Hs. apply app_nil in Hs as [-> Hs]. apply app_nil in Hs as [-> ->]. by destruct b.
  - cbn [cut app] in *. destruct (units_starts_with p (c :: a)) eqn:E.
    + injection Hc as <- <-. apply starts_with_prefix in E as [r Hr].
      assert (units_starts_with p (c :: a ++ b) = true) as ->.
      { apply starts_with_prefix. exists (r ++ b). change (c :: a ++ b) with ((c :: a) ++ b). by rewrite Hr, app_assoc. }
      change (c :: a ++ b) with ((c :: a) ++ b). rewrite Hr, <- app_assoc, !drop_app_length. done.
    + destruct (cut p a) as [[x' y']|] eqn:Ea; [|done]. injection Hc as <- <-.
      assert (units_starts_with p (c :: a ++ b) = false) as ->.
      { apply not_true_iff_false. intros Ht%starts_with_prefix. apply not_true_iff_false in E. apply E, starts_with_prefix.
        apply cut_Some in Ea. apply (prefix_app_short _ (c :: a) b); [|done]. rewrite Ea. cbn. rewrite !length_app. lia. }
      by rewrite (IH x' eq_refl).
Qed.

(** No part of [p] begins in [noise] and goes on after it. *)
Definition no_straddle (p noise : jsstr) : Prop :=
  ∀ t, t ≠ [] → t `suffix_of` noise → ¬ t `prefix_of` p.

Lemma cut_skip p noise b :
  cut p noise = None → no_straddle p noise → cut p (noise ++ b) = (λ r, (noise ++ r.1, r.2)) <$> cut p b.
Proof.
  intros Hn Hs. induction noise as [|c noise IH].
  - cbn [app]. by destruct (cut p b) as [[]|].
  - cbn [cut] in Hn. cbn [app cut]. destruct (units_starts_with p (c :: noise)) eqn:E; [done|].
    assert (units_starts_with p (c :: noise ++ b) = false) as ->.
    { apply not_true_iff_false. intros Ht%starts_with_prefix. change (c :: noise ++ b) with ((c :: noise) ++ b) in Ht.
      destruct (decide (length p ≤ length (c :: noise))).
      - apply not_true_iff_false in E. apply E, starts_with_prefix. by eapply prefix_app_short.
      - apply (Hs (c :: noise)); [done|done|]. eapply prefix_app_long; [|exact Ht]. lia. }
    rewrite IH.
    + by destruct (cut p b) as [[]|].
    + by destruct (cut p noise) as [[]|].
    + intros t Hne Ht. apply Hs; [done|]. by apply suffix_cons_r.
Qed.

(** The end of a sequence is the first terminator of either kind. *)
Lemma osc_end_cons c s :
  osc_end (c :: s) =
    if decide (c = 7%Z) then Some ([], s)
    else if units_starts_with stTerminator (c :: s) then Some ([], drop 2 (c :: s))
    else (λ r, (c :: r.1, r.2)) <$> osc_end s.
Proof.
  unfold osc_end. cbn [cut].
  assert (units_starts_with bell (c :: s) = bool_decide (c = 7%Z)) as ->
    by (unfold bell; rewrite units_starts_with_head; apply bool_decide_ext; cbn; naive_solver).
  case_decide as Hc.
  - subst c. rewrite bool_decide_true by done. cbn [length bell drop].
    assert (units_starts_with stTerminator (7%Z :: s) = false) as -> by by destruct s.
    by destruct (cut stTerminator s) as [[]|].
  - rewrite bool_decide_false by congruence. destruct (units_starts_with stTerminator (c :: s)).
    + by destruct (cut bell s) as [[]|].
    + destruct (cut bell s) as [[x y]|], (cut stTerminator s) as [[x' y']|]; try done. cbn -[Nat.ltb].
      change (S (length x) <? S (length x')) with (length x <? length x'). by destruct (_ <? _).
Qed.

Lemma osc_end_app a b x y : osc_end a = Some (x, y) → osc_end (a ++ b) = Some (x, y ++ b).
Proof.
  revert x. induction a as [|c a IH]; intros x Ha; [done|]. rewrite osc_end_cons in Ha. cbn [app]. rewrite osc_end_cons.
  case_decide; [by injection Ha as <- <-|]. destruct (units_starts_with stTerminator (c :: a)) eqn:E.
  - injection Ha as <- <-. apply starts_with_prefix in E as [r Hr]. destruct a as [|d a]; [done|].
    assert (units_starts_with stTerminator (c :: (d :: a) ++ b) = true) as ->.
    { apply starts_with_prefix. exists (r ++ b). change (c :: (d :: a) ++ b) with ((c :: d :: a) ++ b). by rewrite Hr, app_assoc. }
    done.
  - destruct (osc_end a) as [[x' y']|] eqn:Ea; [|done]. injection Ha as <- <-. destruct a as [|d a]; [done|].
    assert (units_starts_with stTerminator (c :: (d :: a) ++ b) = false) as ->.
    { apply not_true_iff_false. intros Ht. apply not_true_iff_false in E. apply E. apply starts_with_prefix.
      apply starts_with_prefix in Ht. apply (prefix_app_short _ (c :: d :: a) b); [cbn; lia|done]. }
    by rewrite (IH x' eq_refl).
Qed.

Lemma osc_end_length s x y : osc_end s = Some (x, y) → length y < length s.
Proof.
  revert x. induction s as [|c s IH]; intros x; [done|]. rewrite osc_end_cons. case_decide; [intros [= _ <-]; cbn; lia|].
  destruct (units_starts_with _ _) eqn:E.
  - destruct s as [|d s]; [by apply starts_with_prefix in E as [r [=]]|]. intros [= _ <-]. cbn. rewrite ?drop_0. lia.
  - destruct (osc_end s) as [[x' y']|] eqn:Es; [|done]. intros [= <- <-]. cbn. specialize (IH x' eq_refl). lia.
Qed.

(** ** Chunks of a stream *)

(** The fuel of the loop is enough whenever it exceeds the length. *)
Lemma round_length s x after payload rest :
  cut osc7Prefix s = Some (x, after) → osc_end after = Some (payload, rest) → S (length rest) < length s.
Proof. intros ->%cut_Some He%osc_end_length. rewrite !length_app. cbn. lia. Qed.

Lemma extract_fuel n m s : length s < n → length s < m → extract_loop n s = extract_loop m s.
Proof.
  revert m s. induction n as [|n IH]; intros m s Hn Hm; [lia|]. destruct m as [|m]; [lia|]. cbn [extract_loop].
  destruct (cut osc7Prefix s) as [[x after]|] eqn:Ec; [|done]. destruct (osc_end after) as [[payload rest]|] eqn:Ee; [|done].
  pose proof (round_length _ _ _ _ _ Ec Ee). rewrite (IH m rest); [done|lia|lia].
Qed.

Definition extract (s : jsstr) : list jsstr * jsstr := extract_loop (S (length s)) s.

Lemma extract_unfold s :
  extract s =
    match cut osc7Prefix s with
    | None => ([], [])
    | Some (_, after) =>
        match osc_end after with
        | None => ([], osc7Prefix ++ after)
        | Some (payload, rest) => let r := extract rest in (pushed (osc7PayloadToPath payload) ++ r.1, r.2)
        end
    end.
Proof.
  unfold extract. cbn [extract_loop]. destruct (cut osc7Prefix s) as [[x after]|] eqn:Ec; [|done].
  destruct (osc_end after) as [[payload rest]|] eqn:Ee; [|done].
  pose proof (round_length _ _ _ _ _ Ec Ee). by rewrite (extract_fuel (length s) (S (length rest)) rest) by lia.
Qed.

(** What is left after the last whole sequence. *)
Fixpoint left_over (fuel : nat) (s : jsstr) : jsstr :=
  match fuel with
  | 0 => s
  | S fuel =>
      match cut osc7Prefix s with
      | None => s
      | Some (_, after) => match osc_end after with None => s | Some (_, rest) => left_over fuel rest end
      end
  end.

(** Reading more text goes on with what is left. *)
Lemma extract_app fuel a b :
  length a < fuel → extract (a ++ b) = let r := extract (left_over fuel a ++ b) in ((extract a).1 ++ r.1, r.2).
Proof.
  revert a. induction fuel as [|fuel IH]; intros a Hf; [lia|]. cbn [left_over]. rewrite (extract_unfold a).
  destruct (cut osc7Prefix a) as [[x after]|] eqn:Ec; [|cbv zeta; cbn [fst snd app]; by destruct (extract (a ++ b))].
  destruct (osc_end after) as [[payload rest]|] eqn:Ee; [|cbv zeta; cbn [fst snd app]; by destruct (extract (a ++ b))].
  pose proof (round_length _ _ _ _ _ Ec Ee). rewrite extract_unfold, (cut_app _ _ _ _ _ Ec), (osc_end_app _ _ _ _ Ee).
  cbv zeta. rewrite IH by lia. cbn. by rewrite app_assoc.
Qed.

(** What is left has no whole sequence; the buffer is its open sequence. *)
Lemma left_over_spec fuel s :
  length s < fuel →
  match cut osc7Prefix (left_over fuel s) with
  | None => (extract s).2 = []
  | Some (_, after) => osc_end after = None ∧ (extract s).2 = osc7Prefix ++ after
  end.
Proof.
  revert s. induction fuel as [|fuel IH]; intros s Hf; [lia|]. cbn [left_over]. rewrite extract_unfold.
  destruct (cut osc7Prefix s) as [[x after]|] eqn:Ec; [|by rewrite Ec].
  destruct (osc_end after) as [[payload rest]|] eqn:Ee; [|by rewrite Ec].
  pose proof (round_length _ _ _ _ _ Ec Ee). apply IH. lia.
Qed.

Definition rest_of (s : jsstr) : jsstr := left_over (S (length s)) s.

(** A boundary between chunks: no prefix is split there, and what is kept fits. *)
Definition boundary_ok (text : jsstr) : Prop :=
  (cut osc7Prefix (rest_of text) = None → no_straddle osc7Prefix (rest_of text)) ∧ length (extract text).2 ≤ maxOscBufferLength.

Lemma extract_boundary a b :
  boundary_ok a → extract (a ++ b) = let r := extract ((extract a).2 ++ b) in ((extract a).1 ++ r.1, r.2).
Proof.
  intros [Hs _]. rewrite (extract_app (S (length a))) by lia. fold (rest_of a).
  assert (extract (rest_of a ++ b) = extract ((extract a).2 ++ b)) as ->; [|done].
  pose proof (left_over_spec (S (length a)) a ltac:(lia)) as Hl. fold (rest_of a) in Hl.
  destruct (cut osc7Prefix (rest_of a)) as [[noise after]|] eqn:Ec.
  - destruct Hl as [_ ->]. rewrite (extract_unfold (rest_of a ++ b)), (extract_unfold ((osc7Prefix ++ after) ++ b)).
    rewrite (cut_app _ _ _ _ _ Ec). rewrite <- app_assoc.
    by rewrite cut_here.
  - rewrite Hl. cbn [app]. rewrite (extract_unfold (rest_of a ++ b)), (extract_unfold b), cut_skip by auto.
    by destruct (cut osc7Prefix b) as [[]|].
Qed.

(** Every boundary of a list of chunks, given what was kept before. *)
Fixpoint boundaries (buffer : jsstr) (chunks : list jsstr) : Prop :=
  match chunks with
  | [] => True
  | chunk :: chunks => boundary_ok (buffer ++ chunk) ∧ boundaries (extract (buffer ++ chunk)).2 chunks
  end.

Lemma extract_short text : length (extract text).2 ≤ maxOscBufferLength → extractOsc7Directories text = extract text.
Proof.
  intros Hl. unfold extractOsc7Directories. fold (extract text). apply Nat.ltb_ge in Hl. rewrite Hl. by destruct (extract text).
Qed.

(** What is kept has no whole sequence. *)
Lemma kept_open text : (extract (extract text).2).1 = [].
Proof.
  pose proof (left_over_spec (S (length text)) text ltac:(lia)) as Hl.
  destruct (cut osc7Prefix (left_over (S (length text)) text)) as [[noise after]|]; [|by rewrite Hl].
  destruct Hl as [He ->]. by rewrite extract_unfold, cut_here, He.
Qed.

Lemma chunks_reported chunks st :
  (extract (ob_buffer st)).1 = [] → boundaries (ob_buffer st) chunks →
  let paths := (extract (ob_buffer st ++ concat chunks)).1 in
  let st' := foldl osc_chunk st chunks in
  ob_reported st' = ob_reported st ++ paths ∧ ob_directory st' = (last paths ?: ob_directory st).
Proof.
  revert st. induction chunks as [|chunk chunks IH]; intros st Ho; cbv zeta.
  { intros _. cbn [foldl concat]. by rewrite app_nil_r, Ho, app_nil_r. }
  intros [Hb Hbs]. cbn [foldl concat]. set (st' := osc_chunk st chunk). pose proof Hb as [_ Hl].
  set (r := extract (ob_buffer st ++ chunk)) in *.
  assert (st' = mkOsc r.2 (last r.1 ?: ob_directory st) (ob_reported st ++ r.1)) as E
    by (unfold st', osc_chunk; rewrite (extract_short _ Hl); fold r; by destruct (last r.1)).
  destruct (IH st') as [H1 H2]; [rewrite E; apply kept_open|by rewrite E|]. cbv zeta in H1, H2. rewrite H1, H2, E.
  rewrite (app_assoc (ob_buffer st)), (extract_boundary _ _ Hb). fold r. cbn [ob_reported ob_directory ob_buffer fst snd]. split; [by rewrite app_assoc|].
  rewrite last_app. by destruct (last (extract (r.2 ++ concat chunks)).1).
Qed.

(** ** Announcing a path

    How a shell writes a path: each code point as it is, or as the escapes of its UTF-8
    bytes. *)

Definition hex_of (n : Z) : Z := if (n <? 10)%Z then (48 + n)%Z else (55 + n)%Z.

Definition percent (b : Z) : jsstr := [37; hex_of (b / 16); hex_of (b mod 16)]%Z.

Definition utf8 (cp : Z) : list Z :=
  (if cp <? 0x80 then [cp]
   else if cp <? 0x800 then [192 + cp / 64; 128 + cp mod 64]
   else if cp <? 0x10000 then [224 + cp / 64 / 64; 128 + (cp / 64) mod 64; 128 + cp mod 64]
   else [240 + cp / 64 / 64 / 64; 128 + (cp / 64 / 64) mod 64; 128 + (cp / 64) mod 64; 128 + cp mod 64])%Z.

Definition written (item : Z * bool) : jsstr := if item.2 then concat (percent <$> utf8 item.1) else utf16 item.1.

Definition item_ok (item : Z * bool) : Prop :=
  scalar_value item.1 = true ∧ (item.2 = false → (32 ≤ item.1)%Z ∧ item.1 ≠ 37%Z).

Lemma hex_of_unit n : (0 ≤ n < 16)%Z → hex_unit (hex_of n) = Some n.
Proof.
  intros Hn. assert (n ∈ seqZ 0 16) as Hin by (apply elem_of_seqZ; lia). clear Hn. revert n Hin.
  apply Forall_forall. vm_decide.
Qed.

Lemma percent_byte_ok b rest : (0 ≤ b < 256)%Z → percent_byte (percent b ++ rest) = Some (b, rest).
Proof.
  intros Hb. pose proof (Z.div_mod b 16 ltac:(done)) as Hdm. pose proof (Z.mod_pos_bound b 16 ltac:(done)) as Hm.
  cbn. rewrite !hex_of_unit; [f_equal; f_equal; lia|lia|]. set (q := (b / 16)%Z) in *. lia.
Qed.

Lemma continuation_S n bits c rest :
  (0 ≤ c < 64)%Z → continuation (S n) bits (percent (128 + c) ++ rest) = continuation n (64 * bits + c)%Z rest.
Proof.
  intros Hc. cbn [continuation]. rewrite percent_byte_ok by lia.
  assert (((128 <=? 128 + c) && (128 + c <? 192))%Z = true) as -> by (apply andb_true_iff; split; [apply Z.leb_le|apply Z.ltb_lt]; lia).
  f_equal. lia.
Qed.

Lemma leading_ok b (n : nat) bits least :
  n = 0 ∧ (0 ≤ b < 128 ∧ bits = b ∧ least = 0)%Z ∨ n = 1 ∧ (192 ≤ b < 224 ∧ bits = b - 192 ∧ least = 0x80)%Z ∨
  n = 2 ∧ (224 ≤ b < 240 ∧ bits = b - 224 ∧ least = 0x800)%Z ∨ n = 3 ∧ (240 ≤ b < 248 ∧ bits = b - 240 ∧ least = 0x10000)%Z →
  leading_byte b = Some (n, bits, least).
Proof.
  intros H. unfold leading_byte.
  destruct (b <? 128)%Z eqn:E1; [apply Z.ltb_lt in E1; naive_solver lia|apply Z.ltb_ge in E1].
  destruct ((192 <=? b) && (b <? 224))%Z eqn:E2; [|destruct ((224 <=? b) && (b <? 240))%Z eqn:E3; [|destruct ((240 <=? b) && (b <? 248))%Z eqn:E4]];
    rewrite ?andb_true_iff, ?andb_false_iff, ?Z.leb_le, ?Z.ltb_lt, ?Z.leb_gt, ?Z.ltb_ge in *; naive_solver lia.
Qed.

Lemma escaped_point cp rest :
  scalar_value cp = true → percent_point (concat (percent <$> utf8 cp) ++ rest) = Some (cp, rest).
Proof.
  intros Hs. assert (0 ≤ cp ≤ 0x10ffff)%Z as Hr.
  { unfold scalar_value in Hs. apply orb_true_iff in Hs as [Hs|Hs]; apply andb_true_iff in Hs as [H1 H2]; lia. }
  pose proof (Z.div_mod cp 64 ltac:(done)) as D1. pose proof (Z.mod_pos_bound cp 64 ltac:(done)) as M1.
  set (q1 := (cp / 64)%Z) in *. pose proof (Z.div_mod q1 64 ltac:(done)) as D2. pose proof (Z.mod_pos_bound q1 64 ltac:(done)) as M2.
  set (q2 := (q1 / 64)%Z) in *. pose proof (Z.div_mod q2 64 ltac:(done)) as D3. pose proof (Z.mod_pos_bound q2 64 ltac:(done)) as M3.
  set (q3 := (q2 / 64)%Z) in *. set (r1 := (cp mod 64)%Z) in *. set (r2 := (q1 mod 64)%Z) in *. set (r3 := (q2 mod 64)%Z) in *.
  unfold utf8. fold q1 q2 q3 r1 r2 r3. unfold percent_point.
  destruct (cp <? 0x80)%Z eqn:E1; [|destruct (cp <? 0x800)%Z eqn:E2; [|destruct (cp <? 0x10000)%Z eqn:E3]];
    cbn [fmap list_fmap concat]; rewrite <- ?app_assoc, percent_byte_ok by lia.
  - rewrite (leading_ok cp 0 cp 0) by lia. cbn [continuation app]. rewrite Hs. assert ((0 <=? cp)%Z = true) as -> by (apply Z.leb_le; lia). done.
  - rewrite (leading_ok _ 1 q1 0x80) by lia. rewrite continuation_S by lia. cbn [continuation app].
    replace (64 * q1 + r1)%Z with cp by lia. rewrite Hs. assert ((0x80 <=? cp)%Z = true) as -> by (apply Z.leb_le; lia). done.
  - rewrite (leading_ok _ 2 q2 0x800) by lia. rewrite !continuation_S by lia. cbn [continuation app].
    replace (64 * (64 * q2 + r2) + r1)%Z with cp by lia. rewrite Hs. assert ((0x800 <=? cp)%Z = true) as -> by (apply Z.leb_le; lia). done.
  - rewrite (leading_ok _ 3 q3 0x10000) by lia. rewrite !continuation_S by lia. cbn [continuation app].
    replace (64 * (64 * (64 * q3 + r3) + r2) + r1)%Z with cp by lia. rewrite Hs. assert ((0x10000 <=? cp)%Z = true) as -> by (apply Z.leb_le; lia). done.
Qed.

Definition path_units (items : list (Z * bool)) : jsstr := concat ((λ item, utf16 item.1) <$> items).

Definition path_text (items : list (Z * bool)) : jsstr := concat (written <$> items).

(** Units that are not control characters; of white space, the only one below is left. *)
Lemma utf16_units cp : scalar_value cp = true → (32 ≤ cp)%Z → Forall (λ u, (32 ≤ u)%Z) (utf16 cp).
Proof.
  intros _ Hc. unfold utf16. destruct (cp <? 0x10000)%Z eqn:E; [by repeat constructor|]. apply Z.ltb_ge in E.
  pose proof (Z.div_pos (cp - 0x10000) 1024). pose proof (Z.mod_pos_bound (cp - 0x10000) 1024).
  repeat (apply Forall_cons; split; [lia|]). constructor.
Qed.

Lemma hex_of_units n : (0 ≤ n < 16)%Z → (32 ≤ hex_of n)%Z.
Proof. intros Hn. unfold hex_of. destruct (n <? 10)%Z; lia. Qed.

Lemma percent_units b : (0 ≤ b < 256)%Z → Forall (λ u, (32 ≤ u)%Z) (percent b).
Proof.
  intros Hb. assert (0 ≤ b / 16 < 16)%Z by (split; [apply Z.div_pos|apply Z.div_lt_upper_bound]; lia).
  pose proof (Z.mod_pos_bound b 16 ltac:(done)). repeat (apply Forall_cons; split; [first [lia|by apply hex_of_units]|]). constructor.
Qed.

Lemma utf8_bytes cp : scalar_value cp = true → Forall (λ b, (0 ≤ b < 256)%Z) (utf8 cp).
Proof.
  intros Hs. assert (0 ≤ cp ≤ 0x10ffff)%Z as Hr.
  { unfold scalar_value in Hs. apply orb_true_iff in Hs as [Hs|Hs]; apply andb_true_iff in Hs as [H1 H2]; lia. }
  pose proof (Z.div_mod cp 64 ltac:(done)) as D1. pose proof (Z.mod_pos_bound cp 64 ltac:(done)) as M1.
  set (q1 := (cp / 64)%Z) in *. pose proof (Z.div_mod q1 64 ltac:(done)) as D2. pose proof (Z.mod_pos_bound q1 64 ltac:(done)) as M2.
  set (q2 := (q1 / 64)%Z) in *. pose proof (Z.div_mod q2 64 ltac:(done)) as D3. pose proof (Z.mod_pos_bound q2 64 ltac:(done)) as M3.
  set (q3 := (q2 / 64)%Z) in *. set (r1 := (cp mod 64)%Z) in *. set (r2 := (q1 mod 64)%Z) in *. set (r3 := (q2 mod 64)%Z) in *.
  unfold utf8. fold q1 q2 q3 r1 r2 r3.
  destruct (cp <? 0x80)%Z eqn:E1; [|destruct (cp <? 0x800)%Z eqn:E2; [|destruct (cp <? 0x10000)%Z eqn:E3]];
    repeat (apply Forall_cons; split; [lia|]); constructor.
Qed.

Lemma written_units item : item_ok item → Forall (λ u, (32 ≤ u)%Z) (written item).
Proof.
  intros [Hs Hr]. unfold written. destruct item.2; [|by apply utf16_units; [|by apply Hr]].
  apply Forall_concat, Forall_fmap. eapply Forall_impl; [by apply utf8_bytes|]. intros b Hb. by apply percent_units.
Qed.

Lemma decode_raw fuel c rest :
  c ≠ 37%Z → decode_loop (S fuel) (c :: rest) = cons c <$> decode_loop fuel rest.
Proof. intros Hc. cbn [decode_loop]. by rewrite decide_False. Qed.

(** Decoding what was written gives the path, in any fuel that is enough. *)
Lemma decode_written items fuel :
  Forall item_ok items → length (path_text items) ≤ fuel → decode_loop fuel (path_text items) = Some (path_units items).
Proof.
  intros Hall. revert fuel. induction Hall as [|[cp esc] items [Hs Hr] Hall IH]; intros fuel Hf; [by destruct fuel|].
  unfold path_text, path_units in *. rewrite !fmap_cons in *. cbn [concat fst snd] in *. rewrite length_app in Hf.
  set (tail := concat (written <$> items)) in *. unfold written in Hf |- *. cbn [fst snd] in *. destruct esc.
  - set (esc := concat (percent <$> utf8 cp)) in *.
    assert (∃ e, esc = 37%Z :: e) as [e He] by (unfold esc, utf8; repeat case_match; by eexists).
    destruct fuel as [|fuel]; [rewrite He in Hf; cbn in Hf; lia|]. cbn [decode_loop].
    pose proof (escaped_point cp tail Hs) as Hp. fold esc in Hp. rewrite He in Hp |- *. cbn [app] in *.
    rewrite decide_True, Hp by done. unfold tail. rewrite IH; [done|]. rewrite He in Hf. cbn in Hf. lia.
  - destruct (Hr eq_refl) as [H32 H37]. unfold utf16 in *. destruct (cp <? 0x10000)%Z eqn:E; cbn [app length] in *.
    + destruct fuel as [|fuel]; [lia|]. rewrite decode_raw by done. unfold tail. by rewrite IH by lia.
    + apply Z.ltb_ge in E. pose proof (Z.div_pos (cp - 0x10000) 1024). pose proof (Z.mod_pos_bound (cp - 0x10000) 1024).
      destruct fuel as [|[|fuel]]; [lia|lia|]. rewrite !decode_raw by lia. unfold tail. by rewrite IH by lia.
Qed.

Lemma osc_end_clean payload t :
  Forall (λ u, (32 ≤ u)%Z) payload → osc_end (payload ++ t) = (λ r, (payload ++ r.1, r.2)) <$> osc_end t.
Proof.
  induction 1 as [|c payload Hc Hp IH]; [cbn [app]; by destruct (osc_end t) as [[]|]|]. cbn [app]. rewrite osc_end_cons.
  rewrite decide_False by lia. assert (units_starts_with stTerminator (c :: payload ++ t) = false) as ->.
  { apply not_true_iff_false. intros [r [= ->]]%starts_with_prefix. lia. }
  rewrite IH. by destruct (osc_end t) as [[]|].
Qed.

Lemma drop_host_ok host t : 47%Z ∉ host → drop_host (host ++ 47%Z :: t) = 47%Z :: t.
Proof.
  induction host as [|c host IH]; cbn [app drop_host]; [by rewrite decide_True|].
  intros [Hc Hh]%not_elem_of_cons. rewrite decide_False by congruence. by apply IH.
Qed.

(** An announcement of a path below the root of a host. *)
Record announced := mkAnnounced {
  an_host : jsstr;
  an_items : list (Z * bool);
  an_bell : bool;
}.

Definition an_payload (a : announced) : jsstr := file_scheme ++ an_host a ++ path_text ((47%Z, false) :: an_items a).

Definition announcement (a : announced) : jsstr :=
  osc7Prefix ++ an_payload a ++ (if an_bell a then bell else stTerminator).

Record announced_ok (a : announced) : Prop := {
  ao_host : Forall (λ u, (32 ≤ u)%Z) (an_host a) ∧ 47%Z ∉ an_host a;
  ao_items : Forall item_ok (an_items a);
  ao_last : match last (an_payload a) with Some u => is_white u = false | None => True end;
}.

Lemma payload_path a : announced_ok a → osc7PayloadToPath (an_payload a) = Some (path_units ((47%Z, false) :: an_items a)).
Proof.
  intros [[_ Hh] Hi Hl]. unfold osc7PayloadToPath. cbv zeta. rewrite units_trim_id by done.
  assert (∃ t, an_payload a = 102%Z :: t) as [t Ht] by (eexists; reflexivity). rewrite Ht at 1.
  unfold an_payload. rewrite units_starts_with_app, drop_app_length.
  change (path_text ((47%Z, false) :: an_items a)) with (47%Z :: path_text (an_items a)). rewrite drop_host_ok by done.
  change (47%Z :: path_text (an_items a)) with (path_text ((47%Z, false) :: an_items a)).
  unfold decodeURIComponent. rewrite decode_written; [done| |done]. apply Forall_cons. split; [|done]. split; [done|]. done.
Qed.

Lemma payload_units a : announced_ok a → Forall (λ u, (32 ≤ u)%Z) (an_payload a).
Proof.
  intros [[Hh _] Hi _]. unfold an_payload. rewrite !Forall_app. split_and!; [|done|].
  - vm_decide.
  - apply Forall_concat, Forall_fmap, Forall_cons. split; [by repeat constructor|].
    eapply Forall_impl; [exact Hi|]. intros item. apply written_units.
Qed.

Lemma announcement_read a rest :
  announced_ok a →
  extract (announcement a ++ rest) =
    (path_units ((47%Z, false) :: an_items a) :: (extract rest).1, (extract rest).2).
Proof.
  intros Ha. rewrite extract_unfold. unfold announcement. rewrite <- !app_assoc, cut_here, osc_end_clean by by apply payload_units.
  assert (osc_end ((if an_bell a then bell else stTerminator) ++ rest) = Some ([], rest)) as ->.
  { destruct (an_bell a); cbn [app bell stTerminator]; rewrite osc_end_cons; [done|]. rewrite decide_False by done.
    change (27%Z :: 92%Z :: rest) with (stTerminator ++ rest). by rewrite units_starts_with_app. }
  cbn [fmap option_fmap option_map fst snd]. rewrite app_nil_r, payload_path by done. done.
Qed.

(** ** Properties *)

(** C30: Directories announced by the shell. A path that is announced, with any host,
    any of its characters escaped as UTF-8 and either terminator, is read back exactly,
    and what follows is read as without it. And cutting a stream into chunks changes
    nothing: as long as no chunk ends inside the four characters that open a sequence
    and no open sequence outgrows the buffer, the directories that are reported are the
    ones of the whole stream, in order, and the directory of the input is the last. *)
Theorem osc7_directories_exact :
  (∀ a rest, announced_ok a →
    extract (announcement a ++ rest) =
      (path_units ((47%Z, false) :: an_items a) :: (extract rest).1, (extract rest).2)) ∧
  (∀ chunks directory, boundaries [] chunks →
    let st := foldl osc_chunk (mkOsc [] directory []) chunks in
    ob_reported st = (extract (concat chunks)).1 ∧ ob_directory st = (last (extract (concat chunks)).1 ?: directory)) ∧
  (∀ text, length (extract text).2 ≤ maxOscBufferLength → extractOsc7Directories text = extract text).
Proof.
  split_and!.
  - intros a rest Ha. by apply announcement_read.
  - intros chunks directory Hb. apply (chunks_reported chunks (mkOsc [] directory [])); [by rewrite extract_unfold|done].
  - exact extract_short.
Qed.

(** An announcement whose opening is cut by the end of a chunk is lost. *)
Lemma split_opening_lost :
  let text := osc7Prefix ++ js "file:///tmp" ++ bell in
  (extractOsc7Directories text).1 = [js "/tmp"] ∧
  ob_reported (foldl osc_chunk (mkOsc [] None []) [take 2 text; drop 2 text]) = [].
Proof. by vm_compute. Qed.

(** Chunks that do not cut an opening: the escape may be split. *)
Example split_escape_read :
  let text := osc7Prefix ++ js "file://host/d%C3%A9" ++ stTerminator in
  ob_reported (foldl osc_chunk (mkOsc [] None []) [take 17 text; drop 17 text]) = [[47; 100; 233]%Z].
Proof. by vm_compute. Qed.
