(* ===== verification/TarArchive.v ===== *)
(** * Archives of uploaded directories ([features/layout/WorkspaceShell.tsx])

    The paths of files picked in a browser, how they are grouped into uploads, and the tar
    archive that is made of a directory: its directories, the headers with their octal
    fields, the chunks of the files with their progress, and how the compressed stream is
    appended to the temporary file. Texts are lists of UTF-16 code units, bytes are integers;
    the compression itself is a parameter of the browser. *)

From S2P Require Import Prelude JsString Osc7.
From Stdlib Require Import Lia ZArith.
From stdpp Require Import sorting.

#[local] Open Scope nat_scope.

(** ** Paths of an upload *)

Definition unit_slash : Z := 47.
Definition unit_backslash : Z := 92.

Definition dot : jsstr := js ".".
Definition dot_dot : jsstr := js "..".

(** The parts of a path that count. *)
Definition upload_parts (path : jsstr) : list jsstr :=
  filter (λ part, part ≠ [] ∧ part ≠ dot ∧ part ≠ dot_dot)
    (units_trim <$> split_on unit_slash (replace_unit unit_backslash unit_slash path)).

Definition normalizeUploadRelativePath (path : jsstr) : jsstr := join_with unit_slash (upload_parts path).

(** A file of a browser with its bytes, and the path it was picked with. *)
Record RemoteFileUploadItem := mkUpload {
  uf_name : jsstr;
  uf_data : list Z;
  uf_relativePath : jsstr;
}.

#[export] Instance RemoteFileUploadItem_eq_dec : EqDecision RemoteFileUploadItem.
Proof. solve_decision. Defined.

Definition uf_size (item : RemoteFileUploadItem) : Z := Z.of_nat (length (uf_data item)).

(** [file.webkitRelativePath || file.name], normal. *)
Definition getFileRelativePath (webkitRelativePath : option jsstr) (name : jsstr) : jsstr :=
  normalizeUploadRelativePath (if units_truthy webkitRelativePath then default [] webkitRelativePath else name).

Definition totalUploadBytes (items : list RemoteFileUploadItem) : Z :=
  foldl (λ total item, if decide (normalizeUploadRelativePath (uf_relativePath item) = []) then total else (total + uf_size item)%Z) 0%Z items.

Definition upload_groups : Type := list (jsstr * list RemoteFileUploadItem).

Fixpoint group_add (rootName : jsstr) (item : RemoteFileUploadItem) (groups : upload_groups) : upload_groups :=
  match groups with
  | [] => [(rootName, [item])]
  | (name, group) :: rest =>
      if decide (name = rootName) then (name, group ++ [item]) :: rest else (name, group) :: group_add rootName item rest
  end.

Definition root_name (path : jsstr) : jsstr := default [] (head (split_on unit_slash path)).

Definition groupUploadDirectories (items : list RemoteFileUploadItem) : upload_groups :=
  foldl (λ groups item,
    let relativePath := normalizeUploadRelativePath (uf_relativePath item) in
    let rootName := root_name relativePath in
    if decide (rootName = [] ∨ unit_slash ∉ relativePath) then groups
    else group_add rootName (mkUpload (uf_name item) (uf_data item) relativePath) groups) [] items.

(** What [uploadRemoteItems] uploads: the single files, and a directory for each group. *)
Definition direct_files (items : list RemoteFileUploadItem) : list RemoteFileUploadItem :=
  filter (λ item, unit_slash ∉ normalizeUploadRelativePath (uf_relativePath item)) items.

(** ** Bytes *)

Definition high_surrogate (u : Z) : bool := ((0xd800 <=? u) && (u <? 0xdc00))%Z.
Definition low_surrogate (u : Z) : bool := ((0xdc00 <=? u) && (u <? 0xe000))%Z.

(** [new TextEncoder().encode(value)]: a surrogate without its partner is a replacement character. *)
Fixpoint encode (s : jsstr) : list Z :=
  match s with
  | [] => []
  | u :: rest =>
      if high_surrogate u then
        match rest with
        | v :: rest' =>
            if low_surrogate v then utf8 (0x10000 + (u - 0xd800) * 1024 + (v - 0xdc00))%Z ++ encode rest'
            else utf8 0xfffd ++ encode rest
        | [] => utf8 0xfffd
        end
      else if low_surrogate u then utf8 0xfffd ++ encode rest
      else utf8 u ++ encode rest
  end.

(** [header.set(bytes, offset)] *)
Definition set_bytes (offset : nat) (bytes header : list Z) : list Z :=
  take offset header ++ bytes ++ drop (offset + length bytes) header.

(** [value.toString(8)] of a natural number. *)
Fixpoint octal_loop (fuel : nat) (value : Z) : list Z :=
  match fuel with
  | 0 => []
  | S fuel => (if decide (value / 8 = 0)%Z then [] else octal_loop fuel (value / 8)) ++ [48 + value mod 8]%Z
  end.

Definition to_octal (value : Z) : list Z := octal_loop (S (Z.to_nat (Z.log2 value))) value.

Definition octal_text (length_ : nat) (value : Z) : list Z :=
  let digits := to_octal value in
  take (length_ - 1) (replicate (length_ - 1 - length digits) 48%Z ++ digits).

Definition writeTarOctal (header : list Z) (offset length_ : nat) (value : Z) : list Z :=
  let text := octal_text length_ value in
  set_bytes (offset + length_ - 1) [0%Z] (set_bytes offset text header).

Definition writeTarString (header : list Z) (offset length_ : nat) (value : jsstr) : list Z :=
  set_bytes offset (take length_ (encode value)) header.

(** [s.slice(-n)] *)
Definition take_last_units (n : nat) (s : jsstr) : jsstr := drop (length s - n) s.

(** The name and the prefix of a path. *)
Definition splitTarPath (path : jsstr) : jsstr * jsstr :=
  if decide (length path ≤ 100) then (path, [])
  else
    let segments := split_on unit_slash path in
    let popped := default [] (last segments) in
    let name := if decide (popped = []) then take_last_units 100 path else popped in
    let prefix := join_with unit_slash (removelast segments) in
    ((if decide (100 < length name) then take_last_units 100 name else name),
     (if decide (155 < length prefix) then take_last_units 155 prefix else prefix)).

Definition sum_bytes (bytes : list Z) : Z := foldl Z.add 0%Z bytes.

Section archive.
(** [left.localeCompare(right) > 0], and [Math.floor(Date.now() / 1000)]. *)
Context (locale_gt : jsstr → jsstr → bool) (now : Z).

Definition buildTarHeader (path : jsstr) (size : Z) (directory : bool) : list Z :=
  let header := replicate 512 0%Z in
  let normalizedPath := take 255 (normalizeUploadRelativePath path) in
  let (name, prefix) := splitTarPath normalizedPath in
  let header := writeTarString header 0 100 name in
  let header := writeTarOctal header 100 8 (if directory then 493 else 420) in
  let header := writeTarOctal header 108 8 0 in
  let header := writeTarOctal header 116 8 0 in
  let header := writeTarOctal header 124 12 (if directory then 0 else size) in
  let header := writeTarOctal header 136 12 now in
  let header := set_bytes 148 (replicate 8 32%Z) header in
  let header := set_bytes 156 [if directory then 53%Z else 48%Z] header in
  let header := writeTarString header 257 6 (js "ustar") in
  let header := writeTarString header 263 2 (js "00") in
  let header := writeTarString header 345 155 prefix in
  writeTarOctal header 148 8 (sum_bytes header).

Definition paddingForTarBlock (size : Z) : Z := ((512 - size mod 512) mod 512)%Z.

(** [directories.add(parts.slice(0, index).join("/"))] for every proper prefix. *)
Definition path_directories (path : jsstr) : list jsstr :=
  let parts := split_on unit_slash (normalizeUploadRelativePath path) in
  (λ index, join_with unit_slash (take index parts)) <$> seq 1 (length parts - 1).

Definition add_once (l : list jsstr) (x : jsstr) : list jsstr := if decide (x ∈ l) then l else l ++ [x].

Definition collectTarDirectories (items : list RemoteFileUploadItem) : list jsstr :=
  js_sort locale_gt (foldl add_once [] (items ≫= λ item, path_directories (uf_relativePath item))).

(** ** The archive *)

Inductive ArchivePhase := PhaseRead | PhaseCompress.

#[export] Instance ArchivePhase_eq_dec : EqDecision ArchivePhase.
Proof. solve_decision. Defined.

(** What the writer of an archive does, in order: it writes to the compression, reports the
    bytes of the files it has read, sets the count that the reports of the compression use,
    reports with it, closes the compression, and waits until all of it is appended. *)
Inductive ArchiveStep :=
  | ArchiveWrite (bytes : list Z)
  | ArchiveRead (loadedBytes : Z)
  | ArchiveLoaded (loadedBytes : Z)
  | ArchiveCompress (loadedBytes : Z)
  | ArchiveClose
  | ArchivePersisted.

Definition fileReadChunkBytes : Z := 4194304.

(** [file.slice(from, to)] *)
Definition file_slice (from to : Z) (data : list Z) : list Z := take (Z.to_nat (to - from)) (drop (Z.to_nat from) data).

(** The loop over the chunks of a file; [fuel] is the size of the file. *)
Fixpoint chunk_loop (fuel : nat) (data : list Z) (loadedInFile : Z) : list (list Z * Z) :=
  match fuel with
  | 0 => []
  | S fuel =>
      let size := Z.of_nat (length data) in
      if (size <=? loadedInFile)%Z then []
      else
        let nextOffset := Z.min size (loadedInFile + fileReadChunkBytes) in
        (file_slice loadedInFile nextOffset data, nextOffset) :: chunk_loop fuel data nextOffset
  end.

Definition file_chunks (data : list Z) : list (list Z * Z) := chunk_loop (length data) data 0.

Definition writeFileToTarGzipStream (data : list Z) (loadedBeforeFile : Z) : list ArchiveStep :=
  if decide (data = []) then [ArchiveRead loadedBeforeFile]
  else file_chunks data ≫= λ c, [ArchiveWrite c.1; ArchiveRead (loadedBeforeFile + c.2)].

(** The reports of [writeFileToUploadTemp] between its appends. *)
Definition writeFileToUploadTemp (data : list Z) : list ArchiveStep :=
  if decide (data = []) then [ArchiveRead 0]
  else file_chunks data ≫= λ c, [ArchiveWrite c.1; ArchiveRead c.2].

Fixpoint archive_files (items : list RemoteFileUploadItem) (loadedBytes : Z) : list ArchiveStep :=
  match items with
  | [] => []
  | item :: items =>
      let relativePath := normalizeUploadRelativePath (uf_relativePath item) in
      if decide (relativePath = []) then archive_files items loadedBytes
      else
        ArchiveWrite (buildTarHeader relativePath (uf_size item) false) ::
        writeFileToTarGzipStream (uf_data item) loadedBytes ++
        ArchiveLoaded (loadedBytes + uf_size item) ::
        ArchiveWrite (replicate (Z.to_nat (paddingForTarBlock (uf_size item))) 0%Z) ::
        archive_files items (loadedBytes + uf_size item)
  end.

Definition buildTarGzArchiveToTemp (items : list RemoteFileUploadItem) : list ArchiveStep :=
  ((λ directory, ArchiveWrite (buildTarHeader (directory ++ [unit_slash]) 0 true)) <$> collectTarDirectories items) ++
  archive_files items 0 ++
  [ArchiveLoaded (totalUploadBytes items); ArchiveCompress (totalUploadBytes items); ArchiveWrite (replicate 1024 0%Z);
   ArchiveClose; ArchivePersisted; ArchiveCompress (totalUploadBytes items)].

Definition written (steps : list ArchiveStep) : list Z :=
  steps ≫= λ step, match step with ArchiveWrite bytes => bytes | _ => [] end.
End archive.

(** ** The compressed stream

    [persistGzip] reads the compressed stream while the writer fills it. An append that
    is in flight holds it; when it ends, the count of the appended bytes grows and the
    progress is reported with the count of the writer at that time. *)

Record GzipPersist := mkPersist {
  gz_pending : list (list Z);
  gz_appending : option (list Z);
  gz_appended : list (list Z);
  gz_done : bool;
}.

Definition uploadTempAppendChunkBytes : Z := fileReadChunkBytes.

(** Until the wait for the append. *)
Definition flushGzipChunks (st : GzipPersist) : GzipPersist :=
  if decide (concat (gz_pending st) = []) then st
  else mkPersist [] (Some (concat (gz_pending st))) (gz_appended st) (gz_done st).

Definition persist_chunk (st : GzipPersist) (value : list Z) : GzipPersist :=
  if decide (value = []) then st
  else
    let st := mkPersist (gz_pending st ++ [value]) (gz_appending st) (gz_appended st) (gz_done st) in
    if (uploadTempAppendChunkBytes <=? Z.of_nat (length (concat (gz_pending st))))%Z then flushGzipChunks st else st.

Definition persist_end (st : GzipPersist) : GzipPersist :=
  flushGzipChunks (mkPersist (gz_pending st) (gz_appending st) (gz_appended st) true).

Definition persist_over (st : GzipPersist) : bool := gz_done st && bool_decide (gz_appending st = None).

(** [ArchiveBuildProgress] *)
Record ArchiveReport := mkArchiveReport {
  ap_phase : ArchivePhase;
  ap_archiveBytes : Z;
  ap_loadedBytes : Z;
}.

(** The writer, with the steps left to it, and the reader of the stream. *)
Record ArchiveRun := mkArchiveRun {
  ar_steps : list ArchiveStep;
  ar_loadedBytes : Z;
  ar_closed : bool;
  ar_archiveBytes : Z;
  ar_persist : GzipPersist;
  ar_reports : list ArchiveReport;
}.

Inductive ArchiveEvent :=
  | AeWriter
  | AeChunk (value : list Z)
  | AeEnd
  | AeAppended.

Definition archive_report (report : ArchiveReport) (s : ArchiveRun) : ArchiveRun :=
  mkArchiveRun (ar_steps s) (ar_loadedBytes s) (ar_closed s) (ar_archiveBytes s) (ar_persist s) (ar_reports s ++ [report]).

Definition archive_persist (persist : GzipPersist) (s : ArchiveRun) : ArchiveRun :=
  mkArchiveRun (ar_steps s) (ar_loadedBytes s) (ar_closed s) (ar_archiveBytes s) persist (ar_reports s).

(** The next step of the writer. *)
Definition writer_step (s : ArchiveRun) : ArchiveRun :=
  match ar_steps s with
  | [] => s
  | step :: steps =>
      let next := mkArchiveRun steps (ar_loadedBytes s) (ar_closed s) (ar_archiveBytes s) (ar_persist s) (ar_reports s) in
      match step with
      | ArchiveWrite _ => next
      | ArchiveRead loaded => archive_report (mkArchiveReport PhaseRead 0 loaded) next
      | ArchiveLoaded loaded => mkArchiveRun steps loaded (ar_closed s) (ar_archiveBytes s) (ar_persist s) (ar_reports s)
      | ArchiveCompress loaded => archive_report (mkArchiveReport PhaseCompress (ar_archiveBytes s) loaded) next
      | ArchiveClose => mkArchiveRun steps (ar_loadedBytes s) true (ar_archiveBytes s) (ar_persist s) (ar_reports s)
      | ArchivePersisted => if persist_over (ar_persist s) then next else s
      end
  end.

(** The end of the append that is in flight. *)
Definition append_over (chunk : list Z) (s : ArchiveRun) : ArchiveRun :=
  let st := ar_persist s in
  let archiveBytes := (ar_archiveBytes s + Z.of_nat (length chunk))%Z in
  mkArchiveRun (ar_steps s) (ar_loadedBytes s) (ar_closed s) archiveBytes
    (mkPersist (gz_pending st) None (gz_appended st ++ [chunk]) (gz_done st))
    (ar_reports s ++ [mkArchiveReport PhaseCompress archiveBytes (ar_loadedBytes s)]).

(** The stream is read when nothing is being appended, and it ends after it was closed. *)
Definition reads_stream (s : ArchiveRun) : bool :=
  bool_decide (gz_appending (ar_persist s) = None) && negb (gz_done (ar_persist s)).

Definition archive_event (s : ArchiveRun) (event : ArchiveEvent) : ArchiveRun :=
  match event with
  | AeWriter => writer_step s
  | AeChunk value => if reads_stream s then archive_persist (persist_chunk (ar_persist s) value) s else s
  | AeEnd => if reads_stream s && ar_closed s then archive_persist (persist_end (ar_persist s)) s else s
  | AeAppended => match gz_appending (ar_persist s) with Some chunk => append_over chunk s | None => s end
  end.

Definition archive_run (steps : list ArchiveStep) (events : list ArchiveEvent) : ArchiveRun :=
  foldl archive_event (mkArchiveRun steps 0 false 0 (mkPersist [] None [] false) []) events.

(** What was read from the stream: the chunks that came while it was read. *)
Fixpoint streamed (s : ArchiveRun) (events : list ArchiveEvent) : list Z :=
  match events with
  | [] => []
  | event :: events =>
      (match event with AeChunk value => if reads_stream s then value else [] | _ => [] end) ++
      streamed (archive_event s event) events
  end.

(** ** A reader of archives *)

(** The bytes of a field up to its end. *)
Fixpoint until_nul (bytes : list Z) : list Z :=
  match bytes with b :: bytes => if decide (b = 0%Z) then [] else b :: until_nul bytes | [] => [] end.

Definition read_octal (bytes : list Z) : Z := foldl (λ v b, v * 8 + (b - 48))%Z 0%Z (until_nul bytes).

Definition field (from length_ : nat) (header : list Z) : list Z := take length_ (drop from header).

(** The sum of a header whose own checksum counts as blanks. *)
Definition header_sum (header : list Z) : Z := (sum_bytes (take 148 header) + 8 * 32 + sum_bytes (drop 156 header))%Z.

Record TarHeader := mkTarHeader {
  th_path : list Z;
  th_directory : bool;
  th_size : Z;
}.

Definition read_header (header : list Z) : option TarHeader :=
  if negb (read_octal (field 148 8 header) =? header_sum header)%Z then None
  else
    let name := until_nul (field 0 100 header) in
    let prefix := until_nul (field 345 155 header) in
    Some (mkTarHeader (if decide (prefix = []) then name else prefix ++ unit_slash :: name)
      (bool_decide (field 156 1 header = [53%Z])) (read_octal (field 124 12 header))).

(** The members up to the block of zeros, each with its header and its bytes. *)
Fixpoint read_archive (fuel : nat) (bytes : list Z) : option (list (TarHeader * list Z)) :=
  match fuel with
  | 0 => None
  | S fuel =>
      let header := take 512 bytes in
      if decide (header = replicate 512 0%Z) then Some []
      else
        h ← read_header header;
        let body := drop 512 bytes in
        let size := Z.to_nat (th_size h) in
        rest ← read_archive fuel (drop (size + Z.to_nat (paddingForTarBlock (th_size h))) body);
        Some ((h, take size body) :: rest)
  end.

(** ** Lemmas: fields *)

Lemma set_bytes_at (a b c bytes : list Z) :
  length bytes ≤ length b → set_bytes (length a) bytes (a ++ b ++ c) = a ++ (bytes ++ drop (length bytes) b) ++ c.
Proof.
  intros Hb. unfold set_bytes. rewrite take_app_length, drop_app_ge by lia.
  replace (length a + length bytes - length a) with (length bytes) by lia.
  by rewrite drop_app_le, <- !app_assoc by lia.
Qed.

(** A field that is not written yet. *)
Lemma set_zeros (off n : nat) (a c bytes : list Z) :
  off = length a → length bytes ≤ n →
  set_bytes off bytes (a ++ replicate n 0%Z ++ c) = a ++ (bytes ++ replicate (n - length bytes) 0%Z) ++ c.
Proof. intros -> Hn. rewrite set_bytes_at by (by rewrite length_replicate). by rewrite drop_replicate. Qed.

Lemma set_whole (off n : nat) (a b c bytes : list Z) :
  off = length a → length b = n → length bytes = n → set_bytes off bytes (a ++ b ++ c) = a ++ bytes ++ c.
Proof. intros -> Hb Hn. rewrite set_bytes_at by lia. rewrite drop_ge by lia. by rewrite app_nil_r. Qed.

(** Octal digits *)
Fixpoint digits8 (k : nat) (n : Z) : list Z :=
  match k with 0 => [] | S k => digits8 k (n / 8) ++ [48 + n mod 8]%Z end.

Lemma digits8_length k n : length (digits8 k n) = k.
Proof. revert n. induction k as [|k IH]; intros n; cbn; [done|]. rewrite length_app, IH. cbn. lia. Qed.

Lemma digits8_zero k : digits8 k 0 = replicate k 48%Z.
Proof.
  induction k as [|k IH]; [done|]. cbn [digits8]. rewrite Zdiv_0_l, IH. change ([48 + 0 mod 8])%Z with (replicate 1 48%Z).
  rewrite <- replicate_add. f_equal. lia.
Qed.

Lemma digits8_range k n : Forall (λ b, 48 ≤ b < 56)%Z (digits8 k n).
Proof.
  revert n. induction k as [|k IH]; intros n; cbn; [done|]. apply Forall_app. split; [apply IH|].
  constructor; [|done]. pose proof (Z.mod_pos_bound n 8). lia.
Qed.

Lemma octal_loop_digits fuel k n :
  (0 ≤ n < 8 ^ Z.of_nat k)%Z → (n < 8 ^ Z.of_nat fuel)%Z → 1 ≤ k → 1 ≤ fuel →
  length (octal_loop fuel n) ≤ k ∧ replicate (k - length (octal_loop fuel n)) 48%Z ++ octal_loop fuel n = digits8 k n.
Proof.
  revert k n. induction fuel as [|fuel IH]; intros k n Hn Hf Hk H1; [lia|]. destruct k as [|k]; [lia|].
  cbn [octal_loop digits8]. rewrite Nat2Z.inj_succ, Z.pow_succ_r in Hn, Hf by lia.
  pose proof (Z.div_mod n 8 ltac:(lia)) as Hdm. pose proof (Z.mod_pos_bound n 8 ltac:(lia)) as Hm.
  case_decide as Hz.
  - rewrite Hz, digits8_zero. cbn. split; [lia|]. by rewrite Nat.sub_0_r.
  - assert (1 ≤ k ∧ 1 ≤ fuel) as [Hk' Hf'] by (split; [destruct k|destruct fuel]; cbn in *; lia).
    destruct (IH k (n / 8)%Z) as [Hl Heq]; [lia..|]. rewrite length_app. cbn [length]. split; [lia|].
    replace (S k - (length (octal_loop fuel (n / 8)) + 1)) with (k - length (octal_loop fuel (n / 8))) by lia.
    by rewrite app_assoc, Heq.
Qed.

Lemma octal_text_digits k n : (0 ≤ n < 8 ^ Z.of_nat k)%Z → 1 ≤ k → octal_text (S k) n = digits8 k n.
Proof.
  intros Hn Hk. unfold octal_text, to_octal. replace (S k - 1) with k by lia.
  destruct (octal_loop_digits (S (Z.to_nat (Z.log2 n))) k n) as [Hl Heq]; [done| |done|lia|].
  - destruct (decide (n = 0)%Z) as [->|Hne]; [done|]. pose proof (Z.log2_spec n ltac:(lia)) as [_ Hlog].
    rewrite Nat2Z.inj_succ, Z2Nat.id by apply Z.log2_nonneg. eapply Z.lt_le_trans; [exact Hlog|].
    apply Z.pow_le_mono_l. pose proof (Z.log2_nonneg n). lia.
  - rewrite Heq. apply take_ge. by rewrite digits8_length.
Qed.

Lemma until_nul_app a c : Forall (λ b, b ≠ 0%Z) a → until_nul (a ++ 0%Z :: c) = a.
Proof. induction 1 as [|b a Hb _ IH]; [done|]. cbn. rewrite decide_False by done. by f_equal. Qed.

Lemma until_nul_zeros a n : Forall (λ b, b ≠ 0%Z) a → until_nul (a ++ replicate n 0%Z) = a.
Proof.
  destruct n as [|n]; [|by apply until_nul_app]. rewrite app_nil_r.
  induction 1 as [|b a Hb _ IH]; [done|]. cbn. rewrite decide_False by done. by f_equal.
Qed.

Lemma digits8_value k n : (0 ≤ n < 8 ^ Z.of_nat k)%Z → foldl (λ v b, v * 8 + (b - 48))%Z 0%Z (digits8 k n) = n.
Proof.
  revert n. induction k as [|k IH]; intros n Hn; [cbn in *; lia|]. cbn [digits8]. rewrite foldl_app. cbn [foldl].
  rewrite Nat2Z.inj_succ, Z.pow_succ_r in Hn by lia.
  pose proof (Z.div_mod n 8 ltac:(lia)). pose proof (Z.mod_pos_bound n 8 ltac:(lia)). rewrite IH; lia.
Qed.

Lemma read_octal_field k n : (0 ≤ n < 8 ^ Z.of_nat k)%Z → read_octal (digits8 k n ++ [0%Z]) = n.
Proof.
  intros Hn. unfold read_octal. rewrite until_nul_app; [by apply digits8_value|].
  eapply Forall_impl; [apply digits8_range|]. cbn. lia.
Qed.

(** Writing an octal field leaves its digits and a zero. *)
Lemma write_octal (off k : nat) (a b c : list Z) n :
  off = length a → length b = S k → (0 ≤ n < 8 ^ Z.of_nat k)%Z → 1 ≤ k →
  writeTarOctal (a ++ b ++ c) off (S k) n = a ++ (digits8 k n ++ [0%Z]) ++ c.
Proof.
  intros -> Hb Hn Hk. unfold writeTarOctal. rewrite octal_text_digits by done.
  rewrite set_bytes_at by (rewrite digits8_length; lia). rewrite digits8_length.
  destruct b as [|x b _] using rev_ind; [done|]. rewrite length_app in Hb. cbn in Hb.
  rewrite drop_app_le, drop_ge by lia. cbn [app]. rewrite <- app_assoc.
  rewrite (app_assoc a), (set_whole _ 1 (a ++ digits8 k n) [x] c [0%Z]); [by rewrite <- !app_assoc| |done..].
  rewrite length_app, digits8_length. lia.
Qed.

(** ** Lemmas: a header as a list of fields *)

Lemma set_field (i off : nat) (fields : list (list Z)) (b bytes : list Z) :
  fields !! i = Some b → off = length (concat (take i fields)) → length bytes = length b →
  set_bytes off bytes (concat fields) = concat (<[i := bytes]> fields).
Proof.
  intros Hi Hoff Hb. rewrite <- (take_drop_middle fields i b Hi) at 1.
  rewrite insert_take_drop by (by eapply lookup_lt_Some).
  rewrite !concat_app. cbn [concat]. by rewrite (set_whole off (length b)).
Qed.

Lemma octal_field (i off k : nat) (fields : list (list Z)) (b : list Z) n :
  fields !! i = Some b → off = length (concat (take i fields)) → length b = S k → (0 ≤ n < 8 ^ Z.of_nat k)%Z → 1 ≤ k →
  writeTarOctal (concat fields) off (S k) n = concat (<[i := digits8 k n ++ [0%Z]]> fields).
Proof.
  intros Hi Hoff Hb Hn Hk. rewrite <- (take_drop_middle fields i b Hi) at 1.
  rewrite insert_take_drop by (by eapply lookup_lt_Some).
  rewrite !concat_app. cbn [concat]. by rewrite (write_octal off k).
Qed.

(** A text in a field of zeros. *)
Definition text_field (n : nat) (bytes : list Z) : list Z := bytes ++ replicate (n - length bytes) 0%Z.

Lemma text_field_length n bytes : length bytes ≤ n → length (text_field n bytes) = n.
Proof. intros H. unfold text_field. rewrite length_app, length_replicate. lia. Qed.

Lemma string_field (i off n : nat) (fields : list (list Z)) (value : jsstr) :
  fields !! i = Some (replicate n 0%Z) → off = length (concat (take i fields)) → length (encode value) ≤ n →
  writeTarString (concat fields) off n value = concat (<[i := text_field n (encode value)]> fields).
Proof.
  intros Hi Hoff Hn. rewrite <- (take_drop_middle fields i _ Hi) at 1.
  rewrite insert_take_drop by (by eapply lookup_lt_Some).
  rewrite !concat_app. cbn [concat]. unfold writeTarString. rewrite take_ge by done. by rewrite set_zeros.
Qed.

Definition header_fields (name prefix : list Z) (directory : bool) (size now : Z) (checksum : list Z) : list (list Z) :=
  [text_field 100 name; digits8 7 (if directory then 493 else 420) ++ [0%Z]; digits8 7 0 ++ [0%Z]; digits8 7 0 ++ [0%Z];
   digits8 11 (if directory then 0 else size) ++ [0%Z]; digits8 11 now ++ [0%Z]; checksum; [if directory then 53%Z else 48%Z];
   replicate 100 0%Z; text_field 6 (js "ustar"); js "00"; replicate 80 0%Z; text_field 155 prefix; replicate 12 0%Z].

(** Sizes and times that fit their fields. *)
Definition fits (n : Z) : Prop := (0 ≤ n < 8 ^ 11)%Z.

Ltac header_length :=
  cbn [take concat]; rewrite ?length_app, ?digits8_length, ?length_replicate, ?text_field_length by first [done | vm_compute; lia];
  change (length (js "00")) with 2; cbn [length]; lia.

Lemma header_written now path size directory :
  let names := splitTarPath (take 255 (normalizeUploadRelativePath path)) in
  length (encode names.1) ≤ 100 → length (encode names.2) ≤ 155 → fits size → fits now →
  let fields := header_fields (encode names.1) (encode names.2) directory size now in
  buildTarHeader now path size directory = writeTarOctal (concat (fields (replicate 8 32%Z))) 148 8 (sum_bytes (concat (fields (replicate 8 32%Z)))).
Proof.
  intros names Hn Hp Hs Ht fields. unfold buildTarHeader. fold names. destruct names as [name prefix]. cbn [fst snd] in *.
  assert (∀ h h', h = h' → writeTarOctal h 148 8 (sum_bytes h) = writeTarOctal h' 148 8 (sum_bytes h')) as Heq by (by intros h h' ->).
  apply Heq. clear Heq. unfold fits in *.
  assert (0 ≤ (if directory then 493 else 420) < 8 ^ Z.of_nat 7)%Z as Hmode by (by destruct directory).
  assert (0 ≤ (if directory then 0 else size) < 8 ^ Z.of_nat 11)%Z as Hsize by (destruct directory; [done|lia]).
  assert (replicate 512 0%Z = concat [replicate 100 0%Z; replicate 8 0%Z; replicate 8 0%Z; replicate 8 0%Z; replicate 12 0%Z;
    replicate 12 0%Z; replicate 8 0%Z; replicate 1 0%Z; replicate 100 0%Z; replicate 6 0%Z; replicate 2 0%Z; replicate 80 0%Z;
    replicate 155 0%Z; replicate 12 0%Z]) as -> by (vm_compute; reflexivity).
  rewrite (string_field 0 0 100) by (done || header_length). cbn [insert list_insert].
  rewrite (octal_field 1 100 7 _ (replicate 8 0%Z)) by (done || lia || header_length). cbn [insert list_insert].
  rewrite (octal_field 2 108 7 _ (replicate 8 0%Z)) by (done || lia || header_length). cbn [insert list_insert].
  rewrite (octal_field 3 116 7 _ (replicate 8 0%Z)) by (done || lia || header_length). cbn [insert list_insert].
  rewrite (octal_field 4 124 11 _ (replicate 12 0%Z)) by (done || lia || header_length). cbn [insert list_insert].
  rewrite (octal_field 5 136 11 _ (replicate 12 0%Z)) by (done || lia || header_length). cbn [insert list_insert].
  rewrite (set_field 6 148 _ (replicate 8 0%Z)) by (done || header_length). cbn [insert list_insert].
  rewrite (set_field 7 156 _ (replicate 1 0%Z)) by (done || header_length). cbn [insert list_insert].
  rewrite (string_field 9 257 6) by first [done | header_length | vm_compute; lia]. cbn [insert list_insert].
  rewrite (string_field 10 263 2) by first [done | header_length | vm_compute; lia]. cbn [insert list_insert].
  rewrite (string_field 12 345 155) by (done || header_length). cbn [insert list_insert].
  done.
Qed.

(** ** Lemmas: bytes of a text *)

Definition is_byte (b : Z) : Prop := (0 ≤ b < 256)%Z.
Definition units_ok (s : jsstr) : Prop := Forall (λ u, 0 < u < 65536)%Z s.

#[local] Ltac Zify.zify_post_hook ::= Z.to_euclidean_division_equations.

Lemma utf8_bytes_ok cp : (0 < cp < 0x110000)%Z → Forall (λ b, b ≠ 0%Z ∧ is_byte b) (utf8 cp).
Proof.
  intros Hcp. unfold utf8, is_byte. destruct (Z.ltb_spec cp 0x80); [|destruct (Z.ltb_spec cp 0x800); [|destruct (Z.ltb_spec cp 0x10000)]].
  all: repeat (constructor; [lia|]); done.
Qed.

Lemma utf8_length cp : 1 ≤ length (utf8 cp) ∧ ((0x10000 ≤ cp)%Z → 2 ≤ length (utf8 cp)).
Proof. unfold utf8. destruct (Z.ltb_spec cp 0x80), (Z.ltb_spec cp 0x800), (Z.ltb_spec cp 0x10000); cbn; split; try lia. Qed.

(** [encode] by code points: a pair, a lone surrogate, or a plain unit. *)
Lemma encode_ind (P : jsstr → list Z → Prop) :
  P [] [] →
  (∀ u v rest bytes, high_surrogate u = true → low_surrogate v = true → P rest bytes →
     P (u :: v :: rest) (utf8 (0x10000 + (u - 0xd800) * 1024 + (v - 0xdc00))%Z ++ bytes)) →
  (∀ u rest bytes cp, (cp = u ∨ cp = 0xfffd)%Z → P rest bytes → P (u :: rest) (utf8 cp ++ bytes)) →
  ∀ s, P s (encode s).
Proof.
  intros H0 H2 H1 s. remember (length s) as n eqn:Hn. revert s Hn. induction n as [n IH] using lt_wf_ind. intros s ->.
  destruct s as [|u rest]; [done|]. cbn [encode].
  destruct (high_surrogate u) eqn:Hu.
  - destruct rest as [|v rest].
    + rewrite <- (app_nil_r (utf8 0xfffd)). apply H1; [by right|done].
    + destruct (low_surrogate v) eqn:Hv.
      * apply H2; [done..|]. eapply IH; [|done]. cbn. lia.
      * apply H1; [by right|]. eapply IH; [|done]. cbn. lia.
  - destruct (low_surrogate u); apply H1; auto; (eapply IH; [|done]; cbn; lia).
Qed.

Lemma encode_ok s : units_ok s → Forall (λ b, b ≠ 0%Z ∧ is_byte b) (encode s).
Proof.
  apply (encode_ind (λ s bytes, units_ok s → Forall (λ b, b ≠ 0%Z ∧ is_byte b) bytes)); unfold units_ok.
  - done.
  - intros u v rest bytes Hu%andb_true_iff Hv%andb_true_iff IH [Hu' [Hv' Hr]%Forall_cons]%Forall_cons.
    apply Forall_app. split; [|by apply IH]. apply utf8_bytes_ok. lia.
  - intros u rest bytes cp Hcp IH [Hu Hr]%Forall_cons. apply Forall_app. split; [|by apply IH].
    apply utf8_bytes_ok. destruct Hcp; lia.
Qed.

Lemma encode_length s : length s ≤ length (encode s).
Proof.
  apply (encode_ind (λ s bytes, length s ≤ length bytes)); cbn.
  - lia.
  - intros u v rest bytes Hu%andb_true_iff Hv%andb_true_iff IH. rewrite length_app.
    pose proof (proj2 (utf8_length (0x10000 + (u - 0xd800) * 1024 + (v - 0xdc00))%Z)). lia.
  - intros u rest bytes cp _ IH. rewrite length_app. pose proof (proj1 (utf8_length cp)). lia.
Qed.

Lemma encode_slash a b : encode (a ++ unit_slash :: b) = encode a ++ unit_slash :: encode b.
Proof.
  remember (length a) as n eqn:Hn. revert a Hn. induction n as [n IH] using lt_wf_ind. intros a ->.
  destruct a as [|u a]; [done|]. cbn [app encode].
  assert (∀ a', length a' < length (u :: a) → encode (a' ++ unit_slash :: b) = encode a' ++ unit_slash :: encode b) as Hgo.
  { intros a' Ha. eapply IH; [exact Ha|done]. }
  destruct (high_surrogate u).
  - destruct a as [|v a].
    + cbn [app]. change (low_surrogate unit_slash) with false. cbn [encode]. change (high_surrogate unit_slash) with false.
      change (low_surrogate unit_slash) with false. done.
    + cbn [app]. destruct (low_surrogate v).
      * rewrite Hgo by (cbn; lia). by rewrite app_assoc.
      * change (v :: a ++ unit_slash :: b) with ((v :: a) ++ unit_slash :: b). rewrite Hgo by (cbn; lia). by rewrite app_assoc.
  - rewrite Hgo by (cbn; lia). destruct (low_surrogate u); by rewrite app_assoc.
Qed.

Lemma encode_nil s : encode s = [] ↔ s = [].
Proof. split; [|by intros ->]. intros H. pose proof (encode_length s) as Hl. rewrite H in Hl. by destruct s; [|cbn in Hl; lia]. Qed.

(** ** Lemmas: reading a header *)

Lemma field_at (i from n : nat) (fields : list (list Z)) (b : list Z) :
  fields !! i = Some b → from = length (concat (take i fields)) → n = length b → field from n (concat fields) = b.
Proof.
  intros Hi -> ->. unfold field. rewrite <- (take_drop_middle fields i b Hi) at 2. rewrite concat_app. cbn [concat].
  by rewrite drop_app_length, take_app_length.
Qed.

Lemma foldl_add (l : list Z) x : foldl Z.add x l = (x + foldl Z.add 0 l)%Z.
Proof.
  revert x. induction l as [|y l IH]; intros x; cbn [foldl]; [lia|].
  rewrite (IH (x + y)%Z), (IH (0 + y)%Z). lia.
Qed.

Lemma sum_cons x l : sum_bytes (x :: l) = (x + sum_bytes l)%Z.
Proof. unfold sum_bytes. cbn [foldl]. by rewrite foldl_add. Qed.

Lemma sum_app a b : sum_bytes (a ++ b) = (sum_bytes a + sum_bytes b)%Z.
Proof. unfold sum_bytes. by rewrite foldl_app, foldl_add. Qed.

Lemma sum_bound l : Forall is_byte l → (0 ≤ sum_bytes l ≤ 255 * Z.of_nat (length l))%Z.
Proof.
  induction 1 as [|b l Hb _ IH]; [done|]. unfold sum_bytes in *. cbn [foldl length]. rewrite foldl_add. unfold is_byte in Hb. lia.
Qed.

Definition octet (b : list Z) : Prop := Forall is_byte b.

Lemma digits8_octet k n : octet (digits8 k n ++ [0%Z]).
Proof.
  apply Forall_app. split; [eapply Forall_impl; [apply digits8_range|]; unfold is_byte; cbn; lia|].
  by constructor.
Qed.

Lemma zeros_octet n : octet (replicate n 0%Z).
Proof. apply Forall_replicate. by unfold is_byte. Qed.

Lemma header_octets name prefix directory size now checksum :
  octet name → octet prefix → octet checksum → octet (concat (header_fields name prefix directory size now checksum)).
Proof.
  intros Hn Hp Hc. unfold octet. apply Forall_concat. unfold header_fields, text_field.
  assert (octet (js "ustar")) as Hu by (repeat (constructor; [by unfold is_byte|]); done).
  assert (octet (js "00")) as Hv by (repeat (constructor; [by unfold is_byte|]); done).
  assert (octet [if directory then 53%Z else 48%Z]) as Ht by (constructor; [destruct directory; by unfold is_byte|done]).
  repeat (apply Forall_cons_2;
    [first [done | apply digits8_octet | apply zeros_octet | apply Forall_app; split; [done | apply zeros_octet]]|]).
  done.
Qed.

Lemma header_fields_length name prefix directory size now checksum :
  length name ≤ 100 → length prefix ≤ 155 → length checksum = 8 →
  length (concat (header_fields name prefix directory size now checksum)) = 512.
Proof.
  intros Hn Hp Hc. unfold header_fields. cbn [concat].
  rewrite ?length_app, ?digits8_length, ?length_replicate, Hc, !text_field_length by first [done|vm_compute; lia].
  cbn [length]. vm_compute. reflexivity.
Qed.

(** What the sum of a header is, around its checksum. *)
Lemma header_sum_around (front checksum back : list Z) :
  length front = 148 → length checksum = 8 →
  header_sum (front ++ checksum ++ back) = (sum_bytes front + 256 + sum_bytes back)%Z.
Proof.
  intros Hf Hc. unfold header_sum. rewrite <- Hf at 1. rewrite take_app_length.
  rewrite app_assoc, drop_app_length' by (rewrite length_app; lia). lia.
Qed.

Definition front_fields (name : list Z) (directory : bool) (size now : Z) : list Z :=
  concat (take 6 (header_fields name [] directory size now [])).
Definition back_fields (prefix : list Z) (directory : bool) : list Z :=
  concat (drop 7 (header_fields [] prefix directory 0 0 [])).

Lemma header_parts name prefix directory size now checksum :
  concat (header_fields name prefix directory size now checksum) =
  front_fields name directory size now ++ checksum ++ back_fields prefix directory.
Proof.
  unfold front_fields, back_fields, header_fields. cbn [take drop concat]. by rewrite <- !app_assoc.
Qed.

Lemma front_length name directory size now : length name ≤ 100 → length (front_fields name directory size now) = 148.
Proof.
  intros Hn. unfold front_fields, header_fields. cbn [take concat].
  rewrite ?length_app, ?digits8_length, text_field_length by done. done.
Qed.

Lemma header_total name prefix directory size now :
  octet name → octet prefix → length name ≤ 100 → length prefix ≤ 155 →
  (0 ≤ sum_bytes (concat (header_fields name prefix directory size now (replicate 8 32%Z))) < 8 ^ Z.of_nat 7)%Z.
Proof.
  intros Hn Hp Hln Hlp. assert (octet (replicate 8 32%Z)) as Hb by (apply Forall_replicate; by unfold is_byte).
  pose proof (sum_bound _ (header_octets name prefix directory size now _ Hn Hp Hb)) as Ht.
  rewrite header_fields_length in Ht by done. change (8 ^ Z.of_nat 7)%Z with 2097152%Z.
  change (255 * Z.of_nat 512)%Z with 130560%Z in Ht. lia.
Qed.

(** The header of a member, read back: its path, whether it is a directory, and its size. *)
Lemma read_written name prefix directory size now :
  Forall (λ b, b ≠ 0%Z ∧ is_byte b) name → Forall (λ b, b ≠ 0%Z ∧ is_byte b) prefix →
  length name ≤ 100 → length prefix ≤ 155 → fits size → fits now →
  let fields := header_fields name prefix directory size now in
  let header := writeTarOctal (concat (fields (replicate 8 32%Z))) 148 8 (sum_bytes (concat (fields (replicate 8 32%Z)))) in
  length header = 512 ∧ header ≠ replicate 512 0%Z ∧
  read_header header =
    Some (mkTarHeader (if decide (prefix = []) then name else prefix ++ unit_slash :: name) directory (if directory then 0 else size)%Z).
Proof.
  intros Hname Hprefix Hn Hp Hs Ht fields header.
  pose proof (Forall_impl _ (λ b, b ≠ 0%Z) _ Hname (λ b H, proj1 H)) as Hnz.
  pose proof (Forall_impl _ (λ b, b ≠ 0%Z) _ Hprefix (λ b H, proj1 H)) as Hpz.
  pose proof (header_total name prefix directory size now (Forall_impl _ _ _ Hname (λ b H, proj2 H)) (Forall_impl _ _ _ Hprefix (λ b H, proj2 H)) Hn Hp) as Htotal.
  assert (sum_bytes (concat (fields (replicate 8 32%Z))) = (sum_bytes (front_fields name directory size now) + 256 + sum_bytes (back_fields prefix directory))%Z) as Hsplit.
  { unfold fields. rewrite header_parts, !sum_app. change (sum_bytes (replicate 8 32%Z)) with 256%Z. lia. }
  fold fields in Htotal. subst header. set (total := sum_bytes (concat (fields (replicate 8 32%Z)))) in *. clearbody total.
  rewrite (octal_field 6 148 7 _ (replicate 8 32%Z)) by first [done|exact Htotal|lia|unfold fields, header_fields; header_length].
  change (<[6 := digits8 7 total ++ [0%Z]]> (fields (replicate 8 32%Z))) with (fields (digits8 7 total ++ [0%Z])).
  set (header := concat (fields (digits8 7 total ++ [0%Z]))).
  assert (header_sum header = total) as Hsum.
  { unfold header, fields. rewrite header_parts, header_sum_around by (first [by apply front_length | by rewrite length_app, digits8_length]). done. }
  assert (read_octal (field 148 8 header) = total) as Hchecksum.
  { unfold header. rewrite (field_at 6 148 8 _ (digits8 7 total ++ [0%Z])); [by apply read_octal_field|done| |by rewrite length_app, digits8_length].
    unfold fields, header_fields. header_length. }
  split_and!.
  - unfold header, fields. apply header_fields_length; [done..|]. by rewrite length_app, digits8_length.
  - intros Hz. rewrite Hz in Hsum, Hchecksum. rewrite <- Hsum in Hchecksum. by vm_compute in Hchecksum.
  - unfold read_header. rewrite Hchecksum, Hsum, Z.eqb_refl. cbn [negb]. unfold header.
    rewrite (field_at 0 0 100 _ (text_field 100 name)) by first [done|by rewrite text_field_length].
    rewrite (field_at 12 345 155 _ (text_field 155 prefix)) by first [done|by rewrite text_field_length|unfold fields, header_fields; header_length].
    rewrite (field_at 7 156 1 _ [if directory then 53%Z else 48%Z]) by first [done|unfold fields, header_fields; header_length].
    rewrite (field_at 4 124 12 _ (digits8 11 (if directory then 0 else size) ++ [0%Z]))
      by first [done|by rewrite length_app, digits8_length|unfold fields, header_fields; header_length].
    unfold text_field. rewrite !until_nul_zeros by done. f_equal. f_equal.
    + by destruct directory.
    + apply read_octal_field. destruct directory; [done|]. exact Hs.
Qed.

(** ** Lemmas: normal paths *)

(** What trimming leaves at its ends. *)
Definition end_ok (c : option Z) : Prop := match c with Some c => is_white c = false | None => True end.

Lemma trim_start_suffix_of s : ∃ w, s = w ++ units_trim_start s.
Proof.
  induction s as [|c s [w Hw]]; [by exists []|]. cbn. destruct (is_white c); [|by exists []].
  exists (c :: w). cbn. by f_equal.
Qed.

Lemma trim_start_head_ok s : end_ok (head (units_trim_start s)).
Proof. induction s as [|c s IH]; [done|]. cbn. destruct (is_white c) eqn:Hc; done. Qed.

Lemma rev_reverse (s : jsstr) : rev s = reverse s.
Proof. by rewrite rev_alt. Qed.

Lemma units_trim_ends s : end_ok (head (units_trim s)) ∧ end_ok (last (units_trim s)).
Proof.
  unfold units_trim, units_trim_end. set (t := units_trim_start s). split.
  - destruct (trim_start_suffix_of (rev t)) as [w Hw]. apply (f_equal (@rev Z)) in Hw. rewrite rev_involutive, rev_app_distr in Hw.
    pose proof (trim_start_head_ok s) as Ht. fold t in Ht. rewrite Hw in Ht.
    destruct (rev (units_trim_start (rev t))); [done|]. exact Ht.
  - rewrite rev_reverse, last_reverse. apply trim_start_head_ok.
Qed.

Lemma units_trim_idem s : units_trim (units_trim s) = units_trim s.
Proof. destruct (units_trim_ends s). by apply units_trim_id. Qed.

Lemma units_trim_subset s : units_trim s ⊆ s.
Proof.
  unfold units_trim, units_trim_end. intros c Hc. rewrite rev_reverse, elem_of_reverse in Hc.
  destruct (trim_start_suffix_of (rev (units_trim_start s))) as [w Hw].
  assert (c ∈ rev (units_trim_start s)) as Hd by (rewrite Hw; set_solver). rewrite rev_reverse, elem_of_reverse in Hd.
  destruct (trim_start_suffix_of s) as [w' Hw']. rewrite Hw'. set_solver.
Qed.

(** A part that a normal path may have. *)
Record neat (part : jsstr) : Prop := {
  neat_nonempty : part ≠ [];
  neat_dot : part ≠ dot;
  neat_dot_dot : part ≠ dot_dot;
  neat_slash : unit_slash ∉ part;
  neat_backslash : unit_backslash ∉ part;
  neat_trim : units_trim part = part;
}.

Lemma replaced_absent a b s : a ≠ b → a ∉ replace_unit a b s.
Proof. intros Hab. unfold replace_unit. intros (c & Hc & _)%list_elem_of_fmap. case_decide; congruence. Qed.

Lemma replace_absent a b s : a ∉ s → replace_unit a b s = s.
Proof.
  intros Ha. unfold replace_unit. rewrite <- (list_fmap_id s) at 2. apply list_fmap_ext. intros i c Hc.
  apply list_elem_of_lookup_2 in Hc. cbn. rewrite decide_False by congruence. done.
Qed.

Lemma upload_parts_neat path : Forall neat (upload_parts path).
Proof.
  apply Forall_forall. unfold upload_parts. intros part [(H1 & H2 & H3) Hp]%list_elem_of_filter.
  apply list_elem_of_fmap in Hp as (q & -> & Hq).
  pose proof (split_on_parts unit_slash (replace_unit unit_backslash unit_slash path)) as Hs.
  rewrite Forall_forall in Hs. destruct (Hs q Hq) as [Hslash Hsub].
  pose proof (units_trim_subset q) as Hts. split; [done..| | |apply units_trim_idem].
  - intros Hin. by apply Hslash, Hts.
  - intros Hin. eapply (replaced_absent unit_backslash unit_slash path); [done|]. by apply Hsub, Hts.
Qed.

Lemma join_unit_absent sep c parts : c ≠ sep → Forall (λ part, c ∉ part) parts → c ∉ join_with sep parts.
Proof.
  intros Hc. induction 1 as [|part parts Hp _ IH]; [by apply not_elem_of_nil|].
  destruct parts; [done|]. cbn [join_with]. rewrite not_elem_of_app, not_elem_of_cons. done.
Qed.

Lemma neat_kept parts : Forall neat parts →
  filter (λ part, part ≠ [] ∧ part ≠ dot ∧ part ≠ dot_dot) (units_trim <$> parts) = parts.
Proof.
  induction 1 as [|part parts Hp _ IH]; [done|]. destruct Hp as [H1 H2 H3 _ _ H6]. rewrite fmap_cons, H6, filter_cons_True by done.
  by rewrite IH.
Qed.

Lemma upload_parts_join parts : Forall neat parts → upload_parts (join_with unit_slash parts) = parts.
Proof.
  intros Hn. unfold upload_parts. rewrite replace_absent.
  2: { apply join_unit_absent; [done|]. eapply Forall_impl; [done|]. by intros p []. }
  destruct parts as [|p ps]; [done|].
  rewrite split_on_join; [by apply neat_kept| |done]. eapply Forall_impl; [done|]. by intros q [].
Qed.

Lemma upload_parts_slash path : upload_parts (path ++ [unit_slash]) = upload_parts path.
Proof.
  unfold upload_parts, replace_unit. rewrite fmap_app. cbn [fmap list_fmap]. rewrite decide_False by done.
  change ([unit_slash]) with (unit_slash :: []). rewrite split_on_app, fmap_app, filter_app. cbn [split_on fmap list_fmap].
  change (units_trim []) with (@nil Z). rewrite filter_cons_False by tauto. cbn. by rewrite app_nil_r.
Qed.

Lemma normalize_join parts : Forall neat parts → normalizeUploadRelativePath (join_with unit_slash parts) = join_with unit_slash parts.
Proof. intros H. unfold normalizeUploadRelativePath. by rewrite upload_parts_join. Qed.

Lemma normalize_idem path : normalizeUploadRelativePath (normalizeUploadRelativePath path) = normalizeUploadRelativePath path.
Proof. apply normalize_join, upload_parts_neat. Qed.

Lemma normalize_slash path : normalizeUploadRelativePath (path ++ [unit_slash]) = normalizeUploadRelativePath path.
Proof. unfold normalizeUploadRelativePath. by rewrite upload_parts_slash. Qed.

(** The directories above a path. *)
Lemma split_normal path : upload_parts path ≠ [] → split_on unit_slash (normalizeUploadRelativePath path) = upload_parts path.
Proof.
  intros Hne. apply split_on_join; [|done]. eapply Forall_impl; [apply upload_parts_neat|]. by intros q [].
Qed.

Lemma path_directory_normal path directory :
  directory ∈ path_directories path → normalizeUploadRelativePath directory = directory ∧ directory ≠ [].
Proof.
  unfold path_directories. intros (i & -> & Hi)%list_elem_of_fmap. apply elem_of_seq in Hi.
  destruct (decide (upload_parts path = [])) as [E|Hne].
  { unfold normalizeUploadRelativePath in Hi. rewrite E in Hi. cbn in Hi. lia. }
  rewrite split_normal in Hi |- * by done.
  assert (Forall neat (take i (upload_parts path))) as Hneat by (apply Forall_take, upload_parts_neat).
  split; [by apply normalize_join|].
  destruct (upload_parts path) as [|p ps]; [done|]. destruct i as [|i]; [lia|]. cbn [take] in *.
  apply Forall_cons in Hneat as [[Hp _ _ _ _ _] _]. destruct p; [done|]. by destruct (take i ps).
Qed.

Lemma elem_of_add_all (l acc : list jsstr) x : x ∈ foldl add_once acc l ↔ x ∈ acc ∨ x ∈ l.
Proof.
  revert acc. induction l as [|y l IH]; intros acc; cbn [foldl]; [set_solver|].
  rewrite IH. unfold add_once. case_decide; set_solver.
Qed.

Lemma NoDup_add_all (l acc : list jsstr) : NoDup acc → NoDup (foldl add_once acc l).
Proof.
  revert acc. induction l as [|y l IH]; intros acc Ha; cbn [foldl]; [done|]. apply IH. unfold add_once.
  case_decide; [done|]. apply NoDup_app. split_and!; [done| |apply NoDup_singleton]. set_solver.
Qed.

Lemma elem_of_collect locale_gt items directory :
  directory ∈ collectTarDirectories locale_gt items ↔
  ∃ item, item ∈ items ∧ directory ∈ path_directories (uf_relativePath item).
Proof.
  unfold collectTarDirectories. rewrite elem_of_js_sort, elem_of_add_all, list_elem_of_bind. set_solver.
Qed.

(** ** Lemmas: a path that its header holds *)

(** A short path, or a directory and a name that fit their fields. *)
Definition path_fits (path : jsstr) : Prop :=
  units_ok path ∧
  (length (encode path) ≤ 100 ∨
   (100 < length path ≤ 255 ∧
   ∃ prefix name, path = prefix ++ unit_slash :: name ∧ prefix ≠ [] ∧ name ≠ [] ∧ (unit_slash ∉ name) ∧
     length (encode name) ≤ 100 ∧ length (encode prefix) ≤ 155)).

Lemma join_split sep s : join_with sep (split_on sep s) = s.
Proof.
  induction s as [|c s IH]; [done|]. cbn [split_on]. pose proof (split_on_nonnil sep s) as Hn.
  case_decide as Hc.
  - destruct (split_on sep s) as [|p ps] eqn:E; [done|]. cbn [join_with app]. rewrite Hc. f_equal. exact IH.
  - destruct (split_on sep s) as [|p ps]; [done|]. rewrite <- IH. destruct ps; done.
Qed.

Lemma split_fits path :
  path_fits path →
  let names := splitTarPath (take 255 path) in
  length (encode names.1) ≤ 100 ∧ length (encode names.2) ≤ 155 ∧ units_ok names.1 ∧ units_ok names.2 ∧
  (if decide (encode names.2 = []) then encode names.1 else encode names.2 ++ unit_slash :: encode names.1) = encode path.
Proof.
  intros [Hok Hfit]. assert (length path ≤ 255) as Hlen.
  { destruct Hfit as [Hs|[? _]]; [pose proof (encode_length path)|]; lia. }
  rewrite take_ge by done. unfold splitTarPath.
  destruct Hfit as [Hshort|(Hlong & prefix & name & -> & Hprefix & Hname & Hslash & Hn & Hp)].
  - rewrite decide_True by (pose proof (encode_length path); lia). cbn. split_and!; [done|lia|done|constructor|done].
  - rewrite (decide_False (P := length _ ≤ 100)) by lia. rewrite split_on_app, (split_on_part _ name) by done.
    rewrite last_snoc, removelast_last, join_split. cbn [default].
    rewrite (decide_False (P := name = [])) by done.
    pose proof (encode_length name). pose proof (encode_length prefix).
    rewrite (decide_False (P := 100 < length name)), (decide_False (P := 155 < length prefix)) by lia. cbn [fst snd]. unfold units_ok in *.
    apply Forall_app in Hok as [Hok1 [_ Hok2]%Forall_cons].
    split_and!; [done..|]. rewrite decide_False by (by rewrite encode_nil). by rewrite encode_slash.
Qed.

Lemma read_built_header now path size directory :
  normalizeUploadRelativePath path = path → path_fits path → fits size → fits now →
  length (buildTarHeader now path size directory) = 512 ∧ buildTarHeader now path size directory ≠ replicate 512 0%Z ∧
  read_header (buildTarHeader now path size directory) = Some (mkTarHeader (encode path) directory (if directory then 0 else size)%Z).
Proof.
  intros Hnorm Hfit Hs Ht. pose proof (split_fits path Hfit) as (H1 & H2 & H3 & H4 & H5).
  rewrite header_written by (rewrite ?Hnorm; done). rewrite Hnorm. cbv zeta in H5. rewrite <- H5.
  apply read_written; [by apply encode_ok..|done|done|done|done].
Qed.

Lemma build_header_slash now path size directory : buildTarHeader now (path ++ [unit_slash]) size directory = buildTarHeader now path size directory.
Proof. unfold buildTarHeader. by rewrite normalize_slash. Qed.

(** ** Lemmas: chunks *)

Lemma chunk_loop_data fuel data loaded :
  (0 ≤ loaded)%Z → (Z.of_nat (length data) - loaded ≤ Z.of_nat fuel)%Z →
  concat (chunk_loop fuel data loaded).*1 = drop (Z.to_nat loaded) data.
Proof.
  revert loaded. induction fuel as [|fuel IH]; intros loaded Hl Hf; cbn [chunk_loop].
  { rewrite drop_ge by lia. done. }
  destruct (Z.leb_spec (Z.of_nat (length data)) loaded); [by rewrite drop_ge by lia|].
  set (next := Z.min _ _). assert (loaded < next)%Z by (unfold next, fileReadChunkBytes; lia).
  cbn [fmap list_fmap fst concat]. rewrite IH by lia. unfold file_slice.
  replace (Z.to_nat next) with (Z.to_nat loaded + Z.to_nat (next - loaded)) by lia.
  rewrite <- drop_drop. apply take_drop.
Qed.

Lemma file_chunks_data data : concat (file_chunks data).*1 = data.
Proof. unfold file_chunks. rewrite chunk_loop_data by lia. done. Qed.

Lemma written_app a b : written (a ++ b) = written a ++ written b.
Proof. apply bind_app. Qed.

(** The counts that are reported while reading, and the ones that are set. *)
Definition reads (steps : list ArchiveStep) : list Z :=
  omap (λ step, match step with ArchiveRead loaded => Some loaded | _ => None end) steps.
Definition loads (steps : list ArchiveStep) : list Z :=
  omap (λ step, match step with ArchiveLoaded loaded => Some loaded | _ => None end) steps.

Lemma reads_app a b : reads (a ++ b) = reads a ++ reads b.
Proof. apply omap_app. Qed.

Lemma loads_app a b : loads (a ++ b) = loads a ++ loads b.
Proof. apply omap_app. Qed.

Lemma written_write bytes steps : written (ArchiveWrite bytes :: steps) = bytes ++ written steps.
Proof. done. Qed.

Lemma written_loaded loaded steps : written (ArchiveLoaded loaded :: steps) = written steps.
Proof. done. Qed.

Lemma written_file data loaded : written (writeFileToTarGzipStream data loaded) = data.
Proof.
  unfold writeFileToTarGzipStream. case_decide as E; [by rewrite E|]. rewrite <- (file_chunks_data data) at 2.
  induction (file_chunks data) as [|[c n] l IH]; [done|]. cbn [mbind list_bind] in *. rewrite written_app, IH. cbn.
  by rewrite app_nil_r.
Qed.

(** What a reader finds of an archive: its directories, then its files. *)
Definition kept_files (items : list RemoteFileUploadItem) : list RemoteFileUploadItem :=
  filter (λ item, normalizeUploadRelativePath (uf_relativePath item) ≠ []) items.

Definition directory_member (directory : jsstr) : TarHeader * list Z := (mkTarHeader (encode directory) true 0, []).
Definition file_member (item : RemoteFileUploadItem) : TarHeader * list Z :=
  (mkTarHeader (encode (normalizeUploadRelativePath (uf_relativePath item))) false (uf_size item), uf_data item).

Lemma read_member fuel now path (directory : bool) (data rest : list Z) :
  normalizeUploadRelativePath path = path → path_fits path → fits (Z.of_nat (length data)) → fits now →
  (directory = true → data = []) →
  read_archive (S fuel) (buildTarHeader now path (Z.of_nat (length data)) directory ++ data ++
    replicate (Z.to_nat (paddingForTarBlock (Z.of_nat (length data)))) 0%Z ++ rest) =
  (λ l, (mkTarHeader (encode path) directory (Z.of_nat (length data)), data) :: l) <$> read_archive fuel rest.
Proof.
  intros Hnorm Hfit Hs Ht Hd.
  destruct (read_built_header now path (Z.of_nat (length data)) directory) as (Hlen & Hnz & Hr); [done..|].
  assert ((if directory then 0 else Z.of_nat (length data))%Z = Z.of_nat (length data)) as Hsize.
  { destruct directory; [by rewrite Hd|done]. }
  rewrite Hsize in Hr. set (h := buildTarHeader now path _ directory) in *. cbn [read_archive].
  rewrite <- Hlen, take_app_length, drop_app_length, Hlen, decide_False, Hr by done. cbn.
  rewrite Nat2Z.id, take_app_length. rewrite <- drop_drop, drop_app_length.
  rewrite drop_app_length' by by rewrite length_replicate. by destruct (read_archive fuel rest).
Qed.

Lemma read_end fuel : read_archive (S fuel) (replicate 1024 0%Z) = Some [].
Proof.
  cbn [read_archive]. change (replicate 1024 0%Z) with (replicate (512 + 512) 0%Z). rewrite replicate_add.
  rewrite take_app_length' by done. by rewrite decide_True.
Qed.

Lemma read_directories fuel now directories rest :
  Forall (λ d, normalizeUploadRelativePath d = d ∧ path_fits d) directories → fits now →
  read_archive (length directories + fuel)
    (written ((λ d, ArchiveWrite (buildTarHeader now (d ++ [unit_slash]) 0 true)) <$> directories) ++ rest) =
  (λ l, (directory_member <$> directories) ++ l) <$> read_archive fuel rest.
Proof.
  intros Hd Ht. induction Hd as [|d ds [Hn Hf] _ IH]; cbn [length Nat.add fmap list_fmap].
  { cbn. by destruct (read_archive fuel rest). }
  rewrite written_write, build_header_slash, <- app_assoc.
  pose proof (read_member (length ds + fuel) now d true [] (written ((λ d, ArchiveWrite (buildTarHeader now (d ++ [unit_slash]) 0 true)) <$> ds) ++ rest) Hn Hf) as Hm.
  cbn [length app] in Hm. change (Z.to_nat (paddingForTarBlock (Z.of_nat 0))) with 0 in Hm.
  change (Z.of_nat 0) with 0%Z in Hm. cbn [replicate app] in Hm.
  rewrite Hm by done. rewrite IH. by destruct (read_archive fuel rest).
Qed.

Lemma read_files fuel now items loaded rest :
  Forall (λ item, path_fits (normalizeUploadRelativePath (uf_relativePath item)) ∧ fits (uf_size item)) (kept_files items) → fits now →
  read_archive (length (kept_files items) + fuel) (written (archive_files now items loaded) ++ rest) =
  (λ l, (file_member <$> kept_files items) ++ l) <$> read_archive fuel rest.
Proof.
  intros Hi Ht. revert loaded. unfold kept_files in *. induction items as [|item items IH]; intros loaded; cbn [archive_files].
  { cbn. by destruct (read_archive fuel rest). }
  destruct (decide (normalizeUploadRelativePath (uf_relativePath item) = [])) as [E|E].
  { rewrite filter_cons_False in Hi |- * by tauto. by apply IH. }
  rewrite filter_cons_True in Hi |- * by done. apply Forall_cons in Hi as [[Hf Hs] Hi].
  set (path := normalizeUploadRelativePath (uf_relativePath item)) in *.
  rewrite written_write, written_app, written_file, written_loaded, written_write. cbn [length Nat.add].
  rewrite <- !app_assoc. rewrite (read_member _ now path false (uf_data item)) by (try done; apply normalize_idem).
  rewrite IH by done. by destruct (read_archive fuel rest).
Qed.

(** ** Lemmas: progress *)

(** Reports that only grow, within their bounds. *)
Definition grows (from to : Z) (l : list Z) : Prop := StronglySorted Z.le l ∧ Forall (λ n, from ≤ n ≤ to)%Z l.

Lemma grows_app a b c l k : grows a b l → grows b c k → (a ≤ b ≤ c)%Z → grows a c (l ++ k).
Proof.
  intros [Hl Fl] [Hk Fk] Hb. rewrite Forall_forall in Fl, Fk. split.
  - apply StronglySorted_app_2; [|done..]. intros x y Hx%Fl Hy%Fk. lia.
  - apply Forall_app. split; apply Forall_forall; intros x Hx; [apply Fl in Hx|apply Fk in Hx]; lia.
Qed.

Lemma grows_one a b n : (a ≤ n ≤ b)%Z → grows a b [n].
Proof. intros Hn. split; repeat constructor; lia. Qed.

Lemma chunks_grow fuel data loaded base :
  (0 ≤ loaded ≤ Z.of_nat (length data))%Z →
  grows (base + loaded) (base + Z.of_nat (length data)) (Z.add base <$> (chunk_loop fuel data loaded).*2).
Proof.
  revert loaded. induction fuel as [|fuel IH]; intros loaded Hl; cbn [chunk_loop]; [by split; constructor|].
  destruct (Z.leb_spec (Z.of_nat (length data)) loaded); [by split; constructor|].
  set (next := Z.min _ _). assert (loaded < next ≤ Z.of_nat (length data))%Z by (unfold next, fileReadChunkBytes; lia).
  cbn [fmap list_fmap snd]. apply (grows_app _ (base + next) _ [_]); [by apply grows_one; lia|apply IH; lia|lia].
Qed.

Lemma reads_file data loaded :
  grows loaded (loaded + Z.of_nat (length data)) (reads (writeFileToTarGzipStream data loaded)) ∧
  loads (writeFileToTarGzipStream data loaded) = [].
Proof.
  unfold writeFileToTarGzipStream. case_decide as E; [split; [apply grows_one; lia|done]|].
  assert (∀ l : list (list Z * Z), let steps := l ≫= λ c, [ArchiveWrite c.1; ArchiveRead (loaded + c.2)] in
    reads steps = Z.add loaded <$> l.*2 ∧ loads steps = []) as Hr.
  { induction l as [|[c n] l [IH1 IH2]]; [done|]. cbv zeta in *. cbn [mbind list_bind]. rewrite reads_app, loads_app.
    split; [by rewrite IH1|by rewrite IH2]. }
  destruct (Hr (file_chunks data)) as [-> ->]. split; [|done].
  pose proof (chunks_grow (length data) data 0 loaded) as Hc. rewrite Z.add_0_r in Hc. apply Hc. lia.
Qed.

Lemma uf_size_nonneg item : (0 ≤ uf_size item)%Z.
Proof. apply Nat2Z.is_nonneg. Qed.

Lemma sizes_nonneg (l : list RemoteFileUploadItem) : (0 ≤ sum_bytes (uf_size <$> l))%Z.
Proof. induction l as [|x l IH]; [done|]. rewrite fmap_cons, sum_cons. pose proof (uf_size_nonneg x). lia. Qed.

Lemma total_kept items acc :
  foldl (λ total item, if decide (normalizeUploadRelativePath (uf_relativePath item) = []) then total else (total + uf_size item)%Z) acc items =
  (acc + sum_bytes (uf_size <$> kept_files items))%Z.
Proof.
  revert acc. unfold kept_files. induction items as [|item items IH]; intros acc; cbn [foldl]; [unfold sum_bytes; cbn; lia|].
  case_decide as E.
  - rewrite IH, filter_cons_False by tauto. done.
  - rewrite IH, filter_cons_True by done. cbn [fmap list_fmap]. unfold sum_bytes. cbn [foldl]. rewrite (foldl_add _ (0 + _)%Z). lia.
Qed.

Lemma reads_files now items loaded :
  let total := (loaded + sum_bytes (uf_size <$> kept_files items))%Z in
  grows loaded total (reads (archive_files now items loaded)) ∧ grows loaded total (loads (archive_files now items loaded)).
Proof.
  cbv zeta. revert loaded. unfold kept_files. induction items as [|item items IH]; intros loaded; cbn [archive_files].
  { split; by split; constructor. }
  case_decide as E; [rewrite filter_cons_False by tauto; apply IH|]. rewrite filter_cons_True by done.
  set (l := filter _ items) in *. rewrite fmap_cons, sum_cons. pose proof (uf_size_nonneg item). pose proof (sizes_nonneg l).
  destruct (reads_file (uf_data item) loaded) as [H1 H2]. destruct (IH (loaded + uf_size item)%Z) as [IH1 IH2].
  rewrite <- Z.add_assoc in IH1, IH2.
  change (reads (ArchiveWrite _ :: ?steps)) with (reads steps). change (loads (ArchiveWrite _ :: ?steps)) with (loads steps).
  rewrite reads_app, loads_app, H2. split.
  - eapply grows_app; [exact H1|exact IH1|fold (uf_size item); lia].
  - apply (grows_app loaded (loaded + uf_size item)%Z _ [_]); [apply grows_one; lia|exact IH2|lia].
Qed.

Lemma steps_directories now directories :
  let steps := (λ d, ArchiveWrite (buildTarHeader now (d ++ [unit_slash]) 0 true)) <$> directories in
  reads steps = [] ∧ loads steps = [].
Proof. cbv zeta. by induction directories. Qed.

(** A report of the compression is always made with the present count. *)
Fixpoint compress_ok (loaded : Z) (steps : list ArchiveStep) : Prop :=
  match steps with
  | [] => True
  | ArchiveCompress n :: steps => n = loaded ∧ compress_ok loaded steps
  | ArchiveLoaded n :: steps => compress_ok n steps
  | _ :: steps => compress_ok loaded steps
  end.

Definition no_report (step : ArchiveStep) : Prop :=
  match step with ArchiveCompress _ | ArchivePersisted => False | _ => True end.

Lemma compress_ok_app loaded a b :
  Forall no_report a → (∀ n, compress_ok n b) → compress_ok loaded (a ++ b).
Proof.
  intros Ha Hb. revert loaded. induction Ha as [|step a Hs _ IH]; intros loaded; [apply Hb|].
  destruct step; cbn [app compress_ok]; first [done|apply IH].
Qed.

Lemma archive_no_report locale_gt now items :
  Forall no_report (((λ d, ArchiveWrite (buildTarHeader now (d ++ [unit_slash]) 0 true)) <$> collectTarDirectories locale_gt items) ++
    archive_files now items 0).
Proof.
  apply Forall_app. split; [by apply Forall_fmap, Forall_true|]. generalize 0%Z.
  induction items as [|item items IH]; intros loaded; cbn [archive_files]; [constructor|]. case_decide; [apply IH|].
  constructor; [done|]. apply Forall_app. split; [|constructor; [done|constructor; [done|apply IH]]].
  unfold writeFileToTarGzipStream. case_decide; [by repeat constructor|]. apply Forall_bind, Forall_true. by repeat constructor.
Qed.

(** ** Lemmas: writing and appending together *)

Definition of_phase (phase : ArchivePhase) (reports : list ArchiveReport) : list ArchiveReport :=
  filter (λ report, ap_phase report = phase) reports.

Definition counted (phase : ArchivePhase) (reports : list ArchiveReport) : list Z := ap_loadedBytes <$> of_phase phase reports.

#[local] Arguments of_phase : simpl never.
#[local] Arguments counted : simpl never.

Lemma counted_snoc phase reports report :
  counted phase (reports ++ [report]) =
    counted phase reports ++ (if decide (ap_phase report = phase) then [ap_loadedBytes report] else []).
Proof. unfold counted, of_phase. rewrite filter_app, fmap_app, filter_cons, filter_nil. by case_decide. Qed.

(** The end of the work of the writer. *)
Definition ends_with (total : Z) (s : ArchiveRun) : Prop :=
  (∃ pre, Forall (λ step, step ≠ ArchivePersisted) pre ∧ ar_steps s = pre ++ [ArchivePersisted; ArchiveCompress total]) ∨
  persist_over (ar_persist s) = true ∧
  (ar_steps s = [ArchiveCompress total] ∨
   ar_steps s = [] ∧ last (ar_reports s) = Some (mkArchiveReport PhaseCompress (ar_archiveBytes s) total)).

Record archive_ok (total : Z) (s : ArchiveRun) : Prop := {
  ao_reads : grows 0 total (counted PhaseRead (ar_reports s) ++ reads (ar_steps s));
  ao_loads : grows 0 total (counted PhaseCompress (ar_reports s) ++ ar_loadedBytes s :: loads (ar_steps s));
  ao_compress : compress_ok (ar_loadedBytes s) (ar_steps s);
  ao_ends : ends_with total s;
  ao_done : gz_done (ar_persist s) = true → concat (gz_pending (ar_persist s)) = [];
  ao_bytes : ar_archiveBytes s = Z.of_nat (length (concat (gz_appended (ar_persist s))));
  ao_sizes : grows 0 (ar_archiveBytes s) (ap_archiveBytes <$> of_phase PhaseCompress (ar_reports s));
}.

(** The bytes that were read from the stream. *)
Definition held (st : GzipPersist) : list Z :=
  concat (gz_appended st) ++ default [] (gz_appending st) ++ concat (gz_pending st).

Lemma flush_spec st : gz_appending st = None →
  held (flushGzipChunks st) = held st ∧ gz_appended (flushGzipChunks st) = gz_appended st ∧
  gz_done (flushGzipChunks st) = gz_done st ∧ concat (gz_pending (flushGzipChunks st)) = [].
Proof.
  intros Ha. unfold flushGzipChunks. case_decide as E; [done|]. unfold held. cbn. rewrite Ha. cbn. by rewrite app_nil_r.
Qed.

Lemma persist_chunk_spec st value : gz_appending st = None →
  held (persist_chunk st value) = held st ++ value ∧ gz_appended (persist_chunk st value) = gz_appended st ∧
  gz_done (persist_chunk st value) = gz_done st.
Proof.
  intros Ha. unfold persist_chunk. case_decide as E; [by rewrite E, app_nil_r|].
  set (st1 := mkPersist _ _ _ _). assert (held st1 = held st ++ value) as Hh.
  { unfold held, st1. cbn. rewrite concat_app. cbn. by rewrite app_nil_r, <- !app_assoc. }
  destruct (_ <=? _)%Z; [|done]. destruct (flush_spec st1 Ha) as (-> & -> & -> & _). done.
Qed.

Lemma Forall_of_sublist (P : Z → Prop) l k : sublist l k → Forall P k → Forall P l.
Proof. intros Hl. rewrite !Forall_forall. intros Hk x Hx. by apply Hk, (sublist_subseteq _ _ Hl). Qed.

Lemma grows_sublist a b l k : grows a b k → sublist l k → grows a b l.
Proof.
  intros [Hs Hf] Hl. split; [|by apply (Forall_of_sublist _ _ _ Hl)].
  clear Hf. induction Hl as [|x l k Hl IH|x l k Hl IH]; [done| |]; apply StronglySorted_inv in Hs as [Hs Hx]; [|by apply IH].
  constructor; [by apply IH|]. by apply (Forall_of_sublist _ _ _ Hl).
Qed.

(** The present count again, where it is due. *)
Lemma grows_again a b l n k : grows a b (l ++ n :: k) → grows a b ((l ++ [n]) ++ n :: k).
Proof.
  intros [Hs Hf]. apply StronglySorted_app in Hs as (Hc & Hl & Hk). rewrite Forall_app, Forall_cons in Hf. destruct Hf as (Fl & Fn & Fk).
  apply StronglySorted_inv in Hk as Hk'. destruct Hk' as [_ Hn]. split.
  - rewrite <- app_assoc. apply StronglySorted_app_2; [|done|].
    + intros x y Hx. cbn [app]. rewrite elem_of_cons. intros Hy. apply Hc; [done|]. rewrite elem_of_cons in *. tauto.
    + cbn [app]. constructor; [done|]. by constructor.
  - rewrite !Forall_app, !Forall_cons, Forall_nil. tauto.
Qed.

Lemma grows_wider a b c l : grows a b l → (b ≤ c)%Z → grows a c l.
Proof. intros [Hs Hf] Hb. split; [done|]. eapply Forall_impl; [exact Hf|]. cbn. lia. Qed.

Lemma writer_step_ok total s : archive_ok total s → archive_ok total (writer_step s).
Proof.
  intros [Hr Hl Hc He Hd Hb Hz]. unfold writer_step. destruct (ar_steps s) as [|step steps] eqn:Es; [by split; rewrite ?Es|].
  assert (ends_with total s → step ≠ ArchivePersisted → step ≠ ArchiveCompress total ∨ steps ≠ [] →
    ∃ pre, Forall (λ step, step ≠ ArchivePersisted) pre ∧ steps = pre ++ [ArchivePersisted; ArchiveCompress total]) as Hpre.
  { intros [(pre & Hp & Hs)|(_ & [Hs|[Hs _]])] Hne Hne'; rewrite Es in Hs; [|by destruct Hne'; simplify_eq|done].
    destruct pre as [|x pre]; cbn in Hs; [by simplify_eq|]. injection Hs as -> ->. apply Forall_cons in Hp as [_ Hp]. by exists pre. }
  destruct step as [bytes|n|n|n| |]; cbn [reads loads omap list_omap compress_ok] in Hr, Hl, Hc.
  - split; cbn; try done. left. apply Hpre; auto.
  - split; cbn; try done; rewrite ?counted_snoc; cbn [ap_phase ap_loadedBytes].
    + by rewrite decide_True, <- app_assoc.
    + by rewrite decide_False, app_nil_r.
    + left. apply Hpre; auto.
    + unfold of_phase. rewrite filter_app, filter_cons_False by done. by rewrite app_nil_r.
  - split; cbn; try done.
    + eapply grows_sublist; [exact Hl|]. apply sublist_app; [done|]. by apply sublist_cons.
    + left. apply Hpre; auto.
  - destruct Hc as [-> Hc]. split; cbn; try done; rewrite ?counted_snoc; cbn [ap_phase ap_loadedBytes].
    + by rewrite decide_False, app_nil_r.
    + rewrite decide_True by done. by apply grows_again.
    + destruct (decide (steps = [])) as [->|Hne]; [|left; apply Hpre; auto].
      destruct He as [(pre & Hp & Hs)|(Ho & [Hs|[Hs _]])]; rewrite Es in Hs; [|injection Hs as ->|done].
      * destruct pre as [|x [|y pre]]; cbn in Hs; simplify_eq.
      * right. split; [done|]. right. split; [done|]. cbn. by rewrite last_snoc.
    + unfold of_phase. rewrite filter_app, filter_cons_True, filter_nil, fmap_app by done. cbn [fmap list_fmap ap_archiveBytes].
      eapply grows_app; [exact Hz|apply grows_one; lia|]. split; [|done]. rewrite Hb. lia.
  - split; cbn; try done. left. apply Hpre; auto.
  - destruct (persist_over (ar_persist s)) eqn:Eo; [|by split; rewrite ?Es].
    split; cbn; try done. right. split; [done|]. left.
    destruct He as [(pre & Hp & Hs)|(_ & [Hs|[Hs _]])]; rewrite Es in Hs; [|by simplify_eq..].
    destruct pre as [|x pre]; cbn in Hs; [by simplify_eq|]. injection Hs as <- _. by apply Forall_cons in Hp as [? _].
Qed.

(** The work of the reader of the stream keeps all but its own part. *)
Lemma persist_ok total s persist :
  archive_ok total s → persist_over (ar_persist s) = false → gz_appended persist = gz_appended (ar_persist s) →
  (gz_done persist = true → concat (gz_pending persist) = []) → archive_ok total (archive_persist persist s).
Proof.
  intros [Hr Hl Hc He Hd Hb Hz] Ho Ha Hp. split; cbn; try done; [|by rewrite Ha].
  destruct He as [He|[He _]]; [by left|congruence].
Qed.

Lemma append_over_ok total s chunk :
  archive_ok total s → gz_appending (ar_persist s) = Some chunk → archive_ok total (append_over chunk s).
Proof.
  intros [Hr Hl Hc He Hd Hb Hz] Ha. unfold append_over. split; cbn; try done; rewrite ?counted_snoc; cbn [ap_phase ap_loadedBytes].
  - by rewrite decide_False, app_nil_r.
  - rewrite decide_True by done. by apply grows_again.
  - destruct He as [He|[He _]]; [by left|]. unfold persist_over in He. rewrite Ha in He. by destruct (gz_done _).
  - rewrite concat_app, length_app. cbn. rewrite app_nil_r. lia.
  - unfold of_phase. rewrite filter_app, filter_cons_True, filter_nil, fmap_app by done. cbn [fmap list_fmap ap_archiveBytes].
    eapply (grows_app _ (ar_archiveBytes s)); [exact Hz|apply grows_one; lia|lia].
Qed.

Lemma reads_stream_spec s : reads_stream s = true → gz_appending (ar_persist s) = None ∧ gz_done (ar_persist s) = false.
Proof. unfold reads_stream. by intros [?%bool_decide_eq_true ?%negb_true_iff]%andb_true_iff. Qed.

Lemma not_over s : gz_done (ar_persist s) = false → persist_over (ar_persist s) = false.
Proof. unfold persist_over. by intros ->. Qed.

Lemma archive_event_ok total s event :
  archive_ok total s →
  archive_ok total (archive_event s event) ∧
  held (ar_persist (archive_event s event)) =
    held (ar_persist s) ++ match event with AeChunk value => if reads_stream s then value else [] | _ => [] end.
Proof.
  intros Hok. destruct event as [|value| |]; cbn [archive_event].
  - split; [by apply writer_step_ok|]. rewrite app_nil_r. unfold writer_step.
    destruct (ar_steps s) as [|[] ?]; try done. by destruct (persist_over _).
  - destruct (reads_stream s) eqn:Er; [|by rewrite app_nil_r]. apply reads_stream_spec in Er as [Ha Hd].
    destruct (persist_chunk_spec (ar_persist s) value Ha) as (H1 & H2 & H3). split; [|done].
    apply persist_ok; [done|by apply not_over|done|]. congruence.
  - rewrite app_nil_r. destruct (reads_stream s && ar_closed s) eqn:Er; [|done]. apply andb_true_iff in Er as [Er _].
    apply reads_stream_spec in Er as [Ha Hd].
    destruct (flush_spec (mkPersist (gz_pending (ar_persist s)) (gz_appending (ar_persist s)) (gz_appended (ar_persist s)) true) Ha)
      as (H1 & H2 & H3 & H4).
    split; [apply persist_ok; [done|by apply not_over|done|done]|]. exact H1.
  - rewrite app_nil_r. destruct (gz_appending (ar_persist s)) as [chunk|] eqn:Ea; [|done]. split; [by apply append_over_ok|].
    unfold held. cbn. rewrite Ea, concat_app. cbn. by rewrite app_nil_r, <- app_assoc.
Qed.

Lemma archive_events_ok total s events :
  archive_ok total s →
  archive_ok total (foldl archive_event s events) ∧
  held (ar_persist (foldl archive_event s events)) = held (ar_persist s) ++ streamed s events.
Proof.
  revert s. induction events as [|e l IH]; intros s Hok; [by rewrite app_nil_r|]. cbn [foldl streamed].
  destruct (archive_event_ok total s e Hok) as [Hok' Hh]. destruct (IH _ Hok') as [H1 H2]. split; [done|].
  by rewrite H2, Hh, <- app_assoc.
Qed.

Lemma archive_start_ok locale_gt now items :
  archive_ok (totalUploadBytes items)
    (mkArchiveRun (buildTarGzArchiveToTemp locale_gt now items) 0 false 0 (mkPersist [] None [] false) []).
Proof.
  assert (totalUploadBytes items = sum_bytes (uf_size <$> kept_files items)) as Ht by apply total_kept.
  assert (0 ≤ totalUploadBytes items)%Z as Hpos by (rewrite Ht; apply sizes_nonneg).
  destruct (reads_files now items 0) as [H1 H2]. rewrite Z.add_0_l, <- Ht in H1, H2.
  destruct (steps_directories now (collectTarDirectories locale_gt items)) as [D1 D2].
  split; cbn [ar_reports ar_steps ar_loadedBytes ar_persist ar_archiveBytes]; unfold buildTarGzArchiveToTemp.
  - rewrite !reads_app, D1. cbn [reads omap list_omap]. by rewrite app_nil_r.
  - rewrite !loads_app, D2. apply (grows_app 0 0 _ [_]); [apply grows_one; lia| |lia].
    eapply grows_app; [exact H2|apply grows_one; lia|lia].
  - rewrite app_assoc. apply compress_ok_app; [apply archive_no_report|done].
  - left. exists (((λ d, ArchiveWrite (buildTarHeader now (d ++ [unit_slash]) 0 true)) <$> collectTarDirectories locale_gt items) ++
      archive_files now items 0 ++ [ArchiveLoaded (totalUploadBytes items); ArchiveCompress (totalUploadBytes items);
        ArchiveWrite (replicate 1024 0%Z); ArchiveClose]). split; [|by rewrite <- !app_assoc].
    rewrite app_assoc. apply Forall_app. split; [|by repeat constructor].
    eapply Forall_impl; [apply archive_no_report|]. by intros [] H [=].
  - done.
  - done.
  - by split; constructor.
Qed.

(** The writer is never stuck: it writes until it waits for the appends, and these end. *)
Definition closes (s : ArchiveRun) : Prop := ar_closed s = true ∨ ArchiveClose ∈ ar_steps s.

Lemma archive_event_closes s event : closes s → closes (archive_event s event).
Proof.
  unfold closes. intros H. destruct event as [|value| |]; cbn [archive_event].
  - unfold writer_step. destruct (ar_steps s) as [|step steps] eqn:E; [by rewrite E|].
    rewrite elem_of_cons in H. destruct step; cbn; try destruct (persist_over _); cbn; rewrite ?E, ?elem_of_cons; naive_solver.
  - by destruct (reads_stream s).
  - by destruct (_ && _).
  - by destruct (gz_appending _).
Qed.

Lemma archive_events_close s events : closes s → closes (foldl archive_event s events).
Proof. revert s. induction events as [|e l IH]; intros s H; [done|]. by apply IH, archive_event_closes. Qed.

Lemma writer_waits n s :
  length (ar_steps s) ≤ n →
  ∃ events, let s' := foldl archive_event s events in ar_steps s' = [] ∨ ∃ steps, ar_steps s' = ArchivePersisted :: steps.
Proof.
  revert s. induction n as [|n IH]; intros s Hn.
  { exists []. left. cbn. by destruct (ar_steps s); cbn in *; [|lia]. }
  destruct (ar_steps s) as [|step steps] eqn:E; [exists []; by left|].
  assert (step = ArchivePersisted ∨ step ≠ ArchivePersisted) as [->|Hne] by (destruct step; auto); [exists []; right; by exists steps|].
  destruct (IH (writer_step s)) as (events & He); [|by exists (AeWriter :: events)].
  unfold writer_step. rewrite E. cbn in Hn. destruct step; cbn; solve [lia|done].
Qed.

Lemma appends_end s :
  ar_closed s = true → let s' := foldl archive_event s [AeAppended; AeEnd; AeAppended] in
  ar_steps s' = ar_steps s ∧ persist_over (ar_persist s') = true.
Proof.
  destruct s as [steps loaded closed bytes [pending appending appended over] reports]. cbn [ar_closed]. intros ->.
  assert (∀ appended bytes reports,
    let s := mkArchiveRun steps loaded true bytes (mkPersist pending None appended over) reports in
    let s' := archive_event (archive_event s AeEnd) AeAppended in
    ar_steps s' = steps ∧ persist_over (ar_persist s') = true) as H.
  { intros ???. cbn. unfold reads_stream. cbn. destruct over; cbn; [done|]. unfold persist_end, flushGzipChunks. cbn.
    by destruct (decide (concat pending = [])). }
  cbn [foldl]. destruct appending as [chunk|]; apply H.
Qed.

Lemma archive_finishes total s :
  archive_ok total s → closes s → ∃ events, ar_steps (foldl archive_event s events) = [].
Proof.
  intros Hok Hc. destruct (writer_waits _ s (le_n _)) as (events & [He|(steps & He)]); [by exists events|].
  destruct (archive_events_ok total s events Hok) as [[_ _ _ Hend _ _ _] _]. apply archive_events_close with (events := events) in Hc.
  set (s1 := foldl archive_event s events) in *.
  assert (steps = [ArchiveCompress total]) as ->.
  { destruct Hend as [(pre & Hp & Hs)|(_ & [Hs|[Hs _]])]; rewrite He in Hs; [|done..].
    destruct pre as [|x pre]; cbn in Hs; simplify_eq; [done|]. by apply Forall_cons in Hp as [? _]. }
  assert (ar_closed s1 = true) as Hclosed.
  { destruct Hc as [|Hc]; [done|]. rewrite He in Hc. by repeat (apply elem_of_cons in Hc as [Hc|Hc]; [done|]); apply elem_of_nil in Hc. }
  pose proof (appends_end s1 Hclosed) as [H1 H2]. set (s2 := foldl archive_event s1 [AeAppended; AeEnd; AeAppended]) in H1, H2.
  exists (events ++ [AeAppended; AeEnd; AeAppended] ++ [AeWriter; AeWriter]). rewrite !foldl_app. fold s1. fold s2.
  change (ar_steps (writer_step (writer_step s2)) = []).
  assert (ar_steps (writer_step s2) = [ArchiveCompress total]) as H3 by (unfold writer_step; by rewrite H1, He, H2).
  revert H3. generalize (writer_step s2). intros s3 H3. unfold writer_step. by rewrite H3.
Qed.

Lemma archive_start_closes locale_gt now items : closes (archive_run (buildTarGzArchiveToTemp locale_gt now items) []).
Proof. right. cbn. unfold buildTarGzArchiveToTemp. set_solver. Qed.

(** C37: the archive of a directory is read back as it was uploaded: a reader that checks
    every header finds each directory above a file once, then the files with a path, in
    their order, with the bytes of their paths, their sizes and their data, for all paths
    and sizes that their headers hold. While it is written, the compressed stream is read
    and appended beside it: in every order of the two, what was appended, is being
    appended or waits is what was read of the stream, in its order; every report of the
    progress counts between nothing and the total; the reports of the reading never fall
    among themselves, nor do those of the compression, in either of their counts (one of
    the compression counts only whole files, so it may fall behind one of the reading);
    when the writer is through, all that was read is appended and the last report says the
    total and the size of the archive; and from every such state it can still get through. *)
Theorem tar_archive_roundtrip locale_gt now items :
  Forall (λ item, path_fits (normalizeUploadRelativePath (uf_relativePath item)) ∧ fits (uf_size item)) (kept_files items) →
  Forall path_fits (collectTarDirectories locale_gt items) → fits now →
  let steps := buildTarGzArchiveToTemp locale_gt now items in
  read_archive (length (collectTarDirectories locale_gt items) + (length (kept_files items) + 1)) (written steps) =
    Some ((directory_member <$> collectTarDirectories locale_gt items) ++ (file_member <$> kept_files items)) ∧
  NoDup (collectTarDirectories locale_gt items) ∧
  (∀ directory, directory ∈ collectTarDirectories locale_gt items ↔
     ∃ item, item ∈ items ∧ directory ∈ path_directories (uf_relativePath item)) ∧
  ∀ events, let s := archive_run steps events in
    let stream := streamed (archive_run steps []) events in
    held (ar_persist s) = stream ∧
    grows 0 (totalUploadBytes items) (counted PhaseRead (ar_reports s)) ∧
    grows 0 (totalUploadBytes items) (counted PhaseCompress (ar_reports s)) ∧
    grows 0 (ar_archiveBytes s) (ap_archiveBytes <$> of_phase PhaseCompress (ar_reports s)) ∧
    (ar_steps s = [] →
      concat (gz_appended (ar_persist s)) = stream ∧
      last (ar_reports s) = Some (mkArchiveReport PhaseCompress (Z.of_nat (length stream)) (totalUploadBytes items))) ∧
    ∃ more, ar_steps (archive_run steps (events ++ more)) = [].
Proof.
  intros Hfiles Hdirs Hnow steps. split; [|split; [|split]].
  - unfold steps, buildTarGzArchiveToTemp. unfold written. rewrite !bind_app. fold (written (archive_files now items 0)).
    rewrite read_directories.
    + change (list_bind _ _ _ [_; _; _; _; _; _]) with (replicate 1024 0%Z). rewrite read_files by done. cbn [Nat.add]. rewrite read_end. cbn. by rewrite app_nil_r.
    + apply Forall_forall. intros d Hd. rewrite Forall_forall in Hdirs. split; [|by apply Hdirs].
      apply elem_of_collect in Hd as (item & _ & Hd). by apply (path_directory_normal (uf_relativePath item)).
    + done.
  - unfold collectTarDirectories. rewrite js_sort_Permutation. apply NoDup_add_all, NoDup_nil_2.
  - apply elem_of_collect.
  - intros events. cbv zeta. destruct (archive_events_ok _ _ events (archive_start_ok locale_gt now items)) as [Hok Hheld].
    fold steps in Hok, Hheld. change (foldl archive_event _ events) with (archive_run steps events) in Hok, Hheld.
    change (streamed _ events) with (streamed (archive_run steps []) events) in Hheld. cbn [held ar_persist gz_appended gz_appending gz_pending] in Hheld.
    rewrite app_nil_l in Hheld. destruct Hok as [Hr Hl Hc He Hd Hb Hz]. split_and!; [exact Hheld| | |exact Hz| |].
    + eapply grows_sublist; [exact Hr|]. by apply sublist_inserts_r.
    + eapply grows_sublist; [exact Hl|]. by apply sublist_inserts_r.
    + intros Hs. destruct He as [(pre & _ & He)|(Ho & He)]; [rewrite Hs in He; by destruct pre|].
      unfold persist_over in Ho. apply andb_true_iff in Ho as [Ho%Hd Ha%bool_decide_eq_true].
      assert (concat (gz_appended (ar_persist (archive_run steps events))) = streamed (archive_run steps []) events) as Happ.
      { rewrite <- Hheld. unfold held. by rewrite Ha, Ho, !app_nil_r. }
      split; [exact Happ|]. destruct He as [He|[_ ->]]; [congruence|]. by rewrite Hb, Happ.
    + destruct (archive_finishes (totalUploadBytes items) (archive_run steps events)) as (more & Hm);
        [by apply archive_events_ok, archive_start_ok|apply archive_events_close, archive_start_closes|].
      exists more. unfold archive_run in *. by rewrite foldl_app.
Qed.

(** The shell shows 34 for a report of the compression and between 3 and 32 for one of the
    reading, and an append may end between two reads: the bytes that are reported fall. *)
Lemma archive_progress_falls a b steps chunk :
  (uploadTempAppendChunkBytes ≤ Z.of_nat (length chunk))%Z →
  ar_reports (archive_run (ArchiveRead a :: ArchiveRead b :: steps) [AeWriter; AeChunk chunk; AeAppended; AeWriter]) =
    [mkArchiveReport PhaseRead 0 a; mkArchiveReport PhaseCompress (Z.of_nat (length chunk)) 0; mkArchiveReport PhaseRead 0 b].
Proof.
  intros Hc. assert (chunk ≠ []) as Hne by (intros ->; unfold uploadTempAppendChunkBytes, fileReadChunkBytes in Hc; cbn in Hc; lia).
  unfold archive_run. cbn [foldl archive_event reads_stream writer_step ar_steps archive_report ar_persist gz_appending gz_done bool_decide_eq_true].
  cbn. unfold persist_chunk. rewrite decide_False by done. cbn. rewrite app_nil_r. apply Z.leb_le in Hc as ->.
  unfold flushGzipChunks. cbn. rewrite app_nil_r, decide_False by done. done.
Qed.

(** Two files, one of them below a directory: [docs/a.txt] with two bytes and [b]. *)
Definition sample_items : list RemoteFileUploadItem :=
  [mkUpload (js "a.txt") [104; 105]%Z (js "docs\ a.txt"); mkUpload (js "b") [] (js "./b")].

Lemma tar_archive_roundtrip_witness :
  read_archive 4 (written (buildTarGzArchiveToTemp (λ _ _, false) 1700000000 sample_items)) =
    Some [(mkTarHeader (js "docs") true 0, []); (mkTarHeader (js "docs/a.txt") false 2, [104; 105]%Z); (mkTarHeader (js "b") false 0, [])].
Proof.
  refine (eq_trans (proj1 (tar_archive_roundtrip (λ _ _, false) 1700000000 sample_items _ _ _)) _).
  - repeat (constructor; [split; [split; [repeat (constructor; [split; reflexivity|]); constructor|left; vm_compute; lia]|split; vm_compute; [discriminate|reflexivity]]|]).
    constructor.
  - repeat (constructor; [split; [repeat (constructor; [split; reflexivity|]); constructor|left; vm_compute; lia]|]). constructor.
  - split; vm_compute; [discriminate|reflexivity].
  - reflexivity.
Defined.

(** Every file of a directory is in the group of its root, once, and no other file is. *)
Lemma group_add_items rootName item groups :
  concat (group_add rootName item groups).*2 ≡ₚ item :: concat groups.*2.
Proof.
  induction groups as [|[name group] groups IH]; cbn [group_add fmap list_fmap concat snd app]; [done|].
  case_decide; cbn [fmap list_fmap concat snd].
  - rewrite <- app_assoc. cbn [app]. by rewrite Permutation_middle.
  - rewrite IH. by rewrite <- Permutation_middle.
Qed.

Definition in_directory (item : RemoteFileUploadItem) : Prop :=
  root_name (normalizeUploadRelativePath (uf_relativePath item)) ≠ [] ∧ unit_slash ∈ normalizeUploadRelativePath (uf_relativePath item).
#[local] Instance in_directory_dec item : Decision (in_directory item) := _.

Definition normal_item (item : RemoteFileUploadItem) : RemoteFileUploadItem :=
  mkUpload (uf_name item) (uf_data item) (normalizeUploadRelativePath (uf_relativePath item)).

Definition group_step (groups : upload_groups) (item : RemoteFileUploadItem) : upload_groups :=
  let relativePath := normalizeUploadRelativePath (uf_relativePath item) in
  let rootName := root_name relativePath in
  if decide (rootName = [] ∨ unit_slash ∉ relativePath) then groups else group_add rootName (normal_item item) groups.

Lemma group_steps items groups :
  concat (foldl group_step groups items).*2 ≡ₚ concat groups.*2 ++ (normal_item <$> filter in_directory items).
Proof.
  revert groups. induction items as [|item items IH]; intros groups; cbn [foldl]; [by rewrite app_nil_r|]. rewrite IH. unfold group_step.
  cbv zeta. case_decide as E.
  - rewrite filter_cons_False by (unfold in_directory; tauto). done.
  - rewrite filter_cons_True by (split; [tauto|]; destruct (decide (unit_slash ∈ normalizeUploadRelativePath (uf_relativePath item))); tauto).
    rewrite fmap_cons, group_add_items. cbn [app]. by rewrite <- Permutation_middle.
Qed.

Lemma group_items items : concat (groupUploadDirectories items).*2 ≡ₚ normal_item <$> filter in_directory items.
Proof. apply (group_steps items []). Qed.

Lemma slash_rooted path : unit_slash ∈ normalizeUploadRelativePath path → root_name (normalizeUploadRelativePath path) ≠ [].
Proof.
  intros Hs. assert (upload_parts path ≠ []) as Hne.
  { intros E. unfold normalizeUploadRelativePath in Hs. rewrite E in Hs. by apply not_elem_of_nil in Hs. }
  unfold root_name. rewrite split_normal by done. pose proof (upload_parts_neat path) as Hn.
  destruct (upload_parts path) as [|p ps]; [done|]. apply Forall_cons in Hn as [[] _]. done.
Qed.

(** Each picked file is uploaded once: by itself, or in the directory of its group. *)
Lemma uploaded_once items :
  concat (groupUploadDirectories items).*2 ++ direct_files items ≡ₚ
  (λ item, if decide (in_directory item) then normal_item item else item) <$> items.
Proof.
  rewrite group_items. unfold direct_files. induction items as [|item items IH]; [done|]. rewrite fmap_cons.
  destruct (decide (in_directory item)) as [Hd|Hd].
  - rewrite filter_cons_True, (filter_cons_False _ item) by (done || (intros H; by apply H, Hd)). rewrite fmap_cons. cbn [app]. by rewrite IH.
  - rewrite filter_cons_False by done. rewrite filter_cons_True; [by rewrite <- Permutation_middle, IH|].
    intros Hs. apply Hd. split; [by apply slash_rooted|done].
Qed.

(** A name of fewer than 100 characters may have more than 100 bytes: it is cut inside its
    last character. *)
Definition wide_name : jsstr := replicate 40 0x4e2d%Z.

Example wide_name_cut : th_path <$> read_header (buildTarHeader 0 wide_name 0 false) = Some (take 100 (encode wide_name)).
Proof. vm_compute. reflexivity. Qed.

(** The name of a path of more than 255 characters loses its end. *)
Definition deep_path : jsstr := replicate 200 97%Z ++ unit_slash :: replicate 60 98%Z ++ js ".txt".

Example deep_path_cut :
  th_path <$> read_header (buildTarHeader 0 deep_path 0 false) = Some (replicate 155 97%Z ++ unit_slash :: replicate 54 98%Z).
Proof. vm_compute. reflexivity. Qed.

(** A size of eight gibibytes loses its last octal digit. *)
Example size_overflow : th_size <$> read_header (buildTarHeader 0 (js "a") (8 ^ 11) false) = Some (8 ^ 10)%Z.
Proof. vm_compute. reflexivity. Qed.
