(* ===== verification/Transfers.v ===== *)
(** * Remote file transfers

    [features/files/remoteFileTransferStore.ts], the list of transfers that is shown,
    and [features/files/useRemoteFileTransferController.ts], the queue that runs them.
    Dates, ids, translations and the printing of numbers are parameters; progress is an
    exact rational, absent where JavaScript has an infinite number or none. *)

From S2P Require Import Prelude ItemClose RemotePaths TarArchive.
From Stdlib Require Import Lia.

#[local] Open Scope nat_scope.

(** ** Items *)

Inductive TransferDirection := DirUpload | DirDownload.

#[export] Instance TransferDirection_eq_dec : EqDecision TransferDirection.
Proof. solve_decision. Defined.

Inductive TransferKind := KindFile | KindDirectory.

#[export] Instance TransferKind_eq_dec : EqDecision TransferKind.
Proof. solve_decision. Defined.

Inductive RemoteFileTransferConflictPolicy := PolicyAsk | PolicyOverwrite | PolicySkip | PolicyRename.

#[export] Instance RemoteFileTransferConflictPolicy_eq_dec : EqDecision RemoteFileTransferConflictPolicy.
Proof. solve_decision. Defined.

(** What a transfer reads of a remote entry. *)
Record TransferEntry := mkTransferEntry {
  te_name : string;
  te_path : string;
  te_directory : bool;
}.

#[export] Instance TransferEntry_eq_dec : EqDecision TransferEntry.
Proof. solve_decision. Defined.

(** The input of a download without its transfer. *)
Record RemoteFileDownloadToLocalInput := mkDownload {
  dl_connectionId : string;
  dl_compress : option bool;
  dl_conflictPolicy : option RemoteFileTransferConflictPolicy;
  dl_directory : bool;
  dl_downloadRoot : option string;
  dl_groupBySession : bool;
  dl_keepArchives : option bool;
  dl_path : string;
  dl_sessionName : string;
  dl_timestampDirectory : bool;
  dl_timestampName : string;
}.

#[export] Instance RemoteFileDownloadToLocalInput_eq_dec : EqDecision RemoteFileDownloadToLocalInput.
Proof. solve_decision. Defined.

Inductive RemoteFileTransferRetry :=
  | LocalFileUpload (connectionId : string) (conflictPolicy : RemoteFileTransferConflictPolicy) (localPath parentPath : string)
  | LocalDirectoryUpload (compress : bool) (connectionId : string) (conflictPolicy : RemoteFileTransferConflictPolicy)
      (keepArchive : bool) (localPath parentPath : string)
  | BrowserFileUpload (connectionId : string) (conflictPolicy : RemoteFileTransferConflictPolicy)
      (item : RemoteFileUploadItem) (parentPath : string)
  | BrowserDirectoryUpload (connectionId : string) (conflictPolicy : RemoteFileTransferConflictPolicy)
      (items : list RemoteFileUploadItem) (keepArchive : bool) (parentPath rootName : string)
  | RetryDownload (entry : TransferEntry) (input : RemoteFileDownloadToLocalInput).

#[export] Instance RemoteFileTransferRetry_eq_dec : EqDecision RemoteFileTransferRetry.
Proof. solve_decision. Defined.

Definition rebind_input (connectionId : string) (input : RemoteFileDownloadToLocalInput) : RemoteFileDownloadToLocalInput :=
  mkDownload connectionId (dl_compress input) (dl_conflictPolicy input) (dl_directory input) (dl_downloadRoot input)
    (dl_groupBySession input) (dl_keepArchives input) (dl_path input) (dl_sessionName input) (dl_timestampDirectory input)
    (dl_timestampName input).

Definition rebind_retry (connectionId : string) (retry : RemoteFileTransferRetry) : RemoteFileTransferRetry :=
  match retry with
  | LocalFileUpload _ policy localPath parentPath => LocalFileUpload connectionId policy localPath parentPath
  | LocalDirectoryUpload compress _ policy keepArchive localPath parentPath =>
      LocalDirectoryUpload compress connectionId policy keepArchive localPath parentPath
  | BrowserFileUpload _ policy item parentPath => BrowserFileUpload connectionId policy item parentPath
  | BrowserDirectoryUpload _ policy items keepArchive parentPath rootName =>
      BrowserDirectoryUpload connectionId policy items keepArchive parentPath rootName
  | RetryDownload entry input => RetryDownload entry (rebind_input connectionId input)
  end.

Record RemoteFileTransferItem := mkItem {
  ti_id : string;
  ti_connectionId : option string;
  ti_createdAt : Z;
  ti_direction : TransferDirection;
  ti_error : option string;
  ti_kind : TransferKind;
  ti_localPath : option string;
  ti_name : string;
  ti_progress : Q;
  ti_progressDetail : option string;
  ti_progressIndeterminate : bool;
  ti_retry : option RemoteFileTransferRetry;
  ti_remotePath : string;
  ti_speedText : option string;
  ti_stage : string;
  ti_startedAt : Z;
  ti_status : TransferStatus;
}.

#[export] Instance Q_eq_dec : EqDecision Q.
Proof. solve_decision. Defined.

#[export] Instance RemoteFileTransferItem_eq_dec : EqDecision RemoteFileTransferItem.
Proof. solve_decision. Defined.

(** The state of the store. *)
Abbreviation transfers := (list RemoteFileTransferItem).

Definition maxFinishedTransferHistory : nat := 100.
Definition maxErrorTransferHistory : nat := 100.

(** [finishedTransferStatuses.has]. *)
Definition is_finished (status : TransferStatus) : bool :=
  match status with TsSuccess | TsSkipped | TsCanceled => true | _ => false end.

Definition getRemoteFileTransfer (transferId : string) (items : transfers) : option RemoteFileTransferItem :=
  js_find (λ item, ti_id item = transferId) items.

Definition activeRemoteFileTransferIdsForConnections (items : transfers) (connectionIds : list string) : list string :=
  ti_id <$> filter (λ item, truthy (ti_connectionId item) = true ∧
    default "" (ti_connectionId item ||? Some "") ∈ connectionIds ∧
    (ti_status item = TsQueued ∨ ti_status item = TsRunning)) items.

Definition with_connection (connectionId : string) (retry : option RemoteFileTransferRetry)
    (item : RemoteFileTransferItem) : RemoteFileTransferItem :=
  mkItem (ti_id item) (Some connectionId) (ti_createdAt item) (ti_direction item) (ti_error item) (ti_kind item)
    (ti_localPath item) (ti_name item) (ti_progress item) (ti_progressDetail item) (ti_progressIndeterminate item)
    retry (ti_remotePath item) (ti_speedText item) (ti_stage item) (ti_startedAt item) (ti_status item).

Definition rebindRemoteFileTransferItem (item : RemoteFileTransferItem)
    (fromConnectionId toConnectionId : string) : RemoteFileTransferItem :=
  if decide (ti_connectionId item ≠ Some fromConnectionId) then item
  else
    with_connection toConnectionId
      (rebind_retry toConnectionId <$> ti_retry item) item.

Definition rebindRemoteFileTransferConnection (fromConnectionId toConnectionId : string) (items : transfers) : transfers :=
  (λ item, rebindRemoteFileTransferItem item fromConnectionId toConnectionId) <$> items.

(** The loop of [trimTransferHistory], with its two counters. *)
Fixpoint trim_loop (finishedCount errorCount : nat) (items : transfers) : transfers :=
  match items with
  | [] => []
  | item :: rest =>
      if decide (ti_status item = TsError) then
        if errorCount <? maxErrorTransferHistory
        then item :: trim_loop finishedCount (S errorCount) rest
        else trim_loop finishedCount errorCount rest
      else if negb (is_finished (ti_status item)) then item :: trim_loop finishedCount errorCount rest
      else if finishedCount <? maxFinishedTransferHistory
      then item :: trim_loop (S finishedCount) errorCount rest
      else trim_loop finishedCount errorCount rest
  end.

Definition trimTransferHistory (items : transfers) : transfers := trim_loop 0 0 items.

(** ** Updates *)

Record AddRemoteFileTransferInput := mkAdd {
  ad_connectionId : option string;
  ad_direction : TransferDirection;
  ad_kind : TransferKind;
  ad_name : string;
  ad_progress : option Q;
  ad_progressDetail : option string;
  ad_progressIndeterminate : option bool;
  ad_remotePath : string;
  ad_retry : option RemoteFileTransferRetry;
  ad_speedText : option string;
  ad_stage : string;
}.

Definition normalize_path_string (path : string) : string :=
  String.string_of_list_ascii (normalizeRemotePath (Some (String.list_ascii_of_string path))).

(** [id] and [now] are what the clock and the random generator give. *)
Definition addRemoteFileTransfer (id : string) (now : Z) (input : AddRemoteFileTransferInput) (items : transfers) : transfers :=
  let item :=
    mkItem id (ad_connectionId input) now (ad_direction input) None (ad_kind input) None (ad_name input)
      (default 0%Q (ad_progress input)) (ad_progressDetail input)
      (default false (ad_progressIndeterminate input)) (ad_retry input) (normalize_path_string (ad_remotePath input))
      (ad_speedText input) (ad_stage input) now TsQueued in
  trimTransferHistory (item :: items).

(** [Partial<Omit<RemoteFileTransferItem, "id" | "createdAt">>]: the fields that are
    given; a nullable field may be given as null. *)
Record TransferUpdate := mkUpdate {
  up_connectionId : option (option string);
  up_direction : option TransferDirection;
  up_error : option (option string);
  up_kind : option TransferKind;
  up_localPath : option (option string);
  up_name : option string;
  up_progress : option Q;
  up_progressDetail : option (option string);
  up_progressIndeterminate : option bool;
  up_retry : option (option RemoteFileTransferRetry);
  up_remotePath : option string;
  up_speedText : option (option string);
  up_stage : option string;
  up_startedAt : option Z;
  up_status : option TransferStatus;
}.

Definition no_update : TransferUpdate :=
  mkUpdate None None None None None None None None None None None None None None None.

(** [includes(" / ")]. *)
Definition has_separator (detail : string) : bool :=
  match String.index 0 " / " detail with Some _ => true | None => false end.

Definition merge_update (update : TransferUpdate) (item : RemoteFileTransferItem) : RemoteFileTransferItem :=
  let detail := default (ti_progressDetail item) (up_progressDetail update) in
  let detail :=
    if bool_decide (up_progressDetail update = Some (Some "100%")) &&
       match ti_progressDetail item with Some d => has_separator d | None => false end
    then ti_progressDetail item else detail in
  mkItem (ti_id item) (default (ti_connectionId item) (up_connectionId update)) (ti_createdAt item)
    (default (ti_direction item) (up_direction update)) (default (ti_error item) (up_error update))
    (default (ti_kind item) (up_kind update)) (default (ti_localPath item) (up_localPath update))
    (default (ti_name item) (up_name update)) (default (ti_progress item) (up_progress update)) detail
    (default (ti_progressIndeterminate item) (up_progressIndeterminate update))
    (default (ti_retry item) (up_retry update)) (default (ti_remotePath item) (up_remotePath update))
    (default (ti_speedText item) (up_speedText update)) (default (ti_stage item) (up_stage update))
    (default (ti_startedAt item) (up_startedAt update)) (default (ti_status item) (up_status update)).

Definition updateRemoteFileTransfer (transferId : string) (update : TransferUpdate) (items : transfers) : transfers :=
  let next := (λ item, if decide (ti_id item ≠ transferId) then item else merge_update update item) <$> items in
  if decide (next = items) then items else trimTransferHistory next.

Definition clampTransferProgress (progress : option Q) : Q :=
  match progress with
  | None => 0
  | Some p => Qmax 0 (Qmin 100 p)
  end.

Record SetTransferProgressInput := mkSetProgress {
  sp_detail : option string;
  sp_indeterminate : option bool;
  sp_progress : option Q;
  sp_speedText : option string;
  sp_stage : string;
  sp_status : option TransferStatus;
}.

Definition setTransferProgress (transferId : string) (input : SetTransferProgressInput) : transfers → transfers :=
  updateRemoteFileTransfer transferId
    (mkUpdate None None None None None None (Some (clampTransferProgress (sp_progress input)))
       (Some (sp_detail input)) (Some (default false (sp_indeterminate input))) None None (Some (sp_speedText input))
       (Some (sp_stage input)) None (Some (default TsRunning (sp_status input)))).

Definition prepareTransferRetry (transferId stage : string) (now : Z) : transfers → transfers :=
  updateRemoteFileTransfer transferId
    (mkUpdate None None (Some None) None (Some None) None (Some 0%Q) (Some None) (Some false) None None (Some None)
       (Some stage) (Some now) (Some TsQueued)).

Definition clearFinishedTransfers (items : transfers) : transfers :=
  filter (λ item, is_finished (ti_status item) = false) items.

Definition removeRemoteFileTransfer (transferId : string) (items : transfers) : transfers :=
  filter (λ item, ti_id item ≠ transferId) items.

(** ** Progress reports *)

(** [loaded_bytes] and [total_bytes]; a total that is null or undefined is absent. *)
Record RemoteFileTransferProgressEvent := mkProgressEvent {
  pe_direction : TransferDirection;
  pe_loaded : Q;
  pe_total : option Q;
  pe_transferId : string;
}.

Section texts.
(** The translations [t(key)] and [t(key, { size })], and how a number is printed:
    [toString()] and [toFixed(1)]. *)
Context (t : string → string) (t_size : string → string → string).
Context (to_string to_fixed1 : Q → string).

Definition formatFileSize (size : Q) : string :=
  if negb (Qle_bool 1024 size) then to_string size +:+ " B"
  else if negb (Qle_bool (1024 * 1024) size) then to_fixed1 (size / 1024) +:+ " KB"
  else if negb (Qle_bool (1024 * 1024 * 1024) size) then to_fixed1 (size / 1024 / 1024) +:+ " MB"
  else to_fixed1 (size / 1024 / 1024 / 1024) +:+ " GB".

Definition transferProgressPercent (loadedBytes totalBytes : Q) : Q :=
  if Qle_bool totalBytes 0 then 0 else Qmax 0 loadedBytes / totalBytes * 100.

Definition formatTransferProgressBytes (loadedBytes totalBytes : Q) : string :=
  if Qle_bool totalBytes 0 then formatFileSize loadedBytes
  else formatFileSize loadedBytes +:+ " / " +:+ formatFileSize totalBytes.

Definition calculateTransferAverageSpeed (loadedBytes : Q) (startedAt now : Z) : Q :=
  let elapsedSeconds := Qmax (1 # 1000) (inject_Z (now - startedAt) / 1000) in
  Qmax 0 (loadedBytes / elapsedSeconds).

Definition formatTransferSpeed (bytesPerSecond : Q) : option string :=
  if Qle_bool bytesPerSecond 0 then None else Some (formatFileSize bytesPerSecond +:+ "/s").

Definition markTransferCanceled (transferId : string) : transfers → transfers :=
  updateRemoteFileTransfer transferId
    (mkUpdate None None None None None None (Some 0%Q) (Some None) (Some false) None None (Some None)
       (Some (t "files.transfer.status.canceled")) None (Some TsCanceled)).

(** What an event makes of an item that runs. *)
Definition progress_item (now : Z) (event : RemoteFileTransferProgressEvent) (item : RemoteFileTransferItem) :
    RemoteFileTransferItem :=
  let hasKnownTotal := match pe_total event with Some _ => true | None => false end in
  let totalBytes := default 0%Q (pe_total event) in
  let progress := if negb (Qle_bool totalBytes 0) then transferProgressPercent (pe_loaded event) totalBytes else ti_progress item in
  let upload := bool_decide (pe_direction event = DirUpload) in
  let complete := upload && Qle_bool 100 progress in
  let archive := bool_decide (ti_kind item = KindDirectory) && negb upload && negb hasKnownTotal in
  let displayProgress := if complete then 99%Q else progress in
  let stage :=
    if complete then t "files.transfer.stage.waitingRemote"
    else if archive then t "files.transfer.stage.compressing"
    else if upload then t "files.transfer.stage.uploading"
    else t "files.transfer.stage.downloading" in
  let progressDetail :=
    if archive then t_size "files.transfer.archiveSize" (formatFileSize (pe_loaded event))
    else formatTransferProgressBytes (pe_loaded event) totalBytes in
  mkItem (ti_id item) (ti_connectionId item) (ti_createdAt item) (ti_direction item) (ti_error item) (ti_kind item)
    (ti_localPath item) (ti_name item) (clampTransferProgress (Some displayProgress)) (Some progressDetail)
    (Qle_bool totalBytes 0) (ti_retry item) (ti_remotePath item)
    (formatTransferSpeed (calculateTransferAverageSpeed (pe_loaded event) (ti_startedAt item) now)) stage
    (ti_startedAt item) (ti_status item).

Definition applyRemoteTransferProgressEvents (now : Z) (events : list RemoteFileTransferProgressEvent) (items : transfers) :
    transfers :=
  let eventByTransferId := jsmap_of_entries ((λ event, (pe_transferId event, event)) <$> events) in
  (λ item, match jsmap_get (ti_id item) eventByTransferId with
           | Some event => if decide (ti_status item = TsRunning) then progress_item now event item else item
           | None => item
           end) <$> items.

(** ** The controller *)

(** [tc_runs] are the tasks that were called and have not settled, with the number of
    the task; [tf_started] is the order of the calls and [tf_backend] the transfers the
    backend was asked to cancel. *)
Record TransferController := mkTransfers {
  tf_items : transfers;
  tf_concurrency : Z;
  tf_queue : list string;
  tf_running : gset string;
  tf_tasks : jsmap nat;
  tf_runs : list (string * nat);
  tf_started : list (string * nat);
  tf_backend : list string;
  tf_progress : jsmap RemoteFileTransferProgressEvent;
  tf_timer : bool;
}.

Definition initialTransferController (concurrentTransfers : Z) : TransferController :=
  mkTransfers [] concurrentTransfers [] ∅ [] [] [] [] [] false.

Definition tf_with_items (f : transfers → transfers) (c : TransferController) : TransferController :=
  mkTransfers (f (tf_items c)) (tf_concurrency c) (tf_queue c) (tf_running c) (tf_tasks c) (tf_runs c) (tf_started c)
    (tf_backend c) (tf_progress c) (tf_timer c).

Definition tf_with_queue (queue : list string) (tasks : jsmap nat) (c : TransferController) : TransferController :=
  mkTransfers (tf_items c) (tf_concurrency c) queue (tf_running c) tasks (tf_runs c) (tf_started c) (tf_backend c)
    (tf_progress c) (tf_timer c).

Definition task_delete (id : string) (tasks : jsmap nat) : jsmap nat := filter (λ e, e.1 ≠ id) tasks.

(** A task is called: it is running, and its item says so. *)
Definition start_task (now : Z) (id : string) (task : nat) (c : TransferController) : TransferController :=
  mkTransfers
    (updateRemoteFileTransfer id
       (mkUpdate None None None None None None None None None None None None None (Some now) (Some TsRunning))
       (tf_items c))
    (tf_concurrency c) (tf_queue c) ({[id]} ∪ tf_running c) (tf_tasks c) (tf_runs c ++ [(id, task)])
    (tf_started c ++ [(id, task)]) (tf_backend c) (tf_progress c) (tf_timer c).

(** The loop of [drainTransferQueue]. *)
Fixpoint drain_loop (now : Z) (queue : list string) (c : TransferController) : TransferController :=
  match queue with
  | [] => tf_with_queue [] (tf_tasks c) c
  | id :: rest =>
      if (Z.of_nat (size (tf_running c)) <? tf_concurrency c)%Z then
        if decide (id = "") then drain_loop now rest c
        else
          let waits := match getRemoteFileTransfer id (tf_items c) with
                       | Some item => bool_decide (ti_status item = TsQueued)
                       | None => true
                       end in
          match jsmap_get id (tf_tasks c) with
          | Some task =>
              if waits then drain_loop now rest (start_task now id task c)
              else drain_loop now rest (tf_with_queue (tf_queue c) (task_delete id (tf_tasks c)) c)
          | None => drain_loop now rest (tf_with_queue (tf_queue c) (task_delete id (tf_tasks c)) c)
          end
      else tf_with_queue (id :: rest) (tf_tasks c) c
  end.

Definition drainTransferQueue (now : Z) (c : TransferController) : TransferController :=
  drain_loop now (tf_queue c) c.

Definition setConcurrentTransfers (now : Z) (concurrentTransfers : Z) (c : TransferController) : TransferController :=
  drainTransferQueue now
    (mkTransfers (tf_items c) concurrentTransfers (tf_queue c) (tf_running c) (tf_tasks c) (tf_runs c) (tf_started c)
       (tf_backend c) (tf_progress c) (tf_timer c)).

Definition dropQueuedTransfer (id : string) (c : TransferController) : TransferController :=
  tf_with_queue (filter (λ x, x ≠ id) (tf_queue c)) (task_delete id (tf_tasks c)) c.

(** The task is noted and the transfer queued, unless it waits or runs already. *)
Definition enqueue_task (id : string) (task : nat) (c : TransferController) : TransferController :=
  tf_with_queue (if decide (id ∈ tf_queue c ∨ id ∈ tf_running c) then tf_queue c else tf_queue c ++ [id])
    (jsmap_set id task (tf_tasks c)) c.

Definition enqueueRemoteFileTransfer (now : Z) (id : string) (task : nat) (c : TransferController) : TransferController :=
  drainTransferQueue now (enqueue_task id task c).

Definition cancelQueuedTransfer (id : string) (c : TransferController) : TransferController :=
  tf_with_items (updateRemoteFileTransfer id
    (mkUpdate None None (Some None) None None None (Some 0%Q) (Some None) (Some false) None None (Some None)
       (Some (t "files.transfer.status.canceled")) None (Some TsCanceled)))
    (dropQueuedTransfer id c).

Definition requestCancelTransfer (tauri : bool) (id : string) (c : TransferController) : TransferController :=
  match getRemoteFileTransfer id (tf_items c) with
  | None => cancelQueuedTransfer id c
  | Some item =>
      if decide (ti_status item = TsQueued) then cancelQueuedTransfer id c
      else if decide (ti_status item ≠ TsRunning) then c
      else
        let c := tf_with_items (markTransferCanceled id) c in
        mkTransfers (tf_items c) (tf_concurrency c) (tf_queue c) (tf_running c) (tf_tasks c) (tf_runs c) (tf_started c)
          (if tauri then tf_backend c ++ [id] else tf_backend c) (tf_progress c) (tf_timer c)
  end.

Definition removeTransfer (id : string) (c : TransferController) : TransferController :=
  tf_with_items (removeRemoteFileTransfer id) (dropQueuedTransfer id c).

Definition isTransferNoLongerActive (id : string) (c : TransferController) : bool :=
  match getRemoteFileTransfer id (tf_items c) with
  | Some item => bool_decide (ti_status item = TsCanceled ∨ ti_status item = TsError)
  | None => false
  end.

(** The bookkeeping of a settled call of transfer [id] at position [run]. *)
Definition finish_task (run : nat) (id : string) (c : TransferController) : TransferController :=
  mkTransfers (tf_items c) (tf_concurrency c) (tf_queue c) (tf_running c ∖ {[id]}) (task_delete id (tf_tasks c))
    (delete run (tf_runs c)) (tf_started c) (tf_backend c) (tf_progress c) (tf_timer c).

(** The call at a position of [tf_runs] settles; [fail] is what [onTaskError] makes of
    the items when it rejects. *)
Definition task_settled (now : Z) (run : nat) (fail : transfers → transfers) (c : TransferController) : TransferController :=
  match tf_runs c !! run with
  | None => c
  | Some (id, _) => drainTransferQueue now (finish_task run id (tf_with_items fail c))
  end.

Definition queueRemoteTransferProgress (event : RemoteFileTransferProgressEvent) (c : TransferController) : TransferController :=
  mkTransfers (tf_items c) (tf_concurrency c) (tf_queue c) (tf_running c) (tf_tasks c) (tf_runs c) (tf_started c)
    (tf_backend c) (jsmap_set (pe_transferId event) event (tf_progress c)) true.

(** The timer of the flush fires. *)
Definition flushTransferProgress (now : Z) (c : TransferController) : TransferController :=
  if tf_timer c then
    mkTransfers (applyRemoteTransferProgressEvents now (tf_progress c).*2 (tf_items c)) (tf_concurrency c) (tf_queue c)
      (tf_running c) (tf_tasks c) (tf_runs c) (tf_started c) (tf_backend c) [] false
  else c.

Definition clearPendingTransferProgressEvents (c : TransferController) : TransferController :=
  mkTransfers (tf_items c) (tf_concurrency c) (tf_queue c) (tf_running c) (tf_tasks c) (tf_runs c) (tf_started c)
    (tf_backend c) [] false.

(** [failTransfer] of the shell: the error's kind, its text and the stage to show. *)
Definition failTransfer (transferId : string) (canceledError : bool) (errorText stage : string) (items : transfers) : transfers :=
  if decide (ti_status <$> getRemoteFileTransfer transferId items = Some TsCanceled) then items
  else if canceledError then markTransferCanceled transferId items
  else
    updateRemoteFileTransfer transferId
      (mkUpdate None None (Some (Some errorText)) None None None None None (Some false) None None (Some None)
         (Some stage) None (Some TsError)) items.

Inductive TransferEvent :=
  | TfAdd (id : string) (now : Z) (input : AddRemoteFileTransferInput)
  | TfUpdate (id : string) (update : TransferUpdate)
  | TfFail (id : string) (canceledError : bool) (errorText stage : string)
  | TfRebind (fromConnectionId toConnectionId : string)
  | TfClearFinished
  | TfEnqueue (now : Z) (id : string) (task : nat)
  | TfSettled (now : Z) (run : nat) (error : option (bool * string * string))
  | TfLimit (now : Z) (concurrentTransfers : Z)
  | TfCancel (tauri : bool) (id : string)
  | TfRemove (id : string)
  | TfProgress (event : RemoteFileTransferProgressEvent)
  | TfFlush (now : Z)
  | TfClearProgress.

Definition transfer_step (c : TransferController) (event : TransferEvent) : TransferController :=
  match event with
  | TfAdd id now input => tf_with_items (addRemoteFileTransfer id now input) c
  | TfUpdate id update => tf_with_items (updateRemoteFileTransfer id update) c
  | TfFail id canceledError errorText stage => tf_with_items (failTransfer id canceledError errorText stage) c
  | TfRebind from to => tf_with_items (rebindRemoteFileTransferConnection from to) c
  | TfClearFinished => tf_with_items clearFinishedTransfers c
  | TfEnqueue now id task => enqueueRemoteFileTransfer now id task c
  | TfSettled now run error =>
      task_settled now run (λ items,
        match error, fst <$> tf_runs c !! run with
        | Some (canceledError, errorText, stage), Some id => failTransfer id canceledError errorText stage items
        | _, _ => items
        end) c
  | TfLimit now n => setConcurrentTransfers now n c
  | TfCancel tauri id => requestCancelTransfer tauri id c
  | TfRemove id => removeTransfer id c
  | TfProgress event => queueRemoteTransferProgress event c
  | TfFlush now => flushTransferProgress now c
  | TfClearProgress => clearPendingTransferProgressEvents c
  end.

Definition transfer_run (concurrentTransfers : Z) (events : list TransferEvent) : TransferController :=
  foldl transfer_step (initialTransferController concurrentTransfers) events.

(** ** Lemmas: the history *)

Definition is_active (item : RemoteFileTransferItem) : Prop := ti_status item = TsQueued ∨ ti_status item = TsRunning.

#[local] Instance is_active_dec item : Decision (is_active item).
Proof. unfold is_active. apply _. Defined.

Lemma trim_loop_spec f e items :
  let kept := trim_loop f e items in
  sublist kept items ∧ filter is_active kept = filter is_active items ∧
  filter (λ item, ti_status item = TsError) kept =
    take (maxErrorTransferHistory - e) (filter (λ item, ti_status item = TsError) items) ∧
  filter (λ item, is_finished (ti_status item) = true) kept =
    take (maxFinishedTransferHistory - f) (filter (λ item, is_finished (ti_status item) = true) items).
Proof.
  revert f e. induction items as [|item items IH]; intros f e; cbn [trim_loop].
  { cbv zeta. by rewrite !filter_nil, !take_nil. }
  assert (∀ P `{∀ x, Decision (P x)} l, P item → filter P (item :: l) = item :: filter P l) as Hin
    by (intros P ? l ?; by rewrite filter_cons_True).
  assert (∀ P `{∀ x, Decision (P x)} l, ¬ P item → filter P (item :: l) = filter P l) as Hout
    by (intros P ? l ?; by rewrite filter_cons_False).
  cbv zeta in *. case_decide as Herr.
  - assert (¬ is_active item) as Hna by (unfold is_active; rewrite Herr; naive_solver).
    assert (is_finished (ti_status item) ≠ true) as Hnf by by rewrite Herr.
    rewrite (Hout is_active _ _ Hna), (Hin (λ item, ti_status item = TsError) _ _ Herr),
      (Hout (λ item, is_finished (ti_status item) = true) _ _ Hnf).
    destruct (e <? maxErrorTransferHistory) eqn:He; [apply Nat.ltb_lt in He|apply Nat.ltb_ge in He].
    + rewrite (Hout is_active _ _ Hna), (Hin (λ item, ti_status item = TsError) _ _ Herr),
        (Hout (λ item, is_finished (ti_status item) = true) _ _ Hnf).
      destruct (IH f (S e)) as (H1 & H2 & H3 & H4). split_and!; [by apply sublist_skip|done| |done].
      rewrite H3. by replace (maxErrorTransferHistory - e) with (S (maxErrorTransferHistory - S e)) by lia.
    + destruct (IH f e) as (H1 & H2 & H3 & H4). split_and!; [by apply sublist_cons|done| |done].
      rewrite H3. by replace (maxErrorTransferHistory - e) with 0 by lia.
  - destruct (is_finished (ti_status item)) eqn:Hf; cbn [negb].
    + assert (¬ is_active item) as Hna by (unfold is_active; intros [Hs|Hs]; by rewrite Hs in Hf).
      rewrite (Hout is_active _ _ Hna), (Hout (λ item, ti_status item = TsError) _ _ Herr),
        (Hin (λ item, is_finished (ti_status item) = true) _ _ Hf).
      destruct (f <? maxFinishedTransferHistory) eqn:He; [apply Nat.ltb_lt in He|apply Nat.ltb_ge in He].
      * rewrite (Hout is_active _ _ Hna), (Hout (λ item, ti_status item = TsError) _ _ Herr),
          (Hin (λ item, is_finished (ti_status item) = true) _ _ Hf).
        destruct (IH (S f) e) as (H1 & H2 & H3 & H4). split_and!; [by apply sublist_skip|done|done|].
        rewrite H4. by replace (maxFinishedTransferHistory - f) with (S (maxFinishedTransferHistory - S f)) by lia.
      * destruct (IH f e) as (H1 & H2 & H3 & H4). split_and!; [by apply sublist_cons|done|done|].
        rewrite H4. by replace (maxFinishedTransferHistory - f) with 0 by lia.
    + assert (is_active item) as Ha by (unfold is_active; destruct (ti_status item); auto; done).
      assert (is_finished (ti_status item) ≠ true) as Hnf by by rewrite Hf.
      rewrite !(Hin is_active _ _ Ha), !(Hout (λ item, ti_status item = TsError) _ _ Herr),
        !(Hout (λ item, is_finished (ti_status item) = true) _ _ Hnf).
      destruct (IH f e) as (H1 & H2 & H3 & H4). split_and!; [by apply sublist_skip|by rewrite H2|done|done].
Qed.

(** At most the last hundred failures and the last hundred other ends are kept. *)
Record history_ok (items : transfers) : Prop := {
  hk_errors : length (filter (λ item, ti_status item = TsError) items) ≤ maxErrorTransferHistory;
  hk_finished : length (filter (λ item, is_finished (ti_status item) = true) items) ≤ maxFinishedTransferHistory;
}.

Lemma trim_history_ok items : history_ok (trimTransferHistory items).
Proof.
  destruct (trim_loop_spec 0 0 items) as (_ & _ & H3 & H4).
  constructor; unfold trimTransferHistory; rewrite ?H3, ?H4, length_take; lia.
Qed.

Lemma sublist_filter_mono {A} (P : A → Prop) `{∀ x, Decision (P x)} (l k : list A) :
  sublist l k → sublist (filter P l) (filter P k).
Proof.
  induction 1 as [|x l k _ IH|x l k _ IH]; [done| |]; rewrite !filter_cons; case_decide; try done;
    [by apply sublist_skip|by apply sublist_cons].
Qed.

Lemma sublist_history_ok items items' : sublist items' items → history_ok items → history_ok items'.
Proof.
  intros Hs [H1 H2]. constructor.
  - etrans; [|exact H1]. by apply sublist_length, sublist_filter_mono.
  - etrans; [|exact H2]. by apply sublist_length, sublist_filter_mono.
Qed.

(** The same statuses in the same order. *)
Lemma map_history_ok f items :
  (∀ item, item ∈ items → ti_status (f item) = ti_status item) → history_ok items → history_ok (f <$> items).
Proof.
  intros Hf [H1 H2].
  assert (∀ (P : TransferStatus → Prop) `{∀ s, Decision (P s)},
    length (filter (λ item, P (ti_status item)) (f <$> items)) = length (filter (λ item, P (ti_status item)) items)) as Hlen.
  { intros P ?. clear H1 H2. induction items as [|item items IH]; [done|]. rewrite fmap_cons, !filter_cons.
    rewrite Hf by left. case_decide; cbn; rewrite IH; auto; intros; apply Hf; by right. }
  pose proof (Hlen (λ s, s = TsError) _) as He. pose proof (Hlen (λ s, is_finished s = true) _) as Hfin.
  cbv beta in He, Hfin. constructor; [by rewrite He|by rewrite Hfin].
Qed.

(** ** Lemmas: the queue *)

#[local] Ltac tf_cbn :=
  cbn [tf_with_items tf_with_queue start_task tf_items tf_concurrency tf_queue tf_running tf_tasks tf_runs tf_started
       tf_backend tf_progress tf_timer].

(** What holds of the queue [queue] that is being looked at. *)
Record queue_ok (queue : list string) (c : TransferController) : Prop := {
  qk_queue : NoDup queue;
  qk_disjoint : ∀ id, id ∈ queue → id ∉ tf_running c;
  qk_runs : NoDup (tf_runs c).*1;
  qk_running : tf_running c = list_to_set (tf_runs c).*1;
}.

Lemma running_size queue c : queue_ok queue c → size (tf_running c) = length (tf_runs c).
Proof. intros []. rewrite qk_running0, size_list_to_set by done. by rewrite length_fmap. Qed.

Lemma drain_spec now queue c :
  queue_ok queue c →
  let c' := drain_loop now queue c in
  queue_ok (tf_queue c') c' ∧
  tf_concurrency c' = tf_concurrency c ∧
  (tf_queue c' = [] ∨ (tf_concurrency c ≤ Z.of_nat (length (tf_runs c')))%Z) ∧
  (Z.of_nat (length (tf_runs c')) ≤ Z.max (Z.of_nat (length (tf_runs c))) (tf_concurrency c))%Z ∧
  ∃ new, tf_runs c' = tf_runs c ++ new ∧ tf_started c' = tf_started c ++ new ∧ sublist (new.*1 ++ tf_queue c') queue.
Proof.
  revert c. induction queue as [|id rest IH]; intros c Hq; cbn [drain_loop]; cbv zeta.
  { tf_cbn. split_and!; [by destruct Hq|done|by left|lia|]. exists []. by rewrite !app_nil_r. }
  assert (queue_ok rest c) as Hrest.
  { destruct Hq. apply NoDup_cons in qk_queue0 as [_ ?]. constructor; auto. intros x Hx. apply qk_disjoint0. by right. }
  assert (∀ c1, queue_ok rest c1 → tf_concurrency c1 = tf_concurrency c → tf_runs c1 = tf_runs c → tf_started c1 = tf_started c →
    let c' := drain_loop now rest c1 in
    queue_ok (tf_queue c') c' ∧ tf_concurrency c' = tf_concurrency c ∧
    (tf_queue c' = [] ∨ (tf_concurrency c ≤ Z.of_nat (length (tf_runs c')))%Z) ∧
    (Z.of_nat (length (tf_runs c')) ≤ Z.max (Z.of_nat (length (tf_runs c))) (tf_concurrency c))%Z ∧
    ∃ new, tf_runs c' = tf_runs c ++ new ∧ tf_started c' = tf_started c ++ new ∧
      sublist (new.*1 ++ tf_queue c') (id :: rest)) as Hskip.
  { intros c1 H1 Hc Hr Hs. destruct (IH c1 H1) as (G1 & G2 & G3 & G4 & new & G5 & G6 & G7).
    rewrite Hc in *. rewrite Hr in *. rewrite Hs in *. split_and!; [done..|]. exists new. split_and!; [done..|].
    by apply sublist_cons. }
  destruct (_ <? _)%Z eqn:Hlt; [apply Z.ltb_lt in Hlt|apply Z.ltb_ge in Hlt].
  2: { tf_cbn. rewrite (running_size _ _ Hq) in Hlt. split_and!; [by destruct Hq|done|right; lia|lia|].
       exists []. by rewrite !app_nil_r. }
  rewrite (running_size _ _ Hq) in Hlt. case_decide as Hempty; [by apply Hskip|]. cbv zeta.
  assert (queue_ok rest (tf_with_queue (tf_queue c) (task_delete id (tf_tasks c)) c)) as Hdel by by destruct Hrest.
  destruct (jsmap_get id (tf_tasks c)) as [task|]; [|by apply Hskip].
  destruct (match getRemoteFileTransfer id (tf_items c) with Some item => _ | None => true end); [|by apply Hskip].
  destruct (IH (start_task now id task c)) as (G1 & G2 & G3 & G4 & new & G5 & G6 & G7).
  { destruct Hq. apply NoDup_cons in qk_queue0 as [Hni Hnd].
    assert (id ∉ tf_running c) as Hnr by (apply qk_disjoint0; left).
    constructor; tf_cbn; [done| | |].
    - intros x Hx. apply not_elem_of_union. split; [|apply qk_disjoint0; by right].
      apply not_elem_of_singleton. congruence.
    - rewrite fmap_app. cbn. apply NoDup_app. split_and!; [done| |apply NoDup_singleton].
      intros x Hx ->%list_elem_of_singleton. apply Hnr. rewrite qk_running0. by apply elem_of_list_to_set.
    - rewrite fmap_app, list_to_set_app_L, qk_running0. cbn. set_solver. }
  revert G2 G3 G4 G5 G6. tf_cbn. rewrite !length_app. cbn [length]. intros G2 G3 G4 G5 G6.
  split_and!; [done..|lia|]. exists ((id, task) :: new). rewrite G5, G6, <- !app_assoc. split_and!; [done..|].
  cbn. by apply sublist_skip.
Qed.

(** The invariant of a controller. *)
Record transfers_ok (c : TransferController) : Prop := {
  tk_queue : queue_ok (tf_queue c) c;
  tk_busy : tf_queue c = [] ∨ (tf_concurrency c ≤ Z.of_nat (length (tf_runs c)))%Z;
}.

Lemma drain_ok now c : queue_ok (tf_queue c) c → transfers_ok (drainTransferQueue now c).
Proof. intros Hq. destruct (drain_spec now (tf_queue c) c Hq) as (H1 & H2 & H3 & _). constructor; [done|]. unfold drainTransferQueue. by rewrite H2. Qed.

(** Changing what the queue does not depend on. *)
Lemma same_queue_ok c c' :
  transfers_ok c → tf_queue c' = tf_queue c → tf_running c' = tf_running c → tf_runs c' = tf_runs c →
  tf_concurrency c' = tf_concurrency c → transfers_ok c'.
Proof.
  intros [[] Hb] Hq Hr Hs Hc. constructor; [|by rewrite Hq, Hs, Hc]. constructor; rewrite ?Hq, ?Hr, ?Hs; done.
Qed.

Lemma drop_ok id c : transfers_ok c → transfers_ok (dropQueuedTransfer id c).
Proof.
  intros [[] Hb]. unfold dropQueuedTransfer. constructor.
  - constructor; tf_cbn; [by apply NoDup_filter| |done|done]. intros x [_ Hx]%list_elem_of_filter. by apply qk_disjoint0.
  - tf_cbn. destruct Hb as [->|?]; [by left|by right].
Qed.

Lemma enqueue_task_ok id task c : transfers_ok c → queue_ok (tf_queue (enqueue_task id task c)) (enqueue_task id task c).
Proof.
  intros [[] _]. unfold enqueue_task. constructor; tf_cbn; try done.
  - case_decide as Hin; [done|]. apply NoDup_app. split_and!; [done| |apply NoDup_singleton].
    intros x Hx ->%list_elem_of_singleton. tauto.
  - case_decide as Hin; [done|]. intros x [Hx|Hx%list_elem_of_singleton]%elem_of_app; [by apply qk_disjoint0|subst; tauto].
Qed.

Lemma finish_task_ok run id task f c :
  transfers_ok c → tf_runs c !! run = Some (id, task) →
  let c' := finish_task run id (tf_with_items f c) in
  queue_ok (tf_queue c') c' ∧ length (tf_runs c') ≤ length (tf_runs c).
Proof.
  intros [[] _] Er. cbv zeta. unfold finish_task.
  assert (Permutation (tf_runs c) ((id, task) :: delete run (tf_runs c))) as Hp by by apply delete_Permutation.
  split; [|rewrite (Permutation_length Hp); tf_cbn; cbn [length]; lia].
  apply (fmap_Permutation fst) in Hp. cbn [fmap list_fmap fst] in Hp.
  assert (NoDup (id :: (delete run (tf_runs c)).*1)) as [Hni Hnd]%NoDup_cons by by rewrite <- Hp.
  constructor; tf_cbn; [done| |done|].
  - intros x Hx. apply not_elem_of_difference. left. by apply qk_disjoint0.
  - apply set_eq. intros x. rewrite qk_running0, elem_of_difference, elem_of_singleton, !elem_of_list_to_set, Hp, elem_of_cons.
    split; [tauto|]. intros Hx. split; [by right|]. by intros ->.
Qed.

Lemma transfer_step_ok c e : transfers_ok c → transfers_ok (transfer_step c e).
Proof.
  intros Hc. destruct e; cbn [transfer_step]; try (by apply (same_queue_ok c)).
  - by apply drain_ok, enqueue_task_ok.
  - unfold task_settled. destruct (tf_runs c !! run) as [[id task]|] eqn:Er; [|done]. apply drain_ok.
    by eapply finish_task_ok.
  - unfold setConcurrentTransfers. apply drain_ok. by destruct Hc as [[] _].
  - unfold requestCancelTransfer. assert (transfers_ok (cancelQueuedTransfer id c)) as Hcan
      by (apply (same_queue_ok (dropQueuedTransfer id c)); [by apply drop_ok|done..]).
    destruct (getRemoteFileTransfer id (tf_items c)) as [item|]; [|done].
    case_decide; [done|]. case_decide; [done|]. by apply (same_queue_ok c).
  - apply (same_queue_ok (dropQueuedTransfer id c)); [by apply drop_ok|done..].
  - unfold flushTransferProgress. destruct (tf_timer c); [|done]. by apply (same_queue_ok c).
Qed.

Lemma transfer_run_ok n events : transfers_ok (transfer_run n events).
Proof.
  unfold transfer_run. assert (transfers_ok (initialTransferController n)) as H0.
  { constructor; [|by left]. constructor; cbn; try apply NoDup_nil_2; [|done]. by intros id ?%not_elem_of_nil. }
  revert H0. generalize (initialTransferController n). induction events as [|e es IH]; intros c Hc; [done|].
  by apply IH, transfer_step_ok.
Qed.

(** ** Lemmas: the limit *)

(** An event that sets a limit sets one of at most [l]. *)
Definition limit_le (l : Z) (e : TransferEvent) : Prop :=
  match e with TfLimit _ n => (n ≤ l)%Z | _ => True end.

Definition within_limit (l : Z) (c : TransferController) : Prop :=
  (tf_concurrency c ≤ l)%Z ∧ (Z.of_nat (length (tf_runs c)) ≤ l)%Z.

Lemma drain_limit now l c : queue_ok (tf_queue c) c → within_limit l c → within_limit l (drainTransferQueue now c).
Proof.
  intros Hq [Hc Hr]. destruct (drain_spec now (tf_queue c) c Hq) as (_ & H2 & _ & H4 & _).
  unfold within_limit, drainTransferQueue. rewrite H2. split; [done|lia].
Qed.

Lemma transfer_step_limit l c e :
  transfers_ok c → limit_le l e → within_limit l c → within_limit l (transfer_step c e).
Proof.
  intros Hok He Hl. destruct e; cbn [transfer_step]; try done.
  - apply drain_limit; [by apply enqueue_task_ok|done].
  - unfold task_settled. destruct (tf_runs c !! run) as [[id task]|] eqn:Er; [|done].
    match goal with |- within_limit l (drainTransferQueue _ (finish_task _ _ (tf_with_items ?f _))) =>
      destruct (finish_task_ok run id task f c Hok Er) as [Hq Hlen] end.
    apply drain_limit; [done|]. destruct Hl as [? ?]. split; [done|lia].
  - unfold setConcurrentTransfers. apply drain_limit; [by destruct Hok as [[] _]|]. split; [done|apply Hl].
  - unfold requestCancelTransfer. destruct (getRemoteFileTransfer id (tf_items c)) as [item|]; [|done].
    case_decide; [done|]. by case_decide.
  - unfold flushTransferProgress. by destruct (tf_timer c).
Qed.

(** ** Lemmas: the items *)

Lemma update_history_ok id u items : history_ok items → history_ok (updateRemoteFileTransfer id u items).
Proof. intros H. unfold updateRemoteFileTransfer. case_decide; [done|apply trim_history_ok]. Qed.

Lemma fail_history_ok id b text stage items : history_ok items → history_ok (failTransfer id b text stage items).
Proof.
  intros H. unfold failTransfer, markTransferCanceled. case_decide; [done|]. destruct b; by apply update_history_ok.
Qed.

Lemma drain_history_ok now queue c : history_ok (tf_items c) → history_ok (tf_items (drain_loop now queue c)).
Proof.
  revert c. induction queue as [|id rest IH]; intros c Hc; cbn [drain_loop]; [done|].
  destruct (_ <? _)%Z; [|done]. case_decide; [by apply IH|]. cbv zeta.
  destruct (jsmap_get id (tf_tasks c)) as [task|]; [|by apply IH].
  destruct (match getRemoteFileTransfer id (tf_items c) with Some item => _ | None => true end); [|by apply IH].
  apply IH. by apply update_history_ok.
Qed.

Lemma transfer_step_history c e : history_ok (tf_items c) → history_ok (tf_items (transfer_step c e)).
Proof.
  intros Hc. destruct e; cbn [transfer_step]; tf_cbn; try done.
  - apply trim_history_ok.
  - by apply update_history_ok.
  - by apply fail_history_ok.
  - apply map_history_ok; [|done]. intros item _. unfold rebindRemoteFileTransferItem. by case_decide.
  - eapply sublist_history_ok; [apply sublist_filter|done].
  - by apply drain_history_ok.
  - unfold task_settled. destruct (tf_runs c !! run) as [[id task]|]; [|done]. apply drain_history_ok. tf_cbn.
    destruct error as [[[b text] stage]|]; [|done]. by apply fail_history_ok.
  - by apply drain_history_ok.
  - unfold requestCancelTransfer.
    destruct (getRemoteFileTransfer id (tf_items c)) as [item|]; [|by apply update_history_ok].
    case_decide; [by apply update_history_ok|]. case_decide; [done|]. by apply update_history_ok.
  - eapply sublist_history_ok; [apply sublist_filter|done].
  - unfold flushTransferProgress. destruct (tf_timer c); [|done]. apply map_history_ok; [|done].
    intros item _. destruct (jsmap_get _ _); [|done]. by case_decide.
Qed.

(** What an update does to the items, when ids are unique. *)
Lemma update_items id u items :
  let items' := updateRemoteFileTransfer id u items in
  (∀ x, x ∈ items' → ∃ y, y ∈ items ∧ x = if decide (ti_id y ≠ id) then y else merge_update u y) ∧
  (∀ y, y ∈ items → ti_id y ≠ id → is_active y → y ∈ items') ∧
  sublist (ti_id <$> items') (ti_id <$> items).
Proof.
  cbv zeta. unfold updateRemoteFileTransfer. set (f := λ item, if decide (ti_id item ≠ id) then item else merge_update u item).
  assert (ti_id <$> (f <$> items) = ti_id <$> items) as Hids.
  { rewrite <- list_fmap_compose. apply list_fmap_ext. intros i x _. unfold f. cbn. by case_decide. }
  assert (∀ y, y ∈ items → ti_id y ≠ id → y ∈ f <$> items) as Hkeep.
  { intros y Hy Hne. apply list_elem_of_fmap. exists y. split; [|done]. unfold f. by rewrite decide_True. }
  destruct (trim_loop_spec 0 0 (f <$> items)) as (Hsub & Hact & _ & _). fold (trimTransferHistory (f <$> items)) in Hsub, Hact.
  case_decide as Heq.
  - split_and!; [|done|done]. intros x Hx. rewrite <- Heq in Hx. by apply list_elem_of_fmap in Hx as (y & -> & Hy); eauto.
  - split_and!.
    + intros x Hx. assert (x ∈ f <$> items) as Hx' by (by eapply (sublist_subseteq _ _ Hsub)).
      apply list_elem_of_fmap in Hx' as (y & -> & Hy). eauto.
    + intros y Hy Hne Ha. assert (y ∈ filter is_active (f <$> items)) as Hin
        by (apply list_elem_of_filter; auto). rewrite <- Hact in Hin. by apply list_elem_of_filter in Hin as [_ ?].
    + rewrite <- Hids. by apply fmap_sublist.
Qed.

(** Cancelling a transfer ends it and leaves the others alone. *)
Lemma cancel_items tauri id c :
  NoDup (ti_id <$> tf_items c) →
  let items' := tf_items (requestCancelTransfer tauri id c) in
  NoDup (ti_id <$> items') ∧
  (∀ x, x ∈ items' → x ∈ tf_items c ∧ (ti_id x = id → ¬ is_active x) ∨ ti_id x = id ∧ ¬ is_active x) ∧
  (∀ y, y ∈ tf_items c → ti_id y ≠ id → is_active y → y ∈ items').
Proof.
  intros Hnd. cbv zeta. unfold requestCancelTransfer.
  assert (∀ u, up_status u = Some TsCanceled →
    let items' := updateRemoteFileTransfer id u (tf_items c) in
    NoDup (ti_id <$> items') ∧
    (∀ x, x ∈ items' → x ∈ tf_items c ∧ (ti_id x = id → ¬ is_active x) ∨ ti_id x = id ∧ ¬ is_active x) ∧
    (∀ y, y ∈ tf_items c → ti_id y ≠ id → is_active y → y ∈ items')) as Hup.
  { intros u Hu. destruct (update_items id u (tf_items c)) as (H1 & H2 & H3). split_and!; [by eapply sublist_NoDup| |done].
    intros x Hx. destruct (H1 x Hx) as (y & Hy & ->). case_decide as Hne; [left; split; [done|tauto]|right].
    split; [exact Hne|]. unfold is_active. cbn. rewrite Hu. naive_solver. }
  destruct (getRemoteFileTransfer id (tf_items c)) as [item|] eqn:Eg; [|by apply Hup].
  apply js_find_Some in Eg as [Hitem Hid].
  case_decide as Hq; [by apply Hup|]. case_decide as Hr; [|by apply Hup].
  split_and!; [done| |done]. intros x Hx. left. split; [done|]. intros Hxid.
  assert (x = item) as -> by (apply (NoDup_fmap_inj_elem ti_id (tf_items c)); congruence || done).
  unfold is_active. tauto.
Qed.

Definition transfer_candidate (item : RemoteFileTransferItem) : TransferCandidate :=
  mkTransfer (ti_connectionId item) (ti_id item) (ti_status item).

Lemma active_ids_candidates items connectionIds :
  activeRemoteFileTransferIdsForConnections items connectionIds =
  tc_id <$> filter (active_transfer connectionIds) (transfer_candidate <$> items).
Proof.
  unfold activeRemoteFileTransferIdsForConnections. induction items as [|item items IH]; [done|].
  rewrite fmap_cons, !filter_cons.
  assert ((truthy (ti_connectionId item) = true ∧ default "" (ti_connectionId item ||? Some "") ∈ connectionIds ∧
    (ti_status item = TsQueued ∨ ti_status item = TsRunning)) ↔ active_transfer connectionIds (transfer_candidate item)) as Hiff.
  { unfold active_transfer, transfer_candidate, js_or. cbn. destruct (truthy (ti_connectionId item)); [done|naive_solver]. }
  destruct (decide (active_transfer connectionIds (transfer_candidate item))) as [Ha|Ha].
  - rewrite decide_True by tauto. rewrite !fmap_cons. f_equal. exact IH.
  - rewrite decide_False by tauto. exact IH.
Qed.

Lemma cancel_all_items tauri ids c :
  NoDup (ti_id <$> tf_items c) →
  let items' := tf_items (foldl (λ c id, requestCancelTransfer tauri id c) c ids) in
  (∀ x, x ∈ items' → is_active x → x ∈ tf_items c ∧ (ti_id x ∉ ids)) ∧
  (∀ y, y ∈ tf_items c → (ti_id y ∉ ids) → is_active y → y ∈ items').
Proof.
  revert c. induction ids as [|id ids IH]; intros c Hnd; cbn [foldl]; cbv zeta.
  { split; [|done]. intros x Hx _. split; [done|apply not_elem_of_nil]. }
  destruct (cancel_items tauri id c Hnd) as (H1 & H2 & H3). destruct (IH _ H1) as [G1 G2]. split.
  - intros x Hx Ha. destruct (G1 x Hx Ha) as [Hx1 Hni]. destruct (H2 x Hx1) as [[Hx2 Hid]|[_ Hna]]; [|done].
    split; [done|]. apply not_elem_of_cons. split; [|done]. intros He. by apply Hid.
  - intros y Hy [Hne Hni]%not_elem_of_cons Ha. by apply G2; [apply H3| |].
Qed.

(** ** Properties *)

(** C23: the transfer queue. Under any sequence of additions, updates, retries,
    cancellations, limit changes and settled tasks, no transfer waits or runs twice or
    both, the set of running ids is the set of calls in flight, a transfer waits only
    while the limit is reached, and there are never more calls in flight than the
    largest limit that was set. *)
Theorem transfer_queue_sound concurrentTransfers events l :
  let c := transfer_run concurrentTransfers events in
  NoDup (tf_queue c) ∧ NoDup (tf_runs c).*1 ∧
  (∀ id, id ∈ tf_queue c → id ∉ (tf_runs c).*1) ∧
  tf_running c = list_to_set (tf_runs c).*1 ∧
  (tf_queue c = [] ∨ (tf_concurrency c ≤ Z.of_nat (length (tf_runs c)))%Z) ∧
  ((0 ≤ l)%Z → (concurrentTransfers ≤ l)%Z → Forall (limit_le l) events →
    (Z.of_nat (length (tf_runs c)) ≤ l)%Z).
Proof.
  cbv zeta. pose proof (transfer_run_ok concurrentTransfers events) as [[] Hb]. split_and!; [done..| |done|done|].
  - intros id Hid Hr. apply (qk_disjoint0 id Hid). rewrite qk_running0. by apply elem_of_list_to_set.
  - intros Hl Hn He. clear - Hl Hn He. unfold transfer_run.
    assert (within_limit l (initialTransferController concurrentTransfers)) as H0 by (split; cbn; lia).
    assert (transfers_ok (initialTransferController concurrentTransfers)) as Hok
      by exact (transfer_run_ok concurrentTransfers []).
    revert H0 Hok. generalize (initialTransferController concurrentTransfers).
    induction He as [|e es He _ IH]; intros c Hc Hok; [apply Hc|]. cbn. apply IH; [by apply transfer_step_limit|].
    by apply transfer_step_ok.
Qed.

(** The history of transfers. Trimming keeps every transfer that is queued or
    running and, of the failed ones and of the other ended ones, the newest hundred
    each, in their order; so no sequence of events ever shows more than a hundred of
    either. *)
Theorem transfer_history_exact concurrentTransfers events items :
  let kept := trimTransferHistory items in
  sublist kept items ∧ filter is_active kept = filter is_active items ∧
  filter (λ item, ti_status item = TsError) kept = take 100 (filter (λ item, ti_status item = TsError) items) ∧
  filter (λ item, is_finished (ti_status item) = true) kept =
    take 100 (filter (λ item, is_finished (ti_status item) = true) items) ∧
  history_ok (tf_items (transfer_run concurrentTransfers events)).
Proof.
  cbv zeta. destruct (trim_loop_spec 0 0 items) as (H1 & H2 & H3 & H4). split_and!; [done..|].
  unfold transfer_run. assert (history_ok (tf_items (initialTransferController concurrentTransfers))) as H0
    by (constructor; cbn; lia).
  revert H0. generalize (initialTransferController concurrentTransfers).
  induction events as [|e es IH]; intros c Hc; [done|]. by apply IH, transfer_step_history.
Qed.

(** Closing connections ends their transfers. Cancelling what the close policy
    plans leaves no transfer of the closed connections queued or running, and every
    other transfer that was queued or running as it was; and the ids the store lists as
    active for the connections are the ones the policy plans to cancel. *)
Theorem close_cancels_transfers tauri c connectionIds :
  NoDup (ti_id <$> tf_items c) →
  let decision := planRemoteFileTransferClose (transfer_candidate <$> tf_items c) connectionIds
    currentRemoteFileTransferClosePolicy in
  let c' := foldl (λ c id, requestCancelTransfer tauri id c) c (td_cancelTransferIds decision) in
  activeRemoteFileTransferIdsForConnections (tf_items c) connectionIds = td_cancelTransferIds decision ∧
  activeRemoteFileTransferIdsForConnections (tf_items c') connectionIds = [] ∧
  (∀ item, item ∈ tf_items c → is_active item →
    item ∈ tf_items c' ∨ ti_id item ∈ activeRemoteFileTransferIdsForConnections (tf_items c) connectionIds).
Proof.
  intros Hnd. cbv zeta.
  assert (td_cancelTransferIds (planRemoteFileTransferClose (transfer_candidate <$> tf_items c) connectionIds
    currentRemoteFileTransferClosePolicy) = activeRemoteFileTransferIdsForConnections (tf_items c) connectionIds) as ->
    by by rewrite active_ids_candidates.
  set (ids := activeRemoteFileTransferIdsForConnections (tf_items c) connectionIds).
  destruct (cancel_all_items tauri ids c Hnd) as [H1 H2]. split_and!; [done| |].
  - apply elem_of_nil_inv. intros i Hid. unfold activeRemoteFileTransferIdsForConnections in Hid.
    apply list_elem_of_fmap in Hid as (x & _ & Hx). apply list_elem_of_filter in Hx as [(Ht & Hin & Ha) Hx].
    destruct (H1 x Hx Ha) as [Hxc Hni]. apply Hni. unfold ids, activeRemoteFileTransferIdsForConnections.
    apply list_elem_of_fmap_2, list_elem_of_filter. by split.
  - intros item Hitem Ha. destruct (decide (ti_id item ∈ ids)); [by right|left]. by apply H2.
Qed.
End texts.

(** Two transfers of one connection and one of another. *)
Definition transfer_sample : list TransferEvent :=
  let add id connection := TfAdd id 0 (mkAdd (Some connection) DirUpload KindFile "n" None None None "/" None None "s") in
  [add "a" "c1"; add "b" "c1"; add "d" "c2"; TfEnqueue 1 "a" 0; TfEnqueue 1 "b" 1; TfEnqueue 1 "d" 2].

Definition transfer_demo : TransferController :=
  transfer_run (λ k, k) (λ k _, k) (λ _, "") (λ _, "") 1 transfer_sample.

Lemma close_cancels_transfers_witness :
  activeRemoteFileTransferIdsForConnections (tf_items transfer_demo) ["c1"] = ["b"; "a"] ∧
  activeRemoteFileTransferIdsForConnections
    (tf_items (foldl (λ c id, requestCancelTransfer (λ k, k) true id c) transfer_demo ["b"; "a"])) ["c1"] = [].
Proof.
  assert (NoDup (ti_id <$> tf_items transfer_demo)) as H by vm_decide.
  destruct (close_cancels_transfers (λ k, k) (λ k _, k) true transfer_demo ["c1"] H) as (H1 & H2 & _).
  split; [vm_compute; reflexivity|].
  etransitivity; [|exact H2]. vm_compute. reflexivity.
Defined.
