(* ===== verification/TerminalDirectory.v ===== *)
(** * The directory followed from the input ([features/terminal/terminalInputDirectory.ts])

    What is typed into a terminal is watched for [cd] commands: a line editor that gives
    up on what it does not understand, a tokenizer of the command line, and the
    resolution of the path. Strings are lists of UTF-16 code units. *)

From S2P Require Import Prelude JsString.
From Stdlib Require Import Lia.

#[local] Open Scope nat_scope.

(** ** Paths *)

Definition slash_unit : Z := 47.
Definition backslash_unit : Z := 92.

(** What one part of a path does to the parts before it. *)
Definition path_step (parts : list jsstr) (part : jsstr) : list jsstr :=
  if decide (part = [] ∨ part = js ".") then parts
  else if decide (part = js "..") then removelast parts
  else parts ++ [part].

Definition path_parts (path : jsstr) : list jsstr :=
  foldl path_step [] (split_on slash_unit (replace_unit backslash_unit slash_unit path)).

Definition normalizeAbsolutePath (path : jsstr) : jsstr := slash_unit :: join_with slash_unit (path_parts path).

(** [/^[A-Za-z0-9._-]+$/] for one character. *)
Definition is_name_unit (c : Z) : bool :=
  ((65 <=? c) && (c <=? 90) || (97 <=? c) && (c <=? 122) || (48 <=? c) && (c <=? 57) ||
   bool_decide (c ∈ ([46; 95; 45] : jsstr)))%Z.

Definition inferRemoteHomeDirectory (username : option jsstr) : option jsstr :=
  match units_trim <$> username with
  | Some (c :: name) =>
      if forallb is_name_unit (c :: name) then
        if decide (c :: name = js "root") then Some (js "/root") else Some (js "/home/" ++ c :: name)
      else None
  | _ => None
  end.

(** ** Commands *)

Inductive Quote := SingleQuote | DoubleQuote.

#[export] Instance Quote_eq_dec : EqDecision Quote.
Proof. solve_decision. Defined.

Definition quote_unit (q : Quote) : Z := match q with SingleQuote => 39 | DoubleQuote => 34 end.

(** [if (token) tokens.push(token)]. *)
Definition push_token (tokens : list jsstr) (token : jsstr) : list jsstr :=
  match token with [] => tokens | _ => tokens ++ [token] end.

(** The loop of [tokenizeCommand]; [None] when a quote is left open. *)
Fixpoint tokenize_loop (tokens : list jsstr) (token : jsstr) (quote : option Quote) (command : jsstr) : option (list jsstr) :=
  match command with
  | [] => match quote with Some _ => None | None => Some (push_token tokens token) end
  | char :: rest =>
      match quote with
      | Some q =>
          if decide (char = quote_unit q) then tokenize_loop tokens token None rest
          else if decide (char = backslash_unit ∧ q = DoubleQuote) then
            match rest with
            | next :: rest => tokenize_loop tokens (token ++ [next]) quote rest
            | [] => tokenize_loop tokens (token ++ [char]) quote rest
            end
          else tokenize_loop tokens (token ++ [char]) quote rest
      | None =>
          if decide (char = quote_unit SingleQuote) then tokenize_loop tokens token (Some SingleQuote) rest
          else if decide (char = quote_unit DoubleQuote) then tokenize_loop tokens token (Some DoubleQuote) rest
          else if decide (char = backslash_unit) then
            match rest with
            | next :: rest => tokenize_loop tokens (token ++ [next]) None rest
            | [] => tokenize_loop tokens (token ++ [char]) None rest
            end
          else if is_white char then tokenize_loop (push_token tokens token) [] None rest
          else tokenize_loop tokens (token ++ [char]) None rest
      end
  end.

Definition tokenizeCommand (command : jsstr) : option (list jsstr) :=
  match command with
  | [] => None
  | _ => match tokenize_loop [] [] None command with
         | Some (token :: tokens) => Some (token :: tokens)
         | _ => None
         end
  end.

(** [directory ? f(directory) : null]. *)
Definition when_truthy (directory : option jsstr) (f : jsstr → jsstr) : option jsstr :=
  if units_truthy directory then f <$> directory else None.

Definition resolveDirectoryToken (token : jsstr) (currentDirectory homeDirectory : option jsstr) : option jsstr :=
  if decide (token = js "-") then None
  else if decide (token = js "~") then homeDirectory
  else if units_starts_with (js "~/") token then
    when_truthy homeDirectory (λ home, normalizeAbsolutePath (home ++ drop 1 token))
  else if units_starts_with (js "~") token then None
  else if units_starts_with (js "/") token then Some (normalizeAbsolutePath token)
  else when_truthy currentDirectory (λ directory, normalizeAbsolutePath (directory ++ slash_unit :: token)).

Definition resolveCdCommand (line : jsstr) (currentDirectory homeDirectory : option jsstr) : option jsstr :=
  match tokenizeCommand (units_trim line) with
  | None => None
  | Some tokens =>
      if decide (head tokens ≠ Some (js "cd")) then None
      else
        let pathIndex := if decide (tokens !! 1 = Some (js "--")) then 2 else 1 in
        if decide (length tokens = 1 ∨ length tokens = 2 ∧ tokens !! 1 = Some (js "--")) then homeDirectory
        else if decide (length tokens ≠ pathIndex + 1) then None
        else token ← tokens !! pathIndex; resolveDirectoryToken token currentDirectory homeDirectory
  end.

Definition resolveTerminalInputDirectoryLine (line : jsstr) (currentDirectory homeDirectory : option jsstr) : option jsstr :=
  resolveCdCommand (units_trim line) currentDirectory homeDirectory.

(** ** Escape sequences

    Lengths in place of end positions: how many units from the escape on belong to the
    sequence. *)

Definition escape_unit : Z := 27.

Definition is_final (code : Z) : bool := ((0x40 <=? code) && (code <=? 0x7e))%Z.

(** [skipControlSequence]: up to the first final character, or to the end. *)
Fixpoint skipControlSequence (data : jsstr) : nat :=
  match data with
  | [] => 0
  | code :: rest => if is_final code then 1 else S (skipControlSequence rest)
  end.

Fixpoint skipOperatingSystemCommand (data : jsstr) : nat :=
  match data with
  | [] => 0
  | c :: rest =>
      if decide (c = 7%Z) then 1
      else
        match rest with
        | d :: _ => if decide (c = escape_unit ∧ d = backslash_unit) then 2 else S (skipOperatingSystemCommand rest)
        | [] => 1
        end
  end.

(** [skipEscapeSequence] at an escape followed by [rest]. *)
Definition skipEscapeSequence (rest : jsstr) : nat :=
  match rest with
  | marker :: rest' =>
      if decide (marker = 91%Z) then 2 + skipControlSequence rest'
      else if decide (marker = 93%Z) then 2 + skipOperatingSystemCommand rest'
      else 1 + skipControlSequence rest
  | [] => 1
  end.

Definition isBracketedPasteBoundary (sequence : jsstr) : bool :=
  bool_decide (sequence = escape_unit :: js "[200~" ∨ sequence = escape_unit :: js "[201~").

Definition isControlCharacter (char : Z) : bool := ((char <? 0x20) && negb (char =? 9))%Z.

(** ** The line that is typed *)

Record TerminalInputDirectoryState := mkInputDirectory {
  id_dirty : bool;
  id_directory : option jsstr;
  id_homeDirectory : option jsstr;
  id_line : jsstr;
}.

#[export] Instance TerminalInputDirectoryState_eq_dec : EqDecision TerminalInputDirectoryState.
Proof. solve_decision. Defined.

Definition maxTrackedLineLength : nat := 4096.

Definition createTerminalInputDirectoryState (currentDirectory homeDirectory : option jsstr) : TerminalInputDirectoryState :=
  mkInputDirectory false currentDirectory homeDirectory [].

Definition set_dirty (s : TerminalInputDirectoryState) : TerminalInputDirectoryState :=
  mkInputDirectory true (id_directory s) (id_homeDirectory s) (id_line s).

Definition set_line (line : jsstr) (s : TerminalInputDirectoryState) : TerminalInputDirectoryState :=
  mkInputDirectory (id_dirty s) (id_directory s) (id_homeDirectory s) line.

(** [s.slice(-n)]. *)
Definition take_last (n : nat) (s : jsstr) : jsstr := drop (length s - n) s.

(** The end of a line: what a [cd] makes of the state, and the directory it reports. *)
Definition input_enter (s : TerminalInputDirectoryState) : TerminalInputDirectoryState * option jsstr :=
  let nextDirectory := if id_dirty s then None else resolveCdCommand (id_line s) (id_directory s) (id_homeDirectory s) in
  if units_truthy nextDirectory
  then (mkInputDirectory false nextDirectory (id_homeDirectory s) [], nextDirectory)
  else (mkInputDirectory false (id_directory s) (id_homeDirectory s) [], None).

(** A character that is neither an escape nor the end of a line. *)
Definition input_char (char : Z) (s : TerminalInputDirectoryState) : TerminalInputDirectoryState :=
  if decide (char = 0x7f%Z ∨ char = 8%Z) then set_line (removelast (id_line s)) s
  else if decide (char = 9%Z) then set_dirty s
  else if isControlCharacter char then set_dirty s
  else set_line (take_last maxTrackedLineLength (id_line s ++ [char])) s.

(** The loop of [applyTerminalInputDirectoryData]; [skip] is how many units still belong
    to an escape sequence. *)
Fixpoint apply_loop (skip : nat) (data : jsstr) (s : TerminalInputDirectoryState) (directory : option jsstr) :
    TerminalInputDirectoryState * option jsstr :=
  match data with
  | [] => (s, directory)
  | char :: rest =>
      match skip with
      | S skip => apply_loop skip rest s directory
      | 0 =>
          if decide (char = escape_unit) then
            let n := skipEscapeSequence rest in
            let s := if isBracketedPasteBoundary (take n data) then s else set_dirty s in
            apply_loop (n - 1) rest s directory
          else if decide (char = 13%Z ∨ char = 10%Z) then
            let r := input_enter s in
            apply_loop 0 rest r.1 (if units_truthy r.2 then r.2 else directory)
          else apply_loop 0 rest (input_char char s) directory
      end
  end.

Definition applyTerminalInputDirectoryData (initialState : TerminalInputDirectoryState) (data : jsstr) :
    TerminalInputDirectoryState * option jsstr :=
  apply_loop 0 data initialState None.

(** ** Normal paths *)

Record part_ok (part : jsstr) : Prop := {
  pt_nonempty : part ≠ [];
  pt_dot : part ≠ js ".";
  pt_dots : part ≠ js "..";
  pt_slash : slash_unit ∉ part;
  pt_backslash : backslash_unit ∉ part;
}.

Lemma replace_unit_app a b s t : replace_unit a b (s ++ t) = replace_unit a b s ++ replace_unit a b t.
Proof. apply fmap_app. Qed.

Lemma replace_unit_absent a b s : a ∉ s → replace_unit a b s = s.
Proof.
  induction s as [|c s IH]; [done|]. intros [? ?]%not_elem_of_cons. unfold replace_unit. rewrite fmap_cons.
  rewrite decide_False by congruence. f_equal. by apply IH.
Qed.

Lemma replace_unit_gone a b s : a ≠ b → a ∉ replace_unit a b s.
Proof. intros Hab (c & Hc & _)%list_elem_of_fmap. case_decide; congruence. Qed.

Lemma path_step_ok parts part :
  Forall part_ok parts → (slash_unit ∉ part) → (backslash_unit ∉ part) → Forall part_ok (path_step parts part).
Proof.
  intros Hps H1 H2. unfold path_step. case_decide as Hd; [done|]. apply Decidable.not_or in Hd as [? ?].
  case_decide.
  - induction parts as [|x l _] using rev_ind; [constructor|]. rewrite removelast_last.
    by apply Forall_app in Hps as [? _].
  - apply Forall_app. split; [done|]. constructor; [|constructor]. by split.
Qed.

Lemma path_foldl_ok parts l :
  Forall part_ok parts → Forall (λ part, (slash_unit ∉ part) ∧ (backslash_unit ∉ part)) l →
  Forall part_ok (foldl path_step parts l).
Proof.
  revert parts. induction l as [|p l IH]; intros parts Hps Hl; [done|]. apply Forall_cons in Hl as [[? ?] Hl].
  cbn. apply IH; [|done]. by apply path_step_ok.
Qed.

Lemma path_parts_ok path : Forall part_ok (path_parts path).
Proof.
  apply path_foldl_ok; [constructor|]. eapply Forall_impl; [apply split_on_parts|].
  intros part [H1 H2]. split; [done|]. intros Hb%H2. revert Hb. by apply replace_unit_gone.
Qed.

(** Going on from a directory. *)
Lemma path_parts_app a b :
  path_parts (a ++ slash_unit :: b) =
  foldl path_step (path_parts a) (split_on slash_unit (replace_unit backslash_unit slash_unit b)).
Proof.
  unfold path_parts. rewrite replace_unit_app. cbn [replace_unit fmap list_fmap].
  change (replace_unit backslash_unit slash_unit (slash_unit :: b))
    with (slash_unit :: replace_unit backslash_unit slash_unit b).
  by rewrite split_on_app, foldl_app.
Qed.

Lemma path_foldl_id parts l : Forall part_ok l → foldl path_step parts l = parts ++ l.
Proof.
  revert parts. induction l as [|p l IH]; intros parts Hl; [by rewrite app_nil_r|]. apply Forall_cons in Hl as [Hp Hl].
  destruct Hp. cbn. rewrite IH by done. unfold path_step. rewrite !decide_False by naive_solver. by rewrite <- app_assoc.
Qed.

Lemma join_absent c sep parts : Forall (λ part, c ∉ part) parts → c ≠ sep → c ∉ join_with sep parts.
Proof.
  intros Hf Hc. induction Hf as [|p parts Hp Hps IH]; [apply not_elem_of_nil|].
  destruct parts; cbn [join_with]; [done|]. rewrite not_elem_of_app, not_elem_of_cons. done.
Qed.

(** A normal path has the parts it was made of. *)
Lemma path_parts_join parts : Forall part_ok parts → path_parts (slash_unit :: join_with slash_unit parts) = parts.
Proof.
  intros Hok. change (slash_unit :: join_with slash_unit parts) with ([] ++ slash_unit :: join_with slash_unit parts).
  rewrite path_parts_app. rewrite replace_unit_absent.
  2: { apply join_absent; [|done]. eapply Forall_impl; [exact Hok|]. by intros ? []. }
  destruct (decide (parts = [])) as [->|Hne]; [done|].
  rewrite split_on_join; [|eapply Forall_impl; [exact Hok|]; by intros ? []|done].
  by rewrite path_foldl_id.
Qed.

Lemma path_parts_normalize path : path_parts (normalizeAbsolutePath path) = path_parts path.
Proof. apply path_parts_join, path_parts_ok. Qed.

(** ** Typing *)

Definition typable (c : Z) : Prop := (32 ≤ c)%Z ∧ c ≠ 127%Z.

(** The literals of this file. *)
Lemma js_typable text : forallb (λ c, (32 <=? c) && negb (c =? 127))%Z (js text) = true → Forall typable (js text).
Proof.
  rewrite forallb_forall. intros H. apply Forall_forall. intros c Hc%list_elem_of_In%H. apply andb_true_iff in Hc as [H1 H2].
  split; [by apply Z.leb_le|]. by apply negb_true_iff, Z.eqb_neq in H2.
Qed.

(** The text with a backslash before every character. *)
Definition escape_text (text : jsstr) : jsstr := text ≫= λ c, [backslash_unit; c].

Lemma tokenize_escape tokens token text rest :
  tokenize_loop tokens token None (escape_text text ++ rest) = tokenize_loop tokens (token ++ text) None rest.
Proof.
  revert token. induction text as [|c text IH]; intros token; [by rewrite app_nil_r|].
  change (escape_text (c :: text) ++ rest) with (backslash_unit :: c :: (escape_text text ++ rest)).
  cbn [tokenize_loop]. rewrite (decide_False (P := backslash_unit = quote_unit SingleQuote)) by done.
  rewrite (decide_False (P := backslash_unit = quote_unit DoubleQuote)) by done. rewrite decide_True by done.
  rewrite IH. by rewrite <- app_assoc.
Qed.

Lemma take_last_id n s : length s ≤ n → take_last n s = s.
Proof. intros Hn. unfold take_last. by replace (length s - n) with 0 by lia. Qed.

Lemma apply_typed text s directory rest :
  Forall typable text → length (id_line s) + length text ≤ maxTrackedLineLength →
  apply_loop 0 (text ++ rest) s directory = apply_loop 0 rest (set_line (id_line s ++ text) s) directory.
Proof.
  intros Ht. revert s. induction Ht as [|c text [H1 H2] Ht IH]; intros s Hn.
  { destruct s. unfold set_line. cbn. by rewrite app_nil_r. }
  cbn [app apply_loop]. unfold escape_unit. rewrite !decide_False by lia.
  unfold input_char. rewrite !decide_False by lia.
  assert (isControlCharacter c = false) as ->.
  { unfold isControlCharacter. apply andb_false_iff. left. by apply Z.ltb_ge. }
  rewrite take_last_id by (rewrite length_app; cbn in *; lia). rewrite IH by (cbn in *; rewrite length_app; cbn; lia).
  unfold set_line. cbn. by rewrite <- app_assoc.
Qed.

(** What is erased again leaves no trace. *)
Lemma apply_erased text line s directory rest :
  apply_loop 0 (replicate (length text) 127%Z ++ rest) (set_line (line ++ text) s) directory =
  apply_loop 0 rest (set_line line s) directory.
Proof.
  induction text as [|c text IH] using rev_ind; [by rewrite app_nil_r|].
  rewrite length_app, Nat.add_comm. cbn [length plus replicate app apply_loop].
  unfold escape_unit. rewrite !decide_False by lia. unfold input_char. rewrite decide_True by lia.
  rewrite <- IH. f_equal. unfold set_line. cbn. by rewrite app_assoc, removelast_last.
Qed.

Lemma escape_text_typable text : Forall typable text → Forall typable (escape_text text).
Proof.
  induction 1 as [|c text Hc Ht IH]; [constructor|]. change (escape_text (c :: text)) with (backslash_unit :: c :: escape_text text).
  by repeat (apply Forall_cons; split).
Qed.

Lemma escape_text_length text : length (escape_text text) = 2 * length text.
Proof. induction text as [|c text IH]; [done|]. change (escape_text (c :: text)) with (backslash_unit :: c :: escape_text text). cbn. lia. Qed.

Lemma escape_text_last text : last (escape_text text) = last text.
Proof.
  induction text as [|c text IH] using rev_ind; [done|]. unfold escape_text. rewrite bind_app.
  change (mbind (λ c0 : Z, [backslash_unit; c0]) [c]) with [backslash_unit; c].
  by rewrite (cons_middle backslash_unit), app_assoc, !last_snoc.
Qed.

Lemma resolve_cd_escaped path current home :
  path ≠ [] → path ≠ js "--" → match last path with Some c => is_white c = false | None => True end →
  resolveCdCommand (js "cd " ++ escape_text path) current home = resolveDirectoryToken path current home.
Proof.
  intros Hne Hdash Hlast. unfold resolveCdCommand. rewrite units_trim_id; [|done|].
  2: { rewrite last_app, escape_text_last. destruct (last path) eqn:E; [done|]. by apply last_None in E. }
  assert (tokenizeCommand (js "cd " ++ escape_text path) = Some [js "cd"; path]) as ->.
  { unfold tokenizeCommand. cbn [js app]. change (js "cd " ++ escape_text path) with (99%Z :: 100%Z :: 32%Z :: escape_text path).
    change (tokenize_loop [] [] None (99%Z :: 100%Z :: 32%Z :: escape_text path))
      with (tokenize_loop [js "cd"] [] None (escape_text path)).
    rewrite <- (app_nil_r (escape_text path)), tokenize_escape. cbn. by destruct path. }
  rewrite decide_False by (intros H; by apply H). cbv zeta. cbn [lookup list_lookup length].
  rewrite (decide_False (P := Some path = Some (js "--"))) by congruence.
  rewrite decide_False by (intros [?|[? ?]]; congruence). by rewrite decide_False by lia.
Qed.

(** ** What any input does *)

Definition absolute (d : jsstr) : Prop := head d = Some slash_unit.

Record input_ok (s : TerminalInputDirectoryState) : Prop := {
  io_line : length (id_line s) ≤ maxTrackedLineLength;
  io_typable : Forall typable (id_line s);
  io_directory : ∀ d, id_directory s = Some d → absolute d;
  io_home : ∀ d, id_homeDirectory s = Some d → absolute d;
}.

Lemma resolve_token_absolute token current home d :
  (∀ h, home = Some h → absolute h) → resolveDirectoryToken token current home = Some d → absolute d.
Proof.
  intros Hhome. unfold resolveDirectoryToken, when_truthy. repeat case_match; try done.
  - apply Hhome.
  - intros (h & -> & ->)%fmap_Some. done.
  - by intros [= <-].
  - intros (h & -> & ->)%fmap_Some. done.
Qed.

Lemma resolve_cd_absolute line current home d :
  (∀ h, home = Some h → absolute h) → resolveCdCommand line current home = Some d → absolute d.
Proof.
  intros Hhome. unfold resolveCdCommand. destruct (tokenizeCommand _) as [tokens|]; [|done]. cbv zeta.
  repeat case_decide; try done; try (apply Hhome); intros (token & _ & Ht)%bind_Some; by eapply resolve_token_absolute.
Qed.

Lemma units_truthy_Some o : units_truthy o = true → ∃ d, o = Some d ∧ d ≠ [].
Proof. destruct o as [[|c d]|]; [done| |done]. intros _. by eexists. Qed.

Lemma input_enter_ok s :
  input_ok s → input_ok (input_enter s).1 ∧ (∀ d, (input_enter s).2 = Some d → absolute d ∧ d ≠ []).
Proof.
  intros []. unfold input_enter. destruct (units_truthy _) eqn:Et; cbn.
  - destruct (id_dirty s); [done|]. apply units_truthy_Some in Et as (d & Hd & Hne).
    assert (absolute d) by by eapply resolve_cd_absolute. rewrite Hd. split; [|naive_solver].
    split; cbn; [lia|constructor| |done]. naive_solver.
  - split; [|done]. split; cbn; [lia|constructor|done|done].
Qed.

Lemma input_char_ok char s : input_ok s → input_ok (input_char char s).
Proof.
  intros [Hl Ht Hd Hh]. unfold input_char, set_line, set_dirty. case_decide as H1; [|case_decide as H2; [|destruct (isControlCharacter char) eqn:Ec]].
  - induction (id_line s) as [|x l _] using rev_ind; [by split|]. rewrite removelast_last. rewrite length_app in Hl. cbn in Hl.
    apply Forall_app in Ht as [? _]. split; cbn; [lia|done..].
  - by split.
  - by split.
  - assert (typable char) as Hc.
    { unfold isControlCharacter in Ec. apply andb_false_iff in Ec as [Ec%Z.ltb_ge|Ec]; [split; lia|].
      apply negb_false_iff, Z.eqb_eq in Ec. lia. }
    split; cbn; [unfold take_last; rewrite length_drop; lia| |done|done].
    unfold take_last. apply Forall_drop, Forall_app. split; [done|]. by repeat constructor; apply Hc.
Qed.

Lemma apply_loop_ok skip data s directory :
  input_ok s → (∀ d, directory = Some d → absolute d ∧ d ≠ []) →
  let r := apply_loop skip data s directory in input_ok r.1 ∧ (∀ d, r.2 = Some d → absolute d ∧ d ≠ []).
Proof.
  revert skip s directory. induction data as [|char rest IH]; intros skip s directory Hs Hd; [done|].
  destruct skip as [|skip]; cbn [apply_loop]; [|by apply IH].
  case_decide; [|case_decide]; apply IH; try done.
  - destruct (isBracketedPasteBoundary _); [done|]. destruct Hs. by split.
  - by apply input_enter_ok.
  - case_match; [|done]. by apply input_enter_ok.
  - by apply input_char_ok.
Qed.

(** The directory reported last wins. *)
Lemma apply_loop_directory skip data s directory :
  apply_loop skip data s directory =
  let r := apply_loop skip data s None in (r.1, if units_truthy r.2 then r.2 else directory).
Proof.
  revert skip s directory. induction data as [|char rest IH]; intros skip s directory; [done|].
  destruct skip as [|skip]; cbn [apply_loop]; [|apply IH].
  case_decide; [apply IH|]. case_decide; [|apply IH]. rewrite IH. symmetry. rewrite IH. symmetry. cbv zeta. f_equal. cbn.
  destruct (units_truthy (apply_loop 0 rest (input_enter s).1 None).2) eqn:E1; [by rewrite E1|].
  by destruct (units_truthy (input_enter s).2) eqn:E2; rewrite ?E2.
Qed.

Lemma apply_loop_app a b s directory :
  Forall (λ c, c ≠ escape_unit) a →
  apply_loop 0 (a ++ b) s directory = let r := apply_loop 0 a s directory in apply_loop 0 b r.1 r.2.
Proof.
  intros Ha. revert s directory. induction Ha as [|c a Hc Ha IH]; intros s directory; [done|].
  cbn [app apply_loop]. rewrite !(decide_False (P := c = escape_unit)) by done. case_decide; apply IH.
Qed.

(** ** Properties *)

(** Paths are resolved as directories are. The normal form of a path is absolute,
    made of parts that are neither empty nor a dot nor two dots and hold no separator;
    it is its own normal form; going on from the normal form of a directory, by any
    relative path, ends where going on from the directory does; and two paths have one
    normal form exactly when they resolve to the same parts. *)
Theorem normalize_path_exact p q :
  Forall part_ok (path_parts p) ∧
  normalizeAbsolutePath p = slash_unit :: join_with slash_unit (path_parts p) ∧
  normalizeAbsolutePath (normalizeAbsolutePath p) = normalizeAbsolutePath p ∧
  normalizeAbsolutePath (normalizeAbsolutePath p ++ slash_unit :: q) = normalizeAbsolutePath (p ++ slash_unit :: q) ∧
  normalizeAbsolutePath (p ++ slash_unit :: js "..") = slash_unit :: join_with slash_unit (removelast (path_parts p)) ∧
  (normalizeAbsolutePath p = normalizeAbsolutePath q ↔ path_parts p = path_parts q).
Proof.
  split_and!; [apply path_parts_ok|done| | | |].
  - unfold normalizeAbsolutePath at 1. by rewrite path_parts_normalize.
  - unfold normalizeAbsolutePath at 1 3. by rewrite !path_parts_app, path_parts_normalize.
  - unfold normalizeAbsolutePath. by rewrite path_parts_app.
  - split; intros H; [|unfold normalizeAbsolutePath; by rewrite H].
    by rewrite <- path_parts_normalize, H, path_parts_normalize.
Qed.

(** A typed [cd] is followed. On a fresh line, typing [cd], a path with every
    character escaped, any mistakes that are erased again, and Enter reports exactly the
    directory that the path names from the current one, and clears the line. *)
Theorem cd_typed_followed s path mistakes :
  id_dirty s = false → id_line s = [] → Forall typable path → Forall typable mistakes →
  path ≠ [] → path ≠ js "--" → match last path with Some c => is_white c = false | None => True end →
  3 + 2 * length path + length mistakes ≤ maxTrackedLineLength →
  let target := resolveDirectoryToken path (id_directory s) (id_homeDirectory s) in
  applyTerminalInputDirectoryData s
    (js "cd " ++ escape_text path ++ mistakes ++ replicate (length mistakes) 127%Z ++ [13%Z]) =
  if units_truthy target then (mkInputDirectory false target (id_homeDirectory s) [], target)
  else (mkInputDirectory false (id_directory s) (id_homeDirectory s) [], None).
Proof.
  intros Hd Hl Hp Hm Hne Hdash Hlast Hn. cbv zeta. unfold applyTerminalInputDirectoryData.
  rewrite (app_assoc (js "cd ")). rewrite apply_typed; rewrite ?Hl; cbn [app].
  2: { apply Forall_app. split; [apply js_typable; reflexivity|]. by apply escape_text_typable. }
  2: { rewrite length_app, escape_text_length. cbn. lia. }
  rewrite apply_typed; [|done|cbn [set_line id_line]; rewrite length_app, escape_text_length; cbn; lia].
  cbn [set_line id_line]. change (set_line ?l (set_line _ s)) with (set_line l s). rewrite apply_erased.
  cbn [apply_loop]. rewrite decide_False by done. rewrite decide_True by (by left). cbv zeta.
  unfold input_enter, set_line. cbn [id_dirty id_line id_directory id_homeDirectory]. rewrite Hd.
  rewrite resolve_cd_escaped by done. destruct (units_truthy _) eqn:E; cbn [fst snd]; [by rewrite E|done].
Qed.

(** Whatever is typed or pasted, in whatever pieces, the tracked line holds at most
    4096 printable characters, the state keeps absolute directories, every directory
    that is reported is absolute, and input without escapes may be cut anywhere. *)
Theorem input_directory_sound s a b :
  input_ok s →
  let r := applyTerminalInputDirectoryData s a in
  input_ok r.1 ∧ (∀ d, r.2 = Some d → absolute d ∧ d ≠ []) ∧
  (Forall (λ c, c ≠ escape_unit) a →
    let r' := applyTerminalInputDirectoryData r.1 b in
    applyTerminalInputDirectoryData s (a ++ b) = (r'.1, if units_truthy r'.2 then r'.2 else r.2)).
Proof.
  intros Hs. cbv zeta. destruct (apply_loop_ok 0 a s None Hs) as [H1 H2]; [done|].
  split_and!; [done|done|]. intros Ha. unfold applyTerminalInputDirectoryData. rewrite apply_loop_app by done.
  cbv zeta. by rewrite apply_loop_directory.
Qed.

(** ** Samples *)

Definition demo_input_state : TerminalInputDirectoryState :=
  createTerminalInputDirectoryState (Some (js "/srv")) (Some (js "/home/me")).

Lemma cd_typed_followed_witness :
  (applyTerminalInputDirectoryData demo_input_state
     (js "cd " ++ escape_text (js "../my files") ++ js "x" ++ [127%Z; 13%Z])).2 = Some (js "/my files").
Proof.
  change (js "x" ++ [127%Z; 13%Z]) with (js "x" ++ replicate (length (js "x")) 127%Z ++ [13%Z]).
  rewrite (cd_typed_followed demo_input_state (js "../my files") (js "x"));
    [vm_compute; reflexivity|reflexivity|reflexivity|by apply js_typable|by apply js_typable|discriminate|discriminate|reflexivity|vm_compute; lia].
Defined.

Lemma input_directory_sound_witness :
  (applyTerminalInputDirectoryData demo_input_state (js "cd " ++ js "/a")).1 =
    mkInputDirectory false (Some (js "/srv")) (Some (js "/home/me")) (js "cd /a") ∧
  (applyTerminalInputDirectoryData demo_input_state (js "cd " ++ js "/a" ++ [13%Z])).2 = Some (js "/a").
Proof.
  assert (input_ok demo_input_state) as Hok
    by (split; [cbn; lia|constructor|by intros d [= <-]|by intros d [= <-]]).
  destruct (input_directory_sound demo_input_state (js "cd ") (js "/a" ++ [13%Z]) Hok) as (_ & _ & H3).
  split; [vm_compute; reflexivity|]. rewrite H3; [vm_compute; reflexivity|].
  repeat constructor; discriminate.
Defined.

(** Shell operators and expansions are taken as part of the name. *)
Lemma operators_followed :
  (applyTerminalInputDirectoryData demo_input_state (js "cd logs;ls" ++ [13%Z])).2 = Some (js "/srv/logs;ls").
Proof. vm_compute. reflexivity. Qed.

(** The blank that ends an escaped name is trimmed, and its backslash read as a separator. *)
Lemma escaped_trailing_blank_lost :
  (applyTerminalInputDirectoryData demo_input_state (js "cd logs\ " ++ [13%Z])).2 = Some (js "/srv/logs").
Proof. vm_compute. reflexivity. Qed.
