(* ===== verification/PromptDirectory.v ===== *)
(** * The directory read from prompts ([features/terminal/terminalPromptDirectory.ts])

    Prompts on the screen tell the directory of a shell: parsing of prompt lines, the
    directory of a label, and the replay of the visible commands when the label is only
    the last part. The regular expressions are matchers that take the parts in order;
    where JavaScript would backtrack, the comment says what that gives. *)

From S2P Require Import Prelude JsString TerminalDirectory.
From Stdlib Require Import Lia.

#[local] Open Scope nat_scope.

(** ** Prompt lines *)

(** [stripAnsiSequences], with the units that still belong to a sequence. *)
Fixpoint strip_loop (skip : nat) (input : jsstr) : jsstr :=
  match input with
  | [] => []
  | c :: rest =>
      match skip with
      | S skip => strip_loop skip rest
      | 0 => if decide (c ≠ escape_unit) then c :: strip_loop 0 rest else strip_loop (skipEscapeSequence rest - 1) rest
      end
  end.

Definition stripAnsiSequences (input : jsstr) : jsstr := strip_loop 0 input.

Definition promptLineKey (line : jsstr) : jsstr := units_trim_end (stripAnsiSequences line).

Record PromptLine := mkPromptLine {
  pl_command : option jsstr;
  pl_label : jsstr;
}.

#[export] Instance PromptLine_eq_dec : EqDecision PromptLine.
Proof. solve_decision. Defined.

(** The longest prefix of characters of a class, and the rest. *)
Fixpoint span (f : Z → bool) (s : jsstr) : jsstr * jsstr :=
  match s with
  | c :: rest => if f c then let r := span f rest in (c :: r.1, r.2) else ([], s)
  | [] => ([], [])
  end.

(** What [.] does not match. *)
Definition is_line_terminator (c : Z) : bool := bool_decide (c ∈ ([10; 13; 0x2028; 0x2029] : jsstr)%Z).

(** The optional group at the end of both patterns: the text after the white space, when
    it is one line. *)
Definition match_command (s : jsstr) : option jsstr :=
  let r := units_trim_start s in
  if existsb is_line_terminator r then None else Some r.

Definition normalizePromptCommand (command : jsstr) : option jsstr :=
  match units_trim command with [] => None | c => Some c end.

(** The user and the host with the sign between: what follows. *)
Definition match_user_host (s : jsstr) : option jsstr :=
  match span is_name_unit s with
  | (_ :: _, 64%Z :: s) => match span is_name_unit s with (_ :: _, s) => Some s | _ => None end
  | _ => None
  end.

(** The sign of the prompt and the command. *)
Definition match_prompt_end (label s : jsstr) : option PromptLine :=
  match s with
  | c :: s => if decide (c = 35%Z ∨ c = 36%Z) then
      command ← match_command s; Some (mkPromptLine (normalizePromptCommand command) (units_trim label))
    else None
  | [] => None
  end.

(** [user@host:label$ command]. *)
Definition match_colon_prompt (line : jsstr) : option PromptLine :=
  match match_user_host (units_trim_start line) with
  | Some (58%Z :: s) =>
      match span (λ c, negb (bool_decide (c ∈ ([58; 35; 36] : jsstr)%Z))) s with
      | ([], _) => None
      | (label, s) => match_prompt_end label s
      end
  | _ => None
  end.

(** The same in brackets, with white space before the label; a label of nothing but white space is the last
    white space before the bracket, when another one precedes it. *)
Definition match_bracket_prompt (line : jsstr) : option PromptLine :=
  match units_trim_start line with
  | 91%Z :: s =>
      match match_user_host s with
      | Some s =>
          let (blank, s) := span is_white s in
          let (label, s) := span (λ c, negb (bool_decide (c ∈ ([93; 13; 10] : jsstr)%Z))) s in
          let label :=
            match label, last blank with
            | [], Some c => if decide (2 ≤ length blank) then if decide (c = 13%Z ∨ c = 10%Z) then [] else [c] else []
            | _, _ => label
            end in
          match blank, label, s with
          | _ :: _, _ :: _, 93%Z :: s => match_prompt_end label s
          | _, _, _ => None
          end
      | None => None
      end
  | _ => None
  end.

Definition parsePromptLine (line : jsstr) : option PromptLine :=
  match match_colon_prompt line with
  | Some prompt => Some prompt
  | None => match_bracket_prompt line
  end.

(** ** Directories of labels *)

Definition promptPathToDirectory (promptPath : jsstr) (homeDirectory : option jsstr) : option jsstr :=
  if decide (promptPath = js "~") then homeDirectory
  else if units_starts_with (js "~/") promptPath then
    when_truthy homeDirectory (λ home, normalizeAbsolutePath (home ++ drop 1 promptPath))
  else if negb (units_starts_with (js "/") promptPath) then None
  else Some (normalizeAbsolutePath promptPath).

(** [directory.split("/").filter(Boolean).pop() || "/"]. *)
Definition directory_name (directory : jsstr) : jsstr :=
  default (js "/") (last (filter (λ part, part ≠ []) (split_on slash_unit directory))).

Definition directoryMatchesPromptLabel (directory promptLabel : jsstr) (homeDirectory : option jsstr) : bool :=
  let promptDirectory := promptPathToDirectory promptLabel homeDirectory in
  if units_truthy promptDirectory then bool_decide (Some (normalizeAbsolutePath directory) = promptDirectory)
  else bool_decide (directory_name (normalizeAbsolutePath directory) = promptLabel).

Definition promptLineToDirectory (line : jsstr) (homeDirectory : option jsstr) : option jsstr :=
  match parsePromptLine (promptLineKey line) with
  | Some prompt => if decide (pl_command prompt ≠ None) then None else promptPathToDirectory (pl_label prompt) homeDirectory
  | None => None
  end.

(** ** Replay *)

Definition lower (c : Z) : Z := if ((65 <=? c) && (c <=? 90))%Z then (c + 32)%Z else c.

(** Case-insensitive [startsWith] and [includes] for a lower-case pattern. *)
Definition starts_with_ci (p s : jsstr) : bool := bool_decide (lower <$> take (length p) s = p).

Fixpoint includes_ci (p s : jsstr) : bool :=
  starts_with_ci p s || match s with [] => false | _ :: rest => includes_ci p rest end.

(** The last four are the Chinese messages. *)
Definition cd_failures : list jsstr :=
  [js "no such file or directory"; js "not a directory"; js "permission denied";
   [0x6ca1; 0x6709; 0x90a3; 0x4e2a; 0x6587; 0x4ef6; 0x6216; 0x76ee; 0x5f55];
   [0x4e0d; 0x662f; 0x76ee; 0x5f55]; [0x6743; 0x9650; 0x4e0d; 0x591f]; [0x6743; 0x9650; 0x88ab; 0x62d2; 0x7edd]]%Z.

Fixpoint isCdFailureLine (line : jsstr) : bool :=
  (starts_with_ci (js "cd:") line &&
   existsb (λ p, includes_ci p (span (λ c, negb (is_line_terminator c)) (drop 3 line)).1) cd_failures) ||
  match line with [] => false | _ :: rest => isCdFailureLine rest end.

(** The lines after the command, up to the next prompt. *)
Fixpoint commandOutputHasCdFailure (output : list jsstr) : bool :=
  match output with
  | [] => false
  | line :: rest =>
      match parsePromptLine line with
      | Some _ => false
      | None => if isCdFailureLine line then true else commandOutputHasCdFailure rest
      end
  end.

(** The loop of [replayPromptSnapshotDirectory]. *)
Fixpoint replay_loop (homeDirectory currentDirectory : option jsstr) (chronologicalLines : list jsstr) : option jsstr :=
  match chronologicalLines with
  | [] => currentDirectory
  | line :: rest =>
      match parsePromptLine line with
      | None => replay_loop homeDirectory currentDirectory rest
      | Some prompt =>
          let promptDirectory := promptPathToDirectory (pl_label prompt) homeDirectory in
          let currentDirectory := if units_truthy promptDirectory then promptDirectory else currentDirectory in
          match pl_command prompt with
          | None => replay_loop homeDirectory currentDirectory rest
          | Some command =>
              let commandDirectory := resolveTerminalInputDirectoryLine command currentDirectory homeDirectory in
              if negb (units_truthy commandDirectory) || commandOutputHasCdFailure rest
              then replay_loop homeDirectory currentDirectory rest
              else replay_loop homeDirectory commandDirectory rest
          end
      end
  end.

Definition replayPromptSnapshotDirectory (cleanLinesNewestFirst : list jsstr) (homeDirectory : option jsstr) : option jsstr :=
  replay_loop homeDirectory None (reverse cleanLinesNewestFirst).

Definition promptSnapshotLinesToDirectory (lines : list jsstr) (homeDirectory currentDirectory : option jsstr) : option jsstr :=
  let cleanLines := promptLineKey <$> lines in
  match omap parsePromptLine cleanLines with
  | [] => None
  | latestPrompt :: _ =>
      let promptLabel := pl_label latestPrompt in
      let labelDirectory := promptPathToDirectory promptLabel homeDirectory in
      if units_truthy labelDirectory then labelDirectory
      else
        let matches directory := directoryMatchesPromptLabel directory promptLabel homeDirectory in
        let replayed _ :=
          match replayPromptSnapshotDirectory cleanLines homeDirectory with
          | Some directory => if units_truthy (Some directory) && matches directory then Some directory else None
          | None => None
          end in
        match currentDirectory with
        | Some directory =>
            if units_truthy (Some directory) && matches directory then Some (normalizeAbsolutePath directory) else replayed tt
        | None => replayed tt
        end
  end.

(** ** Prompts as a shell prints them *)

Record label_ok (label : jsstr) : Prop := {
  lo_units : Forall (λ c, c ∉ ([93; 13; 10; 27] : jsstr)%Z) label;
  lo_head : ∃ c, head label = Some c ∧ is_white c = false;
  lo_last : ∃ c, last label = Some c ∧ is_white c = false;
}.

Record name_ok (name : jsstr) : Prop := {
  no_nonempty : name ≠ [];
  no_units : Forall (λ c, is_name_unit c = true) name;
}.

Definition prompt_text (user host label : jsstr) : jsstr :=
  91%Z :: user ++ 64%Z :: host ++ 32%Z :: label ++ [93%Z; 36%Z].

Lemma span_app f l c r : Forall (λ x, f x = true) l → f c = false → span f (l ++ c :: r) = (l, c :: r).
Proof.
  intros Hl Hc. induction Hl as [|x l Hx Hl IH]; cbn; [by rewrite Hc|]. by rewrite Hx, IH.
Qed.

Lemma strip_loop_id s : (escape_unit ∉ s) → stripAnsiSequences s = s.
Proof.
  unfold stripAnsiSequences. induction s as [|c s IH]; [done|]. intros [Hc Hs]%not_elem_of_cons. cbn.
  rewrite decide_True by congruence. by rewrite IH.
Qed.

Lemma units_trim_end_id s c : last s = Some c → is_white c = false → units_trim_end s = s.
Proof.
  intros Hl Hc. unfold units_trim_end. rewrite units_trim_start_id; [apply rev_involutive|].
  rewrite rev_alt. change (rev_append s []) with (reverse s). by rewrite head_reverse, Hl.
Qed.

Lemma match_user_host_ok user host c r :
  name_ok user → name_ok host → is_name_unit c = false → match_user_host (user ++ 64%Z :: host ++ c :: r) = Some (c :: r).
Proof.
  intros [Hu1 Hu2] [Hh1 Hh2] Hc. unfold match_user_host. rewrite span_app by done.
  destruct user; [done|]. rewrite span_app by done. by destruct host.
Qed.

Lemma trim_start_nonwhite c s : is_white c = false → units_trim_start (c :: s) = c :: s.
Proof. cbn. by intros ->. Qed.

(** The prompt with what follows it. *)
Lemma parse_prompt user host label rest command :
  name_ok user → name_ok host → label_ok label → match_command rest = Some command →
  parsePromptLine (prompt_text user host label ++ rest) = Some (mkPromptLine (normalizePromptCommand command) label).
Proof.
  intros Hu Hh [Hl [c [Hhd Hc]] [d [Hlst Hd]]] Hr. unfold parsePromptLine, prompt_text.
  cbn [app]. assert (match_colon_prompt (91%Z :: (user ++ 64%Z :: host ++ 32%Z :: label ++ [93%Z; 36%Z]) ++ rest) = None) as ->
    by reflexivity.
  unfold match_bracket_prompt. rewrite trim_start_nonwhite by done. cbv beta iota.
  replace ((user ++ 64%Z :: host ++ 32%Z :: label ++ [93%Z; 36%Z]) ++ rest)
    with (user ++ 64%Z :: host ++ 32%Z :: (label ++ 93%Z :: 36%Z :: rest))
    by (rewrite <- !app_assoc; cbn; rewrite <- !app_assoc; cbn; by rewrite <- !app_assoc).
  rewrite match_user_host_ok by done.
  destruct label as [|c' label]; [done|]. injection Hhd as ->.
  assert (span is_white (32%Z :: (c :: label) ++ 93%Z :: 36%Z :: rest) = ([32%Z], (c :: label) ++ 93%Z :: 36%Z :: rest)) as ->
    by (cbn; by rewrite Hc).
  rewrite span_app; [|eapply Forall_impl; [exact Hl|]|reflexivity].
  2: { intros x Hx. cbv beta in *. apply negb_true_iff, bool_decide_eq_false. rewrite !not_elem_of_cons in *. tauto. }
  unfold match_prompt_end. rewrite decide_True by auto. rewrite Hr. cbn [mbind option_bind].
  rewrite (units_trim_id (c :: label)); [done|done|]. by rewrite Hlst.
Qed.

(** ** A session of a shell *)

(** What [cd] does in a shell. *)
Definition shell_cd (cwd path : jsstr) : jsstr :=
  if units_starts_with (js "/") path then normalizeAbsolutePath path
  else normalizeAbsolutePath (cwd ++ slash_unit :: path).

(** The directory as prompts abbreviate it. *)
Definition shell_label (home cwd : jsstr) : jsstr := if decide (cwd = home) then js "~" else directory_name cwd.

Fixpoint shell_lines (user host home cwd : jsstr) (paths : list jsstr) : list jsstr :=
  match paths with
  | [] => [prompt_text user host (shell_label home cwd)]
  | path :: paths =>
      (prompt_text user host (shell_label home cwd) ++ 32%Z :: js "cd " ++ escape_text path)
      :: shell_lines user host home (shell_cd cwd path) paths
  end.

Record cd_path_ok (path : jsstr) : Prop := {
  cp_typable : Forall (λ c, typable c ∧ is_line_terminator c = false) path;
  cp_head : ∃ c, head path = Some c ∧ c ≠ 126%Z;
  cp_last : ∃ c, last path = Some c ∧ is_white c = false;
  cp_dash : path ≠ js "-" ∧ path ≠ js "--";
}.

(** Every directory on the way has a label that can be told from the home directory. *)
Fixpoint visits_ok (home cwd : jsstr) (paths : list jsstr) : Prop :=
  label_ok (shell_label home cwd) ∧ (cwd ≠ home → directory_name cwd ≠ js "~") ∧
  match paths with
  | [] => True
  | path :: paths => visits_ok home (shell_cd cwd path) paths
  end.

Definition normal (d : jsstr) : Prop := normalizeAbsolutePath d = d.

Lemma normalize_normal p : normal (normalizeAbsolutePath p).
Proof. unfold normal, normalizeAbsolutePath at 1. by rewrite path_parts_normalize. Qed.

Lemma shell_cd_normal cwd path : normal (shell_cd cwd path).
Proof. unfold shell_cd. case_match; apply normalize_normal. Qed.

Lemma normal_truthy d : normal d → units_truthy (Some d) = true.
Proof. intros <-. done. Qed.

Lemma directory_name_normal d :
  normal d → directory_name d = default (js "/") (last (path_parts d)).
Proof.
  unfold normal. intros Hd. unfold directory_name. rewrite <- Hd at 1. unfold normalizeAbsolutePath.
  pose proof (path_parts_ok d) as Hok. set (parts := path_parts d) in *. clearbody parts.
  assert (split_on slash_unit (slash_unit :: join_with slash_unit parts) =
    match parts with [] => [[]; []] | _ => [] :: parts end) as ->.
  { change (slash_unit :: join_with slash_unit parts) with ([] ++ slash_unit :: join_with slash_unit parts).
    rewrite split_on_app. destruct parts as [|p parts]; [done|]. rewrite split_on_join; [done| |done].
    eapply Forall_impl; [exact Hok|]. by intros ? []. }
  destruct parts as [|p parts]; [done|]. f_equal. f_equal. rewrite filter_cons_False by (intros H; by apply H).
  apply filter_all. intros x Hx. rewrite Forall_forall in Hok. apply (Hok x Hx).
Qed.

(** The label of a normal directory names it or leaves it open. *)
Lemma label_directory home cwd :
  normal home → normal cwd → (cwd ≠ home → directory_name cwd ≠ js "~") →
  promptPathToDirectory (shell_label home cwd) (Some home) = Some cwd ∨
  promptPathToDirectory (shell_label home cwd) (Some home) = None ∧ cwd ≠ home.
Proof.
  intros Hh Hc Ht. unfold shell_label. case_decide as Hd; [subst; by left|].
  unfold promptPathToDirectory. rewrite decide_False by auto.
  rewrite (directory_name_normal cwd Hc). pose proof (path_parts_ok cwd) as Hok.
  destruct (last (path_parts cwd)) as [p|] eqn:El; cbn [default].
  - right. apply last_Some_elem_of in El. rewrite Forall_forall in Hok. destruct (Hok p El).
    rewrite !(units_starts_with_absent _ p slash_unit); [done| | | |]; try done; by repeat constructor.
  - left. assert (cwd = js "/") as ->; [|done]. apply last_None in El. unfold normal in Hc. rewrite <- Hc. unfold normalizeAbsolutePath. by rewrite El.
Qed.

Lemma escape_free_name name : name_ok name → escape_unit ∉ name.
Proof. intros [_ Hu] Hin. rewrite Forall_forall in Hu. by apply Hu in Hin. Qed.

Lemma escape_text_elem c text : c ∈ escape_text text → c = backslash_unit ∨ c ∈ text.
Proof.
  intros (x & Hc & Hx)%list_elem_of_bind. apply elem_of_cons in Hc as [->|Hc]; [by left|].
  apply list_elem_of_singleton in Hc as ->. by right.
Qed.

Lemma prompt_text_escape_free user host label :
  name_ok user → name_ok host → label_ok label → escape_unit ∉ prompt_text user host label.
Proof.
  intros Hu%escape_free_name Hh%escape_free_name [Hl _ _]. unfold prompt_text, escape_unit in *.
  rewrite !not_elem_of_cons, !not_elem_of_app, !not_elem_of_cons, !not_elem_of_app, !not_elem_of_cons, not_elem_of_app,
    !not_elem_of_cons.
  split_and!; try done; try apply not_elem_of_nil. intros Hin. rewrite Forall_forall in Hl. apply (Hl _ Hin). by repeat constructor.
Qed.

(** The command line of a session is read as it was typed. *)
Lemma cd_path_last path : cd_path_ok path → path ≠ [] ∧ match last path with Some c => is_white c = false | None => True end.
Proof. intros [_ _ (c & Hc & Hw) _]. rewrite Hc. split; [by intros ->|done]. Qed.

Lemma cd_command_units path :
  cd_path_ok path → Forall (λ c, typable c ∧ is_line_terminator c = false) (js "cd " ++ escape_text path).
Proof.
  intros [Ht _ _ _]. rewrite Forall_forall in Ht. apply Forall_forall. intros c [Hc|Hc]%elem_of_app.
  - change (js "cd ") with [99; 100; 32]%Z in Hc. rewrite !elem_of_cons, elem_of_nil in Hc.
    destruct Hc as [->|[->|[->|[]]]]; done.
  - apply escape_text_elem in Hc as [->|Hc]; [done|]. by apply Ht.
Qed.

Lemma cd_command_trim path : cd_path_ok path → units_trim (js "cd " ++ escape_text path) = js "cd " ++ escape_text path.
Proof.
  intros Hp. apply units_trim_id; [done|]. rewrite last_app, escape_text_last.
  destruct (cd_path_last _ Hp) as [Hne Hl]. destruct (last path) eqn:E; [done|]. by apply last_None in E.
Qed.

Lemma normalize_cd_command path :
  cd_path_ok path → normalizePromptCommand (js "cd " ++ escape_text path) = Some (js "cd " ++ escape_text path).
Proof. intros Hp. unfold normalizePromptCommand. by rewrite cd_command_trim. Qed.

Lemma match_cd_command path :
  cd_path_ok path → match_command (32%Z :: js "cd " ++ escape_text path) = Some (js "cd " ++ escape_text path).
Proof.
  intros Hp. unfold match_command.
  assert (units_trim_start (32%Z :: js "cd " ++ escape_text path) = js "cd " ++ escape_text path) as -> by reflexivity.
  destruct (existsb _ _) eqn:E; [|done]. apply existsb_exists in E as (c & Hc%list_elem_of_In & Ht).
  pose proof (cd_command_units _ Hp) as Hu. rewrite Forall_forall in Hu. apply Hu in Hc as [_ Hc]. congruence.
Qed.

Lemma key_prompt user host label :
  name_ok user → name_ok host → label_ok label →
  promptLineKey (prompt_text user host label) = prompt_text user host label.
Proof.
  intros Hu Hh Hl. unfold promptLineKey. rewrite strip_loop_id by by apply prompt_text_escape_free.
  apply units_trim_end_id with 36%Z; [|done]. unfold prompt_text.
  change (91%Z :: user ++ 64%Z :: host ++ 32%Z :: label ++ [93%Z; 36%Z])
    with ((91%Z :: user) ++ (64%Z :: host) ++ (32%Z :: label) ++ [93%Z] ++ [36%Z]).
  by rewrite !app_assoc, last_snoc.
Qed.

Lemma key_command user host label path :
  name_ok user → name_ok host → label_ok label → cd_path_ok path →
  promptLineKey (prompt_text user host label ++ 32%Z :: js "cd " ++ escape_text path) =
  prompt_text user host label ++ 32%Z :: js "cd " ++ escape_text path.
Proof.
  intros Hu Hh Hl Hp. unfold promptLineKey. rewrite strip_loop_id.
  - destruct (cd_path_last _ Hp) as [Hne Hlast]. destruct (last path) as [c|] eqn:E; [|by apply last_None in E].
    apply units_trim_end_id with c; [|done].
    change (32%Z :: js "cd " ++ escape_text path) with ((32%Z :: js "cd ") ++ escape_text path).
    by rewrite app_assoc, last_app, escape_text_last, E.
  - rewrite not_elem_of_app, not_elem_of_cons. split_and!; [by apply prompt_text_escape_free|done|].
    intros Hin. pose proof (cd_command_units _ Hp) as Hc. rewrite Forall_forall in Hc.
    apply Hc in Hin as [[H1 _] _]. unfold escape_unit in H1. lia.
Qed.

Lemma shell_cd_resolves path cwd home :
  cd_path_ok path → normal cwd →
  resolveTerminalInputDirectoryLine (js "cd " ++ escape_text path) (Some cwd) (Some home) = Some (shell_cd cwd path).
Proof.
  intros Hp Hc. unfold resolveTerminalInputDirectoryLine. rewrite cd_command_trim by done.
  destruct (cd_path_last _ Hp) as [Hne Hlast]. destruct Hp as [_ (c & Hhd & Htilde) _ [Hd1 Hd2]].
  rewrite resolve_cd_escaped by done. unfold resolveDirectoryToken, shell_cd, when_truthy.
  rewrite decide_False by done. rewrite decide_False by (intros ->; by injection Hhd as <-).
  assert (units_starts_with (js "~") path = false) as E.
  { change (js "~") with [126%Z]. rewrite units_starts_with_head, Hhd. apply bool_decide_eq_false. congruence. }
  assert (units_starts_with (js "~/") path = false) as ->.
  { destruct (units_starts_with (js "~/") path) eqn:E2; [|done]. apply units_starts_with_inv in E2 as (r & ->). by injection Hhd as <-. }
  rewrite E. rewrite (normal_truthy _ Hc). by destruct (units_starts_with (js "/") path).
Qed.

Section session.
Context (user host home : jsstr).
Context (Huser : name_ok user) (Hhost : name_ok host) (Hhome : normal home).

Lemma visits_label cwd paths : visits_ok home cwd paths → label_ok (shell_label home cwd) ∧ (cwd ≠ home → directory_name cwd ≠ js "~").
Proof. destruct paths; cbn; tauto. Qed.

Lemma output_clean cwd paths :
  Forall cd_path_ok paths → visits_ok home cwd paths →
  commandOutputHasCdFailure (promptLineKey <$> shell_lines user host home cwd paths) = false.
Proof.
  intros Hps Hv. destruct (visits_label _ _ Hv) as [Hl _]. destruct paths as [|path paths]; cbn [shell_lines fmap list_fmap].
  - cbn [commandOutputHasCdFailure]. rewrite key_prompt by done. rewrite <- (app_nil_r (prompt_text _ _ _)).
    by rewrite (parse_prompt _ _ _ [] []).
  - apply Forall_cons in Hps as [Hp _]. cbn [commandOutputHasCdFailure]. rewrite key_command by done.
    by rewrite (parse_prompt _ _ _ _ (js "cd " ++ escape_text path)) by (done || by apply match_cd_command).
Qed.

(** Replaying a session ends in the directory of the shell. *)
Lemma replay_session cwd paths current :
  normal cwd → cwd = home ∨ current = Some cwd → Forall cd_path_ok paths → visits_ok home cwd paths →
  replay_loop (Some home) current (promptLineKey <$> shell_lines user host home cwd paths) = Some (foldl shell_cd cwd paths).
Proof.
  revert cwd current. induction paths as [|path paths IH]; intros cwd current Hc Hcur Hps Hv;
    destruct (visits_label _ _ Hv) as [Hl Ht]; cbn [shell_lines fmap list_fmap replay_loop].
  - rewrite key_prompt by done. rewrite <- (app_nil_r (prompt_text _ _ _)).
    rewrite (parse_prompt _ _ _ [] []) by done. cbn [pl_label pl_command normalizePromptCommand units_trim].
    destruct (label_directory home cwd Hhome Hc Ht) as [->|[-> Hne]].
    + rewrite normal_truthy by done. done.
    + destruct Hcur as [?| ->]; done.
  - apply Forall_cons in Hps as [Hp Hps]. rewrite key_command by done.
    rewrite (parse_prompt _ _ _ _ (js "cd " ++ escape_text path)) by (done || by apply match_cd_command).
    cbn [pl_label pl_command]. rewrite normalize_cd_command by done.
    assert ((if units_truthy (promptPathToDirectory (shell_label home cwd) (Some home))
             then promptPathToDirectory (shell_label home cwd) (Some home) else current) = Some cwd) as ->.
    { destruct (label_directory home cwd Hhome Hc Ht) as [->|[-> Hne]].
      - by rewrite normal_truthy.
      - destruct Hcur as [?| ->]; done. }
    rewrite shell_cd_resolves by done. rewrite normal_truthy by apply shell_cd_normal.
    rewrite output_clean; [|done|by destruct Hv as (_ & _ & ?)].
    apply IH; [apply shell_cd_normal|by right|done|by destruct Hv as (_ & _ & ?)].
Qed.
End session.

(** The last line of a session is the prompt of the directory it ends in. *)
Lemma shell_lines_last user host home cwd paths :
  ∃ before, shell_lines user host home cwd paths =
    before ++ [prompt_text user host (shell_label home (foldl shell_cd cwd paths))].
Proof.
  revert cwd. induction paths as [|path paths IH]; intros cwd; [by exists []|].
  destruct (IH (shell_cd cwd path)) as (before & Hb). cbn [shell_lines foldl]. rewrite Hb.
  by eexists (_ :: before).
Qed.

Lemma visits_final home cwd paths :
  visits_ok home cwd paths → visits_ok home (foldl shell_cd cwd paths) [].
Proof.
  revert cwd. induction paths as [|path paths IH]; intros cwd; [done|]. intros (_ & _ & Hv). by apply IH.
Qed.

(** ** What is reported fits the prompt *)

Lemma when_truthy_normal o f : (∀ d, normal (f d)) → ∀ d, when_truthy o f = Some d → normal d.
Proof. intros Hf d. unfold when_truthy. case_match; [|done]. intros (x & _ & ->)%fmap_Some. apply Hf. Qed.

Section consistent.
Context (homeDirectory : option jsstr) (Hhome : ∀ h, homeDirectory = Some h → normal h).

Lemma prompt_path_normal label d : promptPathToDirectory label homeDirectory = Some d → normal d.
Proof.
  unfold promptPathToDirectory. repeat case_match; try done.
  - apply Hhome.
  - apply when_truthy_normal. intros. apply normalize_normal.
  - intros [= <-]. apply normalize_normal.
Qed.

Lemma resolve_line_normal line current d :
  resolveTerminalInputDirectoryLine line current homeDirectory = Some d → normal d.
Proof.
  unfold resolveTerminalInputDirectoryLine, resolveCdCommand. destruct (tokenizeCommand _) as [tokens|]; [|done]. cbv zeta.
  repeat case_decide; try done; try (apply Hhome); intros (token & _ & Ht)%bind_Some; revert Ht;
    unfold resolveDirectoryToken; repeat case_match; try done; try (apply Hhome);
    try (apply when_truthy_normal; intros; apply normalize_normal); intros [= <-]; apply normalize_normal.
Qed.

Lemma replay_normal current lines d :
  (∀ c, current = Some c → normal c) → replay_loop homeDirectory current lines = Some d → normal d.
Proof.
  revert current. induction lines as [|line lines IH]; intros current Hc; cbn [replay_loop]; [apply Hc|].
  destruct (parsePromptLine line) as [prompt|]; [|by apply IH]. cbv zeta.
  set (next := if units_truthy (promptPathToDirectory _ _) then _ else current).
  assert (∀ c, next = Some c → normal c) as Hnext.
  { unfold next. intros c. case_match; [apply prompt_path_normal|apply Hc]. }
  destruct (pl_command prompt); [|by apply IH]. case_match; [by apply IH|].
  apply IH. intros c. apply resolve_line_normal.
Qed.
End consistent.

(** ** Properties *)

(** A directory read from the screen fits the latest prompt. Whatever is on the
    screen, with a home directory in normal form, a reported directory is in normal
    form, and it is the directory that the latest prompt names, or, when the prompt
    names none, one whose last part is the label of the prompt; without a prompt
    nothing is reported. *)
Theorem prompt_directory_fits lines homeDirectory currentDirectory d :
  (∀ h, homeDirectory = Some h → normal h) →
  promptSnapshotLinesToDirectory lines homeDirectory currentDirectory = Some d →
  ∃ prompt, head (omap parsePromptLine (promptLineKey <$> lines)) = Some prompt ∧ normal d ∧
    (promptPathToDirectory (pl_label prompt) homeDirectory = Some d ∨ directory_name d = pl_label prompt).
Proof.
  intros Hhome. unfold promptSnapshotLinesToDirectory. cbv zeta.
  destruct (omap parsePromptLine (promptLineKey <$> lines)) as [|prompt prompts]; [done|]. intros H. exists prompt. split; [done|].
  destruct (units_truthy (promptPathToDirectory (pl_label prompt) homeDirectory)) eqn:Et.
  { split; [by eapply prompt_path_normal|by left]. }
  assert (∀ x, normal x → directoryMatchesPromptLabel x (pl_label prompt) homeDirectory = true →
    directory_name x = pl_label prompt) as Hm.
  { intros x Hx. unfold directoryMatchesPromptLabel. rewrite Et. rewrite bool_decide_eq_true. by rewrite Hx. }
  assert (match replayPromptSnapshotDirectory (promptLineKey <$> lines) homeDirectory with
    | Some directory => if units_truthy (Some directory) && directoryMatchesPromptLabel directory (pl_label prompt) homeDirectory
                        then Some directory else None
    | None => None end = Some d → normal d ∧ directory_name d = pl_label prompt) as Hr.
  { destruct (replayPromptSnapshotDirectory _ _) as [x|] eqn:Ex; [|done]. destruct (_ && _) eqn:E; [|done]. intros [= <-].
    apply andb_true_iff in E as [_ E]. apply replay_normal in Ex; [|done|done]. auto. }
  destruct currentDirectory as [c|]; [|destruct (Hr H); auto].
  destruct (units_truthy (Some c) && directoryMatchesPromptLabel c (pl_label prompt) homeDirectory) eqn:E; [|destruct (Hr H); auto].
  injection H as <-. apply andb_true_iff in E as [_ E]. split; [apply normalize_normal|right].
  unfold directoryMatchesPromptLabel in E. rewrite Et in E. by apply bool_decide_eq_true in E.
Qed.

(** C24: the screen tells where the shell is. For a shell that starts in its home
    directory, abbreviates directories to their last part in the prompt, and is given
    any sequence of [cd] commands to directories whose names fit the prompt, what is
    read from the screen is exactly the directory that the shell is in. *)
Theorem prompt_replay_follows user host home paths :
  name_ok user → name_ok host → normal home → Forall cd_path_ok paths → visits_ok home home paths →
  promptSnapshotLinesToDirectory (reverse (shell_lines user host home home paths)) (Some home) None =
    Some (foldl shell_cd home paths).
Proof.
  intros Hu Hh Hhome Hps Hv. unfold promptSnapshotLinesToDirectory, replayPromptSnapshotDirectory. cbv zeta.
  rewrite fmap_reverse. set (final := foldl shell_cd home paths).
  destruct (visits_final _ _ _ Hv) as (Hl & Ht & _). fold final in Hl, Ht.
  assert (∃ prompts, omap parsePromptLine (reverse (promptLineKey <$> shell_lines user host home home paths)) =
    mkPromptLine None (shell_label home final) :: prompts) as (prompts & ->).
  { destruct (shell_lines_last user host home home paths) as (before & ->). rewrite fmap_app, reverse_app. fold final.
    cbn [fmap list_fmap]. rewrite key_prompt by done. rewrite reverse_singleton. cbn [app omap list_omap].
    rewrite <- (app_nil_r (prompt_text _ _ _)). rewrite (parse_prompt _ _ _ [] []) by done. by eexists. }
  cbn [pl_label]. rewrite reverse_involutive, (replay_session user host home) by auto. fold final.
  assert (normal final) as Hf.
  { unfold final. clear - Hhome. revert Hhome. generalize home. induction paths as [|p ps IH]; intros c Hc; [done|].
    apply IH, shell_cd_normal. }
  destruct (label_directory home final Hhome Hf Ht) as [E|[E Hne]]; rewrite E.
  - by rewrite normal_truthy.
  - change (units_truthy None) with false. cbv iota. rewrite normal_truthy by done.
    unfold directoryMatchesPromptLabel. rewrite E. change (units_truthy None) with false. cbv iota.
    rewrite bool_decide_true; [done|]. rewrite Hf. unfold shell_label. by rewrite decide_False.
Qed.

(** ** Samples *)

Lemma prompt_directory_fits_witness :
  promptSnapshotLinesToDirectory [js "[me@host src]$"; js "[me@host ~]$ cd src"] (Some (js "/home/me")) None =
    Some (js "/home/me/src") ∧ normal (js "/home/me/src").
Proof.
  assert (promptSnapshotLinesToDirectory [js "[me@host src]$"; js "[me@host ~]$ cd src"] (Some (js "/home/me")) None =
    Some (js "/home/me/src")) as H by (vm_compute; reflexivity).
  split; [exact H|].
  destruct (prompt_directory_fits [js "[me@host src]$"; js "[me@host ~]$ cd src"] (Some (js "/home/me")) None
    (js "/home/me/src")) as (_ & _ & Hn & _); [intros h [= <-]; vm_compute; reflexivity|exact H|exact Hn].
Defined.

Definition demo_paths : list jsstr := [js "work"; js "../my dir"; js "/etc"].

Lemma prompt_replay_follows_witness :
  promptSnapshotLinesToDirectory (reverse (shell_lines (js "me") (js "host") (js "/home/me") (js "/home/me") demo_paths))
    (Some (js "/home/me")) None = Some (js "/etc").
Proof.
  rewrite (prompt_replay_follows (js "me") (js "host") (js "/home/me") demo_paths); [vm_compute; reflexivity|..].
  - split; [discriminate|]. vm_compute. repeat constructor.
  - split; [discriminate|]. vm_compute. repeat constructor.
  - vm_compute. reflexivity.
  - repeat (apply Forall_cons; split); [| | |constructor]; (split; [|eexists; split; [reflexivity|discriminate]|
      eexists; split; [vm_compute; reflexivity|reflexivity]|split; discriminate]);
      repeat (apply Forall_cons; split); try constructor; vm_compute; try reflexivity; try split; try discriminate.
  - cbn [visits_ok demo_paths]. split_and!; try exact I; try (intros; vm_compute; discriminate);
      (split; [vm_decide|eexists; split; vm_compute; reflexivity|eexists; split; vm_compute; reflexivity]).
Defined.
