(* ===== verification/ConnectionGroups.v ===== *)
(** * Connection groups ([features/connections/connectionGroupModel.ts])

    Labels and descendants of the groups that connections are kept in, and the migration
    of the expanded state to stable ids. *)

From S2P Require Import Prelude SnapshotCodec.
From Stdlib Require Import Lia.

#[local] Open Scope nat_scope.

Record ConnectionGroup := mkConnectionGroup {
  cg_id : string;
  cg_name : string;
  cg_parentId : option string;
}.

(** ** Labels *)

Section groups.
Context (groups : list ConnectionGroup).

(** The walk up of [groupOptions]; it ends after as many steps as there are groups,
    since it never visits a group twice. *)
Fixpoint ancestor_names (fuel : nat) (parent : option string) (visited : gset string) (names : list string) : list string :=
  match fuel, parent with
  | S fuel, Some id =>
      if decide (id = "" ∨ id ∈ visited) then names
      else
        match jsmap_get id (jsmap_of_entries ((λ group, (cg_id group, group)) <$> groups)) with
        | None => names
        | Some ancestor => ancestor_names fuel (cg_parentId ancestor) ({[id]} ∪ visited) (cg_name ancestor :: names)
        end
  | _, _ => names
  end.

(** The value and the label of each option. *)
Definition groupOptions : list (string * string) :=
  (λ group, (cg_id group,
    String.concat " / " (ancestor_names (S (length groups)) (cg_parentId group) {[cg_id group]} [cg_name group]))) <$> groups.

(** ** Descendants *)

(** The inner loop of [groupDescendants]: the children of [parent] that are new join the
    ids and the pending ones; the top of the stack is the head of the list. *)
Definition push_children (parent : string) (st : list string * list string) (group : ConnectionGroup) :
    list string * list string :=
  if decide (cg_parentId group = Some parent ∧ cg_id group ∉ st.1)
  then (st.1 ++ [cg_id group], cg_id group :: st.2) else st.

Fixpoint descend (fuel : nat) (ids pending : list string) : list string :=
  match fuel, pending with
  | S fuel, parent :: rest =>
      let st := foldl (push_children parent) (ids, rest) groups in
      descend fuel st.1 st.2
  | _, _ => ids
  end.

Definition groupDescendants (id : string) : list string := descend (S (length groups)) [id] [id].
End groups.

(** The parents that the dialog of a group offers: every group, but when a group is
    edited only those that are not below it. *)
Definition parentOptions (groups : list ConnectionGroup) (editingGroupId : option string) : list (string * string) :=
  groupOptions (filter (λ group,
    truthy editingGroupId = false ∨ cg_id group ∉ groupDescendants groups (default "" editingGroupId)) groups).

(** ** Expanded folders *)

Record LegacyGroupReport := mkLegacyReport {
  lg_complete : bool;
  lg_mappings : list (string * string);
  lg_issue : option string;
}.

(** The two entries of the local storage: the text of the old one and, when it is
    written, the object of the new one. *)
Record ExpansionStorage := mkExpansion {
  es_v1 : option string;
  es_v2 : option (jsmap bool);
}.

(** [if (typeof previous[key] === "boolean") next[key'] = previous[key]]. *)
Definition copy_expanded (previous : list (string * json)) (next : jsmap bool) (keys : string * string) : jsmap bool :=
  match field previous keys.1 with
  | Some (JBool b) => jsmap_set keys.2 b next
  | _ => next
  end.

Section migrate.
(** [JSON.parse], which may throw. *)
Context (parse : string → option json).

Definition migrateGroupExpansion (storage : ExpansionStorage) (report : LegacyGroupReport) : ExpansionStorage :=
  if negb (lg_complete report) || bool_decide (is_Some (es_v2 storage)) then storage
  else
    let previous :=
      match es_v1 storage with
      | Some raw => if decide (raw = "") then [] else match parse raw with Some (JObj fields) => fields | _ => [] end
      | None => []
      end in
    let next := foldl (copy_expanded previous) [] [("favorites", "favorites"); ("recent", "recent")] in
    let next := foldl (copy_expanded previous) next
      ((λ m, ("group-" +:+ m.1, "group-" +:+ m.2)) <$> lg_mappings report) in
    mkExpansion (es_v1 storage) (Some next).
End migrate.

(** ** Descendants are what can be reached *)

Section descendants.
Context (groups : list ConnectionGroup).

Definition child_of (parent child : string) : Prop :=
  ∃ group, group ∈ groups ∧ cg_parentId group = Some parent ∧ cg_id group = child.

Definition group_ids : gset string := list_to_set (cg_id <$> groups).

Lemma push_children_spec parent l ids pending :
  NoDup ids → (∀ g, g ∈ l → g ∈ groups) →
  let st := foldl (push_children parent) (ids, pending) l in
  NoDup st.1 ∧ (∃ new, st.1 = ids ++ new ∧ st.2 = reverse new ++ pending ∧ Forall (child_of parent) new) ∧
  (∀ g, g ∈ l → cg_parentId g = Some parent → cg_id g ∈ st.1).
Proof.
  revert ids pending. induction l as [|g l IH]; intros ids pending Hnd Hl; cbv zeta.
  { split_and!; [done| |by intros g ?%elem_of_nil]. exists []. by rewrite app_nil_r. }
  cbn [foldl]. assert (g ∈ groups) as Hg by (apply Hl; left).
  unfold push_children at 2 4 6 8. cbn [fst snd]. case_decide as Hd.
  - destruct Hd as [Hp Hni].
    destruct (IH (ids ++ [cg_id g]) (cg_id g :: pending)) as (H1 & (new & E1 & E2 & Hc) & H3).
    { apply NoDup_app. split; [done|]. split; [|apply NoDup_singleton]. by intros x Hx ->%list_elem_of_singleton. }
    { intros x Hx. apply Hl. by right. }
    split_and!; [done| |].
    + exists (cg_id g :: new). rewrite E1, E2. rewrite reverse_cons, <- !app_assoc. split_and!; [done|done|].
      constructor; [by exists g|done].
    + intros x [->|Hx]%elem_of_cons Hxp; [|by apply H3]. rewrite E1, !elem_of_app. left. right. by left.
  - destruct (IH ids pending Hnd) as (H1 & (new & E1 & E2 & Hc) & H3); [intros x Hx; apply Hl; by right|].
    split_and!; [done|by exists new|]. intros x [->|Hx]%elem_of_cons Hxp; [|by apply H3].
    rewrite E1, elem_of_app. left. destruct (decide (cg_id g ∈ ids)); [done|]. exfalso. by apply Hd.
Qed.

Record descend_ok (id : string) (ids pending : list string) : Prop := {
  dk_nodup : NoDup ids;
  dk_start : id ∈ ids;
  dk_reached : Forall (rtc child_of id) ids;
  dk_pending : pending ⊆ ids;
  dk_closed : ∀ parent child, parent ∈ ids → (parent ∉ pending) → child_of parent child → child ∈ ids;
}.

Lemma descend_ok_step id ids parent rest :
  descend_ok id ids (parent :: rest) →
  let st := foldl (push_children parent) (ids, rest) groups in
  descend_ok id st.1 st.2 ∧
  length st.2 + size (group_ids ∖ list_to_set st.1) = length rest + size (group_ids ∖ list_to_set ids).
Proof.
  intros [Hnd Hs Hr Hp Hc]. cbv zeta.
  destruct (push_children_spec parent groups ids rest Hnd) as (H1 & (new & E1 & E2 & Hnew) & H3); [done|].
  set (st := foldl _ _ _) in *. cbv zeta in *. rewrite E1 in H1. apply NoDup_app in H1 as (_ & Hdisj & Hnn). split.
  - assert (parent ∈ ids) as Hparent by (apply Hp; left). split.
    + rewrite E1. by apply NoDup_app.
    + rewrite E1, elem_of_app. by left.
    + rewrite E1. apply Forall_app. split; [done|]. eapply Forall_impl; [exact Hnew|]. intros x Hx.
      eapply rtc_r; [|exact Hx]. rewrite Forall_forall in Hr. by apply Hr.
    + rewrite E1, E2. intros x. rewrite !elem_of_app, elem_of_reverse. intros [?|?]; [by right|]. left. apply Hp. by right.
    + intros p c Hpi Hpp Hcc. rewrite E2, not_elem_of_app, elem_of_reverse in Hpp. destruct Hpp as [Hpn Hpr].
      rewrite E1, elem_of_app in Hpi. destruct Hpi as [Hpi|?]; [|done].
      destruct (decide (p = parent)) as [->|Hne].
      * destruct Hcc as (g & Hg & Hgp & <-). by apply H3.
      * rewrite E1, elem_of_app. left. apply (Hc p); [done| |done]. by apply not_elem_of_cons.
  - rewrite E1, E2, length_app, length_reverse, list_to_set_app_L.
    assert (list_to_set (C := gset string) new ⊆ group_ids ∖ list_to_set ids) as Hsub.
    { intros x Hx%elem_of_list_to_set. apply elem_of_difference. split.
      - rewrite Forall_forall in Hnew. destruct (Hnew x Hx) as (g & Hg & _ & <-).
        apply elem_of_list_to_set, list_elem_of_fmap. by exists g.
      - intros Hx'%elem_of_list_to_set. by apply (Hdisj x). }
    assert (group_ids ∖ (list_to_set ids ∪ list_to_set new) = (group_ids ∖ list_to_set ids) ∖ list_to_set (C := gset string) new) as ->
      by set_solver.
    assert (size (list_to_set (C := gset string) new) = length new) as Hsz by by apply size_list_to_set.
    pose proof (subseteq_size _ _ Hsub). rewrite size_difference by done. lia.
Qed.

Lemma descend_spec id fuel ids pending :
  descend_ok id ids pending → length pending + size (group_ids ∖ list_to_set ids) ≤ fuel →
  descend_ok id (descend groups fuel ids pending) [].
Proof.
  revert ids pending. induction fuel as [|fuel IH]; intros ids pending Hok Hf.
  - destruct pending; [done|cbn in Hf; lia].
  - destruct pending as [|parent rest]; [done|]. cbn [descend]. cbv zeta.
    destruct (descend_ok_step _ _ _ _ Hok) as [H1 H2]. cbv zeta in *. apply IH; [done|]. cbn in Hf. lia.
Qed.

(** The search ends, and finds what can be reached. *)
Lemma descendants_spec id :
  NoDup (groupDescendants groups id) ∧ ∀ x, x ∈ groupDescendants groups id ↔ rtc child_of id x.
Proof.
  assert (descend_ok id (groupDescendants groups id) []) as [Hnd Hs Hr _ Hc].
  { apply descend_spec.
    - split; [apply NoDup_singleton|by left|by repeat constructor|done|].
      intros p c ->%list_elem_of_singleton Hp. exfalso. apply Hp. by left.
    - cbn [length]. apply le_n_S. transitivity (size group_ids); [apply subseteq_size; set_solver|].
      unfold group_ids. clear. induction groups as [|g l IH]; [done|]. cbn [fmap list_fmap list_to_set length].
      rewrite size_union_alt, size_singleton. apply le_n_S. etransitivity; [|exact IH]. apply subseteq_size. set_solver. }
  split; [done|]. intros x. split; [by rewrite Forall_forall in Hr; apply Hr|].
  intros Hx. revert x Hx. apply rtc_ind_r; [done|]. intros p c _ Hpc Hp. apply (Hc p c); [done|apply not_elem_of_nil|done].
Qed.
End descendants.

(** ** Moving a group *)

Definition set_parent (id parent : string) (group : ConnectionGroup) : ConnectionGroup :=
  if decide (cg_id group = id) then mkConnectionGroup id (cg_name group) (Some parent) else group.

Definition acyclic (groups : list ConnectionGroup) : Prop := ∀ x, ¬ tc (child_of groups) x x.

Section move.
Context (groups : list ConnectionGroup) (id parent : string).
Abbreviation old := (child_of groups).
Abbreviation new := (child_of (set_parent id parent <$> groups)).

Lemma moved_edge q c : new q c → old q c ∨ q = parent ∧ c = id.
Proof.
  intros (g & (h & -> & Hh)%list_elem_of_fmap & Hp & Hc). unfold set_parent in *. case_decide; cbn in *.
  - right. split; congruence.
  - left. by exists h.
Qed.

(** A path ends with a part that does not use the new edge. *)
Lemma moved_path a b : rtc new a b → rtc old a b ∨ rtc old id b.
Proof.
  intros H. revert b H. apply rtc_ind_r; [by left|]. intros y z _ [Hyz|[-> ->]]%moved_edge IH; [|by right].
  destruct IH; [left|right]; by eapply rtc_r.
Qed.

Lemma moved_cycle a b : tc new a b → tc old a b ∨ rtc new a parent ∧ rtc new id b.
Proof.
  induction 1 as [a b Hab|a y b Hay Hyb IH].
  - apply moved_edge in Hab as [?|[-> ->]]; [left; by constructor|by right].
  - destruct (moved_edge _ _ Hay) as [Hold|[-> ->]].
    + destruct IH as [IH|[IH1 IH2]]; [left; by eapply tc_l|right; split; [by eapply rtc_l|done]].
    + right. split; [done|]. by apply tc_rtc.
Qed.

Lemma move_acyclic : acyclic groups → ¬ rtc old id parent → acyclic (set_parent id parent <$> groups).
Proof.
  intros Ha Hn x Hx. apply moved_cycle in Hx as [Hx|[H1 H2]]; [by apply (Ha x)|].
  apply Hn. assert (rtc new id parent) as H by (by etransitivity). by apply moved_path in H as [?|?].
Qed.
End move.

(** ** Properties *)

(** The tree of groups. Whatever the parents are, cycles and missing ones included,
    the search for the descendants of a group ends, lists no group twice and finds the
    group itself, every group below it, and no other; and in a tree without cycles,
    giving a group any parent that its dialog offers leaves it without cycles. *)
Theorem group_tree_safe groups id :
  NoDup (groupDescendants groups id) ∧ (∀ x, x ∈ groupDescendants groups id ↔ rtc (child_of groups) id x) ∧
  (id ≠ "" → acyclic groups → ∀ option, option ∈ parentOptions groups (Some id) →
    acyclic (set_parent id option.1 <$> groups)).
Proof.
  destruct (descendants_spec groups id) as [H1 H2]. split_and!; [done|done|].
  intros Hid Ha [value label] Hin. apply move_acyclic; [done|]. rewrite <- H2. cbn [fst].
  apply list_elem_of_fmap in Hin as (group & [= -> _] & [[Ht|Hni] _]%list_elem_of_filter); [|done].
  apply truthy_Some in Hid. congruence.
Qed.
