(* ===== verification/JumpPlan.v ===== *)
(** * Jump hosts ([features/connections/jumpPlanPreview.ts], [jumpRuntime.ts])

    The chain of jump hosts that a connection goes through, its preview with its errors,
    the test that keeps a candidate from closing a cycle, and the credentials asked for
    along the chain. *)

From S2P Require Import Prelude RemotePaths Snapshot SnapshotCodec.
From stdpp Require Import pretty.
From Stdlib Require Import Lia.

#[local] Open Scope nat_scope.

Inductive ConnectionJumpKind := JumpNone | SshJump.

#[export] Instance ConnectionJumpKind_eq_dec : EqDecision ConnectionJumpKind.
Proof. solve_decision. Defined.

(** [jc_kind] is absent when [jump] is. *)
Record ConnectionJumpConfig := mkJump {
  jc_kind : option ConnectionJumpKind;
  jc_jump_connection_id : option string;
}.

Record JumpProfile := mkJumpProfile {
  jp_id : string;
  jp_name : option string;
  jp_host : string;
  jp_port : Z;
  jp_username : string;
  jp_jump : ConnectionJumpConfig;
}.

(** The id of the next jump host, or the empty string. *)
Definition jump_target (jump : ConnectionJumpConfig) : string :=
  match jc_kind jump with
  | Some SshJump => default "" ((trim_string <$> jc_jump_connection_id jump) ||? Some "")
  | _ => ""
  end.

Definition address_label (username host : string) (port : Z) : string :=
  default "" (Some username ||? Some "user") +:+ "@" +:+ host +:+ ":" +:+ pretty port.

Definition labelForConnection (connection : JumpProfile) : string :=
  default "" ((trim_string <$> jp_name connection) ||?
    Some (address_label (jp_username connection) (jp_host connection) (jp_port connection))).

(** A form may still have an empty host. *)
Definition targetLabel (form : JumpProfile) : string :=
  default "" ((trim_string <$> jp_name form) ||?
    Some (address_label (jp_username form) (default "" (Some (jp_host form) ||? Some "target")) (jp_port form))).

Inductive JumpPlanIssue := JumpCycle | JumpDepthExceeded | JumpMissing.

#[export] Instance JumpPlanIssue_eq_dec : EqDecision JumpPlanIssue.
Proof. solve_decision. Defined.

Record JumpPlanPreview := mkPreview {
  pv_issue : option JumpPlanIssue;
  pv_labels : list string;
}.

Section connections.
Context (connections : list JumpProfile).

Definition byId : jsmap JumpProfile := jsmap_of_entries ((λ connection, (jp_id connection, connection)) <$> connections).

(** The loop of [buildJumpPlanPreview]: the issue and the jumps. It runs at most three
    times, since a third jump is an issue. *)
Fixpoint preview_loop (fuel : nat) (visited : gset string) (jumps : list JumpProfile) (currentId : string) :
    option JumpPlanIssue * list JumpProfile :=
  match fuel with
  | 0 => (None, jumps)
  | S fuel =>
      if decide (currentId = "") then (None, jumps)
      else if decide (currentId ∈ visited) then (Some JumpCycle, jumps)
      else if 2 <=? length jumps then (Some JumpDepthExceeded, jumps)
      else
        match jsmap_get currentId byId with
        | None => (Some JumpMissing, jumps)
        | Some current => preview_loop fuel ({[currentId]} ∪ visited) (jumps ++ [current]) (jump_target (jp_jump current))
        end
  end.

Definition buildJumpPlanPreview (form : JumpProfile) (targetConnectionId : string) : JumpPlanPreview :=
  let target := targetLabel form in
  let jumpId := jump_target (jp_jump form) in
  if decide (jumpId = "") then mkPreview None [target]
  else
    let visited : gset string := if decide (targetConnectionId = "") then ∅ else {[targetConnectionId]} in
    let (issue, jumps) := preview_loop 4 visited [] jumpId in
    mkPreview issue (reverse (labelForConnection <$> jumps) ++ [target]).

(** The loop of [jumpCandidateWouldCycle]; it visits every connection at most once. *)
Fixpoint cycle_loop (fuel : nat) (targetConnectionId : string) (visited : gset string) (currentId : string) : bool :=
  match fuel with
  | 0 => false
  | S fuel =>
      if decide (currentId = "") then false
      else if decide (currentId = targetConnectionId ∨ currentId ∈ visited) then true
      else
        match jsmap_get currentId byId with
        | None => false
        | Some current =>
            if decide (jc_kind (jp_jump current) ≠ Some SshJump) then false
            else cycle_loop fuel targetConnectionId ({[currentId]} ∪ visited) (jump_target (jp_jump current))
        end
  end.

Definition jumpCandidateWouldCycle (candidateId targetConnectionId : string) : bool :=
  cycle_loop (S (S (length connections))) targetConnectionId ∅ candidateId.

Definition validateJumpPlanSelection (form : JumpProfile) (targetConnectionId : string) : option JumpPlanIssue :=
  pv_issue (buildJumpPlanPreview form targetConnectionId).
End connections.

(** ** Credentials along the chain ([jumpRuntime.ts])

    Errors are JSON values; a value that is not an object has no properties. *)

Inductive ConnectionAuthKind := AuthPassword | AuthPrivateKey.

Record CredentialPromptTarget := mkPromptTarget {
  ct_authKind : ConnectionAuthKind;
  ct_connectionId : string;
  ct_host : string;
  ct_name : option string;
  ct_port : Q;
  ct_username : string;
}.

Record SshNodeFailure := mkNodeFailure {
  nf_connectionId : string;
  nf_host : string;
  nf_port : Q;
  nf_stage : string;
}.

(** The object of a property, when it is one. An array is an object without the fields
    that are read. *)
Definition json_fields (value : option json) : option (list (string * json)) :=
  match value with Some (JObj fields) => Some fields | Some (JArr _) => Some [] | _ => None end.

Definition errorDetails (error : option json) : option (list (string * json)) :=
  fields ← json_fields error; json_fields (field fields "details").

Definition authKind (value : option json) : option ConnectionAuthKind :=
  if is_str value "password" then Some AuthPassword
  else if is_str value "private_key" then Some AuthPrivateKey else None.

Definition parseCredentialPromptTarget (error : option json) : option CredentialPromptTarget :=
  match json_fields error with
  | None => None
  | Some fields =>
      if negb (is_str (field fields "code") "credential_prompt_required") then None
      else
        match errorDetails error with
        | None => None
        | Some details =>
            if negb (is_str (field details "kind") "credential_prompt_required") then None
            else
              match field details "connection_id", field details "host", field details "port", field details "username",
                    authKind (field details "auth_kind") with
              | Some (JStr connectionId), Some (JStr host), Some (JNum port), Some (JStr username), Some kind =>
                  Some (mkPromptTarget kind connectionId host None port username)
              | _, _, _, _, _ => None
              end
        end
  end.

Definition parseSshNodeFailure (error : option json) : option SshNodeFailure :=
  match errorDetails error with
  | None => None
  | Some details =>
      if negb (is_str (field details "kind") "ssh_node_failure") then None
      else
        match field details "connection_id", field details "host", field details "port", field details "stage" with
        | Some (JStr connectionId), Some (JStr host), Some (JNum port), Some (JStr stage) =>
            Some (mkNodeFailure connectionId host port stage)
        | _, _, _, _ => None
        end
  end.

(** [prompt_auth_kind || inline_auth_kind || "password"]. *)
Definition credentialPromptTargetFromConnection (connection : JumpProfile)
    (prompt_auth_kind inline_auth_kind : option ConnectionAuthKind) : CredentialPromptTarget :=
  mkPromptTarget (default AuthPassword (prompt_auth_kind ?: inline_auth_kind)) (jp_id connection) (jp_host connection)
    (jp_name connection) (inject_Z (jp_port connection)) (jp_username connection).

Record RuntimeCredentialInput := mkCredential {
  rc_auth_kind : option ConnectionAuthKind;
  rc_password : option string;
  rc_private_key_path : option string;
  rc_private_key_passphrase : option string;
}.

Definition upsertRuntimeCredential (current : jsmap RuntimeCredentialInput) (connectionId : string)
    (authKind : ConnectionAuthKind) (password privateKeyPath privateKeyPassphrase : string) : jsmap RuntimeCredentialInput :=
  let credential :=
    match authKind with
    | AuthPassword => mkCredential (Some AuthPassword) (nonempty password) None None
    | AuthPrivateKey => mkCredential (Some AuthPrivateKey) None (nonempty privateKeyPath) (nonempty privateKeyPassphrase)
    end in
  jsmap_set connectionId credential current.

Record ConnectionRuntimeCredentialRequest := mkCredentialRequest {
  cr_target : RuntimeCredentialInput;
  cr_connection_id : string;
  cr_runtime_credentials : jsmap RuntimeCredentialInput;
}.

Definition buildRuntimeCredentialRequest (connectionId : string) (runtimeCredentials : jsmap RuntimeCredentialInput) :
    ConnectionRuntimeCredentialRequest :=
  mkCredentialRequest (default (mkCredential None None None None) (jsmap_get connectionId runtimeCredentials)) connectionId
    runtimeCredentials.

(** ** Chains *)

Section chain.
Context (connections : list JumpProfile).

(** One hop, and the chain of hops from an id; it stays at the empty id. *)
Definition hop (id : string) : string :=
  if decide (id = "") then ""
  else match jsmap_get id (byId connections) with Some c => jump_target (jp_jump c) | None => "" end.

Definition chain (start : string) (n : nat) : string := Nat.iter n hop start.

Context (start : string).

Lemma chain_hop n m : chain (chain start n) m = chain start (n + m).
Proof. unfold chain. by rewrite <- Nat.iter_add, Nat.add_comm. Qed.

Lemma chain_S n : chain start (S n) = hop (chain start n).
Proof. done. Qed.

Lemma chain_stops n m : chain start n = "" → n ≤ m → chain start m = "".
Proof.
  intros Hn Hm. replace m with (n + (m - n)) by lia. rewrite <- chain_hop, Hn.
  induction (m - n) as [|k IH]; [done|]. change (chain "" (S k)) with (hop (chain "" k)). by rewrite IH.
Qed.

(** A chain that comes back to where it was never ends. *)
Lemma chain_periodic j k n :
  j < k → chain start k = chain start j → (∀ i, i < k → chain start i ≠ "") → chain start n ≠ "".
Proof.
  intros Hjk Heq Hne. induction (lt_wf n) as [n _ IH]. destruct (decide (n < k)); [by apply Hne|].
  replace n with (k + (n - k)) by lia. rewrite <- chain_hop, Heq, chain_hop. apply IH. lia.
Qed.

(** The first ids of the chain are known, distinct and not among some others. *)
Record chain_prefix (avoid : gset string) (k : nat) : Prop := {
  cx_known : ∀ i, i < k → chain start i ≠ "" ∧ is_Some (jsmap_get (chain start i) (byId connections));
  cx_nodup : NoDup (chain start <$> seq 0 k);
  cx_avoid : ∀ i, i < k → chain start i ∉ avoid;
}.

Lemma chain_prefix_0 avoid : chain_prefix avoid 0.
Proof. split; [lia|constructor|lia]. Qed.

Definition visited_ids (avoid : gset string) (k : nat) : gset string := avoid ∪ list_to_set (chain start <$> seq 0 k).

Lemma visited_0 avoid : visited_ids avoid 0 = avoid.
Proof. unfold visited_ids. cbn. set_solver. Qed.

Lemma visited_S avoid k : visited_ids avoid (S k) = {[chain start k]} ∪ visited_ids avoid k.
Proof. unfold visited_ids. rewrite seq_S, fmap_app, list_to_set_app_L. cbn. set_solver. Qed.

Lemma elem_of_visited avoid k x : x ∈ visited_ids avoid k ↔ x ∈ avoid ∨ ∃ i, i < k ∧ chain start i = x.
Proof.
  unfold visited_ids. rewrite elem_of_union, elem_of_list_to_set, list_elem_of_fmap.
  split; intros [?|(i & H1 & H2)]; auto; right; exists i; rewrite ?elem_of_seq in *; split; try done; lia.
Qed.

Lemma chain_prefix_S avoid k current :
  chain_prefix avoid k → chain start k ≠ "" → chain start k ∉ visited_ids avoid k →
  jsmap_get (chain start k) (byId connections) = Some current →
  chain_prefix avoid (S k) ∧ chain start (S k) = jump_target (jp_jump current).
Proof.
  intros [Hk Hn Ha] Hne Hv Hg. rewrite elem_of_visited in Hv. split.
  - split.
    + intros i Hi. destruct (decide (i = k)) as [->|]; [by eauto|]. apply Hk. lia.
    + rewrite seq_S, fmap_app. apply NoDup_app. split; [done|]. split; [|apply NoDup_singleton].
      intros x (i & -> & Hi%elem_of_seq)%list_elem_of_fmap Hx%list_elem_of_singleton. apply Hv. right. exists i. split; [lia|done].
    + intros i Hi. destruct (decide (i = k)) as [->|]; [intros ?; apply Hv; by left|]. apply Ha. lia.
  - rewrite chain_S. unfold hop. by rewrite decide_False, Hg.
Qed.

Lemma chain_prefix_short avoid k : chain_prefix avoid k → k ≤ length connections.
Proof.
  intros [Hk Hn _]. rewrite <- (length_fmap jp_id connections), <- (length_seq k 0), <- (length_fmap (chain start)).
  apply submseteq_length, NoDup_submseteq; [done|].
  intros x (i & -> & Hi%elem_of_seq)%list_elem_of_fmap. destruct (Hk i) as [_ Hg]; [lia|].
  destruct Hg as [c Hg%jsmap_get_elem]. apply jsmap_of_entries_keys in Hg. cbn [fst] in Hg.
  by rewrite <- list_fmap_compose in Hg.
Qed.

(** ** The loops follow the chain *)

Lemma cycle_loop_spec fuel target k :
  chain_prefix ∅ k → (∀ i, i < k → chain start i ≠ target) → S (S (length connections)) ≤ fuel + k →
  cycle_loop connections fuel target (visited_ids ∅ k) (chain start k) = true ↔
    (∃ n, chain start n ≠ "" ∧ chain start n = target) ∨ ∀ n, chain start n ≠ "".
Proof.
  revert k. induction fuel as [|fuel IH]; intros k Hp Ht Hf.
  { pose proof (chain_prefix_short _ _ Hp). lia. }
  assert (∀ n, chain start n = "" → (∀ i, i ≤ n → chain start i ≠ "" → chain start i ≠ target) →
    ¬ ((∃ n, chain start n ≠ "" ∧ chain start n = target) ∨ ∀ n, chain start n ≠ "")) as Hend.
  { intros n Hn Hi [(m & Hm1 & Hm2)|Hall]; [|by apply (Hall n)].
    destruct (decide (m ≤ n)); [by apply (Hi m)|]. apply Hm1. apply (chain_stops n); [done|lia]. }
  cbn [cycle_loop]. case_decide as He.
  { split; [done|]. intros Hor. exfalso. apply (Hend k); [done| |done]. intros i Hi Hne.
    destruct (decide (i = k)) as [->|]; [done|]. apply Ht. lia. }
  case_decide as Hv.
  { split; [intros _|done]. destruct Hv as [Hv|Hv]; [left; by exists k|right].
    apply elem_of_visited in Hv as [Hv|(j & Hj & Hv)]; [by apply not_elem_of_empty in Hv|].
    intros n. apply (chain_periodic j k); [done|done|]. intros i Hi. by apply (cx_known _ _ Hp). }
  apply Decidable.not_or in Hv as [Hnt Hnv].
  destruct (jsmap_get (chain start k) (byId connections)) as [current|] eqn:Eg.
  - destruct (chain_prefix_S _ _ _ Hp He Hnv Eg) as [Hp' Hnext].
    assert (∀ i, i < S k → chain start i ≠ target) as Ht'.
    { intros i Hi. destruct (decide (i = k)) as [->|]; [done|]. apply Ht. lia. }
    case_decide as Hkind.
    + split; [done|]. intros Hor. exfalso. apply (Hend (S k)); [|intros i Hi Hne|done].
      * rewrite Hnext. unfold jump_target. destruct (jc_kind _) as [[]|]; done.
      * destruct (decide (i = S k)) as [->|]; [|apply Ht'; lia]. exfalso. apply Hne. rewrite Hnext.
        unfold jump_target. destruct (jc_kind _) as [[]|]; done.
    + rewrite <- Hnext, <- visited_S. apply IH; [done|done|lia].
  - split; [done|]. intros Hor. exfalso.
    assert (chain start (S k) = "") as Hs by (rewrite chain_S; unfold hop; by rewrite decide_False, Eg).
    apply (Hend (S k)); [done|intros i Hi Hne|done].
    destruct (decide (i = S k)) as [->|]; [done|]. destruct (decide (i = k)) as [->|]; [done|]. apply Ht. lia.
Qed.

(** What the preview found: the jumps are the start of the chain, and where it stopped. *)
Record preview_found (avoid : gset string) (issue : option JumpPlanIssue) (jumps : list JumpProfile) : Prop := {
  pf_short : length jumps ≤ 2;
  pf_chain : ∀ i c, jumps !! i = Some c → jsmap_get (chain start i) (byId connections) = Some c;
  pf_prefix : chain_prefix avoid (length jumps);
  pf_end : match issue with
           | None => chain start (length jumps) = ""
           | Some JumpCycle => chain start (length jumps) ≠ "" ∧ chain start (length jumps) ∈ visited_ids avoid (length jumps)
           | Some JumpDepthExceeded => chain start (length jumps) ≠ "" ∧ length jumps = 2
           | Some JumpMissing =>
               chain start (length jumps) ≠ "" ∧ jsmap_get (chain start (length jumps)) (byId connections) = None
           end;
}.

Lemma preview_loop_spec avoid fuel jumps :
  chain_prefix avoid (length jumps) → length jumps ≤ 2 → 4 ≤ fuel + length jumps →
  (∀ i c, jumps !! i = Some c → jsmap_get (chain start i) (byId connections) = Some c) →
  let r := preview_loop connections fuel (visited_ids avoid (length jumps)) jumps (chain start (length jumps)) in
  preview_found avoid r.1 r.2.
Proof.
  revert jumps. induction fuel as [|fuel IH]; intros jumps Hp Hn Hf Hc; [lia|]. cbv zeta. cbn [preview_loop].
  case_decide as He; [by split|]. case_decide as Hv; [by split|].
  destruct (2 <=? length jumps) eqn:E2; [apply Nat.leb_le in E2; split; [done..|split; [done|]]; cbn; lia|].
  apply Nat.leb_gt in E2. destruct (jsmap_get (chain start (length jumps)) (byId connections)) as [current|] eqn:Eg; [|by split].
  destruct (chain_prefix_S _ _ _ Hp He Hv Eg) as [Hp' Hnext].
  assert (length (jumps ++ [current]) = S (length jumps)) as Hlen by (rewrite length_app; cbn; lia).
  rewrite <- Hnext, <- visited_S, <- Hlen. apply IH; rewrite ?Hlen; [done|lia|lia|].
  intros i c [Hi|[Hi Hs]]%lookup_app_Some; [by apply Hc|]. apply list_lookup_singleton_Some in Hs as [Hi0 <-].
  by replace i with (length jumps) by lia.
Qed.
End chain.

(** ** Properties *)

(** C17: the jump plan. A candidate is refused exactly when the chain of jump hosts from
    it reaches the connection itself or never ends. The preview of a form, whatever the
    connections are, lists at most two jumps before the target, which are the start of
    the chain; without an issue the chain ends after them and the candidate would not be
    refused, and with a cycle as its issue it would. *)
Theorem jump_plan_exact connections form target :
  let candidate := jump_target (jp_jump form) in
  (∀ id, jumpCandidateWouldCycle connections id target = true ↔
    (∃ n, chain connections id n ≠ "" ∧ chain connections id n = target) ∨ ∀ n, chain connections id n ≠ "") ∧
  (∃ jumps, pv_labels (buildJumpPlanPreview connections form target) =
      reverse (labelForConnection <$> jumps) ++ [targetLabel form] ∧ length jumps ≤ 2 ∧
    (∀ i c, jumps !! i = Some c → jsmap_get (chain connections candidate i) (byId connections) = Some c) ∧
    (validateJumpPlanSelection connections form target = None → chain connections candidate (length jumps) = "")) ∧
  (validateJumpPlanSelection connections form target = None → jumpCandidateWouldCycle connections candidate target = false) ∧
  (validateJumpPlanSelection connections form target = Some JumpCycle →
    jumpCandidateWouldCycle connections candidate target = true).
Proof.
  cbv zeta. assert (∀ id, jumpCandidateWouldCycle connections id target = true ↔
    (∃ n, chain connections id n ≠ "" ∧ chain connections id n = target) ∨ ∀ n, chain connections id n ≠ "") as Hc.
  { intros id. unfold jumpCandidateWouldCycle. rewrite <- (visited_0 connections id ∅).
    apply (cycle_loop_spec connections id _ target 0); [apply chain_prefix_0|lia|lia]. }
  split; [done|]. unfold validateJumpPlanSelection, buildJumpPlanPreview. set (candidate := jump_target (jp_jump form)).
  case_decide as He.
  { split_and!; [exists []; cbn; split_and!; [done|lia|done|done]| |done]. intros _. apply not_true_iff_false. rewrite Hc.
    intros [(n & Hn & _)|Hall]; [|by apply (Hall 0)]. apply Hn. apply (chain_stops _ _ 0); [done|lia]. }
  set (avoid := if decide (target = "") then ∅ else {[target]} : gset string).
  assert (preview_found connections candidate avoid (preview_loop connections 4 avoid [] candidate).1
    (preview_loop connections 4 avoid [] candidate).2) as [Hn Hj Hp Hend].
  { rewrite <- (visited_0 connections candidate avoid) at 2 3.
    apply (preview_loop_spec connections candidate avoid 4 []); [apply chain_prefix_0|cbn; lia|cbn; lia|done]. }
  destruct (preview_loop connections 4 avoid [] candidate) as [issue jumps] eqn:Ep. cbn [fst snd pv_labels pv_issue] in *.
  split_and!.
  - exists jumps. split_and!; [done..|]. by intros ->.
  - intros ->. apply not_true_iff_false. rewrite Hc. intros [(n & Hne & Ht)|Hall]; [|by apply (Hall (length jumps))].
    destruct (decide (n < length jumps)) as [Hlt|]; [|apply Hne; apply (chain_stops _ _ (length jumps)); [done|lia]].
    apply (cx_avoid _ _ _ _ Hp n Hlt). rewrite Ht. unfold avoid. rewrite decide_False by congruence. by apply elem_of_singleton.
  - intros ->. apply Hc. destruct Hend as [Hne Hv]. apply elem_of_visited in Hv as [Hv|(i & Hi & Hv)].
    + left. exists (length jumps). split; [done|]. unfold avoid in Hv. case_decide; set_solver.
    + right. intros n. apply (chain_periodic connections candidate i (length jumps)); [done|done|].
      intros j Hj'. by apply (cx_known _ _ _ _ Hp).
Qed.

(** The credential prompt and the node failure that the backend describes are read back
    field by field. *)
Definition prompt_error (t : CredentialPromptTarget) : json :=
  JObj [("code", JStr "credential_prompt_required");
    ("details", JObj [("kind", JStr "credential_prompt_required");
      ("auth_kind", JStr match ct_authKind t with AuthPassword => "password" | AuthPrivateKey => "private_key" end);
      ("connection_id", JStr (ct_connectionId t)); ("host", JStr (ct_host t)); ("port", JNum (ct_port t));
      ("username", JStr (ct_username t))])].

Lemma parse_prompt_error t :
  parseCredentialPromptTarget (Some (prompt_error t)) =
    Some (mkPromptTarget (ct_authKind t) (ct_connectionId t) (ct_host t) None (ct_port t) (ct_username t)) ∧
  parseSshNodeFailure (Some (prompt_error t)) = None.
Proof. by destruct t as [[]]. Qed.

(** The request carries the credential that was given last for the connection. *)
Lemma upsert_request current id kind password path passphrase other :
  let credentials := upsertRuntimeCredential current id kind password path passphrase in
  rc_auth_kind (cr_target (buildRuntimeCredentialRequest id credentials)) = Some kind ∧
  (other ≠ id → cr_target (buildRuntimeCredentialRequest other credentials) =
    cr_target (buildRuntimeCredentialRequest other current)).
Proof.
  cbv zeta. unfold upsertRuntimeCredential, buildRuntimeCredentialRequest. cbn [cr_target]. rewrite !jsmap_get_set.
  rewrite decide_True by done. split; [by destruct kind|]. intros Hne. by rewrite decide_False.
Qed.

(** ** Samples *)

Definition demo_connections : list JumpProfile :=
  let jump id := mkJump (Some SshJump) (Some id) in
  [mkJumpProfile "a" (Some " web ") "10.0.0.1" 22 "me" (jump "b");
   mkJumpProfile "b" None "10.0.0.2" 2222 "" (mkJump (Some JumpNone) None);
   mkJumpProfile "c" (Some "") "10.0.0.3" 22 "me" (jump "a")].

Lemma demo_preview :
  buildJumpPlanPreview demo_connections (mkJumpProfile "" (Some "db") "" 22 "" (mkJump (Some SshJump) (Some "a"))) "d" =
    mkPreview None ["user@10.0.0.2:2222"; "web"; "db"] ∧
  jumpCandidateWouldCycle demo_connections "c" "b" = true.
Proof. vm_compute. done. Qed.
