(* ===== verification/Settings.v ===== *)
(** * Settings ([features/settings/settingsTypes.ts], [useSettings.ts])

    What the stored settings become when they are loaded, whatever was stored, and the
    updates of the settings dialog. A value of unknown type is a JSON value; a union of
    string literals is a string with the list of what is allowed. *)

From S2P Require Import Prelude RemotePaths Snapshot SnapshotCodec ShortcutKeys Shortcuts.
From Stdlib Require Import Lia QArith.Qround Strings.Ascii.

#[local] Open Scope nat_scope.

Abbreviation fields := (list (string * json)).

(** ** Values *)

(** [isRecord(value) ? value : {}]. *)
Definition record_fields (value : option json) : fields := match value with Some (JObj o) => o | _ => [] end.

Definition normalizeBoolean (value : option json) (fallback : bool) : bool :=
  match value with Some (JBool b) => b | _ => fallback end.

Definition normalizeNumber (value : option json) (allowed : list Z) (fallback : Z) : Z :=
  match value with
  | Some (JNum q) => match q_integer q with Some z => if decide (z ∈ allowed) then z else fallback | None => fallback end
  | _ => fallback
  end.

Definition normalizeOneOf (value : option json) (allowed : list string) (fallback : string) : string :=
  match value with Some (JStr s) => if decide (s ∈ allowed) then s else fallback | _ => fallback end.

Definition map_string (f : ascii → ascii) (s : string) : string :=
  String.string_of_list_ascii (f <$> String.list_ascii_of_string s).

Definition filter_string (f : ascii → bool) (s : string) : string :=
  String.string_of_list_ascii (filter (λ c, f c = true) (String.list_ascii_of_string s)).

Definition tab : ascii := Ascii.ascii_of_nat 9.
Definition newline : ascii := Ascii.ascii_of_nat 10.
Definition return_char : ascii := Ascii.ascii_of_nat 13.

(** [/[;{}\n\r\t]/]. *)
Definition breaks_css (c : ascii) : bool := bool_decide (c ∈ [";"; "{"; "}"; newline; return_char; tab]%char).

Definition normalizeFontFamilyInput (value : option json) (fallback : string) : string :=
  match value with
  | Some (JStr s) =>
      let trimmed := map_string (λ c, if breaks_css c then " "%char else c) (trim_string s) in
      if (0 <? String.length trimmed) && (String.length trimmed <=? 180) then trimmed else fallback
  | _ => fallback
  end.

(** The characters that a path may not hold; the one of code 34 is the double quote. *)
Definition breaks_path (c : ascii) : bool :=
  bool_decide (c ∈ ["<"; ">"; Ascii.ascii_of_nat 34; "|"; "?"; "*"; newline; return_char; tab]%char).

Definition normalizePathInput (value : option json) (fallback : string) : string :=
  match value with
  | Some (JStr s) =>
      let trimmed := filter_string (λ c, negb (breaks_path c)) (trim_string s) in
      if String.length trimmed <=? 260 then trimmed else fallback
  | _ => fallback
  end.

Definition normalizeOptionalString (value : option json) (fallback : option string) : option string :=
  match value with
  | Some (JStr s) => if 0 <? String.length (trim_string s) then Some (trim_string s) else fallback
  | _ => fallback
  end.

Definition json_string (value : json) : option string := match value with JStr s => Some s | _ => None end.

Definition normalizeStringArray (value : option json) : list string :=
  match value with
  | Some (JArr items) => filter (λ item, item ≠ "") (trim_string <$> omap json_string items)
  | _ => []
  end.

(** ** Colours *)

Definition hex_value (c : ascii) : option Z :=
  let n := Z.of_N (Ascii.N_of_ascii c) in
  if ((48 <=? n) && (n <=? 57))%Z then Some (n - 48)%Z
  else if ((65 <=? n) && (n <=? 70))%Z then Some (n - 55)%Z
  else if ((97 <=? n) && (n <=? 102))%Z then Some (n - 87)%Z
  else None.

Definition is_hex (c : ascii) : bool := match hex_value c with Some _ => true | None => false end.

Definition hex_digit (n : Z) : ascii :=
  Ascii.ascii_of_N (Z.to_N (if n <? 10 then n + 48 else n + 55)%Z).

(** The upper case of a hexadecimal digit. *)
Definition upper_hex (c : ascii) : ascii := match hex_value c with Some n => hex_digit n | None => c end.

Definition normalizeHexColor (value : option json) (fallback : string) : string :=
  match value with
  | Some (JStr s) =>
      match String.list_ascii_of_string (trim_string s) with
      | hash :: digits =>
          if bool_decide (hash = "#"%char) && forallb is_hex digits then
            match upper_hex <$> digits with
            | [r; g; b] => String.string_of_list_ascii ["#"%char; r; r; g; g; b; b]
            | [r1; r2; g1; g2; b1; b2] => String.string_of_list_ascii ["#"%char; r1; r2; g1; g2; b1; b2]
            | _ => fallback
            end
          else fallback
      | [] => fallback
      end
  | _ => fallback
  end.

(** [Math.round] of [channel + (255 - channel) * 0.24]; it is never halfway between two
    integers, so the rounding of the doubles does not show. *)
Definition mix (channel : Z) : Z := Qfloor (inject_Z channel + inject_Z (255 - channel) * (24 # 100) + (1 # 2)).

Definition hex_pair (n : Z) : list ascii := [hex_digit (n / 16)%Z; hex_digit (n mod 16)%Z].

Definition parse_pair (a b : ascii) : Z := (default 0 (hex_value a) * 16 + default 0 (hex_value b))%Z.

Definition defaultAccentColorCustom : string := "#2374C6".

Definition createDarkAccentColor (lightHex : string) : string :=
  match String.list_ascii_of_string (normalizeHexColor (Some (JStr lightHex)) defaultAccentColorCustom) with
  | [_; r1; r2; g1; g2; b1; b2] =>
      String.string_of_list_ascii ("#"%char :: hex_pair (mix (parse_pair r1 r2)) ++ hex_pair (mix (parse_pair g1 g2)) ++
        hex_pair (mix (parse_pair b1 b2)))
  | _ => ""
  end.

(** ** Sections *)

Record BasicSettings := mkBasic {
  bs_autoCheckAppUpdate : bool;
  bs_filePanelFollowsActiveConnection : bool;
  bs_keepFailedTerminalTabs : bool;
  bs_locale : string;
  bs_reopenLastTerminal : bool;
  bs_remoteFileOpenMode : string;
  bs_restoreWorkspaceOnLaunch : bool;
  bs_recentConnectionLimit : Z;
}.

Record FileTransferSettings := mkFileTransfer {
  fs_conflictPolicyDefault : string;
  fs_concurrentTransfers : Z;
  fs_downloadRoot : string;
  fs_groupBySession : bool;
  fs_compressDirectories : bool;
  fs_keepArchives : bool;
  fs_timestampDirectory : bool;
  fs_timestampFormat : string;
}.

Record LocalTerminalProfileInput := mkProfileInput {
  lp_id : option string;
  lp_name : string;
  lp_kind : string;
  lp_platform : string;
  lp_source : string;
  lp_command : string;
  lp_args : list string;
  lp_cwd : option string;
  lp_env : jsmap string;
  lp_icon : string;
  lp_hidden : bool;
  lp_detected : bool;
}.

Record LocalTerminalSettings := mkLocalTerminal {
  ls_ctrlVPaste : bool;
  ls_defaultProfileId : option string;
  ls_hiddenProfileIds : list string;
  ls_customProfiles : list LocalTerminalProfileInput;
  ls_reopenLastLocalWorkspace : bool;
}.

Record SecuritySettings := mkSecurity {
  ss_masterPasswordEnabled : bool;
  ss_allowPasswordReveal : bool;
  ss_autoLockMinutes : Z;
}.

Record AppearanceSettings := mkAppearance {
  as_accentColor : string;
  as_accentColorCustom : string;
  as_cursorBlink : bool;
  as_cursorStyle : string;
  as_density : string;
  as_iconSize : string;
  as_rememberPaneWidths : bool;
  as_terminalFontCustom : string;
  as_terminalFontMode : string;
  as_terminalFontPreset : string;
  as_terminalFontSize : Z;
  as_themeMode : string;
  as_uiFontCustom : string;
  as_uiFontMode : string;
  as_uiFontPreset : string;
  as_uiFontSize : Z;
  as_windowMaterial : string;
}.

Record MxtermSettings := mkSettings {
  st_appearance : AppearanceSettings;
  st_basic : BasicSettings;
  st_command : bool;
  st_fileTransfer : FileTransferSettings;
  st_localTerminal : LocalTerminalSettings;
  st_security : SecuritySettings;
  st_shortcuts : shortcut_table;
  st_terminalTheme : string;
}.

(** A font stack with quoted names: the quotes are written as grave accents here. *)
Definition quoted (s : string) : string := map_string (λ c, if decide (c = "`"%char) then Ascii.ascii_of_nat 34 else c) s.

(** The value and the stack of each preset. *)
Definition uiFontPresets : list (string * string) :=
  [("system", quoted "system-ui, -apple-system, BlinkMacSystemFont, `Segoe UI`, sans-serif");
   ("segoe-ui", quoted "`Segoe UI Variable Text`, `Segoe UI`, `Microsoft YaHei UI`, system-ui, sans-serif");
   ("microsoft-yahei", quoted "`Microsoft YaHei UI`, `Microsoft YaHei`, `Segoe UI`, sans-serif");
   ("noto-sans-sc", quoted "`Noto Sans SC`, `Source Han Sans SC`, `Microsoft YaHei UI`, sans-serif")].

Definition terminalFontPresets : list (string * string) :=
  [("cascadia-code", quoted "`Cascadia Code`, `Cascadia Mono`, Consolas, monospace");
   ("jetbrains-mono", quoted "`JetBrains Mono`, `Cascadia Mono`, Consolas, monospace");
   ("fira-code", quoted "`Fira Code`, `Cascadia Mono`, Consolas, monospace");
   ("source-code-pro", quoted "`Source Code Pro`, `Cascadia Mono`, Consolas, monospace");
   ("iosevka", quoted "Iosevka, `Cascadia Mono`, Consolas, monospace");
   ("hack", quoted "Hack, `Cascadia Mono`, Consolas, monospace");
   ("noto-sans-mono", quoted "`Noto Sans Mono`, `Cascadia Mono`, Consolas, monospace")].

(** The value, the light and the dark colour of each preset. *)
Definition accentColorPresets : list (string * (string * string)) :=
  [("blue", ("#2374C6", "#73B7FF")); ("emerald", ("#168264", "#57D8AE")); ("amber", ("#C97A19", "#FFBF66"));
   ("rose", ("#C85F82", "#FF9DB8")); ("violet", ("#7460DE", "#AC9CFF"))].

Definition legacyAccentColors : list (string * (string * string)) := [("slate", ("#64748B", "#94A3B8"))].

Definition defaultTerminalFontCustom : string := quoted "`Cascadia Code`, `Cascadia Mono`, Consolas, monospace".
Definition defaultUiFontCustom : string :=
  quoted "`Segoe UI Variable Text`, `Segoe UI`, `Microsoft YaHei UI`, system-ui, sans-serif".

Definition defaultSettings : MxtermSettings :=
  mkSettings
    (mkAppearance "blue" defaultAccentColorCustom true "block" "comfortable" "medium" true defaultTerminalFontCustom
       "preset" "cascadia-code" 13 "system" defaultUiFontCustom "preset" "segoe-ui" 14 "auto")
    (mkBasic true true true "system" false "split" true 5)
    false
    (mkFileTransfer "ask" 3 "" true true false true "yyyyMMddHHmm")
    (mkLocalTerminal true None [] [] true)
    (mkSecurity false true 15)
    defaultShortcutBindings
    "mxterm-default".

(** ** Loading ([normalizeSettings]) *)

Definition normalizeBasic (basic : fields) : BasicSettings :=
  let d := st_basic defaultSettings in
  mkBasic (normalizeBoolean (field basic "autoCheckAppUpdate") (bs_autoCheckAppUpdate d))
    (normalizeBoolean (field basic "filePanelFollowsActiveConnection") (bs_filePanelFollowsActiveConnection d))
    (normalizeBoolean (field basic "keepFailedTerminalTabs") (bs_keepFailedTerminalTabs d))
    (normalizeOneOf (field basic "locale") ["system"; "en"; "zh-CN"] (bs_locale d))
    (normalizeBoolean (field basic "reopenLastTerminal") (bs_reopenLastTerminal d))
    (normalizeOneOf (field basic "remoteFileOpenMode") ["split"; "unified"] (bs_remoteFileOpenMode d))
    (normalizeBoolean (field basic "restoreWorkspaceOnLaunch") (bs_restoreWorkspaceOnLaunch d))
    (normalizeNumber (field basic "recentConnectionLimit") [5; 10; 15; 20; 30; 50]%Z (bs_recentConnectionLimit d)).

Definition normalizeFileTransfer (fileTransfer : fields) : FileTransferSettings :=
  let d := st_fileTransfer defaultSettings in
  mkFileTransfer
    (normalizeOneOf (field fileTransfer "conflictPolicyDefault") ["ask"; "overwrite"; "skip"; "rename"] (fs_conflictPolicyDefault d))
    (normalizeNumber (field fileTransfer "concurrentTransfers") [1; 2; 3; 4; 5; 6; 7; 8; 9; 10]%Z (fs_concurrentTransfers d))
    (normalizePathInput (field fileTransfer "downloadRoot") (fs_downloadRoot d))
    (normalizeBoolean (field fileTransfer "groupBySession") (fs_groupBySession d))
    (normalizeBoolean (field fileTransfer "compressDirectories") (fs_compressDirectories d))
    (normalizeBoolean (field fileTransfer "keepArchives") (fs_keepArchives d))
    (normalizeBoolean (field fileTransfer "timestampDirectory") (fs_timestampDirectory d))
    (normalizeOneOf (field fileTransfer "timestampFormat") ["yyyyMMddHHmm"; "yyyyMMdd-HHmm"; "yyyy-MM-dd-HHmm"] (fs_timestampFormat d)).

(** [typeof value === "string" ? value.trim() : ""]. *)
Definition trimmed_or_empty (value : option json) : string :=
  match value with Some (JStr s) => trim_string s | _ => "" end.

Definition normalizeEnv (value : option json) : jsmap string :=
  jsmap_of_entries (omap (λ e, (λ s, (e.1, trim_string s)) <$> json_string e.2) (record_fields value)).

Definition normalizeLocalTerminalProfile (value : json) : option LocalTerminalProfileInput :=
  match value with
  | JObj o =>
      let name := trimmed_or_empty (field o "name") in
      let kind := trimmed_or_empty (field o "kind") in
      let command := trimmed_or_empty (field o "command") in
      if decide (name = "" ∨ kind = "" ∨ command = "") then None
      else
        Some (mkProfileInput (nonempty (trimmed_or_empty (field o "id"))) name kind
          (default "all" (nonempty (trimmed_or_empty (field o "platform"))))
          (default "custom" (nonempty (trimmed_or_empty (field o "source")))) command
          (match field o "args" with Some (JArr items) => omap json_string items | _ => [] end)
          (nonempty (trimmed_or_empty (field o "cwd"))) (normalizeEnv (field o "env"))
          (default "terminal-shell" (nonempty (trimmed_or_empty (field o "icon"))))
          (normalizeBoolean (field o "hidden") false) (normalizeBoolean (field o "detected") false))
  | _ => None
  end.

Definition normalizeLocalTerminalProfiles (value : option json) : list LocalTerminalProfileInput :=
  match value with Some (JArr items) => omap normalizeLocalTerminalProfile items | _ => [] end.

Definition normalizeLocalTerminal (localTerminal : fields) : LocalTerminalSettings :=
  let d := st_localTerminal defaultSettings in
  mkLocalTerminal (normalizeBoolean (field localTerminal "ctrlVPaste") (ls_ctrlVPaste d))
    (normalizeOptionalString (field localTerminal "defaultProfileId") (ls_defaultProfileId d))
    (normalizeStringArray (field localTerminal "hiddenProfileIds"))
    (normalizeLocalTerminalProfiles (field localTerminal "customProfiles"))
    (normalizeBoolean (field localTerminal "reopenLastLocalWorkspace") (ls_reopenLastLocalWorkspace d)).

Definition normalizeCommand (command : fields) : bool :=
  normalizeBoolean (field command "recordTerminalInputHistory") (st_command defaultSettings).

Definition normalizeSecurity (security : fields) : SecuritySettings :=
  let d := st_security defaultSettings in
  mkSecurity (normalizeBoolean (field security "masterPasswordEnabled") (ss_masterPasswordEnabled d))
    (normalizeBoolean (field security "allowPasswordReveal") (ss_allowPasswordReveal d))
    (normalizeNumber (field security "autoLockMinutes") [0; 5; 15; 30; 60]%Z (ss_autoLockMinutes d)).

Definition normalizeShortcuts (shortcuts : fields) : shortcut_table :=
  normalizeShortcutBindings (field shortcuts "bindings") (st_shortcuts defaultSettings).

Definition accentColors : list string := ["blue"; "slate"; "emerald"; "amber"; "rose"; "violet"; "custom"].

Definition normalizeAppearance (appearance : fields) : AppearanceSettings :=
  let d := st_appearance defaultSettings in
  mkAppearance (normalizeOneOf (field appearance "accentColor") accentColors (as_accentColor d))
    (normalizeHexColor (field appearance "accentColorCustom") (as_accentColorCustom d))
    (normalizeBoolean (field appearance "cursorBlink") (as_cursorBlink d))
    (normalizeOneOf (field appearance "cursorStyle") ["block"; "bar"; "underline"] (as_cursorStyle d))
    (normalizeOneOf (field appearance "density") ["comfortable"; "compact"] (as_density d))
    (normalizeOneOf (field appearance "iconSize") ["small"; "medium"; "large"] (as_iconSize d))
    (normalizeBoolean (field appearance "rememberPaneWidths") (as_rememberPaneWidths d))
    (normalizeFontFamilyInput (field appearance "terminalFontCustom") (as_terminalFontCustom d))
    (normalizeOneOf (field appearance "terminalFontMode") ["preset"; "custom"] (as_terminalFontMode d))
    (normalizeOneOf (field appearance "terminalFontPreset") terminalFontPresets.*1 (as_terminalFontPreset d))
    (normalizeNumber (field appearance "terminalFontSize") [12; 13; 14; 15; 16]%Z (as_terminalFontSize d))
    (normalizeOneOf (field appearance "themeMode") ["system"; "light"; "dark"] (as_themeMode d))
    (normalizeFontFamilyInput (field appearance "uiFontCustom") (as_uiFontCustom d))
    (normalizeOneOf (field appearance "uiFontMode") ["preset"; "custom"] (as_uiFontMode d))
    (normalizeOneOf (field appearance "uiFontPreset") uiFontPresets.*1 (as_uiFontPreset d))
    (normalizeNumber (field appearance "uiFontSize") [12; 13; 14; 15]%Z (as_uiFontSize d))
    (normalizeOneOf (field appearance "windowMaterial") ["auto"; "mica"; "acrylic"; "micaAlt"; "macosGlass"] (as_windowMaterial d)).

(** Any text that is not blank is kept as the id of a scheme. *)
Definition normalizeTerminalTheme (terminalTheme : fields) : string :=
  match field terminalTheme "scheme" with
  | Some (JStr s) => if 0 <? String.length (trim_string s) then s else st_terminalTheme defaultSettings
  | _ => st_terminalTheme defaultSettings
  end.

Definition normalizeSettings (value : option json) : MxtermSettings :=
  let record := record_fields value in
  let section name := record_fields (field record name) in
  mkSettings (normalizeAppearance (section "appearance")) (normalizeBasic (section "basic"))
    (normalizeCommand (section "command")) (normalizeFileTransfer (section "fileTransfer"))
    (normalizeLocalTerminal (section "localTerminal")) (normalizeSecurity (section "security"))
    (normalizeShortcuts (section "shortcuts")) (normalizeTerminalTheme (section "terminalTheme")).

(** ** Appearance *)

(** [find(...)?.stack || fallback]. *)
Definition preset_stack (presets : list (string * string)) (value fallback : string) : string :=
  default "" (jsmap_get value presets ||? Some fallback).

Definition resolveUiFontFamily (appearance : AppearanceSettings) : string :=
  if decide (as_uiFontMode appearance = "custom")
  then normalizeFontFamilyInput (Some (JStr (as_uiFontCustom appearance))) defaultUiFontCustom
  else preset_stack uiFontPresets (as_uiFontPreset appearance) defaultUiFontCustom.

Definition resolveTerminalFontFamily (appearance : AppearanceSettings) : string :=
  if decide (as_terminalFontMode appearance = "custom")
  then normalizeFontFamilyInput (Some (JStr (as_terminalFontCustom appearance))) defaultTerminalFontCustom
  else preset_stack terminalFontPresets (as_terminalFontPreset appearance) defaultTerminalFontCustom.

(** The light and the dark colour. *)
Definition resolveAccentColors (appearance : AppearanceSettings) : string * string :=
  if decide (as_accentColor appearance = "custom") then
    let light := normalizeHexColor (Some (JStr (as_accentColorCustom appearance))) defaultAccentColorCustom in
    (light, createDarkAccentColor light)
  else
    default (defaultAccentColorCustom, createDarkAccentColor defaultAccentColorCustom)
      (jsmap_get (as_accentColor appearance) accentColorPresets ?:
       jsmap_get (as_accentColor appearance) legacyAccentColors).

Definition resolveAccentColor (appearance : AppearanceSettings) : string := (resolveAccentColors appearance).1.

Definition iconSizeToPixels (size : string) : string :=
  if decide (size = "small") then "14px" else if decide (size = "large") then "18px" else "16px".

(** ** Storing

    What [JSON.stringify] and [JSON.parse] give back of settings; a profile without an
    id has no such property. *)

Definition json_z (z : Z) : json := JNum (inject_Z z).

Definition basic_fields (b : BasicSettings) : fields :=
  [("autoCheckAppUpdate", JBool (bs_autoCheckAppUpdate b));
   ("filePanelFollowsActiveConnection", JBool (bs_filePanelFollowsActiveConnection b));
   ("keepFailedTerminalTabs", JBool (bs_keepFailedTerminalTabs b)); ("locale", JStr (bs_locale b));
   ("reopenLastTerminal", JBool (bs_reopenLastTerminal b)); ("remoteFileOpenMode", JStr (bs_remoteFileOpenMode b));
   ("restoreWorkspaceOnLaunch", JBool (bs_restoreWorkspaceOnLaunch b));
   ("recentConnectionLimit", json_z (bs_recentConnectionLimit b))].

Definition file_transfer_fields (f : FileTransferSettings) : fields :=
  [("conflictPolicyDefault", JStr (fs_conflictPolicyDefault f)); ("concurrentTransfers", json_z (fs_concurrentTransfers f));
   ("downloadRoot", JStr (fs_downloadRoot f)); ("groupBySession", JBool (fs_groupBySession f));
   ("compressDirectories", JBool (fs_compressDirectories f)); ("keepArchives", JBool (fs_keepArchives f));
   ("timestampDirectory", JBool (fs_timestampDirectory f)); ("timestampFormat", JStr (fs_timestampFormat f))].

Definition profile_json (p : LocalTerminalProfileInput) : json :=
  JObj ([("name", JStr (lp_name p)); ("kind", JStr (lp_kind p)); ("platform", JStr (lp_platform p));
    ("source", JStr (lp_source p)); ("command", JStr (lp_command p)); ("args", JArr (JStr <$> lp_args p));
    ("cwd", json_opt (lp_cwd p)); ("env", entries_json JStr (lp_env p)); ("icon", JStr (lp_icon p));
    ("hidden", JBool (lp_hidden p)); ("detected", JBool (lp_detected p))] ++
    match lp_id p with Some id => [("id", JStr id)] | None => [] end).

Definition local_terminal_fields (l : LocalTerminalSettings) : fields :=
  [("ctrlVPaste", JBool (ls_ctrlVPaste l)); ("defaultProfileId", json_opt (ls_defaultProfileId l));
   ("hiddenProfileIds", JArr (JStr <$> ls_hiddenProfileIds l)); ("customProfiles", JArr (profile_json <$> ls_customProfiles l));
   ("reopenLastLocalWorkspace", JBool (ls_reopenLastLocalWorkspace l))].

Definition security_fields (s : SecuritySettings) : fields :=
  [("masterPasswordEnabled", JBool (ss_masterPasswordEnabled s)); ("allowPasswordReveal", JBool (ss_allowPasswordReveal s));
   ("autoLockMinutes", json_z (ss_autoLockMinutes s))].

Definition appearance_fields (a : AppearanceSettings) : fields :=
  [("accentColor", JStr (as_accentColor a)); ("accentColorCustom", JStr (as_accentColorCustom a));
   ("cursorBlink", JBool (as_cursorBlink a)); ("cursorStyle", JStr (as_cursorStyle a)); ("density", JStr (as_density a));
   ("iconSize", JStr (as_iconSize a)); ("rememberPaneWidths", JBool (as_rememberPaneWidths a));
   ("terminalFontCustom", JStr (as_terminalFontCustom a)); ("terminalFontMode", JStr (as_terminalFontMode a));
   ("terminalFontPreset", JStr (as_terminalFontPreset a)); ("terminalFontSize", json_z (as_terminalFontSize a));
   ("themeMode", JStr (as_themeMode a)); ("uiFontCustom", JStr (as_uiFontCustom a)); ("uiFontMode", JStr (as_uiFontMode a));
   ("uiFontPreset", JStr (as_uiFontPreset a)); ("uiFontSize", json_z (as_uiFontSize a));
   ("windowMaterial", JStr (as_windowMaterial a))].

Definition command_fields (recordTerminalInputHistory : bool) : fields :=
  [("recordTerminalInputHistory", JBool recordTerminalInputHistory)].
Definition shortcuts_fields (bindings : shortcut_table) : fields := [("bindings", table_json bindings)].
Definition theme_fields (scheme : string) : fields := [("scheme", JStr scheme)].

(** The sections of the settings, as objects. *)
Definition settings_fields (s : MxtermSettings) : list (string * fields) :=
  [("appearance", appearance_fields (st_appearance s)); ("basic", basic_fields (st_basic s));
   ("command", command_fields (st_command s)); ("fileTransfer", file_transfer_fields (st_fileTransfer s));
   ("localTerminal", local_terminal_fields (st_localTerminal s)); ("security", security_fields (st_security s));
   ("shortcuts", shortcuts_fields (st_shortcuts s)); ("terminalTheme", theme_fields (st_terminalTheme s))].

Definition sections_json (sections : list (string * fields)) : json := JObj ((λ e, (e.1, JObj e.2)) <$> sections).

Definition settings_json (s : MxtermSettings) : json := sections_json (settings_fields s).

(** ** The hook ([useSettings]) *)

(** [{...section, ...update}]. *)
Definition merge_fields (section update : fields) : fields := foldl (λ o e, jsmap_set e.1 e.2 o) section update.

(** The eight updates: one section is merged with the update, and everything is
    normalized. *)
Definition updateSection (name : string) (update : fields) (settings : MxtermSettings) : MxtermSettings :=
  normalizeSettings (Some (sections_json
    ((λ e, (e.1, if decide (e.1 = name) then merge_fields e.2 update else e.2)) <$> settings_fields settings))).

Inductive SettingsEvent :=
  | StUpdate (name : string) (update : fields)
  | StReset.

Definition settings_step (settings : MxtermSettings) (event : SettingsEvent) : MxtermSettings :=
  match event with
  | StUpdate name update => updateSection name update settings
  | StReset => defaultSettings
  end.

Section startup.
(** [JSON.parse], which may throw. *)
Context (parse : string → option json).

(** [readStartupSettings] in a window, from what is stored. *)
Definition readStartupSettings (stored : option string) : MxtermSettings :=
  match parse (default "" (stored ||? Some "null")) with
  | Some value => normalizeSettings (Some value)
  | None => defaultSettings
  end.
End startup.

(** ** Fields of literal objects *)

Lemma field_eq k v o : field ((k, v) :: o) k = Some v.
Proof. unfold field. cbn. by rewrite decide_True. Qed.

Lemma field_ne k k' v o : k ≠ k' → field ((k', v) :: o) k = field o k.
Proof. intros Hk. unfold field. cbn. by rewrite decide_False. Qed.

Ltac read_fields := repeat first [rewrite field_eq | rewrite field_ne by discriminate].

(** ** Strings *)

Definition chars_of (s : string) : list ascii := String.list_ascii_of_string s.

Lemma chars_inj s t : chars_of s = chars_of t → s = t.
Proof.
  unfold chars_of. intros H. rewrite <- (String.string_of_list_ascii_of_string s), H. apply String.string_of_list_ascii_of_string.
Qed.

Lemma chars_of_list l : chars_of (String.string_of_list_ascii l) = l.
Proof. apply String.list_ascii_of_string_of_list_ascii. Qed.

Lemma length_chars s : length (chars_of s) = String.length s.
Proof. unfold chars_of. induction s as [|c s IH]; [done|]. cbn. by rewrite IH. Qed.

Lemma map_string_id f s : (∀ c, c ∈ chars_of s → f c = c) → map_string f s = s.
Proof.
  intros H. apply chars_inj. unfold map_string. rewrite chars_of_list. fold (chars_of s).
  induction (chars_of s) as [|c l IH]; [done|]. cbn. rewrite H by left. f_equal. apply IH. intros x Hx. apply H. by right.
Qed.

Lemma filter_string_id f s : (∀ c, c ∈ chars_of s → f c = true) → filter_string f s = s.
Proof.
  intros H. apply chars_inj. unfold filter_string. rewrite chars_of_list. fold (chars_of s). by apply filter_all.
Qed.

Lemma trim_chars s : sublist (chars_of (trim_string s)) (chars_of s).
Proof. unfold trim_string. rewrite chars_of_list. apply js_trim_sublist. Qed.

Lemma trim_length s : String.length (trim_string s) ≤ String.length s.
Proof. rewrite <- !length_chars. apply sublist_length, trim_chars. Qed.

Lemma trim_elem c s : c ∈ chars_of (trim_string s) → c ∈ chars_of s.
Proof. intros Hc. eapply (sublist_subseteq _ _ (trim_chars s)), Hc. Qed.

(** ** Values that loading leaves alone *)

Lemma boolean_stable b fallback : normalizeBoolean (Some (JBool b)) fallback = b.
Proof. done. Qed.

Lemma number_stable z allowed fallback : z ∈ allowed → normalizeNumber (Some (json_z z)) allowed fallback = z.
Proof. intros Hz. unfold normalizeNumber, json_z. by rewrite q_integer_inject, decide_True. Qed.

Lemma number_allowed v allowed fallback : fallback ∈ allowed → normalizeNumber v allowed fallback ∈ allowed.
Proof. intros Hf. unfold normalizeNumber. by repeat case_match. Qed.

Lemma one_of_stable s allowed fallback : s ∈ allowed → normalizeOneOf (Some (JStr s)) allowed fallback = s.
Proof. intros Hs. cbn. by rewrite decide_True. Qed.

Lemma one_of_allowed v allowed fallback : fallback ∈ allowed → normalizeOneOf v allowed fallback ∈ allowed.
Proof. intros Hf. unfold normalizeOneOf. by repeat case_match. Qed.

(** A font stack: what it may hold, and that trimming it changes nothing. *)
Record font_ok (s : string) : Prop := {
  fo_length : 0 < String.length s ≤ 180;
  fo_chars : ∀ c, c ∈ chars_of s → breaks_css c = false;
}.

Lemma font_typed v fallback : font_ok fallback → font_ok (normalizeFontFamilyInput v fallback).
Proof.
  intros Hf. unfold normalizeFontFamilyInput. destruct v as [[]|]; try done. cbv zeta.
  destruct (_ && _) eqn:E; [|done]. apply andb_true_iff in E as [E1%Nat.ltb_lt E2%Nat.leb_le]. split; [done|].
  unfold map_string. rewrite chars_of_list. intros c (x & -> & _)%list_elem_of_fmap. by destruct (breaks_css x) eqn:Ex.
Qed.

Lemma font_trimmed s fallback :
  font_ok s → normalizeFontFamilyInput (Some (JStr s)) fallback = if decide (trim_string s = "") then fallback else trim_string s.
Proof.
  intros [[_ Hl] Hc]. unfold normalizeFontFamilyInput. cbv zeta. rewrite map_string_id.
  2: { intros c Hin%trim_elem. by rewrite Hc. }
  pose proof (trim_length s). case_decide as He; [by rewrite He|].
  assert (0 < String.length (trim_string s)) as Hpos.
  { destruct (String.length (trim_string s)) eqn:E; [|lia]. by apply string_length_zero in E. }
  rewrite (proj2 (Nat.ltb_lt _ _) Hpos), (proj2 (Nat.leb_le _ _)); [done|lia].
Qed.

Record path_input_ok (s : string) : Prop := {
  po_length : String.length s ≤ 260;
  po_chars : ∀ c, c ∈ chars_of s → breaks_path c = false;
}.

Lemma path_typed v fallback : path_input_ok fallback → path_input_ok (normalizePathInput v fallback).
Proof.
  intros Hf. unfold normalizePathInput. destruct v as [[]|]; try done. cbv zeta.
  case_match eqn:E; [|done]. apply Nat.leb_le in E. split; [done|].
  unfold filter_string. rewrite chars_of_list. intros c [Hc _]%list_elem_of_filter. by apply negb_true_iff.
Qed.

Lemma path_trimmed s fallback : path_input_ok s → normalizePathInput (Some (JStr s)) fallback = trim_string s.
Proof.
  intros [Hl Hc]. unfold normalizePathInput. cbv zeta. rewrite filter_string_id.
  2: { intros c Hin%trim_elem. by rewrite Hc. }
  pose proof (trim_length s). rewrite (proj2 (Nat.leb_le _ _)); [done|lia].
Qed.

(** A colour as it is kept: a hash and six upper-case digits. *)
Definition color_ok (s : string) : Prop :=
  ∃ digits, chars_of s = "#"%char :: digits ∧ length digits = 6 ∧ Forall (λ c, is_hex c = true ∧ upper_hex c = c) digits.

Lemma hex_value_range c n : hex_value c = Some n → (0 ≤ n < 16)%Z.
Proof.
  unfold hex_value. repeat case_match; intros [= <-]; repeat match goal with
    | H : (_ && _)%Z = true |- _ => apply andb_true_iff in H as [?%Z.leb_le ?%Z.leb_le] end; lia.
Qed.

Lemma hex_digit_value n : (0 ≤ n < 16)%Z → hex_value (hex_digit n) = Some n.
Proof.
  intros Hn. assert (n ∈ (seqZ 0 16)) as Hin by (apply elem_of_seqZ; lia). clear Hn. revert n Hin.
  apply Forall_forall. vm_decide.
Qed.

Lemma upper_hex_ok c : is_hex c = true → is_hex (upper_hex c) = true ∧ upper_hex (upper_hex c) = upper_hex c.
Proof.
  unfold is_hex, upper_hex. destruct (hex_value c) as [n|] eqn:E; [|done]. intros _.
  rewrite hex_digit_value by by eapply hex_value_range. done.
Qed.

Lemma upper_hex_idem_list digits :
  forallb is_hex digits = true → Forall (λ c, is_hex c = true ∧ upper_hex c = c) (upper_hex <$> digits).
Proof.
  rewrite forallb_forall. intros H. apply Forall_fmap, Forall_forall. intros c Hc%list_elem_of_In%H.
  by apply upper_hex_ok.
Qed.

Lemma color_typed v fallback : color_ok fallback → color_ok (normalizeHexColor v fallback).
Proof.
  intros Hf. unfold normalizeHexColor. destruct v as [[| | |s| |]|]; try done.
  destruct (String.list_ascii_of_string (trim_string s)) as [|h digits] eqn:E; [done|].
  destruct (_ && _) eqn:Eh; [|done]. apply andb_true_iff in Eh as [_ Hd%upper_hex_idem_list].
  destruct (upper_hex <$> digits) as [|a [|b [|c [|d [|e [|f [|]]]]]]]; try done.
  - exists [a; a; b; b; c; c]. rewrite chars_of_list. split_and!; [done|done|].
    rewrite !Forall_cons in *. tauto.
  - exists [a; b; c; d; e; f]. rewrite chars_of_list. done.
Qed.

Lemma color_trim s : color_ok s → trim_string s = s.
Proof.
  intros (digits & Hs & Hlen & Hd). apply chars_inj. unfold trim_string. rewrite chars_of_list. fold (chars_of s).
  rewrite Hs. apply js_trim_id; [done|]. rewrite last_cons. destruct (last digits) as [c|] eqn:El; [|done].
  apply last_Some_elem_of in El. rewrite Forall_forall in Hd. destruct (Hd c El) as [Hx _]. unfold ends_ok.
  destruct (is_space c) eqn:Es; [|done]. exfalso. revert Hx Es. clear.
  destruct c as [[][][][][][][][]]; vm_compute; congruence.
Qed.

Lemma color_stable s fallback : color_ok s → normalizeHexColor (Some (JStr s)) fallback = s.
Proof.
  intros Hok. pose proof (color_trim s Hok) as Ht. destruct Hok as (digits & Hs & Hlen & Hd).
  unfold normalizeHexColor. rewrite Ht. fold (chars_of s). rewrite Hs, bool_decide_true by done.
  assert (forallb is_hex digits = true) as ->.
  { apply forallb_forall. intros c Hc%list_elem_of_In. rewrite Forall_forall in Hd. by apply Hd. }
  assert (upper_hex <$> digits = digits) as ->.
  { clear - Hd. induction Hd as [|c l [_ Hc] Hl IH]; [done|]. cbn. by rewrite Hc, IH. }
  cbn [andb]. destruct digits as [|a [|b [|c [|d [|e [|f [|]]]]]]]; try done.
  apply chars_inj. by rewrite chars_of_list.
Qed.

(** Channels get lighter. *)
Lemma mix_bounds channel : (0 ≤ channel ≤ 255 → channel ≤ mix channel ≤ 255)%Z.
Proof.
  intros Hc. assert (channel ∈ seqZ 0 256) as Hin by (apply elem_of_seqZ; lia). clear Hc. revert channel Hin.
  apply Forall_forall. vm_decide.
Qed.

Lemma mix_range channel : (0 ≤ channel ≤ 255 → 0 ≤ mix channel ≤ 255)%Z.
Proof. intros Hc. pose proof (mix_bounds channel Hc). lia. Qed.

Lemma hex_pair_ok n :
  (0 ≤ n ≤ 255)%Z → Forall (λ c, is_hex c = true ∧ upper_hex c = c) (hex_pair n) ∧
    ∀ a b, hex_pair n = [a; b] → parse_pair a b = n.
Proof.
  intros Hn. pose proof (Z.div_mod n 16 ltac:(done)) as Hdm. pose proof (Z.mod_pos_bound n 16 ltac:(done)) as Hm.
  assert (0 ≤ n / 16 < 16)%Z as Hd by (set (q := (n / 16)%Z) in *; set (r := (n mod 16)%Z) in *; lia).
  assert (∀ k, (0 ≤ k < 16)%Z → is_hex (hex_digit k) = true ∧ upper_hex (hex_digit k) = hex_digit k) as Hk.
  { intros k Hk. unfold is_hex, upper_hex. by rewrite hex_digit_value. }
  split; [repeat constructor; by apply Hk|]. intros a b [= <- <-]. unfold parse_pair.
  rewrite !hex_digit_value by done. cbn [from_option id]. lia.
Qed.

Lemma parse_pair_bounds a b : is_hex a = true → is_hex b = true → (0 ≤ parse_pair a b ≤ 255)%Z.
Proof.
  unfold is_hex, parse_pair. destruct (hex_value a) as [n|] eqn:Ea; [|done]. destruct (hex_value b) as [m|] eqn:Eb; [|done].
  intros _ _. apply hex_value_range in Ea, Eb. cbn. lia.
Qed.

(** Dark accent colours are colours as well. *)
Lemma dark_accent_ok s : color_ok (createDarkAccentColor s).
Proof.
  unfold createDarkAccentColor. set (light := normalizeHexColor _ _).
  assert (color_ok light) as (digits & Hs & Hlen & Hd).
  { apply color_typed. by exists ["2"; "3"; "7"; "4"; "C"; "6"]%char; repeat constructor. }
  fold (chars_of light). rewrite Hs. destruct digits as [|r1 [|r2 [|g1 [|g2 [|b1 [|b2 [|]]]]]]]; try done.
  rewrite !Forall_cons in Hd. destruct Hd as ([? _] & [? _] & [? _] & [? _] & [? _] & [? _] & _).
  eexists. rewrite chars_of_list. split; [reflexivity|]. split; [reflexivity|].
  rewrite !Forall_app. split_and!; apply hex_pair_ok; apply mix_range; by apply parse_pair_bounds.
Qed.

(** ** Strings and lists that are trimmed *)

Lemma trim_nonempty s : trim_string s ≠ "" → 0 < String.length (trim_string s).
Proof. intros Hne. destruct (String.length (trim_string s)) eqn:E; [|lia]. by apply string_length_zero in E. Qed.

Lemma optional_stable v :
  normalizeOptionalString (Some (json_opt (normalizeOptionalString v None))) None = normalizeOptionalString v None.
Proof.
  unfold normalizeOptionalString at 2 3. destruct v as [[| | |s| |]|]; try done.
  destruct (0 <? String.length (trim_string s)) eqn:E; [|done]. cbn [json_opt]. unfold normalizeOptionalString.
  by rewrite trim_string_idem, E.
Qed.

Lemma omap_json_strings (l : list string) : omap json_string (JStr <$> l) = l.
Proof. induction l as [|s l IH]; [done|]. cbn. by rewrite IH. Qed.

Lemma trimmed_list_id (l : list string) : Forall (λ s, trim_string s = s) l → trim_string <$> l = l.
Proof. induction 1 as [|s l Hs Hl IH]; [done|]. cbn. by rewrite Hs, IH. Qed.

Lemma string_array_typed v : Forall (λ s, trim_string s = s ∧ s ≠ "") (normalizeStringArray v).
Proof.
  unfold normalizeStringArray. destruct v as [[]|]; try constructor. apply Forall_forall.
  intros s [Hne (t & -> & _)%list_elem_of_fmap]%list_elem_of_filter. split; [apply trim_string_idem|done].
Qed.

Lemma string_array_stable (l : list string) :
  Forall (λ s, trim_string s = s ∧ s ≠ "") l → normalizeStringArray (Some (JArr (JStr <$> l))) = l.
Proof.
  intros Hl. unfold normalizeStringArray. rewrite omap_json_strings, trimmed_list_id.
  - apply filter_all. intros s Hs. rewrite Forall_forall in Hl. by apply Hl.
  - eapply Forall_impl; [exact Hl|]. by intros s [? _].
Qed.

(** ** Profiles *)

Definition trimmed (s : string) : Prop := trim_string s = s ∧ s ≠ "".

Record profile_ok (p : LocalTerminalProfileInput) : Prop := {
  pk_name : trimmed (lp_name p);
  pk_kind : trimmed (lp_kind p);
  pk_command : trimmed (lp_command p);
  pk_platform : trimmed (lp_platform p);
  pk_source : trimmed (lp_source p);
  pk_icon : trimmed (lp_icon p);
  pk_id : ∀ id, lp_id p = Some id → trimmed id;
  pk_cwd : ∀ cwd, lp_cwd p = Some cwd → trimmed cwd;
  pk_env : NoDup (lp_env p).*1 ∧ Forall (λ e, trim_string e.2 = e.2) (lp_env p);
}.

Lemma trimmed_or_empty_trim v : trim_string (trimmed_or_empty v) = trimmed_or_empty v.
Proof. destruct v as [[]|]; try done. apply trim_string_idem. Qed.

Lemma trimmed_default v d : trimmed d → trimmed (default d (nonempty (trimmed_or_empty v))).
Proof.
  intros Hd. destruct (nonempty (trimmed_or_empty v)) as [s|] eqn:E; [|done]. apply nonempty_Some in E as [-> Hne].
  split; [apply trimmed_or_empty_trim|done].
Qed.

Lemma trimmed_nonempty v s : nonempty (trimmed_or_empty v) = Some s → trimmed s.
Proof. intros [-> Hne]%nonempty_Some. split; [apply trimmed_or_empty_trim|done]. Qed.

Lemma nonempty_trimmed s : trimmed s → nonempty (trimmed_or_empty (Some (JStr s))) = Some s.
Proof. intros [Ht Hne]. cbn. rewrite Ht. by apply nonempty_Some. Qed.

Lemma jsmap_set_elem {V} k (v : V) m e : e ∈ jsmap_set k v m → e = (k, v) ∨ e ∈ m.
Proof.
  induction m as [|[k' v'] m IH]; cbn [jsmap_set]; [rewrite list_elem_of_singleton; by left|].
  case_decide; rewrite !elem_of_cons; [subst; tauto|]. intros [?|He]; [tauto|]. apply IH in He. tauto.
Qed.

Lemma jsmap_of_entries_elem {V} (es : list (string * V)) e : e ∈ jsmap_of_entries es → e ∈ es.
Proof.
  unfold jsmap_of_entries. assert (∀ acc : jsmap V,
    e ∈ foldl (λ m x, jsmap_set x.1 x.2 m) acc es → e ∈ acc ∨ e ∈ es) as Hg.
  { induction es as [|[k v] es IH]; intros acc Hin; [by left|]. cbn in Hin. rewrite elem_of_cons.
    apply IH in Hin as [Hin|Hin]; [|auto]. apply jsmap_set_elem in Hin as [->|Hin]; auto. }
  intros [?%not_elem_of_nil|?]%Hg; done.
Qed.

Lemma env_typed v : NoDup (normalizeEnv v).*1 ∧ Forall (λ e, trim_string e.2 = e.2) (normalizeEnv v).
Proof.
  unfold normalizeEnv. set (es := omap _ _). split; [apply jsmap_of_entries_keys|].
  apply Forall_forall. intros e He%jsmap_of_entries_elem.
  apply list_elem_of_omap in He as (x & _ & Hx). destruct (json_string x.2) as [s|]; [|done].
  injection Hx as <-. apply trim_string_idem.
Qed.

Lemma env_stable (m : jsmap string) :
  NoDup m.*1 → Forall (λ e, trim_string e.2 = e.2) m → normalizeEnv (Some (entries_json JStr m)) = m.
Proof.
  intros Hnd Hm. unfold normalizeEnv. cbn [record_fields entries_json].
  assert (omap (λ e : string * json, (λ s, (e.1, trim_string s)) <$> json_string e.2) ((λ e : string * string, (e.1, JStr e.2)) <$> m) = m) as ->.
  { clear Hnd. induction Hm as [|[k s] m Hs Hm IH]; [done|]. cbn. cbn in Hs. by rewrite Hs, IH. }
  by apply jsmap_of_entries_id.
Qed.

(** A profile that is kept is well formed, and is kept as it is the next time. *)
Lemma profile_typed v p : normalizeLocalTerminalProfile v = Some p → profile_ok p.
Proof.
  unfold normalizeLocalTerminalProfile. destruct v as [| | | | |o]; try done. cbv zeta. case_decide as Hd; [done|].
  intros [= <-]. split; cbn; try solve [by apply trimmed_default|by apply trimmed_nonempty].
  1-3: split; [apply trimmed_or_empty_trim|naive_solver].
  apply env_typed.
Qed.

Lemma profile_stable p : profile_ok p → normalizeLocalTerminalProfile (profile_json p) = Some p.
Proof.
  intros [Hn Hk Hc Hp Hs Hi Hid Hcwd [He1 He2]]. unfold normalizeLocalTerminalProfile, profile_json.
  set (tail := match lp_id p with Some id => [("id", JStr id)] | None => [] end). cbn [app]. read_fields.
  assert (nonempty (trimmed_or_empty (field tail "id")) = lp_id p) as ->.
  { unfold tail. destruct (lp_id p) as [id|]; [|done]. rewrite field_eq. by apply nonempty_trimmed, Hid. }
  assert (nonempty (trimmed_or_empty (Some (json_opt (lp_cwd p)))) = lp_cwd p) as ->.
  { destruct (lp_cwd p) as [cwd|]; [|done]. by apply nonempty_trimmed, Hcwd. }
  rewrite !nonempty_trimmed, env_stable, omap_json_strings by done. cbn [trimmed_or_empty].
  destruct Hn as [-> ?], Hk as [-> ?], Hc as [-> ?]. cbv zeta. rewrite decide_False by tauto. by destruct p.
Qed.

(** ** Sections that are well formed *)

Definition optional_ok (o : option string) : Prop := ∀ s, o = Some s → trimmed s.

Record basic_ok (b : BasicSettings) : Prop := {
  bk_locale : bs_locale b ∈ ["system"; "en"; "zh-CN"];
  bk_mode : bs_remoteFileOpenMode b ∈ ["split"; "unified"];
  bk_limit : bs_recentConnectionLimit b ∈ [5; 10; 15; 20; 30; 50]%Z;
}.

Record file_transfer_ok (f : FileTransferSettings) : Prop := {
  fk_policy : fs_conflictPolicyDefault f ∈ ["ask"; "overwrite"; "skip"; "rename"];
  fk_transfers : (1 ≤ fs_concurrentTransfers f ≤ 10)%Z;
  fk_root : path_input_ok (fs_downloadRoot f);
  fk_format : fs_timestampFormat f ∈ ["yyyyMMddHHmm"; "yyyyMMdd-HHmm"; "yyyy-MM-dd-HHmm"];
}.

Record local_terminal_ok (l : LocalTerminalSettings) : Prop := {
  lk_default : optional_ok (ls_defaultProfileId l);
  lk_hidden : Forall trimmed (ls_hiddenProfileIds l);
  lk_profiles : Forall profile_ok (ls_customProfiles l);
}.

Definition security_ok (s : SecuritySettings) : Prop := ss_autoLockMinutes s ∈ [0; 5; 15; 30; 60]%Z.

Record appearance_ok (a : AppearanceSettings) : Prop := {
  ak_accent : as_accentColor a ∈ accentColors;
  ak_custom : color_ok (as_accentColorCustom a);
  ak_cursor : as_cursorStyle a ∈ ["block"; "bar"; "underline"];
  ak_density : as_density a ∈ ["comfortable"; "compact"];
  ak_icons : as_iconSize a ∈ ["small"; "medium"; "large"];
  ak_terminal_font : font_ok (as_terminalFontCustom a);
  ak_terminal_mode : as_terminalFontMode a ∈ ["preset"; "custom"];
  ak_terminal_preset : as_terminalFontPreset a ∈ terminalFontPresets.*1;
  ak_terminal_size : (12 ≤ as_terminalFontSize a ≤ 16)%Z;
  ak_theme : as_themeMode a ∈ ["system"; "light"; "dark"];
  ak_ui_font : font_ok (as_uiFontCustom a);
  ak_ui_mode : as_uiFontMode a ∈ ["preset"; "custom"];
  ak_ui_preset : as_uiFontPreset a ∈ uiFontPresets.*1;
  ak_ui_size : (12 ≤ as_uiFontSize a ≤ 15)%Z;
  ak_material : as_windowMaterial a ∈ ["auto"; "mica"; "acrylic"; "micaAlt"; "macosGlass"];
}.

Record settings_ok (s : MxtermSettings) : Prop := {
  sk_appearance : appearance_ok (st_appearance s);
  sk_basic : basic_ok (st_basic s);
  sk_fileTransfer : file_transfer_ok (st_fileTransfer s);
  sk_localTerminal : local_terminal_ok (st_localTerminal s);
  sk_security : security_ok (st_security s);
  sk_shortcuts : table_ok (st_shortcuts s);
  sk_terminalTheme : trim_string (st_terminalTheme s) ≠ "";
}.

Ltac one_of_values := apply one_of_allowed; vm_decide.

Lemma number_between v lo hi fallback :
  (lo ≤ fallback ≤ hi)%Z → (lo ≤ normalizeNumber v (seqZ lo (hi - lo + 1)) fallback ≤ hi)%Z.
Proof.
  intros Hf. assert (normalizeNumber v (seqZ lo (hi - lo + 1)) fallback ∈ seqZ lo (hi - lo + 1)) as Hin%elem_of_seqZ
    by (apply number_allowed, elem_of_seqZ; lia). lia.
Qed.

Lemma between_elem z lo hi : (lo ≤ z ≤ hi)%Z → z ∈ seqZ lo (hi - lo + 1).
Proof. intros Hz. apply elem_of_seqZ. lia. Qed.

Lemma default_font_ok : font_ok defaultTerminalFontCustom ∧ font_ok defaultUiFontCustom.
Proof.
  split; (split; [split; apply Nat.leb_le; reflexivity|]; apply Forall_forall; vm_decide).
Qed.

Lemma default_color_ok : color_ok defaultAccentColorCustom.
Proof. exists ["2"; "3"; "7"; "4"; "C"; "6"]%char. by repeat constructor. Qed.

Lemma appearance_typed o : appearance_ok (normalizeAppearance o).
Proof.
  destruct default_font_ok as [Ht Hu]. pose proof default_color_ok as Hc.
  split; cbn -[normalizeOneOf normalizeNumber terminalFontPresets uiFontPresets accentColors];
    try one_of_values; try by apply font_typed.
  - by apply color_typed.
  - by apply (number_between _ 12 16).
  - by apply (number_between _ 12 15).
Qed.

Lemma basic_typed o : basic_ok (normalizeBasic o).
Proof. split; cbn -[normalizeOneOf normalizeNumber]; try one_of_values. apply number_allowed. vm_decide. Qed.

Lemma file_transfer_typed o : file_transfer_ok (normalizeFileTransfer o).
Proof.
  split; cbn -[normalizeOneOf normalizeNumber]; try one_of_values; [by apply (number_between _ 1 10)|].
  apply path_typed. split; [cbn; lia|]. intros c Hc. by apply elem_of_nil in Hc.
Qed.

Lemma optional_typed v : optional_ok (normalizeOptionalString v None).
Proof.
  unfold normalizeOptionalString. intros s. destruct v as [[| | |t| |]|]; try done.
  destruct (0 <? String.length (trim_string t)) eqn:E; [|done]. intros [= <-]. split; [apply trim_string_idem|].
  by intros He; rewrite He in E.
Qed.

Lemma local_terminal_typed o : local_terminal_ok (normalizeLocalTerminal o).
Proof.
  split; cbn.
  - apply optional_typed.
  - apply string_array_typed.
  - unfold normalizeLocalTerminalProfiles. destruct (field o "customProfiles") as [[]|]; try constructor.
    apply Forall_forall. intros p (v & _ & Hv)%list_elem_of_omap. by eapply profile_typed.
Qed.

Lemma security_typed o : security_ok (normalizeSecurity o).
Proof. apply number_allowed. vm_decide. Qed.

Lemma theme_typed o : trim_string (normalizeTerminalTheme o) ≠ "".
Proof.
  unfold normalizeTerminalTheme. destruct (field o "scheme") as [[| | |s| |]|]; try done.
  destruct (0 <? String.length (trim_string s)) eqn:E; [|done]. by intros He; rewrite He in E.
Qed.

Lemma settings_typed v : settings_ok (normalizeSettings v).
Proof.
  split; cbn -[normalizeShortcuts]; [apply appearance_typed|apply basic_typed|apply file_transfer_typed|
    apply local_terminal_typed|apply security_typed|apply load_table_ok|apply theme_typed].
Qed.

(** ** Loading what was stored

    Text that was cleaned may have kept a blank at its ends; loading it again trims it. *)

Definition settle_font (fallback font : string) : string :=
  if decide (trim_string font = "") then fallback else trim_string font.

Definition settle (s : MxtermSettings) : MxtermSettings :=
  let a := st_appearance s in
  let f := st_fileTransfer s in
  mkSettings
    (mkAppearance (as_accentColor a) (as_accentColorCustom a) (as_cursorBlink a) (as_cursorStyle a) (as_density a)
       (as_iconSize a) (as_rememberPaneWidths a) (settle_font defaultTerminalFontCustom (as_terminalFontCustom a))
       (as_terminalFontMode a) (as_terminalFontPreset a) (as_terminalFontSize a) (as_themeMode a)
       (settle_font defaultUiFontCustom (as_uiFontCustom a)) (as_uiFontMode a) (as_uiFontPreset a) (as_uiFontSize a)
       (as_windowMaterial a))
    (st_basic s) (st_command s)
    (mkFileTransfer (fs_conflictPolicyDefault f) (fs_concurrentTransfers f) (trim_string (fs_downloadRoot f))
       (fs_groupBySession f) (fs_compressDirectories f) (fs_keepArchives f) (fs_timestampDirectory f) (fs_timestampFormat f))
    (st_localTerminal s) (st_security s) (st_shortcuts s) (st_terminalTheme s).

Lemma settle_font_idem d f : trim_string d = d → settle_font d (settle_font d f) = settle_font d f.
Proof.
  intros Hd. unfold settle_font. destruct (decide (trim_string f = "")) as [He|He].
  - case_decide; [done|exact Hd].
  - by rewrite trim_string_idem, decide_False.
Qed.

Lemma settle_idem s : settle (settle s) = settle s.
Proof.
  unfold settle. cbn -[settle_font trim_string defaultTerminalFontCustom defaultUiFontCustom].
  by rewrite !settle_font_idem, trim_string_idem by vm_decide.
Qed.

Lemma number_between_stable z lo hi fallback :
  (lo ≤ z ≤ hi)%Z → normalizeNumber (Some (json_z z)) (seqZ lo (hi - lo + 1)) fallback = z.
Proof. intros Hz. by apply number_stable, between_elem. Qed.

Lemma optional_id o : optional_ok o → normalizeOptionalString (Some (json_opt o)) None = o.
Proof.
  destruct o as [s|]; [|done]. intros Ho. destruct (Ho s eq_refl) as [Ht Hne]. unfold normalizeOptionalString, json_opt. rewrite Ht.
  pose proof (trim_nonempty s) as Hl. rewrite Ht in Hl. by rewrite (proj2 (Nat.ltb_lt _ _) (Hl Hne)).
Qed.

Lemma appearance_stable a :
  appearance_ok a → normalizeAppearance (appearance_fields a) =
    st_appearance (settle (mkSettings a (st_basic defaultSettings) false (st_fileTransfer defaultSettings)
      (st_localTerminal defaultSettings) (st_security defaultSettings) [] "")).
Proof.
  intros [Haccent Hcustom Hcursor Hdensity Hicons Htf Htm Htp Hts Htheme Huf Hum Hup Hus Hmaterial].
  unfold normalizeAppearance, appearance_fields. read_fields. cbv zeta.
  rewrite !one_of_stable, color_stable, !font_trimmed by done. cbn [normalizeBoolean].
  by rewrite (number_between_stable _ 12 16), (number_between_stable _ 12 15) by done.
Qed.

Lemma basic_stable b : basic_ok b → normalizeBasic (basic_fields b) = b.
Proof.
  intros [Hl Hm Hr]. unfold normalizeBasic, basic_fields. read_fields. cbv zeta.
  rewrite !one_of_stable, number_stable by done. by destruct b.
Qed.

Lemma file_transfer_stable f :
  file_transfer_ok f → normalizeFileTransfer (file_transfer_fields f) =
    mkFileTransfer (fs_conflictPolicyDefault f) (fs_concurrentTransfers f) (trim_string (fs_downloadRoot f))
      (fs_groupBySession f) (fs_compressDirectories f) (fs_keepArchives f) (fs_timestampDirectory f) (fs_timestampFormat f).
Proof.
  intros [Hp Hn Hr Hf]. unfold normalizeFileTransfer, file_transfer_fields. read_fields. cbv zeta.
  rewrite !one_of_stable, path_trimmed by done. by rewrite (number_between_stable _ 1 10) by done.
Qed.

Lemma local_terminal_stable l : local_terminal_ok l → normalizeLocalTerminal (local_terminal_fields l) = l.
Proof.
  intros [Hd Hh Hp]. unfold normalizeLocalTerminal, local_terminal_fields. read_fields. cbv zeta.
  rewrite string_array_stable by done. cbn [normalizeLocalTerminalProfiles ls_defaultProfileId st_localTerminal defaultSettings].
  rewrite optional_id by done.
  assert (omap normalizeLocalTerminalProfile (profile_json <$> ls_customProfiles l) = ls_customProfiles l) as ->.
  { induction Hp as [|p ps Hp1 Hps IH]; [done|]. cbn -[normalizeLocalTerminalProfile profile_json].
    by rewrite profile_stable, IH. }
  by destruct l.
Qed.

Lemma security_stable s : security_ok s → normalizeSecurity (security_fields s) = s.
Proof.
  intros Hs. unfold normalizeSecurity, security_fields. read_fields. cbv zeta. rewrite number_stable by done. by destruct s.
Qed.

Lemma theme_stable t : trim_string t ≠ "" → normalizeTerminalTheme (theme_fields t) = t.
Proof.
  intros Ht. unfold normalizeTerminalTheme, theme_fields. rewrite field_eq.
  by rewrite (proj2 (Nat.ltb_lt _ _) (trim_nonempty t Ht)).
Qed.

Section load_sections.
Context (s : MxtermSettings) (change : string → fields → fields).

(** Loading an object with the eight sections loads each. *)
Lemma load_sections :
  normalizeSettings (Some (sections_json ((λ e, (e.1, change e.1 e.2)) <$> settings_fields s))) =
  mkSettings (normalizeAppearance (change "appearance" (appearance_fields (st_appearance s))))
    (normalizeBasic (change "basic" (basic_fields (st_basic s))))
    (normalizeCommand (change "command" (command_fields (st_command s))))
    (normalizeFileTransfer (change "fileTransfer" (file_transfer_fields (st_fileTransfer s))))
    (normalizeLocalTerminal (change "localTerminal" (local_terminal_fields (st_localTerminal s))))
    (normalizeSecurity (change "security" (security_fields (st_security s))))
    (normalizeShortcuts (change "shortcuts" (shortcuts_fields (st_shortcuts s))))
    (normalizeTerminalTheme (change "terminalTheme" (theme_fields (st_terminalTheme s)))).
Proof.
  unfold normalizeSettings, sections_json, settings_fields. cbn [fmap list_fmap fst snd record_fields].
  cbv zeta. by read_fields.
Qed.
End load_sections.

Lemma shortcuts_stable t : table_ok t → normalizeShortcuts (shortcuts_fields t) = t.
Proof. intros Ht. unfold normalizeShortcuts, shortcuts_fields. rewrite field_eq. by apply table_ok_stable. Qed.

Lemma command_stable b : normalizeCommand (command_fields b) = b.
Proof. unfold normalizeCommand, command_fields. by rewrite field_eq. Qed.

Lemma update_load name update s :
  settings_ok s →
  updateSection name update s =
    let pick {A} section (new old : A) := if decide (section = name) then new else old in
    mkSettings
      (pick "appearance" (normalizeAppearance (merge_fields (appearance_fields (st_appearance s)) update)) (st_appearance (settle s)))
      (pick "basic" (normalizeBasic (merge_fields (basic_fields (st_basic s)) update)) (st_basic s))
      (pick "command" (normalizeCommand (merge_fields (command_fields (st_command s)) update)) (st_command s))
      (pick "fileTransfer" (normalizeFileTransfer (merge_fields (file_transfer_fields (st_fileTransfer s)) update))
        (st_fileTransfer (settle s)))
      (pick "localTerminal" (normalizeLocalTerminal (merge_fields (local_terminal_fields (st_localTerminal s)) update))
        (st_localTerminal s))
      (pick "security" (normalizeSecurity (merge_fields (security_fields (st_security s)) update)) (st_security s))
      (pick "shortcuts" (normalizeShortcuts (merge_fields (shortcuts_fields (st_shortcuts s)) update)) (st_shortcuts s))
      (pick "terminalTheme" (normalizeTerminalTheme (merge_fields (theme_fields (st_terminalTheme s)) update))
        (st_terminalTheme s)).
Proof.
  intros [Ha Hb Hf Hl Hs Ht Hth]. unfold updateSection.
  etransitivity; [exact (load_sections s (λ section o, if decide (section = name) then merge_fields o update else o))|]. cbv zeta.
  f_equal; (case_decide; [done|]); [by apply appearance_stable|by apply basic_stable|apply command_stable|by apply file_transfer_stable|
    by apply local_terminal_stable|by apply security_stable|by apply shortcuts_stable|by apply theme_stable].
Qed.

Lemma stored_load s : settings_ok s → normalizeSettings (Some (settings_json s)) = settle s.
Proof.
  intros [Ha Hb Hf Hl Hs Ht Hth]. unfold settings_json.
  etransitivity; [exact (load_sections s (λ _ o, o))|]. unfold settle.
  f_equal; [by apply appearance_stable|by apply basic_stable|by apply file_transfer_stable|
    by apply local_terminal_stable|by apply security_stable|by apply shortcuts_stable|by apply theme_stable].
Qed.

Lemma default_settings_normal : defaultSettings = normalizeSettings None.
Proof. vm_compute. reflexivity. Qed.

Lemma step_ok s event : settings_ok (settings_step s event).
Proof. destruct event; cbn -[defaultSettings]; [apply settings_typed|]. rewrite default_settings_normal. apply settings_typed. Qed.

Lemma steps_ok s events : settings_ok s → settings_ok (foldl settings_step s events).
Proof. revert s. induction events as [|e events IH]; intros s Hs; [done|]. cbn [foldl]. apply IH, step_ok. Qed.

Lemma startup_ok parse stored : settings_ok (readStartupSettings parse stored).
Proof.
  unfold readStartupSettings. destruct (parse _); [apply settings_typed|]. rewrite default_settings_normal. apply settings_typed.
Qed.

Lemma preset_font_ok presets value fallback :
  Forall font_ok presets.*2 → font_ok fallback → font_ok (preset_stack presets value fallback).
Proof.
  intros Hp Hf. unfold preset_stack, js_or. destruct (jsmap_get value presets) as [stack|] eqn:E; [|done].
  apply jsmap_get_elem in E. rewrite Forall_forall in Hp. pose proof (Hp stack (list_elem_of_fmap_2 snd _ _ E)) as Hs.
  by destruct (truthy (Some stack)).
Qed.

Lemma preset_stacks_ok : Forall font_ok uiFontPresets.*2 ∧ Forall font_ok terminalFontPresets.*2.
Proof.
  split; (eapply Forall_impl with (P := λ s, 0 < String.length s ≤ 180 ∧ Forall (λ c, breaks_css c = false) (chars_of s));
    [vm_decide|intros s [Hl Hc]; split; [done|by apply Forall_forall]]).
Qed.

Lemma fonts_resolved a : font_ok (resolveUiFontFamily a) ∧ font_ok (resolveTerminalFontFamily a).
Proof.
  destruct default_font_ok as [Ht Hu], preset_stacks_ok as [Hup Htp].
  split; [unfold resolveUiFontFamily|unfold resolveTerminalFontFamily]; (case_decide; [by apply font_typed|by apply preset_font_ok]).
Qed.

Lemma accents_resolved a : color_ok (resolveAccentColors a).1 ∧ color_ok (resolveAccentColors a).2.
Proof.
  pose proof default_color_ok as Hd. unfold resolveAccentColors.
  case_decide; [split; [by apply color_typed|apply dark_accent_ok]|].
  assert (Forall (λ e : string * (string * string), color_ok e.2.1 ∧ color_ok e.2.2) (accentColorPresets ++ legacyAccentColors)) as Hall.
  { repeat (apply Forall_cons; split; [split; (eexists; split; [reflexivity|by repeat constructor])|]). constructor. }
  rewrite Forall_forall in Hall.
  destruct (jsmap_get _ accentColorPresets) as [c|] eqn:E1; cbn [default].
  { apply jsmap_get_elem in E1. apply (Hall (as_accentColor a, c)). apply elem_of_app. by left. }
  destruct (jsmap_get _ legacyAccentColors) as [c|] eqn:E2; cbn [default].
  { apply jsmap_get_elem in E2. apply (Hall (as_accentColor a, c)). apply elem_of_app. by right. }
  split; [exact Hd|apply dark_accent_ok].
Qed.

(** ** Properties *)

(** C16: Settings always have the values that their types allow. Whatever was stored,
    readable or not, and after every sequence of updates (with values of any type) and
    resets: every choice is one of the choices offered and every number is within its
    bounds, the download directory and the fonts hold no character that breaks a path
    or a style and are not too long, the custom colour is a hash and six upper-case
    digits, profiles are complete and trimmed, each shortcut is absent or valid, and
    the terminal scheme is not blank. Whatever the custom fonts and colour are, what is
    shown are fonts that break no style and two colours of that form. *)
Theorem settings_always_typed parse stored events :
  (∀ value, settings_ok (normalizeSettings value)) ∧
  settings_ok (foldl settings_step (readStartupSettings parse stored) events) ∧
  (∀ appearance, as_accentColor appearance ∈ accentColors →
    font_ok (resolveUiFontFamily appearance) ∧ font_ok (resolveTerminalFontFamily appearance) ∧
    color_ok (resolveAccentColors appearance).1 ∧ color_ok (resolveAccentColors appearance).2 ∧
    resolveAccentColor appearance = (resolveAccentColors appearance).1).
Proof.
  split; [apply settings_typed|]. split; [apply steps_ok, startup_ok|].
  intros a _. destruct (fonts_resolved a), (accents_resolved a). by split_and!.
Qed.

(** What is stored comes back, and an update changes one section. From every state
    that the settings can reach: loading what was stored gives the same settings but
    for blanks at the ends of the two fonts and of the download directory, which are
    gone after one load; loading again then changes nothing more, and the next start
    reads exactly that. An update of a section gives that section merged with the
    update and cleaned, and leaves the seven others alone, but for those blanks. *)
Theorem settings_reload parse stored events :
  let s := foldl settings_step (readStartupSettings parse stored) events in
  normalizeSettings (Some (settings_json s)) = settle s ∧
  normalizeSettings (Some (settings_json (settle s))) = settle s ∧
  (∀ text, text ≠ "" → parse text = Some (settings_json s) → readStartupSettings parse (Some text) = settle s) ∧
  (∀ name update,
    updateSection name update s =
    let pick {A} section (new old : A) := if decide (section = name) then new else old in
    mkSettings
      (pick "appearance" (normalizeAppearance (merge_fields (appearance_fields (st_appearance s)) update)) (st_appearance (settle s)))
      (pick "basic" (normalizeBasic (merge_fields (basic_fields (st_basic s)) update)) (st_basic s))
      (pick "command" (normalizeCommand (merge_fields (command_fields (st_command s)) update)) (st_command s))
      (pick "fileTransfer" (normalizeFileTransfer (merge_fields (file_transfer_fields (st_fileTransfer s)) update))
        (st_fileTransfer (settle s)))
      (pick "localTerminal" (normalizeLocalTerminal (merge_fields (local_terminal_fields (st_localTerminal s)) update))
        (st_localTerminal s))
      (pick "security" (normalizeSecurity (merge_fields (security_fields (st_security s)) update)) (st_security s))
      (pick "shortcuts" (normalizeShortcuts (merge_fields (shortcuts_fields (st_shortcuts s)) update)) (st_shortcuts s))
      (pick "terminalTheme" (normalizeTerminalTheme (merge_fields (theme_fields (st_terminalTheme s)) update))
        (st_terminalTheme s))).
Proof.
  intros s. assert (settings_ok s) as Hs by apply steps_ok, startup_ok.
  pose proof (stored_load s Hs) as Hl. split; [done|]. split; [|split].
  - rewrite stored_load, settle_idem; [done|]. rewrite <- Hl. apply settings_typed.
  - intros text Ht Hp. unfold readStartupSettings. apply truthy_Some in Ht as Htr.
    unfold js_or. rewrite Htr. cbn [default from_option id]. by rewrite Hp.
  - intros name update. by apply update_load.
Qed.

(** A blank that was before a character that is dropped stays: the trimming comes
    first. The next load then changes the settings again. *)
Lemma blank_left_over :
  let v := JObj [("appearance", JObj [("uiFontCustom", JStr "Arial;")])] in
  as_uiFontCustom (st_appearance (normalizeSettings (Some v))) = "Arial " ∧
  as_uiFontCustom (st_appearance (normalizeSettings (Some (settings_json (normalizeSettings (Some v)))))) = "Arial".
Proof. by vm_compute. Qed.
