(* ===== verification/ConnectionInput.v ===== *)
(** * Connection inputs ([features/connections/useConnections.ts], [connectionTypes.ts])

    The data of connections and what [normalizeConnectionInput] makes of a form before
    it is sent to the backend, for the five protocols. Absent, null and undefined fields
    are [None]; a number that is absent or not a number is [None] as well. *)

From S2P Require Import Prelude RemotePaths Snapshot SnapshotCodec ShortcutKeys JumpPlan.
From Stdlib Require Import Lia Strings.Ascii.

#[local] Open Scope nat_scope.

(** ** Types *)

Inductive ConnectionProtocol := Ssh | Rdp | Vnc | Telnet | Serial.
Inductive ConnectionCredentialMode := ModeSaved | ModeInline | ModePrompt.
Inductive ConnectionProxyKind := ProxyNone | HttpConnect | Socks5.

Inductive RdpDisplayMode := DisplayEmbedded | DisplayWindowed | DisplayFullscreen | DisplayAllMonitors.
Inductive RdpAudioMode := AudioLocal | AudioRemote | AudioDisabled.
Inductive RdpGatewayMode := GatewayDisabled | GatewayAuto | GatewayExplicit.
Inductive RdpGatewayCredentialSource := SourceSame | SourcePrompt.
Inductive RdpPerformancePreset := RdpAuto | RdpLan | RdpBalanced | RdpLowBandwidth.
Inductive RdpSecurityCredentialMode := RdpPrompt | RdpSaved | RdpOsStore.
Inductive RdpNetworkLevelAuthentication := NlaAuto | NlaEnabled | NlaDisabled.
Inductive RdpCertificatePolicy := CertTrust | CertPrompt | CertStrict.
Inductive RdpRenderMode := RdpEmbedded | RdpExternal | RdpCustom.
Inductive RdpRunnerKind := MstscActivex | Mstsc | Freerdp | MacosApp | RdpRunnerCustom.

Inductive VncScaleMode := ScaleFit | ScaleStretch | ScaleActual.
Inductive VncPerformancePreset := VncAuto | VncQuality | VncBalanced | VncLowBandwidth.
Inductive VncSecurityCredentialMode := VncPrompt | VncSaved.
Inductive VncRenderMode := VncEmbedded | VncWindowed | VncExternal | VncCustom.
Inductive VncRunnerKind := NoVnc | VncViewer | TigerVnc | RealVnc | VncRunnerCustom.

Inductive TelnetEnterMode := EnterCr | EnterLf | EnterCrlf.
Inductive CharacterBackspaceMode := BackspaceDel | BackspaceCtrlH.
Inductive SerialDataBits := FiveBits | SixBits | SevenBits | EightBits.
Inductive SerialParity := ParityNone | ParityOdd | ParityEven.
Inductive SerialStopBits := OneStop | TwoStops.
Inductive SerialFlowControl := FlowNone | FlowSoftware | FlowHardware.
Inductive DesktopPlatform := Macos | Windows | Linux | UnknownPlatform.

#[export] Instance ConnectionProtocol_eq_dec : EqDecision ConnectionProtocol.
Proof. solve_decision. Defined.
#[export] Instance ConnectionCredentialMode_eq_dec : EqDecision ConnectionCredentialMode.
Proof. solve_decision. Defined.
#[export] Instance ConnectionAuthKind_eq_dec : EqDecision ConnectionAuthKind.
Proof. solve_decision. Defined.
#[export] Instance ConnectionProxyKind_eq_dec : EqDecision ConnectionProxyKind.
Proof. solve_decision. Defined.
#[export] Instance RdpDisplayMode_eq_dec : EqDecision RdpDisplayMode.
Proof. solve_decision. Defined.
#[export] Instance RdpGatewayMode_eq_dec : EqDecision RdpGatewayMode.
Proof. solve_decision. Defined.
#[export] Instance RdpRenderMode_eq_dec : EqDecision RdpRenderMode.
Proof. solve_decision. Defined.
#[export] Instance VncRenderMode_eq_dec : EqDecision VncRenderMode.
Proof. solve_decision. Defined.

Record ConnectionProxyConfig := mkProxy {
  px_kind : option ConnectionProxyKind;
  px_host : option string;
  px_port : option Q;
  px_username : option string;
  px_password : option string;
}.

Record ConnectionAdvancedConfig := mkAdvanced {
  av_connect_timeout_ms : option Q;
  av_auth_timeout_ms : option Q;
  av_keepalive_interval_ms : option Q;
  av_terminal_encoding : option string;
  av_x11_forwarding : option bool;
  av_x11_display : option string;
}.

Record RdpDisplayConfig := mkRdpDisplay {
  rd_mode : option RdpDisplayMode;
  rd_width : option Q;
  rd_height : option Q;
  rd_dynamic_resize : option bool;
  rd_use_multimon : option bool;
}.

Record RdpResourceConfig := mkRdpResources {
  rr_clipboard : option bool;
  rr_audio : option RdpAudioMode;
  rr_drives : option bool;
  rr_printers : option bool;
  rr_smart_cards : option bool;
}.

Record RdpGatewayConfig := mkRdpGateway {
  rg_mode : option RdpGatewayMode;
  rg_host : option string;
  rg_credential_source : option RdpGatewayCredentialSource;
}.

Record RdpRemoteAppConfig := mkRdpRemoteApp {
  ra_enabled : option bool;
  ra_program : option string;
  ra_working_dir : option string;
  ra_args : option string;
}.

Record RdpPerformanceConfig := mkRdpPerformance {
  rf_preset : option RdpPerformancePreset;
  rf_desktop_background : option bool;
  rf_font_smoothing : option bool;
  rf_visual_styles : option bool;
}.

Record RdpSecurityConfig := mkRdpSecurity {
  rs_credential_mode : option RdpSecurityCredentialMode;
  rs_nla : option RdpNetworkLevelAuthentication;
  rs_certificate_policy : option RdpCertificatePolicy;
}.

Record RdpRunnerConfig := mkRdpRunner {
  rn_render_mode : option RdpRenderMode;
  rn_preferred_runner : option RdpRunnerKind;
  rn_custom_executable : option string;
  rn_custom_args_template : option string;
}.

Record RdpConnectionConfig := mkRdp {
  rc_domain : option string;
  rc_display : option RdpDisplayConfig;
  rc_resources : option RdpResourceConfig;
  rc_gateway : option RdpGatewayConfig;
  rc_remote_app : option RdpRemoteAppConfig;
  rc_performance : option RdpPerformanceConfig;
  rc_security : option RdpSecurityConfig;
  rc_runner : option RdpRunnerConfig;
  rc_raw_rdp_settings : option string;
  rc_raw_runner_args : option string;
}.

Record VncDisplayConfig := mkVncDisplay {
  vd_scale_mode : option VncScaleMode;
  vd_resize_session : option bool;
  vd_clip_viewport : option bool;
}.

Record VncInputConfig := mkVncInput {
  vi_view_only : option bool;
  vi_clipboard : option bool;
  vi_shared : option bool;
}.

Record VncPerformanceConfig := mkVncPerformance {
  vp_preset : option VncPerformancePreset;
  vp_quality_level : option Q;
  vp_compression_level : option Q;
}.

Definition VncSecurityConfig : Type := option VncSecurityCredentialMode.

Record VncRunnerConfig := mkVncRunner {
  vr_render_mode : option VncRenderMode;
  vr_preferred_runner : option VncRunnerKind;
  vr_custom_executable : option string;
  vr_custom_args_template : option string;
}.

Record VncConnectionConfig := mkVnc {
  vc_display : option VncDisplayConfig;
  vc_input : option VncInputConfig;
  vc_performance : option VncPerformanceConfig;
  vc_security : option VncSecurityConfig;
  vc_runner : option VncRunnerConfig;
  vc_raw_runner_args : option string;
}.

Record TelnetConnectionConfig := mkTelnet {
  tn_enter_mode : option TelnetEnterMode;
  tn_backspace_mode : option CharacterBackspaceMode;
}.

Record SerialConnectionConfig := mkSerial {
  sr_port_name : option string;
  sr_baud_rate : option Q;
  sr_data_bits : option SerialDataBits;
  sr_parity : option SerialParity;
  sr_stop_bits : option SerialStopBits;
  sr_flow_control : option SerialFlowControl;
  sr_backspace_mode : option CharacterBackspaceMode;
}.

Record ConnectionProfileInput := mkInput {
  ci_id : option string;
  ci_source_connection_id : option string;
  ci_protocol : option ConnectionProtocol;
  ci_name : option string;
  ci_group : option string;
  ci_group_id : option string;
  ci_host : string;
  ci_port : option Q;
  ci_username : string;
  ci_credential_mode : option ConnectionCredentialMode;
  ci_credential_id : option string;
  ci_inline_auth_kind : option ConnectionAuthKind;
  ci_inline_password : option string;
  ci_inline_password_touched : option bool;
  ci_inline_private_key_path : option string;
  ci_inline_private_key_passphrase : option string;
  ci_inline_private_key_passphrase_touched : option bool;
  ci_prompt_auth_kind : option ConnectionAuthKind;
  ci_proxy : option ConnectionProxyConfig;
  ci_jump : option ConnectionJumpConfig;
  ci_advanced : option ConnectionAdvancedConfig;
  ci_rdp : option RdpConnectionConfig;
  ci_vnc : option VncConnectionConfig;
  ci_telnet : option TelnetConnectionConfig;
  ci_serial : option SerialConnectionConfig;
  ci_notes : option string;
  ci_is_favorite : option bool;
  ci_last_connected_at : option string;
  ci_remote_os_id : option string;
  ci_remote_os_name : option string;
  ci_remote_os_version : option string;
  ci_auth_kind : option ConnectionAuthKind;
  ci_password : option string;
  ci_private_key_path : option string;
  ci_private_key_passphrase : option string;
}.

(** ** Defaults *)

Definition defaultAdvancedConfig : ConnectionAdvancedConfig :=
  mkAdvanced (Some 30000%Q) (Some 45000%Q) (Some 20000%Q) (Some "utf-8") (Some false) (Some "").

Definition defaultRdpConfig : RdpConnectionConfig :=
  mkRdp (Some "")
    (Some (mkRdpDisplay (Some DisplayEmbedded) (Some 1440%Q) (Some 900%Q) (Some true) (Some false)))
    (Some (mkRdpResources (Some true) (Some AudioLocal) (Some false) (Some false) (Some false)))
    (Some (mkRdpGateway (Some GatewayDisabled) (Some "") (Some SourcePrompt)))
    (Some (mkRdpRemoteApp (Some false) (Some "") (Some "") (Some "")))
    (Some (mkRdpPerformance (Some RdpAuto) (Some false) (Some true) (Some true)))
    (Some (mkRdpSecurity (Some RdpPrompt) (Some NlaAuto) (Some CertPrompt)))
    (Some (mkRdpRunner (Some RdpEmbedded) None (Some "") (Some ""))) (Some "") (Some "").

(** The compression and the quality of each preset. *)
Definition vncPerformancePresetDefaults (preset : VncPerformancePreset) : Q * Q :=
  match preset with
  | VncAuto => (0, 7) | VncQuality => (1, 8) | VncBalanced => (2, 6) | VncLowBandwidth => (6, 4)
  end%Q.

Definition defaultVncConfig : VncConnectionConfig :=
  mkVnc (Some (mkVncDisplay (Some ScaleFit) (Some true) (Some true)))
    (Some (mkVncInput (Some false) (Some true) (Some true)))
    (Some (mkVncPerformance (Some VncAuto) (Some (vncPerformancePresetDefaults VncAuto).2)
      (Some (vncPerformancePresetDefaults VncAuto).1)))
    (Some (Some VncPrompt)) (Some (mkVncRunner (Some VncEmbedded) (Some NoVnc) (Some "") (Some ""))) (Some "").

Definition defaultTelnetConfig : TelnetConnectionConfig := mkTelnet (Some EnterCrlf) (Some BackspaceDel).

Definition defaultSerialConfig : SerialConnectionConfig :=
  mkSerial (Some "") (Some 9600%Q) (Some EightBits) (Some ParityNone) (Some OneStop) (Some FlowNone) (Some BackspaceDel).

(** ** Values *)

(** [value?.trim() || undefined]. *)
Definition trim_value (value : option string) : option string := s ← value; nonempty (trim_string s).

(** [Number(value) || fallback]. *)
Definition number_or (value fallback : option Q) : option Q :=
  match value with Some q => if decide (Qnum q = 0%Z) then fallback else Some q | None => fallback end.

(** [Boolean(value)] of a nullable boolean. *)
Definition js_boolean (value : option bool) : option bool := Some (default false value).

Definition terminalEncodingOptions : list string :=
  ["utf-8"; "gbk"; "gb18030"; "big5"; "euc-jp"; "iso-2022-jp"; "shift-jis"; "euc-kr"].

Definition normalizeTerminalEncoding (value : option string) : string :=
  let normalized := map_string (λ c, if decide (c = "_"%char) then "-"%char else c)
    (toLowerCase (trim_string (default "" value))) in
  default "utf-8" (js_find (λ item, item = normalized) terminalEncodingOptions).

Definition clampVncPerformanceLevel (value : Q) : Q := Qmin 9 (Qmax 0 value).

Definition vnc_levels (config : VncConnectionConfig) : Q * Q :=
  let performance := default (mkVncPerformance None None None) (vc_performance config) in
  let defaults := vncPerformancePresetDefaults (default VncAuto (vp_preset performance)) in
  (default defaults.1 (clampVncPerformanceLevel <$> vp_compression_level performance),
   default defaults.2 (clampVncPerformanceLevel <$> vp_quality_level performance)).

(** The compression and the quality; the automatic preset reads the values of the
    balanced one as its own. A level that is NaN, which is a number to the code and
    would stay one, is no rational and so has no counterpart here. *)
Definition resolveVncPerformanceLevels (config : VncConnectionConfig) : Q * Q :=
  let (compressionLevel, qualityLevel) := vnc_levels config in
  let preset := default VncAuto (p ← vc_performance config; vp_preset p) in
  match preset with
  | VncAuto =>
      (if Qeq_bool compressionLevel 2 then (vncPerformancePresetDefaults VncAuto).1 else compressionLevel,
       if Qeq_bool qualityLevel 6 then (vncPerformancePresetDefaults VncAuto).2 else qualityLevel)
  | _ => (compressionLevel, qualityLevel)
  end.

Definition defaultRdpExternalRunnerForPlatform (platform : DesktopPlatform) : RdpRunnerKind :=
  match platform with Macos => MacosApp | Linux => Freerdp | _ => Mstsc end.

(** ** Configurations of the protocols *)

Definition normalizeTelnetConfig (input : option TelnetConnectionConfig) : TelnetConnectionConfig :=
  let telnet := default defaultTelnetConfig input in
  mkTelnet (tn_enter_mode telnet ?: tn_enter_mode defaultTelnetConfig)
    (tn_backspace_mode telnet ?: tn_backspace_mode defaultTelnetConfig).

Definition normalizeSerialConfig (input : option SerialConnectionConfig) : SerialConnectionConfig :=
  let serial := default defaultSerialConfig input in
  let d := defaultSerialConfig in
  mkSerial (trim_value (sr_port_name serial) ?: Some "") (number_or (sr_baud_rate serial) (sr_baud_rate d))
    (sr_data_bits serial ?: sr_data_bits d) (sr_parity serial ?: sr_parity d) (sr_stop_bits serial ?: sr_stop_bits d)
    (sr_flow_control serial ?: sr_flow_control d) (sr_backspace_mode serial ?: sr_backspace_mode d).

Definition normalizeVncConfig (input : option VncConnectionConfig) : VncConnectionConfig :=
  let vnc := default defaultVncConfig input in
  let renderMode := default VncEmbedded (r ← vc_runner vnc; vr_render_mode r) in
  let if_custom (v : option string) := if decide (renderMode = VncCustom) then trim_value v else None in
  mkVnc
    (Some (mkVncDisplay ((d ← vc_display vnc; vd_scale_mode d) ?: Some ScaleFit)
      ((d ← vc_display vnc; vd_resize_session d) ?: Some true) ((d ← vc_display vnc; vd_clip_viewport d) ?: Some true)))
    (Some (mkVncInput (js_boolean (i ← vc_input vnc; vi_view_only i)) ((i ← vc_input vnc; vi_clipboard i) ?: Some true)
      ((i ← vc_input vnc; vi_shared i) ?: Some true)))
    (Some (mkVncPerformance ((p ← vc_performance vnc; vp_preset p) ?: Some VncAuto)
      ((clampVncPerformanceLevel <$> (p ← vc_performance vnc; vp_quality_level p)) ?: Some 7%Q)
      ((clampVncPerformanceLevel <$> (p ← vc_performance vnc; vp_compression_level p)) ?: Some 0%Q)))
    (Some (mjoin (vc_security vnc) ?: Some VncPrompt))
    (Some (mkVncRunner (Some renderMode)
      (if decide (renderMode = VncEmbedded ∨ renderMode = VncWindowed) then Some NoVnc
       else (r ← vc_runner vnc; vr_preferred_runner r) ?: Some NoVnc)
      (if_custom (r ← vc_runner vnc; vr_custom_executable r)) (if_custom (r ← vc_runner vnc; vr_custom_args_template r))))
    (trim_value (vc_raw_runner_args vnc)).

Definition normalizeRdpConfig (platform : DesktopPlatform) (input : option RdpConnectionConfig) : RdpConnectionConfig :=
  let rdp := default defaultRdpConfig input in
  let gatewayMode := default GatewayDisabled (g ← rc_gateway rdp; rg_mode g) in
  let remoteAppEnabled := default false (a ← rc_remote_app rdp; ra_enabled a) in
  let renderMode := if decide ((r ← rc_runner rdp; rn_render_mode r) = Some RdpExternal) then RdpExternal else RdpEmbedded in
  let mode := d ← rc_display rdp; rd_mode d in
  let displayMode := if decide (mode = Some DisplayWindowed) then Some DisplayEmbedded else mode in
  mkRdp (trim_value (rc_domain rdp))
    (Some (mkRdpDisplay (displayMode ?: Some DisplayEmbedded)
      (number_or (d ← rc_display rdp; rd_width d) (Some 1440%Q)) (number_or (d ← rc_display rdp; rd_height d) (Some 900%Q))
      ((d ← rc_display rdp; rd_dynamic_resize d) ?: Some true)
      (Some (bool_decide (mode = Some DisplayAllMonitors) || default false (d ← rc_display rdp; rd_use_multimon d)))))
    (Some (mkRdpResources ((r ← rc_resources rdp; rr_clipboard r) ?: Some true)
      ((r ← rc_resources rdp; rr_audio r) ?: Some AudioLocal) (js_boolean (r ← rc_resources rdp; rr_drives r))
      (js_boolean (r ← rc_resources rdp; rr_printers r)) (js_boolean (r ← rc_resources rdp; rr_smart_cards r))))
    (if decide (gatewayMode = GatewayDisabled) then None
     else Some (mkRdpGateway (Some gatewayMode) (trim_value (g ← rc_gateway rdp; rg_host g))
       ((g ← rc_gateway rdp; rg_credential_source g) ?: Some SourcePrompt)))
    (Some (if remoteAppEnabled : bool
      then mkRdpRemoteApp (Some true) (trim_value (a ← rc_remote_app rdp; ra_program a))
        (trim_value (a ← rc_remote_app rdp; ra_working_dir a)) (trim_value (a ← rc_remote_app rdp; ra_args a))
      else mkRdpRemoteApp (Some false) None None None))
    (Some (mkRdpPerformance ((p ← rc_performance rdp; rf_preset p) ?: Some RdpAuto)
      (js_boolean (p ← rc_performance rdp; rf_desktop_background p)) ((p ← rc_performance rdp; rf_font_smoothing p) ?: Some true)
      ((p ← rc_performance rdp; rf_visual_styles p) ?: Some true)))
    (Some (mkRdpSecurity ((s ← rc_security rdp; rs_credential_mode s) ?: Some RdpPrompt)
      ((s ← rc_security rdp; rs_nla s) ?: Some NlaAuto) ((s ← rc_security rdp; rs_certificate_policy s) ?: Some CertPrompt)))
    (Some (mkRdpRunner (Some renderMode)
      (if decide (renderMode = RdpExternal) then Some (defaultRdpExternalRunnerForPlatform platform) else None) None None))
    (trim_value (rc_raw_rdp_settings rdp)) None.

Definition normalizeJumpConfig (input : option ConnectionJumpConfig) : ConnectionJumpConfig :=
  match input with
  | Some (mkJump (Some SshJump) id) => mkJump (Some SshJump) (trim_value id ?: Some "")
  | _ => mkJump (Some JumpNone) None
  end.

(** ** Inputs *)

Section normalize.
(** What [resolveDesktopPlatform] finds. *)
Context (platform : DesktopPlatform).

Definition proxy_none : option ConnectionProxyConfig := Some (mkProxy (Some ProxyNone) None None None None).
Definition jump_none : option ConnectionJumpConfig := Some (mkJump (Some JumpNone) None).

(** [input.group_id ? undefined : trim(input.group)]. *)
Definition group_name (input : ConnectionProfileInput) : option string :=
  if truthy (ci_group_id input) then None else trim_value (ci_group input).

(** [typeof touched === "boolean" ? touched : Boolean(secret)]. *)
Definition is_touched (touched : option bool) (secret : option string) : bool := default (truthy secret) touched.

(** The branches of remote desktops: what they share, with the default port and the
    configurations of the protocol. *)
Definition remote_desktop_input (input : ConnectionProfileInput) (protocol : ConnectionProtocol) (port : Q)
    (rdp : option RdpConnectionConfig) (vnc : option VncConnectionConfig) : ConnectionProfileInput :=
  let credentialMode := default ModePrompt (ci_credential_mode input) in
  let inlinePassword := trim_value (ci_inline_password input ||? ci_password input) in
  let inlinePasswordTouched := is_touched (ci_inline_password_touched input) inlinePassword in
  mkInput (trim_value (ci_id input)) (trim_value (ci_source_connection_id input)) (Some protocol)
    (trim_value (ci_name input)) (group_name input) (trim_value (ci_group_id input)) (trim_string (ci_host input))
    (number_or (ci_port input) (Some port)) (trim_string (ci_username input)) (Some credentialMode)
    (if decide (credentialMode = ModeSaved) then trim_value (ci_credential_id input) else None)
    (if decide (credentialMode = ModeInline) then Some AuthPassword else None)
    (if bool_decide (credentialMode = ModeInline) && inlinePasswordTouched then inlinePassword else None)
    (Some (if decide (credentialMode = ModeInline) then inlinePasswordTouched else false)) None None (Some false) None
    proxy_none jump_none (Some defaultAdvancedConfig) rdp vnc None None (trim_value (ci_notes input)) (ci_is_favorite input)
    (trim_value (ci_last_connected_at input)) (trim_value (ci_remote_os_id input)) (trim_value (ci_remote_os_name input))
    (trim_value (ci_remote_os_version input)) None None None None.

Definition normalize_rdp_input (input : ConnectionProfileInput) : ConnectionProfileInput :=
  remote_desktop_input input Rdp 3389 (Some (normalizeRdpConfig platform (ci_rdp input))) None.

Definition normalize_vnc_input (input : ConnectionProfileInput) : ConnectionProfileInput :=
  remote_desktop_input input Vnc 5900 None (Some (normalizeVncConfig (ci_vnc input))).

(** The branches of character sessions. *)
Definition character_input (input : ConnectionProfileInput) (protocol : ConnectionProtocol) (host : string)
    (port : option Q) (telnet : option TelnetConnectionConfig) (serial : option SerialConnectionConfig) :
    ConnectionProfileInput :=
  mkInput (trim_value (ci_id input)) (trim_value (ci_source_connection_id input)) (Some protocol)
    (trim_value (ci_name input)) (group_name input) (trim_value (ci_group_id input)) host port "" (Some ModePrompt)
    None None None (Some false) None None (Some false) None proxy_none jump_none (Some defaultAdvancedConfig) None None
    telnet serial (trim_value (ci_notes input)) (ci_is_favorite input) (trim_value (ci_last_connected_at input))
    None None None None None None None.

Definition normalize_telnet_input (input : ConnectionProfileInput) : ConnectionProfileInput :=
  character_input input Telnet (trim_string (ci_host input)) (number_or (ci_port input) (Some 23%Q))
    (Some (normalizeTelnetConfig (ci_telnet input))) None.

(** [{...serial, port_name: portName}]. *)
Definition with_port_name (serial : SerialConnectionConfig) (portName : string) : SerialConnectionConfig :=
  mkSerial (Some portName) (sr_baud_rate serial) (sr_data_bits serial) (sr_parity serial) (sr_stop_bits serial)
    (sr_flow_control serial) (sr_backspace_mode serial).

Definition normalize_serial_input (input : ConnectionProfileInput) : ConnectionProfileInput :=
  let serial := normalizeSerialConfig (ci_serial input) in
  let portName := default "" (sr_port_name serial ||? Some (trim_string (ci_host input))) in
  character_input input Serial portName (Some 1%Q) None (Some (with_port_name serial portName)).

Definition normalize_proxy (proxy : option ConnectionProxyConfig) : option ConnectionProxyConfig :=
  let proxyKind := default ProxyNone (p ← proxy; px_kind p) in
  if decide (proxyKind = ProxyNone) then proxy_none
  else
    Some (mkProxy (Some proxyKind) (trim_value (p ← proxy; px_host p)) (number_or (p ← proxy; px_port p) None)
      (trim_value (p ← proxy; px_username p)) (trim_value (p ← proxy; px_password p))).

Definition normalize_advanced (advanced : option ConnectionAdvancedConfig) : option ConnectionAdvancedConfig :=
  let d := defaultAdvancedConfig in
  Some (mkAdvanced (number_or (a ← advanced; av_connect_timeout_ms a) (av_connect_timeout_ms d))
    (number_or (a ← advanced; av_auth_timeout_ms a) (av_auth_timeout_ms d))
    (number_or (a ← advanced; av_keepalive_interval_ms a) (av_keepalive_interval_ms d))
    (Some (normalizeTerminalEncoding (a ← advanced; av_terminal_encoding a)))
    (js_boolean (a ← advanced; av_x11_forwarding a)) (trim_value (a ← advanced; av_x11_display a))).

Definition normalize_ssh_input (input : ConnectionProfileInput) : ConnectionProfileInput :=
  let credentialMode := default ModeInline (ci_credential_mode input) in
  let inlineAuthKind := default (if truthy (ci_private_key_path input) then AuthPrivateKey else AuthPassword)
    (ci_inline_auth_kind input ?: ci_auth_kind input) in
  let promptAuthKind := default AuthPassword (ci_prompt_auth_kind input ?: ci_auth_kind input) in
  let inlinePassword := trim_value (ci_inline_password input ||? ci_password input) in
  let inlinePrivateKeyPassphrase := trim_value (ci_inline_private_key_passphrase input ||? ci_private_key_passphrase input) in
  let inlinePasswordTouched := is_touched (ci_inline_password_touched input) inlinePassword in
  let inlinePrivateKeyPassphraseTouched :=
    is_touched (ci_inline_private_key_passphrase_touched input) inlinePrivateKeyPassphrase in
  let with_password := bool_decide (credentialMode = ModeInline) && bool_decide (inlineAuthKind = AuthPassword) in
  let with_key := bool_decide (credentialMode = ModeInline) && bool_decide (inlineAuthKind = AuthPrivateKey) in
  mkInput (trim_value (ci_id input)) (trim_value (ci_source_connection_id input)) (Some Ssh)
    (trim_value (ci_name input)) (group_name input) (trim_value (ci_group_id input)) (trim_string (ci_host input))
    (number_or (ci_port input) (Some 22%Q)) (trim_string (ci_username input)) (Some credentialMode)
    (if decide (credentialMode = ModeSaved) then trim_value (ci_credential_id input) else None)
    (if decide (credentialMode = ModeInline) then Some inlineAuthKind else None)
    (if with_password && inlinePasswordTouched then inlinePassword else None)
    (Some (if with_password then inlinePasswordTouched else false))
    (if with_key then trim_value (ci_inline_private_key_path input ||? ci_private_key_path input) else None)
    (if with_key && inlinePrivateKeyPassphraseTouched then inlinePrivateKeyPassphrase else None)
    (Some (if with_key then inlinePrivateKeyPassphraseTouched else false))
    (if decide (credentialMode = ModePrompt) then Some promptAuthKind else None)
    (normalize_proxy (ci_proxy input)) (Some (normalizeJumpConfig (ci_jump input))) (normalize_advanced (ci_advanced input))
    None None None None (trim_value (ci_notes input)) (ci_is_favorite input) (trim_value (ci_last_connected_at input))
    (trim_value (ci_remote_os_id input)) (trim_value (ci_remote_os_name input)) (trim_value (ci_remote_os_version input))
    None None None None.

Definition normalizeConnectionInput (input : ConnectionProfileInput) : ConnectionProfileInput :=
  match default Ssh (ci_protocol input) with
  | Rdp => normalize_rdp_input input
  | Vnc => normalize_vnc_input input
  | Telnet => normalize_telnet_input input
  | Serial => normalize_serial_input input
  | Ssh => normalize_ssh_input input
  end.
End normalize.

(** ** Values that are left alone *)

Lemma trim_value_idem v : trim_value (trim_value v) = trim_value v.
Proof.
  destruct v as [s|]; [|done]. cbn. destruct (nonempty (trim_string s)) as [t|] eqn:E; [|done].
  apply nonempty_Some in E as [-> Hne]. cbn. rewrite trim_string_idem. by apply nonempty_Some.
Qed.

Lemma trim_value_Some v s : trim_value v = Some s → trim_string s = s ∧ s ≠ "".
Proof.
  destruct v as [t|]; [|done]. cbn. intros [-> Hne]%nonempty_Some. by rewrite trim_string_idem.
Qed.

Lemma number_or_idem v d : number_or d d = d → number_or (number_or v d) d = number_or v d.
Proof. intros Hd. destruct v as [q|]; [|done]. cbn. case_decide as Hq; [done|]. cbn. by rewrite decide_False. Qed.

Lemma or_idem {A} (v d : option A) : (v ?: d) ?: d = v ?: d.
Proof. by destruct v, d. Qed.

Lemma js_boolean_idem v : js_boolean (js_boolean v) = js_boolean v.
Proof. done. Qed.

Lemma clamp_idem q : clampVncPerformanceLevel (clampVncPerformanceLevel q) = clampVncPerformanceLevel q.
Proof.
  unfold clampVncPerformanceLevel, Qmin, Qmax, GenericMinMax.gmin, GenericMinMax.gmax.
  destruct (0 ?= q)%Q eqn:E0; [done| |done]. destruct (9 ?= q)%Q eqn:E9; [done..|]. by rewrite E0, E9.
Qed.

Lemma clamp_bounds q : (0 <= clampVncPerformanceLevel q <= 9)%Q.
Proof.
  unfold clampVncPerformanceLevel. split; [|apply Q.le_min_l].
  apply Q.min_glb; [done|apply Q.le_max_l].
Qed.

Lemma is_touched_idem touched secret secret' : is_touched (Some (is_touched touched secret)) secret' = is_touched touched secret.
Proof. done. Qed.

Lemma encoding_listed v : normalizeTerminalEncoding v ∈ terminalEncodingOptions.
Proof.
  unfold normalizeTerminalEncoding. cbv zeta. destruct (js_find _ _) as [o|] eqn:E; [|vm_decide].
  by apply js_find_elem in E.
Qed.

Lemma encoding_id v : v ∈ terminalEncodingOptions → normalizeTerminalEncoding (Some v) = v.
Proof. revert v. apply Forall_forall. vm_decide. Qed.

(** ** Normal forms of the configurations *)

Lemma telnet_idem v : normalizeTelnetConfig (Some (normalizeTelnetConfig v)) = normalizeTelnetConfig v.
Proof. unfold normalizeTelnetConfig. cbn. by destruct (default defaultTelnetConfig v) as [[] []]. Qed.

Lemma or_empty_idem v : trim_value (trim_value v ?: Some "") ?: Some "" = trim_value v ?: Some "".
Proof. destruct (trim_value v) as [s|] eqn:E; [|done]. cbn [nullish]. by rewrite <- E, trim_value_idem, E. Qed.

Lemma jump_idem v : normalizeJumpConfig (Some (normalizeJumpConfig v)) = normalizeJumpConfig v.
Proof. destruct v as [[[[]|] id]|]; try done. cbn [normalizeJumpConfig]. by rewrite or_empty_idem. Qed.

Lemma proxy_idem v : normalize_proxy (normalize_proxy v) = normalize_proxy v.
Proof.
  unfold normalize_proxy at 2 3. cbv zeta. case_decide as Hk; [done|]. unfold normalize_proxy. cbn [mbind option_bind px_kind default from_option].
  rewrite decide_False by done. cbn. by rewrite !trim_value_idem, number_or_idem.
Qed.

Lemma advanced_idem v : normalize_advanced (normalize_advanced v) = normalize_advanced v.
Proof.
  unfold normalize_advanced. cbn -[number_or trim_value normalizeTerminalEncoding].
  by rewrite !number_or_idem, trim_value_idem, encoding_id by (done || apply encoding_listed).
Qed.

Lemma serial_port_idem v port :
  trim_string port = port →
  normalizeSerialConfig (Some (with_port_name (normalizeSerialConfig v) port)) = with_port_name (normalizeSerialConfig v) port.
Proof.
  intros Hp. unfold normalizeSerialConfig, with_port_name. cbn -[number_or trim_value trim_string nullish defaultSerialConfig].
  rewrite !or_idem, number_or_idem by done. f_equal. cbn [trim_value mbind option_bind]. rewrite Hp.
  destruct (nonempty port) as [s|] eqn:E; [by apply nonempty_Some in E as [-> _]|].
  destruct (decide (port = "")) as [->|Hne]; [done|]. by rewrite (proj2 (nonempty_Some port port)) in E.
Qed.

Lemma clamp_or_idem v d :
  clampVncPerformanceLevel d = d →
  (clampVncPerformanceLevel <$> ((clampVncPerformanceLevel <$> v) ?: Some d)) ?: Some d = (clampVncPerformanceLevel <$> v) ?: Some d.
Proof. intros Hd. destruct v as [q|]; cbn; [by rewrite clamp_idem|by rewrite Hd]. Qed.

Lemma vnc_idem v : normalizeVncConfig (Some (normalizeVncConfig v)) = normalizeVncConfig v.
Proof.
  unfold normalizeVncConfig. cbn -[trim_value nullish clampVncPerformanceLevel js_boolean decide].
  rewrite !or_idem, !clamp_or_idem, !trim_value_idem by done.
  set (mode := default VncEmbedded _). set (exe := vc_runner _ ≫= vr_custom_executable). set (runner := vc_runner _ ≫= vr_preferred_runner).
  do 3 f_equal; [by repeat case_decide; try done; rewrite or_idem|by case_decide; try done; rewrite trim_value_idem..].
Qed.

Lemma rdp_idem platform v :
  normalizeRdpConfig platform (Some (normalizeRdpConfig platform v)) = normalizeRdpConfig platform v.
Proof.
  unfold normalizeRdpConfig. cbn -[trim_value nullish number_or js_boolean decide].
  rewrite !or_idem, !trim_value_idem, !number_or_idem by done.
  set (rdp := default defaultRdpConfig v). set (mode := _ ≫= λ d, rd_mode d).
  set (gateway := default GatewayDisabled (rc_gateway rdp ≫= λ g, rg_mode g)).
  set (enabled := default false (rc_remote_app rdp ≫= λ a, ra_enabled a)).
  set (external := decide (rc_runner rdp ≫= (λ r, rn_render_mode r) = Some RdpExternal)).
  set (multi := default false _). clearbody mode multi.
  f_equal; f_equal.
  - by destruct mode as [[]|], multi.
  - destruct (decide (gateway = GatewayDisabled)); [done|]. cbn -[trim_value nullish decide].
    rewrite decide_False by done. by rewrite trim_value_idem, or_idem.
  - destruct enabled; cbn -[trim_value]; by rewrite ?trim_value_idem.
  - by destruct external.
Qed.

(** ** Normal forms of inputs *)

Lemma falsy_trim v : truthy v = false → trim_value v = None.
Proof.
  destruct v as [s|]; [|done]. intros Hf. destruct (decide (s = "")) as [->|Hne]; [done|].
  apply truthy_Some in Hne. congruence.
Qed.

Lemma trim_truthy v s : trim_value v = Some s → truthy (Some s) = true.
Proof. intros [_ Hne]%trim_value_Some. by apply truthy_Some. Qed.

Lemma group_idem g n :
  (if truthy (trim_value g) then None else trim_value (if truthy g then None else trim_value n)) =
  (if truthy g then None else trim_value n).
Proof.
  destruct (truthy g) eqn:E. { by destruct (truthy (trim_value g)). } rewrite (falsy_trim g E). apply trim_value_idem.
Qed.

Lemma trim_or_none v : trim_value (trim_value v ||? None) = trim_value v.
Proof.
  destruct (trim_value v) as [s|] eqn:E; [|done]. unfold js_or. rewrite (trim_truthy _ _ E), <- E. apply trim_value_idem.
Qed.

(** Decides between the modes of closed terms. *)
Ltac decide_modes := repeat first
  [rewrite decide_True by done | rewrite decide_False by done | rewrite bool_decide_true by done
  | rewrite bool_decide_false by done].

Section idem.
Context (platform : DesktopPlatform).

Lemma remote_desktop_idem input protocol port rdp vnc rdp' vnc' :
  Qnum port ≠ 0%Z →
  remote_desktop_input (remote_desktop_input input protocol port rdp vnc) protocol port rdp' vnc' =
  remote_desktop_input input protocol port rdp' vnc'.
Proof.
  intros Hp. unfold remote_desktop_input. cbn -[trim_value trim_string number_or js_or is_touched decide bool_decide].
  unfold group_name. cbn -[trim_value truthy trim_string number_or js_or is_touched decide bool_decide].
  rewrite group_idem, !trim_value_idem, !trim_string_idem, number_or_idem.
  2: { cbn. by rewrite decide_False. }
  destruct (default ModePrompt (ci_credential_mode input)); decide_modes; rewrite ?trim_value_idem, ?is_touched_idem; [done| |done].
  destruct (is_touched _ _); cbn [andb]; by rewrite ?trim_or_none.
Qed.

Lemma or_self port : default "" (Some port ||? Some port) = port.
Proof. unfold js_or. by destruct (truthy _). Qed.

Lemma serial_port_trimmed v host :
  let port := default "" (sr_port_name (normalizeSerialConfig v) ||? Some (trim_string host)) in trim_string port = port.
Proof.
  cbv zeta. unfold normalizeSerialConfig, js_or. cbn -[trim_value trim_string truthy nullish].
  destruct (truthy _) eqn:E; [|apply trim_string_idem].
  destruct (trim_value _) as [s|] eqn:Es; [|done]. by apply trim_value_Some in Es as [? _].
Qed.

Lemma character_idem input protocol host host' port port' telnet serial telnet' serial' :
  character_input (character_input input protocol host port telnet serial) protocol host' port' telnet' serial' =
  character_input input protocol host' port' telnet' serial'.
Proof.
  unfold character_input, group_name. cbn -[trim_value truthy]. by rewrite group_idem, !trim_value_idem.
Qed.

Lemma ssh_idem input : normalize_ssh_input (normalize_ssh_input input) = normalize_ssh_input input.
Proof.
  unfold normalize_ssh_input, group_name. cbn -[normalizeJumpConfig normalize_proxy normalize_advanced trim_value truthy trim_string number_or js_or is_touched decide bool_decide].
  rewrite group_idem, !trim_value_idem, !trim_string_idem, number_or_idem by done.
  rewrite jump_idem, proxy_idem, advanced_idem.
  destruct (default ModeInline (ci_credential_mode input)); decide_modes; rewrite ?trim_value_idem, ?is_touched_idem; [done| |done].
  set (kind := default _ (ci_inline_auth_kind input ?: ci_auth_kind input)). clearbody kind.
  destruct kind; decide_modes; cbn [andb]; rewrite ?is_touched_idem, ?trim_or_none; destruct (is_touched _ _); by rewrite ?trim_or_none.
Qed.

Lemma input_idem input :
  normalizeConnectionInput platform (normalizeConnectionInput platform input) = normalizeConnectionInput platform input.
Proof.
  unfold normalizeConnectionInput at 2 3. destruct (default Ssh (ci_protocol input)) eqn:E.
  - apply ssh_idem.
  - unfold normalizeConnectionInput, normalize_rdp_input. cbn [ci_protocol remote_desktop_input default from_option id ci_rdp].
    rewrite rdp_idem. by apply remote_desktop_idem.
  - unfold normalizeConnectionInput, normalize_vnc_input. cbn [ci_protocol remote_desktop_input default from_option id ci_vnc].
    rewrite vnc_idem. by apply remote_desktop_idem.
  - unfold normalizeConnectionInput, normalize_telnet_input. cbn [ci_protocol character_input default from_option id ci_telnet ci_host ci_port].
    rewrite telnet_idem, trim_string_idem, number_or_idem by done. apply character_idem.
  - unfold normalizeConnectionInput, normalize_serial_input. cbn [ci_protocol character_input default from_option id ci_serial ci_host].
    set (port := default "" (_ ||? _)). assert (trim_string port = port) as Hp by apply serial_port_trimmed.
    rewrite serial_port_idem by done. cbn [with_port_name sr_port_name]. rewrite Hp, or_self. apply character_idem.
Qed.
End idem.

(** ** What is sent *)

(** A text of a field that is present is trimmed and not empty. *)
Definition text_ok (v : option string) : Prop := ∀ s, v = Some s → trim_string s = s ∧ s ≠ "".

(** The secrets of an input belong to its mode: none is sent that the mode does not use,
    that was not touched, or under its older name. *)
Record secrets_ok (i : ConnectionProfileInput) : Prop := {
  so_credential : ci_credential_id i ≠ None → ci_credential_mode i = Some ModeSaved;
  so_password : ci_inline_password i ≠ None →
    ci_credential_mode i = Some ModeInline ∧ ci_inline_auth_kind i = Some AuthPassword ∧ ci_inline_password_touched i = Some true;
  so_path : ci_inline_private_key_path i ≠ None →
    ci_credential_mode i = Some ModeInline ∧ ci_inline_auth_kind i = Some AuthPrivateKey;
  so_passphrase : ci_inline_private_key_passphrase i ≠ None →
    ci_credential_mode i = Some ModeInline ∧ ci_inline_auth_kind i = Some AuthPrivateKey ∧
    ci_inline_private_key_passphrase_touched i = Some true;
  so_inline : is_Some (ci_inline_auth_kind i) → ci_credential_mode i = Some ModeInline;
  so_prompt : is_Some (ci_prompt_auth_kind i) → ci_credential_mode i = Some ModePrompt;
  so_legacy : ci_auth_kind i = None ∧ ci_password i = None ∧ ci_private_key_path i = None ∧ ci_private_key_passphrase i = None;
}.

(** The configurations of an input are those of its protocol. *)
Definition configs_ok (i : ConnectionProfileInput) (protocol : ConnectionProtocol) : Prop :=
  ci_protocol i = Some protocol ∧
  (is_Some (ci_rdp i) ↔ protocol = Rdp) ∧ (is_Some (ci_vnc i) ↔ protocol = Vnc) ∧
  (is_Some (ci_telnet i) ↔ protocol = Telnet) ∧ (is_Some (ci_serial i) ↔ protocol = Serial) ∧
  (protocol ≠ Ssh → ci_proxy i = proxy_none ∧ ci_jump i = jump_none) ∧
  (protocol = Telnet ∨ protocol = Serial → ci_credential_mode i = Some ModePrompt ∧ ci_username i = "").

Record texts_ok (i : ConnectionProfileInput) : Prop := {
  to_texts : Forall text_ok [ci_id i; ci_source_connection_id i; ci_name i; ci_group i; ci_group_id i; ci_credential_id i;
    ci_inline_password i; ci_inline_private_key_path i; ci_inline_private_key_passphrase i; ci_notes i;
    ci_last_connected_at i; ci_remote_os_id i; ci_remote_os_name i; ci_remote_os_version i];
  to_host : trim_string (ci_host i) = ci_host i;
  to_username : trim_string (ci_username i) = ci_username i;
  to_group : ci_group i ≠ None → ci_group_id i = None;
  to_port : ∃ q, ci_port i = Some q ∧ Qnum q ≠ 0%Z;
}.

Lemma text_trim v : text_ok (trim_value v).
Proof. intros s. apply trim_value_Some. Qed.

Lemma text_none : text_ok None.
Proof. done. Qed.

Lemma text_if (b : bool) v : text_ok v → text_ok (if b then v else None).
Proof. by destruct b. Qed.

Lemma text_decide (P : Prop) `{!Decision P} v : text_ok v → text_ok (if decide P then v else None).
Proof. by case_decide. Qed.

Lemma text_group input : text_ok (group_name input).
Proof. unfold group_name. destruct (truthy _); [apply text_none|apply text_trim]. Qed.

#[export] Hint Resolve text_trim text_none text_if text_decide text_group trim_string_idem : nexa.

Lemma port_number v d : Qnum d ≠ 0%Z → ∃ q, number_or v (Some d) = Some q ∧ Qnum q ≠ 0%Z.
Proof. intros Hd. destruct v as [q|]; cbn; [case_decide; eauto|eauto]. Qed.

Lemma group_exclusive input : group_name input ≠ None → trim_value (ci_group_id input) = None.
Proof. unfold group_name. destruct (truthy _) eqn:E; [done|]. intros _. by apply falsy_trim. Qed.

Lemma remote_desktop_ok input protocol port rdp vnc :
  Qnum port ≠ 0%Z →
  let i := remote_desktop_input input protocol port rdp vnc in secrets_ok i ∧ texts_ok i.
Proof.
  intros Hp. cbv zeta. split; unfold remote_desktop_input.
  - destruct (default ModePrompt (ci_credential_mode input)); split; cbn -[is_touched trim_value]; decide_modes; cbn [andb];
      try done; try by intros [? [=]].
    by destruct (is_touched _ _).
  - split; cbn -[trim_value number_or js_or is_touched group_name trim_string decide bool_decide];
      [repeat (apply Forall_cons; split; [auto with nexa|]); constructor|auto with nexa..|apply group_exclusive|by apply port_number].
Qed.

Lemma character_ok input protocol host port telnet serial :
  trim_string host = host → (∃ q, port = Some q ∧ Qnum q ≠ 0%Z) →
  let i := character_input input protocol host port telnet serial in secrets_ok i ∧ texts_ok i.
Proof.
  intros Hh Hp. cbv zeta. split; unfold character_input.
  - split; cbn; try done; by intros [? [=]].
  - split; cbn -[trim_value group_name trim_string];
      [repeat (apply Forall_cons; split; [auto with nexa|]); constructor|done|done|apply group_exclusive|done].
Qed.

Lemma ssh_ok input : let i := normalize_ssh_input input in secrets_ok i ∧ texts_ok i.
Proof.
  cbv zeta. split; unfold normalize_ssh_input.
  - destruct (default ModeInline (ci_credential_mode input)); [by split; cbn; try done; intros [? [=]]| |by split; cbn; try done; intros [? [=]]].
    set (kind := default _ (ci_inline_auth_kind input ?: ci_auth_kind input)). clearbody kind.
    destruct kind; split; cbn -[is_touched trim_value js_or]; decide_modes; cbn [andb]; try done; try by intros [? [=]].
    all: by destruct (is_touched _ _).
  - split; cbn -[trim_value number_or js_or is_touched group_name trim_string decide bool_decide];
      [repeat (apply Forall_cons; split; [auto with nexa|]); constructor|auto with nexa..|apply group_exclusive|by apply port_number].
Qed.

Lemma input_ok platform input : let i := normalizeConnectionInput platform input in secrets_ok i ∧ texts_ok i.
Proof.
  unfold normalizeConnectionInput. destruct (default Ssh (ci_protocol input)).
  - apply ssh_ok.
  - by apply remote_desktop_ok.
  - by apply remote_desktop_ok.
  - apply character_ok; [apply trim_string_idem|by apply port_number].
  - apply character_ok; [apply serial_port_trimmed|by eexists].
Qed.

Lemma input_configs platform input :
  configs_ok (normalizeConnectionInput platform input) (default Ssh (ci_protocol input)).
Proof.
  unfold normalizeConnectionInput. destruct (default Ssh (ci_protocol input)); (split; [done|]); cbn -[trim_string trim_value];
    split_and!; try done; try by intros [?|?]; try (split; [by intros [? [=]]|by intros]).
  all: by split; [|intros; eexists].
Qed.

Definition level_ok (q : Q) : Prop := (0 <= q <= 9)%Q.

Lemma levels_ok config : let l := resolveVncPerformanceLevels config in level_ok l.1 ∧ level_ok l.2.
Proof.
  unfold resolveVncPerformanceLevels, vnc_levels. cbv zeta.
  assert (∀ v d, level_ok d → level_ok (default d (clampVncPerformanceLevel <$> v))) as Hc
    by (intros [q|] d Hd; [apply clamp_bounds|done]).
  assert (∀ preset, level_ok (vncPerformancePresetDefaults preset).1 ∧ level_ok (vncPerformancePresetDefaults preset).2) as Hd
    by (by intros []).
  assert (∀ (b : bool) (x y : Q), level_ok x → level_ok y → level_ok (if b then x else y)) as Hif by (by intros []).
  match goal with |- context [match ?p with VncAuto => _ | _ => _ end] => destruct p end; cbn [fst snd];
    split; repeat apply Hif; first [apply Hc; apply Hd|by split].
Qed.

(** ** Properties *)

(** C25: What is sent of a form. Whatever a form holds, its protocol is kept; the input
    that is sent has no secret that its credential mode does not use, none that was not
    touched and none under an older name; it has the configuration of its protocol and
    no other; a proxy or a jump host only for SSH; its texts are trimmed and present
    only when they are not blank, its port is a number that is not zero, and a group
    name is sent only without a group id. Sending what was sent changes nothing. And the
    levels that a VNC configuration starts a session with are from 0 to 9. *)
Theorem connection_input_normal platform input :
  let i := normalizeConnectionInput platform input in
  normalizeConnectionInput platform i = i ∧ secrets_ok i ∧ texts_ok i ∧
  configs_ok i (default Ssh (ci_protocol input)) ∧
  (∀ config, level_ok (resolveVncPerformanceLevels config).1 ∧ level_ok (resolveVncPerformanceLevels config).2).
Proof.
  cbv zeta. destruct (input_ok platform input) as [Hs Ht].
  split; [apply input_idem|]. split_and!; [done|done|apply input_configs|apply levels_ok].
Qed.
