(* ===== verification/ConnectionStore.v ===== *)
(** * Stores of connections and credentials
      ([features/connections/useConnections.ts], [useCredentials.ts])

    The hooks that keep what the backend stores, as machines: a call to the backend is in
    flight until an event settles it, in any order. *)

From S2P Require Import Prelude RemotePaths Snapshot SnapshotCodec JumpPlan ConnectionInput ConnectionGroups.
From Stdlib Require Import Lia.

#[local] Open Scope nat_scope.

(** ** Lists of profiles *)

Section profiles.
Context {A : Type} (key : A → string).

(** [upsertLocal], and the same steps in [useConnections]. *)
Definition upsertLocal (items : list A) (profile : A) : list A :=
  if decide (key profile ∈ key <$> items)
  then (λ item, if decide (key item = key profile) then profile else item) <$> items
  else items ++ [profile].

(** What a changed profile does to the list when it comes back. *)
Definition replace_profile (items : list A) (profile : A) : list A :=
  (λ item, if decide (key item = key profile) then profile else item) <$> items.

Definition remove_profile (items : list A) (id : string) : list A := filter (λ item, key item ≠ id) items.

(** ** The store of connections ([useConnections] with a backend)

    [cx_lists] counts the calls of [connectionList] in flight; a call of
    [connectionDelete] in flight keeps whether the store was enabled when it was made,
    since its [reload] is the one of that render. *)

Record ConnectionStore := mkStore {
  cx_items : list A;
  cx_loading : bool;
  cx_error : option string;
  cx_enabled : bool;
  cx_lists : nat;
  cx_deletes : list bool;
}.

Definition initialStore : ConnectionStore := mkStore [] true None false 0 [].

Definition cx_with_items (items : list A) (s : ConnectionStore) : ConnectionStore :=
  mkStore items (cx_loading s) (cx_error s) (cx_enabled s) (cx_lists s) (cx_deletes s).

Definition cx_reload (enabled : bool) (s : ConnectionStore) : ConnectionStore :=
  if enabled then mkStore (cx_items s) true None (cx_enabled s) (S (cx_lists s)) (cx_deletes s)
  else mkStore [] false None (cx_enabled s) (cx_lists s) (cx_deletes s).

(** A list that settles: what was listed, or the message of the error. *)
Definition cx_listed (result : list A + string) (s : ConnectionStore) : ConnectionStore :=
  match cx_lists s with
  | 0 => s
  | S n =>
      match result with
      | inl items => mkStore items false (cx_error s) (cx_enabled s) n (cx_deletes s)
      | inr message => mkStore (cx_items s) false (Some message) (cx_enabled s) n (cx_deletes s)
      end
  end.

(** The removal is shown at once. *)
Definition cx_remove (id : string) (s : ConnectionStore) : ConnectionStore :=
  mkStore (remove_profile (cx_items s) id) (cx_loading s) (cx_error s) (cx_enabled s) (cx_lists s)
    (cx_deletes s ++ [cx_enabled s]).

(** A call of [connectionDelete] settles; a failed one reloads. *)
Definition cx_deleted (call : nat) (ok : bool) (s : ConnectionStore) : ConnectionStore :=
  match cx_deletes s !! call with
  | None => s
  | Some enabled =>
      let s := mkStore (cx_items s) (cx_loading s) (cx_error s) (cx_enabled s) (cx_lists s) (delete call (cx_deletes s)) in
      if ok then s else cx_reload enabled s
  end.

Inductive StoreEvent :=
  | CxRender (enabled : bool)
  | CxReload
  | CxListed (result : list A + string)
  | CxUpserted (profile : A)
  | CxChanged (profile : A)
  | CxRemove (id : string)
  | CxDeleted (call : nat) (ok : bool)
  | CxRemoved (id : string).

(** [CxRender] is a render with another value of [enabled], whose effect reloads;
    [CxChanged] settles [setFavorite], [markConnected] and [probeSystem], and [CxRemoved]
    settles the removal of a credential, which is shown only then. *)
Definition store_step (s : ConnectionStore) (event : StoreEvent) : ConnectionStore :=
  match event with
  | CxRender enabled =>
      cx_reload enabled (mkStore (cx_items s) (cx_loading s) (cx_error s) enabled (cx_lists s) (cx_deletes s))
  | CxReload => cx_reload (cx_enabled s) s
  | CxListed result => cx_listed result s
  | CxUpserted profile => cx_with_items (upsertLocal (cx_items s) profile) s
  | CxChanged profile => cx_with_items (replace_profile (cx_items s) profile) s
  | CxRemove id => cx_remove id s
  | CxDeleted call ok => cx_deleted call ok s
  | CxRemoved id => cx_with_items (remove_profile (cx_items s) id) s
  end.

(** A run of the hook: its first render and effect, and then the events. *)
Definition store_run (enabled : bool) (events : list StoreEvent) : ConnectionStore :=
  foldl store_step (store_step initialStore (CxRender enabled)) events.

(** ** Lemmas *)

Lemma replace_keys items profile : key <$> replace_profile items profile = key <$> items.
Proof.
  unfold replace_profile. rewrite <- list_fmap_compose. apply list_fmap_ext. intros i x _. cbn. case_decide; congruence.
Qed.

Lemma upsert_keys items profile :
  key <$> upsertLocal items profile = (key <$> items) ++ (if decide (key profile ∈ key <$> items) then [] else [key profile]).
Proof.
  unfold upsertLocal. case_decide; [rewrite app_nil_r; apply replace_keys|]. by rewrite fmap_app.
Qed.

Lemma remove_keys items id : key <$> remove_profile items id = filter (.≠ id) (key <$> items).
Proof. unfold remove_profile. induction items as [|x l IH]; [done|]. rewrite fmap_cons, !filter_cons. by case_decide; cbn; rewrite IH. Qed.

Lemma upsert_NoDup items profile : NoDup (key <$> items) → NoDup (key <$> upsertLocal items profile).
Proof.
  intros Hnd. rewrite upsert_keys. case_decide as Hin; [by rewrite app_nil_r|]. apply NoDup_app.
  split; [done|]. split; [|apply NoDup_singleton]. by intros x Hx ->%list_elem_of_singleton.
Qed.

(** Lists that come from the backend have one profile for each id. *)
Definition lists_once (event : StoreEvent) : Prop :=
  match event with CxListed (inl items) => NoDup (key <$> items) | _ => True end.

(** What may show a profile with an id that is not shown. *)
Definition brings (id : string) (event : StoreEvent) : Prop :=
  match event with
  | CxListed (inl items) => id ∈ key <$> items
  | CxUpserted profile => key profile = id
  | _ => False
  end.

Record store_ok (s : ConnectionStore) : Prop := {
  sx_ids : NoDup (key <$> cx_items s);
  sx_loading : cx_loading s = true → 0 < cx_lists s;
}.

Lemma reload_ok enabled s : NoDup (key <$> cx_items s) → store_ok (cx_reload enabled s).
Proof. intros Hnd. destruct enabled; split; cbn; try done; [lia|constructor]. Qed.

Lemma store_step_ok s event : store_ok s → lists_once event → store_ok (store_step s event).
Proof.
  intros [Hnd Hl] He. destruct event as [enabled| |[items|message]|profile|profile|id|call ok|id]; cbn.
  - by apply reload_ok.
  - by apply reload_ok.
  - unfold cx_listed. destruct (cx_lists s) eqn:E; [|split; cbn; done]. split; [done|]. intros Ht. apply Hl in Ht. lia.
  - unfold cx_listed. destruct (cx_lists s) eqn:E; [|split; cbn; done]. split; [done|]. intros Ht. apply Hl in Ht. lia.
  - split; [by apply upsert_NoDup|done].
  - split; cbn; [by rewrite replace_keys|done].
  - split; cbn; [rewrite remove_keys; by apply NoDup_filter|done].
  - unfold cx_deleted. destruct (cx_deletes s !! call); [|by split]. destruct ok; [by split|by apply reload_ok].
  - split; cbn; [rewrite remove_keys; by apply NoDup_filter|done].
Qed.

Lemma store_run_ok enabled events : Forall lists_once events → store_ok (store_run enabled events).
Proof.
  unfold store_run. assert (store_ok (store_step initialStore (CxRender enabled))) as Hs by (apply reload_ok; constructor).
  revert Hs. generalize (store_step initialStore (CxRender enabled)). induction events as [|e l IH]; intros s Hs Hl; [done|].
  apply Forall_cons in Hl as [He Hl]. cbn. apply IH; [by apply store_step_ok|done].
Qed.

(** An id that is not shown stays so until something brings it. *)
Lemma store_step_absent s event id :
  id ∉ key <$> cx_items s → ¬ brings id event → id ∉ key <$> cx_items (store_step s event).
Proof.
  intros Hid Hb. assert (∀ enabled t, id ∉ key <$> cx_items t → id ∉ key <$> cx_items (cx_reload enabled t)) as Hr
    by (intros [] t Ht; [done|apply not_elem_of_nil]).
  destruct event as [enabled| |[items|message]|profile|profile|id'|call ok|id']; cbn in *.
  - by apply Hr.
  - by apply Hr.
  - unfold cx_listed. by destruct (cx_lists s).
  - unfold cx_listed. by destruct (cx_lists s).
  - rewrite upsert_keys, elem_of_app. intros [?|Hin]; [done|]. case_decide; [by apply elem_of_nil in Hin|].
    apply list_elem_of_singleton in Hin. congruence.
  - by rewrite replace_keys.
  - rewrite remove_keys, list_elem_of_filter. naive_solver.
  - unfold cx_deleted. destruct (cx_deletes s !! call); [|done]. destruct ok; [done|by apply Hr].
  - rewrite remove_keys, list_elem_of_filter. naive_solver.
Qed.

Lemma store_steps_absent s events id :
  id ∉ key <$> cx_items s → Forall (λ event, ¬ brings id event) events → id ∉ key <$> cx_items (foldl store_step s events).
Proof.
  intros Hid Hl. revert s Hid. induction Hl as [|e l He Hl IH]; intros s Hid; [done|]. cbn. by apply IH, store_step_absent.
Qed.

Lemma remove_absent s id : id ∉ key <$> cx_items (cx_remove id s).
Proof. cbn. rewrite remove_keys, list_elem_of_filter. by intros [? _]. Qed.

Lemma upsert_lookup items profile :
  NoDup (key <$> items) →
  (∀ i item, items !! i = Some item → upsertLocal items profile !! i = Some (if decide (key item = key profile) then profile else item)) ∧
  profile ∈ upsertLocal items profile.
Proof.
  intros Hnd. unfold upsertLocal. case_decide as Hin.
  - split; [intros i item Hi; by rewrite list_lookup_fmap, Hi|].
    apply list_elem_of_fmap in Hin as (item & Hk & Hitem). apply list_elem_of_fmap. exists item. by rewrite decide_True.
  - split; [|apply elem_of_app; right; by left]. intros i item Hi. rewrite (lookup_app_l_Some _ _ _ _ Hi).
    rewrite decide_False; [done|]. intros Hk. apply Hin. rewrite <- Hk. apply list_elem_of_fmap_2. by eapply list_elem_of_lookup_2.
Qed.
End profiles.

(** ** Credentials ([normalizeCredentialInput]) *)

Record CredentialProfileInput := mkCredentialInput {
  cc_id : option string;
  cc_name : option string;
  cc_username : option string;
  cc_kind : ConnectionAuthKind;
  cc_password : option string;
  cc_password_touched : option bool;
  cc_private_key_path : option string;
  cc_private_key_passphrase : option string;
  cc_private_key_passphrase_touched : option bool;
  cc_notes : option string;
}.

Definition normalizeCredentialInput (input : CredentialProfileInput) : CredentialProfileInput :=
  let password := trim_value (cc_password input) in
  let privateKeyPassphrase := trim_value (cc_private_key_passphrase input) in
  let passwordTouched := is_touched (cc_password_touched input) password in
  let privateKeyPassphraseTouched := is_touched (cc_private_key_passphrase_touched input) privateKeyPassphrase in
  let with_password := bool_decide (cc_kind input = AuthPassword) in
  let with_key := bool_decide (cc_kind input = AuthPrivateKey) in
  mkCredentialInput (trim_value (cc_id input)) (trim_value (cc_name input)) (trim_value (cc_username input)) (cc_kind input)
    (if with_password && passwordTouched then password else None) (Some (if with_password then passwordTouched else false))
    (if with_key then trim_value (cc_private_key_path input) else None)
    (if with_key && privateKeyPassphraseTouched then privateKeyPassphrase else None)
    (Some (if with_key then privateKeyPassphraseTouched else false)) (trim_value (cc_notes input)).

Lemma credential_idem input :
  normalizeCredentialInput (normalizeCredentialInput input) = normalizeCredentialInput input.
Proof.
  unfold normalizeCredentialInput. cbn -[trim_value is_touched bool_decide]. rewrite !trim_value_idem.
  destruct (cc_kind input); decide_modes; cbn [andb]; rewrite ?is_touched_idem, ?trim_value_idem;
    by destruct (is_touched _ _); rewrite ?trim_value_idem.
Qed.

(** ** Properties *)

(** C26: The store of connections (and of credentials). Whatever calls settle in whatever
    order: ids stay unique as long as the backend lists each once, and the store says
    that it loads only while a list is in flight; a removed connection is gone at once
    and stays away, through every favourite, mark or probe that settles late, until a
    list or a saved profile with its id comes; saving a profile shows it in its place
    and leaves the others and the order alone; and a removal that fails lists again what
    the backend has when the store was enabled. *)
Theorem connection_store_safe {A} (key : A → string) enabled events :
  let s := store_run key enabled events in
  (Forall (lists_once key) events → NoDup (key <$> cx_items s) ∧ (cx_lists s = 0 → cx_loading s = false)) ∧
  (∀ id later, Forall (λ event, ¬ brings key id event) later →
    id ∉ key <$> cx_items (foldl (store_step key) s (CxRemove id :: later))) ∧
  (Forall (lists_once key) events → ∀ profile, let s' := store_step key s (CxUpserted profile) in
    profile ∈ cx_items s' ∧
    ∀ i item, cx_items s !! i = Some item → cx_items s' !! i = Some (if decide (key item = key profile) then profile else item)) ∧
  (∀ call, cx_deletes s !! call = Some true → cx_lists (store_step key s (CxDeleted call false)) = S (cx_lists s)).
Proof.
  intros s. split_and!.
  - intros He. destruct (store_run_ok key enabled events He) as [Hnd Hl]. split; [done|].
    intros Hz. destruct (cx_loading s) eqn:E; [|done]. apply Hl in E. unfold s in Hz. lia.
  - intros id later Hl. cbn [foldl]. apply store_steps_absent; [apply remove_absent|done].
  - intros He profile. destruct (store_run_ok key enabled events He) as [Hnd _].
    destruct (upsert_lookup key (cx_items s) profile Hnd) as [H1 H2]. by split.
  - intros call Hc. cbn. unfold cx_deleted. by rewrite Hc.
Qed.

(** A list in flight when the store is disabled (the vault is locked) is shown when it
    settles: nothing ties a list to the render that asked for it. *)
Lemma late_list_after_lock (items : list string) :
  cx_enabled (store_run id true [CxRender false; CxListed (inl items)]) = false ∧
  cx_items (store_run id true [CxRender false; CxListed (inl items)]) = items.
Proof. done. Qed.
