(* ===== verification/GroupCatalog.v ===== *)
(** * The catalog of groups ([features/connections/useConnectionGroups.ts])

    The hook that migrates the old groups, lists the groups and changes them, as a
    machine: each [reload] takes a number and waits for the backend at its stages; each
    change holds the catalog until its own reload is over. *)

From S2P Require Import Prelude SnapshotCodec ConnectionGroups.
From Stdlib Require Import Lia.

#[local] Open Scope nat_scope.

(** Who waits for a reload. *)
Inductive ReloadCaller := ByEffect | ByMutate | ByResolve.

#[export] Instance ReloadCaller_eq_dec : EqDecision ReloadCaller.
Proof. solve_decision. Defined.

(** What a reload waits for: the migration, the list of the groups, or the reload of the
    connections that follows the first complete migration. *)
Inductive ReloadStage :=
  | RlMigrating
  | RlListing (report : LegacyGroupReport)
  | RlReloadingConnections.

Record Reload := mkReload {
  rl_request : nat;
  rl_caller : ReloadCaller;
  rl_stage : ReloadStage;
}.

(** What the hook shows. *)
Record CatalogView := mkView {
  gv_migration : option LegacyGroupReport;
  gv_groups : list ConnectionGroup;
  gv_error : option string;
  gv_ready : bool;
}.

(** A change waits for its operation and then for the connections; it keeps the [reload]
    of its render. *)
Inductive Mutation :=
  | MutOperation (enabled : bool)
  | MutReloadConnections (enabled : bool).

Record Catalog := mkCatalog {
  gc_enabled : bool;
  gc_view : CatalogView;
  gc_busy : bool;
  gc_active : bool;
  gc_requestId : nat;
  gc_legacyRaw : option string;
  gc_refreshed : bool;
  gc_expansion : ExpansionStorage;
  gc_stored : option string;
  gc_reloads : list Reload;
  gc_mutation : option Mutation;
}.

Definition set_view (view : CatalogView) (c : Catalog) : Catalog :=
  mkCatalog (gc_enabled c) view (gc_busy c) (gc_active c) (gc_requestId c) (gc_legacyRaw c) (gc_refreshed c)
    (gc_expansion c) (gc_stored c) (gc_reloads c) (gc_mutation c).

Definition set_reloads (reloads : list Reload) (c : Catalog) : Catalog :=
  mkCatalog (gc_enabled c) (gc_view c) (gc_busy c) (gc_active c) (gc_requestId c) (gc_legacyRaw c) (gc_refreshed c)
    (gc_expansion c) (gc_stored c) reloads (gc_mutation c).

Definition set_refreshed (refreshed : bool) (c : Catalog) : Catalog :=
  mkCatalog (gc_enabled c) (gc_view c) (gc_busy c) (gc_active c) (gc_requestId c) (gc_legacyRaw c) refreshed
    (gc_expansion c) (gc_stored c) (gc_reloads c) (gc_mutation c).

Definition set_expansion (expansion : ExpansionStorage) (c : Catalog) : Catalog :=
  mkCatalog (gc_enabled c) (gc_view c) (gc_busy c) (gc_active c) (gc_requestId c) (gc_legacyRaw c) (gc_refreshed c)
    expansion (gc_stored c) (gc_reloads c) (gc_mutation c).

(** [active.current] and [setBusy] with the change that is in progress. *)
Definition set_active (active : bool) (mutation : option Mutation) (c : Catalog) : Catalog :=
  mkCatalog (gc_enabled c) (gc_view c) active active (gc_requestId c) (gc_legacyRaw c) (gc_refreshed c)
    (gc_expansion c) (gc_stored c) (gc_reloads c) mutation.

Definition view_error (message : string) (v : CatalogView) : CatalogView :=
  mkView (gv_migration v) (gv_groups v) (Some message) (gv_ready v).

Definition initialCatalog (expansion : ExpansionStorage) (stored : option string) : Catalog :=
  mkCatalog false (mkView None [] None false) false false 0 None false expansion stored [] None.

Section catalog.
(** [JSON.parse], and the message of a text that changed under the dialog. *)
Context (parse : string → option json) (text_changed : string).

(** What follows a reload: a change or a resolution lets the catalog go. *)
Definition finish_reload (caller : ReloadCaller) (c : Catalog) : Catalog :=
  match caller with
  | ByEffect => c
  | _ => set_active false None c
  end.

(** [reload] until its first wait; [resolving] says that it was given resolutions. *)
Definition start_reload (enabled : bool) (caller : ReloadCaller) (resolving : bool) (c : Catalog) : Catalog :=
  let request := S (gc_requestId c) in
  let v := gc_view c in
  let numbered (view : CatalogView) (legacyRaw : option string) (reloads : list Reload) :=
    mkCatalog (gc_enabled c) view (gc_busy c) (gc_active c) request legacyRaw (gc_refreshed c) (gc_expansion c)
      (gc_stored c) reloads (gc_mutation c) in
  if negb enabled then
    finish_reload caller (numbered (mkView (gv_migration v) [] (gv_error v) false) (gc_legacyRaw c) (gc_reloads c))
  else if resolving && bool_decide (gc_stored c ≠ gc_legacyRaw c) then
    finish_reload caller
      (numbered (mkView (gv_migration v) (gv_groups v) (Some text_changed) false) (gc_legacyRaw c) (gc_reloads c))
  else
    numbered (mkView (gv_migration v) (gv_groups v) (gv_error v) false) (gc_stored c)
      (gc_reloads c ++ [mkReload request caller RlMigrating]).

Definition find_reload (request : nat) (c : Catalog) : option Reload :=
  js_find (λ r, rl_request r = request) (gc_reloads c).

(** The reload is over. *)
Definition drop_reload (r : Reload) (c : Catalog) : Catalog :=
  finish_reload (rl_caller r) (set_reloads (filter (λ x, rl_request x ≠ rl_request r) (gc_reloads c)) c).

Definition move_reload (r : Reload) (stage : ReloadStage) (c : Catalog) : Catalog :=
  set_reloads ((λ x, if decide (rl_request x = rl_request r) then mkReload (rl_request x) (rl_caller x) stage else x) <$>
    gc_reloads c) c.

(** The [catch] of [reload]. *)
Definition reload_failed (r : Reload) (message : string) (c : Catalog) : Catalog :=
  drop_reload r (if decide (rl_request r = gc_requestId c) then set_view (view_error message (gc_view c)) c else c).

(** [connectionGroupMigrateLegacy] settles. *)
Definition migrate_settled (request : nat) (result : LegacyGroupReport + string) (c : Catalog) : Catalog :=
  match find_reload request c with
  | Some (mkReload _ _ RlMigrating as r) =>
      match result with
      | inr message => reload_failed r message c
      | inl report =>
          if decide (request ≠ gc_requestId c) then drop_reload r c
          else
            let v := gc_view c in
            let c := set_view (mkView (Some report) (gv_groups v) (gv_error v) (gv_ready v)) c in
            let c := if lg_complete report then set_expansion (migrateGroupExpansion parse (gc_expansion c) report) c else c in
            move_reload r (RlListing report) c
      end
  | _ => c
  end.

(** [connectionGroupList] settles. *)
Definition list_settled (request : nat) (result : list ConnectionGroup + string) (c : Catalog) : Catalog :=
  match find_reload request c with
  | Some (mkReload _ _ (RlListing report) as r) =>
      match result with
      | inr message => reload_failed r message c
      | inl rows =>
          if decide (request ≠ gc_requestId c) then drop_reload r c
          else
            let c := set_view (mkView (gv_migration (gc_view c)) rows (lg_issue report) (lg_complete report)) c in
            if lg_complete report && negb (gc_refreshed c) then move_reload r RlReloadingConnections (set_refreshed true c)
            else drop_reload r c
      end
  | _ => c
  end.

(** The reload of the connections that a reload of the groups waits for is over. *)
Definition connections_reloaded (request : nat) (c : Catalog) : Catalog :=
  match find_reload request c with
  | Some (mkReload _ _ RlReloadingConnections as r) => drop_reload r c
  | _ => c
  end.

(** [mutate] until its first wait; it throws when the catalog is not ready or held. *)
Definition mutate (c : Catalog) : Catalog :=
  if negb (gv_ready (gc_view c)) || gc_active c then c
  else set_active true (Some (MutOperation (gc_enabled c))) c.

Definition operation_settled (result : option string) (c : Catalog) : Catalog :=
  match gc_mutation c, result with
  | Some (MutOperation enabled), None => set_active (gc_active c) (Some (MutReloadConnections enabled)) c
  | Some (MutOperation _), Some message => set_active false None (set_view (view_error message (gc_view c)) c)
  | _, _ => c
  end.

Definition mutation_reloaded (c : Catalog) : Catalog :=
  match gc_mutation c with
  | Some (MutReloadConnections enabled) => start_reload enabled ByMutate false (set_active (gc_active c) None c)
  | _ => c
  end.

Definition resolveMigration (resolving : bool) (c : Catalog) : Catalog :=
  if gc_active c then c else start_reload (gc_enabled c) ByResolve resolving (set_active true None c).

Inductive CatalogEvent :=
  | GcEffect (enabled : bool)
  | GcReload
  | GcStored (stored : option string)
  | GcMigrated (request : nat) (result : LegacyGroupReport + string)
  | GcListed (request : nat) (result : list ConnectionGroup + string)
  | GcReloaded (request : nat)
  | GcMutate
  | GcOperation (result : option string)
  | GcMutationReloaded
  | GcResolve (resolving : bool).

(** [GcEffect] is a render with other connections or another value of [enabled]: the
    cleanup of the effect takes a number, and the effect reloads. *)
Definition catalog_step (c : Catalog) (event : CatalogEvent) : Catalog :=
  match event with
  | GcEffect enabled =>
      start_reload enabled ByEffect false
        (mkCatalog enabled (gc_view c) (gc_busy c) (gc_active c) (S (gc_requestId c)) (gc_legacyRaw c) (gc_refreshed c)
          (gc_expansion c) (gc_stored c) (gc_reloads c) (gc_mutation c))
  | GcReload => start_reload (gc_enabled c) ByEffect false c
  | GcStored stored =>
      mkCatalog (gc_enabled c) (gc_view c) (gc_busy c) (gc_active c) (gc_requestId c) (gc_legacyRaw c) (gc_refreshed c)
        (gc_expansion c) stored (gc_reloads c) (gc_mutation c)
  | GcMigrated request result => migrate_settled request result c
  | GcListed request result => list_settled request result c
  | GcReloaded request => connections_reloaded request c
  | GcMutate => mutate c
  | GcOperation result => operation_settled result c
  | GcMutationReloaded => mutation_reloaded c
  | GcResolve resolving => resolveMigration resolving c
  end.

Definition catalog_run (expansion : ExpansionStorage) (stored : option string) : list CatalogEvent → Catalog :=
  foldl catalog_step (initialCatalog expansion stored).
End catalog.

(** ** Invariant *)

(** The reloads that hold the catalog. *)
Definition holding (reloads : list Reload) : nat := length (filter (λ r, rl_caller r ≠ ByEffect) reloads).

#[global] Arguments holding : simpl never.

Definition in_progress (mutation : option Mutation) : nat := match mutation with Some _ => 1 | None => 0 end.

Record catalog_ok (c : Catalog) : Prop := {
  ck_busy : gc_busy c = gc_active c;
  ck_held : in_progress (gc_mutation c) + holding (gc_reloads c) = if gc_active c then 1 else 0;
  ck_distinct : NoDup (rl_request <$> gc_reloads c);
  ck_numbered : Forall (λ r, rl_request r ≤ gc_requestId c) (gc_reloads c);
  ck_ready : gv_ready (gc_view c) = true →
    Forall (λ r, rl_request r = gc_requestId c → rl_stage r = RlReloadingConnections) (gc_reloads c);
}.

Lemma holding_cons r l : holding (r :: l) = (if decide (rl_caller r = ByEffect) then 0 else 1) + holding l.
Proof. unfold holding. rewrite filter_cons. repeat case_decide; naive_solver. Qed.

Lemma holding_snoc l r : holding (l ++ [r]) = holding l + (if decide (rl_caller r = ByEffect) then 0 else 1).
Proof. unfold holding. rewrite filter_app, length_app, filter_cons, filter_nil. repeat case_decide; cbn; naive_solver. Qed.

Lemma holding_drop l r :
  NoDup (rl_request <$> l) → r ∈ l →
  holding l = (if decide (rl_caller r = ByEffect) then 0 else 1) + holding (filter (λ x, rl_request x ≠ rl_request r) l).
Proof.
  induction l as [|x l IH]; intros Hnd Hr; [by apply elem_of_nil in Hr|]. cbn in Hnd. apply NoDup_cons in Hnd as [Hx Hnd].
  rewrite holding_cons, filter_cons. apply elem_of_cons in Hr as [->|Hr].
  - rewrite (decide_False (P := rl_request x ≠ rl_request x)) by tauto. f_equal. f_equal. symmetry. apply filter_all.
    intros y Hy Heq. apply Hx. rewrite <- Heq. by apply list_elem_of_fmap_2.
  - assert (rl_request x ≠ rl_request r) as Hne by (intros Heq; apply Hx; rewrite Heq; by apply list_elem_of_fmap_2).
    rewrite (decide_True (P := rl_request x ≠ rl_request r)) by done. rewrite holding_cons, IH by done. lia.
Qed.

Lemma find_reload_Some request c r : find_reload request c = Some r → r ∈ gc_reloads c ∧ rl_request r = request.
Proof. intros H. by apply js_find_Some in H. Qed.

Lemma requests_drop c r : NoDup (rl_request <$> gc_reloads c) →
  NoDup (rl_request <$> filter (λ x, rl_request x ≠ rl_request r) (gc_reloads c)).
Proof. intros Hnd. eapply sublist_NoDup; [exact Hnd|]. apply fmap_sublist, sublist_filter. Qed.

Section steps.
Context (parse : string → option json) (text_changed : string).

(** The reload goes, and with it the hold that it had. *)
Lemma drop_reload_ok c r : catalog_ok c → r ∈ gc_reloads c → catalog_ok (drop_reload r c).
Proof.
  intros [Hb Hh Hd Hn Hr] Hin. pose proof (holding_drop _ _ Hd Hin) as Hhold. unfold drop_reload.
  set (rest := filter _ _) in *. assert (Forall (λ x, x ∈ gc_reloads c) rest) as Hrest.
  { apply Forall_forall. intros x Hx. by apply list_elem_of_filter in Hx as [_ Hx]. }
  assert (NoDup (rl_request <$> rest)) as Hd' by by apply requests_drop.
  assert (∀ P, Forall P (gc_reloads c) → Forall P rest) as Hsub.
  { intros P HP. rewrite Forall_forall in HP, Hrest |- *. eauto. }
  destruct (rl_caller r) eqn:Ec; cbn [finish_reload]; split; cbn; auto.
  all: first [rewrite decide_True in Hhold by done|rewrite decide_False in Hhold by done].
  all: destruct (gc_active c), (gc_mutation c); cbn in *; lia.
Qed.

Lemma set_view_ok c view :
  catalog_ok c → (gv_ready view = true → gv_ready (gc_view c) = true ∨
    Forall (λ r, rl_request r = gc_requestId c → rl_stage r = RlReloadingConnections) (gc_reloads c)) →
  catalog_ok (set_view view c).
Proof. intros [Hb Hh Hd Hn Hr] Hv. split; cbn; [done..|]. intros [?|?]%Hv; auto. Qed.

Lemma failed_ok c r message : catalog_ok c → r ∈ gc_reloads c → catalog_ok (reload_failed r message c).
Proof.
  intros Hok Hr. unfold reload_failed. apply drop_reload_ok; case_decide; [|done|done|done]. apply set_view_ok; [done|by left].
Qed.
Lemma move_ok c r stage :
  catalog_ok c → r ∈ gc_reloads c →
  (gv_ready (gc_view c) = true → rl_request r = gc_requestId c → stage = RlReloadingConnections) →
  catalog_ok (move_reload r stage c).
Proof.
  intros [Hb Hh Hd Hn Hr] Hin Hs. unfold move_reload. set (move := λ x, if decide _ then _ else x).
  assert (∀ l : list Reload, rl_request <$> (move <$> l) = rl_request <$> l) as Hreq.
  { intros l. rewrite <- list_fmap_compose. apply list_fmap_ext. intros i x _. unfold move. cbn. by case_decide. }
  assert (∀ l : list Reload, holding (move <$> l) = holding l) as Hhold.
  { induction l as [|x l IH]; [done|]. rewrite fmap_cons, !holding_cons, IH.
    assert (rl_caller (move x) = rl_caller x) as -> by (unfold move; by case_decide). done. }
  split; cbn; [done|by rewrite Hhold|by rewrite Hreq| |].
  - apply Forall_fmap. eapply Forall_impl; [exact Hn|]. intros x Hx. unfold move. cbn. by case_decide.
  - intros Hv. apply Forall_fmap. eapply Forall_impl; [exact (Hr Hv)|]. intros x Hx. unfold move. cbn.
    case_decide as Hq; [|done]. cbn. intros Hreq'. apply Hs; congruence.
Qed.

(** The catalog is held by nobody but the caller of the reload that starts. *)
Lemma start_reload_ok enabled caller resolving c :
  gc_busy c = gc_active c →
  in_progress (gc_mutation c) + holding (gc_reloads c) + (if decide (caller = ByEffect) then 0 else 1) =
    (if gc_active c then 1 else 0) →
  NoDup (rl_request <$> gc_reloads c) → Forall (λ r, rl_request r ≤ gc_requestId c) (gc_reloads c) →
  catalog_ok (start_reload text_changed enabled caller resolving c).
Proof.
  intros Hb Hh Hd Hn. assert (∀ x, x ∈ gc_reloads c → rl_request x ≤ S (gc_requestId c)) as Hle.
  { intros x Hx. rewrite Forall_forall in Hn. specialize (Hn x Hx). lia. }
  assert (∀ view legacyRaw, gv_ready view = false → catalog_ok (finish_reload caller
    (mkCatalog (gc_enabled c) view (gc_busy c) (gc_active c) (S (gc_requestId c)) legacyRaw (gc_refreshed c)
      (gc_expansion c) (gc_stored c) (gc_reloads c) (gc_mutation c)))) as Hstop.
  { intros view legacyRaw Hv. destruct caller; cbn [finish_reload];
      (first [rewrite decide_True in Hh by done|rewrite decide_False in Hh by done]);
      split; cbn; try done; try (by apply Forall_forall); try (by rewrite Hv); try by rewrite Nat.add_0_r in Hh.
    all: destruct (gc_active c), (gc_mutation c); cbn in *; lia. }
  unfold start_reload. cbv zeta. destruct enabled; cbn [negb]; [|by apply Hstop].
  destruct (_ && _); [by apply Hstop|]. split; cbn; [done| | | |done].
  - rewrite holding_snoc. cbn [rl_caller]. lia.
  - rewrite fmap_app. apply NoDup_app. split; [done|]. split; [|apply NoDup_singleton].
    intros x (y & -> & Hy)%list_elem_of_fmap Hx%list_elem_of_singleton. rewrite Forall_forall in Hn. specialize (Hn y Hy). cbn in Hx. lia.
  - apply Forall_app. split; [by apply Forall_forall|]. by repeat constructor.
Qed.

Lemma catalog_step_ok c event : catalog_ok c → catalog_ok (catalog_step parse text_changed c event).
Proof.
  intros Hok. pose proof Hok as [Hb Hh Hd Hn Hr]. destruct event as [enabled| |stored|request result|request result|request| |result| |resolving]; cbn [catalog_step].
  - apply start_reload_ok; cbn; [done|rewrite decide_True by done; lia|done|].
    eapply Forall_impl; [exact Hn|]. cbn. lia.
  - apply start_reload_ok; [done|rewrite decide_True by done; lia|done|done].
  - by split.
  - unfold migrate_settled. destruct (find_reload request c) as [[q caller []]|] eqn:Ef; try done.
    apply find_reload_Some in Ef as [Hin Hq]. cbn in Hq. subst q. destruct result as [report|message]; [|by apply failed_ok].
    case_decide as Hs; [by apply drop_reload_ok|]. cbv zeta.
    assert (gv_ready (gc_view c) ≠ true) as Hnr.
    { intros Ht. apply Hr in Ht. rewrite Forall_forall in Ht. by specialize (Ht _ Hin Hs). }
    destruct (lg_complete report); (apply move_ok; [|done|done]).
    + assert (catalog_ok (set_view (mkView (Some report) (gv_groups (gc_view c)) (gv_error (gc_view c)) (gv_ready (gc_view c))) c))
        as [] by (apply set_view_ok; [done|by left]). by split.
    + apply set_view_ok; [done|by left].
  - unfold list_settled. destruct (find_reload request c) as [[q caller [|report|]]|] eqn:Ef; try done.
    apply find_reload_Some in Ef as [Hin Hq]. cbn in Hq. subst q. destruct result as [rows|message]; [|by apply failed_ok].
    case_decide as Hs; [by apply drop_reload_ok|]. cbv zeta.
    set (view := mkView _ _ _ _). set (r := mkReload _ _ _) in *.
    destruct (lg_complete report && negb (gc_refreshed (set_view view c))).
    + assert (catalog_ok (set_refreshed true c)) as Hf by by split.
      change (catalog_ok (set_view view (move_reload r RlReloadingConnections (set_refreshed true c)))).
      apply set_view_ok; [by apply move_ok|]. intros _. right. cbn. apply Forall_fmap, Forall_forall.
      intros x Hx Hreq. cbn. case_decide as Hq; [done|]. exfalso. apply Hq. cbn in *. congruence.
    + replace (drop_reload r (set_view view c)) with (set_view view (drop_reload r c)) by by destruct caller.
      apply set_view_ok; [by apply drop_reload_ok|]. intros _. right. apply Forall_forall. intros x Hx Hreq.
      destruct caller; cbn in Hx, Hreq; apply list_elem_of_filter in Hx as [Hne _]; by destruct Hne; congruence.
  - unfold connections_reloaded. destruct (find_reload request c) as [[q caller []]|] eqn:Ef; try done.
    apply find_reload_Some in Ef as [Hin Hq]. by apply drop_reload_ok.
  - unfold mutate. destruct (negb _ || gc_active c) eqn:E; [done|]. apply orb_false_iff in E as [_ Ha].
    rewrite Ha in *. split; cbn; try done. destruct (gc_mutation c); cbn in *; lia.
  - unfold operation_settled. destruct (gc_mutation c) as [[enabled|enabled]|] eqn:Em; [|done|done]. destruct result as [message|].
    + cbn in Hh. split; cbn; try done. destruct (gc_active c); lia.
    + cbn in Hh. by split.
  - unfold mutation_reloaded. destruct (gc_mutation c) as [[enabled|enabled]|] eqn:Em; [done| |done].
    cbn in Hh. apply start_reload_ok; cbn; [done|rewrite decide_False by done; lia|done|done].
  - unfold resolveMigration. destruct (gc_active c) eqn:Ha; [done|].
    apply start_reload_ok; cbn; [done|rewrite decide_False by done; destruct (gc_mutation c); cbn in *; lia|done|done].
Qed.

Lemma catalog_run_ok expansion stored events : catalog_ok (catalog_run parse text_changed expansion stored events).
Proof.
  unfold catalog_run. assert (catalog_ok (initialCatalog expansion stored)) as Hs by (by split; cbn; try constructor).
  revert Hs. generalize (initialCatalog expansion stored). induction events as [|e l IH]; intros c Hc; [done|].
  cbn. by apply IH, catalog_step_ok.
Qed.
End steps.

(** What the catalog shows and stores. *)
Definition shown (c : Catalog) : CatalogView * ExpansionStorage := (gc_view c, gc_expansion c).

Lemma drop_shown r c : shown (drop_reload r c) = shown c.
Proof. unfold drop_reload. by destruct (rl_caller r). Qed.

Lemma failed_stale r message c : rl_request r ≠ gc_requestId c → shown (reload_failed r message c) = shown c.
Proof. intros Hs. unfold reload_failed. rewrite drop_shown. by rewrite decide_False. Qed.

Lemma stale_ignored parse text_changed c event request :
  request ≠ gc_requestId c →
  (∃ result, event = GcMigrated request result) ∨ (∃ result, event = GcListed request result) →
  shown (catalog_step parse text_changed c event) = shown c.
Proof.
  intros Hs [[result ->]|[result ->]]; cbn [catalog_step].
  - unfold migrate_settled. destruct (find_reload request c) as [[q caller []]|] eqn:Ef; try done.
    apply find_reload_Some in Ef as [_ Hq]. cbn in Hq. subst q. destruct result; [|by apply failed_stale].
    rewrite decide_True by done. apply drop_shown.
  - unfold list_settled. destruct (find_reload request c) as [[q caller []]|] eqn:Ef; try done.
    apply find_reload_Some in Ef as [_ Hq]. cbn in Hq. subst q. destruct result; [|by apply failed_stale].
    rewrite decide_True by done. apply drop_shown.
Qed.

Lemma mutation_starts parse text_changed c event :
  gc_mutation c = None → is_Some (gc_mutation (catalog_step parse text_changed c event)) →
  event = GcMutate ∧ gv_ready (gc_view c) = true ∧ gc_active c = false.
Proof.
  intros Hm. assert (∀ caller t, gc_mutation t = None → gc_mutation (finish_reload caller t) = None) as Hf by by intros [].
  assert (∀ r t, gc_mutation t = None → gc_mutation (drop_reload r t) = None) as Hd.
  { intros r t Ht. unfold drop_reload. by apply Hf. }
  assert (∀ r message t, gc_mutation t = None → gc_mutation (reload_failed r message t) = None) as Hr.
  { intros r message t Ht. unfold reload_failed. apply Hd. by case_decide. }
  assert (∀ enabled caller resolving t, gc_mutation t = None →
    gc_mutation (start_reload text_changed enabled caller resolving t) = None) as Hst.
  { intros enabled caller resolving t Ht. unfold start_reload. cbv zeta. destruct (negb enabled); [by apply Hf|].
    destruct (_ && _); [by apply Hf|done]. }
  assert (∀ t, gc_mutation t = None → is_Some (gc_mutation t) → False) as Hno by (intros t -> [? [=]]).
  destruct event as [enabled| |stored|request result|request result|request| |result| |resolving]; cbn [catalog_step].
  7: { unfold mutate. destruct (gv_ready _) eqn:E1, (gc_active c) eqn:E2; cbn [negb orb]; intros Hs; try by destruct (Hno c).
    done. }
  all: intros Hs; exfalso; revert Hs; apply Hno.
  - by apply Hst.
  - by apply Hst.
  - done.
  - unfold migrate_settled. destruct (find_reload request c) as [[q caller []]|]; try done. destruct result; [|by apply Hr].
    case_decide; [by apply Hd|]. cbn. by destruct (lg_complete _).
  - unfold list_settled. destruct (find_reload request c) as [[q caller []]|]; try done. destruct result; [|by apply Hr].
    case_decide; [by apply Hd|]. cbv zeta. destruct (_ && _); [done|by apply Hd].
  - unfold connections_reloaded. destruct (find_reload request c) as [[q caller []]|]; try done. by apply Hd.
  - unfold operation_settled. by rewrite Hm.
  - unfold mutation_reloaded. by rewrite Hm.
  - unfold resolveMigration. destruct (gc_active c); [done|]. by apply Hst.
Qed.

(** The groups are ready after an event: they were, and the newest reload is the same; or
    the event is the list that the newest reload waited for. *)
Lemma ready_step parse text_changed c event :
  let c' := catalog_step parse text_changed c event in
  gv_ready (gc_view c') = true →
  (gv_ready (gc_view c) = true ∧ gc_requestId c' = gc_requestId c ∧ gv_groups (gc_view c') = gv_groups (gc_view c)) ∨
  (event = GcListed (gc_requestId c') (inl (gv_groups (gc_view c'))) ∧
   ∃ r report, find_reload (gc_requestId c') c = Some r ∧ rl_stage r = RlListing report ∧ lg_complete report = true).
Proof.
  assert (∀ enabled caller resolving t, gv_ready (gc_view (start_reload text_changed enabled caller resolving t)) ≠ true) as Hst.
  { intros enabled caller resolving t. unfold start_reload. cbv zeta. destruct (negb enabled); [by destruct caller|].
    destruct (_ && _); [by destruct caller|done]. }
  assert (∀ r t, gc_view (drop_reload r t) = gc_view t ∧ gc_requestId (drop_reload r t) = gc_requestId t) as Hd.
  { intros r t. unfold drop_reload. by destruct (rl_caller r). }
  assert (∀ r message, gv_ready (gc_view (reload_failed r message c)) = gv_ready (gc_view c) ∧
    gv_groups (gc_view (reload_failed r message c)) = gv_groups (gc_view c) ∧
    gc_requestId (reload_failed r message c) = gc_requestId c) as Hf.
  { intros r message. unfold reload_failed. rewrite !(proj1 (Hd _ _)), (proj2 (Hd _ _)). by case_decide. }
  cbv zeta. destruct event as [enabled| |stored|request result|request result|request| |result| |resolving]; cbn [catalog_step].
  - intros ?%Hst. done.
  - intros ?%Hst. done.
  - by left.
  - unfold migrate_settled. destruct (find_reload request c) as [[q caller []]|] eqn:Ef; auto. destruct result as [report|message].
    + case_decide; [rewrite (proj1 (Hd _ _)), (proj2 (Hd _ _)); auto|]. cbv zeta. by destruct (lg_complete report); auto.
    + destruct (Hf (mkReload q caller RlMigrating) message) as (-> & -> & ->). auto.
  - unfold list_settled. destruct (find_reload request c) as [[q caller [|report|]]|] eqn:Ef; auto. destruct result as [rows|message].
    + case_decide as Hs; [rewrite (proj1 (Hd _ _)), (proj2 (Hd _ _)); auto|]. subst request. cbv zeta.
      intros Hr. right.
      assert (lg_complete report = true) as Hc.
      { revert Hr. destruct (_ && _); [done|]. by rewrite (proj1 (Hd _ _)). }
      split; [|exists (mkReload q caller (RlListing report)), report];
        destruct (_ && _); rewrite ?(proj1 (Hd _ _)), ?(proj2 (Hd _ _)); cbn; auto.
    + destruct (Hf (mkReload q caller (RlListing report)) message) as (-> & -> & ->). auto.
  - unfold connections_reloaded. destruct (find_reload request c) as [[q caller []]|] eqn:Ef; auto.
    rewrite (proj1 (Hd _ _)), (proj2 (Hd _ _)). auto.
  - unfold mutate. destruct (_ || _); auto.
  - unfold operation_settled. destruct (gc_mutation c) as [[]|], result; auto.
  - unfold mutation_reloaded. destruct (gc_mutation c) as [[]|]; auto. intros ?%Hst. done.
  - unfold resolveMigration. destruct (gc_active c); auto. intros ?%Hst. done.
Qed.

(** Groups that are ready are the list that the newest reload got. *)
Lemma ready_listed parse text_changed expansion stored events :
  let run := catalog_run parse text_changed expansion stored in
  gv_ready (gc_view (run events)) = true →
  ∃ before after r report, events = before ++ GcListed (gc_requestId (run events)) (inl (gv_groups (gc_view (run events)))) :: after ∧
    find_reload (gc_requestId (run events)) (run before) = Some r ∧ rl_stage r = RlListing report ∧ lg_complete report = true.
Proof.
  cbv zeta. induction events as [|e l IH] using rev_ind; [done|].
  assert (catalog_run parse text_changed expansion stored (l ++ [e]) =
    catalog_step parse text_changed (catalog_run parse text_changed expansion stored l) e) as ->
    by (unfold catalog_run; by rewrite foldl_app).
  intros [(Hr & -> & ->)|(He & r & report & H)]%ready_step.
  - destruct (IH Hr) as (before & after & r & report & Heq & H). exists before, (after ++ [e]), r, report.
    split; [|done]. by rewrite Heq at 1; rewrite <- app_assoc.
  - exists l, [], r, report. split; [by rewrite <- He|done].
Qed.

(** ** Properties *)

(** C27: The catalog of groups. However the calls to the backend settle, at most one
    change or resolution is in progress, the catalog is busy exactly then, and it is
    free again when nothing is in flight; a change starts only when the groups are ready
    and nothing holds them; the groups are shown as ready only when the newest reload,
    after a complete migration, has listed exactly those groups and waits for nothing but
    the connections (so a reload that starts takes the readiness away); and what an older
    reload gets, a list or an error, neither shows nor stores anything. *)
Theorem group_catalog_single_flight parse text_changed expansion stored events :
  let c := catalog_run parse text_changed expansion stored events in
  let holders := in_progress (gc_mutation c) + holding (gc_reloads c) in
  gc_busy c = gc_active c ∧ holders ≤ 1 ∧ (gc_busy c = true ↔ holders = 1) ∧
  (gc_mutation c = None → gc_reloads c = [] → gc_busy c = false) ∧
  (∀ event, gc_mutation c = None → is_Some (gc_mutation (catalog_step parse text_changed c event)) →
    event = GcMutate ∧ gv_ready (gc_view c) = true ∧ gc_active c = false) ∧
  (gv_ready (gc_view c) = true → ∀ r, r ∈ gc_reloads c → rl_request r = gc_requestId c → rl_stage r = RlReloadingConnections) ∧
  (gv_ready (gc_view c) = true →
    ∃ before after r report, events = before ++ GcListed (gc_requestId c) (inl (gv_groups (gc_view c))) :: after ∧
      find_reload (gc_requestId c) (catalog_run parse text_changed expansion stored before) = Some r ∧
      rl_stage r = RlListing report ∧ lg_complete report = true) ∧
  (∀ event request, request ≠ gc_requestId c →
    (∃ result, event = GcMigrated request result) ∨ (∃ result, event = GcListed request result) →
    shown (catalog_step parse text_changed c event) = shown c).
Proof.
  intros c holders. destruct (catalog_run_ok parse text_changed expansion stored events) as [Hb Hh _ _ Hr].
  fold c in Hb, Hh, Hr. fold holders in Hh. split_and!.
  - done.
  - rewrite Hh. destruct (gc_active c); lia.
  - rewrite Hb, Hh. by destruct (gc_active c).
  - intros Hm He. unfold holders in Hh. rewrite Hm, He in Hh. rewrite Hb. by destruct (gc_active c).
  - intros event Hm Hs. by eapply mutation_starts.
  - intros Hv. pose proof (proj1 (Forall_forall _ _) (Hr Hv)) as Hall. exact Hall.
  - apply ready_listed.
  - intros event request Hs He. by eapply stale_ignored.
Qed.

(** A change that is in flight when the catalog is disabled (the vault is locked) lists
    the groups when it is over: its reload is the one of an earlier render. *)
Lemma change_lists_after_lock groups :
  let report := mkLegacyReport true [] None in
  let c := catalog_run (λ _, None) "" (mkExpansion None (Some [])) None
    [GcEffect true; GcMigrated 2 (inl report); GcListed 2 (inl groups); GcReloaded 2; GcMutate; GcEffect false;
     GcOperation None; GcMutationReloaded; GcMigrated 5 (inl report); GcListed 5 (inl groups)] in
  gc_enabled c = false ∧ gv_groups (gc_view c) = groups ∧ gv_ready (gc_view c) = true.
Proof. done. Qed.
