(* ===== verification/SecretVault.v ===== *)
(** * The gate of the secret vault ([features/security/useSecretVault.ts])

    The hook that unlocks the vault, by itself or with the master password, and locks it
    after a time without input, as a machine of renders with effects, calls to the
    backend in flight and the timer. [ready] opens the workspace. *)

From S2P Require Import Prelude.
From Stdlib Require Import Lia.

#[local] Open Scope nat_scope.

Record SecretVaultStatus := mkStatus {
  vs_initialized : bool;
  vs_unlocked : bool;
}.

(** The calls to the backend that are in flight. *)
Inductive VaultCall := VcStatus | VcUnlock | VcLocalStatus | VcLocalUnlock | VcLock | VcEnable | VcDisable.

#[export] Instance VaultCall_eq_dec : EqDecision VaultCall.
Proof. solve_decision. Defined.

(** [vt_attempted] and [vt_inFlight] are the two refs of the local unlock. *)
Record Vault := mkVault {
  vt_masterPasswordEnabled : bool;
  vt_autoLockMinutes : Z;
  vt_status : option SecretVaultStatus;
  vt_loading : bool;
  vt_unlocking : bool;
  vt_error : option string;
  vt_attempted : bool;
  vt_inFlight : bool;
  vt_timer : bool;
  vt_calls : list VaultCall;
}.

Definition unlocked (v : Vault) : bool := match vt_status v with Some s => vs_unlocked s | None => false end.

(** The automatic local unlock is for vaults without a master password. *)
Definition canAutoUnlockLocal (v : Vault) : bool := negb (vt_masterPasswordEnabled v).

Definition set_status (status : SecretVaultStatus) (v : Vault) : Vault :=
  mkVault (vt_masterPasswordEnabled v) (vt_autoLockMinutes v) (Some status) (vt_loading v) (vt_unlocking v) (vt_error v)
    (vt_attempted v) (vt_inFlight v) (vt_timer v) (vt_calls v).

Definition set_loading (loading : bool) (v : Vault) : Vault :=
  mkVault (vt_masterPasswordEnabled v) (vt_autoLockMinutes v) (vt_status v) loading (vt_unlocking v) (vt_error v)
    (vt_attempted v) (vt_inFlight v) (vt_timer v) (vt_calls v).

Definition set_unlocking (unlocking : bool) (v : Vault) : Vault :=
  mkVault (vt_masterPasswordEnabled v) (vt_autoLockMinutes v) (vt_status v) (vt_loading v) unlocking (vt_error v)
    (vt_attempted v) (vt_inFlight v) (vt_timer v) (vt_calls v).

Definition set_error (error : option string) (v : Vault) : Vault :=
  mkVault (vt_masterPasswordEnabled v) (vt_autoLockMinutes v) (vt_status v) (vt_loading v) (vt_unlocking v) error
    (vt_attempted v) (vt_inFlight v) (vt_timer v) (vt_calls v).

Definition set_attempted (attempted : bool) (v : Vault) : Vault :=
  mkVault (vt_masterPasswordEnabled v) (vt_autoLockMinutes v) (vt_status v) (vt_loading v) (vt_unlocking v) (vt_error v)
    attempted (vt_inFlight v) (vt_timer v) (vt_calls v).

Definition set_inFlight (inFlight : bool) (v : Vault) : Vault :=
  mkVault (vt_masterPasswordEnabled v) (vt_autoLockMinutes v) (vt_status v) (vt_loading v) (vt_unlocking v) (vt_error v)
    (vt_attempted v) inFlight (vt_timer v) (vt_calls v).

Definition set_timer (timer : bool) (v : Vault) : Vault :=
  mkVault (vt_masterPasswordEnabled v) (vt_autoLockMinutes v) (vt_status v) (vt_loading v) (vt_unlocking v) (vt_error v)
    (vt_attempted v) (vt_inFlight v) timer (vt_calls v).

Definition set_calls (calls : list VaultCall) (v : Vault) : Vault :=
  mkVault (vt_masterPasswordEnabled v) (vt_autoLockMinutes v) (vt_status v) (vt_loading v) (vt_unlocking v) (vt_error v)
    (vt_attempted v) (vt_inFlight v) (vt_timer v) calls.

Definition call (c : VaultCall) (v : Vault) : Vault := set_calls (vt_calls v ++ [c]) v.

(** ** Commands, until their first wait *)

Definition refresh (v : Vault) : Vault := call VcStatus (set_error None (set_loading true v)).

Definition unlock (v : Vault) : Vault := call VcUnlock (set_error None (set_unlocking true v)).

(** The error stays while the unlock is tried again. *)
Definition unlockLocal (v : Vault) : Vault :=
  if vt_inFlight v then v else call VcLocalStatus (set_loading true (set_unlocking true (set_inFlight true v))).

Definition lock (v : Vault) : Vault := call VcLock (set_error None v).

Definition enableMasterPassword (v : Vault) : Vault := call VcEnable (set_error None (set_unlocking true v)).

Definition disableMasterPassword (v : Vault) : Vault := call VcDisable (set_error None (set_unlocking true v)).

Definition retry (v : Vault) : Vault := if canAutoUnlockLocal v then unlockLocal v else refresh v.

(** ** Calls that settle *)

(** The [finally] of [unlockLocal]. *)
Definition local_over (v : Vault) : Vault := set_loading false (set_unlocking false (set_inFlight false v)).

Definition call_settled (c : VaultCall) (result : SecretVaultStatus + string) (v : Vault) : Vault :=
  match c, result with
  | VcStatus, inl status => set_loading false (set_status status v)
  | VcStatus, inr message => set_loading false (set_error (Some message) v)
  | VcLocalStatus, inl status =>
      if vs_unlocked status then local_over (set_error None (set_status status v))
      else call VcLocalUnlock (set_status status v)
  | VcLocalUnlock, inl status => local_over (set_error None (set_status status v))
  | (VcLocalStatus | VcLocalUnlock), inr message => local_over (set_error (Some message) v)
  | VcLock, inl status => set_status status v
  | VcLock, inr message => set_error (Some message) v
  | (VcUnlock | VcEnable | VcDisable), inl status => set_unlocking false (set_status status v)
  | (VcUnlock | VcEnable | VcDisable), inr message => set_unlocking false (set_error (Some message) v)
  end.

(** ** Effects *)

(** Whether the effect of the timer listens and sets one. *)
Definition locks_itself (v : Vault) : bool :=
  vt_masterPasswordEnabled v && unlocked v && negb (Z.eqb (vt_autoLockMinutes v) 0).

(** The timer effect runs again when one of its dependencies changed. *)
Definition timer_effect (before v : Vault) : Vault :=
  if bool_decide (vt_masterPasswordEnabled before = vt_masterPasswordEnabled v ∧ unlocked before = unlocked v ∧
      vt_autoLockMinutes before = vt_autoLockMinutes v)
  then v else set_timer (locks_itself v) v.

(** The effects of [masterPasswordEnabled]: refresh, forget the attempt, try the local
    unlock once. *)
Definition password_effects (v : Vault) : Vault :=
  let v := if canAutoUnlockLocal v then v else refresh v in
  let v := set_attempted false v in
  if negb (canAutoUnlockLocal v) || vt_attempted v then v else unlockLocal (set_attempted true v).

(** The effect that would unlock a vault left locked; it is guarded by both values of
    [masterPasswordEnabled]. *)
Definition leftover_effect (v : Vault) : Vault :=
  if canAutoUnlockLocal v || vt_masterPasswordEnabled v || vt_loading v || vt_unlocking v || unlocked v || vt_attempted v
  then v else unlockLocal (set_attempted true v).

Definition with_props (masterPasswordEnabled : bool) (autoLockMinutes : Z) (v : Vault) : Vault :=
  mkVault masterPasswordEnabled autoLockMinutes (vt_status v) (vt_loading v) (vt_unlocking v) (vt_error v)
    (vt_attempted v) (vt_inFlight v) (vt_timer v) (vt_calls v).

(** The first render, with its effects. *)
Definition mount_vault (masterPasswordEnabled : bool) (autoLockMinutes : Z) : Vault :=
  leftover_effect (password_effects
    (mkVault masterPasswordEnabled autoLockMinutes None true false None false false false [])).

(** ** Events *)

Inductive VaultEvent :=
  | VtProps (masterPasswordEnabled : bool) (autoLockMinutes : Z)
  | VtRefresh
  | VtUnlock
  | VtRetry
  | VtLock
  | VtEnable
  | VtDisable
  | VtSettled (index : nat) (result : SecretVaultStatus + string)
  | VtInput
  | VtTimer.

Definition vault_event (v : Vault) (event : VaultEvent) : Vault :=
  match event with
  | VtProps masterPasswordEnabled autoLockMinutes =>
      let v' := with_props masterPasswordEnabled autoLockMinutes v in
      if Bool.eqb masterPasswordEnabled (vt_masterPasswordEnabled v) then v' else password_effects v'
  | VtRefresh => refresh v
  | VtUnlock => unlock v
  | VtRetry => retry v
  | VtLock => lock v
  | VtEnable => enableMasterPassword v
  | VtDisable => disableMasterPassword v
  | VtSettled index result =>
      match vt_calls v !! index with
      | Some c => call_settled c result (set_calls (delete index (vt_calls v)) v)
      | None => v
      end
  | VtInput => if locks_itself v then set_timer true v else v
  | VtTimer => if vt_timer v then lock (set_timer false v) else v
  end.

(** An event, and the effects of the render that follows it. *)
Definition vault_step (v : Vault) (event : VaultEvent) : Vault :=
  let v' := vault_event v event in timer_effect v (leftover_effect v').

Definition vault_run (masterPasswordEnabled : bool) (autoLockMinutes : Z) : list VaultEvent → Vault :=
  foldl vault_step (mount_vault masterPasswordEnabled autoLockMinutes).

(** ** What the workspace reads *)

Definition ready (v : Vault) : bool := unlocked v.

Definition requiresUnlock (v : Vault) : bool :=
  negb (unlocked v) && (vt_masterPasswordEnabled v || truthy (vt_error v)).

(** ** Invariant *)

Definition is_local (c : VaultCall) : Prop := c = VcLocalStatus ∨ c = VcLocalUnlock.
Definition shows_loading (c : VaultCall) : Prop := c = VcStatus ∨ is_local c.
Definition shows_unlocking (c : VaultCall) : Prop := c = VcUnlock ∨ c = VcEnable ∨ c = VcDisable ∨ is_local c.

#[export] Instance is_local_dec c : Decision (is_local c).
Proof. unfold is_local. apply _. Defined.

Definition locals (calls : list VaultCall) : nat := length (filter is_local calls).
#[global] Arguments locals : simpl never.

Record vault_ok (v : Vault) : Prop := {
  vk_flight : locals (vt_calls v) = if vt_inFlight v then 1 else 0;
  vk_loading : vt_loading v = true → Exists shows_loading (vt_calls v);
  vk_unlocking : vt_unlocking v = true → Exists shows_unlocking (vt_calls v);
}.

Lemma locals_app l k : locals (l ++ k) = locals l + locals k.
Proof. unfold locals. by rewrite filter_app, length_app. Qed.

Lemma locals_one c : locals [c] = if decide (is_local c) then 1 else 0.
Proof. unfold locals. rewrite filter_cons. by case_decide. Qed.

Lemma locals_delete i c l : l !! i = Some c → locals l = locals [c] + locals (delete i l).
Proof.
  intros Hi. rewrite <- (take_drop_middle l i c Hi) at 1. rewrite delete_take_drop, !locals_app.
  change (c :: drop (S i) l) with ([c] ++ drop (S i) l). rewrite locals_app. lia.
Qed.

Lemma Exists_delete (P : VaultCall → Prop) (i : nat) (c : VaultCall) (l : list VaultCall) :
  l !! i = Some c → ¬ P c → Exists P l → Exists P (delete i l).
Proof.
  intros Hi Hc Hl. rewrite <- (take_drop_middle l i c Hi) in Hl. rewrite delete_take_drop.
  rewrite Exists_app, Exists_cons in Hl. rewrite Exists_app. tauto.
Qed.

Lemma locals_exists l : 0 < locals l → Exists is_local l.
Proof.
  unfold locals. induction l as [|c l IH]; [cbn; lia|]. rewrite filter_cons, Exists_cons. case_decide; [by left|]. right. by apply IH.
Qed.

(** Commands and settled calls keep the invariant: the new call shows what its command
    sets, and the others stay. *)
Ltac vault_facts := split; cbn; rewrite ?locals_app, ?locals_one, ?Exists_app, ?Exists_cons, ?Exists_nil;
  unfold shows_loading, shows_unlocking, is_local in *; try naive_solver.

Lemma set_simple_ok v error status timer :
  vault_ok v → vault_ok (set_error error v) ∧ vault_ok (set_status status v) ∧ vault_ok (set_timer timer v) ∧
  vault_ok (set_attempted true v) ∧ vault_ok (set_attempted false v).
Proof. intros []. by repeat split. Qed.

Lemma refresh_ok v : vault_ok v → vault_ok (refresh v).
Proof. intros [Hf Hl Hu]. vault_facts. rewrite decide_False by naive_solver. lia. Qed.

Lemma command_ok c v :
  (c = VcUnlock ∨ c = VcEnable ∨ c = VcDisable) → vault_ok v → vault_ok (call c (set_error None (set_unlocking true v))).
Proof. intros Hc [Hf Hl Hu]. vault_facts. rewrite decide_False by naive_solver. lia. Qed.

Lemma lock_ok v : vault_ok v → vault_ok (lock v).
Proof. intros [Hf Hl Hu]. vault_facts. rewrite decide_False by naive_solver. lia. Qed.

Lemma unlockLocal_ok v : vault_ok v → vault_ok (unlockLocal v).
Proof.
  intros Hok. unfold unlockLocal. destruct (vt_inFlight v) eqn:E; [done|]. destruct Hok as [Hf Hl Hu].
  rewrite E in Hf. vault_facts. rewrite decide_True by naive_solver. lia.
Qed.

Lemma call_settled_ok i c result v :
  vault_ok v → vt_calls v !! i = Some c → vault_ok (call_settled c result (set_calls (delete i (vt_calls v)) v)).
Proof.
  intros [Hf Hl Hu] Hi. pose proof (locals_delete _ _ _ Hi) as Hd. rewrite locals_one in Hd.
  assert (¬ shows_loading c → vt_loading v = true → Exists shows_loading (delete i (vt_calls v))) as Hl'
    by (intros Hc Ht; eapply Exists_delete; eauto).
  assert (¬ shows_unlocking c → vt_unlocking v = true → Exists shows_unlocking (delete i (vt_calls v))) as Hu'
    by (intros Hc Ht; eapply Exists_delete; eauto).
  destruct c; (first [rewrite decide_True in Hd by (unfold is_local; tauto)|rewrite decide_False in Hd by (unfold is_local; naive_solver)]);
    destruct result as [status|message]; cbn [call_settled]; try destruct (vs_unlocked status);
    (split; cbn; rewrite ?locals_app, ?locals_one, ?Exists_app, ?Exists_cons, ?Exists_nil; try done).
  all: try by apply Hl'; unfold shows_loading, is_local; naive_solver.
  all: try by apply Hu'; unfold shows_unlocking, is_local; naive_solver.
  all: try by (destruct (vt_inFlight v); lia).
  all: try by (unfold shows_loading, shows_unlocking, is_local; tauto).
  - rewrite decide_True by (unfold is_local; tauto). destruct (vt_inFlight v); lia.
Qed.

Lemma leftover_idle v : leftover_effect v = v.
Proof. unfold leftover_effect, canAutoUnlockLocal. by destruct (vt_masterPasswordEnabled v). Qed.

Lemma password_effects_ok v : vault_ok v → vault_ok (password_effects v).
Proof.
  intros Hok. unfold password_effects. cbv zeta.
  assert (vault_ok (set_attempted false (if canAutoUnlockLocal v then v else refresh v))) as H1.
  { apply (set_simple_ok _ None (mkStatus false false) false). destruct (canAutoUnlockLocal v); [done|by apply refresh_ok]. }
  destruct (_ || _); [done|]. by apply unlockLocal_ok, (set_simple_ok _ None (mkStatus false false) false).
Qed.

Lemma vault_event_ok v event : vault_ok v → vault_ok (vault_event v event).
Proof.
  intros Hok. destruct event as [enabled minutes| | | | | | |i result| |]; cbn [vault_event].
  - assert (vault_ok (with_props enabled minutes v)) by (destruct Hok; by split). destruct (Bool.eqb _ _); [done|by apply password_effects_ok].
  - by apply refresh_ok.
  - apply command_ok; auto.
  - unfold retry. destruct (canAutoUnlockLocal v); [by apply unlockLocal_ok|by apply refresh_ok].
  - by apply lock_ok.
  - apply command_ok; auto.
  - apply command_ok; auto.
  - destruct (vt_calls v !! i) as [c|] eqn:Hi; [by apply call_settled_ok|done].
  - destruct (locks_itself v); [|done]. by apply (set_simple_ok v None (mkStatus false false) true).
  - destruct (vt_timer v); [|done]. by apply lock_ok, (set_simple_ok v None (mkStatus false false) false).
Qed.

Lemma vault_step_ok v event : vault_ok v → vault_ok (vault_step v event).
Proof.
  intros Hok. unfold vault_step. rewrite leftover_idle. unfold timer_effect. pose proof (vault_event_ok v event Hok) as H.
  case_bool_decide; [done|]. by apply (set_simple_ok _ None (mkStatus false false) _).
Qed.

(** ** The timer *)

Definition timer_ok (v : Vault) : Prop := vt_timer v = true → locks_itself v = true.

Lemma timer_effect_ok before v :
  (vt_timer v = true → vt_timer before = true ∨ locks_itself v = true) → timer_ok before → timer_ok (timer_effect before v).
Proof.
  intros Ht Hb. unfold timer_effect. case_bool_decide as Hd; [|by intros ?]. destruct Hd as (H1 & H2 & H3).
  intros [Hv|Hv]%Ht; [|done]. apply Hb in Hv. unfold locks_itself in *. by rewrite <- H1, <- H2, <- H3.
Qed.

Lemma same_timer v event : event ≠ VtInput → vt_timer (vault_event v event) = true → vt_timer v = true.
Proof.
  assert (∀ w, vt_timer (unlockLocal w) = vt_timer w) as Hu by (intros w; unfold unlockLocal; by destruct (vt_inFlight w)).
  assert (∀ w, vt_timer (password_effects w) = vt_timer w) as Hp.
  { intros w. unfold password_effects. cbv zeta. destruct (canAutoUnlockLocal w), (_ || _); rewrite ?Hu; done. }
  destruct event as [enabled minutes| | | | | | |i result| |]; cbn [vault_event]; intros Hne; try done.
  - destruct (Bool.eqb _ _); [done|]. by rewrite Hp.
  - unfold retry. destruct (canAutoUnlockLocal v); [by rewrite Hu|done].
  - destruct (vt_calls v !! i) as [c|]; [|done].
    destruct c, result as [status|message]; cbn; try done; by destruct (vs_unlocked status).
  - by destruct (vt_timer v) eqn:E; cbn; rewrite ?E.
Qed.

Lemma step_timer_ok v event : timer_ok v → timer_ok (vault_step v event).
Proof.
  intros Ht. unfold vault_step. rewrite leftover_idle. apply timer_effect_ok; [|done].
  destruct event; try (intros Hv; left; eapply same_timer; [|exact Hv]; done).
  cbn. destruct (locks_itself v) eqn:E; [by right|by left].
Qed.

(** ** The gate *)

(** The workspace is open, or the gate shows, or something is in flight. *)
Definition gate_ok (v : Vault) : Prop :=
  vt_masterPasswordEnabled v = false → unlocked v = true ∨ truthy (vt_error v) = true ∨ vt_calls v ≠ [].

(** The answers that can leave the vault shut with nothing to ask for: that it is locked,
    to anything but the question the local unlock itself asked, or an error without text. *)
Definition answers_locked (v : Vault) (event : VaultEvent) : Prop :=
  match event with
  | VtSettled i (inl status) => ∃ c, vt_calls v !! i = Some c ∧ c ≠ VcLocalStatus ∧ vs_unlocked status = false
  | VtSettled i (inr message) => is_Some (vt_calls v !! i) ∧ message = ""
  | _ => False
  end.

Lemma answers_locked_dec v event : answers_locked v event ∨ ¬ answers_locked v event.
Proof.
  destruct event as [| | | | | | |i [[? []]|message]| |]; cbn; auto.
  - right. by intros (c & _ & _ & [=]).
  - destruct (vt_calls v !! i) as [c|]; [|right; naive_solver].
    destruct (decide (c = VcLocalStatus)); [right; naive_solver|left; eauto].
  - destruct (vt_calls v !! i); [|right; by intros [[? [=]] _]]. destruct (decide (message = "")); [left; eauto|right; naive_solver].
Qed.

Lemma calls_snoc (l : list VaultCall) c : l ++ [c] ≠ [].
Proof. by destruct l. Qed.

Lemma gate_call c v : gate_ok (call c v).
Proof. intros _. right; right. apply calls_snoc. Qed.

Lemma gate_unlockLocal v : vault_ok v → gate_ok (unlockLocal v).
Proof.
  intros [Hf _ _]. unfold unlockLocal. destruct (vt_inFlight v) eqn:E; [|apply gate_call].
  intros _. right; right. intros Hn. by rewrite Hn in Hf.
Qed.

Lemma gate_event v event : vault_ok v → gate_ok v → ¬ answers_locked v event → gate_ok (vault_event v event).
Proof.
  intros Hok Hg Hb. destruct event as [enabled minutes| | | | | | |i result| |]; cbn [vault_event]; try apply gate_call.
  - destruct (Bool.eqb _ _) eqn:E; [apply Bool.eqb_prop in E as ->; exact Hg|].
    unfold password_effects. cbv zeta. destruct enabled; cbn; [intros [=]|].
    apply gate_unlockLocal. destruct Hok. by split.
  - unfold retry. destruct (canAutoUnlockLocal v); [by apply gate_unlockLocal|apply gate_call].
  - destruct (vt_calls v !! i) as [c|] eqn:Hi; [|done]. intros Hm. destruct result as [status|message]; cbn in Hb.
    + assert (c ≠ VcLocalStatus → vs_unlocked status = true) as Hs.
      { intros Hne. apply not_false_iff_true. intros Hl. apply Hb. eauto. }
      assert (vt_masterPasswordEnabled v = false) as Hm'
        by (destruct c; cbn in Hm; try done; by destruct (vs_unlocked status)).
      destruct c; cbn; try (left; by apply Hs).
      destruct (vs_unlocked status) eqn:E; [by left|right; right; apply calls_snoc].
    + assert (message ≠ "") as Hne%truthy_Some by (intros ->; apply Hb; eauto). destruct c; cbn; auto.
  - destruct (locks_itself v); exact Hg.
  - destruct (vt_timer v); [apply gate_call|done].
Qed.

Lemma gate_step v event : vault_ok v → gate_ok v → ¬ answers_locked v event → gate_ok (vault_step v event).
Proof.
  intros Hok Hg Hb. unfold vault_step. rewrite leftover_idle. pose proof (gate_event v event Hok Hg Hb) as H.
  unfold timer_effect. case_bool_decide; [done|exact H].
Qed.

Lemma mount_ok enabled minutes :
  let v := mount_vault enabled minutes in vault_ok v ∧ timer_ok v ∧ gate_ok v.
Proof.
  cbv zeta. unfold mount_vault. rewrite leftover_idle. destruct enabled; split_and!; try done; try by split; cbn; try done.
  all: try by intros _; right; right.
  - split; cbn; [done|intros _|done]. apply Exists_cons. left. by left.
  - split; cbn; [done|intros _|intros _]; apply Exists_cons; left; unfold shows_loading, shows_unlocking, is_local; tauto.
Qed.

Lemma vault_steps_ok v events :
  vault_ok v → timer_ok v → vault_ok (foldl vault_step v events) ∧ timer_ok (foldl vault_step v events).
Proof. revert v. induction events as [|e l IH]; intros v Hok Ht; [done|]. apply IH; [by apply vault_step_ok|by apply step_timer_ok]. Qed.

Lemma gate_steps v events :
  vault_ok v → gate_ok v →
  gate_ok (foldl vault_step v events) ∨
  ∃ before event after, events = before ++ event :: after ∧ answers_locked (foldl vault_step v before) event.
Proof.
  revert v. induction events as [|e l IH]; intros v Hok Hg; [by left|].
  destruct (answers_locked_dec v e) as [Ha|Ha]; [right; by exists [], e, l|].
  destruct (IH (vault_step v e)) as [H|(before & event & after & -> & H)]; [by apply vault_step_ok|by apply gate_step|by left|].
  right. by exists (e :: before), event, after.
Qed.

(** A local unlock starts only without a master password. *)
Lemma local_starts v event :
  vault_ok v → vt_inFlight v = false → vt_inFlight (vault_step v event) = true →
  vt_masterPasswordEnabled (vault_step v event) = false.
Proof.
  intros Hok Hn. unfold vault_step. rewrite leftover_idle.
  assert (∀ b w, vt_inFlight (timer_effect b w) = vt_inFlight w ∧ vt_masterPasswordEnabled (timer_effect b w) = vt_masterPasswordEnabled w) as Hte.
  { intros b w. unfold timer_effect. by case_bool_decide. }
  destruct (Hte v (vault_event v event)) as [-> ->]. clear Hte.
  assert (∀ w, vt_masterPasswordEnabled (unlockLocal w) = vt_masterPasswordEnabled w) as Hu
    by (intros w; unfold unlockLocal; by destruct (vt_inFlight w)).
  destruct event as [enabled minutes| | | | | | |i result| |]; cbn [vault_event]; try (cbn; congruence).
  - destruct (Bool.eqb _ _); [cbn; congruence|]. destruct enabled; [cbn; congruence|]. intros _. unfold password_effects. cbn. by rewrite Hu.
  - unfold retry, canAutoUnlockLocal. destruct (vt_masterPasswordEnabled v) eqn:E; cbn [negb]; [cbn; congruence|].
    intros _. by rewrite Hu.
  - destruct (vt_calls v !! i) as [c|] eqn:Hi; [|cbn; congruence]. intros Ht. exfalso.
    pose proof (call_settled_ok i c result v Hok Hi) as [Hf _ _]. destruct Hok as [Hf0 _ _]. rewrite Hn in Hf0.
    pose proof (locals_delete _ _ _ Hi) as Hd. rewrite locals_one in Hd.
    destruct c; (first [rewrite decide_True in Hd by (unfold is_local; tauto); lia|idtac]);
      destruct result; cbn in Ht; congruence.
  - destruct (locks_itself v); cbn; congruence.
  - destruct (vt_timer v); cbn; congruence.
Qed.

Lemma timer_armed v event :
  locks_itself v = false → locks_itself (vault_step v event) = true → vt_timer (vault_step v event) = true.
Proof.
  intros Hn. unfold vault_step. rewrite leftover_idle. unfold timer_effect. case_bool_decide as Hd; [|done].
  destruct Hd as (H1 & H2 & H3). unfold locks_itself in *. rewrite H1, H2, H3 in Hn. congruence.
Qed.

(** ** Properties *)

(** C28: The gate of the vault. Whatever happens and however the backend answers: at most
    one local unlock is in flight, and one starts only without a master password;
    the gate shows that it loads or unlocks only while a call that ends this is in
    flight; the timer runs only over an open vault with a master password and a time to
    lock after; when such a vault opens the timer runs, every input runs it again, and
    when it fires the lock is called. And whenever nothing is in flight, either the
    workspace is open, or the gate asks for what it needs, or an earlier answer of the
    backend said that the vault is locked (to a question other than the one the local
    unlock asks first) or failed without a text: only such an answer can shut the user
    out with nothing to click. *)
Theorem vault_gate_safe enabled minutes events :
  let v := vault_run enabled minutes events in
  locals (vt_calls v) ≤ 1 ∧
  (∀ event, vt_inFlight v = false → vt_inFlight (vault_step v event) = true → vt_masterPasswordEnabled (vault_step v event) = false) ∧
  (vt_loading v = true → Exists shows_loading (vt_calls v)) ∧
  (vt_unlocking v = true → Exists shows_unlocking (vt_calls v)) ∧
  (vt_timer v = true → locks_itself v = true) ∧
  (∀ event, locks_itself v = false → locks_itself (vault_step v event) = true → vt_timer (vault_step v event) = true) ∧
  (locks_itself v = true → vt_timer (vault_step v VtInput) = true) ∧
  (vt_timer v = true → VcLock ∈ vt_calls (vault_step v VtTimer)) ∧
  (vt_calls v = [] →
    ready v = true ∨ requiresUnlock v = true ∨
    ∃ before event after, events = before ++ event :: after ∧ answers_locked (vault_run enabled minutes before) event).
Proof.
  intros v. destruct (mount_ok enabled minutes) as (Hok0 & Ht0 & Hg0).
  destruct (vault_steps_ok _ events Hok0 Ht0) as [Hok Ht]. pose proof Hok as [Hf Hl Hu]. split_and!.
  - unfold v, vault_run. rewrite Hf. destruct (vt_inFlight _); lia.
  - intros event. by apply local_starts.
  - exact Hl.
  - exact Hu.
  - exact Ht.
  - intros event. apply timer_armed.
  - intros Hi. unfold vault_step. rewrite leftover_idle. cbn. rewrite Hi. unfold timer_effect. by rewrite bool_decide_true.
  - intros Hi. unfold vault_step. rewrite leftover_idle. cbn. rewrite Hi. unfold timer_effect. rewrite bool_decide_true by done.
    cbn. apply elem_of_app. right. by left.
  - intros Hc. unfold ready, requiresUnlock. destruct (unlocked v) eqn:E; [by left|]. right. cbn.
    destruct (vt_masterPasswordEnabled v) eqn:Em; [by left|].
    destruct (gate_steps _ events Hok0 Hg0) as [Hg|]; [|by right]. left.
    destruct (Hg Em) as [Hx|[Hx|Hx]]; [unfold v, vault_run in E; congruence|exact Hx|by destruct Hx].
Qed.

(** A lock that is in flight while the master password is turned off shuts the user out:
    the lock answers that the vault is locked, the local unlock is over by then, and the
    effect that would unlock it again is guarded by both values of the setting. *)
Lemma late_lock_shuts_out :
  let v := vault_run true 5
    [VtSettled 0 (inl (mkStatus true true)); VtTimer; VtDisable; VtSettled 1 (inl (mkStatus true true)); VtProps false 5;
     VtSettled 1 (inl (mkStatus true true)); VtSettled 0 (inl (mkStatus true false))] in
  vt_calls v = [] ∧ ready v = false ∧ requiresUnlock v = false.
Proof. done. Qed.

(** A lock by the timer that fails is not tried again: the timer waits for an input. *)
Lemma failed_lock_waits :
  let v := vault_run true 5 [VtSettled 0 (inl (mkStatus true true)); VtTimer; VtSettled 0 (inr "busy")] in
  unlocked v = true ∧ locks_itself v = true ∧ vt_timer v = false ∧ vt_calls v = [].
Proof. done. Qed.
