(* ===== verification/Monitor.v ===== *)
(** * The remote monitor ([features/monitor/useRemoteMonitor.ts])

    The hook that polls a connection for snapshots, as a machine of renders with effects,
    requests in flight and the timer of the poll. A snapshot is kept with the connection
    that its request was made for, which the code leaves implicit. *)

From S2P Require Import Prelude.
From Stdlib Require Import Lia.

#[local] Open Scope nat_scope.

Inductive MonitorPanelView := ViewStatus | ViewHardware | ViewNetwork | ViewProcesses.

#[export] Instance MonitorPanelView_eq_dec : EqDecision MonitorPanelView.
Proof. solve_decision. Defined.

(** What the hook reads of a snapshot, and the connection it is of. *)
Record RemoteMonitorSnapshot := mkSnapshot {
  sm_connection : string;
  sm_collected_at_ms : Z;
  sm_refresh_hint_ms : Z;
}.

Definition statusPollMs : Z := 3000.
Definition networkPollMs : Z := 2000.
Definition processPollMs : Z := 5000.
Definition hardwarePollMs : Z := 30000.
Definition historyWindowMs : Z := 60000.

(** The last [n] elements ([slice(-n)]). *)
Definition take_last {A} (n : nat) (l : list A) : list A := drop (length l - n) l.

Definition appendHistory (current : list RemoteMonitorSnapshot) (snapshot : RemoteMonitorSnapshot) :
    list RemoteMonitorSnapshot :=
  let since := (sm_collected_at_ms snapshot - historyWindowMs)%Z in
  take_last 40 (filter (λ item, (since ≤ sm_collected_at_ms item)%Z) current ++ [snapshot]).

(** The poll of the current effect: it waits for a request or for its timer. *)
Inductive Poll := PollAwait (run : nat) | PollTimer.

Record Monitor := mkMonitor {
  mo_connectionId : option string;
  mo_active : bool;
  mo_visible : bool;
  mo_view : MonitorPanelView;
  mo_snapshot : option RemoteMonitorSnapshot;
  mo_history : list RemoteMonitorSnapshot;
  mo_loading : bool;
  mo_refreshing : bool;
  mo_error : option string;
  mo_mounted : bool;
  mo_inFlightRun : option nat;
  mo_requestRun : nat;
  mo_snapshotRef : option RemoteMonitorSnapshot;
  mo_pending : list (nat * string);
  mo_poll : option Poll;
}.

Definition includeProcesses (m : Monitor) : bool := bool_decide (mo_view m = ViewProcesses).

(** The period that a render computes. *)
Definition pollingMs (m : Monitor) : Z :=
  match mo_view m with
  | ViewProcesses => processPollMs
  | ViewNetwork => networkPollMs
  | ViewHardware => hardwarePollMs
  | ViewStatus =>
      match mo_snapshot m with
      | Some s => if Z.eqb (sm_refresh_hint_ms s) 0 then statusPollMs else sm_refresh_hint_ms s
      | None => statusPollMs
      end
  end.

Definition with_poll (poll : option Poll) (m : Monitor) : Monitor :=
  mkMonitor (mo_connectionId m) (mo_active m) (mo_visible m) (mo_view m) (mo_snapshot m) (mo_history m) (mo_loading m)
    (mo_refreshing m) (mo_error m) (mo_mounted m) (mo_inFlightRun m) (mo_requestRun m) (mo_snapshotRef m) (mo_pending m) poll.

Definition with_snapshotRef (snapshot : option RemoteMonitorSnapshot) (m : Monitor) : Monitor :=
  mkMonitor (mo_connectionId m) (mo_active m) (mo_visible m) (mo_view m) (mo_snapshot m) (mo_history m) (mo_loading m)
    (mo_refreshing m) (mo_error m) (mo_mounted m) (mo_inFlightRun m) (mo_requestRun m) snapshot (mo_pending m) (mo_poll m).

(** [refresh] until its first wait, and the run it waits for; nothing when there is no
    connection or when a run is in flight. *)
Definition monitor_refresh (silent : bool) (m : Monitor) : Monitor * option nat :=
  match mo_connectionId m with
  | None => (m, None)
  | Some connectionId =>
      if String.eqb connectionId "" then (m, None)
      else
        match mo_inFlightRun m with
        | Some _ => (m, None)
        | None =>
            let runId := S (mo_requestRun m) in
            (mkMonitor (mo_connectionId m) (mo_active m) (mo_visible m) (mo_view m) (mo_snapshot m) (mo_history m)
              (negb silent || mo_loading m) true (mo_error m) (mo_mounted m) (Some runId) runId (mo_snapshotRef m)
              (mo_pending m ++ [(runId, connectionId)]) (mo_poll m), Some runId)
        end
  end.

(** [poll] until it waits for a request or sets its timer. *)
Definition poll (silent : bool) (m : Monitor) : Monitor :=
  let (m, run) := monitor_refresh silent m in
  with_poll (Some (match run with Some run => PollAwait run | None => PollTimer end)) m.

(** The effect that polls, with the cleanup of the one before. *)
Definition poll_effect (m : Monitor) : Monitor :=
  if truthy (mo_connectionId m) && mo_active m && mo_visible m
  then poll (bool_decide (is_Some (mo_snapshotRef m))) m else with_poll None m.

(** The effect of another connection. *)
Definition connection_effect (m : Monitor) : Monitor :=
  mkMonitor (mo_connectionId m) (mo_active m) (mo_visible m) (mo_view m) None [] false false None (mo_mounted m) None
    (S (mo_requestRun m)) (mo_snapshotRef m) (mo_pending m) (mo_poll m).

(** A render after the state changed: the ref follows the snapshot, and the poll starts
    over when its period changed. *)
Definition state_render (before m : Monitor) : Monitor :=
  let m := with_snapshotRef (mo_snapshot m) m in
  if Z.eqb (pollingMs before) (pollingMs m) then m else poll_effect m.

Definition with_inputs (connectionId : option string) (active visible : bool) (view : MonitorPanelView) (m : Monitor) : Monitor :=
  mkMonitor connectionId active visible view (mo_snapshot m) (mo_history m) (mo_loading m) (mo_refreshing m) (mo_error m)
    (mo_mounted m) (mo_inFlightRun m) (mo_requestRun m) (mo_snapshotRef m) (mo_pending m) (mo_poll m).

(** A render with other inputs. Its effects still see the snapshot of the connection
    before; the state that they set shows in the render after. *)
Definition input_render (connectionId : option string) (active visible : bool) (view : MonitorPanelView) (m : Monitor) : Monitor :=
  let m1 := with_inputs connectionId active visible view m in
  let same_connection := bool_decide (mo_connectionId m = connectionId) in
  let m2 := if same_connection then m1 else connection_effect m1 in
  let same_poll := same_connection && Bool.eqb (mo_active m) active && Bool.eqb (mo_visible m) visible &&
    Z.eqb (pollingMs m) (pollingMs m1) && Bool.eqb (includeProcesses m) (includeProcesses m1) in
  let m3 := if same_poll then m2 else poll_effect m2 in
  state_render m1 m3.

(** A request settles, and its poll goes on. *)
Definition request_settled (run : nat) (result : (Z * Z) + string) (m : Monitor) : Monitor :=
  match js_find (λ e, e.1 = run) (mo_pending m) with
  | None => m
  | Some (_, connectionId) =>
      let current := mo_mounted m && bool_decide (mo_requestRun m = run) in
      let next := match result with inl (at_ms, hint) => Some (mkSnapshot connectionId at_ms hint) | inr _ => None end in
      let m' := mkMonitor (mo_connectionId m) (mo_active m) (mo_visible m) (mo_view m)
        (if current then next ?: mo_snapshot m else mo_snapshot m)
        (match next with Some s => if current then appendHistory (mo_history m) s else mo_history m | None => mo_history m end)
        (mo_loading m && negb current) (mo_refreshing m && negb current)
        (if current then match result with inl _ => None | inr message => Some message end else mo_error m)
        (mo_mounted m) (if bool_decide (mo_inFlightRun m = Some run) then None else mo_inFlightRun m) (mo_requestRun m)
        (mo_snapshotRef m) (filter (λ e, e.1 ≠ run) (mo_pending m))
        (match mo_poll m with Some (PollAwait r) => if decide (r = run) then Some PollTimer else mo_poll m | p => p end) in
      state_render m m'
  end.

Definition unmount (m : Monitor) : Monitor :=
  mkMonitor (mo_connectionId m) (mo_active m) (mo_visible m) (mo_view m) (mo_snapshot m) (mo_history m) (mo_loading m)
    (mo_refreshing m) (mo_error m) false (mo_inFlightRun m) (S (mo_requestRun m)) (mo_snapshotRef m) (mo_pending m) None.

Definition newMonitor (connectionId : option string) (active visible : bool) (view : MonitorPanelView) : Monitor :=
  poll_effect (connection_effect
    (mkMonitor connectionId active visible view None [] false false None true None 0 None [] None)).

Inductive MonitorEvent :=
  | MoInputs (connectionId : option string) (active visible : bool) (view : MonitorPanelView)
  | MoRefresh (silent : bool)
  | MoTimer
  | MoSettled (run : nat) (result : (Z * Z) + string)
  | MoUnmount.

(** After the hook is unmounted only requests settle. *)
Definition monitor_step (m : Monitor) (event : MonitorEvent) : Monitor :=
  match event with
  | MoSettled run result => request_settled run result m
  | _ =>
      if negb (mo_mounted m) then m
      else
        match event with
        | MoInputs connectionId active visible view => input_render connectionId active visible view m
        | MoRefresh silent => (monitor_refresh silent m).1
        | MoTimer => match mo_poll m with Some PollTimer => poll true m | _ => m end
        | MoSettled _ _ => m
        | MoUnmount => unmount m
        end
  end.

Definition monitor_run (m : Monitor) : list MonitorEvent → Monitor := foldl monitor_step m.

(** ** Invariant *)

(** Whether the hook should poll. *)
Definition polls (m : Monitor) : bool := truthy (mo_connectionId m) && mo_active m && mo_visible m.

(** Snapshots are of the connection, recent, few, and the last one is shown. *)
Record history_ok (m : Monitor) : Prop := {
  ho_connection : Forall (λ s, mo_connectionId m = Some (sm_connection s)) (mo_history m);
  ho_length : length (mo_history m) ≤ 40;
  ho_last : last (mo_history m) = mo_snapshot m;
  ho_window : ∀ s, mo_snapshot m = Some s →
    Forall (λ x, (sm_collected_at_ms s - historyWindowMs ≤ sm_collected_at_ms x)%Z) (mo_history m);
}.

Record requests_ok (m : Monitor) : Prop := {
  ro_distinct : NoDup (mo_pending m).*1;
  ro_bound : Forall (λ e, e.1 ≤ mo_requestRun m) (mo_pending m);
  ro_current : Forall (λ e, e.1 = mo_requestRun m → mo_connectionId m = Some e.2) (mo_pending m);
  ro_flight : ∀ r, mo_inFlightRun m = Some r → r = mo_requestRun m ∧ r ∈ (mo_pending m).*1;
  ro_shown : mo_loading m || mo_refreshing m = true → is_Some (mo_inFlightRun m);
}.

Record poll_ok (m : Monitor) : Prop := {
  po_polls : is_Some (mo_poll m) ↔ polls m = true;
  po_await : ∀ r, mo_poll m = Some (PollAwait r) → r ∈ (mo_pending m).*1;
}.

Lemma refresh_frame silent m :
  let m' := (monitor_refresh silent m).1 in
  mo_connectionId m' = mo_connectionId m ∧ mo_active m' = mo_active m ∧ mo_visible m' = mo_visible m ∧
  mo_view m' = mo_view m ∧ mo_snapshot m' = mo_snapshot m ∧ mo_history m' = mo_history m ∧ mo_mounted m' = mo_mounted m ∧
  mo_poll m' = mo_poll m ∧ mo_snapshotRef m' = mo_snapshotRef m.
Proof.
  unfold monitor_refresh. destruct (mo_connectionId m) as [c|] eqn:E; [destruct (String.eqb c ""), (mo_inFlightRun m)|];
    cbv zeta; cbn; by split_and!.
Qed.

Lemma refresh_requests silent m : requests_ok m → requests_ok (monitor_refresh silent m).1.
Proof.
  intros Hok. unfold monitor_refresh. destruct (mo_connectionId m) as [c|] eqn:Ec; [|done]. destruct (String.eqb c ""); [done|].
  destruct (mo_inFlightRun m) eqn:Ef; [done|]. destruct Hok as [Hd Hb Hc Hf Hs]. split; cbn.
  - rewrite fmap_app. apply NoDup_app. split; [done|]. split; [|apply NoDup_singleton].
    intros r (e & -> & He)%list_elem_of_fmap Hr%list_elem_of_singleton. rewrite Forall_forall in Hb. specialize (Hb e He). cbn in Hr. lia.
  - apply Forall_app. split; [|by repeat constructor]. eapply Forall_impl; [exact Hb|]. cbn. lia.
  - apply Forall_app. split; [|by repeat constructor]. apply Forall_forall. intros e He Hr.
    rewrite Forall_forall in Hb. specialize (Hb e He). lia.
  - intros r [= <-]. split; [done|]. rewrite fmap_app, elem_of_app. right. by left.
  - done.
Qed.

Lemma refresh_run silent m r : (monitor_refresh silent m).2 = Some r → r ∈ (mo_pending (monitor_refresh silent m).1).*1.
Proof.
  unfold monitor_refresh. destruct (mo_connectionId m) as [c|]; [|done]. destruct (String.eqb c ""); [done|].
  destruct (mo_inFlightRun m); [done|]. intros [= <-]. cbn. rewrite fmap_app, elem_of_app. right. by left.
Qed.

Lemma refresh_pending silent m r : r ∈ (mo_pending m).*1 → r ∈ (mo_pending (monitor_refresh silent m).1).*1.
Proof.
  intros Hr. unfold monitor_refresh. destruct (mo_connectionId m) as [c|]; [|done]. destruct (String.eqb c ""); [done|].
  destruct (mo_inFlightRun m); [done|]. cbn. rewrite fmap_app, elem_of_app. by left.
Qed.

Lemma history_same m m' :
  mo_connectionId m' = mo_connectionId m → mo_snapshot m' = mo_snapshot m → mo_history m' = mo_history m →
  history_ok m → history_ok m'.
Proof. intros E1 E2 E3 []. split; rewrite ?E1, ?E2, ?E3; done. Qed.

Lemma with_poll_requests p m : requests_ok m → requests_ok (with_poll p m).
Proof. intros []. by split. Qed.

Lemma poll_fine silent m :
  history_ok m → requests_ok m → polls m = true → history_ok (poll silent m) ∧ requests_ok (poll silent m) ∧ poll_ok (poll silent m).
Proof.
  intros Hh Hr Hp. unfold poll. pose proof (refresh_frame silent m) as Hfr. pose proof (refresh_requests silent m Hr) as Hr'.
  pose proof (refresh_run silent m) as Hrun. destruct (monitor_refresh silent m) as [m' run]. cbn in *.
  destruct Hfr as (E1 & E2 & E3 & E4 & E5 & E6 & E7 & E8 & E9). split_and!.
  - by apply (history_same m).
  - by apply with_poll_requests.
  - split; cbn.
    + unfold polls in *. cbn. rewrite E1, E2, E3, Hp. split; [done|by eexists].
    + intros r. destruct run as [q|]; [|done]. intros [= <-]. by apply Hrun.
Qed.

Lemma poll_effect_fine m :
  history_ok m → requests_ok m → history_ok (poll_effect m) ∧ requests_ok (poll_effect m) ∧ poll_ok (poll_effect m).
Proof.
  intros Hh Hr. unfold poll_effect. fold (polls m). destruct (polls m) eqn:Hp; [by apply poll_fine|].
  split_and!; [by apply (history_same m)|by apply with_poll_requests|]. split; cbn; [|done].
  unfold polls in *. cbn. rewrite Hp. split; [intros [? [=]]|done].
Qed.

Lemma state_render_fine before m :
  history_ok m → requests_ok m → poll_ok m →
  history_ok (state_render before m) ∧ requests_ok (state_render before m) ∧ poll_ok (state_render before m).
Proof.
  intros Hh Hr Hp. unfold state_render. set (m' := with_snapshotRef _ m).
  assert (history_ok m') by by apply (history_same m). assert (requests_ok m') by (destruct Hr; by split).
  assert (poll_ok m') by (destruct Hp; by split). destruct (Z.eqb _ _); [done|by apply poll_effect_fine].
Qed.

Lemma connection_effect_fine m :
  NoDup (mo_pending m).*1 → Forall (λ e, e.1 ≤ mo_requestRun m) (mo_pending m) →
  history_ok (connection_effect m) ∧ requests_ok (connection_effect m).
Proof.
  intros Hd Hb. split; split; cbn; try done; try lia; try constructor.
  - eapply Forall_impl; [exact Hb|]. cbn. lia.
  - eapply Forall_impl; [exact Hb|]. cbn. lia.
Qed.

Lemma take_last_spec {A} (n : nat) (l : list A) x :
  0 < n → length (take_last n (l ++ [x])) ≤ n ∧ last (take_last n (l ++ [x])) = Some x ∧
  ∀ P : A → Prop, Forall P l → P x → Forall P (take_last n (l ++ [x])).
Proof.
  intros Hn. unfold take_last. split_and!.
  - rewrite length_drop. lia.
  - rewrite length_app. cbn. rewrite drop_app_le by lia. by rewrite last_snoc.
  - intros P Hl Hx. apply Forall_drop, Forall_app. split; [done|by constructor].
Qed.

Lemma append_history m s connection :
  history_ok m → mo_connectionId m = Some connection → sm_connection s = connection →
  ∀ m', mo_connectionId m' = Some connection → mo_snapshot m' = Some s → mo_history m' = appendHistory (mo_history m) s →
  history_ok m'.
Proof.
  intros [Hc _ _ _] Em Es m' E1 E2 E3. unfold appendHistory in E3. set (kept := filter _ _) in E3.
  destruct (take_last_spec 40 kept s) as (Hlen & Hlast & HP); [lia|]. rewrite <- E3 in Hlen, Hlast, HP.
  assert (∀ x, x ∈ kept → x ∈ mo_history m ∧ (sm_collected_at_ms s - historyWindowMs ≤ sm_collected_at_ms x)%Z) as Hk.
  { intros x Hx. apply list_elem_of_filter in Hx as [? ?]. done. }
  split.
  - rewrite E1. apply HP; [|by rewrite Es]. apply Forall_forall. intros x [Hx _]%Hk. rewrite Forall_forall in Hc. by rewrite <- Em, (Hc x Hx).
  - done.
  - by rewrite E2.
  - rewrite E2. intros s' [= <-]. apply HP; [apply Forall_forall; by intros x [_ ?]%Hk|]. unfold historyWindowMs. lia.
Qed.

Record monitor_ok (m : Monitor) : Prop := {
  mk_history : history_ok m;
  mk_requests : requests_ok m;
  mk_poll : poll_ok m;
}.

Lemma settled_ok run result m :
  mo_mounted m = true → monitor_ok m → monitor_ok (request_settled run result m).
Proof.
  intros Hm [Hh [Hd Hb Hc Hf Hs] [Hp Ha]]. unfold request_settled.
  destruct (js_find (λ e, e.1 = run) (mo_pending m)) as [[run' c]|] eqn:Ef; [|by split].
  apply js_find_Some in Ef as [Hin Hrun]. cbn in Hrun. subst run'. rewrite Hm. cbn [andb]. set (m' := mkMonitor _ _ _ _ _ _ _ _ _ _ _ _ _ _ _).
  assert (∀ r, r ∈ (mo_pending m).*1 → r ≠ run → r ∈ (mo_pending m').*1) as Hkeep.
  { intros r (e & -> & He)%list_elem_of_fmap Hne. apply list_elem_of_fmap_2, list_elem_of_filter. done. }
  assert (∀ P, Forall P (mo_pending m) → Forall P (mo_pending m')) as Hsub.
  { intros P HP. apply Forall_forall. intros e [_ He]%list_elem_of_filter. rewrite Forall_forall in HP. by apply HP. }
  assert (history_ok m' ∧ requests_ok m' ∧ poll_ok m') as (H1 & H2 & H3); [|by destruct (state_render_fine m m' H1 H2 H3) as (? & ? & ?)].
  split_and!.
  - destruct (bool_decide (mo_requestRun m = run)) eqn:Ecur; [|apply (history_same m); [done|done|by destruct result as [[]|]|done]].
    apply bool_decide_eq_true in Ecur. destruct result as [[at_ms hint]|message]; [|by apply (history_same m)].
    rewrite Forall_forall in Hc. specialize (Hc _ Hin (eq_sym Ecur)). cbn in Hc.
    by eapply (append_history m (mkSnapshot c at_ms hint) c).
  - split.
    + eapply sublist_NoDup; [exact Hd|]. apply fmap_sublist, sublist_filter.
    + by apply Hsub.
    + by apply Hsub.
    + intros r. cbn. case_bool_decide as Hi; [done|]. intros Hr. destruct (Hf r Hr) as [H1 H2]. split; [done|].
      apply Hkeep; [done|congruence].
    + cbn. case_bool_decide as Hcur; [by rewrite !andb_false_r|]. cbn [negb]. rewrite !andb_true_r. intros Hl.
      destruct (Hs Hl) as [r Hr]. destruct (Hf r Hr) as [-> _]. rewrite bool_decide_false by congruence. by rewrite Hr.
  - split.
    + unfold polls. cbn. fold (polls m). rewrite <- Hp. destruct (mo_poll m) as [[r|]|]; [case_decide|..]; split; intros [? ?]; eauto.
    + intros r. cbn. destruct (mo_poll m) as [[q|]|] eqn:Eq; [|done|done]. case_decide as Hq; [done|].
      intros [= ->]. apply Hkeep; [by apply Ha|done].
Qed.

Lemma inputs_ok connectionId active visible view m :
  monitor_ok m → monitor_ok (input_render connectionId active visible view m).
Proof.
  intros [Hh Hr Hp]. unfold input_render. set (m1 := with_inputs _ _ _ _ m). cbv zeta.
  set (m2 := if bool_decide _ then m1 else connection_effect m1). set (m3 := if _ && _ then m2 else poll_effect m2).
  assert (history_ok m3 ∧ requests_ok m3 ∧ poll_ok m3) as (H1 & H2 & H3); [|by destruct (state_render_fine m1 m3 H1 H2 H3) as (? & ? & ?)].
  assert (history_ok m2 ∧ requests_ok m2) as [H1 H2].
  { unfold m2. case_bool_decide as Hc; [|apply connection_effect_fine; by destruct Hr].
    subst connectionId. split; [by apply (history_same m)|]. destruct Hr. by split. }
  unfold m3, m2 in *. case_bool_decide as Hc; [|by apply poll_effect_fine].
  destruct (Bool.eqb (mo_active m) active) eqn:Ea, (Bool.eqb (mo_visible m) visible) eqn:Ev; cbn [andb];
    try by apply poll_effect_fine.
  destruct (_ && _); [|by apply poll_effect_fine]. split_and!; [done|done|].
  apply Bool.eqb_prop in Ea, Ev. subst. destruct Hp as [Hp Ha]. by split.
Qed.

Lemma monitor_step_ok m event : (mo_mounted m = true → monitor_ok m) →
  mo_mounted (monitor_step m event) = true → monitor_ok (monitor_step m event).
Proof.
  intros Hok. assert (∀ b x, mo_mounted (state_render b x) = mo_mounted x) as Hsr.
  { intros b x. unfold state_render. destruct (Z.eqb _ _); [done|]. unfold poll_effect. destruct (_ && _); [|done].
    unfold poll. destruct (monitor_refresh _ _) as [y r] eqn:E. cbn.
    destruct (refresh_frame (bool_decide (is_Some (mo_snapshotRef (with_snapshotRef (mo_snapshot x) x)))) (with_snapshotRef (mo_snapshot x) x)) as (_ & _ & _ & _ & _ & _ & Hm & _).
    by rewrite E in Hm. }
  destruct (mo_mounted m) eqn:Hm.
  - intros Hm'. specialize (Hok eq_refl). destruct event as [c a v w|silent| |run result|]; cbn [monitor_step]; rewrite ?Hm; cbn [negb].
    + by apply inputs_ok.
    + pose proof (refresh_frame silent m) as (E1 & E2 & E3 & E4 & E5 & E6 & E7 & E8 & E9). destruct Hok as [Hh Hr [Hp Ha]].
      split; [by apply (history_same m)|by apply refresh_requests|]. split; [unfold polls; by rewrite E1, E2, E3, E8|].
      rewrite E8. intros r Hrr. by apply refresh_pending, Ha.
    + destruct (mo_poll m) as [[|]|] eqn:Ep; try done. destruct Hok as [Hh Hr [Hp Ha]].
      destruct (poll_fine true m) as (? & ? & ?); [done|done|by apply Hp; rewrite Ep|by split].
    + by apply settled_ok.
    + cbn in Hm'. by rewrite Hm in Hm'.
  - intros Hm'. exfalso. destruct event as [c a v w|silent| |run result|]; cbn [monitor_step] in Hm'; rewrite ?Hm in Hm'; try (cbn [negb] in Hm'; congruence).
    unfold request_settled in Hm'. destruct (js_find _ _) as [[run' c]|]; [|congruence]. rewrite Hsr in Hm'. cbn in Hm'. congruence.
Qed.

Lemma monitor_run_ok connectionId active visible view events :
  let m := monitor_run (newMonitor connectionId active visible view) events in mo_mounted m = true → monitor_ok m.
Proof.
  cbv zeta. unfold monitor_run. assert (monitor_ok (newMonitor connectionId active visible view)) as Hok.
  { unfold newMonitor. destruct (poll_effect_fine (connection_effect
      (mkMonitor connectionId active visible view None [] false false None true None 0 None [] None))) as (? & ? & ?); [| |by split];
      apply connection_effect_fine; constructor. }
  assert (mo_mounted (newMonitor connectionId active visible view) = true → monitor_ok (newMonitor connectionId active visible view))
    as Hs by done. clear Hok. revert Hs. generalize (newMonitor connectionId active visible view).
  induction events as [|e l IH]; intros m Hm; [done|]. cbn. apply IH. by apply monitor_step_ok.
Qed.

(** What the hook shows. *)
Definition monitor_shows (m : Monitor) := (mo_snapshot m, mo_history m, mo_error m, mo_loading m, mo_refreshing m).

(** A run that is not the newest shows nothing when it settles. *)
Lemma stale_run m run result :
  monitor_ok m → run ≠ mo_requestRun m → monitor_shows (request_settled run result m) = monitor_shows m.
Proof.
  intros _ Hs. unfold request_settled. destruct (js_find _ _) as [[run' c]|]; [|done].
  rewrite (bool_decide_false (mo_requestRun m = run)) by done. rewrite andb_false_r. cbn [negb]. rewrite !andb_true_r.
  unfold state_render. match goal with |- context [Z.eqb ?a ?b] => assert (a = b) as -> end.
  { unfold pollingMs. cbn. by destruct result as [[]|]. }
  rewrite Z.eqb_refl. unfold monitor_shows. cbn. by destruct result as [[]|].
Qed.

(** ** Properties *)

(** C29: The monitor. As long as it is mounted, whatever its inputs do and however the
    requests settle: every snapshot shown or kept is of the connection that is chosen;
    the history has at most 40 snapshots, none older than a minute before the last one,
    which is the one shown; a run in flight is the newest one and the only one that
    counts, and what an older one brings is not shown; loading and refreshing show only
    while one is in flight; and the hook polls exactly while it is active and visible
    with a connection: it waits for a request that is in flight, or for its timer. *)
Theorem monitor_sound connectionId active visible view events :
  let m := monitor_run (newMonitor connectionId active visible view) events in
  mo_mounted m = true →
  Forall (λ s, mo_connectionId m = Some (sm_connection s)) (mo_history m) ∧
  last (mo_history m) = mo_snapshot m ∧ length (mo_history m) ≤ 40 ∧
  (∀ s x, mo_snapshot m = Some s → x ∈ mo_history m → (sm_collected_at_ms s - 60000 ≤ sm_collected_at_ms x)%Z) ∧
  (∀ r, mo_inFlightRun m = Some r → r = mo_requestRun m ∧ r ∈ (mo_pending m).*1) ∧
  (∀ run result, run ≠ mo_requestRun m → monitor_shows (request_settled run result m) = monitor_shows m) ∧
  (mo_loading m || mo_refreshing m = true → is_Some (mo_inFlightRun m)) ∧
  (is_Some (mo_poll m) ↔ truthy (mo_connectionId m) && mo_active m && mo_visible m = true) ∧
  (∀ r, mo_poll m = Some (PollAwait r) → r ∈ (mo_pending m).*1).
Proof.
  intros m Hm. destruct (monitor_run_ok connectionId active visible view events Hm) as [[Hc Hlen Hlast Hw] Hr [Hp Ha]].
  pose proof Hr as [_ _ _ Hf Hs]. split_and!; try done.
  - intros s x Hsome Hx. specialize (Hw s Hsome). rewrite Forall_forall in Hw. by apply Hw.
  - intros run result Hne. apply stale_run; [by split|done].
Qed.

Example monitor_polls :
  let m := monitor_run (newMonitor (Some "c1") true true ViewStatus)
    [MoSettled 2 (inl (1000, 3000)%Z); MoTimer; MoInputs (Some "c2") true true ViewStatus; MoSettled 3 (inl (4000, 3000)%Z)] in
  mo_snapshot m = None ∧ mo_pending m = [(5, "c2")] ∧ mo_poll m = Some (PollAwait 5).
Proof. done. Qed.

Lemma monitor_sound_witness :
  let m := monitor_run (newMonitor (Some "c1") true true ViewStatus) [MoSettled 2 (inl (1000, 3000)%Z); MoTimer] in
  mo_mounted m = true ∧ mo_snapshot m = Some (mkSnapshot "c1" 1000 3000) ∧ last (mo_history m) = mo_snapshot m.
Proof.
  split; [reflexivity|]. split; [reflexivity|].
  exact (proj1 (proj2 (monitor_sound (Some "c1") true true ViewStatus [MoSettled 2 (inl (1000, 3000)%Z); MoTimer] eq_refl))).
Defined.
