(* ===== verification/RemoteEditor.v ===== *)
(** * Editing remote files ([features/layout/WorkspaceShell.tsx])

    The tabs of the remote file editor and the handlers of the shell that open, load,
    edit, save, reload, close, rename and delete their files, with the dialogs they show,
    as a machine of commands and of settled calls to the backend. A call that goes on
    after its answer keeps what its handler had read of the rendered state. *)

From S2P Require Import Prelude SplitLayout SplitState SessionTypes MultiExec CloseDecision SessionTabs ShellSplit RemotePaths.
From Stdlib Require Import Lia Strings.Ascii.

#[local] Open Scope nat_scope.

(** ** Names and paths *)

Abbreviation text_of := String.string_of_list_ascii.

Fixpoint drop_slashes (s : chars) : chars :=
  match s with
  | c :: s' => if decide (c = slash) then drop_slashes s' else s
  | [] => []
  end.

Definition joinRemotePath (parentPath name : chars) : chars :=
  let normalizedParent := normalizeRemotePath (Some parentPath) in
  let cleanName := drop_slashes ((λ c, if decide (c = backslash) then slash else c) <$> js_trim name) in
  if decide (cleanName = []) then normalizedParent
  else normalizeRemotePath (Some
    (if decide (normalizedParent = [slash]) then slash :: cleanName else normalizedParent ++ slash :: cleanName)).

Definition remoteFileName (path : chars) : chars :=
  let normalizedPath := normalizeRemotePath (Some path) in
  if decide (normalizedPath = [slash]) then [slash] else default normalizedPath (last (segments normalizedPath)).

Definition remoteFileTabId (connectionId : string) (path : chars) : string :=
  "file:" +:+ connectionId +:+ ":" +:+ text_of (normalizeRemotePath (Some path)).

Definition isValidRemoteBaseName (name : chars) : bool :=
  let trimmed := js_trim name in
  negb (bool_decide (trimmed = [])) && negb (bool_decide (trimmed = ["."%char])) &&
  negb (bool_decide (trimmed = ["."%char; "."%char])) && bool_decide (Forall (λ c, c ≠ slash ∧ c ≠ backslash) trimmed).

(** Why a name is refused ([remoteFileNameValidationMessage]), or what a call reported. *)
Inductive TextIssue := NameRequired | NameDots | NamePath | NameInvalid | CallFailed (message : string).

Definition remoteFileNameValidationMessage (name : chars) : TextIssue :=
  let trimmed := js_trim name in
  if decide (trimmed = []) then NameRequired
  else if decide (trimmed = ["."%char] ∨ trimmed = ["."%char; "."%char]) then NameDots
  else if decide (Exists (λ c, c = slash ∨ c = backslash) trimmed) then NamePath
  else NameInvalid.

(** ** Data *)

Inductive RemoteFileKind := KindDirectory | KindFile | KindSymlink | KindOther.

#[export] Instance RemoteFileKind_eq_dec : EqDecision RemoteFileKind.
Proof. solve_decision. Defined.

Record RemoteFileEntry := mkEntry {
  en_name : chars;
  en_path : chars;
  en_type : RemoteFileKind;
}.

(** What a save expects of the file. *)
Record RemoteFileMetadata := mkMetadata {
  md_size : Z;
  md_mtime : Z;
}.

Inductive RemoteFileSaveState := SsLoading | SsReady | SsDirty | SsSaving | SsSaved | SsError | SsConflict.

#[export] Instance RemoteFileSaveState_eq_dec : EqDecision RemoteFileSaveState.
Proof. solve_decision. Defined.

(** The status message and the name of the connection, which are only shown, are left
    out. *)
Record RemoteFileEditorTab := mkEditorTab {
  et_connectionId : string;
  et_content : string;
  et_dirty : bool;
  et_error : option string;
  et_id : string;
  et_metadata : option RemoteFileMetadata;
  et_name : chars;
  et_path : chars;
  et_saveState : RemoteFileSaveState;
  et_savedContent : string;
}.

Inductive RemoteFileTextAction :=
  | CreateDirectory (connectionId : string) (parentPath : chars)
  | CreateFile (connectionId : string) (parentPath : chars)
  | Rename (connectionId : string) (entry : RemoteFileEntry).

(** A request to the file panel: a connection, a number and a path. *)
Record PanelRequest := mkRequest {
  pr_connectionId : string;
  pr_id : nat;
  pr_path : chars;
}.

Record RemoteFileWriteRequest := mkWrite {
  wr_connectionId : string;
  wr_content : string;
  wr_expected : RemoteFileMetadata;
  wr_overwrite : bool;
  wr_path : chars;
}.

(** ** State

    [FileEnv] is what the handlers read that they do not change: the sessions, the
    connection of the active view and the known connections, and the connections whose
    files share the tabs of their terminals. *)

Record FileEnv := mkFileEnv {
  ev_terminals : list SessionRef;
  ev_locals : list string;
  ev_rdp : list SessionRef;
  ev_vnc : list SessionRef;
  ev_activeConnection : option string;
  ev_connections : list string;
  ev_unified : list string;
}.

(** What a handler keeps of the render it belongs to. *)
Record RenderedFiles := mkRendered {
  rd_tabs : list RemoteFileEditorTab;
  rd_shell : SplitShell;
  rd_env : FileEnv;
  rd_pendingClose : option string;
  rd_pendingConflict : option string;
}.

Inductive FileCall :=
  | CallRead (connectionId : string) (path : chars) (tabId : string)
  | CallWrite (request : RemoteFileWriteRequest) (tabId : string)
  | CallCreateFile (connectionId : string) (path : chars) (rd : RenderedFiles)
  | CallCreateDirectory (connectionId : string) (path parentPath : chars)
  | CallRename (connectionId : string) (oldPath newPath : chars) (activeFile : option string)
  | CallDelete (connectionId : string) (entry : RemoteFileEntry) (rest all : list RemoteFileEntry) (rd : RenderedFiles).

Definition rd_pointers (rd : RenderedFiles) : SessionPointerState := ss_pointers (rd_shell rd).

Record Editor := mkEditor {
  ed_tabs : list RemoteFileEditorTab;
  ed_shell : SplitShell;
  ed_pendingClose : option string;
  ed_pendingConflict : option string;
  ed_deleteTarget : option (string * list RemoteFileEntry);
  ed_textAction : option RemoteFileTextAction;
  ed_textValue : chars;
  ed_textError : option TextIssue;
  ed_refresh : option PanelRequest;
  ed_locate : option PanelRequest;
  ed_panelShown : bool;
  ed_calls : list FileCall;
}.

Definition ed_set_tabs tabs (s : Editor) : Editor :=
  mkEditor tabs (ed_shell s) (ed_pendingClose s) (ed_pendingConflict s) (ed_deleteTarget s) (ed_textAction s)
    (ed_textValue s) (ed_textError s) (ed_refresh s) (ed_locate s) (ed_panelShown s) (ed_calls s).
Definition ed_set_shell shell (s : Editor) : Editor :=
  mkEditor (ed_tabs s) shell (ed_pendingClose s) (ed_pendingConflict s) (ed_deleteTarget s) (ed_textAction s)
    (ed_textValue s) (ed_textError s) (ed_refresh s) (ed_locate s) (ed_panelShown s) (ed_calls s).
Definition ed_set_pending close conflict (s : Editor) : Editor :=
  mkEditor (ed_tabs s) (ed_shell s) close conflict (ed_deleteTarget s) (ed_textAction s)
    (ed_textValue s) (ed_textError s) (ed_refresh s) (ed_locate s) (ed_panelShown s) (ed_calls s).
Definition ed_set_delete target (s : Editor) : Editor :=
  mkEditor (ed_tabs s) (ed_shell s) (ed_pendingClose s) (ed_pendingConflict s) target (ed_textAction s)
    (ed_textValue s) (ed_textError s) (ed_refresh s) (ed_locate s) (ed_panelShown s) (ed_calls s).
Definition ed_set_text action value error (s : Editor) : Editor :=
  mkEditor (ed_tabs s) (ed_shell s) (ed_pendingClose s) (ed_pendingConflict s) (ed_deleteTarget s) action
    value error (ed_refresh s) (ed_locate s) (ed_panelShown s) (ed_calls s).
Definition ed_set_requests refresh locate shown (s : Editor) : Editor :=
  mkEditor (ed_tabs s) (ed_shell s) (ed_pendingClose s) (ed_pendingConflict s) (ed_deleteTarget s) (ed_textAction s)
    (ed_textValue s) (ed_textError s) refresh locate shown (ed_calls s).
Definition ed_set_calls calls (s : Editor) : Editor :=
  mkEditor (ed_tabs s) (ed_shell s) (ed_pendingClose s) (ed_pendingConflict s) (ed_deleteTarget s) (ed_textAction s)
    (ed_textValue s) (ed_textError s) (ed_refresh s) (ed_locate s) (ed_panelShown s) calls.

Definition ed_call (c : FileCall) (s : Editor) : Editor := ed_set_calls (ed_calls s ++ [c]) s.
Definition ed_pointers (s : Editor) : SessionPointerState := ss_pointers (ed_shell s).
Definition ed_dispatch (a : SessionTabsAction) (s : Editor) : Editor := ed_set_shell (dispatchTabs a (ed_shell s)) s.

(** The render of the present state. *)
Definition rendered (env : FileEnv) (s : Editor) : RenderedFiles :=
  mkRendered (ed_tabs s) (ed_shell s) env (ed_pendingClose s) (ed_pendingConflict s).

Definition initialEditor : Editor :=
  mkEditor [] initialSplitShell None None None None [] None None None false [].

(** ** Activation *)

(** [activateTerminalSplitTab] of the render [rd]. *)
Definition activateTerminalSplitTab_of (tabs : ShellTabs) (rd : SplitShell) (paneId : option string) (s : SplitShell) :
    SplitShell :=
  match shell_layout rd, host (ss_split rd) with
  | Some _, Some h =>
      let panes := shell_panes rd in
      let focused := opt_truthy_find (focusedPaneId (ss_split rd)) (λ id, js_find (λ pane, pane_id pane = id) panes) in
      let nextPane :=
        opt_truthy_find paneId (λ id, js_find (λ pane, pane_id pane = id) panes) ?: focused ?: head panes in
      let s := activateTerminalSplitHost tabs (Some h) (dispatchMulti (MxSetError None) (dispatchSplit (SplitSetTabActive true) s)) in
      match nextPane with
      | None => s
      | Some pane =>
          let s := dispatchSplit (SplitFocusPane (Some (pane_id pane))) s in
          match pane_binding pane with
          | None => s
          | Some b =>
              let present :=
                match binding_kind b with
                | PaneSsh => bool_decide (Exists (λ t, ref_id t = binding_tabId b) (st_terminals tabs))
                | PaneLocal => bool_decide (binding_tabId b ∈ st_locals tabs)
                end in
              if present then dispatchTabs (FocusPaneBinding b) s else s
          end
      end
  | _, _ => s
  end.

Section handlers.
Context (rd : RenderedFiles).

Definition isConnectionTerminalFileUnified (connectionId : string) : bool :=
  bool_decide (connectionId ∈ ev_unified (rd_env rd)).

Definition preferredTabForConnection (connectionId : string) : option SessionRef :=
  let tabs := ev_terminals (rd_env rd) in
  opt_truthy_find (activeTabByConnectionId (rd_pointers rd) !! connectionId)
    (λ id, js_find (λ tab, ref_connectionId tab = connectionId ∧ ref_id tab = id) tabs)
  ?: js_find (λ tab, ref_connectionId tab = connectionId) tabs.

Definition activateStandaloneTerminalTab (tab : SessionRef) (s : Editor) : Editor :=
  ed_dispatch (ActivateTerminal (ref_connectionId tab) (ref_id tab) (isConnectionTerminalFileUnified (ref_connectionId tab)))
    (ed_set_shell (dispatchSplit (SplitSetTabActive false) (ed_shell s)) s).

Definition activateTerminalTab (tab : SessionRef) (s : Editor) : Editor :=
  match shell_layout (rd_shell rd) ≫= λ l, findTerminalSplitPaneByBinding l (mkBinding PaneSsh (ref_id tab)) with
  | Some pane =>
      let env := rd_env rd in
      ed_set_shell (activateTerminalSplitTab_of (mkShellTabs (ev_terminals env) (ev_locals env)) (rd_shell rd)
        (Some (pane_id pane)) (ed_shell s)) s
  | None => activateStandaloneTerminalTab tab s
  end.

Definition activateRemoteFileTab (tab : RemoteFileEditorTab) (s : Editor) : Editor :=
  let connectionId := et_connectionId tab in
  let sameConnectionActiveTerminal := opt_truthy_find (activeTabId (rd_pointers rd))
    (λ id, js_find (λ item, ref_id item = id ∧ ref_connectionId item = connectionId) (ev_terminals (rd_env rd))) in
  let terminalTab := sameConnectionActiveTerminal ?: preferredTabForConnection connectionId in
  ed_dispatch (ActivateFile connectionId (et_id tab) (isConnectionTerminalFileUnified connectionId) (ref_id <$> terminalTab)) s.

(** The active session of a kind, or its first one when none is active. *)
Definition next_session (active : option string) (sessions : list SessionRef) : option SessionRef :=
  if truthy active then opt_truthy_find active (λ id, js_find (λ session, ref_id session = id) sessions) else head sessions.

Definition activateTerminalFallbackAfterFilesClose (s : Editor) : Editor :=
  let p := rd_pointers rd in
  let env := rd_env rd in
  let nextTerminalTab :=
    opt_truthy_find (activeTabId p) (λ id, js_find (λ tab, ref_id tab = id) (ev_terminals env))
    ?: opt_truthy_find (activeConnectionId p) preferredTabForConnection ?: head (ev_terminals env) in
  match nextTerminalTab with
  | Some tab => activateTerminalTab tab s
  | None =>
      match next_session (activeRdpSessionId p) (ev_rdp env) with
      | Some session => ed_dispatch (ActivateRdp (ref_connectionId session) (ref_id session)) s
      | None =>
          match next_session (activeVncSessionId p) (ev_vnc env) with
          | Some session => ed_dispatch (ActivateVnc (ref_connectionId session) (ref_id session)) s
          | None => ed_dispatch FallbackHomeKeepPointers s
          end
      end
  end.

Definition activateRemoteFileFallbackAfterRemoval (nextRemoteFileTabs : list RemoteFileEditorTab)
    (preferredConnectionId : string) (s : Editor) : Editor :=
  match js_find (λ tab, et_connectionId tab = preferredConnectionId) nextRemoteFileTabs ?: head nextRemoteFileTabs with
  | Some tab => activateRemoteFileTab tab s
  | None => activateTerminalFallbackAfterFilesClose (ed_dispatch ClearActiveFile s)
  end.

(** ** Opening, loading, saving *)

Definition updateRemoteFileTab (tabId : string) (updater : RemoteFileEditorTab → RemoteFileEditorTab) (s : Editor) : Editor :=
  ed_set_tabs ((λ tab, if decide (et_id tab = tabId) then updater tab else tab) <$> ed_tabs s) s.

Definition next_request (request : option PanelRequest) (connectionId : string) (path : chars) : option PanelRequest :=
  Some (mkRequest connectionId (match request with Some r => pr_id r | None => 0 end + 1) (normalizeRemotePath (Some path))).

Definition triggerRemoteFileRefresh (connectionId : string) (path : chars) (s : Editor) : Editor :=
  ed_set_requests (next_request (ed_refresh s) connectionId path) (ed_locate s) (ed_panelShown s) s.
Definition triggerRemoteFileLocate (connectionId : string) (path : chars) (s : Editor) : Editor :=
  ed_set_requests (ed_refresh s) (next_request (ed_locate s) connectionId path) (ed_panelShown s) s.

Definition find_tab (tabId : string) : option RemoteFileEditorTab := js_find (λ item, et_id item = tabId) (rd_tabs rd).

(** [openRemoteFile]; [loadRemoteFileTab] until its wait is the call to read. *)
Definition openRemoteFile (entry : RemoteFileEntry) (s : Editor) : Editor :=
  match ev_activeConnection (rd_env rd) with
  | None => s
  | Some connectionId =>
      if decide (en_type entry = KindDirectory) then s
      else
        let path := normalizeRemotePath (Some (en_path entry)) in
        match js_find (λ tab, et_connectionId tab = connectionId ∧ et_path tab = path) (rd_tabs rd) with
        | Some existingTab => activateRemoteFileTab existingTab s
        | None =>
            let tab := mkEditorTab connectionId "" false None (remoteFileTabId connectionId path) None (en_name entry) path
              SsLoading "" in
            ed_call (CallRead connectionId path (et_id tab)) (activateRemoteFileTab tab (ed_set_tabs (ed_tabs s ++ [tab]) s))
        end
  end.

Definition locateRemoteFileFolder (tabId : string) (s : Editor) : Editor :=
  match find_tab tabId with
  | None => s
  | Some tab =>
      let s := activateRemoteFileTab tab s in
      triggerRemoteFileLocate (et_connectionId tab) (remotePathParent (Some (et_path tab)))
        (ed_set_requests (ed_refresh s) (ed_locate s) true s)
  end.

Definition with_status (state : RemoteFileSaveState) (error : option string) (tab : RemoteFileEditorTab) : RemoteFileEditorTab :=
  mkEditorTab (et_connectionId tab) (et_content tab) (et_dirty tab) error (et_id tab) (et_metadata tab) (et_name tab)
    (et_path tab) state (et_savedContent tab).

Definition saveRemoteFile (tabId : string) (overwrite : bool) (s : Editor) : Editor :=
  match find_tab tabId with
  | None => s
  | Some tab =>
      match et_metadata tab with
      | None => s
      | Some metadata =>
          if decide (et_saveState tab = SsSaving) then s
          else ed_call (CallWrite (mkWrite (et_connectionId tab) (et_content tab) metadata overwrite (et_path tab)) tabId)
            (updateRemoteFileTab tabId (with_status SsSaving None) s)
      end
  end.

Definition reloadRemoteFile (tabId : string) (s : Editor) : Editor :=
  match find_tab tabId with
  | None => s
  | Some tab =>
      if decide (et_connectionId tab ∈ ev_connections (rd_env rd)) then
        ed_call (CallRead (et_connectionId tab) (et_path tab) tabId) (updateRemoteFileTab tabId (with_status SsLoading None) s)
      else s
  end.

(** ** Closing *)

Definition closeRemoteFileTabsNow (tabIds : list string) (s : Editor) : Editor :=
  let closingActiveTab := opt_truthy_find (activeRemoteFileTabId (rd_pointers rd))
    (λ id, js_find (λ tab, et_id tab = id ∧ et_id tab ∈ tabIds) (rd_tabs rd)) in
  let nextTabs := filter (λ tab, et_id tab ∉ tabIds) (rd_tabs rd) in
  let s := ed_set_tabs nextTabs s in
  match closingActiveTab with
  | Some tab => activateRemoteFileFallbackAfterRemoval nextTabs (et_connectionId tab) s
  | None => s
  end.

Definition closeRemoteFileTab (tabId : string) (s : Editor) : Editor :=
  match find_tab tabId with
  | Some tab => if et_dirty tab then ed_set_pending (Some tabId) (ed_pendingConflict s) s else closeRemoteFileTabsNow [tabId] s
  | None => closeRemoteFileTabsNow [tabId] s
  end.

Definition closeRemoteFileTabs (tabIds : list string) (s : Editor) : Editor :=
  let dirtyTab := js_find (λ tab, et_id tab ∈ tabIds ∧ et_dirty tab = true) (rd_tabs rd) in
  let cleanTabIds := et_id <$> filter (λ tab, et_id tab ∈ tabIds ∧ et_dirty tab = false) (rd_tabs rd) in
  let s := if decide (cleanTabIds = []) then s else closeRemoteFileTabsNow cleanTabIds s in
  match dirtyTab with
  | Some tab => ed_set_pending (Some (et_id tab)) (ed_pendingConflict s) s
  | None => s
  end.

Definition closeOtherRemoteFileTabs (tabId : string) (s : Editor) : Editor :=
  match find_tab tabId with
  | None => s
  | Some tab => closeRemoteFileTabs
      (et_id <$> filter (λ item, et_connectionId item = et_connectionId tab ∧ et_id item ≠ tabId) (rd_tabs rd)) s
  end.

Definition closeRemoteFileTabsToRight (tabId : string) (s : Editor) : Editor :=
  match find_tab tabId with
  | None => s
  | Some tab =>
      let sameConnectionTabs := filter (λ item, et_connectionId item = et_connectionId tab) (rd_tabs rd) in
      match list_find (λ item, et_id item = tabId) sameConnectionTabs with
      | None => s
      | Some (index, _) => closeRemoteFileTabs (et_id <$> drop (index + 1) sameConnectionTabs) s
      end
  end.

Definition closeAllRemoteFileTabsForConnection (connectionId : string) (s : Editor) : Editor :=
  closeRemoteFileTabs (et_id <$> filter (λ tab, et_connectionId tab = connectionId) (rd_tabs rd)) s.

Definition isClosableSavedRemoteFileTab (tab : RemoteFileEditorTab) : bool :=
  negb (et_dirty tab) && bool_decide (et_saveState tab = SsReady ∨ et_saveState tab = SsSaved).

Definition closeSavedRemoteFileTabsForConnection (connectionId : string) (s : Editor) : Editor :=
  closeRemoteFileTabsNow
    (et_id <$> filter (λ tab, et_connectionId tab = connectionId ∧ isClosableSavedRemoteFileTab tab = true) (rd_tabs rd)) s.

(** The buttons of the dialogs about a modified file and about a conflict. *)
Definition pending_tab (pending : option string) : option RemoteFileEditorTab := opt_truthy_find pending find_tab.

Definition confirm_close (s : Editor) : Editor :=
  let s := match pending_tab (rd_pendingClose rd) with Some tab => closeRemoteFileTabsNow [et_id tab] s | None => s end in
  ed_set_pending None (ed_pendingConflict s) s.

Definition conflict_overwrite (s : Editor) : Editor :=
  let s := match pending_tab (rd_pendingConflict rd) with Some tab => saveRemoteFile (et_id tab) true s | None => s end in
  ed_set_pending (ed_pendingClose s) None s.

Definition conflict_reload (s : Editor) : Editor :=
  let s := match pending_tab (rd_pendingConflict rd) with Some tab => reloadRemoteFile (et_id tab) s | None => s end in
  ed_set_pending (ed_pendingClose s) None s.

End handlers.

Definition handleRemoteFileChange (tabId content : string) : Editor → Editor :=
  updateRemoteFileTab tabId (λ tab,
    let dirty := negb (String.eqb content (et_savedContent tab)) in
    mkEditorTab (et_connectionId tab) content dirty (et_error tab) (et_id tab) (et_metadata tab) (et_name tab) (et_path tab)
      (if dirty then SsDirty else SsReady) (et_savedContent tab)).

Definition discardRemoteFileChanges (tabId : string) : Editor → Editor :=
  updateRemoteFileTab tabId (λ tab,
    mkEditorTab (et_connectionId tab) (et_savedContent tab) false None (et_id tab) (et_metadata tab) (et_name tab)
      (et_path tab) SsReady (et_savedContent tab)).

(** ** Deleting *)

Section deleting.
(** [left.localeCompare(right) > 0] *)
Context (locale_gt : string → string → bool).

(** The comparator of the paths: by length, then by locale. *)
Definition entry_gt (left right : RemoteFileEntry) : bool :=
  (length (en_path right) <? length (en_path left)) ||
  ((length (en_path right) =? length (en_path left)) && locale_gt (text_of (en_path left)) (text_of (en_path right))).

(** The [Map] by normal path: the last entry of a path, at the place of the first. *)
Definition entries_by_path (entries : list RemoteFileEntry) : jsmap RemoteFileEntry :=
  foldl (λ byPath entry,
    let path := normalizeRemotePath (Some (en_path entry)) in
    jsmap_set (text_of path) (mkEntry (en_name entry) path (en_type entry)) byPath) [] entries.

(** A directory of [selected] that holds the entry. *)
Definition covered (selected : list RemoteFileEntry) (entry : RemoteFileEntry) : bool :=
  bool_decide (Exists (λ d, en_type d = KindDirectory ∧
    isRemotePathStrictDescendant (Some (en_path entry)) (Some (en_path d)) = true) selected).

Definition collapse_step (collapsed : list RemoteFileEntry) (entry : RemoteFileEntry) : list RemoteFileEntry :=
  if covered collapsed entry then collapsed else collapsed ++ [entry].

Definition collapseRemoteFileDeleteEntries (entries : list RemoteFileEntry) : list RemoteFileEntry :=
  foldl collapse_step [] (js_sort entry_gt (entries_by_path entries).*2).

(** The elements without repetition, each at its first place ([Array.from(new Set(...))]). *)
Fixpoint unique_paths (paths : list chars) : list chars :=
  match paths with
  | [] => []
  | path :: rest => path :: filter (λ p, p ≠ path) (unique_paths rest)
  end.

Definition uniqueRemoteParentPaths (entries : list RemoteFileEntry) : list chars :=
  unique_paths ((λ entry, remotePathParent (Some (en_path entry))) <$> entries).

Definition isRemoteFileTabUnderEntry (tab : RemoteFileEditorTab) (connectionId : string) (entryPath : chars) : bool :=
  let normalizedEntryPath := normalizeRemotePath (Some entryPath) in
  bool_decide (et_connectionId tab = connectionId) &&
  (bool_decide (et_path tab = normalizedEntryPath) ||
   isRemotePathStrictDescendant (Some (et_path tab)) (Some normalizedEntryPath)).

Definition requestDeleteRemoteEntries (env : FileEnv) (entries : list RemoteFileEntry) (s : Editor) : Editor :=
  match ev_activeConnection env with
  | None => s
  | Some connectionId =>
      let normalizedEntries := collapseRemoteFileDeleteEntries entries in
      if decide (normalizedEntries = []) then s else ed_set_delete (Some (connectionId, normalizedEntries)) s
  end.

(** [confirmRemoteFileDelete] until its first wait. *)
Definition confirmRemoteFileDelete (rd : RenderedFiles) (s : Editor) : Editor :=
  match ed_deleteTarget s with
  | None => s
  | Some (connectionId, entries) =>
      match collapseRemoteFileDeleteEntries entries with
      | [] => ed_set_delete None s
      | entry :: rest => ed_call (CallDelete connectionId entry rest (entry :: rest) rd) s
      end
  end.

(** A dialog about a tab that is gone is dismissed. *)
Definition keep_pending (rendered current : option string) (tabs : list RemoteFileEditorTab) : option string :=
  if truthy rendered && negb (bool_decide (Exists (λ tab, Some (et_id tab) = rendered) tabs)) then None else current.

(** The end of [confirmRemoteFileDelete], over the tabs of the render it started in. *)
Definition finish_delete (rd : RenderedFiles) (connectionId : string) (entries : list RemoteFileEntry) (s : Editor) : Editor :=
  let s := foldl (λ s parentPath, triggerRemoteFileRefresh connectionId parentPath s) s (uniqueRemoteParentPaths entries) in
  let nextRemoteFileTabs := filter (λ tab,
    ¬ Exists (λ entry, isRemoteFileTabUnderEntry tab connectionId (en_path entry) = true) entries) (rd_tabs rd) in
  let active := activeRemoteFileTabId (rd_pointers rd) in
  let has_active tabs := bool_decide (Exists (λ tab, Some (et_id tab) = active) tabs) in
  let removedActiveRemoteFileTab := truthy active && has_active (rd_tabs rd) && negb (has_active nextRemoteFileTabs) in
  let s := ed_set_tabs nextRemoteFileTabs s in
  let s := ed_set_pending (keep_pending (rd_pendingClose rd) (ed_pendingClose s) nextRemoteFileTabs)
    (keep_pending (rd_pendingConflict rd) (ed_pendingConflict s) nextRemoteFileTabs) s in
  let s := if removedActiveRemoteFileTab then activateRemoteFileFallbackAfterRemoval rd nextRemoteFileTabs connectionId s else s in
  ed_set_delete None s.

(** ** Names *)

Definition clear_text : Editor → Editor := ed_set_text None [] None.

(** ** Connections that close

    [clearRemoteFileSessionStateForConnections], but for the layouts of the file panels
    (they are in [ClosePaths]). A dialog or a request stays when what it is about does. *)

Definition action_connection (action : RemoteFileTextAction) : string :=
  match action with CreateDirectory c _ | CreateFile c _ | Rename c _ => c end.

Definition keep_tab (tabs : list RemoteFileEditorTab) (tabId : option string) : option string :=
  if truthy tabId && bool_decide (Exists (λ tab, Some (et_id tab) = tabId) tabs) then tabId else None.

Definition keep_request (closing : list string) (request : option PanelRequest) : option PanelRequest :=
  match request with Some r => if decide (pr_connectionId r ∈ closing) then None else Some r | None => None end.

Definition clearRemoteFileState (rd : RenderedFiles) (closing : list string) (s : Editor) : Editor :=
  let nextRemoteFileTabs := filter (λ tab, et_connectionId tab ∉ closing) (rd_tabs rd) in
  let s := if decide (length nextRemoteFileTabs = length (rd_tabs rd)) then s else ed_set_tabs nextRemoteFileTabs s in
  let active := activeRemoteFileTabId (rd_pointers rd) in
  let s :=
    if truthy active && negb (bool_decide (Exists (λ tab, Some (et_id tab) = active) nextRemoteFileTabs))
    then ed_dispatch ClearActiveFile s else s in
  let s := ed_set_pending (keep_tab nextRemoteFileTabs (ed_pendingClose s)) (keep_tab nextRemoteFileTabs (ed_pendingConflict s)) s in
  let s :=
    match ed_deleteTarget s with
    | Some (connectionId, _) => if decide (connectionId ∈ closing) then ed_set_delete None s else s
    | None => s
    end in
  let s :=
    match ed_textAction s with
    | Some action => if decide (action_connection action ∈ closing) then clear_text s else s
    | None => s
    end in
  ed_dispatch (ForgetUnified closing)
    (ed_set_requests (keep_request closing (ed_refresh s)) (keep_request closing (ed_locate s)) (ed_panelShown s) s).

Definition requestCreateRemoteFile (env : FileEnv) (parentPath : chars) (s : Editor) : Editor :=
  match ev_activeConnection env with
  | None => s
  | Some connectionId =>
      ed_set_text (Some (CreateFile connectionId (normalizeRemotePath (Some parentPath))))
        (String.list_ascii_of_string "untitled.txt") None s
  end.

Definition requestCreateRemoteDirectory (env : FileEnv) (parentPath : chars) (s : Editor) : Editor :=
  match ev_activeConnection env with
  | None => s
  | Some connectionId =>
      ed_set_text (Some (CreateDirectory connectionId (normalizeRemotePath (Some parentPath))))
        (String.list_ascii_of_string "new-folder") None s
  end.

Definition requestRenameRemoteEntry (env : FileEnv) (entry : RemoteFileEntry) (s : Editor) : Editor :=
  match ev_activeConnection env with
  | None => s
  | Some connectionId => ed_set_text (Some (Rename connectionId entry)) (en_name entry) None s
  end.

(** [submitRemoteFileTextAction] until its wait. *)
Definition submitRemoteFileTextAction (rd : RenderedFiles) (s : Editor) : Editor :=
  match ed_textAction s with
  | None => s
  | Some action =>
      let value := js_trim (ed_textValue s) in
      if negb (isValidRemoteBaseName value) then
        ed_set_text (ed_textAction s) (ed_textValue s) (Some (remoteFileNameValidationMessage value)) s
      else
        match action with
        | CreateFile connectionId parentPath => ed_call (CallCreateFile connectionId (joinRemotePath parentPath value) rd) s
        | CreateDirectory connectionId parentPath =>
            ed_call (CallCreateDirectory connectionId (joinRemotePath parentPath value) parentPath) s
        | Rename connectionId entry =>
            ed_call (CallRename connectionId (en_path entry)
              (joinRemotePath (remotePathParent (Some (en_path entry))) value) (activeRemoteFileTabId (rd_pointers rd))) s
        end
  end.

(** The path of a tab after [oldPath] became [newPath] (both normal). *)
Definition renamed_path (oldPath newPath path : chars) : chars :=
  if decide (path = oldPath) then newPath else joinRemotePath newPath (drop (length oldPath + 1) path).

Definition rename_tab (connectionId : string) (oldPath newPath : chars) (tab : RemoteFileEditorTab) : RemoteFileEditorTab :=
  if bool_decide (et_connectionId tab = connectionId) &&
    (bool_decide (et_path tab = oldPath) || isRemotePathStrictDescendant (Some (et_path tab)) (Some oldPath))
  then
    let nextPath := renamed_path oldPath newPath (et_path tab) in
    mkEditorTab (et_connectionId tab) (et_content tab) (et_dirty tab) (et_error tab) (remoteFileTabId connectionId nextPath)
      (et_metadata tab) (remoteFileName nextPath) nextPath (et_saveState tab) (et_savedContent tab)
  else tab.

Definition renameRemoteFileTabs (activeFile : option string) (connectionId : string) (oldPath newPath : chars) (s : Editor) :
    Editor :=
  let normalizedOldPath := normalizeRemotePath (Some oldPath) in
  let normalizedNewPath := normalizeRemotePath (Some newPath) in
  let s := ed_set_tabs (rename_tab connectionId normalizedOldPath normalizedNewPath <$> ed_tabs s) s in
  if decide (activeFile = Some (remoteFileTabId connectionId normalizedOldPath))
  then ed_dispatch (SetActiveRemoteFileTabId (Some (remoteFileTabId connectionId normalizedNewPath))) s else s.

(** ** Calls that settle *)

Inductive FileResult :=
  | FrRead (content : string) (metadata : RemoteFileMetadata) (name path : chars)
  | FrMetadata (metadata : RemoteFileMetadata) (name path : chars)
  | FrDone
  | FrFailed (code message : string).

Definition is_conflict (code : string) : bool := String.eqb code "remote_file_conflict".

Definition loaded content metadata name path (tab : RemoteFileEditorTab) : RemoteFileEditorTab :=
  mkEditorTab (et_connectionId tab) content false None (et_id tab) (Some metadata) name path SsReady content.

Definition load_failed (message : string) (tab : RemoteFileEditorTab) : RemoteFileEditorTab :=
  mkEditorTab (et_connectionId tab) "" false (Some message) (et_id tab) (et_metadata tab) (et_name tab) (et_path tab)
    SsError (et_savedContent tab).

Definition saved (metadata : RemoteFileMetadata) (tab : RemoteFileEditorTab) : RemoteFileEditorTab :=
  mkEditorTab (et_connectionId tab) (et_content tab) false None (et_id tab) (Some metadata) (et_name tab) (et_path tab)
    SsSaved (et_content tab).

Definition file_call_settled (c : FileCall) (result : FileResult) (s : Editor) : Editor :=
  match c, result with
  | CallRead _ _ tabId, FrRead content metadata name path => updateRemoteFileTab tabId (loaded content metadata name path) s
  | CallRead _ _ tabId, FrFailed _ message => updateRemoteFileTab tabId (load_failed message) s
  | CallWrite w tabId, FrMetadata metadata _ _ =>
      triggerRemoteFileRefresh (wr_connectionId w) (remotePathParent (Some (wr_path w)))
        (updateRemoteFileTab tabId (saved metadata) s)
  | CallWrite w tabId, FrFailed code message =>
      if is_conflict code then
        ed_set_pending (ed_pendingClose s) (Some tabId) (updateRemoteFileTab tabId (with_status SsConflict (Some message)) s)
      else updateRemoteFileTab tabId (with_status SsError (Some message)) s
  | CallCreateFile connectionId _ rd, FrMetadata _ name path =>
      clear_text (openRemoteFile rd (mkEntry name path KindFile)
        (triggerRemoteFileRefresh connectionId (remotePathParent (Some path)) s))
  | CallCreateDirectory connectionId _ parentPath, FrDone => clear_text (triggerRemoteFileRefresh connectionId parentPath s)
  | CallRename connectionId oldPath newPath activeFile, FrDone =>
      clear_text (triggerRemoteFileRefresh connectionId (remotePathParent (Some newPath))
        (triggerRemoteFileRefresh connectionId (remotePathParent (Some oldPath))
          (renameRemoteFileTabs activeFile connectionId oldPath newPath s)))
  | (CallCreateFile _ _ _ | CallCreateDirectory _ _ _ | CallRename _ _ _ _), FrFailed _ message =>
      ed_set_text (ed_textAction s) (ed_textValue s) (Some (CallFailed message)) s
  | CallDelete connectionId _ rest all rd, FrDone =>
      match rest with
      | entry :: rest => ed_call (CallDelete connectionId entry rest all rd) s
      | [] => finish_delete rd connectionId all s
      end
  | CallDelete _ _ _ _ _, FrFailed _ _ => ed_set_delete None s
  | _, _ => s
  end.

(** ** Commands *)

Inductive EditorEvent :=
  | EdOpen (entry : RemoteFileEntry)
  | EdActivate (tab : RemoteFileEditorTab)
  | EdLocate (tabId : string)
  | EdChange (tabId content : string)
  | EdSave (tabId : string)
  | EdReload (tabId : string)
  | EdDiscard (tabId : string)
  | EdClose (tabId : string)
  | EdCloseOthers (tabId : string)
  | EdCloseRight (tabId : string)
  | EdCloseAll (connectionId : string)
  | EdCloseSaved (connectionId : string)
  | EdConfirmClose
  | EdCancelClose
  | EdConflictReload
  | EdConflictOverwrite
  | EdConflictCancel
  | EdCreateFile (parentPath : chars)
  | EdCreateDirectory (parentPath : chars)
  | EdRename (entry : RemoteFileEntry)
  | EdTextValue (value : chars)
  | EdSubmit
  | EdTextCancel
  | EdDelete (entries : list RemoteFileEntry)
  | EdConfirmDelete
  | EdCancelDelete
  | EdForget (closing : list string)
  | EdSettled (index : nat) (result : FileResult).

(** [env] is the rest of the rendered state when the event happens. *)
Definition editor_step (env : FileEnv) (s : Editor) (event : EditorEvent) : Editor :=
  let rd := rendered env s in
  match event with
  | EdOpen entry => openRemoteFile rd entry s
  | EdActivate tab => activateRemoteFileTab rd tab s
  | EdLocate tabId => locateRemoteFileFolder rd tabId s
  | EdChange tabId content => handleRemoteFileChange tabId content s
  | EdSave tabId => saveRemoteFile rd tabId false s
  | EdReload tabId => reloadRemoteFile rd tabId s
  | EdDiscard tabId => discardRemoteFileChanges tabId s
  | EdClose tabId => closeRemoteFileTab rd tabId s
  | EdCloseOthers tabId => closeOtherRemoteFileTabs rd tabId s
  | EdCloseRight tabId => closeRemoteFileTabsToRight rd tabId s
  | EdCloseAll connectionId => closeAllRemoteFileTabsForConnection rd connectionId s
  | EdCloseSaved connectionId => closeSavedRemoteFileTabsForConnection rd connectionId s
  | EdConfirmClose => confirm_close rd s
  | EdCancelClose => ed_set_pending None (ed_pendingConflict s) s
  | EdConflictReload => conflict_reload rd s
  | EdConflictOverwrite => conflict_overwrite rd s
  | EdConflictCancel => ed_set_pending (ed_pendingClose s) None s
  | EdCreateFile parentPath => requestCreateRemoteFile env parentPath s
  | EdCreateDirectory parentPath => requestCreateRemoteDirectory env parentPath s
  | EdRename entry => requestRenameRemoteEntry env entry s
  | EdTextValue value => ed_set_text (ed_textAction s) value (ed_textError s) s
  | EdSubmit => submitRemoteFileTextAction rd s
  | EdTextCancel => clear_text s
  | EdDelete entries => requestDeleteRemoteEntries env entries s
  | EdConfirmDelete => confirmRemoteFileDelete rd s
  | EdCancelDelete => ed_set_delete None s
  | EdForget closing => clearRemoteFileState rd closing s
  | EdSettled index result =>
      match ed_calls s !! index with
      | Some c => file_call_settled c result (ed_set_calls (delete index (ed_calls s)) s)
      | None => s
      end
  end.

Definition editor_run (events : list (FileEnv * EditorEvent)) : Editor :=
  foldl (λ s e, editor_step e.1 s e.2) initialEditor events.

End deleting.

(** ** Only the shell *)

(** Activating a tab or a session changes nothing but the shell. *)
Definition shell_only (s s' : Editor) : Prop := ∃ shell, s' = ed_set_shell shell s.

Lemma shell_only_refl s : shell_only s s.
Proof. exists (ed_shell s). by destruct s. Qed.

Lemma shell_only_trans s1 s2 s3 : shell_only s1 s2 → shell_only s2 s3 → shell_only s1 s3.
Proof. intros [x ->] [y ->]. by exists y. Qed.

Lemma shell_only_dispatch a s : shell_only s (ed_dispatch a s).
Proof. by eexists. Qed.

#[export] Hint Resolve shell_only_refl shell_only_dispatch : nexa.

Section shell.
Context (rd : RenderedFiles).

Lemma activate_file_shell tab s : shell_only s (activateRemoteFileTab rd tab s).
Proof. by eexists. Qed.

Lemma activate_terminal_shell tab s : shell_only s (activateTerminalTab rd tab s).
Proof. unfold activateTerminalTab. destruct (_ ≫= _); [by eexists|]. by eexists. Qed.

Lemma fallback_shell s : shell_only s (activateTerminalFallbackAfterFilesClose rd s).
Proof.
  unfold activateTerminalFallbackAfterFilesClose. cbv zeta.
  repeat case_match; auto using activate_terminal_shell with nexa.
Qed.

Lemma removal_shell tabs c s : shell_only s (activateRemoteFileFallbackAfterRemoval rd tabs c s).
Proof.
  unfold activateRemoteFileFallbackAfterRemoval. case_match; [apply activate_file_shell|].
  eapply shell_only_trans; [apply shell_only_dispatch|apply fallback_shell].
Qed.

Lemma close_now_shell tabIds s :
  shell_only (ed_set_tabs (filter (λ tab, et_id tab ∉ tabIds) (rd_tabs rd)) s) (closeRemoteFileTabsNow rd tabIds s).
Proof. unfold closeRemoteFileTabsNow. cbv zeta. case_match; auto using removal_shell with nexa. Qed.
End shell.

(** The part of the state that the shell is not. *)
Definition files_of (s : Editor) := (ed_tabs s, ed_calls s, ed_pendingClose s, ed_pendingConflict s).

Lemma shell_only_files s s' : shell_only s s' → files_of s' = files_of s.
Proof. by intros [shell ->]. Qed.

(** Closing the files of connections keeps the others. *)
Lemma forget_files env closing s :
  ∃ close conflict, files_of (clearRemoteFileState (rendered env s) closing s) =
    (filter (λ tab, et_connectionId tab ∉ closing) (ed_tabs s), ed_calls s, close, conflict).
Proof.
  unfold clearRemoteFileState. cbv zeta. change (rd_tabs (rendered env s)) with (ed_tabs s).
  set (next := filter _ (ed_tabs s)). set (s1 := if decide _ then s else _).
  assert (ed_tabs s1 = next ∧ ed_calls s1 = ed_calls s) as [H1 H2].
  { unfold s1. case_decide as Hl; [|done]. split; [|done]. symmetry. by apply filter_length_eq. }
  set (s2 := if _ && _ then ed_dispatch ClearActiveFile s1 else s1).
  assert (ed_tabs s2 = next ∧ ed_calls s2 = ed_calls s) as [H3 H4] by (unfold s2; by destruct (_ && _)).
  set (s3 := ed_set_pending _ _ s2).
  assert (∀ t, ed_tabs t = next ∧ ed_calls t = ed_calls s → ∃ close conflict, files_of t = (next, ed_calls s, close, conflict)) as Hf.
  { intros t [Ht Hc]. unfold files_of. rewrite Ht, Hc. eauto. }
  set (s4 := match ed_deleteTarget s3 with Some _ => _ | None => _ end).
  assert (ed_tabs s4 = next ∧ ed_calls s4 = ed_calls s) as Hs4.
  { unfold s4. destruct (ed_deleteTarget s3) as [[c ?]|]; [case_decide|]; by split. }
  set (s5 := match ed_textAction s4 with Some _ => _ | None => _ end).
  assert (ed_tabs s5 = next ∧ ed_calls s5 = ed_calls s) as Hs5.
  { unfold s5. destruct (ed_textAction s4) as [a|]; [case_decide|]; exact Hs4. }
  by apply Hf.
Qed.

Lemma close_now_files rd tabIds s :
  files_of (closeRemoteFileTabsNow rd tabIds s) =
    (filter (λ tab, et_id tab ∉ tabIds) (rd_tabs rd), ed_calls s, ed_pendingClose s, ed_pendingConflict s).
Proof. by rewrite (shell_only_files _ _ (close_now_shell rd tabIds s)). Qed.

Lemma files_eq s tabs calls close conflict : files_of s = (tabs, calls, close, conflict) →
  ed_tabs s = tabs ∧ ed_calls s = calls ∧ ed_pendingClose s = close ∧ ed_pendingConflict s = conflict.
Proof. by intros [= <- <- <- <-]. Qed.

(** ** Tabs *)

(** A tab that is not dirty shows what was saved, or nothing after a failed load; one
    that is dirty shows something else. *)
Definition tab_ok (tab : RemoteFileEditorTab) : Prop :=
  if et_dirty tab then et_content tab ≠ et_savedContent tab
  else et_content tab = et_savedContent tab ∨ et_content tab = "".

Definition no_colon (s : string) : Prop := (":"%char) ∉ String.list_ascii_of_string s.

Lemma string_list_app a b : String.list_ascii_of_string (a +:+ b) = String.list_ascii_of_string a ++ String.list_ascii_of_string b.
Proof.
  induction a as [|c a IH]; [done|].
  change (c :: String.list_ascii_of_string (a +:+ b) = c :: String.list_ascii_of_string a ++ String.list_ascii_of_string b).
  by rewrite IH.
Qed.

Lemma colon_split (a b x y : list ascii) :
  ":"%char ∉ a → ":"%char ∉ b → a ++ ":"%char :: x = b ++ ":"%char :: y → a = b ∧ x = y.
Proof.
  revert b. induction a as [|c a IH]; intros [|d b] Ha Hb; cbn.
  - by intros [= ->].
  - intros [= <- _]. set_solver.
  - intros [= -> _]. set_solver.
  - intros [= -> H]. apply IH in H as [-> ->]; set_solver.
Qed.

Lemma text_of_inj x y : text_of x = text_of y → x = y.
Proof. intros H. rewrite <- (String.list_ascii_of_string_of_list_ascii x), H. apply String.list_ascii_of_string_of_list_ascii. Qed.

Lemma tab_id_inj c d p q : no_colon c → no_colon d → remoteFileTabId c p = remoteFileTabId d q →
  c = d ∧ normalizeRemotePath (Some p) = normalizeRemotePath (Some q).
Proof.
  unfold no_colon, remoteFileTabId. intros Hc Hd H%string_app_inj.
  apply (f_equal String.list_ascii_of_string) in H. rewrite !string_list_app in H. cbn in H.
  apply colon_split in H as [H1 H2]; [|done..]. split.
  - rewrite <- (String.string_of_list_ascii_of_string c), H1. apply String.string_of_list_ascii_of_string.
  - apply text_of_inj. rewrite <- (String.string_of_list_ascii_of_string (text_of _)), H2.
    apply String.string_of_list_ascii_of_string.
Qed.

(** ** Neat paths

    Absolute paths whose names have no blank at either end and no separator. *)

Record neat_segment (s : chars) : Prop := {
  ns_ok : segment_ok s;
  ns_head : ends_ok (head s);
}.

Definition neat (path : chars) : Prop := ∃ segs, Forall neat_segment segs ∧ path = path_of segs.

Lemma neat_segments_ok segs : Forall neat_segment segs → Forall segment_ok segs.
Proof. intros H. eapply Forall_impl; [exact H|]. by intros s [? _]. Qed.

Lemma neat_normal path : neat path → normalizeRemotePath (Some path) = path.
Proof. intros (segs & Hs & ->). by apply path_of_normal, neat_segments_ok. Qed.

Lemma path_of_inj a b : Forall segment_ok a → Forall segment_ok b → path_of a = path_of b → a = b.
Proof.
  intros Ha Hb Heq. destruct (decide (a = [])) as [->|Hane].
  { symmetry in Heq. symmetry. by apply (path_of_root b Hb). }
  destruct (decide (b = [])) as [->|Hbne]; [by apply (path_of_root a Ha)|].
  rewrite !path_of_slashed in Heq by done.
  pose proof (segments_slashed [] a Ha) as H1. pose proof (segments_slashed [] b Hb) as H2.
  rewrite Heq, H2 in H1. by rewrite !decide_True in H1 by done.
Qed.

Lemma last_join_segments segs s c : last s = Some c → last (join_segments (segs ++ [s])) = Some c.
Proof.
  intros [l ->]%last_Some. induction segs as [|x segs IH]; [apply last_snoc|].
  destruct (segs ++ [l ++ [c]]) as [|y r] eqn:Er; [by destruct segs|].
  change ((x :: segs) ++ [l ++ [c]]) with (x :: segs ++ [l ++ [c]]). rewrite Er.
  change (join_segments (x :: y :: r)) with (x ++ slash :: join_segments (y :: r)). apply last_Some in IH as [z ->].
  replace (x ++ slash :: z ++ [c]) with ((x ++ slash :: z) ++ [c]) by by rewrite <- app_assoc. by rewrite last_snoc.
Qed.

Lemma join_segments_elem x segs : x ∈ join_segments segs → x = slash ∨ ∃ s, s ∈ segs ∧ x ∈ s.
Proof.
  intros Hx. destruct segs as [|s segs]; [by apply not_elem_of_nil in Hx|].
  apply elem_of_slashed. rewrite <- join_slashed by done. by right.
Qed.

Lemma drop_slashes_id (s : chars) : head s ≠ Some slash → drop_slashes s = s.
Proof. destruct s as [|c s]; [done|]. intros H. cbn. rewrite decide_False; [done|]. by intros ->. Qed.

Lemma map_backslash_id (s : chars) : backslash ∉ s → (λ c, if decide (c = backslash) then slash else c) <$> s = s.
Proof.
  intros Hs. rewrite <- (list_fmap_id s) at 2. apply list_fmap_ext. intros i c Hc. rewrite decide_False; [done|].
  intros ->. by apply Hs, (list_elem_of_lookup_2 _ i).
Qed.

Lemma join_head (s : chars) segs : s ≠ [] → head (join_segments (s :: segs)) = head s.
Proof. destruct s; [done|]. by destruct segs. Qed.

(** A name, or the rest of a path, below a directory. *)
Lemma join_neat q rest : Forall neat_segment q → Forall neat_segment rest → rest ≠ [] →
  joinRemotePath (path_of q) (join_segments rest) = path_of (q ++ rest).
Proof.
  intros Hq Hr Hne. assert (Forall segment_ok (q ++ rest)) as Hqr by (apply Forall_app; split; by apply neat_segments_ok).
  unfold joinRemotePath. rewrite path_of_normal by by apply neat_segments_ok.
  assert (js_trim (join_segments rest) = join_segments rest) as ->.
  { apply js_trim_id.
    - destruct Hr as [|s r [[Hs _ _ _] Hh] _]; [done|]. by rewrite join_head.
    - destruct rest as [|s r _] using rev_ind; [done|]. apply Forall_app in Hr as [_ [[Hs _ _ Hend] _]%Forall_singleton].
      destruct (last s) as [c|] eqn:E; [|by apply last_None in E]. rewrite (last_join_segments r s c E). by apply Hend. }
  rewrite map_backslash_id.
  2:{ intros [?|(s & Hs & Hx)]%join_segments_elem; [done|]. rewrite Forall_forall in Hr. by destruct (Hr s Hs) as [[_ _ [] _] _]. }
  rewrite drop_slashes_id.
  2:{ destruct Hr as [|s r [[Hs Hsl _ _] _] _]; [done|]. rewrite join_head by done. destruct s; [done|]. intros [= ->]. apply Hsl. left. }
  rewrite decide_False.
  2:{ destruct Hr as [|s r [[Hs _ _ _] _] _]; [done|]. intros H. apply (f_equal head) in H. rewrite join_head in H by done. by destruct s. }
  rewrite <- (path_of_normal (q ++ rest) Hqr). do 2 f_equal.
  rewrite (path_of_slashed (q ++ rest)) by by destruct q. rewrite slashed_app, <- (join_slashed rest) by done.
  case_decide as Hroot; [apply path_of_root in Hroot as ->; [done|by apply neat_segments_ok]|].
  rewrite path_of_slashed; [done|]. by intros ->.
Qed.

(** ** The invariant *)

(** The id of a tab is the one of its connection and path. *)
Record tab_fits (tab : RemoteFileEditorTab) : Prop := {
  tf_connection : no_colon (et_connectionId tab);
  tf_path : neat (et_path tab);
  tf_id : et_id tab = remoteFileTabId (et_connectionId tab) (et_path tab);
}.

Record tabs_ok (tabs : list RemoteFileEditorTab) : Prop := {
  to_content : Forall tab_ok tabs;
  to_unique : NoDup (et_id <$> tabs);
  to_fit : Forall tab_fits tabs;
}.

(** A deletion in flight keeps tabs of an earlier render. *)
Definition call_ok (c : FileCall) : Prop := match c with CallDelete _ _ _ _ rd => tabs_ok (rd_tabs rd) | _ => True end.

Record editor_ok (s : Editor) : Prop := {
  eo_tabs : tabs_ok (ed_tabs s);
  eo_calls : Forall call_ok (ed_calls s);
}.

Lemma NoDup_fmap_reflect {A B C} (f : A → B) (g : A → C) (l : list A) :
  NoDup (f <$> l) → (∀ x y, x ∈ l → y ∈ l → g x = g y → f x = f y) → NoDup (g <$> l).
Proof.
  intros Hnd Hr. apply NoDup_alt. intros i j y Hi Hj.
  apply list_lookup_fmap_Some in Hi as (a & -> & Ha). apply list_lookup_fmap_Some in Hj as (b & Hab & Hb).
  apply (NoDup_lookup (f <$> l) i j (f a) Hnd); rewrite list_lookup_fmap; [by rewrite Ha|rewrite Hb; cbn].
  f_equal. symmetry. apply Hr; [by eapply list_elem_of_lookup_2..|done].
Qed.

Lemma tabs_ok_filter (P : RemoteFileEditorTab → Prop) `{∀ x, Decision (P x)} tabs : tabs_ok tabs → tabs_ok (filter P tabs).
Proof.
  intros [H1 H2 H3]. rewrite Forall_forall in H1, H3.
  split; [|by apply NoDup_filter_fmap|]; apply Forall_forall; intros t [_ Ht]%list_elem_of_filter; auto.
Qed.

Lemma tabs_ok_map f tabs : tabs_ok tabs →
  (∀ t, t ∈ tabs → tab_ok (f t) ∧ tab_fits (f t)) →
  (∀ x y, x ∈ tabs → y ∈ tabs → et_id (f x) = et_id (f y) → et_id x = et_id y) → tabs_ok (f <$> tabs).
Proof.
  intros [H1 H2 H3] Hf Hid. split.
  - apply Forall_fmap, Forall_forall. intros t Ht. by apply Hf.
  - rewrite <- list_fmap_compose. by apply (NoDup_fmap_reflect et_id).
  - apply Forall_fmap, Forall_forall. intros t Ht. by apply Hf.
Qed.

(** An update of one tab that keeps what identifies it. *)
Lemma update_ok tabId f s : editor_ok s →
  (∀ t, t ∈ ed_tabs s → et_id t = tabId → tab_ok t →
    tab_ok (f t) ∧ et_id (f t) = et_id t ∧ et_connectionId (f t) = et_connectionId t ∧ et_path (f t) = et_path t) →
  editor_ok (updateRemoteFileTab tabId f s).
Proof.
  intros [Ht Hc] Hf. split; [|done]. cbn. pose proof Ht as [H1 H2 H3]. rewrite Forall_forall in H1, H3.
  assert (∀ t, t ∈ ed_tabs s → let t' := if decide (et_id t = tabId) then f t else t in
    tab_ok t' ∧ tab_fits t' ∧ et_id t' = et_id t) as Hall.
  { intros t Hin. cbv zeta. case_decide as Hid; [|by auto]. destruct (Hf t Hin Hid (H1 t Hin)) as (Ho & Hi & Hn & Hp).
    split; [done|]. split; [|done]. destruct (H3 t Hin) as [? ? Heq]. split; [by rewrite Hn|by rewrite Hp|by rewrite Hi, Hn, Hp]. }
  apply tabs_ok_map; [done| |].
  - intros t Hin. destruct (Hall t Hin) as (? & ? & _). by split.
  - intros x y Hx Hy. destruct (Hall x Hx) as (_ & _ & ->). by destruct (Hall y Hy) as (_ & _ & ->).
Qed.

Lemma files_ok s s' : ed_tabs s' = ed_tabs s → ed_calls s' = ed_calls s → editor_ok s → editor_ok s'.
Proof. intros H1 H2 [? ?]. by split; rewrite ?H1, ?H2. Qed.

Lemma shell_ok s s' : shell_only s s' → editor_ok s → editor_ok s'.
Proof. intros [shell ->]. by apply files_ok. Qed.

Lemma add_call_ok c s : editor_ok s → call_ok c → editor_ok (ed_call c s).
Proof. intros [? ?] ?. split; [done|]. apply Forall_app. by split; [|apply Forall_singleton]. Qed.

Lemma drop_call_ok i s : editor_ok s → editor_ok (ed_set_calls (delete i (ed_calls s)) s).
Proof. intros [? ?]. split; [done|]. by apply Forall_delete. Qed.

#[export] Hint Resolve add_call_ok drop_call_ok shell_ok : nexa.

(** ** What every tab shows

    Whatever is open where: it needs nothing of the paths. *)

Definition call_shows (c : FileCall) : Prop := match c with CallDelete _ _ _ _ rd => Forall tab_ok (rd_tabs rd) | _ => True end.

Record editor_shows (s : Editor) : Prop := {
  es_tabs : Forall tab_ok (ed_tabs s);
  es_calls : Forall call_shows (ed_calls s);
}.

Lemma shows_files s s' : ed_tabs s' = ed_tabs s → ed_calls s' = ed_calls s → editor_shows s → editor_shows s'.
Proof. intros H1 H2 [? ?]. by split; rewrite ?H1, ?H2. Qed.

Lemma shows_pending close conflict s : editor_shows s → editor_shows (ed_set_pending close conflict s).
Proof. by apply shows_files. Qed.
Lemma shows_text action value error s : editor_shows s → editor_shows (ed_set_text action value error s).
Proof. by apply shows_files. Qed.
Lemma shows_requests refresh locate shown s : editor_shows s → editor_shows (ed_set_requests refresh locate shown s).
Proof. by apply shows_files. Qed.
Lemma shows_delete target s : editor_shows s → editor_shows (ed_set_delete target s).
Proof. by apply shows_files. Qed.

Lemma shows_shell s s' : shell_only s s' → editor_shows s → editor_shows s'.
Proof. intros [shell ->]. by apply shows_files. Qed.

Lemma shows_call c s : editor_shows s → call_shows c → editor_shows (ed_call c s).
Proof. intros [? ?] ?. split; [done|]. apply Forall_app. by split; [|apply Forall_singleton]. Qed.

Lemma shows_update tabId f s : editor_shows s → (∀ t, tab_ok t → tab_ok (f t)) → editor_shows (updateRemoteFileTab tabId f s).
Proof.
  intros [Ht Hc] Hf. split; [|done]. cbn. apply Forall_fmap. eapply Forall_impl; [exact Ht|]. intros t Hok. cbn.
  case_decide; auto.
Qed.

Lemma shows_filter (P : RemoteFileEditorTab → Prop) `{∀ x, Decision (P x)} tabs s :
  editor_shows s → Forall tab_ok tabs → editor_shows (ed_set_tabs (filter P tabs) s).
Proof. intros [_ Hc] Ht. split; [|done]. rewrite Forall_forall in Ht. apply Forall_forall. intros t [_ Hin]%list_elem_of_filter. auto. Qed.

Lemma shows_open rd entry s : editor_shows s → editor_shows (openRemoteFile rd entry s).
Proof.
  intros Hs. unfold openRemoteFile. cbv zeta. repeat case_match; try done; [by eapply shows_shell; [apply activate_file_shell|]|].
  apply shows_call; [|done]. eapply shows_shell; [apply activate_file_shell|]. destruct Hs as [Ht Hc]. split; [|done].
  cbn. apply Forall_app. split; [done|]. apply Forall_singleton. by left.
Qed.

Lemma shows_close rd tabIds s : editor_shows s → Forall tab_ok (rd_tabs rd) → editor_shows (closeRemoteFileTabsNow rd tabIds s).
Proof. intros Hs Hrd. eapply shows_shell; [apply close_now_shell|]. by apply shows_filter. Qed.

Lemma shows_close_many rd tabIds s : editor_shows s → Forall tab_ok (rd_tabs rd) → editor_shows (closeRemoteFileTabs rd tabIds s).
Proof.
  intros Hs Hrd. unfold closeRemoteFileTabs. cbv zeta. case_match; [apply shows_pending|];
    (case_decide; [done|by apply shows_close]).
Qed.

Lemma shows_save rd tabId overwrite s : editor_shows s → editor_shows (saveRemoteFile rd tabId overwrite s).
Proof. intros Hs. unfold saveRemoteFile. repeat case_match; try done. apply shows_call; [|done]. by apply shows_update. Qed.

Lemma shows_reload rd tabId s : editor_shows s → editor_shows (reloadRemoteFile rd tabId s).
Proof. intros Hs. unfold reloadRemoteFile. repeat case_match; try done. apply shows_call; [|done]. by apply shows_update. Qed.

(** What the invariant asks of an event: connections and paths are as usual, a file is
    read where it was asked for, and nothing is open where a file is created or an entry
    is moved to. *)
Definition open_fits (rd : RenderedFiles) (entry : RemoteFileEntry) (s : Editor) : Prop :=
  let path := normalizeRemotePath (Some (en_path entry)) in
  ∀ c, ev_activeConnection (rd_env rd) = Some c → no_colon c ∧ neat path ∧
    ∀ t, t ∈ ed_tabs s → et_connectionId t = c → et_path t = path →
      Exists (λ t', et_connectionId t' = c ∧ et_path t' = path) (rd_tabs rd).

Definition rename_fits (c : string) (oldPath newPath : chars) (s : Editor) : Prop :=
  ∃ old new, Forall neat_segment old ∧ Forall neat_segment new ∧ old ≠ [] ∧
    normalizeRemotePath (Some oldPath) = path_of old ∧ normalizeRemotePath (Some newPath) = path_of new ∧
    ∀ t rest, t ∈ ed_tabs s → et_connectionId t = c → Forall neat_segment rest → et_path t ≠ path_of (new ++ rest).

Definition event_fits (env : FileEnv) (s : Editor) (event : EditorEvent) : Prop :=
  match event with
  | EdOpen entry => open_fits (rendered env s) entry s
  | EdSettled index result =>
      match ed_calls s !! index, result with
      | Some (CallRead _ _ tabId), FrRead _ _ _ path => ∀ t, t ∈ ed_tabs s → et_id t = tabId → path = et_path t
      | Some (CallCreateFile _ _ rd), FrMetadata _ name path => open_fits rd (mkEntry name path KindFile) s
      | Some (CallRename c oldPath newPath _), FrDone => rename_fits c oldPath newPath s
      | _, _ => True
      end
  | _ => True
  end.

Section preservation.
Context (locale_gt : string → string → bool).

Lemma open_ok rd entry s : editor_ok s → open_fits rd entry s → editor_ok (openRemoteFile rd entry s).
Proof.
  intros Hok Hf. unfold openRemoteFile. destruct (ev_activeConnection _) as [c|] eqn:Ec; [|done].
  case_decide; [done|]. cbv zeta. destruct (Hf c Ec) as (Hc & Hp & Hin). set (path := normalizeRemotePath _) in *.
  case_match eqn:Ef; [eapply shell_ok; [apply activate_file_shell|done]|].
  apply add_call_ok; [|done]. eapply shell_ok; [apply activate_file_shell|].
  destruct Hok as [[H1 H2 H3] Hcalls]. split; [|done]. cbn. split.
  - apply Forall_app. split; [done|]. apply Forall_singleton. by left.
  - rewrite fmap_app. apply NoDup_app. split; [done|]. split; [|apply NoDup_singleton]. cbn.
    intros id (t & -> & Ht)%list_elem_of_fmap Hid%list_elem_of_singleton.
    rewrite Forall_forall in H3. destruct (H3 t Ht) as [Htc Htp Hti]. rewrite Hti in Hid.
    apply tab_id_inj in Hid as [Hcc Hpp]; [|done..]. rewrite !neat_normal in Hpp by done.
    specialize (Hin t Ht Hcc Hpp). apply Exists_exists in Hin as (t' & Ht' & Hm). rewrite js_find_None in Ef. by apply (Ef t').
  - apply Forall_app. split; [done|]. by apply Forall_singleton.
Qed.

Lemma set_tabs_ok tabs s : editor_ok s → tabs_ok tabs → editor_ok (ed_set_tabs tabs s).
Proof. intros [_ ?] ?. by split. Qed.

Lemma close_now_ok rd tabIds s : editor_ok s → tabs_ok (rd_tabs rd) → editor_ok (closeRemoteFileTabsNow rd tabIds s).
Proof.
  intros Hok Hrd. eapply shell_ok; [apply close_now_shell|]. apply set_tabs_ok; [done|]. by apply tabs_ok_filter.
Qed.

Lemma pending_ok close conflict s : editor_ok s → editor_ok (ed_set_pending close conflict s).
Proof. by apply files_ok. Qed.

Lemma close_many_ok rd tabIds s : editor_ok s → tabs_ok (rd_tabs rd) → editor_ok (closeRemoteFileTabs rd tabIds s).
Proof.
  intros Hok Hrd. unfold closeRemoteFileTabs. cbv zeta.
  case_match; try apply pending_ok; (case_decide; [done|by apply close_now_ok]).
Qed.

Lemma save_ok rd tabId overwrite s : editor_ok s → editor_ok (saveRemoteFile rd tabId overwrite s).
Proof.
  intros Hok. unfold saveRemoteFile. repeat (case_match; try done). apply add_call_ok; [|done]. by apply update_ok.
Qed.

Lemma editor_reload_ok rd tabId s : editor_ok s → editor_ok (reloadRemoteFile rd tabId s).
Proof.
  intros Hok. unfold reloadRemoteFile. repeat (case_match; try done). apply add_call_ok; [|done]. by apply update_ok.
Qed.

Lemma refreshes_only connectionId paths s :
  let s' := foldl (λ s p, triggerRemoteFileRefresh connectionId p s) s paths in files_of s' = files_of s.
Proof. cbv zeta. revert s. induction paths as [|p l IH]; intros s; [done|]. cbn [foldl]. by rewrite IH. Qed.

Lemma finish_delete_files rd c entries s : ∃ close conflict,
  files_of (finish_delete rd c entries s) =
    (filter (λ tab, ¬ Exists (λ entry, isRemoteFileTabUnderEntry tab c (en_path entry) = true) entries) (rd_tabs rd),
     ed_calls s, close, conflict).
Proof.
  unfold finish_delete. cbv zeta. set (s0 := foldl _ s _). pose proof (refreshes_only c (uniqueRemoteParentPaths entries) s) as H.
  cbv zeta in H. fold s0 in H. apply files_eq in H as (H1 & H2 & H3 & H4). do 2 eexists.
  destruct (_ && _); unfold files_of; cbn [ed_set_delete ed_tabs ed_calls ed_pendingClose ed_pendingConflict].
  - match goal with |- context [activateRemoteFileFallbackAfterRemoval rd ?tabs c ?s1] =>
      pose proof (shell_only_files _ _ (removal_shell rd tabs c s1)) as Hs; apply files_eq in Hs as (-> & -> & -> & ->) end.
    cbn. by rewrite H2.
  - cbn. by rewrite H2.
Qed.

(** The tabs of an entry follow it: [old/rest] becomes [new/rest], and the others stay. *)
Lemma rename_spec c old new t :
  Forall neat_segment old → Forall neat_segment new → old ≠ [] → tab_fits t →
  let t' := rename_tab c (path_of old) (path_of new) t in
  (et_connectionId t = c ∧ ∃ rest, Forall neat_segment rest ∧ et_path t = path_of (old ++ rest) ∧
    t' = mkEditorTab c (et_content t) (et_dirty t) (et_error t) (remoteFileTabId c (path_of (new ++ rest)))
      (et_metadata t) (remoteFileName (path_of (new ++ rest))) (path_of (new ++ rest)) (et_saveState t) (et_savedContent t)) ∨
  (t' = t ∧ (et_connectionId t = c → ∀ rest, Forall neat_segment rest → et_path t ≠ path_of (old ++ rest))).
Proof.
  intros Ho Hn Hne [_ (segs & Hsegs & Hp) _]. cbv zeta. unfold rename_tab. rewrite Hp.
  pose proof (neat_segments_ok _ Ho) as Ho'. pose proof (neat_segments_ok _ Hsegs) as Hs'.
  assert (Forall neat_segment segs → bool_decide (path_of segs = path_of old) ||
    isRemotePathStrictDescendant (Some (path_of segs)) (Some (path_of old)) = true ↔ ∃ rest, segs = old ++ rest) as Hd.
  { intros _. rewrite orb_true_iff, bool_decide_eq_true, (descendant_prefix segs old) by done. split.
    - intros [H%path_of_inj|(rest & _ & ->)]; [exists []; by rewrite app_nil_r|done|done|by exists rest].
    - intros (rest & ->). destruct (decide (rest = [])) as [->|Hr]; [left; by rewrite app_nil_r|right; by exists rest]. }
  specialize (Hd Hsegs). destruct (decide (et_connectionId t = c)) as [Hc|Hc].
  2:{ right. rewrite bool_decide_eq_false_2 by done. by split. }
  rewrite bool_decide_eq_true_2 by done. cbn [andb].
  destruct (_ || _) eqn:Ed.
  - left. split; [done|]. apply proj1 in Hd. destruct (Hd eq_refl) as (rest & ->). clear Ed Hd.
    apply Forall_app in Hsegs as [_ Hrest]. exists rest. split; [done|]. split; [done|].
    assert (renamed_path (path_of old) (path_of new) (path_of (old ++ rest)) = path_of (new ++ rest)) as ->; [|by rewrite Hc].
    unfold renamed_path. case_decide as He.
    + assert (old ++ rest = old) as Hold by by apply path_of_inj. apply (f_equal length) in Hold. rewrite length_app in Hold.
      destruct rest; [by rewrite app_nil_r|cbn in Hold; lia].
    + assert (rest ≠ []) as Hr by (intros ->; by rewrite app_nil_r in He). rewrite <- (join_neat new rest) by done. f_equal.
      rewrite (path_of_slashed old), (path_of_slashed (old ++ rest)) by (try done; by destruct old). rewrite slashed_app, <- (join_slashed rest) by done.
      rewrite drop_app_ge by lia. by replace (length (slashed old) + 1 - length (slashed old)) with 1 by lia.
  - right. split; [done|]. intros _ rest Hrest Heq. apply path_of_inj in Heq.
    + apply proj2 in Hd. by specialize (Hd (ex_intro _ rest Heq)).
    + done.
    + apply Forall_app. split; [done|]. by apply neat_segments_ok.
Qed.

Lemma rename_ok active c oldPath newPath s :
  editor_ok s → rename_fits c oldPath newPath s → editor_ok (renameRemoteFileTabs active c oldPath newPath s).
Proof.
  intros Hok (old & new & Ho & Hn & Hne & Hop & Hnp & Hfree). unfold renameRemoteFileTabs. rewrite Hop, Hnp. cbv zeta.
  assert (editor_ok (ed_set_tabs (rename_tab c (path_of old) (path_of new) <$> ed_tabs s) s)) as H.
  2:{ case_decide; [|done]. eapply shell_ok; [apply shell_only_dispatch|done]. }
  apply set_tabs_ok; [done|]. pose proof (eo_tabs _ Hok) as Ht. pose proof Ht as [H1 H2 H3]. rewrite Forall_forall in H1, H3.
  pose proof (λ t Hin, rename_spec c old new t Ho Hn Hne (H3 t Hin)) as Hspec. cbv zeta in Hspec.
  assert (∀ rest, Forall neat_segment rest → Forall segment_ok (new ++ rest)) as Hnr.
  { intros rest ?. apply Forall_app. split; by apply neat_segments_ok. }
  apply tabs_ok_map; [done| |].
  - intros t Hin. destruct (Hspec t Hin) as [(Hc & rest & Hr & Hp & ->)|[-> _]]; [|split; [by apply H1|by apply H3]].
    split; [exact (H1 t Hin)|]. destruct (H3 t Hin) as [Hcol _ _]. split; cbn.
    + by rewrite <- Hc.
    + exists (new ++ rest). split; [by apply Forall_app|done].
    + done.
  - assert (∀ x y rest, x ∈ ed_tabs s → y ∈ ed_tabs s → et_connectionId x = c → Forall neat_segment rest →
      remoteFileTabId c (path_of (new ++ rest)) = et_id y → False) as Hclash.
    { intros x y rest Hx Hy Hxc Hr Hid. destruct (H3 y Hy) as [Hyc Hyp Hyi]. rewrite Hyi in Hid.
      destruct (H3 x Hx) as [Hxcol _ _]. rewrite Hxc in Hxcol. apply tab_id_inj in Hid as [Hcc Hpp]; [|done..].
      rewrite path_of_normal, neat_normal in Hpp by auto. by apply (Hfree y rest Hy). }
    intros x y Hx Hy. destruct (Hspec x Hx) as [(Hxc & r & Hr & Hxp & ->)|[-> _]], (Hspec y Hy) as [(Hyc & r' & Hr' & Hyp & ->)|[-> _]];
      cbn [et_id].
    + intros Hid. destruct (H3 x Hx) as [Hcol _ Hxi], (H3 y Hy) as [_ _ Hyi]. rewrite Hxc in Hcol.
      apply tab_id_inj in Hid as [_ Hpp]; [|done..]. rewrite !path_of_normal in Hpp by auto.
      apply path_of_inj in Hpp; [|by auto..]. apply (inj (app new)) in Hpp as ->. by rewrite Hxi, Hyi, Hxp, Hyp, Hxc, Hyc.
    + intros Hid. by destruct (Hclash x y r).
    + intros Hid. by destruct (Hclash y x r').
    + done.
Qed.

Lemma tab_ok_loaded content metadata name path t : tab_ok (loaded content metadata name path t).
Proof. by left. Qed.

Lemma tab_ok_status state error t : tab_ok t → tab_ok (with_status state error t).
Proof. done. Qed.

Lemma request_ok refresh locate shown s : editor_ok s → editor_ok (ed_set_requests refresh locate shown s).
Proof. by apply files_ok. Qed.

Lemma text_ok action value error s : editor_ok s → editor_ok (ed_set_text action value error s).
Proof. by apply files_ok. Qed.

Lemma delete_ok target s : editor_ok s → editor_ok (ed_set_delete target s).
Proof. by apply files_ok. Qed.

Lemma editor_settled_ok env s index c result : editor_ok s → ed_calls s !! index = Some c →
  event_fits env s (EdSettled index result) →
  editor_ok (file_call_settled c result (ed_set_calls (delete index (ed_calls s)) s)).
Proof.
  intros Hok Hc Hf. cbn in Hf. rewrite Hc in Hf. assert (call_ok c) as Hcall.
  { destruct Hok as [_ Hall]. rewrite Forall_forall in Hall. by apply Hall, (list_elem_of_lookup_2 _ index). }
  set (s0 := ed_set_calls _ s). assert (editor_ok s0) as H0 by by apply drop_call_ok. clear Hok.
  destruct c as [conn path tabId|w tabId|conn path rd|conn path parent|conn old new active|conn entry rest all rd], result;
    try done; cbn [file_call_settled]; try by apply text_ok.
  - apply update_ok; [done|]. intros t Hin Hid _. rewrite (Hf t Hin Hid). split_and!; [|done..]. by left.
  - apply update_ok; [done|]. intros t _ _ _. split_and!; [|done..]. by right.
  - apply request_ok, update_ok; [done|]. intros t _ _ _. split_and!; [|done..]. by left.
  - case_match; [apply pending_ok|]; by apply update_ok.
  - apply text_ok, open_ok; [by apply request_ok|done].
  - by apply text_ok, request_ok.
  - apply text_ok, request_ok, request_ok, rename_ok; [done|done].
  - destruct rest as [|e rest]; [|by apply add_call_ok].
    destruct (finish_delete_files rd conn all s0) as (close & conflict & H). apply files_eq in H as (H1 & H2 & _ & _).
    split; [rewrite H1|rewrite H2; apply H0]. by apply tabs_ok_filter.
  - by apply delete_ok.
Qed.

Lemma editor_step_ok env s event : editor_ok s → event_fits env s event → editor_ok (editor_step locale_gt env s event).
Proof.
  intros Hok Hf. pose proof (eo_tabs _ Hok) as Ht. destruct event; cbn [editor_step];
    try by (apply pending_ok || apply text_ok || apply delete_ok).
  - by apply open_ok.
  - eapply shell_ok; [apply activate_file_shell|done].
  - unfold locateRemoteFileFolder. case_match; [|done]. apply request_ok, request_ok.
    eapply shell_ok; [apply activate_file_shell|done].
  - apply update_ok; [done|]. intros t _ _ _. split_and!; [|done..]. unfold tab_ok. cbn.
    destruct (String.eqb_spec content (et_savedContent t)); [by left|done].
  - by apply save_ok.
  - by apply editor_reload_ok.
  - apply update_ok; [done|]. intros t _ _ _. split_and!; [|done..]. by left.
  - unfold closeRemoteFileTab. repeat case_match; [by apply pending_ok|by apply close_now_ok..].
  - unfold closeOtherRemoteFileTabs. case_match; [by apply close_many_ok|done].
  - unfold closeRemoteFileTabsToRight. repeat case_match; try done. by apply close_many_ok.
  - by apply close_many_ok.
  - by apply close_now_ok.
  - apply pending_ok. case_match; [by apply close_now_ok|done].
  - apply pending_ok. case_match; [by apply editor_reload_ok|done].
  - apply pending_ok. case_match; [by apply save_ok|done].
  - unfold requestCreateRemoteFile. case_match; [by apply text_ok|done].
  - unfold requestCreateRemoteDirectory. case_match; [by apply text_ok|done].
  - unfold requestRenameRemoteEntry. case_match; [by apply text_ok|done].
  - unfold submitRemoteFileTextAction. repeat case_match; first [done|by apply text_ok|by apply add_call_ok].
  - unfold requestDeleteRemoteEntries. repeat case_match; try done. by apply delete_ok.
  - unfold confirmRemoteFileDelete. repeat case_match; try done; [by apply delete_ok|by apply add_call_ok].
  - destruct (forget_files env closing s) as (close & conflict & H). apply files_eq in H as (H1 & H2 & _).
    split; [rewrite H1; by apply tabs_ok_filter|rewrite H2; apply Hok].
  - case_match eqn:Ec; [|done]. by apply (editor_settled_ok env).
Qed.

Lemma shows_settled s index c result : editor_shows s → ed_calls s !! index = Some c →
  editor_shows (file_call_settled c result (ed_set_calls (delete index (ed_calls s)) s)).
Proof.
  intros Hs Hc. assert (call_shows c) as Hcall.
  { destruct Hs as [_ Hall]. rewrite Forall_forall in Hall. by apply Hall, (list_elem_of_lookup_2 _ index). }
  set (s0 := ed_set_calls _ s). assert (editor_shows s0) as H0 by (destruct Hs; split; [done|by apply Forall_delete]).
  destruct c as [conn path tabId|w tabId|conn path rd|conn path parent|conn old new active|conn entry rest all rd], result;
    try done; cbn [file_call_settled]; try by apply shows_text.
  - apply shows_update; [done|]. by left.
  - apply shows_update; [done|]. by right.
  - apply shows_requests, shows_update; [done|]. by left.
  - case_match; [apply shows_pending|]; by apply shows_update.
  - by apply shows_text, shows_open, shows_requests.
  - by apply shows_text, shows_requests.
  - apply shows_text, shows_requests, shows_requests. unfold renameRemoteFileTabs. cbv zeta.
    set (s1 := ed_set_tabs _ s0). assert (editor_shows s1) as H1; [|case_decide; [by eapply shows_shell; [apply shell_only_dispatch|]|done]].
    destruct H0 as [Ht Hc0]. split; [|done]. apply Forall_fmap. eapply Forall_impl; [exact Ht|].
    intros t Hok. unfold compose, rename_tab. by case_match.
  - destruct rest as [|e rest]; [|by apply shows_call].
    destruct (finish_delete_files rd conn all s0) as (close & conflict & H). apply files_eq in H as (H1 & H2 & _ & _).
    split; [rewrite H1; by apply (es_tabs _ (shows_filter _ _ s0 H0 Hcall))|rewrite H2; apply H0].
  - by apply shows_delete.
Qed.

Lemma editor_step_shows env s event : editor_shows s → editor_shows (editor_step locale_gt env s event).
Proof.
  intros Hs. pose proof (es_tabs _ Hs) as Ht. destruct event; cbn [editor_step]; try by (apply shows_pending || apply shows_text || apply shows_delete).
  - by apply shows_open.
  - by eapply shows_shell; [apply activate_file_shell|].
  - unfold locateRemoteFileFolder. case_match; [|done]. apply shows_requests, shows_requests. by eapply shows_shell; [apply activate_file_shell|].
  - apply shows_update; [done|]. intros t _. unfold tab_ok. cbn. destruct (String.eqb_spec content (et_savedContent t)); [by left|done].
  - by apply shows_save.
  - by apply shows_reload.
  - apply shows_update; [done|]. intros t _. by left.
  - unfold closeRemoteFileTab. repeat case_match; [by apply shows_pending|by apply shows_close..].
  - unfold closeOtherRemoteFileTabs. case_match; [by apply shows_close_many|done].
  - unfold closeRemoteFileTabsToRight. repeat case_match; try done. by apply shows_close_many.
  - by apply shows_close_many.
  - by apply shows_close.
  - apply shows_pending. case_match; [by apply shows_close|done].
  - apply shows_pending. case_match; [by apply shows_reload|done].
  - apply shows_pending. case_match; [by apply shows_save|done].
  - unfold requestCreateRemoteFile. case_match; [by apply shows_text|done].
  - unfold requestCreateRemoteDirectory. case_match; [by apply shows_text|done].
  - unfold requestRenameRemoteEntry. case_match; [by apply shows_text|done].
  - unfold submitRemoteFileTextAction. repeat case_match; first [done|by apply shows_text|by apply shows_call].
  - unfold requestDeleteRemoteEntries. repeat case_match; try done. by apply shows_delete.
  - unfold confirmRemoteFileDelete. repeat case_match; try done; [by apply shows_delete|by apply shows_call].
  - destruct (forget_files env closing s) as (close & conflict & H). apply files_eq in H as (H1 & H2 & _).
    split; [rewrite H1; by apply (es_tabs _ (shows_filter _ _ s Hs Ht))|rewrite H2; apply Hs].
  - case_match eqn:Ec; [|done]. by apply shows_settled.
Qed.

(** ** Edits survive *)

(** What gives up the edits of a tab: typing in it, discarding them, reading the file
    again, confirming that it closes, closing the sessions of its connection, or the end
    of a deletion. *)
Definition gives_up (s : Editor) (event : EditorEvent) (t : RemoteFileEditorTab) : Prop :=
  match event with
  | EdChange tabId _ | EdDiscard tabId => tabId = et_id t
  | EdConfirmClose => ed_pendingClose s = Some (et_id t)
  | EdForget closing => et_connectionId t ∈ closing
  | EdSettled index _ =>
      match ed_calls s !! index with
      | Some (CallRead _ _ tabId) => tabId = et_id t
      | Some (CallDelete _ _ [] _ _) => True
      | _ => False
      end
  | _ => False
  end.

Definition is_rename (s : Editor) (event : EditorEvent) : Prop :=
  match event with
  | EdSettled index _ => match ed_calls s !! index with Some (CallRename _ _ _ _) => True | _ => False end
  | _ => False
  end.

(** The tab with its content in another state, under another path after a rename. *)
Definition survives (renamed : Prop) (t : RemoteFileEditorTab) (tabs : list RemoteFileEditorTab) : Prop :=
  ∃ t', t' ∈ tabs ∧ et_content t' = et_content t ∧ et_connectionId t' = et_connectionId t ∧ (et_id t' = et_id t ∨ renamed).

Lemma survives_same R t tabs : t ∈ tabs → survives R t tabs.
Proof. intros Ht. exists t. split_and!; [done..|by left]. Qed.

Lemma survives_update R tabId f t s : t ∈ ed_tabs s →
  (et_id t = tabId → et_content (f t) = et_content t ∧ et_connectionId (f t) = et_connectionId t ∧ et_id (f t) = et_id t) →
  survives R t (ed_tabs (updateRemoteFileTab tabId f s)).
Proof.
  intros Ht Hf. exists (if decide (et_id t = tabId) then f t else t). split; [apply list_elem_of_fmap; by exists t|].
  case_decide as Hid; [|split_and!; [done..|by left]]. destruct (Hf Hid) as (? & ? & ?). split_and!; [done..|by left].
Qed.

Lemma shell_tabs s s' : shell_only s s' → ed_tabs s' = ed_tabs s.
Proof. by intros [shell ->]. Qed.

Lemma close_now_tabs rd tabIds s : ed_tabs (closeRemoteFileTabsNow rd tabIds s) = filter (λ tab, et_id tab ∉ tabIds) (rd_tabs rd).
Proof. by rewrite (shell_tabs _ _ (close_now_shell rd tabIds s)). Qed.

(** Closing several tabs closes the clean ones. *)
Lemma close_many_files env tabIds s : NoDup (et_id <$> ed_tabs s) →
  files_of (closeRemoteFileTabs (rendered env s) tabIds s) =
    (filter (λ t, ¬ (et_id t ∈ tabIds ∧ et_dirty t = false)) (ed_tabs s), ed_calls s,
     match js_find (λ t, et_id t ∈ tabIds ∧ et_dirty t = true) (ed_tabs s) with
     | Some t => Some (et_id t) | None => ed_pendingClose s end, ed_pendingConflict s).
Proof.
  intros Hnd. unfold closeRemoteFileTabs. cbv zeta. cbn [rd_tabs rendered].
  set (clean := filter (λ tab, et_id tab ∈ tabIds ∧ et_dirty tab = false) (ed_tabs s)).
  assert (filter (λ t, et_id t ∉ et_id <$> clean) (ed_tabs s) =
    filter (λ t, ¬ (et_id t ∈ tabIds ∧ et_dirty t = false)) (ed_tabs s)) as Hf.
  { apply list_filter_ext_in. intros t Ht. split; intros Hn.
    - intros Hc. apply Hn, list_elem_of_fmap. exists t. split; [done|]. by apply list_elem_of_filter.
    - intros (t' & Hid & [Hc Ht']%list_elem_of_filter)%list_elem_of_fmap.
      by rewrite <- (NoDup_fmap_inj_elem et_id _ t t' Hnd Ht Ht' Hid) in Hc. }
  set (s1 := if decide (et_id <$> clean = []) then s else closeRemoteFileTabsNow (rendered env s) (et_id <$> clean) s).
  assert (files_of s1 = (filter (λ t, ¬ (et_id t ∈ tabIds ∧ et_dirty t = false)) (ed_tabs s), ed_calls s,
    ed_pendingClose s, ed_pendingConflict s)) as Hs1.
  { unfold s1. case_decide as Hc.
    - unfold files_of. do 3 f_equal. rewrite <- Hf, Hc. symmetry. apply filter_all. intros x _. apply not_elem_of_nil.
    - rewrite close_now_files. by rewrite <- Hf. }
  apply files_eq in Hs1 as (H1 & H2 & H3 & H4). case_match; unfold files_of; cbn; by rewrite H1, H2, ?H3, H4.
Qed.

Lemma close_many_survives R env tabIds s t : NoDup (et_id <$> ed_tabs s) → t ∈ ed_tabs s → et_dirty t = true →
  survives R t (ed_tabs (closeRemoteFileTabs (rendered env s) tabIds s)).
Proof.
  intros Hnd Ht Hd. pose proof (close_many_files env tabIds s Hnd) as H. apply files_eq in H as (-> & _).
  apply survives_same, list_elem_of_filter. split; [by intros [_ ?]; congruence|done].
Qed.

Lemma close_now_survives R env tabIds s t : t ∈ ed_tabs s → et_id t ∉ tabIds →
  survives R t (ed_tabs (closeRemoteFileTabsNow (rendered env s) tabIds s)).
Proof. intros Ht Hi. rewrite close_now_tabs. by apply survives_same, list_elem_of_filter. Qed.

Lemma find_tab_elem rd tabId t : find_tab rd tabId = Some t → t ∈ rd_tabs rd ∧ et_id t = tabId.
Proof. unfold find_tab. by intros [? ?]%js_find_Some. Qed.

Lemma save_survives R env tabId overwrite s t : t ∈ ed_tabs s → survives R t (ed_tabs (saveRemoteFile (rendered env s) tabId overwrite s)).
Proof. intros Ht. unfold saveRemoteFile. repeat case_match; try by apply survives_same. by apply survives_update. Qed.

Lemma reload_survives R env tabId s t : t ∈ ed_tabs s → survives R t (ed_tabs (reloadRemoteFile (rendered env s) tabId s)).
Proof. intros Ht. unfold reloadRemoteFile. repeat case_match; try by apply survives_same. by apply survives_update. Qed.

Lemma open_survives R rd entry s t : t ∈ ed_tabs s → survives R t (ed_tabs (openRemoteFile rd entry s)).
Proof.
  intros Ht. unfold openRemoteFile. cbv zeta. repeat case_match; try by apply survives_same.
  cbn. apply survives_same, elem_of_app. by left.
Qed.

Lemma settled_survives s index c result t : editor_ok s → ed_calls s !! index = Some c → t ∈ ed_tabs s →
  ¬ gives_up s (EdSettled index result) t →
  survives (is_rename s (EdSettled index result)) t
    (ed_tabs (file_call_settled c result (ed_set_calls (delete index (ed_calls s)) s))).
Proof.
  intros Hok Hc Ht Hg. unfold gives_up, is_rename in *. rewrite Hc in *. set (s0 := ed_set_calls _ s).
  assert (t ∈ ed_tabs s0) as Ht0 by done.
  destruct c as [conn path tabId|w tabId|conn path rd|conn path parent|conn old new active|conn entry rest all rd], result;
    cbn [file_call_settled]; try by apply survives_same.
  - apply survives_update; [done|]. intros Hid. by destruct Hg.
  - apply survives_update; [done|]. intros Hid. by destruct Hg.
  - by apply survives_update.
  - case_match; by apply survives_update.
  - by apply (open_survives _ rd).
  - unfold renameRemoteFileTabs. cbv zeta.
    set (s1 := ed_set_tabs _ s0). exists (rename_tab conn (normalizeRemotePath (Some old)) (normalizeRemotePath (Some new)) t).
    split.
    + assert (rename_tab conn (normalizeRemotePath (Some old)) (normalizeRemotePath (Some new)) t ∈ ed_tabs s1)
        by (apply list_elem_of_fmap; by exists t). by case_decide.
    + unfold rename_tab. case_match eqn:E; [|split_and!; [done..|by left]].
      apply andb_true_iff in E as [E%bool_decide_eq_true _]. cbn. split_and!; [done..|by right].
  - destruct rest; [by destruct Hg|by apply survives_same].
Qed.

Lemma edits_survive env s event t : editor_ok s → t ∈ ed_tabs s → et_dirty t = true → ¬ gives_up s event t →
  survives (is_rename s event) t (ed_tabs (editor_step locale_gt env s event)).
Proof.
  intros Hok Ht Hd Hg. pose proof (eo_tabs _ Hok) as [_ Hnd _].
  destruct event; cbn [editor_step]; try by apply survives_same.
  - by apply open_survives.
  - unfold locateRemoteFileFolder. case_match; by apply survives_same.
  - apply survives_update; [done|]. intros Hid. by destruct Hg.
  - by apply save_survives.
  - by apply reload_survives.
  - apply survives_update; [done|]. intros Hid. by destruct Hg.
  - unfold closeRemoteFileTab. case_match eqn:Ef.
    + apply find_tab_elem in Ef as [Hin Hid]. case_match eqn:Ed; [by apply survives_same|].
      apply close_now_survives; [done|]. intros Hid'%list_elem_of_singleton.
      rewrite (NoDup_fmap_inj_elem et_id _ t r Hnd Ht Hin) in Hd; congruence.
    + apply close_now_survives; [done|]. intros Hid%list_elem_of_singleton.
      unfold find_tab in Ef. rewrite js_find_None in Ef. by apply (Ef t).
  - unfold closeOtherRemoteFileTabs. case_match; [|by apply survives_same]. by apply close_many_survives.
  - unfold closeRemoteFileTabsToRight. repeat case_match; try by apply survives_same. by apply close_many_survives.
  - by apply close_many_survives.
  - apply close_now_survives; [done|]. intros (t' & Hid & [[_ Hs] Ht']%list_elem_of_filter)%list_elem_of_fmap.
    rewrite <- (NoDup_fmap_inj_elem et_id _ t t' Hnd Ht Ht' Hid) in Hs. unfold isClosableSavedRemoteFileTab in Hs. by rewrite Hd in Hs.
  - unfold confirm_close. cbn [ed_set_pending ed_tabs]. case_match eqn:Ep; [|by apply survives_same].
    apply close_now_survives; [done|]. intros Hid%list_elem_of_singleton. apply Hg. unfold pending_tab in Ep.
    apply opt_truthy_find_Some in Ep as (k & Hk & _ & Hf). apply find_tab_elem in Hf as [_ Hf]. cbn in Hk. cbn. congruence.
  - unfold conflict_reload. cbn [ed_set_pending ed_tabs]. case_match; [by apply reload_survives|by apply survives_same].
  - unfold conflict_overwrite. cbn [ed_set_pending ed_tabs]. case_match; [by apply save_survives|by apply survives_same].
  - unfold requestCreateRemoteFile. case_match; by apply survives_same.
  - unfold requestCreateRemoteDirectory. case_match; by apply survives_same.
  - unfold requestRenameRemoteEntry. case_match; by apply survives_same.
  - unfold submitRemoteFileTextAction. repeat case_match; by apply survives_same.
  - unfold requestDeleteRemoteEntries. repeat case_match; by apply survives_same.
  - unfold confirmRemoteFileDelete. repeat case_match; by apply survives_same.
  - destruct (forget_files env closing s) as (close & conflict & H). apply files_eq in H as (-> & _).
    by apply survives_same, list_elem_of_filter.
  - case_match eqn:Ec; [|by apply survives_same]. by apply settled_survives.
Qed.

(** ** Writes *)

(** A write of the content, place and version that a tab has, which was not being saved;
    it overwrites a newer file only from the dialog about the conflict of that tab. *)
Definition writes_tab (s : Editor) (event : EditorEvent) (w : RemoteFileWriteRequest) (tabId : string) : Prop :=
  ∃ t m overwrite, t ∈ ed_tabs s ∧ et_id t = tabId ∧ et_metadata t = Some m ∧ et_saveState t ≠ SsSaving ∧
    w = mkWrite (et_connectionId t) (et_content t) m overwrite (et_path t) ∧
    (if overwrite then event = EdConflictOverwrite ∧ ed_pendingConflict s = Some tabId else event = EdSave tabId).

Lemma shell_calls s s' : shell_only s s' → ed_calls s' = ed_calls s.
Proof. by intros [shell ->]. Qed.

Lemma close_now_calls rd tabIds s : ed_calls (closeRemoteFileTabsNow rd tabIds s) = ed_calls s.
Proof. by rewrite (shell_calls _ _ (close_now_shell rd tabIds s)). Qed.

Lemma close_many_calls rd tabIds s : ed_calls (closeRemoteFileTabs rd tabIds s) = ed_calls s.
Proof. unfold closeRemoteFileTabs. cbv zeta. case_match; cbn; case_decide; by rewrite ?close_now_calls. Qed.

Lemma calls_same s s' w tabId (P : Prop) : ed_calls s' = ed_calls s → CallWrite w tabId ∈ ed_calls s' → CallWrite w tabId ∈ ed_calls s ∨ P.
Proof. intros ->. by left. Qed.

Lemma calls_other s c w tabId (P : Prop) : CallWrite w tabId ∈ ed_calls s ++ [c] →
  match c with CallWrite _ _ => False | _ => True end → CallWrite w tabId ∈ ed_calls s ∨ P.
Proof. intros [H|H]%elem_of_app Hc; [by left|]. apply list_elem_of_singleton in H as <-. done. Qed.

Ltac other_call := let Hw := fresh in intros Hw; eapply calls_other; [exact Hw|done].

Lemma save_writes env s tabId (overwrite : bool) event w id :
  (if overwrite then event = EdConflictOverwrite ∧ ed_pendingConflict s = Some tabId else event = EdSave tabId) →
  CallWrite w id ∈ ed_calls (saveRemoteFile (rendered env s) tabId overwrite s) →
  CallWrite w id ∈ ed_calls s ∨ writes_tab s event w id.
Proof.
  intros He. unfold saveRemoteFile. destruct (find_tab _ tabId) as [t|] eqn:Ef; [|by left].
  destruct (et_metadata t) as [m|] eqn:Em; [|by left]. case_decide; [by left|].
  apply find_tab_elem in Ef as [Hin Hid]. cbn. intros [?|Hw%list_elem_of_singleton]%elem_of_app; [by left|right].
  injection Hw as -> ->. exists t, m, overwrite. by split_and!.
Qed.

Lemma reload_writes rd tabId s w id (P : Prop) :
  CallWrite w id ∈ ed_calls (reloadRemoteFile rd tabId s) → CallWrite w id ∈ ed_calls s ∨ P.
Proof. unfold reloadRemoteFile. repeat case_match; try by left. other_call. Qed.

Lemma open_writes rd entry s w id (P : Prop) : CallWrite w id ∈ ed_calls (openRemoteFile rd entry s) → CallWrite w id ∈ ed_calls s ∨ P.
Proof.
  unfold openRemoteFile. cbv zeta. repeat case_match; try by left. other_call.
Qed.

Lemma settled_writes c result s w id (P : Prop) :
  CallWrite w id ∈ ed_calls (file_call_settled c result s) → CallWrite w id ∈ ed_calls s ∨ P.
Proof.
  destruct c as [conn path tabId|w' tabId|conn path rd|conn path parent|conn old new active|conn entry rest all rd], result;
    cbn [file_call_settled]; try by left.
  - case_match; by left.
  - apply (open_writes rd _ (triggerRemoteFileRefresh _ _ s)).
  - unfold renameRemoteFileTabs. cbv zeta. case_decide; by left.
  - destruct rest; [|other_call]. intros H.
    destruct (finish_delete_files rd conn all s) as (close & conflict & Hf). apply files_eq in Hf as (_ & Hf & _). left. by rewrite <- Hf.
Qed.

Lemma new_writes env s event w id :
  CallWrite w id ∈ ed_calls (editor_step locale_gt env s event) → CallWrite w id ∈ ed_calls s ∨ writes_tab s event w id.
Proof.
  destruct event; cbn [editor_step]; try by left.
  - apply open_writes.
  - unfold locateRemoteFileFolder. case_match; by left.
  - by apply save_writes.
  - apply reload_writes.
  - unfold closeRemoteFileTab. repeat case_match; try (apply calls_same; apply close_now_calls); by left.
  - unfold closeOtherRemoteFileTabs. case_match; [apply calls_same, close_many_calls|by left].
  - unfold closeRemoteFileTabsToRight. repeat case_match; try by left. apply calls_same, close_many_calls.
  - apply calls_same, close_many_calls.
  - apply calls_same, close_now_calls.
  - unfold confirm_close. cbn [ed_set_pending ed_calls]. case_match; [apply calls_same, close_now_calls|by left].
  - unfold conflict_reload. cbn [ed_set_pending ed_calls]. case_match; [apply reload_writes|by left].
  - unfold conflict_overwrite. cbn [ed_set_pending ed_calls]. case_match eqn:Ep; [|by left]. apply save_writes.
    split; [done|]. apply opt_truthy_find_Some in Ep as (k & Hk & _ & Hf). apply find_tab_elem in Hf as [_ Hf]. cbn in Hk. congruence.
  - unfold requestCreateRemoteFile. case_match; by left.
  - unfold requestCreateRemoteDirectory. case_match; by left.
  - unfold requestRenameRemoteEntry. case_match; by left.
  - unfold submitRemoteFileTextAction. repeat case_match; try by left. all: other_call.
  - unfold requestDeleteRemoteEntries. repeat case_match; by left.
  - unfold confirmRemoteFileDelete. repeat case_match; try by left. other_call.
  - destruct (forget_files env closing s) as (close & conflict & H). apply files_eq in H as (_ & -> & _). by left.
  - case_match; [|by left]. intros Hw.
    destruct (settled_writes _ _ _ _ _ (writes_tab s (EdSettled index result) w id) Hw) as [Hd|?]; [left|by right].
    by apply (sublist_subseteq _ _ (sublist_delete (ed_calls s) index)).
Qed.

(** ** The active file *)

Lemma split_tab_file tabs rd paneId s :
  activeRemoteFileTabId (ss_pointers (activateTerminalSplitTab_of tabs rd paneId s)) = activeRemoteFileTabId (ss_pointers s).
Proof.
  assert (∀ h s, activeRemoteFileTabId (ss_pointers (activateTerminalSplitHost tabs h s)) = activeRemoteFileTabId (ss_pointers s)) as Hh.
  { intros h s0. unfold activateTerminalSplitHost. repeat case_match; done. }
  assert (∀ b s, activeRemoteFileTabId (ss_pointers (dispatchTabs (FocusPaneBinding b) s)) = activeRemoteFileTabId (ss_pointers s)) as Hb.
  { intros b s0. cbn. by destruct (binding_kind b). }
  unfold activateTerminalSplitTab_of. cbv zeta. repeat case_match; rewrite ?Hb; cbn [dispatchSplit dispatchMulti ss_pointers]; by rewrite ?Hh.
Qed.

Lemma fallback_file rd s :
  activeRemoteFileTabId (ed_pointers (activateTerminalFallbackAfterFilesClose rd s)) = activeRemoteFileTabId (ed_pointers s).
Proof.
  unfold activateTerminalFallbackAfterFilesClose. cbv zeta. case_match; [|by repeat case_match].
  unfold activateTerminalTab. case_match; [|by unfold activateStandaloneTerminalTab; cbn; case_match]. apply split_tab_file.
Qed.

(** What closing the active file activates: a file of its connection, else any file. *)
Lemma removal_file rd next c s :
  activeRemoteFileTabId (ed_pointers (activateRemoteFileFallbackAfterRemoval rd next c s)) =
    et_id <$> (js_find (λ tab, et_connectionId tab = c) next ?: head next).
Proof.
  unfold activateRemoteFileFallbackAfterRemoval. case_match; [|by rewrite fallback_file].
  cbn. by repeat case_match.
Qed.

(** ** Entries that are deleted *)

Definition proper (path : chars) : Prop := ∃ segs, Forall segment_ok segs ∧ path = path_of segs.

Lemma descendant_longer p a : proper p → proper a → isRemotePathStrictDescendant (Some p) (Some a) = true → length a < length p.
Proof.
  intros (x & Hx & ->) (y & Hy & ->) (rest & Hr & ->)%descendant_prefix; [|done..].
  rewrite (path_of_slashed (y ++ rest)) by by destruct y. rewrite slashed_app, length_app.
  apply Forall_app in Hx as [_ Hx]. destruct rest as [|s rest]; [done|]. apply Forall_cons in Hx as [[Hs _ _ _] _].
  assert (1 < length (slashed (s :: rest))) by (unfold slashed; destruct s; [done|cbn; lia]).
  destruct y; [by change (1 < 0 + length (slashed (s :: rest)))|]. cbn [path_of]. lia.
Qed.

Lemma descendant_irrefl p : isRemotePathStrictDescendant (Some p) (Some p) = false.
Proof. unfold isRemotePathStrictDescendant. by rewrite decide_True. Qed.

Definition under (e d : RemoteFileEntry) : Prop :=
  en_type d = KindDirectory ∧ isRemotePathStrictDescendant (Some (en_path e)) (Some (en_path d)) = true.

(** The loop over entries that are sorted by the length of their paths. *)
Lemma collapse_loop acc l :
  Forall (λ e, proper (en_path e)) (acc ++ l) → pairwise (λ x y, length (en_path x) ≤ length (en_path y)) (acc ++ l) →
  (∀ e d, e ∈ acc → d ∈ acc → ¬ under e d) →
  let out := foldl collapse_step acc l in
  sublist out (acc ++ l) ∧ (∀ e, e ∈ acc → e ∈ out) ∧ (∀ e, e ∈ l → e ∈ out ∨ ∃ d, d ∈ out ∧ under e d) ∧
  (∀ e d, e ∈ out → d ∈ out → ¬ under e d).
Proof.
  cbv zeta. revert acc. induction l as [|x l IH]; intros acc Hp Hs Hacc; cbn [foldl].
  { rewrite app_nil_r. split_and!; [done|done| |done]. by intros e ?%not_elem_of_nil. }
  assert (proper (en_path x)) as Hx by (apply Forall_app in Hp as [_ Hp]; by apply Forall_cons in Hp as [? _]).
  destruct (covered acc x) eqn:Ec; [assert (collapse_step acc x = acc) as -> by by unfold collapse_step; rewrite Ec
    |assert (collapse_step acc x = acc ++ [x]) as -> by by unfold collapse_step; rewrite Ec];
    unfold covered in Ec; case_bool_decide as Hc; try done.
  - apply Exists_exists in Hc as (d & Hd & Hu).
    destruct (IH acc) as (H1 & H2 & H3 & H4); [| |done|].
    + apply Forall_app in Hp as [? Hp]. apply Forall_cons in Hp as [_ ?]. by apply Forall_app.
    + apply pairwise_app in Hs as (? & [_ ?] & Hf). apply pairwise_app. split_and!; [done..|].
      eapply Forall_impl; [exact Hf|]. by intros y [_ ?]%Forall_cons.
    + split_and!; [|done| |done].
      * etrans; [exact H1|]. apply sublist_app; [done|]. by apply sublist_cons.
      * intros e [->|?]%elem_of_cons; [right; exists d; auto|auto].
  - destruct (IH (acc ++ [x])) as (H1 & H2 & H3 & H4).
    + by rewrite <- app_assoc.
    + by rewrite <- app_assoc.
    + apply pairwise_app in Hs as (_ & _ & Hf). rewrite Forall_forall in Hf, Hp.
      intros e d [He|<-%list_elem_of_singleton]%elem_of_app [Hd|<-%list_elem_of_singleton]%elem_of_app Hu.
      * by apply (Hacc e d).
      * destruct Hu as [_ Hu]. apply descendant_longer in Hu; [|apply Hp, elem_of_app; by left|done].
        specialize (Hf e He). apply Forall_cons in Hf as [Hf _]. lia.
      * apply Hc, Exists_exists. by exists d.
      * destruct Hu as [_ Hu]. by rewrite descendant_irrefl in Hu.
    + rewrite <- app_assoc in H1. split_and!; [done| | |done].
      * intros e He. apply H2, elem_of_app. by left.
      * intros e [->|?]%elem_of_cons; [left; apply H2, elem_of_app; right; by left|auto].
Qed.

Definition normal_entry (e : RemoteFileEntry) : RemoteFileEntry :=
  mkEntry (en_name e) (normalizeRemotePath (Some (en_path e))) (en_type e).

Lemma by_path_spec entries m :
  NoDup m.*1 → (∀ k v, (k, v) ∈ m → k = text_of (en_path v)) →
  let out := foldl (λ byPath entry,
    jsmap_set (text_of (normalizeRemotePath (Some (en_path entry)))) (normal_entry entry) byPath) m entries in
  NoDup out.*1 ∧ (∀ k v, (k, v) ∈ out → k = text_of (en_path v)) ∧
  (∀ k v, (k, v) ∈ out → (k, v) ∈ m ∨ ∃ e, e ∈ entries ∧ v = normal_entry e) ∧
  (∀ k, k ∈ m.*1 → k ∈ out.*1) ∧
  (∀ e, e ∈ entries → text_of (normalizeRemotePath (Some (en_path e))) ∈ out.*1).
Proof.
  cbv zeta. revert m. induction entries as [|e entries IH]; intros m Hnd Hk; cbn [foldl].
  { split_and!; [done..|by left|done|]. by intros e ?%not_elem_of_nil. }
  set (p := normalizeRemotePath (Some (en_path e))). set (m1 := jsmap_set (text_of p) (normal_entry e) m).
  assert (NoDup m1.*1) as Hnd1 by by apply jsmap_set_NoDup.
  assert (∀ k v, (k, v) ∈ m1 → (k = text_of p ∧ v = normal_entry e) ∨ (k, v) ∈ m) as Hm1.
  { intros k v Hin. pose proof (jsmap_elem_get k m1 v Hnd1 Hin) as Hg. unfold m1 in Hg. rewrite jsmap_get_set in Hg.
    case_decide as Hkp; [left; split; congruence|right]. by apply jsmap_get_elem. }
  destruct (IH m1 Hnd1) as (H1 & H2 & H3 & H4 & H5).
  { intros k v [[-> ->]|?]%Hm1; [done|auto]. }
  assert (∀ k, k ∈ m.*1 ∨ k = text_of p → k ∈ m1.*1) as Hin.
  { intros k Hor. apply jsmap_get_is_Some. unfold m1. rewrite jsmap_get_set. case_decide; [by eexists|].
    apply jsmap_get_is_Some. by destruct Hor. }
  split_and!; [done..| | |].
  - intros k v [[[-> ->]|?]%Hm1|(e' & He' & ->)]%H3; [right; exists e; split; [left|done]|by left|right; exists e'; split; [by right|done]].
  - intros k Hkm. apply H4, Hin. by left.
  - intros e' [->|He']%elem_of_cons; [apply H4, Hin; by right|auto].
Qed.

(** What a deletion asks for: each entry once, none below a directory that is deleted
    anyway, and every chosen entry or a directory above it. *)
Lemma collapse_exact entries :
  Forall (λ e, proper (normalizeRemotePath (Some (en_path e)))) entries →
  let out := collapseRemoteFileDeleteEntries locale_gt entries in
  NoDup (en_path <$> out) ∧
  (∀ d, d ∈ out → ∃ e, e ∈ entries ∧ d = normal_entry e) ∧
  (∀ e d, e ∈ out → d ∈ out → ¬ under e d) ∧
  (∀ e, e ∈ entries → ∃ d, d ∈ out ∧ (en_path d = en_path (normal_entry e) ∨ under (normal_entry e) d)).
Proof.
  intros Hp. cbv zeta. unfold collapseRemoteFileDeleteEntries.
  destruct (by_path_spec entries []) as (H1 & H2 & H3 & _ & H5); [constructor|by intros k v ?%not_elem_of_nil|].
  fold (entries_by_path entries) in *. set (m := entries_by_path entries) in *.
  assert (∀ v, v ∈ m.*2 → ∃ k, (k, v) ∈ m) as Hv.
  { intros v ([k v'] & -> & Hin)%list_elem_of_fmap. by exists k. }
  assert (∀ v, v ∈ m.*2 → ∃ e, e ∈ entries ∧ v = normal_entry e) as Hfrom.
  { intros v (k & [[]%not_elem_of_nil|?]%H3)%Hv. done. }
  assert (NoDup (en_path <$> m.*2)) as Hnd.
  { rewrite <- list_fmap_compose. apply (NoDup_fmap_reflect fst (en_path ∘ snd)); [done|].
    intros [k v] [k' v'] Hx Hy Heq. cbn in *. rewrite (H2 k v Hx), (H2 k' v' Hy). by rewrite Heq. }
  assert (Transitive (λ x y : RemoteFileEntry, length (en_path x) ≤ length (en_path y))) as Htr by (intros x y z; lia).
  destruct (collapse_loop [] (js_sort (entry_gt locale_gt) m.*2)) as (L1 & _ & L3 & L4); cbn [app].
  - apply Forall_forall. intros v Hin%elem_of_js_sort. apply Hfrom in Hin as (e & He & ->). rewrite Forall_forall in Hp. by apply Hp.
  - apply js_sort_pairwise; [done|]. intros x y. unfold entry_gt.
    destruct (length (en_path y) <? length (en_path x)) eqn:E1; cbn [orb]; [apply Nat.ltb_lt in E1; lia|].
    apply Nat.ltb_ge in E1. destruct (length (en_path y) =? length (en_path x)) eqn:E2; cbn [andb].
    + apply Nat.eqb_eq in E2. destruct (locale_gt _ _); lia.
    + lia.
  - by intros e d ?%not_elem_of_nil.
  - split_and!.
    + apply (sublist_NoDup _ (en_path <$> js_sort (entry_gt locale_gt) m.*2)); [by rewrite js_sort_Permutation|].
      by apply fmap_sublist.
    + intros d Hd. apply Hfrom, (elem_of_js_sort (entry_gt locale_gt)). by apply (sublist_subseteq _ _ L1).
    + done.
    + intros e He. apply H5, list_elem_of_fmap in He as ([k v] & Hk & Hin). cbn in Hk.
      assert (v ∈ js_sort (entry_gt locale_gt) m.*2) as Hin'.
      { apply elem_of_js_sort, list_elem_of_fmap. by exists (k, v). }
      assert (en_path v = en_path (normal_entry e)) as Hpath.
      { apply text_of_inj. rewrite <- (H2 k v Hin). done. }
      destruct (L3 v Hin') as [Ho|(d & Ho & Hu)]; [exists v; auto|]. exists d. split; [done|right].
      unfold under in *. by rewrite <- Hpath.
Qed.

End preservation.

(** ** Properties *)

(** A run whose events are as usual. *)
Fixpoint run_fits (locale_gt : string → string → bool) (s : Editor) (events : list (FileEnv * EditorEvent)) : Prop :=
  match events with
  | [] => True
  | e :: events => event_fits e.1 s e.2 ∧ run_fits locale_gt (editor_step locale_gt e.1 s e.2) events
  end.

Lemma editor_run_ok locale_gt s events : editor_ok s → run_fits locale_gt s events →
  editor_ok (foldl (λ s e, editor_step locale_gt e.1 s e.2) s events).
Proof.
  revert s. induction events as [|e l IH]; intros s Hok Hf; [done|]. destruct Hf as [He Hl]. cbn [foldl].
  apply IH; [by apply editor_step_ok|done].
Qed.

Lemma initial_editor_ok : editor_ok initialEditor.
Proof. split; [split|]; cbn; constructor. Qed.

Lemma editor_run_shows locale_gt s events : editor_shows s → editor_shows (foldl (λ s e, editor_step locale_gt e.1 s e.2) s events).
Proof. revert s. induction events as [|e l IH]; intros s Hs; [done|]. by apply IH, editor_step_shows. Qed.

Lemma initial_editor_shows : editor_shows initialEditor.
Proof. split; constructor. Qed.

(** When the active file is closed, a file of its connection becomes active, else any. *)
Lemma close_now_active env s tabIds t :
  tabs_ok (ed_tabs s) → t ∈ ed_tabs s → activeRemoteFileTabId (ed_pointers s) = Some (et_id t) → et_id t ∈ tabIds →
  let s' := closeRemoteFileTabsNow (rendered env s) tabIds s in
  activeRemoteFileTabId (ed_pointers s') =
    et_id <$> (js_find (λ tab, et_connectionId tab = et_connectionId t) (ed_tabs s') ?: head (ed_tabs s')).
Proof.
  intros Ht Hin Hact Hid. cbv zeta. rewrite close_now_tabs.
  unfold closeRemoteFileTabsNow. cbv zeta. change (rd_pointers (rendered env s)) with (ed_pointers s).
  change (rd_tabs (rendered env s)) with (ed_tabs s). rewrite Hact.
  assert (et_id t ≠ "") as Hne.
  { pose proof (to_fit _ Ht) as Hfit. rewrite Forall_forall in Hfit. destruct (Hfit t Hin) as [_ _ ->]. done. }
  apply truthy_Some in Hne. unfold opt_truthy_find. rewrite Hne.
  destruct (js_find _ (ed_tabs s)) as [t'|] eqn:Ef.
  - apply js_find_Some in Ef as (Hin' & Hid' & _). rewrite (NoDup_fmap_inj_elem et_id _ t' t (to_unique _ Ht) Hin' Hin Hid').
    apply removal_file.
  - rewrite js_find_None in Ef. by destruct (Ef t Hin).
Qed.

(** C31: Editing remote files. In every run: a tab that is not modified shows what was saved
    or, after a failed load, nothing; a write is sent only for a tab that is not being
    saved, with its present content, place and version, and it overwrites a newer file only
    from the dialog about the conflict of that tab; a write that succeeds leaves an
    unchanged tab saved with the new version, and a conflict keeps every content and asks.
    In every run in which the ids of connections have no colon, paths are absolute and the
    names in them have no blank at an end, a read answers for the path that was asked, and
    nothing is open at the target of a rename when it settles, nor at the path of a created
    file unless that was so when the creation was asked for (two tabs get one id otherwise,
    see [rename_onto_open_file]): tabs have their own id, which is the one of their
    connection and path; a modified tab stays open with its content through every command
    and every settled call, unless it is typed in, discarded, read again, confirmed to
    close, the sessions of its connection are closed, or a deletion ends; closing several
    tabs closes the clean ones and asks about the first modified one; and when the active
    file is closed a file of its connection becomes active, else any file. *)
Theorem remote_editor_safe locale_gt events :
  let s := editor_run locale_gt events in
  Forall tab_ok (ed_tabs s) ∧
  (∀ env event w id, CallWrite w id ∈ ed_calls (editor_step locale_gt env s event) →
    CallWrite w id ∈ ed_calls s ∨ writes_tab s event w id) ∧
  (∀ env index w id, ed_calls s !! index = Some (CallWrite w id) →
    (∀ metadata name path t, t ∈ ed_tabs s → et_id t = id → et_content t = wr_content w →
      saved metadata t ∈ ed_tabs (editor_step locale_gt env s (EdSettled index (FrMetadata metadata name path))) ∧
      et_savedContent (saved metadata t) = wr_content w) ∧
    (∀ message, let s' := editor_step locale_gt env s (EdSettled index (FrFailed "remote_file_conflict" message)) in
      ed_pendingConflict s' = Some id ∧ et_content <$> ed_tabs s' = et_content <$> ed_tabs s ∧
      et_dirty <$> ed_tabs s' = et_dirty <$> ed_tabs s ∧ ed_calls s' = delete index (ed_calls s))) ∧
  (run_fits locale_gt initialEditor events →
    tabs_ok (ed_tabs s) ∧
    (∀ env event t, t ∈ ed_tabs s → et_dirty t = true → ¬ gives_up s event t →
      survives (is_rename s event) t (ed_tabs (editor_step locale_gt env s event))) ∧
    (∀ env tabIds,
      files_of (closeRemoteFileTabs (rendered env s) tabIds s) =
        (filter (λ t, ¬ (et_id t ∈ tabIds ∧ et_dirty t = false)) (ed_tabs s), ed_calls s,
         match js_find (λ t, et_id t ∈ tabIds ∧ et_dirty t = true) (ed_tabs s) with
         | Some t => Some (et_id t) | None => ed_pendingClose s end, ed_pendingConflict s) ∧
      ∀ t, t ∈ ed_tabs s → et_id t ∈ tabIds → activeRemoteFileTabId (ed_pointers s) = Some (et_id t) →
        let s' := closeRemoteFileTabsNow (rendered env s) tabIds s in
        activeRemoteFileTabId (ed_pointers s') =
          et_id <$> (js_find (λ tab, et_connectionId tab = et_connectionId t) (ed_tabs s') ?: head (ed_tabs s')))).
Proof.
  intros s. split; [apply editor_run_shows, initial_editor_shows|]. split; [|split].
  - intros env event w id. apply new_writes.
  - intros env index w id Hc. cbn [editor_step]. rewrite Hc. split.
    + intros metadata name path t Hin Hid Hcontent. split; [|done]. cbn. apply list_elem_of_fmap. exists t. by rewrite decide_True.
    + intros message. cbn. split; [done|]. split; [|split; [|done]]; rewrite <- list_fmap_compose;
        apply list_fmap_ext; intros i t _; cbn; by case_decide.
  - intros Hf. assert (editor_ok s) as Hok by by apply editor_run_ok; [apply initial_editor_ok|].
    pose proof (eo_tabs _ Hok) as Ht. split; [done|]. split; [intros env event t; by apply edits_survive|].
    intros env tabIds. split; [by apply close_many_files, Ht|]. intros t Hin Hid Hact. by apply (close_now_active env s tabIds t).
Qed.

Definition sample_env : FileEnv := mkFileEnv [] [] [] [] (Some "c") ["c"] [].
Definition sample_path : chars := String.list_ascii_of_string "/a".
Definition sample_version : RemoteFileMetadata := mkMetadata 1 1.

(** A file is opened, read, edited, saved and written. *)
Definition sample_events : list (FileEnv * EditorEvent) :=
  (λ e, (sample_env, e)) <$>
    [EdOpen (mkEntry (String.list_ascii_of_string "a") sample_path KindFile);
     EdSettled 0 (FrRead "x" sample_version (String.list_ascii_of_string "a") sample_path);
     EdChange "file:c:/a" "y"; EdSave "file:c:/a"].

Lemma sample_neat : neat sample_path.
Proof.
  exists [["a"%char]]. split; [|by vm_compute]. apply Forall_singleton. split; [|done].
  split; [done|vm_decide|vm_decide|by intros c [= <-]].
Qed.

Lemma sample_fits : run_fits (λ _ _, false) initialEditor sample_events.
Proof.
  split; [|split; [|done]].
  - intros c [= <-]. split; [unfold no_colon; vm_decide|]. split; [|by intros t ?%not_elem_of_nil]. exact sample_neat.
  - intros t Ht _. vm_compute in Ht. by apply list_elem_of_singleton in Ht as ->.
Qed.

Lemma remote_editor_safe_witness :
  let s := editor_run (λ _ _, false) sample_events in
  tabs_ok (ed_tabs s) ∧
  ed_calls s = [CallWrite (mkWrite "c" "y" sample_version false sample_path) "file:c:/a"].
Proof.
  split; [|by vm_compute].
  exact (proj1 (proj2 (proj2 (proj2 (remote_editor_safe (λ _ _, false) sample_events))) sample_fits)).
Defined.

(** Entries of remote directories. What a deletion asks for holds each chosen entry once,
    nothing below a directory that it deletes, and every chosen entry or a directory above
    it. When an entry is renamed, its open files and the ones below it follow, from
    [old/rest] to [new/rest], with their content, and every other tab stays as it is. A
    name is accepted exactly when it is one segment, neither blank nor dots, and joining it
    to a directory gives the path below it. *)
Theorem remote_entries_exact locale_gt entries c old new tabs name :
  Forall (λ e, proper (normalizeRemotePath (Some (en_path e)))) entries →
  Forall neat_segment old → Forall neat_segment new → old ≠ [] → Forall tab_fits tabs →
  (let out := collapseRemoteFileDeleteEntries locale_gt entries in
   NoDup (en_path <$> out) ∧
   (∀ d, d ∈ out → ∃ e, e ∈ entries ∧ d = normal_entry e) ∧
   (∀ e d, e ∈ out → d ∈ out → ¬ under e d) ∧
   (∀ e, e ∈ entries → ∃ d, d ∈ out ∧ (en_path d = en_path (normal_entry e) ∨ under (normal_entry e) d))) ∧
  (∀ t, t ∈ tabs → let t' := rename_tab c (path_of old) (path_of new) t in
    et_content t' = et_content t ∧ et_dirty t' = et_dirty t ∧ et_metadata t' = et_metadata t ∧
    ((et_connectionId t = c ∧ ∃ rest, Forall neat_segment rest ∧ et_path t = path_of (old ++ rest) ∧
        et_path t' = path_of (new ++ rest) ∧ et_id t' = remoteFileTabId c (path_of (new ++ rest))) ∨
     (t' = t ∧ (et_connectionId t = c → ∀ rest, Forall neat_segment rest → et_path t ≠ path_of (old ++ rest))))) ∧
  (let trimmed := js_trim name in
   (isValidRemoteBaseName name = true ↔
     trimmed ≠ [] ∧ trimmed ≠ ["."%char] ∧ trimmed ≠ ["."%char; "."%char] ∧ (slash ∉ trimmed) ∧ backslash ∉ trimmed) ∧
   (isValidRemoteBaseName name = true → joinRemotePath (path_of old) trimmed = path_of (old ++ [trimmed]))).
Proof.
  intros He Ho Hn Hne Ht. split; [by apply collapse_exact|]. split.
  - intros t Hin. rewrite Forall_forall in Ht. cbv zeta.
    destruct (rename_spec c old new t Ho Hn Hne (Ht t Hin)) as [(Hc & rest & Hr & Hp & ->)|[-> Hno]].
    + split_and!; [done..|]. left. split; [done|]. by exists rest.
    + split_and!; [done..|]. right. by split.
  - cbv zeta. assert (isValidRemoteBaseName name = true ↔ js_trim name ≠ [] ∧ js_trim name ≠ ["."%char] ∧
      js_trim name ≠ ["."%char; "."%char] ∧ (slash ∉ js_trim name) ∧ backslash ∉ js_trim name) as Hv.
    { unfold isValidRemoteBaseName. rewrite !andb_true_iff, !negb_true_iff, !bool_decide_eq_false, bool_decide_eq_true.
      rewrite Forall_forall. split.
      - intros [[[H1 H2] H3] H4]. split_and!; [done..| |]; intros Hx; by destruct (H4 _ Hx).
      - intros (H1 & H2 & H3 & H4 & H5). split_and!; [done..|]. intros x Hx. by split; intros ->. }
    split; [done|]. intros (H1 & H2 & H3 & H4 & H5)%Hv. destruct (js_trim_ends name) as [Hh Hl].
    apply (join_neat old [js_trim name]); [done| |done]. apply Forall_singleton. split; [|done].
    split; [done..|]. intros x Hx. by rewrite Hx in Hl.
Qed.

Lemma remote_entries_exact_witness :
  Forall (λ e, proper (normalizeRemotePath (Some (en_path e)))) [mkEntry [] sample_path KindFile] ∧
  joinRemotePath sample_path ["b"%char] = path_of [["a"%char]; ["b"%char]].
Proof.
  assert (Forall neat_segment [["a"%char]]) as Ha.
  { apply Forall_singleton. split; [|done]. split; [done|vm_decide|vm_decide|by intros c [= <-]]. }
  assert (Forall (λ e, proper (normalizeRemotePath (Some (en_path e)))) [mkEntry [] sample_path KindFile]) as He.
  { apply Forall_singleton. exists [["a"%char]]. split; [by apply neat_segments_ok|by vm_compute]. }
  split; [exact He|].
  destruct (remote_entries_exact (λ _ _, false) [mkEntry [] sample_path KindFile] "c" [["a"%char]] [["b"%char]] [] ["b"%char]
    He Ha) as (_ & _ & _ & Hj); [apply Forall_singleton|done|done|exact (Hj eq_refl)].
  split; [|done]. split; [done|vm_decide|vm_decide|by intros c [= <-]].
Defined.

(** ** What the code does not keep *)

Definition run_from (s : Editor) (events : list EditorEvent) : Editor :=
  foldl (λ s e, editor_step (λ _ _, false) sample_env s e) s events.

Definition opened : Editor := editor_run (λ _ _, false) (take 2 sample_events).

(** What is typed while a save is in flight counts as saved when it ends. *)
Lemma edit_during_save_lost :
  let s := run_from opened [EdChange "file:c:/a" "y"; EdSave "file:c:/a"; EdChange "file:c:/a" "yz";
    EdSettled 0 (FrMetadata sample_version [] sample_path)] in
  (λ t, (et_content t, et_dirty t, et_saveState t)) <$> ed_tabs s = [("yz", false, SsSaved)] ∧ ed_calls s = [].
Proof. by vm_compute. Qed.

(** A failed reload empties the tab and keeps its version: saving it then writes nothing
    over the file. *)
Lemma failed_reload_saves_empty :
  let s := run_from opened [EdReload "file:c:/a"; EdSettled 0 (FrFailed "network" "lost"); EdSave "file:c:/a"] in
  ed_calls s = [CallWrite (mkWrite "c" "" sample_version false sample_path) "file:c:/a"].
Proof. by vm_compute. Qed.

(** When a directory is renamed, the active file below it is no longer active. *)
Lemma directory_rename_drops_active :
  let below := String.list_ascii_of_string "/d/a" in
  let s := run_from initialEditor [EdOpen (mkEntry [] below KindFile);
    EdRename (mkEntry [] (String.list_ascii_of_string "/d") KindDirectory); EdTextValue ["e"%char]; EdSubmit;
    EdSettled 1 FrDone] in
  et_id <$> ed_tabs s = ["file:c:/e/a"] ∧ activeRemoteFileTabId (ed_pointers s) = Some "file:c:/d/a".
Proof. by vm_compute. Qed.

(** When an entry is renamed onto an open file, two tabs get one id; what is typed in one
    of them is then typed in both. *)
Lemma rename_onto_open_file :
  let s := run_from opened [EdOpen (mkEntry [] (String.list_ascii_of_string "/b") KindFile);
    EdSettled 0 (FrRead "z" sample_version [] (String.list_ascii_of_string "/b")); EdRename (mkEntry [] sample_path KindFile);
    EdTextValue ["b"%char]; EdSubmit; EdSettled 0 FrDone] in
  (λ t, (et_id t, et_content t)) <$> ed_tabs s = [("file:c:/b", "x"); ("file:c:/b", "z")] ∧
  et_content <$> ed_tabs (run_from s [EdChange "file:c:/b" "w"]) = ["w"; "w"].
Proof. by vm_compute. Qed.

(** A save that settles after its tab was renamed is not shown: the tab saves for ever. *)
Lemma rename_during_save_stuck :
  let s := run_from opened [EdChange "file:c:/a" "y"; EdSave "file:c:/a"; EdRename (mkEntry [] sample_path KindFile);
    EdTextValue ["b"%char]; EdSubmit; EdSettled 1 FrDone; EdSettled 0 (FrMetadata sample_version [] sample_path);
    EdSave "file:c:/b"] in
  (λ t, (et_id t, et_saveState t)) <$> ed_tabs s = [("file:c:/b", SsSaving)] ∧ ed_calls s = [].
Proof. by vm_compute. Qed.

(** What settles while entries are deleted is undone when the deletion ends. *)
Lemma delete_restores_tabs :
  let other := mkEntry [] (String.list_ascii_of_string "/b") KindFile in
  let s := run_from opened [EdReload "file:c:/a"; EdDelete [other]; EdConfirmDelete;
    EdSettled 0 (FrRead "new" sample_version [] sample_path); EdSettled 0 FrDone] in
  (λ t, (et_content t, et_saveState t)) <$> ed_tabs s = [("x", SsLoading)] ∧ ed_calls s = [].
Proof. by vm_compute. Qed.
