(* ===== verification/ConnectionErrors.v ===== *)
(** * Errors of connections ([features/connections/{connectionErrorCodes,hostKeyErrors}.ts], and
      the tables of [features/layout/WorkspaceShell.tsx])

    The classification of the stable error codes, the host key that an error asks to
    confirm, and the details that a connection wizard or a transfer shows of an error. An
    error is a JSON value; [show] is [String(value)] of what is not a string, [tr] looks up a
    text, and [diagnostic] the one that holds the id of an error. *)

From S2P Require Import Prelude SnapshotCodec JumpPlan RemotePaths.
From Stdlib Require Import Lia Strings.Ascii.

#[local] Open Scope nat_scope.

(** ** Codes *)

Definition ends_with (p s : string) : bool :=
  bool_decide (String.list_ascii_of_string p `suffix_of` String.list_ascii_of_string s).

Inductive ConnectionNetworkKind := NetTimeout | NetRefused | NetUnreachable | NetReset.

#[export] Instance ConnectionNetworkKind_eq_dec : EqDecision ConnectionNetworkKind.
Proof. solve_decision. Defined.

Definition connectionNetworkKind (code : string) : option ConnectionNetworkKind :=
  if ends_with "_connect_timeout" code then Some NetTimeout
  else if ends_with "_connect_refused" code then Some NetRefused
  else if ends_with "_connect_unreachable" code then Some NetUnreachable
  else if ends_with "_connect_reset" code then Some NetReset
  else None.

Definition isConnectionStageError (code : string) : bool :=
  bool_decide (is_Some (connectionNetworkKind code)) ||
  bool_decide (code ∈ ["terminal_connect_failed"; "terminal_tcp_connect_failed"; "remote_exec_connect_failed";
    "tunnel_ssh_connect_failed"; "remote_sftp_connect_failed"; "jump_connect_failed"]) ||
  starts_with "proxy_" code.

Definition isConnectTimeoutCode (code : string) : bool := bool_decide (connectionNetworkKind code = Some NetTimeout).

(** A field that is read when it is a string. *)
Definition errorDiagnosticId (error : option json) : string :=
  match json_fields error ≫= λ fields, field fields "diagnostic_id" with Some (JStr s) => s | _ => "" end.

(** [isQuickConnectCredentialError] *)
Definition isQuickConnectCredentialError (code : option string) : bool :=
  match code with
  | Some c =>
      truthy code &&
      (starts_with "terminal_auth" c || starts_with "terminal_private_key" c ||
       bool_decide (c ∈ ["terminal_username_missing"; "connection_password_missing"; "connection_private_key_missing";
         "credential_prompt_required"]))
  | None => false
  end.

(** ** Host keys *)

Inductive HostKeyDecision := KeyUnknown | KeyChanged.

#[export] Instance HostKeyDecision_eq_dec : EqDecision HostKeyDecision.
Proof. solve_decision. Defined.

Record HostKeyInfo := mkHostKey {
  hk_host : string;
  hk_port : Q;
  hk_key_algorithm : string;
  hk_fingerprint_sha256 : string;
  hk_public_key : string;
}.

Record ParsedHostKeyError := mkParsedHostKey {
  ph_decision : HostKeyDecision;
  ph_hostKey : HostKeyInfo;
  ph_oldFingerprint : option string;
}.

(** [isHostKeyInfo], with the value it accepts. *)
Definition isHostKeyInfo (value : option json) : option HostKeyInfo :=
  match json_fields value with
  | None => None
  | Some info =>
      match field info "host", field info "port", field info "key_algorithm", field info "fingerprint_sha256",
            field info "public_key" with
      | Some (JStr host), Some (JNum port), Some (JStr algorithm), Some (JStr fingerprint), Some (JStr key) =>
          Some (mkHostKey host port algorithm fingerprint key)
      | _, _, _, _, _ => None
      end
  end.

Definition decision_code (decision : HostKeyDecision) : string :=
  match decision with KeyUnknown => "host_key_unknown" | KeyChanged => "host_key_changed" end.

Definition parseHostKeyError (error : option json) : option ParsedHostKeyError :=
  match json_fields error with
  | None => None
  | Some fields =>
      let code := field fields "code" in
      if negb (is_str code "host_key_unknown") && negb (is_str code "host_key_changed") then None
      else
        match json_fields (field fields "details") with
        | None => None
        | Some payload =>
            let decision := if is_str code "host_key_changed" then KeyChanged else KeyUnknown in
            if negb (is_str (field payload "kind") (decision_code decision)) then None
            else
              match isHostKeyInfo (field payload "host_key") with
              | None => None
              | Some hostKey =>
                  match decision with
                  | KeyChanged =>
                      match field payload "old_fingerprint_sha256" with
                      | Some (JStr old) => Some (mkParsedHostKey decision hostKey (Some old))
                      | _ => None
                      end
                  | KeyUnknown => Some (mkParsedHostKey decision hostKey None)
                  end
              end
        end
  end.

(** ** Texts *)

Section texts.
Context (tr diagnostic : string → string) (show : json → string).

Definition auth_codes : list string :=
  ["terminal_auth_failed"; "terminal_auth_rejected"; "terminal_auth_timeout"; "terminal_private_key_invalid";
   "terminal_private_key_passphrase"; "terminal_private_key_not_found"].

Definition terminal_codes : list string := ["terminal_channel_open_failed"; "terminal_pty_failed"; "terminal_shell_failed"].

Definition connectionErrorStage (code : string) : string :=
  if isConnectTimeoutCode code then tr "workspace.error.stage.networkTimeout"
  else if isConnectionStageError code then tr "workspace.error.stage.network"
  else if bool_decide (code ∈ ["host_key_unknown"; "host_key_changed"]) then tr "workspace.error.stage.hostKey"
  else if bool_decide (code ∈ auth_codes) || starts_with "credential_" code then tr "workspace.error.stage.auth"
  else if bool_decide (code ∈ terminal_codes) then tr "workspace.error.stage.terminal"
  else tr "workspace.error.stage.connection".

Definition connectionErrorSuggestion (code : string) : string :=
  match connectionNetworkKind code with
  | Some NetTimeout => tr "workspace.error.suggest.networkTimeout"
  | Some NetRefused => tr "workspace.error.suggest.refused"
  | Some NetUnreachable => tr "workspace.error.suggest.unreachable"
  | Some NetReset => tr "workspace.error.suggest.reset"
  | None =>
      if starts_with "proxy_" code then tr "workspace.error.suggest.proxy"
      else if decide (code = "terminal_auth_rejected") then tr "workspace.error.suggest.auth"
      else if decide (code = "terminal_private_key_invalid") then tr "workspace.error.suggest.keyFormat"
      else if decide (code = "terminal_private_key_passphrase") then tr "workspace.error.suggest.passphrase"
      else if decide (code = "terminal_private_key_not_found") then tr "workspace.error.suggest.keyFile"
      else if decide (code = "terminal_auth_failed" ∨ code = "terminal_auth_timeout") then tr "workspace.error.suggest.authMethod"
      else if decide (code = "host_key_changed") then tr "workspace.error.suggest.hostKeyChanged"
      else if decide (code = "host_key_unknown") then tr "workspace.error.suggest.hostKeyUnknown"
      else if decide (code = "terminal_pty_failed" ∨ code = "terminal_shell_failed") then tr "workspace.error.suggest.terminal"
      else tr "workspace.error.suggest.generic"
  end.

Definition connectionErrorSummary (code fallback : string) : string :=
  match connectionNetworkKind code with
  | Some NetTimeout => tr "workspace.error.timeout"
  | Some NetRefused => tr "workspace.error.refused"
  | Some NetUnreachable => tr "workspace.error.unreachable"
  | _ => fallback
  end.

(** The step of the wizard that an error belongs to. *)
Definition connectionStepErrorIndex (code : string) : nat :=
  if isConnectionStageError code then 1
  else if bool_decide (code ∈ ["host_key_unknown"; "host_key_changed"]) then 2
  else if bool_decide (code ∈ "terminal_auth_missing" :: auth_codes) || starts_with "credential_" code ||
    starts_with "connection_credential_" code then 3
  else if bool_decide (code ∈ terminal_codes) then 4
  else 1.

(** [String(value)] *)
Definition js_string (value : json) : string := match value with JStr s => s | _ => show value end.

Definition formatError (error : json) : string :=
  match json_fields (Some error) ≫= λ fields, field fields "message" with
  | Some message => js_string message
  | None => js_string error
  end.

(** [replace(/^Error:\s*/i, "").replace(/\s+/g, " ").trim()], of text where [\s] and [trim]
    know the ASCII white space. *)
Definition lower_char (c : ascii) : ascii :=
  let n := nat_of_ascii c in if (65 <=? n) && (n <=? 90) then ascii_of_nat (n + 32) else c.

Definition drop_error_prefix (s : chars) : chars :=
  let prefix := String.list_ascii_of_string "error:" in
  if bool_decide (prefix `prefix_of` (lower_char <$> s)) then trim_start (drop 6 s) else s.

(** A run of white space becomes one blank. *)
Fixpoint squeeze (s : chars) : chars :=
  match s with
  | c :: s' =>
      if is_space c then
        match s' with
        | d :: _ => if is_space d then squeeze s' else " "%char :: squeeze s'
        | [] => [" "%char]
        end
      else c :: squeeze s'
  | [] => []
  end.

Definition normalizeErrorText (value : option json) : string :=
  let s := match value with Some JNull | None => "" | Some v => js_string v end in
  String.string_of_list_ascii (js_trim (squeeze (drop_error_prefix (String.list_ascii_of_string s)))).

Record ConnectionStepErrorDetail := mkErrorDetail {
  ed_code : string;
  ed_message : string;
  ed_rawMessage : string;
  ed_recoverable : bool;
  ed_stage : string;
  ed_suggestion : string;
}.

Definition describeConnectionStepError (error : json) : ConnectionStepErrorDetail :=
  let read name := json_fields (Some error) ≫= λ fields, field fields name in
  let code := match read "code" with Some c => js_string c | None => "unknown_error" end in
  let message := formatError error in
  let rawMessage := match read "raw_message" with Some raw => normalizeErrorText (Some raw) | None => "" end in
  let recoverable := match read "recoverable" with Some r => truthy_json (Some r) | None => true end in
  let diagnosticId := errorDiagnosticId (Some error) in
  mkErrorDetail code (connectionErrorSummary code message)
    (default message (nonempty rawMessage ?: (if truthy (Some diagnosticId) then Some (diagnostic diagnosticId) else None)))
    recoverable (connectionErrorStage code) (connectionErrorSuggestion code).

(** ** Transfers *)

Definition isTransferCanceledError (error : json) : bool :=
  match json_fields (Some error) ≫= λ fields, field fields "code" with
  | Some code => String.eqb (js_string code) "remote_file_transfer_canceled"
  | None => false
  end.

Definition extractTransferErrorCode (error : json) : option string :=
  js_string <$> (json_fields (Some error) ≫= λ fields, field fields "code").

(** The last part of the keys of both tables. *)
Definition transfer_text (code : string) (write_timeout write_failed unavailable connection channel auth : string) : option string :=
  if decide (code = "remote_file_upload_confirm_timeout") then Some (tr write_timeout)
  else if decide (code = "remote_file_upload_confirm_failed") then Some (tr write_failed)
  else if decide (code = "remote_sftp_subsystem_failed" ∨ code = "remote_sftp_subsystem_timeout") then Some (tr unavailable)
  else if decide (code = "remote_sftp_connect_failed" ∨ starts_with "remote_sftp_connect_" code = true) then Some (tr connection)
  else if decide (code ∈ ["remote_sftp_channel_failed"; "remote_sftp_init_failed"; "remote_sftp_channel_timeout"]) then Some (tr channel)
  else if decide (code = "remote_sftp_auth_timeout") then Some (tr auth)
  else None.

Definition transferErrorStage (code : string) : option string :=
  transfer_text code "workspace.sftp.writeTimeout" "workspace.sftp.writeFailed" "workspace.sftp.unavailable"
    "workspace.sftp.connectionFailed" "workspace.sftp.channelFailed" "workspace.sftp.authTimeout".

Definition transferErrorSuggestion (code : string) : option string :=
  transfer_text code "workspace.sftp.suggestion.writeTimeout" "workspace.sftp.suggestion.writeFailed"
    "workspace.sftp.suggestion.unavailable" "workspace.sftp.suggestion.connection" "workspace.sftp.suggestion.channel"
    "workspace.sftp.suggestion.authTimeout".

Definition newline : string := String (ascii_of_nat 10) EmptyString.

Definition formatDetailedError (error : json) : string :=
  let message := formatError error in
  let rawMessage := match json_fields (Some error) ≫= λ fields, field fields "raw_message" with
    | Some raw => normalizeErrorText (Some raw) | None => "" end in
  let diagnosticId := errorDiagnosticId (Some error) in
  if truthy (Some rawMessage) && negb (String.eqb rawMessage (normalizeErrorText (Some (JStr message))))
  then message +:+ newline +:+ rawMessage
  else if negb (truthy (Some rawMessage)) && truthy (Some diagnosticId) then message +:+ newline +:+ diagnostic diagnosticId
  else message.

(** ** Logs *)

(** Lines that are not blank, and not equal to the line before. *)
Definition push_log (logs : list string) (line : string) : list string :=
  if decide (last logs = Some line) then logs else logs ++ [line].

Definition appendUniqueLogs (logs nextLines : list string) : list string :=
  foldl push_log logs (omap (λ line, nonempty (trim_string line)) nextLines).
End texts.

(** ** Properties *)

(** The error that the backend sends for a host key. *)
Definition host_key_json (key : HostKeyInfo) : json :=
  JObj [("host", JStr (hk_host key)); ("port", JNum (hk_port key)); ("key_algorithm", JStr (hk_key_algorithm key));
    ("fingerprint_sha256", JStr (hk_fingerprint_sha256 key)); ("public_key", JStr (hk_public_key key))].

Definition host_key_error (p : ParsedHostKeyError) : json :=
  JObj [("code", JStr (decision_code (ph_decision p)));
    ("details", JObj (("kind", JStr (decision_code (ph_decision p))) :: ("host_key", host_key_json (ph_hostKey p)) ::
      match ph_oldFingerprint p with Some old => [("old_fingerprint_sha256", JStr old)] | None => [] end))].

Lemma is_str_true value s : is_str value s = true ↔ value = Some (JStr s).
Proof. destruct value as [[]|]; cbn; try (split; [done|by intros [=]]). rewrite String.eqb_eq. split; [by intros ->|by intros [= ->]]. Qed.

(** Fields that are there are those of an object. *)
Lemma json_fields_inv value fields k : json_fields value = Some fields →
  value = Some (JObj fields) ∨ field fields k = None.
Proof. destruct value as [[]|]; cbn; try done; intros [= <-]; [by right|by left]. Qed.

(** Every key that is shown comes from an error whose code and kind agree, with all its
    fields, and a changed key comes with the old fingerprint. *)
Lemma parse_host_key_inv error p : parseHostKeyError error = Some p →
  ∃ fields payload, json_fields error = Some fields ∧ json_fields (field fields "details") = Some payload ∧
    field fields "code" = Some (JStr (decision_code (ph_decision p))) ∧
    field payload "kind" = Some (JStr (decision_code (ph_decision p))) ∧
    isHostKeyInfo (field payload "host_key") = Some (ph_hostKey p) ∧
    match ph_decision p with
    | KeyChanged => ∃ old, field payload "old_fingerprint_sha256" = Some (JStr old) ∧ ph_oldFingerprint p = Some old
    | KeyUnknown => ph_oldFingerprint p = None
    end.
Proof.
  unfold parseHostKeyError. destruct (json_fields error) as [fields|]; [|done]. cbv zeta.
  destruct (is_str (field fields "code") "host_key_changed") eqn:Ec; cbn [negb andb].
  - rewrite andb_false_r. destruct (json_fields (field fields "details")) as [payload|] eqn:Ed; [|done].
    destruct (is_str (field payload "kind") _) eqn:Ek; [|done]. cbn [negb].
    destruct (isHostKeyInfo _) as [key|] eqn:Eh; [|done].
    destruct (field payload "old_fingerprint_sha256") as [[]|] eqn:Eo; try done. intros [= <-].
    exists fields, payload. apply is_str_true in Ec, Ek. split_and!; [done..|]. by exists s.
  - rewrite andb_true_r. destruct (is_str (field fields "code") "host_key_unknown") eqn:Eu; [|done]. cbn [negb].
    destruct (json_fields (field fields "details")) as [payload|] eqn:Ed; [|done].
    destruct (is_str (field payload "kind") _) eqn:Ek; [|done]. cbn [negb].
    destruct (isHostKeyInfo _) as [key|] eqn:Eh; [|done]. intros [= <-].
    exists fields, payload. apply is_str_true in Eu, Ek. by split_and!.
Qed.

(** The wizard stops at the host key exactly for the codes that may ask to confirm one. *)
Lemma host_key_index code : connectionStepErrorIndex code = 2 ↔ code = "host_key_unknown" ∨ code = "host_key_changed".
Proof.
  assert (connectionStepErrorIndex "host_key_unknown" = 2) as Hu by by vm_compute.
  assert (connectionStepErrorIndex "host_key_changed" = 2) as Hc by by vm_compute.
  split; [|by intros [->| ->]]. unfold connectionStepErrorIndex. destruct (isConnectionStageError code); [done|].
  case_bool_decide as Hk; [|repeat (destruct (_ || _) || case_bool_decide); done]. by set_solver.
Qed.

(** What is sent for a host key is read back. *)
Lemma parse_host_key_error p : (ph_decision p = KeyUnknown ↔ ph_oldFingerprint p = None) →
  parseHostKeyError (Some (host_key_error p)) = Some p.
Proof.
  destruct p as [[] [host port algorithm fingerprint key] [old|]]; cbn; intros [H1 H2]; [|done|done|].
  - by discriminate H1.
  - by discriminate H2.
Qed.

Lemma timeout_is_stage code : isConnectTimeoutCode code = true → isConnectionStageError code = true.
Proof. unfold isConnectTimeoutCode, isConnectionStageError. intros ->%bool_decide_eq_true. done. Qed.

(** A prefixed code of the third step is neither of the codes with a stage of their own. *)
Lemma prefixed_code s : let code := ("connection_credential_" +:+ s)%string in
  (∀ l : list string, bool_decide (code ∈ l) = bool_decide (code ∈ filter (starts_with "connection_credential_") l)) ∧
  starts_with "credential_" code = false.
Proof.
  split; [|done]. intros l. apply bool_decide_ext. rewrite list_elem_of_filter. split; [|by intros [_ H]].
  intros H. split; [by rewrite starts_with_app|done].
Qed.

(** The part of a code that says which text names its stage. *)
Definition stage_key (code : string) : string :=
  match connectionStepErrorIndex code with
  | 2 => "workspace.error.stage.hostKey"
  | 3 => if bool_decide (code = "terminal_auth_missing") || starts_with "connection_credential_" code
         then "workspace.error.stage.connection" else "workspace.error.stage.auth"
  | 4 => "workspace.error.stage.terminal"
  | _ => if isConnectTimeoutCode code then "workspace.error.stage.networkTimeout"
         else if isConnectionStageError code then "workspace.error.stage.network" else "workspace.error.stage.connection"
  end.

Lemma stage_of_index tr code : connectionErrorStage tr code = tr (stage_key code).
Proof.
  unfold stage_key, connectionErrorStage, connectionStepErrorIndex.
  destruct (isConnectionStageError code) eqn:Es; [by destruct (isConnectTimeoutCode code)|].
  destruct (isConnectTimeoutCode code) eqn:Et; [by apply timeout_is_stage in Et; congruence|].
  destruct (bool_decide (code ∈ ["host_key_unknown"; "host_key_changed"])) eqn:Ek; [done|].
  destruct (decide (code = "terminal_auth_missing")) as [->|Hm]; [by vm_compute|].
  rewrite (bool_decide_ext (code ∈ "terminal_auth_missing" :: auth_codes) (code ∈ auth_codes)) by set_solver.
  rewrite (bool_decide_eq_false_2 (code = _)) by done. cbn [orb].
  destruct (starts_with "connection_credential_" code) eqn:Ep.
  - apply starts_with_inv in Ep as (s & ->). destruct (prefixed_code s) as [Hl ->].
    rewrite (Hl auth_codes), (Hl terminal_codes). by vm_compute.
  - rewrite orb_false_r. destruct (bool_decide (code ∈ auth_codes) || starts_with "credential_" code); [done|].
    by destruct (bool_decide (code ∈ terminal_codes)).
Qed.

(** Logs: what was shown stays, and no two lines that follow each other are equal. *)
Definition no_repeat (l : list string) : Prop := ∀ i a, l !! i = Some a → l !! S i ≠ Some a.

Lemma push_log_spec logs line : no_repeat logs → no_repeat (push_log logs line) ∧ logs `prefix_of` push_log logs line.
Proof.
  unfold push_log. intros H. case_decide as Hl; [by split|]. split; [|by apply prefix_app_r].
  intros i a Ha Hb. destruct (decide (S i < length logs)) as [Hi|Hi].
  - rewrite lookup_app_l in Ha by lia. rewrite lookup_app_l in Hb by done. exact (H i a Ha Hb).
  - apply lookup_lt_Some in Hb as Hlen. rewrite length_app in Hlen. cbn in Hlen.
    assert (S i = length logs) as Hi' by lia. rewrite lookup_app_r in Hb by lia.
    replace (S i - length logs) with 0 in Hb by lia. cbn in Hb. injection Hb as <-.
    rewrite lookup_app_l in Ha by lia. apply Hl. rewrite last_lookup. by replace (pred (length logs)) with i by lia.
Qed.

Lemma append_logs_spec logs next : no_repeat logs →
  no_repeat (appendUniqueLogs logs next) ∧ logs `prefix_of` appendUniqueLogs logs next.
Proof.
  unfold appendUniqueLogs. generalize (omap (λ line, nonempty (trim_string line)) next) as l. intros l. revert logs.
  induction l as [|a l IH]; intros logs H; [by split|]. destruct (push_log_spec logs a H) as [H1 H2].
  destruct (IH _ H1) as [H3 H4]. split; [done|]. by etrans.
Qed.

(** C32: host keys and errors are read exactly. What the backend sends for a host key is read
    back, whatever is read comes from an error whose code and kind agree (a changed key with
    its old fingerprint), and its details stop the wizard at the host key and name that
    stage. The stage named for any code is the one of the step it belongs to, except that a
    missing credential is named as a failed connection; a time-out is always a failed
    connection that suggests and summarises it as such. A log never loses a line and never
    repeats the line before. *)
Theorem host_key_exact (tr diagnostic : string → string) (show : json → string) :
  (∀ p, (ph_decision p = KeyUnknown ↔ ph_oldFingerprint p = None) → parseHostKeyError (Some (host_key_error p)) = Some p) ∧
  (∀ error p, parseHostKeyError (Some error) = Some p →
    (ph_decision p = KeyUnknown ↔ ph_oldFingerprint p = None) ∧
    (∃ fields payload, error = JObj fields ∧ field fields "details" = Some (JObj payload) ∧
      field payload "kind" = field fields "code" ∧ isHostKeyInfo (field payload "host_key") = Some (ph_hostKey p)) ∧
    let detail := describeConnectionStepError tr diagnostic show error in
    ed_code detail = decision_code (ph_decision p) ∧ connectionStepErrorIndex (ed_code detail) = 2 ∧
    ed_stage detail = tr "workspace.error.stage.hostKey") ∧
  (∀ code, connectionErrorStage tr code = tr (stage_key code)) ∧
  (∀ code, isConnectTimeoutCode code = true →
    connectionStepErrorIndex code = 1 ∧ connectionErrorStage tr code = tr "workspace.error.stage.networkTimeout" ∧
    connectionErrorSuggestion tr code = tr "workspace.error.suggest.networkTimeout" ∧
    ∀ fallback, connectionErrorSummary tr code fallback = tr "workspace.error.timeout") ∧
  (∀ logs next, no_repeat logs →
    no_repeat (appendUniqueLogs logs next) ∧ logs `prefix_of` appendUniqueLogs logs next).
Proof.
  split_and!.
  - apply parse_host_key_error.
  - intros error p (fields & payload & Hf & Hp & Hc & Hk & Hi & Ho)%parse_host_key_inv.
    destruct (json_fields_inv (Some error) fields "code") as [He|]; [done| |by rewrite Hc in *]. injection He as ->.
    destruct (json_fields_inv (field fields "details") payload "kind") as [Ed|]; [done| |by rewrite Hk in *].
    assert (ed_code (describeConnectionStepError tr diagnostic show (JObj fields)) = decision_code (ph_decision p)) as Hcode.
    { unfold describeConnectionStepError. cbn [json_fields ed_code mbind option_bind]. by rewrite Hc. }
    split; [|split_and!].
    + destruct (ph_decision p); [by rewrite Ho|]. destruct Ho as (old & _ & ->). by split.
    + exists fields, payload. by rewrite Hk, Hc.
    + cbv zeta. change (ed_stage (describeConnectionStepError tr diagnostic show (JObj fields))) with
        (connectionErrorStage tr (ed_code (describeConnectionStepError tr diagnostic show (JObj fields)))).
      rewrite Hcode. by destruct (ph_decision p).
  - apply stage_of_index.
  - intros code Ht. pose proof (timeout_is_stage _ Ht) as Hs. unfold connectionStepErrorIndex, connectionErrorStage.
    rewrite Hs, Ht. unfold isConnectTimeoutCode in Ht. apply bool_decide_eq_true in Ht.
    unfold connectionErrorSuggestion, connectionErrorSummary. by rewrite Ht.
  - intros logs next. apply append_logs_spec.
Qed.

Definition demo_key : ParsedHostKeyError :=
  mkParsedHostKey KeyChanged (mkHostKey "h" 22 "ssh-ed25519" "SHA256:new" "AAAA") (Some "SHA256:old").

Lemma host_key_exact_witness :
  parseHostKeyError (Some (host_key_error demo_key)) = Some demo_key ∧
  ed_stage (describeConnectionStepError id id (λ _, "") (host_key_error demo_key)) = "workspace.error.stage.hostKey" ∧
  connectionStepErrorIndex "terminal_connect_timeout" = 1.
Proof.
  split_and!; [|by vm_compute|].
  - apply (host_key_exact id id (λ _, "")). by vm_compute.
  - apply (host_key_exact id id (λ _, "")). by vm_compute.
Defined.
