(* ===== verification/ConnectionSteps.v ===== *)
(** * The connection wizard ([features/layout/WorkspaceShell.tsx])

    A tab that connects shows a step: what is being tried, the host key or the credentials it
    waits for, the error. The handlers that start, run, retry and answer a step, the direct
    terminals that connect without one, and the capture of the output that arrives before
    the terminal is shown, as a machine: a run is in flight at one of its awaits until an
    event settles it, in any order. Updates of the tabs are taken to be immediate. The branch
    without a backend is left out. *)

From S2P Require Import Prelude SessionTypes Instances SnapshotCodec JumpPlan ConnectionInput ConnectionErrors.
From stdpp Require Import pretty.
From Stdlib Require Import Lia.

#[local] Open Scope nat_scope.

(** ** Data *)

(** What the wizard reads of a connection; [sp_serial_port] is [serial.port_name]. *)
Record StepProfile := mkStepProfile {
  sp_profile : JumpProfile;
  sp_protocol : option ConnectionProtocol;
  sp_serial_port : option string;
  sp_credential_mode : option ConnectionCredentialMode;
  sp_prompt_auth_kind : option ConnectionAuthKind;
  sp_inline_auth_kind : option ConnectionAuthKind;
  sp_created_at : string;
}.

Definition sp_id (p : StepProfile) : string := jp_id (sp_profile p).
Definition sp_prompts (p : StepProfile) : bool := bool_decide (sp_credential_mode p = Some ModePrompt).

Inductive ConnectionStepMode := StepTest | StepTerminal.
Inductive ConnectionStepStatus := StIdle | StRunning | StWaitingHostKey | StPrompt | StSuccess | StError.

#[export] Instance ConnectionStepMode_eq_dec : EqDecision ConnectionStepMode.
Proof. solve_decision. Defined.
#[export] Instance ConnectionStepStatus_eq_dec : EqDecision ConnectionStepStatus.
Proof. solve_decision. Defined.

(** The fields of [ConnectionStepState] (but its [sessionId], which nothing sets), in three
    groups: what the last run left, what the user is asked for, and what stays. *)
Record StepOutcome := mkOutcome {
  so_activeStepIndex : option nat;
  so_errorDetail : option ConnectionStepErrorDetail;
  so_error : option string;
  so_hostKey : option HostKeyInfo;
  so_hostKeyDecision : option HostKeyDecision;
  so_oldHostKeyFingerprint : option string;
  so_logs : list string;
  so_status : ConnectionStepStatus;
}.

Record StepSecrets := mkSecrets {
  sc_authKind : ConnectionAuthKind;
  sc_password : string;
  sc_privateKeyPassphrase : string;
  sc_privateKeyPath : string;
  sc_promptTarget : option CredentialPromptTarget;
  sc_runtimeCredentials : jsmap RuntimeCredentialInput;
}.

Record ConnectionStepState := mkStepState {
  cs_connection : StepProfile;
  cs_id : Z;
  cs_mode : ConnectionStepMode;
  cs_temporary : bool;
  cs_temporaryContextRef : option string;
  cs_temporaryCredentialsReady : bool;
  cs_outcome : StepOutcome;
  cs_secrets : StepSecrets;
}.

Definition cs_status (step : ConnectionStepState) : ConnectionStepStatus := so_status (cs_outcome step).
Definition cs_logs (step : ConnectionStepState) : list string := so_logs (cs_outcome step).

Definition with_outcome (o : StepOutcome) (step : ConnectionStepState) : ConnectionStepState :=
  mkStepState (cs_connection step) (cs_id step) (cs_mode step) (cs_temporary step) (cs_temporaryContextRef step)
    (cs_temporaryCredentialsReady step) o (cs_secrets step).
Definition with_secrets (c : StepSecrets) (step : ConnectionStepState) : ConnectionStepState :=
  mkStepState (cs_connection step) (cs_id step) (cs_mode step) (cs_temporary step) (cs_temporaryContextRef step)
    (cs_temporaryCredentialsReady step) (cs_outcome step) c.
Definition with_ready (ready : bool) (step : ConnectionStepState) : ConnectionStepState :=
  mkStepState (cs_connection step) (cs_id step) (cs_mode step) (cs_temporary step) (cs_temporaryContextRef step)
    ready (cs_outcome step) (cs_secrets step).
Definition with_connection (p : StepProfile) (step : ConnectionStepState) : ConnectionStepState :=
  mkStepState p (cs_id step) (cs_mode step) (cs_temporary step) (cs_temporaryContextRef step)
    (cs_temporaryCredentialsReady step) (cs_outcome step) (cs_secrets step).

Definition clear_secrets (c : StepSecrets) : StepSecrets :=
  mkSecrets (sc_authKind c) "" "" "" (sc_promptTarget c) (sc_runtimeCredentials c).

(** An outcome that only has lines and a status, as a run starts and as a retry resets it. *)
Definition plain_outcome (index : option nat) (logs : list string) (status : ConnectionStepStatus) : StepOutcome :=
  mkOutcome index None None None None None logs status.

(** [{...step, logs, status}] *)
Definition add_log (line : string) (status : ConnectionStepStatus) (o : StepOutcome) : StepOutcome :=
  mkOutcome (so_activeStepIndex o) (so_errorDetail o) (so_error o) (so_hostKey o) (so_hostKeyDecision o)
    (so_oldHostKeyFingerprint o) (so_logs o ++ [line]) status.

Record StepTab := mkStepTab {
  tb_id : string;
  tb_connectionId : string;
  tb_connectionStep : option ConnectionStepState;
  tb_error : option string;
  tb_ordinal : Z;
  tb_requestId : option nat;
  tb_sessionId : option string;
  tb_status : string;
  tb_temporaryContextRef : option string;
  tb_title : string;
  tb_type : TabType;
  tb_warmupOutput : list Z;
}.

(** ** Shown texts *)

(** The status of a direct terminal, and of a tab whose session is there or failed. *)
Definition connecting_text : string := "正在连接".
Definition connected_text : string := "已连接".
Definition failed_text : string := "连接失败".

Section wizard.
(** [trn key value] is a text with one value in it. *)
Context (tr : string → string) (trn : string → string → string) (diagnostic : string → string) (show : json → string).

Definition connectionStepStatusTitle (step : ConnectionStepState) : string :=
  match cs_status step with
  | StSuccess => tr "workspace.step.testPassed"
  | StError => tr "workspace.step.connectionFailed"
  | StWaitingHostKey => tr "workspace.step.waitConfirm"
  | StPrompt => tr "workspace.step.credentialsRequired"
  | _ => tr "workspace.step.checking"
  end.

Definition clampConnectionStepIndex (index : nat) : nat := Nat.min (Nat.max index 0) 4.

Definition currentConnectionStepIndex (step : ConnectionStepState) : nat :=
  match cs_status step with
  | StSuccess => 4
  | StWaitingHostKey => 2
  | StPrompt => 3
  | StError => connectionStepErrorIndex (from_option ed_code "" (so_errorDetail (cs_outcome step)))
  | status =>
      match decide (status = StRunning), so_activeStepIndex (cs_outcome step) with
      | left _, Some index => clampConnectionStepIndex index
      | _, _ => Nat.min (Nat.max (length (cs_logs step) - 1) 1) 4
      end
  end.

Definition formatConnectionAddress (p : StepProfile) : string :=
  let c := sp_profile p in
  let place := jp_host c +:+ ":" +:+ pretty (jp_port c) in
  let address := if truthy (Some (jp_username c)) then jp_username c +:+ "@" +:+ place else place in
  match default Ssh (sp_protocol p) with
  | Rdp => "RDP · " +:+ address
  | Vnc => "VNC · " +:+ address
  | Telnet => "Telnet · " +:+ place
  | Serial => tr "connection.search.serial" +:+ " · " +:+ default (jp_host c) (sp_serial_port p ||? None)
  | Ssh => address
  end.

Definition terminalTabTitle (ordinal : Z) : string :=
  match displayOrdinal ordinal with
  | Some n => trn "workspace.terminal.numbered" (pretty n)
  | None => tr "workspace.terminal.title"
  end.

Definition step_title (mode : ConnectionStepMode) : string :=
  match mode with StepTerminal => tr "workspace.connection.prepare" | StepTest => tr "workspace.connection.test" end.

Definition step_prompt_target (p : StepProfile) : CredentialPromptTarget :=
  credentialPromptTargetFromConnection (sp_profile p) (sp_prompt_auth_kind p) (sp_inline_auth_kind p).

Definition target_name (target : CredentialPromptTarget) : string :=
  default (ct_connectionId target) (ct_name target ||? None).

(** ** The machine *)

Record DirectTerminal := mkDirect {
  dr_connection : StepProfile;
  dr_request : nat;
  dr_command : option string;
}.

(** What a run waits for. A run of a step keeps the step it was called with and the one it
    shows; both are objects of its own. *)
Inductive RunPhase :=
  | RunTrust (next : ConnectionStepState)
  | RunPrepare (step running : ConnectionStepState)
  | RunListen (step running : ConnectionStepState)
  | RunTest (step running : ConnectionStepState)
  | RunConnect (step running : ConnectionStepState)
  | RunDirectListen (d : DirectTerminal)
  | RunDirectConnect (d : DirectTerminal).

(** [run_id] also stands for the random request id; [run_profiles] is the [connectionById]
    of the render that the run started in. *)
Record StepRun := mkRun {
  run_id : nat;
  run_tab : string;
  run_profiles : jsmap StepProfile;
  run_phase : RunPhase;
}.

(** The listener of a run: [cp_live] until it is stopped. *)
Record Capture := mkCapture {
  cp_request : nat;
  cp_tab : string;
  cp_live : bool;
  cp_handoff : bool;
  cp_buffer : list Z;
}.

Inductive StepCall :=
  | CallTrust (key : HostKeyInfo)
  | CallPrepare (contextRef username : string) (authKind : ConnectionAuthKind) (password privateKeyPath passphrase : option string)
  | CallListen (request : nat)
  | CallTest (request : ConnectionRuntimeCredentialRequest)
  | CallConnect (target : JumpProfile) (credential : ConnectionRuntimeCredentialRequest) (request : nat)
  | CallConnectTemporary (contextRef : string) (request : nat)
  | CallConnectDirect (target : JumpProfile) (request : nat)
  | CallProbe (request : ConnectionRuntimeCredentialRequest)
  | CallRefresh (connectionId : string)
  | CallWrite (sessionId command : string)
  | CallClose (sessionId : string)
  | CallOpenRdp (connectionId : string)
  | CallOpenVnc (connectionId : string).

(** [sm_sessions] is what the connect calls have returned so far; [sm_timers] are the time-outs
    that stop the capture of a tab. *)
Record Steps := mkSteps {
  sm_tabs : list StepTab;
  sm_runs : list StepRun;
  sm_next : nat;
  sm_captures : list Capture;
  sm_stops : gmap string nat;
  sm_timers : list string;
  sm_profiles : jsmap StepProfile;
  sm_sessions : list string;
  sm_calls : list StepCall;
}.

Definition set_tabs (tabs : list StepTab) (s : Steps) : Steps :=
  mkSteps tabs (sm_runs s) (sm_next s) (sm_captures s) (sm_stops s) (sm_timers s) (sm_profiles s) (sm_sessions s) (sm_calls s).
Definition set_runs (runs : list StepRun) (s : Steps) : Steps :=
  mkSteps (sm_tabs s) runs (sm_next s) (sm_captures s) (sm_stops s) (sm_timers s) (sm_profiles s) (sm_sessions s) (sm_calls s).
Definition set_captures (captures : list Capture) (stops : gmap string nat) (s : Steps) : Steps :=
  mkSteps (sm_tabs s) (sm_runs s) (sm_next s) captures stops (sm_timers s) (sm_profiles s) (sm_sessions s) (sm_calls s).
Definition set_timers (timers : list string) (s : Steps) : Steps :=
  mkSteps (sm_tabs s) (sm_runs s) (sm_next s) (sm_captures s) (sm_stops s) timers (sm_profiles s) (sm_sessions s) (sm_calls s).
Definition call_log (calls : list StepCall) (s : Steps) : Steps :=
  mkSteps (sm_tabs s) (sm_runs s) (sm_next s) (sm_captures s) (sm_stops s) (sm_timers s) (sm_profiles s) (sm_sessions s)
    (sm_calls s ++ calls).

(** A run that starts at a phase; it is the [sm_next]th. *)
Definition launch (tabId : string) (profiles : jsmap StepProfile) (phase : RunPhase) (s : Steps) : Steps :=
  mkSteps (sm_tabs s) (sm_runs s ++ [mkRun (sm_next s) tabId profiles phase]) (S (sm_next s)) (sm_captures s) (sm_stops s)
    (sm_timers s) (sm_profiles s) (sm_sessions s) (sm_calls s).
(** A run that goes on to its next await. *)
Definition await (r : StepRun) (phase : RunPhase) (s : Steps) : Steps :=
  set_runs (sm_runs s ++ [mkRun (run_id r) (run_tab r) (run_profiles r) phase]) s.
Definition returned (sessionId : string) (s : Steps) : Steps :=
  mkSteps (sm_tabs s) (sm_runs s) (sm_next s) (sm_captures s) (sm_stops s) (sm_timers s) (sm_profiles s)
    (sm_sessions s ++ [sessionId]) (sm_calls s).

(** ** Tabs *)

Definition map_tab (tabId : string) (f : StepTab → StepTab) (tabs : list StepTab) : list StepTab :=
  (λ tab, if decide (tb_id tab = tabId) then f tab else tab) <$> tabs.

Definition buildConnectingTab (tabs : list StepTab) (connection : StepProfile) (step : ConnectionStepState) : StepTab :=
  mkStepTab ("connection-" +:+ sp_id connection +:+ "-" +:+ pretty (cs_id step)) (sp_id connection) (Some step) None
    (nextOrdinal (tb_ordinal <$> filter (λ tab, tb_connectionId tab = sp_id connection) tabs)) None None
    (connectionStepStatusTitle step) (cs_temporaryContextRef step ||? None) (step_title (cs_mode step)) TabConnecting [].

(** [nonce] is the clock with a random number. *)
Definition buildDirectTerminalTab (tabs : list StepTab) (connection : StepProfile) (title : option string) (nonce : string)
    (request : nat) : StepTab :=
  let ordinal := nextOrdinal (tb_ordinal <$> filter (λ tab, tb_connectionId tab = sp_id connection) tabs) in
  mkStepTab ("terminal-" +:+ sp_id connection +:+ "-" +:+ nonce) (sp_id connection) None None ordinal (Some request) None
    connecting_text None (default (terminalTabTitle ordinal) (title ||? None)) TabTerminal [].

Definition step_shown (step : ConnectionStepState) (tab : StepTab) : StepTab :=
  mkStepTab (tb_id tab) (tb_connectionId tab) (Some step) (tb_error tab) (tb_ordinal tab) (tb_requestId tab) (tb_sessionId tab)
    (connectionStepStatusTitle step) (tb_temporaryContextRef tab)
    (if decide (cs_status step = StError) then tr "workspace.connection.failed" else step_title (cs_mode step))
    (tb_type tab) (tb_warmupOutput tab).

Definition updateConnectingTabStep (tabId : string) (step : ConnectionStepState) (s : Steps) : Steps :=
  set_tabs (map_tab tabId (step_shown step) (sm_tabs s)) s.

Definition replaceConnectingTabWithTerminal (tabId sessionId : string) (warmupOutput : list Z) (requestId : nat) (s : Steps) : Steps :=
  set_tabs (map_tab tabId (λ tab, mkStepTab (tb_id tab) (tb_connectionId tab) None None (tb_ordinal tab) (Some requestId)
    (Some sessionId) connected_text (tb_temporaryContextRef tab) (terminalTabTitle (tb_ordinal tab)) TabTerminal warmupOutput)
    (sm_tabs s)) s.

Definition append_warmup (data : list Z) (tab : StepTab) : StepTab :=
  if decide (tb_type tab = TabTerminal) then
    mkStepTab (tb_id tab) (tb_connectionId tab) (tb_connectionStep tab) (tb_error tab) (tb_ordinal tab) (tb_requestId tab)
      (tb_sessionId tab) (tb_status tab) (tb_temporaryContextRef tab) (tb_title tab) (tb_type tab) (tb_warmupOutput tab ++ data)
  else tab.

Definition appendTerminalWarmupOutput (tabId : string) (data : list Z) (s : Steps) : Steps :=
  set_tabs (map_tab tabId (append_warmup data) (sm_tabs s)) s.

Definition connectingTabExists (tabId : string) (s : Steps) : bool :=
  bool_decide (Exists (λ tab, tb_id tab = tabId ∧ tb_type tab = TabConnecting) (sm_tabs s)).
Definition terminalTabExists (tabId : string) (s : Steps) : bool :=
  bool_decide (Exists (λ tab, tb_id tab = tabId) (sm_tabs s)).

(** ** Captures *)

Definition map_capture (request : nat) (f : Capture → Capture) (captures : list Capture) : list Capture :=
  (λ c, if decide (cp_request c = request) then f c else c) <$> captures.

Definition stop_capture (c : Capture) : Capture := mkCapture (cp_request c) (cp_tab c) false (cp_handoff c) (cp_buffer c).

Definition stopTerminalWarmupCapture (tabId : string) (s : Steps) : Steps :=
  match sm_stops s !! tabId with
  | Some request => set_captures (map_capture request stop_capture (sm_captures s)) (delete tabId (sm_stops s)) s
  | None => s
  end.

(** The listener of a request, and [setTerminalWarmupCaptureStop] with its stop. *)
Definition start_capture (tabId : string) (request : nat) (s : Steps) : Steps :=
  let s := stopTerminalWarmupCapture tabId s in
  set_captures (sm_captures s ++ [mkCapture request tabId true false []]) (<[tabId := request]> (sm_stops s)) s.

Definition hand_over (request : nat) (s : Steps) : Steps :=
  set_captures (map_capture request (λ c, mkCapture (cp_request c) (cp_tab c) (cp_live c) true (cp_buffer c)) (sm_captures s))
    (sm_stops s) s.

Definition captured (request : nat) (s : Steps) : list Z :=
  from_option cp_buffer [] (js_find (λ c, cp_request c = request) (sm_captures s)).

(** Output of the backend, as each live listener gets it. *)
Definition hear (request : nat) (data : list Z) (s : Steps) (c : Capture) : Steps :=
  if decide (cp_request c = request ∧ cp_live c = true) then
    if cp_handoff c then appendTerminalWarmupOutput (cp_tab c) data s
    else set_captures (map_capture request (λ c, mkCapture (cp_request c) (cp_tab c) (cp_live c) (cp_handoff c) (cp_buffer c ++ data))
      (sm_captures s)) (sm_stops s) s
  else s.

Definition output_heard (request : nat) (data : list Z) (s : Steps) : Steps :=
  foldl (hear request data) s (sm_captures s).

(** ** Runs of a step *)

(** [!step.temporary] and [temporaryContextRef] decide which calls are made. *)
Definition temporary_ref (step : ConnectionStepState) : option string :=
  if cs_temporary step then cs_temporaryContextRef step ||? None else None.

(** The connect or test call, after the listener is there. *)
Definition connect_call (r : StepRun) (step running : ConnectionStepState) (s : Steps) : Steps :=
  let credential := buildRuntimeCredentialRequest (sp_id (cs_connection step)) (sc_runtimeCredentials (cs_secrets step)) in
  match cs_mode step with
  | StepTest => await r (RunTest step running) (call_log [CallTest credential] s)
  | StepTerminal =>
      await r (RunConnect step running)
        (call_log [match temporary_ref step with
          | Some contextRef => CallConnectTemporary contextRef (run_id r)
          | None => CallConnect (sp_profile (cs_connection step)) credential (run_id r)
          end] s)
  end.

(** From the credentials on. *)
Definition listen_or_test (r : StepRun) (step running : ConnectionStepState) (s : Steps) : Steps :=
  match cs_mode step with
  | StepTerminal => await r (RunListen step running) (call_log [CallListen (run_id r)] s)
  | StepTest => connect_call r step running s
  end.

Definition running_step (step : ConnectionStepState) : ConnectionStepState :=
  let step := if cs_temporary step then with_secrets (clear_secrets (cs_secrets step)) step else step in
  with_outcome (plain_outcome (Some 1)
    (cs_logs step ++ [tr "workspace.connection.readConfig"; tr "workspace.connection.network"]) StRunning) step.

Definition only_if {A} (b : bool) (o : option A) : option A := if b then o else None.

(** [prepareTemporaryQuickConnectCredentials] *)
Definition prepare_call (contextRef : string) (step : ConnectionStepState) : StepCall :=
  let c := cs_secrets step in
  let with_password := bool_decide (sc_authKind c = AuthPassword) in
  CallPrepare contextRef (jp_username (sp_profile (cs_connection step))) (sc_authKind c)
    (only_if with_password (nonempty (sc_password c))) (only_if (negb with_password) (nonempty (sc_privateKeyPath c)))
    (only_if (negb with_password) (nonempty (sc_privateKeyPassphrase c))).

(** Past [updateConnectingTabStep]. *)
Definition run_shown (r : StepRun) (step running : ConnectionStepState) (s : Steps) : Steps :=
  match temporary_ref step, cs_temporaryCredentialsReady step with
  | Some contextRef, false => await r (RunPrepare step running) (call_log [prepare_call contextRef step] s)
  | _, _ => listen_or_test r step running s
  end.

Definition runConnectionStep (r : StepRun) (step : ConnectionStepState) (s : Steps) : Steps :=
  run_shown r step (running_step step) (updateConnectingTabStep (run_tab r) (running_step step) s).

(** A run that starts now; it waits for nothing yet. *)
Definition next_run (tabId : string) (step : ConnectionStepState) (s : Steps) : StepRun :=
  mkRun (sm_next s) tabId (sm_profiles s) (RunTrust (running_step step)).

Definition take_id (s : Steps) : Steps :=
  mkSteps (sm_tabs s) (sm_runs s) (S (sm_next s)) (sm_captures s) (sm_stops s) (sm_timers s) (sm_profiles s) (sm_sessions s)
    (sm_calls s).

Definition run_step (tabId : string) (step : ConnectionStepState) (s : Steps) : Steps :=
  runConnectionStep (next_run tabId step s) step (take_id s).

Definition new_step (connection : StepProfile) (mode : ConnectionStepMode) (now : Z) : ConnectionStepState :=
  let temporary := bool_decide (sp_created_at connection = "temporary") in
  mkStepState connection now mode temporary (if temporary then Some (sp_id connection) else None) false
    (plain_outcome None
      [match mode with StepTerminal => tr "workspace.connection.openTerminal" | StepTest => tr "workspace.connection.test" end
        +:+ "：" +:+ formatConnectionAddress connection]
      (if sp_prompts connection then StPrompt else StIdle))
    (mkSecrets (default AuthPassword (sp_prompt_auth_kind connection ?: sp_inline_auth_kind connection)) "" "" ""
      (if sp_prompts connection then Some (step_prompt_target connection) else None) []).

(** With its id and place in [reuse]; [activate] only moves the pointers. *)
Definition startConnectionStep (connection : StepProfile) (mode : ConnectionStepMode) (now : Z) (reuseTabId : option string)
    (s : Steps) : Steps :=
  match sp_protocol connection with
  | Some Rdp => call_log [CallOpenRdp (sp_id connection)] s
  | Some Vnc => call_log [CallOpenVnc (sp_id connection)] s
  | _ =>
      let step := new_step connection mode now in
      let existingTab := id ← (reuseTabId ||? None); js_find (λ tab, tb_id tab = id) (sm_tabs s) in
      let builtTab := buildConnectingTab (sm_tabs s) connection step in
      let tab :=
        match existingTab with
        | Some e => mkStepTab (tb_id e) (tb_connectionId builtTab) (tb_connectionStep builtTab) (tb_error builtTab) (tb_ordinal e)
            (tb_requestId builtTab) (tb_sessionId builtTab) (tb_status builtTab) (tb_temporaryContextRef builtTab)
            (tb_title builtTab) (tb_type builtTab) (tb_warmupOutput builtTab)
        | None => builtTab
        end in
      let s := set_tabs (match existingTab with
        | Some e => map_tab (tb_id e) (λ _, tab) (sm_tabs s)
        | None => sm_tabs s ++ [tab]
        end) s in
      if sp_prompts connection then s else run_step (tb_id tab) step s
  end.

(** [isSshConnection] *)
Definition step_is_ssh (p : StepProfile) : bool := bool_decide (default Ssh (sp_protocol p) = Ssh).

Definition retryRestoredSshTab (tabId : string) (now : Z) (s : Steps) : Steps :=
  match js_find (λ tab, tb_id tab = tabId) (sm_tabs s) with
  | None => s
  | Some tab =>
      match (p ← jsmap_get (tb_connectionId tab) (sm_profiles s); if step_is_ssh p then Some p else None) with
      | Some connection => startConnectionStep connection StepTerminal now (Some (tb_id tab)) s
      | None =>
          set_tabs (map_tab tabId (λ tab, mkStepTab (tb_id tab) (tb_connectionId tab) (tb_connectionStep tab)
            (Some (tr "workspace.savedSshMissing")) (tb_ordinal tab) (tb_requestId tab) (tb_sessionId tab) failed_text
            (tb_temporaryContextRef tab) (tb_title tab) (tb_type tab) (tb_warmupOutput tab)) (sm_tabs s)) s
      end
  end.

(** ** How a run ends *)

(** [{...runningStep, ...}] of the error that a run ended with. *)
Definition host_key_step (running : ConnectionStepState) (detail : ConnectionStepErrorDetail) (parsed : ParsedHostKeyError) :
    ConnectionStepState :=
  with_outcome (mkOutcome (so_activeStepIndex (cs_outcome running)) (Some detail) (Some (ed_message detail))
    (Some (ph_hostKey parsed)) (Some (ph_decision parsed)) (ph_oldFingerprint parsed)
    (cs_logs running ++ [tr "workspace.connection.waitHostKey"]) StWaitingHostKey) running.

Definition prompt_step (running : ConnectionStepState) (detail : ConnectionStepErrorDetail) (target : CredentialPromptTarget)
    (key : string) : ConnectionStepState :=
  let o := cs_outcome running in
  with_secrets (mkSecrets (ct_authKind target) "" "" "" (Some target) (sc_runtimeCredentials (cs_secrets running)))
    (with_outcome (mkOutcome (so_activeStepIndex o) (Some detail) (Some (ed_message detail)) (so_hostKey o) (so_hostKeyDecision o)
      (so_oldHostKeyFingerprint o) (cs_logs running ++ [trn key (target_name target)]) StPrompt) running).

Definition error_step (running : ConnectionStepState) (detail : ConnectionStepErrorDetail) : ConnectionStepState :=
  let o := cs_outcome running in
  with_outcome (mkOutcome (so_activeStepIndex o) (Some detail) (Some (ed_message detail)) (so_hostKey o) (so_hostKeyDecision o)
    (so_oldHostKeyFingerprint o) (appendUniqueLogs (cs_logs running) [ed_message detail; ed_rawMessage detail]) StError) running.

Definition named_detail (label : string) (detail : ConnectionStepErrorDetail) : ConnectionStepErrorDetail :=
  if truthy (Some label) then
    mkErrorDetail (ed_code detail) (label +:+ "：" +:+ ed_message detail) (ed_rawMessage detail) (ed_recoverable detail)
      (ed_stage detail) (ed_suggestion detail)
  else detail.

Definition profile_name (profiles : jsmap StepProfile) (id : string) : option string :=
  p ← jsmap_get id profiles; jp_name (sp_profile p).

(** The step that is shown after an error. *)
Definition failed_step (profiles : jsmap StepProfile) (step running : ConnectionStepState) (error : json) : ConnectionStepState :=
  let detail := describeConnectionStepError tr diagnostic show error in
  match parseHostKeyError (Some error) with
  | Some parsed => host_key_step running detail parsed
  | None =>
      match parseCredentialPromptTarget (Some error) with
      | Some requested =>
          let target := mkPromptTarget (ct_authKind requested) (ct_connectionId requested) (ct_host requested)
            (profile_name profiles (ct_connectionId requested)) (ct_port requested) (ct_username requested) in
          prompt_step running detail target "workspace.connection.waitCredentials"
      | None =>
          let nodeFailure := parseSshNodeFailure (Some error) in
          let retryProfile :=
            match (f ← nodeFailure; if decide (nf_stage f = "auth") then Some f else None) with
            | Some f => jsmap_get (nf_connectionId f) profiles
            | None => if sp_prompts (cs_connection step) && bool_decide (connectionStepErrorIndex (ed_code detail) = 3)
                      then Some (cs_connection step) else None
            end in
          match (p ← retryProfile; if sp_prompts p then Some p else None) with
          | Some p => prompt_step running detail (step_prompt_target p) "workspace.connection.authRetry"
          | None =>
              let label := match nodeFailure with
                | Some f => default (nf_connectionId f) (profile_name profiles (nf_connectionId f) ||? None)
                | None => "" end in
              error_step running (named_detail label detail)
          end
      end
  end.

Definition fail_run (r : StepRun) (step running : ConnectionStepState) (error : json) (s : Steps) : Steps :=
  let s := stopTerminalWarmupCapture (run_tab r) s in
  if connectingTabExists (run_tab r) s
  then updateConnectingTabStep (run_tab r) (failed_step (run_profiles r) step running error) s else s.

(** [knownHostTrust] failed. *)
Definition fail_trust (r : StepRun) (next : ConnectionStepState) (error : json) (s : Steps) : Steps :=
  if connectingTabExists (run_tab r) s
  then updateConnectingTabStep (run_tab r) (error_step next (describeConnectionStepError tr diagnostic show error)) s else s.

Definition test_passed (running : ConnectionStepState) : ConnectionStepState :=
  let o := cs_outcome running in
  with_outcome (plain_outcome (so_activeStepIndex o)
    (so_logs o ++ [tr "workspace.connection.authPassed"; tr "workspace.connection.testPassed"]) StSuccess) running.

Definition settle_test (r : StepRun) (step running : ConnectionStepState) (s : Steps) : Steps :=
  if connectingTabExists (run_tab r) s then
    updateConnectingTabStep (run_tab r) (test_passed running)
      (call_log [CallProbe (buildRuntimeCredentialRequest (sp_id (cs_connection step)) (sc_runtimeCredentials (cs_secrets step)))] s)
  else s.

Definition settle_connect (r : StepRun) (step : ConnectionStepState) (sessionId : string) (s : Steps) : Steps :=
  let s := returned sessionId s in
  if connectingTabExists (run_tab r) s then
    let s := if cs_temporary step then s else call_log [CallRefresh (sp_id (cs_connection step))] s in
    let s := hand_over (run_id r) s in
    let s := replaceConnectingTabWithTerminal (run_tab r) sessionId (captured (run_id r) s) (run_id r) s in
    set_timers (sm_timers s ++ [run_tab r]) s
  else call_log [CallClose sessionId] (stopTerminalWarmupCapture (run_tab r) s).

(** ** Direct terminals *)

Definition direct_shown (error : option string) (request : nat) (sessionId : option string) (status : string)
    (warmupOutput : list Z) (tab : StepTab) : StepTab :=
  mkStepTab (tb_id tab) (tb_connectionId tab) (tb_connectionStep tab) error (tb_ordinal tab) (Some request) sessionId status
    (tb_temporaryContextRef tab) (tb_title tab) (tb_type tab) warmupOutput.

Definition settle_direct (r : StepRun) (d : DirectTerminal) (sessionId : string) (s : Steps) : Steps :=
  let s := returned sessionId s in
  if terminalTabExists (run_tab r) s then
    let s := hand_over (dr_request d) s in
    let s := set_tabs (map_tab (run_tab r) (direct_shown None (dr_request d) (Some sessionId) connected_text (captured (dr_request d) s))
      (sm_tabs s)) s in
    let s := call_log (CallRefresh (sp_id (dr_connection d)) ::
      match dr_command d ||? None with Some command => [CallWrite sessionId command] | None => [] end) s in
    set_timers (sm_timers s ++ [run_tab r]) s
  else call_log [CallClose sessionId] (stopTerminalWarmupCapture (run_tab r) s).

(** The request id of a tab whose direct run failed stays the one it had. *)
Definition fail_direct (r : StepRun) (d : DirectTerminal) (error : json) (s : Steps) : Steps :=
  let s := stopTerminalWarmupCapture (run_tab r) s in
  if terminalTabExists (run_tab r) s then
    set_tabs (map_tab (run_tab r) (λ tab, mkStepTab (tb_id tab) (tb_connectionId tab) (tb_connectionStep tab)
      (Some (formatError show error)) (tb_ordinal tab) (tb_requestId tab) None failed_text (tb_temporaryContextRef tab)
      (tb_title tab) (tb_type tab) (captured (dr_request d) s)) (sm_tabs s)) s
  else s.

(** [openTerminalInConnection] and [openDockerContainerTerminal] *)
Definition openDirectTerminal (connection : StepProfile) (title command : option string) (nonce : string) (s : Steps) : Steps :=
  let request := sm_next s in
  let tab := buildDirectTerminalTab (sm_tabs s) connection title nonce request in
  launch (tb_id tab) (sm_profiles s) (RunDirectListen (mkDirect connection request command))
    (call_log [CallListen request] (set_tabs (sm_tabs s ++ [tab]) s)).

(** The write of the first command failed. *)
Definition write_failed (tabId : string) (error : json) (s : Steps) : Steps :=
  set_tabs (map_tab tabId (λ tab, mkStepTab (tb_id tab) (tb_connectionId tab) (tb_connectionStep tab)
    (Some (trn "workspace.command.sendFailed" (formatError show error))) (tb_ordinal tab) (tb_requestId tab) (tb_sessionId tab)
    (tb_status tab) (tb_temporaryContextRef tab) (tb_title tab) (tb_type tab) (tb_warmupOutput tab)) (sm_tabs s)) s.

(** ** Commands of the panel *)

Definition resetConnectionStepForRetry (step : ConnectionStepState) : ConnectionStepState :=
  with_outcome (plain_outcome (Some 1)
    (match cs_logs step with line :: _ => if truthy (Some line) then [line] else [] | [] => [] end) StIdle) step.

Definition retryConnectionStep (tabId : string) (step : ConnectionStepState) (s : Steps) : Steps :=
  if cs_temporary step && isQuickConnectCredentialError (ed_code <$> so_errorDetail (cs_outcome step)) then
    let reset := resetConnectionStepForRetry step in
    updateConnectingTabStep tabId
      (with_ready false (with_outcome (plain_outcome (Some 1) (cs_logs reset) StPrompt) reset)) s
  else run_step tabId (resetConnectionStepForRetry step) s.

Definition trusted_step (step : ConnectionStepState) : ConnectionStepState :=
  with_outcome (add_log (if decide (so_hostKeyDecision (cs_outcome step) = Some KeyChanged)
    then tr "workspace.connection.trustUpdated" else tr "workspace.connection.trusted") StRunning (cs_outcome step)) step.

Definition trustHostKeyAndRetry (tabId : string) (step : ConnectionStepState) (s : Steps) : Steps :=
  match so_hostKey (cs_outcome step) with
  | None => s
  | Some hostKey =>
      let next := trusted_step step in
      launch tabId (sm_profiles s) (RunTrust next) (call_log [CallTrust hostKey] (updateConnectingTabStep tabId next s))
  end.

Definition submitted_step (step : ConnectionStepState) : ConnectionStepState :=
  let c := cs_secrets step in
  let id := default (sp_id (cs_connection step)) ((ct_connectionId <$> sc_promptTarget c) ||? None) in
  with_outcome (add_log (tr "workspace.connection.credentialsEntered") (cs_status step) (cs_outcome step))
    (with_secrets (mkSecrets (sc_authKind c) (sc_password c) (sc_privateKeyPassphrase c) (sc_privateKeyPath c) (sc_promptTarget c)
      (upsertRuntimeCredential (sc_runtimeCredentials c) id (sc_authKind c) (sc_password c) (sc_privateKeyPath c)
        (sc_privateKeyPassphrase c))) step).

Definition submitPromptCredential (tabId : string) (step : ConnectionStepState) (s : Steps) : Steps :=
  run_step tabId (submitted_step step) s.

(** What is typed into the form of a prompt. *)
Inductive PromptEdit :=
  | EditUsername (username : string)
  | EditAuthKind (kind : ConnectionAuthKind)
  | EditPassword (password : string)
  | EditPrivateKeyPath (path : string)
  | EditPassphrase (passphrase : string).

Definition with_username (username : string) (p : StepProfile) : StepProfile :=
  let c := sp_profile p in
  mkStepProfile (mkJumpProfile (jp_id c) (jp_name c) (jp_host c) (jp_port c) username (jp_jump c)) (sp_protocol p)
    (sp_serial_port p) (sp_credential_mode p) (sp_prompt_auth_kind p) (sp_inline_auth_kind p) (sp_created_at p).

Definition edited_step (edit : PromptEdit) (step : ConnectionStepState) : ConnectionStepState :=
  let c := cs_secrets step in
  match edit with
  | EditUsername username => with_connection (with_username username (cs_connection step)) step
  | EditAuthKind kind => with_secrets (mkSecrets kind "" (sc_privateKeyPassphrase c) "" (sc_promptTarget c) (sc_runtimeCredentials c)) step
  | EditPassword password =>
      with_secrets (mkSecrets (sc_authKind c) password (sc_privateKeyPassphrase c) (sc_privateKeyPath c) (sc_promptTarget c)
        (sc_runtimeCredentials c)) step
  | EditPrivateKeyPath path =>
      with_secrets (mkSecrets (sc_authKind c) (sc_password c) (sc_privateKeyPassphrase c) path (sc_promptTarget c)
        (sc_runtimeCredentials c)) step
  | EditPassphrase passphrase =>
      with_secrets (mkSecrets (sc_authKind c) (sc_password c) passphrase (sc_privateKeyPath c) (sc_promptTarget c)
        (sc_runtimeCredentials c)) step
  end.

(** [closeRuntimeTerminalSessions] *)
Definition closing_sessions (tabs : list StepTab) : list string :=
  remove_dups (omap (λ tab, tb_sessionId tab ||? None) tabs).

(** The part of [closeTerminalTabs] that concerns the tabs and their sessions. *)
Definition close_tabs (tabIds : list string) (s : Steps) : Steps :=
  let closingTabs := filter (λ tab, tb_id tab ∈ tabIds) (sm_tabs s) in
  let s := foldl (λ s tab, stopTerminalWarmupCapture (tb_id tab) s) s closingTabs in
  let s := call_log (CallClose <$> closing_sessions closingTabs) s in
  set_tabs (filter (λ tab, tb_id tab ∉ tabIds) (sm_tabs s)) s.

(** ** Events *)

Inductive StepAnswer := AnsDone | AnsSession (sessionId : string) | AnsError (error : json).

(** The next part of a run; it is not in flight meanwhile. An answer of the wrong kind is
    none. *)
Definition settle_run (r : StepRun) (answer : StepAnswer) (s : Steps) : Steps :=
  match run_phase r, answer with
  | RunTrust next, AnsDone => runConnectionStep r next s
  | RunTrust next, AnsError error => fail_trust r next error s
  | RunPrepare step running, AnsDone =>
      let running := with_ready true running in
      listen_or_test r step running (updateConnectingTabStep (run_tab r) running s)
  | RunListen step running, AnsDone => connect_call r step running (start_capture (run_tab r) (run_id r) s)
  | RunTest step running, AnsDone => settle_test r step running s
  | RunConnect step running, AnsSession sessionId => settle_connect r step sessionId s
  | RunDirectListen d, AnsDone =>
      await r (RunDirectConnect d)
        (call_log [CallConnectDirect (sp_profile (dr_connection d)) (dr_request d)] (start_capture (run_tab r) (dr_request d) s))
  | RunDirectConnect d, AnsSession sessionId => settle_direct r d sessionId s
  | (RunPrepare step running | RunListen step running | RunTest step running | RunConnect step running), AnsError error =>
      fail_run r step running error s
  | (RunDirectListen d | RunDirectConnect d), AnsError error => fail_direct r d error s
  | phase, _ => await r phase s
  end.

Inductive StepEvent :=
  | EvStart (connection : StepProfile) (mode : ConnectionStepMode) (now : Z)
  | EvDirect (connection : StepProfile) (title command : option string) (nonce : string)
  | EvRetryRestored (tabId : string) (now : Z)
  | EvRetry (tabId : string)
  | EvTrust (tabId : string)
  | EvSubmit (tabId : string)
  | EvEdit (tabId : string) (edit : PromptEdit)
  | EvClose (tabIds : list string)
  | EvSettled (run : nat) (answer : StepAnswer)
  | EvOutput (request : nat) (data : list Z)
  | EvTimer (tabId : string)
  | EvPanelReady (tabId : string)
  | EvWriteFailed (tabId : string) (error : json)
  | EvProfiles (profiles : jsmap StepProfile).

(** The step of a tab whose panel is shown, and its status. *)
Definition shown_step (tabId : string) (status : ConnectionStepStatus) (s : Steps) : option ConnectionStepState :=
  tab ← js_find (λ tab, tb_id tab = tabId ∧ tb_type tab = TabConnecting) (sm_tabs s);
  step ← tb_connectionStep tab; if decide (cs_status step = status) then Some step else None.

Definition on_step (tabId : string) (status : ConnectionStepStatus) (f : ConnectionStepState → Steps → Steps) (s : Steps) : Steps :=
  match shown_step tabId status s with Some step => f step s | None => s end.

(** A terminal without a session shows the button that retries when it failed. *)
Definition shows_retry (tabId : string) (s : Steps) : bool :=
  match js_find (λ tab, tb_id tab = tabId) (sm_tabs s) with
  | Some tab => bool_decide (tb_type tab = TabTerminal) && negb (truthy (tb_sessionId tab)) && String.eqb (tb_status tab) failed_text
  | None => false
  end.

Definition panel_shown (tabId : string) (s : Steps) : bool :=
  match js_find (λ tab, tb_id tab = tabId) (sm_tabs s) with
  | Some tab => bool_decide (tb_type tab = TabTerminal) && truthy (tb_sessionId tab)
  | None => false
  end.

Definition steps_step (s : Steps) (e : StepEvent) : Steps :=
  match e with
  | EvStart connection mode now => startConnectionStep connection mode now None s
  | EvDirect connection title command nonce => openDirectTerminal connection title command nonce s
  | EvRetryRestored tabId now => if shows_retry tabId s then retryRestoredSshTab tabId now s else s
  | EvRetry tabId => on_step tabId StError (retryConnectionStep tabId) s
  | EvTrust tabId => on_step tabId StWaitingHostKey (trustHostKeyAndRetry tabId) s
  | EvSubmit tabId => on_step tabId StPrompt (submitPromptCredential tabId) s
  | EvEdit tabId edit => on_step tabId StPrompt (λ step, updateConnectingTabStep tabId (edited_step edit step)) s
  | EvClose tabIds => close_tabs tabIds s
  | EvSettled run answer =>
      match js_find (λ r, run_id r = run) (sm_runs s) with
      | Some r => settle_run r answer (set_runs (filter (λ r, run_id r ≠ run) (sm_runs s)) s)
      | None => s
      end
  | EvOutput request data => output_heard request data s
  | EvTimer tabId =>
      match list_find (eq tabId) (sm_timers s) with
      | Some (i, _) => stopTerminalWarmupCapture tabId (set_timers (delete i (sm_timers s)) s)
      | None => s
      end
  | EvPanelReady tabId => if panel_shown tabId s then stopTerminalWarmupCapture tabId s else s
  | EvWriteFailed tabId error => if panel_shown tabId s then write_failed tabId error s else s
  | EvProfiles profiles =>
      mkSteps (sm_tabs s) (sm_runs s) (sm_next s) (sm_captures s) (sm_stops s) (sm_timers s) profiles (sm_sessions s) (sm_calls s)
  end.

Definition steps_run (s : Steps) (events : list StepEvent) : Steps := foldl steps_step s events.

(** The tabs of a restored workspace. *)
Definition initialSteps (tabs : list StepTab) (profiles : jsmap StepProfile) : Steps :=
  mkSteps tabs [] 0 [] ∅ [] profiles [] [].

#[local] Arguments map_capture _ _ _ : simpl never.
#[local] Arguments map_tab _ _ _ : simpl never.
#[local] Arguments js_find : simpl never.

(** ** The invariant

    Of the tabs with the runs, of the captures, and of the sessions. While a run settles it
    is not in flight, so the list of runs is given: the ones in flight and that one. *)

(** The fields of the form. What was submitted is in [sc_runtimeCredentials]. *)
Definition form_empty (c : StepSecrets) : Prop :=
  sc_password c = "" ∧ sc_privateKeyPassphrase c = "" ∧ sc_privateKeyPath c = "".

(** The form of a temporary connection is filled only while it is typed into. *)
Definition step_ok (step : ConnectionStepState) : Prop :=
  cs_temporary step = true → cs_status step ≠ StPrompt → form_empty (cs_secrets step).

Definition tab_ok (tab : StepTab) : Prop :=
  match tb_type tab with
  | TabConnecting => tb_sessionId tab = None ∧ ∃ step, tb_connectionStep tab = Some step ∧ step_ok step
  | TabTerminal => tb_connectionStep tab = None ∧ (tb_status tab = connecting_text → tb_sessionId tab = None)
  end.

(** Whether a tab shows that something runs: a step, or a direct terminal. *)
Definition busy (tab : StepTab) : option bool :=
  match tb_type tab with
  | TabConnecting =>
      match cs_status <$> tb_connectionStep tab with Some StRunning | Some StIdle => Some true | _ => None end
  | TabTerminal => if String.eqb (tb_status tab) connecting_text then Some false else None
  end.

Definition run_kind (r : StepRun) : bool :=
  match run_phase r with RunDirectListen _ | RunDirectConnect _ => false | _ => true end.

Definition shows_run (step : ConnectionStepState) : Prop := cs_status step = StRunning ∧ step_ok step.

Definition run_ok (r : StepRun) : Prop :=
  match run_phase r with
  | RunTrust next => shows_run next
  | RunListen step running => shows_run running ∧ cs_mode step = StepTerminal
  | RunPrepare _ running | RunTest _ running | RunConnect _ running => shows_run running
  | RunDirectListen d | RunDirectConnect d => dr_request d = run_id r
  end.

Record runs_inv (tabs : list StepTab) (R : list StepRun) (next : nat) : Prop := {
  ri_ids : NoDup (tb_id <$> tabs);
  ri_tabs : ∀ tab, tab ∈ tabs → tab_ok tab;
  ri_run_tabs : NoDup (run_tab <$> R);
  ri_run_ids : NoDup (run_id <$> R);
  ri_runs : ∀ r, r ∈ R → run_id r < next ∧ run_ok r;
  ri_busy : ∀ tab k, tab ∈ tabs → busy tab = Some k ↔ ∃ r, r ∈ R ∧ run_tab r = tb_id tab ∧ run_kind r = k;
}.

(** Before its listener is there, a run has no capture; a test never has one. *)
Definition before_capture (phase : RunPhase) : bool :=
  match phase with RunTrust _ | RunPrepare _ _ | RunListen _ _ | RunTest _ _ | RunDirectListen _ => true | _ => false end.

Definition connected (tab : StepTab) : Prop :=
  tb_type tab = TabTerminal ∧ tb_status tab ≠ failed_text ∧ is_Some (tb_sessionId tab).

Record caps_inv (tabs : list StepTab) (R : list StepRun) (next : nat) (captures : list Capture) (stops : gmap string nat)
    (timers : list string) : Prop := {
  ci_requests : NoDup (cp_request <$> captures);
  ci_below : ∀ c, c ∈ captures → cp_request c < next;
  ci_before : ∀ r c, r ∈ R → before_capture (run_phase r) = true → c ∈ captures → cp_request c ≠ run_id r;
  ci_live : ∀ c, c ∈ captures → cp_live c = true → stops !! cp_tab c = Some (cp_request c);
  ci_waiting : ∀ c, c ∈ captures → cp_live c = true → cp_handoff c = false →
    ∃ r, r ∈ R ∧ run_id r = cp_request c ∧ run_tab r = cp_tab c;
  ci_handed : ∀ c, c ∈ captures → cp_live c = true → cp_handoff c = true →
    cp_tab c ∈ timers ∧ ∃ tab, tab ∈ tabs ∧ tb_id tab = cp_tab c ∧ connected tab;
}.

(** Every session that a call returned is that of a tab, or was closed. *)
Definition sessions_inv (tabs : list StepTab) (sessions : list string) (calls : list StepCall) : Prop :=
  ∀ sid, sid ∈ sessions → sid ≠ "" →
    (∃ tab, tab ∈ tabs ∧ tb_type tab = TabTerminal ∧ tb_sessionId tab = Some sid) ∨ CallClose sid ∈ calls.

Definition inv (R : list StepRun) (s : Steps) : Prop :=
  runs_inv (sm_tabs s) R (sm_next s) ∧
  caps_inv (sm_tabs s) R (sm_next s) (sm_captures s) (sm_stops s) (sm_timers s) ∧
  sessions_inv (sm_tabs s) (sm_sessions s) (sm_calls s).

(** *** Tabs *)

Lemma elem_of_map_tab t f tabs tab : tab ∈ map_tab t f tabs →
  ∃ tab0, tab0 ∈ tabs ∧ ((tb_id tab0 = t ∧ tab = f tab0) ∨ (tb_id tab0 ≠ t ∧ tab = tab0)).
Proof.
  unfold map_tab. rewrite list_elem_of_fmap. intros (tab0 & -> & H). exists tab0. split; [done|]. case_decide; [by left|by right].
Qed.

Lemma map_tab_elem t f tabs tab : tab ∈ tabs → (if decide (tb_id tab = t) then f tab else tab) ∈ map_tab t f tabs.
Proof. intros H. unfold map_tab. apply list_elem_of_fmap. by exists tab. Qed.

Lemma map_tab_ids t f tabs : (∀ tab, tab ∈ tabs → tb_id tab = t → tb_id (f tab) = t) →
  tb_id <$> map_tab t f tabs = tb_id <$> tabs.
Proof.
  intros H. unfold map_tab. rewrite <- list_fmap_compose. apply list_fmap_ext. intros i tab Hi. cbn.
  case_decide as E; [|done]. rewrite E. apply H; [by eapply list_elem_of_lookup_2|done].
Qed.

Lemma map_tab_id t f tabs : (∀ tab, tab ∈ tabs → tb_id tab ≠ t) → map_tab t f tabs = tabs.
Proof.
  intros H. unfold map_tab. rewrite <- (list_fmap_id tabs) at 2. apply list_fmap_ext. intros i tab Hi.
  rewrite decide_False; [done|]. apply H. by eapply list_elem_of_lookup_2.
Qed.

(** *** Runs *)

(** A tab and the runs change together; the tabs with other ids see the same runs. *)
Lemma runs_change tabs R next t f R' next' :
  runs_inv tabs R next →
  NoDup (run_tab <$> R') → NoDup (run_id <$> R') → (∀ r, r ∈ R' → run_id r < next' ∧ run_ok r) →
  (∀ r, run_tab r ≠ t → r ∈ R' ↔ r ∈ R) →
  (∀ tab, tab ∈ tabs → tb_id tab = t → tb_id (f tab) = t ∧ tab_ok (f tab) ∧
    ∀ k, busy (f tab) = Some k ↔ ∃ r, r ∈ R' ∧ run_tab r = t ∧ run_kind r = k) →
  runs_inv (map_tab t f tabs) R' next'.
Proof.
  intros [Hid Ht _ _ _ Hb] H1 H2 H3 Hr Hf. split; [|..|done|done|done|].
  - rewrite map_tab_ids; [done|]. intros tab Hin E. by apply Hf.
  - intros tab (tab0 & Hin & [[E ->]|[E ->]])%elem_of_map_tab; [by apply Hf|by apply Ht].
  - intros tab k (tab0 & Hin & [[E ->]|[E ->]])%elem_of_map_tab.
    + destruct (Hf _ Hin E) as (-> & _ & Hk). apply Hk.
    + rewrite (Hb _ k Hin). split; intros (r & Hr1 & Hr2 & Hr3); exists r; (split; [|done]);
        [by apply Hr; [congruence|]|by apply Hr in Hr1; [|congruence]].
Qed.

(** The tab of a run shows that something else than the run is the matter: it is over. *)
Lemma runs_leave tabs r R next f :
  runs_inv tabs (r :: R) next →
  (∀ tab, tab ∈ tabs → tb_id tab = run_tab r → busy tab = Some (run_kind r) →
    tb_id (f tab) = tb_id tab ∧ tab_ok (f tab) ∧ busy (f tab) = None) →
  runs_inv (map_tab (run_tab r) f tabs) R next.
Proof.
  intros H Hf. assert (Hb := ri_busy _ _ _ H). pose proof (ri_run_tabs _ _ _ H) as Hnd. pose proof (ri_run_ids _ _ _ H) as Hnd2.
  cbn in Hnd, Hnd2. apply NoDup_cons in Hnd as [Hr Hnd], Hnd2 as [_ Hnd2].
  eapply (runs_change _ _ _ _ _ _ _ H); [done|done| | |].
  - intros r' Hr'. apply (ri_runs _ _ _ H). by right.
  - intros r' Hne. split; [by right|]. by intros [->|?]%elem_of_cons.
  - intros tab Hin E. destruct (Hf _ Hin E) as (H1 & H2 & H3).
    { apply Hb; [done|]. exists r. split; [left|done]. }
    split_and!; [congruence|done|]. intros k. rewrite H3. split; [done|]. intros (r' & Hr' & Ht & _). destruct Hr.
    rewrite <- Ht. by apply list_elem_of_fmap_2.
Qed.

(** The same when the tab was closed. *)
Lemma runs_leave_closed tabs r R next :
  runs_inv tabs (r :: R) next → (∀ tab, tab ∈ tabs → tb_id tab ≠ run_tab r) → runs_inv tabs R next.
Proof.
  intros H Hc. rewrite <- (map_tab_id (run_tab r) id tabs Hc). apply (runs_leave _ _ _ _ _ H).
  intros tab Hin E. by destruct (Hc _ Hin).
Qed.

(** The run goes on, and its tab still shows it. *)
Lemma runs_go_on tabs r r' R next f :
  runs_inv tabs (r :: R) next → run_id r' = run_id r → run_tab r' = run_tab r → run_kind r' = run_kind r → run_ok r' →
  (∀ tab, tab ∈ tabs → tb_id tab = run_tab r → busy tab = Some (run_kind r) → tab_ok tab →
    tb_id (f tab) = tb_id tab ∧ tab_ok (f tab) ∧ busy (f tab) = Some (run_kind r)) →
  runs_inv (map_tab (run_tab r) f tabs) (r' :: R) next.
Proof.
  intros H Ei Et Ek Hok Hf. assert (Hb := ri_busy _ _ _ H). assert (Hruns := ri_runs _ _ _ H).
  pose proof (ri_run_tabs _ _ _ H) as Hnd. pose proof (ri_run_ids _ _ _ H) as Hnd2. cbn in Hnd, Hnd2.
  eapply (runs_change _ _ _ _ _ _ _ H); [by rewrite fmap_cons, Et|by rewrite fmap_cons, Ei| | |].
  - intros r0 [->|Hr]%elem_of_cons; [|by apply Hruns; right]. rewrite Ei. split; [|done]. apply Hruns. left.
  - intros r0 Hne. rewrite !elem_of_cons. split; (intros [->|?]; [congruence|by right]).
  - intros tab Hin E. destruct (Hf _ Hin E) as (H1 & H2 & H3).
    { apply Hb; [done|]. exists r. split; [left|done]. }
    { by apply (ri_tabs _ _ _ H). }
    split_and!; [congruence|done|]. intros k. rewrite H3. split.
    + intros [= <-]. exists r'. split; [left|done].
    + intros (r0 & [->|Hr0]%elem_of_cons & Ht & <-); [by rewrite Ek|]. apply NoDup_cons in Hnd as [Hnd _]. destruct Hnd.
      rewrite <- Ht. by apply list_elem_of_fmap_2.
Qed.

(** A tab that showed nothing starts a run. *)
Lemma runs_start tabs R next t f r :
  runs_inv tabs R next → run_id r = next → run_tab r = t → run_ok r →
  (∃ tab, tab ∈ tabs ∧ tb_id tab = t ∧ busy tab = None) →
  (∀ tab, tab ∈ tabs → tb_id tab = t → tab_ok tab → tb_id (f tab) = tb_id tab ∧ tab_ok (f tab) ∧ busy (f tab) = Some (run_kind r)) →
  runs_inv (map_tab t f tabs) (r :: R) (S next).
Proof.
  intros H Ei Et Hok (tab0 & Hin0 & E0 & Hb0) Hf. assert (Hb := ri_busy _ _ _ H). assert (Hruns := ri_runs _ _ _ H).
  assert (∀ r', r' ∈ R → run_tab r' ≠ t) as Hfree.
  { intros r' Hr' Ht. assert (busy tab0 = Some (run_kind r')) as Hbad; [|by rewrite Hb0 in Hbad].
    apply Hb; [done|]. exists r'. by rewrite E0. }
  eapply (runs_change _ _ _ _ _ _ _ H).
  - rewrite fmap_cons. apply NoDup_cons. split; [|apply (ri_run_tabs _ _ _ H)].
    rewrite Et. intros (r' & Ht & Hr')%list_elem_of_fmap. by apply (Hfree r').
  - rewrite fmap_cons. apply NoDup_cons. split; [|apply (ri_run_ids _ _ _ H)].
    rewrite Ei. intros (r' & Ht & Hr')%list_elem_of_fmap. destruct (Hruns _ Hr'). lia.
  - intros r' [->|Hr']%elem_of_cons; [split; [lia|done]|]. destruct (Hruns _ Hr'). split; [lia|done].
  - intros r' Hne. rewrite elem_of_cons. split; [by intros [->|?]|by right].
  - intros tab Hin E. destruct (Hf _ Hin E) as (H1 & H2 & H3); [by apply (ri_tabs _ _ _ H)|].
    split_and!; [congruence|done|]. intros k. rewrite H3. split.
    + intros [= <-]. exists r. split; [left|done].
    + intros (r' & [->|Hr']%elem_of_cons & Ht & <-); [done|]. by destruct (Hfree r').
Qed.

(** A new tab, with its run or without one. *)
Lemma runs_add_tab tabs R next tab :
  runs_inv tabs R next → (∀ tab', tab' ∈ tabs → tb_id tab' ≠ tb_id tab) → (∀ r, r ∈ R → run_tab r ≠ tb_id tab) →
  tab_ok tab → busy tab = None → runs_inv (tabs ++ [tab]) R next.
Proof.
  intros [Hid Ht Hrt Hri Hr Hb] Hn Hnr Hok Hbusy. split; [| |done..|].
  - rewrite fmap_app. apply NoDup_app. split_and!; [done| |apply NoDup_singleton].
    intros x (tab' & -> & Hin)%list_elem_of_fmap. cbn. intros E%list_elem_of_singleton. by apply (Hn tab').
  - intros tab' [Hin| ->%list_elem_of_singleton]%elem_of_app; [by apply Ht|done].
  - intros tab' k [Hin| ->%list_elem_of_singleton]%elem_of_app; [by apply Hb|]. rewrite Hbusy.
    split; [done|]. intros (r & H1 & H2 & _). by destruct (Hnr r).
Qed.

Lemma runs_add_run tabs R next tab r :
  runs_inv tabs R next → (∀ tab', tab' ∈ tabs → tb_id tab' ≠ tb_id tab) → (∀ r, r ∈ R → run_tab r ≠ tb_id tab) →
  tab_ok tab → busy tab = Some (run_kind r) → run_tab r = tb_id tab → run_id r = next → run_ok r →
  runs_inv (tabs ++ [tab]) (r :: R) (S next).
Proof.
  intros [Hid Ht Hrt Hri Hr Hb] Hn Hnr Hok Hbusy Et Ei Hrok. split.
  - rewrite fmap_app. apply NoDup_app. split_and!; [done| |apply NoDup_singleton].
    intros x (tab' & -> & Hin)%list_elem_of_fmap. cbn. intros E%list_elem_of_singleton. by apply (Hn tab').
  - intros tab' [Hin| ->%list_elem_of_singleton]%elem_of_app; [by apply Ht|done].
  - rewrite fmap_cons. apply NoDup_cons. split; [|done]. rewrite Et. intros (r' & E & Hr')%list_elem_of_fmap. by apply (Hnr r').
  - rewrite fmap_cons. apply NoDup_cons. split; [|done]. rewrite Ei. intros (r' & E & Hr')%list_elem_of_fmap.
    destruct (Hr _ Hr'). lia.
  - intros r' [->|Hr']%elem_of_cons; [split; [lia|done]|]. destruct (Hr _ Hr'). split; [lia|done].
  - intros tab' k [Hin| ->%list_elem_of_singleton]%elem_of_app.
    + rewrite (Hb _ _ Hin). split; intros (r' & H1 & H2 & H3); exists r'; (split; [|done]); [by right|].
      apply elem_of_cons in H1 as [->|?]; [|done]. destruct (Hn tab'); [done|congruence].
    + rewrite Hbusy. split; [intros [= <-]; exists r; split; [left|done]|].
      intros (r' & [->|Hr']%elem_of_cons & H2 & H3); [congruence|]. by destruct (Hnr r').
Qed.

Lemma runs_keep_tab tabs R next t f :
  runs_inv tabs R next →
  (∀ tab, tab ∈ tabs → tb_id tab = t → tab_ok tab → tb_id (f tab) = tb_id tab ∧ tab_ok (f tab) ∧ busy (f tab) = busy tab) →
  runs_inv (map_tab t f tabs) R next.
Proof.
  intros H Hf. destruct H as [Hid Ht Hrt Hri Hr Hb]. apply (runs_change tabs R next); [done..| |].
  - done.
  - intros tab Hin E. destruct (Hf _ Hin E) as (H1 & H2 & H3); [by apply Ht|]. split_and!; [congruence|done|].
    intros k. rewrite H3, <- E. by apply Hb.
Qed.

Lemma runs_filter_tabs (P : StepTab → Prop) `{!∀ x, Decision (P x)} tabs R next :
  runs_inv tabs R next → runs_inv (filter P tabs) R next.
Proof.
  intros [Hid Ht Hrt Hri Hr Hb]. split; [| |done..|].
  - eapply sublist_NoDup; [exact Hid|]. apply fmap_sublist, sublist_filter.
  - intros tab [_ Hin]%list_elem_of_filter. by apply Ht.
  - intros tab k [_ Hin]%list_elem_of_filter. by apply Hb.
Qed.

Lemma runs_perm tabs R R' next : R ≡ₚ R' → runs_inv tabs R next → runs_inv tabs R' next.
Proof.
  intros Hp [Hid Ht Hrt Hri Hr Hb]. split; [done|done|by rewrite <- Hp|by rewrite <- Hp| |].
  - intros r H. apply Hr. by rewrite Hp.
  - intros tab k Hin. rewrite (Hb _ _ Hin). by setoid_rewrite Hp.
Qed.

(** *** Captures *)

Definition no_live (t : string) (s : Steps) : Prop := ∀ c, c ∈ sm_captures s → cp_live c = true → cp_tab c ≠ t.

Lemma caps_map_tab tabs R next captures stops timers t f :
  caps_inv tabs R next captures stops timers →
  (∀ tab c, tab ∈ tabs → tb_id tab = t → c ∈ captures → cp_live c = true → cp_handoff c = true → cp_tab c = t → connected tab →
    tb_id (f tab) = t ∧ connected (f tab)) →
  caps_inv (map_tab t f tabs) R next captures stops timers.
Proof.
  intros [H1 H2 H3 H4 H5 H6] Hf. split; [done..|]. intros c Hc Hl Hh.
  destruct (H6 c Hc Hl Hh) as (Htm & tab & Hin & E & Hcon). split; [done|].
  exists (if decide (tb_id tab = t) then f tab else tab). split; [by apply map_tab_elem|].
  case_decide as Et; [|done]. destruct (Hf tab c) as [-> ?]; try done; [congruence|]. split; [congruence|done].
Qed.

Lemma caps_add_tab tabs R next captures stops timers tab :
  caps_inv tabs R next captures stops timers → caps_inv (tabs ++ [tab]) R next captures stops timers.
Proof.
  intros [H1 H2 H3 H4 H5 H6]. split; [done..|]. intros c Hc Hl Hh.
  destruct (H6 c Hc Hl Hh) as (Htm & tab' & Hin & E & Hcon). split; [done|]. exists tab'. split; [set_solver|done].
Qed.

Lemma caps_leave tabs r R next captures stops timers :
  caps_inv tabs (r :: R) next captures stops timers →
  (∀ c, c ∈ captures → cp_live c = true → cp_handoff c = false → cp_request c = run_id r → cp_tab c ≠ run_tab r) →
  caps_inv tabs R next captures stops timers.
Proof.
  intros [H1 H2 H3 H4 H5 H6] Hn. split; [done|done| |done| |done].
  - intros r' c Hr. apply H3. by right.
  - intros c Hc Hl Hh. destruct (H5 c Hc Hl Hh) as (r' & [->|Hr']%elem_of_cons & E1 & E2); [|by exists r'].
    by destruct (Hn c Hc Hl Hh).
Qed.

Lemma caps_go_on tabs r r' R next captures stops timers :
  caps_inv tabs (r :: R) next captures stops timers → run_id r' = run_id r → run_tab r' = run_tab r →
  (before_capture (run_phase r') = true → ∀ c, c ∈ captures → cp_request c ≠ run_id r) →
  caps_inv tabs (r' :: R) next captures stops timers.
Proof.
  intros [H1 H2 H3 H4 H5 H6] Ei Et Hb. split; [done|done| |done| |done].
  - intros r0 c [->|Hr]%elem_of_cons Hbe Hc; [rewrite Ei; by apply Hb|]. apply H3; [by right|done..].
  - intros c Hc Hl Hh. destruct (H5 c Hc Hl Hh) as (r0 & [->|Hr0]%elem_of_cons & E1 & E2); [exists r'|exists r0].
    + split; [left|]. by rewrite Ei, Et.
    + split; [by right|done].
Qed.

Lemma caps_start tabs r R next captures stops timers :
  caps_inv tabs R next captures stops timers → run_id r = next → caps_inv tabs (r :: R) (S next) captures stops timers.
Proof.
  intros [H1 H2 H3 H4 H5 H6] Ei. split; [done| | |done| |done].
  - intros c Hc. specialize (H2 c Hc). lia.
  - intros r' c [->|Hr]%elem_of_cons Hbe Hc; [|by apply H3]. specialize (H2 c Hc). lia.
  - intros c Hc Hl Hh. destruct (H5 c Hc Hl Hh) as (r' & Hr' & ?). exists r'. split; [by right|done].
Qed.

Lemma caps_perm tabs R R' next captures stops timers : R ≡ₚ R' →
  caps_inv tabs R next captures stops timers → caps_inv tabs R' next captures stops timers.
Proof.
  intros Hp [H1 H2 H3 H4 H5 H6]. split; [done|done| |done| |done].
  - intros r c Hr. apply H3. by rewrite Hp.
  - intros c Hc Hl Hh. setoid_rewrite <- Hp. by apply H5.
Qed.

Lemma elem_of_map_capture n f captures c : c ∈ map_capture n f captures →
  ∃ c0, c0 ∈ captures ∧ ((cp_request c0 = n ∧ c = f c0) ∨ (cp_request c0 ≠ n ∧ c = c0)).
Proof.
  unfold map_capture. rewrite list_elem_of_fmap. intros (c0 & -> & H). exists c0. split; [done|]. case_decide; [by left|by right].
Qed.

Lemma map_capture_requests n f captures : (∀ c, cp_request (f c) = cp_request c) →
  cp_request <$> map_capture n f captures = cp_request <$> captures.
Proof.
  intros H. unfold map_capture. rewrite <- list_fmap_compose. apply list_fmap_ext. intros i c _. cbn. by case_decide.
Qed.

Lemma stop_same t s :
  sm_tabs (stopTerminalWarmupCapture t s) = sm_tabs s ∧ sm_runs (stopTerminalWarmupCapture t s) = sm_runs s ∧
  sm_next (stopTerminalWarmupCapture t s) = sm_next s ∧ sm_timers (stopTerminalWarmupCapture t s) = sm_timers s ∧
  sm_profiles (stopTerminalWarmupCapture t s) = sm_profiles s ∧
  sm_sessions (stopTerminalWarmupCapture t s) = sm_sessions s ∧ sm_calls (stopTerminalWarmupCapture t s) = sm_calls s ∧
  cp_request <$> sm_captures (stopTerminalWarmupCapture t s) = cp_request <$> sm_captures s.
Proof. unfold stopTerminalWarmupCapture. destruct (sm_stops s !! t); cbn; [|done]. split_and!; try done. by apply map_capture_requests. Qed.

(** Stopping stops every capture of the tab. *)
Lemma inv_stop R s t : inv R s → inv R (stopTerminalWarmupCapture t s) ∧ no_live t (stopTerminalWarmupCapture t s).
Proof.
  intros (Hr & [H1 H2 H3 H4 H5 H6] & Hs). unfold stopTerminalWarmupCapture. destruct (sm_stops s !! t) as [n|] eqn:E.
  - split; [split_and!; [done| |done]|]; cbn.
    + split.
      * by rewrite map_capture_requests.
      * intros c (c0 & Hc & [[Ec ->]|[Ec ->]])%elem_of_map_capture; exact (H2 c0 Hc).
      * intros r c Hin Hb (c0 & Hc & [[Ec ->]|[Ec ->]])%elem_of_map_capture; exact (H3 r c0 Hin Hb Hc).
      * intros c (c0 & Hc & [[Ec ->]|[Ec ->]])%elem_of_map_capture; [done|]. intros Hl.
        rewrite lookup_delete_ne; [by apply H4|]. intros Ht. pose proof (H4 c0 Hc Hl). congruence.
      * intros c (c0 & Hc & [[Ec ->]|[Ec ->]])%elem_of_map_capture; [done|]. by apply H5.
      * intros c (c0 & Hc & [[Ec ->]|[Ec ->]])%elem_of_map_capture; [done|]. by apply H6.
    + intros c (c0 & Hc & [[Ec ->]|[Ec ->]])%elem_of_map_capture; [done|]. intros Hl Ht. pose proof (H4 c0 Hc Hl). congruence.
  - split; [done|]. intros c Hc Hl Ht. pose proof (H4 c Hc Hl). congruence.
Qed.

(** The listener of a run that waits for it. *)
Lemma inv_listen r r' R s : inv (r :: R) s → before_capture (run_phase r) = true → before_capture (run_phase r') = false →
  run_id r' = run_id r → run_tab r' = run_tab r → run_kind r' = run_kind r → run_ok r' →
  inv (r' :: R) (start_capture (run_tab r) (run_id r) s).
Proof.
  intros Hinv Hb Hb' Ei Et Ek Hok. destruct (inv_stop (r :: R) s (run_tab r) Hinv) as [(Hr & [H1 H2 H3 H4 H5 H6] & Hs) Hn].
  unfold start_capture. set (s1 := stopTerminalWarmupCapture (run_tab r) s) in *.
  assert (Hfree : ∀ c, c ∈ sm_captures s1 → cp_request c ≠ run_id r) by (intros c Hc; apply H3; [left|done|done]).
  split_and!; cbn; [|split|done].
  - rewrite <- (list_fmap_id (sm_tabs s1)). rewrite <- (list_fmap_ext (λ tab, if decide (tb_id tab = run_tab r) then id tab else tab)).
    + apply (runs_go_on _ _ r' _ _ id Hr); [done..|]. intros tab Hin E Hbusy Htab. by split_and!.
    + intros i tab _. by case_decide.
  - rewrite fmap_app. apply NoDup_app. split_and!; [done| |apply NoDup_singleton]. intros x (c & -> & Hc)%list_elem_of_fmap.
    cbn. intros E%list_elem_of_singleton. by apply (Hfree c).
  - intros c [Hc| ->%list_elem_of_singleton]%elem_of_app; [by apply H2|]. cbn. apply (ri_runs _ _ _ Hr). left.
  - intros r0 c [->|Hr0]%elem_of_cons Hbe [Hc| ->%list_elem_of_singleton]%elem_of_app.
    + by rewrite Hb' in Hbe.
    + by rewrite Hb' in Hbe.
    + apply H3; [by right|done|done].
    + cbn. intros E. pose proof (ri_run_ids _ _ _ Hr) as Hnd. apply NoDup_cons in Hnd as [Hnd _]. apply Hnd. rewrite E.
      by apply list_elem_of_fmap_2.
  - intros c [Hc| ->%list_elem_of_singleton]%elem_of_app Hl; cbn.
    + rewrite lookup_insert_ne; [by apply H4|]. intros E. by apply (Hn c Hc Hl).
    + by rewrite lookup_insert_eq.
  - intros c [Hc| ->%list_elem_of_singleton]%elem_of_app Hl Hh; cbn.
    + destruct (H5 c Hc Hl Hh) as (r0 & [->|Hr0]%elem_of_cons & E1 & E2); [by destruct (Hfree c Hc)|].
      exists r0. split; [by right|done].
    + exists r'. split; [left|done].
  - intros c [Hc| ->%list_elem_of_singleton]%elem_of_app Hl Hh; [by apply H6|done].
Qed.

(** *** Sessions, and steps of the machine *)

Lemma sessions_calls tabs sessions calls more : sessions_inv tabs sessions calls → sessions_inv tabs sessions (calls ++ more).
Proof. intros H sid Hin Hne. destruct (H sid Hin Hne) as [?|?]; [by left|right]. apply elem_of_app. by left. Qed.

Lemma sessions_map_tab tabs sessions calls t f :
  sessions_inv tabs sessions calls →
  (∀ tab sid, tab ∈ tabs → tb_id tab = t → tb_type tab = TabTerminal → tb_sessionId tab = Some sid → sid ≠ "" →
    tb_type (f tab) = TabTerminal ∧ tb_sessionId (f tab) = Some sid) →
  sessions_inv (map_tab t f tabs) sessions calls.
Proof.
  intros H Hf sid Hin Hne. destruct (H sid Hin Hne) as [(tab & Htab & Hty & Hs)|?]; [left|by right].
  exists (if decide (tb_id tab = t) then f tab else tab). split; [by apply map_tab_elem|]. case_decide; [by apply Hf|done].
Qed.

Definition steps_ok (s : Steps) : Prop := inv (sm_runs s) s.

Lemma inv_calls R s calls : inv R s → inv R (call_log calls s).
Proof. intros (H1 & H2 & H3). split_and!; [done|done|]. by apply sessions_calls. Qed.

(** The tab of a run that is shown. *)
Lemma tab_of_run R s r tab : inv R s → r ∈ R → tab ∈ sm_tabs s → tb_id tab = run_tab r →
  busy tab = Some (run_kind r) ∧ tab_ok tab ∧ tb_sessionId tab = None.
Proof.
  intros (H & _ & _) Hr Hin E. assert (busy tab = Some (run_kind r)) as Hb by (apply (ri_busy _ _ _ H); [done|by exists r]).
  pose proof (ri_tabs _ _ _ H _ Hin) as Hok. split_and!; [done|done|]. revert Hb. unfold tab_ok, busy in *.
  destruct (tb_type tab); [by destruct Hok|]. destruct (String.eqb _ _) eqn:Es; [|done]. apply String.eqb_eq in Es. by destruct Hok as [_ ->].
Qed.

(** What happens to the tab of a run concerns no capture that was handed over, and no session. *)
Lemma inv_run_tab R s r f : inv R s → r ∈ R →
  caps_inv (map_tab (run_tab r) f (sm_tabs s)) R (sm_next s) (sm_captures s) (sm_stops s) (sm_timers s) ∧
  sessions_inv (map_tab (run_tab r) f (sm_tabs s)) (sm_sessions s) (sm_calls s).
Proof.
  intros H Hr. pose proof H as (H1 & H2 & H3). split.
  - apply caps_map_tab; [done|]. intros tab c Hin E _ _ _ _ (_ & _ & [sid Hs]).
    destruct (tab_of_run _ _ _ _ H Hr Hin E) as (_ & _ & Hn). congruence.
  - apply sessions_map_tab; [done|]. intros tab sid Hin E _ Hs.
    destruct (tab_of_run _ _ _ _ H Hr Hin E) as (_ & _ & Hn). congruence.
Qed.

Lemma inv_go_on r r' R s f : inv (r :: R) s → run_id r' = run_id r → run_tab r' = run_tab r → run_kind r' = run_kind r →
  run_ok r' → (before_capture (run_phase r') = true → before_capture (run_phase r) = true) →
  (∀ tab, tab ∈ sm_tabs s → tb_id tab = run_tab r → busy tab = Some (run_kind r) → tab_ok tab →
    tb_id (f tab) = tb_id tab ∧ tab_ok (f tab) ∧ busy (f tab) = Some (run_kind r)) →
  inv (r' :: R) (set_tabs (map_tab (run_tab r) f (sm_tabs s)) s).
Proof.
  intros H Ei Et Ek Hok Hb Hf. destruct (inv_run_tab _ s r f H ltac:(left)) as [Hc Hs]. pose proof H as (H1 & _ & _).
  split_and!; cbn; [by eapply runs_go_on| |done]. eapply caps_go_on; [done..|]. intros Hbe c Hin.
  apply (ci_before _ _ _ _ _ _ Hc); [left|by apply Hb|done].
Qed.

Lemma inv_leave r R s f : inv (r :: R) s →
  (∀ c, c ∈ sm_captures s → cp_live c = true → cp_handoff c = false → cp_request c = run_id r → cp_tab c ≠ run_tab r) →
  (∀ tab, tab ∈ sm_tabs s → tb_id tab = run_tab r → busy tab = Some (run_kind r) → tab_ok tab →
    tb_id (f tab) = tb_id tab ∧ tab_ok (f tab) ∧ busy (f tab) = None) →
  inv R (set_tabs (map_tab (run_tab r) f (sm_tabs s)) s).
Proof.
  intros H Hn Hf. destruct (inv_run_tab _ s r f H ltac:(left)) as [Hc Hs]. pose proof H as (H1 & _ & _).
  split_and!; cbn; [|by eapply caps_leave|done]. eapply runs_leave; [done|]. intros tab Hin E Hb.
  apply Hf; [done..|]. by apply (ri_tabs _ _ _ H1).
Qed.

Lemma inv_leave_closed r R s : inv (r :: R) s →
  (∀ c, c ∈ sm_captures s → cp_live c = true → cp_handoff c = false → cp_request c = run_id r → cp_tab c ≠ run_tab r) →
  (∀ tab, tab ∈ sm_tabs s → tb_id tab ≠ run_tab r) → inv R s.
Proof. intros (H1 & H2 & H3) Hn Hc. split_and!; [by eapply runs_leave_closed|by eapply caps_leave|done]. Qed.

(** A run whose phase has no listener has no capture to stop. *)
Lemma no_waiting r R s : inv (r :: R) s → before_capture (run_phase r) = true →
  ∀ c, c ∈ sm_captures s → cp_live c = true → cp_handoff c = false → cp_request c = run_id r → cp_tab c ≠ run_tab r.
Proof. intros (_ & H & _) Hb c Hc _ _ E. exfalso. apply (ci_before _ _ _ _ _ _ H r c); [left|done..]. Qed.

Lemma inv_perm R R' s : R ≡ₚ R' → inv R s → inv R' s.
Proof. intros Hp (H1 & H2 & H3). split_and!; [by eapply runs_perm|by eapply caps_perm|done]. Qed.

Lemma ok_await r phase s : let r' := mkRun (run_id r) (run_tab r) (run_profiles r) phase in
  inv (r' :: sm_runs s) s → steps_ok (await r phase s).
Proof. intros r' H. unfold steps_ok. eapply (inv_perm (r' :: sm_runs s)); [|done]. cbn. by rewrite Permutation_app_comm. Qed.

(** The run that settles, taken out of the runs. *)
Lemma inv_taken s r : steps_ok s → r ∈ sm_runs s →
  inv (r :: sm_runs (set_runs (filter (λ r0, run_id r0 ≠ run_id r) (sm_runs s)) s))
    (set_runs (filter (λ r0, run_id r0 ≠ run_id r) (sm_runs s)) s).
Proof.
  intros H Hr. change (inv (r :: filter (λ r0, run_id r0 ≠ run_id r) (sm_runs s)) s). pose proof H as (Hri & _ & _).
  pose proof (ri_run_ids _ _ _ Hri) as Hnd. revert H. apply inv_perm. apply NoDup_Permutation.
  - by eapply NoDup_fmap_1.
  - apply NoDup_cons. split; [by intros [? _]%list_elem_of_filter|]. apply NoDup_filter. by eapply NoDup_fmap_1.
  - intros x. rewrite elem_of_cons, list_elem_of_filter. split; [|by intros [->|[_ ?]]]. intros Hx.
    destruct (decide (run_id x = run_id r)) as [E|]; [left|by right]. by eapply (NoDup_fmap_inj_elem run_id).
Qed.

(** *** A run of a step *)

Lemma running_ok step : shows_run (running_step step).
Proof.
  unfold shows_run, step_ok, running_step. split; [done|]. intros Ht _. revert Ht. cbn. destruct (cs_temporary step) eqn:E; cbn; [done|].
  by rewrite E.
Qed.

Lemma shown_busy step tab : tb_type tab = TabConnecting → tb_sessionId tab = None → shows_run step →
  tb_id (step_shown step tab) = tb_id tab ∧ tab_ok (step_shown step tab) ∧ busy (step_shown step tab) = Some true.
Proof.
  intros Hty Hs [Hst Hok]. unfold tab_ok, busy. cbn. rewrite Hty, Hst, Hs. split_and!; [done|done|by exists step|done].
Qed.

Lemma shown_over step tab : tb_type tab = TabConnecting → tb_sessionId tab = None → step_ok step →
  cs_status step ≠ StRunning → cs_status step ≠ StIdle →
  tb_id (step_shown step tab) = tb_id tab ∧ tab_ok (step_shown step tab) ∧ busy (step_shown step tab) = None.
Proof.
  intros Hty Hs Hok H1 H2. unfold tab_ok, busy. cbn. rewrite Hty, Hs. split_and!; [done|done|by exists step|].
  by destruct (cs_status step).
Qed.

Lemma busy_step tab : busy tab = Some true → tb_type tab = TabConnecting.
Proof. unfold busy. destruct (tb_type tab); [done|]. by destruct (String.eqb _ _). Qed.

Lemma busy_direct tab : busy tab = Some false → tb_type tab = TabTerminal ∧ tb_status tab = connecting_text.
Proof.
  unfold busy. destruct (tb_type tab); [by destruct (cs_status <$> tb_connectionStep tab) as [[]|]|].
  destruct (String.eqb _ _) eqn:E; [|done]. by apply String.eqb_eq in E.
Qed.

Lemma connecting_none tab : tab_ok tab → tb_type tab = TabConnecting → tb_sessionId tab = None.
Proof. unfold tab_ok. intros H E. rewrite E in H. by destruct H. Qed.

(** The panel of a running step changes. *)
Lemma inv_show r R s step : inv (r :: R) s → run_kind r = true → shows_run step →
  inv (r :: R) (updateConnectingTabStep (run_tab r) step s).
Proof.
  intros H Hk Hok. apply (inv_go_on r r R s); [done..|apply H; left|done|]. intros tab Hin E Hb Htab. rewrite Hk in *.
  apply busy_step in Hb. by apply shown_busy, Hok; [|apply connecting_none].
Qed.

Lemma map_tab_same t tabs : map_tab t id tabs = tabs.
Proof. unfold map_tab. rewrite <- (list_fmap_id tabs) at 2. apply list_fmap_ext. intros i tab _. by case_decide. Qed.

Lemma ok_next r phase s calls : inv (r :: sm_runs s) s →
  (before_capture phase = true → before_capture (run_phase r) = true) →
  run_kind (mkRun (run_id r) (run_tab r) (run_profiles r) phase) = run_kind r →
  run_ok (mkRun (run_id r) (run_tab r) (run_profiles r) phase) →
  steps_ok (await r phase (call_log calls s)).
Proof.
  intros H Hb Hk Hok. apply ok_await. apply inv_calls with (calls := calls) in H.
  change (mkRun _ _ _ _ :: sm_runs (call_log calls s)) with (mkRun (run_id r) (run_tab r) (run_profiles r) phase :: sm_runs s).
  pose proof (inv_go_on r (mkRun (run_id r) (run_tab r) (run_profiles r) phase) (sm_runs s) (call_log calls s) id H) as Hgo.
  rewrite map_tab_same in Hgo. apply Hgo; [done..|]. by intros tab _ _ Hbusy Htab.
Qed.

Lemma ok_connect r step running s : inv (r :: sm_runs s) s → run_kind r = true → shows_run running →
  before_capture (run_phase r) = true → steps_ok (connect_call r step running s).
Proof. intros H Hk Hok Hb. unfold connect_call. destruct (cs_mode step); by apply ok_next. Qed.

Lemma ok_listen_or_test r step running s : inv (r :: sm_runs s) s → run_kind r = true → shows_run running →
  before_capture (run_phase r) = true → steps_ok (listen_or_test r step running s).
Proof. intros H Hk Hok Hb. unfold listen_or_test. destruct (cs_mode step) eqn:E; [by apply ok_connect|by apply ok_next]. Qed.

Lemma ok_run_shown r step running s : inv (r :: sm_runs s) s → run_kind r = true → shows_run running →
  before_capture (run_phase r) = true → steps_ok (run_shown r step running s).
Proof.
  intros H Hk Hok Hb. unfold run_shown. destruct (temporary_ref step); [|by apply ok_listen_or_test].
  destruct (cs_temporaryCredentialsReady step); [by apply ok_listen_or_test|by apply ok_next].
Qed.

Lemma ok_runConnectionStep r step s : inv (r :: sm_runs s) s → run_kind r = true → before_capture (run_phase r) = true →
  steps_ok (runConnectionStep r step s).
Proof.
  intros H Hk Hb. unfold runConnectionStep. apply ok_run_shown; [|done|apply running_ok|done].
  apply inv_show; [done..|apply running_ok].
Qed.

(** A tab that shows nothing runs its step. *)
Lemma inv_start_tab s t f r : steps_ok s → run_id r = sm_next s → run_tab r = t → run_ok r →
  (∃ tab, tab ∈ sm_tabs s ∧ tb_id tab = t ∧ busy tab = None ∧ ¬ connected tab ∧ truthy (tb_sessionId tab) = false) →
  (∀ tab, tab ∈ sm_tabs s → tb_id tab = t → tab_ok tab → tb_id (f tab) = tb_id tab ∧ tab_ok (f tab) ∧ busy (f tab) = Some (run_kind r)) →
  inv (r :: sm_runs s) (take_id (set_tabs (map_tab t f (sm_tabs s)) s)).
Proof.
  intros (H1 & H2 & H3) Ei Et Hok (tab0 & Hin0 & E0 & Hb0 & Hc0 & Hs0) Hf.
  assert (∀ tab, tab ∈ sm_tabs s → tb_id tab = t → tab = tab0) as Hone.
  { intros tab Hin E. eapply (NoDup_fmap_inj_elem tb_id); [apply (ri_ids _ _ _ H1)|done..|congruence]. }
  split_and!; cbn.
  - eapply runs_start; [done..| |done]. by exists tab0.
  - apply caps_start; [|done]. apply caps_map_tab; [done|]. intros tab c Hin E _ _ _ _ Hc. by rewrite (Hone tab Hin E) in Hc.
  - apply sessions_map_tab; [done|]. intros tab sid Hin E _ Hs Hne. rewrite (Hone tab Hin E) in Hs. rewrite Hs in Hs0.
    by apply truthy_Some in Hne; congruence.
Qed.

Lemma ok_run_step t step s : steps_ok s →
  (∃ tab, tab ∈ sm_tabs s ∧ tb_id tab = t ∧ busy tab = None ∧ tb_type tab = TabConnecting) →
  steps_ok (run_step t step s).
Proof.
  intros H (tab & Hin & E & Hb & Hty). unfold run_step, runConnectionStep.
  assert (∀ tab', tab' ∈ sm_tabs s → tb_id tab' = t → tab' = tab) as Hone.
  { destruct H as (H1 & _). intros tab' Hin' E'. eapply (NoDup_fmap_inj_elem tb_id); [apply (ri_ids _ _ _ H1)|done..|congruence]. }
  apply ok_run_shown; [|done|apply running_ok|done].
  apply (inv_start_tab s t (step_shown (running_step step)) (next_run t step s)); [done..|apply running_ok| |].
  - exists tab. split_and!; [done..|by intros (Hc & _); congruence|]. rewrite connecting_none; [done| |done].
    destruct H as (H1 & _). by apply (ri_tabs _ _ _ H1).
  - intros tab' Hin' E' Hok. rewrite (Hone tab' Hin' E') in *. apply shown_busy; [done|by apply connecting_none|apply running_ok].
Qed.

(** *** How a run settles *)

Lemma exists_connecting t s : connectingTabExists t s = true ↔ ∃ tab, tab ∈ sm_tabs s ∧ tb_id tab = t ∧ tb_type tab = TabConnecting.
Proof. unfold connectingTabExists. rewrite bool_decide_eq_true, Exists_exists. done. Qed.

Lemma exists_terminal t s : terminalTabExists t s = true ↔ ∃ tab, tab ∈ sm_tabs s ∧ tb_id tab = t.
Proof. unfold terminalTabExists. rewrite bool_decide_eq_true, Exists_exists. done. Qed.

(** A wizard whose connecting tab is not there was closed. *)
Lemma closed_tab r R s : inv (r :: R) s → run_kind r = true → connectingTabExists (run_tab r) s = false →
  ∀ tab, tab ∈ sm_tabs s → tb_id tab ≠ run_tab r.
Proof.
  intros H Hk Hn tab Hin E. destruct (tab_of_run _ _ r tab H ltac:(left) Hin E) as (Hb & _). rewrite Hk in Hb. apply busy_step in Hb.
  apply not_true_iff_false in Hn. apply Hn. apply exists_connecting. by exists tab.
Qed.

Lemma no_live_waiting t s n : no_live t s →
  ∀ c, c ∈ sm_captures s → cp_live c = true → cp_handoff c = false → cp_request c = n → cp_tab c ≠ t.
Proof. intros H c Hc Hl _ _. by apply H. Qed.

(** The panel shows how a step ended. *)
Lemma ok_over r s step : inv (r :: sm_runs s) s → run_kind r = true →
  (∀ c, c ∈ sm_captures s → cp_live c = true → cp_handoff c = false → cp_request c = run_id r → cp_tab c ≠ run_tab r) →
  step_ok step → cs_status step ≠ StRunning → cs_status step ≠ StIdle →
  steps_ok (if connectingTabExists (run_tab r) s then updateConnectingTabStep (run_tab r) step s else s).
Proof.
  intros H Hk Hn Hok H1 H2. destruct (connectingTabExists (run_tab r) s) eqn:E.
  - apply (inv_leave r); [done..|]. intros tab Hin Et Hb Htab. rewrite Hk in Hb. apply busy_step in Hb.
    apply shown_over; [done|by apply connecting_none|done..].
  - by eapply inv_leave_closed, closed_tab.
Qed.

Lemma failed_step_over profiles step running error : shows_run running →
  step_ok (failed_step profiles step running error) ∧ cs_status (failed_step profiles step running error) ≠ StRunning ∧
  cs_status (failed_step profiles step running error) ≠ StIdle.
Proof.
  intros [Hs Hok]. assert (cs_temporary running = true → form_empty (cs_secrets running)) as He.
  { intros Ht. apply Hok; [done|by rewrite Hs]. }
  unfold failed_step. cbv zeta. destruct (parseHostKeyError _); [by split_and!; [intros ? _; apply He|..]|].
  destruct (parseCredentialPromptTarget _); [by split_and!; [intros ? []|..]|].
  destruct (match _ with Some _ => _ | None => _ end ≫= _); [by split_and!; [intros ? []|..]|].
  by split_and!; [intros ? _; apply He|..].
Qed.

Lemma ok_fail_run r step running error s : inv (r :: sm_runs s) s → run_kind r = true → shows_run running →
  steps_ok (fail_run r step running error s).
Proof.
  intros H Hk Hok. unfold fail_run. destruct (inv_stop _ _ (run_tab r) H) as [Hi Hn].
  destruct (failed_step_over (run_profiles r) step running error Hok) as (H1 & H2 & H3).
  destruct (stop_same (run_tab r) s) as (_ & Er & _). rewrite <- Er in Hi.
  apply ok_over; [done|done|by apply no_live_waiting|done..].
Qed.

Lemma ok_fail_trust r next error s : inv (r :: sm_runs s) s → run_kind r = true → before_capture (run_phase r) = true →
  shows_run next → steps_ok (fail_trust r next error s).
Proof.
  intros H Hk Hb [Hs Hok]. unfold fail_trust. apply ok_over; [done|done|by eapply no_waiting| |done..].
  intros Ht _. apply Hok; [done|by rewrite Hs].
Qed.

Lemma ok_settle_test r step running s : inv (r :: sm_runs s) s → run_phase r = RunTest step running → run_ok r →
  steps_ok (settle_test r step running s).
Proof.
  intros H Hp Hok. assert (Hn := no_waiting r _ s H). rewrite Hp in Hn. specialize (Hn eq_refl). assert (run_kind r = true) as Hk by (unfold run_kind; by rewrite Hp).
  unfold run_ok in Hok. rewrite Hp in Hok. destruct Hok as [Hs Hok]. unfold settle_test.
  destruct (connectingTabExists (run_tab r) s) eqn:E; [|by eapply inv_leave_closed, closed_tab].
  pose proof (ok_over r (call_log [CallProbe (buildRuntimeCredentialRequest (sp_id (cs_connection step))
    (sc_runtimeCredentials (cs_secrets step)))] s) (test_passed running)) as Hover.
  change (connectingTabExists (run_tab r) (call_log _ s)) with (connectingTabExists (run_tab r) s) in Hover. rewrite E in Hover.
  apply Hover; [by apply inv_calls|done|done| |done..]. intros Ht _. apply Hok; [done|by rewrite Hs].
Qed.

(** A connected session is handed to its tab. *)
Lemma inv_connected r R s f sid :
  inv (r :: R) s → (∃ tab, tab ∈ sm_tabs s ∧ tb_id tab = run_tab r) →
  (∀ tab, tab ∈ sm_tabs s → tb_id tab = run_tab r → busy tab = Some (run_kind r) → tab_ok tab →
    tb_id (f tab) = tb_id tab ∧ tb_type (f tab) = TabTerminal ∧ tb_connectionStep (f tab) = None ∧
    tb_status (f tab) = connected_text ∧ tb_sessionId (f tab) = Some sid) →
  inv R (set_timers (sm_timers s ++ [run_tab r]) (set_tabs (map_tab (run_tab r) f (sm_tabs s)) (hand_over (run_id r) (returned sid s)))).
Proof.
  intros H (tab0 & Hin0 & E0) Hf. pose proof H as (H1 & [C1 C2 C3 C4 C5 C6] & H3).
  assert (connected (f tab0)) as Hcon.
  { destruct (tab_of_run _ _ r tab0 H ltac:(left) Hin0 E0) as (Hb & Hok & _). destruct (Hf _ Hin0 E0 Hb Hok) as (_ & H5 & _ & H7 & H8).
    unfold connected. rewrite H5, H7, H8. split_and!; [done|by vm_decide|by eexists]. }
  assert (∃ tab', tab' ∈ map_tab (run_tab r) f (sm_tabs s) ∧ tb_id tab' = run_tab r ∧ connected tab' ∧
    tb_type tab' = TabTerminal ∧ tb_sessionId tab' = Some sid) as Hnew.
  { destruct (tab_of_run _ _ r tab0 H ltac:(left) Hin0 E0) as (Hb & Hok & _). destruct (Hf _ Hin0 E0 Hb Hok) as (H4 & H5 & _ & _ & H8).
    pose proof (map_tab_elem (run_tab r) f _ _ Hin0) as Hm. rewrite decide_True in Hm by done. exists (f tab0).
    split_and!; [done|congruence|done|done|done]. }
  split_and!; cbn; [|split|].
  - eapply runs_leave; [done|]. intros tab Hin E Hb. destruct (Hf _ Hin E Hb) as (H4 & H5 & H6 & H7 & H8).
    { by apply (ri_tabs _ _ _ H1). }
    unfold tab_ok, busy. rewrite H4, H5, H6, H7. split_and!; [done|done| |done]. intros Hbad. by vm_compute in Hbad.
  - by rewrite map_capture_requests.
  - intros c (c0 & Hc & [[Ec ->]|[Ec ->]])%elem_of_map_capture; exact (C2 c0 Hc).
  - intros r' c Hr' Hb (c0 & Hc & [[Ec ->]|[Ec ->]])%elem_of_map_capture; (apply (C3 r' c0); [by right|done|done]).
  - intros c (c0 & Hc & [[Ec ->]|[Ec ->]])%elem_of_map_capture; exact (C4 c0 Hc).
  - intros c (c0 & Hc & [[Ec ->]|[Ec ->]])%elem_of_map_capture; [done|]. intros Hl Hh.
    destruct (C5 c0 Hc Hl Hh) as (r' & [->|Hr']%elem_of_cons & E1 & E2); [congruence|by exists r'].
  - intros c (c0 & Hc & Hcase)%elem_of_map_capture Hl Hh.
    assert (cp_tab c = cp_tab c0 ∧ cp_live c = cp_live c0) as [Et El] by (by destruct Hcase as [[_ ->]|[_ ->]]). rewrite Et.
    rewrite El in Hl. destruct (cp_handoff c0) eqn:Eh.
    + destruct (C6 c0 Hc Hl Eh) as (Htm & tab & Hin & E & Hct). split; [set_solver|]. exists tab. split; [|done].
      pose proof (map_tab_elem (run_tab r) f _ _ Hin) as Hm. rewrite decide_False in Hm; [done|]. intros Er.
      destruct (tab_of_run _ _ r tab H ltac:(left) Hin Er) as (_ & _ & Hn). destruct Hct as (_ & _ & [x Hx]). congruence.
    + destruct Hcase as [[Ec ->]|[Ec ->]]; [|congruence].
      destruct (C5 c0 Hc Hl Eh) as (r' & Hr' & E1 & E2). assert (r' = r) as ->.
      { eapply (NoDup_fmap_inj_elem run_id); [apply (ri_run_ids _ _ _ H1)|done|left|congruence]. }
      split; [set_solver|]. destruct Hnew as (tab' & Hm & E & Hct & _). exists tab'. rewrite <- E2. done.
  - intros sid' [Hin| ->%list_elem_of_singleton]%elem_of_app Hne; [|].
    + destruct (inv_run_tab _ s r f H ltac:(left)) as [_ Hs]. by apply Hs.
    + left. destruct Hnew as (tab' & Hm & _ & _ & Ht & Hs). by exists tab'.
Qed.

(** A session whose tab was closed meanwhile. *)
Lemma ok_closed r s sid : inv (r :: sm_runs s) s → (∀ tab, tab ∈ sm_tabs s → tb_id tab ≠ run_tab r) →
  steps_ok (call_log [CallClose sid] (stopTerminalWarmupCapture (run_tab r) (returned sid s))).
Proof.
  intros H Hc. assert (inv (r :: sm_runs s) (call_log [CallClose sid] (returned sid s))) as Hret.
  { destruct H as (H1 & H2 & H3). split_and!; [done|done|]. cbn. intros sid' [Hin| ->%list_elem_of_singleton]%elem_of_app Hne.
    - exact (sessions_calls _ _ _ [CallClose sid] H3 sid' Hin Hne).
    - right. set_solver. }
  destruct (inv_stop _ _ (run_tab r) Hret) as [Hi Hn].
  assert (call_log [CallClose sid] (stopTerminalWarmupCapture (run_tab r) (returned sid s)) =
    stopTerminalWarmupCapture (run_tab r) (call_log [CallClose sid] (returned sid s))) as ->.
  { unfold stopTerminalWarmupCapture. cbn. by destruct (sm_stops s !! run_tab r). }
  destruct (stop_same (run_tab r) (call_log [CallClose sid] (returned sid s))) as (Et & Er & _). unfold steps_ok. rewrite Er.
  eapply inv_leave_closed; [exact Hi|by apply no_live_waiting|]. by rewrite Et.
Qed.

Lemma ok_settle_connect r step sid s : inv (r :: sm_runs s) s → run_kind r = true → steps_ok (settle_connect r step sid s).
Proof.
  intros H Hk. unfold settle_connect.
  change (connectingTabExists (run_tab r) (returned sid s)) with (connectingTabExists (run_tab r) s).
  destruct (connectingTabExists (run_tab r) s) eqn:E; [|by eapply ok_closed, closed_tab].
  apply exists_connecting in E as (tab0 & Hin0 & E0 & _).
  set (f w tab := mkStepTab (tb_id tab) (tb_connectionId tab) None None (tb_ordinal tab) (Some (run_id r))
    (Some sid) connected_text (tb_temporaryContextRef tab) (terminalTabTitle (tb_ordinal tab)) TabTerminal w).
  unfold steps_ok. destruct (cs_temporary step).
  - eapply (inv_connected r _ s (f _) sid H); [by exists tab0|]. by intros tab Hin Et Hb Htab.
  - eapply (inv_connected r _ (call_log [CallRefresh (sp_id (cs_connection step))] s) (f _) sid); [by apply inv_calls|by exists tab0|].
    by intros tab Hin Et Hb Htab.
Qed.

Lemma ok_settle_direct r d sid s : inv (r :: sm_runs s) s → run_phase r = RunDirectConnect d → run_ok r →
  steps_ok (settle_direct r d sid s).
Proof.
  intros H Hp Hok. unfold run_ok in Hok. rewrite Hp in Hok. assert (run_kind r = false) as Hk by (unfold run_kind; by rewrite Hp).
  unfold settle_direct. rewrite Hok.
  change (terminalTabExists (run_tab r) (returned sid s)) with (terminalTabExists (run_tab r) s).
  destruct (terminalTabExists (run_tab r) s) eqn:E.
  - apply exists_terminal in E as (tab0 & Hin0 & E0).
    set (calls := CallRefresh (sp_id (dr_connection d)) ::
      match dr_command d ||? None with Some command => [CallWrite sid command] | None => [] end).
    assert (inv (r :: sm_runs (call_log calls s)) (call_log calls s)) as H' by by apply inv_calls.
    pose proof (λ w, inv_connected r _ _ (direct_shown None (run_id r) (Some sid) connected_text w) sid H') as Hc.
    unfold steps_ok. eapply Hc; [by exists tab0|]. intros tab Hin Et Hb Htab. rewrite Hk in Hb.
    apply busy_direct in Hb as [Hty Hst]. cbn. unfold tab_ok in Htab. rewrite Hty in Htab. destruct Htab as [Hs _]. done.
  - apply not_true_iff_false in E. apply ok_closed; [done|]. intros tab Hin Et. apply E, exists_terminal. by exists tab.
Qed.

Lemma ok_fail_direct r d error s : inv (r :: sm_runs s) s → run_kind r = false → steps_ok (fail_direct r d error s).
Proof.
  intros H Hk. unfold fail_direct. destruct (inv_stop _ _ (run_tab r) H) as [Hi Hn].
  destruct (stop_same (run_tab r) s) as (_ & Er & _). rewrite <- Er in Hi.
  destruct (terminalTabExists (run_tab r) (stopTerminalWarmupCapture (run_tab r) s)) eqn:E.
  - apply (inv_leave r); [done|by apply no_live_waiting|]. intros tab Hin Et Hb Htab. rewrite Hk in Hb.
    apply busy_direct in Hb as [Hty Hst]. unfold tab_ok, busy in *. cbn. rewrite Hty in *. by destruct Htab as [-> _].
  - apply not_true_iff_false in E. eapply inv_leave_closed; [done|by apply no_live_waiting|].
    intros tab Hin Et. apply E, exists_terminal. by exists tab.
Qed.

(** Past the listener. *)
Lemma ok_heard r r' s calls : inv (r :: sm_runs s) s → before_capture (run_phase r) = true → before_capture (run_phase r') = false →
  run_id r' = run_id r → run_tab r' = run_tab r → run_kind r' = run_kind r → run_ok r' → run_profiles r' = run_profiles r →
  steps_ok (await r (run_phase r') (call_log calls (start_capture (run_tab r) (run_id r) s))).
Proof.
  intros H Hb Hb' Ei Et Ek Hok Ep. apply ok_await. rewrite <- Ei at 1. rewrite <- Et at 1. rewrite <- Ep.
  apply inv_calls with (R := _ :: _). replace (mkRun (run_id r') (run_tab r') (run_profiles r') (run_phase r')) with r' by by destruct r'.
  destruct (stop_same (run_tab r) s) as (_ & Er & _).
  change (sm_runs (call_log calls (start_capture (run_tab r) (run_id r) s))) with (sm_runs (stopTerminalWarmupCapture (run_tab r) s)).
  rewrite Er. by apply inv_listen.
Qed.

Lemma ok_settle_run r answer s : inv (r :: sm_runs s) s → steps_ok (settle_run r answer s).
Proof.
  intros H. pose proof H as (H1 & _ & _). assert (run_ok r) as Hok by (apply (ri_runs _ _ _ H1); left).
  assert (steps_ok (await r (run_phase r) s)) as Hsame by (apply ok_await; by destruct r).
  pose proof Hok as Hok'. unfold settle_run, run_ok in *.
  destruct (run_phase r) as [next|step running|step running|step running|step running|d|d] eqn:Ep;
    assert (Hk : run_kind r = match run_phase r with RunDirectListen _ | RunDirectConnect _ => false | _ => true end) by done;
    rewrite Ep in Hk; destruct answer as [|sid|error]; try exact Hsame.
  - apply ok_runConnectionStep; [done|done|by rewrite Ep].
  - apply ok_fail_trust; [done|done|by rewrite Ep|done].
  - apply ok_listen_or_test; [|done|done|by rewrite Ep]. by apply inv_show.
  - by apply ok_fail_run.
  - destruct Hok as [Hok Hm]. unfold connect_call. rewrite Hm.
    apply (ok_heard r (mkRun (run_id r) (run_tab r) (run_profiles r) (RunConnect step running))); [done|by rewrite Ep|done..].
  - by apply ok_fail_run; [..|apply Hok].
  - apply ok_settle_test; [done|done|]. unfold run_ok. by rewrite Ep.
  - by apply ok_fail_run.
  - by apply ok_settle_connect.
  - by apply ok_fail_run.
  - rewrite Hok.
    apply (ok_heard r (mkRun (run_id r) (run_tab r) (run_profiles r) (RunDirectConnect d))); [done|by rewrite Ep|done..].
  - by apply ok_fail_direct.
  - apply ok_settle_direct; [done|done|]. unfold run_ok. by rewrite Ep.
  - by apply ok_fail_direct.
Qed.

(** *** Commands *)

Lemma shown_step_spec tabId status s step : shown_step tabId status s = Some step →
  cs_status step = status ∧ ∃ tab, tab ∈ sm_tabs s ∧ tb_id tab = tabId ∧ tb_type tab = TabConnecting ∧ tb_connectionStep tab = Some step.
Proof.
  unfold shown_step. intros (tab & [Hin [E Hty]]%js_find_Some & H)%bind_Some. apply bind_Some in H as (st & Hst & H).
  case_decide as Es; [|done]. injection H as ->. split; [done|]. by exists tab.
Qed.

Lemma waits_idle tab step : tb_type tab = TabConnecting → tb_connectionStep tab = Some step →
  cs_status step ≠ StRunning → cs_status step ≠ StIdle → busy tab = None.
Proof. intros Hty Hst H1 H2. unfold busy. rewrite Hty, Hst. cbn. by destruct (cs_status step). Qed.

(** A tab whose panel is shown and waits. *)
Lemma waiting_tab s tabId status step : steps_ok s → shown_step tabId status s = Some step → status ≠ StRunning → status ≠ StIdle →
  step_ok step ∧ cs_status step = status ∧ ∃ tab, tab ∈ sm_tabs s ∧ tb_id tab = tabId ∧ busy tab = None ∧ tb_type tab = TabConnecting ∧
    tb_sessionId tab = None ∧ ∀ tab', tab' ∈ sm_tabs s → tb_id tab' = tabId → tab' = tab.
Proof.
  intros (H1 & _) (Hs & tab & Hin & E & Hty & Hst)%shown_step_spec Hr Hi. pose proof (ri_tabs _ _ _ H1 _ Hin) as Hok.
  unfold tab_ok in Hok. rewrite Hty in Hok. destruct Hok as (Hsid & step' & Hst' & Hok). rewrite Hst in Hst'. injection Hst' as <-.
  split_and!; [done|done|]. exists tab. split_and!; [done|done| |done|done|].
  - eapply waits_idle; [done|done|congruence..].
  - intros tab' Hin' E'. eapply (NoDup_fmap_inj_elem tb_id); [apply (ri_ids _ _ _ H1)|done..|congruence].
Qed.

(** The panel of a step that waits changes, and still waits. *)
Lemma ok_panel s tabId status step step' : steps_ok s → shown_step tabId status s = Some step → status ≠ StRunning → status ≠ StIdle →
  step_ok step' → cs_status step' ≠ StRunning → cs_status step' ≠ StIdle → steps_ok (updateConnectingTabStep tabId step' s).
Proof.
  intros H Hs Hr Hi Hok H1 H2. destruct (waiting_tab _ _ _ _ H Hs Hr Hi) as (_ & _ & tab & Hin & E & Hb & Hty & Hsid & Hone).
  pose proof H as (R1 & R2 & R3). split_and!; cbn.
  - apply runs_keep_tab; [done|]. intros tab' Hin' E' _. rewrite (Hone tab' Hin' E'), Hb. by apply shown_over.
  - apply caps_map_tab; [done|]. intros tab' c Hin' E' _ _ _ _ (Hbad & _). rewrite (Hone tab' Hin' E') in Hbad. congruence.
  - apply sessions_map_tab; [done|]. intros tab' sid Hin' E' Hbad. rewrite (Hone tab' Hin' E') in Hbad. congruence.
Qed.

Lemma ok_retry s tabId step : steps_ok s → shown_step tabId StError s = Some step → steps_ok (retryConnectionStep tabId step s).
Proof.
  intros H Hs. destruct (waiting_tab _ _ _ _ H Hs) as (Hok & Hst & tab & Hin & E & Hb & Hty & _); [done..|].
  unfold retryConnectionStep. destruct (_ && _); [|apply ok_run_step; [done|by exists tab]].
  by eapply ok_panel; [done|exact Hs|done|done|intros _ []| |].
Qed.

Lemma ok_submit s tabId step : steps_ok s → shown_step tabId StPrompt s = Some step → steps_ok (submitPromptCredential tabId step s).
Proof.
  intros H Hs. destruct (waiting_tab _ _ _ _ H Hs) as (Hok & Hst & tab & Hin & E & Hb & Hty & _); [done..|].
  apply ok_run_step; [done|by exists tab].
Qed.

Lemma ok_edit s tabId step edit : steps_ok s → shown_step tabId StPrompt s = Some step →
  steps_ok (updateConnectingTabStep tabId (edited_step edit step) s).
Proof.
  intros H Hs. destruct (waiting_tab _ _ _ _ H Hs) as (_ & Hst & _); [done..|].
  assert (cs_status (edited_step edit step) = StPrompt) as He by by destruct edit.
  eapply ok_panel; [done|exact Hs|done|done| |by rewrite He..]. intros _ Hbad. by rewrite He in Hbad.
Qed.

Lemma ok_trust s tabId step : steps_ok s → shown_step tabId StWaitingHostKey s = Some step →
  steps_ok (trustHostKeyAndRetry tabId step s).
Proof.
  intros H Hs. destruct (waiting_tab _ _ _ _ H Hs) as (Hok & Hst & tab & Hin & E & Hb & Hty & Hsid & Hone); [done..|].
  unfold trustHostKeyAndRetry. destruct (so_hostKey (cs_outcome step)) as [key|]; [|done].
  set (next := trusted_step step). assert (shows_run next) as Hnext.
  { split; [done|]. intros Ht _. apply Hok; [done|by rewrite Hst]. }
  set (r := mkRun (sm_next s) tabId (sm_profiles s) (RunTrust next)).
  assert (inv (r :: sm_runs s) (take_id (set_tabs (map_tab tabId (step_shown next) (sm_tabs s)) s))) as Hi.
  { apply inv_start_tab; [done|done|done|exact Hnext| |].
    - exists tab. split_and!; [done|done|done|by intros (Hc & _); congruence|by rewrite Hsid].
    - intros tab' Hin' E' _. rewrite (Hone tab' Hin' E'). by apply shown_busy. }
  apply inv_calls with (calls := [CallTrust key]) in Hi. unfold steps_ok. eapply (inv_perm (r :: sm_runs s)); [|exact Hi].
  cbn. by rewrite Permutation_app_comm.
Qed.

Lemma find_tab tabId s tab : steps_ok s → js_find (λ tab, tb_id tab = tabId) (sm_tabs s) = Some tab →
  tab ∈ sm_tabs s ∧ tb_id tab = tabId ∧ tab_ok tab ∧ ∀ tab', tab' ∈ sm_tabs s → tb_id tab' = tabId → tab' = tab.
Proof.
  intros (H1 & _) [Hin E]%js_find_Some. split_and!; [done|done|by apply (ri_tabs _ _ _ H1)|].
  intros tab' Hin' E'. eapply (NoDup_fmap_inj_elem tb_id); [apply (ri_ids _ _ _ H1)|done..|congruence].
Qed.

Lemma ok_write_failed s tabId error : steps_ok s → panel_shown tabId s = true → steps_ok (write_failed tabId error s).
Proof.
  unfold panel_shown. intros H Hp. destruct (js_find _ _) as [tab|] eqn:Ef; [|done].
  destruct (find_tab _ _ _ H Ef) as (Hin & E & Hok & Hone). pose proof H as (R1 & R2 & R3). split_and!; cbn.
  - apply runs_keep_tab; [done|]. intros tab' _ _ Hok'. split_and!; done.
  - apply caps_map_tab; [done|]. intros tab' c _ E' _ _ _ _ Hc. by split.
  - apply sessions_map_tab; [done|]. done.
Qed.

(** A terminal that failed has no session, and no capture is handed over to it. *)
Lemma retry_tab s tabId : steps_ok s → shows_retry tabId s = true →
  ∃ tab, js_find (λ tab, tb_id tab = tabId) (sm_tabs s) = Some tab ∧ tb_id tab = tabId ∧ tab ∈ sm_tabs s ∧ busy tab = None ∧
    tb_type tab = TabTerminal ∧ tb_connectionStep tab = None ∧ ¬ connected tab ∧ truthy (tb_sessionId tab) = false ∧
    ∀ tab', tab' ∈ sm_tabs s → tb_id tab' = tabId → tab' = tab.
Proof.
  unfold shows_retry. intros H Hs. destruct (js_find _ _) as [tab|] eqn:Ef; [|done].
  apply andb_true_iff in Hs as [[Hty Hn]%andb_true_iff Hst]. apply bool_decide_eq_true in Hty. apply String.eqb_eq in Hst.
  apply negb_true_iff in Hn. destruct (find_tab _ _ _ H Ef) as (Hin & E & Hok & Hone). exists tab.
  unfold busy, tab_ok in *. rewrite Hty, Hst in *. destruct Hok as [Hok _]. split_and!; try done. by intros (_ & Hbad & _).
Qed.

(** The clock and the random number of a new tab make its id one that is not in use; ids are
    not empty. *)
Definition fresh_id (t : string) (s : Steps) : Prop := (t ∉ (tb_id <$> sm_tabs s)) ∧ (t ∉ (run_tab <$> sm_runs s)).

Definition event_fresh (s : Steps) (e : StepEvent) : Prop :=
  match e with
  | EvStart connection mode now => fresh_id ("connection-" +:+ sp_id connection +:+ "-" +:+ pretty now) s
  | EvDirect connection _ _ nonce => fresh_id ("terminal-" +:+ sp_id connection +:+ "-" +:+ nonce) s
  | EvRetryRestored tabId _ => tabId ≠ ""
  | _ => True
  end.

#[export] Instance event_fresh_dec s e : Decision (event_fresh s e).
Proof. unfold event_fresh, fresh_id. destruct e; apply _. Defined.

Fixpoint events_fresh (s : Steps) (events : list StepEvent) : Prop :=
  match events with [] => True | e :: rest => event_fresh s e ∧ events_fresh (steps_step s e) rest end.

Lemma fresh_ne t s : fresh_id t s → (∀ tab, tab ∈ sm_tabs s → tb_id tab ≠ t) ∧ (∀ r, r ∈ sm_runs s → run_tab r ≠ t).
Proof.
  intros [H1 H2]. split; [intros tab Hin E; apply H1|intros r Hr E; apply H2]; rewrite <- E; by apply list_elem_of_fmap_2.
Qed.

Lemma new_step_ok connection mode now : step_ok (new_step connection mode now).
Proof. by intros _ _. Qed.

Lemma new_step_status connection mode now :
  cs_status (new_step connection mode now) = if sp_prompts connection then StPrompt else StIdle.
Proof. done. Qed.

Lemma ok_start s connection mode now : steps_ok s → event_fresh s (EvStart connection mode now) →
  steps_ok (startConnectionStep connection mode now None s).
Proof.
  intros H Hf. unfold startConnectionStep. cbn [js_or truthy mbind option_bind nonempty].
  set (step := new_step connection mode now). set (tab := buildConnectingTab (sm_tabs s) connection step).
  assert (fresh_id (tb_id tab) s) as [Hn Hnr]%fresh_ne by done. pose proof H as (R1 & R2 & R3).
  assert (steps_ok (if sp_prompts connection then set_tabs (sm_tabs s ++ [tab]) s
    else run_step (tb_id tab) step (set_tabs (sm_tabs s ++ [tab]) s))) as Hmain.
  { assert (tab_ok tab) as Htab by (split; [done|by exists step]).
    assert (caps_inv (sm_tabs s ++ [tab]) (sm_runs s) (sm_next s) (sm_captures s) (sm_stops s) (sm_timers s)) as Hc
      by by apply caps_add_tab.
    assert (sessions_inv (sm_tabs s ++ [tab]) (sm_sessions s) (sm_calls s)) as Hs.
    { intros sid Hin Hne. destruct (R3 sid Hin Hne) as [(tab' & ? & ?)|?]; [left; exists tab'|by right]. split; [set_solver|done]. }
    destruct (sp_prompts connection) eqn:Ep.
    - split_and!; cbn; [|done|done]. apply runs_add_tab; [done..|]. unfold busy. cbn. unfold cs_status. cbn. by rewrite Ep.
    - unfold run_step. apply ok_runConnectionStep; [|done|done]. split_and!; cbn; [|by apply caps_start|done].
      apply runs_add_run; [done|done|done|done| |done|done|apply running_ok]. unfold busy. cbn. unfold cs_status. cbn. by rewrite Ep. }
  destruct (sp_protocol connection) as [[]|]; try exact Hmain; by apply inv_calls.
Qed.

Lemma ok_retry_restored s tabId now : steps_ok s → tabId ≠ "" → shows_retry tabId s = true →
  steps_ok (retryRestoredSshTab tabId now s).
Proof.
  intros H Hid Hs. destruct (retry_tab _ _ H Hs) as (tab & Ef & E & Hin & Hb & Hty & Hst & Hc & Hsid & Hone).
  unfold retryRestoredSshTab. rewrite Ef. pose proof H as (R1 & R2 & R3).
  assert (∀ f, caps_inv (map_tab tabId f (sm_tabs s)) (sm_runs s) (sm_next s) (sm_captures s) (sm_stops s) (sm_timers s) ∧
    sessions_inv (map_tab tabId f (sm_tabs s)) (sm_sessions s) (sm_calls s)) as Hother.
  { intros f. split.
    - apply caps_map_tab; [done|]. intros tab' c Hin' E' _ _ _ _ Hc'. by rewrite (Hone tab' Hin' E') in Hc'.
    - apply sessions_map_tab; [done|]. intros tab' sid Hin' E' _ Hs' Hne. rewrite (Hone tab' Hin' E') in Hs'.
      rewrite Hs' in Hsid. apply truthy_Some in Hne. congruence. }
  destruct (jsmap_get (tb_connectionId tab) (sm_profiles s) ≫= _) as [connection|] eqn:Ep.
  - unfold startConnectionStep. rewrite E. assert (js_or (Some tabId) None = Some tabId) as -> by (unfold js_or; by rewrite (proj2 (truthy_Some tabId))).
    cbn [mbind option_bind]. rewrite Ef. set (step := new_step connection StepTerminal now).
    set (built := mkStepTab _ _ _ _ _ _ _ _ _ _ _ _). change (tb_id built) with (tb_id tab). rewrite E.
    assert (tab_ok built) as Hbuilt by (split; [done|by exists step]).
    assert (steps_ok (if sp_prompts connection then set_tabs (map_tab tabId (λ _, built) (sm_tabs s)) s
      else run_step tabId step (set_tabs (map_tab tabId (λ _, built) (sm_tabs s)) s))) as Hmain.
    { destruct (sp_prompts connection) eqn:Epr.
      - split_and!; cbn; [|apply Hother..]. apply runs_keep_tab; [done|]. intros tab' Hin' E' _. rewrite (Hone tab' Hin' E').
        split_and!; [done|done|]. rewrite Hb. unfold busy, cs_status. cbn. by rewrite Epr.
      - unfold run_step. apply ok_runConnectionStep; [|done|done].
        apply (inv_start_tab s tabId (λ _, built) (next_run tabId step s)); [done|done|done|apply running_ok|by exists tab|].
        intros tab' Hin' E' _. split_and!; [change (tb_id tab = tb_id tab'); congruence|done|]. unfold busy, cs_status. cbn. by rewrite Epr. }
    destruct (sp_protocol connection) as [[]|]; try exact Hmain; by apply inv_calls.
  - split_and!; cbn; [|apply Hother..]. apply runs_keep_tab; [done|]. intros tab' Hin' E' Hok'. rewrite (Hone tab' Hin' E') in *.
    unfold tab_ok, busy in *. cbn. rewrite Hty in *. destruct Hok' as [Hok' _]. split_and!; [done|done| |].
    + intros Hbad. by vm_compute in Hbad.
    + by rewrite Hb.
Qed.

Lemma ok_direct s connection title command nonce : steps_ok s → event_fresh s (EvDirect connection title command nonce) →
  steps_ok (openDirectTerminal connection title command nonce s).
Proof.
  intros H Hf. unfold openDirectTerminal. set (tab := buildDirectTerminalTab _ _ _ _ _).
  assert (fresh_id (tb_id tab) s) as [Hn Hnr]%fresh_ne by done. pose proof H as (R1 & R2 & R3).
  unfold steps_ok. eapply (inv_perm (mkRun (sm_next s) (tb_id tab) (sm_profiles s) (RunDirectListen (mkDirect connection (sm_next s) command)) :: sm_runs s)).
  { cbn. by rewrite Permutation_app_comm. }
  split_and!; cbn.
  - apply runs_add_run; [done|done|done| |done|done|done|done]. by split.
  - apply caps_start; [|done]. by apply caps_add_tab.
  - apply sessions_calls. intros sid Hin Hne. destruct (R3 sid Hin Hne) as [(tab' & ? & ?)|?]; [left; exists tab'|by right].
    split; [set_solver|done].
Qed.

(** *** Closing, output and timers *)

(** Stopping the captures of tabs stops every one of them. *)
Lemma inv_stops R tabs s : inv R s →
  let s' := foldl (λ s tab, stopTerminalWarmupCapture (tb_id tab) s) s tabs in
  inv R s' ∧ sm_tabs s' = sm_tabs s ∧ sm_runs s' = sm_runs s ∧ (∀ tab, tab ∈ tabs → no_live (tb_id tab) s').
Proof.
  revert s. induction tabs as [|tab tabs IH]; intros s H; cbn; [split_and!; [done|done|done|by intros ? ?%elem_of_nil]|].
  destruct (inv_stop _ _ (tb_id tab) H) as [Hi Hn]. destruct (stop_same (tb_id tab) s) as (E1 & E2 & _).
  destruct (IH _ Hi) as (I1 & I2 & I3 & I4). split_and!; [done|congruence|congruence|].
  intros tab' [->|Hin]%elem_of_cons; [|by apply I4]. revert Hn. clear.
  generalize (stopTerminalWarmupCapture (tb_id tab) s) as s0. induction tabs as [|t tabs IH]; intros s0 Hn; cbn; [done|].
  apply IH. intros c Hc Hl. unfold stopTerminalWarmupCapture in Hc. destruct (sm_stops s0 !! tb_id t) as [n|]; [|by apply Hn].
  cbn in Hc. apply elem_of_map_capture in Hc as (c0 & Hc0 & [[_ ->]|[_ ->]]); [done|by apply Hn].
Qed.

Lemma closed_session tabs sid tab : tab ∈ tabs → tb_sessionId tab = Some sid → sid ≠ "" → sid ∈ closing_sessions tabs.
Proof.
  intros Hin Hs Hne. unfold closing_sessions. apply elem_of_remove_dups, list_elem_of_omap. exists tab. split; [done|].
  rewrite Hs. unfold js_or. by rewrite (proj2 (truthy_Some sid)).
Qed.

Lemma ok_close s tabIds : steps_ok s → steps_ok (close_tabs tabIds s).
Proof.
  intros H. unfold close_tabs. set (closing := filter (λ tab, tb_id tab ∈ tabIds) (sm_tabs s)).
  destruct (inv_stops _ closing s H) as ((R1 & [C1 C2 C3 C4 C5 C6] & R3) & Et & Er & Hn). cbn zeta in *.
  set (s1 := foldl _ s closing) in *. unfold steps_ok. cbn. rewrite Er. split_and!; cbn.
  - by apply runs_filter_tabs.
  - split; [done..|]. intros c Hc Hl Hh. destruct (C6 c Hc Hl Hh) as (Htm & tab & Hin & E & Hcon). split; [done|].
    exists tab. split; [|done]. apply list_elem_of_filter. split; [|done]. intros Hid. rewrite Et in Hin.
    apply (Hn tab) in Hl; [congruence| |done]. by apply list_elem_of_filter.
  - intros sid Hin Hne. destruct (R3 sid Hin Hne) as [(tab & Htab & Hty & Hs)|?]; [|right; set_solver].
    destruct (decide (tb_id tab ∈ tabIds)) as [Hid|Hid].
    + right. apply elem_of_app. right. apply list_elem_of_fmap_2. eapply closed_session; [|done..].
      apply list_elem_of_filter. by rewrite <- Et.
    + left. exists tab. split; [|done]. by apply list_elem_of_filter.
Qed.

Lemma append_same data tab :
  tb_id (append_warmup data tab) = tb_id tab ∧ tb_type (append_warmup data tab) = tb_type tab ∧
  tb_connectionStep (append_warmup data tab) = tb_connectionStep tab ∧ tb_status (append_warmup data tab) = tb_status tab ∧
  tb_sessionId (append_warmup data tab) = tb_sessionId tab ∧ tb_requestId (append_warmup data tab) = tb_requestId tab.
Proof. unfold append_warmup. by case_decide. Qed.

Lemma ok_append t data s : steps_ok s → steps_ok (appendTerminalWarmupOutput t data s).
Proof.
  intros (R1 & R2 & R3). assert (∀ tab, let tab' := append_warmup data tab in tb_id tab' = tb_id tab ∧ tab_ok tab' = tab_ok tab ∧
    busy tab' = busy tab ∧ connected tab' = connected tab ∧ tb_type tab' = tb_type tab ∧ tb_sessionId tab' = tb_sessionId tab) as Hs.
  { intros tab. destruct (append_same data tab) as (E1 & E2 & E3 & E4 & E5 & _). cbn zeta. unfold tab_ok, busy, connected.
    by rewrite E1, E2, E3, E4, E5. }
  split_and!; cbn.
  - apply runs_keep_tab; [done|]. intros tab _ _ Hok. destruct (Hs tab) as (-> & -> & -> & _). done.
  - apply caps_map_tab; [done|]. intros tab c _ E _ _ _ _ Hc. destruct (Hs tab) as (-> & _ & _ & -> & _). done.
  - apply sessions_map_tab; [done|]. intros tab sid _ _ Hty Hsid _. by destruct (Hs tab) as (_ & _ & _ & _ & -> & ->).
Qed.

Lemma ok_hear request data c s : steps_ok s → steps_ok (hear request data s c).
Proof.
  intros H. unfold hear. case_decide; [|done]. destruct (cp_handoff c); [by apply ok_append|].
  destruct H as (R1 & [C1 C2 C3 C4 C5 C6] & R3). split_and!; cbn; [done|split|done].
  - by rewrite map_capture_requests.
  - intros c' (c0 & Hc & [[Ec ->]|[Ec ->]])%elem_of_map_capture; exact (C2 c0 Hc).
  - intros r c' Hr Hb (c0 & Hc & [[Ec ->]|[Ec ->]])%elem_of_map_capture; exact (C3 r c0 Hr Hb Hc).
  - intros c' (c0 & Hc & [[Ec ->]|[Ec ->]])%elem_of_map_capture; exact (C4 c0 Hc).
  - intros c' (c0 & Hc & [[Ec ->]|[Ec ->]])%elem_of_map_capture; exact (C5 c0 Hc).
  - intros c' (c0 & Hc & [[Ec ->]|[Ec ->]])%elem_of_map_capture; exact (C6 c0 Hc).
Qed.

Lemma ok_output request data s : steps_ok s → steps_ok (output_heard request data s).
Proof.
  unfold output_heard. generalize (sm_captures s) as l. intros l. revert s. induction l as [|c l IH]; intros s H; [done|].
  cbn. apply IH. by apply ok_hear.
Qed.

Lemma ok_stop t s : steps_ok s → steps_ok (stopTerminalWarmupCapture t s).
Proof.
  intros H. destruct (stop_same t s) as (_ & E & _). unfold steps_ok. rewrite E. by apply inv_stop.
Qed.

Lemma ok_timer t i x s : steps_ok s → list_find (eq t) (sm_timers s) = Some (i, x) →
  steps_ok (stopTerminalWarmupCapture t (set_timers (delete i (sm_timers s)) s)).
Proof.
  intros H (Hi & <- & _)%list_find_Some.
  assert (stopTerminalWarmupCapture t (set_timers (delete i (sm_timers s)) s) =
    set_timers (delete i (sm_timers s)) (stopTerminalWarmupCapture t s)) as ->.
  { unfold stopTerminalWarmupCapture. cbn. by destruct (sm_stops s !! t). }
  destruct (inv_stop _ _ t H) as [(R1 & [C1 C2 C3 C4 C5 C6] & R3) Hn]. destruct (stop_same t s) as (_ & E & _ & Etm & _).
  unfold steps_ok. cbn. rewrite E. split_and!; cbn; [done|split|done]; try done.
  intros c Hc Hl Hh. destruct (C6 c Hc Hl Hh) as [Htm Hcon]. split; [|done]. rewrite Etm in Htm.
  apply list_elem_of_lookup in Htm as [j Hj]. apply list_elem_of_lookup.
  destruct (decide (j < i)) as [Hlt|Hge]; [exists j; by rewrite list_lookup_delete_lt|].
  assert (j ≠ i) as Hne by (intros ->; rewrite Hi in Hj; injection Hj as Hj; by apply (Hn c Hc Hl)).
  exists (j - 1). rewrite list_lookup_delete_ge by lia. by replace (S (j - 1)) with j by lia.
Qed.

Lemma steps_step_ok s e : steps_ok s → event_fresh s e → steps_ok (steps_step s e).
Proof.
  intros H Hf. destruct e; cbn [steps_step].
  - by apply ok_start.
  - by apply ok_direct.
  - destruct (shows_retry tabId s) eqn:E; [by apply ok_retry_restored|done].
  - unfold on_step. destruct (shown_step tabId StError s) eqn:E; [by apply ok_retry|done].
  - unfold on_step. destruct (shown_step tabId StWaitingHostKey s) eqn:E; [by apply ok_trust|done].
  - unfold on_step. destruct (shown_step tabId StPrompt s) eqn:E; [by apply ok_submit|done].
  - unfold on_step. destruct (shown_step tabId StPrompt s) eqn:E; [by eapply ok_edit|done].
  - by apply ok_close.
  - destruct (js_find _ _) as [r|] eqn:E; [|done]. apply js_find_Some in E as [Hin <-]. apply ok_settle_run. by apply inv_taken.
  - by apply ok_output.
  - destruct (list_find _ _) as [[i x]|] eqn:E; [by eapply ok_timer|done].
  - destruct (panel_shown tabId s); [by apply ok_stop|done].
  - destruct (panel_shown tabId s) eqn:E; [by apply ok_write_failed|done].
  - done.
Qed.

Lemma steps_run_ok s events : steps_ok s → events_fresh s events → steps_ok (steps_run s events).
Proof.
  revert s. induction events as [|e events IH]; intros s H Hf; [done|]. destruct Hf as [H1 H2]. cbn. apply IH; [|done].
  by apply steps_step_ok.
Qed.

(** The tabs of a restored workspace: terminals without a session. *)
Definition restored_tabs (tabs : list StepTab) : Prop :=
  NoDup (tb_id <$> tabs) ∧
  ∀ tab, tab ∈ tabs → tb_type tab = TabTerminal ∧ tb_connectionStep tab = None ∧ tb_sessionId tab = None ∧ tb_status tab ≠ connecting_text.

Lemma steps_initial_ok tabs profiles : restored_tabs tabs → steps_ok (initialSteps tabs profiles).
Proof.
  intros [Hnd Ht]. split_and!; cbn; [split|split|].
  - done.
  - intros tab Hin. unfold tab_ok. destruct (Ht tab Hin) as (-> & -> & -> & _). done.
  - apply NoDup_nil_2.
  - apply NoDup_nil_2.
  - by intros r ?%elem_of_nil.
  - intros tab k Hin. unfold busy. destruct (Ht tab Hin) as (-> & _ & _ & Hs). apply String.eqb_neq in Hs. rewrite Hs.
    split; [done|]. by intros (r & ?%elem_of_nil & _).
  - apply NoDup_nil_2.
  - by intros c ?%elem_of_nil.
  - by intros r c ?%elem_of_nil.
  - by intros c ?%elem_of_nil.
  - by intros c ?%elem_of_nil.
  - by intros c ?%elem_of_nil.
  - by intros sid ?%elem_of_nil.
Qed.

(** ** Output before the terminal is shown *)

(** What has been kept of a capture: what the tab shows after the hand-over. *)
Definition kept (tabs : list StepTab) (c : Capture) : list Z :=
  if cp_handoff c then from_option tb_warmupOutput [] (js_find (λ tab, tb_id tab = cp_tab c) tabs) else cp_buffer c.

Definition live_output (n : nat) (s : Steps) : option (list Z) :=
  kept (sm_tabs s) <$> js_find (λ c, cp_request c = n ∧ cp_live c = true) (sm_captures s).

Definition heard (n : nat) (e : StepEvent) : list Z :=
  match e with EvOutput request data => if decide (request = n) then data else [] | _ => [] end.

Definition has_capture (n : nat) (s : Steps) : Prop := n ∈ (cp_request <$> sm_captures s).

(** A step that hears nothing: what is still live afterwards has the same output. *)
Definition quiet (n : nat) (s s' : Steps) : Prop :=
  has_capture n s → has_capture n s' ∧ ∀ l, live_output n s' = Some l → live_output n s = Some l.

Lemma quiet_refl n s : quiet n s s.
Proof. by intros H. Qed.

Lemma quiet_trans n s1 s2 s3 : quiet n s1 s2 → quiet n s2 s3 → quiet n s1 s3.
Proof. intros H1 H2 H. destruct (H1 H) as [Ha Hb]. destruct (H2 Ha) as [Hc Hd]. split; [done|]. intros l Hl. by apply Hb, Hd. Qed.

Lemma find_map_tab t f tabs id0 : (∀ tab, tb_id tab = t → tb_id (f tab) = t) →
  js_find (λ tab, tb_id tab = id0) (map_tab t f tabs) =
    (λ tab, if decide (tb_id tab = t) then f tab else tab) <$> js_find (λ tab, tb_id tab = id0) tabs.
Proof.
  intros Hf. unfold js_find, map_tab. rewrite list_find_fmap, <- !option_fmap_compose.
  assert (list_find ((λ tab, tb_id tab = id0) ∘ (λ tab, if decide (tb_id tab = t) then f tab else tab)) tabs =
    list_find (λ tab, tb_id tab = id0) tabs) as ->; [|by destruct (list_find _ tabs) as [[]|]].
  apply list_find_ext. intros tab. cbn. case_decide as E; [|done]. rewrite (Hf tab E), E. done.
Qed.

(** A change of tabs that keeps the output of the tabs that captures were handed to. *)
Lemma quiet_tabs n s t f : (∀ tab, tb_id tab = t → tb_id (f tab) = t) →
  (∀ c, c ∈ sm_captures s → cp_live c = true → cp_handoff c = true → cp_tab c = t →
    ∀ tab, tab ∈ sm_tabs s → tb_id tab = t → tb_warmupOutput (f tab) = tb_warmupOutput tab) →
  quiet n s (set_tabs (map_tab t f (sm_tabs s)) s).
Proof.
  intros Hid Hf H. split; [done|]. unfold live_output. cbn. intros l.
  destruct (js_find (λ c, cp_request c = n ∧ cp_live c = true) (sm_captures s)) as [c|] eqn:E; [|done]. cbn. intros [= <-]. f_equal.
  apply js_find_Some in E as [Hin [Hn Hl]]. unfold kept. destruct (cp_handoff c) eqn:Eh; [|done]. rewrite find_map_tab by done.
  destruct (js_find _ (sm_tabs s)) as [tab|] eqn:Ef; [|done]. cbn. apply js_find_Some in Ef as [Htab Et].
  case_decide as Ed; [|done]. symmetry. apply (Hf c); [done|done|done|congruence|done|done].
Qed.

(** The tab of a run has no capture that was handed over. *)
Lemma handed_other R s c t : inv R s → (∀ tab, tab ∈ sm_tabs s → tb_id tab = t → ¬ connected tab) →
  c ∈ sm_captures s → cp_live c = true → cp_handoff c = true → cp_tab c ≠ t.
Proof.
  intros (_ & H & _) Hn Hc Hl Hh Et. destruct (ci_handed _ _ _ _ _ _ H c Hc Hl Hh) as (_ & tab & Hin & E & Hcon).
  apply (Hn tab Hin); congruence.
Qed.

Lemma run_not_connected R s r tab : inv R s → r ∈ R → tab ∈ sm_tabs s → tb_id tab = run_tab r → ¬ connected tab.
Proof. intros H Hr Hin E (_ & _ & [x Hx]). destruct (tab_of_run _ _ _ _ H Hr Hin E) as (_ & _ & Hn). congruence. Qed.

Lemma quiet_run_tab n R s r f : inv R s → r ∈ R → (∀ tab, tb_id (f tab) = tb_id tab) →
  quiet n s (set_tabs (map_tab (run_tab r) f (sm_tabs s)) s).
Proof.
  intros H Hr Hf. apply quiet_tabs; [intros tab E; by rewrite Hf|]. intros c Hc Hl Hh Et. exfalso.
  eapply (handed_other R s c (run_tab r)); [done| |done..]. intros tab Hin E. by eapply run_not_connected.
Qed.

(** Calls, runs and timers are not heard. *)
Lemma quiet_same n s s' : sm_tabs s' = sm_tabs s → sm_captures s' = sm_captures s → quiet n s s'.
Proof. intros E1 E2 H. unfold has_capture, live_output in *. by rewrite E1, E2. Qed.

Lemma find_map_capture m f captures n : (∀ c, cp_request (f c) = cp_request c) → m ≠ n →
  js_find (λ c, cp_request c = n ∧ cp_live c = true) (map_capture m f captures) =
  js_find (λ c, cp_request c = n ∧ cp_live c = true) captures.
Proof.
  intros Hf Hne. induction captures as [|c l IH]; [done|].
  change (map_capture m f (c :: l)) with ((if decide (cp_request c = m) then f c else c) :: map_capture m f l).
  rewrite !js_find_cons, IH. destruct (decide (cp_request c = m)) as [E|E]; [|done].
  rewrite !(decide_False (P := _ ∧ _)) by (rewrite ?Hf; intros [? _]; congruence). done.
Qed.

Lemma quiet_stop n t s : quiet n s (stopTerminalWarmupCapture t s).
Proof.
  intros H. unfold stopTerminalWarmupCapture. destruct (sm_stops s !! t) as [m|]; [|done]. split.
  - unfold has_capture in *. cbn. by rewrite map_capture_requests.
  - intros l. unfold live_output. cbn. destruct (decide (m = n)) as [->|Hne]; [|by rewrite find_map_capture].
    destruct (js_find _ (map_capture n _ _)) as [c|] eqn:E; [|done]. exfalso. apply js_find_Some in E as [Hin [Hn Hl]].
    apply elem_of_map_capture in Hin as (c0 & _ & [[_ ->]|[? ->]]); [done|congruence].
Qed.

Lemma quiet_listen n t m s : m ≠ n → quiet n s (start_capture t m s).
Proof.
  intros Hne H. destruct (quiet_stop n t s H) as [Ha Hb]. split.
  - unfold has_capture in *. cbn. rewrite fmap_app. apply elem_of_app. by left.
  - intros l Hl. apply Hb. revert Hl. unfold live_output, start_capture. cbn. rewrite js_find_app.
    destruct (js_find _ (sm_captures (stopTerminalWarmupCapture t s))) as [c|]; [done|].
    rewrite js_find_cons, decide_False by (cbn; intros [? _]; congruence). done.
Qed.

Lemma quiet_update n t step s : steps_ok s → (∀ tab, tab ∈ sm_tabs s → tb_id tab = t → ¬ connected tab) →
  quiet n s (updateConnectingTabStep t step s).
Proof.
  intros H Hn. apply quiet_tabs; [done|]. intros c Hc Hl Hh Et. exfalso. by eapply (handed_other _ s c t).
Qed.

Lemma run_shown_same r step running s :
  sm_tabs (run_shown r step running s) = sm_tabs s ∧ sm_captures (run_shown r step running s) = sm_captures s.
Proof.
  unfold run_shown, listen_or_test, connect_call. by destruct (temporary_ref step), (cs_temporaryCredentialsReady step), (cs_mode step).
Qed.

Lemma quiet_run_shown n r step running s : quiet n s (run_shown r step running s).
Proof. destruct (run_shown_same r step running s) as [E1 E2]. by apply quiet_same. Qed.

Lemma quiet_runConnectionStep n R r step s : inv R s → r ∈ R → quiet n s (runConnectionStep r step s).
Proof.
  intros H Hr. eapply quiet_trans; [|apply quiet_run_shown]. by eapply quiet_run_tab.
Qed.

(** A run takes its capture's output to its tab. *)
Lemma quiet_hand_over n r R s f : inv (r :: R) s → (∃ tab, tab ∈ sm_tabs s ∧ tb_id tab = run_tab r) →
  (∀ tab, tb_id (f tab) = tb_id tab ∧ tb_warmupOutput (f tab) = captured (run_id r) (hand_over (run_id r) s)) →
  quiet n s (set_tabs (map_tab (run_tab r) f (sm_tabs s)) (hand_over (run_id r) s)).
Proof.
  intros H (tab0 & Hin0 & E0) Hf Hhas. pose proof H as (H1 & Hc & _).
  assert (Hother : ∀ c, c ∈ sm_captures s → cp_live c = true → cp_handoff c = true →
    kept (map_tab (run_tab r) f (sm_tabs s)) c = kept (sm_tabs s) c).
  { intros c Hin Hl Hh. unfold kept. rewrite Hh, find_map_tab by (intros tab E; by rewrite (proj1 (Hf tab))).
    destruct (js_find _ (sm_tabs s)) as [tab|] eqn:Ef; [|done]. apply js_find_Some in Ef as [Htab Et]. cbn.
    rewrite decide_False; [done|]. rewrite Et. eapply handed_other; [exact H| |done..].
    intros tab' Htab' E'. eapply run_not_connected; [exact H|left|done..]. }
  split; [unfold has_capture in *; cbn; by rewrite map_capture_requests|]. unfold live_output. cbn. intros l.
  destruct (decide (run_id r = n)) as [<-|Hne].
  - destruct (js_find (λ c, cp_request c = run_id r ∧ cp_live c = true) (map_capture _ _ _)) as [c'|] eqn:E; [|done].
    apply js_find_Some in E as [Hin' [Hn' Hl']]. apply elem_of_map_capture in Hin' as (c & Hin & [[_ ->]|[Hbad ->]]); [|done].
    cbn in Hn', Hl'. destruct (js_find (λ c, cp_request c = run_id r ∧ cp_live c = true) (sm_captures s)) as [c0|] eqn:E.
    2: { exfalso. rewrite js_find_None in E. by apply (E c). }
    assert (Huniq : ∀ c1, c1 ∈ sm_captures s → cp_request c1 = run_id r → c1 = c).
    { intros c1 Hc1 Hr1. eapply (NoDup_fmap_inj_elem cp_request); [apply (ci_requests _ _ _ _ _ _ Hc)|done..|congruence]. }
    apply js_find_Some in E as [Hc0 [Hn0 _]]. rewrite (Huniq c0 Hc0 Hn0). cbn. intros [= <-]. f_equal.
    destruct (cp_handoff c) eqn:Eh; [specialize (Hother c Hin Hl' Eh); unfold kept in *; rewrite Eh in *; by rewrite <- Hother|].
    unfold kept. rewrite Eh.
    destruct (ci_waiting _ _ _ _ _ _ Hc c Hin Hl' Eh) as (r' & Hr' & E1 & E2). assert (r' = r) as ->.
    { eapply (NoDup_fmap_inj_elem run_id); [apply (ri_run_ids _ _ _ H1)|done|left|congruence]. }
    rewrite <- E2, find_map_tab by (intros tab E; by rewrite (proj1 (Hf tab))).
    destruct (js_find (λ tab, tb_id tab = run_tab r) (sm_tabs s)) as [tab|] eqn:Ef.
    2: { rewrite js_find_None in Ef. by destruct (Ef tab0). }
    apply js_find_Some in Ef as [_ Et]. cbn. rewrite decide_True, (proj2 (Hf tab)) by done. unfold captured, hand_over. cbn.
    destruct (js_find (λ c, cp_request c = run_id r) (map_capture _ _ _)) as [c2|] eqn:E3.
    + apply js_find_Some in E3 as [Hin2 Hn2]. apply elem_of_map_capture in Hin2 as (c3 & Hin3 & [[Er ->]|[Hbad ->]]); [|done].
      cbn. by rewrite (Huniq c3 Hin3 Er).
    + exfalso. rewrite js_find_None in E3. eapply E3; [apply list_elem_of_fmap; exists c; split; [reflexivity|done]|]. by rewrite decide_True.
  - rewrite find_map_capture by done. destruct (js_find _ (sm_captures s)) as [c|] eqn:E; [|done]. apply js_find_Some in E as [Hin [Hn Hl]].
    cbn. intros [= <-]. f_equal. destruct (cp_handoff c) eqn:Eh; [by rewrite Hother|]. unfold kept. by rewrite Eh.
Qed.

(** Past the listener only the tab of the run changes. *)
Lemma quiet_stop_tab n R s r f : inv R s → r ∈ R → (∀ tab, tb_id (f tab) = tb_id tab) →
  quiet n s (set_tabs (map_tab (run_tab r) f (sm_tabs s)) (stopTerminalWarmupCapture (run_tab r) s)).
Proof.
  intros H Hr Hf. eapply quiet_trans; [apply (quiet_stop n (run_tab r))|].
  destruct (stop_same (run_tab r) s) as (Et & _). rewrite <- Et. eapply quiet_run_tab; [by apply inv_stop|done|done].
Qed.

Lemma quiet_fail n r s f (b : bool) : inv (r :: sm_runs s) s → (∀ tab, tb_id (f tab) = tb_id tab) →
  quiet n s (let s' := stopTerminalWarmupCapture (run_tab r) s in if b then set_tabs (map_tab (run_tab r) f (sm_tabs s')) s' else s').
Proof.
  intros H Hf. cbv zeta. destruct (stop_same (run_tab r) s) as (Et & _). rewrite Et. destruct b; [|apply quiet_stop].
  eapply quiet_stop_tab; [done|left|done].
Qed.

Lemma quiet_connected n r s f : inv (r :: sm_runs s) s → (∃ tab, tab ∈ sm_tabs s ∧ tb_id tab = run_tab r) →
  (∀ tab, tb_id (f tab) = tb_id tab ∧ tb_warmupOutput (f tab) = captured (run_id r) (hand_over (run_id r) s)) →
  ∀ s', sm_tabs s' = map_tab (run_tab r) f (sm_tabs s) → sm_captures s' = sm_captures (hand_over (run_id r) s) → quiet n s s'.
Proof.
  intros H He Hf s' E1 E2. eapply quiet_trans; [by apply (quiet_hand_over n r (sm_runs s) s f)|]. by apply quiet_same.
Qed.

Lemma quiet_settle_connect n r step sid s : inv (r :: sm_runs s) s → run_kind r = true → quiet n s (settle_connect r step sid s).
Proof.
  intros H Hk. unfold settle_connect. change (connectingTabExists (run_tab r) (returned sid s)) with (connectingTabExists (run_tab r) s).
  destruct (connectingTabExists (run_tab r) s) eqn:E.
  - apply exists_connecting in E as (tab0 & Hin0 & E0 & _).
    eapply (quiet_connected n r s (λ tab, mkStepTab (tb_id tab) (tb_connectionId tab) None None (tb_ordinal tab) (Some (run_id r))
      (Some sid) connected_text (tb_temporaryContextRef tab) (terminalTabTitle (tb_ordinal tab)) TabTerminal _));
      [done|by exists tab0|by intros tab|by destruct (cs_temporary step)..].
  - eapply quiet_trans; [apply (quiet_stop n (run_tab r))|]. apply quiet_same; unfold stopTerminalWarmupCapture; cbn; by destruct (sm_stops s !! run_tab r).
Qed.

Lemma quiet_settle_direct n r d sid s : inv (r :: sm_runs s) s → dr_request d = run_id r → quiet n s (settle_direct r d sid s).
Proof.
  intros H Hd. unfold settle_direct. rewrite Hd.
  change (terminalTabExists (run_tab r) (returned sid s)) with (terminalTabExists (run_tab r) s).
  destruct (terminalTabExists (run_tab r) s) eqn:E.
  - apply exists_terminal in E as (tab0 & Hin0 & E0).
    eapply (quiet_connected n r s (direct_shown None (run_id r) (Some sid) connected_text _)); [done|by exists tab0|by intros tab|done..].
  - eapply quiet_trans; [apply (quiet_stop n (run_tab r))|]. apply quiet_same; unfold stopTerminalWarmupCapture; cbn; by destruct (sm_stops s !! run_tab r).
Qed.

(** A listener that starts is not one of those that are there. *)
Lemma quiet_start n r s s' : inv (r :: sm_runs s) s → before_capture (run_phase r) = true →
  quiet n (start_capture (run_tab r) (run_id r) s) s' → quiet n s s'.
Proof.
  intros (_ & H & _) Hb Hq Hhas. apply list_elem_of_fmap in Hhas as (c & -> & Hc).
  assert (cp_request c ≠ run_id r) as Hne by (apply (ci_before _ _ _ _ _ _ H r c); [left|done..]).
  refine (quiet_trans _ _ _ _ _ Hq _); [apply quiet_listen; congruence|by apply list_elem_of_fmap_2].
Qed.

Lemma quiet_settle_run n r answer s : inv (r :: sm_runs s) s → quiet n s (settle_run r answer s).
Proof.
  intros H. pose proof H as (H1 & _ & _). assert (run_ok r) as Hok by (apply (ri_runs _ _ _ H1); left).
  unfold settle_run, run_ok in *.
  destruct (run_phase r) as [next|step running|step running|step running|step running|d|d] eqn:Ep;
    assert (Hk : run_kind r = match run_phase r with RunDirectListen _ | RunDirectConnect _ => false | _ => true end) by done;
    rewrite Ep in Hk; destruct answer as [|sid|error]; try by apply quiet_same.
  - eapply quiet_runConnectionStep; [done|left].
  - unfold fail_trust. destruct (connectingTabExists _ _); [|by apply quiet_refl]. eapply quiet_run_tab; [done|left|done].
  - eapply (quiet_trans _ _ (updateConnectingTabStep (run_tab r) (with_ready true running) s)).
    + eapply quiet_run_tab; [done|left|done].
    + apply quiet_same; unfold listen_or_test, connect_call; by destruct (cs_mode step).
  - apply quiet_fail; [done|done].
  - eapply quiet_start; [done|by rewrite Ep|]. apply quiet_same; unfold connect_call; by destruct (cs_mode step).
  - apply quiet_fail; [done|done].
  - unfold settle_test. destruct (connectingTabExists _ _); [|by apply quiet_refl].
    eapply (quiet_trans _ _ (updateConnectingTabStep (run_tab r) (test_passed running) s)); [|by apply quiet_same].
    eapply quiet_run_tab; [done|left|done].
  - apply quiet_fail; [done|done].
  - by apply quiet_settle_connect.
  - apply quiet_fail; [done|done].
  - rewrite Hok. eapply quiet_start; [done|by rewrite Ep|]. by apply quiet_same.
  - unfold fail_direct. by apply quiet_fail.
  - by apply quiet_settle_direct.
  - unfold fail_direct. by apply quiet_fail.
Qed.

(** *** Every event *)

Lemma quiet_add_tab n s tab : steps_ok s → quiet n s (set_tabs (sm_tabs s ++ [tab]) s).
Proof.
  intros (_ & Hc & _) H. split; [done|]. intros l. unfold live_output. cbn.
  destruct (js_find _ (sm_captures s)) as [c|] eqn:E; [|done]. apply js_find_Some in E as [Hin [_ Hl]]. cbn. intros [= <-]. f_equal.
  unfold kept. destruct (cp_handoff c) eqn:Eh; [|done].
  destruct (ci_handed _ _ _ _ _ _ Hc c Hin Hl Eh) as (_ & tab' & Htab & Et & _). rewrite js_find_app.
  destruct (js_find _ (sm_tabs s)) as [t0|] eqn:Ef; [done|]. rewrite js_find_None in Ef. by destruct (Ef tab').
Qed.

Lemma quiet_run_step n t step s : steps_ok s → (∀ tab, tab ∈ sm_tabs s → tb_id tab = t → ¬ connected tab) →
  quiet n s (run_step t step s).
Proof.
  intros H Hn. unfold run_step, runConnectionStep. eapply quiet_trans; [|apply quiet_run_shown].
  eapply (quiet_trans _ _ (updateConnectingTabStep t (running_step step) s)); [by apply quiet_update|by apply quiet_same].
Qed.

Lemma quiet_start_step n s connection mode now : steps_ok s → event_fresh s (EvStart connection mode now) →
  quiet n s (startConnectionStep connection mode now None s).
Proof.
  intros H Hf. unfold startConnectionStep. cbn [js_or truthy mbind option_bind nonempty].
  set (step := new_step connection mode now). set (tab := buildConnectingTab (sm_tabs s) connection step).
  assert (fresh_id (tb_id tab) s) as [Hn _]%fresh_ne by done.
  assert (quiet n s (if sp_prompts connection then set_tabs (sm_tabs s ++ [tab]) s
    else run_step (tb_id tab) step (set_tabs (sm_tabs s ++ [tab]) s))) as Hmain.
  { destruct (sp_prompts connection); [by apply quiet_add_tab|].
    eapply quiet_trans; [by apply (quiet_add_tab n s tab)|]. unfold run_step, runConnectionStep.
    eapply quiet_trans; [|apply quiet_run_shown].
    eapply (quiet_trans _ _ (updateConnectingTabStep (tb_id tab) (running_step step) (set_tabs (sm_tabs s ++ [tab]) s)));
      [|by apply quiet_same].
    apply quiet_tabs; [done|]. intros c Hc Hl Hh Et. exfalso. destruct H as (_ & Hci & _).
    destruct (ci_handed _ _ _ _ _ _ Hci c Hc Hl Hh) as (_ & tab' & Htab' & E' & _). apply (Hn tab' Htab'). congruence. }
  destruct (sp_protocol connection) as [[]|]; try exact Hmain; by apply quiet_same.
Qed.

Lemma quiet_retry_restored n s tabId now : steps_ok s → tabId ≠ "" → shows_retry tabId s = true →
  quiet n s (retryRestoredSshTab tabId now s).
Proof.
  intros H Hid Hs. destruct (retry_tab _ _ H Hs) as (tab & Ef & E & Hin & Hb & Hty & Hst & Hc & Hsid & Hone).
  unfold retryRestoredSshTab. rewrite Ef.
  assert (Hq : ∀ f, (∀ tab, tb_id tab = tabId → tb_id (f tab) = tabId) → quiet n s (set_tabs (map_tab tabId f (sm_tabs s)) s)).
  { intros f Hf. apply quiet_tabs; [done|]. intros c Hcin Hl Hh Et. exfalso. eapply (handed_other _ s c tabId); [exact H| |done..].
    intros tab' Hin' E'. by rewrite (Hone tab' Hin' E'). }
  destruct (jsmap_get (tb_connectionId tab) (sm_profiles s) ≫= _) as [connection|] eqn:Ep; [|by apply Hq].
  unfold startConnectionStep. rewrite E. assert (js_or (Some tabId) None = Some tabId) as -> by (unfold js_or; by rewrite (proj2 (truthy_Some tabId))).
  cbn [mbind option_bind]. rewrite Ef. set (step := new_step connection StepTerminal now).
  set (built := mkStepTab _ _ _ _ _ _ _ _ _ _ _ _). change (tb_id built) with (tb_id tab). rewrite E.
  assert (quiet n s (if sp_prompts connection then set_tabs (map_tab tabId (λ _, built) (sm_tabs s)) s
    else run_step tabId step (set_tabs (map_tab tabId (λ _, built) (sm_tabs s)) s))) as Hmain.
  { destruct (sp_prompts connection); [by apply Hq|]. unfold run_step, runConnectionStep.
    eapply quiet_trans; [|apply quiet_run_shown].
    eapply (quiet_trans _ _ (set_tabs (map_tab tabId (λ tab, step_shown (running_step step) built) (sm_tabs s)) s)); [by apply Hq|].
    apply quiet_same; [|done]. cbn. unfold map_tab. rewrite <- list_fmap_compose. apply list_fmap_ext. intros i x _. cbn.
    destruct (decide (tb_id x = tabId)) as [Ex|Ex]; [by rewrite decide_True|by rewrite decide_False]. }
  destruct (sp_protocol connection) as [[]|]; try exact Hmain; by apply quiet_same.
Qed.

Lemma quiet_close n s tabIds : steps_ok s → quiet n s (close_tabs tabIds s).
Proof.
  intros H. unfold close_tabs. set (closing := filter (λ tab, tb_id tab ∈ tabIds) (sm_tabs s)).
  destruct (inv_stops _ closing s H) as (_ & Et & _ & Hn). cbn zeta in *.
  assert (quiet n s (foldl (λ s tab, stopTerminalWarmupCapture (tb_id tab) s) s closing)) as Hq.
  { generalize closing as l. clear. intros l. revert s. induction l as [|tab l IH]; intros s; [by apply quiet_refl|]. cbn.
    eapply quiet_trans; [apply quiet_stop|apply IH]. }
  set (s1 := foldl _ s closing) in *. eapply quiet_trans; [exact Hq|]. intros Hhas. split; [done|]. unfold live_output. cbn. intros l.
  destruct (js_find _ (sm_captures s1)) as [c|] eqn:E; [|done]. apply js_find_Some in E as [Hin [_ Hl]]. cbn. intros [= <-]. f_equal.
  unfold kept. destruct (cp_handoff c); [|done]. rewrite Et. generalize (Hn : ∀ tab, _ → _). intros Hn'.
  assert (Hno : ∀ tab, tab ∈ sm_tabs s → tb_id tab ∈ tabIds → cp_tab c ≠ tb_id tab).
  { intros tab Htab Hid. apply (Hn' tab); [by apply list_elem_of_filter|done|done]. }
  revert Hno. generalize (sm_tabs s) as tabs. intros tabs. induction tabs as [|tab tabs IH]; intros Hno; [done|].
  rewrite js_find_cons. assert (IH' := IH ltac:(intros; apply Hno; [by right|done])). rewrite filter_cons. case_decide as Hd.
  - rewrite decide_True; [by rewrite js_find_cons, decide_True|]. intros Hid. apply (Hno tab); [left|done|congruence].
  - case_decide; [rewrite js_find_cons, decide_False by done|]; done.
Qed.

Lemma quiet_step n s e : steps_ok s → event_fresh s e → (∀ m data, e ≠ EvOutput m data) → quiet n s (steps_step s e).
Proof.
  intros H Hf He. assert (Hpanel : ∀ tabId status step, shown_step tabId status s = Some step → status ≠ StRunning → status ≠ StIdle →
    ∀ tab, tab ∈ sm_tabs s → tb_id tab = tabId → ¬ connected tab).
  { intros tabId status step Hs Hr Hi tab Hin E (Hc & _).
    destruct (waiting_tab _ _ _ _ H Hs Hr Hi) as (_ & _ & tab0 & _ & _ & _ & Hty & _ & Hone). rewrite (Hone tab Hin E) in Hc. congruence. }
  destruct e; cbn [steps_step]; unfold on_step.
  - by apply quiet_start_step.
  - eapply quiet_trans; [by apply (quiet_add_tab n s)|]. by apply quiet_same.
  - destruct (shows_retry tabId s) eqn:E; [by apply quiet_retry_restored|by apply quiet_refl].
  - destruct (shown_step tabId StError s) as [step|] eqn:E; [|by apply quiet_refl]. unfold retryConnectionStep.
    destruct (_ && _); [apply quiet_update|apply quiet_run_step]; try done; by eapply Hpanel.
  - destruct (shown_step tabId StWaitingHostKey s) as [step|] eqn:E; [|by apply quiet_refl]. unfold trustHostKeyAndRetry.
    destruct (so_hostKey _); [|by apply quiet_refl].
    eapply (quiet_trans _ _ (updateConnectingTabStep tabId (trusted_step step) s)); [|by apply quiet_same].
    apply quiet_update; [done|]. by eapply Hpanel.
  - destruct (shown_step tabId StPrompt s) as [step|] eqn:E; [|by apply quiet_refl]. apply quiet_run_step; [done|]. by eapply Hpanel.
  - destruct (shown_step tabId StPrompt s) as [step|] eqn:E; [|by apply quiet_refl]. apply quiet_update; [done|]. by eapply Hpanel.
  - by apply quiet_close.
  - destruct (js_find _ _) as [r|] eqn:E; [|by apply quiet_refl]. apply js_find_Some in E as [Hin <-].
    eapply (quiet_trans _ _ (set_runs (filter (λ r0, run_id r0 ≠ run_id r) (sm_runs s)) s)); [by apply quiet_same|].
    apply quiet_settle_run. by apply inv_taken.
  - by destruct (He request data).
  - destruct (list_find _ _) as [[i x]|]; [|by apply quiet_refl]. eapply quiet_trans; [|apply quiet_stop]. by apply quiet_same.
  - destruct (panel_shown tabId s); [apply quiet_stop|by apply quiet_refl].
  - destruct (panel_shown tabId s); [|by apply quiet_refl]. by apply quiet_tabs.
  - by apply quiet_same.
Qed.

(** At most one listener hears an output. *)
Lemma hear_one m data l s : NoDup (cp_request <$> l) →
  foldl (hear m data) s l = match js_find (λ c, cp_request c = m ∧ cp_live c = true) l with Some c => hear m data s c | None => s end.
Proof.
  revert s. induction l as [|c l IH]; intros s Hnd; [done|]. cbn in Hnd. apply NoDup_cons in Hnd as [Hn Hnd].
  cbn [foldl]. rewrite js_find_cons. case_decide as Hc.
  2: { assert (hear m data s c = s) as -> by (unfold hear; by rewrite decide_False). by apply IH. }
  rewrite IH by done. destruct (js_find _ l) as [c'|] eqn:E; [|done]. exfalso. apply js_find_Some in E as [Hin [Hm _]]. apply Hn.
  destruct Hc as [<- _]. rewrite <- Hm. by apply list_elem_of_fmap_2.
Qed.

(** The listeners of two tabs that show a terminal are on different tabs. *)
Lemma live_unique R s c1 c2 : inv R s → c1 ∈ sm_captures s → c2 ∈ sm_captures s → cp_live c1 = true → cp_live c2 = true →
  cp_tab c1 = cp_tab c2 → cp_request c1 = cp_request c2.
Proof.
  intros (_ & H & _) H1 H2 L1 L2 E. pose proof (ci_live _ _ _ _ _ _ H c1 H1 L1) as E1.
  pose proof (ci_live _ _ _ _ _ _ H c2 H2 L2) as E2. congruence.
Qed.

Lemma find_map_live m f captures c : (∀ c, cp_request (f c) = cp_request c ∧ cp_live (f c) = cp_live c) →
  js_find (λ c, cp_request c = m ∧ cp_live c = true) captures = Some c →
  js_find (λ c, cp_request c = m ∧ cp_live c = true) (map_capture m f captures) = Some (f c).
Proof.
  intros Hf. induction captures as [|c0 l IH]; [done|].
  change (map_capture m f (c0 :: l)) with ((if decide (cp_request c0 = m) then f c0 else c0) :: map_capture m f l).
  rewrite !js_find_cons. destruct (Hf c0) as [E1 E2]. destruct (decide (cp_request c0 = m)) as [E|E].
  - rewrite E1, E2. case_decide; [by intros [= <-]|apply IH].
  - rewrite !(decide_False (P := _ ∧ _)) by (intros [? _]; congruence). apply IH.
Qed.

Lemma output_exact n m data s l l' : steps_ok s → live_output n s = Some l → live_output n (output_heard m data s) = Some l' →
  l' = l ++ heard n (EvOutput m data).
Proof.
  intros H Hl. pose proof H as (H1 & Hci & _). unfold output_heard. rewrite hear_one by apply (ci_requests _ _ _ _ _ _ Hci).
  unfold heard. destruct (js_find (λ c, cp_request c = m ∧ cp_live c = true) (sm_captures s)) as [c|] eqn:E.
  2: { rewrite Hl. intros [= <-]. case_decide as Em; [|by rewrite app_nil_r]. subst m. unfold live_output in Hl. by rewrite E in Hl. }
  pose proof E as [Hin [Hm Hlive]]%js_find_Some. unfold hear. rewrite decide_True by done. case_decide as Em.
  - subst m. unfold live_output in *. subst n. rewrite E in Hl. cbn in Hl. injection Hl as <-. unfold kept. destruct (cp_handoff c) eqn:Eh.
    + destruct (ci_handed _ _ _ _ _ _ Hci c Hin Hlive Eh) as (_ & tab & Htab & Et & Hty & _).
      cbn. rewrite E. cbn. rewrite Eh, find_map_tab by (intros t Ht; by rewrite (proj1 (append_same data t))).
      destruct (js_find _ (sm_tabs s)) as [t0|] eqn:Ef; [|rewrite js_find_None in Ef; by destruct (Ef tab)].
      apply js_find_Some in Ef as [Ht0 Et0]. cbn. rewrite decide_True by done. intros [= <-].
      assert (t0 = tab) as -> by (eapply (NoDup_fmap_inj_elem tb_id); [apply (ri_ids _ _ _ H1)|done..|congruence]).
      unfold append_warmup. by rewrite decide_True.
    + cbn. erewrite find_map_live; [|done|exact E]. cbn. rewrite Eh. by intros [= <-].
  - rewrite app_nil_r. assert (quiet n s (if cp_handoff c then appendTerminalWarmupOutput (cp_tab c) data s
      else set_captures (map_capture m (λ c, mkCapture (cp_request c) (cp_tab c) (cp_live c) (cp_handoff c) (cp_buffer c ++ data))
        (sm_captures s)) (sm_stops s) s)) as Hq.
    { destruct (cp_handoff c) eqn:Eh.
      - intros Hhas. split; [done|]. unfold live_output. cbn. intros k.
        destruct (js_find (λ c, cp_request c = n ∧ cp_live c = true) (sm_captures s)) as [c2|] eqn:E2; [|done].
        apply js_find_Some in E2 as [Hin2 [Hn2 Hl2]]. cbn. intros [= <-]. f_equal. unfold kept. destruct (cp_handoff c2); [|done].
        rewrite find_map_tab by (intros t Ht; by rewrite (proj1 (append_same data t))).
        destruct (js_find _ (sm_tabs s)) as [t0|] eqn:Ef; [|done]. apply js_find_Some in Ef as [_ Et0]. cbn.
        rewrite decide_False; [done|]. intros Ebad. assert (cp_request c2 = cp_request c); [|congruence].
        eapply live_unique; [done|done|done|done|done|congruence].
      - intros Hhas. split; [unfold has_capture in *; cbn; by rewrite map_capture_requests|]. unfold live_output. cbn.
        by rewrite find_map_capture. }
    intros Hl'. destruct Hq as [_ Hq].
    { unfold live_output in Hl. destruct (js_find _ _) as [c2|] eqn:E2 in Hl; [|done]. apply js_find_Some in E2 as [Hin2 [Hn2 _]].
      rewrite <- Hn2. by apply list_elem_of_fmap_2. }
    apply Hq in Hl'. congruence.
Qed.

(** ** What is trusted, and what errors show *)

(** Steps that trust no host key. *)
Definition no_trust (s s' : Steps) : Prop := ∀ key, CallTrust key ∈ sm_calls s' → CallTrust key ∈ sm_calls s.

Lemma no_trust_log s s' calls : sm_calls s' = sm_calls s ++ calls → (∀ key, CallTrust key ∉ calls) → no_trust s s'.
Proof. intros E Hn key. rewrite E. intros [H|H]%elem_of_app; [done|]. by destruct (Hn key). Qed.

Lemma no_trust_same s s' : sm_calls s' = sm_calls s → no_trust s s'.
Proof. by intros E key; rewrite E. Qed.

Lemma no_trust_run_shown r step running s : no_trust s (run_shown r step running s).
Proof.
  unfold run_shown, listen_or_test, connect_call, prepare_call.
  destruct (temporary_ref step), (cs_temporaryCredentialsReady step), (cs_mode step);
    (eapply no_trust_log; [reflexivity|intros key; set_solver]).
Qed.

Lemma no_trust_stop t s : no_trust s (stopTerminalWarmupCapture t s).
Proof. apply no_trust_same. by destruct (stop_same t s) as (_ & _ & _ & _ & _ & _ & -> & _). Qed.

Lemma no_trust_settle_run r answer s : no_trust s (settle_run r answer s).
Proof.
  assert (∀ s', sm_calls s' = sm_calls s → no_trust s s') as Hsame by (intros s'; apply no_trust_same).
  assert (Hfail : ∀ (b : bool) f, no_trust s (let s' := stopTerminalWarmupCapture (run_tab r) s in
    if b then set_tabs (f s') s' else s')).
  { intros b f. cbv zeta. destruct b; [|apply no_trust_stop]. intros key H. by apply (no_trust_stop (run_tab r) s key). }
  assert (Hclose : ∀ sid, no_trust s (call_log [CallClose sid] (stopTerminalWarmupCapture (run_tab r) (returned sid s)))).
  { intros sid key [H|H]%elem_of_app; [|set_solver]. by apply (no_trust_stop (run_tab r) (returned sid s)) in H. }
  unfold settle_run. destruct (run_phase r); destruct answer; try by apply Hsame.
  - exact (no_trust_run_shown _ _ _ (updateConnectingTabStep _ _ s)).
  - unfold fail_trust. destruct (connectingTabExists _ _); by apply Hsame.
  - unfold listen_or_test, connect_call. destruct (cs_mode step); (eapply no_trust_log; [reflexivity|intros key; set_solver]).
  - exact (Hfail _ (λ s', map_tab _ _ (sm_tabs s'))).
  - unfold connect_call. intros key H. apply (no_trust_stop (run_tab r) s). revert H.
    destruct (cs_mode step), (temporary_ref step); cbn; intros [H|H]%elem_of_app; (done || set_solver).
  - exact (Hfail _ (λ s', map_tab _ _ (sm_tabs s'))).
  - unfold settle_test. destruct (connectingTabExists _ _); [|by apply Hsame]. eapply no_trust_log; [reflexivity|intros key; set_solver].
  - exact (Hfail _ (λ s', map_tab _ _ (sm_tabs s'))).
  - unfold settle_connect. destruct (connectingTabExists _ _); [|apply Hclose].
    destruct (cs_temporary step); [by apply Hsame|]. eapply no_trust_log; [reflexivity|intros key; set_solver].
  - exact (Hfail _ (λ s', map_tab _ _ (sm_tabs s'))).
  - intros key H. apply (no_trust_stop (run_tab r) s). revert H. cbn. intros [H|H]%elem_of_app; (done || set_solver).
  - exact (Hfail _ (λ s', map_tab _ _ (sm_tabs s'))).
  - unfold settle_direct. destruct (terminalTabExists _ _); [|apply Hclose].
    eapply no_trust_log; [reflexivity|]. intros key. destruct (dr_command d ||? None); set_solver.
  - exact (Hfail _ (λ s', map_tab _ _ (sm_tabs s'))).
Qed.

Lemma no_trust_start connection mode now reuse s : no_trust s (startConnectionStep connection mode now reuse s).
Proof.
  unfold startConnectionStep.
  assert (∀ tabs t step, no_trust s (if sp_prompts connection then set_tabs tabs s else run_step t step (set_tabs tabs s))) as Hmain.
  { intros tabs t step. destruct (sp_prompts connection); [by apply no_trust_same|]. exact (no_trust_run_shown _ _ _ (updateConnectingTabStep _ _ (take_id (set_tabs tabs s)))). }
  destruct (sp_protocol connection) as [[]|]; try apply Hmain; (eapply no_trust_log; [reflexivity|intros key; set_solver]).
Qed.

(** A host key is trusted only by the command of the panel that shows it. *)
Lemma trust_commanded s e key : CallTrust key ∈ sm_calls (steps_step s e) →
  CallTrust key ∈ sm_calls s ∨
  ∃ tabId step, e = EvTrust tabId ∧ shown_step tabId StWaitingHostKey s = Some step ∧ so_hostKey (cs_outcome step) = Some key.
Proof.
  intros H. destruct e; cbn [steps_step] in H; unfold on_step in H.
  - left. by eapply no_trust_start.
  - left. cbn in H. apply elem_of_app in H as [H|H]; [done|set_solver].
  - left. destruct (shows_retry tabId s); [|done]. unfold retryRestoredSshTab in H. destruct (js_find _ _) as [tab|]; [|done].
    destruct (_ ≫= _) as [connection|]; [|done]. by eapply no_trust_start.
  - left. destruct (shown_step tabId StError s) as [step|]; [|done]. unfold retryConnectionStep in H. destruct (_ && _); [done|].
    exact (no_trust_run_shown _ _ _ (updateConnectingTabStep _ _ (take_id s)) key H).
  - destruct (shown_step tabId StWaitingHostKey s) as [step|] eqn:E; [|by left]. unfold trustHostKeyAndRetry in H.
    destruct (so_hostKey (cs_outcome step)) as [key'|] eqn:Ek; [|by left]. cbn in H. apply elem_of_app in H as [H|H]; [by left|right].
    apply list_elem_of_singleton in H. injection H as ->. by exists tabId, step.
  - left. destruct (shown_step tabId StPrompt s) as [step|]; [|done].
    exact (no_trust_run_shown _ _ _ (updateConnectingTabStep _ _ (take_id s)) key H).
  - left. by destruct (shown_step tabId StPrompt s).
  - left. unfold close_tabs in H. cbn in H. apply elem_of_app in H as [H|H].
    + revert H. generalize (filter (λ tab, tb_id tab ∈ tabIds) (sm_tabs s)) as l. intros l. revert s.
      induction l as [|tab l IH]; intros s H; [done|]. cbn in H. apply IH in H. by apply no_trust_stop in H.
    + by apply list_elem_of_fmap in H as (sid & ? & _).
  - left. destruct (js_find _ _) as [r|]; [|done]. exact (no_trust_settle_run r answer _ key H).
  - left. revert H. unfold output_heard. generalize (sm_captures s) as l. intros l. revert s. induction l as [|c l IH]; intros s H; [done|].
    cbn in H. apply IH in H. unfold hear in H. by case_decide; [destruct (cp_handoff c)|].
  - left. destruct (list_find _ _) as [[i x]|]; [|done]. by apply no_trust_stop in H.
  - left. destruct (panel_shown tabId s); [by apply no_trust_stop in H|done].
  - left. by destruct (panel_shown tabId s).
  - by left.
Qed.

Lemma named_code label detail : ed_code (named_detail label detail) = ed_code detail.
Proof. unfold named_detail. by destruct (truthy (Some label)). Qed.

(** The step after an error, by the kind of the error. *)
Lemma failed_step_cases profiles step running error :
  let detail := describeConnectionStepError tr diagnostic show error in
  let failed := failed_step profiles step running error in
  sc_runtimeCredentials (cs_secrets failed) = sc_runtimeCredentials (cs_secrets running) ∧
  (∀ parsed, parseHostKeyError (Some error) = Some parsed →
    cs_status failed = StWaitingHostKey ∧ so_hostKey (cs_outcome failed) = Some (ph_hostKey parsed) ∧
    so_hostKeyDecision (cs_outcome failed) = Some (ph_decision parsed) ∧
    so_oldHostKeyFingerprint (cs_outcome failed) = ph_oldFingerprint parsed) ∧
  (parseHostKeyError (Some error) = None → cs_status failed = StPrompt ∨ cs_status failed = StError) ∧
  (cs_status failed = StPrompt → form_empty (cs_secrets failed) ∧
    ∃ target, sc_promptTarget (cs_secrets failed) = Some target ∧ sc_authKind (cs_secrets failed) = ct_authKind target) ∧
  (∀ requested, parseHostKeyError (Some error) = None → parseCredentialPromptTarget (Some error) = Some requested →
    cs_status failed = StPrompt ∧ ct_connectionId <$> sc_promptTarget (cs_secrets failed) = Some (ct_connectionId requested)) ∧
  currentConnectionStepIndex failed =
    (if decide (cs_status failed = StPrompt) then 3 else connectionStepErrorIndex (ed_code detail)).
Proof.
  cbv zeta. unfold failed_step. destruct (parseHostKeyError (Some error)) as [parsed|] eqn:Eh.
  - split_and!; try done; [by intros p [= <-]|].
    apply parse_host_key_inv in Eh as (fields & payload & Hf & _ & Hc & _).
    change (2 = connectionStepErrorIndex (ed_code (describeConnectionStepError tr diagnostic show error))).
    assert (ed_code (describeConnectionStepError tr diagnostic show error) = decision_code (ph_decision parsed)) as ->.
    { unfold describeConnectionStepError. cbn [ed_code]. rewrite Hf. cbn [mbind option_bind]. by rewrite Hc. }
    by destruct (ph_decision parsed).
  - destruct (parseCredentialPromptTarget (Some error)) as [requested|]; cbv zeta.
    + split_and!; try done; [by left|intros _; split; [done|by eexists]|by intros r _ [= <-]].
    + destruct (match _ with Some _ => _ | None => _ end ≫= _) as [p|].
      * split_and!; try done; [by left|intros _; split; [done|by eexists]].
      * split_and!; try done; [by right|]. exact (f_equal connectionStepErrorIndex (named_code _ _)).
Qed.

Lemma map_ids t f tabs : (∀ tab, tb_id (f tab) = tb_id tab) → tb_id <$> map_tab t f tabs = tb_id <$> tabs.
Proof. intros H. apply map_tab_ids. intros tab _ E. by rewrite H. Qed.

(** No answer adds a tab or brings one back. *)
Lemma settled_ids s n answer : tb_id <$> sm_tabs (steps_step s (EvSettled n answer)) = tb_id <$> sm_tabs s.
Proof.
  cbn [steps_step]. destruct (js_find _ _) as [r|]; [|done]. set (s0 := set_runs _ s). change (sm_tabs s) with (sm_tabs s0).
  generalize s0. clear. intros s. assert (Hstop : ∀ b f, (∀ tab, tb_id (f tab) = tb_id tab) →
    tb_id <$> sm_tabs (let s' := stopTerminalWarmupCapture (run_tab r) s in
      if b : bool then set_tabs (map_tab (run_tab r) f (sm_tabs s')) s' else s') = tb_id <$> sm_tabs s).
  { intros b f Hf. destruct (stop_same (run_tab r) s) as (E & _). cbv zeta. rewrite E. destruct b; cbn; [by apply map_ids|by rewrite E]. }
  assert (Hclosed : ∀ sid, tb_id <$> sm_tabs (call_log [CallClose sid] (stopTerminalWarmupCapture (run_tab r) (returned sid s))) =
    tb_id <$> sm_tabs s).
  { intros sid. destruct (stop_same (run_tab r) (returned sid s)) as (E & _). cbn. by rewrite E. }
  assert (Hlisten : ∀ m, sm_tabs (start_capture (run_tab r) m s) = sm_tabs s).
  { intros m. destruct (stop_same (run_tab r) s) as (E & _). by rewrite <- E. }
  unfold settle_run. destruct (run_phase r) as [next|step running|step running|step running|step running|d|d]; destruct answer as [|sid|error]; try done.
  - unfold runConnectionStep. destruct (run_shown_same r next (running_step next) (updateConnectingTabStep (run_tab r) (running_step next) s)) as [-> _].
    by apply map_ids.
  - unfold fail_trust. destruct (connectingTabExists _ _); [by apply map_ids|done].
  - etrans; [|by apply (map_ids (run_tab r) (step_shown (with_ready true running)))].
    unfold listen_or_test, connect_call. by destruct (cs_mode step).
  - by apply Hstop.
  - unfold connect_call. destruct (cs_mode step); cbn [sm_tabs await set_runs call_log]; by rewrite Hlisten.
  - by apply Hstop.
  - unfold settle_test. destruct (connectingTabExists _ _); [by apply map_ids|done].
  - by apply Hstop.
  - unfold settle_connect. destruct (connectingTabExists _ _); [|apply Hclosed]. destruct (cs_temporary step); by apply map_ids.
  - by apply Hstop.
  - cbn [sm_tabs await set_runs call_log]. by rewrite Hlisten.
  - by apply Hstop.
  - unfold settle_direct. destruct (terminalTabExists _ _); [|apply Hclosed]. by apply map_ids.
  - by apply Hstop.
Qed.

(** C33: connecting is safe, whatever the order of commands, answers, output and timers, from
    the tabs of any restored workspace. Every session that the backend opened is shown by a
    terminal tab or was closed. A tab shows that it connects exactly while one run of it is in
    flight, and no tab has two. A listener that still listens belongs to a run in flight of
    its tab, or its output was handed to a connected terminal and a time-out will stop it. The
    form of a temporary connection (password, passphrase and key file) is empty whenever its
    panel does not ask; what was submitted with it stays among the runtime credentials of
    the step, and a tab that shows a terminal has no step, so it keeps neither. No answer
    brings back a tab that was closed, and a host key is trusted only by the command of a
    panel that shows exactly this key. *)
Theorem wizard_safe (tabs : list StepTab) (profiles : jsmap StepProfile) (events : list StepEvent) :
  restored_tabs tabs → events_fresh (initialSteps tabs profiles) events →
  let s := steps_run (initialSteps tabs profiles) events in
  (∀ sid, sid ∈ sm_sessions s → sid ≠ "" →
    (∃ tab, tab ∈ sm_tabs s ∧ tb_type tab = TabTerminal ∧ tb_sessionId tab = Some sid) ∨ CallClose sid ∈ sm_calls s) ∧
  (NoDup (tb_id <$> sm_tabs s) ∧ NoDup (run_tab <$> sm_runs s) ∧
   ∀ tab k, tab ∈ sm_tabs s → busy tab = Some k ↔ ∃ r, r ∈ sm_runs s ∧ run_tab r = tb_id tab ∧ run_kind r = k) ∧
  (∀ c, c ∈ sm_captures s → cp_live c = true →
    if cp_handoff c then cp_tab c ∈ sm_timers s ∧ ∃ tab, tab ∈ sm_tabs s ∧ tb_id tab = cp_tab c ∧ connected tab
    else ∃ r, r ∈ sm_runs s ∧ run_id r = cp_request c ∧ run_tab r = cp_tab c) ∧
  (∀ tab step, tab ∈ sm_tabs s → tb_type tab = TabConnecting → tb_connectionStep tab = Some step → cs_temporary step = true →
    cs_status step ≠ StPrompt → form_empty (cs_secrets step)) ∧
  (∀ tab, tab ∈ sm_tabs s → tb_type tab = TabTerminal → tb_connectionStep tab = None) ∧
  (∀ n answer, tb_id <$> sm_tabs (steps_step s (EvSettled n answer)) = tb_id <$> sm_tabs s) ∧
  (∀ e key, CallTrust key ∈ sm_calls (steps_step s e) → CallTrust key ∈ sm_calls s ∨
    ∃ tabId step, e = EvTrust tabId ∧ shown_step tabId StWaitingHostKey s = Some step ∧ so_hostKey (cs_outcome step) = Some key).
Proof.
  intros Ht Hf s. pose proof (steps_run_ok _ _ (steps_initial_ok _ profiles Ht) Hf) as (H1 & H2 & H3). fold s in H1, H2, H3.
  split; [exact H3|]. split; [|split; [|split; [|split; [|split]]]].
  - split_and!; [apply H1|apply H1|]. intros tab k Hin. by apply (ri_busy _ _ _ H1).
  - intros c Hc Hl. destruct (cp_handoff c) eqn:Eh; [by apply (ci_handed _ _ _ _ _ _ H2)|by apply (ci_waiting _ _ _ _ _ _ H2)].
  - intros tab step Hin Hty Hst. pose proof (ri_tabs _ _ _ H1 _ Hin) as Hok. unfold tab_ok in Hok. rewrite Hty, Hst in Hok.
    destruct Hok as (_ & step' & [= <-] & Hok). exact Hok.
  - intros tab Hin Hty. pose proof (ri_tabs _ _ _ H1 _ Hin) as Hok. unfold tab_ok in Hok. rewrite Hty in Hok. apply Hok.
  - intros n answer. apply settled_ids.
  - apply trust_commanded.
Qed.

(** No output of a session is lost, doubled or mixed up before its terminal is shown. At
    every step, what has been kept of a listener that goes on listening grows by exactly what
    the backend sent for its request and by nothing of the others; and a session that connects
    while its tab is there starts its terminal with what its listener had kept. *)
Theorem warmup_exact (tabs : list StepTab) (profiles : jsmap StepProfile) (events : list StepEvent) :
  restored_tabs tabs → events_fresh (initialSteps tabs profiles) events →
  let s := steps_run (initialSteps tabs profiles) events in
  (∀ e n l l', event_fresh s e → live_output n s = Some l → live_output n (steps_step s e) = Some l' → l' = l ++ heard n e) ∧
  (∀ r step running c tab sid, r ∈ sm_runs s → run_phase r = RunConnect step running → c ∈ sm_captures s → cp_request c = run_id r →
    tab ∈ sm_tabs s → tb_id tab = run_tab r →
    ∃ tab', tab' ∈ sm_tabs (steps_step s (EvSettled (run_id r) (AnsSession sid))) ∧ tb_id tab' = run_tab r ∧
      tb_type tab' = TabTerminal ∧ tb_sessionId tab' = Some sid ∧ tb_requestId tab' = Some (run_id r) ∧
      tb_warmupOutput tab' = cp_buffer c).
Proof.
  intros Ht Hf s. pose proof (steps_run_ok _ _ (steps_initial_ok _ profiles Ht) Hf) as H. fold s in H. clearbody s. split.
  - intros e n l l' Hfr Hl Hl'.
    assert ((∀ m data, e ≠ EvOutput m data) ∨ ∃ m data, e = EvOutput m data) as [He|(m & data & ->)].
    { destruct e; first [by left|right; eauto]. }
    + assert (has_capture n s) as Hhas.
      { unfold live_output in Hl. destruct (js_find _ _) as [c|] eqn:E; [|done]. apply js_find_Some in E as [Hc [<- _]].
        by apply list_elem_of_fmap_2. }
      destruct (quiet_step n s e H Hfr He Hhas) as [_ Hq]. apply Hq in Hl'.
      assert (heard n e = []) as -> by (destruct e; try done; by destruct (He request data)).
      rewrite app_nil_r. congruence.
    + eapply output_exact; [exact H|exact Hl|exact Hl'].
  - intros r step running c tab sid Hr Hp Hc Ec Hin Et. cbn [steps_step].
    destruct (js_find (λ r0, run_id r0 = run_id r) (sm_runs s)) as [r'|] eqn:E; [|rewrite js_find_None in E; by destruct (E r)].
    apply js_find_Some in E as [Hr' E]. pose proof H as (H1 & H2 & _).
    assert (r' = r) as -> by (eapply (NoDup_fmap_inj_elem run_id); [apply (ri_run_ids _ _ _ H1)|done..]).
    set (s0 := set_runs _ s). unfold settle_run. rewrite Hp. unfold settle_connect.
    assert (connectingTabExists (run_tab r) (returned sid s0) = true) as ->.
    { apply exists_connecting. exists tab. split_and!; [done|done|].
      destruct (tab_of_run _ _ _ _ H Hr Hin Et) as (Hb & _). unfold run_kind in Hb. rewrite Hp in Hb. by apply busy_step. }
    assert (Hcap : captured (run_id r) (hand_over (run_id r) s0) = cp_buffer c).
    { unfold captured, hand_over. cbn. destruct (js_find _ _) as [c2|] eqn:E3.
      - apply js_find_Some in E3 as [Hin2 Hn2]. apply elem_of_map_capture in Hin2 as (c3 & Hin3 & [[Er ->]|[Hbad ->]]); [|done].
        cbn. f_equal. eapply (NoDup_fmap_inj_elem cp_request); [apply (ci_requests _ _ _ _ _ _ H2)|done..|congruence].
      - exfalso. rewrite js_find_None in E3. eapply E3; [apply list_elem_of_fmap; exists c; split; [reflexivity|done]|]. by rewrite decide_True. }
    assert (Hm : ∀ s1, sm_tabs s1 = sm_tabs s → captured (run_id r) s1 = cp_buffer c →
      ∃ tab', tab' ∈ sm_tabs (replaceConnectingTabWithTerminal (run_tab r) sid (captured (run_id r) s1) (run_id r) s1) ∧
        tb_id tab' = run_tab r ∧ tb_type tab' = TabTerminal ∧ tb_sessionId tab' = Some sid ∧ tb_requestId tab' = Some (run_id r) ∧
        tb_warmupOutput tab' = cp_buffer c).
    { intros s1 E1 E2. eexists. split; [cbn; rewrite E1; by apply map_tab_elem|]. rewrite decide_True by done. by rewrite E2. }
    destruct (cs_temporary step); by apply Hm.
Qed.

(** How a run that fails is shown. The host key to confirm, the credentials to give or the
    error are those that the error itself carries: a host key error shows exactly its key,
    its kind and the old fingerprint, a request for credentials asks for the node it names
    with nothing typed in, and every other error stops at the step its code belongs to. The
    credentials given so far are kept for the next run. *)
Theorem wizard_errors_exact (tabs : list StepTab) (profiles : jsmap StepProfile) (events : list StepEvent) :
  restored_tabs tabs → events_fresh (initialSteps tabs profiles) events →
  let s := steps_run (initialSteps tabs profiles) events in
  ∀ r step running error tab, r ∈ sm_runs s →
    run_phase r ∈ [RunPrepare step running; RunListen step running; RunTest step running; RunConnect step running] →
    tab ∈ sm_tabs s → tb_id tab = run_tab r →
  let detail := describeConnectionStepError tr diagnostic show error in
  let failed := failed_step (run_profiles r) step running error in
  (∃ tab', tab' ∈ sm_tabs (steps_step s (EvSettled (run_id r) (AnsError error))) ∧ tb_id tab' = run_tab r ∧
    tb_type tab' = TabConnecting ∧ tb_connectionStep tab' = Some failed ∧ busy tab' = None) ∧
  sc_runtimeCredentials (cs_secrets failed) = sc_runtimeCredentials (cs_secrets running) ∧
  (∀ parsed, parseHostKeyError (Some error) = Some parsed →
    cs_status failed = StWaitingHostKey ∧ so_hostKey (cs_outcome failed) = Some (ph_hostKey parsed) ∧
    so_hostKeyDecision (cs_outcome failed) = Some (ph_decision parsed) ∧
    so_oldHostKeyFingerprint (cs_outcome failed) = ph_oldFingerprint parsed) ∧
  (parseHostKeyError (Some error) = None → cs_status failed = StPrompt ∨ cs_status failed = StError) ∧
  (cs_status failed = StPrompt → form_empty (cs_secrets failed) ∧
    ∃ target, sc_promptTarget (cs_secrets failed) = Some target ∧ sc_authKind (cs_secrets failed) = ct_authKind target) ∧
  (∀ requested, parseHostKeyError (Some error) = None → parseCredentialPromptTarget (Some error) = Some requested →
    cs_status failed = StPrompt ∧ ct_connectionId <$> sc_promptTarget (cs_secrets failed) = Some (ct_connectionId requested)) ∧
  currentConnectionStepIndex failed =
    (if decide (cs_status failed = StPrompt) then 3 else connectionStepErrorIndex (ed_code detail)).
Proof.
  intros Ht Hf s r step running error tab Hr Hp Hin Et detail failed.
  split; [|apply failed_step_cases]. pose proof (steps_run_ok _ _ (steps_initial_ok _ profiles Ht) Hf) as H. fold s in H.
  pose proof H as (H1 & _ & _). clearbody s. cbn [steps_step].
  destruct (js_find (λ r0, run_id r0 = run_id r) (sm_runs s)) as [r'|] eqn:E; [|rewrite js_find_None in E; by destruct (E r)].
  apply js_find_Some in E as [Hr' E]. assert (r' = r) as ->.
  { apply list_elem_of_lookup in Hr as [i Hi], Hr' as [j Hj]. pose proof (ri_run_ids _ _ _ H1) as Hnd.
    assert (i = j) as ->; [|congruence]. eapply NoDup_lookup; [done|by rewrite list_lookup_fmap, Hi|]. rewrite list_lookup_fmap, Hj. cbn. congruence. }
  set (s0 := set_runs _ s). assert (settle_run r (AnsError error) s0 = fail_run r step running error s0 ∧ run_kind r = true ∧ shows_run running) as (-> & Hk & Hok).
  { destruct (ri_runs _ _ _ H1 _ Hr) as [_ Hok]. unfold settle_run, run_kind, run_ok in *.
    rewrite !elem_of_cons in Hp. destruct Hp as [Hp|[Hp|[Hp|[Hp|[]%elem_of_nil]]]]; rewrite Hp in *; (split_and!; [done|done|]); (apply Hok || done). }
  destruct (tab_of_run _ _ _ _ H Hr Hin Et) as (Hb & Hto & Hs). rewrite Hk in Hb. apply busy_step in Hb as Hty. unfold fail_run.
  destruct (stop_same (run_tab r) s0) as (Es & _).
  assert (connectingTabExists (run_tab r) (stopTerminalWarmupCapture (run_tab r) s0) = true) as ->.
  { apply exists_connecting. rewrite Es. by exists tab. }
  exists (step_shown failed tab). cbn. rewrite Es. destruct (failed_step_over (run_profiles r) step running error Hok) as (F1 & F2 & F3).
  destruct (shown_over failed tab Hty Hs F1 F2 F3) as (_ & _ & Hbusy). split_and!; [|done|done|done|done].
  pose proof (map_tab_elem (run_tab r) (step_shown failed) _ _ Hin) as Hm. by rewrite decide_True in Hm.
Qed.

#[export] Instance events_fresh_dec s events : Decision (events_fresh s events).
Proof. revert s. induction events as [|e events IH]; intros s; cbn; [left; exact I|]. apply and_dec; [apply event_fresh_dec|apply IH]. Defined.
End wizard.

(** ** Runs of a small workspace *)

Definition demo_step_profile : StepProfile :=
  mkStepProfile (mkJumpProfile "c" (Some "box") "h" 22 "u" (mkJump None None)) None None (Some ModeSaved) None None "".

Definition demo_trn (key value : string) : string := key +:+ value.
Definition demo_steps (events : list StepEvent) : Steps :=
  steps_run id demo_trn id (λ _, "") (initialSteps [] [("c", demo_step_profile)]) events.
Definition demo_fresh (events : list StepEvent) : Prop :=
  events_fresh id demo_trn id (λ _, "") (initialSteps [] [("c", demo_step_profile)]) events.

Lemma demo_steps_eq events :
  steps_run id demo_trn id (λ _, "") (initialSteps [] [("c", demo_step_profile)]) events = demo_steps events.
Proof. reflexivity. Qed.

Lemma no_tabs : restored_tabs [].
Proof. split; [apply NoDup_nil_2|]. by intros tab ?%elem_of_nil. Qed.

(** One connection is shown with its output, another one is closed while it connects, and a
    third one waits for its host key. *)
Definition demo_events : list StepEvent :=
  [EvStart demo_step_profile StepTerminal 1; EvSettled 0 AnsDone; EvOutput 0 [1%Z; 2%Z]; EvOutput 7 [9%Z];
   EvSettled 0 (AnsSession "s0"); EvOutput 0 [3%Z];
   EvStart demo_step_profile StepTerminal 2; EvSettled 1 AnsDone; EvClose ["connection-c-2"]; EvSettled 1 (AnsSession "s1");
   EvStart demo_step_profile StepTerminal 3; EvSettled 2 AnsDone; EvOutput 2 [4%Z]].

Lemma demo_run : sm_sessions (demo_steps demo_events) = ["s0"; "s1"] ∧ let s := demo_steps demo_events in
  sm_sessions s = ["s0"; "s1"] ∧ CallClose "s1" ∈ sm_calls s ∧ (tb_id <$> sm_tabs s) = ["connection-c-1"; "connection-c-3"] ∧
  (tb_warmupOutput <$> sm_tabs s) = [[1%Z; 2%Z; 3%Z]; []] ∧ live_output 0 s = Some [1%Z; 2%Z; 3%Z] ∧ live_output 2 s = Some [4%Z].
Proof. vm_compute. split_and!; try reflexivity. repeat (apply list_elem_of_here || apply list_elem_of_further). Qed.

Lemma wizard_safe_witness : demo_fresh demo_events ∧
  ((∃ tab, tab ∈ sm_tabs (demo_steps demo_events) ∧ tb_type tab = TabTerminal ∧ tb_sessionId tab = Some "s1") ∨
   CallClose "s1" ∈ sm_calls (demo_steps demo_events)).
Proof.
  assert (demo_fresh demo_events) as Hf by (apply (bool_decide_unpack _); vm_compute; exact I). split; [exact Hf|].
  pose proof (wizard_safe id demo_trn id (λ _, "") [] [("c", demo_step_profile)] demo_events no_tabs Hf) as H. cbv zeta in H.
  destruct H as [H _]. rewrite demo_steps_eq in H.
  apply H; [|done]. rewrite (proj1 demo_run). right. left.
Defined.

Lemma warmup_exact_witness : demo_fresh demo_events ∧ [4%Z; 5%Z] = [4%Z] ++ heard 2 (EvOutput 2 [5%Z]).
Proof.
  assert (demo_fresh demo_events) as Hf by (apply (bool_decide_unpack _); vm_compute; exact I). split; [exact Hf|].
  apply (proj1 (warmup_exact id demo_trn id (λ _, "") [] [("c", demo_step_profile)] demo_events no_tabs Hf)); [exact I|by vm_compute..].
Defined.

Definition demo_step : ConnectionStepState := new_step id demo_step_profile StepTerminal 3.
Definition demo_step_run : StepRun :=
  mkRun 2 "connection-c-3" [("c", demo_step_profile)] (RunConnect demo_step (running_step id demo_step)).

Lemma demo_run_in_flight : sm_runs (demo_steps demo_events) = [demo_step_run] ∧
  ∃ tab, tab ∈ sm_tabs (demo_steps demo_events) ∧ tb_id tab = run_tab demo_step_run.
Proof. split; [by vm_compute|]. eexists. split; [vm_compute; right; left|done]. Qed.

Lemma wizard_errors_exact_witness : demo_fresh demo_events ∧
  so_hostKey (cs_outcome (failed_step id demo_trn id (λ _, "") [("c", demo_step_profile)] demo_step (running_step id demo_step)
    (host_key_error demo_key))) = Some (ph_hostKey demo_key).
Proof.
  assert (demo_fresh demo_events) as Hf by (apply (bool_decide_unpack _); vm_compute; exact I). split; [exact Hf|].
  destruct demo_run_in_flight as [Hr (tab & Hin & Et)].
  pose proof (wizard_errors_exact id demo_trn id (λ _, "") [] [("c", demo_step_profile)] demo_events no_tabs Hf demo_step_run demo_step
    (running_step id demo_step) (host_key_error demo_key) tab) as H.
  cbv zeta in H. rewrite demo_steps_eq, Hr in H.
  destruct H as (_ & _ & H & _); [left|right; right; right; left|exact Hin|exact Et|].
  apply (H demo_key). by vm_compute.
Defined.

(** A run that goes on after its host key was trusted does not look at its tab: it connects
    although the tab was closed meanwhile, and only then closes the session. *)
Lemma closed_tab_still_connects :
  let s := demo_steps [EvStart demo_step_profile StepTerminal 1; EvSettled 0 AnsDone; EvSettled 0 (AnsError (host_key_error demo_key));
    EvTrust "connection-c-1"; EvClose ["connection-c-1"]; EvSettled 1 AnsDone; EvSettled 1 AnsDone] in
  sm_tabs s = [] ∧ last (sm_calls s) = Some (CallConnect (sp_profile demo_step_profile) (buildRuntimeCredentialRequest "c" []) 1).
Proof. by vm_compute. Qed.

Definition temporary_profile : StepProfile :=
  mkStepProfile (mkJumpProfile "t" (Some "box") "h" 22 "u" (mkJump None None)) None None (Some ModePrompt) None None "temporary".

(** The password that was submitted for a temporary connection stays in its step while it
    connects, among the runtime credentials: only the form is emptied. *)
Lemma submitted_password_kept :
  let s := demo_steps [EvStart temporary_profile StepTerminal 1; EvEdit "connection-t-1" (EditPassword "secret"); EvSubmit "connection-t-1"] in
  (λ tab, (λ step, (cs_temporary step, bool_decide (cs_status step = StRunning), sc_password (cs_secrets step),
     (λ e, (e.1, rc_password e.2)) <$> sc_runtimeCredentials (cs_secrets step))) <$> tb_connectionStep tab) <$> sm_tabs s =
    [Some (true, true, "", [("t", Some "secret")])].
Proof. by vm_compute. Qed.
