(* ===== verification/DesktopText.v ===== *)
(** * Remote desktops as they are shown ([features/layout/WorkspaceShell.tsx])

    The tabs of RDP and VNC sessions, the material of a launch that the browser without a
    backend makes up, the command and the file that can be copied, and the labels of the
    panels. Strings are bytes, so white space is that of ASCII. *)

From S2P Require Import Prelude ShortcutKeys ConnectionInput.
From stdpp Require Import pretty.
From Stdlib Require Import Lia Strings.Ascii QArith.Qreduction.

#[local] Open Scope nat_scope.

(** ** Data *)

(** What the previews and the sessions read of a connection. *)
Record DesktopProfile := mkDesktopProfile {
  dp_id : string;
  dp_name : string;
  dp_host : string;
  dp_port : Z;
  dp_username : string;
  dp_rdp : option RdpConnectionConfig;
  dp_vnc : option VncConnectionConfig;
}.

#[export] Instance RdpRunnerKind_eq_dec : EqDecision RdpRunnerKind.
Proof. solve_decision. Defined.
#[export] Instance VncRunnerKind_eq_dec : EqDecision VncRunnerKind.
Proof. solve_decision. Defined.
#[export] Instance RdpAudioMode_eq_dec : EqDecision RdpAudioMode.
Proof. solve_decision. Defined.
#[export] Instance VncScaleMode_eq_dec : EqDecision VncScaleMode.
Proof. solve_decision. Defined.
#[export] Instance DesktopPlatform_eq_dec : EqDecision DesktopPlatform.
Proof. solve_decision. Defined.

Record RdpLaunchPreview := mkRdpPreview {
  rp_connection_id : string;
  rp_runner : option RdpRunnerKind;
  rp_render_mode : RdpRenderMode;
  rp_executable : option string;
  rp_args : list string;
  rp_rdp_file_content : option string;
  rp_fallback_reason : option string;
  rp_setup_hint : option string;
  rp_warnings : list string;
}.

Record RdpLaunchResult := mkRdpResult {
  rr_session_id : string;
  rr_connection_id : string;
  rr_launched : bool;
  rr_embedded : bool;
  rr_runner : RdpRunnerKind;
  rr_executable : option string;
  rr_args : list string;
  rr_process_id : option Z;
  rr_rdp_file_path : option string;
  rr_fallback_reason : option string;
  rr_setup_hint : option string;
}.

Inductive RdpSessionStatus := RdpIsLaunching | RdpIsExternal | RdpIsEmbedded | RdpIsNative | RdpIsError.

Record RdpSessionTab := mkRdpTab {
  rt_connectionId : string;
  rt_createdAt : Z;
  rt_error : option string;
  rt_id : string;
  rt_message : option string;
  rt_preview : option RdpLaunchPreview;
  rt_result : option RdpLaunchResult;
  rt_status : RdpSessionStatus;
  rt_title : string;
}.

Record VncLaunchPreview := mkVncPreview {
  vq_connection_id : string;
  vq_runner : option VncRunnerKind;
  vq_render_mode : VncRenderMode;
  vq_embedded : bool;
  vq_executable : option string;
  vq_args : list string;
  vq_websocket_url : option string;
  vq_fallback_reason : option string;
  vq_setup_hint : option string;
  vq_warnings : list string;
}.

Record VncLaunchResult := mkVncResult {
  vl_session_id : string;
  vl_connection_id : string;
  vl_launched : bool;
  vl_embedded : bool;
  vl_runner : VncRunnerKind;
  vl_websocket_url : option string;
  vl_password : option string;
  vl_executable : option string;
  vl_args : list string;
  vl_process_id : option Z;
  vl_fallback_reason : option string;
  vl_setup_hint : option string;
  vl_warnings : list string;
}.

Inductive VncSessionStatus := VncIsLaunching | VncIsEmbedded | VncIsWindowed | VncIsExternal | VncIsError.

Record VncSessionTab := mkVncTab {
  vt_connectionId : string;
  vt_createdAt : Z;
  vt_error : option string;
  vt_id : string;
  vt_message : option string;
  vt_preview : option VncLaunchPreview;
  vt_result : option VncLaunchResult;
  vt_status : VncSessionStatus;
  vt_title : string;
  vt_windowLabel : option string;
}.

Record VncRunnerWindowConnectionInfo := mkVncInfo {
  wi_host : string;
  wi_name : option string;
  wi_port : Z;
  wi_username : option string;
}.

#[export] Instance RdpSessionStatus_eq_dec : EqDecision RdpSessionStatus.
Proof. solve_decision. Defined.
#[export] Instance VncSessionStatus_eq_dec : EqDecision VncSessionStatus.
Proof. solve_decision. Defined.

(** ** Values *)

(** [Boolean] as the filter of a list. *)
Definition present (items : list (option string)) : list string := omap (λ item, s ← item; nonempty s) items.

(** [value === true], or a nullable flag as a condition. *)
Definition flag (value : option bool) : bool := default false value.

(** [a || b] where [b] is a string. *)
Definition or_text (value : option string) (fallback : string) : string := default fallback (s ← value; nonempty s).

Definition line_feed : ascii := "010"%char.
Definition quote_mark : ascii := "034"%char.

Fixpoint has_space (s : string) : bool :=
  match s with String c s' => js_is_space c || has_space s' | EmptyString => false end.

(** [value.replace(/Q/g, BQ)], with the quotation mark for Q and the backslash for B. *)
Fixpoint escape_quotes (s : string) : string :=
  match s with
  | String c s' => if Ascii.eqb c quote_mark then String "\" (String quote_mark (escape_quotes s')) else String c (escape_quotes s')
  | EmptyString => ""
  end.

Definition wrap_quotes (s : string) : string := String quote_mark (s +:+ String quote_mark "").

Definition quoteCommandArgForDisplay (value : string) : string :=
  if String.eqb value "" then wrap_quotes ""
  else if has_space value then wrap_quotes (escape_quotes value) else value.

Definition connectionInfoFromVncProfile (connection : option DesktopProfile) : option VncRunnerWindowConnectionInfo :=
  c ← connection;
  Some (mkVncInfo (dp_host c) (nonempty (dp_name c))
    (if decide (dp_port c = 0%Z) then 5900%Z else dp_port c) (nonempty (dp_username c))).

(** ** Text of a command *)

(** [result || preview] of a session, as far as a command reads it. *)
Record Material (R : Type) := mkMaterial {
  mt_runner : option R;
  mt_executable : option string;
  mt_args : list string;
}.
#[global] Arguments mkMaterial {R} _ _ _.
#[global] Arguments mt_runner {R} _.
#[global] Arguments mt_executable {R} _.
#[global] Arguments mt_args {R} _.

Definition rdp_material (session : RdpSessionTab) : option (Material RdpRunnerKind) :=
  match rt_result session, rt_preview session with
  | Some r, _ => Some (mkMaterial (Some (rr_runner r)) (rr_executable r) (rr_args r))
  | None, Some p => Some (mkMaterial (rp_runner p) (rp_executable p) (rp_args p))
  | None, None => None
  end.

Definition vnc_material (session : VncSessionTab) : option (Material VncRunnerKind) :=
  match vt_result session, vt_preview session with
  | Some r, _ => Some (mkMaterial (Some (vl_runner r)) (vl_executable r) (vl_args r))
  | None, Some p => Some (mkMaterial (vq_runner p) (vq_executable p) (vq_args p))
  | None, None => None
  end.

(** The program and its quoted arguments, in one line. *)
Definition material_text {R} (material : Material R) : string :=
  String.concat " " (present
    [Some (default "" (mt_executable material));
     Some (String.concat " " (quoteCommandArgForDisplay <$> mt_args material))]).

Definition hosted_activex (material : Material RdpRunnerKind) : bool :=
  bool_decide (mt_runner material = Some MstscActivex ∧ mt_args material = []).

Definition rdpSessionHasCommandText (session : RdpSessionTab) : bool :=
  match rdp_material session with
  | None => false
  | Some material => if hosted_activex material then false else truthy (mt_executable material) || negb (bool_decide (mt_args material = []))
  end.

Definition rdpSessionCommandText (session : RdpSessionTab) : string :=
  match rdp_material session with
  | None => ""
  | Some material => if hosted_activex material then "" else material_text material
  end.

Definition vncSessionHasCommandText (session : VncSessionTab) : bool :=
  match vnc_material session with
  | None => false
  | Some material =>
      if decide (mt_runner material = Some NoVnc) then false
      else truthy (mt_executable material) || negb (bool_decide (mt_args material = []))
  end.

Definition vncSessionCommandText (session : VncSessionTab) : string :=
  match vnc_material session with
  | None => ""
  | Some material => if decide (mt_runner material = Some NoVnc) then "" else material_text material
  end.

Definition preview_file (session : RdpSessionTab) : option string := p ← rt_preview session; rp_rdp_file_content p.
Definition result_file (session : RdpSessionTab) : option string := r ← rt_result session; rr_rdp_file_path r.

Definition rdpSessionHasRdpFileText (session : RdpSessionTab) : bool := truthy (preview_file session) || truthy (result_file session).

Definition rdpSessionFileText (session : RdpSessionTab) : string :=
  match (s ← preview_file session; nonempty s) with Some content => content | None => or_text (result_file session) "" end.

(** ** Labels and previews *)

Section text.
(** [trv key value] is a text with one value in it; [fraction] the decimal notation of a
    number that is not whole. *)
Context (tr : string → string) (trv : string → string → string) (fraction : Q → string).

(** [n.toString()]. *)
Definition number_text (n : Q) : string :=
  let r := Qred n in if decide (Qden r = 1%positive) then pretty (Qnum r) else fraction r.

Definition rdpStatusLabel (status : RdpSessionStatus) : string :=
  match status with
  | RdpIsLaunching => tr "workspace.rdp.status.starting"
  | RdpIsEmbedded => tr "workspace.rdp.status.embedded"
  | RdpIsNative => tr "workspace.rdp.status.native"
  | RdpIsExternal => tr "workspace.rdp.status.external"
  | RdpIsError => tr "workspace.step.failed"
  end.

Definition rdpRenderModeLabel (mode : RdpRenderMode) : string :=
  match mode with
  | RdpEmbedded => tr "workspace.rdp.runner.embedded"
  | RdpExternal => tr "workspace.rdp.status.external"
  | RdpCustom => tr "workspace.rdp.runner.custom"
  end.

Definition rdpDisplayModeLabel (mode : RdpDisplayMode) : string :=
  match mode with
  | DisplayEmbedded => tr "workspace.rdp.display.embedded"
  | DisplayWindowed => tr "workspace.rdp.display.window"
  | DisplayFullscreen => tr "workspace.rdp.display.fullscreen"
  | DisplayAllMonitors => tr "workspace.rdp.display.fullscreenAll"
  end.

Definition full_screen (mode : option RdpDisplayMode) : bool :=
  bool_decide (mode = Some DisplayFullscreen ∨ mode = Some DisplayAllMonitors).

(** [(size || fallback).toString()]. *)
Definition size_text (size : option Q) (fallback : Q) : string := number_text (default fallback (number_or size (Some fallback))).

Definition dot_separator : string := " · ".

Definition rdpDisplaySummary (display : option RdpDisplayConfig) : string :=
  match display with
  | None => tr "workspace.rdp.display.default"
  | Some display =>
      let size :=
        match rd_mode display with
        | Some (DisplayFullscreen as mode) | Some (DisplayAllMonitors as mode) => rdpDisplayModeLabel mode
        | _ => size_text (rd_width display) 1440 +:+ " x " +:+ size_text (rd_height display) 900
        end in
      let flags := present
        [if flag (rd_dynamic_resize display) then Some (tr "workspace.rdp.display.dynamic") else None;
         if flag (rd_use_multimon display) then Some (tr "workspace.rdp.display.multimon") else None] in
      String.concat dot_separator (size :: flags)
  end.

Definition rdpAudioLabel (mode : option RdpAudioMode) : string :=
  match mode with
  | Some AudioRemote => tr "workspace.rdp.audio.remote"
  | Some AudioDisabled => tr "workspace.rdp.audio.disabled"
  | _ => tr "workspace.rdp.audio.local"
  end.

Definition rdpResourceSummary (resources : option RdpResourceConfig) : string :=
  match resources with
  | None => tr "workspace.rdp.resources.default"
  | Some resources =>
      let enabled := present
        [if flag (rr_clipboard resources) then Some (tr "workspace.rdp.resources.clipboard") else None;
         if flag (rr_drives resources) then Some (tr "workspace.rdp.resources.drives") else None;
         if flag (rr_printers resources) then Some (tr "workspace.rdp.resources.printers") else None;
         if flag (rr_smart_cards resources) then Some (tr "workspace.rdp.resources.smartCards") else None;
         if decide (rr_audio resources = Some AudioDisabled) then None
         else Some (trv "workspace.rdp.resources.audio" (rdpAudioLabel (rr_audio resources)))] in
      match enabled with [] => tr "workspace.rdp.resources.none" | _ => String.concat dot_separator enabled end
  end.

Definition rdpCertificateAuthenticationLevel (policy : option RdpCertificatePolicy) : string :=
  match policy with Some CertTrust => "0" | Some CertStrict => "1" | _ => "2" end.

Definition address (connection : DesktopProfile) : string := dp_host connection +:+ ":" +:+ pretty (dp_port connection).

Definition previewRdpFileContent (connection : DesktopProfile) : string :=
  let rdp := dp_rdp connection in
  let display := r ← rdp; rc_display r in
  let resources := r ← rdp; rc_resources r in
  let gateway := r ← rdp; rc_gateway r in
  let gateway_mode := g ← gateway; rg_mode g in
  let bit (b : bool) := if b then "1" else "0" in
  String.concat (String line_feed "") (present
    [Some ("full address:s:" +:+ address connection);
     Some ("username:s:" +:+ dp_username connection);
     domain ← (r ← rdp; s ← rc_domain r; nonempty s); Some ("domain:s:" +:+ domain);
     Some ("screen mode id:i:" +:+ (if full_screen (d ← display; rd_mode d) then "2" else "1"));
     Some ("desktopwidth:i:" +:+ size_text (d ← display; rd_width d) 1440);
     Some ("desktopheight:i:" +:+ size_text (d ← display; rd_height d) 900);
     Some ("use multimon:i:" +:+ bit (flag (d ← display; rd_use_multimon d)));
     Some ("redirectclipboard:i:" +:+ bit (default true (r ← resources; rr_clipboard r)));
     Some ("audiomode:i:" +:+ match (r ← resources; rr_audio r) with Some AudioDisabled => "2" | Some AudioRemote => "1" | _ => "0" end);
     Some ("redirectdrives:i:" +:+ bit (flag (r ← resources; rr_drives r)));
     Some ("redirectprinters:i:" +:+ bit (flag (r ← resources; rr_printers r)));
     Some ("redirectsmartcards:i:" +:+ bit (flag (r ← resources; rr_smart_cards r)));
     Some ("authentication level:i:" +:+
       rdpCertificateAuthenticationLevel (r ← rdp; s ← rc_security r; rs_certificate_policy s));
     if decide (gateway_mode = Some GatewayExplicit)
     then host ← (g ← gateway; s ← rg_host g; nonempty s); Some ("gatewayhostname:s:" +:+ host) else None;
     mode ← gateway_mode;
     if decide (mode = GatewayDisabled) then None
     else Some ("gatewayusagemethod:i:" +:+ (if decide (mode = GatewayExplicit) then "1" else "2"));
     Some "prompt for credentials:i:1"]).

Definition rdp_preview_runner (platform : DesktopPlatform) (config : option RdpConnectionConfig) : RdpRunnerKind :=
  let runner_config := c ← config; rc_runner c in
  let renderMode := default RdpEmbedded (r ← runner_config; rn_render_mode r) in
  default
    (if decide (renderMode = RdpCustom) then RdpRunnerCustom
     else if decide (renderMode = RdpEmbedded ∧ platform = Windows) then MstscActivex
     else defaultRdpExternalRunnerForPlatform platform)
    (r ← runner_config; rn_preferred_runner r).

Definition previewRdpLaunchForBrowser (connection : DesktopProfile) (platform : DesktopPlatform) : RdpLaunchPreview :=
  let config := dp_rdp connection in
  let runner_config := c ← config; rc_runner c in
  let renderMode := default RdpEmbedded (r ← runner_config; rn_render_mode r) in
  let runner := rdp_preview_runner platform config in
  let executable :=
    match runner with
    | RdpRunnerCustom => or_text (r ← runner_config; rn_custom_executable r) "custom-rdp-client"
    | Freerdp => "xfreerdp"
    | MacosApp => "/usr/bin/open"
    | MstscActivex => "mstscax.dll"
    | Mstsc => "mstsc.exe"
    end in
  let args :=
    match runner with
    | Freerdp =>
        ["/v:" +:+ address connection; "/u:" +:+ dp_username connection] ++
        option_list (domain ← (c ← config; s ← rc_domain c; nonempty s); Some ("/d:" +:+ domain)) ++
        ["/dynamic-resolution"; "/clipboard"]
    | RdpRunnerCustom => [or_text (r ← runner_config; rn_custom_args_template r) "{rdp_file}"]
    | MacosApp | Mstsc => ["<generated.rdp>"]
    | MstscActivex => []
    end in
  let warnings := present
    [Some (tr "workspace.rdp.preview.browser"); Some (tr "workspace.rdp.preview.noPassword");
     if truthy (trim_value (c ← config; rc_raw_rdp_settings c)) then Some (tr "workspace.rdp.preview.raw") else None] in
  mkRdpPreview (dp_id connection) (Some runner) renderMode (Some executable) args
    (match runner with
     | Mstsc | MacosApp | RdpRunnerCustom => Some (previewRdpFileContent connection)
     | _ => None
     end)
    (match runner with
     | Mstsc => Some (tr "workspace.rdp.preview.windows")
     | MacosApp => Some (tr "workspace.rdp.preview.macos")
     | _ => None
     end)
    None warnings.

Definition rdpSessionPrimaryDetail (session : RdpSessionTab) : string * string :=
  match rt_status session with
  | RdpIsEmbedded => (tr "workspace.launch.method", "Windows embedded RDP host")
  | RdpIsNative => (tr "workspace.launch.method", "Windows ActiveX native child window")
  | status =>
      let command := rdpSessionCommandText session in
      if String.eqb command ""
      then (tr "workspace.launch.status", or_text (rt_message session) (rdpStatusLabel status))
      else (tr "workspace.launch.command", command)
  end.

Definition vncStatusLabel (status : VncSessionStatus) : string :=
  match status with
  | VncIsLaunching => tr "workspace.rdp.status.starting"
  | VncIsEmbedded => tr "workspace.vnc.status.embedded"
  | VncIsWindowed => tr "workspace.vnc.status.window"
  | VncIsExternal => tr "workspace.rdp.status.external"
  | VncIsError => tr "workspace.step.failed"
  end.

Definition vncRenderModeLabel (mode : VncRenderMode) : string :=
  match mode with
  | VncEmbedded => tr "workspace.vnc.runner.embedded"
  | VncWindowed => tr "workspace.vnc.runner.window"
  | VncExternal => tr "workspace.rdp.status.external"
  | VncCustom => tr "workspace.rdp.runner.custom"
  end.

Definition vncDisplaySummary (display : option VncDisplayConfig) : string :=
  match display with
  | None => tr "workspace.rdp.display.default"
  | Some display =>
      let scale :=
        match vd_scale_mode display with
        | Some ScaleActual => tr "workspace.vnc.display.actual"
        | Some ScaleStretch => tr "workspace.vnc.display.stretch"
        | _ => tr "workspace.vnc.display.fit"
        end in
      let flags := present
        [if flag (vd_resize_session display) then Some (tr "workspace.vnc.display.remoteResize") else None;
         if flag (vd_clip_viewport display) then Some (tr "workspace.vnc.display.clip") else None] in
      String.concat dot_separator (scale :: flags)
  end.

Definition vncInputSummary (input : option VncInputConfig) : string :=
  match input with
  | None => tr "workspace.vnc.input.default"
  | Some input => String.concat dot_separator (present
      [Some (if flag (vi_view_only input) then tr "workspace.vnc.input.viewOnly" else tr "workspace.vnc.input.keyboardMouse");
       if flag (vi_clipboard input) then Some (tr "workspace.vnc.input.clipboard") else None;
       if flag (vi_shared input) then Some (tr "workspace.vnc.input.shared") else None])
  end.

Definition previewVncLaunchForBrowser (connection : DesktopProfile) : VncLaunchPreview :=
  let config := default defaultVncConfig (dp_vnc connection) in
  let runner_config := vc_runner config in
  let renderMode := default VncEmbedded (r ← runner_config; vr_render_mode r) in
  let runner := default
    match renderMode with VncCustom => VncRunnerCustom | VncEmbedded | VncWindowed => NoVnc | VncExternal => VncViewer end
    (r ← runner_config; vr_preferred_runner r) in
  let executable :=
    match runner with
    | NoVnc => None
    | VncRunnerCustom => Some (or_text (r ← runner_config; vr_custom_executable r) "custom-vnc-client")
    | RealVnc => Some "vncviewer.exe"
    | _ => Some "vncviewer"
    end in
  let args :=
    match runner with
    | NoVnc => []
    | VncRunnerCustom => [or_text (r ← runner_config; vr_custom_args_template r) "{host}::{port}"]
    | _ => [dp_host connection +:+ "::" +:+ pretty (dp_port connection)]
    end in
  let warnings := present
    [Some (tr "workspace.vnc.preview.browser"); Some (tr "workspace.vnc.preview.noPassword");
     if truthy (trim_value (vc_raw_runner_args config)) then Some (tr "workspace.vnc.preview.raw") else None] in
  let hosted := bool_decide (runner = NoVnc) in
  mkVncPreview (dp_id connection) (Some runner) renderMode hosted executable args
    (if hosted then Some "ws://127.0.0.1:<port>/vnc/<session>/<token>" else None)
    (if hosted then None else Some (tr "workspace.vnc.preview.external")) None warnings.

Definition vncSessionPrimaryDetail (session : VncSessionTab) : string * string :=
  match vt_status session with
  | VncIsEmbedded => (tr "workspace.launch.method", "noVNC local bridge")
  | VncIsWindowed => (tr "workspace.launch.method", "RDP-style runner host")
  | status =>
      let command := vncSessionCommandText session in
      if String.eqb command ""
      then (tr "workspace.launch.status", or_text (vt_message session) (vncStatusLabel status))
      else (tr "workspace.launch.command", command)
  end.
End text.

(** ** A left inverse of the quotation

    The proof that a text belongs to one command only undoes the quotation; that is all
    this function is for, no shell is meant by it. *)

Definition push (word : option string) (c : ascii) : option string := Some (default "" word +:+ String c "").

Fixpoint read_words (quoted : bool) (word : option string) (s : string) : list string :=
  match s with
  | EmptyString => option_list word
  | String c s' =>
      if quoted then
        if Ascii.eqb c quote_mark then read_words false word s'
        else match s' with
             | String d s'' =>
                 if Ascii.eqb c "\" && Ascii.eqb d quote_mark then read_words true (push word d) s''
                 else read_words true (push word c) s'
             | EmptyString => read_words true (push word c) s'
             end
      else if Ascii.eqb c quote_mark then read_words true (Some (default "" word)) s'
      else if js_is_space c then option_list word ++ read_words false None s'
      else read_words false (push word c) s'
  end.

Definition unquote_words (s : string) : list string := read_words false None s.

(** A program without white space and quotation marks, and an argument that has no
    quotation mark outside of the quotation and does not end it with a backslash. *)
Definition plain_word (s : string) : bool := negb (has_space s) && no_char quote_mark s.

Fixpoint ends_backslash (s : string) : bool :=
  match s with String c EmptyString => Ascii.eqb c "\" | String _ s' => ends_backslash s' | EmptyString => false end.

Definition quotable (s : string) : bool := if has_space s then negb (ends_backslash s) else no_char quote_mark s.

(** ** The settings of a connection file

    The format of these files: a setting to a line, as [name:type:value]. *)

Fixpoint break_colon (s : string) : option (string * string) :=
  match s with
  | EmptyString => None
  | String c s' => if Ascii.eqb c ":" then Some ("", s') else prod_map (String c) id <$> break_colon s'
  end.

Definition read_setting (line : string) : option (string * (string * string)) :=
  '(key, rest) ← break_colon line; '(type, value) ← break_colon rest; Some (key, (type, value)).

Definition read_file (file : string) : list (string * (string * string)) := omap read_setting (js_split line_feed file).

Definition setting (file key : string) : option (string * string) := snd <$> js_find (λ s, s.1 = key) (read_file file).

(** ** Lemmas: strings *)

Lemma str_app_cons c s t : String c s +:+ t = String c (s +:+ t).
Proof. done. Qed.

Lemma str_app_assoc (s t u : string) : s +:+ t +:+ u = (s +:+ t) +:+ u.
Proof. induction s as [|c s IH]; [done|]. by rewrite !str_app_cons, IH. Qed.

Lemma str_app_nil (s : string) : s +:+ "" = s.
Proof. induction s as [|c s IH]; [done|]. by rewrite str_app_cons, IH. Qed.

Lemma no_char_app c s t : no_char c (s +:+ t) = no_char c s && no_char c t.
Proof. induction s as [|d s IH]; [done|]. rewrite str_app_cons. cbn. by rewrite IH, andb_assoc. Qed.

Lemma has_space_app s t : has_space (s +:+ t) = has_space s || has_space t.
Proof. induction s as [|d s IH]; [done|]. rewrite str_app_cons. cbn. by rewrite IH, orb_assoc. Qed.

Lemma push_app w c a : default "" (push w c) +:+ a = default "" w +:+ String c a.
Proof. cbn. by rewrite <- str_app_assoc. Qed.

Lemma pretty_N_line (x : N) : no_char line_feed (pretty x) = true.
Proof.
  assert (∀ y acc, no_char line_feed acc = true → no_char line_feed (pretty_N_go y acc) = true) as Hgo.
  { intros y. induction (N.lt_wf_0 y) as [y _ IH]. intros acc Hacc.
    destruct (decide (0 < y)%N) as [Hy|Hy].
    - rewrite pretty_N_go_step by done. apply IH; [apply N.div_lt; lia|].
      cbn. rewrite Hacc, andb_true_r. unfold pretty_N_char. by repeat case_match.
    - by replace y with 0%N by lia. }
  unfold pretty, pretty_N. case_decide; [done|]. by apply Hgo.
Qed.

Lemma pretty_Z_line (x : Z) : no_char line_feed (pretty x) = true.
Proof. unfold pretty, pretty_Z. destruct x; cbn; [done|apply pretty_N_line..]. Qed.

Lemma present_Some s l : present (Some s :: l) = option_list (nonempty s) ++ present l.
Proof. unfold present. cbn. by destruct s. Qed.

Lemma present_None l : present (None :: l) = present l.
Proof. done. Qed.

Lemma present_nil : present [] = [].
Proof. done. Qed.

Lemma concat_cons sep x l : String.concat sep (x :: l) = x +:+ match l with [] => "" | _ => sep +:+ String.concat sep l end.
Proof. destruct l; [by rewrite str_app_nil|done]. Qed.

(** ** Lemmas: commands *)

(** One more character of a word, then the rest of it. *)
Lemma push_word w c a :
  (if String.eqb a "" then push w c else Some (default "" (push w c) +:+ a)) = Some (default "" w +:+ String c a).
Proof. rewrite push_app. destruct (String.eqb a "") eqn:E; [|done]. by apply String.eqb_eq in E as ->. Qed.

Lemma read_escaped a w rest :
  ends_backslash a = false →
  read_words true w (escape_quotes a +:+ String quote_mark rest) =
    read_words false (if String.eqb a "" then w else Some (default "" w +:+ a)) rest.
Proof.
  revert w. induction a as [|c a IH]; intros w Ha; [done|].
  assert (ends_backslash a = false) as Ha' by (destruct a; [done|exact Ha]).
  assert (read_words true (push w c) (escape_quotes a +:+ String quote_mark rest) =
    read_words false (Some (default "" w +:+ String c a)) rest) as Hgo by (by rewrite IH, push_word).
  cbn [String.eqb escape_quotes]. destruct (Ascii.eqb c quote_mark) eqn:Ec.
  - apply Ascii.eqb_eq in Ec as ->. exact Hgo.
  - rewrite str_app_cons. cbn [read_words]. rewrite Ec.
    destruct (escape_quotes a +:+ String quote_mark rest) as [|d t] eqn:Et.
    { destruct a as [|e a]; cbn in Et; [done|]. by destruct (Ascii.eqb e quote_mark). }
    destruct (Ascii.eqb c "\" && Ascii.eqb d quote_mark) eqn:Eb; [|exact Hgo]. exfalso.
    apply andb_true_iff in Eb as [->%Ascii.eqb_eq ->%Ascii.eqb_eq]. destruct a as [|e a]; [done|].
    cbn in Et. destruct (Ascii.eqb e quote_mark) eqn:Ee; rewrite str_app_cons in Et; simplify_eq.
Qed.

Lemma read_plain a w rest :
  has_space a = false → no_char quote_mark a = true →
  read_words false w (a +:+ rest) = read_words false (if String.eqb a "" then w else Some (default "" w +:+ a)) rest.
Proof.
  revert w. induction a as [|c a IH]; intros w Hs Hq; [done|].
  cbn in Hs, Hq. apply orb_false_iff in Hs as [Hc Hs]. apply andb_true_iff in Hq as [Hm Hq]. apply negb_true_iff in Hm.
  rewrite str_app_cons. cbn [read_words String.eqb]. by rewrite Hm, Hc, IH, push_word.
Qed.

Lemma read_argument a rest :
  quotable a = true → read_words false None (quoteCommandArgForDisplay a +:+ rest) = read_words false (Some a) rest.
Proof.
  unfold quotable, quoteCommandArgForDisplay. intros Ha. destruct (String.eqb a "") eqn:E.
  { by apply String.eqb_eq in E as ->. }
  destruct (has_space a) eqn:Hs.
  - apply negb_true_iff in Ha. unfold wrap_quotes.
    rewrite str_app_cons, <- str_app_assoc, str_app_cons. cbn [read_words]. rewrite Ascii.eqb_refl.
    by rewrite read_escaped, E.
  - by rewrite read_plain, E.
Qed.

Lemma read_arguments args : Forall (λ a, quotable a = true) args →
  unquote_words (String.concat " " (quoteCommandArgForDisplay <$> args)) = args.
Proof.
  unfold unquote_words. induction 1 as [|a args Ha _ IH]; [done|]. rewrite fmap_cons, concat_cons, read_argument by done.
  destruct args as [|b args]; [done|]. rewrite fmap_cons in *. rewrite str_app_cons.
  assert (∀ t, read_words false (Some a) (String " " t) = a :: read_words false None t) as -> by done. f_equal. exact IH.
Qed.

Lemma quoted_nonempty a : quoteCommandArgForDisplay a ≠ "".
Proof. unfold quoteCommandArgForDisplay. destruct a; cbn; [done|]. by case_match. Qed.

Lemma quoted_args_nonempty args : String.concat " " (quoteCommandArgForDisplay <$> args) = "" ↔ args = [].
Proof.
  split; [|by intros ->]. destruct args as [|a args]; [done|]. rewrite fmap_cons, concat_cons.
  intros H. exfalso. apply (quoted_nonempty a). by destruct (quoteCommandArgForDisplay a).
Qed.

Lemma nonempty_None s : nonempty s = None ↔ s = "".
Proof. by destruct s. Qed.

Lemma material_text_read {R} (m : Material R) e :
  mt_executable m = Some e → e ≠ "" → plain_word e = true → Forall (λ a, quotable a = true) (mt_args m) →
  unquote_words (material_text m) = e :: mt_args m.
Proof.
  intros He Hne [Hs%negb_true_iff Hq]%andb_true_iff Hargs. unfold material_text. rewrite He.
  rewrite !present_Some, present_nil, app_nil_r. cbn [from_option id].
  assert (nonempty e = Some e) as -> by (by apply nonempty_Some). cbn [option_list from_option option_rect app].
  assert (unquote_words (String.concat " " (quoteCommandArgForDisplay <$> mt_args m)) = mt_args m) as Ha by (by apply read_arguments).
  assert (∀ t, read_words false None (e +:+ t) = read_words false (Some e) t) as He'.
  { intros t. rewrite read_plain by done. by rewrite (proj2 (String.eqb_neq e "") Hne). }
  unfold unquote_words in *. rewrite concat_cons, He'.
  destruct (nonempty _) as [t|] eqn:Et; cbn [option_list from_option option_rect app].
  - apply nonempty_Some in Et as [-> _]. rewrite str_app_cons. cbn [String.concat].
    assert (∀ t, read_words false (Some e) (String " " t) = e :: read_words false None t) as -> by done. f_equal. exact Ha.
  - by apply nonempty_None, quoted_args_nonempty in Et as ->.
Qed.

Lemma material_text_empty {R} (m : Material R) :
  material_text m ≠ "" ↔ truthy (mt_executable m) || negb (bool_decide (mt_args m = [])) = true.
Proof.
  rewrite orb_true_iff, negb_true_iff, bool_decide_eq_false. unfold material_text. rewrite !present_Some, present_nil, app_nil_r.
  destruct (nonempty (default "" (mt_executable m))) as [e|] eqn:Ee; cbn [option_list from_option option_rect app].
  - apply nonempty_Some in Ee as [-> He]. rewrite concat_cons. destruct (mt_executable m) as [e|]; [|done].
    cbn in *. apply String.eqb_neq in He as He'. rewrite He'. split; [by left|]. intros _ H. by destruct e.
  - apply nonempty_None in Ee. assert (truthy (mt_executable m) = false) as Ht.
    { destruct (mt_executable m) as [e|]; [|done]. cbn in Ee. by subst. }
    rewrite Ht, <- quoted_args_nonempty.
    destruct (nonempty _) as [t|] eqn:Et; cbn [option_list from_option option_rect String.concat].
    + apply nonempty_Some in Et as [-> Hne]. by split; [right|].
    + apply nonempty_None in Et. rewrite Et. naive_solver.
Qed.

Lemma material_text_form {R} (m : Material R) e :
  mt_executable m = Some e → e ≠ "" → material_text m = String.concat " " (e :: (quoteCommandArgForDisplay <$> mt_args m)).
Proof.
  intros He Hne. unfold material_text. rewrite He, !present_Some, present_nil, app_nil_r. cbn [from_option id].
  assert (nonempty e = Some e) as -> by by apply nonempty_Some. cbn [option_list from_option option_rect app].
  destruct (mt_args m) as [|a args]; [done|]. destruct (nonempty _) as [t|] eqn:Et.
  - by apply nonempty_Some in Et as [-> _].
  - apply nonempty_None, quoted_args_nonempty in Et. done.
Qed.

(** The program and the arguments of a command that its text determines. *)
Record exact_command {R} (m : Material R) (e : string) : Prop := {
  ec_executable : mt_executable m = Some e;
  ec_present : e ≠ "";
  ec_plain : plain_word e = true;
  ec_args : Forall (λ a, quotable a = true) (mt_args m);
}.

Lemma material_text_inj {R R'} (m : Material R) (m' : Material R') e e' :
  exact_command m e → exact_command m' e' → material_text m = material_text m' → e = e' ∧ mt_args m = mt_args m'.
Proof.
  intros [] [] Ht. apply (f_equal unquote_words) in Ht. rewrite !(material_text_read _ _) in Ht by eassumption. by simplify_eq.
Qed.

(** ** Lemmas: the connection file *)

Lemma read_file_concat lines :
  lines ≠ [] → Forall (λ l, no_char line_feed l = true) lines →
  read_file (String.concat (String line_feed "") lines) = omap read_setting lines.
Proof. intros Hne Hl. unfold read_file. by rewrite js_split_concat. Qed.

Section file.
Context (fraction : Q → string).

Definition text_domain (c : DesktopProfile) : option string := r ← dp_rdp c; s ← rc_domain r; nonempty s.
Definition gateway_mode (c : DesktopProfile) : option RdpGatewayMode := g ← (r ← dp_rdp c; rc_gateway r); rg_mode g.
Definition text_gateway (c : DesktopProfile) : option string :=
  if decide (gateway_mode c = Some GatewayExplicit) then g ← (r ← dp_rdp c; rc_gateway r); s ← rg_host g; nonempty s else None.
Definition resource (f : RdpResourceConfig → option bool) (fallback : bool) (c : DesktopProfile) : string :=
  if default fallback (x ← (r ← dp_rdp c; rc_resources r); f x) then "1" else "0".

(** The settings a client finds in the file. *)
Definition rdp_settings (c : DesktopProfile) : list (string * (string * string)) :=
  let display := r ← dp_rdp c; rc_display r in
  [("full address", ("s", address c)); ("username", ("s", dp_username c))] ++
  option_list ((λ d, ("domain", ("s", d))) <$> text_domain c) ++
  [("screen mode id", ("i", if full_screen (d ← display; rd_mode d) then "2" else "1"));
   ("desktopwidth", ("i", size_text fraction (d ← display; rd_width d) 1440));
   ("desktopheight", ("i", size_text fraction (d ← display; rd_height d) 900));
   ("use multimon", ("i", if flag (d ← display; rd_use_multimon d) then "1" else "0"));
   ("redirectclipboard", ("i", resource rr_clipboard true c));
   ("audiomode", ("i", match (x ← (r ← dp_rdp c; rc_resources r); rr_audio x) with
                       Some AudioDisabled => "2" | Some AudioRemote => "1" | _ => "0" end));
   ("redirectdrives", ("i", resource rr_drives false c));
   ("redirectprinters", ("i", resource rr_printers false c));
   ("redirectsmartcards", ("i", resource rr_smart_cards false c));
   ("authentication level", ("i", rdpCertificateAuthenticationLevel (s ← (r ← dp_rdp c; rc_security r); rs_certificate_policy s)))] ++
  option_list ((λ h, ("gatewayhostname", ("s", h))) <$> text_gateway c) ++
  match gateway_mode c with
  | Some GatewayAuto => [("gatewayusagemethod", ("i", "2"))]
  | Some GatewayExplicit => [("gatewayusagemethod", ("i", "1"))]
  | _ => []
  end ++
  [("prompt for credentials", ("i", "1"))].

(** No text of the connection has a line break. *)
Definition one_line (c : DesktopProfile) : bool :=
  no_char line_feed (dp_host c) && no_char line_feed (dp_username c) &&
  no_char line_feed (default "" (text_domain c)) && no_char line_feed (default "" (text_gateway c)).

Hypothesis Hfraction : ∀ q, no_char line_feed (fraction q) = true.

Lemma size_text_line size fallback : no_char line_feed (size_text fraction size fallback) = true.
Proof using Hfraction. unfold size_text, number_text. case_decide; [apply pretty_Z_line|apply Hfraction]. Qed.

Lemma address_line c : no_char line_feed (dp_host c) = true → no_char line_feed (address c) = true.
Proof using. intros H. unfold address. by rewrite !no_char_app, H, pretty_Z_line. Qed.

Definition setting_line (s : string * (string * string)) : string := s.1 +:+ ":" +:+ s.2.1 +:+ ":" +:+ s.2.2.

Lemma file_settings_lines c :
  previewRdpFileContent fraction c = String.concat (String line_feed "") (setting_line <$> rdp_settings c).
Proof using.
  unfold previewRdpFileContent, rdp_settings, resource, text_gateway, text_domain, gateway_mode.
  destruct (dp_rdp c) as [rdp|]; [|reflexivity].
  destruct rdp as [domain display resources gateway ? ? security ? ? ?].
  cbn [rc_domain rc_display rc_resources rc_gateway rc_security mbind option_bind]. f_equal.
  destruct domain as [[|]|]; destruct gateway as [[[[]|] [[|]|] ?]|]; destruct resources as [[[[]|] ? ? ? ?]|]; reflexivity.
Qed.

Lemma break_colon_app a b : no_char ":" a = true → break_colon (a +:+ ":" +:+ b) = Some (a, b).
Proof using.
  induction a as [|x a IH]; [done|]. intros [Hx%negb_true_iff Ha]%andb_true_iff.
  rewrite str_app_cons. cbn [break_colon]. by rewrite Hx, IH.
Qed.

Lemma read_setting_line s :
  no_char ":" s.1 = true → no_char ":" s.2.1 = true → read_setting (setting_line s) = Some s.
Proof using.
  destruct s as [key [type value]]. cbn. intros Hk Ht. unfold read_setting, setting_line. cbn [fst snd].
  rewrite break_colon_app by done. cbn [mbind option_bind]. by rewrite break_colon_app.
Qed.

(** A line whose key and type are known and that has no line break. *)
Definition good_setting (s : string * (string * string)) : bool :=
  no_char ":" s.1 && no_char ":" s.2.1 && no_char line_feed s.1 && no_char line_feed s.2.1 && no_char line_feed s.2.2.

Lemma good_settings c : one_line c = true → Forall (λ s, good_setting s = true) (rdp_settings c).
Proof using Hfraction.
  intros [[[Hh Hu]%andb_true_iff Hd]%andb_true_iff Hg]%andb_true_iff.
  assert (∀ key type value, no_char ":" key && no_char ":" type && no_char line_feed key && no_char line_feed type = true →
    no_char line_feed value = true → good_setting (key, (type, value)) = true) as Hline.
  { intros key type value Hk Hv. unfold good_setting. cbn [fst snd]. by rewrite Hk, Hv. }
  unfold rdp_settings. rewrite !Forall_app. split_and!.
  - repeat constructor; apply Hline; try done. by apply address_line.
  - destruct (text_domain c); repeat constructor. by apply Hline.
  - repeat constructor; apply Hline; try done; try apply size_text_line; unfold resource; try (by case_match).
    all: unfold rdpCertificateAuthenticationLevel; by repeat case_match.
  - destruct (text_gateway c); repeat constructor. by apply Hline.
  - by destruct (gateway_mode c) as [[]|]; repeat constructor.
  - by repeat constructor.
Qed.

Lemma read_rdp_file c : one_line c = true → read_file (previewRdpFileContent fraction c) = rdp_settings c.
Proof using Hfraction.
  intros Hc%good_settings. rewrite file_settings_lines, read_file_concat; [| |].
  - induction Hc as [|s l [[[[Hk Ht]%andb_true_iff _]%andb_true_iff _]%andb_true_iff _]%andb_true_iff _ IH]; [done|].
    rewrite fmap_cons. cbn [omap list_omap]. rewrite read_setting_line by done. by f_equal.
  - done.
  - apply Forall_fmap. eapply Forall_impl; [exact Hc|].
    intros s [[[[Hk Ht]%andb_true_iff Hk']%andb_true_iff Ht']%andb_true_iff Hv]%andb_true_iff.
    unfold compose, setting_line. by rewrite !no_char_app, Hk', Ht', Hv.
Qed.

Lemma rdp_settings_keys c : NoDup (rdp_settings c).*1.
Proof using.
  assert (∀ l : list string, bool_decide (NoDup l) = true → NoDup l) as Hd by (intros l; apply bool_decide_eq_true).
  unfold rdp_settings. rewrite !fmap_app. apply Hd.
  destruct (text_domain c), (text_gateway c), (gateway_mode c) as [[]|]; vm_compute; reflexivity.
Qed.
End file.

(** ** Properties *)

(** C34: What is shown of a remote desktop. A session offers its command exactly when there
    is one; the command of a launch is its program and then its arguments, each quoted, a
    space between them; and the text belongs to that launch alone: two sessions, RDP or
    VNC, show the same command only when they have the same program and the same
    arguments, as long as the programs are one plain word and the arguments have neither a
    quotation mark without white space nor a backslash at the end of quoted text. The
    generated connection file, read as lines of [name:type:value], holds the address, the
    user, the domain and the gateway of the connection and its clipboard switch, no setting
    twice, and no other text setting, when the texts of the connection hold no line break. *)
Theorem desktop_text_exact tr fraction :
  (∀ q, no_char line_feed (fraction q) = true) →
  (∀ session, rdpSessionHasCommandText session = true ↔ rdpSessionCommandText session ≠ "") ∧
  (∀ session, vncSessionHasCommandText session = true ↔ vncSessionCommandText session ≠ "") ∧
  (∀ session m e, rdp_material session = Some m → mt_runner m ≠ Some MstscActivex → mt_executable m = Some e → e ≠ "" →
     rdpSessionCommandText session = String.concat " " (e :: (quoteCommandArgForDisplay <$> mt_args m))) ∧
  (∀ session m e, vnc_material session = Some m → mt_runner m ≠ Some NoVnc → mt_executable m = Some e → e ≠ "" →
     vncSessionCommandText session = String.concat " " (e :: (quoteCommandArgForDisplay <$> mt_args m))) ∧
  (∀ session session' m m' e e', rdp_material session = Some m → rdp_material session' = Some m' →
     exact_command m e → exact_command m' e' → mt_runner m ≠ Some MstscActivex → mt_runner m' ≠ Some MstscActivex →
     rdpSessionCommandText session = rdpSessionCommandText session' → e = e' ∧ mt_args m = mt_args m') ∧
  (∀ session session' m m' e e', vnc_material session = Some m → vnc_material session' = Some m' →
     exact_command m e → exact_command m' e' → mt_runner m ≠ Some NoVnc → mt_runner m' ≠ Some NoVnc →
     vncSessionCommandText session = vncSessionCommandText session' → e = e' ∧ mt_args m = mt_args m') ∧
  ∀ connection platform file, one_line connection = true →
    rp_rdp_file_content (previewRdpLaunchForBrowser tr fraction connection platform) = Some file →
    setting file "full address" = Some ("s", address connection) ∧
    setting file "username" = Some ("s", dp_username connection) ∧
    setting file "domain" = pair "s" <$> text_domain connection ∧
    setting file "gatewayhostname" = pair "s" <$> text_gateway connection ∧
    setting file "redirectclipboard" = Some ("i", resource rr_clipboard true connection) ∧
    NoDup (read_file file).*1 ∧
    ∀ key value, (key, ("s", value)) ∈ read_file file →
      key ∈ ["full address"; "username"; "domain"; "gatewayhostname"].
Proof.
  assert (∀ session m, rdp_material session = Some m → mt_runner m ≠ Some MstscActivex →
    rdpSessionCommandText session = material_text m) as Hrdp.
  { intros session m Hm Hr. unfold rdpSessionCommandText. rewrite Hm. assert (hosted_activex m = false) as ->; [|done].
    apply bool_decide_eq_false. naive_solver. }
  assert (∀ session m, vnc_material session = Some m → mt_runner m ≠ Some NoVnc →
    vncSessionCommandText session = material_text m) as Hvnc.
  { intros session m Hm Hr. unfold vncSessionCommandText. rewrite Hm. by rewrite decide_False. }
  intros Hf. split; [|split; [|split; [|split; [|split; [|split]]]]].
  - intros session. unfold rdpSessionHasCommandText, rdpSessionCommandText.
    destruct (rdp_material session) as [m|]; [|done]. destruct (hosted_activex m); [done|]. by rewrite material_text_empty.
  - intros session. unfold vncSessionHasCommandText, vncSessionCommandText.
    destruct (vnc_material session) as [m|]; [|done]. case_decide; [done|]. by rewrite material_text_empty.
  - intros session m e Hm Hr He Hne. rewrite (Hrdp _ _ Hm Hr). by apply material_text_form.
  - intros session m e Hm Hr He Hne. rewrite (Hvnc _ _ Hm Hr). by apply material_text_form.
  - intros session session' m m' e e' Hm Hm' He He' Hr Hr'. rewrite (Hrdp _ _ Hm Hr), (Hrdp _ _ Hm' Hr'). by apply material_text_inj.
  - intros session session' m m' e e' Hm Hm' He He' Hr Hr'. rewrite (Hvnc _ _ Hm Hr), (Hvnc _ _ Hm' Hr'). by apply material_text_inj.
  - intros c platform file Hc Hfile. assert (file = previewRdpFileContent fraction c) as ->.
    { unfold previewRdpLaunchForBrowser in Hfile. cbn [rp_rdp_file_content] in Hfile.
      by destruct (rdp_preview_runner platform (dp_rdp c)); simplify_eq. }
    unfold setting. rewrite (read_rdp_file fraction Hf c Hc). unfold rdp_settings.
    split_and!; [reflexivity..| | | |apply rdp_settings_keys|].
    + by destruct (text_domain c); [|destruct (text_gateway c), (gateway_mode c) as [[]|]].
    + by destruct (text_domain c), (text_gateway c), (gateway_mode c) as [[]|].
    + by destruct (text_domain c).
    + intros key value. rewrite !elem_of_app, !elem_of_cons, !elem_of_nil.
      destruct (text_domain c), (text_gateway c), (gateway_mode c) as [[]|]; set_solver.
Qed.

Definition demo_fraction (q : Q) : string := "0.5".

Definition demo_desktop : DesktopProfile :=
  mkDesktopProfile "c1" "Office" "10.0.0.5" 3389 "Ana Maria"
    (Some (mkRdp (Some "corp") None (Some (mkRdpResources (Some false) None None None None))
      (Some (mkRdpGateway (Some GatewayExplicit) (Some "gate") None)) None None None
      (Some (mkRdpRunner (Some RdpExternal) None None None)) None None))
    None.

Definition demo_command (executable : string) (args : list string) : RdpSessionTab :=
  mkRdpTab "c1" 5 None "rdp-c1-5" None None
    (Some (mkRdpResult "r1" "c1" true false Freerdp (Some executable) args None None None None)) RdpIsExternal "RDP".

Definition demo_viewer : VncSessionTab :=
  mkVncTab "c2" 6 None "vnc-c2-6" None (Some (previewVncLaunchForBrowser id
    (mkDesktopProfile "c2" "" "host" 5901 "" None (Some (mkVnc None None None None
      (Some (mkVncRunner (Some VncExternal) None None None)) None))))) None VncIsExternal "VNC" None.

Lemma desktop_text_exact_witness :
  let args := ["/u:Ana Maria"; ""; "C:\a b"] in
  (∀ session m e, rdp_material session = Some m → mt_runner m ≠ Some MstscActivex → exact_command m e →
    rdpSessionCommandText session = rdpSessionCommandText (demo_command "xfreerdp" args) → e = "xfreerdp" ∧ mt_args m = args) ∧
  vncSessionCommandText demo_viewer = "vncviewer host::5901" ∧
  setting (previewRdpFileContent demo_fraction demo_desktop) "domain" = Some ("s", "corp") ∧
  setting (previewRdpFileContent demo_fraction demo_desktop) "redirectclipboard" = Some ("i", "0").
Proof.
  intros args. destruct (desktop_text_exact id demo_fraction (λ _, eq_refl)) as (_ & _ & _ & Hv & Hi & _ & Hf).
  split; [|split; [|split]].
  - intros session m e Hm Hr He. apply (Hi session (demo_command "xfreerdp" args) m
      (mkMaterial (Some Freerdp) (Some "xfreerdp") args) e "xfreerdp"); try done. split; [done..|]. by repeat constructor.
  - by refine (Hv demo_viewer (mkMaterial (Some VncViewer) (Some "vncviewer") ["host::5901"]) "vncviewer" _ _ _ _).
  - exact (proj1 (proj2 (proj2 (Hf demo_desktop Windows _ eq_refl eq_refl)))).
  - exact (proj1 (proj2 (proj2 (proj2 (proj2 (Hf demo_desktop Windows _ eq_refl eq_refl)))))).
Defined.

(** Outside of these conditions different commands have one text: the program is not
    quoted, and an argument without white space keeps its quotation marks bare. *)
Example command_text_ambiguous :
  let quoted s := String quote_mark s in
  rdpSessionCommandText (demo_command "C:\Program Files\free.exe" []) =
    rdpSessionCommandText (demo_command "C:\Program" ["Files\free.exe"]) ∧
  rdpSessionCommandText (demo_command "x" ["a b"]) =
    rdpSessionCommandText (demo_command "x" [quoted "a"; "b" +:+ quoted ""]).
Proof. done. Qed.
