(* ===== verification/RemoteDesktop.v ===== *)
(** * RDP sessions ([features/layout/WorkspaceShell.tsx])

    The tabs of RDP sessions: opening, launching, retrying, previewing and closing them, the
    sessions that the backend ends and the launches in flight, as a machine of commands,
    reports and answers in any order. The calls to the backend and the dispatched actions
    are a log; what the actions do to the pointers of the workspace is in the close paths.
    Updates of the tabs are taken to be immediate. *)

From S2P Require Import Prelude SnapshotCodec ConnectionInput ConnectionErrors DesktopText.
From stdpp Require Import pretty.
From Stdlib Require Import Lia.

#[local] Open Scope nat_scope.

(** ** Tabs by id

    [sessions.map((session) => session.id === sessionId ? updater(session) : session)] *)

Section by_id.
Context {A : Type} (key : A → string).

Definition update_by (id : string) (f : A → A) (l : list A) : list A := (λ x, if decide (key x = id) then f x else x) <$> l.

(** [list.slice(list.findIndex((item) => item.id === id) + 1)] of a list that has the id. *)
Definition after_id (id : string) (l : list A) : list A :=
  match list_find (λ x, key x = id) l with Some (index, _) => drop (S index) l | None => [] end.

Lemma update_by_keys id f l : (∀ x, key (f x) = key x) → key <$> update_by id f l = key <$> l.
Proof.
  intros Hf. unfold update_by. rewrite <- list_fmap_compose. apply list_fmap_ext. intros i x _. cbn.
  case_decide; [apply Hf|done].
Qed.

Lemma elem_of_update_by id f l x :
  x ∈ update_by id f l ↔ x ∈ l ∧ key x ≠ id ∨ ∃ y, y ∈ l ∧ key y = id ∧ x = f y.
Proof.
  unfold update_by. rewrite list_elem_of_fmap. split.
  - intros (y & -> & Hy). case_decide; [right; exists y; auto|by left].
  - intros [[Hx Hne]|(y & Hy & Hk & ->)]; [exists x|exists y]; (split; [|done]); by case_decide.
Qed.

Lemma exists_by id (l : list A) : bool_decide (Exists (λ x, key x = id) l) = true ↔ id ∈ key <$> l.
Proof.
  rewrite bool_decide_eq_true, Exists_exists, list_elem_of_fmap.
  split; [intros (x & Hx & <-)|intros (x & -> & Hx)]; eauto.
Qed.

Lemma exists_by_false id (l : list A) : bool_decide (Exists (λ x, key x = id) l) = false ↔ id ∉ key <$> l.
Proof. rewrite <- not_true_iff_false, exists_by. done. Qed.

Lemma Forall_kept (P Q : A → Prop) `{!∀ x, Decision (Q x)} l : Forall P l → Forall P (filter Q l).
Proof. rewrite !Forall_forall. intros Hl x [_ Hx]%list_elem_of_filter. by apply Hl. Qed.

Lemma NoDup_kept (Q : A → Prop) `{!∀ x, Decision (Q x)} {B} (f : A → B) l : NoDup (f <$> l) → NoDup (f <$> filter Q l).
Proof. intros Hl. eapply sublist_NoDup; [exact Hl|]. apply fmap_sublist, sublist_filter. Qed.
End by_id.
#[local] Arguments update_by : simpl never.

(** A text that may be empty, when it counts. *)
Definition shown (text : string) : list string := option_list (nonempty text).

Section desktop.
Context (tr : string → string) (trv : string → string → string) (fraction : Q → string)
  (diagnostic : string → string) (show : json → string).
(** [hasTauriRuntime()] and [desktopPlatform]. *)
Context (tauri : bool) (platform : DesktopPlatform).

Definition detailed_error (error : json) : string := formatDetailedError diagnostic show error.
Definition plain_error (error : json) : string := formatError show error.

(** ** RDP *)

Inductive RdpCall :=
  | RcLaunch (connectionId : string)
  | RcClose (backendSessionId : string)
  | RcReveal (backendSessionId : string)
  | RcPreview (connectionId : string)
  | RcMarkConnected (connectionId : string)
  | RcActivate (connectionId sessionId : string)
  | RcRemove (sessionIds : list string).

#[export] Instance RdpCall_eq_dec : EqDecision RdpCall.
Proof. solve_decision. Defined.

(** A launch that awaits its answer, or, without a backend, the end of a short wait. *)
Record RdpRun := mkRdpRun {
  rn_id : nat;
  rn_session : string;
  rn_connection : DesktopProfile;
}.

(** [rd_previews] are the previews in flight, by session; [rd_returned] has the backend
    sessions that launches have returned so far. *)
Record RdpDesktop := mkRdpDesktop {
  rd_sessions : list RdpSessionTab;
  rd_runs : list RdpRun;
  rd_previews : list (nat * string);
  rd_next : nat;
  rd_calls : list RdpCall;
  rd_returned : list string;
}.

Definition rd_set_sessions (l : list RdpSessionTab) (s : RdpDesktop) : RdpDesktop :=
  mkRdpDesktop l (rd_runs s) (rd_previews s) (rd_next s) (rd_calls s) (rd_returned s).
Definition rd_log (calls : list RdpCall) (s : RdpDesktop) : RdpDesktop :=
  mkRdpDesktop (rd_sessions s) (rd_runs s) (rd_previews s) (rd_next s) (rd_calls s ++ calls) (rd_returned s).
Definition rd_await (sessionId : string) (connection : DesktopProfile) (s : RdpDesktop) : RdpDesktop :=
  mkRdpDesktop (rd_sessions s) (rd_runs s ++ [mkRdpRun (rd_next s) sessionId connection]) (rd_previews s) (S (rd_next s))
    (rd_calls s) (rd_returned s).
Definition rd_answered (run : nat) (returned : list string) (s : RdpDesktop) : RdpDesktop :=
  mkRdpDesktop (rd_sessions s) (filter (λ r, rn_id r ≠ run) (rd_runs s)) (rd_previews s) (rd_next s) (rd_calls s)
    (rd_returned s ++ returned).
Definition rd_await_preview (sessionId : string) (s : RdpDesktop) : RdpDesktop :=
  mkRdpDesktop (rd_sessions s) (rd_runs s) (rd_previews s ++ [(rd_next s, sessionId)]) (S (rd_next s)) (rd_calls s) (rd_returned s).
Definition rd_previewed (call : nat) (s : RdpDesktop) : RdpDesktop :=
  mkRdpDesktop (rd_sessions s) (rd_runs s) (filter (λ p, p.1 ≠ call) (rd_previews s)) (rd_next s) (rd_calls s) (rd_returned s).

Definition updateRdpSession (sessionId : string) (updater : RdpSessionTab → RdpSessionTab) (s : RdpDesktop) : RdpDesktop :=
  rd_set_sessions (update_by rt_id sessionId updater (rd_sessions s)) s.

Definition rdpSessionExists (sessionId : string) (s : RdpDesktop) : bool :=
  bool_decide (Exists (λ session, rt_id session = sessionId) (rd_sessions s)).

Definition find_rdp (sessionId : string) (s : RdpDesktop) : option RdpSessionTab :=
  js_find (λ session, rt_id session = sessionId) (rd_sessions s).

Definition rdp_backend (session : RdpSessionTab) : list string := match rt_result session with Some r => shown (rr_session_id r) | None => [] end.

Definition rdp_launching (session : RdpSessionTab) : RdpSessionTab :=
  mkRdpTab (rt_connectionId session) (rt_createdAt session) None (rt_id session) (Some (tr "workspace.rdp.launching"))
    None None RdpIsLaunching (rt_title session).

Definition rdp_browser_ready (connection : DesktopProfile) (session : RdpSessionTab) : RdpSessionTab :=
  mkRdpTab (rt_connectionId session) (rt_createdAt session) (rt_error session) (rt_id session)
    (Some (tr "workspace.rdp.preview")) (Some (previewRdpLaunchForBrowser tr fraction connection platform))
    (rt_result session) RdpIsExternal (rt_title session).

Definition native_activex (result : RdpLaunchResult) : bool := bool_decide (rr_runner result = MstscActivex) && negb (rr_embedded result).

Definition rdp_launched_status (result : RdpLaunchResult) : RdpSessionStatus :=
  if rr_embedded result then RdpIsEmbedded else if native_activex result then RdpIsNative else RdpIsExternal.

Definition rdp_launched (result : RdpLaunchResult) (session : RdpSessionTab) : RdpSessionTab :=
  mkRdpTab (rt_connectionId session) (rt_createdAt session) None (rt_id session)
    (Some (or_text (rr_fallback_reason result)
      (if rr_embedded result then tr "workspace.rdp.embeddedCreated"
       else if native_activex result then tr "workspace.rdp.nativeOpened" else tr "workspace.rdp.externalStarted")))
    (rt_preview session) (Some result) (rdp_launched_status result) (rt_title session).

Definition rdp_failed (error : json) (session : RdpSessionTab) : RdpSessionTab :=
  mkRdpTab (rt_connectionId session) (rt_createdAt session) (Some (detailed_error error)) (rt_id session) None
    (rt_preview session) (rt_result session) RdpIsError (rt_title session).

Definition rdp_message (message : string) (session : RdpSessionTab) : RdpSessionTab :=
  mkRdpTab (rt_connectionId session) (rt_createdAt session) (rt_error session) (rt_id session) (Some message)
    (rt_preview session) (rt_result session) (rt_status session) (rt_title session).

Definition rdp_previewed (preview : RdpLaunchPreview) (session : RdpSessionTab) : RdpSessionTab :=
  mkRdpTab (rt_connectionId session) (rt_createdAt session) (rt_error session) (rt_id session)
    (Some (tr "workspace.rdp.previewReady")) (Some preview) (rt_result session) (rt_status session) (rt_title session).

Definition buildRdpSession (connection : DesktopProfile) (now : Z) (s : RdpDesktop) : RdpSessionTab :=
  let index := length (filter (λ session, rt_connectionId session = dp_id connection) (rd_sessions s)) + 1 in
  mkRdpTab (dp_id connection) now None ("rdp-" +:+ dp_id connection +:+ "-" +:+ pretty now) None None None RdpIsLaunching
    (if decide (index = 1) then "RDP" else "RDP " +:+ pretty index).

(** Up to its first await. *)
Definition runRdpSession (sessionId : string) (connection : DesktopProfile) (s : RdpDesktop) : RdpDesktop :=
  let s := updateRdpSession sessionId rdp_launching s in
  let s := if tauri then rd_log [RcLaunch (dp_id connection)] s else s in
  rd_await sessionId connection s.

Definition activateRdpSession (session : RdpSessionTab) (s : RdpDesktop) : RdpDesktop :=
  rd_log [RcActivate (rt_connectionId session) (rt_id session)] s.

Definition startRdpSession (connection : DesktopProfile) (activate : bool) (now : Z) (s : RdpDesktop) : RdpDesktop :=
  let session := buildRdpSession connection now s in
  let s := rd_set_sessions (rd_sessions s ++ [session]) s in
  let s := if activate then activateRdpSession session s else s in
  runRdpSession (rt_id session) connection s.

Definition preferredRdpSessionForConnection (activeRdpSessionId : option string) (connectionId : string) (s : RdpDesktop) : option RdpSessionTab :=
  let activeSession :=
    if truthy activeRdpSessionId
    then js_find (λ session, Some (rt_id session) = activeRdpSessionId ∧ rt_connectionId session = connectionId) (rd_sessions s)
    else None in
  activeSession ?: js_find (λ session, rt_connectionId session = connectionId) (rd_sessions s).

Definition revealNativeRdpHostSession (session : RdpSessionTab) (s : RdpDesktop) : RdpDesktop :=
  if negb tauri then s
  else match rt_result session with
       | Some r => if decide (rr_runner r = MstscActivex) then rd_log (RcReveal <$> shown (rr_session_id r)) s else s
       | None => s
       end.

Definition openRdpConnectionSession (connection : DesktopProfile) (activeRdpSessionId : option string) (now : Z) (s : RdpDesktop) : RdpDesktop :=
  match preferredRdpSessionForConnection activeRdpSessionId (dp_id connection) s with
  | Some existingSession => revealNativeRdpHostSession existingSession (activateRdpSession existingSession s)
  | None => startRdpSession connection true now s
  end.

(** [connectionById] is what the workspace knows at that time. *)
Definition retryRdpSession (connectionById : gmap string DesktopProfile) (sessionId : string) (s : RdpDesktop) : RdpDesktop :=
  match find_rdp sessionId s with
  | None => s
  | Some session =>
      match connectionById !! rt_connectionId session with
      | None => s
      | Some connection => runRdpSession (rt_id session) connection (activateRdpSession session s)
      end
  end.

Definition previewRdpSessionLaunch (connectionById : gmap string DesktopProfile) (sessionId : string) (s : RdpDesktop) : RdpDesktop :=
  match find_rdp sessionId s with
  | None => s
  | Some session =>
      match connectionById !! rt_connectionId session with
      | None => updateRdpSession sessionId (rdp_message (tr "workspace.vnc.connectionDeleted")) s
      | Some connection =>
          let s := updateRdpSession sessionId (rdp_message (tr "workspace.rdp.previewGenerating")) s in
          if tauri then rd_await_preview sessionId (rd_log [RcPreview (dp_id connection)] s)
          else updateRdpSession sessionId (rdp_previewed (previewRdpLaunchForBrowser tr fraction connection platform)) s
      end
  end.

Definition removeRdpSessionsLocally (sessionIds : list string) (s : RdpDesktop) : RdpDesktop :=
  if decide (sessionIds = []) then s
  else rd_log [RcRemove sessionIds] (rd_set_sessions (filter (λ session, rt_id session ∉ sessionIds) (rd_sessions s)) s).

Definition closeRdpSessions (sessionIds : list string) (s : RdpDesktop) : RdpDesktop :=
  if decide (sessionIds = []) then s
  else
    let closingSessions := filter (λ session, rt_id session ∈ sessionIds) (rd_sessions s) in
    let s := if tauri then rd_log (closingSessions ≫= λ session, RcClose <$> rdp_backend session) s else s in
    removeRdpSessionsLocally sessionIds s.

Definition closeOtherRdpSessions (sessionId : string) (s : RdpDesktop) : RdpDesktop :=
  match find_rdp sessionId s with
  | None => s
  | Some session => closeRdpSessions
      (rt_id <$> filter (λ item, rt_connectionId item = rt_connectionId session ∧ rt_id item ≠ sessionId) (rd_sessions s)) s
  end.

Definition closeRdpSessionsToRight (sessionId : string) (s : RdpDesktop) : RdpDesktop :=
  match find_rdp sessionId s with
  | None => s
  | Some session => closeRdpSessions
      (rt_id <$> after_id rt_id sessionId (filter (λ item, rt_connectionId item = rt_connectionId session) (rd_sessions s))) s
  end.

Definition closeAllRdpSessionsForConnection (connectionId : string) (s : RdpDesktop) : RdpDesktop :=
  closeRdpSessions (rt_id <$> filter (λ session, rt_connectionId session = connectionId) (rd_sessions s)) s.

(** The backend reports that a session is over. *)
Definition rdp_session_closed (backendSessionId : string) (s : RdpDesktop) : RdpDesktop :=
  if negb tauri then s
  else
    let closedTabIds := rt_id <$> filter (λ session, rr_session_id <$> rt_result session = Some backendSessionId) (rd_sessions s) in
    if decide (closedTabIds = []) then s
    else rd_log [RcClose backendSessionId] (removeRdpSessionsLocally closedTabIds s).

(** How a launch ends: the wait is over, or the backend answers. *)
Inductive RdpAnswer := RdpWaited | RdpLaunched (result : RdpLaunchResult) | RdpRefused (error : json).

Definition settle_rdp_run (run : RdpRun) (answer : RdpAnswer) (s : RdpDesktop) : RdpDesktop :=
  let sessionId := rn_session run in
  let connection := rn_connection run in
  match answer with
  | RdpWaited =>
      let s := rd_answered (rn_id run) [] s in
      if negb (rdpSessionExists sessionId s) then s
      else rd_log [RcMarkConnected (dp_id connection)] (updateRdpSession sessionId (rdp_browser_ready connection) s)
  | RdpLaunched result =>
      let s := rd_answered (rn_id run) (shown (rr_session_id result)) s in
      if negb (rdpSessionExists sessionId s) then rd_log (RcClose <$> shown (rr_session_id result)) s
      else rd_log [RcMarkConnected (dp_id connection)] (updateRdpSession sessionId (rdp_launched result) s)
  | RdpRefused error =>
      let s := rd_answered (rn_id run) [] s in
      if negb (rdpSessionExists sessionId s) then s else updateRdpSession sessionId (rdp_failed error) s
  end.

Definition answers_run (answer : RdpAnswer) : bool := match answer with RdpWaited => negb tauri | _ => tauri end.

Definition settle_rdp_preview (sessionId : string) (answer : RdpLaunchPreview + json) (s : RdpDesktop) : RdpDesktop :=
  match answer with
  | inl preview => updateRdpSession sessionId (rdp_previewed preview) s
  | inr error => updateRdpSession sessionId (rdp_message (trv "workspace.rdp.previewFailed" (plain_error error))) s
  end.

Inductive RdpEvent :=
  | RdpOpen (connection : DesktopProfile) (activeRdpSessionId : option string) (now : Z)
  | RdpStart (connection : DesktopProfile) (activate : bool) (now : Z)
  | RdpRetry (connectionById : gmap string DesktopProfile) (sessionId : string)
  | RdpPreview (connectionById : gmap string DesktopProfile) (sessionId : string)
  | RdpClose (sessionIds : list string)
  | RdpCloseOthers (sessionId : string)
  | RdpCloseToRight (sessionId : string)
  | RdpCloseAll (connectionId : string)
  | RdpClosed (backendSessionId : string)
  | RdpRunSettled (run : nat) (answer : RdpAnswer)
  | RdpPreviewSettled (call : nat) (answer : RdpLaunchPreview + json).

Definition rdp_step (s : RdpDesktop) (e : RdpEvent) : RdpDesktop :=
  match e with
  | RdpOpen connection active now => openRdpConnectionSession connection active now s
  | RdpStart connection activate now => startRdpSession connection activate now s
  | RdpRetry connectionById sessionId => retryRdpSession connectionById sessionId s
  | RdpPreview connectionById sessionId => previewRdpSessionLaunch connectionById sessionId s
  | RdpClose sessionIds => closeRdpSessions sessionIds s
  | RdpCloseOthers sessionId => closeOtherRdpSessions sessionId s
  | RdpCloseToRight sessionId => closeRdpSessionsToRight sessionId s
  | RdpCloseAll connectionId => closeAllRdpSessionsForConnection connectionId s
  | RdpClosed backendSessionId => rdp_session_closed backendSessionId s
  | RdpRunSettled run answer =>
      match js_find (λ r, rn_id r = run) (rd_runs s) with
      | Some r => if answers_run answer then settle_rdp_run r answer s else s
      | None => s
      end
  | RdpPreviewSettled call answer =>
      match js_find (λ p, p.1 = call) (rd_previews s) with
      | Some (_, sessionId) => settle_rdp_preview sessionId answer (rd_previewed call s)
      | None => s
      end
  end.

Definition rdp_run (s : RdpDesktop) (events : list RdpEvent) : RdpDesktop := foldl rdp_step s events.

(** The sessions that a restored workspace starts with. *)
Definition rdp_restored (sessions : list RdpSessionTab) : RdpDesktop := mkRdpDesktop sessions [] [] 0 [] [].
End desktop.

(** ** RDP: what holds of a workspace *)

Section rdp_facts.
Context (tr : string → string) (trv : string → string → string) (fraction : Q → string)
  (diagnostic : string → string) (show : json → string) (tauri : bool) (platform : DesktopPlatform).

Implicit Types (s : RdpDesktop) (x : RdpSessionTab) (r : RdpRun).

(** A tab holds the session of its launch and says how it is shown, or it has none. *)
Definition rdp_shape x : Prop :=
  match rt_result x with
  | Some result => tauri = true ∧ rt_status x = rdp_launched_status result ∧ rt_error x = None
  | None => rt_status x = RdpIsLaunching ∨ rt_status x = RdpIsError ∨ (tauri = false ∧ rt_status x = RdpIsExternal)
  end.

(** The session is closed, or a tab holds it. *)
Definition rdp_kept s (b : string) : Prop := RcClose b ∈ rd_calls s ∨ ∃ x, x ∈ rd_sessions s ∧ b ∈ rdp_backend x.

(** All of it, but for the tab [but], which has no session. *)
Record rdp_ok_but (but : option string) s : Prop := {
  ro_ids : NoDup (rt_id <$> rd_sessions s);
  ro_run_ids : NoDup (rn_id <$> rd_runs s);
  ro_next : Forall (λ r, rn_id r < rd_next s) (rd_runs s);
  ro_single : NoDup (rn_session <$> rd_runs s);
  ro_runs : ∀ r x, r ∈ rd_runs s → x ∈ rd_sessions s → rt_id x = rn_session r → rt_status x = RdpIsLaunching;
  ro_but : ∀ id, but = Some id → id ∉ rn_session <$> rd_runs s;
  ro_shape : ∀ x, x ∈ rd_sessions s → if decide (but = Some (rt_id x)) then rt_result x = None else rdp_shape x;
  ro_launching : ∀ x, x ∈ rd_sessions s → but ≠ Some (rt_id x) → rt_status x = RdpIsLaunching → rt_id x ∈ rn_session <$> rd_runs s;
  ro_kept : ∀ b, b ∈ rd_returned s → rdp_kept s b;
}.

Definition rdp_ok : RdpDesktop → Prop := rdp_ok_but None.

Lemma rdp_log_ok but calls s : rdp_ok_but but s → rdp_ok_but but (rd_log calls s).
Proof.
  intros [? ? ? ? ? ? ? ? Hk]. split; try done. intros b Hb. destruct (Hk b Hb) as [Hc|Hx]; [left|by right].
  apply elem_of_app. by left.
Qed.

(** An update that keeps what matters of a tab. *)
Lemma rdp_quiet_ok sid f s :
  (∀ x, rt_id (f x) = rt_id x ∧ rt_status (f x) = rt_status x ∧ rt_result (f x) = rt_result x ∧ rt_error (f x) = rt_error x) →
  rdp_ok s → rdp_ok (updateRdpSession sid f s).
Proof.
  intros Hf [Hi ? ? ? Hr ? Hs Hl Hk]. cbn in *.
  assert (∀ x, x ∈ update_by rt_id sid f (rd_sessions s) → ∃ y, y ∈ rd_sessions s ∧ rt_id x = rt_id y ∧
    rt_status x = rt_status y ∧ rt_result x = rt_result y ∧ rt_error x = rt_error y) as Hx.
  { intros x [[Hx _]|(y & Hy & _ & ->)]%elem_of_update_by; [by exists x|exists y; destruct (Hf y) as (? & ? & ? & ?); eauto]. }
  split; cbn; try done.
  - rewrite update_by_keys; [done|]. intros x. apply Hf.
  - intros r x Hr' (y & Hy & -> & -> & _)%Hx Heq. by apply (Hr r).
  - intros x (y & Hy & Hid & Hst & Hre & Her)%Hx. specialize (Hs y Hy). unfold rdp_shape in *. by rewrite Hst, Hre, Her.
  - intros x (y & Hy & -> & -> & _)%Hx. by apply Hl.
  - intros b Hb. destruct (Hk b Hb) as [Hc|(x & Hx' & Hbx)]; [by left|right].
    destruct (decide (rt_id x = sid)).
    + exists (f x). split; [apply elem_of_update_by; right; eauto|]. unfold rdp_backend in *. destruct (Hf x) as (_ & _ & -> & _). done.
    + exists x. split; [apply elem_of_update_by; by left|done].
Qed.

Lemma rdp_run_ok sid connection s :
  rdp_ok_but (Some sid) s → rdp_ok (runRdpSession tr tauri sid connection s).
Proof.
  intros H. unfold runRdpSession.
  assert (rdp_ok (rd_await sid connection (updateRdpSession sid (rdp_launching tr) s))) as Hok; [|by destruct tauri; [apply (rdp_log_ok _ [RcLaunch (dp_id connection)]) in Hok|]].
  destruct H as [Hi Hn Hx Hsg Hr Hb Hs Hl Hk]. specialize (Hb sid eq_refl).
  assert (∀ x, x ∈ update_by rt_id sid (rdp_launching tr) (rd_sessions s) →
    x ∈ rd_sessions s ∧ rt_id x ≠ sid ∨ rt_id x = sid ∧ rt_status x = RdpIsLaunching ∧ rt_result x = None) as Hin.
  { intros x [Hx'|(y & Hy & Hid & ->)]%elem_of_update_by; [by left|right]. by rewrite <- Hid. }
  split; cbn; [by rewrite update_by_keys| | | | |done| | |].
  - rewrite fmap_app. apply NoDup_app. split_and!; [done| |by apply NoDup_singleton].
    intros i (r & -> & Hr')%list_elem_of_fmap Heq%list_elem_of_singleton. rewrite Forall_forall in Hx. specialize (Hx r Hr'). cbn in Hx, Heq. lia.
  - apply Forall_app. split; [eapply Forall_impl; [exact Hx|]; cbn; lia|]. constructor; [cbn; lia|done].
  - rewrite fmap_app. apply NoDup_app. split_and!; [done| |by apply NoDup_singleton].
    intros i Hi' Heq%list_elem_of_singleton. by subst.
  - intros r x [Hr'| ->%list_elem_of_singleton]%elem_of_app [[Hx' Hne]|(_ & Hst & _)]%Hin Heq; try done.
    by apply (Hr r).
  - intros x [[Hx' Hne]|(_ & Hst & Hre)]%Hin.
    + specialize (Hs x Hx'). rewrite decide_False in Hs by congruence. done.
    + unfold rdp_shape. rewrite Hre. by left.
  - intros x [[Hx' Hne]|(Hid & _)]%Hin _ Hst; rewrite fmap_app; apply elem_of_app.
    + left. apply Hl; [done|congruence|done].
    + right. rewrite Hid. by left.
  - intros b Hb'. destruct (Hk b Hb') as [Hc|(x & Hx' & Hbx)]; [by left|right]. exists x. split; [|done].
    apply elem_of_update_by. left. split; [done|]. intros <-. specialize (Hs x Hx'). rewrite decide_True in Hs by done.
    unfold rdp_backend in Hbx. rewrite Hs in Hbx. by apply not_elem_of_nil in Hbx.
Qed.

Lemma rdp_start_but connection now s :
  let session := buildRdpSession connection now s in
  rdp_ok s → rt_id session ∉ rt_id <$> rd_sessions s → rt_id session ∉ rn_session <$> rd_runs s →
  rdp_ok_but (Some (rt_id session)) (rd_set_sessions (rd_sessions s ++ [session]) s).
Proof.
  intros session [Hi Hn Hx Hsg Hr _ Hs Hl Hk] Hfresh Hrun.
  assert (∀ x, x ∈ rd_sessions s → rt_id x ≠ rt_id session) as Hne.
  { intros x Hx' Heq. apply Hfresh. rewrite <- Heq. by apply list_elem_of_fmap_2. }
  split; cbn; try done.
  - rewrite fmap_app. apply NoDup_app. split_and!; [done| |by apply NoDup_singleton].
    intros i Hi' Heq%list_elem_of_singleton. by subst.
  - intros r x Hr' [Hx'| ->%list_elem_of_singleton]%elem_of_app Heq; [by apply (Hr r)|done].
  - by intros id [= <-].
  - intros x [Hx'| ->%list_elem_of_singleton]%elem_of_app.
    + rewrite decide_False; [by apply (Hs x)|]. intros [= Heq]. by apply (Hne x).
    + by rewrite decide_True.
  - intros x [Hx'| ->%list_elem_of_singleton]%elem_of_app Hn' Hst; [|done]. by apply Hl.
  - intros b Hb. destruct (Hk b Hb) as [Hc|(x & Hx' & Hbx)]; [by left|right]. exists x. split; [|done].
    apply elem_of_app. by left.
Qed.

Lemma rdp_start_ok connection activate now s :
  rdp_ok s → rt_id (buildRdpSession connection now s) ∉ rt_id <$> rd_sessions s →
  rt_id (buildRdpSession connection now s) ∉ rn_session <$> rd_runs s →
  rdp_ok (startRdpSession tr tauri connection activate now s).
Proof.
  intros H Hf Hr. apply rdp_run_ok. pose proof (rdp_start_but connection now s H Hf Hr) as Hb.
  destruct activate; [by apply rdp_log_ok|done].
Qed.

Lemma find_rdp_Some sid s x : find_rdp sid s = Some x → x ∈ rd_sessions s ∧ rt_id x = sid.
Proof. apply (js_find_Some (λ x, rt_id x = sid)). Qed.

Lemma rdp_retry_ok known sid s :
  rdp_ok s → (∀ x, find_rdp sid s = Some x → rt_status x = RdpIsError) → rdp_ok (retryRdpSession tr tauri known sid s).
Proof.
  intros H He. unfold retryRdpSession. destruct (find_rdp sid s) as [x|] eqn:Hx; [|done].
  destruct (known !! rt_connectionId x) as [connection|]; [|done]. specialize (He x eq_refl).
  apply find_rdp_Some in Hx as [Hx <-]. apply rdp_run_ok, rdp_log_ok.
  destruct H as [Hi Hn Hx' Hsg Hr _ Hs Hl Hk]. split; try done.
  - intros id [= <-] (r & Heq & Hr')%list_elem_of_fmap. specialize (Hr r x Hr' Hx Heq). congruence.
  - intros y Hy. case_decide as Hd; [|by apply (Hs y)]. simplify_eq.
    assert (y = x) as -> by (by eapply (NoDup_fmap_inj_elem rt_id)).
    specialize (Hs x Hx). cbn in Hs. unfold rdp_shape in Hs. destruct (rt_result x) as [result|]; [|done].
    destruct Hs as (_ & Hst & _). rewrite He in Hst. unfold rdp_launched_status in Hst. by repeat case_match.
  - intros y Hy _. by apply Hl.
Qed.

(** Tabs go, once the sessions they hold are closed. *)
Lemma rdp_remove_ok ids s :
  rdp_ok s → (∀ x b, x ∈ rd_sessions s → rt_id x ∈ ids → b ∈ rdp_backend x → RcClose b ∈ rd_calls s) →
  rdp_ok (removeRdpSessionsLocally ids s).
Proof.
  intros H Hc. unfold removeRdpSessionsLocally. case_decide; [done|]. apply rdp_log_ok.
  destruct H as [Hi Hn Hx Hsg Hr _ Hs Hl Hk]. split; cbn; try done.
  - by apply NoDup_kept.
  - intros r x Hr' [_ Hx']%list_elem_of_filter. by apply Hr.
  - intros x [_ Hx']%list_elem_of_filter. by apply (Hs x).
  - intros x [_ Hx']%list_elem_of_filter. by apply Hl.
  - intros b Hb. destruct (Hk b Hb) as [Hc'|(x & Hx' & Hbx)]; [by left|].
    destruct (decide (rt_id x ∈ ids)) as [Hin|Hin]; [left; by apply (Hc x)|right].
    exists x. split; [|done]. by apply list_elem_of_filter.
Qed.

Lemma rdp_backend_tauri s x b : rdp_ok s → x ∈ rd_sessions s → b ∈ rdp_backend x → tauri = true.
Proof.
  intros H Hx Hb. pose proof (ro_shape _ _ H x Hx) as Hs. cbn in Hs. unfold rdp_shape, rdp_backend in *.
  destruct (rt_result x); [by destruct Hs|by apply not_elem_of_nil in Hb].
Qed.

Lemma rdp_close_ok ids s : rdp_ok s → rdp_ok (closeRdpSessions tauri ids s).
Proof.
  intros H. unfold closeRdpSessions. case_decide; [done|]. apply rdp_remove_ok.
  - destruct tauri; [by apply rdp_log_ok|done].
  - intros x b Hx Hid Hb. assert (x ∈ rd_sessions s) as Hx' by (by destruct tauri).
    assert (tauri = true) as Ht by (exact (rdp_backend_tauri s x b H Hx' Hb)).
    rewrite Ht in *. cbn. apply elem_of_app. right. apply list_elem_of_bind. exists x.
    split; [by apply list_elem_of_fmap_2|by apply list_elem_of_filter].
Qed.

Lemma rdp_closed_ok b s : rdp_ok s → rdp_ok (rdp_session_closed tauri b s).
Proof.
  intros H. unfold rdp_session_closed. destruct (negb tauri); [done|]. case_decide as Hc; [done|].
  set (ids := rt_id <$> _) in *.
  assert (rd_log [RcClose b] (removeRdpSessionsLocally ids s) =
    mkRdpDesktop (filter (λ x, rt_id x ∉ ids) (rd_sessions s)) (rd_runs s) (rd_previews s) (rd_next s)
      (rd_calls s ++ [RcRemove ids; RcClose b]) (rd_returned s)) as ->.
  { unfold removeRdpSessionsLocally. rewrite decide_False by done. unfold rd_log. cbn. by rewrite <- app_assoc. }
  destruct H as [Hi Hn Hx Hsg Hr _ Hs Hl Hk]. split; cbn; try done.
  - by apply NoDup_kept.
  - intros r x Hr' [_ Hx']%list_elem_of_filter. by apply Hr.
  - intros x [_ Hx']%list_elem_of_filter. by apply (Hs x).
  - intros x [_ Hx']%list_elem_of_filter. by apply Hl.
  - intros b' Hb'. unfold rdp_kept. cbn. destruct (Hk b' Hb') as [Hc'|(x & Hx' & Hbx)]; [left; apply elem_of_app; by left|].
    destruct (decide (rt_id x ∈ ids)) as [Hin|Hin]; [left|right; exists x; split; [by apply list_elem_of_filter|done]].
    apply list_elem_of_fmap in Hin as (y & Heq & [Hy Hy']%list_elem_of_filter).
    assert (x = y) as -> by (by eapply (NoDup_fmap_inj_elem rt_id)).
    apply elem_of_app. right. unfold rdp_backend in Hbx. destruct (rt_result y) as [result|]; [|by apply not_elem_of_nil in Hbx].
    simplify_eq/=. unfold shown in Hbx. destruct (nonempty (rr_session_id result)) as [b''|] eqn:Eb; cbn in Hbx; [|by apply not_elem_of_nil in Hbx].
    apply nonempty_Some in Eb as [-> _]. apply list_elem_of_singleton in Hbx as ->. right. left.
Qed.

(** A launch ends while its tab is there. *)
Lemma rdp_answered_ok r f returned s :
  rdp_ok s → r ∈ rd_runs s → rn_session r ∈ rt_id <$> rd_sessions s →
  (∀ x, rt_status x = RdpIsLaunching → rdp_shape x → rt_id (f x) = rt_id x ∧ rt_status (f x) ≠ RdpIsLaunching ∧ rdp_shape (f x)) →
  (∀ x, rt_id (f x) = rt_id x) → (∀ x b, b ∈ returned → b ∈ rdp_backend (f x)) →
  rdp_ok (updateRdpSession (rn_session r) f (rd_answered (rn_id r) returned s)).
Proof.
  intros [Hi Hn Hx Hsg Hr _ Hs Hl Hk] Hin (z & Hz & Hzs)%list_elem_of_fmap Hf Hid Hret. cbn in Hs.
  assert (∀ x, x ∈ update_by rt_id (rn_session r) f (rd_sessions s) →
    x ∈ rd_sessions s ∧ rt_id x ≠ rn_session r ∨ rt_id x = rn_session r ∧ rt_status x ≠ RdpIsLaunching ∧ rdp_shape x) as Hup.
  { intros x [Hx'|(y & Hy & Heq & ->)]%elem_of_update_by; [by left|right].
    destruct (Hf y (Hr r y Hin Hy Heq) (Hs y Hy)) as (-> & ? & ?). done. }
  assert (∀ r', r' ∈ rd_runs s → rn_id r' ≠ rn_id r → rn_session r' ≠ rn_session r) as Hother.
  { intros r' Hr' Hne Heq. apply Hne. f_equal. by eapply (NoDup_fmap_inj_elem rn_session). }
  split; cbn; try done.
  - by rewrite update_by_keys.
  - by apply NoDup_kept.
  - apply Forall_kept; done.
  - by apply NoDup_kept.
  - intros r' x [Hne Hr']%list_elem_of_filter [[Hx' _]|(Hid' & _ & _)]%Hup Heq; [by apply (Hr r')|].
    exfalso. apply (Hother r' Hr' Hne). congruence.
  - intros x [[Hx' _]|(_ & _ & ?)]%Hup; [by apply Hs|done].
  - intros x [[Hx' Hne]|(_ & ? & _)]%Hup _ Hst; [|done].
    destruct (proj1 (list_elem_of_fmap _ _ _) (Hl x Hx' ltac:(done) Hst)) as (r' & Heq & Hr').
    rewrite Heq. apply list_elem_of_fmap_2, list_elem_of_filter. split; [|done]. intros Heq'.
    apply Hne. rewrite Heq. f_equal. by eapply (NoDup_fmap_inj_elem rn_id).
  - intros b [Hb|Hb]%elem_of_app.
    + destruct (Hk b Hb) as [Hc|(x & Hx' & Hbx)]; [by left|right]. exists x. split; [|done].
      apply elem_of_update_by. left. split; [done|]. intros Heq. pose proof (Hr r x Hin Hx' Heq) as Hst.
      specialize (Hs x Hx'). unfold rdp_shape, rdp_backend in *. destruct (rt_result x) as [result|]; [|by apply not_elem_of_nil in Hbx].
      destruct Hs as (_ & Hst' & _). rewrite Hst in Hst'. unfold rdp_launched_status in Hst'. by repeat case_match.
    + right. exists (f z). split; [|by apply Hret]. apply elem_of_update_by. right. by exists z.
Qed.

(** A launch ends after its tab is gone: what it returned is closed. *)
Lemma rdp_gone_ok r returned calls s :
  rdp_ok s → r ∈ rd_runs s → rn_session r ∉ rt_id <$> rd_sessions s → (∀ b, b ∈ returned → RcClose b ∈ calls) →
  rdp_ok (rd_log calls (rd_answered (rn_id r) returned s)).
Proof.
  intros [Hi Hn Hx Hsg Hr _ Hs Hl Hk] Hin Hgone Hret. split; cbn; try done.
  - by apply NoDup_kept.
  - apply Forall_kept; done.
  - by apply NoDup_kept.
  - intros r' x [_ Hr']%list_elem_of_filter. by apply Hr.
  - intros x Hx' _ Hst. destruct (proj1 (list_elem_of_fmap _ _ _) (Hl x Hx' ltac:(done) Hst)) as (r' & Heq & Hr').
    rewrite Heq. apply list_elem_of_fmap_2, list_elem_of_filter. split; [|done]. intros Heq'.
    apply Hgone. assert (r' = r) as <- by (by eapply (NoDup_fmap_inj_elem rn_id)). rewrite <- Heq. by apply list_elem_of_fmap_2.
  - unfold rdp_kept. cbn. intros b [Hb|Hb]%elem_of_app.
    + destruct (Hk b Hb) as [Hc|Hx']; [left; apply elem_of_app; by left|by right].
    + left. apply elem_of_app. right. by apply Hret.
Qed.

Lemma rdp_settle_ok r answer s :
  rdp_ok s → r ∈ rd_runs s → answers_run tauri answer = true →
  rdp_ok (settle_rdp_run tr fraction diagnostic show platform r answer s).
Proof.
  intros H Hr Ha. destruct answer as [|result|error]; cbn [settle_rdp_run answers_run] in *.
  all: destruct (rdpSessionExists (rn_session r) (rd_answered _ _ s)) eqn:He; cbn [negb].
  all: unfold rdpSessionExists in He; cbn [rd_sessions rd_answered] in He.
  all: first [apply (exists_by rt_id) in He | apply (exists_by_false rt_id) in He].
  all: try (assert (∀ x, rdp_ok x → rdp_ok (rd_log [] x)) as Hnil by (intros; by apply rdp_log_ok)).
  - apply rdp_log_ok, rdp_answered_ok; [done..| |done|by intros x b Hb%not_elem_of_nil].
    intros x Hst Hs. split_and!; [done..|]. unfold rdp_shape in *. cbn. apply negb_true_iff in Ha.
    destruct (rt_result x); [destruct Hs; congruence|auto].
  - pose proof (rdp_gone_ok r [] [] s H Hr He ltac:(by intros b Hb%not_elem_of_nil)) as Hok.
    unfold rd_log in Hok. cbn in Hok. by rewrite app_nil_r in Hok.
  - apply rdp_log_ok, rdp_answered_ok; [done..| |done|done].
    intros x Hst Hs. split_and!; [done| |]; cbn; [|unfold rdp_shape; cbn; auto].
    unfold rdp_launched_status. by repeat case_match.
  - apply rdp_gone_ok; [done..|]. intros b Hb. by apply list_elem_of_fmap_2.
  - apply rdp_answered_ok; [done..| |done|by intros x b Hb%not_elem_of_nil].
    intros x Hst Hs. split_and!; [done..|]. unfold rdp_shape in *. cbn. destruct (rt_result x) as [result|]; [|auto].
    destruct Hs as (_ & Hst' & _). rewrite Hst in Hst'. unfold rdp_launched_status in Hst'. by repeat case_match.
  - pose proof (rdp_gone_ok r [] [] s H Hr He ltac:(by intros b Hb%not_elem_of_nil)) as Hok.
    unfold rd_log in Hok. cbn in Hok. by rewrite app_nil_r in Hok.
Qed.

(** What a user and the clock do: a new tab has a new id, and the user retries a launch
    that has failed. *)
Definition rdp_legal s (e : RdpEvent) : bool :=
  match e with
  | RdpOpen connection _ now | RdpStart connection _ now =>
      let id := rt_id (buildRdpSession connection now s) in
      bool_decide (id ∉ rt_id <$> rd_sessions s) && bool_decide (id ∉ rn_session <$> rd_runs s)
  | RdpRetry _ sessionId => match find_rdp sessionId s with Some x => bool_decide (rt_status x = RdpIsError) | None => true end
  | _ => true
  end.

Fixpoint rdp_all_legal s (events : list RdpEvent) : bool :=
  match events with
  | [] => true
  | e :: events => rdp_legal s e && rdp_all_legal (rdp_step tr trv fraction diagnostic show tauri platform s e) events
  end.

Lemma rdp_preview_ok known sid s :
  rdp_ok s → rdp_ok (previewRdpSessionLaunch tr fraction tauri platform known sid s).
Proof.
  intros H. unfold previewRdpSessionLaunch. destruct (find_rdp sid s) as [x|]; [|done].
  destruct (known !! rt_connectionId x) as [connection|]; [|by apply rdp_quiet_ok].
  assert (∀ s', rdp_ok s' → rdp_ok (rd_await_preview sid s')) as Haw.
  { intros s' [? ? Hx ? ? ? ? ? ?]. split; try done. eapply Forall_impl; [exact Hx|]. cbn. lia. }
  destruct tauri.
  - by apply Haw, rdp_log_ok, rdp_quiet_ok.
  - by apply rdp_quiet_ok, rdp_quiet_ok.
Qed.

Lemma rdp_step_ok s e : rdp_ok s → rdp_legal s e = true → rdp_ok (rdp_step tr trv fraction diagnostic show tauri platform s e).
Proof.
  intros H He. destruct e as [c active now|c activate now|known sid|known sid|ids|sid|sid|cid|b|run answer|call answer]; cbn [rdp_step rdp_legal] in *.
  - apply andb_true_iff in He as [Hi%bool_decide_eq_true Hr%bool_decide_eq_true]. unfold openRdpConnectionSession.
    destruct (preferredRdpSessionForConnection active (dp_id c) s) as [x|]; [|by apply rdp_start_ok].
    assert (rdp_ok (activateRdpSession x s)) as Hact by (by apply rdp_log_ok).
    unfold revealNativeRdpHostSession. destruct (negb tauri); [done|]. destruct (rt_result x); [|done].
    case_decide; [by apply rdp_log_ok|done].
  - apply andb_true_iff in He as [Hi%bool_decide_eq_true Hr%bool_decide_eq_true]. by apply rdp_start_ok.
  - apply rdp_retry_ok; [done|]. intros x Hx. rewrite Hx in He. by apply bool_decide_eq_true in He.
  - by apply rdp_preview_ok.
  - by apply rdp_close_ok.
  - unfold closeOtherRdpSessions. destruct (find_rdp sid s); [by apply rdp_close_ok|done].
  - unfold closeRdpSessionsToRight. destruct (find_rdp sid s); [by apply rdp_close_ok|done].
  - by apply rdp_close_ok.
  - by apply rdp_closed_ok.
  - destruct (js_find _ _) as [r|] eqn:Hr; [|done]. apply js_find_Some in Hr as [Hr _].
    destruct (answers_run tauri answer) eqn:Ha; [|done]. by apply rdp_settle_ok.
  - destruct (js_find _ _) as [[i sid]|]; [|done].
    assert (rdp_ok (rd_previewed call s)) as Hp by (by destruct H; split).
    destruct answer; by apply rdp_quiet_ok.
Qed.

Lemma rdp_run_steps_ok s events :
  rdp_ok s → rdp_all_legal s events = true → rdp_ok (rdp_run tr trv fraction diagnostic show tauri platform s events).
Proof.
  revert s. induction events as [|e events IH]; intros s H; [done|]. cbn [rdp_all_legal].
  intros [He Hes]%andb_true_iff. apply IH; [by apply rdp_step_ok|done].
Qed.

Lemma rdp_restored_ok sessions :
  NoDup (rt_id <$> sessions) → Forall (λ x, rt_status x = RdpIsError ∧ rt_result x = None) sessions → rdp_ok (rdp_restored sessions).
Proof.
  intros Hn Hs. rewrite Forall_forall in Hs. split; cbn; try done; try (by constructor).
  - by intros r x Hr%not_elem_of_nil.
  - intros x Hx. destruct (Hs x Hx) as [Hst Hre]. unfold rdp_shape. rewrite decide_False, Hre by done. auto.
  - intros x Hx _ Hst. destruct (Hs x Hx). congruence.
  - by intros b Hb%not_elem_of_nil.
Qed.

(** Which tab a step can add. *)
Definition rdp_new s (e : RdpEvent) : list string :=
  match e with
  | RdpOpen connection _ now | RdpStart connection _ now => [rt_id (buildRdpSession connection now s)]
  | _ => []
  end.

Lemma rdp_update_ids sid f s : (∀ x, rt_id (f x) = rt_id x) → rt_id <$> rd_sessions (updateRdpSession sid f s) = rt_id <$> rd_sessions s.
Proof. intros Hf. by apply update_by_keys. Qed.

Lemma rdp_close_ids ids s id : id ∈ rt_id <$> rd_sessions (closeRdpSessions tauri ids s) → id ∈ rt_id <$> rd_sessions s.
Proof.
  unfold closeRdpSessions, removeRdpSessionsLocally. repeat case_decide; try done. intros (x & -> & [_ Hx]%list_elem_of_filter)%list_elem_of_fmap.
  apply list_elem_of_fmap_2. by destruct tauri.
Qed.

Lemma rdp_start_ids connection activate now s id :
  id ∈ rt_id <$> rd_sessions (startRdpSession tr tauri connection activate now s) →
  id ∈ rt_id <$> rd_sessions s ∨ id = rt_id (buildRdpSession connection now s).
Proof.
  unfold startRdpSession, runRdpSession. intros H.
  assert (id ∈ rt_id <$> (rd_sessions s ++ [buildRdpSession connection now s])) as H'.
  { destruct tauri, activate; cbn in H; by rewrite update_by_keys in H. }
  rewrite fmap_app in H'. apply elem_of_app in H' as [?|?%list_elem_of_singleton]; auto.
Qed.

Lemma rdp_step_ids s e id :
  id ∈ rt_id <$> rd_sessions (rdp_step tr trv fraction diagnostic show tauri platform s e) → id ∈ rt_id <$> rd_sessions s ∨ id ∈ rdp_new s e.
Proof.
  destruct e as [c active now|c activate now|known sid|known sid|ids|sid|sid|cid|b|run answer|call answer]; cbn [rdp_step rdp_new]; intros H.
  - revert H. unfold openRdpConnectionSession, revealNativeRdpHostSession. destruct (preferredRdpSessionForConnection _ _ _) as [x|].
    + intros H. left. revert H. destruct tauri; cbn in *; [|done]. destruct (rt_result x); [|done]. by case_decide.
    + intros [?| ->]%rdp_start_ids; [by left|right; left].
  - apply rdp_start_ids in H as [?| ->]; [by left|right; left].
  - left. revert H. unfold retryRdpSession. destruct (find_rdp sid s) as [x|]; [|done]. destruct (known !! _); [|done].
    unfold runRdpSession. destruct tauri; cbn; by rewrite update_by_keys.
  - left. revert H. unfold previewRdpSessionLaunch. destruct (find_rdp sid s) as [x|]; [|done].
    destruct (known !! _); [destruct tauri|]; cbn; by rewrite ?update_by_keys.
  - left. by eapply rdp_close_ids.
  - left. revert H. unfold closeOtherRdpSessions. destruct (find_rdp sid s); [apply rdp_close_ids|done].
  - left. revert H. unfold closeRdpSessionsToRight. destruct (find_rdp sid s); [apply rdp_close_ids|done].
  - left. by eapply rdp_close_ids.
  - left. revert H. unfold rdp_session_closed, removeRdpSessionsLocally. destruct (negb tauri); [done|]. repeat case_decide; try done.
    intros (x & -> & [_ Hx]%list_elem_of_filter)%list_elem_of_fmap. by apply list_elem_of_fmap_2.
  - left. revert H. destruct (js_find _ _) as [r|]; [|done]. destruct (answers_run tauri answer); [|done].
    destruct answer; cbn [settle_rdp_run]; destruct (negb _); cbn; by rewrite ?update_by_keys.
  - left. revert H. destruct (js_find _ _) as [[i sid]|]; [|done]. destruct answer; cbn; by rewrite update_by_keys.
Qed.

(** An answered launch is over. *)
Lemma rdp_settled_runs r answer s :
  rd_runs (settle_rdp_run tr fraction diagnostic show platform r answer s) = filter (λ r', rn_id r' ≠ rn_id r) (rd_runs s).
Proof. by destruct answer; cbn [settle_rdp_run]; destruct (negb _). Qed.
End rdp_facts.

(** C35: RDP sessions are never lost. Start from restored tabs and let anything happen in any
    order (commands, launches that answer late or fail, sessions the backend ends), where new
    tabs get new ids and the user retries failed launches: the ids of the tabs are distinct;
    every session that a launch returned is shown by a tab or closed; a tab with a session
    says how that session is shown, and one without is launching, failed, or a preview; a tab
    is launching exactly while its launch is in flight, and any answer ends that; no step
    brings back a tab that is gone; and opening a connection that has a tab starts nothing. *)
Theorem rdp_sessions_safe tr trv fraction diagnostic show tauri platform restored events :
  NoDup (rt_id <$> restored) → Forall (λ x, rt_status x = RdpIsError ∧ rt_result x = None) restored →
  rdp_all_legal tr trv fraction diagnostic show tauri platform (rdp_restored restored) events = true →
  let step := rdp_step tr trv fraction diagnostic show tauri platform in
  let s := rdp_run tr trv fraction diagnostic show tauri platform (rdp_restored restored) events in
  NoDup (rt_id <$> rd_sessions s) ∧
  (∀ b, b ∈ rd_returned s → RcClose b ∈ rd_calls s ∨ ∃ x, x ∈ rd_sessions s ∧ b ∈ rdp_backend x) ∧
  (∀ x, x ∈ rd_sessions s → rdp_shape tauri x ∧ (rt_status x = RdpIsLaunching ↔ rt_id x ∈ rn_session <$> rd_runs s)) ∧
  (∀ r answer, r ∈ rd_runs s → answers_run tauri answer = true →
     let s' := step s (RdpRunSettled (rn_id r) answer) in
     length (rd_runs s') < length (rd_runs s) ∧
     ∀ x, x ∈ rd_sessions s' → rt_id x = rn_session r → rt_status x ≠ RdpIsLaunching) ∧
  (∀ e id, id ∈ rt_id <$> rd_sessions (step s e) → id ∈ rt_id <$> rd_sessions s ∨ id ∈ rdp_new s e) ∧
  (∀ connection active now, (∃ x, x ∈ rd_sessions s ∧ rt_connectionId x = dp_id connection) →
     let s' := step s (RdpOpen connection active now) in rd_sessions s' = rd_sessions s ∧ rd_runs s' = rd_runs s).
Proof.
  intros Hn Hr Hl step s.
  assert (rdp_ok tauri s) as H by (by apply rdp_run_steps_ok; [apply rdp_restored_ok|]).
  split_and!.
  - by destruct H.
  - apply H.
  - intros x Hx. split; [apply (ro_shape _ _ _ H x Hx)|]. split; [by apply (ro_launching _ _ _ H x Hx)|].
    intros (r & Heq & Hr')%list_elem_of_fmap. by apply (ro_runs _ _ _ H r).
  - intros r answer Hrun Ha s'.
    assert (s' = settle_rdp_run tr fraction diagnostic show platform r answer s) as Hs'.
    { unfold s', step. cbn [rdp_step]. destruct (js_find _ _) as [r'|] eqn:Hf.
      - apply js_find_Some in Hf as [Hr' Heq]. assert (r' = r) as -> by (eapply (NoDup_fmap_inj_elem rn_id); [apply H|done..]).
        by rewrite Ha.
      - exfalso. by apply (proj1 (js_find_None _ _) Hf r Hrun). }
    assert (rdp_ok tauri s') as H' by (rewrite Hs'; by apply rdp_settle_ok).
    assert (rd_runs s' = filter (λ r', rn_id r' ≠ rn_id r) (rd_runs s)) as Hruns by (rewrite Hs'; apply rdp_settled_runs).
    split; [rewrite Hruns; apply (length_filter_lt _ _ r); [done|]; intros Hne; by apply Hne|].
    intros x Hx Heq Hst. pose proof (ro_launching _ _ _ H' x Hx ltac:(done) Hst) as Hin.
    rewrite Hruns in Hin. apply list_elem_of_fmap in Hin as (r' & Heq' & [Hne Hr']%list_elem_of_filter).
    apply Hne. f_equal. eapply (NoDup_fmap_inj_elem rn_session); [apply H|done..|]. congruence.
  - intros e id. apply rdp_step_ids.
  - intros connection active now (x & Hx & Hc) s'. unfold s', step. cbn [rdp_step]. unfold openRdpConnectionSession.
    destruct (preferredRdpSessionForConnection active (dp_id connection) s) as [y|] eqn:Hp.
    + unfold revealNativeRdpHostSession. destruct (negb tauri); [done|]. destruct (rt_result y); [|done]. by case_decide.
    + exfalso. unfold preferredRdpSessionForConnection, nullish in Hp.
      destruct (if truthy active then _ else _); [done|]. by apply (proj1 (js_find_None _ _) Hp x Hx).
Qed.

Definition demo_profile : DesktopProfile := mkDesktopProfile "c1" "Office" "10.0.0.5" 3389 "ana" None None.
Definition demo_known : gmap string DesktopProfile := {["c1" := demo_profile]}.
Definition demo_rdp_result (session : string) : RdpLaunchResult :=
  mkRdpResult session "c1" true true MstscActivex None [] None None None None.
Definition demo_restored : RdpSessionTab := mkRdpTab "c1" 0 None "rdp-c1-1" (Some "stopped") None None RdpIsError "Office".

Abbreviation demo_rdp_run := (rdp_run id (λ k v, k +:+ v) demo_fraction id (λ _, "") true Windows).
Abbreviation demo_rdp_legal := (rdp_all_legal id (λ k v, k +:+ v) demo_fraction id (λ _, "") true Windows).

(** A restored tab is retried, a second one is closed while it launches, a third one fails. *)
Definition demo_rdp_events : list RdpEvent :=
  [RdpRetry demo_known "rdp-c1-1"; RdpStart demo_profile true 5; RdpStart demo_profile false 6;
   RdpRunSettled 0 (RdpLaunched (demo_rdp_result "b0")); RdpClose ["rdp-c1-5"];
   RdpRunSettled 1 (RdpLaunched (demo_rdp_result "b1")); RdpRunSettled 2 (RdpRefused (JStr "refused"))].

Lemma rdp_sessions_safe_witness :
  let s := demo_rdp_run (rdp_restored [demo_restored]) demo_rdp_events in
  rd_returned s = ["b0"; "b1"] ∧ RcClose "b1" ∈ rd_calls s ∧
  ∀ b, b ∈ rd_returned s → RcClose b ∈ rd_calls s ∨ ∃ x, x ∈ rd_sessions s ∧ b ∈ rdp_backend x.
Proof.
  intros s. split_and!.
  - vm_compute. reflexivity.
  - vm_decide.
  - assert (demo_rdp_legal (rdp_restored [demo_restored]) demo_rdp_events = true) as Hl by (vm_compute; reflexivity).
    assert (Forall (λ x, rt_status x = RdpIsError ∧ rt_result x = None) [demo_restored]) as Hr by (by constructor).
    exact (proj1 (proj2 (rdp_sessions_safe id (λ k v, k +:+ v) demo_fraction id (λ _, "") true Windows [demo_restored]
      demo_rdp_events (NoDup_singleton _) Hr Hl))).
Defined.

(** The button is there for a tab that is connected too: retrying it forgets its session,
    which is neither shown nor closed. *)
Example retry_loses_session :
  let s := demo_rdp_run (rdp_restored []) [RdpStart demo_profile true 5;
    RdpRunSettled 0 (RdpLaunched (demo_rdp_result "b0")); RdpRetry demo_known "rdp-c1-5"; RdpClose ["rdp-c1-5"];
    RdpRunSettled 1 (RdpRefused (JStr "refused"))] in
  rd_returned s = ["b0"] ∧ rd_sessions s = [] ∧ RcClose "b0" ∉ rd_calls s.
Proof. split_and!; [vm_compute; reflexivity..|]. vm_decide. Qed.
