(* ===== verification/VncSessions.v ===== *)
(** * VNC sessions ([features/layout/WorkspaceShell.tsx])

    The tabs of VNC sessions as a machine like that of RDP. A launch may open a window of
    its own that hosts the session: its steps, the payloads that wait until the window is
    ready, and what the window and the viewer of a tab report. *)

From S2P Require Import Prelude SnapshotCodec ConnectionInput ConnectionErrors DesktopText RemoteDesktop.
From stdpp Require Import pretty.
From Stdlib Require Import Lia.

#[local] Open Scope nat_scope.
#[local] Arguments update_by : simpl never.

Section desktop.
Context (tr : string → string) (trv : string → string → string) (diagnostic : string → string) (show : json → string).
(** [hasTauriRuntime()] *)
Context (tauri : bool).

(** ** State *)

Definition VNC_RUNNER_HOST_WINDOW_LABEL : string := "vnc-runner-host".

Record VncRunnerWindowPayload := mkPayload {
  pl_config : VncConnectionConfig;
  pl_connection : VncRunnerWindowConnectionInfo;
  pl_result : VncLaunchResult;
  pl_window_label : string;
  pl_workspace_session_id : string;
}.

Inductive VncCall :=
  | VcLaunch (connectionId : string)
  | VcClose (backendSessionId : string)
  | VcPreview (connectionId : string)
  | VcMarkConnected (connectionId : string)
  | VcActivate (connectionId sessionId : string)
  | VcRemove (sessionIds : list string)
  | VcCreateWindow (label : string)
  | VcUnminimize (label : string)
  | VcShow (label : string)
  | VcSetFocus (label : string)
  | VcEmitPayload (label : string) (payload : VncRunnerWindowPayload)
  | VcEmitClose (label sessionId : string).

(** Where a launch waits: for the end of a short wait when there is no backend, for the
    backend, for each step of opening the window that hosts the session, and, when that
    window failed or the tab is gone, for the session to close. *)
Inductive VncPhase :=
  | VpWaiting
  | VpLaunching
  | VpImporting (result : VncLaunchResult)
  | VpLookingUp (result : VncLaunchResult)
  | VpCreating (result : VncLaunchResult)
  | VpShowing (steps : list VncCall) (result : VncLaunchResult)
  | VpEmitting (result : VncLaunchResult)
  | VpFailing (error : string)
  | VpAbandoning (windowLabel : string).

Record VncRun := mkVncRun {
  vr_id : nat;
  vr_session : string;
  vr_connection : DesktopProfile;
  vr_phase : VncPhase;
}.

(** [vd_deliveries] are the payloads on their way to a window that is ready, by session. *)
Record VncDesktop := mkVncDesktop {
  vd_sessions : list VncSessionTab;
  vd_runs : list VncRun;
  vd_previews : list (nat * string);
  vd_deliveries : list (nat * string);
  vd_payloads : jsmap VncRunnerWindowPayload;
  vd_ready : bool;
  vd_next : nat;
  vd_calls : list VncCall;
  vd_returned : list string;
}.

Definition vd_set_sessions (l : list VncSessionTab) (s : VncDesktop) : VncDesktop :=
  mkVncDesktop l (vd_runs s) (vd_previews s) (vd_deliveries s) (vd_payloads s) (vd_ready s) (vd_next s) (vd_calls s) (vd_returned s).
Definition vd_set_runs (runs : list VncRun) (s : VncDesktop) : VncDesktop :=
  mkVncDesktop (vd_sessions s) runs (vd_previews s) (vd_deliveries s) (vd_payloads s) (vd_ready s) (vd_next s) (vd_calls s) (vd_returned s).
Definition vd_set_payloads (payloads : jsmap VncRunnerWindowPayload) (s : VncDesktop) : VncDesktop :=
  mkVncDesktop (vd_sessions s) (vd_runs s) (vd_previews s) (vd_deliveries s) payloads (vd_ready s) (vd_next s) (vd_calls s) (vd_returned s).
Definition vd_set_ready (ready : bool) (s : VncDesktop) : VncDesktop :=
  mkVncDesktop (vd_sessions s) (vd_runs s) (vd_previews s) (vd_deliveries s) (vd_payloads s) ready (vd_next s) (vd_calls s) (vd_returned s).
Definition vd_log (calls : list VncCall) (s : VncDesktop) : VncDesktop :=
  mkVncDesktop (vd_sessions s) (vd_runs s) (vd_previews s) (vd_deliveries s) (vd_payloads s) (vd_ready s) (vd_next s)
    (vd_calls s ++ calls) (vd_returned s).
Definition vd_return (returned : list string) (s : VncDesktop) : VncDesktop :=
  mkVncDesktop (vd_sessions s) (vd_runs s) (vd_previews s) (vd_deliveries s) (vd_payloads s) (vd_ready s) (vd_next s)
    (vd_calls s) (vd_returned s ++ returned).
Definition vd_await (sessionId : string) (connection : DesktopProfile) (phase : VncPhase) (s : VncDesktop) : VncDesktop :=
  mkVncDesktop (vd_sessions s) (vd_runs s ++ [mkVncRun (vd_next s) sessionId connection phase]) (vd_previews s)
    (vd_deliveries s) (vd_payloads s) (vd_ready s) (S (vd_next s)) (vd_calls s) (vd_returned s).
Definition vd_set_previews (previews : list (nat * string)) (next : nat) (s : VncDesktop) : VncDesktop :=
  mkVncDesktop (vd_sessions s) (vd_runs s) previews (vd_deliveries s) (vd_payloads s) (vd_ready s) next (vd_calls s) (vd_returned s).
Definition vd_set_deliveries (deliveries : list (nat * string)) (next : nat) (s : VncDesktop) : VncDesktop :=
  mkVncDesktop (vd_sessions s) (vd_runs s) (vd_previews s) deliveries (vd_payloads s) (vd_ready s) next (vd_calls s) (vd_returned s).

(** [payloads.delete(sessionId)] *)
Definition drop_payload (sessionId : string) (s : VncDesktop) : VncDesktop :=
  vd_set_payloads (filter (λ p, p.1 ≠ sessionId) (vd_payloads s)) s.

(** A run goes on to its next await, or ends. *)
Definition run_to (run : nat) (phase : VncPhase) (s : VncDesktop) : VncDesktop :=
  vd_set_runs ((λ r, if decide (vr_id r = run) then mkVncRun (vr_id r) (vr_session r) (vr_connection r) phase else r) <$> vd_runs s) s.
Definition run_done (run : nat) (s : VncDesktop) : VncDesktop := vd_set_runs (filter (λ r, vr_id r ≠ run) (vd_runs s)) s.

Definition updateVncSession (sessionId : string) (updater : VncSessionTab → VncSessionTab) (s : VncDesktop) : VncDesktop :=
  vd_set_sessions (update_by vt_id sessionId updater (vd_sessions s)) s.

Definition vncSessionExists (sessionId : string) (s : VncDesktop) : bool :=
  bool_decide (Exists (λ session, vt_id session = sessionId) (vd_sessions s)).

Definition find_vnc (sessionId : string) (s : VncDesktop) : option VncSessionTab :=
  js_find (λ session, vt_id session = sessionId) (vd_sessions s).

Definition vnc_backend (session : VncSessionTab) : list string := match vt_result session with Some r => shown (vl_session_id r) | None => [] end.

Definition openInRunnerHost (connection : DesktopProfile) : bool :=
  bool_decide (default VncEmbedded (c ← dp_vnc connection; r ← vc_runner c; vr_render_mode r) = VncWindowed).

Definition vnc_launching (hosted : bool) (session : VncSessionTab) : VncSessionTab :=
  mkVncTab (vt_connectionId session) (vt_createdAt session) None (vt_id session)
    (Some (if hosted then tr "workspace.vnc.hostLaunching" else tr "workspace.vnc.embeddedLaunching"))
    None None VncIsLaunching (vt_title session) None.

Definition vnc_browser_ready (connection : DesktopProfile) (session : VncSessionTab) : VncSessionTab :=
  let hosted := openInRunnerHost connection in
  mkVncTab (vt_connectionId session) (vt_createdAt session) (vt_error session) (vt_id session)
    (Some (if hosted then tr "workspace.vnc.previewHost" else tr "workspace.vnc.previewEmbedded"))
    (Some (previewVncLaunchForBrowser tr connection)) (vt_result session) (if hosted then VncIsWindowed else VncIsExternal)
    (vt_title session) (vt_windowLabel session).

Definition vnc_windowed (result : VncLaunchResult) (windowLabel : string) (session : VncSessionTab) : VncSessionTab :=
  mkVncTab (vt_connectionId session) (vt_createdAt session) None (vt_id session)
    (Some (or_text (vl_fallback_reason result) (tr "workspace.vnc.hostReady")))
    (vt_preview session) (Some result) VncIsWindowed (vt_title session) (Some windowLabel).

Definition vnc_launched (result : VncLaunchResult) (session : VncSessionTab) : VncSessionTab :=
  mkVncTab (vt_connectionId session) (vt_createdAt session) None (vt_id session)
    (Some (or_text (vl_fallback_reason result)
      (if vl_embedded result then tr "workspace.vnc.bridgeReady" else tr "workspace.vnc.externalStarted")))
    (vt_preview session) (Some result) (if vl_embedded result then VncIsEmbedded else VncIsExternal) (vt_title session) None.

Definition vnc_failed (error : string) (session : VncSessionTab) : VncSessionTab :=
  mkVncTab (vt_connectionId session) (vt_createdAt session) (Some error) (vt_id session) None
    (vt_preview session) (vt_result session) VncIsError (vt_title session) (vt_windowLabel session).

Definition vnc_message (message : string) (session : VncSessionTab) : VncSessionTab :=
  mkVncTab (vt_connectionId session) (vt_createdAt session) (vt_error session) (vt_id session) (Some message)
    (vt_preview session) (vt_result session) (vt_status session) (vt_title session) (vt_windowLabel session).

Definition vnc_previewed (preview : VncLaunchPreview) (session : VncSessionTab) : VncSessionTab :=
  mkVncTab (vt_connectionId session) (vt_createdAt session) (vt_error session) (vt_id session)
    (Some (tr "workspace.vnc.previewReady")) (Some preview) (vt_result session) (vt_status session) (vt_title session)
    (vt_windowLabel session).

Definition buildVncSession (connection : DesktopProfile) (now : Z) (s : VncDesktop) : VncSessionTab :=
  let index := length (filter (λ session, vt_connectionId session = dp_id connection) (vd_sessions s)) + 1 in
  mkVncTab (dp_id connection) now None ("vnc-" +:+ dp_id connection +:+ "-" +:+ pretty now) None None None VncIsLaunching
    (if decide (index = 1) then "VNC" else "VNC " +:+ pretty index) None.

Definition runVncSession (sessionId : string) (connection : DesktopProfile) (s : VncDesktop) : VncDesktop :=
  let s := updateVncSession sessionId (vnc_launching (openInRunnerHost connection)) s in
  if tauri then vd_await sessionId connection VpLaunching (vd_log [VcLaunch (dp_id connection)] s)
  else vd_await sessionId connection VpWaiting s.

Definition activateVncSession (session : VncSessionTab) (s : VncDesktop) : VncDesktop :=
  vd_log [VcActivate (vt_connectionId session) (vt_id session)] s.

Definition startVncSession (connection : DesktopProfile) (activate : bool) (now : Z) (s : VncDesktop) : VncDesktop :=
  let session := buildVncSession connection now s in
  let s := vd_set_sessions (vd_sessions s ++ [session]) s in
  let s := if activate then activateVncSession session s else s in
  runVncSession (vt_id session) connection s.

Definition preferredVncSessionForConnection (activeVncSessionId : option string) (connectionId : string) (s : VncDesktop) : option VncSessionTab :=
  let activeSession :=
    if truthy activeVncSessionId
    then js_find (λ session, Some (vt_id session) = activeVncSessionId ∧ vt_connectionId session = connectionId) (vd_sessions s)
    else None in
  activeSession ?: js_find (λ session, vt_connectionId session = connectionId) (vd_sessions s).

Definition openVncConnectionSession (connection : DesktopProfile) (activeVncSessionId : option string) (now : Z) (s : VncDesktop) : VncDesktop :=
  match preferredVncSessionForConnection activeVncSessionId (dp_id connection) s with
  | Some existingSession => activateVncSession existingSession s
  | None => startVncSession connection true now s
  end.

Definition retryVncSession (connectionById : gmap string DesktopProfile) (sessionId : string) (s : VncDesktop) : VncDesktop :=
  match find_vnc sessionId s with
  | None => s
  | Some session =>
      match connectionById !! vt_connectionId session with
      | None => s
      | Some connection => runVncSession (vt_id session) connection (activateVncSession session s)
      end
  end.

Definition previewVncSessionLaunch (connectionById : gmap string DesktopProfile) (sessionId : string) (s : VncDesktop) : VncDesktop :=
  match find_vnc sessionId s with
  | None => s
  | Some session =>
      match connectionById !! vt_connectionId session with
      | None => updateVncSession sessionId (vnc_message (tr "workspace.vnc.connectionDeleted")) s
      | Some connection =>
          let s := updateVncSession sessionId (vnc_message (tr "workspace.vnc.previewGenerating")) s in
          if tauri
          then vd_log [VcPreview (dp_id connection)] (vd_set_previews (vd_previews s ++ [(vd_next s, sessionId)]) (S (vd_next s)) s)
          else updateVncSession sessionId (vnc_previewed (previewVncLaunchForBrowser tr connection)) s
      end
  end.

Definition removeVncSessionsLocally (sessionIds : list string) (s : VncDesktop) : VncDesktop :=
  if decide (sessionIds = []) then s
  else vd_log [VcRemove sessionIds] (vd_set_sessions (filter (λ session, vt_id session ∉ sessionIds) (vd_sessions s)) s).

Definition vnc_close_calls (notifyRunnerWindow : bool) (session : VncSessionTab) : list VncCall :=
  (VcClose <$> vnc_backend session) ++
  (if notifyRunnerWindow then (λ label, VcEmitClose label (vt_id session)) <$> (from_option shown [] (vt_windowLabel session)) else []).

Definition closeVncSessions (sessionIds : list string) (notifyRunnerWindow : bool) (s : VncDesktop) : VncDesktop :=
  if decide (sessionIds = []) then s
  else
    let closingSessions := filter (λ session, vt_id session ∈ sessionIds) (vd_sessions s) in
    let s := foldl (λ s session, drop_payload (vt_id session) s) s closingSessions in
    let s := if tauri then vd_log (closingSessions ≫= vnc_close_calls notifyRunnerWindow) s else s in
    removeVncSessionsLocally sessionIds s.

Definition closeOtherVncSessions (sessionId : string) (s : VncDesktop) : VncDesktop :=
  match find_vnc sessionId s with
  | None => s
  | Some session => closeVncSessions
      (vt_id <$> filter (λ item, vt_connectionId item = vt_connectionId session ∧ vt_id item ≠ sessionId) (vd_sessions s)) true s
  end.

Definition closeVncSessionsToRight (sessionId : string) (s : VncDesktop) : VncDesktop :=
  match find_vnc sessionId s with
  | None => s
  | Some session => closeVncSessions
      (vt_id <$> after_id vt_id sessionId (filter (λ item, vt_connectionId item = vt_connectionId session) (vd_sessions s))) true s
  end.

Definition closeAllVncSessionsForConnection (connectionId : string) (s : VncDesktop) : VncDesktop :=
  closeVncSessions (vt_id <$> filter (λ session, vt_connectionId session = connectionId) (vd_sessions s)) true s.

(** *** The window that hosts sessions *)

Definition vnc_payload (run : VncRun) (result : VncLaunchResult) : VncRunnerWindowPayload :=
  let connection := vr_connection run in
  mkPayload (default defaultVncConfig (dp_vnc connection))
    (default (mkVncInfo (dp_host connection) (Some (dp_name connection))
       (if decide (dp_port connection = 0%Z) then 5900%Z else dp_port connection) (Some (dp_username connection)))
       (connectionInfoFromVncProfile (Some connection)))
    result VNC_RUNNER_HOST_WINDOW_LABEL (vr_session run).

Definition payload_message (run : VncRun) (result : VncLaunchResult) : VncCall :=
  VcEmitPayload VNC_RUNNER_HOST_WINDOW_LABEL (vnc_payload run result).

(** The window is there: the tab shows it, or the session is closed with its tab. *)
Definition window_opened (run : VncRun) (result : VncLaunchResult) (s : VncDesktop) : VncDesktop :=
  if negb (vncSessionExists (vr_session run) s)
  then run_to (vr_id run) (VpAbandoning VNC_RUNNER_HOST_WINDOW_LABEL) (vd_log [VcClose (vl_session_id result)] s)
  else
    let s := updateVncSession (vr_session run) (vnc_windowed result VNC_RUNNER_HOST_WINDOW_LABEL) s in
    vd_log [VcMarkConnected (dp_id (vr_connection run))] (run_done (vr_id run) s).

(** [openVncRunnerHostWindow] threw. *)
Definition window_failed (run : VncRun) (result : VncLaunchResult) (error : json) (s : VncDesktop) : VncDesktop :=
  run_to (vr_id run) (VpFailing (trv "workspace.vnc.hostFailed" (detailed_error diagnostic show error)))
    (vd_log [VcClose (vl_session_id result)] s).

(** The window is created or shown; a window that is ready gets the payload. *)
Definition window_shown (run : VncRun) (result : VncLaunchResult) (s : VncDesktop) : VncDesktop :=
  if vd_ready s
  then run_to (vr_id run) (VpEmitting result) (vd_log [payload_message run result] s)
  else window_opened run result s.

(** What a step of a launch answers; an error is what it throws. *)
Inductive VncAnswer :=
  | VncDone
  | VncLaunched (result : VncLaunchResult)
  | VncFound (host : bool)
  | VncRefused (error : json).

Definition vnc_launch_answered (run : VncRun) (result : VncLaunchResult) (s : VncDesktop) : VncDesktop :=
  let s := vd_return (shown (vl_session_id result)) s in
  if negb (vncSessionExists (vr_session run) s)
  then vd_log (VcClose <$> shown (vl_session_id result)) (run_done (vr_id run) s)
  else if vl_embedded result && openInRunnerHost (vr_connection run)
  then run_to (vr_id run) (VpImporting result) s
  else vd_log [VcMarkConnected (dp_id (vr_connection run))]
    (updateVncSession (vr_session run) (vnc_launched result) (run_done (vr_id run) s)).

Definition settle_vnc_run (run : VncRun) (answer : VncAnswer) (s : VncDesktop) : VncDesktop :=
  let sessionId := vr_session run in
  match vr_phase run, answer with
  | VpWaiting, VncDone =>
      let s := run_done (vr_id run) s in
      if negb (vncSessionExists sessionId s) then s
      else vd_log [VcMarkConnected (dp_id (vr_connection run))]
        (updateVncSession sessionId (vnc_browser_ready (vr_connection run)) s)
  | VpLaunching, VncLaunched result => vnc_launch_answered run result s
  | VpLaunching, VncRefused error =>
      let s := run_done (vr_id run) s in
      if negb (vncSessionExists sessionId s) then s
      else updateVncSession sessionId (vnc_failed (detailed_error diagnostic show error)) s
  | VpImporting result, VncDone =>
      run_to (vr_id run) (VpLookingUp result)
        (vd_set_payloads (jsmap_set sessionId (vnc_payload run result) (vd_payloads s)) s)
  | VpLookingUp result, VncFound false =>
      run_to (vr_id run) (VpCreating result)
        (vd_log [VcCreateWindow VNC_RUNNER_HOST_WINDOW_LABEL] (vd_set_ready false s))
  | VpLookingUp result, VncFound true =>
      let label := VNC_RUNNER_HOST_WINDOW_LABEL in
      run_to (vr_id run) (VpShowing [VcShow label; VcSetFocus label] result)
        (vd_log [VcUnminimize label] (vd_set_ready true s))
  | VpShowing (call :: steps) result, (VncDone | VncRefused _) => run_to (vr_id run) (VpShowing steps result) (vd_log [call] s)
  | VpShowing [] result, (VncDone | VncRefused _) => window_shown run result s
  | VpCreating result, VncDone => window_shown run result s
  | VpEmitting result, VncDone => window_opened run result (drop_payload sessionId s)
  | VpImporting result, VncRefused error | VpLookingUp result, VncRefused error
  | VpCreating result, VncRefused error | VpEmitting result, VncRefused error => window_failed run result error s
  | VpFailing error, (VncDone | VncRefused _) => updateVncSession sessionId (vnc_failed error) (run_done (vr_id run) s)
  | VpAbandoning windowLabel, (VncDone | VncRefused _) =>
      vd_log [VcEmitClose windowLabel sessionId] (run_done (vr_id run) s)
  | _, _ => s
  end.

(** *** Reports of the window and of the viewer in a tab *)

Definition vnc_window_ready (windowLabel : string) (s : VncDesktop) : VncDesktop :=
  let s := vd_set_ready true s in
  foldl (λ s p,
    if decide (pl_window_label p.2 = windowLabel)
    then vd_log [VcEmitPayload windowLabel p.2] (vd_set_deliveries (vd_deliveries s ++ [(vd_next s, p.1)]) (S (vd_next s)) s)
    else s) s (vd_payloads s).

Definition vnc_window_closed (sessionId : string) (s : VncDesktop) : VncDesktop :=
  closeVncSessions [sessionId] false (drop_payload sessionId s).

Definition vnc_session_message (sessionId message : string) (s : VncDesktop) : VncDesktop :=
  if negb (vncSessionExists sessionId s) then s else updateVncSession sessionId (vnc_message message) s.

Definition vnc_session_error (sessionId message : string) (s : VncDesktop) : VncDesktop :=
  match find_vnc sessionId s with
  | None => s
  | Some session => updateVncSession sessionId (vnc_failed message) (vd_log (VcClose <$> vnc_backend session) s)
  end.

Definition settle_vnc_preview (sessionId : string) (answer : VncLaunchPreview + json) (s : VncDesktop) : VncDesktop :=
  match answer with
  | inl preview => updateVncSession sessionId (vnc_previewed preview) s
  | inr error => updateVncSession sessionId (vnc_message (trv "workspace.vnc.previewFailed" (plain_error show error))) s
  end.

(** [VncViewMessage] and [VncViewError] are the same reports from the viewer in a tab. *)
Inductive VncEvent :=
  | VncOpen (connection : DesktopProfile) (activeVncSessionId : option string) (now : Z)
  | VncStart (connection : DesktopProfile) (activate : bool) (now : Z)
  | VncRetry (connectionById : gmap string DesktopProfile) (sessionId : string)
  | VncPreview (connectionById : gmap string DesktopProfile) (sessionId : string)
  | VncClose (sessionIds : list string)
  | VncCloseOthers (sessionId : string)
  | VncCloseToRight (sessionId : string)
  | VncCloseAll (connectionId : string)
  | VncWindowReady (windowLabel : string)
  | VncWindowClosed (sessionId : string)
  | VncMessage (sessionId message : string)
  | VncError (sessionId message : string)
  | VncViewMessage (sessionId message : string)
  | VncViewError (sessionId message : string)
  | VncRunSettled (run : nat) (answer : VncAnswer)
  | VncPreviewSettled (call : nat) (answer : VncLaunchPreview + json)
  | VncDelivered (delivery : nat) (ok : bool).

Definition vnc_step (s : VncDesktop) (e : VncEvent) : VncDesktop :=
  match e with
  | VncOpen connection active now => openVncConnectionSession connection active now s
  | VncStart connection activate now => startVncSession connection activate now s
  | VncRetry connectionById sessionId => retryVncSession connectionById sessionId s
  | VncPreview connectionById sessionId => previewVncSessionLaunch connectionById sessionId s
  | VncClose sessionIds => closeVncSessions sessionIds true s
  | VncCloseOthers sessionId => closeOtherVncSessions sessionId s
  | VncCloseToRight sessionId => closeVncSessionsToRight sessionId s
  | VncCloseAll connectionId => closeAllVncSessionsForConnection connectionId s
  | VncWindowReady windowLabel => if tauri then vnc_window_ready windowLabel s else s
  | VncWindowClosed sessionId => if tauri then vnc_window_closed sessionId s else s
  | VncMessage sessionId message => if tauri then vnc_session_message sessionId message s else s
  | VncError sessionId message => if tauri then vnc_session_error sessionId message s else s
  | VncViewMessage sessionId message => updateVncSession sessionId (vnc_message message) s
  | VncViewError sessionId message => vnc_session_error sessionId message s
  | VncRunSettled run answer =>
      match js_find (λ r, vr_id r = run) (vd_runs s) with
      | Some r => settle_vnc_run r answer s
      | None => s
      end
  | VncPreviewSettled call answer =>
      match js_find (λ p, p.1 = call) (vd_previews s) with
      | Some (_, sessionId) =>
          settle_vnc_preview sessionId answer (vd_set_previews (filter (λ p, p.1 ≠ call) (vd_previews s)) (vd_next s) s)
      | None => s
      end
  | VncDelivered delivery ok =>
      match js_find (λ p, p.1 = delivery) (vd_deliveries s) with
      | Some (_, sessionId) =>
          let s := vd_set_deliveries (filter (λ p, p.1 ≠ delivery) (vd_deliveries s)) (vd_next s) s in
          if ok then drop_payload sessionId s else s
      | None => s
      end
  end.

Definition vnc_run (s : VncDesktop) (events : list VncEvent) : VncDesktop := foldl vnc_step s events.

Definition vnc_restored (sessions : list VncSessionTab) : VncDesktop := mkVncDesktop sessions [] [] [] [] false 0 [] [].
End desktop.

(** ** What holds of a workspace *)

Section vnc_facts.
Context (tr : string → string) (trv : string → string → string) (diagnostic : string → string) (show : json → string).
Context (tauri : bool).

Implicit Types (s : VncDesktop) (x : VncSessionTab) (r : VncRun).

(** How a tab shows the session it has; a tab that failed may still have one. *)
Definition vnc_shape x : Prop :=
  match vt_result x with
  | Some result => tauri = true ∧
      match vt_status x with
      | VncIsEmbedded => vl_embedded result = true ∧ vt_windowLabel x = None
      | VncIsWindowed => vl_embedded result = true ∧ vt_windowLabel x = Some VNC_RUNNER_HOST_WINDOW_LABEL
      | VncIsExternal => vt_windowLabel x = None
      | VncIsError => True
      | VncIsLaunching => False
      end
  | None => vt_windowLabel x = None ∧
      match vt_status x with
      | VncIsLaunching | VncIsError => True
      | VncIsWindowed | VncIsExternal => tauri = false
      | VncIsEmbedded => False
      end
  end.

(** The session that a launch has in its hands. *)
Definition phase_backend (phase : VncPhase) : list string :=
  match phase with
  | VpImporting result | VpLookingUp result | VpCreating result | VpShowing _ result | VpEmitting result => shown (vl_session_id result)
  | _ => []
  end.

Definition vnc_kept s (b : string) : Prop :=
  VcClose b ∈ vd_calls s ∨ (∃ x, x ∈ vd_sessions s ∧ b ∈ vnc_backend x) ∨ ∃ r, r ∈ vd_runs s ∧ b ∈ phase_backend (vr_phase r).

(** [hosting] launches are those that open a window for an embedded session. *)
Definition phase_ok (phase : VncPhase) : Prop :=
  match phase with
  | VpWaiting => tauri = false
  | VpImporting result | VpLookingUp result | VpCreating result | VpShowing _ result | VpEmitting result =>
      tauri = true ∧ vl_embedded result = true
  | _ => tauri = true
  end.

(** A launch whose tab is gone, and that is about to tell the window. *)
Definition abandoned (phase : VncPhase) : bool := match phase with VpAbandoning _ => true | _ => false end.

Record vnc_ok_but (but : option string) s : Prop := {
  vo_ids : NoDup (vt_id <$> vd_sessions s);
  vo_run_ids : NoDup (vr_id <$> vd_runs s);
  vo_next : Forall (λ r, vr_id r < vd_next s) (vd_runs s);
  vo_single : NoDup (vr_session <$> vd_runs s);
  vo_phases : Forall (λ r, phase_ok (vr_phase r)) (vd_runs s);
  vo_runs : ∀ r x, r ∈ vd_runs s → x ∈ vd_sessions s → vt_id x = vr_session r →
    vt_result x = None ∧ (vt_status x = VncIsLaunching ∨ vt_status x = VncIsError) ∧ abandoned (vr_phase r) = false;
  vo_but : ∀ id, but = Some id → id ∉ vr_session <$> vd_runs s;
  vo_shape : ∀ x, x ∈ vd_sessions s → vnc_shape x;
  vo_launching : ∀ x, x ∈ vd_sessions s → but ≠ Some (vt_id x) → vt_status x = VncIsLaunching → vt_id x ∈ vr_session <$> vd_runs s;
  vo_error : ∀ x b, x ∈ vd_sessions s → (vt_status x = VncIsError ∨ but = Some (vt_id x)) → b ∈ vnc_backend x → VcClose b ∈ vd_calls s;
  vo_kept : ∀ b, b ∈ vd_returned s → vnc_kept s b;
}.

Definition vnc_ok : VncDesktop → Prop := vnc_ok_but None.

(** What changes beside the tabs and the launches: calls are logged, numbers are taken. *)
Lemma vnc_grow but s s' :
  vd_sessions s' = vd_sessions s → vd_runs s' = vd_runs s → vd_returned s' = vd_returned s →
  vd_next s ≤ vd_next s' → (∀ b, VcClose b ∈ vd_calls s → VcClose b ∈ vd_calls s') →
  vnc_ok_but but s → vnc_ok_but but s'.
Proof.
  intros Hs Hr Hret Hn Hc [? ? Hx ? ? ? ? ? ? He Hk]. split; rewrite ?Hs, ?Hr, ?Hret; try done.
  - eapply Forall_impl; [exact Hx|]. cbn. lia.
  - intros x b Hx' Hst Hb. by apply Hc, (He x).
  - intros b Hb. destruct (Hk b Hb) as [Hb'|Hb']; [left; by apply Hc|right]. by rewrite Hs, Hr.
Qed.

Lemma vnc_log_ok but calls s : vnc_ok_but but s → vnc_ok_but but (vd_log calls s).
Proof. apply vnc_grow; try done. intros b Hb. apply elem_of_app. by left. Qed.

Lemma vnc_payloads_ok payloads s : vnc_ok s → vnc_ok (vd_set_payloads payloads s).
Proof. by apply vnc_grow. Qed.

(** An update of the tab [sid]. *)
Lemma vnc_update_ok sid f s :
  vnc_ok s → (∀ x, vt_id (f x) = vt_id x) → (∀ x, vt_result (f x) = vt_result x) →
  (∀ x, x ∈ vd_sessions s → vt_id x = sid → vnc_shape (f x) ∧
    (vt_status (f x) = vt_status x ∨ vt_status (f x) = VncIsError ∧ ∀ b, b ∈ vnc_backend x → VcClose b ∈ vd_calls s)) →
  vnc_ok (updateVncSession sid f s).
Proof.
  intros [Hi ? ? ? ? Hr ? Hs Hl He Hk] Hid Hre Hf. cbn in *.
  assert (∀ x, vnc_backend (f x) = vnc_backend x) as Hb by (intros x; unfold vnc_backend; by rewrite Hre).
  assert (∀ x, x ∈ update_by vt_id sid f (vd_sessions s) → ∃ y, y ∈ vd_sessions s ∧ vt_id x = vt_id y ∧ vt_result x = vt_result y ∧
    vnc_backend x = vnc_backend y ∧ vnc_shape x ∧
    (vt_status x = vt_status y ∨ vt_status x = VncIsError ∧ ∀ b, b ∈ vnc_backend y → VcClose b ∈ vd_calls s)) as Hx.
  { intros x [[Hx _]|(y & Hy & Hy' & ->)]%elem_of_update_by; [exists x; split_and!; auto|].
    exists y. destruct (Hf y Hy Hy') as [? ?]. by rewrite Hid, Hre, Hb. }
  split; cbn; try done.
  - by rewrite update_by_keys.
  - intros r x Hr' (y & Hy & -> & -> & _ & _ & Hst)%Hx Heq. destruct (Hr r y Hr' Hy Heq) as (? & Hst' & ?).
    split_and!; [done| |done]. destruct Hst as [->|[? _]]; [done|by right].
  - by intros x (y & Hy & _ & _ & _ & ? & _)%Hx.
  - intros x (y & Hy & -> & _ & _ & _ & Hst)%Hx Hbut Hx'. destruct Hst as [Heq|[? _]]; [|congruence].
    apply Hl; [done..|congruence].
  - intros x b (y & Hy & _ & _ & -> & _ & Hst)%Hx [Hx'|Hx'] Hb'; [|done].
    destruct Hst as [Heq|[_ Hc]]; [apply (He y); [done|left; congruence|done]|by apply Hc].
  - intros b Hb'. destruct (Hk b Hb') as [Hc|[(x & Hx' & Hbx)|Hrun]]; [by left| |right; by right].
    right. left. destruct (decide (vt_id x = sid)).
    + exists (f x). rewrite Hb. split; [apply elem_of_update_by; right; eauto|done].
    + exists x. split; [apply elem_of_update_by; by left|done].
Qed.

Lemma vnc_quiet_ok sid f s :
  (∀ x, vt_id (f x) = vt_id x ∧ vt_status (f x) = vt_status x ∧ vt_result (f x) = vt_result x ∧ vt_windowLabel (f x) = vt_windowLabel x) →
  vnc_ok s → vnc_ok (updateVncSession sid f s).
Proof.
  intros Hf H. apply vnc_update_ok; [done|intros x; apply Hf..|]. intros x Hx _.
  pose proof (vo_shape _ _ H x Hx) as Hs. destruct (Hf x) as (_ & Hst & Hre & Hw). split; [|by left].
  unfold vnc_shape in *. by rewrite Hst, Hre, Hw.
Qed.

Lemma vnc_error_ok sid message s : vnc_ok s → vnc_ok (vnc_session_error sid message s).
Proof.
  intros H. unfold vnc_session_error. destruct (find_vnc sid s) as [x|] eqn:Hf; [|done].
  apply (js_find_Some (λ x, vt_id x = sid)) in Hf as [Hx Hid].
  apply vnc_update_ok; [by apply vnc_log_ok|done|done|].
  intros y Hy Hy'. cbn in Hy. assert (y = x) as ->.
  { eapply (NoDup_fmap_inj_elem vt_id); [apply H|done|done|congruence]. }
  split; [|right; split; [done|]].
  - pose proof (vo_shape _ _ H x Hx) as Hs. unfold vnc_shape in *. cbn. destruct (vt_result x); naive_solver.
  - intros b Hb. cbn. apply elem_of_app. right. by apply list_elem_of_fmap_2.
Qed.

Lemma vnc_run_ok sid connection s : vnc_ok_but (Some sid) s → vnc_ok (runVncSession tr tauri sid connection s).
Proof.
  intros H.
  assert (∀ phase, phase = (if tauri then VpLaunching else VpWaiting) →
    vnc_ok (vd_await sid connection phase (updateVncSession sid (vnc_launching tr (openInRunnerHost connection)) s))) as Haw.
  2:{ unfold runVncSession. destruct tauri; [|by apply Haw].
      eapply vnc_grow; [..|by apply Haw]; try done. intros b Hb. apply elem_of_app. by left. }
  intros phase Hphase. destruct H as [Hi Hn Hx Hsg Hp Hr Hb Hs Hl He Hk]. specialize (Hb sid eq_refl). cbn.
  assert (∀ x, x ∈ update_by vt_id sid (vnc_launching tr (openInRunnerHost connection)) (vd_sessions s) →
    x ∈ vd_sessions s ∧ vt_id x ≠ sid ∨ vt_id x = sid ∧ vt_status x = VncIsLaunching ∧ vt_result x = None ∧ vt_windowLabel x = None) as Hin.
  { intros x [Hx'|(y & Hy & Hid & ->)]%elem_of_update_by; [by left|right]. by rewrite <- Hid. }
  split; cbn; [by rewrite update_by_keys|..].
  - rewrite fmap_app. apply NoDup_app. split_and!; [done| |by apply NoDup_singleton].
    intros i (r & -> & Hr')%list_elem_of_fmap Heq%list_elem_of_singleton. rewrite Forall_forall in Hx. specialize (Hx r Hr'). cbn in Hx, Heq. lia.
  - apply Forall_app. split; [eapply Forall_impl; [exact Hx|]; cbn; lia|]. constructor; [cbn; lia|done].
  - rewrite fmap_app. apply NoDup_app. split_and!; [done| |by apply NoDup_singleton].
    intros i Hi' Heq%list_elem_of_singleton. by subst.
  - apply Forall_app. split; [done|]. constructor; [|done]. subst phase. cbn. unfold phase_ok. by destruct tauri.
  - intros r x [Hr'| ->%list_elem_of_singleton]%elem_of_app [[Hx' Hne]|(Hid & Hst & Hre & _)]%Hin Heq; try done; [by apply (Hr r)| |].
    { exfalso. apply Hb. rewrite <- Hid, Heq. by apply list_elem_of_fmap_2. }
    split_and!; [done|by left|]. subst phase. cbn. by destruct tauri.
  - done.
  - intros x [[Hx' _]|(_ & Hst & Hre & Hw)]%Hin; [by apply Hs|]. unfold vnc_shape. by rewrite Hst, Hre, Hw.
  - intros x [[Hx' Hne]|(Hid & _)]%Hin _ Hst; rewrite fmap_app; apply elem_of_app.
    + left. apply Hl; [done|congruence|done].
    + right. rewrite Hid. by left.
  - intros x b [[Hx' Hne]|(_ & Hst & Hre & _)]%Hin [Hst'|?] Hbx; try done; [apply (He x); auto|congruence].
  - intros b Hb'. destruct (Hk b Hb') as [Hc|[(x & Hx' & Hbx)|(r & Hr' & Hbr)]]; [by left| |].
    + destruct (decide (vt_id x = sid)) as [<-|Hne]; [left; apply (He x); auto|].
      right. left. exists x. split; [|done]. apply elem_of_update_by. by left.
    + right. right. exists r. split; [|done]. apply elem_of_app. by left.
Qed.

Lemma vnc_start_ok connection activate now s :
  let session := buildVncSession connection now s in
  vnc_ok s → vt_id session ∉ vt_id <$> vd_sessions s → vt_id session ∉ vr_session <$> vd_runs s →
  vnc_ok (startVncSession tr tauri connection activate now s).
Proof.
  intros session [Hi Hn Hx Hsg Hp Hr _ Hs Hl He Hk] Hfresh Hrun. apply vnc_run_ok.
  assert (∀ x, x ∈ vd_sessions s → vt_id x ≠ vt_id session) as Hne.
  { intros x Hx' Heq. apply Hfresh. rewrite <- Heq. by apply list_elem_of_fmap_2. }
  assert (vnc_ok_but (Some (vt_id session)) (vd_set_sessions (vd_sessions s ++ [session]) s)) as Hb;
    [|destruct activate; [by apply vnc_log_ok|done]].
  split; cbn; try done.
  - rewrite fmap_app. apply NoDup_app. split_and!; [done| |by apply NoDup_singleton].
    intros i Hi' Heq%list_elem_of_singleton. by subst.
  - intros r x Hr' [Hx'| ->%list_elem_of_singleton]%elem_of_app Heq; [by apply (Hr r)|].
    exfalso. apply Hrun. rewrite Heq. by apply list_elem_of_fmap_2.
  - by intros id [= <-].
  - intros x [Hx'| ->%list_elem_of_singleton]%elem_of_app; [by apply Hs|done].
  - intros x [Hx'| ->%list_elem_of_singleton]%elem_of_app Hn' Hst; [by apply Hl|done].
  - intros x b [Hx'| ->%list_elem_of_singleton]%elem_of_app Hst Hb; [|by apply not_elem_of_nil in Hb].
    apply (He x); [done| |done]. destruct Hst as [?|[= Heq]]; [by left|]. by apply Hne in Hx'.
  - intros b Hb. destruct (Hk b Hb) as [Hc|[(x & Hx' & Hbx)|Hrun']]; [by left| |right; by right].
    right. left. exists x. split; [|done]. apply elem_of_app. by left.
Qed.

Lemma vnc_retry_ok known sid s :
  vnc_ok s → (∀ x, find_vnc sid s = Some x → vt_status x = VncIsError ∧ sid ∉ vr_session <$> vd_runs s) →
  vnc_ok (retryVncSession tr tauri known sid s).
Proof.
  intros H Hc. unfold retryVncSession. destruct (find_vnc sid s) as [x|] eqn:Hf; [|done].
  destruct (known !! vt_connectionId x) as [connection|]; [|done]. destruct (Hc x eq_refl) as [Hst Hrun].
  apply (js_find_Some (λ x, vt_id x = sid)) in Hf as [Hx Hid]. subst sid. apply vnc_run_ok, vnc_log_ok.
  destruct H as [Hi Hn Hx' Hsg Hp Hr _ Hs Hl He Hk]. split; try done.
  - by intros id [= <-].
  - intros y Hy _. by apply Hl.
  - intros y b Hy [Hst'|[= Heq]] Hb; [apply (He y); auto|].
    assert (y = x) as -> by (eapply (NoDup_fmap_inj_elem vt_id); done). apply (He x); auto.
Qed.

Lemma vnc_remove_ok ids s :
  vnc_ok s → (∀ x b, x ∈ vd_sessions s → vt_id x ∈ ids → b ∈ vnc_backend x → VcClose b ∈ vd_calls s) →
  vnc_ok (removeVncSessionsLocally ids s).
Proof.
  intros H Hc. unfold removeVncSessionsLocally. case_decide; [done|]. apply vnc_log_ok.
  destruct H as [Hi Hn Hx Hsg Hp Hr _ Hs Hl He Hk]. split; cbn; try done.
  - by apply NoDup_kept.
  - intros r x Hr' [_ Hx']%list_elem_of_filter. by apply Hr.
  - intros x [_ Hx']%list_elem_of_filter. by apply Hs.
  - intros x [_ Hx']%list_elem_of_filter. by apply Hl.
  - intros x b [_ Hx']%list_elem_of_filter. by apply He.
  - intros b Hb. destruct (Hk b Hb) as [Hc'|[(x & Hx' & Hbx)|Hrun]]; [by left| |right; by right].
    destruct (decide (vt_id x ∈ ids)) as [Hin|Hin]; [left; by apply (Hc x)|right; left].
    exists x. split; [|done]. by apply list_elem_of_filter.
Qed.

Lemma drop_payloads (l : list VncSessionTab) s : ∃ payloads,
  foldl (λ s session, drop_payload (vt_id session) s) s l = vd_set_payloads payloads s.
Proof.
  revert s. induction l as [|x l IH]; intros s; [exists (vd_payloads s); by destruct s|].
  cbn. destruct (IH (drop_payload (vt_id x) s)) as [payloads ->]. by exists payloads.
Qed.

Lemma vnc_close_ok ids notify s : vnc_ok s → vnc_ok (closeVncSessions tauri ids notify s).
Proof.
  intros H. unfold closeVncSessions. case_decide; [done|].
  destruct (drop_payloads (filter (λ x, vt_id x ∈ ids) (vd_sessions s)) s) as [payloads ->].
  apply vnc_remove_ok.
  - destruct tauri; [apply vnc_log_ok|]; by apply vnc_payloads_ok.
  - intros x b Hx Hid Hb. assert (x ∈ vd_sessions s) as Hx' by (by destruct tauri).
    pose proof (vo_shape _ _ H x Hx') as Hs. unfold vnc_shape in Hs. destruct (vt_result x) as [result|] eqn:Hre.
    + destruct Hs as [Ht _]. rewrite Ht. cbn. apply elem_of_app. right. apply list_elem_of_bind. exists x.
      split; [|by apply list_elem_of_filter]. unfold vnc_close_calls. apply elem_of_app. left. by apply list_elem_of_fmap_2.
    + unfold vnc_backend in Hb. rewrite Hre in Hb. by apply not_elem_of_nil in Hb.
Qed.

(** A launch goes on, with its session in its hands or closed. *)
Lemma vnc_run_to_ok r phase s :
  vnc_ok s → r ∈ vd_runs s → phase_ok phase →
  (∀ b, b ∈ phase_backend (vr_phase r) → b ∈ phase_backend phase ∨ VcClose b ∈ vd_calls s) →
  (abandoned phase = true → vr_session r ∉ vt_id <$> vd_sessions s) →
  vnc_ok (run_to (vr_id r) phase s).
Proof.
  intros [Hi Hn Hx Hsg Hp Hr _ Hs Hl He Hk] Hin Hphase Hb Hgone.
  set (g := λ r', if decide (vr_id r' = vr_id r) then mkVncRun (vr_id r') (vr_session r') (vr_connection r') phase else r').
  assert (∀ {B} (h : VncRun → B), (∀ r', h (g r') = h r') → h <$> (g <$> vd_runs s) = h <$> vd_runs s) as Hmap.
  { intros B h Hh. rewrite <- list_fmap_compose. apply list_fmap_ext. intros i r' _. apply Hh. }
  assert (∀ r', vr_id (g r') = vr_id r') as Hgi by (intros r'; unfold g; by case_decide).
  assert (∀ r', vr_session (g r') = vr_session r') as Hgs by (intros r'; unfold g; by case_decide).
  split; cbn; try done.
  - by rewrite Hmap.
  - apply Forall_fmap. eapply Forall_impl; [exact Hx|]. intros r' Hr'. change (vr_id (g r') < vd_next s). by rewrite Hgi.
  - by rewrite Hmap.
  - apply Forall_fmap. eapply Forall_impl; [exact Hp|]. intros r' Hr'. unfold compose. cbn. by case_decide.
  - intros r' x (r0 & -> & Hr0)%list_elem_of_fmap Hx' Heq. fold (g r0) in Heq |- *. rewrite Hgs in Heq.
    destruct (Hr r0 x Hr0 Hx' Heq) as (? & ? & Hab). split_and!; [done..|]. unfold g. case_decide as Hid; [|done]. cbn.
    assert (r0 = r) as -> by (eapply (NoDup_fmap_inj_elem vr_id); done). destruct (abandoned phase) eqn:E; [|done].
    exfalso. apply Hgone; [done|]. rewrite <- Heq. by apply list_elem_of_fmap_2.
  - intros x Hx' Hbut Hst. rewrite Hmap; [by apply Hl|done].
  - intros b Hb'. destruct (Hk b Hb') as [Hc|[Hx'|(r0 & Hr0 & Hbr)]]; [by left|right; by left|].
    destruct (decide (vr_id r0 = vr_id r)) as [Heq|Hne].
    + assert (r0 = r) as -> by (eapply (NoDup_fmap_inj_elem vr_id); done).
      destruct (Hb b Hbr) as [Hb''|Hc]; [|by left]. right. right. exists (g r). split; [by apply list_elem_of_fmap_2|].
      unfold g. by rewrite decide_True.
    + right. right. exists r0. split; [|done]. apply list_elem_of_fmap. exists r0. by rewrite decide_False.
Qed.

(** A launch ends: [f] is what its tab becomes, if it is still there. *)
Lemma vnc_finish_ok r f s :
  vnc_ok s → r ∈ vd_runs s → (∀ x, vt_id (f x) = vt_id x) →
  (∀ x, vt_result x = None → vnc_shape x → vnc_shape (f x) ∧ vt_status (f x) ≠ VncIsLaunching ∧
     (vt_status (f x) = VncIsError → vt_result (f x) = None)) →
  (∀ b, b ∈ phase_backend (vr_phase r) →
     VcClose b ∈ vd_calls s ∨ vr_session r ∈ vt_id <$> vd_sessions s ∧ ∀ x, b ∈ vnc_backend (f x)) →
  vnc_ok (updateVncSession (vr_session r) f (run_done (vr_id r) s)).
Proof.
  intros [Hi Hn Hx Hsg Hp Hr _ Hs Hl He Hk] Hin Hid Hf Hb.
  assert (∀ x, x ∈ update_by vt_id (vr_session r) f (vd_sessions s) → x ∈ vd_sessions s ∧ vt_id x ≠ vr_session r ∨
    vt_id x = vr_session r ∧ vnc_shape x ∧ vt_status x ≠ VncIsLaunching ∧ (vt_status x = VncIsError → vt_result x = None)) as Hup.
  { intros x [Hx'|(y & Hy & Heq & ->)]%elem_of_update_by; [by left|right]. rewrite Hid. split; [done|].
    apply Hf; [by apply (Hr r)|by apply Hs]. }
  assert (∀ r', r' ∈ vd_runs s → vr_id r' ≠ vr_id r → vr_session r' ≠ vr_session r) as Hother.
  { intros r' Hr' Hne Heq. apply Hne. f_equal. by eapply (NoDup_fmap_inj_elem vr_session). }
  split; cbn; try done.
  - by rewrite update_by_keys.
  - by apply NoDup_kept.
  - by apply Forall_kept.
  - by apply NoDup_kept.
  - by apply Forall_kept.
  - intros r' x [Hne Hr']%list_elem_of_filter [[Hx' _]|(Hid' & _)]%Hup Heq; [by apply (Hr r')|].
    exfalso. apply (Hother r' Hr' Hne). congruence.
  - intros x [[Hx' _]|(_ & ? & _)]%Hup; [by apply Hs|done].
  - intros x [[Hx' Hne]|(_ & _ & ? & _)]%Hup Hbut Hst; [|done].
    destruct (proj1 (list_elem_of_fmap _ _ _) (Hl x Hx' Hbut Hst)) as (r' & Heq & Hr').
    rewrite Heq. apply list_elem_of_fmap_2, list_elem_of_filter. split; [|done]. intros Heq'.
    apply Hne. rewrite Heq. f_equal. by eapply (NoDup_fmap_inj_elem vr_id).
  - intros x b [[Hx' _]|(_ & _ & _ & Hnone)]%Hup [Hst|?] Hbx; try done; [by apply (He x); auto|].
    unfold vnc_backend in Hbx. rewrite (Hnone Hst) in Hbx. by apply not_elem_of_nil in Hbx.
  - intros b Hb'. destruct (Hk b Hb') as [Hc|[(x & Hx' & Hbx)|(r' & Hr' & Hbr)]]; [by left| |].
    + right. left. exists x. split; [|done]. apply elem_of_update_by. left. split; [done|]. intros Heq.
      destruct (Hr r x Hin Hx' Heq) as [Hre _]. unfold vnc_backend in Hbx. rewrite Hre in Hbx. by apply not_elem_of_nil in Hbx.
    + destruct (decide (vr_id r' = vr_id r)) as [Heq|Hne].
      * assert (r' = r) as -> by (eapply (NoDup_fmap_inj_elem vr_id); done).
        destruct (Hb b Hbr) as [Hc|[(z & Hz & Hz')%list_elem_of_fmap Hf']]; [by left|right; left].
        exists (f z). split; [|done]. apply elem_of_update_by. right. by exists z.
      * right. right. exists r'. split; [|done]. by apply list_elem_of_filter.
Qed.

(** A launch ends without its tab. *)
Lemma vnc_done_ok r s :
  vnc_ok s → r ∈ vd_runs s → vr_session r ∉ vt_id <$> vd_sessions s →
  (∀ b, b ∈ phase_backend (vr_phase r) → VcClose b ∈ vd_calls s) → vnc_ok (run_done (vr_id r) s).
Proof.
  intros H Hin Hgone Hb.
  assert (updateVncSession (vr_session r) id (run_done (vr_id r) s) = run_done (vr_id r) s) as <-.
  { unfold updateVncSession, vd_set_sessions. cbn. unfold run_done, vd_set_runs. f_equal. unfold update_by.
    rewrite <- (list_fmap_id (vd_sessions s)) at 2. apply list_fmap_ext. intros i x _. by case_decide. }
  assert (updateVncSession (vr_session r) (vnc_failed "") (run_done (vr_id r) s) = updateVncSession (vr_session r) id (run_done (vr_id r) s)) as <-.
  { unfold updateVncSession. f_equal. apply list_fmap_ext. intros i x Hx. case_decide as Heq; [|done].
    exfalso. apply Hgone. rewrite <- Heq. apply list_elem_of_fmap_2. by eapply list_elem_of_lookup_2. }
  apply vnc_finish_ok; [done..| |].
  - intros x Hre Hs. split_and!; [|done..]. unfold vnc_shape in *. cbn. rewrite Hre in *. by destruct Hs.
  - intros b Hb'. left. by apply Hb.
Qed.

Lemma elem_of_shown b t : b ∈ shown t ↔ b = t ∧ t ≠ "".
Proof.
  unfold shown. destruct (nonempty t) as [t'|] eqn:E; cbn.
  - apply nonempty_Some in E as [-> ?]. rewrite list_elem_of_singleton. naive_solver.
  - rewrite elem_of_nil. split; [done|]. intros [_ Hne]. by rewrite (proj2 (nonempty_Some t t) (conj eq_refl Hne)) in E.
Qed.

Lemma vnc_return_ok l s : vnc_ok s → (∀ b, b ∈ l → vnc_kept s b) → vnc_ok (vd_return l s).
Proof.
  intros [Hi Hn Hx Hsg Hp Hr Hb Hs Hl He Hk] Hret. split; try done.
  intros b [Hb'|Hb']%elem_of_app; [by apply Hk|by apply Hret].
Qed.

Lemma vnc_exists_true sid s : vncSessionExists sid s = true ↔ sid ∈ vt_id <$> vd_sessions s.
Proof. apply (exists_by vt_id). Qed.

Lemma vnc_exists_false sid s : vncSessionExists sid s = false ↔ sid ∉ vt_id <$> vd_sessions s.
Proof. apply (exists_by_false vt_id). Qed.

(** A phase that holds [result], which came from the backend for an embedded session. *)
Definition holds (phase : VncPhase) (result : VncLaunchResult) : Prop :=
  phase_backend phase = shown (vl_session_id result) ∧ tauri = true ∧ vl_embedded result = true.

Lemma window_opened_ok r result s :
  vnc_ok s → r ∈ vd_runs s → holds (vr_phase r) result → vnc_ok (window_opened tr r result s).
Proof.
  intros H Hr (Hph & Ht & Hemb). unfold window_opened. destruct (vncSessionExists (vr_session r) s) eqn:E; cbn [negb].
  - apply vnc_exists_true in E. apply vnc_log_ok.
    apply (vnc_finish_ok r (vnc_windowed tr result VNC_RUNNER_HOST_WINDOW_LABEL) s); [done..| |].
    + intros x _ _. by split_and!.
    + intros b Hb. right. split; [done|]. intros x. by rewrite Hph in Hb.
  - apply vnc_exists_false in E. apply vnc_run_to_ok; [by apply vnc_log_ok|done|done| |done].
    intros b Hb. right. rewrite Hph in Hb. apply elem_of_shown in Hb as [-> _]. cbn. apply elem_of_app. right. left.
Qed.

Lemma window_shown_ok r result s :
  vnc_ok s → r ∈ vd_runs s → holds (vr_phase r) result → vnc_ok (window_shown tr r result s).
Proof.
  intros H Hr Hh. unfold window_shown. destruct (vd_ready s); [|by apply window_opened_ok].
  destruct Hh as (Hph & ? & ?). apply vnc_run_to_ok; [by apply vnc_log_ok|done|done| |done]. rewrite Hph. auto.
Qed.

Lemma window_failed_ok r result error s :
  vnc_ok s → r ∈ vd_runs s → holds (vr_phase r) result → vnc_ok (window_failed trv diagnostic show r result error s).
Proof.
  intros H Hr (Hph & Ht & _). unfold window_failed. apply vnc_run_to_ok; [by apply vnc_log_ok|done|done| |done].
  intros b Hb. right. rewrite Hph in Hb. apply elem_of_shown in Hb as [-> _]. cbn. apply elem_of_app. right. left.
Qed.

(** A phase that has its session in its hands changes to another. *)
Lemma vnc_hold_ok r phase result s :
  vnc_ok s → r ∈ vd_runs s → holds (vr_phase r) result → holds phase result → phase_ok phase → abandoned phase = false →
  vnc_ok (run_to (vr_id r) phase s).
Proof. intros H Hr (Hph & _) (Hph' & _) Hok Ha. apply vnc_run_to_ok; [done..| |congruence]. rewrite Hph, Hph'. auto. Qed.

Lemma vnc_answered_ok r result s :
  vnc_ok s → r ∈ vd_runs s → vr_phase r = VpLaunching → vnc_ok (vnc_launch_answered tr r result s).
Proof.
  intros H Hr Hph. unfold vnc_launch_answered.
  assert (tauri = true) as Ht.
  { pose proof (vo_phases _ _ H) as Hp. rewrite Forall_forall in Hp. specialize (Hp r Hr). by rewrite Hph in Hp. }
  assert (phase_backend (vr_phase r) = []) as Hnil by (by rewrite Hph).
  destruct (vncSessionExists (vr_session r) (vd_return _ s)) eqn:E; cbn [negb].
  - apply vnc_exists_true in E. cbn in E. destruct (vl_embedded result && openInRunnerHost (vr_connection r)) eqn:Eh.
    + apply andb_true_iff in Eh as [Hemb _].
      apply (vnc_return_ok (shown (vl_session_id result)) (run_to (vr_id r) (VpImporting result) s)).
      * apply vnc_run_to_ok; [done..| |done]. rewrite Hnil. by intros b Hb%not_elem_of_nil.
      * intros b Hb. right. right. exists (mkVncRun (vr_id r) (vr_session r) (vr_connection r) (VpImporting result)).
        split; [|done]. apply list_elem_of_fmap. exists r. by rewrite decide_True.
    + apply vnc_log_ok.
      apply (vnc_return_ok (shown (vl_session_id result)) (updateVncSession (vr_session r) (vnc_launched tr result) (run_done (vr_id r) s))).
      * apply vnc_finish_ok; [done..| |rewrite Hnil; by intros b Hb%not_elem_of_nil].
        intros x _ _. unfold vnc_shape. cbn. by destruct (vl_embedded result).
      * intros b Hb. right. left. apply list_elem_of_fmap in E as (x & Hid & Hx). exists (vnc_launched tr result x).
        split; [|done]. apply elem_of_update_by. right. by exists x.
  - apply vnc_exists_false in E. cbn in E.
    apply (vnc_return_ok (shown (vl_session_id result)) (vd_log (VcClose <$> shown (vl_session_id result)) (run_done (vr_id r) s))).
    + apply vnc_log_ok, vnc_done_ok; [done..|]. rewrite Hnil. by intros b Hb%not_elem_of_nil.
    + intros b Hb. left. cbn. apply elem_of_app. right. by apply list_elem_of_fmap_2.
Qed.

(** A launch that holds no session ends with an update of its tab, if it is there. *)
Lemma vnc_end_ok r f s :
  vnc_ok s → r ∈ vd_runs s → phase_backend (vr_phase r) = [] → (∀ x, vt_id (f x) = vt_id x) →
  (∀ x, vt_result x = None → vnc_shape x → vnc_shape (f x) ∧ vt_status (f x) ≠ VncIsLaunching ∧
     (vt_status (f x) = VncIsError → vt_result (f x) = None)) →
  vnc_ok (updateVncSession (vr_session r) f (run_done (vr_id r) s)).
Proof. intros H Hr Hnil Hid Hf. apply vnc_finish_ok; [done..|]. rewrite Hnil. by intros b Hb%not_elem_of_nil. Qed.

Lemma vnc_failed_shape message x :
  vt_result x = None → vnc_shape x → vnc_shape (vnc_failed message x) ∧ vt_status (vnc_failed message x) ≠ VncIsLaunching ∧
  (vt_status (vnc_failed message x) = VncIsError → vt_result (vnc_failed message x) = None).
Proof. intros Hre Hs. split_and!; [|done..]. unfold vnc_shape in *. cbn. rewrite Hre in *. by destruct Hs. Qed.

Lemma vnc_settle_ok r answer s :
  vnc_ok s → r ∈ vd_runs s → vnc_ok (settle_vnc_run tr trv diagnostic show r answer s).
Proof.
  intros H Hr. pose proof (vo_phases _ _ H) as Hp. rewrite Forall_forall in Hp. specialize (Hp r Hr).
  unfold settle_vnc_run.
  assert (∀ result, vr_phase r ∈ [VpImporting result; VpLookingUp result; VpCreating result; VpEmitting result] ∨
    (∃ steps, vr_phase r = VpShowing steps result) → holds (vr_phase r) result) as Hh.
  { intros result Hin. unfold holds. repeat setoid_rewrite elem_of_cons in Hin. rewrite elem_of_nil in Hin.
    destruct Hin as [[Hin|[Hin|[Hin|[Hin|[]]]]]|[steps Hin]]; rewrite Hin in *; by split. }
  destruct (vr_phase r) as [| |result|result|result|steps result|result|error|label] eqn:Hph.
  - destruct answer; try done. destruct (vncSessionExists _ _) eqn:E; cbn [negb].
    + apply vnc_log_ok, vnc_end_ok; [done|done|by rewrite Hph|done|]. intros x Hre Hs. split_and!.
      * unfold vnc_shape, vnc_browser_ready in *. cbn [vt_result vt_status vt_windowLabel]. rewrite Hre in *.
        destruct Hs as [-> _]. split; [done|]. by destruct (openInRunnerHost _).
      * unfold vnc_browser_ready. cbn [vt_status]. by destruct (openInRunnerHost _).
      * done.
    + apply vnc_exists_false in E. apply vnc_done_ok; [done..|]. rewrite Hph. by intros b Hb%not_elem_of_nil.
  - destruct answer as [|result|host|error]; try done.
    + by apply vnc_answered_ok.
    + destruct (vncSessionExists _ _) eqn:E; cbn [negb].
      * apply vnc_end_ok; [done|done|by rewrite Hph|done|apply vnc_failed_shape].
      * apply vnc_exists_false in E. apply vnc_done_ok; [done..|]. rewrite Hph. by intros b Hb%not_elem_of_nil.
  - specialize (Hh result ltac:(set_solver)). rewrite <- Hph in Hh. destruct Hp.
    destruct answer; try done; [|by apply window_failed_ok].
    eapply (vnc_hold_ok r); [by apply vnc_payloads_ok|done..].
  - specialize (Hh result ltac:(set_solver)). rewrite <- Hph in Hh. destruct Hp.
    destruct answer as [| |[]|]; try done; [..|by apply window_failed_ok].
    all: eapply (vnc_hold_ok r); [|done..]; by apply vnc_log_ok, (vnc_grow None s).
  - specialize (Hh result ltac:(set_solver)). rewrite <- Hph in Hh. destruct Hp.
    destruct answer; try done; [by apply window_shown_ok|by apply window_failed_ok].
  - specialize (Hh result ltac:(eauto)). rewrite <- Hph in Hh. destruct Hp.
    destruct steps as [|call steps]; destruct answer; try done; try by apply window_shown_ok.
    all: eapply (vnc_hold_ok r); [by apply vnc_log_ok|done..].
  - specialize (Hh result ltac:(set_solver)). rewrite <- Hph in Hh. destruct Hp.
    destruct answer; try done; [|by apply window_failed_ok].
    apply window_opened_ok; [by apply vnc_payloads_ok|done..].
  - destruct answer; try done.
    all: apply vnc_end_ok; [done|done|by rewrite Hph|done|apply vnc_failed_shape].
  - assert (vnc_ok (run_done (vr_id r) s)) as Hdone.
    { apply vnc_done_ok; [done..| |rewrite Hph; by intros b Hb%not_elem_of_nil].
      intros (x & Heq & Hx)%list_elem_of_fmap. destruct (vo_runs _ _ H r x Hr Hx (eq_sym Heq)) as (_ & _ & Hab). by rewrite Hph in Hab. }
    destruct answer; try done; by apply vnc_log_ok.
Qed.

Lemma vnc_preview_ok known sid s : vnc_ok s → vnc_ok (previewVncSessionLaunch tr tauri known sid s).
Proof.
  intros H. unfold previewVncSessionLaunch. destruct (find_vnc sid s) as [x|]; [|done].
  destruct (known !! vt_connectionId x) as [connection|]; [|by apply vnc_quiet_ok].
  destruct tauri; [|by apply vnc_quiet_ok, vnc_quiet_ok].
  apply (vnc_grow None (updateVncSession sid (vnc_message (tr "workspace.vnc.previewGenerating")) s));
    [done..|cbn; lia| |by apply vnc_quiet_ok].
  intros b Hb. apply elem_of_app. by left.
Qed.

Lemma vnc_ready_ok label s : vnc_ok s → vnc_ok (vnc_window_ready label s).
Proof.
  intros H. unfold vnc_window_ready. generalize (vd_payloads (vd_set_ready true s)). intros payloads.
  assert (vnc_ok (vd_set_ready true s)) as Hok by (by apply (vnc_grow None s)). revert Hok. generalize (vd_set_ready true s).
  induction payloads as [|p payloads IH]; intros s' Hs'; [done|]. cbn [foldl]. apply IH. case_decide; [|done].
  apply (vnc_grow None s'); [done..|cbn; lia| |done]. intros b Hb. apply elem_of_app. by left.
Qed.

(** What a user and the clock do: a new tab has a new id, and the user retries a launch
    that failed and is over. *)
Definition vnc_legal s (e : VncEvent) : bool :=
  match e with
  | VncOpen connection _ now | VncStart connection _ now =>
      let id := vt_id (buildVncSession connection now s) in
      bool_decide (id ∉ vt_id <$> vd_sessions s) && bool_decide (id ∉ vr_session <$> vd_runs s)
  | VncRetry _ sessionId =>
      match find_vnc sessionId s with
      | Some x => bool_decide (vt_status x = VncIsError) && bool_decide (sessionId ∉ vr_session <$> vd_runs s)
      | None => true
      end
  | _ => true
  end.

Abbreviation step := (vnc_step tr trv diagnostic show tauri).

Fixpoint vnc_all_legal s (events : list VncEvent) : bool :=
  match events with [] => true | e :: events => vnc_legal s e && vnc_all_legal (step s e) events end.

Lemma vnc_step_ok s e : vnc_ok s → vnc_legal s e = true → vnc_ok (step s e).
Proof.
  intros H He.
  destruct e as [c active now|c activate now|known sid|known sid|ids|sid|sid|cid|label|sid|sid m|sid m|sid m|sid m|run answer|call answer|d ok];
    cbn [vnc_step vnc_legal] in *.
  - apply andb_true_iff in He as [Hi%bool_decide_eq_true Hr%bool_decide_eq_true]. unfold openVncConnectionSession.
    destruct (preferredVncSessionForConnection active (dp_id c) s); [by apply vnc_log_ok|by apply vnc_start_ok].
  - apply andb_true_iff in He as [Hi%bool_decide_eq_true Hr%bool_decide_eq_true]. by apply vnc_start_ok.
  - apply vnc_retry_ok; [done|]. intros x Hx. rewrite Hx in He.
    by apply andb_true_iff in He as [?%bool_decide_eq_true ?%bool_decide_eq_true].
  - by apply vnc_preview_ok.
  - by apply vnc_close_ok.
  - unfold closeOtherVncSessions. destruct (find_vnc sid s); [by apply vnc_close_ok|done].
  - unfold closeVncSessionsToRight. destruct (find_vnc sid s); [by apply vnc_close_ok|done].
  - by apply vnc_close_ok.
  - destruct tauri; [by apply vnc_ready_ok|done].
  - assert (vnc_ok (vnc_window_closed tauri sid s)) by (by apply vnc_close_ok, vnc_payloads_ok). by destruct tauri.
  - assert (vnc_ok (vnc_session_message sid m s)); [|by destruct tauri].
    unfold vnc_session_message. destruct (negb _); [done|by apply vnc_quiet_ok].
  - assert (vnc_ok (vnc_session_error sid m s)) by (by apply vnc_error_ok). by destruct tauri.
  - by apply vnc_quiet_ok.
  - by apply vnc_error_ok.
  - destruct (js_find _ _) as [r|] eqn:Hr; [|done]. apply js_find_Some in Hr as [Hr _]. by apply vnc_settle_ok.
  - destruct (js_find _ _) as [[i sid]|]; [|done]. destruct answer; apply vnc_quiet_ok; try done; by apply (vnc_grow None s).
  - destruct (js_find _ _) as [[i sid]|]; [|done]. destruct ok; [apply vnc_payloads_ok|]; by apply (vnc_grow None s).
Qed.

Lemma vnc_run_steps_ok s events :
  vnc_ok s → vnc_all_legal s events = true → vnc_ok (vnc_run tr trv diagnostic show tauri s events).
Proof.
  revert s. induction events as [|e events IH]; intros s H; [done|]. cbn [vnc_all_legal].
  intros [He Hes]%andb_true_iff. apply IH; [by apply vnc_step_ok|done].
Qed.

Lemma vnc_restored_ok sessions :
  NoDup (vt_id <$> sessions) →
  Forall (λ x, vt_status x = VncIsError ∧ vt_result x = None ∧ vt_windowLabel x = None) sessions → vnc_ok (vnc_restored sessions).
Proof.
  intros Hn Hs. rewrite Forall_forall in Hs. split; cbn; try done; try (by constructor).
  - by intros r x Hr%not_elem_of_nil.
  - intros x Hx. destruct (Hs x Hx) as (Hst & Hre & Hw). unfold vnc_shape. by rewrite Hre, Hst.
  - intros x Hx _ Hst. destruct (Hs x Hx). congruence.
  - intros x b Hx _ Hb. destruct (Hs x Hx) as (_ & Hre & _). unfold vnc_backend in Hb. rewrite Hre in Hb. by apply not_elem_of_nil in Hb.
  - by intros b Hb%not_elem_of_nil.
Qed.

(** *** Which tabs a step can add *)

Definition vnc_new s (e : VncEvent) : list string :=
  match e with
  | VncOpen connection _ now | VncStart connection _ now => [vt_id (buildVncSession connection now s)]
  | _ => []
  end.

Lemma vnc_close_ids ids notify s id :
  id ∈ vt_id <$> vd_sessions (closeVncSessions tauri ids notify s) → id ∈ vt_id <$> vd_sessions s.
Proof.
  unfold closeVncSessions. case_decide; [done|].
  destruct (drop_payloads (filter (λ x, vt_id x ∈ ids) (vd_sessions s)) s) as [payloads ->].
  unfold removeVncSessionsLocally. case_decide; [done|]. intros (x & -> & [_ Hx]%list_elem_of_filter)%list_elem_of_fmap.
  apply list_elem_of_fmap_2. by destruct tauri.
Qed.

Lemma vnc_start_ids connection activate now s id :
  id ∈ vt_id <$> vd_sessions (startVncSession tr tauri connection activate now s) →
  id ∈ vt_id <$> vd_sessions s ∨ id ∈ [vt_id (buildVncSession connection now s)].
Proof.
  unfold startVncSession, runVncSession. intros H.
  assert (id ∈ vt_id <$> (vd_sessions s ++ [buildVncSession connection now s])) as H'.
  { destruct tauri, activate; cbn in H; by rewrite update_by_keys in H. }
  rewrite fmap_app in H'. by apply elem_of_app in H'.
Qed.

Lemma window_ready_sessions label s : vd_sessions (vnc_window_ready label s) = vd_sessions s.
Proof.
  unfold vnc_window_ready. generalize (vd_payloads (vd_set_ready true s)). intros payloads.
  change (vd_sessions s) with (vd_sessions (vd_set_ready true s)). generalize (vd_set_ready true s).
  induction payloads as [|p payloads IH]; intros s'; [done|]. cbn [foldl]. rewrite IH. by case_decide.
Qed.

Lemma vnc_settle_ids r answer s :
  vt_id <$> vd_sessions (settle_vnc_run tr trv diagnostic show r answer s) = vt_id <$> vd_sessions s.
Proof.
  unfold settle_vnc_run, vnc_launch_answered, window_shown, window_opened, window_failed.
  destruct (vr_phase r) as [| |result|result|result|[|call steps] result|result|error|label], answer as [|result'|[]|e]; try done.
  all: cbv zeta; repeat (case_match; try done); cbn; by rewrite ?update_by_keys.
Qed.

Lemma vnc_step_ids s e id :
  id ∈ vt_id <$> vd_sessions (step s e) → id ∈ vt_id <$> vd_sessions s ∨ id ∈ vnc_new s e.
Proof.
  destruct e as [c active now|c activate now|known sid|known sid|ids|sid|sid|cid|label|sid|sid m|sid m|sid m|sid m|run answer|call answer|d ok];
    cbn [vnc_step vnc_new]; intros H.
  - revert H. unfold openVncConnectionSession. destruct (preferredVncSessionForConnection _ _ _); [by left|apply vnc_start_ids].
  - by apply vnc_start_ids in H.
  - left. revert H. unfold retryVncSession. destruct (find_vnc sid s) as [x|]; [|done]. destruct (known !! _); [|done].
    unfold runVncSession. destruct tauri; cbn; by rewrite update_by_keys.
  - left. revert H. unfold previewVncSessionLaunch. destruct (find_vnc sid s) as [x|]; [|done].
    destruct (known !! _); [destruct tauri|]; cbn; by rewrite ?update_by_keys.
  - left. by eapply vnc_close_ids.
  - left. revert H. unfold closeOtherVncSessions. destruct (find_vnc sid s); [apply vnc_close_ids|done].
  - left. revert H. unfold closeVncSessionsToRight. destruct (find_vnc sid s); [apply vnc_close_ids|done].
  - left. by eapply vnc_close_ids.
  - left. destruct tauri; [by rewrite window_ready_sessions in H|done].
  - left. revert H. unfold vnc_window_closed. pose proof (vnc_close_ids [sid] false (drop_payload sid s) id) as Hc.
    by destruct tauri.
  - left. revert H. unfold vnc_session_message. destruct tauri; [|done]. destruct (negb _); [done|]. cbn. by rewrite update_by_keys.
  - left. revert H. unfold vnc_session_error. destruct tauri; [|done]. destruct (find_vnc sid s); [|done]. cbn. by rewrite update_by_keys.
  - left. revert H. cbn. by rewrite update_by_keys.
  - left. revert H. unfold vnc_session_error. destruct (find_vnc sid s); [|done]. cbn. by rewrite update_by_keys.
  - left. revert H. destruct (js_find _ _) as [r|]; [|done]. by rewrite vnc_settle_ids.
  - left. revert H. destruct (js_find _ _) as [[i sid]|]; [|done]. destruct answer; cbn; by rewrite update_by_keys.
  - left. revert H. destruct (js_find _ _) as [[i sid]|]; [|done]. by destruct ok.
Qed.

(** *** Launches come to an end *)

(** A bound on the awaits that a launch has left. *)
Definition phase_work (phase : VncPhase) : nat :=
  match phase with
  | VpLaunching => 9
  | VpImporting _ => 8
  | VpLookingUp _ => 7
  | VpShowing steps _ => 4 + length steps
  | VpCreating _ => 4
  | VpEmitting _ => 3
  | VpWaiting | VpFailing _ | VpAbandoning _ => 1
  end.

Definition launch_work (runs : list VncRun) : nat := sum_list_with (λ r, phase_work (vr_phase r)) runs.

(** What can come back at an await; the steps that show a window catch their errors. *)
Definition answers_phase (phase : VncPhase) (answer : VncAnswer) : bool :=
  match phase, answer with
  | VpWaiting, VncDone | VpLaunching, VncLaunched _ | VpLaunching, VncRefused _ | VpLookingUp _, VncFound _ => true
  | (VpImporting _ | VpCreating _ | VpEmitting _ | VpShowing _ _ | VpFailing _ | VpAbandoning _), VncDone => true
  | (VpImporting _ | VpLookingUp _ | VpCreating _ | VpEmitting _ | VpShowing _ _ | VpFailing _ | VpAbandoning _), VncRefused _ => true
  | _, _ => false
  end.

(** The launch ends, or goes on with less to do. *)
Definition settled_runs r (runs runs' : list VncRun) : Prop :=
  runs' = filter (λ r', vr_id r' ≠ vr_id r) runs ∨
  ∃ phase, phase_work phase < phase_work (vr_phase r) ∧
    runs' = (λ r', if decide (vr_id r' = vr_id r) then mkVncRun (vr_id r') (vr_session r') (vr_connection r') phase else r') <$> runs.

Lemma run_to_settled r phase s s' :
  phase_work phase < phase_work (vr_phase r) → vd_runs s' = vd_runs s → settled_runs r (vd_runs s) (vd_runs (run_to (vr_id r) phase s')).
Proof. intros Hw Hr. right. exists phase. split; [done|]. cbn. by rewrite Hr. Qed.

Lemma window_opened_settled r result s s' :
  1 < phase_work (vr_phase r) → vd_runs s' = vd_runs s → settled_runs r (vd_runs s) (vd_runs (window_opened tr r result s')).
Proof.
  intros Hw Hr. unfold window_opened. destruct (negb _).
  - by apply run_to_settled.
  - left. cbn. by rewrite Hr.
Qed.

Lemma window_shown_settled r result s s' :
  3 < phase_work (vr_phase r) → vd_runs s' = vd_runs s → settled_runs r (vd_runs s) (vd_runs (window_shown tr r result s')).
Proof.
  intros Hw Hr. unfold window_shown. destruct (vd_ready s').
  - by apply run_to_settled.
  - apply window_opened_settled; [lia|done].
Qed.

Lemma vnc_settled_runs r answer s :
  answers_phase (vr_phase r) answer = true →
  settled_runs r (vd_runs s) (vd_runs (settle_vnc_run tr trv diagnostic show r answer s)).
Proof.
  unfold settle_vnc_run, vnc_launch_answered, window_failed. intros Ha.
  destruct (vr_phase r) as [| |result|result|result|[|call steps] result|result|error|label] eqn:Hph, answer as [|result'|[]|e]; try done;
    cbv zeta.
  all: try (by destruct (negb _); left).
  all: try (by left).
  all: try (by apply run_to_settled; [rewrite Hph; cbn; lia|]).
  all: try (by apply window_shown_settled; [rewrite Hph; cbn; lia|]).
  all: try (by apply window_opened_settled; [rewrite Hph; cbn; lia|]).
  destruct (negb _); [by left|]. destruct (_ && _); [|by left]. apply run_to_settled; [rewrite Hph; cbn; lia|done].
Qed.

Lemma settled_work r runs runs' :
  NoDup (vr_id <$> runs) → r ∈ runs → settled_runs r runs runs' → launch_work runs' < launch_work runs.
Proof.
  intros Hn Hr [->|(phase & Hw & ->)]; unfold launch_work; induction runs as [|r' runs IH]; try by apply not_elem_of_nil in Hr.
  all: rewrite fmap_cons in Hn; apply NoDup_cons in Hn as [Hni Hn].
  - assert (1 ≤ phase_work (vr_phase r')) as Hpos by (destruct (vr_phase r'); cbn; lia).
    destruct (decide (vr_id r' = vr_id r)) as [Heq|Hne].
    + rewrite filter_cons_False by (intros H; by apply H). cbn. rewrite filter_all; [lia|].
      intros r'' Hr'' Heq'. apply Hni. rewrite Heq, <- Heq'. by apply list_elem_of_fmap_2.
    + rewrite filter_cons_True by done. apply elem_of_cons in Hr as [->|Hr]; [done|]. cbn. specialize (IH Hn Hr). lia.
  - cbn. destruct (decide (vr_id r' = vr_id r)) as [Heq|Hne]; cbn.
    + assert (r' = r) as ->.
      { apply elem_of_cons in Hr as [->|Hr]; [done|]. exfalso. apply Hni. rewrite Heq. by apply list_elem_of_fmap_2. }
      assert (sum_list_with (λ r0, phase_work (vr_phase r0)) ((λ r'0, if decide (vr_id r'0 = vr_id r)
        then mkVncRun (vr_id r'0) (vr_session r'0) (vr_connection r'0) phase else r'0) <$> runs) =
        sum_list_with (λ r0, phase_work (vr_phase r0)) runs) as ->; [|lia].
      f_equal. rewrite <- (list_fmap_id runs) at 2. apply list_fmap_ext. intros i r0 Hi. rewrite decide_False; [done|].
      intros Heq'. apply Hni. rewrite <- Heq'. apply list_elem_of_fmap_2. by eapply list_elem_of_lookup_2.
    + apply elem_of_cons in Hr as [->|Hr]; [done|]. apply Nat.add_lt_mono_l. exact (IH Hn Hr).
Qed.
End vnc_facts.

(** C36: VNC sessions are never lost. Start from restored tabs and let anything happen in any
    order, where new tabs get new ids and the user retries launches that failed and are over:
    the ids of the tabs are distinct; every session that a launch returned is shown by a tab,
    closed, or in the hands of a launch that is opening its window; a tab that failed has no
    open session; a tab says how its session is shown, and a launching tab has its launch in
    flight; every answer to an await brings its launch nearer to its end; and no step brings
    back a tab that is gone. *)
Theorem vnc_sessions_safe tr trv diagnostic show tauri restored events :
  NoDup (vt_id <$> restored) →
  Forall (λ x, vt_status x = VncIsError ∧ vt_result x = None ∧ vt_windowLabel x = None) restored →
  vnc_all_legal tr trv diagnostic show tauri (vnc_restored restored) events = true →
  let step := vnc_step tr trv diagnostic show tauri in
  let s := vnc_run tr trv diagnostic show tauri (vnc_restored restored) events in
  NoDup (vt_id <$> vd_sessions s) ∧
  (∀ b, b ∈ vd_returned s → VcClose b ∈ vd_calls s ∨ (∃ x, x ∈ vd_sessions s ∧ b ∈ vnc_backend x) ∨
     ∃ r, r ∈ vd_runs s ∧ b ∈ phase_backend (vr_phase r)) ∧
  (∀ x, x ∈ vd_sessions s → vnc_shape tauri x ∧
     (vt_status x = VncIsError → ∀ b, b ∈ vnc_backend x → VcClose b ∈ vd_calls s) ∧
     (vt_status x = VncIsLaunching → vt_id x ∈ vr_session <$> vd_runs s)) ∧
  (∀ r answer, r ∈ vd_runs s → answers_phase (vr_phase r) answer = true →
     launch_work (vd_runs (step s (VncRunSettled (vr_id r) answer))) < launch_work (vd_runs s)) ∧
  (∀ e id, id ∈ vt_id <$> vd_sessions (step s e) → id ∈ vt_id <$> vd_sessions s ∨ id ∈ vnc_new s e).
Proof.
  intros Hn Hr Hl step s.
  assert (vnc_ok tauri s) as H by (by apply vnc_run_steps_ok; [apply vnc_restored_ok|]).
  split_and!.
  - apply H.
  - apply H.
  - intros x Hx. split_and!; [by apply (vo_shape _ _ _ H)| |].
    + intros Hst b. apply (vo_error _ _ _ H x b Hx). by left.
    + by apply (vo_launching _ _ _ H x Hx).
  - intros r answer Hrun Ha. apply (settled_work r); [apply H|done|]. unfold step. cbn [vnc_step].
    destruct (js_find _ _) as [r'|] eqn:Hf.
    + apply js_find_Some in Hf as [Hr' Heq]. assert (r' = r) as -> by (eapply (NoDup_fmap_inj_elem vr_id); [apply H|done..]).
      by apply vnc_settled_runs.
    + exfalso. by apply (proj1 (js_find_None _ _) Hf r Hrun).
  - intros e id. apply vnc_step_ids.
Qed.

Definition demo_vnc_profile : DesktopProfile :=
  mkDesktopProfile "c2" "Lab" "10.0.0.7" 5901 "" None
    (Some (mkVnc None None None None (Some (mkVncRunner (Some VncWindowed) None None None)) None)).
Definition demo_vnc_known : gmap string DesktopProfile := {["c2" := demo_vnc_profile]}.
Definition demo_vnc_result (session : string) : VncLaunchResult :=
  mkVncResult session "c2" true true NoVnc None None None [] None None None [].

Abbreviation demo_vnc_run := (vnc_run id (λ k v, k +:+ v) id (λ _, "") true (vnc_restored [])).
Abbreviation demo_vnc_legal := (vnc_all_legal id (λ k v, k +:+ v) id (λ _, "") true (vnc_restored [])).

(** A session in its window; a second one whose tab is closed while the window is shown;
    and a third one whose window cannot be told. *)
Definition demo_vnc_events : list VncEvent :=
  [VncStart demo_vnc_profile true 5; VncRunSettled 0 (VncLaunched (demo_vnc_result "v0")); VncRunSettled 0 VncDone;
   VncRunSettled 0 (VncFound false); VncRunSettled 0 VncDone; VncWindowReady "vnc-runner-host"; VncDelivered 1 true;
   VncStart demo_vnc_profile true 6; VncRunSettled 2 (VncLaunched (demo_vnc_result "v1")); VncRunSettled 2 VncDone;
   VncRunSettled 2 (VncFound true); VncClose ["vnc-c2-6"]; VncRunSettled 2 VncDone; VncRunSettled 2 VncDone;
   VncRunSettled 2 VncDone; VncRunSettled 2 VncDone; VncRunSettled 2 VncDone;
   VncStart demo_vnc_profile true 7; VncRunSettled 3 (VncLaunched (demo_vnc_result "v2")); VncRunSettled 3 (VncRefused (JStr "no"))].

Lemma vnc_sessions_safe_witness :
  let s := demo_vnc_run demo_vnc_events in
  vd_returned s = ["v0"; "v1"; "v2"] ∧ vt_status <$> vd_sessions s = [VncIsWindowed; VncIsLaunching] ∧
  ∀ b, b ∈ vd_returned s → VcClose b ∈ vd_calls s ∨ (∃ x, x ∈ vd_sessions s ∧ b ∈ vnc_backend x) ∨
     ∃ r, r ∈ vd_runs s ∧ b ∈ phase_backend (vr_phase r).
Proof.
  intros s. split_and!; [vm_compute; reflexivity..|].
  assert (demo_vnc_legal demo_vnc_events = true) as Hl by (vm_compute; reflexivity).
  exact (proj1 (proj2 (vnc_sessions_safe id (λ k v, k +:+ v) id (λ _, "") true [] demo_vnc_events
    (NoDup_nil_2) (Forall_nil_2 _) Hl))).
Defined.

(** A tab that is closed while the library of the window is imported: its payload is kept
    after that, and a window that is ready gets it. *)
Example closed_session_reaches_window :
  let s := demo_vnc_run [VncStart demo_vnc_profile true 5; VncRunSettled 0 (VncLaunched (demo_vnc_result "v0"));
    VncClose ["vnc-c2-5"]; VncRunSettled 0 VncDone; VncWindowReady "vnc-runner-host"] in
  vd_sessions s = [] ∧
  last (vd_calls s) = Some (VcEmitPayload "vnc-runner-host" (vnc_payload (mkVncRun 0 "vnc-c2-5" demo_vnc_profile VpLaunching) (demo_vnc_result "v0"))).
Proof. split; vm_compute; reflexivity. Qed.

(** A retried launch forgets the session that its tab shows. *)
Example vnc_retry_loses_session :
  let s := demo_vnc_run [VncStart demo_vnc_profile true 5;
    VncRunSettled 0 (VncLaunched (mkVncResult "v0" "c2" true false VncViewer None None None [] None None None []));
    VncRetry demo_vnc_known "vnc-c2-5"; VncClose ["vnc-c2-5"]; VncRunSettled 1 (VncRefused (JStr "no"))] in
  vd_returned s = ["v0"] ∧ vd_sessions s = [] ∧ vd_runs s = [] ∧
  vd_calls s = [VcActivate "c2" "vnc-c2-5"; VcLaunch "c2"; VcMarkConnected "c2"; VcActivate "c2" "vnc-c2-5"; VcLaunch "c2"; VcRemove ["vnc-c2-5"]].
Proof. split_and!; vm_compute; reflexivity. Qed.
