(* ===== verification/TransferTasks.v ===== *)
(** * Uploads and downloads ([features/layout/WorkspaceShell.tsx])

    The tasks behind the transfers of remote files: what the panel, a drop or a retry
    starts, what each task asks the backend and the user before it moves anything, the
    temporary files it makes, and how it ends. The queue that starts tasks is
    [Transfers]; a task is cut at its awaits. Before its first await a task changes only
    its own item, so the tasks that a drained queue starts run after it, in their order; an
    await of a result that is there goes on at once. The paths of remote files have the
    characters of [RemotePaths]. *)

From S2P Require Import Prelude ItemClose JsString RemotePaths Settings RemoteEditor TarArchive Transfers.
From Stdlib Require Import Lia Strings.Ascii.
From stdpp Require Import pretty.

#[local] Open Scope nat_scope.

(** ** Names and paths *)

Abbreviation chars_of := String.list_ascii_of_string.

Definition join_path (parentPath name : string) : string := text_of (joinRemotePath (chars_of parentPath) (chars_of name)).
Definition file_name (path : string) : string := text_of (remoteFileName (chars_of path)).
Definition parent_path (path : string) : string := text_of (remotePathParent (Some (chars_of path))).

(** The last segment of a local path, whatever its separators. *)
Definition localPathName (path : string) : string :=
  let slashes := (λ c, if decide (c = backslash) then slash else c) <$> chars_of path in
  default "upload" (text_of <$> last (segments (rev (drop_slashes (rev slashes))))).

(** The name of a browser's file. *)
Definition from_js (s : jsstr) : string := text_of ((λ u, Ascii.ascii_of_N (Z.to_N u)) <$> s).

(** What no local file name has: punctuation and control characters. *)
Definition forbidden_char (c : ascii) : bool :=
  bool_decide (c ∈ ["<"%char; ">"%char; ":"%char; "034"%char; "/"%char; "\"%char; "|"%char; "?"%char; "*"%char]) ||
  (Ascii.nat_of_ascii c <? 32).

Definition sanitizeLocalSegment (value : string) : string :=
  let sanitized := text_of ((λ c, if forbidden_char c then "_"%char else c) <$> js_trim (chars_of value)) in
  default "" (Some sanitized ||? Some "nexaterm-session").

(** The connection of a transfer: what transfers read of its profile. *)
Record TransferConnection := mkTransferConnection {
  tn_id : string;
  tn_name : string;
  tn_host : string;
}.

Definition transferSessionName (connection : TransferConnection) : string :=
  sanitizeLocalSegment (default "" (Some (tn_name connection) ||? Some (tn_host connection) ||? Some "nexaterm-session")).

(** A date in local time. *)
Record DateParts := mkDate { dt_year : N; dt_month : N; dt_day : N; dt_hour : N; dt_minute : N }.

Definition padDatePart (value : N) : string :=
  let text := pretty.pretty value in if String.length text <? 2 then "0" +:+ text else text.

Definition formatTransferTimestamp (date : DateParts) (format : string) : string :=
  let year := pretty.pretty (dt_year date) in
  let month := padDatePart (dt_month date) in
  let day := padDatePart (dt_day date) in
  let hour := padDatePart (dt_hour date) in
  let minute := padDatePart (dt_minute date) in
  if decide (format = "yyyy-MM-dd-HHmm") then year +:+ "-" +:+ month +:+ "-" +:+ day +:+ "-" +:+ hour +:+ minute
  else if decide (format = "yyyyMMdd-HHmm") then year +:+ month +:+ day +:+ "-" +:+ hour +:+ minute
  else year +:+ month +:+ day +:+ hour +:+ minute.

(** ** Policies *)

Definition setting_policy (value : string) : RemoteFileTransferConflictPolicy :=
  if decide (value = "overwrite") then PolicyOverwrite
  else if decide (value = "skip") then PolicySkip
  else if decide (value = "rename") then PolicyRename else PolicyAsk.

Definition toRemoteFileConflictPolicy (policy : RemoteFileTransferConflictPolicy) : RemoteFileTransferConflictPolicy :=
  match policy with PolicyAsk => PolicyRename | _ => policy end.

(** What the dialog answers; closing it answers nothing. *)
Inductive ConflictChoice := ChooseRename | ChooseSkip | ChooseOverwrite.

Definition choice_policy (choice : ConflictChoice) : RemoteFileTransferConflictPolicy :=
  match choice with ChooseRename => PolicyRename | ChooseSkip => PolicySkip | ChooseOverwrite => PolicyOverwrite end.

(** ** Tasks *)

Inductive TransferJob :=
  | JobLocalFile (parentPath localPath : string)
  | JobLocalDirectory (parentPath localPath : string) (compress keepArchive : option bool)
  | JobBrowserFile (parentPath : string) (item : RemoteFileUploadItem)
  | JobBrowserDirectory (parentPath rootName : string) (items : list RemoteFileUploadItem) (keepArchive : option bool)
  | JobDownload (entry : TransferEntry) (input : option RemoteFileDownloadToLocalInput).

(** What a task closes over. *)
Record TaskBody := mkTask {
  tb_id : string;
  tb_connection : TransferConnection;
  tb_job : TransferJob;
  tb_policy : option RemoteFileTransferConflictPolicy;
  tb_settings : FileTransferSettings;
}.

(** What a started task waits for. A pulse is the timer that lets the progress grow. *)
Record Pulse := mkPulse { pu_cap : Q; pu_start : Q; pu_stage : string; pu_tick : nat }.

#[export] Instance Pulse_eq_dec : EqDecision Pulse.
Proof. solve_decision. Defined.

Inductive Await :=
  | AwCheck
  | AwPrompt
  | AwTemp (policy : RemoteFileTransferConflictPolicy)
  | AwCache (policy : RemoteFileTransferConflictPolicy) (localPath : string)
  | AwCall (localPath : option string) (pulse : option Pulse)
  | AwPreview (pulse : Pulse).

(** The dialog, with the task whose promise it resolves. *)
Record TransferConflictPrompt := mkPrompt {
  cp_task : nat;
  cp_name : string;
  cp_description : string;
}.

Inductive TransferCall :=
  | CallCheckPath (connectionId path : string)
  | CallCheckTarget (options : RemoteFileDownloadToLocalInput)
  | CallPrepareTemp (name : string)
  | CallUploadFile (connectionId : string) (policy : RemoteFileTransferConflictPolicy) (localPath path transferId : string)
  | CallUploadArchive (compress : bool) (connectionId : string) (policy : RemoteFileTransferConflictPolicy) (keepArchive : bool)
      (localPath rootName targetDir transferId : string)
  | CallDownload (request : RemoteFileDownloadToLocalInput) (transferId : string)
  | CallDeleteTemp (localPath : string).

Record RefreshRequest := mkRefresh { rq_connectionId : string; rq_id : Z; rq_path : string }.

(** [tt_bodies] are the tasks by number; [tt_awaits] are the awaits of the calls in
    [tf_runs], position by position; [tt_temps] are the temporary files that the backend
    made and was not asked to delete; [tt_ids] counts the ids that were made. *)
Record TransferTasks := mkTasks {
  tt_controller : TransferController;
  tt_bodies : list TaskBody;
  tt_awaits : list Await;
  tt_prompt : option TransferConflictPrompt;
  tt_calls : list TransferCall;
  tt_temps : list string;
  tt_refresh : option RefreshRequest;
  tt_ids : nat;
}.

(** The rendered values that the handlers read. *)
Record TransferRead := mkTransferRead {
  tx_active : option TransferConnection;
  tx_connections : gmap string TransferConnection;
  tx_settings : FileTransferSettings;
}.

Definition initialTransferTasks (concurrentTransfers : Z) : TransferTasks :=
  mkTasks (initialTransferController concurrentTransfers) [] [] None [] [] None 0.

Definition tt_with_controller (f : TransferController → TransferController) (s : TransferTasks) : TransferTasks :=
  mkTasks (f (tt_controller s)) (tt_bodies s) (tt_awaits s) (tt_prompt s) (tt_calls s) (tt_temps s) (tt_refresh s) (tt_ids s).
Definition tt_with_items (f : transfers → transfers) : TransferTasks → TransferTasks := tt_with_controller (tf_with_items f).
Definition tt_add_body (body : TaskBody) (s : TransferTasks) : TransferTasks :=
  mkTasks (tt_controller s) (tt_bodies s ++ [body]) (tt_awaits s) (tt_prompt s) (tt_calls s) (tt_temps s) (tt_refresh s) (tt_ids s).
Definition tt_with_awaits (awaits : list Await) (s : TransferTasks) : TransferTasks :=
  mkTasks (tt_controller s) (tt_bodies s) awaits (tt_prompt s) (tt_calls s) (tt_temps s) (tt_refresh s) (tt_ids s).
Definition tt_with_prompt (prompt : option TransferConflictPrompt) (s : TransferTasks) : TransferTasks :=
  mkTasks (tt_controller s) (tt_bodies s) (tt_awaits s) prompt (tt_calls s) (tt_temps s) (tt_refresh s) (tt_ids s).
Definition tt_call (calls : list TransferCall) (s : TransferTasks) : TransferTasks :=
  mkTasks (tt_controller s) (tt_bodies s) (tt_awaits s) (tt_prompt s) (tt_calls s ++ calls) (tt_temps s) (tt_refresh s) (tt_ids s).
Definition tt_with_temps (temps : list string) (s : TransferTasks) : TransferTasks :=
  mkTasks (tt_controller s) (tt_bodies s) (tt_awaits s) (tt_prompt s) (tt_calls s) temps (tt_refresh s) (tt_ids s).
Definition tt_next_id (s : TransferTasks) : TransferTasks :=
  mkTasks (tt_controller s) (tt_bodies s) (tt_awaits s) (tt_prompt s) (tt_calls s) (tt_temps s) (tt_refresh s) (S (tt_ids s)).
Definition triggerRemoteFileRefresh (connectionId path : string) (s : TransferTasks) : TransferTasks :=
  mkTasks (tt_controller s) (tt_bodies s) (tt_awaits s) (tt_prompt s) (tt_calls s) (tt_temps s)
    (Some (mkRefresh connectionId (default 0%Z (rq_id <$> tt_refresh s) + 1) (normalize_path_string path))) (tt_ids s).

Section tasks.
(** Translations without and with an argument, the printing of sizes, the clock's local
    date, whether the desktop runtime is there, and the ids of new transfers. *)
Context (tr : string → string) (tr_with : string → string → string).
Context (to_string to_fixed1 : Q → string) (local_date : Z → DateParts) (tauri : bool) (fresh : nat → string).

Definition size_text (size : Z) : string := formatFileSize to_string to_fixed1 (inject_Z size).
Definition bytes_text (loaded total : Z) : string :=
  formatTransferProgressBytes to_string to_fixed1 (inject_Z loaded) (inject_Z total).

(** ** Errors *)

(** The code of an error, its detailed text, and its short one. *)
Record TransferError := mkTransferError {
  er_code : option string;
  er_detailed : string;
  er_short : string;
}.

Definition isTransferCanceledError (error : TransferError) : bool :=
  bool_decide (er_code error = Some "remote_file_transfer_canceled").

Definition transfer_stage_key (prefix : string) (writeTimeout writeFailed unavailable connection channel authTimeout code : string) : option string :=
  if decide (code = "remote_file_upload_confirm_timeout") then Some (tr (prefix +:+ writeTimeout))
  else if decide (code = "remote_file_upload_confirm_failed") then Some (tr (prefix +:+ writeFailed))
  else if decide (code = "remote_sftp_subsystem_failed" ∨ code = "remote_sftp_subsystem_timeout") then Some (tr (prefix +:+ unavailable))
  else if bool_decide (code = "remote_sftp_connect_failed") || starts_with "remote_sftp_connect_" code then Some (tr (prefix +:+ connection))
  else if decide (code = "remote_sftp_channel_failed" ∨ code = "remote_sftp_init_failed" ∨ code = "remote_sftp_channel_timeout")
  then Some (tr (prefix +:+ channel))
  else if decide (code = "remote_sftp_auth_timeout") then Some (tr (prefix +:+ authTimeout))
  else None.

Definition transferErrorStage : string → option string :=
  transfer_stage_key "workspace.sftp." "writeTimeout" "writeFailed" "unavailable" "connectionFailed" "channelFailed" "authTimeout".
Definition transferErrorSuggestion : string → option string :=
  transfer_stage_key "workspace.sftp.suggestion." "writeTimeout" "writeFailed" "unavailable" "connection" "channel" "authTimeout".

Definition newline : string := String "010"%char "".

(** [failTransfer]: the stage and the suggestion of the code, when it has one. *)
Definition fail_transfer (transferId stage : string) (error : TransferError) : transfers → transfers :=
  let code := if truthy (er_code error) then er_code error else None in
  let suggestion := code ≫= transferErrorSuggestion in
  let errorText :=
    if truthy suggestion
    then er_detailed error +:+ newline +:+ tr_with "workspace.error.suggestion" (default "" suggestion)
    else er_detailed error in
  failTransfer tr transferId (isTransferCanceledError error) errorText (default stage (code ≫= transferErrorStage)).

Definition connection_missing : TransferError :=
  mkTransferError None (tr "workspace.transfer.connectionMissing") (tr "workspace.transfer.connectionMissing").

(** ** Progress *)

Definition interpolateTransferProgress (start end_ : Q) (loadedBytes totalBytes : Z) : Q :=
  if (totalBytes <=? 0)%Z then end_
  else start + (end_ - start) * Qmax 0 (Qmin 1 (inject_Z loadedBytes / inject_Z totalBytes)).

(** [setTransferProgress] with the fields that are given. *)
Definition progress_of (transferId : string) (detail : option string) (indeterminate : bool) (progress : Q) (speedText : option string) (stage : string) :
    transfers → transfers :=
  setTransferProgress transferId (mkSetProgress detail (Some indeterminate) (Some progress) speedText stage None).

Definition startTransferProgressPulse (transferId : string) (detail : option string) (pulse : Pulse) : transfers → transfers :=
  progress_of transferId detail true (pu_start pulse) None (pu_stage pulse).

(** The timer of a pulse fires. *)
Definition next_tick (pulse : Pulse) : Pulse := mkPulse (pu_cap pulse) (pu_start pulse) (pu_stage pulse) (S (pu_tick pulse)).

Definition pulse_progress (pulse : Pulse) : Q :=
  Qmin (pu_cap pulse) (pu_start pulse + (pu_cap pulse - pu_start pulse) * (1 - Qpower (86 # 100) (Z.of_nat (pu_tick pulse)))).

Definition pulse_tick (transferId : string) (pulse : Pulse) : transfers → transfers :=
  updateRemoteFileTransfer transferId
    (mkUpdate None None None None None None (Some (pulse_progress pulse)) None (Some true) None None None (Some (pu_stage pulse)) None (Some TsRunning)).

(** ** What a task is *)

Definition job_upload (job : TransferJob) : bool := match job with JobDownload _ _ => false | _ => true end.

Definition job_kind (job : TransferJob) : TransferKind :=
  match job with
  | JobLocalFile _ _ | JobBrowserFile _ _ => Transfers.KindFile
  | JobLocalDirectory _ _ _ _ | JobBrowserDirectory _ _ _ _ => Transfers.KindDirectory
  | JobDownload entry _ => if te_directory entry then Transfers.KindDirectory else Transfers.KindFile
  end.

Definition job_name (job : TransferJob) : string :=
  match job with
  | JobLocalFile _ localPath | JobLocalDirectory _ localPath _ _ => localPathName localPath
  | JobBrowserFile _ item => from_js (uf_name item)
  | JobBrowserDirectory _ rootName _ _ => rootName
  | JobDownload entry _ => te_name entry
  end.

Definition job_parent (job : TransferJob) : string :=
  match job with
  | JobLocalFile parentPath _ | JobLocalDirectory parentPath _ _ _ | JobBrowserFile parentPath _ | JobBrowserDirectory parentPath _ _ _ =>
      normalize_path_string parentPath
  | JobDownload entry _ => te_path entry
  end.

(** Where the transfer ends on the remote side, or begins. *)
Definition job_path (job : TransferJob) : string :=
  match job with JobDownload entry _ => te_path entry | _ => join_path (job_parent job) (job_name job) end.

Definition job_waiting (job : TransferJob) : string :=
  tr match job with
     | JobLocalFile _ _ | JobLocalDirectory _ _ _ _ | JobBrowserFile _ _ => "workspace.transfer.waitUpload"
     | JobBrowserDirectory _ _ _ _ => "workspace.transfer.waitPack"
     | JobDownload entry _ => if te_directory entry then "workspace.transfer.waitScan" else "workspace.transfer.waitDownload"
     end.

(** The stage of a task that failed. *)
Definition job_failed (job : TransferJob) : string :=
  tr match job with
     | JobLocalFile _ _ | JobBrowserFile _ _ => "workspace.transfer.uploadFailed"
     | JobLocalDirectory _ _ _ _ | JobBrowserDirectory _ _ _ _ => "workspace.transfer.directoryUploadFailed"
     | JobDownload _ _ => "workspace.transfer.downloadFailed"
     end.

Definition downloadTargetOptions (now : Z) (settings : FileTransferSettings) (connection : TransferConnection) (entry : TransferEntry) :
    RemoteFileDownloadToLocalInput :=
  mkDownload (tn_id connection) None None (te_directory entry)
    (nonempty (fs_downloadRoot settings)) (fs_groupBySession settings) None (te_path entry) (transferSessionName connection)
    (fs_timestampDirectory settings) (formatTransferTimestamp (local_date now) (fs_timestampFormat settings)).

(** The input of a download: that of the retry, or the options of the settings. *)
Definition download_options (now : Z) (body : TaskBody) (entry : TransferEntry) (input : option RemoteFileDownloadToLocalInput) :
    RemoteFileDownloadToLocalInput :=
  default (downloadTargetOptions now (tb_settings body) (tb_connection body) entry) input.

Definition download_request (now : Z) (body : TaskBody) (entry : TransferEntry) (input : option RemoteFileDownloadToLocalInput)
    (policy : RemoteFileTransferConflictPolicy) : RemoteFileDownloadToLocalInput :=
  match input with
  | Some input => input
  | None =>
      let o := downloadTargetOptions now (tb_settings body) (tb_connection body) entry in
      mkDownload (dl_connectionId o) (Some (fs_compressDirectories (tb_settings body))) (Some policy) (dl_directory o) (dl_downloadRoot o)
        (dl_groupBySession o) (Some (fs_keepArchives (tb_settings body))) (dl_path o) (dl_sessionName o) (dl_timestampDirectory o)
        (dl_timestampName o)
  end.

(** The policy that a task is given: of its options, or of the retried download. *)
Definition given_policy (body : TaskBody) : option RemoteFileTransferConflictPolicy :=
  match tb_job body with
  | JobDownload _ input => input ≫= dl_conflictPolicy
  | _ => tb_policy body
  end.

(** ** Running a task *)

(** What a stretch of a task comes to: it waits, or it is over. *)
Inductive Outcome := Waits (await : Await) | Ends.

Definition Stretch : Type := TransferTasks → TransferTasks * Outcome.

Definition waits (await : Await) (s : TransferTasks) : TransferTasks * Outcome := (s, Waits await).
Definition ends (s : TransferTasks) : TransferTasks * Outcome := (s, Ends).

(** The [finally] of a task that has a temporary file. *)
Definition delete_temp (localPath : option string) (s : TransferTasks) : TransferTasks :=
  match localPath with
  | Some path => tt_call [CallDeleteTemp path] (tt_with_temps (filter (λ p, p ≠ path) (tt_temps s)) s)
  | None => s
  end.

Definition retry_of (now : Z) (body : TaskBody) (policy : RemoteFileTransferConflictPolicy) : RemoteFileTransferRetry :=
  let connectionId := tn_id (tb_connection body) in
  let parentPath := job_parent (tb_job body) in
  match tb_job body with
  | JobLocalFile _ localPath => LocalFileUpload connectionId policy localPath parentPath
  | JobLocalDirectory _ localPath compress keepArchive =>
      LocalDirectoryUpload (default (fs_compressDirectories (tb_settings body)) compress) connectionId policy
        (default (fs_keepArchives (tb_settings body)) keepArchive) localPath parentPath
  | JobBrowserFile _ item => BrowserFileUpload connectionId policy item parentPath
  | JobBrowserDirectory _ rootName items keepArchive =>
      BrowserDirectoryUpload connectionId policy items (default (fs_keepArchives (tb_settings body)) keepArchive) parentPath rootName
  | JobDownload entry input => RetryDownload entry (download_request now body entry input policy)
  end.

Definition set_retry (now : Z) (body : TaskBody) (policy : RemoteFileTransferConflictPolicy) : transfers → transfers :=
  updateRemoteFileTransfer (tb_id body)
    (mkUpdate None None None None None None None None None (Some (Some (retry_of now body policy))) None None None None None).

Definition call_file (body : TaskBody) (policy : RemoteFileTransferConflictPolicy) (localPath : string) : TransferCall :=
  CallUploadFile (tn_id (tb_connection body)) policy localPath (job_path (tb_job body)) (tb_id body).

Definition call_archive (body : TaskBody) (policy : RemoteFileTransferConflictPolicy) (compress : bool) (keepArchive : option bool)
    (localPath : string) : TransferCall :=
  CallUploadArchive compress (tn_id (tb_connection body)) policy (default (fs_keepArchives (tb_settings body)) keepArchive) localPath
    (job_name (tb_job body)) (job_parent (tb_job body)) (tb_id body).

Definition total_size (items : list RemoteFileUploadItem) : Z := totalUploadBytes items.

Definition preview_download_pulse (entry : TransferEntry) : Pulse :=
  mkPulse 92 8 (tr (if te_directory entry then "workspace.transfer.previewDirectoryDownload" else "workspace.transfer.downloadLocal")) 0.

(** The policy is known: the retry is noted and the work begins. *)
Definition with_policy (now : Z) (body : TaskBody) (policy : RemoteFileTransferConflictPolicy) : Stretch := λ s,
  let id := tb_id body in
  if isTransferNoLongerActive id (tt_controller s) then ends s
  else
    let s := tt_with_items (set_retry now body policy) s in
    let show detail indeterminate progress stage :=
      tt_with_items (progress_of id detail indeterminate progress None (tr stage)) in
    match tb_job body with
    | JobLocalFile _ localPath =>
        waits (AwCall None None) (tt_call [call_file body policy localPath] (show None true 4%Q "workspace.transfer.uploading" s))
    | JobLocalDirectory _ localPath compress keepArchive =>
        let compress := default (fs_compressDirectories (tb_settings body)) compress in
        waits (AwCall None None)
          (tt_call [call_archive body policy compress keepArchive localPath]
             (show None true 4%Q (if compress then "workspace.transfer.packUpload" else "workspace.transfer.scanDirectory") s))
    | JobBrowserFile _ item =>
        waits (AwTemp policy)
          (tt_call [CallPrepareTemp (job_name (tb_job body))]
             (show (Some (bytes_text 0 (uf_size item))) false 4%Q "workspace.transfer.writeUploadCache" s))
    | JobBrowserDirectory _ rootName items _ =>
        waits (AwTemp policy)
          (tt_call [CallPrepareTemp (rootName +:+ ".tar.gz")]
             (show (Some (bytes_text 0 (total_size items))) false 3%Q "workspace.transfer.localTar" s))
    | JobDownload entry input =>
        let request := download_request now body entry input policy in
        if tauri then
          waits (AwCall None None)
            (tt_call [CallDownload request id]
               (show None true 4%Q
                  (if te_directory entry
                   then if default false (dl_compress request) then "workspace.transfer.compressing" else "workspace.transfer.scanDirectory"
                   else "workspace.transfer.prepareDownload") s))
        else
          waits (AwPreview (preview_download_pulse entry))
            (tt_with_items (startTransferProgressPulse id None (preview_download_pulse entry)) s)
    end.

(** [resolveUploadConflictPolicy] and [resolveDownloadConflictPolicy], up to their check. *)
Definition resolve_policy (now : Z) (body : TaskBody) : Stretch := λ s,
  let policy := setting_policy (fs_conflictPolicyDefault (tb_settings body)) in
  if decide (policy ≠ PolicyAsk) then with_policy now body (toRemoteFileConflictPolicy policy) s
  else if negb tauri then with_policy now body PolicyRename s
  else
    let show stage := tt_with_items (progress_of (tb_id body) None true 2%Q None (tr stage)) in
    match tb_job body with
    | JobDownload entry input =>
        waits AwCheck (tt_call [CallCheckTarget (download_options now body entry input)] (show "workspace.transfer.checkLocal" s))
    | job => waits AwCheck (tt_call [CallCheckPath (tn_id (tb_connection body)) (job_path job)] (show "workspace.transfer.checkRemote" s))
    end.

Definition preview_pulse (stage : string) : Pulse := mkPulse 92 8 (tr stage) 0.

(** A task is called. *)
Definition begin_task (now : Z) (body : TaskBody) : Stretch := λ s,
  let preview size stage :=
    let pulse := preview_pulse stage in
    waits (AwPreview pulse) (tt_with_items (startTransferProgressPulse (tb_id body) (Some (bytes_text 0 size)) pulse) s) in
  let ask := match given_policy body with Some policy => with_policy now body policy s | None => resolve_policy now body s end in
  match tb_job body with
  | JobBrowserFile _ item => if tauri then ask else preview (uf_size item) "workspace.transfer.uploading"
  | JobBrowserDirectory _ _ items _ => if tauri then ask else preview (total_size items) "workspace.transfer.uploadExtract"
  | _ => ask
  end.

(** The calls in [tf_runs] that have no await yet begin, in their order. A task that ends at
    once settles at the next event of its own. *)
Fixpoint begin_runs (now : Z) (runs : list (string * nat)) (s : TransferTasks) : TransferTasks :=
  match runs with
  | [] => s
  | (_, task) :: runs =>
      match tt_bodies s !! task with
      | Some body =>
          let (s, outcome) := begin_task now body s in
          begin_runs now runs (tt_with_awaits (tt_awaits s ++ [match outcome with Waits await => await | Ends => AwCall None None end]) s)
      | None => begin_runs now runs (tt_with_awaits (tt_awaits s ++ [AwCall None None]) s)
      end
  end.

(** The tasks that a drained queue started. *)
Definition begin_new (now : Z) (s : TransferTasks) : TransferTasks :=
  begin_runs now (drop (length (tt_awaits s)) (tf_runs (tt_controller s))) s.

(** The call at a position is over: the queue goes on. *)
Definition settle (now : Z) (run : nat) (s : TransferTasks) : TransferTasks :=
  begin_new now (tt_with_awaits (delete run (tt_awaits s)) (tt_with_controller (task_settled now run (λ items, items)) s)).

Definition after_stretch (now : Z) (run : nat) (result : TransferTasks * Outcome) : TransferTasks :=
  match result.2 with
  | Waits await => tt_with_awaits (<[run := await]> (tt_awaits result.1)) result.1
  | Ends => settle now run result.1
  end.

(** The body of the call at a position. *)
Definition run_body (run : nat) (s : TransferTasks) : option TaskBody :=
  entry ← tf_runs (tt_controller s) !! run; tt_bodies s !! entry.2.

(** A call at a position goes on when it waits for that. *)
Definition resume (now : Z) (run : nat) (go : TaskBody → Await → option Stretch) (s : TransferTasks) : TransferTasks :=
  match run_body run s, tt_awaits s !! run with
  | Some body, Some await =>
      match go body await with
      | Some stretch => after_stretch now run (stretch s)
      | None => s
      end
  | _, _ => s
  end.

(** ** Ends *)

(** What the backend reports of a transfer that is over; the local path is that of a download. *)
Record TransferResult := mkResult {
  rs_name : string;
  rs_path : string;
  rs_localPath : string;
  rs_skipped : bool;
}.

Definition finished_update (result : TransferResult) (localPath : option (option string)) (complete : string) : TransferUpdate :=
  mkUpdate None None None None localPath (Some (rs_name result)) (Some 100%Q) (Some (if rs_skipped result then None else Some "100%"))
    (Some false) None (Some (rs_path result)) (Some None)
    (Some (tr (if rs_skipped result then "workspace.transfer.skipped" else complete))) None
    (Some (if rs_skipped result then TsSkipped else TsSuccess)).

(** [finishUploadTransfer] and [finishArchiveUploadTransfer] differ in the stage. *)
Definition finish_upload (complete transferId connectionId : string) (result : TransferResult) (s : TransferTasks) : TransferTasks :=
  if isTransferNoLongerActive transferId (tt_controller s) then s
  else
    triggerRemoteFileRefresh connectionId (parent_path (rs_path result))
      (tt_with_items (updateRemoteFileTransfer transferId (finished_update result None complete)) s).

Definition finishUploadTransfer : string → string → TransferResult → TransferTasks → TransferTasks :=
  finish_upload "workspace.transfer.uploadComplete".
Definition finishArchiveUploadTransfer : string → string → TransferResult → TransferTasks → TransferTasks :=
  finish_upload "workspace.transfer.directoryUploadComplete".

Definition finishDownloadTransfer (transferId : string) (result : TransferResult) (s : TransferTasks) : TransferTasks :=
  if isTransferNoLongerActive transferId (tt_controller s) then s
  else
    tt_with_items (updateRemoteFileTransfer transferId
      (finished_update result (Some (Some (rs_localPath result))) "workspace.transfer.downloadComplete")) s.

Definition finish_transfer (body : TaskBody) (result : TransferResult) : TransferTasks → TransferTasks :=
  match tb_job body with
  | JobLocalFile _ _ | JobBrowserFile _ _ => finishUploadTransfer (tb_id body) (tn_id (tb_connection body)) result
  | JobLocalDirectory _ _ _ _ | JobBrowserDirectory _ _ _ _ => finishArchiveUploadTransfer (tb_id body) (tn_id (tb_connection body)) result
  | JobDownload _ _ => finishDownloadTransfer (tb_id body) result
  end.

(** What a browser without the backend shows. *)
Definition preview_result (job : TransferJob) : TransferResult :=
  match job with
  | JobDownload entry _ =>
      let localDirectory := "Downloads\" +:+ sanitizeLocalSegment (te_name entry) +:+ "\preview" in
      mkResult (te_name entry) (te_path entry) (localDirectory +:+ "\" +:+ te_name entry) false
  | _ => mkResult (file_name (job_path job)) (normalize_path_string (job_path job)) "" false
  end.

(** ** Answers *)

Definition task_failed (body : TaskBody) (stage : string) (localPath : option string) (error : TransferError) : Stretch := λ s,
  ends (delete_temp localPath (tt_with_items (fail_transfer (tb_id body) stage error) s)).

(** [remoteFileCheckPath] and [remoteFileCheckDownloadTarget]: an error, nothing there, or
    the name and the path that exist. *)
Definition checked (now : Z) (task : nat) (result : TransferError + option (string * string)) (body : TaskBody) (await : Await) : option Stretch :=
  match await with
  | AwCheck =>
      Some (match result with
      | inl error =>
          task_failed body (tr (if job_upload (tb_job body) then "workspace.transfer.checkRemoteFailed" else "workspace.transfer.checkLocalFailed")) None error
      | inr None => with_policy now body PolicyRename
      | inr (Some (name, path)) => λ s,
          let prompt :=
            if job_upload (tb_job body)
            then mkPrompt task (file_name (job_path (tb_job body))) (tr_with "workspace.transfer.remoteExists" path)
            else mkPrompt task name (tr_with "workspace.transfer.localExists" path) in
          waits AwPrompt (tt_with_prompt (Some prompt) s)
      end)
  | _ => None
  end.

(** The promise of the dialog: an answer, or that the transfer is not wanted. *)
Definition chosen (now : Z) (choice : option ConflictChoice) (body : TaskBody) (await : Await) : option Stretch :=
  match await with
  | AwPrompt =>
      Some (match choice with
      | Some choice => with_policy now body (choice_policy choice)
      | None => λ s, ends (tt_with_items (markTransferCanceled tr (tb_id body)) s)
      end)
  | _ => None
  end.

Definition temp_made (result : TransferError + string) (body : TaskBody) (await : Await) : option Stretch :=
  match await with
  | AwTemp policy =>
      Some (match result with
      | inl error => task_failed body (job_failed (tb_job body)) None error
      | inr localPath => λ s, waits (AwCache policy localPath) (tt_with_temps (localPath :: tt_temps s) s)
      end)
  | _ => None
  end.

(** What the writing of a temporary file reports: bytes that were read, and for an archive
    the bytes of its compressed stream. *)
Record CacheReport := mkReport {
  cr_compress : bool;
  cr_loaded : Z;
  cr_archive : Z;
  cr_speed : option string;
}.

Definition cache_reported (report : CacheReport) (body : TaskBody) (await : Await) : option Stretch :=
  match await with
  | AwCache policy localPath => Some (λ s,
      let show detail progress stage :=
        waits await (tt_with_items (progress_of (tb_id body) (Some detail) false progress (cr_speed report) (tr stage)) s) in
      match tb_job body with
      | JobBrowserDirectory _ _ items _ =>
          if cr_compress report
          then show (tr_with "workspace.transfer.archiveSize" (size_text (cr_archive report))) 34%Q "workspace.transfer.compressTar"
          else show (bytes_text (cr_loaded report) (total_size items)) (interpolateTransferProgress 3 32 (cr_loaded report) (total_size items))
                 "workspace.transfer.localTar"
      | JobBrowserFile _ item =>
          show (bytes_text (cr_loaded report) (uf_size item)) (interpolateTransferProgress 4 34 (cr_loaded report) (uf_size item))
            "workspace.transfer.writeUploadCache"
      | _ => waits await s
      end)
  | _ => None
  end.

(** The temporary file is written; an archive has a size. *)
Definition cache_written (result : TransferError + Z) (body : TaskBody) (await : Await) : option Stretch :=
  match await with
  | AwCache policy localPath =>
      Some (match result, tb_job body with
      | inl error, job => task_failed body (job_failed job) (Some localPath) error
      | inr archiveSize, JobBrowserDirectory _ _ _ keepArchive => λ s,
          let pulse := mkPulse 92 38 (tr "workspace.transfer.uploadExtract") 0 in
          waits (AwCall (Some localPath) (Some pulse))
            (tt_call [call_archive body policy true keepArchive localPath]
               (tt_with_items (startTransferProgressPulse (tb_id body)
                  (Some (tr_with "workspace.transfer.archiveSize" (size_text archiveSize))) pulse) s))
      | inr _, JobBrowserFile _ item => λ s,
          waits (AwCall (Some localPath) None)
            (tt_call [call_file body policy localPath]
               (tt_with_items (progress_of (tb_id body) (Some (bytes_text 0 (uf_size item))) false 36%Q None
                  (tr "workspace.transfer.uploading")) s))
      | inr _, _ => waits await
      end)
  | _ => None
  end.

Definition pulsed (body : TaskBody) (await : Await) : option Stretch :=
  match await with
  | AwCall localPath (Some pulse) => Some (λ s,
      waits (AwCall localPath (Some (next_tick pulse))) (tt_with_items (pulse_tick (tb_id body) (next_tick pulse)) s))
  | AwPreview pulse => Some (λ s, waits (AwPreview (next_tick pulse)) (tt_with_items (pulse_tick (tb_id body) (next_tick pulse)) s))
  | _ => None
  end.

Definition called (result : TransferError + TransferResult) (body : TaskBody) (await : Await) : option Stretch :=
  match await with
  | AwCall localPath _ =>
      Some (match result with
      | inl error => task_failed body (job_failed (tb_job body)) localPath error
      | inr result => λ s, ends (delete_temp localPath (finish_transfer body result s))
      end)
  | _ => None
  end.

Definition previewed (body : TaskBody) (await : Await) : option Stretch :=
  match await with
  | AwPreview _ => Some (λ s, ends (finish_transfer body (preview_result (tb_job body)) s))
  | _ => None
  end.

(** ** Starting transfers *)

Record TransferRunOptions := mkOptions {
  op_connection : option TransferConnection;
  op_policy : option RemoteFileTransferConflictPolicy;
  op_transferId : option string;
}.

Definition no_options : TransferRunOptions := mkOptions None None None.

(** What the five functions that run a transfer share. *)
Definition run_transfer (now : Z) (rd : TransferRead) (connection : option TransferConnection) (job : TransferJob) (options : TransferRunOptions)
    (s : TransferTasks) : TransferTasks :=
  match connection with
  | None =>
      match op_transferId options with
      | Some transferId => tt_with_items (fail_transfer transferId (tr "workspace.transfer.retryFailed") connection_missing) s
      | None => s
      end
  | Some connection =>
      let input :=
        mkAdd (Some (tn_id connection)) (if job_upload job then DirUpload else DirDownload) (job_kind job) (job_name job) (Some 0%Q) None None
          (job_path job) None None (job_waiting job) in
      let transferId := default (fresh (tt_ids s)) (op_transferId options) in
      let s :=
        match op_transferId options with
        | Some transferId => tt_with_items (prepareTransferRetry transferId (tr "workspace.transfer.prepareRetry") now) s
        | None => tt_next_id (tt_with_items (addRemoteFileTransfer transferId now input) s)
        end in
      let task := length (tt_bodies s) in
      begin_new now
        (tt_with_controller (enqueueRemoteFileTransfer now transferId task)
           (tt_add_body (mkTask transferId connection job (op_policy options) (tx_settings rd)) s))
  end.

Definition upload_connection (rd : TransferRead) (options : TransferRunOptions) : option TransferConnection :=
  match op_connection options with Some connection => Some connection | None => tx_active rd end.

Definition runLocalFileUpload now rd parentPath localPath options : TransferTasks → TransferTasks :=
  run_transfer now rd (upload_connection rd options) (JobLocalFile parentPath localPath) options.
Definition runLocalDirectoryUpload now rd parentPath localPath compress keepArchive options : TransferTasks → TransferTasks :=
  run_transfer now rd (upload_connection rd options) (JobLocalDirectory parentPath localPath compress keepArchive) options.
Definition runSingleFileUpload now rd parentPath item options : TransferTasks → TransferTasks :=
  run_transfer now rd (upload_connection rd options) (JobBrowserFile parentPath item) options.
Definition runDirectoryUpload now rd parentPath rootName items keepArchive options : TransferTasks → TransferTasks :=
  run_transfer now rd (upload_connection rd options) (JobBrowserDirectory parentPath rootName items keepArchive) options.

(** [connectionForTransfer] for the connection of a given input. *)
Definition runRemoteFileDownload now rd entry (input : option RemoteFileDownloadToLocalInput) options : TransferTasks → TransferTasks :=
  run_transfer now rd
    (match input with Some input => tx_connections rd !! dl_connectionId input | None => tx_active rd end) (JobDownload entry input) options.

Definition each {A} (run : A → TransferTasks → TransferTasks) (items : list A) (s : TransferTasks) : TransferTasks :=
  foldl (λ s item, run item s) s items.

Definition uploadRemoteItems (now : Z) (rd : TransferRead) (parentPath : string) (items : list RemoteFileUploadItem) (s : TransferTasks) : TransferTasks :=
  if bool_decide (tx_active rd = None) || bool_decide (items = []) then s
  else
    let normalizedParent := normalize_path_string parentPath in
    let s := each (λ item, runSingleFileUpload now rd normalizedParent item no_options) (direct_files items) s in
    each (λ group, runDirectoryUpload now rd normalizedParent (from_js group.1) group.2 None no_options) (groupUploadDirectories items) s.

(** The choice of local paths was made, by the picker of files or of directories. *)
Definition uploadRemoteFile (now : Z) (rd : TransferRead) (parentPath : string) (paths : list string) (s : TransferTasks) : TransferTasks :=
  if decide (tx_active rd = None) then s else each (λ path, runLocalFileUpload now rd parentPath path no_options) paths s.
Definition uploadRemoteDirectory (now : Z) (rd : TransferRead) (parentPath : string) (paths : list string) (s : TransferTasks) : TransferTasks :=
  if decide (tx_active rd = None) then s
  else each (λ path, runLocalDirectoryUpload now rd parentPath path None None no_options) paths s.

Definition showTransferPickerError (now : Z) (action parentPath : string) (error : TransferError) (s : TransferTasks) : TransferTasks :=
  let transferId := fresh (tt_ids s) in
  let input :=
    mkAdd None DirUpload Transfers.KindFile action (Some 100%Q) None None parentPath None None (tr "workspace.transfer.selectionFailed") in
  tt_next_id
    (tt_with_items (updateRemoteFileTransfer transferId
       (mkUpdate None None (Some (Some (er_short error))) None None None None None (Some false) None None None None None (Some TsError)))
       (tt_with_items (addRemoteFileTransfer transferId now input) s)).

(** The metadata of a dropped path: an error, another kind, or a directory or a file. *)
Inductive DroppedPath := DroppedError (error : TransferError) | DroppedOther | DroppedDirectory (path : string) | DroppedFile (path : string).

Definition uploadNativeDroppedPath (now : Z) (rd : TransferRead) (parentPath localPath : string) (metadata : DroppedPath) : TransferTasks → TransferTasks :=
  match metadata with
  | DroppedError error => showTransferPickerError now "Drop upload" parentPath error
  | DroppedOther =>
      let message := "Unsupported local path: " +:+ localPath in
      showTransferPickerError now "Unsupported local item" parentPath (mkTransferError None message message)
  | DroppedDirectory path => runLocalDirectoryUpload now rd parentPath path None None no_options
  | DroppedFile path => runLocalFileUpload now rd parentPath path no_options
  end.

Definition downloadRemoteFiles (now : Z) (rd : TransferRead) (entries : list TransferEntry) (s : TransferTasks) : TransferTasks :=
  if decide (tx_active rd = None) then s else each (λ entry, runRemoteFileDownload now rd entry None no_options) entries s.

Definition retry_connection (retry : RemoteFileTransferRetry) : option string :=
  match retry with
  | LocalFileUpload id _ _ _ | LocalDirectoryUpload _ id _ _ _ _ | BrowserFileUpload id _ _ _ | BrowserDirectoryUpload id _ _ _ _ _ => Some id
  | RetryDownload _ _ => None
  end.

Definition retryRemoteFileTransfer (now : Z) (rd : TransferRead) (transferId : string) (s : TransferTasks) : TransferTasks :=
  match getRemoteFileTransfer transferId (tf_items (tt_controller s)) with
  | None => s
  | Some item =>
      match ti_retry item with
      | None => s
      | Some retry =>
          if decide (ti_status item ≠ TsError) then s
          else
            let connection := retry_connection retry ≫= λ id, tx_connections rd !! id in
            let options policy := mkOptions connection policy (Some transferId) in
            if bool_decide (is_Some (retry_connection retry)) && bool_decide (connection = None)
            then tt_with_items (fail_transfer transferId (tr "workspace.transfer.retryFailed") connection_missing) s
            else
              match retry with
              | LocalFileUpload _ policy localPath parentPath => runLocalFileUpload now rd parentPath localPath (options (Some policy)) s
              | LocalDirectoryUpload compress _ policy keepArchive localPath parentPath =>
                  runLocalDirectoryUpload now rd parentPath localPath (Some compress) (Some keepArchive) (options (Some policy)) s
              | BrowserFileUpload _ policy item parentPath => runSingleFileUpload now rd parentPath item (options (Some policy)) s
              | BrowserDirectoryUpload _ policy items keepArchive parentPath rootName =>
                  runDirectoryUpload now rd parentPath rootName items (Some keepArchive) (options (Some policy)) s
              | RetryDownload entry input => runRemoteFileDownload now rd entry (Some input) (options None) s
              end
      end
  end.

(** [settleTransferConflictPrompt]: the dialog closes and its task goes on. *)
Definition settleTransferConflictPrompt (now : Z) (choice : option ConflictChoice) (s : TransferTasks) : TransferTasks :=
  match tt_prompt s with
  | None => s
  | Some prompt =>
      let s := tt_with_prompt None s in
      match list_find (λ entry : string * nat, entry.2 = cp_task prompt) (tf_runs (tt_controller s)) with
      | Some (run, _) => resume now run (chosen now choice) s
      | None => s
      end
  end.

(** ** Events *)

Inductive TaskEvent :=
  | TkUploadFiles (now : Z) (rd : TransferRead) (parentPath : string) (paths : list string)
  | TkUploadDirectories (now : Z) (rd : TransferRead) (parentPath : string) (paths : list string)
  | TkUploadItems (now : Z) (rd : TransferRead) (parentPath : string) (items : list RemoteFileUploadItem)
  | TkPickerFailed (now : Z) (action parentPath : string) (error : TransferError)
  | TkDropped (now : Z) (rd : TransferRead) (parentPath localPath : string) (metadata : DroppedPath)
  | TkDownload (now : Z) (rd : TransferRead) (entries : list TransferEntry)
  | TkRetry (now : Z) (rd : TransferRead) (transferId : string)
  | TkCancel (transferId : string)
  | TkRemove (transferId : string)
  | TkClearFinished
  | TkRebind (fromConnectionId toConnectionId : string)
  | TkLimit (now : Z) (concurrentTransfers : Z)
  | TkProgress (event : RemoteFileTransferProgressEvent)
  | TkFlush (now : Z)
  | TkChecked (now : Z) (run : nat) (result : TransferError + option (string * string))
  | TkChosen (now : Z) (choice : option ConflictChoice)
  | TkTemp (now : Z) (run : nat) (result : TransferError + string)
  | TkCached (run : nat) (report : CacheReport)
  | TkCacheWritten (now : Z) (run : nat) (result : TransferError + Z)
  | TkPulse (run : nat)
  | TkCalled (now : Z) (run : nat) (result : TransferError + TransferResult)
  | TkPreviewed (now : Z) (run : nat).

Definition task_step (s : TransferTasks) (event : TaskEvent) : TransferTasks :=
  match event with
  | TkUploadFiles now rd parentPath paths => uploadRemoteFile now rd parentPath paths s
  | TkUploadDirectories now rd parentPath paths => uploadRemoteDirectory now rd parentPath paths s
  | TkUploadItems now rd parentPath items => uploadRemoteItems now rd parentPath items s
  | TkPickerFailed now action parentPath error => showTransferPickerError now action parentPath error s
  | TkDropped now rd parentPath localPath metadata => uploadNativeDroppedPath now rd parentPath localPath metadata s
  | TkDownload now rd entries => downloadRemoteFiles now rd entries s
  | TkRetry now rd transferId => retryRemoteFileTransfer now rd transferId s
  | TkCancel transferId => tt_with_controller (requestCancelTransfer tr tauri transferId) s
  | TkRemove transferId => tt_with_controller (removeTransfer transferId) s
  | TkClearFinished => tt_with_items clearFinishedTransfers s
  | TkRebind from to => tt_with_items (rebindRemoteFileTransferConnection from to) s
  | TkLimit now n => begin_new now (tt_with_controller (setConcurrentTransfers now n) s)
  | TkProgress event => tt_with_controller (queueRemoteTransferProgress event) s
  | TkFlush now => tt_with_controller (flushTransferProgress tr tr_with to_string to_fixed1 now) s
  | TkChecked now run result =>
      resume now run (checked now (default 0 (snd <$> tf_runs (tt_controller s) !! run)) result) s
  | TkChosen now choice => settleTransferConflictPrompt now choice s
  | TkTemp now run result => resume now run (temp_made result) s
  | TkCached run report => resume 0 run (cache_reported report) s
  | TkCacheWritten now run result => resume now run (cache_written result) s
  | TkPulse run => resume 0 run pulsed s
  | TkCalled now run result => resume now run (called result) s
  | TkPreviewed now run => resume now run previewed s
  end.

Definition task_run (concurrentTransfers : Z) (events : list TaskEvent) : TransferTasks :=
  foldl task_step (initialTransferTasks concurrentTransfers) events.
End tasks.

(** ** Lemmas: the queue *)

(** The tasks that a drained queue starts were noted. *)
Lemma drain_new now queue c :
  ∃ new, tf_runs (drain_loop now queue c) = tf_runs c ++ new ∧ Forall (λ e, e ∈ tf_tasks c) new ∧
    tf_tasks (drain_loop now queue c) ⊆ tf_tasks c.
Proof.
  revert c. induction queue as [|id rest IH]; intros c; cbn [drain_loop].
  { exists []. rewrite app_nil_r. done. }
  destruct (_ <? _)%Z; [|exists []; by rewrite app_nil_r]. case_decide; [apply IH|].
  assert (∃ new, tf_runs (drain_loop now rest (tf_with_queue (tf_queue c) (task_delete id (tf_tasks c)) c)) = tf_runs c ++ new ∧
    Forall (λ e, e ∈ tf_tasks c) new ∧ tf_tasks (drain_loop now rest (tf_with_queue (tf_queue c) (task_delete id (tf_tasks c)) c)) ⊆ tf_tasks c) as Hskip.
  { destruct (IH (tf_with_queue (tf_queue c) (task_delete id (tf_tasks c)) c)) as (new & H1 & H2 & H3). cbn in H1, H2, H3.
    assert (task_delete id (tf_tasks c) ⊆ tf_tasks c) as Hs by (intros e [_ He]%list_elem_of_filter; done).
    exists new. split_and!; [done| |by etrans]. eapply Forall_impl; [done|]. intros e He. by apply Hs. }
  cbv zeta. destruct (jsmap_get id (tf_tasks c)) as [task|] eqn:Et; [|done].
  destruct (match getRemoteFileTransfer id (tf_items c) with Some item => _ | None => true end); [|done].
  destruct (IH (start_task now id task c)) as (new & H1 & H2 & H3). cbn in H1, H2, H3.
  exists ((id, task) :: new). split_and!; [by rewrite H1, <- app_assoc| |done]. constructor; [by apply jsmap_get_elem|done].
Qed.

(** ** Lemmas: the tasks that are made *)

Section bodies.
Context (tr : string → string) (tr_with : string → string → string).
Context (to_string to_fixed1 : Q → string) (local_date : Z → DateParts) (tauri : bool) (fresh : nat → string).

Lemma with_policy_bodies now body policy s :
  tt_bodies (with_policy tr to_string to_fixed1 local_date tauri now body policy s).1 = tt_bodies s.
Proof. unfold with_policy. destruct (isTransferNoLongerActive _ _); [done|]. destruct (tb_job body); try done. by destruct tauri. Qed.

Lemma begin_task_bodies now body s :
  tt_bodies (begin_task tr to_string to_fixed1 local_date tauri now body s).1 = tt_bodies s.
Proof.
  unfold begin_task. assert (tt_bodies (match given_policy body with
    | Some policy => with_policy tr to_string to_fixed1 local_date tauri now body policy s
    | None => resolve_policy tr to_string to_fixed1 local_date tauri now body s end).1 = tt_bodies s) as Hask.
  { destruct (given_policy body); [apply with_policy_bodies|]. unfold resolve_policy. case_decide; [apply with_policy_bodies|].
    destruct (negb tauri); [apply with_policy_bodies|]. by destruct (tb_job body). }
  destruct (tb_job body); try done; by destruct tauri.
Qed.

Lemma begin_runs_bodies now runs s : tt_bodies (begin_runs tr to_string to_fixed1 local_date tauri now runs s) = tt_bodies s.
Proof.
  revert s. induction runs as [|[id task] runs IH]; intros s; cbn [begin_runs]; [done|].
  destruct (tt_bodies s !! task) as [body|]; [|by rewrite IH].
  pose proof (begin_task_bodies now body s) as H. destruct (begin_task _ _ _ _ _ _ _ s) as [s' o]. rewrite IH. exact H.
Qed.

Lemma settle_bodies now run s : tt_bodies (settle tr to_string to_fixed1 local_date tauri now run s) = tt_bodies s.
Proof. unfold settle, begin_new. by rewrite begin_runs_bodies. Qed.

(** An answer makes no task. *)
Definition keeps_bodies (go : TaskBody → Await → option Stretch) : Prop :=
  ∀ body a stretch s, go body a = Some stretch → tt_bodies (stretch s).1 = tt_bodies s.

Lemma resume_bodies now run go s :
  keeps_bodies go → tt_bodies (resume tr to_string to_fixed1 local_date tauri now run go s) = tt_bodies s.
Proof.
  intros Hgo. unfold resume. destruct (run_body run s) as [body|]; [|done]. destruct (tt_awaits s !! run) as [a|]; [|done].
  destruct (go body a) as [stretch|] eqn:Eg; [|done]. rewrite <- (Hgo _ _ _ s Eg). unfold after_stretch.
  destruct (stretch s).2; [done|apply settle_bodies].
Qed.

Lemma delete_temp_bodies path s : tt_bodies (delete_temp path s) = tt_bodies s.
Proof. by destruct path. Qed.

Lemma finish_bodies body result s : tt_bodies (finish_transfer tr body result s) = tt_bodies s.
Proof.
  unfold finish_transfer, finishUploadTransfer, finishArchiveUploadTransfer, finish_upload, finishDownloadTransfer.
  destruct (tb_job body); by destruct (isTransferNoLongerActive _ _).
Qed.

Lemma answers_keep :
  (∀ now task result, keeps_bodies (checked tr tr_with to_string to_fixed1 local_date tauri now task result)) ∧
  (∀ now choice, keeps_bodies (chosen tr to_string to_fixed1 local_date tauri now choice)) ∧
  (∀ result, keeps_bodies (temp_made tr tr_with result)) ∧
  (∀ report, keeps_bodies (cache_reported tr tr_with to_string to_fixed1 report)) ∧
  (∀ result, keeps_bodies (cache_written tr tr_with to_string to_fixed1 result)) ∧
  keeps_bodies pulsed ∧ (∀ result, keeps_bodies (called tr tr_with result)) ∧ keeps_bodies (previewed tr).
Proof.
  split_and!; intros; intros body a stretch s Hgo; destruct a as [| | | |path pulse|]; try done; cbn in Hgo; try (injection Hgo as <-).
  - destruct result as [error|[[name path]|]]; [done|done|apply with_policy_bodies].
  - destruct choice; [apply with_policy_bodies|done].
  - by destruct result.
  - destruct (tb_job body); try done. by destruct (cr_compress report).
  - destruct result; [done|]. by destruct (tb_job body).
  - destruct pulse; [|done]. by injection Hgo as <-.
  - done.
  - destruct result; cbn; rewrite delete_temp_bodies; [done|apply finish_bodies].
  - cbn. apply finish_bodies.
Qed.

(** The tasks that an operation makes are of a kind. *)
Definition adds (P : TaskBody → Prop) (s s' : TransferTasks) : Prop :=
  ∃ new, tt_bodies s' = tt_bodies s ++ new ∧ Forall P new.

#[export] Instance adds_preorder P : PreOrder (adds P).
Proof.
  split; [intros s; exists []; by rewrite app_nil_r|]. intros s1 s2 s3 (n1 & H1 & F1) (n2 & H2 & F2). exists (n1 ++ n2).
  split; [by rewrite H2, H1, app_assoc|]. by apply Forall_app.
Qed.

Lemma adds_none P s s' : tt_bodies s' = tt_bodies s → adds P s s'.
Proof. intros H. exists []. by rewrite app_nil_r. Qed.

Lemma adds_prefix P s s' : adds P s s' → tt_bodies s `prefix_of` tt_bodies s'.
Proof. intros (new & -> & _). by apply prefix_app_r. Qed.

Lemma each_adds {A} P (run : A → TransferTasks → TransferTasks) (items : list A) s :
  (∀ item s, adds P s (run item s)) → adds P s (each run items s).
Proof. intros Hrun. revert s. induction items as [|item items IH]; intros s; [done|]. etrans; [apply Hrun|apply IH]. Qed.

Lemma each_bodies {A} (run : A → TransferTasks → TransferTasks) (items : list A) s :
  (∀ item s, tt_bodies s `prefix_of` tt_bodies (run item s)) → tt_bodies s `prefix_of` tt_bodies (each run items s).
Proof. intros Hrun. revert s. induction items as [|item items IH]; intros s; [done|]. etrans; [apply Hrun|apply IH]. Qed.

Lemma run_transfer_bodies now rd connection job options s :
  tt_bodies (run_transfer tr tr_with to_string to_fixed1 local_date tauri fresh now rd connection job options s) =
    tt_bodies s ++ match connection with
    | Some connection =>
        [mkTask (default (fresh (tt_ids s)) (op_transferId options)) connection job (op_policy options) (tx_settings rd)]
    | None => []
    end.
Proof.
  unfold run_transfer. destruct connection as [connection|]; [|rewrite app_nil_r; by destruct (op_transferId options)].
  unfold begin_new. rewrite begin_runs_bodies. by destruct (op_transferId options).
Qed.

(** A task keeps the settings that were read when it was made. *)
Definition made_with (rd : TransferRead) (body : TaskBody) : Prop := tb_settings body = tx_settings rd.

Lemma run_transfer_adds now rd connection job options s :
  adds (made_with rd) s (run_transfer tr tr_with to_string to_fixed1 local_date tauri fresh now rd connection job options s).
Proof. eexists. split; [apply run_transfer_bodies|]. destruct connection; by repeat constructor. Qed.

Definition event_read (event : TaskEvent) : option TransferRead :=
  match event with
  | TkUploadFiles _ rd _ _ | TkUploadDirectories _ rd _ _ | TkUploadItems _ rd _ _ | TkDropped _ rd _ _ _ | TkDownload _ rd _ | TkRetry _ rd _ => Some rd
  | _ => None
  end.

Lemma task_step_bodies s event :
  adds (λ body, ∃ rd, event_read event = Some rd ∧ made_with rd body) s
    (task_step tr tr_with to_string to_fixed1 local_date tauri fresh s event).
Proof.
  assert (∀ rd s s', event_read event = Some rd → adds (made_with rd) s s' →
    adds (λ body, ∃ rd, event_read event = Some rd ∧ made_with rd body) s s') as Hw.
  { intros rd s0 s1 Hrd (new & Hn & Hf). exists new. split; [done|]. eapply Forall_impl; [exact Hf|]. eauto. }
  destruct answers_keep as (A1 & A2 & A3 & A4 & A5 & A6 & A7 & A8).
  destruct event; cbn [task_step];
    try (apply adds_none; first [done|by apply resume_bodies]); try (eapply Hw; [done|]).
  - unfold uploadRemoteFile. case_decide; [done|]. apply each_adds. intros. apply run_transfer_adds.
  - unfold uploadRemoteDirectory. case_decide; [done|]. apply each_adds. intros. apply run_transfer_adds.
  - unfold uploadRemoteItems. destruct (_ || _); [done|]. cbv zeta.
    match goal with |- adds _ _ (each _ _ ?s1) => transitivity s1 end; apply each_adds; intros; apply run_transfer_adds.
  - unfold uploadNativeDroppedPath. destruct metadata; try by apply adds_none. all: apply run_transfer_adds.
  - unfold downloadRemoteFiles. case_decide; [done|]. apply each_adds. intros. apply run_transfer_adds.
  - unfold retryRemoteFileTransfer. destruct (getRemoteFileTransfer _ _); [|done]. destruct (ti_retry _) as [retry|]; [|done].
    case_decide; [done|]. destruct (_ && _); [by apply adds_none|]. destruct retry; apply run_transfer_adds.
  - apply adds_none. unfold begin_new. by rewrite begin_runs_bodies.
  - apply adds_none. unfold settleTransferConflictPrompt. destruct (tt_prompt s); [|done].
    destruct (list_find _ _) as [[run e]|]; [|done]. by rewrite resume_bodies.
Qed.

Lemma task_run_reads n events body :
  body ∈ tt_bodies (task_run tr tr_with to_string to_fixed1 local_date tauri fresh n events) →
  ∃ event rd, event ∈ events ∧ event_read event = Some rd ∧ tb_settings body = tx_settings rd.
Proof.
  induction events as [|event events IH] using rev_ind; [by intros ?%not_elem_of_nil|].
  unfold task_run in *. rewrite foldl_app. cbn [foldl].
  destruct (task_step_bodies (foldl (task_step tr tr_with to_string to_fixed1 local_date tauri fresh) (initialTransferTasks n) events) event)
    as (new & -> & Hnew). intros [Hb|Hb]%elem_of_app.
  - destruct (IH Hb) as (e & rd & He & Hr). exists e, rd. split; [set_solver|done].
  - rewrite Forall_forall in Hnew. destruct (Hnew body Hb) as (rd & Hr & Hm). exists event, rd. split; [set_solver|done].
Qed.
End bodies.

Section invariant.
Context (tr : string → string) (tr_with : string → string → string).
Context (to_string to_fixed1 : Q → string) (local_date : Z → DateParts) (tauri : bool) (fresh : nat → string).
(** The policies that a transfer may use. *)
Context (allowed : string → RemoteFileTransferConflictPolicy → Prop) (rename_allowed : ∀ id, allowed id PolicyRename).

(** ** Lemmas: policies *)

Definition retry_policy (retry : RemoteFileTransferRetry) : option RemoteFileTransferConflictPolicy :=
  match retry with
  | LocalFileUpload _ policy _ _ | LocalDirectoryUpload _ _ policy _ _ _ | BrowserFileUpload _ policy _ _ | BrowserDirectoryUpload _ policy _ _ _ _ =>
      Some policy
  | RetryDownload _ input => dl_conflictPolicy input
  end.

(** The transfer that a call is for, with its policy: a download may come without one. *)
Definition call_transfer (call : TransferCall) : option (string * option RemoteFileTransferConflictPolicy) :=
  match call with
  | CallUploadFile _ policy _ _ id | CallUploadArchive _ _ policy _ _ _ _ id => Some (id, Some policy)
  | CallDownload request id => Some (id, dl_conflictPolicy request)
  | _ => None
  end.

Definition await_policy (await : Await) : option RemoteFileTransferConflictPolicy :=
  match await with AwTemp policy | AwCache policy _ => Some policy | _ => None end.

Definition await_temp (await : Await) : option string :=
  match await with AwCache _ path => Some path | AwCall path _ => path | _ => None end.

Definition may (id : string) (policy : option RemoteFileTransferConflictPolicy) : Prop := ∀ p, policy = Some p → allowed id p.
Definition must (id : string) (policy : option RemoteFileTransferConflictPolicy) : Prop := ∃ p, policy = Some p ∧ allowed id p.

(** The settings that a task was made with may be used by it. *)
Definition setting_ok (body : TaskBody) : Prop :=
  setting_policy (fs_conflictPolicyDefault (tb_settings body)) ≠ PolicyAsk →
  allowed (tb_id body) (setting_policy (fs_conflictPolicyDefault (tb_settings body))).

(** A download that is tried again knows its policy. *)
Record body_ok (body : TaskBody) : Prop := {
  bk_given : may (tb_id body) (given_policy body);
  bk_input : ∀ entry input, tb_job body = JobDownload entry (Some input) → is_Some (dl_conflictPolicy input);
  bk_setting : setting_ok body;
}.

Definition item_ok (item : RemoteFileTransferItem) : Prop :=
  ∀ retry, ti_retry item = Some retry → must (ti_id item) (retry_policy retry).

Definition call_ok (call : TransferCall) : Prop := ∀ id policy, call_transfer call = Some (id, policy) → must id policy.

Record data_ok (s : TransferTasks) : Prop := {
  dk_items : Forall item_ok (tf_items (tt_controller s));
  dk_bodies : Forall body_ok (tt_bodies s);
  dk_calls : Forall call_ok (tt_calls s);
}.

(** What a stretch leaves alone. *)
Record frame (s s' : TransferTasks) : Prop := {
  fr_queue : tf_queue (tt_controller s') = tf_queue (tt_controller s);
  fr_running : tf_running (tt_controller s') = tf_running (tt_controller s);
  fr_tasks : tf_tasks (tt_controller s') = tf_tasks (tt_controller s);
  fr_runs : tf_runs (tt_controller s') = tf_runs (tt_controller s);
  fr_limit : tf_concurrency (tt_controller s') = tf_concurrency (tt_controller s);
  fr_bodies : tt_bodies s' = tt_bodies s;
  fr_awaits : tt_awaits s' = tt_awaits s;
}.

#[local] Instance frame_preorder : PreOrder frame.
Proof. split; [by intros s; constructor|]. intros a b c [] []. constructor; congruence. Qed.

Lemma frame_items f s : frame s (tt_with_items f s).
Proof. done. Qed.
Lemma frame_call calls s : frame s (tt_call calls s).
Proof. done. Qed.

Lemma update_items_ok id u items :
  Forall item_ok items → (∀ retry, up_retry u = Some (Some retry) → must id (retry_policy retry)) →
  Forall item_ok (updateRemoteFileTransfer id u items).
Proof.
  intros Hi Hu. destruct (update_items id u items) as (H & _ & _). apply Forall_forall. intros x Hx.
  destruct (H x Hx) as (y & Hy & ->). rewrite Forall_forall in Hi. specialize (Hi y Hy). case_decide as Hid; [done|].
  unfold item_ok. cbn. destruct (up_retry u) as [[r|]|]; [|done|exact Hi].
  intros retry [= <-]. rewrite Hid. by apply Hu.
Qed.

Lemma may_none id : may id None.
Proof. by intros p. Qed.

Lemma must_some id p : allowed id p → must id (Some p).
Proof. by exists p. Qed.

Lemma call_ok_other call : call_transfer call = None → call_ok call.
Proof. intros H id policy. by rewrite H. Qed.

Lemma data_items f s : data_ok s → Forall item_ok (f (tf_items (tt_controller s))) → data_ok (tt_with_items f s).
Proof. intros [] ?. by constructor. Qed.

Lemma data_update id u s : data_ok s → up_retry u = None → data_ok (tt_with_items (updateRemoteFileTransfer id u) s).
Proof. intros Hs Hu. apply data_items; [done|]. destruct Hs. apply update_items_ok; [done|]. by rewrite Hu. Qed.

Lemma data_refresh id path s : data_ok s → data_ok (triggerRemoteFileRefresh id path s).
Proof. intros []. by constructor. Qed.

Lemma data_call calls s : data_ok s → Forall call_ok calls → data_ok (tt_call calls s).
Proof. intros [] ?. constructor; [done..|]. cbn. by apply Forall_app. Qed.

Lemma data_fail id stage error s : data_ok s → data_ok (tt_with_items (fail_transfer tr tr_with id stage error) s).
Proof.
  intros Hs. apply data_items; [done|]. unfold fail_transfer, failTransfer, markTransferCanceled. destruct Hs.
  case_decide; [done|]. destruct (isTransferCanceledError error); by apply update_items_ok.
Qed.

Lemma data_delete_temp path s : data_ok s → data_ok (delete_temp path s).
Proof.
  intros Hs. destruct path as [p|]; [|done]. apply data_call; [by destruct Hs; constructor|]. constructor; [by apply call_ok_other|done].
Qed.

(** The outcome of a stretch from a call that waited for [a]. *)
Definition outcome_temp (outcome : Outcome) : option string := match outcome with Waits await => await_temp await | Ends => None end.
Definition outcome_policy (outcome : Outcome) : option RemoteFileTransferConflictPolicy :=
  match outcome with Waits await => await_policy await | Ends => None end.

Record stretch_ok (id : string) (a : option string) (s : TransferTasks) (result : TransferTasks * Outcome) : Prop := {
  so_frame : frame s result.1;
  so_data : data_ok result.1;
  so_policy : may id (outcome_policy result.2);
  so_temps : ∀ p, p ∈ tt_temps result.1 → outcome_temp result.2 = Some p ∨ p ∈ tt_temps s ∧ a ≠ Some p;
}.

Lemma request_policy now body entry input policy :
  tb_job body = JobDownload entry input → body_ok body → allowed (tb_id body) policy →
  must (tb_id body) (dl_conflictPolicy (download_request local_date now body entry input policy)).
Proof.
  intros Hj [Hg Hi _] Hp. destruct input as [input|]; cbn; [|by apply must_some].
  destruct (Hi entry input Hj) as [q Hq]. exists q. split; [done|]. apply Hg. unfold given_policy. by rewrite Hj.
Qed.

Lemma set_retry_ok now body policy s :
  data_ok s → body_ok body → allowed (tb_id body) policy → data_ok (tt_with_items (set_retry local_date now body policy) s).
Proof.
  intros Hs Hb Hp. apply data_items; [done|]. destruct Hs. apply update_items_ok; [done|]. cbn.
  intros retry [= <-]. unfold retry_of. destruct (tb_job body) as [| | | |entry input] eqn:Ej; try by apply must_some.
  by apply request_policy.
Qed.

Lemma with_policy_ok now body policy s :
  data_ok s → body_ok body → allowed (tb_id body) policy →
  stretch_ok (tb_id body) None s (with_policy tr to_string to_fixed1 local_date tauri now body policy s).
Proof.
  intros Hs Hb Hp. unfold with_policy. destruct (isTransferNoLongerActive _ _).
  { constructor; [done..| |]; [apply may_none|]. intros p Hin. by right. }
  pose proof (set_retry_ok now body policy s Hs Hb Hp) as Hr.
  assert (∀ d i p stage, data_ok (tt_with_items (progress_of (tb_id body) d i p None (tr stage)) (tt_with_items (set_retry local_date now body policy) s))) as Hshow.
  { intros. by apply data_update. }
  destruct (tb_job body) as [| | | |entry input] eqn:Ej.
  1-4: constructor; cbn; [done| |try apply may_none; by intros p [= <-]|by right].
  1-4: apply data_call; [apply Hshow|]; constructor; [|done]; intros id q [= <- <-]; by apply must_some.
  destruct tauri.
  - constructor; cbn; [done| |apply may_none|by right]. apply data_call; [apply Hshow|]. constructor; [|done].
    intros id q [= <- <-]. by apply request_policy.
  - constructor; cbn; [done| |apply may_none|by right]. unfold startTransferProgressPulse. by apply data_update.
Qed.

Lemma resolve_policy_ok now body s :
  data_ok s → body_ok body → stretch_ok (tb_id body) None s (resolve_policy tr to_string to_fixed1 local_date tauri now body s).
Proof.
  intros Hs Hb. unfold resolve_policy. case_decide as Ha.
  { apply with_policy_ok; [done..|]. pose proof (bk_setting _ Hb Ha) as Hset.
    by destruct (setting_policy (fs_conflictPolicyDefault (tb_settings body))). }
  destruct (negb tauri); [by apply with_policy_ok|].
  destruct (tb_job body); (constructor; cbn; [done| |apply may_none|by right]; apply data_call;
    [by apply data_update|constructor; [by apply call_ok_other|done]]).
Qed.

Lemma begin_task_ok now body s :
  data_ok s → body_ok body → stretch_ok (tb_id body) None s (begin_task tr to_string to_fixed1 local_date tauri now body s).
Proof.
  intros Hs Hb. unfold begin_task.
  assert (stretch_ok (tb_id body) None s (match given_policy body with
    | Some policy => with_policy tr to_string to_fixed1 local_date tauri now body policy s
    | None => resolve_policy tr to_string to_fixed1 local_date tauri now body s end)) as Hask.
  { destruct (given_policy body) as [policy|] eqn:Eg; [|by apply resolve_policy_ok].
    apply with_policy_ok; [done..|]. by apply (bk_given _ Hb). }
  assert (∀ size stage, stretch_ok (tb_id body) None s (waits (AwPreview (preview_pulse tr stage))
    (tt_with_items (startTransferProgressPulse (tb_id body) (Some (bytes_text to_string to_fixed1 0 size)) (preview_pulse tr stage)) s))) as Hpreview.
  { intros. constructor; cbn; [done|by apply data_update|apply may_none|by right]. }
  destruct (tb_job body); try done; destruct tauri; done.
Qed.

(** A task whose item runs, or is gone, begins with something to wait for. *)
Lemma with_policy_waits now body policy s :
  isTransferNoLongerActive (tb_id body) (tt_controller s) = false →
  (with_policy tr to_string to_fixed1 local_date tauri now body policy s).2 ≠ Ends.
Proof. intros Ha. unfold with_policy. rewrite Ha. destruct (tb_job body); try done. by destruct tauri. Qed.

Lemma begin_task_waits now body s :
  isTransferNoLongerActive (tb_id body) (tt_controller s) = false →
  (begin_task tr to_string to_fixed1 local_date tauri now body s).2 ≠ Ends.
Proof.
  intros Ha. unfold begin_task.
  assert ((match given_policy body with
    | Some policy => with_policy tr to_string to_fixed1 local_date tauri now body policy s
    | None => resolve_policy tr to_string to_fixed1 local_date tauri now body s end).2 ≠ Ends) as Hask.
  { destruct (given_policy body); [by apply with_policy_waits|]. unfold resolve_policy.
    case_decide; [by apply with_policy_waits|]. destruct (negb tauri); [by apply with_policy_waits|]. by destruct (tb_job body). }
  destruct (tb_job body); try done; by destruct tauri.
Qed.

(** ** Lemmas: the machine *)

Definition known (s : TransferTasks) (e : string * nat) : Prop := ∃ body, tt_bodies s !! e.2 = Some body ∧ tb_id body = e.1.

(** The invariant, up to the tasks that have not begun. *)
Record partly_ok (s : TransferTasks) : Prop := {
  po_queue : transfers_ok (tt_controller s);
  po_tasks : Forall (known s) (tf_tasks (tt_controller s));
  po_runs : Forall (known s) (tf_runs (tt_controller s));
  po_data : data_ok s;
  po_temps : ∀ p, p ∈ tt_temps s → ∃ await, await ∈ tt_awaits s ∧ await_temp await = Some p;
}.

(** What a call waits with is allowed to its transfer. *)
Definition await_fits (await : Await) (entry : string * nat) : Prop := may entry.1 (await_policy await).

Record tasks_ok (s : TransferTasks) : Prop := {
  ko_partly : partly_ok s;
  ko_awaits : Forall2 await_fits (tt_awaits s) (tf_runs (tt_controller s));
}.

Lemma ko_length s : tasks_ok s → length (tt_awaits s) = length (tf_runs (tt_controller s)).
Proof. intros [_ H]. by eapply Forall2_length. Qed.

Lemma frame_transfers_ok s s' : frame s s' → transfers_ok (tt_controller s) → transfers_ok (tt_controller s').
Proof. intros [] H. by apply (same_queue_ok (tt_controller s)). Qed.

Lemma known_bodies s s' e : tt_bodies s' = tt_bodies s → known s e → known s' e.
Proof. intros Hb (body & H1 & H2). exists body. by rewrite Hb. Qed.

(** A call begins, goes on, or is over. *)
Lemma stretch_partly_ok id a s s' o awaits :
  partly_ok s → stretch_ok id a s (s', o) →
  (∀ await p, await ∈ tt_awaits s → await_temp await = Some p → a ≠ Some p → ∃ await', await' ∈ awaits ∧ await_temp await' = Some p) →
  (∀ await, o = Waits await → await ∈ awaits) →
  partly_ok (tt_with_awaits awaits s').
Proof.
  intros [] [Hf Hd _ Ht] Hkeep Hnew. cbn [fst snd] in *. constructor.
  - exact (frame_transfers_ok s s' Hf po_queue0).
  - destruct Hf as [? ? Htasks ? ? Hbodies ?]. cbn. rewrite Htasks. eapply Forall_impl; [exact po_tasks0|].
    intros e (body & H1 & H2). exists body. cbn. by rewrite Hbodies.
  - destruct Hf as [? ? ? Hruns ? Hbodies ?]. cbn. rewrite Hruns. eapply Forall_impl; [exact po_runs0|].
    intros e (body & H1 & H2). exists body. cbn. by rewrite Hbodies.
  - by destruct Hd; constructor.
  - cbn. intros p Hpt. destruct (Ht p Hpt) as [Ho|[Hold Ha]].
    + destruct o as [await|]; [|done]. exists await. split; [by apply Hnew|exact Ho].
    + destruct (po_temps0 p Hold) as (await & Hawait & Hpath). by apply (Hkeep await).
Qed.

Lemma begin_runs_ok now runs s :
  partly_ok s → Forall (known s) runs →
  let s' := begin_runs tr to_string to_fixed1 local_date tauri now runs s in
  partly_ok s' ∧ tf_runs (tt_controller s') = tf_runs (tt_controller s) ∧
  ∃ new, tt_awaits s' = tt_awaits s ++ new ∧ Forall2 await_fits new runs.
Proof.
  revert s. induction runs as [|[id task] runs IH]; intros s Hs Hruns; cbn [begin_runs]; cbv zeta.
  { split_and!; [done..|]. exists []. by rewrite app_nil_r. }
  apply Forall_cons in Hruns as [(body & Hbody & Hid) Hruns]. cbn in Hbody, Hid. rewrite Hbody.
  assert (body_ok body) as Hbok.
  { destruct (po_data _ Hs) as [_ Hb _]. rewrite Forall_forall in Hb. apply Hb. by eapply list_elem_of_lookup_2. }
  pose proof (begin_task_ok now body s (po_data _ Hs) Hbok) as Hst.
  destruct (begin_task tr to_string to_fixed1 local_date tauri now body s) as [s' o] eqn:Eb.
  set (await := match o with Waits await => await | Ends => AwCall None None end).
  assert (stretch_ok id None s (s', Waits await)) as Hst'.
  { rewrite Hid in Hst. destruct Hst as [? ? Hp Ht]. constructor; cbn [fst snd] in *; [done..| |].
    - subst await. destruct o; [exact Hp|apply may_none].
    - intros p Hin. destruct (Ht p Hin) as [Ho|?]; [|by right]. left. subst await. by destruct o. }
  assert (tt_awaits s' = tt_awaits s) as Haw by apply Hst'.
  rewrite Haw. pose proof (stretch_partly_ok id None s s' (Waits await) (tt_awaits s ++ [await]) Hs Hst') as Hok.
  destruct (IH (tt_with_awaits (tt_awaits s ++ [await]) s')) as (H1 & H2 & new & H3 & H4).
  - apply Hok.
    + intros x p Hx Hp _. exists x. split; [set_solver|done].
    + intros x [= <-]. set_solver.
  - eapply Forall_impl; [done|]. intros e He. by apply (known_bodies s); [apply Hst'|].
  - split_and!; [done| |].
    + rewrite H2. apply Hst'.
    + exists (await :: new). split; [rewrite H3; cbn; by rewrite <- app_assoc|]. constructor; [apply Hst'|done].
Qed.

Lemma begin_new_ok now s :
  partly_ok s → Forall2 await_fits (tt_awaits s) (take (length (tt_awaits s)) (tf_runs (tt_controller s))) →
  tasks_ok (begin_new tr to_string to_fixed1 local_date tauri now s).
Proof.
  intros Hs Hfit. unfold begin_new.
  destruct (begin_runs_ok now (drop (length (tt_awaits s)) (tf_runs (tt_controller s))) s Hs) as (H1 & H2 & new & H3 & H4).
  - destruct Hs. by apply Forall_drop.
  - constructor; [done|]. rewrite H3, H2. rewrite <- (take_drop (length (tt_awaits s)) (tf_runs (tt_controller s))).
    by apply Forall2_app.
Qed.

(** The calls that go on keep their awaits when others are added after them. *)
Lemma awaits_prefix awaits (runs runs' : list (string * nat)) :
  Forall2 await_fits awaits runs → runs `prefix_of` runs' → Forall2 await_fits awaits (take (length awaits) runs').
Proof. intros H [new ->]. by rewrite (Forall2_length _ _ _ H), take_app_length. Qed.

Lemma drain_items_ok now queue c : Forall item_ok (tf_items c) → Forall item_ok (tf_items (drain_loop now queue c)).
Proof.
  revert c. induction queue as [|id rest IH]; intros c Hc; cbn [drain_loop]; [done|].
  destruct (_ <? _)%Z; [|done]. case_decide; [by apply IH|]. cbv zeta.
  destruct (jsmap_get id (tf_tasks c)) as [task|]; [|by apply IH].
  destruct (match getRemoteFileTransfer id (tf_items c) with Some item => _ | None => true end); [|by apply IH].
  apply IH. by apply update_items_ok.
Qed.

(** What a controller keeps when its queue is drained. *)
Record controller_ok (P : string * nat → Prop) (c : TransferController) : Prop := {
  co_tasks : Forall P (tf_tasks c);
  co_runs : Forall P (tf_runs c);
  co_items : Forall item_ok (tf_items c);
}.

Lemma drain_controller_ok P now c :
  controller_ok P c → controller_ok P (drainTransferQueue now c) ∧ tf_runs c `prefix_of` tf_runs (drainTransferQueue now c).
Proof.
  intros [Ht Hr Hi]. unfold drainTransferQueue. destruct (drain_new now (tf_queue c) c) as (new & H1 & H2 & H3).
  split; [|rewrite H1; by apply prefix_app_r]. constructor; [|rewrite H1; apply Forall_app; split; [done|]|by apply drain_items_ok].
  - apply Forall_forall. intros e He. rewrite Forall_forall in Ht. by apply Ht, H3.
  - eapply Forall_impl; [exact H2|]. intros e He. rewrite Forall_forall in Ht. by apply Ht.
Qed.

Lemma partly_controller f s :
  partly_ok s → transfers_ok (f (tt_controller s)) → controller_ok (known s) (f (tt_controller s)) → partly_ok (tt_with_controller f s).
Proof. intros [? ? ? [] ?] Hq []. by constructor. Qed.

Lemma partly_controller_ok s : partly_ok s → controller_ok (known s) (tt_controller s).
Proof. by intros [? ? ? [] ?]. Qed.

Lemma Forall_delete_at {A} (P : A → Prop) i (l : list A) : Forall P l → Forall P (delete i l).
Proof. rewrite delete_take_drop. intros H. apply Forall_app. split; [by apply Forall_take|by apply Forall_drop]. Qed.

Lemma task_deleted_ok P id run c :
  controller_ok P c → controller_ok P (finish_task run id (tf_with_items (λ items, items) c)).
Proof.
  intros [Ht Hr Hi]. constructor; cbn; [|by apply Forall_delete_at|done].
  apply Forall_forall. intros e [_ He]%list_elem_of_filter. rewrite Forall_forall in Ht. by apply Ht.
Qed.

(** The call at a position is over, before the tasks that this starts. *)
Definition settled (now : Z) (run : nat) (s : TransferTasks) : TransferTasks :=
  tt_with_awaits (delete run (tt_awaits s)) (tt_with_controller (task_settled now run (λ items, items)) s).

Lemma tt_settled_ok now run s :
  partly_ok s → run < length (tf_runs (tt_controller s)) → partly_ok (tt_with_awaits (delete run (tt_awaits s)) s) →
  partly_ok (settled now run s) ∧ ∃ new, tf_runs (tt_controller (settled now run s)) = delete run (tf_runs (tt_controller s)) ++ new.
Proof.
  intros Hs Hrun Hdel. destruct (lookup_lt_is_Some_2 _ _ Hrun) as [[id task] Er].
  set (c := finish_task run id (tf_with_items (λ items, items) (tt_controller s))).
  assert (task_settled now run (λ items, items) (tt_controller s) = drainTransferQueue now c) as Hc by (unfold task_settled; by rewrite Er).
  destruct (drain_new now (tf_queue c) c) as (new & Hn & _ & _).
  destruct (drain_controller_ok (known s) now c) as [[Hct Hcr Hci] _]; [by apply task_deleted_ok, partly_controller_ok|].
  assert (transfers_ok (drainTransferQueue now c)) as Hq.
  { apply (drain_ok tr tr_with). exact (proj1 (finish_task_ok tr tr_with run id task (λ items, items) _ (po_queue _ Hs) Er)). }
  unfold settled. split; [|exists new; cbn; rewrite Hc; exact Hn].
  destruct Hdel as [_ _ _ [_ Hdb Hdc] Htm]. constructor; cbn; rewrite ?Hc; [done..| |done].
  constructor; cbn; [by rewrite Hc|done|done].
Qed.

Lemma tt_settle_ok now run s :
  tasks_ok s → run < length (tf_runs (tt_controller s)) → partly_ok (tt_with_awaits (delete run (tt_awaits s)) s) →
  tasks_ok (settle tr to_string to_fixed1 local_date tauri now run s).
Proof.
  intros [Hs Hfit] Hrun Hdel. destruct (tt_settled_ok now run s Hs Hrun Hdel) as (H1 & new & H2).
  apply (begin_new_ok now (settled now run s)); [done|]. rewrite H2. cbn.
  apply (awaits_prefix _ (delete run (tf_runs (tt_controller s)))); [|by apply prefix_app_r].
  rewrite !delete_take_drop. apply Forall2_app; [by apply Forall2_take|by apply Forall2_drop].
Qed.

(** A stretch keeps the invariant, and so does leaving out its await when the call is over. *)
Lemma frame_settles s s' run id a o :
  tasks_ok s → tt_awaits s !! run = Some a → stretch_ok id (await_temp a) s (s', o) →
  (o = Ends → tasks_ok s') ∧ (o = Ends → partly_ok (tt_with_awaits (delete run (tt_awaits s')) s')) ∧
  run < length (tf_runs (tt_controller s')).
Proof.
  intros Hok Ha Hst. pose proof (ko_length _ Hok) as Hlen. destruct Hok as [Hs Hfit].
  assert (tt_awaits s' = tt_awaits s) as Haw by apply Hst.
  assert (tf_runs (tt_controller s') = tf_runs (tt_controller s)) as Hruns by apply Hst.
  split_and!.
  - intros ->. assert (partly_ok (tt_with_awaits (tt_awaits s) s')) as Hs'.
    { apply (stretch_partly_ok id (await_temp a) s s' Ends); [done..| |done]. intros x p Hx Hp _. eauto. }
    rewrite <- Haw in Hs'. split; [by destruct s'|]. by rewrite Haw, Hruns.
  - intros ->. rewrite Haw. apply (stretch_partly_ok id (await_temp a) s s' Ends); [done..| |done].
    intros x p Hx Hp Hne. exists x. split; [|done]. rewrite (delete_Permutation _ _ _ Ha) in Hx.
    apply elem_of_cons in Hx as [->|Hx]; [congruence|done].
  - rewrite Hruns, <- Hlen. by eapply lookup_lt_Some.
Qed.

Lemma after_stretch_ok now run task a s id result :
  tasks_ok s → tt_awaits s !! run = Some a → tf_runs (tt_controller s) !! run = Some (id, task) →
  stretch_ok id (await_temp a) s result → tasks_ok (after_stretch tr to_string to_fixed1 local_date tauri now run result).
Proof.
  intros Hok Ha Hr Hst. destruct result as [s' o]. destruct (frame_settles s s' run id a o Hok Ha Hst) as (Hs' & Hdel & Hlt).
  destruct Hok as [Hs Hfit]. assert (tt_awaits s' = tt_awaits s) as Haw by apply Hst.
  assert (tf_runs (tt_controller s') = tf_runs (tt_controller s)) as Hruns by apply Hst.
  unfold after_stretch. cbn [fst snd]. destruct o as [await|].
  - split; cbn; rewrite Haw.
    2: { rewrite Hruns. rewrite <- (list_insert_id _ _ _ Hr). apply Forall2_insert; [done|]. apply Hst. }
    apply (stretch_partly_ok id (await_temp a) s s' (Waits await)); [done..| |].
    + intros x p Hx Hp Hne. exists x. split; [|done]. apply list_elem_of_lookup in Hx as [i Hi].
      apply list_elem_of_lookup. exists i. rewrite list_lookup_insert_ne; [done|]. intros ->. congruence.
    + intros x [= <-]. apply list_elem_of_lookup. exists run. apply list_lookup_insert_eq. by eapply lookup_lt_Some.
  - apply tt_settle_ok; [by apply Hs'|done|by apply Hdel].
Qed.

(** What an answer makes of the call that waited for it, for the tasks it is about. *)
Definition answer_ok (P : TaskBody → Prop) (go : TaskBody → Await → option Stretch) : Prop :=
  ∀ body a stretch s, P body → go body a = Some stretch → data_ok s → body_ok body → may (tb_id body) (await_policy a) →
    stretch_ok (tb_id body) (await_temp a) s (stretch s).

Abbreviation any_body := (λ _ : TaskBody, True).

Lemma run_body_ok run s body : tasks_ok s → run_body run s = Some body →
  body_ok body ∧ ∃ task, tf_runs (tt_controller s) !! run = Some (tb_id body, task).
Proof.
  intros [Hs _] H. unfold run_body in H. destruct (tf_runs (tt_controller s) !! run) as [[id task]|] eqn:Er; [|done]. cbn in H.
  destruct Hs as [_ _ Hr [_ Hb _] _]. rewrite Forall_forall in Hb. rewrite Forall_forall in Hr. split; [apply Hb; by eapply list_elem_of_lookup_2|].
  destruct (Hr (id, task)) as (body' & Hb' & Hid); [by eapply list_elem_of_lookup_2|]. cbn in Hb', Hid. exists task. congruence.
Qed.

Lemma resume_ok (P : TaskBody → Prop) now run go s :
  answer_ok P go → (∀ body, run_body run s = Some body → P body) → tasks_ok s →
  tasks_ok (resume tr to_string to_fixed1 local_date tauri now run go s).
Proof.
  intros Hgo HP Hs. unfold resume. destruct (run_body run s) as [body|] eqn:Eb; [|done].
  destruct (tt_awaits s !! run) as [a|] eqn:Ea; [|done]. destruct (go body a) as [stretch|] eqn:Eg; [|done].
  destruct (run_body_ok run s body Hs Eb) as (Hb & task & Hr).
  eapply after_stretch_ok; [done..|]. eapply Hgo; [by apply HP|done|apply Hs|done|].
  exact (Forall2_lookup_lr _ _ _ _ _ _ (ko_awaits _ Hs) Ea Hr).
Qed.

Lemma tt_failed_ok body stage a error s :
  data_ok s → stretch_ok (tb_id body) a s (task_failed tr tr_with body stage a error s).
Proof.
  intros Hs. constructor; cbn.
  - by destruct a.
  - by apply data_delete_temp, data_fail.
  - apply may_none.
  - intros p Hp. right. destruct a as [path|]; cbn in Hp; [|done]. apply list_elem_of_filter in Hp as [Hne Hp]. split; [exact Hp|congruence].
Qed.

Lemma checked_ok now task result : answer_ok any_body (checked tr tr_with to_string to_fixed1 local_date tauri now task result).
Proof.
  intros body a stretch s _ Hgo Hs Hb Hp. destruct a; try done. injection Hgo as <-.
  destruct result as [error|[[name path]|]]; [by apply tt_failed_ok| |by apply with_policy_ok].
  constructor; cbn; [done|by destruct Hs; constructor|apply may_none|by right].
Qed.

Lemma chosen_ok now choice :
  answer_ok (λ body, ∀ c, choice = Some c → allowed (tb_id body) (choice_policy c)) (chosen tr to_string to_fixed1 local_date tauri now choice).
Proof.
  intros body a stretch s Hc Hgo Hs Hb Hp. destruct a; try done. injection Hgo as <-.
  destruct choice as [choice|]; [by apply with_policy_ok; auto|].
  constructor; cbn; [done|by apply data_update|apply may_none|by right].
Qed.

Lemma temp_made_ok result : answer_ok any_body (temp_made tr tr_with result).
Proof.
  intros body a stretch s _ Hgo Hs Hb Hp. destruct a; try done. injection Hgo as <-.
  destruct result as [error|path]; [by apply tt_failed_ok|].
  constructor; cbn; [done|by destruct Hs; constructor|exact Hp|]. intros p [->|Hin]%elem_of_cons; [by left|by right].
Qed.

(** A stretch that still holds the file. *)
Lemma held_ok id a await s s' :
  frame s s' → data_ok s' → may id (await_policy await) → await_temp await = a → tt_temps s' = tt_temps s → stretch_ok id a s (s', Waits await).
Proof.
  intros Hf Hd Hp Ht Hs. constructor; cbn; [done..|]. intros p Hin. rewrite Hs in Hin. rewrite Ht.
  destruct (decide (a = Some p)); [by left|by right].
Qed.

Lemma cache_reported_ok report : answer_ok any_body (cache_reported tr tr_with to_string to_fixed1 report).
Proof.
  intros body a stretch s _ Hgo Hs Hb Hp. destruct a; try done. injection Hgo as <-.
  destruct (tb_job body); try (by apply held_ok); [|destruct (cr_compress report)]; (apply held_ok; [done|by apply data_update|done..]).
Qed.

Lemma cache_written_ok result : answer_ok any_body (cache_written tr tr_with to_string to_fixed1 result).
Proof.
  intros body a stretch s _ Hgo Hs Hb Hp. destruct a as [| | |policy path| |]; try done. injection Hgo as <-.
  destruct result as [error|size]; [by apply (tt_failed_ok body _ (Some path))|].
  destruct (tb_job body); try (by apply held_ok).
  all: apply held_ok; [done| |apply may_none|done|done].
  all: apply data_call; [by apply data_update|]; constructor; [|done]; intros id q [= <- <-]; by apply must_some, Hp.
Qed.

Lemma pulsed_ok : answer_ok any_body pulsed.
Proof.
  intros body a stretch s _ Hgo Hs Hb Hp. destruct a as [| | | |path [pulse|]|pulse]; try done; injection Hgo as <-;
    (apply held_ok; [done|by apply data_update|apply may_none|done|done]).
Qed.

Lemma finish_ok body result s :
  data_ok s → frame s (finish_transfer tr body result s) ∧ data_ok (finish_transfer tr body result s) ∧ tt_temps (finish_transfer tr body result s) = tt_temps s.
Proof.
  intros Hs. unfold finish_transfer, finishUploadTransfer, finishArchiveUploadTransfer, finish_upload, finishDownloadTransfer.
  destruct (tb_job body); destruct (isTransferNoLongerActive (tb_id body) (tt_controller s)); try done; cbn; (split_and!; [done| |done]).
  1-4: by apply data_refresh, data_update.
  by apply data_update.
Qed.

Lemma frame_delete path s s' : frame s s' → frame s (delete_temp path s').
Proof. intros []. destruct path; by constructor. Qed.

Lemma called_ok result : answer_ok any_body (called tr tr_with result).
Proof.
  intros body a stretch s _ Hgo Hs Hb Hp. destruct a as [| | | |path pulse|]; try done. injection Hgo as <-.
  destruct result as [error|result]; [by apply tt_failed_ok|].
  destruct (finish_ok body result s Hs) as (Hf & Hd & Ht). constructor; cbn.
  - by apply frame_delete.
  - by apply data_delete_temp.
  - apply may_none.
  - intros p Hin. right. destruct path as [path|]; cbn in Hin; rewrite Ht in Hin; [|done].
    apply list_elem_of_filter in Hin as [Hne Hin]. split; [exact Hin|congruence].
Qed.

Lemma previewed_ok : answer_ok any_body (previewed tr).
Proof.
  intros body a stretch s _ Hgo Hs Hb Hp. destruct a; try done. injection Hgo as <-.
  destruct (finish_ok body (preview_result (tb_job body)) s Hs) as (Hf & Hd & Ht). constructor; cbn; [done..|apply may_none|].
  intros p Hin. rewrite Ht in Hin. by right.
Qed.

(** ** Lemmas: starting transfers *)

Lemma tasks_items f s : tasks_ok s → Forall item_ok (f (tf_items (tt_controller s))) → tasks_ok (tt_with_items f s).
Proof.
  intros [Hs Hfit] Hi. split; [|exact Hfit]. apply partly_controller; [done| |].
  - by eapply (same_queue_ok (tt_controller s)); [apply Hs|..].
  - destruct (partly_controller_ok s Hs) as [? ? _]. by constructor.
Qed.

Lemma tasks_update id u s : tasks_ok s → up_retry u = None → tasks_ok (tt_with_items (updateRemoteFileTransfer id u) s).
Proof. intros Hs Hu. apply tasks_items; [done|]. apply update_items_ok; [apply Hs|]. by rewrite Hu. Qed.

Lemma tasks_fail id stage error s : tasks_ok s → tasks_ok (tt_with_items (fail_transfer tr tr_with id stage error) s).
Proof.
  intros Hs. apply tasks_items; [done|]. assert (data_ok s) as Hd by apply Hs.
  exact (dk_items _ (data_fail id stage error s Hd)).
Qed.

Lemma add_items_ok id now input items : Forall item_ok items → ad_retry input = None → Forall item_ok (addRemoteFileTransfer id now input items).
Proof.
  intros Hi Hr. unfold addRemoteFileTransfer. destruct (trim_loop_spec 0 0 (mkItem id (ad_connectionId input) now (ad_direction input) None (ad_kind input) None (ad_name input)
      (default 0%Q (ad_progress input)) (ad_progressDetail input)
      (default false (ad_progressIndeterminate input)) (ad_retry input) (normalize_path_string (ad_remotePath input))
      (ad_speedText input) (ad_stage input) now TsQueued :: items)) as [Hsub _].
  apply Forall_forall. intros x Hx. apply (sublist_subseteq _ _ Hsub) in Hx. apply elem_of_cons in Hx as [->|Hx]; [intros retry; cbn; by rewrite Hr|].
  rewrite Forall_forall in Hi. by apply Hi.
Qed.

Lemma tasks_next_id s : tasks_ok s → tasks_ok (tt_next_id s).
Proof. intros [[? ? ? [] ?] ?]. split; [|done]. by constructor. Qed.

(** A task is noted and queued. *)
Lemma enqueue_partly now id task body s :
  tasks_ok s → body_ok body → tb_id body = id → task = length (tt_bodies s) →
  let s' := tt_with_controller (enqueueRemoteFileTransfer now id task) (tt_add_body body s) in
  partly_ok s' ∧ tf_runs (tt_controller s) `prefix_of` tf_runs (tt_controller s').
Proof.
  intros [Hs _] Hb Hid ->. cbv zeta.
  assert (∀ e, known s e → known (tt_add_body body s) e) as Hk.
  { intros e (b & H1 & H2). exists b. split; [|done]. cbn. by apply lookup_app_l_Some. }
  assert (known (tt_add_body body s) (id, length (tt_bodies s))) as Hnew.
  { exists body. cbn. by rewrite list_lookup_middle by done. }
  assert (partly_ok (tt_add_body body s)) as Hs'.
  { destruct Hs as [? ? ? [] ?]. constructor; cbn; try done; [by eapply Forall_impl..|].
    constructor; cbn; [done| |done]. apply Forall_app. by split; [|constructor]. }
  destruct (drain_controller_ok (known (tt_add_body body s)) now (enqueue_task id (length (tt_bodies s)) (tt_controller s))) as [Hc _].
  { destruct (partly_controller_ok _ Hs') as [Ht Hr Hi]. cbn in Ht, Hr, Hi. constructor; cbn; [|done..].
    clear - Ht Hnew. induction (tf_tasks (tt_controller s)) as [|[k v] m IH]; cbn; [by constructor|].
    apply Forall_cons in Ht as [Hkv Ht]. case_decide as E; [subst k; by constructor|]. constructor; [done|by apply IH]. }
  split.
  - apply partly_controller; [done| |exact Hc].
    apply (drain_ok tr tr_with). apply (enqueue_task_ok tr tr_with). apply Hs.
  - set (c := enqueue_task id (length (tt_bodies s)) (tt_controller s)). destruct (drain_new now (tf_queue c) c) as (new & Hn & _).
    change (tf_runs (tt_controller s) `prefix_of` tf_runs (drain_loop now (tf_queue c) c)). rewrite Hn. by apply prefix_app_r.
Qed.

Lemma tt_enqueue_ok now id task body s :
  tasks_ok s → body_ok body → tb_id body = id → task = length (tt_bodies s) →
  tasks_ok (begin_new tr to_string to_fixed1 local_date tauri now
    (tt_with_controller (enqueueRemoteFileTransfer now id task) (tt_add_body body s))).
Proof.
  intros Hs Hb Hid Ht. destruct (enqueue_partly now id task body s Hs Hb Hid Ht) as [Hp Hr].
  apply begin_new_ok; [exact Hp|]. by eapply awaits_prefix; [apply Hs|].
Qed.

(** The tasks that were made up to here may use their settings. *)
Definition settings_ok (s : TransferTasks) : Prop := Forall setting_ok (tt_bodies s).

Lemma settings_sublist s s' : tt_bodies s `prefix_of` tt_bodies s' → settings_ok s' → settings_ok s.
Proof. intros [new Hn]. unfold settings_ok. rewrite Hn. by intros [? _]%Forall_app. Qed.

Definition job_ok (id : string) (job : TransferJob) (policy : option RemoteFileTransferConflictPolicy) : Prop :=
  match job with JobDownload _ (Some input) => must id (dl_conflictPolicy input) | JobDownload _ None => True | _ => may id policy end.

Lemma run_transfer_ok now rd connection job options s :
  let s' := run_transfer tr tr_with to_string to_fixed1 local_date tauri fresh now rd connection job options s in
  tasks_ok s → settings_ok s' → job_ok (default (fresh (tt_ids s)) (op_transferId options)) job (op_policy options) → tasks_ok s'.
Proof.
  cbv zeta. intros Hs Hset Hp. destruct connection as [connection|].
  2: { unfold run_transfer. destruct (op_transferId options); [by apply tasks_fail|done]. }
  unfold settings_ok in Hset. rewrite run_transfer_bodies in Hset. apply Forall_app in Hset as [_ Hset].
  unfold run_transfer. apply tt_enqueue_ok; [| |done|by destruct (op_transferId options)].
  - destruct (op_transferId options); [by apply tasks_update|]. apply tasks_next_id, tasks_items; [done|].
    apply add_items_ok; [apply Hs|done].
  - apply Forall_inv in Hset. constructor; [| |exact Hset].
    + unfold given_policy. cbn. destruct job as [| | | |entry [input|]]; try exact Hp; [|by intros q].
      destruct Hp as (q & Hq & Ha). intros q'. cbn. rewrite Hq. by intros [= <-].
    + cbn. intros entry input ->. destruct Hp as (q & Hq & _). by exists q.
Qed.

Lemma each_ok {A} (run : A → TransferTasks → TransferTasks) (items : list A) s :
  (∀ item s, tasks_ok s → settings_ok (run item s) → tasks_ok (run item s)) →
  (∀ item s, tt_bodies s `prefix_of` tt_bodies (run item s)) →
  tasks_ok s → settings_ok (each run items s) → tasks_ok (each run items s).
Proof.
  intros Hrun Hpre. revert s. induction items as [|item items IH]; intros s Hs Hset; [done|]. apply IH; [|done].
  apply Hrun; [done|]. eapply settings_sublist; [|exact Hset]. exact (each_bodies run items (run item s) Hpre).
Qed.

Lemma picker_error_ok now action parentPath error s : tasks_ok s → tasks_ok (showTransferPickerError tr fresh now action parentPath error s).
Proof.
  intros Hs. apply tasks_next_id, tasks_update; [|done]. apply tasks_items; [done|]. apply add_items_ok; [apply Hs|done].
Qed.

Lemma tt_retry_ok now rd id s :
  let s' := retryRemoteFileTransfer tr tr_with to_string to_fixed1 local_date tauri fresh now rd id s in
  tasks_ok s → settings_ok s' → tasks_ok s'.
Proof.
  cbv zeta. intros Hs. unfold retryRemoteFileTransfer.
  destruct (getRemoteFileTransfer id (tf_items (tt_controller s))) as [item|] eqn:Eg; [|done].
  apply js_find_Some in Eg as [Hitem Hid]. subst id.
  assert (item_ok item) as Hi.
  { destruct (po_data _ (ko_partly _ Hs)) as [Hi _ _]. rewrite Forall_forall in Hi. by apply Hi. }
  unfold item_ok in Hi. destruct (ti_retry item) as [retry|]; [|done]. specialize (Hi retry eq_refl). case_decide; [done|].
  destruct (_ && _); [intros _; by apply tasks_fail|].
  destruct retry; (intros Hset; apply run_transfer_ok; [done|exact Hset|]; cbn; try exact Hi);
    destruct Hi as (q & Hq & Ha); cbn in Hq; injection Hq as <-; by intros q' [= <-].
Qed.

(** An answer of the dialog is allowed to the transfer that the dialog is about. *)
Definition choice_ok (s : TransferTasks) (event : TaskEvent) : Prop :=
  match event with
  | TkChosen _ (Some choice) =>
      ∀ prompt body, tt_prompt s = Some prompt → tt_bodies s !! cp_task prompt = Some body →
        allowed (tb_id body) (choice_policy choice)
  | _ => True
  end.

Lemma tasks_controller f s :
  tasks_ok s → transfers_ok (f (tt_controller s)) → controller_ok (known s) (f (tt_controller s)) →
  tf_runs (f (tt_controller s)) = tf_runs (tt_controller s) → tasks_ok (tt_with_controller f s).
Proof. intros [Hs Hfit] Hq Hc Hr. split; [by apply partly_controller|]. cbn. by rewrite Hr. Qed.

Lemma drop_controller_ok P id f c :
  controller_ok P c → Forall item_ok (f (tf_items c)) → controller_ok P (tf_with_items f (dropQueuedTransfer id c)).
Proof.
  intros [Ht Hr Hi] Hf. constructor; cbn; [|done..].
  apply Forall_forall. intros e [_ He]%list_elem_of_filter. rewrite Forall_forall in Ht. by apply Ht.
Qed.

Lemma cancel_ok id s : tasks_ok s → tasks_ok (tt_with_controller (requestCancelTransfer tr tauri id) s).
Proof.
  intros Hs. pose proof (partly_controller_ok _ (ko_partly _ Hs)) as Hc.
  apply tasks_controller; [done|apply (transfer_step_ok tr tr_with to_string to_fixed1 _ (TfCancel tauri id)); apply Hs| |].
  - assert (∀ u, up_retry u = None → Forall item_ok (updateRemoteFileTransfer id u (tf_items (tt_controller s)))) as Hu.
    { intros u Hn. apply update_items_ok; [apply Hc|]. by rewrite Hn. }
    unfold requestCancelTransfer.
    assert (controller_ok (known s) (cancelQueuedTransfer tr id (tt_controller s))) as Hcancel by (apply drop_controller_ok; [done|by apply Hu]).
    destruct (getRemoteFileTransfer id (tf_items (tt_controller s))); [|done]. case_decide; [done|]. case_decide; [done|].
    destruct Hc. constructor; cbn; [done..|by apply Hu].
  - unfold requestCancelTransfer. destruct (getRemoteFileTransfer id (tf_items (tt_controller s))); [|done]. case_decide; [done|]. by case_decide.
Qed.

Lemma tt_remove_ok id s : tasks_ok s → tasks_ok (tt_with_controller (removeTransfer id) s).
Proof.
  intros Hs. pose proof (partly_controller_ok _ (ko_partly _ Hs)) as Hc.
  apply tasks_controller; [done|apply (transfer_step_ok tr tr_with to_string to_fixed1 _ (TfRemove id)); apply Hs| |done].
  apply drop_controller_ok; [done|]. unfold removeRemoteFileTransfer. apply Forall_forall. intros x [_ Hx]%list_elem_of_filter.
  destruct Hc as [_ _ Hi]. rewrite Forall_forall in Hi. by apply Hi.
Qed.

Lemma items_map_ok f (items : transfers) :
  (∀ item, item ∈ items → item_ok item → item_ok (f item)) → Forall item_ok items → Forall item_ok (f <$> items).
Proof.
  intros Hf Hi. apply Forall_forall. intros x (y & -> & Hy)%list_elem_of_fmap. apply Hf; [done|].
  rewrite Forall_forall in Hi. by apply Hi.
Qed.

Lemma rebind_ok from to s : tasks_ok s → tasks_ok (tt_with_items (rebindRemoteFileTransferConnection from to) s).
Proof.
  intros Hs. apply tasks_items; [done|]. apply items_map_ok; [|apply Hs]. intros item _ Hi.
  unfold rebindRemoteFileTransferItem. case_decide; [done|]. unfold item_ok in *. cbn.
  destruct (ti_retry item) as [retry|]; [|done]. cbn in *. intros r [= <-]. specialize (Hi retry eq_refl). by destruct retry.
Qed.

Lemma tt_flush_ok now s : tasks_ok s → tasks_ok (tt_with_controller (flushTransferProgress tr tr_with to_string to_fixed1 now) s).
Proof.
  intros Hs. pose proof (partly_controller_ok _ (ko_partly _ Hs)) as Hc.
  apply tasks_controller; [done|apply (transfer_step_ok tr tr_with to_string to_fixed1 _ (TfFlush now)); apply Hs| |].
  - unfold flushTransferProgress. destruct (tf_timer (tt_controller s)); [|done]. destruct Hc. constructor; cbn; [done..|].
    apply items_map_ok; [|done]. intros item _ Hi. destruct (jsmap_get _ _); [|done]. by case_decide.
  - unfold flushTransferProgress. by destruct (tf_timer (tt_controller s)).
Qed.

Lemma task_step_ok s event :
  let s' := task_step tr tr_with to_string to_fixed1 local_date tauri fresh s event in
  choice_ok s event → settings_ok s' → tasks_ok s → tasks_ok s'.
Proof.
  cbv zeta. intros He Hset Hs.
  assert (∀ now rd connection job options, (∀ id, job_ok id job (op_policy options)) → ∀ s, tasks_ok s →
    settings_ok (run_transfer tr tr_with to_string to_fixed1 local_date tauri fresh now rd connection job options s) →
    tasks_ok (run_transfer tr tr_with to_string to_fixed1 local_date tauri fresh now rd connection job options s)) as Hrun.
  { intros. by apply run_transfer_ok. }
  assert (∀ now rd connection job options s, tt_bodies s `prefix_of` tt_bodies
    (run_transfer tr tr_with to_string to_fixed1 local_date tauri fresh now rd connection job options s)) as Hpre.
  { intros. eapply adds_prefix, run_transfer_adds. }
  destruct event; cbn [task_step] in *.
  - unfold uploadRemoteFile in *. case_decide; [done|]. apply each_ok; [intros; by apply Hrun; [intros; apply may_none|..]|intros; apply Hpre|done..].
  - unfold uploadRemoteDirectory in *. case_decide; [done|]. apply each_ok; [intros; by apply Hrun; [intros; apply may_none|..]|intros; apply Hpre|done..].
  - unfold uploadRemoteItems in *. destruct (_ || _); [done|].
    apply each_ok; [intros; by apply Hrun; [intros; apply may_none|..]|intros; apply Hpre| |exact Hset].
    apply each_ok; [intros; by apply Hrun; [intros; apply may_none|..]|intros; apply Hpre|done|].
    eapply settings_sublist; [|exact Hset]. eapply adds_prefix, each_adds. intros. apply run_transfer_adds.
  - by apply picker_error_ok.
  - unfold uploadNativeDroppedPath in *. destruct metadata; try (by apply picker_error_ok); apply Hrun; try done; intros; apply may_none.
  - unfold downloadRemoteFiles in *. case_decide; [done|]. apply each_ok; [intros; by apply Hrun|intros; apply Hpre|done..].
  - by apply tt_retry_ok.
  - by apply cancel_ok.
  - by apply tt_remove_ok.
  - apply tasks_items; [done|]. unfold clearFinishedTransfers. apply Forall_forall. intros x [_ Hx]%list_elem_of_filter.
    destruct (po_data _ (ko_partly _ Hs)) as [Hi _ _]. rewrite Forall_forall in Hi. by apply Hi.
  - by apply rebind_ok.
  - destruct Hs as [Hs Hfit]. pose proof (partly_controller_ok _ Hs) as Hc.
    match goal with |- context [setConcurrentTransfers now ?n] =>
      destruct (drain_controller_ok (known s) now (mkTransfers (tf_items (tt_controller s)) n (tf_queue (tt_controller s))
        (tf_running (tt_controller s)) (tf_tasks (tt_controller s)) (tf_runs (tt_controller s)) (tf_started (tt_controller s))
        (tf_backend (tt_controller s)) (tf_progress (tt_controller s)) (tf_timer (tt_controller s)))) as [Hd Hl] end.
    { by destruct Hc. }
    apply begin_new_ok; [apply partly_controller; [done|..|exact Hd]|by apply (awaits_prefix _ _ _ Hfit)].
    apply (transfer_step_ok tr tr_with to_string to_fixed1 _ (TfLimit _ _)). apply Hs.
  - apply tasks_controller; [done|..|done].
    + match goal with |- context [queueRemoteTransferProgress ?e] => apply (transfer_step_ok tr tr_with to_string to_fixed1 _ (TfProgress e)) end. apply Hs.
    + by destruct (partly_controller_ok _ (ko_partly _ Hs)).
  - by apply tt_flush_ok.
  - by eapply resume_ok; [apply checked_ok|..].
  - unfold settleTransferConflictPrompt. destruct (tt_prompt s) as [prompt|] eqn:Ep; [|done].
    assert (tasks_ok (tt_with_prompt None s)) as Hs'.
    { destruct Hs as [[? ? ? [] ?] ?]. split; [|done]. by constructor. }
    destruct (list_find _ _) as [[run e]|] eqn:Ef; [|done]. apply list_find_Some in Ef as (Hrunat & Hk & _).
    eapply resume_ok; [apply chosen_ok| |done]. intros body Hb c ->. unfold run_body in Hb. cbn in Hrunat, Hb. rewrite Hrunat in Hb. cbn in Hb.
    apply (He prompt); [done|]. by rewrite <- Hk.
  - by eapply resume_ok; [apply temp_made_ok|..].
  - by eapply resume_ok; [apply cache_reported_ok|..].
  - by eapply resume_ok; [apply cache_written_ok|..].
  - by eapply resume_ok; [apply pulsed_ok|..].
  - by eapply resume_ok; [apply called_ok|..].
  - by eapply resume_ok; [apply previewed_ok|..].
Qed.

Lemma tt_initial_ok n : tasks_ok (initialTransferTasks n).
Proof.
  split; [|done]. constructor; cbn; try (by constructor).
  - exact (transfer_run_ok tr tr_with to_string to_fixed1 n []).
  - by intros p ?%not_elem_of_nil.
Qed.

Lemma task_run_snoc n events event :
  task_run tr tr_with to_string to_fixed1 local_date tauri fresh n (events ++ [event]) =
  task_step tr tr_with to_string to_fixed1 local_date tauri fresh
    (task_run tr tr_with to_string to_fixed1 local_date tauri fresh n events) event.
Proof. unfold task_run. by rewrite foldl_app. Qed.

(** In a run whose tasks may use their settings and whose answers are allowed. *)
Lemma task_run_ok n events :
  settings_ok (task_run tr tr_with to_string to_fixed1 local_date tauri fresh n events) →
  (∀ before event after, events = before ++ event :: after →
     choice_ok (task_run tr tr_with to_string to_fixed1 local_date tauri fresh n before) event) →
  tasks_ok (task_run tr tr_with to_string to_fixed1 local_date tauri fresh n events).
Proof.
  induction events as [|event events IH] using rev_ind; intros Hset Hc; [apply tt_initial_ok|].
  rewrite task_run_snoc in Hset |- *. apply task_step_ok; [by apply (Hc events event [])|exact Hset|]. apply IH.
  - eapply settings_sublist; [|exact Hset]. eapply adds_prefix, task_step_bodies.
  - intros before e after ->. apply (Hc before e (after ++ [event])). by rewrite <- app_assoc.
Qed.
End invariant.

(** ** Lemmas: a dialog that was replaced *)

Section prompts.
Context (tr : string → string) (tr_with : string → string → string).
Context (to_string to_fixed1 : Q → string) (local_date : Z → DateParts) (tauri : bool) (fresh : nat → string).

Abbreviation any_policy := (λ (_ : string) (_ : RemoteFileTransferConflictPolicy), True).
Abbreviation any_body := (λ _ : TaskBody, True).

Lemma settings_any s : settings_ok any_policy s.
Proof. by apply Forall_forall. Qed.

#[local] Instance Await_eq_dec : EqDecision Await.
Proof. solve_decision. Defined.

(** A task waits for a dialog that is not shown. *)
Definition stuck (task : nat) (s : TransferTasks) : Prop :=
  ∃ run id, tf_runs (tt_controller s) !! run = Some (id, task) ∧ tt_awaits s !! run = Some AwPrompt ∧
    ∀ prompt, tt_prompt s = Some prompt → cp_task prompt ≠ task.

Lemma with_policy_prompt now body policy s :
  tt_prompt (with_policy tr to_string to_fixed1 local_date tauri now body policy s).1 = tt_prompt s.
Proof. unfold with_policy. destruct (isTransferNoLongerActive _ _); [done|]. destruct (tb_job body); try done. by destruct tauri. Qed.

Lemma resolve_policy_prompt now body s :
  tt_prompt (resolve_policy tr to_string to_fixed1 local_date tauri now body s).1 = tt_prompt s.
Proof.
  unfold resolve_policy. case_decide; [apply with_policy_prompt|]. destruct (negb tauri); [apply with_policy_prompt|]. by destruct (tb_job body).
Qed.

Lemma begin_task_prompt now body s :
  tt_prompt (begin_task tr to_string to_fixed1 local_date tauri now body s).1 = tt_prompt s.
Proof.
  unfold begin_task. assert (tt_prompt (match given_policy body with
    | Some policy => with_policy tr to_string to_fixed1 local_date tauri now body policy s
    | None => resolve_policy tr to_string to_fixed1 local_date tauri now body s end).1 = tt_prompt s) as Hask.
  { destruct (given_policy body); [apply with_policy_prompt|apply resolve_policy_prompt]. }
  destruct (tb_job body); try done; by destruct tauri.
Qed.

(** The same runs, awaits that only grow, and the same dialog. *)
Definition extends (s s' : TransferTasks) : Prop :=
  tf_runs (tt_controller s) `prefix_of` tf_runs (tt_controller s') ∧ tt_awaits s `prefix_of` tt_awaits s' ∧ tt_prompt s' = tt_prompt s.

Lemma stuck_extends task s s' : extends s s' → stuck task s → stuck task s'.
Proof.
  intros (Hr & Ha & Hp) (run & id & H1 & H2 & H3). exists run, id. rewrite Hp.
  split_and!; [by eapply prefix_lookup_Some|by eapply prefix_lookup_Some|done].
Qed.

#[local] Instance extends_preorder : PreOrder extends.
Proof. split; [by intros s|]. intros a b c (H1 & H2 & H3) (G1 & G2 & G3). split_and!; [by etrans..|congruence]. Qed.

Lemma begin_runs_extends now runs s :
  tasks_ok any_policy s ∨ partly_ok any_policy s → Forall (known s) runs →
  extends s (begin_runs tr to_string to_fixed1 local_date tauri now runs s).
Proof.
  intros Hs Hruns. assert (partly_ok any_policy s) as Hp by (destruct Hs as [[? _]|?]; done). clear Hs.
  revert s Hp Hruns. induction runs as [|[id task] runs IH]; intros s Hp Hruns; cbn [begin_runs]; [done|].
  apply Forall_cons in Hruns as [(body & Hbody & Hid) Hruns]. cbn in Hbody. rewrite Hbody.
  assert (body_ok any_policy body) as Hbok.
  { destruct (po_data _ _ Hp) as [_ Hb _]. rewrite Forall_forall in Hb. apply Hb. by eapply list_elem_of_lookup_2. }
  pose proof (begin_task_ok tr to_string to_fixed1 local_date tauri any_policy (λ _, I) now body s (po_data _ _ Hp) Hbok) as Hst.
  pose proof (begin_task_prompt now body s) as Hprompt.
  pose proof (begin_runs_ok tr tr_with to_string to_fixed1 local_date tauri fresh any_policy (λ _, I) now [(id, task)] s Hp) as Hone.
  cbn [begin_runs] in Hone. rewrite Hbody in Hone.
  destruct (begin_task tr to_string to_fixed1 local_date tauri now body s) as [s' o]. cbn [fst] in *.
  destruct Hone as (Hone & _ & _); [constructor; [by exists body|done]|].
  etrans; [|apply IH; [exact Hone|]].
  - destruct Hst as [[]]. cbn [fst] in *. split_and!; cbn; [by rewrite fr_runs0|rewrite fr_awaits0; by apply prefix_app_r|done].
  - eapply Forall_impl; [exact Hruns|]. intros e He. apply (known_bodies s); [apply Hst|done].
Qed.

Lemma begin_new_extends now s : partly_ok any_policy s → extends s (begin_new tr to_string to_fixed1 local_date tauri now s).
Proof. intros Hs. apply begin_runs_extends; [by right|]. apply Forall_drop. apply Hs. Qed.

(** Tasks of calls in flight are different. *)
Lemma runs_unique s run run' id id' task :
  partly_ok any_policy s → tf_runs (tt_controller s) !! run = Some (id, task) → tf_runs (tt_controller s) !! run' = Some (id', task) → run = run'.
Proof.
  intros Hs H1 H2. assert (id = id') as <-.
  { destruct Hs as [_ _ Hr _ _]. rewrite Forall_forall in Hr.
    destruct (Hr (id, task)) as (b & Hb & Hid); [by eapply list_elem_of_lookup_2|].
    destruct (Hr (id', task)) as (b' & Hb' & Hid'); [by eapply list_elem_of_lookup_2|]. cbn in *. congruence. }
  destruct Hs as [[[_ _ Hnd _] _] _ _ _ _].
  apply (NoDup_lookup (tf_runs (tt_controller s)).*1 run run' id); [done|by rewrite list_lookup_fmap, H1|by rewrite list_lookup_fmap, H2].
Qed.

(** Where an element is after another position was deleted. *)
Lemma lookup_delete_other {A} (l : list A) i j x :
  l !! i = Some x → i ≠ j → delete j l !! (if decide (i < j) then i else i - 1) = Some x.
Proof.
  intros Hx Hij. case_decide.
  - by rewrite list_lookup_delete_lt.
  - rewrite list_lookup_delete_ge by lia. by replace (S (i - 1)) with i by lia.
Qed.

Lemma settle_stuck now task run s :
  partly_ok any_policy s → run < length (tf_runs (tt_controller s)) →
  partly_ok any_policy (tt_with_awaits (delete run (tt_awaits s)) s) →
  (∃ run' id, tf_runs (tt_controller s) !! run' = Some (id, task) ∧ tt_awaits s !! run' = Some AwPrompt ∧ run' ≠ run ∧
     ∀ prompt, tt_prompt s = Some prompt → cp_task prompt ≠ task) →
  stuck task (settle tr to_string to_fixed1 local_date tauri now run s).
Proof.
  intros Hs Hrun Hdel (run' & id & H1 & H2 & Hne & H3).
  destruct (tt_settled_ok tr tr_with any_policy now run s Hs Hrun Hdel) as (Hs' & new & Hnew).
  apply (stuck_extends task (settled now run s)); [by apply begin_new_extends|].
  exists (if decide (run' < run) then run' else run' - 1), id. rewrite Hnew. split_and!; [|by apply lookup_delete_other|exact H3].
  apply lookup_app_l_Some. by apply lookup_delete_other.
Qed.

(** Whatever another call does. *)
Lemma after_stretch_stuck now task run id0 a s result :
  tasks_ok any_policy s → tt_awaits s !! run = Some a → stretch_ok any_policy id0 (await_temp a) s result →
  (∀ prompt, tt_prompt result.1 = Some prompt → cp_task prompt ≠ task) →
  (∃ run' id, tf_runs (tt_controller s) !! run' = Some (id, task) ∧ tt_awaits s !! run' = Some AwPrompt ∧ run' ≠ run) →
  stuck task (after_stretch tr to_string to_fixed1 local_date tauri now run result).
Proof.
  intros Hok Ha Hst Hp (run' & id & H1 & H2 & Hne). destruct result as [s' o].
  destruct (frame_settles any_policy s s' run id0 a o Hok Ha Hst) as (Hs' & Hdel & Hlt).
  assert (tt_awaits s' = tt_awaits s) as Haw by apply Hst.
  assert (tf_runs (tt_controller s') = tf_runs (tt_controller s)) as Hruns by apply Hst.
  unfold after_stretch. cbn [fst snd] in *. destruct o as [await|].
  - exists run', id. cbn. rewrite Hruns, list_lookup_insert_ne, Haw by done. done.
  - apply settle_stuck; [by apply Hs'|done|by apply Hdel|]. exists run', id. by rewrite Hruns, Haw.
Qed.

Lemma resume_stuck now task run go s :
  tasks_ok any_policy s → answer_ok any_policy any_body go →
  (∀ run' id body stretch, tf_runs (tt_controller s) !! run' = Some (id, task) → tt_awaits s !! run' = Some AwPrompt →
     go body AwPrompt = Some stretch → run' ≠ run) →
  (∀ entry body a stretch prompt, tf_runs (tt_controller s) !! run = Some entry → go body a = Some stretch →
     tt_prompt (stretch s).1 = Some prompt → a ≠ AwPrompt →
     (tt_prompt s = Some prompt ∨ ∃ id, tf_runs (tt_controller s) !! run = Some (id, cp_task prompt))) →
  (∀ body stretch, go body AwPrompt = Some stretch → tt_prompt (stretch s).1 = tt_prompt s) →
  stuck task s → stuck task (resume tr to_string to_fixed1 local_date tauri now run go s).
Proof.
  intros Hok Hgo Hother Hprompt Hsame Hst. pose proof Hst as (run' & id & H1 & H2 & H3). unfold resume.
  destruct (run_body run s) as [body|] eqn:Eb; [|done]. destruct (tt_awaits s !! run) as [a|] eqn:Ea; [|done].
  destruct (go body a) as [stretch|] eqn:Eg; [|done].
  assert (is_Some (tf_runs (tt_controller s) !! run)) as [entry Hentry] by (unfold run_body in Eb; destruct (tf_runs (tt_controller s) !! run); done).
  assert (run' ≠ run) as Hne.
  { intros ->. rewrite H2 in Ea. injection Ea as <-. by eapply Hother. }
  eapply after_stretch_stuck; [done|done| | |].
  - eapply Hgo; [done|done|apply Hok|by eapply run_body_ok|by intros p].
  - intros prompt Hp. assert (tt_prompt s = Some prompt ∨ ∃ id, tf_runs (tt_controller s) !! run = Some (id, cp_task prompt)) as [Hold|[id' Hnew]].
    { destruct (decide (a = AwPrompt)) as [->|Hap]; [|by eapply Hprompt]. left. by rewrite <- (Hsame body stretch). }
    + by apply H3.
    + intros Heq. apply Hne. apply (runs_unique s run' run id id' task); [apply Hok|done|by rewrite <- Heq].
  - eauto.
Qed.

Lemma extends_controller f s :
  tf_runs (tt_controller s) `prefix_of` tf_runs (f (tt_controller s)) → extends s (tt_with_controller f s).
Proof. intros H. by split_and!. Qed.

Lemma run_transfer_extends now rd connection job options s :
  tasks_ok any_policy s → job_ok any_policy (default (fresh (tt_ids s)) (op_transferId options)) job (op_policy options) →
  extends s (run_transfer tr tr_with to_string to_fixed1 local_date tauri fresh now rd connection job options s).
Proof.
  intros Hs Hj. unfold run_transfer. destruct connection as [connection|]; [|by destruct (op_transferId options)].
  set (body := mkTask _ _ _ _ _). set (s1 := match op_transferId options with Some _ => _ | None => _ end).
  assert (tasks_ok any_policy s1) as Hs1.
  { unfold s1. destruct (op_transferId options); [by apply tasks_update|]. apply tasks_next_id, tasks_items; [done|].
    apply add_items_ok; [apply Hs|done]. }
  assert (extends s s1) as Hext by (unfold s1; by destruct (op_transferId options)).
  destruct (enqueue_partly tr tr_with any_policy now (tb_id body) (length (tt_bodies s1)) body s1) as [Hp Hpre]; [done| |done..|].
  { constructor; [by intros q|..|done]. intros entry input Hd. cbn in Hd. subst job. destruct Hj as (q & Hq & _). by exists q. }
  etrans; [exact Hext|]. etrans; [|apply begin_new_extends; exact Hp]. by split_and!.
Qed.

Lemma each_extends {A} (run : A → TransferTasks → TransferTasks) (items : list A) s :
  (∀ item s, tasks_ok any_policy s → extends s (run item s) ∧ tasks_ok any_policy (run item s)) → tasks_ok any_policy s →
  extends s (each run items s) ∧ tasks_ok any_policy (each run items s).
Proof.
  intros Hrun. revert s. induction items as [|item items IH]; intros s Hs; [done|]. destruct (Hrun item s Hs) as [He Ho].
  destruct (IH _ Ho) as [He' Ho']. split; [by etrans|exact Ho'].
Qed.

Lemma finish_prompt body result s : tt_prompt (finish_transfer tr body result s) = tt_prompt s.
Proof.
  unfold finish_transfer, finishUploadTransfer, finishArchiveUploadTransfer, finish_upload, finishDownloadTransfer.
  destruct (tb_job body); by destruct (isTransferNoLongerActive _ _).
Qed.

(** Once the dialog of a task was replaced by another one, nothing ends the task. *)
Lemma lost_prompt_stays task s event :
  tasks_ok any_policy s → stuck task s → stuck task (task_step tr tr_with to_string to_fixed1 local_date tauri fresh s event).
Proof.
  intros Hok Hst.
  assert (∀ now rd connection job options s, tasks_ok any_policy s →
    job_ok any_policy (default (fresh (tt_ids s)) (op_transferId options)) job (op_policy options) →
    extends s (run_transfer tr tr_with to_string to_fixed1 local_date tauri fresh now rd connection job options s) ∧
    tasks_ok any_policy (run_transfer tr tr_with to_string to_fixed1 local_date tauri fresh now rd connection job options s)) as Hrun.
  { intros. split; [by apply run_transfer_extends|]. apply run_transfer_ok; [done|done|apply settings_any|done]. }
  destruct event; cbn [task_step].
  - unfold uploadRemoteFile. case_decide; [done|]. eapply stuck_extends; [|done]. apply each_extends; [|done]. intros. by apply Hrun.
  - unfold uploadRemoteDirectory. case_decide; [done|]. eapply stuck_extends; [|done]. apply each_extends; [|done]. intros. by apply Hrun.
  - unfold uploadRemoteItems. destruct (_ || _); [done|]. eapply stuck_extends; [|done]. cbv zeta.
    match goal with |- extends s (each _ _ ?s1) => assert (extends s s1 ∧ tasks_ok any_policy s1) as [H1 H2] end.
    { apply each_extends; [intros; by apply Hrun|done]. }
    etrans; [exact H1|]. apply each_extends; [intros; by apply Hrun|exact H2].
  - eapply stuck_extends; [|done]. by split_and!.
  - unfold uploadNativeDroppedPath. destruct metadata; (eapply stuck_extends; [|done]); try (by split_and!); by apply Hrun.
  - unfold downloadRemoteFiles. case_decide; [done|]. eapply stuck_extends; [|done]. apply each_extends; [|done]. intros. by apply Hrun.
  - unfold retryRemoteFileTransfer. destruct (getRemoteFileTransfer _ _) as [item|] eqn:Eg; [|done].
    apply js_find_Some in Eg as [Hitem _]. assert (item_ok any_policy item) as Hi.
    { destruct (po_data _ _ (ko_partly _ _ Hok)) as [Hi _ _]. rewrite Forall_forall in Hi. by apply Hi. }
    unfold item_ok in Hi. destruct (ti_retry item) as [retry|]; [|done]. specialize (Hi retry eq_refl).
    case_decide; [done|]. destruct (_ && _); [done|]. destruct retry; (eapply stuck_extends; [apply Hrun; [done|]|done]);
      try (by intros q). destruct Hi as (q & Hq & _). by exists q.
  - eapply stuck_extends; [|done]. apply extends_controller. unfold requestCancelTransfer.
    destruct (getRemoteFileTransfer _ _); [|done]. case_decide; [done|]. by case_decide.
  - eapply stuck_extends; [|done]. by split_and!.
  - eapply stuck_extends; [|done]. by split_and!.
  - eapply stuck_extends; [|done]. by split_and!.
  - eapply stuck_extends; [|done].
    match goal with |- context [setConcurrentTransfers now ?n] => set (c := mkTransfers (tf_items (tt_controller s)) n (tf_queue (tt_controller s))
        (tf_running (tt_controller s)) (tf_tasks (tt_controller s)) (tf_runs (tt_controller s)) (tf_started (tt_controller s))
        (tf_backend (tt_controller s)) (tf_progress (tt_controller s)) (tf_timer (tt_controller s))) end.
    etrans; [|apply begin_new_extends].
    + apply extends_controller. destruct (drain_new now (tf_queue c) c) as (new & Hn & _).
      change (tf_runs (tt_controller s) `prefix_of` tf_runs (drain_loop now (tf_queue c) c)). rewrite Hn. by apply prefix_app_r.
    + destruct (drain_controller_ok any_policy (known s) now c) as [Hd _]; [by destruct (partly_controller_ok _ _ (ko_partly _ _ Hok))|].
      apply partly_controller; [apply Hok| |exact Hd].
      apply (transfer_step_ok tr tr_with to_string to_fixed1 _ (TfLimit _ _)). apply Hok.
  - eapply stuck_extends; [|done]. by split_and!.
  - eapply stuck_extends; [|done]. apply extends_controller. unfold flushTransferProgress. by destruct (tf_timer _).
  - apply resume_stuck; [done|by apply checked_ok|done| |done|done].
    intros entry body a stretch prompt Hentry Hgo Hp _. destruct a; try done. injection Hgo as <-.
    destruct result as [error|[[name path]|]]; [by left| |left; by rewrite <- (with_policy_prompt now body PolicyRename)].
    right. rewrite Hentry in Hp |- *. destruct entry as [id k]. exists id. cbn in Hp. by destruct (job_upload (tb_job body)); injection Hp as <-.
  - unfold settleTransferConflictPrompt. destruct (tt_prompt s) as [shown|] eqn:Es; [|done].
    assert (stuck task (tt_with_prompt None s)) as Hst' by (destruct Hst as (run & id & ? & ? & _); by exists run, id).
    assert (tasks_ok any_policy (tt_with_prompt None s)) as Hok' by (destruct Hok as [[? ? ? [] ?] ?]; split; [|done]; by constructor).
    destruct (list_find _ _) as [[run e]|] eqn:Ef; [|done]. apply list_find_Some in Ef as (He & Hk & _).
    apply resume_stuck; [done|intros ???? _; by apply (chosen_ok tr to_string to_fixed1 local_date tauri any_policy now choice)|..|done].
    + intros run' id body stretch H1 _ _ ->. cbn in He, H1. rewrite H1 in He. injection He as <-. cbn in Hk.
      destruct Hst as (r & i & _ & _ & H3). by apply (H3 shown).
    + intros entry body a stretch prompt _ Hgo _ Ha. by destruct a.
    + intros body stretch Hgo. injection Hgo as <-. destruct choice; [apply with_policy_prompt|done].
  - apply resume_stuck; [done|by apply temp_made_ok|done| |done|done].
    intros entry body a stretch prompt Hentry Hgo Hp _. destruct a; try done. injection Hgo as <-. left. by destruct result.
  - apply resume_stuck; [done|by apply cache_reported_ok|done| |done|done].
    intros entry body a stretch prompt Hentry Hgo Hp _. destruct a; try done. injection Hgo as <-. left. destruct (tb_job body); try done. by destruct (cr_compress report).
  - apply resume_stuck; [done|by apply cache_written_ok|done| |done|done].
    intros entry body a stretch prompt Hentry Hgo Hp _. destruct a as [| | |policy path| |]; try done. injection Hgo as <-. left. destruct result; [done|]. by destruct (tb_job body).
  - apply resume_stuck; [done|by apply pulsed_ok|done| |done|done].
    intros entry body a stretch prompt Hentry Hgo Hp _. left. by destruct a as [| | | |path [pulse|]|pulse]; try done; injection Hgo as <-.
  - apply resume_stuck; [done|by apply called_ok|done| |done|done].
    intros entry body a stretch prompt Hentry Hgo Hp _. left. destruct a as [| | | |path pulse|]; try done. injection Hgo as <-.
    destruct result, path; cbn in Hp; rewrite ?finish_prompt in Hp; done.
  - apply resume_stuck; [done|by apply previewed_ok|done| |done|done].
    intros entry body a stretch prompt Hentry Hgo Hp _. left. destruct a; try done. injection Hgo as <-.
    cbn in Hp. by rewrite finish_prompt in Hp.
Qed.
End prompts.

(** ** Properties *)

(** Why a transfer may overwrite: one of its tasks was made while the settings said so, or
    the dialog was about it when the user chose that. *)
Definition overwrite_by_settings (id : string) (bodies : list TaskBody) : Prop :=
  ∃ body, body ∈ bodies ∧ tb_id body = id ∧ setting_policy (fs_conflictPolicyDefault (tb_settings body)) = PolicyOverwrite.

Definition overwrite_chosen (run : list TaskEvent → TransferTasks) (id : string) (events : list TaskEvent) : Prop :=
  ∃ before now after prompt body, events = before ++ TkChosen now (Some ChooseOverwrite) :: after ∧
    tt_prompt (run before) = Some prompt ∧ tt_bodies (run before) !! cp_task prompt = Some body ∧ tb_id body = id.

(** C38: what uploads and downloads do, for every sequence of picks, drops, retries, answers,
    cancellations and settings. The backend is never left to decide what happens to
    something that exists: every upload and download it is asked for has a policy and does
    not ask, and the policy is to overwrite only when a task of that very transfer was made
    while the settings said so, or when the user chose it while the dialog was about that
    transfer, also when it is retried later. The settings of a task are those that were
    read when it was made. Every task that runs waits for exactly one thing, no transfer
    runs twice, and every temporary file that was made belongs to a task that still needs
    it: when nothing runs, all are deleted. *)
Theorem transfer_tasks_safe tr tr_with to_string to_fixed1 local_date tauri fresh concurrentTransfers events :
  let run := task_run tr tr_with to_string to_fixed1 local_date tauri fresh concurrentTransfers in
  let s := run events in
  (∀ call id policy, call ∈ tt_calls s → call_transfer call = Some (id, policy) →
     ∃ p, policy = Some p ∧ p ≠ PolicyAsk ∧
       (p = PolicyOverwrite → overwrite_by_settings id (tt_bodies s) ∨ overwrite_chosen run id events)) ∧
  (∀ body, body ∈ tt_bodies s → ∃ event rd, event ∈ events ∧ event_read event = Some rd ∧ tb_settings body = tx_settings rd) ∧
  length (tt_awaits s) = length (tf_runs (tt_controller s)) ∧
  NoDup (tf_runs (tt_controller s)).*1 ∧
  (∀ path, path ∈ tt_temps s → ∃ await, await ∈ tt_awaits s ∧ await_temp await = Some path) ∧
  (tf_runs (tt_controller s) = [] → tt_temps s = []).
Proof.
  intros run s. set (allowed := λ id policy, policy ≠ PolicyAsk ∧
    (policy = PolicyOverwrite → overwrite_by_settings id (tt_bodies s) ∨ overwrite_chosen run id events)).
  assert (∀ id, allowed id PolicyRename) as Hrename by done.
  assert (tasks_ok allowed s) as Hok.
  { apply task_run_ok; [done| |].
    - apply Forall_forall. intros body Hbody Ha. split; [done|]. intros Ho. left. by exists body.
    - intros before event after He. destruct event as [| | | | | | | | | | | | | | |now [choice|]| | | | | |]; try done.
      intros prompt body Hp Hb. split; [by destruct choice|]. intros Ho. destruct choice; try done.
      right. by exists before, now, after, prompt, body. }
  pose proof (ko_length _ _ Hok) as Hlen. destruct Hok as [[Hq _ _ [_ _ Hcalls] Htemps] _].
  split_and!; [| |exact Hlen|apply Hq|exact Htemps|].
  - intros call id policy Hcall Ht. rewrite Forall_forall in Hcalls. exact (Hcalls call Hcall id policy Ht).
  - apply task_run_reads.
  - intros Hnil. rewrite Hnil in Hlen. apply elem_of_nil_inv. intros path Hpath. destruct (Htemps path Hpath) as (await & Ha & _).
    destruct (tt_awaits s); [by apply not_elem_of_nil in Ha|done].
Qed.

(** ** What goes wrong *)

Definition demo_settings : FileTransferSettings := mkFileTransfer "ask" 2 "" false false false false "yyyyMMddHHmm".
Definition demo_read : TransferRead :=
  mkTransferRead (Some (mkTransferConnection "c" "host" "host")) ∅ demo_settings.
Definition demo_run : list TaskEvent → TransferTasks :=
  task_run id (λ key _, key) (λ _, "") (λ _, "") (λ _, mkDate 2024 1 2 3 4) true (λ n, pretty.pretty (N.of_nat n)) 2.

(** Two uploads find their files: the dialog of the second replaces that of the first,
    whose task waits for ever and keeps its place in the queue. *)
Definition two_conflicts : list TaskEvent :=
  [TkUploadFiles 0 demo_read "/srv" ["/home/a"; "/home/b"]; TkChecked 1 0 (inr (Some ("a", "/srv/a")));
   TkChecked 2 1 (inr (Some ("b", "/srv/b"))); TkChosen 3 (Some ChooseSkip)].

Example replaced_prompt_stuck :
  tt_prompt (demo_run two_conflicts) = None ∧ stuck 0 (demo_run two_conflicts).
Proof. vm_compute. split; [done|]. exists 0, "0". by split_and!. Qed.

(** Cancelling an upload while its temporary file is written is undone by the next report
    of its progress, and the file is sent. *)
Definition canceled_cache : list TaskEvent :=
  [TkUploadItems 0 demo_read "/srv" [mkUpload (js "a") [1; 2]%Z (js "a")]; TkChecked 1 0 (inr None); TkTemp 2 0 (inr "/tmp/a");
   TkCancel "0"; TkCached 0 (mkReport false 2 0 None); TkCacheWritten 3 0 (inr 2%Z)].

Example canceled_upload_goes_on :
  ti_status <$> tf_items (tt_controller (demo_run canceled_cache)) = [TsRunning] ∧
  tf_backend (tt_controller (demo_run canceled_cache)) = ["0"] ∧
  last (tt_calls (demo_run canceled_cache)) = Some (CallUploadFile "c" PolicyRename "/tmp/a" "/srv/a" "0").
Proof. vm_compute. done. Qed.

(** An answer is used by the transfer that the dialog was about. *)
Example chosen_overwrites :
  last (tt_calls (demo_run [TkUploadFiles 0 demo_read "/srv" ["/home/a"; "/home/b"]; TkChecked 1 0 (inr (Some ("a", "/srv/a")));
    TkChosen 2 (Some ChooseOverwrite); TkChecked 3 1 (inr None)])) = Some (CallUploadFile "c" PolicyRename "/home/b" "/srv/b" "1") ∧
  tt_calls (demo_run [TkUploadFiles 0 demo_read "/srv" ["/home/a"]; TkChecked 1 0 (inr (Some ("a", "/srv/a")));
    TkChosen 2 (Some ChooseOverwrite)]) =
    [CallCheckPath "c" "/srv/a"; CallUploadFile "c" PolicyOverwrite "/home/a" "/srv/a" "0"].
Proof. vm_compute. done. Qed.
