(* ===== verification/CommandLibrary.v ===== *)
(** * The command library ([features/layout/WorkspaceShell.tsx], [features/commands/])

    Snippets and the history of commands: their groups, tags, titles and times, their order,
    the tree that the panel shows, the scopes of the history with their keys, and the warning
    about risky commands. Strings are byte strings: [trim] and the change of case act on
    ASCII, and lengths count bytes. *)

From S2P Require Import Prelude SessionTypes ShortcutKeys RemotePaths ConnectionInput.
From stdpp Require Import pretty.
From Stdlib Require Import Lia Strings.Ascii.

#[local] Open Scope nat_scope.

(** ** Data *)

Inductive CommandHistorySource := FromCommandSender | FromTerminalInput.

Inductive CommandHistoryScopeKind := ScopeSsh | ScopeLocal.

#[export] Instance CommandHistoryScopeKind_eq_dec : EqDecision CommandHistoryScopeKind.
Proof. solve_decision. Defined.

Record CommandHistoryScope := mkScope {
  sc_kind : CommandHistoryScopeKind;
  sc_id : string;
}.

#[export] Instance CommandHistoryScope_eq_dec : EqDecision CommandHistoryScope.
Proof. solve_decision. Defined.

Record CommandSnippet := mkSnippet {
  sn_id : string;
  sn_title : string;
  sn_command : string;
  sn_description : option string;
  sn_group : string;
  sn_tags : list string;
  sn_favorite : bool;
  sn_use_count : Z;
  sn_last_used_at : option string;
  sn_created_at : string;
  sn_updated_at : string;
}.

Record CommandSnippetInput := mkSnippetInput {
  si_id : option string;
  si_title : string;
  si_command : string;
  si_description : option string;
  si_group : option string;
  si_tags : list string;
  si_favorite : bool;
}.

Record CommandHistoryEntry := mkHistoryEntry {
  he_id : string;
  he_command : string;
  he_source : CommandHistorySource;
  he_target_count : Z;
  he_append_enter : bool;
  he_use_count : Z;
  he_last_used_at : string;
  he_created_at : string;
}.

(** The form of a snippet. *)
Record CommandSnippetDraft := mkSnippetDraft {
  dr_command : string;
  dr_description : string;
  dr_favorite : bool;
  dr_group : string;
  dr_id : option string;
  dr_tagsText : string;
  dr_title : string;
}.

(** ** Text *)

Definition comma : ascii := ","%char.
Definition line_feed : ascii := "010"%char.
Definition carriage_return : ascii := "013"%char.
(** The bytes of the wide comma. *)
Definition wide_comma : chars := ["239"%char; "188"%char; "140"%char].

Abbreviation to_chars := String.list_ascii_of_string.
Abbreviation of_chars := String.string_of_list_ascii.

(** A character goes to the front of the first part. *)
Definition push_part (c : ascii) (parts : list chars) : list chars :=
  match parts with [] => [[c]] | part :: parts => (c :: part) :: parts end.

(** [split(/\r?\n/)] *)
Fixpoint split_lines (s : chars) : list chars :=
  match s with
  | [] => [[]]
  | c :: rest =>
      if decide (c = line_feed) then [] :: split_lines rest
      else
        match rest with
        | d :: rest' => if decide (c = carriage_return ∧ d = line_feed) then [] :: split_lines rest' else push_part c (split_lines rest)
        | [] => [[c]]
        end
  end.

(** Splitting at commas of both widths. *)
Fixpoint split_commas (s : chars) : list chars :=
  match s with
  | [] => [[]]
  | c :: rest =>
      if decide (c = comma) then [] :: split_commas rest
      else
        match rest with
        | d :: e :: rest' => if decide ([c; d; e] = wide_comma) then [] :: split_commas rest' else push_part c (split_commas rest)
        | _ => push_part c (split_commas rest)
        end
  end.

Definition truncateCommandLabel (value : string) (maxLength : nat) : string :=
  if String.length value <=? maxLength then value
  else of_chars (take (maxLength - 3) (to_chars value)) +:+ "...".

Definition commandSnippetTitleFromCommand (command : string) : string :=
  match js_find (λ line, line ≠ []) (js_trim <$> split_lines (to_chars command)) with
  | Some line => truncateCommandLabel (of_chars line) 32
  | None => ""
  end.

Definition parseCommandSnippetTags (value : string) : list string :=
  of_chars <$> filter (λ tag, tag ≠ []) (js_trim <$> split_commas (to_chars value)).

Definition firstCommandLine (command : string) : string :=
  default "" (Some (of_chars (default [] (head (split_lines (to_chars command))))) ||? Some command).

(** ** Groups *)

Definition commandSnippetRootGroup : string := "".
Definition legacyCommandSnippetGroup : string := "未分组".

Definition normalizeCommandSnippetGroupValue (group : option string) : string :=
  let normalizedGroup := default "" ((trim_string <$> group) ||? Some commandSnippetRootGroup) in
  if decide (normalizedGroup = legacyCommandSnippetGroup) then commandSnippetRootGroup else normalizedGroup.

(** The panel has its own copy of it. *)
Definition normalizeSnippetGroupName : option string → string := normalizeCommandSnippetGroupValue.

Definition buildCommandSnippetDraft (command : string) (group : string) : CommandSnippetDraft :=
  let normalizedCommand := trim_string command in
  mkSnippetDraft normalizedCommand "" false (normalizeCommandSnippetGroupValue (Some group)) None ""
    (commandSnippetTitleFromCommand normalizedCommand).

Definition join_tags (tags : list string) : string := String.concat ", " tags.

Definition commandSnippetToDraft (snippet : CommandSnippet) : CommandSnippetDraft :=
  mkSnippetDraft (sn_command snippet) (default "" (sn_description snippet ||? Some "")) (sn_favorite snippet)
    (normalizeCommandSnippetGroupValue (Some (sn_group snippet))) (Some (sn_id snippet)) (join_tags (sn_tags snippet)) (sn_title snippet).

Definition commandSnippetToInput (snippet : CommandSnippet) (group : string) : CommandSnippetInput :=
  mkSnippetInput (Some (sn_id snippet)) (sn_title snippet) (sn_command snippet) (sn_description snippet ||? None)
    (nonempty (normalizeCommandSnippetGroupValue (Some group))) (sn_tags snippet) (sn_favorite snippet).

(** What saving a form sends. *)
Definition draft_input (draft : CommandSnippetDraft) : CommandSnippetInput :=
  mkSnippetInput (dr_id draft) (dr_title draft) (dr_command draft) (nonempty (dr_description draft))
    (nonempty (normalizeCommandSnippetGroupValue (Some (dr_group draft)))) (parseCommandSnippetTags (dr_tagsText draft)) (dr_favorite draft).

(** ** Order and times *)

Definition digit_char (c : ascii) : bool := (48 <=? nat_of_ascii c) && (nat_of_ascii c <=? 57).

Definition decimal_value (s : chars) : Z := foldl (λ v c, v * 10 + Z.of_nat (nat_of_ascii c - 48))%Z 0%Z s.

Section library.
(** [left.localeCompare(right)] as a sign, and [Date.parse]. *)
Context (compare : string → string → Z) (date_parse : string → option Z).

Definition commandLibraryTimestampMs (value : option string) : option Z :=
  match (trim_string <$> value) ||? None with
  | None => None
  | Some normalized =>
      let s := to_chars normalized in
      if forallb digit_char s then Some (if (length s <=? 10)%nat then decimal_value s * 1000 else decimal_value s)%Z
      else date_parse normalized
  end.

Definition compareCommandLibraryTimestampsDesc (left right : option string) : Z :=
  (default 0 (commandLibraryTimestampMs right) - default 0 (commandLibraryTimestampMs left))%Z.

(** [a || b] on numbers. *)
Definition or_number (a b : Z) : Z := if decide (a = 0)%Z then b else a.

Definition compareCommandSnippets (left right : CommandSnippet) : Z :=
  if negb (Bool.eqb (sn_favorite left) (sn_favorite right)) then if sn_favorite left then -1 else 1
  else
    or_number (or_number (compareCommandLibraryTimestampsDesc (sn_last_used_at left) (sn_last_used_at right))
      (compareCommandLibraryTimestampsDesc (Some (sn_updated_at left)) (Some (sn_updated_at right))))
      (compare (sn_title left) (sn_title right)).

Definition sort_snippets : list CommandSnippet → list CommandSnippet := js_sort (λ x y, 0 <? compareCommandSnippets x y)%Z.
Definition sort_names : list string → list string := js_sort (λ x y, 0 <? compare x y)%Z.

Definition upsertCommandSnippet (snippets : list CommandSnippet) (snippet : CommandSnippet) : list CommandSnippet :=
  sort_snippets (snippet :: filter (λ item, sn_id item ≠ sn_id snippet) snippets).

Definition add_group (groups : list string) (group : option string) : list string :=
  let group := normalizeCommandSnippetGroupValue group in
  if decide (group = "" ∨ group ∈ groups) then groups else groups ++ [group].

Definition buildCommandSnippetGroupCatalog (snippets : list CommandSnippet) (localGroups : list string) : list string :=
  sort_names (foldl add_group (foldl add_group [] ((λ s, Some (sn_group s)) <$> snippets)) (Some <$> localGroups)).

Definition appendCommandSnippetLocalGroup (groups : list string) (groupName : string) : list string :=
  let normalizedGroup := normalizeCommandSnippetGroupValue (Some groupName) in
  if decide (normalizedGroup = "" ∨ normalizedGroup ∈ groups) then groups else sort_names (groups ++ [normalizedGroup]).

(** ** The tree of the panel *)

Definition includes (value query : string) : bool := match String.index 0 query value with Some _ => true | None => false end.

Definition snippetMatchesQuery (snippet : CommandSnippet) (normalizedQuery : string) : bool :=
  bool_decide (normalizedQuery = "") ||
  existsb (λ value, includes (toLowerCase value) normalizedQuery)
    ([sn_title snippet; sn_command snippet; default "" (sn_description snippet ||? Some ""); normalizeSnippetGroupName (Some (sn_group snippet))] ++ sn_tags snippet).

Definition historyMatchesQuery (entry : CommandHistoryEntry) (normalizedQuery : string) : bool :=
  bool_decide (normalizedQuery = "") || includes (toLowerCase (he_command entry)) normalizedQuery.

Record SnippetTree := mkTree {
  tr_groups : list (string * list CommandSnippet);
  tr_rootSnippets : list CommandSnippet;
}.

Definition tree_add (normalizedQuery : string) (tree : jsmap (list CommandSnippet) * list CommandSnippet) (snippet : CommandSnippet) :
    jsmap (list CommandSnippet) * list CommandSnippet :=
  if negb (snippetMatchesQuery snippet normalizedQuery) then tree
  else
    let group := normalizeSnippetGroupName (Some (sn_group snippet)) in
    if decide (group = "") then (tree.1, tree.2 ++ [snippet])
    else (jsmap_set group (default [] (jsmap_get group tree.1) ++ [snippet]) tree.1, tree.2).

Definition explicit_groups (explicitGroups : list string) : jsmap (list CommandSnippet) :=
  foldl (λ groups groupName,
    let normalizedGroup := normalizeSnippetGroupName (Some groupName) in
    if decide (normalizedGroup = "") then groups else jsmap_set normalizedGroup [] groups) [] explicitGroups.

Definition buildSnippetTree (snippets : list CommandSnippet) (explicitGroups : list string) (normalizedQuery : string) : SnippetTree :=
  let tree := foldl (tree_add normalizedQuery) (explicit_groups explicitGroups, []) snippets in
  mkTree (js_sort (λ x y : string * list CommandSnippet, 0 <? compare x.1 y.1)%Z
    (filter (λ g : string * list CommandSnippet, g.2 ≠ [] ∨ normalizedQuery = "") tree.1)) tree.2.
End library.

(** An order of strings, by their bytes. *)
Fixpoint byte_compare (x y : string) : Z :=
  match x, y with
  | EmptyString, EmptyString => 0
  | EmptyString, String _ _ => -1
  | String _ _, EmptyString => 1
  | String a x, String b y =>
      let d := (Z.of_nat (nat_of_ascii a) - Z.of_nat (nat_of_ascii b))%Z in if decide (d = 0)%Z then byte_compare x y else d
  end.

(** ** Scopes of the history *)

Definition commandHistoryAllScopeKey : string := "all".
Definition commandHistorySshScopePrefix : string := "ssh:".
Definition commandHistoryLocalScopePrefix : string := "local:".

Definition commandHistoryKeyForScope (scope : option CommandHistoryScope) : string :=
  match scope with
  | None => commandHistoryAllScopeKey
  | Some scope =>
      match sc_kind scope with
      | ScopeSsh => commandHistorySshScopePrefix +:+ sc_id scope
      | ScopeLocal => commandHistoryLocalScopePrefix +:+ sc_id scope
      end
  end.

Definition commandHistoryScopeFromKey (key : string) : option CommandHistoryScope :=
  if starts_with commandHistorySshScopePrefix key
  then Some (mkScope ScopeSsh (drop_chars (String.length commandHistorySshScopePrefix) key))
  else if starts_with commandHistoryLocalScopePrefix key
  then Some (mkScope ScopeLocal (drop_chars (String.length commandHistoryLocalScopePrefix) key))
  else None.

Definition commandHistoryDefaultScopeKey (activeConnectionId : option string) (activeLocalTerminalTab : option LocalTerminalTab)
    (activeWorkspaceMode : WorkspaceMode) : string :=
  match activeWorkspaceMode, activeLocalTerminalTab, activeConnectionId with
  | ModeLocal, Some tab, _ =>
      if truthy (Some (lt_profileId tab)) then commandHistoryKeyForScope (Some (mkScope ScopeLocal (lt_profileId tab)))
      else commandHistoryAllScopeKey
  | ModeSsh, _, Some id =>
      if truthy (Some id) then commandHistoryKeyForScope (Some (mkScope ScopeSsh id)) else commandHistoryAllScopeKey
  | _, _, _ => commandHistoryAllScopeKey
  end.

(** What the scopes and the targets read of a connection and of a local profile. *)
Record SenderConnection := mkSenderConnection {
  sd_id : string;
  sd_name : string;
  sd_protocol : option ConnectionProtocol;
  sd_host : string;
  sd_port : Z;
  sd_username : string;
  sd_serial_port : option string;
}.

(** [isSshConnection] *)
Definition sd_ssh (connection : SenderConnection) : bool := bool_decide (default Ssh (sd_protocol connection) = Ssh).

Definition formatConnectionAddress (connection : SenderConnection) : string :=
  match default Ssh (sd_protocol connection) with
  | Telnet => sd_host connection +:+ ":" +:+ pretty (sd_port connection)
  | Serial => default (sd_host connection) (sd_serial_port connection ||? None)
  | _ => sd_username connection +:+ "@" +:+ sd_host connection +:+ ":" +:+ pretty (sd_port connection)
  end.

Record SenderProfile := mkSenderProfile {
  lp_id : string;
  lp_name : string;
  lp_hidden : bool;
}.

Record CommandHistoryScopeOption := mkScopeOption {
  op_badge : option string;
  op_label : string;
  op_value : string;
}.

Definition add_option (options : list CommandHistoryScopeOption) (option_ : CommandHistoryScopeOption) : list CommandHistoryScopeOption :=
  if decide (op_value option_ ∈ (op_value <$> options)) then options else options ++ [option_].

Section scopes.
Context (tr : string → string) (tr_name : string → string → string).

Definition scope_candidates (activeConnection : option SenderConnection) (activeLocalTerminalTab : option LocalTerminalTab)
    (activeWorkspaceMode : WorkspaceMode) (connections : list SenderConnection) (defaultScopeKey : string)
    (localTerminalProfiles : list SenderProfile) : list CommandHistoryScopeOption :=
  let local := Some (tr "workspace.command.target.local") in
  match activeWorkspaceMode, activeLocalTerminalTab, activeConnection with
  | ModeLocal, Some tab, _ =>
      let activeProfile := js_find (λ profile, lp_id profile = lt_profileId tab) localTerminalProfiles in
      [mkScopeOption local
         (tr_name "workspace.command.target.currentTerminal" (default (lt_title tab) ((lp_name <$> activeProfile) ||? None)))
         defaultScopeKey]
  | ModeSsh, _, Some connection =>
      if sd_ssh connection
      then [mkScopeOption (Some "SSH") (tr_name "workspace.command.target.currentConnection" (sd_name connection)) defaultScopeKey] else []
  | _, _, _ => []
  end ++
  ((λ connection, mkScopeOption (Some "SSH") (sd_name connection) (commandHistoryKeyForScope (Some (mkScope ScopeSsh (sd_id connection)))))
     <$> filter (λ connection, sd_ssh connection = true) connections) ++
  ((λ profile, mkScopeOption local (lp_name profile) (commandHistoryKeyForScope (Some (mkScope ScopeLocal (lp_id profile)))))
     <$> filter (λ profile, lp_hidden profile = false ∨ Some (lp_id profile) = (lt_profileId <$> activeLocalTerminalTab)) localTerminalProfiles) ++
  [mkScopeOption None (tr "workspace.command.target.allHistory") commandHistoryAllScopeKey].

Definition buildCommandHistoryScopeOptions activeConnection activeLocalTerminalTab activeWorkspaceMode connections defaultScopeKey
    localTerminalProfiles : list CommandHistoryScopeOption :=
  foldl add_option [] (scope_candidates activeConnection activeLocalTerminalTab activeWorkspaceMode connections defaultScopeKey localTerminalProfiles).
End scopes.

Definition uniqueCommandHistoryScopes (scopes : list CommandHistoryScope) : list CommandHistoryScope :=
  (foldl (λ unique scope, jsmap_set (commandHistoryKeyForScope (Some scope)) scope unique) ([] : jsmap CommandHistoryScope) scopes).*2.

(** ** Risky commands

    The patterns, over the lower-case characters of a command. *)

Definition word_char (c : ascii) : bool :=
  let n := nat_of_ascii c in
  digit_char c || ((65 <=? n) && (n <=? 90)) || ((97 <=? n) && (n <=? 122)) || (n =? 95).

Definition word_at (s : chars) : bool := match s with c :: _ => word_char c | [] => false end.

(** [\bword] at the front of [s], after the character [before]: what follows the word. *)
Definition after_word (word : string) (before : option ascii) (s : chars) : option chars :=
  let w := to_chars word in
  if from_option word_char false before then None
  else if decide (take (length w) s = w) then Some (drop (length w) s) else None.

(** The rest of the line. *)
Fixpoint until_chars (stop : ascii → bool) (s : chars) : chars :=
  match s with c :: s => if stop c then [] else c :: until_chars stop s | [] => [] end.

Definition line_end (c : ascii) : bool := bool_decide (c = line_feed ∨ c = carriage_return).

(** [r[^\n\r]*f] somewhere in a line. *)
Fixpoint r_then_f (line : chars) : bool :=
  match line with
  | c :: line => (bool_decide (c = "r"%char) && bool_decide ("f"%char ∈ line)) || r_then_f line
  | [] => false
  end.

Definition destructive_at (before : option ascii) (s : chars) : bool :=
  existsb (λ word, match after_word word before s with Some rest => negb (word_at rest) | None => false end)
    ["sudo"; "mkfs"; "shutdown"; "reboot"].

Definition remove_at (before : option ascii) (s : chars) : bool :=
  match after_word "rm" before s with
  | Some (c :: rest) =>
      is_space c &&
      match trim_start rest with
      | d :: rest => bool_decide (d = "-"%char) && r_then_f (until_chars line_end rest)
      | [] => false
      end
  | _ => false
  end.

Definition pipe_at (before : option ascii) (s : chars) : bool :=
  existsb (λ word,
    match after_word word before s with
    | Some rest =>
        negb (word_at rest) &&
        let stop c := line_end c || bool_decide (c = "|"%char) in
        match drop (length (until_chars stop rest)) rest with
        | d :: rest =>
            bool_decide (d = "|"%char) &&
            existsb (λ shell, match after_word shell None (trim_start rest) with Some rest => negb (word_at rest) | None => false end) ["sh"; "bash"]
        | [] => false
        end
    | None => false
    end) ["curl"; "wget"].

Fixpoint risky_from (before : option ascii) (s : chars) : bool :=
  destructive_at before s || remove_at before s || pipe_at before s ||
  match s with c :: s => risky_from (Some c) s | [] => false end.

Definition isCommandSenderRisky (command : string) : bool := risky_from None (to_chars (toLowerCase command)).

Example risky_examples :
  isCommandSenderRisky "sudo ls" = true ∧ isCommandSenderRisky "pseudo ls" = false ∧ isCommandSenderRisky "rm -rf /" = true ∧
  isCommandSenderRisky "CURL http://x | BASH" = true ∧ isCommandSenderRisky "curl x | shx" = false.
Proof. vm_compute. done. Qed.

(** The warning needs an r before an f: the same flags in the other order go without. *)
Example rm_fr_unnoticed : isCommandSenderRisky "rm -fr /" = false ∧ isCommandSenderRisky "rm -i report.pdf" = true.
Proof. vm_compute. done. Qed.

(** ** Lemmas: tags *)

(** A text that has no comma of either width. *)
Record clean (s : chars) : Prop := {
  cl_comma : comma ∉ s;
  cl_wide : ∀ a b, s ≠ a ++ wide_comma ++ b;
}.

Lemma clean_infix a b c : clean (a ++ b ++ c) → clean b.
Proof.
  intros [H1 H2]. split; [set_solver|]. intros x y ->. apply (H2 (a ++ x) (y ++ c)). by rewrite <- !app_assoc.
Qed.

Lemma split_commas_nonnil s : split_commas s ≠ [].
Proof.
  assert (∀ c l, push_part c l ≠ []) as Hp by (by intros c [|]).
  destruct s as [|c [|d [|e s]]]; cbn [split_commas]; repeat case_decide; done.
Qed.

(** Strong induction along the splitting. *)
Lemma split_commas_ind (P : chars → list chars → Prop) :
  P [] [[]] →
  (∀ s, P s (split_commas s) → P (comma :: s) ([] :: split_commas s)) →
  (∀ s, P s (split_commas s) → P (wide_comma ++ s) ([] :: split_commas s)) →
  (∀ c s, c ≠ comma → (∀ b, c :: s ≠ wide_comma ++ b) → P s (split_commas s) → P (c :: s) (push_part c (split_commas s))) →
  ∀ s, P s (split_commas s).
Proof.
  intros H0 H1 H2 H3 s. remember (length s) as n eqn:Hn. revert s Hn. induction n as [n IH] using lt_wf_ind. intros s ->.
  assert (∀ s', length s' < length s → P s' (split_commas s')) as Hgo by (intros s' Hs'; by eapply IH).
  clear IH. destruct s as [|c s]; [done|]. destruct (decide (c = comma)) as [->|Hc].
  { cbn [split_commas]. rewrite decide_True by done. apply H1, Hgo. cbn. lia. }
  destruct s as [|d [|e s]]; cbn [split_commas]; rewrite (decide_False (P := c = comma)) by done.
  - apply (H3 c []); [done| |by apply Hgo; cbn; lia]. intros b [=].
  - apply (H3 c [d]); [done| |by apply Hgo; cbn; lia]. intros b [=].
  - destruct (decide ([c; d; e] = wide_comma)) as [E|E].
    + injection E as -> -> ->. apply H2, Hgo. cbn. lia.
    + apply (H3 c (d :: e :: s)); [done| |by apply Hgo; cbn; lia]. intros b [= -> -> -> _]. by apply E.
Qed.

Lemma split_commas_parts s : ∃ part parts, split_commas s = part :: parts ∧ part `prefix_of` s ∧ Forall clean (part :: parts).
Proof.
  assert (clean []) as Hnil by (split; [by apply not_elem_of_nil|]; by intros [|? ?] b).
  apply (split_commas_ind (λ s l, ∃ part parts, l = part :: parts ∧ part `prefix_of` s ∧ Forall clean (part :: parts))); clear s.
  - exists [], []. split_and!; [done|apply prefix_nil|by constructor].
  - intros s (part & parts & -> & _ & Hc). exists [], (part :: parts). split_and!; [done|apply prefix_nil|by constructor].
  - intros s (part & parts & -> & _ & Hc). exists [], (part :: parts). split_and!; [done|apply prefix_nil|by constructor].
  - intros c s Hc Hw (part & parts & -> & Hpre & [[Hp1 Hp2] Hps]%Forall_cons). exists (c :: part), parts.
    split_and!; [done|by apply prefix_cons|]. constructor; [|done]. split; [by apply not_elem_of_cons|].
    intros [|x a] b Heq; [|injection Heq as _ Heq; by apply (Hp2 a b)].
    destruct Hpre as [tail ->]. apply (Hw (b ++ tail)). cbn in Heq |- *. injection Heq as -> ->. done.
Qed.

Lemma split_commas_app p s : clean p → split_commas (p ++ comma :: s) = p :: split_commas s.
Proof.
  induction p as [|c p IH]; intros Hp; [done|].
  assert (clean p) as Hp' by (apply (clean_infix [c] p []); by rewrite app_nil_r).
  destruct Hp as [[Hc _]%not_elem_of_cons Hw]. specialize (IH Hp').
  cbn [app split_commas]. rewrite decide_False by done. rewrite IH. cbn [push_part].
  destruct p as [|d [|e p]]; cbn [app].
  - destruct s as [|e s]; [done|]. by rewrite decide_False by (intros [=]).
  - by rewrite decide_False by (intros [=]).
  - rewrite decide_False; [done|]. intros E. injection E as -> -> ->. by apply (Hw [] p).
Qed.

Lemma split_commas_clean p : clean p → split_commas p = [p].
Proof.
  induction p as [|c p IH]; intros Hp; [done|].
  assert (clean p) as Hp' by (apply (clean_infix [c] p []); by rewrite app_nil_r).
  destruct Hp as [[Hc _]%not_elem_of_cons Hw]. specialize (IH Hp').
  destruct p as [|d [|e p]]; cbn [split_commas] in *; rewrite (decide_False (P := c = comma)) by done; rewrite ?IH; try done.
  rewrite decide_False; [done|]. intros E. injection E as -> -> ->. by apply (Hw [] p).
Qed.

(** A tag as the form keeps it. *)
Record tag_ok (tag : chars) : Prop := {
  tg_clean : clean tag;
  tg_trim : js_trim tag = tag;
  tg_nonempty : tag ≠ [];
}.

Lemma js_trim_infix s : ∃ a b, s = a ++ js_trim s ++ b.
Proof.
  destruct (trim_start_suffix s) as [a Ha], (trim_end_prefix (trim_start s)) as [b Hb]. exists a, b. unfold js_trim.
  by rewrite <- Hb.
Qed.

Lemma parsed_tags_ok value : Forall (λ tag, tag_ok (to_chars tag)) (parseCommandSnippetTags value).
Proof.
  unfold parseCommandSnippetTags. apply Forall_fmap, Forall_forall. intros tag [Hne Htag]%list_elem_of_filter.
  apply list_elem_of_fmap in Htag as (part & -> & Hpart). unfold compose. rewrite String.list_ascii_of_string_of_list_ascii.
  split; [|apply js_trim_idem|done].
  destruct (split_commas_parts (to_chars value)) as (p & ps & E & _ & Hc). rewrite E in Hpart.
  rewrite Forall_forall in Hc. destruct (js_trim_infix part) as (a & b & Hab). apply (clean_infix a _ b). rewrite <- Hab. by apply Hc.
Qed.

Lemma to_chars_app a b : to_chars (a +:+ b) = to_chars a ++ to_chars b.
Proof.
  induction a as [|c a IH]; [done|]. change (c :: to_chars (a +:+ b) = c :: (to_chars a ++ to_chars b)). by rewrite IH.
Qed.

Lemma blank_clean tag : clean tag → clean (" "%char :: tag).
Proof.
  intros [H1 H2]. split; [by apply not_elem_of_cons|]. intros [|x a] b Heq; [done|]. injection Heq as _ Heq. by apply (H2 a b).
Qed.

Lemma js_trim_blank tag : js_trim (" "%char :: tag) = js_trim tag.
Proof. done. Qed.

Lemma parse_chars l lead :
  Forall (λ tag, tag_ok (to_chars tag)) l → lead = [] ∨ lead = [" "%char] →
  l ≠ [] → filter (λ tag, tag ≠ []) (js_trim <$> split_commas (lead ++ to_chars (join_tags l))) = to_chars <$> l.
Proof.
  intros Hl. revert lead. induction Hl as [|tag l [Ht1 Ht2 Ht3] Hl IH]; intros lead Hlead Hne; [done|].
  assert (clean (lead ++ to_chars tag)) as Hclean by (destruct Hlead as [->| ->]; [exact Ht1|exact (blank_clean _ Ht1)]).
  assert (js_trim (lead ++ to_chars tag) = to_chars tag) as Htrim by (destruct Hlead as [->| ->]; exact Ht2).
  destruct l as [|tag' l].
  - unfold join_tags. cbn [String.concat]. rewrite split_commas_clean by done. cbn [fmap list_fmap]. rewrite Htrim.
    by rewrite filter_cons_True.
  - assert (to_chars (join_tags (tag :: tag' :: l)) = to_chars tag ++ comma :: " "%char :: to_chars (join_tags (tag' :: l))) as ->.
    { unfold join_tags. change (String.concat ", " (tag :: tag' :: l)) with (tag +:+ (", " +:+ String.concat ", " (tag' :: l))).
      by rewrite !to_chars_app. }
    rewrite app_assoc, split_commas_app by done. rewrite fmap_cons, Htrim, filter_cons_True by done. rewrite (fmap_cons to_chars). f_equal.
    apply (IH [" "%char]); [by right|done].
Qed.

(** What was parsed is parsed again from its own text. *)
Lemma tags_roundtrip value : parseCommandSnippetTags (join_tags (parseCommandSnippetTags value)) = parseCommandSnippetTags value.
Proof.
  pose proof (parsed_tags_ok value) as Hl. set (l := parseCommandSnippetTags value) in *. clearbody l.
  unfold parseCommandSnippetTags. destruct l as [|tag l]; [done|].
  pose proof (parse_chars (tag :: l) [] Hl (or_introl eq_refl) ltac:(done)) as Hp. cbn [app] in Hp. rewrite Hp, <- list_fmap_compose.
  rewrite <- (list_fmap_id (tag :: l)) at 2. apply list_fmap_ext. intros i x _. apply String.string_of_list_ascii_of_string.
Qed.

(** ** Lemmas: groups and scopes *)

Lemma normalize_group_idem group : normalizeCommandSnippetGroupValue (Some (normalizeCommandSnippetGroupValue group)) = normalizeCommandSnippetGroupValue group.
Proof.
  unfold normalizeCommandSnippetGroupValue at 2 3. case_decide as E; [done|]. set (g := default "" _) in *.
  assert (trim_string g = g) as Ht.
  { unfold g, js_or. destruct group as [group|]; cbn; [|done]. destruct (negb (trim_string group =? "")%string); [|done]. apply trim_string_idem. }
  unfold normalizeCommandSnippetGroupValue, js_or. cbn [fmap option_fmap option_map truthy]. rewrite Ht.
  destruct (String.eqb_spec g "") as [->|Hg]; [done|]. cbn. by rewrite decide_False.
Qed.

Lemma normalize_group_named group : let g := normalizeCommandSnippetGroupValue group in trim_string g = g ∧ g ≠ legacyCommandSnippetGroup.
Proof.
  unfold normalizeCommandSnippetGroupValue. cbv zeta. case_decide as E; [done|]. split; [|done]. clear E.
  destruct group as [group|]; [|done]. unfold js_or. cbn. destruct (negb (trim_string group =? "")%string); [|done]. apply trim_string_idem.
Qed.

Lemma scope_roundtrip scope : commandHistoryScopeFromKey (commandHistoryKeyForScope scope) = scope.
Proof.
  destruct scope as [[[] id]|]; unfold commandHistoryScopeFromKey, commandHistoryKeyForScope; cbn [sc_kind sc_id]; [| |done].
  - by rewrite starts_with_app, drop_chars_app.
  - assert (starts_with commandHistorySshScopePrefix (commandHistoryLocalScopePrefix +:+ id) = false) as -> by done.
    by rewrite starts_with_app, drop_chars_app.
Qed.

#[export] Instance scope_key_inj : Inj (=) (=) commandHistoryKeyForScope.
Proof. intros a b H. by rewrite <- (scope_roundtrip a), <- (scope_roundtrip b), H. Qed.

Lemma add_group_spec groups l :
  NoDup groups → Forall (λ g, g ≠ "" ∧ normalizeCommandSnippetGroupValue (Some g) = g) groups →
  let out := foldl add_group groups l in
  NoDup out ∧ Forall (λ g, g ≠ "" ∧ normalizeCommandSnippetGroupValue (Some g) = g) out ∧
  (∀ g, g ∈ out ↔ g ∈ groups ∨ (g ≠ "" ∧ ∃ x, x ∈ l ∧ normalizeCommandSnippetGroupValue x = g)).
Proof.
  revert groups. induction l as [|x l IH]; intros groups Hnd Hok; cbn [foldl]; cbv zeta.
  { split_and!; [done..|]. intros g. split; [by left|]. intros [?|(_ & x & Hx & _)]; [done|]. by apply not_elem_of_nil in Hx. }
  destruct (IH (add_group groups x)) as (H1 & H2 & H3).
  - unfold add_group. case_decide as E; [done|]. apply NoDup_app. split_and!; [done| |apply NoDup_singleton]. set_solver.
  - unfold add_group. case_decide as E; [done|]. apply Forall_app. split; [done|]. constructor; [|done].
    split; [tauto|apply normalize_group_idem].
  - split_and!; [done..|]. intros g. rewrite H3. unfold add_group. case_decide as E; [|set_solver].
    split; [set_solver|]. intros [?|(Hg & y & [->|Hy]%elem_of_cons & <-)]; [by left| |right; eauto].
    left. tauto.
Qed.

Lemma foldl_add_option_spec options l :
  NoDup (op_value <$> options) →
  let out := foldl add_option options l in
  NoDup (op_value <$> out) ∧ (∀ v, v ∈ op_value <$> out ↔ v ∈ op_value <$> options ∨ v ∈ op_value <$> l).
Proof.
  revert options. induction l as [|x l IH]; intros options Hnd; cbn [foldl]; cbv zeta.
  { split; [done|]. intros v. cbn. set_solver. }
  destruct (IH (add_option options x)) as [H1 H2].
  - unfold add_option. case_decide as E; [done|]. rewrite fmap_app. apply NoDup_app. split_and!; [done| |apply NoDup_singleton]. set_solver.
  - split; [done|]. intros v. rewrite H2, fmap_cons, elem_of_cons. unfold add_option. case_decide as E; [|rewrite fmap_app; set_solver].
    split; [set_solver|]. intros [?|[->|?]]; auto.
Qed.

Lemma unique_scopes_spec (unique : jsmap CommandHistoryScope) l :
  NoDup unique.*1 → Forall (λ e, e.1 = commandHistoryKeyForScope (Some e.2)) unique →
  let out := foldl (λ unique scope, jsmap_set (commandHistoryKeyForScope (Some scope)) scope unique) unique l in
  NoDup out.*1 ∧ Forall (λ e, e.1 = commandHistoryKeyForScope (Some e.2)) out ∧
  (∀ scope, scope ∈ out.*2 ↔ scope ∈ unique.*2 ∨ scope ∈ l).
Proof.
  revert unique. induction l as [|x l IH]; intros unique Hnd Hok; cbn [foldl]; cbv zeta.
  { split_and!; [done..|]. intros scope. set_solver. }
  set (key := commandHistoryKeyForScope (Some x)).
  assert (Forall (λ e, e.1 = commandHistoryKeyForScope (Some e.2)) (jsmap_set key x unique) ∧
    ∀ scope, scope ∈ (jsmap_set key x unique).*2 ↔ scope ∈ unique.*2 ∨ scope = x) as [Hok' Hin].
  { clear - Hok. induction unique as [|[k v] m IHm]; cbn [jsmap_set].
    - split; [by repeat constructor|]. intros scope. cbn. set_solver.
    - apply Forall_cons in Hok as [Hk Hm]. cbn in Hk. destruct (IHm Hm) as [G1 G2]. case_decide as E; rewrite !fmap_cons; cbn [snd].
      + split; [by constructor|]. intros scope. assert (v = x) as -> by (assert (Some x = Some v) as [=] by (apply (inj commandHistoryKeyForScope); exact (eq_trans E Hk)); done). set_solver.
      + split; [by constructor|]. intros scope. rewrite !elem_of_cons, G2. tauto. }
  destruct (IH (jsmap_set key x unique)) as (H1 & H2 & H3); [by apply jsmap_set_NoDup|done|].
  split_and!; [done..|]. intros scope. rewrite H3, Hin, elem_of_cons. tauto.
Qed.

(** ** Lemmas: the tree *)

Lemma tree_add_items (groups : jsmap (list CommandSnippet)) (group : string) (snippet : CommandSnippet) :
  concat (jsmap_set group (default [] (jsmap_get group groups) ++ [snippet]) groups).*2 ≡ₚ snippet :: concat groups.*2.
Proof.
  induction groups as [|[k v] groups IH]; cbn [jsmap_set jsmap_get]; [done|]. case_decide as E; cbn [fmap list_fmap concat snd].
  - cbn [default]. rewrite <- app_assoc. cbn [app]. by rewrite <- Permutation_middle.
  - rewrite IH. by rewrite <- Permutation_middle.
Qed.

Lemma tree_loop query snippets groups root :
  let out := foldl (tree_add query) (groups, root) snippets in
  NoDup groups.*1 → Forall (λ k, k ≠ "") groups.*1 →
  NoDup out.1.*1 ∧ Forall (λ k, k ≠ "") out.1.*1 ∧
  concat out.1.*2 ++ out.2 ≡ₚ concat groups.*2 ++ root ++ filter (λ s, snippetMatchesQuery s query = true) snippets ∧
  ((Forall (λ g : string * list CommandSnippet, Forall (λ s, normalizeSnippetGroupName (Some (sn_group s)) = g.1) g.2) groups) →
    Forall (λ s, normalizeSnippetGroupName (Some (sn_group s)) = "") root →
    Forall (λ g : string * list CommandSnippet, Forall (λ s, normalizeSnippetGroupName (Some (sn_group s)) = g.1) g.2) out.1 ∧
    Forall (λ s, normalizeSnippetGroupName (Some (sn_group s)) = "") out.2).
Proof.
  cbv zeta. revert groups root. induction snippets as [|s snippets IH]; intros groups root Hnd Hne; cbn [foldl].
  { split_and!; [done..|by rewrite app_nil_r|done]. }
  assert (tree_add query (groups, root) s = if negb (snippetMatchesQuery s query) then (groups, root) else
    if decide (normalizeSnippetGroupName (Some (sn_group s)) = "") then (groups, root ++ [s])
    else (jsmap_set (normalizeSnippetGroupName (Some (sn_group s)))
      (default [] (jsmap_get (normalizeSnippetGroupName (Some (sn_group s))) groups) ++ [s]) groups, root)) as -> by done.
  destruct (snippetMatchesQuery s query) eqn:Em; cbn [negb].
  2: { rewrite filter_cons_False by by rewrite Em. by apply IH. }
  rewrite filter_cons_True by done. case_decide as Eg; cbn [fst snd].
  - destruct (IH groups (root ++ [s])) as (H1 & H2 & H3 & H4); [done..|]. split_and!; [done..|by rewrite H3, <- app_assoc|].
    intros Hg Hr. apply H4; [done|]. apply Forall_app. by split; [|constructor].
  - set (group := normalizeSnippetGroupName (Some (sn_group s))) in *.
    destruct (IH (jsmap_set group (default [] (jsmap_get group groups) ++ [s]) groups) root) as (H1 & H2 & H3 & H4).
    + by apply jsmap_set_NoDup.
    + destruct (decide (group ∈ groups.*1)); [by rewrite jsmap_set_keys_old|]. rewrite jsmap_set_keys_new by done.
      apply Forall_app. by split; [|constructor].
    + split_and!; [done..| |].
      * rewrite H3, tree_add_items. cbn [app]. by rewrite <- !Permutation_middle.
      * intros Hg Hr. apply H4; [|done]. clear - Hg. induction groups as [|[k v] groups IHg]; cbn [jsmap_set jsmap_get]; [by repeat constructor|].
        apply Forall_cons in Hg as [Hkv Hg]. cbn [fst snd] in Hkv. case_decide as E.
        { constructor; [|done]. cbn [fst snd default]. apply Forall_app. split; [done|by repeat constructor]. }
        constructor; [done|]. by apply IHg.
Qed.

Lemma explicit_groups_spec l :
  NoDup (explicit_groups l).*1 ∧ Forall (λ k, k ≠ "") (explicit_groups l).*1 ∧ Forall (λ g : string * list CommandSnippet, g.2 = []) (explicit_groups l).
Proof.
  unfold explicit_groups. set (f := λ (groups : jsmap (list CommandSnippet)) (groupName : string), _).
  assert (∀ groups, NoDup groups.*1 ∧ Forall (λ k, k ≠ "") groups.*1 ∧ Forall (λ g : string * list CommandSnippet, g.2 = []) groups →
    let out := foldl f groups l in
    NoDup out.*1 ∧ Forall (λ k, k ≠ "") out.*1 ∧ Forall (λ g : string * list CommandSnippet, g.2 = []) out) as Hf; [|apply Hf; by repeat constructor].
  cbv zeta. induction l as [|x l IH]; intros groups H; [done|]. cbn [foldl].
  apply IH. unfold f. case_decide as E; [done|]. destruct H as (H1 & H2 & H3). split_and!.
  - by apply jsmap_set_NoDup.
  - destruct (decide (normalizeSnippetGroupName (Some x) ∈ groups.*1)); [by rewrite jsmap_set_keys_old|]. rewrite jsmap_set_keys_new by done.
    apply Forall_app. by split; [|constructor].
  - clear - H3. induction groups as [|[k v] groups IHg]; cbn [jsmap_set]; [by repeat constructor|].
    apply Forall_cons in H3 as [? ?]. case_decide; (constructor; [done|auto]).
Qed.

Lemma elem_of_concat_snd (groups : jsmap (list CommandSnippet)) g s : g ∈ groups → s ∈ g.2 → s ∈ concat groups.*2.
Proof. intros Hg Hs. apply list_elem_of_In, in_concat. exists g.2. split; apply list_elem_of_In; [|done]. apply list_elem_of_fmap. by exists g. Qed.

(** ** Lemmas: order *)

Lemma truncate_length value n : 3 ≤ n → String.length (truncateCommandLabel value n) ≤ n.
Proof.
  intros Hn. unfold truncateCommandLabel. destruct (String.length value <=? n) eqn:E; [by apply Nat.leb_le|].
  assert (∀ l s, String.length (of_chars l +:+ s) = length l + String.length s) as Hl by (induction l as [|c l IH]; intros s; [done|cbn; by rewrite <- IH]).
  rewrite Hl, length_take. change (String.length "...") with 3. lia.
Qed.

Lemma title_length command : String.length (commandSnippetTitleFromCommand command) ≤ 32.
Proof. unfold commandSnippetTitleFromCommand. case_match; [|cbn; lia]. apply truncate_length. lia. Qed.

Section order.
Context (compare : string → string → Z) (date_parse : string → option Z).
Context (compare_total : ∀ x y, (compare x y ≤ 0 ∨ compare y x ≤ 0)%Z).
Context (compare_trans : ∀ x y z, (compare x y ≤ 0 → compare y z ≤ 0 → compare x z ≤ 0)%Z).

Lemma sort_names_sorted l : pairwise (λ x y, compare x y ≤ 0)%Z (sort_names compare l).
Proof.
  apply js_sort_pairwise; [by intros x y z; apply compare_trans|]. intros x y. destruct (Z.ltb_spec 0 (compare x y)); [|done].
  destruct (compare_total x y); [lia|done].
Qed.

Lemma sort_snippets_sorted l : pairwise (λ x y, compareCommandSnippets compare date_parse x y ≤ 0)%Z (sort_snippets compare date_parse l).
Proof.
  assert (∀ s t, compareCommandSnippets compare date_parse s t = if negb (Bool.eqb (sn_favorite s) (sn_favorite t)) then (if sn_favorite s then -1 else 1)%Z else
    let last s := default 0%Z (commandLibraryTimestampMs date_parse (sn_last_used_at s)) in
    let updated s := default 0%Z (commandLibraryTimestampMs date_parse (Some (sn_updated_at s))) in
    or_number (or_number (last t - last s) (updated t - updated s)) (compare (sn_title s) (sn_title t)))%Z as Heq by done.
  apply js_sort_pairwise.
  - intros x y z. rewrite !Heq. cbv zeta. pose proof (compare_trans (sn_title x) (sn_title y) (sn_title z)).
    unfold or_number. destruct (sn_favorite x), (sn_favorite y), (sn_favorite z); cbn [negb Bool.eqb]; try lia; repeat case_decide; lia.
  - intros x y. destruct (Z.ltb_spec 0 (compareCommandSnippets compare date_parse x y)) as [Hlt|]; [|done].
    revert Hlt. rewrite !Heq. cbv zeta. pose proof (compare_total (sn_title x) (sn_title y)).
    unfold or_number. destruct (sn_favorite x), (sn_favorite y); cbn [negb Bool.eqb]; try lia; repeat case_decide; lia.
Qed.
End order.

(** What a form sends when it was opened on a snippet and nothing was changed. *)
Lemma draft_roundtrip snippet text :
  sn_tags snippet = parseCommandSnippetTags text →
  draft_input (commandSnippetToDraft snippet) = commandSnippetToInput snippet (sn_group snippet).
Proof.
  intros Htags. unfold draft_input, commandSnippetToDraft, commandSnippetToInput.
  cbn [dr_id dr_title dr_command dr_description dr_group dr_tagsText dr_favorite]. rewrite Htags, tags_roundtrip, normalize_group_idem.
  f_equal. destruct (sn_description snippet) as [d|]; [|done]. unfold nonempty, js_or. cbn. by destruct (d =? "")%string eqn:E; cbn; rewrite ?E.
Qed.

Lemma concat_visible (P : Prop) `{!Decision P} (groups : jsmap (list CommandSnippet)) :
  concat (filter (λ g : string * list CommandSnippet, g.2 ≠ [] ∨ P) groups).*2 = concat groups.*2.
Proof.
  induction groups as [|[k v] groups IH]; [done|]. rewrite filter_cons. case_decide as E; cbn [fmap list_fmap concat snd]; rewrite <- IH; [done|].
  cbn in E. by destruct v; [|exfalso; apply E; left].
Qed.

(** The tree holds each snippet that matches once, at its own group. *)
Record tree_exact (compare : string → string → Z) (snippets : list CommandSnippet) (query : string) (tree : SnippetTree) : Prop := {
  te_unique : NoDup (tr_groups tree).*1;
  te_named : "" ∉ (tr_groups tree).*1;
  te_shown : query ≠ "" → ∀ name, (name, []) ∉ tr_groups tree;
  te_all : concat (tr_groups tree).*2 ++ tr_rootSnippets tree ≡ₚ filter (λ s, snippetMatchesQuery s query = true) snippets;
  te_place : ∀ name items s, (name, items) ∈ tr_groups tree → s ∈ items → normalizeSnippetGroupName (Some (sn_group s)) = name;
  te_root : ∀ s, s ∈ tr_rootSnippets tree → normalizeSnippetGroupName (Some (sn_group s)) = "";
  te_order : pairwise (λ x y, compare x y ≤ 0)%Z (tr_groups tree).*1;
}.

Lemma pairwise_fmap {A B} (R : B → B → Prop) (f : A → B) l : pairwise (λ x y, R (f x) (f y)) l → pairwise R (f <$> l).
Proof. induction l as [|x l IH]; [done|]. intros [H1 H2]. split; [|by apply IH]. by apply Forall_fmap. Qed.

Lemma build_tree_exact compare snippets groups query :
  (∀ x y, compare x y ≤ 0 ∨ compare y x ≤ 0)%Z → (∀ x y z, compare x y ≤ 0 → compare y z ≤ 0 → compare x z ≤ 0)%Z →
  tree_exact compare snippets query (buildSnippetTree compare snippets groups query).
Proof.
  intros Htotal Htrans. destruct (explicit_groups_spec groups) as (Hnd & Hne & Hempty).
  destruct (tree_loop query snippets (explicit_groups groups) [] Hnd Hne) as (H1 & H2 & H3 & H4).
  destruct H4 as [H4 H5]; [|by constructor|].
  { eapply Forall_impl; [exact Hempty|]. intros g ->. by constructor. }
  unfold buildSnippetTree. set (tree := foldl _ _ _) in *. set (visible := filter _ tree.1).
  assert (sublist visible tree.1) as Hsub by apply sublist_filter. assert (∀ g, g ∈ visible → g ∈ tree.1) as Hin by (intros g Hg; by apply list_elem_of_filter in Hg as [_ Hg]).
  split; cbn [tr_groups tr_rootSnippets]; rewrite ?js_sort_Permutation.
  - eapply sublist_NoDup; [exact H1|]. by apply fmap_sublist.
  - intros (g & E & Hg)%list_elem_of_fmap. rewrite Forall_forall in H2. apply (H2 g.1); [|done]. apply list_elem_of_fmap. exists g. auto.
  - intros Hq name [[?|?] _]%elem_of_js_sort%list_elem_of_filter; done.
  - unfold visible. rewrite (concat_visible (query = "")), H3.
    assert (concat (explicit_groups groups).*2 = []) as ->; [|done].
    clear - Hempty. induction Hempty as [|g l Hg _ IH]; [done|]. cbn. by rewrite Hg.
  - intros name items s Hg%elem_of_js_sort%Hin Hs. rewrite Forall_forall in H4. specialize (H4 _ Hg). cbn in H4. rewrite Forall_forall in H4. by apply H4.
  - intros s Hs. rewrite Forall_forall in H5. by apply H5.
  - apply (pairwise_fmap _ fst), js_sort_pairwise; [intros x y z; apply Htrans|]. intros x y.
    destruct (Z.ltb_spec 0 (compare x.1 y.1)); [|done]. destruct (Htotal x.1 y.1); [lia|done].
Qed.

(** A catalog of groups: every group that is used or was added, once, in order, trimmed, and
    without the old name of the root. *)
Record catalog_exact (compare : string → string → Z) (used : list string) (catalog : list string) : Prop := {
  ca_unique : NoDup catalog;
  ca_groups : ∀ g, g ∈ catalog ↔ g ≠ "" ∧ ∃ x, x ∈ used ∧ normalizeCommandSnippetGroupValue (Some x) = g;
  ca_named : ∀ g, g ∈ catalog → trim_string g = g ∧ g ≠ legacyCommandSnippetGroup;
  ca_order : pairwise (λ x y, compare x y ≤ 0)%Z catalog;
}.

Lemma upsert_ids compare date_parse snippets snippet : NoDup (sn_id <$> snippets) → NoDup (sn_id <$> upsertCommandSnippet compare date_parse snippets snippet).
Proof.
  intros Hnd. unfold upsertCommandSnippet, sort_snippets. rewrite js_sort_Permutation. apply NoDup_cons. split.
  - intros (s & E & [Hs _]%list_elem_of_filter)%list_elem_of_fmap. by apply Hs.
  - eapply sublist_NoDup; [exact Hnd|]. apply fmap_sublist, sublist_filter.
Qed.

Lemma catalog_build compare snippets localGroups :
  (∀ x y, compare x y ≤ 0 ∨ compare y x ≤ 0)%Z → (∀ x y z, compare x y ≤ 0 → compare y z ≤ 0 → compare x z ≤ 0)%Z →
  catalog_exact compare ((sn_group <$> snippets) ++ localGroups) (buildCommandSnippetGroupCatalog compare snippets localGroups).
Proof.
  intros Htotal Htrans. unfold buildCommandSnippetGroupCatalog. rewrite <- foldl_app.
  destruct (add_group_spec [] (((λ s, Some (sn_group s)) <$> snippets) ++ (Some <$> localGroups))) as (H1 & H2 & H3); [by constructor..|].
  split; [by unfold sort_names; rewrite js_sort_Permutation| | |by apply sort_names_sorted].
  2: { intros g [[]%not_elem_of_nil|(_ & x & _ & <-)]%elem_of_js_sort%H3. apply normalize_group_named. }
  intros g. unfold sort_names. rewrite elem_of_js_sort, H3. split.
  - intros [[]%not_elem_of_nil|(Hg & x & Hx & <-)]. split; [done|]. apply elem_of_app in Hx as [(s & -> & Hs)%list_elem_of_fmap|(s & -> & Hs)%list_elem_of_fmap].
    + exists (sn_group s). split; [|done]. apply elem_of_app. left. apply list_elem_of_fmap. by exists s.
    + exists s. split; [|done]. apply elem_of_app. by right.
  - intros (Hg & x & [(s & -> & Hs)%list_elem_of_fmap|Hx]%elem_of_app & Hn); right; (split; [done|]).
    + exists (Some (sn_group s)). split; [|done]. apply elem_of_app. left. apply list_elem_of_fmap. by exists s.
    + exists (Some x). split; [|done]. apply elem_of_app. right. apply list_elem_of_fmap. by exists x.
Qed.

(** Adding a group keeps the local groups in order and without repetition. *)
Lemma append_group compare groups name :
  NoDup groups → let out := appendCommandSnippetLocalGroup compare groups name in
  NoDup out ∧ (∀ g, g ∈ out ↔ g ∈ groups ∨ (g ≠ "" ∧ normalizeCommandSnippetGroupValue (Some name) = g)).
Proof.
  intros Hnd. cbv zeta. unfold appendCommandSnippetLocalGroup, sort_names. case_decide as E.
  - split; [done|]. intros g. split; [by left|]. intros [?|[Hg <-]]; [done|]. by destruct E.
  - rewrite js_sort_Permutation. split.
    + apply NoDup_app. split_and!; [done|set_solver|apply NoDup_singleton].
    + intros g. rewrite elem_of_js_sort. set_solver.
Qed.

Lemma scope_candidates_all tr tr_name connection tab mode connections defaultKey profiles :
  commandHistoryAllScopeKey ∈ op_value <$> scope_candidates tr tr_name connection tab mode connections defaultKey profiles ∧
  (∀ c, c ∈ connections → sd_ssh c = true →
    commandHistoryKeyForScope (Some (mkScope ScopeSsh (sd_id c))) ∈ op_value <$> scope_candidates tr tr_name connection tab mode connections defaultKey profiles).
Proof.
  unfold scope_candidates. rewrite !fmap_app. split.
  - repeat (apply elem_of_app; right). by left.
  - intros c Hc Hs. apply elem_of_app. right. apply elem_of_app. left. apply list_elem_of_fmap.
    eexists. split; [|apply list_elem_of_fmap; exists c; split; [done|by apply list_elem_of_filter]]. done.
Qed.

Lemma byte_compare_total x y : (byte_compare x y ≤ 0 ∨ byte_compare y x ≤ 0)%Z.
Proof. revert y. induction x as [|a x IH]; intros [|b y]; cbn; [lia..|]. specialize (IH y). repeat case_decide; lia. Qed.

Lemma byte_compare_trans x y z : (byte_compare x y ≤ 0 → byte_compare y z ≤ 0 → byte_compare x z ≤ 0)%Z.
Proof.
  revert y z. induction x as [|a x IH]; intros [|b y] [|c z]; cbn; try lia. specialize (IH y z). repeat case_decide; lia.
Qed.

Lemma unique_scopes_NoDup (m : jsmap CommandHistoryScope) :
  NoDup m.*1 → Forall (λ e, e.1 = commandHistoryKeyForScope (Some e.2)) m → NoDup m.*2.
Proof.
  intros Hnd Hm. apply (NoDup_fmap_1 (λ scope, commandHistoryKeyForScope (Some scope))). rewrite <- list_fmap_compose.
  rewrite Forall_forall in Hm. rewrite <- (list_fmap_ext fst) in *; [done|]. intros i e He. apply Hm. by apply list_elem_of_lookup_2 in He.
Qed.

Lemma unique_scopes_exact scopes :
  NoDup (uniqueCommandHistoryScopes scopes) ∧ ∀ scope, scope ∈ uniqueCommandHistoryScopes scopes ↔ scope ∈ scopes.
Proof.
  destruct (unique_scopes_spec [] scopes) as (H1 & H2 & H3); [by constructor..|]. split.
  - apply unique_scopes_NoDup; [done|]. exact H2.
  - intros scope. unfold uniqueCommandHistoryScopes. rewrite H3. split; [|by right]. by intros [[]%not_elem_of_nil|].
Qed.

(** C39: The command library keeps what it is given. The key of a scope of the history gives
    the scope back; the tags of a form are trimmed, not empty and without commas, and parsing
    the text that shows them gives them again, so a form that is opened on a snippet and saved
    unchanged sends the snippet itself; a title has at most 32 characters; the catalog of
    groups has every used or added group once, in order, trimmed, and without the old name of
    the root; saving a snippet replaces the one
    with its id and keeps the others, sorted by favorite, last use, change and title; the tree
    of the panel has every snippet that matches the query exactly once, at its own group; the
    options of the history are different scopes with all of them and every SSH connection
    among them; and the scopes of a sent command are recorded once each. *)
Theorem command_library_exact compare date_parse :
  (∀ x y, compare x y ≤ 0 ∨ compare y x ≤ 0)%Z → (∀ x y z, compare x y ≤ 0 → compare y z ≤ 0 → compare x z ≤ 0)%Z →
  (∀ scope, commandHistoryScopeFromKey (commandHistoryKeyForScope scope) = scope) ∧
  (∀ text, Forall (λ tag, tag_ok (to_chars tag)) (parseCommandSnippetTags text) ∧
    (∀ snippet, sn_tags snippet = parseCommandSnippetTags text →
      draft_input (commandSnippetToDraft snippet) = commandSnippetToInput snippet (sn_group snippet))) ∧
  (∀ command, String.length (commandSnippetTitleFromCommand command) ≤ 32) ∧
  (∀ snippets localGroups,
    catalog_exact compare ((sn_group <$> snippets) ++ localGroups) (buildCommandSnippetGroupCatalog compare snippets localGroups)) ∧
  (∀ snippets snippet, let out := upsertCommandSnippet compare date_parse snippets snippet in
    out ≡ₚ snippet :: filter (λ item, sn_id item ≠ sn_id snippet) snippets ∧
    (NoDup (sn_id <$> snippets) → NoDup (sn_id <$> out)) ∧
    pairwise (λ x y, compareCommandSnippets compare date_parse x y ≤ 0)%Z out) ∧
  (∀ snippets groups query, tree_exact compare snippets query (buildSnippetTree compare snippets groups query)) ∧
  (∀ tr tr_name connection tab mode connections defaultKey profiles,
    let options := buildCommandHistoryScopeOptions tr tr_name connection tab mode connections defaultKey profiles in
    NoDup (op_value <$> options) ∧ commandHistoryAllScopeKey ∈ op_value <$> options ∧
    (∀ c, c ∈ connections → sd_ssh c = true → commandHistoryKeyForScope (Some (mkScope ScopeSsh (sd_id c))) ∈ op_value <$> options)) ∧
  (∀ scopes, NoDup (uniqueCommandHistoryScopes scopes) ∧ ∀ scope, scope ∈ uniqueCommandHistoryScopes scopes ↔ scope ∈ scopes).
Proof.
  intros Htotal Htrans. split_and!.
  - apply scope_roundtrip.
  - intros text. split; [apply parsed_tags_ok|]. intros snippet. apply draft_roundtrip.
  - apply title_length.
  - intros snippets groups. by apply catalog_build.
  - intros snippets snippet. split_and!.
    + apply js_sort_Permutation.
    + apply upsert_ids.
    + by apply sort_snippets_sorted.
  - intros snippets groups query. by apply build_tree_exact.
  - intros tr tr_name connection tab mode connections defaultKey profiles. unfold buildCommandHistoryScopeOptions.
    destruct (foldl_add_option_spec [] (scope_candidates tr tr_name connection tab mode connections defaultKey profiles)) as [H1 H2]; [by constructor|].
    destruct (scope_candidates_all tr tr_name connection tab mode connections defaultKey profiles) as [H3 H4].
    cbv zeta. split_and!; [done|by apply H2; right|]. intros c Hc Hs. apply H2. right. by apply H4.
  - apply unique_scopes_exact.
Qed.

Lemma command_library_exact_witness :
  let snippet := mkSnippet "s1" "List" "ls -l" None " files " ["disk"; "daily"] false 0 None "1" "2" in
  catalog_exact byte_compare [" files "; "web"] ["files"; "web"] ∧
  tree_exact byte_compare [snippet] "" (mkTree [("files", [snippet]); ("web", [])] []) ∧
  draft_input (commandSnippetToDraft snippet) = commandSnippetToInput snippet (sn_group snippet) ∧
  parseCommandSnippetTags "disk, ,daily" = sn_tags snippet.
Proof.
  cbv zeta. destruct (command_library_exact byte_compare (λ _, None) byte_compare_total byte_compare_trans) as (_ & H1 & _ & H2 & _ & H3 & _).
  set (snippet := mkSnippet "s1" "List" "ls -l" None " files " ["disk"; "daily"] false 0 None "1" "2"). split_and!.
  - exact (H2 [snippet] ["web"]).
  - exact (H3 [snippet] ["web"] "").
  - destruct (H1 "disk, ,daily") as [_ H]. by apply H.
  - reflexivity.
Defined.
