(* ===== verification/CommandSender.v ===== *)
(** * The command sender ([features/layout/WorkspaceShell.tsx])

    Sending a command to several terminals, one after the other, recording it in the history,
    and the dialogs of the library of snippets, as a machine: a handler runs until its first
    await, and what it awaits is a call in flight that an event settles, in any order. A call
    keeps what its handler had read of the rendered state. The writes, the reports of the
    sends and the requests to the history are logged. *)

From S2P Require Import Prelude SplitLayout SessionTypes MultiExec ShortcutKeys RemotePaths ConnectionInput CommandLibrary.
From stdpp Require Import pretty.
From Stdlib Require Import Lia Strings.Ascii.

#[local] Open Scope nat_scope.

(** ** Targets *)

Inductive CommandSenderDeliveryStatus := SenderIdle | SenderStatus (status : DeliveryStatus).

Inductive CommandSenderTargetKind := TargetSsh | TargetLocal.

Record CommandSenderDelivery := mkSenderDelivery {
  dl_message : option string;
  dl_status : CommandSenderDeliveryStatus;
}.

Record CommandSenderTarget := mkSenderTarget {
  cs_deliveryMessage : option string;
  cs_deliveryStatus : CommandSenderDeliveryStatus;
  cs_description : string;
  cs_key : string;
  cs_kind : CommandSenderTargetKind;
  cs_label : string;
  cs_historyScope : option CommandHistoryScope;
  cs_sessionId : string;
  cs_tabId : string;
  cs_tabTitle : string;
}.

(** What the shell gives to the sender: its tabs, connections and profiles, what is active,
    and whether the storage is unlocked. *)
Record SenderEnv := mkEnv {
  en_sshTabs : list TerminalTab;
  en_localTabs : list LocalTerminalTab;
  en_connections : list SenderConnection;
  en_temporaryConnections : list SenderConnection;
  en_profiles : list SenderProfile;
  en_mode : WorkspaceMode;
  en_activeConnectionId : option string;
  en_activeConnection : option SenderConnection;
  en_activeLocalTab : option LocalTerminalTab;
  en_activeConnectedTab : option TerminalTab;
  en_fileTabActive : bool;
  en_ready : bool;
}.

Definition connection_by_id (env : SenderEnv) : jsmap SenderConnection :=
  foldl (λ m connection, jsmap_set (sd_id connection) connection m) [] (en_connections env ++ en_temporaryConnections env).

Definition runtime_targets (env : SenderEnv) : list MultiExecTarget := buildMultiExecTargets (en_localTabs env) (en_sshTabs env).

Section targets.
Context (tr : string → string).

Definition sender_target (deliveryByKey : jsmap CommandSenderDelivery) (env : SenderEnv) (target : MultiExecTarget) : CommandSenderTarget :=
  let delivery := jsmap_get (mt_key target) deliveryByKey in
  let message := (d ← delivery; dl_message d) in
  let status := from_option dl_status SenderIdle delivery in
  match mt_kind target with
  | TkSsh =>
      let connection := jsmap_get (mt_ownerId target) (connection_by_id env) in
      mkSenderTarget message status (from_option formatConnectionAddress (mt_title target) connection) (mt_key target) TargetSsh
        (default (mt_title target) ((sd_name <$> connection) ||? None)) (Some (mkScope ScopeSsh (mt_ownerId target)))
        (mt_sessionId target) (mt_tabId target) (mt_title target)
  | kind =>
      let localTab := jsmap_get (mt_tabId target) (foldl (λ m tab, jsmap_set (lt_id tab) tab m) [] (en_localTabs env)) in
      let profile := js_find (λ item, lp_id item = mt_ownerId target) (en_profiles env) in
      let kindLabel := match kind with TkTelnet => "Telnet" | TkSerial => "Serial" | _ => "Local" end in
      mkSenderTarget message status
        (kindLabel +:+ " · " +:+ default (mt_title target) ((lp_name <$> profile) ||? (lt_title <$> localTab) ||? None))
        (mt_key target) TargetLocal (default (mt_title target) ((lt_title <$> localTab) ||? None))
        (Some (mkScope ScopeLocal (mt_ownerId target))) (mt_sessionId target) (mt_tabId target) (mt_title target)
  end.

Definition buildCommandSenderTargets (deliveryByKey : jsmap CommandSenderDelivery) (env : SenderEnv) : list CommandSenderTarget :=
  sender_target deliveryByKey env <$> runtime_targets env.

Definition resolveActiveAiCommandTarget (env : SenderEnv) : option CommandSenderTarget :=
  match en_mode env with
  | ModeLocal =>
      tab ← en_activeLocalTab env; sessionId ← lt_sessionId tab;
      if negb (truthy (Some sessionId)) then None
      else
        let profile := js_find (λ item, lp_id item = lt_profileId tab) (en_profiles env) in
        Some (mkSenderTarget None SenderIdle (default (lt_title tab) ((lp_name <$> profile) ||? None))
          (terminalPaneBindingKey (mkBinding PaneLocal (lt_id tab))) TargetLocal (tr "workspace.command.activeTerminal")
          (Some (mkScope ScopeLocal (lt_profileId tab))) sessionId (lt_id tab) (lt_title tab))
  | ModeSsh =>
      tab ← en_activeConnectedTab env; sessionId ← tt_sessionId tab;
      if negb (truthy (Some sessionId)) then None
      else
        let connection := jsmap_get (tt_connectionId tab) (connection_by_id env) in
        if from_option (λ connection, negb (sd_ssh connection)) false connection then None
        else
          Some (mkSenderTarget None SenderIdle (from_option formatConnectionAddress (tt_title tab) connection)
            (terminalPaneBindingKey (mkBinding PaneSsh (tt_id tab))) TargetSsh
            (default (tr "workspace.command.activeTerminal") ((sd_name <$> connection) ||? None))
            (Some (mkScope ScopeSsh (tt_connectionId tab))) sessionId (tt_id tab) (tt_title tab))
  | _ => None
  end.
End targets.

Definition resolveCurrentMultiExecTarget (env : SenderEnv) (key : string) : option MultiExecTarget :=
  js_find (λ target, mt_key target = key) (runtime_targets env).

(** [commandHistoryScopeForTerminalTab] *)
Definition commandHistoryScopeForTerminalTab (env : SenderEnv) (tabId : string) : option CommandHistoryScope :=
  match js_find (λ tab, lt_id tab = tabId) (en_localTabs env) with
  | Some tab => Some (mkScope ScopeLocal (lt_profileId tab))
  | None =>
      match js_find (λ tab, tt_id tab = tabId) (en_sshTabs env) with
      | Some tab => Some (mkScope ScopeSsh (tt_connectionId tab))
      | None => None
      end
  end.

(** ** Errors

    An error is the text that [formatError] gives. *)

Definition quote_text (quote : ascii) (s : string) : string := String quote EmptyString +:+ s +:+ String quote EmptyString.

Definition isTauriCommandMissingError (error : string) (commandName : string) : bool :=
  let message := toLowerCase error in
  let name := toLowerCase commandName in
  existsb (λ text, includes message ("command " +:+ text +:+ " not found")) [name; quote_text "'"%char name; quote_text "034"%char name].

Definition library_commands : list string :=
  ["command_snippet_list"; "command_history_list"; "command_snippet_upsert"; "command_snippet_delete"; "command_snippet_mark_used";
   "command_history_record"; "command_history_delete"; "command_history_clear"].

Definition isCommandLibraryCommandMissingError (error : string) : bool := existsb (isTauriCommandMissingError error) library_commands.

(** ** State *)

Inductive GroupDialogMode := DialogCreate | DialogRename.

Record CommandSnippetGroupDialogState := mkGroupDialog {
  gd_error : option string;
  gd_mode : GroupDialogMode;
  gd_originalName : option string;
  gd_selectAfterSave : bool;
  gd_value : string;
}.

Record Library := mkLibrary {
  lb_snippets : list CommandSnippet;
  lb_history : list CommandHistoryEntry;
  lb_loading : bool;
  lb_error : option string;
  lb_unavailable : option string;
  lb_snippetId : option string;
  lb_historyId : option string;
  lb_scopeKey : string;
  lb_localGroups : list string;
}.

Record LibraryDialogs := mkDialogs {
  dg_open : bool;
  dg_draft : CommandSnippetDraft;
  dg_group : option CommandSnippetGroupDialogState;
  dg_formError : option string;
  dg_snippetDelete : option CommandSnippet;
  dg_groupDelete : option string;
  dg_historyDelete : option CommandHistoryEntry;
  dg_clearOpen : bool;
}.

(** What a render of the shell captured for [loadCommandLibrary]. *)
Record LoadClosure := mkLoad {
  lc_key : string;
  lc_ready : bool;
}.

#[export] Instance LoadClosure_eq_dec : EqDecision LoadClosure.
Proof. solve_decision. Defined.

(** One run of [sendCommandTextToTargets]. *)
Record SendJob := mkJob {
  sj_id : nat;
  sj_command : string;
  sj_appendEnter : bool;
  sj_snippetId : option string;
  sj_targets : list CommandSenderTarget;
  sj_clearInput : bool;
  sj_load : LoadClosure;
}.

Abbreviation SentDelivery := (MultiExecDelivery string).

(** What goes on when the library was loaded. *)
Inductive AfterLoad :=
  | ThenNothing
  | ThenSent (job : SendJob) (entryId : string)
  | ThenTerminal (entryId : string).

(** A call that awaits the backend, with what its handler had read. *)
Inductive SenderCall :=
  | CallLoad (load : LoadClosure) (next : AfterLoad)
  | CallWrite (job : SendJob) (deliveries : list SentDelivery) (key : string) (rest : list string)
  | CallRecord (job : SendJob)
  | CallMarkUsed (snippetId : string)
  | CallTerminalRecord (load : LoadClosure)
  | CallUpsert (input : CommandSnippetInput)
  | CallRename (originalGroup nextGroup : string) (affected : list CommandSnippet)
  | CallDeleteGroup (groupName : string) (ids : list string) (selected : option string) (draft : CommandSnippetDraft) (input : string)
  | CallDeleteSnippet (id : string) (selected : option string) (draftId : option string) (input : string)
  | CallDeleteHistory (id : string) (selected : option string)
  | CallClear
  | CallCopy (command label : string).

(** A write to the backend, a report of a send and a request to the history. *)
Record SentWrite := mkWrite {
  wr_job : nat;
  wr_key : string;
  wr_session : string;
  wr_data : string;
}.

Record HistoryRequest := mkRequest {
  rq_job : option nat;
  rq_command : string;
  rq_append_enter : bool;
  rq_scopes : list CommandHistoryScope;
  rq_source : CommandHistorySource;
  rq_target_count : nat;
}.

Record Sender := mkSender {
  cm_env : SenderEnv;
  cm_mx : MultiExecState;
  cm_open : bool;
  cm_barOpen : bool;
  cm_input : string;
  cm_lastSent : string;
  cm_delivery : jsmap CommandSenderDelivery;
  cm_library : Library;
  cm_dialogs : LibraryDialogs;
  (** What the effects ran for. *)
  cm_seenKey : option string;
  cm_seenLoad : option LoadClosure;
  (** Calls in flight by number, the next number, and the logs. *)
  cm_calls : list (nat * SenderCall);
  cm_next : nat;
  cm_jobs : list SendJob;
  cm_writes : list SentWrite;
  cm_reports : list (nat * list SentDelivery);
  cm_requests : list HistoryRequest;
}.

(** Updates of one field. *)

Definition lset_snippets (x : list CommandSnippet) (l : Library) : Library :=
  mkLibrary x (lb_history l) (lb_loading l) (lb_error l) (lb_unavailable l) (lb_snippetId l) (lb_historyId l) (lb_scopeKey l) (lb_localGroups l).
Definition lset_history (x : list CommandHistoryEntry) (l : Library) : Library :=
  mkLibrary (lb_snippets l) x (lb_loading l) (lb_error l) (lb_unavailable l) (lb_snippetId l) (lb_historyId l) (lb_scopeKey l) (lb_localGroups
    l).
Definition lset_loading (x : bool) (l : Library) : Library :=
  mkLibrary (lb_snippets l) (lb_history l) x (lb_error l) (lb_unavailable l) (lb_snippetId l) (lb_historyId l) (lb_scopeKey l) (lb_localGroups
    l).
Definition lset_error (x : option string) (l : Library) : Library :=
  mkLibrary (lb_snippets l) (lb_history l) (lb_loading l) x (lb_unavailable l) (lb_snippetId l) (lb_historyId l) (lb_scopeKey l) (lb_localGroups
    l).
Definition lset_unavailable (x : option string) (l : Library) : Library :=
  mkLibrary (lb_snippets l) (lb_history l) (lb_loading l) (lb_error l) x (lb_snippetId l) (lb_historyId l) (lb_scopeKey l) (lb_localGroups l).
Definition lset_snippetId (x : option string) (l : Library) : Library :=
  mkLibrary (lb_snippets l) (lb_history l) (lb_loading l) (lb_error l) (lb_unavailable l) x (lb_historyId l) (lb_scopeKey l) (lb_localGroups l).
Definition lset_historyId (x : option string) (l : Library) : Library :=
  mkLibrary (lb_snippets l) (lb_history l) (lb_loading l) (lb_error l) (lb_unavailable l) (lb_snippetId l) x (lb_scopeKey l) (lb_localGroups l).
Definition lset_scopeKey (x : string) (l : Library) : Library :=
  mkLibrary (lb_snippets l) (lb_history l) (lb_loading l) (lb_error l) (lb_unavailable l) (lb_snippetId l) (lb_historyId l) x (lb_localGroups l).
Definition lset_localGroups (x : list string) (l : Library) : Library :=
  mkLibrary (lb_snippets l) (lb_history l) (lb_loading l) (lb_error l) (lb_unavailable l) (lb_snippetId l) (lb_historyId l) (lb_scopeKey l) x.

Definition dset_open (x : bool) (d : LibraryDialogs) : LibraryDialogs :=
  mkDialogs x (dg_draft d) (dg_group d) (dg_formError d) (dg_snippetDelete d) (dg_groupDelete d) (dg_historyDelete d) (dg_clearOpen d).
Definition dset_draft (x : CommandSnippetDraft) (d : LibraryDialogs) : LibraryDialogs :=
  mkDialogs (dg_open d) x (dg_group d) (dg_formError d) (dg_snippetDelete d) (dg_groupDelete d) (dg_historyDelete d) (dg_clearOpen d).
Definition dset_group (x : option CommandSnippetGroupDialogState) (d : LibraryDialogs) : LibraryDialogs :=
  mkDialogs (dg_open d) (dg_draft d) x (dg_formError d) (dg_snippetDelete d) (dg_groupDelete d) (dg_historyDelete d) (dg_clearOpen d).
Definition dset_formError (x : option string) (d : LibraryDialogs) : LibraryDialogs :=
  mkDialogs (dg_open d) (dg_draft d) (dg_group d) x (dg_snippetDelete d) (dg_groupDelete d) (dg_historyDelete d) (dg_clearOpen d).
Definition dset_snippetDelete (x : option CommandSnippet) (d : LibraryDialogs) : LibraryDialogs :=
  mkDialogs (dg_open d) (dg_draft d) (dg_group d) (dg_formError d) x (dg_groupDelete d) (dg_historyDelete d) (dg_clearOpen d).
Definition dset_groupDelete (x : option string) (d : LibraryDialogs) : LibraryDialogs :=
  mkDialogs (dg_open d) (dg_draft d) (dg_group d) (dg_formError d) (dg_snippetDelete d) x (dg_historyDelete d) (dg_clearOpen d).
Definition dset_historyDelete (x : option CommandHistoryEntry) (d : LibraryDialogs) : LibraryDialogs :=
  mkDialogs (dg_open d) (dg_draft d) (dg_group d) (dg_formError d) (dg_snippetDelete d) (dg_groupDelete d) x (dg_clearOpen d).
Definition dset_clearOpen (x : bool) (d : LibraryDialogs) : LibraryDialogs :=
  mkDialogs (dg_open d) (dg_draft d) (dg_group d) (dg_formError d) (dg_snippetDelete d) (dg_groupDelete d) (dg_historyDelete d) x.

Definition mset_env (x : SenderEnv) (s : Sender) : Sender :=
  mkSender x (cm_mx s) (cm_open s) (cm_barOpen s) (cm_input s) (cm_lastSent s) (cm_delivery s) (cm_library s) (cm_dialogs s) (cm_seenKey s)
    (cm_seenLoad s) (cm_calls s) (cm_next s) (cm_jobs s) (cm_writes s) (cm_reports s) (cm_requests s).
Definition mset_mx (x : MultiExecState) (s : Sender) : Sender :=
  mkSender (cm_env s) x (cm_open s) (cm_barOpen s) (cm_input s) (cm_lastSent s) (cm_delivery s) (cm_library s) (cm_dialogs s) (cm_seenKey s)
    (cm_seenLoad s) (cm_calls s) (cm_next s) (cm_jobs s) (cm_writes s) (cm_reports s) (cm_requests s).
Definition mset_open (x : bool) (s : Sender) : Sender :=
  mkSender (cm_env s) (cm_mx s) x (cm_barOpen s) (cm_input s) (cm_lastSent s) (cm_delivery s) (cm_library s) (cm_dialogs s) (cm_seenKey s)
    (cm_seenLoad s) (cm_calls s) (cm_next s) (cm_jobs s) (cm_writes s) (cm_reports s) (cm_requests s).
Definition mset_barOpen (x : bool) (s : Sender) : Sender :=
  mkSender (cm_env s) (cm_mx s) (cm_open s) x (cm_input s) (cm_lastSent s) (cm_delivery s) (cm_library s) (cm_dialogs s) (cm_seenKey s)
    (cm_seenLoad s) (cm_calls s) (cm_next s) (cm_jobs s) (cm_writes s) (cm_reports s) (cm_requests s).
Definition mset_input (x : string) (s : Sender) : Sender :=
  mkSender (cm_env s) (cm_mx s) (cm_open s) (cm_barOpen s) x (cm_lastSent s) (cm_delivery s) (cm_library s) (cm_dialogs s) (cm_seenKey s)
    (cm_seenLoad s) (cm_calls s) (cm_next s) (cm_jobs s) (cm_writes s) (cm_reports s) (cm_requests s).
Definition mset_lastSent (x : string) (s : Sender) : Sender :=
  mkSender (cm_env s) (cm_mx s) (cm_open s) (cm_barOpen s) (cm_input s) x (cm_delivery s) (cm_library s) (cm_dialogs s) (cm_seenKey s)
    (cm_seenLoad s) (cm_calls s) (cm_next s) (cm_jobs s) (cm_writes s) (cm_reports s) (cm_requests s).
Definition mset_delivery (x : jsmap CommandSenderDelivery) (s : Sender) : Sender :=
  mkSender (cm_env s) (cm_mx s) (cm_open s) (cm_barOpen s) (cm_input s) (cm_lastSent s) x (cm_library s) (cm_dialogs s) (cm_seenKey s)
    (cm_seenLoad s) (cm_calls s) (cm_next s) (cm_jobs s) (cm_writes s) (cm_reports s) (cm_requests s).
Definition mset_library (x : Library) (s : Sender) : Sender :=
  mkSender (cm_env s) (cm_mx s) (cm_open s) (cm_barOpen s) (cm_input s) (cm_lastSent s) (cm_delivery s) x (cm_dialogs s) (cm_seenKey s)
    (cm_seenLoad s) (cm_calls s) (cm_next s) (cm_jobs s) (cm_writes s) (cm_reports s) (cm_requests s).
Definition mset_dialogs (x : LibraryDialogs) (s : Sender) : Sender :=
  mkSender (cm_env s) (cm_mx s) (cm_open s) (cm_barOpen s) (cm_input s) (cm_lastSent s) (cm_delivery s) (cm_library s) x (cm_seenKey s)
    (cm_seenLoad s) (cm_calls s) (cm_next s) (cm_jobs s) (cm_writes s) (cm_reports s) (cm_requests s).
Definition mset_seenKey (x : option string) (s : Sender) : Sender :=
  mkSender (cm_env s) (cm_mx s) (cm_open s) (cm_barOpen s) (cm_input s) (cm_lastSent s) (cm_delivery s) (cm_library s) (cm_dialogs s) x
    (cm_seenLoad s) (cm_calls s) (cm_next s) (cm_jobs s) (cm_writes s) (cm_reports s) (cm_requests s).
Definition mset_seenLoad (x : option LoadClosure) (s : Sender) : Sender :=
  mkSender (cm_env s) (cm_mx s) (cm_open s) (cm_barOpen s) (cm_input s) (cm_lastSent s) (cm_delivery s) (cm_library s) (cm_dialogs s) (cm_seenKey
    s) x (cm_calls s) (cm_next s) (cm_jobs s) (cm_writes s) (cm_reports s) (cm_requests s).
Definition mset_calls (x : list (nat * SenderCall)) (s : Sender) : Sender :=
  mkSender (cm_env s) (cm_mx s) (cm_open s) (cm_barOpen s) (cm_input s) (cm_lastSent s) (cm_delivery s) (cm_library s) (cm_dialogs s) (cm_seenKey
    s) (cm_seenLoad s) x (cm_next s) (cm_jobs s) (cm_writes s) (cm_reports s) (cm_requests s).
Definition mset_next (x : nat) (s : Sender) : Sender :=
  mkSender (cm_env s) (cm_mx s) (cm_open s) (cm_barOpen s) (cm_input s) (cm_lastSent s) (cm_delivery s) (cm_library s) (cm_dialogs s) (cm_seenKey
    s) (cm_seenLoad s) (cm_calls s) x (cm_jobs s) (cm_writes s) (cm_reports s) (cm_requests s).
Definition mset_jobs (x : list SendJob) (s : Sender) : Sender :=
  mkSender (cm_env s) (cm_mx s) (cm_open s) (cm_barOpen s) (cm_input s) (cm_lastSent s) (cm_delivery s) (cm_library s) (cm_dialogs s) (cm_seenKey
    s) (cm_seenLoad s) (cm_calls s) (cm_next s) x (cm_writes s) (cm_reports s) (cm_requests s).
Definition mset_writes (x : list SentWrite) (s : Sender) : Sender :=
  mkSender (cm_env s) (cm_mx s) (cm_open s) (cm_barOpen s) (cm_input s) (cm_lastSent s) (cm_delivery s) (cm_library s) (cm_dialogs s) (cm_seenKey
    s) (cm_seenLoad s) (cm_calls s) (cm_next s) (cm_jobs s) x (cm_reports s) (cm_requests s).
Definition mset_reports (x : list (nat * list SentDelivery)) (s : Sender) : Sender :=
  mkSender (cm_env s) (cm_mx s) (cm_open s) (cm_barOpen s) (cm_input s) (cm_lastSent s) (cm_delivery s) (cm_library s) (cm_dialogs s) (cm_seenKey
    s) (cm_seenLoad s) (cm_calls s) (cm_next s) (cm_jobs s) (cm_writes s) x (cm_requests s).
Definition mset_requests (x : list HistoryRequest) (s : Sender) : Sender :=
  mkSender (cm_env s) (cm_mx s) (cm_open s) (cm_barOpen s) (cm_input s) (cm_lastSent s) (cm_delivery s) (cm_library s) (cm_dialogs s) (cm_seenKey
    s) (cm_seenLoad s) (cm_calls s) (cm_next s) (cm_jobs s) (cm_writes s) (cm_reports s) x.

Definition on_library (f : Library → Library) (s : Sender) : Sender := mset_library (f (cm_library s)) s.
Definition on_dialogs (f : LibraryDialogs → LibraryDialogs) (s : Sender) : Sender := mset_dialogs (f (cm_dialogs s)) s.
Definition on_mx (action : MultiExecAction) (s : Sender) : Sender := mset_mx (multiExecReducer (cm_mx s) action) s.
(** A form without contents. *)
Definition empty_library : Library := mkLibrary [] [] false None None None None commandHistoryAllScopeKey [].
Definition empty_dialogs : LibraryDialogs := mkDialogs false (buildCommandSnippetDraft "" commandSnippetRootGroup) None None None None None false.

(** Answers of the backend. *)
Inductive SenderAnswer :=
  | AnLoaded (result : list CommandSnippet * list CommandHistoryEntry + string)
  | AnDone (error : option string)
  | AnEntry (result : string + string)
  | AnSnippet (result : CommandSnippet + string)
  | AnSnippets (result : list CommandSnippet + string).

Section sender.
(** The texts, the order of a locale, [Date.parse], and whether the backend is there. *)
Context (tr : string → string) (tr_with : string → list string → string).
Context (compare : string → string → Z) (date_parse : string → option Z) (tauri : bool).

Definition initial_sender (env : SenderEnv) : Sender :=
  mkSender env initialMultiExecState false false "" (tr "workspace.command.last.none") [] empty_library empty_dialogs None None [] 0 [] [] [] [].

(** ** Derived values *)

Definition default_scope_key (s : Sender) : string :=
  commandHistoryDefaultScopeKey (en_activeConnectionId (cm_env s)) (en_activeLocalTab (cm_env s)) (en_mode (cm_env s)).

Definition scope_options (s : Sender) : list CommandHistoryScopeOption :=
  let env := cm_env s in
  buildCommandHistoryScopeOptions tr (λ key name, tr_with key [name]) (en_activeConnection env) (en_activeLocalTab env) (en_mode env) (en_connections env)
    (default_scope_key s) (en_profiles env).

Definition snippet_groups (s : Sender) : list string :=
  buildCommandSnippetGroupCatalog compare (lb_snippets (cm_library s)) (lb_localGroups (cm_library s)).

Definition sender_targets (s : Sender) : list CommandSenderTarget := buildCommandSenderTargets (cm_delivery s) (cm_env s).

Definition selected_targets (s : Sender) : list CommandSenderTarget :=
  filter (λ target, cs_key target ∈ mx_targets (cm_mx s)) (sender_targets s).

Definition load_closure (s : Sender) : LoadClosure := mkLoad (lb_scopeKey (cm_library s)) (en_ready (cm_env s)).

Definition await_call (call : SenderCall) (s : Sender) : Sender :=
  mset_next (S (cm_next s)) (mset_calls (cm_calls s ++ [(cm_next s, call)]) s).

(** ** Errors *)

Definition restart_message : string := tr "workspace.snippet.restartRequired".

Definition clear_errors (s : Sender) : Sender := on_library (lset_error None ∘ lset_unavailable None) s.

Definition handleCommandLibraryOperationError (error : string) (s : Sender) : Sender :=
  on_library (if isCommandLibraryCommandMissingError error then lset_error None ∘ lset_unavailable (Some restart_message) else lset_error (Some error)) s.

(** The handler of a send keeps an older error. *)
Definition send_error (error : string) (s : Sender) : Sender :=
  on_library (if isCommandLibraryCommandMissingError error then lset_unavailable (Some restart_message) else lset_error (Some error)) s.

(** ** Loading the library *)

Definition after_load (next : AfterLoad) (s : Sender) : Sender :=
  match next with
  | ThenNothing => s
  | ThenSent job entryId =>
      let s := on_library (lset_historyId (Some entryId)) s in
      if truthy (sj_snippetId job) then await_call (CallMarkUsed (default "" (sj_snippetId job))) s else clear_errors s
  | ThenTerminal entryId => clear_errors (on_library (lset_historyId (Some entryId)) s)
  end.

Definition loadCommandLibrary (load : LoadClosure) (next : AfterLoad) (s : Sender) : Sender :=
  if negb (lc_ready load) || negb tauri
  then after_load next (on_library (lset_loading false ∘ lset_unavailable None ∘ lset_error None ∘ lset_history [] ∘ lset_snippets []) s)
  else await_call (CallLoad load next) (on_library (lset_unavailable None ∘ lset_error None ∘ lset_loading true) s).

Definition settle_load (next : AfterLoad) (result : list CommandSnippet * list CommandHistoryEntry + string) (s : Sender) : Sender :=
  after_load next (on_library (lset_loading false ∘
    match result with
    | inl (snippets, history) => lset_unavailable None ∘ lset_history history ∘ lset_snippets snippets
    | inr error =>
        if isCommandLibraryCommandMissingError error then lset_unavailable (Some restart_message) ∘ lset_history [] ∘ lset_snippets []
        else lset_error (Some error)
    end) s).

(** ** Sending *)

Definition clearCommandSenderInput (s : Sender) : Sender :=
  on_library (lset_historyId None ∘ lset_snippetId None) (mset_input "" s).

Definition sent_payload (job : SendJob) : string :=
  if sj_appendEnter job then sj_command job +:+ String carriage_return EmptyString else sj_command job.

Definition delivered (delivery : SentDelivery) : CommandSenderDelivery :=
  match d_status delivery with
  | DsFailed => mkSenderDelivery (d_error delivery) (SenderStatus DsFailed)
  | DsDisconnected => mkSenderDelivery (Some (tr "workspace.command.targetDisconnected")) (SenderStatus DsDisconnected)
  | DsWritten => mkSenderDelivery None (SenderStatus DsWritten)
  end.

Definition target_by_key (targets : list CommandSenderTarget) : jsmap CommandSenderTarget :=
  foldl (λ m target, jsmap_set (cs_key target) target m) [] targets.

Definition successful_targets (job : SendJob) (deliveries : list SentDelivery) : list CommandSenderTarget :=
  deliveries ≫= λ delivery,
    if decide (d_status delivery = DsWritten) then option_list (jsmap_get (d_key delivery) (target_by_key (sj_targets job))) else [].

(** After the last delivery. *)
Definition send_finished (job : SendJob) (deliveries : list SentDelivery) (s : Sender) : Sender :=
  let s := mset_reports (cm_reports s ++ [(sj_id job, deliveries)]) s in
  let s := mset_delivery (foldl (λ m delivery, jsmap_set (d_key delivery) (delivered delivery) m) (cm_delivery s) deliveries) s in
  let successful := successful_targets job deliveries in
  let failedCount := length (filter (λ delivery, d_status delivery = DsFailed) deliveries) in
  let disconnectedKeys : gset string := list_to_set (d_key <$> filter (λ delivery, d_status delivery = DsDisconnected) deliveries) in
  let s := if decide (0 < size disconnectedKeys) then on_mx (MxSetTargetsFn (λ current, current ∖ disconnectedKeys)) s else s in
  let s := mset_lastSent
    (if decide (0 < failedCount ∨ 0 < size disconnectedKeys)
     then tr_with "workspace.command.sendSummary" [pretty (length successful); pretty failedCount; pretty (size disconnectedKeys)]
     else tr_with "workspace.command.sendSuccess" [pretty (length successful)]) s in
  let s := if sj_clearInput job then clearCommandSenderInput s else s in
  if decide (0 < length successful ∧ trim_string (sj_command job) ≠ "" ∧ tauri = true)
  then await_call (CallRecord job)
    (mset_requests (cm_requests s ++
      [mkRequest (Some (sj_id job)) (trim_string (sj_command job)) (sj_appendEnter job)
        (uniqueCommandHistoryScopes (omap cs_historyScope successful)) FromCommandSender (length successful)]) s)
  else s.

(** [writeMultiExecCommand] up to its next write, from the deliveries so far. *)
Fixpoint send_loop (job : SendJob) (deliveries : list SentDelivery) (keys : list string) (s : Sender) : Sender :=
  match keys with
  | [] => send_finished job deliveries s
  | key :: rest =>
      match resolveCurrentMultiExecTarget (cm_env s) key with
      | None => send_loop job (deliveries ++ [mkDelivery None key DsDisconnected]) rest s
      | Some target =>
          if tauri
          then await_call (CallWrite job deliveries key rest)
            (mset_writes (cm_writes s ++ [mkWrite (sj_id job) key (mt_sessionId target) (sent_payload job)]) s)
          else send_loop job (deliveries ++ [mkDelivery (Some (tr "workspace.command.writeUnavailable")) key DsFailed]) rest s
      end
  end.

Definition sendCommandTextToTargets (command : string) (appendEnter : bool) (snippetId : option string) (targets : list CommandSenderTarget)
    (clearInput setSendMode : bool) (load : LoadClosure) (s : Sender) : Sender :=
  if decide (trim_string command = "" ∨ targets = []) then s
  else
    let s := if setSendMode then on_mx (MxSetMode MxSend) s else s in
    let job := mkJob (cm_next s) command appendEnter snippetId targets clearInput load in
    let s := mset_next (S (cm_next s)) (mset_jobs (cm_jobs s ++ [job]) s) in
    let s := mset_delivery (foldl (λ m target, jsmap_set (cs_key target) (mkSenderDelivery None SenderIdle) m) (cm_delivery s) targets) s in
    send_loop job [] (cs_key <$> targets) s.

Definition settle_write (job : SendJob) (deliveries : list SentDelivery) (key : string) (rest : list string) (error : option string) (s : Sender) : Sender :=
  send_loop job (deliveries ++ [match error with None => mkDelivery None key DsWritten | Some e => mkDelivery (Some e) key DsFailed end]) rest s.

Definition settle_record (job : SendJob) (result : string + string) (s : Sender) : Sender :=
  match result with
  | inl entryId => loadCommandLibrary (sj_load job) (ThenSent job entryId) s
  | inr error => send_error error s
  end.

Definition settle_mark_used (result : CommandSnippet + string) (s : Sender) : Sender :=
  match result with
  | inl snippet => clear_errors (on_library (λ l, lset_snippets (upsertCommandSnippet compare date_parse (lb_snippets l) snippet) l) s)
  | inr error => send_error error s
  end.

(** ** The panel of the sender *)

Definition handleCommandSenderInputChange (value : string) (s : Sender) : Sender :=
  on_library (lset_historyId None ∘ lset_snippetId None) (mset_input value s).

(** It also returns the selected targets of the render, which do not depend on it. *)
Definition prepareCommandSenderTargets (s : Sender) : Sender := loadCommandLibrary (load_closure s) ThenNothing (on_mx (MxSetMode MxSend) s).

Definition openCommandSenderAndPrepareTargets (s : Sender) : Sender := prepareCommandSenderTargets (mset_open true s).

Definition closeCommandSender (s : Sender) : Sender :=
  let s' := mset_open false s in if decide (mx_mode (cm_mx s) = MxSend) then on_mx (MxSetMode MxOff) s' else s'.

(** [showMultiExecBar] *)
Definition bar_shown (s : Sender) : bool := cm_barOpen s || bool_decide (mx_mode (cm_mx s) = MxLive).

Definition toggleMultiExecBar (s : Sender) : Sender :=
  let s' := mset_barOpen (negb (bar_shown s)) s in
  if bar_shown s && bool_decide (mx_mode (cm_mx s) = MxLive)
  then mset_mx (setTerminalSplitSyncState (tr "workspace.split.chooseTarget") false (cm_mx s)) s' else s'.

Definition openCommandSender (s : Sender) : Sender :=
  if cm_open s then closeCommandSender s else prepareCommandSenderTargets (mset_open true s).

Definition toggleCommandSenderAllTargets (s : Sender) : Sender :=
  let targets := sender_targets s in
  let all_selected := bool_decide (targets ≠ [] ∧ length (selected_targets s) = length targets) in
  on_mx (MxSetTargets (if all_selected then ∅ else list_to_set (cs_key <$> targets))) s.

Definition toggleCommandSenderTarget (key : string) (s : Sender) : Sender :=
  on_mx (MxSetTargetsFn (λ keys, if decide (key ∈ keys) then keys ∖ {[key]} else keys ∪ {[key]})) s.

Definition sendCommandToTargets (appendEnter : bool) (s : Sender) : Sender :=
  if decide (trim_string (cm_input s) = "" ∨ selected_targets s = []) then s
  else sendCommandTextToTargets (cm_input s) appendEnter (lb_snippetId (cm_library s)) (selected_targets s) true true (load_closure s) s.

(** [runCommandSnippet] and [runCommandHistoryEntry]. *)
Definition run_saved (command : string) (snippetId : option string) (none_chosen : string) (s : Sender) : Sender :=
  let targets := selected_targets s in
  let s' := prepareCommandSenderTargets s in
  if decide (targets = []) then mset_lastSent (tr none_chosen) s'
  else sendCommandTextToTargets command true snippetId targets false true (load_closure s) s'.

Definition runCommandSnippet (snippet : CommandSnippet) : Sender → Sender :=
  run_saved (sn_command snippet) (Some (sn_id snippet)) "workspace.command.chooseTargetSnippet".

Definition runCommandHistoryEntry (entry : CommandHistoryEntry) : Sender → Sender :=
  run_saved (he_command entry) None "workspace.command.chooseTargetHistory".

Definition insertCommandSnippet (snippet : CommandSnippet) (s : Sender) : Sender :=
  openCommandSenderAndPrepareTargets (on_library (lset_historyId None ∘ lset_snippetId (Some (sn_id snippet))) (mset_input (sn_command snippet) s)).

Definition insertCommandHistoryEntry (entry : CommandHistoryEntry) (s : Sender) : Sender :=
  openCommandSenderAndPrepareTargets (on_library (lset_snippetId None ∘ lset_historyId (Some (he_id entry))) (mset_input (he_command entry) s)).

Definition insertAiCommandToSender (command : string) (s : Sender) : Sender :=
  openCommandSenderAndPrepareTargets (on_library (lset_historyId None ∘ lset_snippetId None) (mset_input command s)).

Definition open_draft (draft : CommandSnippetDraft) : Sender → Sender := on_dialogs (dset_open true ∘ dset_formError None ∘ dset_draft draft).

Definition saveAiCommandAsSnippet (command : string) (s : Sender) : Sender :=
  open_draft (buildCommandSnippetDraft command commandSnippetRootGroup) (on_library (lset_historyId None ∘ lset_snippetId None) (mset_input command s)).

(** Without a target it throws, which the assistant shows. *)
Definition sendAiCommandToTerminal (command : string) (s : Sender) : Sender :=
  match resolveActiveAiCommandTarget tr (cm_env s) with
  | None => mset_lastSent (tr "workspace.command.noWritable") s
  | Some target =>
      sendCommandTextToTargets command true None [target] false false (load_closure s)
        (on_library (lset_historyId None ∘ lset_snippetId None) s)
  end.

Definition recordTerminalInputHistoryCommand (recordTerminalInputHistory : bool) (tabId command : string) (s : Sender) : Sender :=
  if negb recordTerminalInputHistory || negb tauri then s
  else
    await_call (CallTerminalRecord (load_closure s))
      (mset_requests (cm_requests s ++
        [mkRequest None command true (option_list (commandHistoryScopeForTerminalTab (cm_env s) tabId)) FromTerminalInput 1]) s).

Definition settle_terminal_record (load : LoadClosure) (result : string + string) (s : Sender) : Sender :=
  match result with
  | inl entryId => loadCommandLibrary load (ThenTerminal entryId) s
  | inr error => handleCommandLibraryOperationError error s
  end.

Definition settle_copy (label : string) (error : option string) (s : Sender) : Sender :=
  match error with
  | None => on_library (lset_error None) (mset_lastSent (tr_with "workspace.command.copied" [label]) s)
  | Some error => on_library (lset_error (Some (tr_with "workspace.command.copyFailed" [error]))) s
  end.

(** ** The dialogs *)

Definition saveHistoryAsSnippet (entry : CommandHistoryEntry) : Sender → Sender :=
  open_draft (buildCommandSnippetDraft (he_command entry) commandSnippetRootGroup).

Definition openCommandSnippetDialog (snippet : option CommandSnippet) (defaultGroup : option string) (s : Sender) : Sender :=
  open_draft
    match snippet with
    | Some snippet => commandSnippetToDraft snippet
    | None => buildCommandSnippetDraft (cm_input s) (default commandSnippetRootGroup defaultGroup)
    end s.

Definition openCommandSnippetGroupCreateDialog (selectAfterSave : bool) : Sender → Sender :=
  on_dialogs (dset_group (Some (mkGroupDialog None DialogCreate None selectAfterSave ""))).

Definition openCommandSnippetGroupRenameDialog (groupName : string) : Sender → Sender :=
  let name := normalizeCommandSnippetGroupValue (Some groupName) in
  on_dialogs (dset_group (Some (mkGroupDialog None DialogRename (Some name) false name))).

Definition group_error (error : string) : Sender → Sender :=
  on_dialogs (λ d, dset_group ((λ g, mkGroupDialog (Some error) (gd_mode g) (gd_originalName g) (gd_selectAfterSave g) (gd_value g)) <$> dg_group d) d).

Definition draft_group (group : string) (d : CommandSnippetDraft) : CommandSnippetDraft :=
  mkSnippetDraft (dr_command d) (dr_description d) (dr_favorite d) group (dr_id d) (dr_tagsText d) (dr_title d).

Definition in_group (group : string) (snippet : CommandSnippet) : bool :=
  bool_decide (normalizeCommandSnippetGroupValue (Some (sn_group snippet)) = group).

Definition saveCommandSnippetGroupDialog (s : Sender) : Sender :=
  match dg_group (cm_dialogs s) with
  | None => s
  | Some dialog =>
      let nextGroup := normalizeCommandSnippetGroupValue (Some (gd_value dialog)) in
      let originalGroup := normalizeCommandSnippetGroupValue (gd_originalName dialog) in
      if decide (nextGroup = "") then group_error (tr "workspace.command.groupNameRequired") s
      else if existsb (λ group, bool_decide (group = nextGroup ∧ group ≠ originalGroup)) (snippet_groups s)
      then group_error (tr "workspace.command.groupExists") s
      else
        match gd_mode dialog with
        | DialogCreate =>
            let s := on_library (λ l, lset_localGroups (appendCommandSnippetLocalGroup compare (lb_localGroups l) nextGroup) l) s in
            let s := if gd_selectAfterSave dialog then on_dialogs (λ d, dset_draft (draft_group nextGroup (dg_draft d)) d) s else s in
            on_dialogs (dset_group None) s
        | DialogRename =>
            if decide (originalGroup = "" ∨ originalGroup = nextGroup) then on_dialogs (dset_group None) s
            else await_call (CallRename originalGroup nextGroup (filter (λ snippet, in_group originalGroup snippet = true) (lb_snippets (cm_library s)))) s
        end
  end.

(** What a rename sends, one request for each snippet. *)
Definition rename_requests (nextGroup : string) (affected : list CommandSnippet) : list CommandSnippetInput :=
  (λ snippet, commandSnippetToInput snippet nextGroup) <$> affected.

Definition settle_rename (originalGroup nextGroup : string) (affected : list CommandSnippet) (result : list CommandSnippet + string) (s : Sender) : Sender :=
  match result with
  | inl saved =>
      let s := on_library (λ l,
        lset_localGroups (appendCommandSnippetLocalGroup compare (filter (λ group, group ≠ originalGroup) (lb_localGroups l)) nextGroup)
          (lset_snippets (sort_snippets compare date_parse
            (filter (λ snippet, sn_id snippet ∉ (sn_id <$> affected)) (lb_snippets l) ++ saved)) l)) s in
      let s := on_dialogs (λ d, dset_group None
        (if decide (normalizeCommandSnippetGroupValue (Some (dr_group (dg_draft d))) = originalGroup)
         then dset_draft (draft_group nextGroup (dg_draft d)) d else d)) s in
      clear_errors s
  | inr error =>
      if isCommandLibraryCommandMissingError error
      then group_error restart_message (on_library (lset_unavailable (Some restart_message)) s)
      else group_error error s
  end.

Definition saveCommandSnippetDraft (s : Sender) : Sender :=
  let s' := on_dialogs (dset_formError None) s in
  if truthy (lb_unavailable (cm_library s)) then on_dialogs (dset_formError (lb_unavailable (cm_library s))) s'
  else if negb tauri then on_dialogs (dset_formError (Some (tr "workspace.command.saveUnavailable"))) s'
  else await_call (CallUpsert (draft_input (dg_draft (cm_dialogs s)))) s'.

Definition settle_upsert (result : CommandSnippet + string) (s : Sender) : Sender :=
  match result with
  | inl saved =>
      let s := on_library (λ l, lset_historyId None (lset_snippetId (Some (sn_id saved))
        (lset_snippets (upsertCommandSnippet compare date_parse (lb_snippets l) saved) l))) (mset_input (sn_command saved) s) in
      on_dialogs (dset_open false) (clear_errors (on_dialogs (dset_draft (commandSnippetToDraft saved)) s))
  | inr error =>
      if isCommandLibraryCommandMissingError error
      then on_dialogs (dset_formError (Some restart_message)) (on_library (lset_unavailable (Some restart_message)) s)
      else on_dialogs (dset_formError (Some error)) s
  end.

Definition confirmDeleteCommandSnippetGroup (s : Sender) : Sender :=
  let groupName := normalizeCommandSnippetGroupValue (dg_groupDelete (cm_dialogs s)) in
  if decide (groupName = "") then s
  else
    await_call (CallDeleteGroup groupName (sn_id <$> filter (λ snippet, in_group groupName snippet = true) (lb_snippets (cm_library s)))
      (lb_snippetId (cm_library s)) (dg_draft (cm_dialogs s)) (cm_input s)) s.

Definition settle_delete_group (groupName : string) (ids : list string) (selected : option string) (draft : CommandSnippetDraft) (input : string)
    (error : option string) (s : Sender) : Sender :=
  match error with
  | None =>
      let listed (id : option string) := match id with Some id => truthy (Some id) && bool_decide (id ∈ ids) | None => false end in
      let s := on_library (λ l,
        lset_localGroups (filter (λ group, group ≠ groupName) (lb_localGroups l))
          (lset_snippets (filter (λ snippet, sn_id snippet ∉ ids) (lb_snippets l)) l)) s in
      let s := if listed selected then on_library (lset_snippetId None) s else s in
      let s :=
        if listed (dr_id draft) then on_dialogs (dset_draft (buildCommandSnippetDraft input commandSnippetRootGroup)) s
        else if decide (normalizeCommandSnippetGroupValue (Some (dr_group draft)) = groupName)
        then on_dialogs (λ d, dset_draft (draft_group commandSnippetRootGroup (dg_draft d)) d) s else s in
      clear_errors (on_dialogs (dset_groupDelete None) s)
  | Some error => handleCommandLibraryOperationError error s
  end.

Definition confirmDeleteCommandSnippet (s : Sender) : Sender :=
  match dg_snippetDelete (cm_dialogs s) with
  | None => s
  | Some snippet => await_call (CallDeleteSnippet (sn_id snippet) (lb_snippetId (cm_library s)) (dr_id (dg_draft (cm_dialogs s))) (cm_input s)) s
  end.

Definition settle_delete_snippet (id : string) (selected draftId : option string) (input : string) (error : option string) (s : Sender) : Sender :=
  match error with
  | None =>
      let s := on_library (λ l, lset_snippets (filter (λ snippet, sn_id snippet ≠ id) (lb_snippets l)) l) s in
      let s := if decide (selected = Some id) then on_library (lset_snippetId None) s else s in
      let s := if decide (draftId = Some id) then on_dialogs (dset_draft (buildCommandSnippetDraft input commandSnippetRootGroup)) s else s in
      clear_errors (on_dialogs (dset_snippetDelete None) s)
  | Some error => handleCommandLibraryOperationError error s
  end.

Definition confirmDeleteCommandHistory (s : Sender) : Sender :=
  match dg_historyDelete (cm_dialogs s) with
  | None => s
  | Some entry => await_call (CallDeleteHistory (he_id entry) (lb_historyId (cm_library s))) s
  end.

Definition settle_delete_history (id : string) (selected error : option string) (s : Sender) : Sender :=
  match error with
  | None =>
      let s := on_library (λ l, lset_history (filter (λ entry, he_id entry ≠ id) (lb_history l)) l) s in
      let s := if decide (selected = Some id) then on_library (lset_historyId None) s else s in
      clear_errors (on_dialogs (dset_historyDelete None) s)
  | Some error => handleCommandLibraryOperationError error s
  end.

Definition settle_clear (error : option string) (s : Sender) : Sender :=
  match error with
  | None => clear_errors (on_library (lset_historyId None ∘ lset_history []) s)
  | Some error => handleCommandLibraryOperationError error s
  end.

(** ** Renders and their effects

    Every effect reads the state of the render. *)

Definition load_effect (s0 s : Sender) : Sender :=
  if decide (cm_seenLoad s0 = Some (load_closure s0)) then s
  else loadCommandLibrary (load_closure s0) ThenNothing (mset_seenLoad (Some (load_closure s0)) s).

Definition default_scope_effect (s0 s : Sender) : Sender :=
  if decide (cm_seenKey s0 = Some (default_scope_key s0)) then s
  else on_library (lset_scopeKey (default_scope_key s0)) (mset_seenKey (Some (default_scope_key s0)) s).

Definition scope_option_effect (s0 s : Sender) : Sender :=
  let options := scope_options s0 in
  if decide (options ≠ [] ∧ lb_scopeKey (cm_library s0) ∉ (op_value <$> options)) then on_library (lset_scopeKey (default_scope_key s0)) s else s.

Definition delivery_effect (s0 s : Sender) : Sender :=
  mset_delivery (filter (λ entry : string * CommandSenderDelivery, entry.1 ∈ (cs_key <$> sender_targets s0)) (cm_delivery s)) s.

Definition selected_snippet_effect (s0 s : Sender) : Sender :=
  match lb_snippetId (cm_library s0) with
  | Some id => if truthy (Some id) && negb (existsb (λ snippet, bool_decide (sn_id snippet = id)) (lb_snippets (cm_library s0))) then on_library (lset_snippetId None) s else s
  | None => s
  end.

Definition selected_history_effect (s0 s : Sender) : Sender :=
  match lb_historyId (cm_library s0) with
  | Some id => if truthy (Some id) && negb (existsb (λ entry, bool_decide (he_id entry = id)) (lb_history (cm_library s0))) then on_library (lset_historyId None) s else s
  | None => s
  end.

Definition file_tab_effect (s0 s : Sender) : Sender :=
  if en_fileTabActive (cm_env s0) && cm_open s0 then
    let s := mset_open false s in if decide (mx_mode (cm_mx s0) = MxSend) then on_mx (MxSetMode MxOff) s else s
  else s.

Definition targets_available_effect (s0 s : Sender) : Sender :=
  on_mx (MxTargetsAvailable (multiExecAvailableKeys (runtime_targets (cm_env s0))) None None) s.

Definition rendered (s0 : Sender) : Sender :=
  foldl (λ s effect, effect s0 s) s0
    [load_effect; targets_available_effect; default_scope_effect; scope_option_effect; delivery_effect; selected_snippet_effect;
     selected_history_effect; file_tab_effect].

(** ** Events *)

Inductive DraftEdit :=
  | EditGroup (value : string)
  | EditTitle (value : string)
  | EditCommand (value : string)
  | EditDescription (value : string)
  | EditTags (value : string)
  | EditFavorite (value : bool).

Definition edit_draft (edit : DraftEdit) (d : CommandSnippetDraft) : CommandSnippetDraft :=
  let 'mkSnippetDraft command description favorite group id tagsText title := d in
  match edit with
  | EditGroup value => mkSnippetDraft command description favorite value id tagsText title
  | EditTitle value => mkSnippetDraft command description favorite group id tagsText value
  | EditCommand value => mkSnippetDraft value description favorite group id tagsText title
  | EditDescription value => mkSnippetDraft command value favorite group id tagsText title
  | EditTags value => mkSnippetDraft command description favorite group id value title
  | EditFavorite value => mkSnippetDraft command description value group id tagsText title
  end.

Inductive sender_event :=
  | EvEnv (env : SenderEnv)
  | EvRender
  | EvInput (value : string)
  | EvToggleSender
  | EvCloseSender
  | EvOpenFromBar
  | EvToggleBar
  | EvToggleAll
  | EvToggleTarget (key : string)
  | EvSend (appendEnter : bool)
  | EvClearInput
  | EvRunSnippet (snippet : CommandSnippet)
  | EvRunHistory (entry : CommandHistoryEntry)
  | EvInsertSnippet (snippet : CommandSnippet)
  | EvInsertHistory (entry : CommandHistoryEntry)
  | EvAiInsert (command : string)
  | EvAiSave (command : string)
  | EvAiSend (command : string)
  | EvTyped (recorded : bool) (tabId command : string)
  | EvCopy (command label : string)
  | EvScopeKey (key : string)
  | EvSaveHistory (entry : CommandHistoryEntry)
  | EvSnippetDialog (snippet : option CommandSnippet) (defaultGroup : option string)
  | EvDraft (edit : DraftEdit)
  | EvSaveDraft
  | EvSnippetDialogOpen (open : bool)
  | EvGroupCreate (selectAfterSave : bool)
  | EvGroupRename (groupName : string)
  | EvGroupValue (value : string)
  | EvSaveGroup
  | EvGroupClose
  | EvAskDeleteSnippet (snippet : option CommandSnippet)
  | EvAskDeleteGroup (groupName : option string)
  | EvAskDeleteHistory (entry : option CommandHistoryEntry)
  | EvAskClear (open : bool)
  | EvDeleteSnippet
  | EvDeleteGroup
  | EvDeleteHistory
  | EvClearHistory
  | EvMx (event : mx_event)
  | EvAnswer (number : nat) (answer : SenderAnswer).

Definition settle_sender_call (call : SenderCall) (answer : SenderAnswer) : option (Sender → Sender) :=
  match call, answer with
  | CallLoad _ next, AnLoaded result => Some (settle_load next result)
  | CallWrite job deliveries key rest, AnDone error => Some (settle_write job deliveries key rest error)
  | CallRecord job, AnEntry result => Some (settle_record job result)
  | CallMarkUsed _, AnSnippet result => Some (settle_mark_used result)
  | CallTerminalRecord load, AnEntry result => Some (settle_terminal_record load result)
  | CallUpsert _, AnSnippet result => Some (settle_upsert result)
  | CallRename originalGroup nextGroup affected, AnSnippets result => Some (settle_rename originalGroup nextGroup affected result)
  | CallDeleteGroup groupName ids selected draft input, AnDone error => Some (settle_delete_group groupName ids selected draft input error)
  | CallDeleteSnippet id selected draftId input, AnDone error => Some (settle_delete_snippet id selected draftId input error)
  | CallDeleteHistory id selected, AnDone error => Some (settle_delete_history id selected error)
  | CallClear, AnDone error => Some (settle_clear error)
  | CallCopy _ label, AnDone error => Some (settle_copy label error)
  | _, _ => None
  end.

Definition sender_answered (number : nat) (answer : SenderAnswer) (s : Sender) : Sender :=
  match js_find (λ entry : nat * SenderCall, entry.1 = number) (cm_calls s) with
  | Some (_, call) =>
      match settle_sender_call call answer with
      | Some settle => settle (mset_calls (filter (λ entry : nat * SenderCall, entry.1 ≠ number) (cm_calls s)) s)
      | None => s
      end
  | None => s
  end.

Definition sender_step (s : Sender) (e : sender_event) : Sender :=
  match e with
  | EvEnv env => mset_env env s
  | EvRender => rendered s
  | EvInput value => handleCommandSenderInputChange value s
  | EvToggleSender => openCommandSender s
  | EvCloseSender => closeCommandSender s
  | EvOpenFromBar => openCommandSenderAndPrepareTargets s
  | EvToggleBar => toggleMultiExecBar s
  | EvToggleAll => toggleCommandSenderAllTargets s
  | EvToggleTarget key => toggleCommandSenderTarget key s
  | EvSend appendEnter => sendCommandToTargets appendEnter s
  | EvClearInput => clearCommandSenderInput s
  | EvRunSnippet snippet => runCommandSnippet snippet s
  | EvRunHistory entry => runCommandHistoryEntry entry s
  | EvInsertSnippet snippet => insertCommandSnippet snippet s
  | EvInsertHistory entry => insertCommandHistoryEntry entry s
  | EvAiInsert command => insertAiCommandToSender command s
  | EvAiSave command => saveAiCommandAsSnippet command s
  | EvAiSend command => sendAiCommandToTerminal command s
  | EvTyped recorded tabId command => recordTerminalInputHistoryCommand recorded tabId command s
  | EvCopy command label => await_call (CallCopy command label) s
  | EvScopeKey key => on_library (lset_scopeKey key) s
  | EvSaveHistory entry => saveHistoryAsSnippet entry s
  | EvSnippetDialog snippet defaultGroup => openCommandSnippetDialog snippet defaultGroup s
  | EvDraft edit => on_dialogs (λ d, dset_draft (edit_draft edit (dg_draft d)) d) s
  | EvSaveDraft => saveCommandSnippetDraft s
  | EvSnippetDialogOpen open => on_dialogs (λ d, let d := dset_open open d in if open then d else dset_formError None d) s
  | EvGroupCreate selectAfterSave => openCommandSnippetGroupCreateDialog selectAfterSave s
  | EvGroupRename groupName => openCommandSnippetGroupRenameDialog groupName s
  | EvGroupValue value =>
      on_dialogs (λ d, dset_group ((λ g, mkGroupDialog None (gd_mode g) (gd_originalName g) (gd_selectAfterSave g) value) <$> dg_group d) d) s
  | EvSaveGroup => saveCommandSnippetGroupDialog s
  | EvGroupClose => on_dialogs (dset_group None) s
  | EvAskDeleteSnippet snippet => on_dialogs (dset_snippetDelete snippet) s
  | EvAskDeleteGroup groupName => on_dialogs (dset_groupDelete groupName) s
  | EvAskDeleteHistory entry => on_dialogs (dset_historyDelete entry) s
  | EvAskClear open => on_dialogs (dset_clearOpen open) s
  | EvDeleteSnippet => confirmDeleteCommandSnippet s
  | EvDeleteGroup => confirmDeleteCommandSnippetGroup s
  | EvDeleteHistory => confirmDeleteCommandHistory s
  | EvClearHistory => await_call CallClear s
  | EvMx event => mset_mx (mx_step (tr "workspace.split.chooseTarget") (λ n, tr_with "workspace.split.writeFailed" [pretty n]) (cm_mx s) event) s
  | EvAnswer number answer => sender_answered number answer s
  end.

Definition sender_run : Sender → list sender_event → Sender := foldl sender_step.
End sender.

(** ** Steps that send nothing *)

Definition write_job (call : SenderCall) : option nat := match call with CallWrite job _ _ _ => Some (sj_id job) | _ => None end.

(** The snippets that are listed have ids of their own, and so have those of a rename in flight. *)
Record ids_ok (s : Sender) : Prop := {
  ik_snippets : NoDup (sn_id <$> lb_snippets (cm_library s));
  ik_renames : ∀ n originalGroup nextGroup affected, (n, CallRename originalGroup nextGroup affected) ∈ cm_calls s → NoDup (sn_id <$> affected);
}.

(** The groups that were added are normal, and each is there once. *)
Definition groups_ok (groups : list string) : Prop :=
  NoDup groups ∧ Forall (λ g, g ≠ "" ∧ normalizeCommandSnippetGroupValue (Some g) = g) groups.

Record quiet (s s' : Sender) : Prop := {
  q_env : cm_env s' = cm_env s;
  q_jobs : cm_jobs s' = cm_jobs s;
  q_writes : cm_writes s' = cm_writes s;
  q_reports : cm_reports s' = cm_reports s;
  q_requests : ∃ l, cm_requests s' = cm_requests s ++ l ∧ Forall (λ r, rq_job r = None) l;
  q_calls : ∃ l, cm_calls s' = cm_calls s ++ l ∧ cm_next s' = cm_next s + length l ∧ l.*1 = seq (cm_next s) (length l) ∧
    Forall (λ call, write_job call = None) l.*2;
  q_live : live_ok (cm_mx s) → live_ok (cm_mx s');
  q_groups : groups_ok (lb_localGroups (cm_library s)) → groups_ok (lb_localGroups (cm_library s'));
  q_ids : ids_ok s → ids_ok s';
}.

Lemma sender_quiet_refl s : quiet s s.
Proof.
  split; try done; exists [].
  - by rewrite app_nil_r.
  - rewrite app_nil_r, Nat.add_0_r. by split_and!.
Qed.

Lemma sender_quiet_trans s1 s2 s3 : quiet s1 s2 → quiet s2 s3 → quiet s1 s3.
Proof.
  intros [e1 j1 w1 r1 (lr1 & hr1 & fr1) (lc1 & hc1 & n1 & sq1 & f1) v1 g1 i1] [e2 j2 w2 r2 (lr2 & hr2 & fr2) (lc2 & hc2 & n2 & sq2 & f2) v2 g2 i2].
  split; try congruence; try tauto.
  - exists (lr1 ++ lr2). rewrite hr2, hr1, app_assoc. split; [done|by apply Forall_app].
  - exists (lc1 ++ lc2). rewrite hc2, hc1, app_assoc, !fmap_app, length_app, seq_app, sq1, <- n1, sq2, n2, n1.
    split_and!; [done|lia|done|by apply Forall_app].
Qed.

(** A change of the library that keeps ids and groups. *)
Record keeps (f : Library → Library) : Prop := {
  kp_ids : ∀ l, NoDup (sn_id <$> lb_snippets l) → NoDup (sn_id <$> lb_snippets (f l));
  kp_groups : ∀ l, groups_ok (lb_localGroups l) → groups_ok (lb_localGroups (f l));
}.

Lemma quiet_library s0 s f : keeps f → quiet s0 s → quiet s0 (on_library f s).
Proof.
  intros [H1 H2] H. apply (sender_quiet_trans _ _ _ H). split; try done; [..|intros [I1 I2]; split; [by apply H1|done]].
  - exists []. by rewrite app_nil_r.
  - exists []. rewrite app_nil_r, Nat.add_0_r. by split_and!.
  - apply H2.
Qed.

(** Fields that none of this reads. *)
Lemma quiet_fields s0 s s' :
  cm_env s' = cm_env s → cm_jobs s' = cm_jobs s → cm_writes s' = cm_writes s → cm_reports s' = cm_reports s → cm_requests s' = cm_requests s →
  cm_calls s' = cm_calls s → cm_next s' = cm_next s → cm_library s' = cm_library s → (live_ok (cm_mx s) → live_ok (cm_mx s')) →
  quiet s0 s → quiet s0 s'.
Proof.
  intros He Hj Hw Hr Hq Hc Hn Hl Hm H. apply (sender_quiet_trans _ _ _ H). split; rewrite ?Hl; try done.
  - exists []. by rewrite app_nil_r.
  - exists []. rewrite app_nil_r, Nat.add_0_r. by split_and!.
  - intros [I1 I2]. split; [by rewrite Hl|by rewrite Hc].
Qed.

Lemma quiet_await s0 s call :
  write_job call = None →
  (match call with CallRename _ _ affected => ids_ok s → NoDup (sn_id <$> affected) | _ => True end) →
  quiet s0 s → quiet s0 (await_call call s).
Proof.
  intros Hw Hr H. apply (sender_quiet_trans _ _ _ H). split; try done.
  - exists []. by rewrite app_nil_r.
  - exists [(cm_next s, call)]. cbn. split_and!; [done|lia|done|by repeat constructor].
  - intros Hok. specialize Hok as [I1 I2]. split; [done|]. cbn. intros n o g affected [Hin|Hin%list_elem_of_singleton]%elem_of_app; [by eapply I2|].
    injection Hin as -> <-. by apply Hr.
Qed.

Lemma quiet_mx s0 s action : (∀ m, live_ok m → live_ok (multiExecReducer m action)) → quiet s0 s → quiet s0 (on_mx action s).
Proof. intros Ha. apply quiet_fields; try done. apply Ha. Qed.

Lemma send_mode_live mode m : mode ≠ MxLive → live_ok (multiExecReducer m (MxSetMode mode)).
Proof. intros Hm H. by destruct Hm. Qed.

(** Peels the last change of a state. *)
Ltac quiet_one :=
  match goal with
  | |- quiet ?s ?s => apply sender_quiet_refl
  | |- quiet _ (on_library _ _) => apply quiet_library; [by split|]
  | |- quiet _ (clear_errors _) => unfold clear_errors
  | |- quiet _ (await_call _ _) => apply quiet_await; [done|done|]
  | |- quiet _ (on_mx (MxSetMode _) _) => apply quiet_mx; [intros m _; by apply send_mode_live|]
  | |- quiet _ (on_mx _ _) => apply quiet_mx; [intros m _; apply mx_retarget_live_ok|]
  | |- quiet _ (on_dialogs _ ?s) => apply (quiet_fields _ s); [done..|]
  | |- quiet _ (mset_open _ ?s) => apply (quiet_fields _ s); [done..|]
  | |- quiet _ (mset_barOpen _ ?s) => apply (quiet_fields _ s); [done..|]
  | |- quiet _ (mset_input _ ?s) => apply (quiet_fields _ s); [done..|]
  | |- quiet _ (mset_lastSent _ ?s) => apply (quiet_fields _ s); [done..|]
  | |- quiet _ (mset_delivery _ ?s) => apply (quiet_fields _ s); [done..|]
  | |- quiet _ (mset_seenKey _ ?s) => apply (quiet_fields _ s); [done..|]
  | |- quiet _ (mset_seenLoad _ ?s) => apply (quiet_fields _ s); [done..|]
  | |- quiet _ (if _ then _ else _) => case_match || case_decide
  | |- quiet _ (match _ with _ => _ end) => case_match
  end.

Ltac quiet := repeat quiet_one; try done.

Section lemmas.
Context (tr : string → string) (tr_with : string → list string → string).
Context (compare : string → string → Z) (date_parse : string → option Z) (tauri : bool).

Lemma quiet_after_load s0 next s : quiet s0 s → quiet s0 (after_load next s).
Proof. intros H. unfold after_load. quiet. Qed.

Lemma keeps_compose f g : keeps f → keeps g → keeps (f ∘ g).
Proof. intros [f1 f2] [g1 g2]. split; intros l Hl; cbn; auto. Qed.

Lemma quiet_load s0 load next s : quiet s0 s → quiet s0 (loadCommandLibrary tauri load next s).
Proof.
  intros H. unfold loadCommandLibrary. case_match; [|quiet]. apply quiet_after_load, quiet_library; [|done].
  split; [intros l _; apply NoDup_nil_2|done].
Qed.

Lemma quiet_load_settled s0 next result s :
  (∀ snippets history, result = inl (snippets, history) → NoDup (sn_id <$> snippets)) → quiet s0 s → quiet s0 (settle_load tr next result s).
Proof.
  intros Hr H. unfold settle_load. apply quiet_after_load, quiet_library; [|done]. apply keeps_compose; [by split|].
  destruct result as [[snippets history]|error]; [split; [intros l _; by eapply Hr|done]|].
  case_match; [|by split]. split; [intros l _; apply NoDup_nil_2|done].
Qed.

Lemma quiet_operation_error s0 error s : quiet s0 s → quiet s0 (handleCommandLibraryOperationError tr error s).
Proof. intros H. unfold handleCommandLibraryOperationError. case_match; quiet. Qed.

Lemma quiet_send_error s0 error s : quiet s0 s → quiet s0 (send_error tr error s).
Proof. intros H. unfold send_error. case_match; quiet. Qed.

Lemma keeps_filter (P : CommandSnippet → Prop) `{!∀ x, Decision (P x)} : keeps (λ l, lset_snippets (filter P (lb_snippets l)) l).
Proof. split; [|done]. intros l Hl. cbn. eapply sublist_NoDup; [exact Hl|]. apply fmap_sublist, sublist_filter. Qed.

Lemma keeps_groups_filter (P : string → Prop) `{!∀ x, Decision (P x)} : keeps (λ l, lset_localGroups (filter P (lb_localGroups l)) l).
Proof.
  split; [done|]. intros l [H1 H2]. split; cbn; [by apply NoDup_filter|]. rewrite Forall_forall in *. intros g [_ Hg]%list_elem_of_filter. by apply H2.
Qed.

Lemma keeps_append name : keeps (λ l, lset_localGroups (appendCommandSnippetLocalGroup compare (lb_localGroups l) name) l).
Proof.
  split; [done|]. intros l [H1 H2]. destruct (append_group compare (lb_localGroups l) name H1) as [G1 G2]. split; cbn; [done|].
  apply Forall_forall. intros g [Hg|[Hg <-]]%G2; [by eapply Forall_forall in H2|]. split; [done|apply normalize_group_idem].
Qed.

Lemma keeps_upsert snippet : keeps (λ l, lset_snippets (upsertCommandSnippet compare date_parse (lb_snippets l) snippet) l).
Proof. split; [|done]. intros l. apply upsert_ids. Qed.

(** ** Every other answer and event sends nothing *)

(** The answers that the backend gives: ids of their own, and the snippets that were asked for. *)
Definition answer_ok (call : SenderCall) (answer : SenderAnswer) : Prop :=
  match call, answer with
  | CallLoad _ _, AnLoaded (inl (snippets, _)) => NoDup (sn_id <$> snippets)
  | CallRename _ _ affected, AnSnippets (inl saved) => sn_id <$> saved = sn_id <$> affected
  | _, _ => True
  end.

Lemma quiet_prepare s0 s : quiet s0 s → quiet s0 (prepareCommandSenderTargets tauri s).
Proof. intros H. unfold prepareCommandSenderTargets. apply quiet_load. quiet. Qed.

Lemma quiet_rename s0 s originalGroup nextGroup affected result :
  NoDup (sn_id <$> affected) → (∀ saved, result = inl saved → sn_id <$> saved = sn_id <$> affected) →
  quiet s0 s → quiet s0 (settle_rename tr compare date_parse originalGroup nextGroup affected result s).
Proof.
  intros Hnd Hr H. unfold settle_rename. destruct result as [saved|error]; [|case_match; unfold group_error; quiet].
  specialize (Hr saved eq_refl). unfold clear_errors. quiet_one. quiet_one. apply quiet_library; [|done]. split.
  - intros l Hl. cbn. unfold sort_snippets. rewrite js_sort_Permutation, fmap_app. apply NoDup_app. split_and!.
    + eapply sublist_NoDup; [exact Hl|]. apply fmap_sublist, sublist_filter.
    + intros id (x & -> & [Hx _]%list_elem_of_filter)%list_elem_of_fmap. by rewrite Hr.
    + by rewrite Hr.
  - intros l Hl. pose proof (kp_groups _ (keeps_groups_filter (λ group, group ≠ originalGroup)) l Hl) as Hf.
    exact (kp_groups _ (keeps_append nextGroup) _ Hf).
Qed.

Lemma quiet_answer call answer settle s0 s :
  settle_sender_call tr tr_with compare date_parse tauri call answer = Some settle → write_job call = None → answer_ok call answer →
  (match call with CallRename _ _ affected => NoDup (sn_id <$> affected) | _ => True end) →
  quiet s0 s → quiet s0 (settle s).
Proof.
  intros Hs Hw Ha Hc H. destruct call, answer; try done; cbn in Hs; injection Hs as <-.
  - apply quiet_load_settled; [|done]. by intros snippets history ->.
  - unfold settle_record. case_match; [by apply quiet_load|by apply quiet_send_error].
  - unfold settle_mark_used. case_match; [|by apply quiet_send_error]. quiet_one. quiet_one. apply quiet_library; [|done]. apply keeps_upsert.
  - unfold settle_terminal_record. case_match; [by apply quiet_load|by apply quiet_operation_error].
  - unfold settle_upsert. case_match; [|case_match; quiet]. quiet_one. quiet_one. quiet_one. quiet_one. apply quiet_library; [|by quiet].
    split; [|done]. intros l. apply upsert_ids.
  - apply quiet_rename; [done| |done]. by intros saved ->.
  - unfold settle_delete_group. case_match; [by apply quiet_operation_error|]. quiet_one. quiet_one. quiet_one.
    all: repeat (case_match || case_decide || quiet_one); try done.
    all: apply quiet_library; [|done].
    all: exact (keeps_compose _ _ (keeps_groups_filter _) (keeps_filter _)).
  - unfold settle_delete_snippet. case_match; [by apply quiet_operation_error|]. quiet_one. quiet_one. quiet_one.
    all: repeat (case_match || case_decide || quiet_one); try done.
    all: by apply quiet_library; [apply keeps_filter|].
  - unfold settle_delete_history. case_match; [by apply quiet_operation_error|]. quiet.
  - unfold settle_clear. case_match; [by apply quiet_operation_error|]. quiet.
  - unfold settle_copy. case_match; quiet.
Qed.

Lemma quiet_rendered s0 : quiet s0 (rendered tr tr_with tauri s0).
Proof.
  unfold rendered. cbn [foldl].
  assert (∀ s, quiet s0 s → quiet s0 (load_effect tauri s0 s)) as H1 by (intros s H; unfold load_effect; case_decide; [done|]; apply quiet_load; quiet).
  assert (∀ s, quiet s0 s → quiet s0 (targets_available_effect s0 s)) as H2 by (intros s H; unfold targets_available_effect; quiet).
  assert (∀ s, quiet s0 s → quiet s0 (default_scope_effect s0 s)) as H3 by (intros s H; unfold default_scope_effect; quiet).
  assert (∀ s, quiet s0 s → quiet s0 (scope_option_effect tr tr_with s0 s)) as H4 by (intros s H; unfold scope_option_effect; quiet).
  assert (∀ s, quiet s0 s → quiet s0 (delivery_effect s0 s)) as H5 by (intros s H; unfold delivery_effect; quiet).
  assert (∀ s, quiet s0 s → quiet s0 (selected_snippet_effect s0 s)) as H6 by (intros s H; unfold selected_snippet_effect; quiet).
  assert (∀ s, quiet s0 s → quiet s0 (selected_history_effect s0 s)) as H7 by (intros s H; unfold selected_history_effect; quiet).
  assert (∀ s, quiet s0 s → quiet s0 (file_tab_effect s0 s)) as H8 by (intros s H; unfold file_tab_effect; quiet).
  auto 10 using sender_quiet_refl.
Qed.

(** The events whose handlers may send. *)
Definition sends (e : sender_event) : bool :=
  match e with EvSend _ | EvRunSnippet _ | EvRunHistory _ | EvAiSend _ => true | _ => false end.

Lemma quiet_terminal_record s recorded tabId command : quiet s (recordTerminalInputHistoryCommand tauri recorded tabId command s).
Proof.
  unfold recordTerminalInputHistoryCommand. case_match; [apply sender_quiet_refl|]. apply quiet_await; [done|done|].
  split; try done; [eexists [_]; split; [done|by repeat constructor]|..].
  - exists []. by rewrite app_nil_r, Nat.add_0_r.
  - by intros [I1 I2].
Qed.

Lemma quiet_group_dialog s : quiet s (saveCommandSnippetGroupDialog tr compare s).
Proof.
  unfold saveCommandSnippetGroupDialog, group_error. destruct (dg_group (cm_dialogs s)) as [dialog|]; [|apply sender_quiet_refl].
  case_decide as E; [quiet|]. case_match; [quiet|]. destruct (gd_mode dialog).
  - quiet_one. case_match; [quiet_one|]; (apply quiet_library; [apply keeps_append|apply sender_quiet_refl]).
  - case_decide; [quiet|]. apply quiet_await; [done| |apply sender_quiet_refl]. intros [Hi _].
    eapply sublist_NoDup; [exact Hi|]. apply fmap_sublist, sublist_filter.
Qed.

Lemma quiet_event s e :
  sends e = false → (∀ env, e ≠ EvEnv env) → (∀ n a, e ≠ EvAnswer n a) → quiet s (sender_step tr tr_with compare date_parse tauri s e).
Proof.
  intros Hs Henv Ha. destruct e; try done; cbn [sender_step]; try by (quiet; try apply quiet_prepare; quiet).
  all: try by (unfold openCommandSenderAndPrepareTargets, insertCommandSnippet, insertCommandHistoryEntry, insertAiCommandToSender, openCommandSenderAndPrepareTargets; apply quiet_prepare; quiet).
  - by destruct (Henv env).
  - apply quiet_rendered.
  - unfold handleCommandSenderInputChange. quiet.
  - unfold openCommandSender, closeCommandSender. case_match; [|apply quiet_prepare; quiet]. quiet.
  - unfold closeCommandSender. quiet.
  - unfold toggleMultiExecBar. case_match; [|quiet].
    apply (quiet_fields _ (mset_barOpen (negb (bar_shown s)) s)); [done..|intros _; apply setTerminalSplitSyncState_live_ok|quiet].
  - unfold toggleCommandSenderAllTargets. quiet.
  - unfold toggleCommandSenderTarget. quiet.
  - unfold clearCommandSenderInput. quiet.
  - unfold saveAiCommandAsSnippet, open_draft. quiet.
  - apply quiet_terminal_record.
  - unfold saveHistoryAsSnippet, open_draft. quiet.
  - unfold openCommandSnippetDialog, open_draft. quiet.
  - unfold saveCommandSnippetDraft. quiet.
  - unfold openCommandSnippetGroupCreateDialog. quiet.
  - unfold openCommandSnippetGroupRenameDialog. quiet.
  - apply quiet_group_dialog.
  - unfold confirmDeleteCommandSnippet. quiet.
  - unfold confirmDeleteCommandSnippetGroup. quiet.
  - unfold confirmDeleteCommandHistory. quiet.
  - apply (quiet_fields _ s); [done..|apply mx_step_live_ok|quiet].
  - by destruct (Ha number answer).
Qed.
End lemmas.

(** ** The sends *)

Definition job_writes (s : Sender) (id : nat) : list SentWrite := filter (λ w, wr_job w = id) (cm_writes s).

(** The keys that were written to, of these deliveries. *)
Definition asked (deliveries : list SentDelivery) : list string := d_key <$> filter (λ d, d_status d ≠ DsDisconnected) deliveries.

Definition written_keys (deliveries : list SentDelivery) : list string := d_key <$> filter (λ d, d_status d = DsWritten) deliveries.

(** The target with a key; of several with the same key it is the last. *)
Definition target_of (targets : list CommandSenderTarget) (key : string) : option CommandSenderTarget :=
  last (filter (λ target, cs_key target = key) targets).

(** A request to the history that a send made. *)
Record request_ok (r : HistoryRequest) (job : SendJob) (deliveries : list SentDelivery) : Prop := {
  rk_command : rq_command r = trim_string (sj_command job);
  rk_count : rq_target_count r = length (written_keys deliveries);
  rk_some : 0 < rq_target_count r;
  rk_unique : NoDup (rq_scopes r);
  rk_scopes : ∀ scope, scope ∈ rq_scopes r ↔
    ∃ key target, key ∈ written_keys deliveries ∧ target_of (sj_targets job) key = Some target ∧ cs_historyScope target = Some scope;
  rk_enter : rq_append_enter r = sj_appendEnter job;
  rk_source : rq_source r = FromCommandSender;
}.

Section core.
Context (tauri : bool).

(** The jobs with their writes, reports and requests; [running] are those that are neither in
    flight nor reported. *)
Record core_but (running : list nat) (s : Sender) : Prop := {
  co_numbers : NoDup (cm_calls s).*1;
  co_below : ∀ n, n ∈ (cm_calls s).*1 → n < cm_next s;
  co_jobs : NoDup (sj_id <$> cm_jobs s);
  co_jobs_ok : ∀ job, job ∈ cm_jobs s → sj_id job < cm_next s ∧ trim_string (sj_command job) ≠ "" ∧ sj_targets job ≠ [];
  co_split : omap (write_job ∘ snd) (cm_calls s) ++ (cm_reports s).*1 ++ running ≡ₚ sj_id <$> cm_jobs s;
  co_flight : ∀ n job deliveries key rest, (n, CallWrite job deliveries key rest) ∈ cm_calls s →
    job ∈ cm_jobs s ∧ (d_key <$> deliveries) ++ key :: rest = cs_key <$> sj_targets job ∧
    wr_key <$> job_writes s (sj_id job) = asked deliveries ++ [key] ∧ tauri = true;
  co_reports : ∀ id deliveries, (id, deliveries) ∈ cm_reports s → ∃ job, job ∈ cm_jobs s ∧ sj_id job = id ∧
    d_key <$> deliveries = cs_key <$> sj_targets job ∧ wr_key <$> job_writes s id = if tauri then asked deliveries else [];
  co_writes : ∀ w, w ∈ cm_writes s → ∃ job, job ∈ cm_jobs s ∧ wr_job w = sj_id job ∧ wr_data w = sent_payload job;
  co_requests : ∀ r id, r ∈ cm_requests s → rq_job r = Some id →
    ∃ job deliveries, job ∈ cm_jobs s ∧ sj_id job = id ∧ (id, deliveries) ∈ cm_reports s ∧ request_ok r job deliveries;
  co_once : sublist (omap rq_job (cm_requests s)) (cm_reports s).*1;
  co_recorded : tauri = true → ∀ id deliveries, (id, deliveries) ∈ cm_reports s → written_keys deliveries ≠ [] →
    ∃ r, r ∈ cm_requests s ∧ rq_job r = Some id;
}.

Lemma core_fields running s s' :
  cm_jobs s' = cm_jobs s → cm_writes s' = cm_writes s → cm_reports s' = cm_reports s → cm_requests s' = cm_requests s →
  cm_calls s' = cm_calls s → cm_next s' = cm_next s → core_but running s → core_but running s'.
Proof.
  intros Hj Hw Hr Hq Hc Hn []. split; unfold job_writes in *; rewrite ?Hj, ?Hw, ?Hr, ?Hq, ?Hc, ?Hn; try done.
Qed.

Lemma omap_none (calls : list (nat * SenderCall)) :
  Forall (λ call, write_job call = None) calls.*2 → omap (write_job ∘ snd) calls = [].
Proof. induction calls as [|[n c] calls IH]; [done|]. intros [Hc Hcs]%Forall_cons. cbn in Hc |- *. rewrite Hc. by apply IH. Qed.

Lemma core_quiet running s s' : quiet s s' → core_but running s → core_but running s'.
Proof.
  intros [He Hj Hw Hr (lr & Hq & Fq) (lc & Hc & Hn & Hs & Fc) _ _ _] [c1 c2 c3 c4 c5 c6 c7 c8 c9 c10 c11].
  split; unfold job_writes in *; rewrite ?Hj, ?Hw, ?Hr, ?Hq, ?Hc, ?Hn; try done.
  - rewrite fmap_app, Hs. apply NoDup_app. split_and!; [done| |apply NoDup_seq]. intros n Hin%c2 [Hn' _]%elem_of_seq. lia.
  - intros n. rewrite fmap_app, Hs. intros [Hin%c2|[_ Hin]%elem_of_seq]%elem_of_app; lia.
  - intros job (H1 & H2 & H3)%c4. split_and!; [lia|done..].
  - rewrite omap_app, (omap_none lc), app_nil_r by done. done.
  - intros n job ds key rest [Hin|Hin]%elem_of_app; [by eapply c6|]. rewrite Forall_forall in Fc.
    assert (write_job (CallWrite job ds key rest) = None) as []%eq_None_not_Some; [|by eexists].
    apply Fc. apply list_elem_of_fmap. by exists (n, CallWrite job ds key rest).
  - intros r id [Hin|Hin]%elem_of_app Hid; [by eapply c9|]. rewrite Forall_forall in Fq. apply Fq in Hin. congruence.
  - rewrite omap_app. assert (omap rq_job lr = []) as ->; [|by rewrite app_nil_r].
    clear - Fq. induction Fq as [|r lr H _ IH]; [done|]. cbn. by rewrite H.
  - intros Ht id ds Hin Hne. destruct (c11 Ht id ds Hin Hne) as (r & Hr' & Hid). exists r. split; [set_solver|done].
Qed.

Lemma running_fresh id s : core_but [id] s → (id ∉ omap (write_job ∘ snd) (cm_calls s)) ∧ (id ∉ (cm_reports s).*1).
Proof.
  intros [_ _ Hjobs _ Hsplit _ _ _ _ _ _]. rewrite <- Hsplit in Hjobs. rewrite app_assoc in Hjobs.
  apply NoDup_app in Hjobs as (_ & Hd & _). split; intros Hin; apply (Hd id); set_solver.
Qed.

Lemma flight_id n job deliveries key rest (s : Sender) :
  (n, CallWrite job deliveries key rest) ∈ cm_calls s → sj_id job ∈ omap (write_job ∘ snd) (cm_calls s).
Proof. intros Hin. apply list_elem_of_omap. by exists (n, CallWrite job deliveries key rest). Qed.

(** A job at its next key. *)
Record loop_ok (job : SendJob) (deliveries : list SentDelivery) (keys : list string) (s : Sender) : Prop := {
  lo_core : core_but [sj_id job] s;
  lo_job : job ∈ cm_jobs s;
  lo_keys : (d_key <$> deliveries) ++ keys = cs_key <$> sj_targets job;
  lo_writes : wr_key <$> job_writes s (sj_id job) = if tauri then asked deliveries else [];
}.

Lemma job_writes_other s id w : wr_job w ≠ id → filter (λ w, wr_job w = id) (cm_writes s ++ [w]) = job_writes s id.
Proof. intros Hw. rewrite filter_app, filter_cons_False by done. by rewrite app_nil_r. Qed.

Lemma core_issue job deliveries key rest session s :
  loop_ok job deliveries (key :: rest) s → tauri = true →
  core_but [] (await_call (CallWrite job deliveries key rest)
    (mset_writes (cm_writes s ++ [mkWrite (sj_id job) key session (sent_payload job)]) s)).
Proof.
  intros [Hcore Hjob Hkeys Hwrites] Ht. destruct (running_fresh _ _ Hcore) as [F1 F2]. destruct Hcore as [c1 c2 c3 c4 c5 c6 c7 c8 c9 c10 c11].
  rewrite Ht in Hwrites. split; unfold job_writes; cbn [await_call mset_next mset_calls mset_writes cm_calls cm_next cm_jobs cm_reports cm_writes cm_requests]; try done.
  - rewrite fmap_app. apply NoDup_app. split_and!; [done| |apply NoDup_singleton]. intros n Hin%c2 ->%list_elem_of_singleton. cbn in Hin; lia.
  - intros n. rewrite fmap_app. intros [Hin%c2| ->%list_elem_of_singleton]%elem_of_app; [lia|cbn; lia].
  - intros job' (H1 & H2 & H3)%c4. split_and!; [lia|done..].
  - rewrite omap_app. cbn. rewrite <- app_assoc. rewrite <- c5. apply Permutation_app_head. by rewrite Permutation_app_comm, app_nil_r.
  - intros n job' ds key' rest' [Hin|Hin%list_elem_of_singleton]%elem_of_app.
    + destruct (c6 _ _ _ _ _ Hin) as (G1 & G2 & G3 & G4). split_and!; [done..| |done].
      rewrite job_writes_other; [done|]. cbn. intros E. apply F1. rewrite E. by eapply flight_id.
    + injection Hin as -> -> -> -> ->. split_and!; [done..| |done]. rewrite filter_app, filter_cons_True by done.
      rewrite fmap_app. unfold job_writes in Hwrites. by rewrite Hwrites.
  - intros id ds Hin. destruct (c7 _ _ Hin) as (job' & G1 & G2 & G3 & G4). exists job'. split_and!; [done..|].
    rewrite job_writes_other; [done|]. cbn. intros <-. apply F2. apply list_elem_of_fmap. by exists (sj_id job, ds).
  - intros w [Hin| ->%list_elem_of_singleton]%elem_of_app; [by apply c8|]. by exists job.
Qed.

Lemma core_finish job deliveries s l :
  loop_ok job deliveries [] s →
  (l = [] ∧ (tauri = true → written_keys deliveries = [])) ∨ (∃ r, l = [r] ∧ rq_job r = Some (sj_id job) ∧ request_ok r job deliveries) →
  core_but [] (mset_requests (cm_requests s ++ l) (mset_reports (cm_reports s ++ [(sj_id job, deliveries)]) s)).
Proof.
  intros [Hcore Hjob Hkeys Hwrites] Hl. destruct Hcore as [c1 c2 c3 c4 c5 c6 c7 c8 c9 c10 c11].
  split; unfold job_writes in *; cbn [mset_requests mset_reports cm_calls cm_next cm_jobs cm_reports cm_writes cm_requests]; try done.
  - rewrite fmap_app. cbn. by rewrite app_nil_r.
  - intros id ds [Hin|Hin%list_elem_of_singleton]%elem_of_app; [by apply c7|]. injection Hin as -> ->.
    exists job. split_and!; [done..| |done]. by rewrite <- Hkeys, app_nil_r.
  - intros r id [Hin|Hin]%elem_of_app Hid.
    + destruct (c9 _ _ Hin Hid) as (job' & ds & G1 & G2 & G3 & G4). exists job', ds. split_and!; try done. apply elem_of_app. by left.
    + destruct Hl as [[-> _]|(r' & -> & Hr & Hok)]; [by apply not_elem_of_nil in Hin|]. apply list_elem_of_singleton in Hin as ->.
      rewrite Hr in Hid. injection Hid as <-. exists job, deliveries. split_and!; try done. apply elem_of_app. right. by apply list_elem_of_singleton.
  - rewrite omap_app, fmap_app. apply sublist_app; [done|]. destruct Hl as [[-> _]|(r & -> & Hr & _)]; [apply sublist_nil_l|]. cbn. by rewrite Hr.
  - intros Ht id ds [Hin|Hin%list_elem_of_singleton]%elem_of_app Hne.
    + destruct (c11 Ht id ds Hin Hne) as (r & Hr & Hid). exists r. split; [set_solver|done].
    + injection Hin as -> ->. destruct Hl as [[_ Hl]|(r & -> & Hr & _)]; [by destruct Hne; apply Hl|]. exists r. split; [set_solver|done].
Qed.

(** ** The scopes of a request *)

Lemma target_by_key_of targets key : jsmap_get key (target_by_key targets) = target_of targets key.
Proof.
  unfold target_by_key, target_of. induction targets as [|t targets IH] using rev_ind; [done|].
  rewrite foldl_app, filter_app. cbn [foldl]. rewrite jsmap_get_set, filter_cons, filter_nil. case_decide as E.
  - rewrite decide_True by done. by rewrite last_snoc.
  - rewrite decide_False by done. by rewrite app_nil_r.
Qed.

Lemma target_of_is targets key : key ∈ (cs_key <$> targets) → is_Some (target_of targets key).
Proof.
  intros (t & -> & Ht)%list_elem_of_fmap. unfold target_of. apply last_is_Some. intros Hnil.
  assert (t ∈ filter (λ target, cs_key target = cs_key t) targets) as Hin by by apply list_elem_of_filter.
  rewrite Hnil in Hin. by apply not_elem_of_nil in Hin.
Qed.

(** The successes of a report, with the target of each of its keys. *)
Lemma successful_exact job deliveries :
  (∀ d, d ∈ deliveries → d_key d ∈ (cs_key <$> sj_targets job)) →
  length (successful_targets job deliveries) = length (written_keys deliveries) ∧
  (∀ t, t ∈ successful_targets job deliveries ↔ ∃ key, key ∈ written_keys deliveries ∧ target_of (sj_targets job) key = Some t).
Proof.
  induction deliveries as [|d ds IH]; intros Hin.
  { split; [done|]. intros t. split; [by intros []%not_elem_of_nil|]. by intros (key & []%not_elem_of_nil & _). }
  destruct IH as [I1 I2]; [intros d' Hd'; apply Hin; by right|].
  assert (successful_targets job (d :: ds) =
    (if decide (d_status d = DsWritten) then option_list (jsmap_get (d_key d) (target_by_key (sj_targets job))) else []) ++ successful_targets job ds) as -> by done.
  unfold written_keys in *. rewrite filter_cons. case_decide as E; [|done]. rewrite target_by_key_of.
  destruct (target_of_is (sj_targets job) (d_key d)) as [t Ht]; [apply Hin; by left|]. rewrite Ht.
  change (option_list (Some t)) with [t]. rewrite fmap_cons. cbn [app length].
  split; [by rewrite I1|]. intros t'. rewrite elem_of_cons, I2. split.
  - intros [->|(key & Hk & Hkt)]; [exists (d_key d)|exists key]; (split; [|done]); apply elem_of_cons; auto.
  - intros (key & [->|Hk]%elem_of_cons & Hkt); [left; congruence|right; eauto].
Qed.

(** ** The delivery loop *)

Context (tr : string → string) (tr_with : string → list string → string).

Lemma finished_core job deliveries s : loop_ok job deliveries [] s → core_but [] (send_finished tr tr_with tauri job deliveries s).
Proof.
  intros Hloop. assert (∀ d, d ∈ deliveries → d_key d ∈ (cs_key <$> sj_targets job)) as Hin.
  { intros d Hd. rewrite <- (lo_keys _ _ _ _ Hloop), app_nil_r. apply list_elem_of_fmap. by exists d. }
  destruct (successful_exact job deliveries Hin) as [Hlen Hsucc]. unfold send_finished. cbv zeta.
  match goal with |- context [if sj_clearInput job then clearCommandSenderInput ?s' else ?s'] => set (s1 := if sj_clearInput job then clearCommandSenderInput s' else s') end.
  assert (cm_jobs s1 = cm_jobs s ∧ cm_writes s1 = cm_writes s ∧ cm_reports s1 = cm_reports s ++ [(sj_id job, deliveries)] ∧
    cm_requests s1 = cm_requests s ∧ cm_calls s1 = cm_calls s ∧ cm_next s1 = cm_next s) as (E1 & E2 & E3 & E4 & E5 & E6)
    by (unfold s1; destruct (sj_clearInput job); repeat case_decide; done).
  clearbody s1. case_decide as Hsome.
  - eapply core_quiet; [apply quiet_await; [done|done|apply sender_quiet_refl]|].
    set (r := mkRequest (Some (sj_id job)) _ _ _ _ _).
    eapply core_fields; [..|apply (core_finish job deliveries s [r] Hloop); right; exists r; split_and!; [done|done|]]; try done; [by cbn; rewrite E4|].
    split; cbn; [done|by rewrite Hlen|tauto|apply unique_scopes_exact| |done|done].
    intros scope. rewrite (proj2 (unique_scopes_exact _)), list_elem_of_omap. split.
    + intros (target & (key & Hk & Hkt)%Hsucc & Hs). by exists key, target.
    + intros (key & target & Hk & Hkt & Hs). exists target. split; [|done]. apply Hsucc. by exists key.
  - eapply core_fields; [..|apply (core_finish job deliveries s [] Hloop); left; split; [done|]]; try done; [cbn; by rewrite app_nil_r|].
    intros Ht. apply length_zero_iff_nil. rewrite <- Hlen.
    destruct (decide (length (successful_targets job deliveries) = 0)); [done|]. destruct Hsome. split_and!; [lia| |done].
    destruct Hloop as [Hc Hjob _ _]. by destruct (co_jobs_ok _ _ Hc job Hjob) as (_ & ? & _).
Qed.

Lemma asked_snoc deliveries d : asked (deliveries ++ [d]) = asked deliveries ++ (if decide (d_status d = DsDisconnected) then [] else [d_key d]).
Proof. unfold asked. rewrite filter_app, fmap_app. f_equal. rewrite filter_cons. by repeat case_decide. Qed.

Lemma loop_core job deliveries keys s : loop_ok job deliveries keys s → core_but [] (send_loop tr tr_with tauri job deliveries keys s).
Proof.
  revert deliveries. induction keys as [|key keys IH]; intros deliveries Hloop; cbn [send_loop]; [by apply finished_core|].
  assert (∀ d, d_key d = key → (tauri = true → d_status d = DsDisconnected) → loop_ok job (deliveries ++ [d]) keys s) as Hnext.
  { intros d Hd Hs. destruct Hloop as [H1 H2 H3 H4]. split; [done..| |].
    - rewrite fmap_app, <- H3, <- app_assoc. cbn. by rewrite Hd.
    - rewrite H4, asked_snoc. destruct tauri; [|done]. rewrite decide_True by auto. by rewrite app_nil_r. }
  case_match; [|by apply IH, Hnext]. destruct tauri eqn:Et; [|by apply IH, Hnext]. rewrite <- Et in *. by apply core_issue.
Qed.

(** ** A send from its start *)

Definition with_job (job : SendJob) (s : Sender) : Sender := mset_next (S (cm_next s)) (mset_jobs (cm_jobs s ++ [job]) s).

Lemma start_core job s :
  core_but [] s → sj_id job = cm_next s → trim_string (sj_command job) ≠ "" → sj_targets job ≠ [] →
  loop_ok job [] (cs_key <$> sj_targets job) (with_job job s).
Proof.
  intros [c1 c2 c3 c4 c5 c6 c7 c8 c9 c10 c11] Hid Hcommand Htargets.
  assert (∀ job', job' ∈ cm_jobs s → sj_id job' ≠ sj_id job) as Hfresh by (intros job' (? & _)%c4; lia).
  assert (job_writes s (sj_id job) = []) as Hnone.
  { unfold job_writes. destruct (filter (λ w, wr_job w = sj_id job) (cm_writes s)) as [|w l] eqn:E; [done|].
    assert (w ∈ filter (λ w, wr_job w = sj_id job) (cm_writes s)) as [Hw Hin]%list_elem_of_filter by (rewrite E; by left).
    destruct (c8 _ Hin) as (job' & Hj & Hw' & _). destruct (Hfresh _ Hj). congruence. }
  split; [|by apply elem_of_app; right; left|done|by destruct tauri; change (job_writes (with_job job s) (sj_id job)) with (job_writes s (sj_id job)); rewrite Hnone].
  split; unfold job_writes in *; cbn [with_job mset_next mset_jobs cm_calls cm_next cm_jobs cm_reports cm_writes cm_requests]; try done.
  - intros n Hn%c2. lia.
  - rewrite fmap_app. apply NoDup_app. split_and!; [done| |apply NoDup_singleton].
    intros id (job' & -> & Hj)%list_elem_of_fmap Hin%list_elem_of_singleton. by destruct (Hfresh _ Hj).
  - intros job' [(H1 & H2 & H3)%c4| ->%list_elem_of_singleton]%elem_of_app; [split_and!; [lia|done..]|]. split_and!; [lia|done..].
  - rewrite fmap_app, <- c5, app_nil_r, <- app_assoc. done.
  - intros n job' ds key rest Hin. destruct (c6 _ _ _ _ _ Hin) as (G1 & G2). split; [|done]. apply elem_of_app. by left.
  - intros id ds Hin. destruct (c7 _ _ Hin) as (job' & G1 & G2). exists job'. split; [|done]. apply elem_of_app. by left.
  - intros w Hin. destruct (c8 _ Hin) as (job' & G1 & G2). exists job'. split; [|done]. apply elem_of_app. by left.
  - intros r id Hin Hr. destruct (c9 _ _ Hin Hr) as (job' & ds & G1 & G2). exists job', ds. split; [|done]. apply elem_of_app. by left.
Qed.

Lemma send_core command appendEnter snippetId targets clearInput setSendMode load s :
  core_but [] s → core_but [] (sendCommandTextToTargets tr tr_with tauri command appendEnter snippetId targets clearInput setSendMode load s).
Proof.
  intros Hcore. unfold sendCommandTextToTargets. case_decide as E; [done|]. cbv zeta.
  set (s1 := if setSendMode then _ else s). assert (core_but [] s1) as H1 by (unfold s1; destruct setSendMode; [by eapply core_fields; [..|exact Hcore]|done]).
  clearbody s1. set (job := mkJob (cm_next s1) command appendEnter snippetId targets clearInput load).
  apply loop_core. destruct (start_core job s1 H1) as [G1 G2 G3 G4]; [done|tauto|tauto|].
  split; [by eapply core_fields; [..|exact G1]|done|done|done].
Qed.

Lemma settle_write_core n job deliveries key rest error s :
  core_but [] s → (n, CallWrite job deliveries key rest) ∈ cm_calls s →
  core_but [] (settle_write tr tr_with tauri job deliveries key rest error (mset_calls (filter (λ entry : nat * SenderCall, entry.1 ≠ n) (cm_calls s)) s)).
Proof.
  intros [c1 c2 c3 c4 c5 c6 c7 c8 c9 c10 c11] Hin. unfold settle_write. destruct (c6 _ _ _ _ _ Hin) as (Hjob & Hkeys & Hwrites & Ht).
  assert (∀ entry, entry ∈ filter (λ entry : nat * SenderCall, entry.1 ≠ n) (cm_calls s) → entry ∈ cm_calls s) as Hsub
    by (intros entry Hentry; by apply list_elem_of_filter in Hentry as [_ ?]).
  apply loop_core. split; [|done| |].
  - split; unfold job_writes in *; cbn [mset_calls cm_calls cm_next cm_jobs cm_reports cm_writes cm_requests]; try done.
    + eapply sublist_NoDup; [exact c1|]. apply fmap_sublist, sublist_filter.
    + intros m (entry & -> & Hentry%Hsub)%list_elem_of_fmap. apply c2, list_elem_of_fmap. by exists entry.
    + rewrite <- c5, app_nil_r, app_assoc, Permutation_app_comm. cbn. rewrite app_comm_cons. apply Permutation_app_tail.
      assert (∀ calls : list (nat * SenderCall), NoDup calls.*1 → (n, CallWrite job deliveries key rest) ∈ calls →
        sj_id job :: omap (write_job ∘ snd) (filter (λ entry : nat * SenderCall, entry.1 ≠ n) calls) ≡ₚ omap (write_job ∘ snd) calls) as Hgo; [|by apply Hgo].
      clear. induction calls as [|[m c] calls IH]; [by intros _ []%not_elem_of_nil|].
      intros [Hm Hnd]%NoDup_cons [E|Hin]%elem_of_cons.
      * injection E as -> <-. rewrite filter_cons_False by tauto. cbn. f_equiv.
        rewrite filter_all; [done|]. intros [m' c] Hc Hmn. cbn in Hmn. subst. apply Hm, list_elem_of_fmap. eexists. split; [|exact Hc]. done.
      * assert (n ≠ m) as Hne by (intros ->; apply Hm, list_elem_of_fmap; eexists; split; [|exact Hin]; done).
        rewrite filter_cons_True by done. cbn. destruct (write_job c); [|by apply IH]. rewrite Permutation_swap. f_equiv. by apply IH.
    + intros m job' ds key' rest' Hin'%Hsub. by eapply c6.
  - cbn. rewrite fmap_app, <- Hkeys, <- app_assoc. by destruct error.
  - change (job_writes (mset_calls _ s) (sj_id job)) with (job_writes s (sj_id job)). rewrite Hwrites, Ht, asked_snoc. by destruct error.
Qed.

(** ** What a send keeps *)

(** The terminals that are connected, by the keys of their tabs, with their sessions. *)
Inductive live_terminal (env : SenderEnv) : string → string → Prop :=
  | live_ssh tab session :
      tab ∈ en_sshTabs env → tt_type tab = TabTerminal → tt_sessionId tab = Some session → session ≠ "" →
      live_terminal env ("ssh:" +:+ tt_id tab) session
  | live_local tab session :
      tab ∈ en_localTabs env → lt_sessionId tab = Some session → session ≠ "" →
      live_terminal env ("local:" +:+ lt_id tab) session.

Lemma runtime_live env target : target ∈ runtime_targets env → live_terminal env (mt_key target) (mt_sessionId target).
Proof.
  intros [Hin|Hin]%elem_of_app; apply list_elem_of_bind in Hin as (tab & Ht & Htab).
  - unfold sshTarget in Ht. case_decide as Ety; [|by apply not_elem_of_nil in Ht].
    destruct (tt_sessionId tab) as [session|] eqn:Es; [|by apply not_elem_of_nil in Ht].
    destruct (truthy (Some session)) eqn:Etr; [|by apply not_elem_of_nil in Ht]. apply list_elem_of_singleton in Ht as ->.
    apply (live_ssh env tab session); [done..|]. by intros ->.
  - unfold characterTarget in Ht. destruct (lt_sessionId tab) as [session|] eqn:Es; [|by apply not_elem_of_nil in Ht].
    destruct (truthy (Some session)) eqn:Etr; [|by apply not_elem_of_nil in Ht]. apply list_elem_of_singleton in Ht as ->.
    apply (live_local env tab session); [done..|]. by intros ->.
Qed.

Lemma live_runtime env key session : live_terminal env key session → ∃ target, target ∈ runtime_targets env ∧ mt_key target = key.
Proof.
  intros [tab session' Htab Hty Hs Hne|tab session' Htab Hs Hne]; apply truthy_Some in Hne; unfold runtime_targets, buildMultiExecTargets.
  - eexists. split; [apply elem_of_app; left; apply list_elem_of_bind; exists tab; split; [|done]|].
    { unfold sshTarget. rewrite decide_True, Hs, Hne by done. by apply list_elem_of_singleton. } done.
  - eexists. split; [apply elem_of_app; right; apply list_elem_of_bind; exists tab; split; [|done]|].
    { unfold characterTarget. rewrite Hs, Hne. by apply list_elem_of_singleton. } done.
Qed.

Lemma resolve_live env key target :
  resolveCurrentMultiExecTarget env key = Some target → live_terminal env key (mt_sessionId target).
Proof. by intros [Hin <-]%js_find_Some; apply runtime_live. Qed.

Lemma resolve_gone env key session : resolveCurrentMultiExecTarget env key = None → ¬ live_terminal env key session.
Proof.
  intros Hn (target & Hin & Hk)%live_runtime. unfold resolveCurrentMultiExecTarget in Hn. rewrite js_find_None in Hn. by apply (Hn target).
Qed.

(** The writes that a step adds: at most one, to the session that the terminal of the key has
    at that moment. *)
Definition writes_now (env : SenderEnv) (l : list SentWrite) : Prop :=
  length l ≤ 1 ∧ Forall (λ w, live_terminal env (wr_key w) (wr_session w)) l.

Record calm (s s' : Sender) : Prop := {
  ca_env : cm_env s' = cm_env s;
  ca_live : live_ok (cm_mx s) → live_ok (cm_mx s');
  ca_groups : groups_ok (lb_localGroups (cm_library s)) → groups_ok (lb_localGroups (cm_library s'));
  ca_ids : ids_ok s → ids_ok s';
  ca_writes : ∃ l, cm_writes s' = cm_writes s ++ l ∧ writes_now (cm_env s) l;
}.

Lemma calm_none env : writes_now env [].
Proof. split; [cbn; lia|by constructor]. Qed.

Lemma calm_quiet s s' : quiet s s' → calm s s'.
Proof. intros [He Hj Hw Hr Hq Hc Hl Hg Hi]. split; try done. exists []. rewrite app_nil_r. split; [done|apply calm_none]. Qed.

(** A step that writes nothing, before or after one that may. *)
Lemma calm_after s1 s2 s3 : calm s1 s2 → cm_writes s2 = cm_writes s1 → calm s2 s3 → calm s1 s3.
Proof.
  intros [e1 v1 g1 i1 _] Hw [e2 v2 g2 i2 (l & Hl & Hn)]. split; [congruence|tauto|tauto|tauto|]. exists l. by rewrite Hl, Hw, <- e1.
Qed.

Lemma calm_fields s s' :
  cm_env s' = cm_env s → cm_writes s' = cm_writes s → cm_calls s' = cm_calls s → cm_library s' = cm_library s →
  (live_ok (cm_mx s) → live_ok (cm_mx s')) → calm s s'.
Proof.
  intros He Hw Hc Hl Hm. split; rewrite ?Hl; try done; [|exists []; rewrite app_nil_r; split; [done|apply calm_none]].
  intros [I1 I2]. split; [by rewrite Hl|by rewrite Hc].
Qed.

Lemma finished_calm job deliveries s : calm s (send_finished tr tr_with tauri job deliveries s).
Proof.
  unfold send_finished. cbv zeta.
  match goal with |- context [if sj_clearInput job then clearCommandSenderInput ?s' else ?s'] => set (s1 := s'); set (s2 := if sj_clearInput job then _ else s1) end.
  assert (calm s s1 ∧ cm_writes s1 = cm_writes s) as [H1 W1].
  { unfold s1. split; [|by repeat case_decide]. apply calm_fields; try (by repeat case_decide). cbn. repeat case_decide; try done; intros _; apply mx_retarget_live_ok. }
  assert (quiet s1 s2) as H2 by (unfold s2, clearCommandSenderInput; destruct (sj_clearInput job); quiet).
  clearbody s2. clearbody s1. assert (calm s s2) as H by (eapply calm_after; [exact H1|done|by apply calm_quiet]).
  case_decide; [|done]. eapply calm_after; [exact H|by rewrite (q_writes _ _ H2)|].
  eapply (calm_after _ (mset_requests _ s2)); [by apply calm_fields|done|]. apply calm_quiet, quiet_await; [done|done|apply sender_quiet_refl].
Qed.

Lemma loop_calm job deliveries keys s : calm s (send_loop tr tr_with tauri job deliveries keys s).
Proof.
  revert deliveries. induction keys as [|key keys IH]; intros deliveries; cbn [send_loop]; [apply finished_calm|].
  destruct (resolveCurrentMultiExecTarget (cm_env s) key) as [target|] eqn:E; [|apply IH]. destruct tauri; [|apply IH].
  split; try done.
  - intros [I1 I2]. split; [done|]. cbn. intros n o g affected [Hin|Hin%list_elem_of_singleton]%elem_of_app; [by eapply I2|done].
  - eexists. split; [done|]. split; [cbn; lia|]. constructor; [|done]. by apply resolve_live.
Qed.

Lemma send_calm command appendEnter snippetId targets clearInput setSendMode load s :
  calm s (sendCommandTextToTargets tr tr_with tauri command appendEnter snippetId targets clearInput setSendMode load s).
Proof.
  unfold sendCommandTextToTargets. case_decide; [apply calm_quiet, sender_quiet_refl|]. cbv zeta.
  eapply calm_after; [..|apply loop_calm]; [|by destruct setSendMode].
  by apply calm_fields; destruct setSendMode.
Qed.

(** The removal of a call that was answered. *)
Definition without_call (n : nat) (s : Sender) : Sender := mset_calls (filter (λ entry : nat * SenderCall, entry.1 ≠ n) (cm_calls s)) s.

Lemma without_calm n s : calm s (without_call n s).
Proof.
  split; try done.
  - intros [I1 I2]. split; [done|]. cbn. intros m o g affected [_ Hin]%list_elem_of_filter. by eapply I2.
  - exists []. rewrite app_nil_r. split; [done|apply calm_none].
Qed.

Lemma without_core n call s :
  core_but [] s → (n, call) ∈ cm_calls s → write_job call = None → core_but [] (without_call n s).
Proof.
  intros [c1 c2 c3 c4 c5 c6 c7 c8 c9 c10 c11] Hin Hcall. unfold without_call.
  assert (∀ entry, entry ∈ filter (λ entry : nat * SenderCall, entry.1 ≠ n) (cm_calls s) → entry ∈ cm_calls s) as Hsub
    by (intros entry Hentry; by apply list_elem_of_filter in Hentry as [_ ?]).
  split; unfold job_writes in *; cbn [mset_calls cm_calls cm_next cm_jobs cm_reports cm_writes cm_requests]; try done.
  - eapply sublist_NoDup; [exact c1|]. apply fmap_sublist, sublist_filter.
  - intros m (entry & -> & Hentry%Hsub)%list_elem_of_fmap. apply c2, list_elem_of_fmap. by exists entry.
  - rewrite <- c5. f_equiv. clear - c1 Hin Hcall. revert c1 Hin. induction (cm_calls s) as [|[m c] calls IH]; [done|].
    intros [Hm Hnd]%NoDup_cons Hin. rewrite filter_cons. case_decide as E; cbn.
    + apply elem_of_cons in Hin as [Heq|Hin]; [injection Heq as -> ->; done|]. destruct (write_job c); [f_equiv|]; by apply IH.
    + cbn in E. assert (m = n) as -> by (by destruct (decide (m = n))). assert (c = call) as ->.
      { apply elem_of_cons in Hin as [Heq|Hin]; [by injection Heq as ->|]. destruct Hm. apply list_elem_of_fmap. eexists. split; [|exact Hin]. done. }
      rewrite Hcall. rewrite filter_all; [done|]. intros [m c] Hc Hmn. cbn in Hmn. subst. apply Hm, list_elem_of_fmap. eexists. split; [|exact Hc]. done.
  - intros m job' ds key' rest' Hin'%Hsub. by eapply c6.
Qed.
(** ** What a step decides *)

(** The deliveries of a send so far. *)
Definition decided (s : Sender) (id : nat) (deliveries : list SentDelivery) : Prop :=
  (id, deliveries) ∈ cm_reports s ∨
  ∃ n job key rest, (n, CallWrite job deliveries key rest) ∈ cm_calls s ∧ sj_id job = id.

(** A terminal is gone when it is not connected now; a failure that no
    write had is that there is no backend. *)
Definition decided_now (env : SenderEnv) (d : SentDelivery) : Prop :=
  match d_status d with
  | DsDisconnected => ∀ session, ¬ live_terminal env (d_key d) session
  | DsFailed => tauri = false
  | DsWritten => False
  end.

Lemma decided_same s s' : cm_reports s' = cm_reports s → (∀ n job ds key rest, (n, CallWrite job ds key rest) ∈ cm_calls s' →
  (n, CallWrite job ds key rest) ∈ cm_calls s) → ∀ id ds, decided s' id ds → decided s id ds.
Proof.
  intros Hr Hc id ds [Hin|(n & job & key & rest & Hin & Hid)]; [left; by rewrite <- Hr|].
  right. exists n, job, key, rest. split; [by apply Hc|done].
Qed.

Lemma decided_quiet s s' : quiet s s' → ∀ id ds, decided s' id ds → decided s id ds.
Proof.
  intros Hq. apply decided_same; [apply Hq|]. intros n job ds key rest Hin. destruct (q_calls _ _ Hq) as (l & Hc & _ & _ & Hl).
  rewrite Hc in Hin. apply elem_of_app in Hin as [?|Hin]; [done|]. rewrite Forall_forall in Hl.
  assert (write_job (CallWrite job ds key rest) = None) as Hn; [|done].
  apply Hl, list_elem_of_fmap. by exists (n, CallWrite job ds key rest).
Qed.

Lemma finished_decides job deliveries s id ds :
  decided (send_finished tr tr_with tauri job deliveries s) id ds → decided s id ds ∨ (id = sj_id job ∧ ds = deliveries).
Proof.
  unfold send_finished. cbv zeta.
  match goal with |- context [if sj_clearInput job then clearCommandSenderInput ?s' else ?s'] => set (s1 := if sj_clearInput job then clearCommandSenderInput s' else s') end.
  assert (cm_reports s1 = cm_reports s ++ [(sj_id job, deliveries)] ∧ cm_calls s1 = cm_calls s) as [Hr Hc]
    by (unfold s1; destruct (sj_clearInput job); repeat case_decide; done).
  clearbody s1. assert (∀ s', cm_reports s' = cm_reports s1 →
    (∀ n job' ds' key rest, (n, CallWrite job' ds' key rest) ∈ cm_calls s' → (n, CallWrite job' ds' key rest) ∈ cm_calls s1) →
    decided s' id ds → decided s id ds ∨ (id = sj_id job ∧ ds = deliveries)) as Hgo.
  { intros s' Hr' Hc' [Hin|(n & job' & key & rest & Hin & Hid)].
    - rewrite Hr', Hr in Hin. apply elem_of_app in Hin as [Hin|Hin%list_elem_of_singleton]; [left; by left|]. right. by injection Hin as -> ->.
    - left. right. exists n, job', key, rest. split; [|done]. rewrite <- Hc. by apply Hc'. }
  case_decide; apply Hgo; try done. intros n job' ds' key rest. cbn. intros [?|Hin%list_elem_of_singleton]%elem_of_app; done.
Qed.

Lemma loop_decides job deliveries keys s id ds :
  decided (send_loop tr tr_with tauri job deliveries keys s) id ds →
  decided s id ds ∨ (id = sj_id job ∧ ∃ new, ds = deliveries ++ new ∧ Forall (decided_now (cm_env s)) new).
Proof.
  revert deliveries. induction keys as [|key keys IH]; intros deliveries; cbn [send_loop].
  { intros [?|[-> ->]]%finished_decides; [by left|]. right. split; [done|]. exists []. by rewrite app_nil_r. }
  assert (∀ d, decided_now (cm_env s) d → decided (send_loop tr tr_with tauri job (deliveries ++ [d]) keys s) id ds →
    decided s id ds ∨ (id = sj_id job ∧ ∃ new, ds = deliveries ++ new ∧ Forall (decided_now (cm_env s)) new)) as Hnext.
  { intros d Hd [?|(Hid & new & -> & Hnew)]%IH; [by left|]. right. split; [done|]. exists (d :: new). rewrite <- app_assoc. by split; [|constructor]. }
  destruct (resolveCurrentMultiExecTarget (cm_env s) key) as [target|] eqn:E; [|apply Hnext; intros session; by apply resolve_gone].
  destruct (Bool.bool_dec tauri true) as [Et|Et%not_true_is_false].
  - rewrite Et in *. intros [Hin|(n & job' & key' & rest & Hin & Hid)]; [left; by left|].
    cbn in Hin. apply elem_of_app in Hin as [Hin|Hin%list_elem_of_singleton]; [left; right; by exists n, job', key', rest|].
    injection Hin as -> -> -> -> ->. right. split; [done|]. exists []. by rewrite app_nil_r.
  - rewrite Et in *. by apply Hnext.
Qed.
End core.

(** ** Runs *)

Section runs.
Context (tr : string → string) (tr_with : string → list string → string).
Context (compare : string → string → Z) (date_parse : string → option Z) (tauri : bool).

#[local] Abbreviation step := (sender_step tr tr_with compare date_parse tauri).

(** The backend answers a call as [answer_ok] says. *)
Definition event_ok (s : Sender) (e : sender_event) : Prop :=
  match e with EvAnswer n answer => ∀ call, (n, call) ∈ cm_calls s → answer_ok call answer | _ => True end.

Fixpoint run_ok (s : Sender) (events : list sender_event) : Prop :=
  match events with [] => True | e :: events => event_ok s e ∧ run_ok (step s e) events end.

Record sender_ok (s : Sender) : Prop := {
  so_core : core_but tauri [] s;
  so_live : live_ok (cm_mx s);
  so_groups : groups_ok (lb_localGroups (cm_library s));
  so_ids : ids_ok s;
}.

Definition advances (s s' : Sender) : Prop :=
  sender_ok s' ∧ ∃ l, cm_writes s' = cm_writes s ++ l ∧ writes_now (cm_env s') l.

Lemma advances_calm s s' : sender_ok s → core_but tauri [] s' → calm s s' → advances s s'.
Proof.
  intros [_ Hl Hg Hi] Hcore [He Hl' Hg' Hi' (l & Hw & Hn)]. split; [split; auto|]. exists l. by rewrite He.
Qed.

Lemma advances_quiet s s' : sender_ok s → quiet s s' → advances s s'.
Proof. intros Hs H. apply advances_calm; [done|eapply core_quiet; [exact H|apply Hs]|by apply calm_quiet]. Qed.

Lemma advances_send s s0 command appendEnter snippetId targets clearInput setSendMode load :
  sender_ok s → quiet s s0 →
  advances s (sendCommandTextToTargets tr tr_with tauri command appendEnter snippetId targets clearInput setSendMode load s0).
Proof.
  intros Hs H. apply advances_calm; [done|apply send_core; eapply core_quiet; [exact H|apply Hs]|].
  eapply calm_after; [by apply calm_quiet|apply H|apply send_calm].
Qed.

Lemma saved_advances s command snippetId none_chosen : sender_ok s → advances s (run_saved tr tr_with tauri command snippetId none_chosen s).
Proof.
  intros Hs. unfold run_saved. cbv zeta. case_decide.
  - apply advances_quiet; [done|]. quiet_one. apply quiet_prepare, sender_quiet_refl.
  - apply advances_send; [done|apply quiet_prepare, sender_quiet_refl].
Qed.

Lemma answered_advances s n answer :
  sender_ok s → event_ok s (EvAnswer n answer) → advances s (sender_answered tr tr_with compare date_parse tauri n answer s).
Proof.
  intros Hs Hok. unfold sender_answered. destruct (js_find _ (cm_calls s)) as [[m call]|] eqn:E; [|by apply advances_quiet, sender_quiet_refl].
  apply js_find_Some in E as [Hin Hm]. cbn in Hm. subst m. destruct (settle_sender_call _ _ _ _ _ call answer) as [settle|] eqn:Es; [|by apply advances_quiet, sender_quiet_refl].
  destruct (write_job call) as [id|] eqn:Ew.
  - destruct call; try done. destruct answer; try done. cbn in Es. injection Es as <-.
    apply advances_calm; [done|by apply settle_write_core; [apply Hs|]|].
    eapply calm_after; [exact (without_calm n s)|done|apply loop_calm].
  - assert (quiet (without_call n s) (settle (without_call n s))) as Hq.
    { eapply quiet_answer; [exact Es|done|by apply Hok| |apply sender_quiet_refl]. destruct call; try done. by eapply (ik_renames _ (so_ids _ Hs)). }
    apply advances_calm; [done|eapply core_quiet; [exact Hq|by eapply without_core; [apply Hs|..]]|].
    eapply calm_after; [exact (without_calm n s)|done|by apply calm_quiet].
Qed.

Lemma step_advances s e : sender_ok s → event_ok s e → advances s (step s e).
Proof.
  intros Hs Hok. destruct (sends e) eqn:Es.
  - destruct e; try done; cbn [sender_step].
    + unfold sendCommandToTargets. case_decide; [by apply advances_quiet, sender_quiet_refl|]. by apply advances_send, sender_quiet_refl.
    + by apply saved_advances.
    + by apply saved_advances.
    + unfold sendAiCommandToTerminal. case_match; [|by apply advances_quiet; [|quiet]]. by apply advances_send; [|quiet].
  - destruct e; try done; try (apply advances_quiet; [done|]; by apply quiet_event).
    + destruct Hs as [H1 H2 H3 [H4 H5]]. split; [|exists []; rewrite app_nil_r; split; [done|apply calm_none]].
      split; [by eapply core_fields; [..|exact H1]|done|done|by split].
    + by apply answered_advances.
Qed.

(** Whatever a step adds to the deliveries of a send: the answer of the write that was in
    flight, and after it what is decided at that moment. *)
Definition answers (s : Sender) (e : sender_event) (id : nat) (old : list SentDelivery) (d : SentDelivery) : Prop :=
  ∃ n job key rest error, e = EvAnswer n (AnDone error) ∧ (n, CallWrite job old key rest) ∈ cm_calls s ∧ sj_id job = id ∧
    d = match error with None => mkDelivery None key DsWritten | Some error => mkDelivery (Some error) key DsFailed end.

Definition step_decides (s : Sender) (e : sender_event) (id : nat) (ds : list SentDelivery) : Prop :=
  decided s id ds ∨
  ∃ old answered new, ds = old ++ answered ++ new ∧ Forall (decided_now tauri (cm_env s)) new ∧
    (old = [] ∧ answered = [] ∨ ∃ d, answered = [d] ∧ decided s id old ∧ answers s e id old d).

Lemma send_decides s e s0 command appendEnter snippetId targets clearInput setSendMode load id ds :
  quiet s s0 →
  decided (sendCommandTextToTargets tr tr_with tauri command appendEnter snippetId targets clearInput setSendMode load s0) id ds →
  step_decides s e id ds.
Proof.
  intros Hq. unfold sendCommandTextToTargets. case_decide as E0; [intros Hd; left; by eapply decided_quiet|]. cbv zeta.
  intros [H|(_ & new & -> & Hnew)]%loop_decides.
  - left. eapply (decided_quiet s s0 Hq). revert H. apply decided_same; by destruct setSendMode.
  - right. exists [], [], new. split; [done|]. split; [|by left]. eapply Forall_impl; [exact Hnew|]. intros d.
    assert (∀ s', cm_env s' = cm_env s → decided_now tauri (cm_env s') d → decided_now tauri (cm_env s) d) as Hgo by by intros s' ->.
    apply Hgo. rewrite <- (q_env _ _ Hq). by destruct setSendMode.
Qed.

Lemma step_decided s e id ds :
  sender_ok s → event_ok s e → decided (step s e) id ds → step_decides s e id ds.
Proof.
  intros Hs Hok. assert (∀ s', quiet s s' → decided s' id ds → step_decides s e id ds) as Hquiet by (intros s' Hq H; left; by eapply decided_quiet).
  destruct (sends e) eqn:Es.
  - destruct e; try done; cbn [sender_step].
    + unfold sendCommandToTargets. case_decide; [by apply Hquiet, sender_quiet_refl|]. apply send_decides, sender_quiet_refl.
    + unfold runCommandSnippet, run_saved. cbv zeta. case_decide; [|apply send_decides, quiet_prepare, sender_quiet_refl].
      apply Hquiet. quiet_one. apply quiet_prepare, sender_quiet_refl.
    + unfold runCommandHistoryEntry, run_saved. cbv zeta. case_decide; [|apply send_decides, quiet_prepare, sender_quiet_refl].
      apply Hquiet. quiet_one. apply quiet_prepare, sender_quiet_refl.
    + unfold sendAiCommandToTerminal. case_match; [|by apply Hquiet; quiet]. apply send_decides. quiet.
  - destruct e; try done; try by (apply Hquiet, quiet_event).
    + intros H. left. revert H. by apply decided_same.
    + cbn [sender_step]. unfold sender_answered. destruct (js_find _ (cm_calls s)) as [[m call]|] eqn:E; [|by apply Hquiet, sender_quiet_refl].
      apply js_find_Some in E as [Hin Hm]. cbn in Hm. subst m.
      destruct (settle_sender_call _ _ _ _ _ call answer) as [settle|] eqn:Ese; [|by apply Hquiet, sender_quiet_refl].
      assert (∀ id ds, decided (without_call number s) id ds → decided s id ds) as Hw.
      { apply decided_same; [done|]. intros n job ds' key rest [_ ?]%list_elem_of_filter. done. }
      destruct (write_job call) as [job_id|] eqn:Ew.
      * destruct call; try done. destruct answer; try done. cbn in Ese. injection Ese as <-.
        intros [H|(-> & new & -> & Hnew)]%loop_decides; [left; by apply Hw|]. right. rewrite <- app_assoc.
        eexists deliveries, [_], new. split; [done|]. split; [exact Hnew|]. right. eexists. split; [done|].
        split; [right; by exists number, job, key, rest|]. by exists number, job, key, rest, error.
      * intros H. left. apply Hw. revert H. eapply decided_quiet, quiet_answer; [exact Ese|done|by apply Hok| |apply sender_quiet_refl].
        destruct call; try done. by eapply (ik_renames _ (so_ids _ Hs)).
Qed.

Lemma run_sender_ok s events : sender_ok s → run_ok s events → sender_ok (sender_run tr tr_with compare date_parse tauri s events).
Proof.
  revert s. induction events as [|e events IH]; intros s Hs; [done|]. intros [He Hrun]. apply IH; [|done]. by apply step_advances.
Qed.

Lemma sender_initial_ok env : sender_ok (initial_sender tr env).
Proof.
  split; [|done|split; [apply NoDup_nil_2|by constructor]|split; [apply NoDup_nil_2|by intros n o g affected Hin%not_elem_of_nil]].
  split; try done; try (by apply NoDup_nil_2); intros; by match goal with H : _ ∈ _ |- _ => apply not_elem_of_nil in H end.
Qed.
End runs.

(** ** Properties *)

(** What the logs say of a send: it is in flight at one of its targets, or its report is there. *)
Inductive send_state (tauri : bool) (s : Sender) (job : SendJob) : Prop :=
  | send_in_flight n deliveries key rest :
      (n, CallWrite job deliveries key rest) ∈ cm_calls s →
      (d_key <$> deliveries) ++ key :: rest = cs_key <$> sj_targets job →
      wr_key <$> job_writes s (sj_id job) = asked deliveries ++ [key] →
      send_state tauri s job
  | send_reported deliveries :
      (sj_id job, deliveries) ∈ cm_reports s →
      d_key <$> deliveries = cs_key <$> sj_targets job →
      wr_key <$> job_writes s (sj_id job) = (if tauri then asked deliveries else []) →
      send_state tauri s job.

Lemma core_send_state tauri s job : core_but tauri [] s → job ∈ cm_jobs s → send_state tauri s job.
Proof.
  intros [c1 c2 c3 c4 c5 c6 c7 c8 c9 c10 c11] Hjob.
  assert (∀ job', job' ∈ cm_jobs s → sj_id job' = sj_id job → job' = job) as Hinj.
  { intros job' Hjob' Hid. apply list_elem_of_lookup in Hjob as [i Hi]. apply list_elem_of_lookup in Hjob' as [j Hj].
    assert (i = j) as <-; [|congruence]. eapply NoDup_lookup; [exact c3|by rewrite list_lookup_fmap, Hi|by rewrite list_lookup_fmap, Hj, <- Hid]. }
  assert (sj_id job ∈ sj_id <$> cm_jobs s) as Hin by (apply list_elem_of_fmap; by exists job).
  rewrite <- c5, app_nil_r in Hin. apply elem_of_app in Hin as [Hin|Hin].
  - apply list_elem_of_omap in Hin as ([n call] & Hcall & Hid). cbn in Hid. destruct call; try done. injection Hid as Hid.
    destruct (c6 _ _ _ _ _ Hcall) as (G1 & G2 & G3 & _). assert (job0 = job) as -> by by apply Hinj. by eapply send_in_flight.
  - apply list_elem_of_fmap in Hin as ([id deliveries] & Hid & Hrep). cbn in Hid. subst id.
    destruct (c7 _ _ Hrep) as (job' & G1 & G2 & G3 & G4). assert (job' = job) as -> by by apply Hinj. by eapply send_reported.
Qed.

(** C40: The command sender delivers what was sent. Whatever the user does, in whatever order
    the backend answers and whatever terminals come and go (an answer that lists snippets
    has different ids, and a rename answers for the snippets it was asked for): a send has a
    command that is not blank and at least one target; it is either in flight at one of its
    targets, with the earlier ones delivered in order, or it has exactly one report, with one
    delivery for each target in order; it wrote once to each target up to there that was not
    gone at its turn, and to nothing else; a target counts as gone only when no connected
    tab has its key at that step, as written or failed only by the answer of its write
    (or, without a backend, as failed); every write carries the command of its send, and goes
    to the session that the terminal has at that moment; a report with a success makes one
    request to the history, no other send makes one, and it has the trimmed command, the
    number of successes and exactly the scopes of those targets, each once. Live input is
    never on without receivers, the groups that were added are normal and different, and the
    snippets that are listed have different ids. *)
Theorem command_sender_safe tr tr_with compare date_parse tauri env events :
  run_ok tr tr_with compare date_parse tauri (initial_sender tr env) events →
  let s := sender_run tr tr_with compare date_parse tauri (initial_sender tr env) events in
  (∀ job, job ∈ cm_jobs s → trim_string (sj_command job) ≠ "" ∧ sj_targets job ≠ [] ∧ send_state tauri s job) ∧
  NoDup (cm_reports s).*1 ∧
  (∀ w, w ∈ cm_writes s → ∃ job, job ∈ cm_jobs s ∧ wr_job w = sj_id job ∧ wr_data w = sent_payload job) ∧
  (∀ e, event_ok s e → let s' := sender_step tr tr_with compare date_parse tauri s e in
    (∃ l, cm_writes s' = cm_writes s ++ l ∧ writes_now (cm_env s') l) ∧
    ∀ id deliveries, decided s' id deliveries → step_decides tauri s e id deliveries) ∧
  (∀ r id, r ∈ cm_requests s → rq_job r = Some id →
    ∃ job deliveries, job ∈ cm_jobs s ∧ sj_id job = id ∧ (id, deliveries) ∈ cm_reports s ∧ request_ok r job deliveries) ∧
  NoDup (omap rq_job (cm_requests s)) ∧
  (tauri = true → ∀ id deliveries, (id, deliveries) ∈ cm_reports s → written_keys deliveries ≠ [] →
    ∃ r, r ∈ cm_requests s ∧ rq_job r = Some id) ∧
  live_ok (cm_mx s) ∧ groups_ok (lb_localGroups (cm_library s)) ∧ NoDup (sn_id <$> lb_snippets (cm_library s)).
Proof.
  intros Hrun. cbv zeta. pose proof (run_sender_ok _ _ _ _ _ _ _ (sender_initial_ok tr tauri env) Hrun) as Hs.
  set (s := sender_run _ _ _ _ _ _ _) in *. clearbody s. pose proof Hs as [Hcore Hlive Hgroups [Hids _]].
  assert (NoDup (cm_reports s).*1) as Hreports.
  { destruct Hcore as [_ _ Hjobs _ Hsplit _ _ _ _ _ _]. rewrite <- Hsplit in Hjobs. apply NoDup_app in Hjobs as (_ & _ & Hjobs).
    by rewrite app_nil_r in Hjobs. }
  split_and!; try done.
  - intros job Hjob. destruct (co_jobs_ok _ _ _ Hcore job Hjob) as (_ & H1 & H2). split_and!; [done..|by apply core_send_state].
  - apply Hcore.
  - intros e He. cbv zeta. split; [by apply step_advances|]. intros id ds. by apply step_decided.
  - apply Hcore.
  - eapply sublist_NoDup; [exact Hreports|apply Hcore].
  - apply Hcore.
Qed.

(** ** Runs that show more *)

Definition example_tab (id : string) : TerminalTab := mkTerminalTab None None id ("c" +:+ id) 1 None (Some ("s" +:+ id)) "connected" None id TabTerminal [].
Definition example_connection (id : string) : SenderConnection := mkSenderConnection id id None "host" 22 "root" None.
Definition example_env : SenderEnv := mkEnv [example_tab "a"; example_tab "b"] [] [example_connection "ca"; example_connection "cb"] [] [] ModeSsh None None None None false true.
Definition example_run : list sender_event → Sender :=
  sender_run id (λ key _, key) byte_compare (λ _, None) true (initial_sender id example_env).
Definition example_snippet : CommandSnippet := mkSnippet "s1" "List" "ls" None "" [] false 0 None "1" "1".
Definition example_entry (id : string) : CommandHistoryEntry := mkHistoryEntry id "ls" FromCommandSender 1 true 1 "1" "1".

Definition chosen_ab : list sender_event := [EvToggleTarget "ssh:a"; EvToggleTarget "ssh:b"].

Definition delivered_run : list sender_event :=
  chosen_ab ++ [EvInput "ls"; EvSend true; EvAnswer 1 (AnDone None); EvAnswer 2 (AnDone (Some "closed"))].

(** A failed write does not keep the others from the history. *)
Example delivered_run_request :
  cm_requests (example_run delivered_run) = [mkRequest (Some 0) "ls" true [mkScope ScopeSsh "ca"] FromCommandSender 1].
Proof. vm_compute. done. Qed.

(** A second send does not wait for the first: the second terminal can get the second command
    before the first one. *)
Example second_send_overtakes :
  let s := example_run (chosen_ab ++ [EvInput "cd /tmp"; EvSend false; EvInput "ls"; EvSend false; EvAnswer 3 (AnDone None); EvAnswer 1 (AnDone None)]) in
  (λ w, (wr_key w, wr_data w)) <$> cm_writes s = [("ssh:a", "cd /tmp"); ("ssh:a", "ls"); ("ssh:b", "ls"); ("ssh:b", "cd /tmp")].
Proof. vm_compute. done. Qed.

(** What is typed while a send is in flight is lost when it ends. *)
Example typed_while_sending_lost :
  let before := example_run (chosen_ab ++ [EvInput "ls"; EvSend true; EvInput "whoami"; EvAnswer 1 (AnDone None)]) in
  let after := sender_step id (λ key _, key) byte_compare (λ _, None) true before (EvAnswer 2 (AnDone None)) in
  cm_input before = "whoami" ∧ cm_input after = "".
Proof. vm_compute. done. Qed.

(** A late answer of the history of another scope replaces that of the chosen one. *)
Example late_history_shown :
  let s := example_run [EvRender; EvScopeKey "ssh:ca"; EvRender; EvAnswer 1 (AnLoaded (inl ([], [example_entry "of a"])));
    EvAnswer 0 (AnLoaded (inl ([], [example_entry "of all"])))] in
  lb_history (cm_library s) = [example_entry "of all"] ∧ lb_scopeKey (cm_library s) = "ssh:ca".
Proof. vm_compute. done. Qed.

(** A snippet that is deleted while its use is recorded is listed again. *)
Example deleted_snippet_returns :
  let s := example_run (chosen_ab ++
    [EvRender; EvAnswer 0 (AnLoaded (inl ([example_snippet], []))); EvRunSnippet example_snippet; EvAnswer 1 (AnLoaded (inl ([example_snippet], [])));
     EvAnswer 3 (AnDone None); EvAnswer 4 (AnDone None); EvAnswer 5 (AnEntry (inl "h1")); EvAnswer 6 (AnLoaded (inl ([example_snippet], [])));
     EvAskDeleteSnippet (Some example_snippet); EvDeleteSnippet; EvAnswer 8 (AnDone None)]) in
  let s' := sender_step id (λ key _, key) byte_compare (λ _, None) true s (EvAnswer 7 (AnSnippet (inl example_snippet))) in
  lb_snippets (cm_library s) = [] ∧ lb_snippets (cm_library s') = [example_snippet].
Proof. vm_compute. done. Qed.

(** The state of a delivery to a terminal that is gone is dropped by the next render, so the
    message for it is never shown. *)
Lemma disconnected_unseen tr tr_with tauri s key :
  resolveCurrentMultiExecTarget (cm_env s) key = None → jsmap_get key (cm_delivery (rendered tr tr_with tauri s)) = None.
Proof.
  intros Hnone. assert (key ∉ (cs_key <$> sender_targets s)) as Hkey.
  { unfold resolveCurrentMultiExecTarget in Hnone. intros (t & -> & Ht)%list_elem_of_fmap. unfold sender_targets, buildCommandSenderTargets in Ht.
    apply list_elem_of_fmap in Ht as (target & -> & Ht). apply (js_find_None (λ target0, mt_key target0 = _)) with (x := target) in Hnone; [|done].
    apply Hnone. unfold sender_target. by destruct (mt_kind target). }
  assert (∀ m : jsmap CommandSenderDelivery, jsmap_get key (filter (λ entry : string * CommandSenderDelivery, entry.1 ∈ (cs_key <$> sender_targets s)) m) = None) as Hfilter.
  { induction m as [|[k v] m IH]; [done|]. rewrite filter_cons. case_decide as E; [|done]. cbn. rewrite decide_False; [done|]. by intros ->. }
  unfold rendered. cbn [foldl]. set (s4 := scope_option_effect _ _ _ _).
  assert (∀ s' : Sender, cm_delivery (file_tab_effect s (selected_history_effect s (selected_snippet_effect s s'))) = cm_delivery s') as ->; [|apply Hfilter].
  intros s'. unfold file_tab_effect, selected_history_effect, selected_snippet_effect. repeat (case_match || case_decide); done.
Qed.

Lemma command_sender_safe_witness :
  run_ok id (λ key _, key) byte_compare (λ _, None) true (initial_sender id example_env) delivered_run ∧
  let s := example_run delivered_run in
  length (cm_jobs s) = 1 ∧ (∀ job, job ∈ cm_jobs s → trim_string (sj_command job) ≠ "" ∧ sj_targets job ≠ [] ∧ send_state true s job).
Proof.
  assert (run_ok id (λ key _, key) byte_compare (λ _, None) true (initial_sender id example_env) delivered_run) as Hrun.
  { cbn [delivered_run chosen_ab app run_ok event_ok]. split_and!; try done; intros call Hin; by destruct call. }
  split; [exact Hrun|]. cbv zeta. split; [vm_compute; reflexivity|].
  exact (proj1 (command_sender_safe id (λ key _, key) byte_compare (λ _, None) true example_env delivered_run Hrun)).
Defined.
